(* ===== verification/_CoqProject ===== *)
-Q . S2P
Prelude.v
SafeInt.v
Mem.v
Streamable.v
Container.v
ContainerTheory.v
BMem.v
BChunks.v
ChunkBuffer.v
BRef.v
SubParser.v
Parser.v
PartsTheory.v
CLib.v
HttpContent.v
HttpChunks.v
MimeHeader.v
HeaderTheory.v
Mime.v
MimeTheory.v
Encoders.v
UrlStream.v
HttpVars.v
HttpLines.v
HttpHeaders.v
HttpResponse.v
WebSocket.v
HttpServer.v
HttpServerTheory.v
HttpFlow.v
HttpClient.v
HttpClientTheory.v
HttpExamples.v
HttpClientSends.v
FilePaths.v
Jwt.v
JwtVerify.v
Threads.v
Sessions.v
Endpoints.v
ResourcesFilter.v
Cors.v
WebApi.v
HtmlEngine.v
WebCore.v
Restful.v
Monolith.v
ApiProxy.v
WebExamples.v
VarData.v
VarList.v
VarNet.v
AbstractVars.v
VarTheory.v
JsonExpr.v
JsonExprTheory.v
JsonExprMeaning.v
JsonExprCorrect.v
JsonExprTotal.v
JsonExprExamples.v
SockStream.v
SockTheory.v
SockWires.v
SockAuth.v
