(* ===== verification/Prelude.v ===== *)
(** * libMantids30: a verification library

    libMantids30 is a C++ library for networked programs.  Its lower half is a
    stack of byte plumbing: containers of bytes, streams that write into one
    another, parsers that consume a stream piece by piece.  On it stand the
    protocols (MIME, HTTP/1, WebSocket), the tokens and sessions, and the servers
    of APIs and pages.  This development models the stack from the bottom up to
    those servers, and proves what each layer promises to the next one.

    ** The parts and how they interact

    Bytes and streams:
    - [SafeInt.v]: Helpers/safeint.h.  Checked arithmetic and casts over any
      integral type, given by its width and signedness.
    - [Mem.v]: Helpers/mem.cpp and mem.h.  The block-wise [memcpy64],
      [memmove64], [memcmp64], [memicmp2], the case folding matrix and
      [BinaryDataContainer].  A block of memory is a list of bytes and an access
      past its end is [Undef].
    - [Streamable.v]: Memory/streamable_object, streamable_string,
      streamable_null, streamable_transformer.  The class [Sink] is the virtual
      [write] of [StreamableObject], and the inherited loops are written once
      against it.  [SinkSpec] is the promise of a sink to its clients.
    - [Container.v]: Memory/b_base.cpp.  The class [Container] is the virtual
      interface of a storage method; every public operation of [B_Base] is
      written once against it.
    - [ContainerTheory.v]: what a storage method promises ([ContentsSpec],
      [ScanSpec], [ReadSpec]) and the behaviour of the public operations, proved
      from those promises alone.
    - [BMem.v], [BChunks.v], [BRef.v]: the storage methods [B_MEM], [B_Chunks],
      [B_Ref], each an instance of [Container] that discharges the promises.
      A [B_Ref] does not own its target: the target is passed beside it.
    - [ChunkBuffer.v]: [B_Chunks] as its clients use it, as a buffer in memory
      and as a sink.
    - [SubParser.v]: Memory/subparser.cpp.  Every parse strategy, over an
      arbitrary [parse()] (class [SubParserImpl]).
    - [Parser.v]: Memory/parser.cpp.  The stream parser over an arbitrary
      protocol (class [ParserImpl]).  [PartsTheory.v]: a protocol with several
      sub-parsers, seen while one of them is the current one (record [Part]).
    - [CLib.v]: what the code uses of the C and C++ libraries and of Boost on
      texts: numbers read and printed, searching, splitting, ordered maps.
    - [Encoders.v], [UrlStream.v]: Helpers/encoders.cpp and the two URL
      transformers of Protocol_HTTP.

    MIME and HTTP/1:
    - [HttpContent.v], [HttpChunks.v]: Protocol_HTTP/common_content.cpp and the
      chunked transformer.  Receiving in the three transmission modes against a
      machine over single bytes, and sending.
    - [MimeHeader.v], [HeaderTheory.v], [Mime.v], [MimeTheory.v]: Protocol_MIME.
      Headers with their options and parameters; messages with parts.
    - [HttpVars.v], [HttpLines.v], [HttpHeaders.v]: the variables of URLs, the
      request and status lines, cookies, dates and the security headers.
    - [HttpResponse.v], [HttpServer.v], [HttpServerTheory.v], [HttpFlow.v]: the
      server of one connection (Protocol_HTTP/httpv1_base.cpp, httpv1_server.cpp
      and its other files), over the application it serves (class
      [HttpHandlers]); [HttpExamples.v] has it at concrete inputs.
    - [HttpClient.v], [HttpClientTheory.v], [HttpClientSends.v]:
      Protocol_HTTP/httpv1_client.cpp.  The client, another protocol over the same
      sub-parsers: what it sends, and what it reads of a response.
    - [WebSocket.v]: the frames as sub-parsers, and the server side.
    - [FilePaths.v]: httpv1_server_filepaths.cpp.  From a URI to a file.

    Tokens, threads and sessions:
    - [Jwt.v], [JwtVerify.v]: DataFormat_JWT.  Tokens, the cache of verified
      payloads and the revocation list (one atomic step per section under the
      mutex), signing and verification; instances of the parameters.
    - [Threads.v]: Threads/safe_map.h, safe_queue.h, threadpool.cpp, as systems of
      threads with a step relation.
    - [Sessions.v]: API_EndpointsAndSessions/session.cpp and
      Server_MonolithWebAPI/sessionsmanager.cpp.
    - [Endpoints.v], [Cors.v], [ResourcesFilter.v]: who may call what; the answers to
      OPTIONS; the rules for files.

    Servers of APIs and pages:
    - [WebApi.v]: Server_WebCore/apiserver_clienthandler.h and apiserver_config.h:
      the state of a connection, the configuration, and the class [ApiServer] of
      the virtual functions a kind of server supplies.
    - [HtmlEngine.v]: htmliengine.cpp.  Pages with tags.
    - [WebCore.v]: apiserver_clienthandler.cpp and its WebSocket half: a request from
      its content to the answer, an instance of [HttpHandlers] for any [ApiServer].
    - [ApiProxy.v]: apiproxy.cpp and apiproxy_config.cpp.  Requests that are given to
      another server with the client of HttpClient.v.
    - [Restful.v], [Monolith.v]: Server_RESTfulWebAPI and Server_MonolithWebAPI,
      two instances of [ApiServer]; [WebExamples.v] has them at concrete inputs.

    Abstract variables:
    - [VarData.v], [VarList.v], [VarNet.v], [AbstractVars.v], [VarTheory.v]: the classes
      Memory/a_*.  A [Var] is its base members with the members of its class; the
      virtual functions are functions by the class.  [VariableMap] holds pointers
      into a heap.

    Expressions over JSON:
    - [JsonExpr.v]: Scripts_JSONExprEval.  Compiling an expression into a tree of
      sub-expressions and atoms, and evaluating it over a document.
    - [JsonExprTheory.v], [JsonExprMeaning.v], [JsonExprCorrect.v],
      [JsonExprTotal.v], [JsonExprExamples.v]: a grammar of expressions with their
      meaning, the compiled text against that meaning, texts of any form, and
      concrete ones.

    Sockets:
    - [SockStream.v]: Net_Sockets.  [Socket_Stream] with its reader and writer, the
      reader of lines, the socket in memory and the mutual challenge, over the class
      [StreamIO] of what a kind of socket supplies.
    - [SockTheory.v], [SockWires.v], [SockAuth.v]: the promise of a socket
      ([StreamLaws]) and what follows from it; sockets that keep it; the challenge.

    A definition has the name of the function or member it models; a prefix is
    added where two classes use the same name ([bm_], [bc_], [ref_], [fh_],
    [fcontent_], [ws_], [hs_], [rest_], [mono_], ...).  An object is a record of its
    members; a method takes the object last and returns it with its result; a
    setter [x_set_f] is an assignment to the member [f].  A part of a long function
    has a name of its own, and the function is the composition of its parts.

    ** Conventions

    A [size_t] is a [Z] and its arithmetic is wrapped with [wrap] where the code
    can wrap; other widths with [wrapw].  A byte is a [Z] in [0, 255]; where the
    code handles a [char], [to_char] gives its signed value.  A buffer argument is
    the list of the bytes it holds.  An operation that can fail returns an
    [outcome]: a value, a thrown exception, undefined behaviour, or [NoFuel].  An
    [std::optional] is an [option].  An object shared by pointer is in a store and
    known by its address ([Sessions.v], [WebApi.v], the options of [MimeHeader.v]);
    the clock, and what a random generator draws, are arguments.

    Loops are structural where the code counts down its own data, and take fuel
    otherwise: [writeFullStream] one round per byte and two more; [find] one per
    byte of the search space; [toString] one per block of 8192 bytes; the binary
    search over chunks one per chunk; the append loop one per byte or per chunk
    that may be added; [parseData] the TTL counter; the URL encoder one per byte;
    [sendWebSocketData] one per frame; the replacement of tags one per byte of the
    page; the compiler of expressions one per quote, per character and per group, and
    the square of the number of parentheses for the nesting; a socket one per byte.
    For each of them a theorem shows that the fuel is enough under the conditions
    of the component (the properties are equations with [Ret], or say
    [<> NoFuel]).  Two loops of the code have no end, and a theorem says so for
    every amount of fuel: [encoder_hangs_when_full] and [self_include_never_ends].

    ** What the theorems show

    - Containers and streams: appending and reading back; [find] returns the first
      occurrence; the binary search over the chunk offsets is exact; the promise of
      [SinkSpec] for strings, chunk containers and the transformers.
    - Parsing: [write] ends for every protocol and takes its whole input; the sizes
      of the writes do not matter to the delimiter strategy, to a body in any of the
      transmission modes ([content_any_fragmentation] against [byte_step]) and to
      the body of a response.
    - Encoders, variables, headers, lines, cookies: round trips, and equality with
      reference definitions.  A header keeps its invariant under its operations while
      its maximum is not set below its size; the parts of a MIME message stay linked.
    - HTTP: a request and a response that are sent are the ones that are received
      ([request_received], [client_reaches_server], [response_received]), apart from
      the credentials and the cookies of the client; a response is sent with exactly
      the headers the code sets; a connection becomes a WebSocket only after the test
      of the handshake, in its first request.  Frames that are sent decode to the
      message.
    - Files: nothing outside of the directories of the server is served; a file
      that is there is served; the filter decides by its first rule that applies.
    - Tokens: under every interleaving the cache keeps its count and its limit, the
      revocation list answers exactly.  A payload that [verify] accepts was signed
      under the keys of the object, or under keys that were replaced while a
      verification ran ([replaced_key_accepted]: this does happen); a signed token
      verifies.  A verification is not one step: what other threads do between its
      look into the cache, its check of the signature, its look into the revocation
      list and its storing of the payload is in the steps of [JwtVerify.v].
    - Threads: no item is deleted under a reader; tasks run once and in order;
      no task is lost.
    - Servers: the whole way of an API call ([api_call_answered]); a file is
      answered only if the filter accepts it; tags are replaced once; who is
      authenticated in a first request of a RESTful connection, and in a request to
      a monolithic server; a request that is passed on to another server names the
      user of the session and nobody else, also as that server reads its bytes, as
      long as no option breaks its line.
    - Abstract variables: a variable is made again from its text; a [VARCHAR] never
      writes outside of its memory; the two maps of a [VariableMap] are one map; the
      ranges of addresses, and where they are not the network.
    - Expressions: an expression of the grammar evaluates to its meaning; every text
      is compiled or refused; what a group that was refused does to the whole.
    - Sockets: texts arrive whole and in order, lines as they end, in any fragments;
      the two sides of the challenge agree, and a client that hears its own echo is
      satisfied.
    - Departures: theorems that state what the code does where it does not do
      what it is for (among them: the login that is never answered, the session
      that ends with each request, the refused token that is used, revocation
      behind the cache, the thread pool that cannot stop).

    ** Parameters

    The memory mapped container and its files ([MMapFile]), the objects a content
    is received in ([ContentObjects], [HttpObjects], [PartObjects], [WebObjects]),
    the base64 filter and the digests, keys and allocations of OpenSSL
    ([Base64BIO], [SHA1], [OpenSSL] and its laws), the random generators
    ([RandomBytes], [Mt19937]), [strftime] and [timegm] ([DateFormat]), JsonCpp
    ([JsonCpp], [JsonOutput], with the laws [JsonLaws]), the file system
    ([FileSystem], [WebFiles]), the regular expressions and property trees of Boost
    ([BoostRegex], [PropertyTree], [PropertyValues]), the date of the build ([BuildTime]), the texts
    of network addresses ([InetLib], with the laws [InetLaws]), floating point
    numbers and the time functions of C ([FloatLib], [TimeLib]), the paths of JsonCpp
    and the patterns of users ([JsonPath], [UserRegex]), the kinds of sockets
    ([StreamIO], with the laws [StreamLaws]) and making a connection, the digest of the challenge
    ([SHA256]), the functions of the application.  Where a theorem depends on one of them its
    witness instantiates it.

    ** What is not modelled

    The sockets of the system, TLS and ciphers, network interfaces, database drivers,
    process and terminal handling, readers of configuration files: system calls and
    calls of external libraries.  The log of the operations, which changes no state.
    The threads that sleep between two sweeps (a sweep may happen at any time).  The
    remote procedure calls, the bridges and chains of sockets and the acceptors:
    threads over sockets of the system, with little of their own besides. *)

From Stdlib Require Import ZArith Lia String Ascii.
From stdpp Require Export prelude.
From stdpp Require Export strings.

#[export] Set Default Goal Selector "!".

Declare Scope mantids_scope.
Delimit Scope mantids_scope with mantids.
#[global] Open Scope Z_scope.

(** ** Machine integers *)

(** [size_t] is 64 bits wide: values are the integers of [0, SIZE_MAX]. *)
Definition SIZE_MOD : Z := 18446744073709551616.
Definition SIZE_MAX : Z := SIZE_MOD - 1.
Definition UINT32_MAX : Z := 4294967295.
Definition KB_MULT : Z := 1024.

(** Unsigned 64-bit arithmetic wraps around. *)
Definition wrap (x : Z) : Z := x mod SIZE_MOD.

(** Unsigned arithmetic at another width. *)
Definition wrapw (w x : Z) : Z := x mod 2 ^ w.

(** The conversion of a 64-bit pattern to [ssize_t]. *)
Definition to_ssize (x : Z) : Z := if 9223372036854775808 <=? x then x - SIZE_MOD else x.

(** Values a [size_t] can hold. *)
Definition is_size (x : Z) : Prop := 0 <= x < SIZE_MOD.

(** [CHECK_UINT_OVERFLOW_SUM(a, b)] of Helpers/mem.h. *)
Definition CHECK_UINT_OVERFLOW_SUM (a b : Z) : bool :=
  (wrap (a + b) <? a) || (wrap (a + b) <? b).

(** ** Bytes

    A byte is an [unsigned char]; where the source handles a plain [char],
    which is signed on the supported targets, [to_char] gives its value. *)
Abbreviation byte := Z (only parsing).
Abbreviation bytes := (list Z) (only parsing).

Definition is_byte (b : byte) : Prop := 0 <= b < 256.
Definition to_char (b : byte) : Z := if 128 <=? b then b - 256 else b.
Definition of_char (c : Z) : byte := c mod 256.

Definition bytes_of_string (s : string) : bytes :=
  map (fun a => Z.of_N (N_of_ascii a)) (String.list_ascii_of_string s).
Abbreviation bs s := (bytes_of_string s%string) (only parsing).

(** ** Lists indexed by [size_t] values *)
Definition zlen {A} (l : list A) : Z := Z.of_nat (length l).
Definition ztake {A} (n : Z) (l : list A) : list A := take (Z.to_nat n) l.
Definition zdrop {A} (n : Z) (l : list A) : list A := drop (Z.to_nat n) l.
Definition slice {A} (off n : Z) (l : list A) : list A := ztake n (zdrop off l).

(** ** Results of operations that may throw

    [Undef] is undefined behaviour (an access outside an object); [NoFuel] is
    the answer of a loop whose fuel ran out, and never the result of one that
    ends. *)
Inductive exn :=
| runtime_error (what : string)
| overflow_error (what : string)
| underflow_error (what : string)
| invalid_argument (what : string)
| logic_error (what : string)
| bad_alloc.

Inductive outcome (A : Type) :=
| Ret (a : A)
| Throw (e : exn)
| Undef
| NoFuel.
Arguments Ret {_} _.
Arguments Throw {_} _.
Arguments Undef {_}.
Arguments NoFuel {_}.

#[export] Instance outcome_ret : MRet outcome := fun A a => Ret a.
#[export] Instance outcome_bind : MBind outcome := fun A B f x =>
  match x with
  | Ret a => f a
  | Throw e => Throw e
  | Undef => Undef
  | NoFuel => NoFuel
  end.

#[export] Instance outcome_fmap : FMap outcome := fun A B f x => x ≫= (fun a => Ret (f a)).

#[global] Open Scope string_scope.
#[global] Open Scope list_scope.
#[global] Open Scope Z_scope.

(** A test on an optional value's presence, [x != std::nullopt]. *)
Definition has_value {A} (o : option A) : bool :=
  match o with Some _ => true | None => false end.

(** ** Characters of the C locale *)
Definition isdigit (c : Z) : bool := (48 <=? c) && (c <=? 57).
Definition isupper (c : Z) : bool := (65 <=? c) && (c <=? 90).
Definition islower (c : Z) : bool := (97 <=? c) && (c <=? 122).
Definition isalpha (c : Z) : bool := isupper c || islower c.
Definition isalnum (c : Z) : bool := isalpha c || isdigit c.
Definition isxdigit (c : Z) : bool :=
  isdigit c || ((65 <=? c) && (c <=? 70)) || ((97 <=? c) && (c <=? 102)).
Definition toupper (c : Z) : Z := if islower c then c - 32 else c.
Definition tolower (c : Z) : Z := if isupper c then c + 32 else c.

(** ** Tactics *)

(** Case analysis on the boolean tests of a goal. *)
Ltac case_bool :=
  match goal with
  | |- context [if ?b then _ else _] => let E := fresh "E" in destruct b eqn:E
  | H : context [if ?b then _ else _] |- _ => let E := fresh "E" in destruct b eqn:E
  end.

(** A sequence that returns. *)
Lemma bind_Ret {A B} (x : outcome A) (f : A -> outcome B) b :
  x ≫= f = Ret b -> exists a, x = Ret a /\ f a = Ret b.
Proof. destruct x as [a| | |]; [|done..]. by exists a. Qed.

(** The steps of a sequence that returns, as hypotheses; pairs are taken apart. *)
Ltac ret_inv H :=
  lazymatch type of H with
  | _ ≫= _ = Ret _ =>
      let a := fresh "a" in let E := fresh "E" in
      apply bind_Ret in H as (a & E & H); cbn beta in H;
      lazymatch type of a with prod _ _ => destruct a | _ => idtac end; ret_inv H
  | (let '(_, _) := ?p in _) = Ret _ =>
      let E := fresh "E" in destruct p eqn:E; ret_inv H
  | Ret _ = Ret _ => injection H; clear H; intros; subst
  | _ => idtac
  end.

(** Arithmetic modulo the size constants and list lengths. *)
Ltac zl :=
  unfold is_size, is_byte, SIZE_MAX, UINT32_MAX, SIZE_MOD, KB_MULT, zlen in *;
  cbn [length] in *; lia.

(** Rewrites with the database [sz], then closes arithmetic. *)
Ltac szauto := autorewrite with sz in *; zl.

Create Rewrite HintDb sz.

(** A decidable fact about the first [n] naturals, by evaluation. *)
Lemma bounded_forall (n : nat) (P : Z -> bool) (x : Z) :
  forallb (fun k => P (Z.of_nat k)) (seq 0 n) = true -> 0 <= x < Z.of_nat n -> P x = true.
Proof.
  intros H Hx. rewrite forallb_forall in H. specialize (H (Z.to_nat x)).
  rewrite Z2Nat.id in H by lia. apply H, in_seq. lia.
Qed.

(** Evaluate a goal [P x = true] for all [x] below a bound. *)
Ltac bounded_check n :=
  match goal with
  | |- ?l = ?r =>
      match type of l with
      | Z => apply Z.eqb_eq
      | bool => idtac
      end
  end;
  match goal with
  | |- context [?x] =>
      is_var x; match type of x with Z => pattern x end
  end;
  apply (bounded_forall n); [vm_compute; reflexivity | lia].

(** ** Lemmas on machine integers *)
Lemma wrap_small x : 0 <= x < SIZE_MOD -> wrap x = x.
Proof. intros H. unfold wrap. apply Z.mod_small. exact H. Qed.

Lemma wrapw_small w x : 0 <= x < 2 ^ w -> wrapw w x = x.
Proof. apply Z.mod_small. Qed.

Lemma wrap_bounds x : 0 <= wrap x < SIZE_MOD.
Proof. apply Z.mod_pos_bound. reflexivity. Qed.

Lemma wrap_wrap x : wrap (wrap x) = wrap x.
Proof. apply wrap_small, wrap_bounds. Qed.

Lemma wrap_add_l x y : wrap (wrap x + y) = wrap (x + y).
Proof. unfold wrap. apply Zplus_mod_idemp_l. Qed.

Lemma wrap_sub_mod x : wrap (x + SIZE_MOD) = wrap x.
Proof.
  unfold wrap. replace (x + SIZE_MOD) with (x + 1 * SIZE_MOD) by lia.
  apply Z_mod_plus_full.
Qed.

(** The macro detects exactly the sums that do not fit in a [size_t]. *)
Lemma check_overflow_spec a b :
  is_size a -> is_size b -> CHECK_UINT_OVERFLOW_SUM a b = (SIZE_MOD <=? a + b).
Proof.
  intros Ha Hb. unfold CHECK_UINT_OVERFLOW_SUM.
  destruct (SIZE_MOD <=? a + b) eqn:E.
  - assert (wrap (a + b) = a + b - SIZE_MOD) as ->.
    { unfold wrap. rewrite <- (Z_mod_plus_full (a + b) (-1) SIZE_MOD).
      rewrite Z.mod_small; zl. }
    zl.
  - rewrite wrap_small; zl.
Qed.

Lemma check_overflow_false a b :
  is_size a -> is_size b -> a + b < SIZE_MOD -> CHECK_UINT_OVERFLOW_SUM a b = false.
Proof. intros. rewrite check_overflow_spec by done. lia. Qed.

Lemma of_to_char b : is_byte b -> of_char (to_char b) = b.
Proof.
  unfold is_byte, of_char, to_char. intros Hb. destruct (Z.leb_spec 128 b).
  - replace (b - 256) with (b + (-1) * 256) by lia. rewrite Z_mod_plus_full. by apply Z.mod_small.
  - by apply Z.mod_small.
Qed.

Lemma of_char_small b : is_byte b -> of_char b = b.
Proof. intros Hb. by apply Z.mod_small. Qed.

(** Letters are positive whether [char] is signed or not. *)
Lemma to_char_alpha b : isalpha b = true -> to_char b = b.
Proof. unfold isalpha, isupper, islower, to_char. intros. by replace (128 <=? b) with false by lia. Qed.

Lemma letter_cases b :
  is_byte b -> isalpha b = true ->
  (b =? of_char (toupper b)) || (b =? of_char (tolower b)) = true.
Proof.
  intros Hb Ha. unfold toupper, tolower. unfold isalpha in Ha.
  assert (of_char b = b) as Hc by by apply of_char_small.
  destruct (islower b) eqn:El, (isupper b) eqn:Eu; try done; rewrite ?Hc, ?Z.eqb_refl; try done.
  - unfold islower, isupper in *. lia.
  - by rewrite orb_true_r.
Qed.

(** Appending [n] low bits. *)
Lemma lor_shiftl_add a y n : 0 <= n -> 0 <= y < 2 ^ n -> Z.lor (Z.shiftl a n) y = a * 2 ^ n + y.
Proof.
  intros Hn Hy. rewrite Z.shiftl_mul_pow2 by done.
  assert (Z.land (a * 2 ^ n) y = 0) as Hl.
  { apply Z.bits_inj'. intros k Hk. rewrite Z.land_spec, Z.bits_0, Z.mul_pow2_bits by done.
    destruct (Z.lt_ge_cases k n) as [Hlt|Hge].
    - by rewrite Z.testbit_neg_r by lia.
    - rewrite <- (Z.mod_small y (2 ^ n)) by done. by rewrite Z.mod_pow2_bits_high, andb_false_r by lia. }
  by rewrite <- Z.lxor_lor, <- Z.add_nocarry_lxor by done.
Qed.

(** ** Lemmas on lists indexed by [Z] *)
Section zlists.
Context {A : Type}.
Implicit Types (l k : list A) (n m off : Z).

Lemma zlen_nonneg l : 0 <= zlen l.
Proof. unfold zlen. lia. Qed.
Lemma zlen_nil : zlen (@nil A) = 0.
Proof. done. Qed.
Lemma zlen_cons x l : zlen (x :: l) = 1 + zlen l.
Proof. unfold zlen. cbn [length]. lia. Qed.
Lemma zlen_app l k : zlen (l ++ k) = zlen l + zlen k.
Proof. unfold zlen. rewrite length_app. lia. Qed.
Lemma zlen_ztake n l : zlen (ztake n l) = Z.max 0 (Z.min n (zlen l)).
Proof. unfold zlen, ztake. rewrite length_take. lia. Qed.
Lemma zlen_zdrop n l : zlen (zdrop n l) = zlen l - Z.max 0 (Z.min n (zlen l)).
Proof. unfold zlen, zdrop. rewrite length_drop. lia. Qed.
Lemma zlen_slice off n l :
    0 <= off -> 0 <= n -> off + n <= zlen l -> zlen (slice off n l) = n.
Proof. intros. unfold slice. rewrite zlen_ztake, zlen_zdrop. lia. Qed.
Lemma zlen_zero_nil l : zlen l = 0 -> l = [].
Proof. destruct l; [done|]. rewrite zlen_cons. pose proof (zlen_nonneg l). lia. Qed.

Lemma ztake_zdrop n l : ztake n l ++ zdrop n l = l.
Proof. apply take_drop. Qed.
Lemma ztake_ge n l : zlen l <= n -> ztake n l = l.
Proof. intros. unfold ztake. apply take_ge. unfold zlen in *. lia. Qed.
Lemma zdrop_ge n l : zlen l <= n -> zdrop n l = [].
Proof. intros. unfold zdrop. apply drop_ge. unfold zlen in *. lia. Qed.
Lemma ztake_cons n x l : 0 < n -> ztake n (x :: l) = x :: ztake (n - 1) l.
Proof. intros. unfold ztake. by replace (Z.to_nat n) with (S (Z.to_nat (n - 1))) by lia. Qed.
Lemma zdrop_cons n x l : 0 < n -> zdrop n (x :: l) = zdrop (n - 1) l.
Proof. intros. unfold zdrop. by replace (Z.to_nat n) with (S (Z.to_nat (n - 1))) by lia. Qed.
Lemma ztake_le0 n l : n <= 0 -> ztake n l = [].
Proof. intros. unfold ztake. replace (Z.to_nat n) with 0%nat by lia. done. Qed.
Lemma zdrop_le0 n l : n <= 0 -> zdrop n l = l.
Proof. intros. unfold zdrop. replace (Z.to_nat n) with 0%nat by lia. done. Qed.
Lemma ztake_app_le n l k : n <= zlen l -> ztake n (l ++ k) = ztake n l.
Proof. intros. unfold ztake, zlen in *. apply take_app_le. lia. Qed.
Lemma ztake_app_ge n l k :
    zlen l <= n -> ztake n (l ++ k) = l ++ ztake (n - zlen l) k.
Proof.
    intros. unfold ztake, zlen in *. rewrite take_app_ge by lia. do 2 f_equal. lia.
Qed.
Lemma zdrop_app_le n l k : n <= zlen l -> zdrop n (l ++ k) = zdrop n l ++ k.
Proof. intros. unfold zdrop, zlen in *. apply drop_app_le. lia. Qed.
Lemma zdrop_app_ge n l k : zlen l <= n -> zdrop n (l ++ k) = zdrop (n - zlen l) k.
Proof.
    intros. unfold zdrop, zlen in *. rewrite drop_app_ge by lia. f_equal. lia.
Qed.
Lemma zdrop_zdrop n m l : 0 <= n -> 0 <= m -> zdrop n (zdrop m l) = zdrop (m + n) l.
Proof. intros. unfold zdrop. rewrite drop_drop. f_equal. lia. Qed.
Lemma ztake_ztake n m l : ztake n (ztake m l) = ztake (Z.min n m) l.
Proof. unfold ztake. rewrite take_take. f_equal. lia. Qed.
Lemma ztake_min_len n l : ztake (Z.min (zlen l) n) l = ztake n l.
Proof.
    destruct (Z.le_gt_cases (zlen l) n).
    - rewrite Z.min_l by lia. by rewrite !ztake_ge by lia.
    - by rewrite Z.min_r by lia.
Qed.
Lemma zdrop_min_len n l : zdrop (Z.min (zlen l) n) l = zdrop n l.
Proof.
    destruct (Z.le_gt_cases (zlen l) n).
    - rewrite Z.min_l by lia. by rewrite !zdrop_ge by lia.
    - by rewrite Z.min_r by lia.
Qed.
Lemma ztake_add n m l :
    0 <= n -> 0 <= m -> ztake (n + m) l = ztake n l ++ ztake m (zdrop n l).
Proof.
    intros. unfold ztake, zdrop.
    rewrite take_take_drop. f_equal. lia.
Qed.
Lemma slice_all l : slice 0 (zlen l) l = l.
Proof. unfold slice. rewrite zdrop_le0 by lia. apply ztake_ge. lia. Qed.
Lemma slice_add off n m l :
    0 <= off -> 0 <= n -> 0 <= m ->
    slice off (n + m) l = slice off n l ++ slice (off + n) m l.
Proof.
    intros. unfold slice. rewrite ztake_add, zdrop_zdrop by lia. done.
Qed.

Lemma ztake_exact l k : ztake (zlen l) (l ++ k) = l.
Proof. by rewrite ztake_app_le, ztake_ge by lia. Qed.
Lemma zdrop_exact l k : zdrop (zlen l) (l ++ k) = k.
Proof. by rewrite zdrop_app_ge, Z.sub_diag, zdrop_le0 by lia. Qed.
Lemma slice_exact l k (t : list A) : slice (zlen l) (zlen k) (l ++ k ++ t) = k.
Proof. unfold slice. by rewrite zdrop_exact, ztake_exact. Qed.
End zlists.

#[export] Hint Rewrite @zlen_nil @zlen_cons @zlen_app @zlen_ztake @zlen_zdrop : sz.
