(* ===== verification/SafeInt.v ===== *)
(** * Checked integer arithmetic (Helpers/safeint.h)

    The templates [safe_add], [safe_sub], [safe_mul], [safe_div],
    [in_range_17] and [safe_cast_or] over an integral type [T], described by
    its width and signedness.  The theorems state that each operation returns
    the mathematical result when the type can hold it and throws otherwise, and
    that the range test of the casts is exact. *)

From S2P Require Import Prelude.
From Stdlib Require Import ZArith Lia.

(** An integral type: its width in bits and whether it is signed. *)
Record int_ty := { ty_bits : Z; is_signed : bool }.

Definition u8 := {| ty_bits := 8; is_signed := false |}.
Definition u32 := {| ty_bits := 32; is_signed := false |}.
Definition u64 := {| ty_bits := 64; is_signed := false |}.
Definition i32 := {| ty_bits := 32; is_signed := true |}.
Definition i64 := {| ty_bits := 64; is_signed := true |}.

(** [std::numeric_limits<T>]. *)
Definition digits (T : int_ty) : Z :=
  if is_signed T then ty_bits T - 1 else ty_bits T.
Definition limits_max (T : int_ty) : Z := 2 ^ digits T - 1.
Definition limits_min (T : int_ty) : Z := if is_signed T then - 2 ^ digits T else 0.

Definition representable (T : int_ty) (x : Z) : Prop := limits_min T <= x <= limits_max T.

Definition valid_ty (T : int_ty) : Prop := 1 <= digits T.

(** The value the literal [-1] takes in a comparison with a [T]: the usual
    arithmetic conversions turn it into an unsigned value when [T] is an
    unsigned type at least as wide as [int]. *)
Definition minus_one (T : int_ty) : Z :=
  if negb (is_signed T) && (32 <=? ty_bits T) then 2 ^ ty_bits T - 1 else -1.

Definition safe_add (T : int_ty) (a b : Z) : outcome Z :=
  if (a >? 0) && (b >? 0) && (limits_max T - a <? b) then
    Throw (overflow_error "Safe Add: Overflow detected")
  else if (a <? 0) && (b <? 0) && (limits_min T - a >? b) then
    Throw (underflow_error "Safe Add: Underflow detected")
  else Ret (a + b).

Definition safe_sub (T : int_ty) (a b : Z) : outcome Z :=
  if (b >? 0) && (a <? limits_min T + b) then
    Throw (underflow_error "Safe Subtract: Underflow detected")
  else if (b <? 0) && (a >? limits_max T + b) then
    Throw (overflow_error "Safe Subtract: Overflow detected")
  else Ret (a - b).

(** Integer division of C++ truncates toward zero: [Z.quot]. *)
Definition safe_mul (T : int_ty) (a b : Z) : outcome Z :=
  if (a >? 0) && (b >? 0) && (a >? Z.quot (limits_max T) b) then
    Throw (overflow_error "Safe Multiply: Overflow detected")
  else if (a <? 0) && (b <? 0) && (a <? Z.quot (limits_max T) b) then
    Throw (overflow_error "Safe Multiply: Overflow detected")
  else if (a >? 0) && (b <? 0) && (b <? Z.quot (limits_min T) a) then
    Throw (underflow_error "Safe Multiply: Underflow detected")
  else if (a <? 0) && (b >? 0) && (a <? Z.quot (limits_min T) b) then
    Throw (underflow_error "Safe Multiply: Underflow detected")
  else Ret (a * b).

Definition safe_div (T : int_ty) (a b : Z) : outcome Z :=
  if b =? 0 then Throw (invalid_argument "Safe Divide: Division by zero")
  else if (a =? limits_min T) && (b =? minus_one T) then
    Throw (overflow_error "Safe Divide: Overflow detected")
  else Ret (Z.quot a b).

Definition in_range_17 (To From : int_ty) (value : Z) : bool :=
  match is_signed To, is_signed From with
  | true, true =>
      if digits To >? digits From then true
      else (value >=? limits_min To) && (value <=? limits_max To)
  | true, false =>
      if digits To >? digits From then true else value <=? limits_max To
  | false, true =>
      if value <? 0 then false
      else if digits To >=? digits From then true else value <=? limits_max To
  | false, false =>
      if digits To >? digits From then true else value <=? limits_max To
  end.

Definition safe_cast_or (To From : int_ty) (value default_value : Z) : Z :=
  if in_range_17 To From value then value else default_value.

(** ** Lemmas *)

Lemma pow_digits T : valid_ty T -> 2 <= 2 ^ digits T.
Proof.
  intros H. change 2 with (2 ^ 1) at 1. apply Z.pow_le_mono_r; [lia | exact H].
Qed.

(** Truncated quotients decide the sign-split products. *)
Lemma quot_pos_pos m a b : 0 <= m -> 0 < b -> (Z.quot m b < a <-> m < a * b).
Proof.
  intros Hm Hb. rewrite Z.quot_div_nonneg by lia.
  split; intros H.
  - pose proof (Z.mul_succ_div_gt m b Hb). nia.
  - apply Z.div_lt_upper_bound; lia.
Qed.

Lemma quot_neg_pos m a b : m <= 0 -> 0 < b -> (a < Z.quot m b <-> a * b < m).
Proof.
  intros Hm Hb.
  pose proof (quot_pos_pos (- m) (- a) b ltac:(lia) Hb) as Hq.
  rewrite Z.quot_opp_l in Hq by lia. lia.
Qed.

Lemma quot_pos_neg m a b : 0 <= m -> b < 0 -> (a < Z.quot m b <-> m < a * b).
Proof.
  intros Hm Hb.
  pose proof (quot_pos_pos m (- a) (- b) ltac:(lia) ltac:(lia)) as Hq.
  rewrite Z.quot_opp_r in Hq by lia. lia.
Qed.

(** An operation computes [r] exactly: it returns [r] when [T] holds it, and
    throws otherwise. *)
Definition checked (T : int_ty) (r : Z) (o : outcome Z) : Prop :=
  (representable T r /\ o = Ret r) \/ (~ representable T r /\ exists e, o = Throw e).

Ltac checked_cases :=
  repeat case_bool; unfold checked, representable in *;
  first [ right; split; [|by eauto]; lia | left; split; [|done]; lia ].

(** [safe_add], [safe_sub] and [safe_mul] are exact: on arguments of the
    type they return the mathematical sum, difference and product when it is
    representable and throw in every other case. *)
Theorem safe_arith_exact (T : int_ty) (a b : Z) :
  valid_ty T -> representable T a -> representable T b ->
  checked T (a + b) (safe_add T a b) /\
  checked T (a - b) (safe_sub T a b) /\
  checked T (a * b) (safe_mul T a b).
Proof.
  intros HT Ha Hb. pose proof (pow_digits T HT) as Hp.
  assert (limits_min T <= 0 /\ 0 < limits_max T) as [Hmin Hmax].
  { unfold limits_min, limits_max. destruct (is_signed T); lia. }
  unfold representable in Ha, Hb.
  split; [|split].
  - unfold safe_add. checked_cases.
  - unfold safe_sub. checked_cases.
  - unfold safe_mul.
    pose proof (quot_pos_pos (limits_max T) a b). pose proof (quot_pos_neg (limits_max T) a b).
    pose proof (quot_neg_pos (limits_min T) b a). pose proof (quot_neg_pos (limits_min T) a b).
    repeat case_bool; unfold checked, representable in *;
      first [ right; split; [|by eauto]; lia | left; split; [|done]; nia ].
Qed.

Lemma safe_arith_exact_witness :
  checked i32 (2147483647 + 1) (safe_add i32 2147483647 1).
Proof.
  apply (safe_arith_exact i32 2147483647 1);
    unfold valid_ty, representable, limits_min, limits_max, digits; cbn; lia.
Defined.

(** [safe_div] on a signed type returns the truncated quotient exactly
    when the divisor is not zero and the quotient is representable. *)
Theorem safe_div_exact (T : int_ty) (a b : Z) :
  valid_ty T -> is_signed T = true -> representable T a -> representable T b ->
  if b =? 0 then exists e, safe_div T a b = Throw e
  else checked T (Z.quot a b) (safe_div T a b).
Proof.
  intros HT Hs Ha Hb. pose proof (pow_digits T HT) as Hp.
  unfold safe_div, representable, minus_one, limits_min, limits_max in *. rewrite Hs in *. cbn [negb andb].
  destruct (b =? 0) eqn:Eb; [by eauto|].
  destruct (decide (b = -1)) as [->|Hne].
  - change (-1) with (- (1)). rewrite Z.quot_opp_r, Z.quot_1_r by lia.
    unfold checked, representable, limits_min, limits_max. rewrite Hs.
    case_bool; [right; split; [lia|by eauto] | left; split; [lia|done]].
  - assert (Z.abs (Z.quot a b) <= Z.abs a) as Hq.
    { rewrite <- Z.quot_abs by lia. apply Z.quot_le_upper_bound; nia. }
    destruct (decide (b = 1)) as [->|Hne1].
    { rewrite Z.quot_1_r. replace (1 =? -1) with false by done. rewrite andb_false_r.
      left. unfold representable, limits_min, limits_max. rewrite Hs. split; [lia|done]. }
    replace (b =? -1) with false by lia. rewrite andb_false_r.
    left. split; [|done]. unfold representable, limits_min, limits_max. rewrite Hs.
    assert (Z.abs (Z.quot a b) <= Z.quot (Z.abs a) 2).
    { rewrite <- Z.quot_abs by lia. apply Z.quot_le_compat_l; lia. }
    assert (Z.quot (Z.abs a) 2 < 2 ^ digits T).
    { apply Z.quot_lt_upper_bound; lia. }
    lia.
Qed.

Lemma safe_div_exact_witness :
  checked i32 (Z.quot (-7) 2) (safe_div i32 (-7) 2).
Proof.
  apply (safe_div_exact i32 (-7) 2);
    unfold valid_ty, representable, limits_min, limits_max, digits; cbn; first [reflexivity | lia].
Defined.

(** The range test of the casts is exact: a value of the source type is in
    range when, and only when, the destination type can represent it; and
    [safe_cast_or] then keeps it. *)
Theorem in_range_17_exact (To From : int_ty) (v d : Z) :
  valid_ty To -> valid_ty From -> representable From v ->
  (in_range_17 To From v = true <-> representable To v) /\
  (representable To v -> safe_cast_or To From v d = v) /\
  (~ representable To v -> safe_cast_or To From v d = d).
Proof.
  intros HTo HFrom Hv.
  assert (in_range_17 To From v = true <-> representable To v) as Hr.
  { pose proof (pow_digits To HTo). pose proof (pow_digits From HFrom).
    assert (digits From <= digits To -> 2 ^ digits From <= 2 ^ digits To)
      by (intros; apply Z.pow_le_mono_r; lia).
    unfold in_range_17, representable, limits_min, limits_max in *.
    destruct (is_signed To), (is_signed From); repeat case_bool; split; intros; lia. }
  split; [exact Hr|]. unfold safe_cast_or.
  destruct (in_range_17 To From v); split; intros; try done; exfalso; naive_solver.
Qed.

Lemma in_range_17_exact_witness :
  in_range_17 i32 u64 4294967296 = false /\
  (in_range_17 i32 u64 7 = true <-> representable i32 7).
Proof.
  split; [reflexivity|].
  apply (in_range_17_exact i32 u64 7 0);
    unfold valid_ty, representable, limits_min, limits_max, digits; cbn; lia.
Defined.

(** [safe_div] at an unsigned type as wide as [int] or wider compares the
    divisor with the converted [-1], so dividing zero by the largest value
    throws although the quotient is zero. *)
Lemma safe_div_unsigned_zero_by_max :
  safe_div u32 0 (limits_max u32) = Throw (overflow_error "Safe Divide: Overflow detected").
Proof. reflexivity. Qed.
