(* ===== verification/Mem.v ===== *)
(** * Raw memory helpers (Helpers/mem.cpp)

    The case-folding table [m_cmpMatrix], the comparisons [icharcmp],
    [memcmp64] and [memicmp2] the containers are built on, the block copies
    [memcpy64] and [memmove64], and [Mem::BinaryDataContainer].  A pointer
    argument is the list of bytes of the object it points to (from the pointer
    on); reading or writing beyond it is [Undef]. *)

From S2P Require Import Prelude.
From Stdlib Require Import ZArith Lia.

Definition m_cmpMatrix : bytes :=
  [0; 1; 2; 3; 4; 5; 6; 7; 8; 9; 10; 11; 12; 13; 14; 15; 16; 17; 18; 19;
   20; 21; 22; 23; 24; 25; 26; 27; 28; 29; 30; 31; 32; 33; 34; 35; 36; 37; 38; 39;
   40; 41; 42; 43; 44; 45; 46; 47; 48; 49; 50; 51; 52; 53; 54; 55; 56; 57; 58; 59;
   60; 61; 62; 63; 64; 97; 98; 99; 100; 101; 102; 103; 104; 105; 106; 107; 108; 109; 110; 111;
   112; 113; 114; 115; 116; 117; 118; 119; 120; 121; 122; 91; 92; 93; 94; 95; 96; 97; 98; 99;
   100; 101; 102; 103; 104; 105; 106; 107; 108; 109; 110; 111; 112; 113; 114; 115; 116; 117; 118; 119;
   120; 121; 122; 123; 124; 125; 126; 127; 128; 129; 130; 131; 132; 133; 134; 135; 136; 137; 138; 139;
   140; 141; 142; 143; 144; 145; 146; 147; 148; 149; 150; 151; 152; 153; 154; 155; 156; 157; 158; 159;
   160; 161; 162; 163; 164; 165; 166; 167; 168; 169; 170; 171; 172; 173; 174; 175; 176; 177; 178; 179;
   180; 181; 182; 183; 184; 185; 186; 187; 188; 189; 190; 191; 192; 193; 194; 195; 196; 197; 198; 199;
   200; 201; 202; 203; 204; 205; 206; 207; 208; 209; 210; 211; 212; 213; 214; 215; 216; 217; 218; 219;
   220; 221; 222; 223; 224; 225; 226; 227; 228; 229; 230; 231; 232; 233; 234; 235; 236; 237; 238; 239;
   240; 241; 242; 243; 244; 245; 246; 247; 248; 249; 250; 251; 252; 253; 254; 255].

Definition cmpMatrix (c : byte) : byte := nth (Z.to_nat c) m_cmpMatrix 0.

Definition icharcmp (c1 c2 : byte) : bool := cmpMatrix c1 =? cmpMatrix c2.

(** [memcmp] of the C library on two blocks: the sign of the first difference. *)
Fixpoint cmp_bytes (a b : bytes) : Z :=
  match a, b with
  | x :: a', y :: b' =>
      if x =? y then cmp_bytes a' b' else if x <? y then -1 else 1
  | _, _ => 0
  end.

Definition memcmp (s1 s2 : bytes) (n : Z) : outcome Z :=
  if (n <=? zlen s1) && (n <=? zlen s2)
  then Ret (cmp_bytes (ztake n s1) (ztake n s2)) else Undef.

(** [memchr] of the C library: the position of the first byte equal to [c],
    converted to [unsigned char], among the first [n].  It may stop early, so
    only a search that fails reads all [n] bytes. *)
Fixpoint first_index (p : byte -> bool) (l : bytes) : option Z :=
  match l with
  | [] => None
  | x :: l' => if p x then Some 0 else Z.succ <$> first_index p l'
  end.

Definition memchr (s : bytes) (c n : Z) : outcome (option Z) :=
  match first_index (fun b => b =? of_char c) (ztake n s) with
  | Some i => Ret (Some i)
  | None => if n <=? zlen s then Ret None else Undef
  end.

(** The block size of the 64-bit loops, [64 * KB_MULT]. *)
Definition blockSize : Z := 64 * KB_MULT.

Fixpoint memcmp64_loop (fuel : nat) (s1 s2 : bytes) (numBytes offset : Z) : outcome Z :=
  match fuel with
  | O => NoFuel
  | S fuel' =>
      if offset <? numBytes then
        let currentBlock := Z.min (numBytes - offset) blockSize in
        result ← memcmp (zdrop offset s1) (zdrop offset s2) currentBlock;
        if negb (result =? 0) then Ret result
        else memcmp64_loop fuel' s1 s2 numBytes (wrap (offset + blockSize))
      else Ret 0
  end.

(** One iteration per block, and the one that finds the end. *)
Definition memcmp64 (s1 s2 : bytes) (numBytes : Z) : outcome Z :=
  memcmp64_loop (Z.to_nat (numBytes / blockSize) + 2) s1 s2 numBytes 0.

Fixpoint memicmp_loop (n : nat) (p1 p2 : bytes) : outcome Z :=
  match n with
  | O => Ret 0
  | S n' =>
      match p1, p2 with
      | c1 :: p1', c2 :: p2' =>
          if negb (icharcmp c1 c2) then Ret (-1) else memicmp_loop n' p1' p2'
      | _, _ => Undef
      end
  end.

Definition memicmp2 (s1 s2 : bytes) (numBytes : Z) (caseSensitive : bool) : outcome Z :=
  if caseSensitive then memcmp64 s1 s2 numBytes
  else memicmp_loop (Z.to_nat numBytes) s1 s2.

(** Overwriting [data] at offset [off] of an object. *)
Definition write_at (off : Z) (data l : bytes) : bytes :=
  ztake off l ++ data ++ zdrop (off + zlen data) l.

Definition memcpy_at (dest src : bytes) (offset n : Z) : outcome bytes :=
  if (offset + n <=? zlen dest) && (offset + n <=? zlen src)
  then Ret (write_at offset (slice offset n src) dest) else Undef.

(** [memcpy64]: both counters advance twice per round, as in the source. *)
Fixpoint memcpy64_loop (fuel : nat) (dest src : bytes) (numBytes currentOffset : Z) :
    outcome bytes :=
  match fuel with
  | O => NoFuel
  | S fuel' =>
      if numBytes >? 0 then
        let blockSizeToCopy := Z.min numBytes blockSize in
        dest' ← memcpy_at dest src currentOffset blockSizeToCopy;
        let currentOffset := wrap (currentOffset + blockSizeToCopy) in
        let numBytes := wrap (numBytes - blockSizeToCopy) in
        let currentOffset := wrap (currentOffset + blockSizeToCopy) in
        let numBytes := wrap (numBytes - blockSizeToCopy) in
        memcpy64_loop fuel' dest' src numBytes currentOffset
      else Ret dest
  end.

Definition memcpy64 (dest src : bytes) (numBytes : Z) : outcome bytes :=
  memcpy64_loop (Z.to_nat (zlen dest / blockSize) + 2) dest src numBytes 0.

(** [memmove] inside one object, from position [s] to position [d]. *)
Definition memmove_at (obj : bytes) (d s n : Z) : outcome bytes :=
  if (0 <=? d) && (0 <=? s) && (d + n <=? zlen obj) && (s + n <=? zlen obj)
  then Ret (write_at d (slice s n obj) obj) else Undef.

Fixpoint memmove64_down (fuel : nat) (obj : bytes) (d s currentBlock numBytes : Z) :
    outcome bytes :=
  match fuel with
  | O => NoFuel
  | S fuel' =>
      if numBytes =? 0 then Ret obj
      else
        obj' ← memmove_at obj (d + numBytes - currentBlock) (s + numBytes - currentBlock)
                 currentBlock;
        memmove64_down fuel' obj' d s currentBlock (wrap (numBytes - currentBlock))
  end.

Fixpoint memmove64_up (fuel : nat) (obj : bytes)
    (d s currentBlock numBytes currentOffset : Z) : outcome bytes :=
  match fuel with
  | O => NoFuel
  | S fuel' =>
      if numBytes =? 0 then Ret obj
      else
        obj' ← memmove_at obj (d + currentOffset) (s + currentOffset) currentBlock;
        memmove64_up fuel' obj' d s currentBlock (wrap (numBytes - currentBlock))
          (currentOffset + currentBlock)
  end.

(** [memmove64] with both pointers inside the object [obj]. *)
Definition memmove64 (obj : bytes) (dest src numBytes : Z) : outcome bytes :=
  let currentBlock := if numBytes >? blockSize then blockSize else numBytes in
  let fuel := (Z.to_nat (zlen obj / blockSize) + 2)%nat in
  if dest >? src then memmove64_down fuel obj dest src currentBlock numBytes
  else if dest <? src then memmove64_up fuel obj dest src currentBlock numBytes 0
  else Ret obj.

(** ** [Mem::BinaryDataContainer] *)
Record BinaryDataContainer := {
  bdc_data : bytes;   (** the allocated block *)
  bdc_length : Z;
  bdc_cur : Z }.

Definition bdc_copy (data : bytes) : BinaryDataContainer :=
  {| bdc_data := data; bdc_length := zlen data; bdc_cur := 0 |}.

Definition bdc_alloc (len : Z) : BinaryDataContainer :=
  {| bdc_data := replicate (Z.to_nat len) 0; bdc_length := len; bdc_cur := 0 |}.

Definition bdc_append (c : byte) (b : BinaryDataContainer) : outcome BinaryDataContainer :=
  if bdc_cur b >=? bdc_length b then
    Throw (runtime_error "Attempt to append to a full BinaryDataContainer")
  else
    if bdc_cur b <? zlen (bdc_data b) then
      Ret {| bdc_data := write_at (bdc_cur b) [c] (bdc_data b);
             bdc_length := bdc_length b; bdc_cur := bdc_cur b + 1 |}
    else Undef.

(** ** Lemmas *)

(** The table folds the upper-case letters and nothing else. *)
Lemma cmpMatrix_tolower c : is_byte c -> cmpMatrix c = tolower c.
Proof.
  intros Hc.
  assert (forallb (fun n => cmpMatrix (Z.of_nat n) =? tolower (Z.of_nat n)) (seq 0 256) = true)
    as H by (vm_compute; reflexivity).
  rewrite forallb_forall in H. specialize (H (Z.to_nat c)).
  rewrite Z2Nat.id in H by (unfold is_byte in *; lia).
  apply Z.eqb_eq, H, in_seq. unfold is_byte in *. lia.
Qed.

Lemma icharcmp_tolower c1 c2 :
  is_byte c1 -> is_byte c2 -> icharcmp c1 c2 = (tolower c1 =? tolower c2).
Proof. intros. unfold icharcmp. by rewrite !cmpMatrix_tolower. Qed.

Lemma cmp_bytes_app a b c d :
  length a = length c ->
  cmp_bytes (a ++ b) (c ++ d) =
    if cmp_bytes a c =? 0 then cmp_bytes b d else cmp_bytes a c.
Proof.
  revert c. induction a as [|x a IH]; intros [|y c]; intros Hl; cbn in *; try lia.
  destruct (x =? y); [apply IH; lia|]. by destruct (x <? y).
Qed.

Lemma cmp_bytes_zero a b : length a = length b -> cmp_bytes a b = 0 <-> a = b.
Proof.
  revert b. induction a as [|x a IH]; intros [|y b]; intros Hl; cbn in *; try lia; [done|].
  destruct (Z.eqb_spec x y) as [->|Hne].
  - rewrite IH by lia. split; congruence.
  - destruct (x <? y); split; intros; try done; congruence.
Qed.

Lemma memcmp64_loop_spec fuel s1 s2 n off :
  0 <= off <= n -> n <= zlen s1 -> n <= zlen s2 -> n + blockSize < SIZE_MOD ->
  (n - off) / blockSize + 1 < Z.of_nat fuel ->
  memcmp64_loop fuel s1 s2 n off =
    Ret (cmp_bytes (ztake (n - off) (zdrop off s1)) (ztake (n - off) (zdrop off s2))).
Proof.
  revert off. induction fuel as [|fuel IH]; intros off Hoff H1 H2 Hn Hfuel.
  { pose proof (Z.div_pos (n - off) blockSize). unfold blockSize, KB_MULT in *. lia. }
  cbn [memcmp64_loop].
  destruct (Z.ltb_spec off n) as [Hlt|Hge].
  2: { rewrite !(ztake_le0 (n - off)) by lia. done. }
  assert (0 < blockSize) as Hbs by done.
  set (blk := Z.min (n - off) blockSize).
  assert (0 < blk <= n - off) as Hblk by lia.
  unfold memcmp. rewrite !zlen_zdrop.
  replace ((blk <=? _) && (blk <=? _)) with true by lia.
  cbn [mbind outcome_bind].
  replace (n - off) with (blk + (n - off - blk)) by lia.
  rewrite !(ztake_add blk (n - off - blk)), !zdrop_zdrop by lia.
  rewrite cmp_bytes_app.
  2: { apply Nat2Z.inj. change (zlen (ztake blk (zdrop off s1)) = zlen (ztake blk (zdrop off s2))).
       rewrite !zlen_ztake, !zlen_zdrop. lia. }
  destruct (cmp_bytes _ _ =? 0); [|done]. cbn [negb].
  destruct (Z.le_gt_cases (n - off) blockSize) as [Hs|Hb].
  - rewrite !(ztake_le0 (n - off - blk)) by lia.
    destruct fuel; [pose proof (Z.div_pos (n - off) blockSize); lia|].
    cbn [memcmp64_loop]. rewrite wrap_small by (unfold SIZE_MOD in *; lia).
    replace (off + blockSize <? n) with false by lia. done.
  - assert (blk = blockSize) as -> by lia.
    rewrite wrap_small by (unfold SIZE_MOD in *; lia).
    rewrite IH; [by replace (n - off - blockSize) with (n - (off + blockSize)) by lia|lia..|].
    replace (n - off) with (n - (off + blockSize) + 1 * blockSize) in Hfuel by lia.
    rewrite Z.div_add in Hfuel by lia. lia.
Qed.

(** [memcmp64] compares block by block exactly as one [memcmp] would. *)
Lemma memcmp64_spec s1 s2 n :
  0 <= n -> n <= zlen s1 -> n <= zlen s2 -> n + blockSize < SIZE_MOD ->
  memcmp64 s1 s2 n = memcmp s1 s2 n.
Proof.
  intros. unfold memcmp64, memcmp. rewrite memcmp64_loop_spec; try lia.
  - rewrite Z.sub_0_r, !zdrop_le0 by lia.
    by replace ((n <=? zlen s1) && (n <=? zlen s2)) with true by lia.
  - pose proof (Z.div_pos n blockSize). rewrite Z.sub_0_r. unfold blockSize, KB_MULT in *. lia.
Qed.

Lemma first_index_bounds p l i : first_index p l = Some i -> 0 <= i < zlen l.
Proof.
  revert i. induction l as [|x l IH]; cbn; intros i; [done|]. rewrite zlen_cons.
  pose proof (zlen_nonneg l).
  destruct (p x); [intros [= <-]; lia|].
  destruct (first_index p l) as [j|]; cbn; [|done].
  intros [= <-]. specialize (IH j eq_refl). lia.
Qed.

Lemma first_index_app p l k :
  first_index p (l ++ k) =
    match first_index p l with
    | Some i => Some i
    | None => Z.add (zlen l) <$> first_index p k
    end.
Proof.
  induction l as [|x l IH]; cbn [first_index app].
  { rewrite zlen_nil. by destruct (first_index p k). }
  destruct (p x); [done|]. rewrite IH. destruct (first_index p l); [done|].
  cbn. destruct (first_index p k); cbn; [|done]. f_equal. rewrite zlen_cons. lia.
Qed.

(** Searching for either of two bytes is the earlier of two searches. *)
Lemma first_index_or p q l :
  first_index (fun b => p b || q b) l =
    match first_index p l, first_index q l with
    | Some i, Some j => Some (Z.min i j)
    | Some i, None => Some i
    | None, o => o
    end.
Proof.
  induction l as [|x l IH]; cbn; [done|].
  destruct (p x) eqn:Ep, (q x) eqn:Eq; cbn.
  - done.
  - destruct (first_index q l) as [j|] eqn:Ej; cbn; [|done].
    apply first_index_bounds in Ej. f_equal. lia.
  - destruct (first_index p l) as [j|] eqn:Ej; cbn; [|done].
    apply first_index_bounds in Ej. f_equal. lia.
  - rewrite IH. destruct (first_index p l), (first_index q l); cbn; try done. f_equal. lia.
Qed.

Lemma memchr_spec s c n :
  n <= zlen s -> memchr s c n = Ret (first_index (fun b => b =? of_char c) (ztake n s)).
Proof.
  intros. unfold memchr. destruct (first_index _ _); [done|]. by replace (n <=? zlen s) with true by lia.
Qed.

(** The relation [memicmp2] decides: equality, or equality up to ASCII case. *)
Definition same_char (caseSensitive : bool) (c1 c2 : byte) : bool :=
  if caseSensitive then c1 =? c2 else icharcmp c1 c2.

Fixpoint same_bytes (caseSensitive : bool) (a b : bytes) : bool :=
  match a, b with
  | [], [] => true
  | x :: a', y :: b' => same_char caseSensitive x y && same_bytes caseSensitive a' b'
  | _, _ => false
  end.

Lemma same_bytes_eq a b : same_bytes true a b = true <-> a = b.
Proof.
  revert b. induction a as [|x a IH]; intros [|y b]; cbn; try done.
  rewrite andb_true_iff, IH, Z.eqb_eq. split; [intros [-> ->]|intros [=]]; done.
Qed.

Lemma same_bytes_app cs a1 a2 b1 b2 :
  length a1 = length b1 ->
  same_bytes cs (a1 ++ a2) (b1 ++ b2) = same_bytes cs a1 b1 && same_bytes cs a2 b2.
Proof.
  revert b1. induction a1 as [|x a1 IH]; intros [|y b1]; cbn; intros; try lia; [done|].
  rewrite IH by lia. by rewrite andb_assoc.
Qed.

Lemma same_bytes_length cs a b : same_bytes cs a b = true -> length a = length b.
Proof.
  revert b. induction a as [|x a IH]; intros [|y b]; cbn; try done.
  intros [_ H]%andb_true_iff. f_equal. by apply IH.
Qed.

Lemma memicmp_loop_spec n p1 p2 :
  (n <= length p1)%nat -> (n <= length p2)%nat ->
  memicmp_loop n p1 p2 = Ret (if same_bytes false (take n p1) (take n p2) then 0 else -1).
Proof.
  revert p1 p2. induction n as [|n IH]; intros [|x p1] [|y p2] H1 H2; cbn in *; try lia; try done.
  rewrite IH by lia. by destruct (icharcmp x y).
Qed.

(** [memicmp2] never reads outside the two blocks and returns zero exactly when
    they hold the same bytes (up to ASCII case when asked to). *)
Lemma memicmp2_spec s1 s2 n cs :
  0 <= n -> n <= zlen s1 -> n <= zlen s2 -> n + blockSize < SIZE_MOD ->
  exists r, memicmp2 s1 s2 n cs = Ret r /\
            (r =? 0) = same_bytes cs (ztake n s1) (ztake n s2).
Proof.
  intros Hn H1 H2 Hw. unfold memicmp2. destruct cs.
  - rewrite memcmp64_spec by done. unfold memcmp.
    replace ((n <=? zlen s1) && (n <=? zlen s2)) with true by lia.
    eexists; split; [done|]. apply Bool.eq_iff_eq_true.
    rewrite Z.eqb_eq, same_bytes_eq. apply cmp_bytes_zero.
    unfold ztake, zlen in *. rewrite !length_take. lia.
  - rewrite memicmp_loop_spec by (unfold zlen in *; lia).
    eexists; split; [done|]. unfold ztake. by destruct (same_bytes _ _ _).
Qed.

Lemma memcpy_at_ok dest src off n :
  off + n <= zlen dest -> off + n <= zlen src ->
  memcpy_at dest src off n = Ret (write_at off (slice off n src) dest).
Proof.
  intros. unfold memcpy_at. by replace (_ && _) with true by lia.
Qed.

Lemma memcpy_at_out dest src off n :
  zlen dest < off + n \/ zlen src < off + n -> memcpy_at dest src off n = Undef.
Proof.
  intros. unfold memcpy_at. by replace (_ && _) with false by lia.
Qed.

Lemma zlen_write_at off data l :
  0 <= off -> off + zlen data <= zlen l -> zlen (write_at off data l) = zlen l.
Proof.
  intros. unfold write_at. rewrite !zlen_app, zlen_ztake, zlen_zdrop.
  pose proof (zlen_nonneg data). lia.
Qed.

(** [memcpy64] advances both its counters twice per round: copying a block
    of at most 64 KB into a destination of that size does not end; its second
    round writes past the end of the destination. *)
Theorem memcpy64_overruns dest src n :
  0 < n <= blockSize -> zlen dest = n -> n <= zlen src ->
  memcpy64 dest src n = Undef.
Proof.
  intros Hn Hd Hs. assert (blockSize = 65536) as Hb by done.
  unfold memcpy64. rewrite Nat.add_comm. cbn [Nat.add memcpy64_loop].
  replace (n >? 0) with true by lia. rewrite Z.min_l by lia.
  rewrite memcpy_at_ok by lia. cbn [mbind outcome_bind].
  rewrite (wrap_small (0 + n)), (wrap_small (n - n)), (wrap_small (0 + n + n)) by zl.
  assert (wrap (n - n - n) = SIZE_MOD - n) as ->.
  { rewrite <- wrap_sub_mod. rewrite wrap_small; zl. }
  replace (SIZE_MOD - n >? 0) with true by zl.
  rewrite memcpy_at_out; [done|]. left. rewrite zlen_write_at.
  - unfold SIZE_MOD in *. lia.
  - lia.
  - rewrite zlen_slice by lia. lia.
Qed.

Lemma memcpy64_overruns_witness : memcpy64 [0; 0; 0] [1; 2; 3] 3 = Undef.
Proof. apply memcpy64_overruns; [unfold blockSize, KB_MULT; lia | reflexivity | vm_compute; discriminate]. Defined.

Lemma memmove_at_ok obj d s n :
  0 <= d -> 0 <= s -> d + n <= zlen obj -> s + n <= zlen obj ->
  memmove_at obj d s n = Ret (write_at d (slice s n obj) obj).
Proof.
  intros. unfold memmove_at. by replace (_ && _) with true by lia.
Qed.

(** Moves of at most one block are a single [memmove]. *)
Lemma memmove64_small obj d s n :
  0 < n <= blockSize -> 0 <= d -> 0 <= s -> d + n <= zlen obj -> s + n <= zlen obj ->
  memmove64 obj d s n = if d =? s then Ret obj else Ret (write_at d (slice s n obj) obj).
Proof.
  intros Hn Hd Hs Hd' Hs'. assert (blockSize = 65536) as Hb by done.
  unfold memmove64. replace (n >? blockSize) with false by lia.
  rewrite Nat.add_comm. cbn [Nat.add memmove64_up memmove64_down].
  replace (n =? 0) with false by lia.
  rewrite !Z.sub_diag, !(wrap_small 0), !Z.eqb_refl by done.
  destruct (Z.lt_trichotomy d s) as [Hlt|[->|Hgt]].
  - replace (d >? s) with false by lia. replace (d <? s) with true by lia.
    replace (d =? s) with false by lia. rewrite !Z.add_0_r.
    by rewrite memmove_at_ok by lia.
  - replace (s >? s) with false by lia. replace (s <? s) with false by lia.
    by rewrite Z.eqb_refl.
  - replace (d >? s) with true by lia. replace (d =? s) with false by lia.
    replace (d + n - n) with d by lia. replace (s + n - n) with s by lia.
    by rewrite memmove_at_ok by lia.
Qed.
