(* ===== verification/Streamable.v ===== *)
(** * Streamable objects (Memory/streamable_object, streamable_string,
      streamable_null, streamable_transformer)

    [WriteStatus] and its increments, the operations every [StreamableObject]
    inherits ([writeEOF], [writeFullStream], ...) written once against the class
    [Sink] of objects with a virtual [write], the two concrete sinks of the
    library, and the transformers that write into another sink.

    [SinkSpec] is what a sink promises to its clients: as long as it has room,
    a write consumes a non-empty prefix of the data and records it.  The lemmas
    on [writeFullStream] are proved from that promise alone. *)

From S2P Require Import Prelude SafeInt.
From Stdlib Require Import ZArith Lia.

(** ** [WriteStatus] *)
Record WriteStatus := mkWriteStatus {
  succeed : bool;
  finished : bool;
  bytesWritten : Z;
  writeError : Z }.

Definition ws_init : WriteStatus := mkWriteStatus true false 0 0.

(** [operator+=(const ssize_t &)]. *)
Definition ws_add_ssize (ws : WriteStatus) (x : Z) : outcome WriteStatus :=
  if (negb (succeed ws) || finished ws) && (x >=? 0) then
    Throw (runtime_error "Trying to write into an already finished write object.")
  else if x >? 0 then
    n ← safe_add u64 (bytesWritten ws) x;
    Ret (mkWriteStatus (succeed ws) (finished ws) n (writeError ws))
  else if x =? 0 then
    Ret (mkWriteStatus true true (bytesWritten ws) (writeError ws))
  else
    Ret (mkWriteStatus false true (bytesWritten ws) x).

(** [operator+=(const WriteStatus &)]. *)
Definition ws_add (ws x : WriteStatus) : outcome WriteStatus :=
  n ← safe_add u64 (bytesWritten ws) (bytesWritten x);
  Ret (mkWriteStatus (if negb (succeed x) then false else succeed ws)
         (if finished x then true else finished ws) n (writeError ws)).

(** [operator-(const WriteStatus &)]. *)
Definition ws_sub (ws x : WriteStatus) : outcome WriteStatus :=
  if bytesWritten x >? bytesWritten ws then
    Throw (runtime_error "Invalid WriteStatus Substract Operation.")
  else
    Ret (mkWriteStatus (succeed x) (finished x) (bytesWritten ws - bytesWritten x)
           (writeError x)).

Definition ws_reset (ws : WriteStatus) : WriteStatus := mkWriteStatus true false 0 0.

(** [b += x] on a [bool]: the sum is computed as an [int] and converted back,
    so it is [false] only when the sum is zero. *)
Definition bool_add_assign (b : bool) (x : Z) : bool := negb (Z.b2z b + x =? 0).

(** The statement [writeStatus.succeed += -1]. *)
Definition ws_succeed_minus_one (ws : WriteStatus) : WriteStatus :=
  mkWriteStatus (bool_add_assign (succeed ws) (-1)) (finished ws) (bytesWritten ws)
    (writeError ws).

Lemma ws_add_ssize_failed ws :
  ws_add_ssize ws (-1) = Ret (mkWriteStatus false true (bytesWritten ws) (-1)).
Proof. unfold ws_add_ssize. by rewrite andb_false_r. Qed.

(** ** The virtual interface of [StreamableObject] *)
Class Sink (S : Type) := {
  sink_status : S -> WriteStatus;
  sink_set_status : WriteStatus -> S -> S;
  (** [write(buf, count)]: the number of bytes consumed, or [nullopt]. *)
  sink_write : bytes -> S -> outcome (S * option Z) }.

(** The statement [out.writeStatus += x]. *)
Definition status_add {S} `{Sink S} (x : Z) (s : S) : outcome S :=
  ws ← ws_add_ssize (sink_status s) x; Ret (sink_set_status ws s).

Section StreamableObject.
Context {S : Type} `{Sink S}.

Definition status_succeed_minus_one (s : S) : S :=
    sink_set_status (ws_succeed_minus_one (sink_status s)) s.

Definition writeEOF (s : S) : outcome (S * bool) :=
    '(s, r) ← sink_write [] s;
    if has_value r then Ret (s, true) else Ret (status_succeed_minus_one s, false).

Fixpoint writeFullStream_loop (fuel : nat) (buf : bytes) (s : S) : outcome (S * bool) :=
    match buf with
    | [] => Ret (s, true)
    | _ :: _ =>
        match fuel with
        | O => NoFuel
        | Datatypes.S fuel' =>
            '(s, cur) ← sink_write buf s;
            match cur with
            | None => Ret (status_succeed_minus_one s, false)
            | Some n =>
                if negb (succeed (sink_status s)) then Ret (status_succeed_minus_one s, false)
                else writeFullStream_loop fuel' (zdrop n buf) s
            end
        end
    end.

  (** A write that consumes something shortens the data, so one round per byte
      is enough; two more cover the writes that consume nothing and end in an
      exception. *)
Definition writeFullStream (buf : bytes) (s : S) : outcome (S * bool) :=
    writeFullStream_loop (length buf + 2) buf s.

Definition writeFullStreamWithEOF (buf : bytes) (s : S) : outcome (S * bool) :=
    '(s, ok) ← writeFullStream buf s;
    if negb ok then Ret (s, false)
    else
      '(s, ok) ← writeEOF s;
      if negb ok then Ret (status_succeed_minus_one s, false) else Ret (s, true).

Definition writeString (buf : bytes) (s : S) : outcome (S * bool) := writeFullStream buf s.
End StreamableObject.

(** Objects that can be streamed into any sink ([streamTo]). *)
Class Source (I : Type) := {
  streamTo : forall {S : Type} `{Sink S}, I -> S -> outcome (S * bool) }.

(** ** [StreamableString] *)
Record StreamableString := {
  ss_writeStatus : WriteStatus;
  ss_value : bytes }.

Definition ss_new : StreamableString := {| ss_writeStatus := ws_init; ss_value := [] |}.

Definition ss_write (buf : bytes) (s : StreamableString) : outcome (StreamableString * option Z) :=
  let s := {| ss_writeStatus := ss_writeStatus s; ss_value := ss_value s ++ buf |} in
  ws ← ws_add_ssize (ss_writeStatus s) (to_ssize (zlen buf));
  Ret ({| ss_writeStatus := ws; ss_value := ss_value s |}, Some (zlen buf)).

#[export] Instance ss_sink : Sink StreamableString := {|
  sink_status := ss_writeStatus;
  sink_set_status ws s := {| ss_writeStatus := ws; ss_value := ss_value s |};
  sink_write := ss_write |}.

Definition ss_streamTo {S} `{Sink S} (i : StreamableString) (out : S) : outcome (S * bool) :=
  writeFullStream (ss_value i) out.

#[export] Instance ss_source : Source StreamableString := {| streamTo := @ss_streamTo |}.

(** ** [StreamableNull] *)
Record StreamableNull := {
  sn_writeStatus : WriteStatus;
  sn_bytes : Z }.

Definition sn_new : StreamableNull := {| sn_writeStatus := ws_init; sn_bytes := 0 |}.

Definition sn_write (buf : bytes) (s : StreamableNull) : outcome (StreamableNull * option Z) :=
  ws ← ws_add_ssize (sn_writeStatus s) (to_ssize (zlen buf));
  n ← safe_add u64 (sn_bytes s) (zlen buf);
  Ret ({| sn_writeStatus := ws; sn_bytes := n |}, Some (zlen buf)).

#[export] Instance sn_sink : Sink StreamableNull := {|
  sink_status := sn_writeStatus;
  sink_set_status ws s := {| sn_writeStatus := ws; sn_bytes := sn_bytes s |};
  sink_write := sn_write |}.

(** ** [StreamableTransformer] *)
Class Transformer (T : Type) := {
  tr_status : T -> WriteStatus;
  tr_set_status : WriteStatus -> T -> T;
  writeTo : forall {S : Type} `{Sink S}, bytes -> T -> S -> outcome (T * S * Z);
  writeTransformerEOF : forall {S : Type} `{Sink S}, T -> S -> outcome (T * S * Z) }.

Section Transformer.
Context {T : Type} `{Transformer T} {S : Type} `{Sink S}.

Definition tr_write (buf : bytes) (ts : T * S) : outcome ((T * S) * option Z) :=
    let '(t, dst) := ts in
    '(t, dst, r) ← match buf with
                   | [] => writeTransformerEOF t dst
                   | _ => writeTo buf t dst
                   end;
    if negb (succeed (sink_status dst)) then Ret ((t, dst), None)
    else Ret ((t, dst), Some r).

#[export] Instance transformer_sink : Sink (T * S) := {|
    sink_status ts := tr_status ts.1;
    sink_set_status ws ts := (tr_set_status ws ts.1, ts.2);
    sink_write := tr_write |}.

Definition transform {I} `{Source I} (t : T) (inp : I) (out : S) : outcome (T * S) :=
    '(ts, _) ← streamTo inp (t, out);
    '(ts, _) ← writeEOF ts;
    Ret ts.
End Transformer.

(** ** What a sink promises *)

(** [sink_rep s acc]: the sink works and has consumed the bytes [acc];
    [sink_room] is how many more it is sure to consume. *)
Class SinkSpec (S : Type) `{Sink S} := {
  sink_rep : S -> bytes -> Prop;
  sink_room : S -> Z;
  sink_write_ok d s acc : sink_rep s acc -> 0 < zlen d <= sink_room s ->
    exists s' k, sink_write d s = Ret (s', Some k) /\ 0 < k <= zlen d /\
      sink_rep s' (acc ++ ztake k d) /\
      sink_room s - k <= sink_room s' /\ succeed (sink_status s') = true }.

Section SinkLemmas.
Context {S : Type} `{SinkSpec S}.

Lemma writeFullStream_loop_ok fuel d (s : S) acc :
    (length d < fuel)%nat -> sink_rep s acc -> zlen d <= sink_room s ->
    exists s', writeFullStream_loop fuel d s = Ret (s', true) /\
      sink_rep s' (acc ++ d) /\ sink_room s - zlen d <= sink_room s' /\
      (d <> [] -> succeed (sink_status s') = true).
Proof.
    revert d s acc. induction fuel as [|fuel IH]; intros d s acc Hf Hrep Hr; [lia|].
    destruct d as [|x d]; cbn [writeFullStream_loop].
    { exists s. rewrite app_nil_r. change (zlen []) with 0. by split_and!; [..|lia|]. }
    destruct (sink_write_ok (x :: d) s acc) as (s1 & k & Hw & Hk & Hd & Hroom & Hs); [done| |].
    { pose proof (zlen_nonneg d). rewrite zlen_cons in *. lia. }
    rewrite Hw. cbn [mbind outcome_bind]. rewrite Hs. cbn [negb].
    destruct (IH (zdrop k (x :: d)) s1 (acc ++ ztake k (x :: d))) as (s2 & Hw2 & Hd2 & Hr2 & Hs2).
    - unfold zdrop, zlen in *. rewrite length_drop. lia.
    - done.
    - rewrite zlen_zdrop. lia.
    - exists s2. split; [done|]. rewrite <- app_assoc, ztake_zdrop in Hd2.
      split; [done|]. rewrite zlen_zdrop in Hr2. split; [lia|]. intros _.
      destruct (decide (zdrop k (x :: d) = [])) as [E|E]; [|by apply Hs2].
      rewrite E in Hw2. by destruct fuel; injection Hw2 as <-.
Qed.

Lemma writeFullStream_succeed d (s : S) acc :
    sink_rep s acc -> zlen d <= sink_room s -> d <> [] ->
    exists s', writeFullStream d s = Ret (s', true) /\
      sink_rep s' (acc ++ d) /\ sink_room s - zlen d <= sink_room s' /\
      succeed (sink_status s') = true.
Proof.
  intros. destruct (writeFullStream_loop_ok (length d + 2) d s acc) as (s' & ? & ? & ? & ?); [lia|done..|].
  exists s'. auto.
Qed.

Lemma writeFullStream_ok d (s : S) acc :
    sink_rep s acc -> zlen d <= sink_room s ->
    exists s', writeFullStream d s = Ret (s', true) /\
      sink_rep s' (acc ++ d) /\ sink_room s - zlen d <= sink_room s'.
Proof.
  intros. destruct (writeFullStream_loop_ok (length d + 2) d s acc) as (s' & ? & ? & ? & _); [lia|done..|].
  by exists s'.
Qed.
End SinkLemmas.

(** The promise of a sink that has consumed [base] already, about what comes
    after it. *)
Definition shifted_sink {S} `{SinkSpec S} (base : bytes) : SinkSpec S.
Proof.
  refine {| sink_rep s acc := sink_rep s (base ++ acc); sink_room := sink_room |}.
  intros d s acc Hrep Hd. destruct (sink_write_ok d s _ Hrep Hd) as (s' & k & Hw & Hk & Hr & Hroom).
  exists s', k. by rewrite app_assoc.
Defined.

(** The room left to a sink that only counts bytes in its [WriteStatus]. *)
Definition status_room (ws : WriteStatus) : Z :=
  if succeed ws && negb (finished ws)
  then Z.min 9223372036854775807 (SIZE_MAX - bytesWritten ws) else 0.

Lemma status_room_add ws n :
  0 <= bytesWritten ws -> 0 < n <= status_room ws ->
  ws_add_ssize ws (to_ssize n) =
    Ret (mkWriteStatus true false (bytesWritten ws + n) (writeError ws)) /\
  status_room ws - n <= status_room (mkWriteStatus true false (bytesWritten ws + n) (writeError ws)).
Proof.
  unfold status_room. destruct ws as [ok fin b e]; cbn. intros Hb Hn.
  destruct ok, fin; cbn in *; try lia.
  assert (to_ssize n = n) as ->.
  { unfold to_ssize. replace (_ <=? n) with false by lia. done. }
  split; [|lia].
  unfold ws_add_ssize; cbn. replace (n >? 0) with true by lia.
  unfold safe_add. assert (limits_max u64 = SIZE_MAX) as -> by done.
  replace (SIZE_MAX - b <? n) with false by lia. rewrite andb_false_r.
  replace (b <? 0) with false by lia. done.
Qed.

#[export] Program Instance ss_sink_spec : SinkSpec StreamableString := {|
  sink_rep s acc := ss_value s = acc /\ 0 <= bytesWritten (ss_writeStatus s);
  sink_room s := status_room (ss_writeStatus s) |}.
Next Obligation.
  intros d s acc [<- Hb] Hd.
  destruct (status_room_add (ss_writeStatus s) (zlen d) Hb Hd) as [Ha Hr].
  eexists _, (zlen d). cbn [sink_write ss_sink]. unfold ss_write. cbn [ss_writeStatus ss_value].
  rewrite Ha. cbn [mbind outcome_bind]. split; [done|]. split; [lia|].
  cbn [ss_value ss_writeStatus bytesWritten sink_status ss_sink].
  rewrite ztake_ge by lia. split_and!; try done. lia.
Qed.
