(* ===== verification/Container.v ===== *)
(** * Binary containers: the base class (Memory/b_base.cpp)

    [B_Base] is an abstract class: its public operations check bounds, limits
    and overflow, and then call virtual operations ([append2], [displace2],
    [copyToBuffer2], [compare2], [findChar], ...) that a storage method
    implements.  The class [Container] is that virtual interface; every public
    operation is written once, against it, in the section [B_Base].

    What a storage method promises, and the theorems proved from it, are in
    ContainerTheory.v. *)

From S2P Require Import Prelude SafeInt Mem Streamable.
From Stdlib Require Import ZArith Lia.

(** ** The fields of [B_Base] *)
Record base := mkBase {
  m_readOnly : bool;
  m_containerBytes : Z;
  m_maxSize : Z;
  m_writeStatus : WriteStatus;
  m_fsDirectoryPath : bytes;
  m_fsBaseFileName : bytes }.

Definition base_init : base :=
  mkBase false 0 SIZE_MAX ws_init (bs "/tmp") (bs "BinaryContainer-").

Definition base_set_readOnly (v : bool) (b : base) : base :=
  mkBase v (m_containerBytes b) (m_maxSize b) (m_writeStatus b) (m_fsDirectoryPath b)
    (m_fsBaseFileName b).
Definition base_set_bytes (v : Z) (b : base) : base :=
  mkBase (m_readOnly b) v (m_maxSize b) (m_writeStatus b) (m_fsDirectoryPath b)
    (m_fsBaseFileName b).
Definition base_set_maxSize (v : Z) (b : base) : base :=
  mkBase (m_readOnly b) (m_containerBytes b) v (m_writeStatus b) (m_fsDirectoryPath b)
    (m_fsBaseFileName b).
Definition base_set_status (v : WriteStatus) (b : base) : base :=
  mkBase (m_readOnly b) (m_containerBytes b) (m_maxSize b) v (m_fsDirectoryPath b)
    (m_fsBaseFileName b).
Definition base_set_fs (dir name : bytes) (b : base) : base :=
  mkBase (m_readOnly b) (m_containerBytes b) (m_maxSize b) (m_writeStatus b) dir name.

(** [std::ostream], as the copies use it. *)
Class OStream (O : Type) := {
  os_write : bytes -> O -> O;
  os_bad : O -> bool }.

(** ** The virtual interface

    A buffer argument is the list of the bytes it holds; an operation that
    fills a buffer returns the bytes it wrote, whose number is the count the
    code returns.  [None] is [std::nullopt]. *)
Class Container (C : Type) := {
  get_base : C -> base;
  set_base : base -> C -> C;
  csize : C -> Z;
  truncate2 : Z -> C -> outcome (C * option Z);
  append2 : bytes -> bool -> C -> outcome (C * option Z);
  displace2 : Z -> C -> outcome (C * option Z);
  clear2 : C -> C * bool;
  copyToStream2 : forall {O : Type} `{OStream O}, O -> Z -> Z -> C -> outcome (O * option Z);
  copyToStreamableObject2 :
    forall {S : Type} `{Sink S}, S -> Z -> Z -> C -> outcome (S * option Z);
  copyToBuffer2 : Z -> Z -> C -> outcome (option bytes);
  compare2 : bytes -> bool -> Z -> C -> outcome bool;
  findChar : Z -> Z -> Z -> bool -> C -> outcome (option Z) }.

(** The copies of a list of memory spans, the [copyChunks] vectors. *)
Fixpoint copyToStreamUsingCleanVector {O} `{OStream O} (streamOut : O)
    (copyChunks : list bytes) (dataCopied : Z) : outcome (O * option Z) :=
  match copyChunks with
  | [] => Ret (streamOut, Some dataCopied)
  | ch :: rest =>
      let streamOut := os_write ch streamOut in
      if os_bad streamOut then Ret (streamOut, None)
      else copyToStreamUsingCleanVector streamOut rest (wrap (dataCopied + zlen ch))
  end.

Fixpoint copyToStreamableObjectUsingCleanVector {S} `{Sink S} (bcOut : S)
    (copyChunks : list bytes) (dataCopied : Z) : outcome (S * option Z) :=
  match copyChunks with
  | [] => Ret (bcOut, Some dataCopied)
  | ch :: rest =>
      '(bcOut, ok) ← writeFullStream ch bcOut;
      if negb ok then Ret (bcOut, None)
      else
        n ← safe_add u64 (zlen ch) dataCopied;
        copyToStreamableObjectUsingCleanVector bcOut rest n
  end.

(** ** The public operations *)
Section B_Base.
Context {C : Type} `{Container C}.
Implicit Types (c : C) (needle data : bytes).

Definition setContainerBytes (value : Z) c : C :=
  set_base (base_set_bytes value (get_base c)) c.
Definition incContainerBytesCount (i : Z) c : C := setContainerBytes (wrap (csize c + i)) c.
Definition decContainerBytesCount (i : Z) c : C := setContainerBytes (wrap (csize c - i)) c.

Definition append data c : outcome (C * option Z) :=
  let len := zlen data in
  if m_readOnly (get_base c) then Ret (c, None)
  else
    let currentSize := csize c in
    if CHECK_UINT_OVERFLOW_SUM len currentSize then Ret (c, None)
    else if wrap (len + currentSize) >? m_maxSize (get_base c) then Ret (c, None)
    else if len =? 0 then Ret (c, None)
    else append2 data false c.

Definition prepend data c : outcome (C * option Z) :=
  let len := zlen data in
  if m_readOnly (get_base c) then Ret (c, None)
  else
    let currentSize := csize c in
    if CHECK_UINT_OVERFLOW_SUM len currentSize then Ret (c, None)
    else if wrap (len + currentSize) >? m_maxSize (get_base c) then Ret (c, None)
    else if len =? 0 then Ret (c, Some 0)
    else append2 data true c.

Definition displace (n : Z) c : outcome (C * option Z) := displace2 (Z.min n (csize c)) c.

Definition truncate (n : Z) c : outcome (C * option Z) :=
  if n >=? csize c then Ret (c, None) else truncate2 n c.

Definition clear0 c : C :=
  set_base (base_set_fs (bs "/tmp") (bs "BinaryContainer-")
              (base_set_bytes 0 (get_base c))) c.

Definition clear c : C * bool := clear2 (clear0 c).

Definition copyToStream {O} `{OStream O} (out : O) (n offset : Z) c : outcome (O * option Z) :=
  let currentSize := csize c in
  if (n =? SIZE_MAX) && (offset >? currentSize) then Ret (out, None)
  else
    let n := if n =? SIZE_MAX then currentSize - offset else n in
    if CHECK_UINT_OVERFLOW_SUM offset n then Ret (out, None)
    else if n =? 0 then Ret (out, Some 0)
    else if offset >? currentSize then Ret (out, None)
    else
      let n := if offset + n >? currentSize then currentSize - offset else n in
      copyToStream2 out n offset c.

Definition appendTo {S} `{Sink S} (out : S) (n offset : Z) c : outcome (S * option Z) :=
  let currentSize := csize c in
  if (n =? SIZE_MAX) && (offset >? currentSize) then
    out ← status_add (-1) out; Ret (out, None)
  else
    let bytesToCopy := if n =? SIZE_MAX then currentSize - offset else n in
    if CHECK_UINT_OVERFLOW_SUM offset bytesToCopy then
      out ← status_add (-1) out; Ret (out, None)
    else if bytesToCopy =? 0 then Ret (out, Some 0)
    else if offset >? currentSize then
      out ← status_add (-1) out; Ret (out, None)
    else
      let bytesToCopy :=
        if offset + bytesToCopy >? currentSize then currentSize - offset else bytesToCopy in
      copyToStreamableObject2 out bytesToCopy offset c.

Definition copyOut (n offset : Z) c : outcome (option bytes) :=
  let currentSize := csize c in
  if (n =? SIZE_MAX) && (offset >? currentSize) then Ret None
  else
    let n := if n =? SIZE_MAX then currentSize - offset else n in
    if CHECK_UINT_OVERFLOW_SUM offset n then Ret None
    else if n =? 0 then Ret (Some [])
    else if offset + n >? currentSize then Ret None
    else copyToBuffer2 n offset c.

(** [copyToBuffer()]: the whole content as a vector, empty on failure. *)
Definition copyToBuffer c : outcome bytes :=
  let n := csize c in
  copied ← copyOut n 0 c;
  Ret (match copied with
       | Some buf => if zlen buf =? n then buf else []
       | None => []
       end).

(** The loop shared by [copyToString] and [toString]: blocks of 8192 bytes. *)
Fixpoint toString_loop (fuel : nat) (r : bytes) (n offset : Z) c : outcome bytes :=
  if n =? 0 then Ret r
  else
    match fuel with
    | O => NoFuel
    | Datatypes.S fuel' =>
        let copyBytes := Z.min n 8192 in
        outBytes ← copyOut copyBytes offset c;
        match outBytes with
        | Some out => toString_loop fuel' (r ++ out) (n - copyBytes) (wrap (offset + copyBytes)) c
        | None => Ret r
        end
    end.

Definition toString_fuel (n : Z) : nat := Z.to_nat (n / 8192) + 2.

Definition copyToString (outStr : bytes) (n offset : Z) c : outcome (bytes * option Z) :=
  let currentSize := csize c in
  if (n =? SIZE_MAX) && (offset >? currentSize) then Ret (outStr, None)
  else
    let n := if n =? SIZE_MAX then currentSize - offset else n in
    if CHECK_UINT_OVERFLOW_SUM offset n then Ret (outStr, None)
    else if n =? 0 then Ret (outStr, Some 0)
    else if offset + n >? currentSize then Ret (outStr, None)
    else
      outStr ← toString_loop (toString_fuel n) outStr n offset c;
      Ret (outStr, Some (zlen outStr)).

Definition toString (n offset : Z) c : outcome (option bytes) :=
  let currentSize := csize c in
  if (n =? SIZE_MAX) && (offset >? currentSize) then Ret None
  else
    let n := if n =? SIZE_MAX then currentSize - offset else n in
    if CHECK_UINT_OVERFLOW_SUM offset n then Ret None
    else if n =? 0 then Ret (Some [])
    else if offset + n >? currentSize then Ret None
    else
      r ← toString_loop (toString_fuel n) [] n offset c;
      Ret (Some r).

Definition toStringEx (n offset : Z) c : outcome bytes :=
  r ← toString n offset c; Ret (default [] r).

(** [compare(mem, len, ...)]: the function returns [true] before it looks at
    the bytes; the statements after that [return] are never reached. *)
Definition compare (mem : bytes) (caseSensitive : bool) (offset : Z) c : outcome bool :=
  if CHECK_UINT_OVERFLOW_SUM offset (zlen mem) then Ret false else Ret true.

(** [compare(const std::string &, ...)]. *)
Definition compare_string (cmpString : bytes) (caseSensitive : bool) (offset : Z) c :
    outcome bool :=
  if negb (zlen cmpString =? csize c) then Ret false
  else compare cmpString caseSensitive offset c.

(** The search loop of [find]: [pos] is the last answer of [findChar]. *)
Fixpoint find_loop (fuel : nat) needle (caseSensitive : bool)
    (currentOffset searchSpace : Z) (pos : option Z) c : outcome (option Z) :=
  match pos with
  | None => Ret None
  | Some p =>
      match fuel with
      | O => NoFuel
      | Datatypes.S fuel' =>
          let displacement := wrap (p - currentOffset) in
          let currentOffset := wrap (currentOffset + displacement) in
          let searchSpace := wrap (searchSpace - displacement) in
          eq ← compare2 needle caseSensitive currentOffset c;
          if (eq : bool) then Ret (Some currentOffset)
          else if searchSpace =? 0 then Ret None
          else
            let currentOffset := wrap (currentOffset + 1) in
            let searchSpace := searchSpace - 1 in
            pos ← findChar (to_char (hd 0 needle)) currentOffset searchSpace caseSensitive c;
            find_loop fuel' needle caseSensitive currentOffset searchSpace pos c
      end
  end.

(** [find(needle, needle_len, caseSensitive, offset, searchSpace)]. *)
Definition find needle (caseSensitive : bool) (offset searchSpace : Z) c :
    outcome (option Z) :=
  let currentSize := csize c in
  let needle_len := zlen needle in
  if CHECK_UINT_OVERFLOW_SUM offset needle_len then Ret None
  else if CHECK_UINT_OVERFLOW_SUM offset searchSpace then Ret None
  else if offset >? currentSize then Ret None
  else
    let searchSpace := if searchSpace =? 0 then currentSize - offset else searchSpace in
    if searchSpace =? 0 then Ret None
    else if searchSpace <? needle_len then Ret None
    else if needle_len =? 0 then Ret (Some 0)
    else
      pos ← findChar (to_char (hd 0 needle)) offset searchSpace caseSensitive c;
      find_loop (Z.to_nat currentSize + 2) needle caseSensitive offset searchSpace pos c.

(** [find(needles, needleFound, ...)]: the first needle of the list that occurs. *)
Fixpoint find_any (needles : list bytes) (caseSensitive : bool) (offset searchSpace : Z) c :
    outcome (bytes * option Z) :=
  match needles with
  | [] => Ret ([], None)
  | needle :: rest =>
      f ← find needle caseSensitive offset searchSpace c;
      match f with
      | Some p => Ret (needle, Some p)
      | None => find_any rest caseSensitive offset searchSpace c
      end
  end.

Definition isNull c : bool := csize c =? 0.
Definition getMaxSize c : Z := m_maxSize (get_base c).
Definition setMaxSize (value : Z) c : C := set_base (base_set_maxSize value (get_base c)) c.

Definition getSizeLeft c : Z :=
  if csize c >? m_maxSize (get_base c) then 0 else m_maxSize (get_base c) - csize c.

Definition reduceMaxSizeBy (value : Z) c : outcome C :=
  if value >? getMaxSize c then
    Throw (runtime_error
      "Don't reduce the max size with a value greater than the current max.")
  else Ret (setMaxSize (getMaxSize c - value) c).

(** [write]: containers are sinks, through [append]. *)
Definition container_set_status (ws : WriteStatus) c : C :=
  set_base (base_set_status ws (get_base c)) c.

Definition write (buf : bytes) c : outcome (C * option Z) :=
  '(c, bytesAppended) ← append buf c;
  ws ← ws_add_ssize (m_writeStatus (get_base c))
         (match bytesAppended with Some n => to_ssize n | None => -1 end);
  Ret (container_set_status ws c, bytesAppended).

#[export] Instance container_sink : Sink C := {|
  sink_status c := m_writeStatus (get_base c);
  sink_set_status := container_set_status;
  sink_write := write |}.

Definition container_streamTo {S} `{Sink S} c (out : S) : outcome (S * bool) :=
  '(out, x) ← appendTo out SIZE_MAX 0 c;
  Ret (out, has_value x && succeed (sink_status out)).

#[export] Instance container_source : Source C := {|
  streamTo S H c out := container_streamTo c out |}.
End B_Base.

(** ** Operations on two containers *)
Section TwoContainers.
Context {C : Type} `{Container C} {D : Type} `{Container D}.

Definition copyUntil (destination : D) (needle : bytes) (maxCopySize : Z)
    (removeNeedle : bool) (c : C) : outcome (D * Z) :=
  needlePos ← find needle false 0 maxCopySize c;
  match needlePos with
  | None => Ret (destination, -1)
  | Some p =>
      if CHECK_UINT_OVERFLOW_SUM p (zlen needle) then Ret (destination, -1)
      else
        let n := if removeNeedle then p else p + zlen needle in
        if n >? maxCopySize then Ret (destination, -2)
        else '(destination, _) ← appendTo destination n 0 c; Ret (destination, 0)
  end.

Definition displaceUntil (destination : D) (needle : bytes) (maxCopySize : Z)
    (removeNeedle : bool) (c : C) : outcome (C * D * Z) :=
  '(destination, retr) ← copyUntil destination needle maxCopySize removeNeedle c;
  if retr <? 0 then Ret (c, destination, retr)
  else
    '(c, _) ← displace (wrap (csize destination + (if removeNeedle then zlen needle else 0))) c;
    Ret (c, destination, 0).

Fixpoint displaceUntil_any (destination : D) (needles : list bytes) (maxCopySize : Z)
    (removeNeedle : bool) (c : C) : outcome (C * D * Z) :=
  match needles with
  | [] => Ret (c, destination, -1)
  | needle :: rest =>
      '(c, destination, r) ← displaceUntil destination needle maxCopySize removeNeedle c;
      if r =? 0 then Ret (c, destination, 0)
      else displaceUntil_any destination rest maxCopySize removeNeedle c
  end.

(** [operator=]. *)
Definition assign (bc : D) (c : C) : outcome C :=
  let '(c, _) := clear c in
  '(c, _) ← appendTo c SIZE_MAX 0 bc;
  Ret c.
End TwoContainers.

(** ** Moving a container to a file

    [B_MMAP] objects, as [copyToFS] uses them: [referenceFile] with a file name
    of the given directory and base name, which may fail. *)
Class MMapFile (M : Type) := {
  referenceFile : bytes -> bytes -> bytes -> option M;
  setDeleteFileOnDestruction : bool -> M -> M }.

Definition copyToFS {C} `{Container C} {M} `{Container M} `{MMapFile M}
    (fileName : bytes) (deleteFileOnDestruction : bool) (c : C) : outcome (option M) :=
  match referenceFile (m_fsDirectoryPath (get_base c)) (m_fsBaseFileName (get_base c)) fileName with
  | None => Ret None
  | Some mmapbc =>
      let mmapbc := setDeleteFileOnDestruction deleteFileOnDestruction mmapbc in
      '(mmapbc, bytesAppended) ← appendTo mmapbc SIZE_MAX 0 c;
      match bytesAppended with
      | Some n => if n =? csize c then Ret (Some mmapbc) else Ret None
      | None => Ret None
      end
  end.
