(* ===== verification/ContainerTheory.v ===== *)
(** * What the public operations of a container compute

    The classes [ScanSpec] and [ReadSpec] state what a storage method promises
    about its bytes; the theorems show that [find], [find_any], [copyOut],
    [toString], [appendTo] and [streamTo] of [B_Base] (Container.v) then have
    their intended meaning, whatever the storage method. *)

From S2P Require Import Prelude SafeInt Mem Streamable Container.
From Stdlib Require Import ZArith Lia.

(** ** Reference definitions *)

Definition matches_at (cs : bool) (needle l : bytes) : bool :=
  same_bytes cs (ztake (zlen needle) l) needle.

(** The first position where [needle] occurs in [l]. *)
Fixpoint search (cs : bool) (needle l : bytes) : option Z :=
  if matches_at cs needle l then Some 0
  else match l with
       | [] => None
       | _ :: l' => Z.succ <$> search cs needle l'
       end.

(** The first needle of the list that occurs, with its position. *)
Fixpoint search_any (cs : bool) (needles : list bytes) (l : bytes) : bytes * option Z :=
  match needles with
  | [] => ([], None)
  | n :: rest => match search cs n l with
                 | Some p => (n, Some p)
                 | None => search_any cs rest l
                 end
  end.

Section search.
Implicit Types (l needle : bytes) (cs : bool).

Lemma same_bytes_cons_inv cs a y b :
  same_bytes cs a (y :: b) = true -> exists x a', a = x :: a' /\ same_char cs x y = true.
Proof. destruct a as [|x a']; cbn; [done|]. intros [? ?]%andb_true_iff. eauto. Qed.

(** A byte the first needle character cannot match starts no occurrence. *)
Lemma matches_at_cons_false cs needle x l :
  needle <> [] -> same_char cs x (hd 0 needle) = false -> matches_at cs needle (x :: l) = false.
Proof.
  destruct needle as [|y needle]; [done|]. intros _ Hx. unfold matches_at, ztake.
  rewrite zlen_cons. pose proof (zlen_nonneg needle).
  replace (Z.to_nat (1 + zlen needle)) with (S (Z.to_nat (zlen needle))) by lia.
  cbn in *. by rewrite Hx.
Qed.

Lemma matches_at_nil cs needle : needle <> [] -> matches_at cs needle [] = false.
Proof. destruct needle; [done|]. intros _. unfold matches_at, ztake. by rewrite take_nil. Qed.

Lemma search_nil cs needle : needle <> [] -> search cs needle [] = None.
Proof. intros. cbn. by rewrite matches_at_nil. Qed.

Lemma matches_at_short cs needle l : zlen l < zlen needle -> matches_at cs needle l = false.
Proof.
  intros Hl. unfold matches_at. rewrite ztake_ge by lia.
  destruct (same_bytes cs l needle) eqn:E; [|done].
  apply same_bytes_length in E. unfold zlen in Hl. lia.
Qed.

Lemma search_short cs needle l : zlen l < zlen needle -> search cs needle l = None.
Proof.
  induction l as [|x l IH]; intros Hl; cbn [search]; rewrite matches_at_short by done; [done|].
  rewrite zlen_cons in Hl. by rewrite IH by lia.
Qed.

(** Searching may start at the first byte a superset test accepts. *)
Lemma search_skip cs needle p l :
  needle <> [] -> (forall x, same_char cs x (hd 0 needle) = true -> p x = true) ->
  search cs needle l =
    match first_index p l with
    | None => None
    | Some d => Z.add d <$> search cs needle (zdrop d l)
    end.
Proof.
  intros Hn Hp. induction l as [|x l IH]; cbn [first_index].
  { by apply search_nil. }
  destruct (p x) eqn:Ex.
  { rewrite zdrop_le0 by lia. by destruct (search cs needle (x :: l)). }
  cbn [search]. rewrite matches_at_cons_false; [|done|].
  2: { destruct (same_char cs x (hd 0 needle)) eqn:E; [|done]. apply Hp in E. congruence. }
  rewrite IH. destruct (first_index p l) as [d|] eqn:Ed; cbn; [|done].
  apply first_index_bounds in Ed.
  assert (zdrop (Z.succ d) (x :: l) = zdrop d l) as ->.
  { unfold zdrop. by replace (Z.to_nat (Z.succ d)) with (S (Z.to_nat d)) by lia. }
  destruct (search cs needle (zdrop d l)); cbn; [|done]. f_equal. lia.
Qed.

(** [search] finds an occurrence, and the first one. *)
Lemma search_correct cs needle l p :
  search cs needle l = Some p ->
  0 <= p <= zlen l /\ matches_at cs needle (zdrop p l) = true /\
  (forall q, 0 <= q < p -> matches_at cs needle (zdrop q l) = false).
Proof.
  revert p. induction l as [|x l IH]; intros p; cbn [search].
  all: destruct (matches_at _ _ _) eqn:E.
  1, 3: intros [= <-]; rewrite zdrop_le0 by lia;
        split; [zl|]; split; [done|lia].
  { done. }
  destruct (search cs needle l) as [p'|]; [|done]. cbn. intros [= <-].
  destruct (IH p' eq_refl) as (Hb & Hm & Hf).
  assert (forall q, 0 <= q -> zdrop (Z.succ q) (x :: l) = zdrop q l) as Hd.
  { intros q Hq. unfold zdrop. by replace (Z.to_nat (Z.succ q)) with (S (Z.to_nat q)) by lia. }
  rewrite zlen_cons. split; [lia|]. rewrite Hd by lia. split; [done|].
  intros q Hq. destruct (decide (q = 0)) as [->|]; [by rewrite zdrop_le0 by lia|].
  replace q with (Z.succ (q - 1)) by lia. rewrite Hd by lia. apply Hf. lia.
Qed.

Lemma search_None cs needle l :
  search cs needle l = None -> forall q, 0 <= q <= zlen l -> matches_at cs needle (zdrop q l) = false.
Proof.
  induction l as [|x l IH]; cbn [search]; destruct (matches_at _ _ _) eqn:E; try done; intros Hs q Hq.
  { change (zlen []) with 0 in Hq. by rewrite zdrop_le0 by lia. }
  destruct (search cs needle l); [done|]. rewrite zlen_cons in Hq.
  destruct (decide (q = 0)) as [->|]; [by rewrite zdrop_le0 by lia|].
  assert (zdrop q (x :: l) = zdrop (q - 1) l) as ->.
  { unfold zdrop. by replace (Z.to_nat q) with (S (Z.to_nat (q - 1))) by lia. }
  apply IH; [done|lia].
Qed.

Lemma search_end cs needle l p :
  search cs needle l = Some p -> p + zlen needle <= zlen l.
Proof.
  intros Hs. destruct (search_correct _ _ _ _ Hs) as (Hb & Hm & _).
  unfold matches_at in Hm. apply same_bytes_length in Hm.
  unfold ztake, zdrop, zlen in *. rewrite length_take, length_drop in Hm. lia.
Qed.

(** Bytes behind an occurrence do not change it. *)
Lemma search_app cs needle l k p :
  needle <> [] -> search cs needle l = Some p -> search cs needle (l ++ k) = Some p.
Proof.
  intros Hn. revert p. induction l as [|x l IH]; intros p; [by rewrite search_nil|].
  intros Hs. pose proof (search_end _ _ _ _ Hs) as He.
  destruct (search_correct _ _ _ _ Hs) as (Hb & _). rewrite zlen_cons in He.
  assert (matches_at cs needle ((x :: l) ++ k) = matches_at cs needle (x :: l)) as Hm.
  { unfold matches_at. rewrite ztake_app_le; [done|]. rewrite zlen_cons. lia. }
  cbn [app search] in *. rewrite Hm. destruct (matches_at cs needle (x :: l)); [done|].
  destruct (search cs needle l) as [q|]; [|done]. by rewrite (IH q).
Qed.

(** An occurrence in [l ++ k] of a needle that is not in [l] ends in [k]. *)
Lemma search_app_new cs needle l k p :
  needle <> [] -> search cs needle l = None -> search cs needle (l ++ k) = Some p ->
  zlen l < p + zlen needle.
Proof.
  intros Hn Hl Hs. destruct (Z.lt_ge_cases (zlen l) (p + zlen needle)) as [|Hle]; [done|].
  destruct (search_correct _ _ _ _ Hs) as (Hb & Hm & _). pose proof (zlen_nonneg needle).
  pose proof (search_None _ _ _ Hl p) as Hnone. unfold matches_at in *.
  rewrite zdrop_app_le, ztake_app_le in Hm by (rewrite ?zlen_zdrop; lia). rewrite Hnone in Hm; [done|lia].
Qed.

(** ** Splitting at a delimiter

    [splits d l ls r]: [l] is the elements [ls], each followed by the delimiter
    [d] at its first occurrence, and a rest [r] without delimiter. *)
Inductive splits (d : bytes) : bytes -> list bytes -> bytes -> Prop :=
| splits_rest l : search true d l = None -> splits d l [] l
| splits_element l p ls r :
    search true d l = Some p -> splits d (zdrop (p + zlen d) l) ls r ->
    splits d l (ztake p l :: ls) r.

Lemma splits_app d l k ls1 r1 ls2 r2 :
  d <> [] -> splits d l ls1 r1 -> splits d (r1 ++ k) ls2 r2 -> splits d (l ++ k) (ls1 ++ ls2) r2.
Proof.
  intros Hd H1 H2. induction H1 as [l Hl|l p ls r Hp _ IH]; [done|].
  pose proof (search_end _ _ _ _ Hp) as He. destruct (search_correct _ _ _ _ Hp) as (Hb & _).
  pose proof (zlen_nonneg d). cbn [app].
  rewrite <- (ztake_app_le p l k) by lia. apply splits_element; [by apply search_app|].
  rewrite zdrop_app_le by lia. by apply IH.
Qed.

Lemma splits_det d l ls1 r1 ls2 r2 :
  splits d l ls1 r1 -> splits d l ls2 r2 -> ls1 = ls2 /\ r1 = r2.
Proof.
  intros H1. revert ls2 r2. induction H1 as [l Hl|l p ls r Hp _ IH]; intros ls2 r2 H2;
    inversion H2 as [? Hl'|? p' ? ? Hp' H2']; subst; try congruence; [done|].
  assert (p' = p) as -> by congruence. destruct (IH _ _ H2') as [-> ->]. done.
Qed.

Lemma splits_total d l : d <> [] -> exists ls r, splits d l ls r.
Proof.
  intros Hd. assert (0 < zlen d) as Hl.
  { destruct d as [|x d]; [done|]. rewrite zlen_cons. pose proof (zlen_nonneg d). lia. }
  remember (length l) as n eqn:E. assert (length l <= n)%nat as Hn by lia. clear E.
  revert l Hn. induction n as [|n IH]; intros l Hn; destruct (search true d l) as [p|] eqn:Es;
    try (by exists [], l; apply splits_rest);
    pose proof (search_end _ _ _ _ Es); destruct (search_correct _ _ _ _ Es) as (Hb & _).
  { unfold zlen in *. lia. }
  destruct (IH (zdrop (p + zlen d) l)) as (ls & r & Hs).
  { unfold zdrop, zlen in *. rewrite length_drop. lia. }
  exists (ztake p l :: ls), r. by apply splits_element.
Qed.

Lemma splits_rest_clean d l ls r : splits d l ls r -> search true d r = None.
Proof. by induction 1. Qed.
End search.

(** ** The specification of a search

    [r] is the position of the first place at or after [off] where the needle
    occurs, or [None] when it occurs nowhere from [off] on. *)
Definition occurs_at (cs : bool) (needle l : bytes) (p : Z) : Prop :=
  same_bytes cs (slice p (zlen needle) l) needle = true.

Definition first_occurrence (cs : bool) (needle l : bytes) (off : Z) (r : option Z) : Prop :=
  match r with
  | Some p => off <= p /\ p + zlen needle <= zlen l /\ occurs_at cs needle l p /\
              forall q, off <= q < p -> ~ occurs_at cs needle l q
  | None => forall q, off <= q <= zlen l -> ~ occurs_at cs needle l q
  end.

Lemma occurs_at_matches cs needle l off d :
  0 <= off -> 0 <= d ->
  occurs_at cs needle l (off + d) <-> matches_at cs needle (zdrop d (zdrop off l)) = true.
Proof. intros. unfold occurs_at, slice. by rewrite <- zdrop_zdrop by lia. Qed.

Lemma search_first cs needle l off :
  0 <= off <= zlen l ->
  first_occurrence cs needle l off (Z.add off <$> search cs needle (zdrop off l)).
Proof.
  intros Ho. destruct (search cs needle (zdrop off l)) as [p|] eqn:E; cbn.
  - destruct (search_correct _ _ _ _ E) as (Hb & Hm & Hf). pose proof (search_end _ _ _ _ E) as He.
    rewrite zlen_zdrop in He. split_and!; try lia.
    + by apply occurs_at_matches; [lia..|].
    + intros q Hq Hoc. replace q with (off + (q - off)) in Hoc by lia.
      apply occurs_at_matches in Hoc; [|lia..]. rewrite Hf in Hoc by lia. done.
  - intros q Hq Hoc. replace q with (off + (q - off)) in Hoc by lia.
    apply occurs_at_matches in Hoc; [|lia..].
    rewrite (search_None _ _ _ E) in Hoc; [done|]. rewrite zlen_zdrop. lia.
Qed.

(** ** Copying spans *)
Section spans.
Context {S : Type} `{SinkSpec S}.

Lemma copyToStreamableObject_spans (s : S) acc (spans : list bytes) copied :
  sink_rep s acc -> 0 <= copied -> copied + zlen (concat spans) <= SIZE_MAX ->
  zlen (concat spans) <= sink_room s ->
  exists s', copyToStreamableObjectUsingCleanVector s spans copied =
      Ret (s', Some (copied + zlen (concat spans))) /\
    sink_rep s' (acc ++ concat spans) /\
    sink_room s - zlen (concat spans) <= sink_room s'.
Proof.
  revert s acc copied. induction spans as [|sp spans IH]; intros s acc copied Hrep Hc Hm Hr;
    cbn [copyToStreamableObjectUsingCleanVector concat] in *.
  { exists s. rewrite app_nil_r, (@zlen_nil Z), Z.add_0_r. auto with lia. }
  rewrite zlen_app in *. pose proof (zlen_nonneg sp). pose proof (zlen_nonneg (concat spans)).
  destruct (writeFullStream_ok sp s acc) as (s1 & Hw & Hd & Hr1); [done|lia|].
  rewrite Hw. cbn [mbind outcome_bind negb].
  assert (safe_add u64 (zlen sp) copied = Ret (zlen sp + copied)) as ->.
  { unfold safe_add. assert (limits_max u64 = SIZE_MAX) as -> by done.
    replace (SIZE_MAX - zlen sp <? copied) with false by lia. rewrite andb_false_r.
    by replace (zlen sp <? 0) with false by lia. }
  cbn [mbind outcome_bind].
  destruct (IH s1 (acc ++ sp) (zlen sp + copied)) as (s2 & Hw2 & Hd2 & Hr2); try done; try lia.
  exists s2. rewrite Hw2. split; [do 3 f_equal; lia|].
  rewrite <- app_assoc in Hd2. split; [done|lia].
Qed.
End spans.

(** ** The promises of a storage method *)

(** The bytes of a container and its size. *)
Class ContentsSpec (C : Type) `{Container C} := {
  contents : C -> bytes;
  contents_ok : C -> Prop;
  csize_ok c : contents_ok c -> csize c = zlen (contents c);
  csize_bound c : contents_ok c -> zlen (contents c) + blockSize < SIZE_MOD }.

(** Reading front to back: the comparison, the character search and the copy
    into a sink.  [fc_match] is the test [findChar] applies. *)
Class ScanSpec (C : Type) `{ContentsSpec C} := {
  fc_match : Z -> bool -> byte -> bool;
  compare2_ok c buf cs off :
    contents_ok c -> 0 <= off -> 0 < zlen buf -> is_size (zlen buf) -> off < SIZE_MOD ->
    compare2 buf cs off c =
      Ret (same_bytes cs (ztake (zlen buf) (zdrop off (contents c))) buf);
  findChar_ok c ch off sp cs :
    contents_ok c -> 0 <= off -> 0 <= sp -> off + sp = zlen (contents c) -> 0 < zlen (contents c) ->
    findChar ch off sp cs c =
      Ret (Z.add off <$> first_index (fc_match ch cs) (zdrop off (contents c)));
  copyToSink_ok {S} `{SinkSpec S} c (s : S) acc n off :
    contents_ok c -> sink_rep s acc -> 0 <= off -> 0 < n -> off + n <= zlen (contents c) -> n <= sink_room s ->
    exists s', copyToStreamableObject2 s n off c = Ret (s', Some n) /\
      sink_rep s' (acc ++ slice off n (contents c)) /\
      sink_room s - n <= sink_room s' }.

(** Reading at an offset. *)
Class ReadSpec (C : Type) `{ContentsSpec C} := {
  read_ok : C -> Prop;
  read_contents c : read_ok c -> contents_ok c;
  copyToBuffer2_ok c n off :
    read_ok c -> 0 <= off -> 0 < n -> off + n <= zlen (contents c) ->
    copyToBuffer2 n off c = Ret (Some (slice off n (contents c))) }.

Section Scan.
Context {C : Type} `{ScanSpec C}.
Implicit Types (c : C) (needle : bytes).

(** The character test accepts every byte that may start an occurrence. *)
Definition fc_complete (cs : bool) (needle : bytes) : Prop :=
  forall x, same_char cs x (hd 0 needle) = true ->
            fc_match (to_char (hd 0 needle)) cs x = true.

Lemma find_loop_spec fuel c needle cs cur sp :
  contents_ok c -> needle <> [] -> is_size (zlen needle) -> fc_complete cs needle ->
  0 <= cur -> 0 <= sp -> cur + sp = zlen (contents c) -> 0 < zlen (contents c) ->
  sp < Z.of_nat fuel ->
  find_loop fuel needle cs cur sp
    (Z.add cur <$> first_index (fc_match (to_char (hd 0 needle)) cs) (zdrop cur (contents c))) c
  = Ret (Z.add cur <$> search cs needle (zdrop cur (contents c))).
Proof.
  intros Hok Hn Hns Hfc. pose proof (csize_bound c Hok) as Hb. unfold blockSize, KB_MULT in Hb.
  revert cur sp. induction fuel as [|fuel IH]; intros cur sp Hc Hs Hsum Hpos Hf; [lia|].
  rewrite (search_skip cs needle _ (zdrop cur (contents c)) Hn Hfc).
  destruct (first_index _ (zdrop cur (contents c))) as [d|] eqn:Ed; cbn [fmap option_fmap option_map find_loop]; [|done].
  apply first_index_bounds in Ed. rewrite zlen_zdrop in Ed.
  unfold SIZE_MOD in Hb.
  rewrite (wrap_small (cur + d - cur)), (wrap_small (cur + (cur + d - cur))),
    (wrap_small (sp - (cur + d - cur))) by (unfold SIZE_MOD; lia).
  replace (cur + (cur + d - cur)) with (cur + d) by lia.
  replace (sp - (cur + d - cur)) with (sp - d) by lia.
  assert (0 < zlen needle).
  { destruct needle; [done|]. rewrite zlen_cons. pose proof (zlen_nonneg needle). lia. }
  rewrite compare2_ok by (try done; unfold SIZE_MOD; lia). cbn [mbind outcome_bind].
  rewrite zdrop_zdrop by lia.
  change (same_bytes cs _ needle) with (matches_at cs needle (zdrop (cur + d) (contents c))).
  destruct (zdrop (cur + d) (contents c)) as [|x rest] eqn:Erest.
  { apply (f_equal zlen) in Erest. rewrite zlen_zdrop in Erest. change (zlen []) with 0 in Erest. lia. }
  cbn [search]. destruct (matches_at cs needle (x :: rest)) eqn:Em; cbn [fmap option_fmap option_map].
  { do 2 f_equal. lia. }
  replace (sp - d =? 0) with false by lia.
  rewrite (wrap_small (cur + d + 1)) by (unfold SIZE_MOD; lia).
  assert (zdrop (cur + d + 1) (contents c) = rest) as Hrest.
  { rewrite <- zdrop_zdrop, Erest by lia. done. }
  rewrite findChar_ok by (try done; lia). cbn [mbind outcome_bind].
  replace (sp - d - 1) with (sp - (d + 1)) by lia.
  rewrite IH by (try done; lia). rewrite Hrest.
  destruct (search cs needle rest); cbn; [|done]. do 2 f_equal. lia.
Qed.

(** [find] over the rest of the container is the reference search. *)
Lemma find_spec c needle cs off :
  contents_ok c -> needle <> [] -> is_size (zlen needle) -> fc_complete cs needle ->
  0 <= off -> off <= zlen (contents c) -> off + zlen needle < SIZE_MOD ->
  find needle cs off 0 c = Ret (Z.add off <$> search cs needle (zdrop off (contents c))).
Proof.
  intros Hok Hn Hns Hfc Hoff Hle Hov. pose proof (csize_bound c Hok) as Hb.
  unfold blockSize, KB_MULT in Hb.
  assert (0 < zlen needle).
  { destruct needle; [done|]. rewrite zlen_cons. pose proof (zlen_nonneg needle). lia. }
  unfold find. rewrite !check_overflow_false by (unfold is_size in *; zl).
  rewrite csize_ok by done.
  replace (off >? zlen (contents c)) with false by lia. rewrite Z.eqb_refl.
  destruct (zlen (contents c) - off =? 0) eqn:E0.
  { rewrite zdrop_ge by lia. by rewrite search_nil. }
  destruct (_ <? zlen needle) eqn:E1.
  { rewrite search_short; [done|]. rewrite zlen_zdrop. lia. }
  replace (zlen needle =? 0) with false by lia.
  rewrite findChar_ok by (try done; lia). cbn [mbind outcome_bind].
  apply find_loop_spec; try done; lia.
Qed.

Lemma find_any_spec c needles cs :
  contents_ok c ->
  (forall n, n ∈ needles -> n <> [] /\ is_size (zlen n) /\ fc_complete cs n) ->
  find_any needles cs 0 0 c = Ret (search_any cs needles (contents c)).
Proof.
  intros Hok. induction needles as [|n rest IH]; intros Hn; cbn [find_any search_any]; [done|].
  destruct (Hn n (list_elem_of_here n rest)) as (Hne & Hs & Hfc).
  rewrite find_spec by first [done | apply zlen_nonneg | unfold is_size in *; lia].
  rewrite zdrop_le0 by lia. cbn [mbind outcome_bind].
  destruct (search cs n (contents c)); cbn; [done|].
  apply IH. intros m Hm. apply Hn. by apply list_elem_of_further.
Qed.

(** [appendTo] with a byte count inside the container copies that slice. *)
Lemma appendTo_spec {S} `{SinkSpec S} c (s : S) acc n off :
  contents_ok c -> sink_rep s acc -> 0 <= off -> 0 < n -> off + n <= zlen (contents c) -> n <= sink_room s ->
  exists s', appendTo s n off c = Ret (s', Some n) /\
    sink_rep s' (acc ++ slice off n (contents c)) /\
    sink_room s - n <= sink_room s'.
Proof.
  intros Hok Hrep Hoff Hn Hle Hroom. pose proof (csize_bound c Hok) as Hb.
  unfold blockSize, KB_MULT in Hb. unfold appendTo. rewrite csize_ok by done.
  replace (n =? SIZE_MAX) with false by zl. cbn [andb].
  rewrite check_overflow_false by zl.
  replace (n =? 0) with false by lia. replace (off >? _) with false by lia.
  replace (off + n >? _) with false by lia.
  by apply copyToSink_ok.
Qed.

(** [appendTo] with the default arguments copies everything. *)
Lemma appendTo_all {S} `{SinkSpec S} c (s : S) acc :
  contents_ok c -> sink_rep s acc -> zlen (contents c) <= sink_room s ->
  exists s', appendTo s SIZE_MAX 0 c =
      Ret (s', Some (zlen (contents c))) /\
    sink_rep s' (acc ++ contents c) /\
    sink_room s - zlen (contents c) <= sink_room s'.
Proof.
  intros Hok Hrep Hroom. pose proof (csize_bound c Hok) as Hb. pose proof (zlen_nonneg (contents c)).
  unfold blockSize, KB_MULT in Hb. unfold appendTo. rewrite csize_ok by done.
  rewrite Z.eqb_refl. replace (0 >? _) with false by lia. cbn [andb]. rewrite Z.sub_0_r.
  rewrite check_overflow_false by zl.
  destruct (zlen (contents c) =? 0) eqn:E.
  { exists s. assert (contents c = []) as -> by (apply zlen_zero_nil; lia).
    rewrite app_nil_r, (@zlen_nil Z). auto with lia. }
  replace (0 + zlen (contents c) >? _) with false by lia.
  destruct (copyToSink_ok c s acc (zlen (contents c)) 0) as (s' & Hs & Hd & Hr); try done; try lia.
  exists s'. rewrite slice_all in Hd. auto.
Qed.
End Scan.

Section Read.
Context {C : Type} `{ReadSpec C}.
Implicit Types (c : C).

Lemma copyOut_spec c n off :
  read_ok c -> 0 <= off -> 0 <= n -> off + n <= zlen (contents c) -> n < SIZE_MAX ->
  copyOut n off c = Ret (Some (slice off n (contents c))).
Proof.
  intros Hok Hoff Hn Hle Hmax. pose proof (csize_bound c (read_contents c Hok)) as Hb.
  unfold blockSize, KB_MULT in Hb. unfold copyOut. rewrite csize_ok by by apply read_contents.
  replace (n =? SIZE_MAX) with false by lia. cbn [andb].
  rewrite check_overflow_false by zl.
  destruct (n =? 0) eqn:E.
  { unfold slice. by rewrite ztake_le0 by lia. }
  replace (off + n >? _) with false by lia. apply copyToBuffer2_ok; [done|lia..].
Qed.

Lemma copyOut_out_of_bounds c n off :
  contents_ok c -> is_size off -> 0 < n < SIZE_MAX -> zlen (contents c) < off + n ->
  copyOut n off c = Ret None.
Proof.
  intros Hok Hoff Hn Hle. unfold copyOut. rewrite csize_ok by done.
  replace (n =? SIZE_MAX) with false by lia. cbn [andb].
  destruct (CHECK_UINT_OVERFLOW_SUM off n); [done|].
  replace (n =? 0) with false by lia. by replace (off + n >? _) with true by lia.
Qed.

Lemma copyToBuffer_spec c : read_ok c -> copyToBuffer c = Ret (contents c).
Proof.
  intros Hok. pose proof (csize_bound c (read_contents c Hok)) as Hb. unfold blockSize, KB_MULT in Hb.
  pose proof (zlen_nonneg (contents c)). unfold copyToBuffer.
  rewrite csize_ok by by apply read_contents. rewrite copyOut_spec by (try done; zl).
  cbn [mbind outcome_bind]. by rewrite slice_all, Z.eqb_refl.
Qed.

Lemma toString_loop_spec fuel c r n off :
  read_ok c -> 0 <= off -> 0 <= n -> off + n <= zlen (contents c) ->
  (n + 8191) / 8192 < Z.of_nat fuel ->
  toString_loop fuel r n off c = Ret (r ++ slice off n (contents c)).
Proof.
  intros Hok. pose proof (csize_bound c (read_contents c Hok)) as Hb. unfold blockSize, KB_MULT in Hb.
  revert r n off. induction fuel as [|fuel IH]; intros r n off Hoff Hn Hle Hf.
  { assert (n = 0) as -> by (pose proof (Z.div_pos (n + 8191) 8192); lia).
    cbn. unfold slice. by rewrite ztake_le0, app_nil_r by lia. }
  cbn [toString_loop]. destruct (Z.eqb_spec n 0) as [->|Hnz].
  { unfold slice. by rewrite ztake_le0, app_nil_r by lia. }
  set (k := Z.min n 8192).
  rewrite copyOut_spec by (try done; zl). cbn [mbind outcome_bind].
  rewrite wrap_small by zl.
  rewrite IH; [|lia..|].
  - rewrite <- app_assoc, <- slice_add by lia. do 3 f_equal. lia.
  - replace (n + 8191) with (n - 1 + 1 * 8192) in Hf by lia. rewrite Z.div_add in Hf by lia.
    assert ((n - k + 8191) / 8192 <= (n - 1) / 8192); [|lia].
    destruct (Z.le_gt_cases n 8192).
    + replace (n - k + 8191) with 8191 by lia. pose proof (Z.div_pos (n - 1) 8192).
      change (8191 / 8192) with 0. lia.
    + apply Z.div_le_mono; lia.
Qed.

(** [toString()] is the content of the container. *)
Lemma toString_all c : read_ok c -> toString SIZE_MAX 0 c = Ret (Some (contents c)).
Proof.
  intros Hok. pose proof (csize_bound c (read_contents c Hok)) as Hb. unfold blockSize, KB_MULT in Hb.
  pose proof (zlen_nonneg (contents c)). unfold toString. rewrite csize_ok by by apply read_contents.
  rewrite Z.eqb_refl. replace (0 >? _) with false by lia. cbn [andb]. rewrite Z.sub_0_r.
  rewrite check_overflow_false by zl.
  destruct (zlen (contents c) =? 0) eqn:E.
  { assert (contents c = []) as -> by (apply zlen_zero_nil; lia). done. }
  replace (0 + zlen (contents c) >? _) with false by lia.
  rewrite toString_loop_spec; [cbn; by rewrite slice_all|done|lia..|].
  unfold toString_fuel.
  replace (zlen (contents c) + 8191) with (zlen (contents c) - 1 + 1 * 8192) by lia.
  rewrite Z.div_add by lia. pose proof (Z.div_pos (zlen (contents c)) 8192).
  pose proof (Z.div_le_mono (zlen (contents c) - 1) (zlen (contents c)) 8192). lia.
Qed.

Lemma toStringEx_all c : read_ok c -> toStringEx SIZE_MAX 0 c = Ret (contents c).
Proof. intros. unfold toStringEx. by rewrite toString_all. Qed.
End Read.
