(* ===== verification/BMem.v ===== *)
(** * Read-only memory containers (Memory/b_mem.cpp)

    [B_MEM] references a block of memory it does not own.  The pointer
    [linearMem] is the list of the bytes from it to the end of the block; the
    container is the first [m_containerBytes] of them. *)

From S2P Require Import Prelude SafeInt Mem Streamable Container ContainerTheory.
From Stdlib Require Import ZArith Lia.

Record B_MEM := mkBMem {
  bm_base : base;
  linearMem : bytes }.

Definition bm_set_base (b : base) (m : B_MEM) : B_MEM := mkBMem b (linearMem m).
Definition bm_size (m : B_MEM) : Z := m_containerBytes (bm_base m).
Definition bm_setContainerBytes (n : Z) (m : B_MEM) : B_MEM :=
  mkBMem (base_set_bytes n (bm_base m)) (linearMem m).

Definition bm_findChar (charInt offset searchSpace : Z) (caseSensitive : bool) (m : B_MEM) :
    outcome (option Z) :=
  let ch := of_char charInt in
  let caseSensitive := if caseSensitive && negb (isalpha ch) then false else caseSensitive in
  let currentSize := bm_size m in
  if currentSize =? 0 then Ret None
  else if CHECK_UINT_OVERFLOW_SUM offset searchSpace then
    Throw (runtime_error "Trying to search outside the search space (1)...")
  else if offset + searchSpace >? currentSize then
    Throw (runtime_error "Trying to search outside the search space (2)...")
  else
    let searchSpace := if searchSpace =? 0 then currentSize - offset else searchSpace in
    let from := zdrop offset (linearMem m) in
    cPos ← ((if caseSensitive then memchr from ch searchSpace
             else
               posUpper ← memchr from (toupper ch) searchSpace;
               posLower ← memchr from (tolower ch) searchSpace;
               Ret (match posUpper, posLower with
                    | Some u, Some l => if u <? l then Some u else Some l
                    | Some u, None => Some u
                    | None, l => l
                    end)) : outcome (option Z));
    Ret (option_map (Z.add offset) cPos).

Definition bm_truncate2 (n : Z) (m : B_MEM) : outcome (B_MEM * option Z) :=
  let m := bm_setContainerBytes n m in Ret (m, Some (bm_size m)).

Definition bm_append2 (buf : bytes) (prependMode : bool) (m : B_MEM) :
    outcome (B_MEM * option Z) := Ret (m, None).

Definition bm_displace2 (bytesToDisplace : Z) (m : B_MEM) : outcome (B_MEM * option Z) :=
  if bytesToDisplace >? bm_size m then Ret (m, None)
  else
    let m := mkBMem (bm_base m) (zdrop bytesToDisplace (linearMem m)) in
    Ret (bm_setContainerBytes (wrap (bm_size m - bytesToDisplace)) m, Some bytesToDisplace).

Definition bm_clear2 (m : B_MEM) : B_MEM * bool :=
  (bm_setContainerBytes 0 (mkBMem (bm_base m) []), true).

(** The spans of at most 64 KB the copies hand to the output. *)
Fixpoint bm_spans (fuel : nat) (transmitMem : bytes) (dataToCopy : Z) : outcome (list bytes) :=
  if dataToCopy =? 0 then Ret []
  else
    match fuel with
    | O => NoFuel
    | S fuel' =>
        let rosize := if dataToCopy >? 64 * KB_MULT then 64 * KB_MULT else dataToCopy in
        if rosize <=? zlen transmitMem then
          rest ← bm_spans fuel' (zdrop rosize transmitMem) (dataToCopy - rosize);
          Ret (ztake rosize transmitMem :: rest)
        else Undef
    end.

Definition bm_spans_fuel (n : Z) : nat := Z.to_nat (n / (64 * KB_MULT)) + 2.

Definition bm_copyToStream2 {O} `{OStream O} (out : O) (roBytes offset : Z) (m : B_MEM) :
    outcome (O * option Z) :=
  let currentBytes := bm_size m in
  let n := roBytes in
  if n =? 0 then Ret (out, Some 0)
  else if CHECK_UINT_OVERFLOW_SUM offset n then Ret (out, None)
  else if offset >? currentBytes then Ret (out, None)
  else
    let n := if offset + n >? currentBytes then currentBytes - offset else n in
    spans ← bm_spans (bm_spans_fuel n) (zdrop offset (linearMem m)) n;
    copyToStreamUsingCleanVector out spans 0.

Definition bm_copyToStreamableObject2 {S} `{Sink S} (bc : S) (roBytes offset : Z) (m : B_MEM) :
    outcome (S * option Z) :=
  let n := roBytes in
  if n =? 0 then Ret (bc, Some 0)
  else if CHECK_UINT_OVERFLOW_SUM offset n then bc ← status_add (-1) bc; Ret (bc, None)
  else if offset >? bm_size m then bc ← status_add (-1) bc; Ret (bc, None)
  else
    let n := if offset + n >? bm_size m then bm_size m - offset else n in
    spans ← bm_spans (bm_spans_fuel n) (zdrop offset (linearMem m)) n;
    copyToStreamableObjectUsingCleanVector bc spans 0.

Definition bm_copyToBuffer2 (n offset : Z) (m : B_MEM) : outcome (option bytes) :=
  if CHECK_UINT_OVERFLOW_SUM offset n then Ret None
  else if n =? 0 then Ret (Some [])
  else if offset + n >? bm_size m then Ret None
  else if offset >? bm_size m then Ret None
  else
    let linearMemOffseted := zdrop offset (linearMem m) in
    let containerBytesOffseted := bm_size m - offset in
    if containerBytesOffseted =? 0 then Ret (Some [])
    else
      let copiedBytes := if containerBytesOffseted <? n then containerBytesOffseted else n in
      if copiedBytes <=? zlen linearMemOffseted
      then Ret (Some (ztake copiedBytes linearMemOffseted)) else Undef.

Definition bm_compare2 (buf : bytes) (caseSensitive : bool) (offset : Z) (m : B_MEM) :
    outcome bool :=
  let len := zlen buf in
  if CHECK_UINT_OVERFLOW_SUM offset len then Ret false
  else if len =? 0 then Ret true
  else if offset + len >? bm_size m then Ret false
  else
    r ← memicmp2 (zdrop offset (linearMem m)) buf len caseSensitive;
    Ret (r =? 0).

#[export] Instance bm_container : Container B_MEM := {|
  get_base := bm_base;
  set_base := bm_set_base;
  csize := bm_size;
  truncate2 := bm_truncate2;
  append2 := bm_append2;
  displace2 := bm_displace2;
  clear2 := bm_clear2;
  copyToStream2 O H := @bm_copyToStream2 O H;
  copyToStreamableObject2 S H := @bm_copyToStreamableObject2 S H;
  copyToBuffer2 := bm_copyToBuffer2;
  compare2 := bm_compare2;
  findChar := bm_findChar |}.

(** [reference(buf, len)]; [len] is a [uint32_t]. *)
Definition bm_reference (buf : bytes) (len : Z) (m : B_MEM) : B_MEM :=
  let '(m, _) := clear m in
  let m := mkBMem (base_set_readOnly true (bm_base m)) buf in
  bm_setContainerBytes len m.

(** [B_MEM(buf, len)]. *)
Definition bm_new (buf : bytes) (len : Z) : B_MEM :=
  let m := mkBMem (base_set_readOnly true base_init) [] in
  let '(m, _) := bm_clear2 (bm_setContainerBytes 0 m) in
  if negb (len =? 0) then bm_reference buf len m else m.

(** ** What [B_MEM] promises *)

Definition bm_contents (m : B_MEM) : bytes := ztake (bm_size m) (linearMem m).

(** The referenced block holds the bytes the container counts. *)
Definition bm_ok (m : B_MEM) : Prop :=
  0 <= bm_size m <= zlen (linearMem m) /\ bm_size m + blockSize < SIZE_MOD.

(** The character test of [findChar]. *)
Definition bm_match (charInt : Z) (caseSensitive : bool) (b : byte) : bool :=
  let ch := of_char charInt in
  if caseSensitive && isalpha ch then b =? ch
  else (b =? toupper ch) || (b =? tolower ch).

Lemma bm_contents_len m : bm_ok m -> zlen (bm_contents m) = bm_size m.
Proof. intros [H _]. unfold bm_contents. rewrite zlen_ztake. lia. Qed.

Lemma ztake_zdrop_contents m off n :
  bm_ok m -> 0 <= off -> 0 <= n -> off + n <= bm_size m ->
  ztake n (zdrop off (linearMem m)) = slice off n (bm_contents m).
Proof.
  intros Hok Hoff Hn Hle. unfold slice, bm_contents, ztake, zdrop.
  rewrite skipn_firstn_comm, take_take. f_equal. lia.
Qed.

Lemma bm_spans_spec fuel mem n :
  0 <= n <= zlen mem -> (n + 65535) / 65536 < Z.of_nat fuel ->
  exists spans, bm_spans fuel mem n = Ret spans /\ concat spans = ztake n mem.
Proof.
  revert mem n. induction fuel as [|fuel IH]; intros mem n Hn Hf.
  { pose proof (Z.div_pos (n + 65535) 65536). lia. }
  cbn [bm_spans]. destruct (Z.eqb_spec n 0) as [->|Hnz].
  { exists []. by rewrite ztake_le0 by lia. }
  change (64 * KB_MULT) with 65536.
  set (k := if n >? 65536 then 65536 else n).
  assert (k = Z.min n 65536) as Hk by (unfold k; destruct (Z.gtb_spec n 65536); lia).
  replace (k <=? zlen mem) with true by lia.
  destruct (IH (zdrop k mem) (n - k)) as (spans & -> & Hs).
  - rewrite zlen_zdrop. lia.
  - replace (n + 65535) with (n - 1 + 1 * 65536) in Hf by lia. rewrite Z.div_add in Hf by lia.
    assert ((n - k + 65535) / 65536 <= (n - 1) / 65536); [|lia].
    destruct (Z.le_gt_cases n 65536).
    + replace (n - k + 65535) with 65535 by lia. pose proof (Z.div_pos (n - 1) 65536).
      change (65535 / 65536) with 0. lia.
    + apply Z.div_le_mono; lia.
  - eexists; split; [done|]. cbn [concat]. rewrite Hs, <- ztake_add by lia. f_equal. lia.
Qed.

Lemma bm_spans_enough mem n :
  0 <= n <= zlen mem ->
  exists spans, bm_spans (bm_spans_fuel n) mem n = Ret spans /\ concat spans = ztake n mem.
Proof.
  intros Hn. apply bm_spans_spec; [done|]. unfold bm_spans_fuel.
  change (64 * KB_MULT) with 65536.
  replace (n + 65535) with (n - 1 + 1 * 65536) by lia. rewrite Z.div_add by lia.
  pose proof (Z.div_pos n 65536). pose proof (Z.div_le_mono (n - 1) n 65536). lia.
Qed.

Lemma bm_findChar_spec m ch off sp cs :
  bm_ok m -> 0 <= off -> 0 <= sp -> off + sp = bm_size m -> 0 < bm_size m ->
  bm_findChar ch off sp cs m =
    Ret (option_map (Z.add off) (first_index (bm_match ch cs) (zdrop off (bm_contents m)))).
Proof.
  intros Hok Hoff Hsp Hsum Hpos. pose proof Hok as [Hsz Hb]. unfold blockSize, KB_MULT in Hb.
  unfold bm_findChar. replace (bm_size m =? 0) with false by lia.
  rewrite check_overflow_false by zl. replace (off + sp >? bm_size m) with false by lia.
  assert ((if sp =? 0 then bm_size m - off else sp) = sp) as ->
    by (destruct (Z.eqb_spec sp 0); lia).
  assert (zdrop off (bm_contents m) = ztake sp (zdrop off (linearMem m))) as ->.
  { rewrite (ztake_zdrop_contents m off sp) by (try done; lia). unfold slice.
    rewrite ztake_ge; [done|]. rewrite zlen_zdrop, bm_contents_len by done. lia. }
  assert (sp <= zlen (zdrop off (linearMem m))) by (rewrite zlen_zdrop; lia).
  assert (forall u, 0 <= u < 256 -> of_char u = u) as Hu by (intros; unfold of_char; apply Z.mod_small; lia).
  assert (0 <= of_char ch < 256) as Hch by (apply Z.mod_pos_bound; lia).
  assert (0 <= toupper (of_char ch) < 256 /\ 0 <= tolower (of_char ch) < 256) as [Hup Hlow].
  { unfold toupper, tolower, islower, isupper. split; case_bool; lia. }
  set (c0 := of_char ch) in *.
  unfold bm_match. fold c0.
  destruct cs; cbn [andb]; [destruct (isalpha c0) eqn:Ea; cbn [negb]|].
  1: { by rewrite memchr_spec, Hu by done. }
  all: rewrite !memchr_spec, !Hu by done; cbn [mbind outcome_bind]; rewrite first_index_or;
    destruct (first_index (fun b => b =? toupper c0) _) as [u|],
             (first_index (fun b => b =? tolower c0) _) as [l|]; try done;
    do 2 f_equal; cbn; destruct (Z.ltb_spec u l); f_equal; lia.
Qed.

#[export] Program Instance bm_contents_spec : ContentsSpec B_MEM := {|
  contents := bm_contents; contents_ok := bm_ok |}.
Next Obligation. intros c Hok. symmetry. by apply bm_contents_len. Qed.
Next Obligation. intros c Hok. rewrite bm_contents_len by done. apply Hok. Qed.

#[export] Program Instance bm_scan : ScanSpec B_MEM := {| fc_match := bm_match |}.
Next Obligation.
  intros c buf cs off Hok Hoff Hbuf Hsz Hoff'. change (contents c) with (bm_contents c). pose proof Hok as [Hlen Hb].
  cbn [compare2 bm_container]. unfold bm_compare2.
  pose proof (bm_contents_len c Hok) as Hcl.
  destruct (Z.le_gt_cases (off + zlen buf) (bm_size c)) as [Hle|Hgt].
  - unfold blockSize, KB_MULT in Hb.
    rewrite check_overflow_false by zl. replace (zlen buf =? 0) with false by lia.
    replace (off + zlen buf >? bm_size c) with false by lia.
    destruct (memicmp2_spec (zdrop off (linearMem c)) buf (zlen buf) cs) as (r & -> & Hr);
      try (rewrite ?zlen_zdrop; unfold blockSize, KB_MULT; lia).
    cbn. rewrite Hr, (ztake_ge (zlen buf) buf) by lia.
    by rewrite (ztake_zdrop_contents c off) by (try done; lia).
  - change (ztake (zlen buf) (zdrop off (bm_contents c)))
      with (slice off (zlen buf) (bm_contents c)).
    change (same_bytes cs (slice off (zlen buf) (bm_contents c)) buf)
      with (matches_at cs buf (zdrop off (bm_contents c))).
    rewrite matches_at_short by (rewrite zlen_zdrop, Hcl; lia).
    destruct (CHECK_UINT_OVERFLOW_SUM off (zlen buf)); [done|].
    replace (zlen buf =? 0) with false by lia.
    by replace (off + zlen buf >? bm_size c) with true by lia.
Qed.
Next Obligation.
  intros c ch off sp cs Hok Hoff Hsp Hsum Hpos. change (contents c) with (bm_contents c) in *. rewrite bm_contents_len in * by done.
  by apply bm_findChar_spec with (sp := sp).
Qed.
Next Obligation.
  intros S HS HSS c s acc n off Hok Hrep Hoff Hn Hle Hroom. change (contents c) with (bm_contents c) in *. pose proof Hok as [Hlen Hb].
  rewrite bm_contents_len in Hle by done. unfold blockSize, KB_MULT in Hb.
  cbn [copyToStreamableObject2 bm_container]. unfold bm_copyToStreamableObject2.
  replace (n =? 0) with false by lia. rewrite check_overflow_false by zl.
  replace (off >? bm_size c) with false by lia.
  replace (off + n >? bm_size c) with false by lia.
  destruct (bm_spans_enough (zdrop off (linearMem c)) n) as (spans & -> & Hs).
  { rewrite zlen_zdrop. lia. }
  cbn [mbind outcome_bind].
  rewrite (ztake_zdrop_contents c off) in Hs by (try done; lia).
  assert (zlen (concat spans) = n) as Hl.
  { rewrite Hs. apply zlen_slice; [lia..|]. rewrite bm_contents_len by done. lia. }
  destruct (copyToStreamableObject_spans s acc spans 0) as (s' & Hw & Hd & Hr); try done; try zl.
  exists s'. rewrite Hw, Hl, Z.add_0_l. rewrite Hs in Hd. auto with lia.
Qed.

#[export] Program Instance bm_read : ReadSpec B_MEM := {| read_ok := bm_ok |}.
Next Obligation. done. Qed.
Next Obligation.
  intros c n off Hok Hoff Hn Hle. pose proof Hok as [Hlen Hb].
  change (contents c) with (bm_contents c) in *. rewrite bm_contents_len in Hle by done.
  unfold blockSize, KB_MULT in Hb. cbn [copyToBuffer2 bm_container]. unfold bm_copyToBuffer2.
  rewrite check_overflow_false by zl. replace (n =? 0) with false by lia.
  replace (off + n >? bm_size c) with false by lia.
  replace (off >? bm_size c) with false by lia.
  replace (bm_size c - off =? 0) with false by lia.
  replace (bm_size c - off <? n) with false by lia.
  replace (n <=? zlen (zdrop off (linearMem c))) with true by (rewrite zlen_zdrop; lia).
  by rewrite (ztake_zdrop_contents c off) by (try done; lia).
Qed.

(** A referenced block is a container that holds exactly that block. *)
Lemma bm_new_ok buf :
  zlen buf <= UINT32_MAX ->
  bm_ok (bm_new buf (zlen buf)) /\ bm_contents (bm_new buf (zlen buf)) = buf.
Proof.
  intros Hl. pose proof (zlen_nonneg buf). unfold bm_new.
  destruct (Z.eqb_spec (zlen buf) 0) as [E|E]; cbn [negb].
  { apply zlen_zero_nil in E as ->. split; [|done]. split; done. }
  split; [|by apply ztake_ge].
  split; cbn; [lia|]. unfold blockSize, KB_MULT, SIZE_MOD, UINT32_MAX in *. lia.
Qed.
