(* ===== verification/BChunks.v ===== *)
(** * Chunked containers (Memory/b_chunk.h, Memory/b_chunks.cpp)

    [B_Chunks] keeps its bytes in a vector of chunks, each with its absolute
    offset, and moves to a memory-mapped file ([m_mmapContainer], any container
    type [M]) when it grows past a limit.  The section [B_Chunks] gives every
    operation of the class; the second part states the well-formedness of the
    chunk vector, proves the binary search over the offsets correct and
    terminating, and discharges the promises of ContainerTheory.v. *)

From S2P Require Import Prelude SafeInt Mem Streamable Container ContainerTheory BMem.
From Stdlib Require Import ZArith Lia.

(** ** [BinaryContainerChunk]

    A chunk without data (a null pointer) and a chunk of size 0 behave alike in
    every method; both are the empty list here, and [size] is the length. *)
Record BinaryContainerChunk := mkChunk {
  chunk_data : bytes;
  chunk_offset : Z }.

Definition chunk_size (c : BinaryContainerChunk) : Z := zlen (chunk_data c).
Definition chunk_new : BinaryContainerChunk := mkChunk [] 0.
Definition chunk_destroy (c : BinaryContainerChunk) : BinaryContainerChunk :=
  mkChunk [] (chunk_offset c).

Definition chunk_displace (displLen : Z) (c : BinaryContainerChunk) : BinaryContainerChunk :=
  if displLen =? 0 then c
  else if displLen >=? chunk_size c then chunk_destroy c
  else mkChunk (zdrop displLen (chunk_data c)) (chunk_offset c).

Definition nextOffset (c : BinaryContainerChunk) : Z := wrap (chunk_size c + chunk_offset c).

Definition chunk_truncate (nSize : Z) (c : BinaryContainerChunk) : outcome BinaryContainerChunk :=
  if nSize >=? nextOffset c then Ret c
  else if (nSize =? 0) || (nSize =? chunk_offset c) then Ret c
  else
    let nSize := wrap (nSize - chunk_offset c) in
    if nSize <=? chunk_size c then Ret (mkChunk (ztake nSize (chunk_data c)) (chunk_offset c))
    else Throw bad_alloc.

Definition chunk_copy (buf : bytes) (c : BinaryContainerChunk) : BinaryContainerChunk :=
  mkChunk buf (chunk_offset (chunk_destroy c)).

Definition containsOffset (l_offset : Z) (c : BinaryContainerChunk) : bool :=
  (l_offset >=? chunk_offset c) && (l_offset <? nextOffset c).

(** [moveToOffset]; past the end of the chunk it leaves an invalid pointer. *)
Definition moveToOffset (l_offset : Z) (c : BinaryContainerChunk) : outcome BinaryContainerChunk :=
  let l_offset := wrap (l_offset - chunk_offset c) in
  if l_offset <=? chunk_size c then Ret (mkChunk (zdrop l_offset (chunk_data c)) 0) else Undef.

(** ** [B_Chunks] *)
Record B_Chunks (M : Type) := mkChunks {
  bc_base : base;
  m_chunksVector : list BinaryContainerChunk;
  m_maxChunks : Z;
  m_maxChunkSize : Z;
  m_maxSizeInMemoryBeforeMovingToDisk : Z;
  m_mmapContainer : option M }.
Arguments mkChunks {_} _ _ _ _ _ _.
Arguments bc_base {_} _.
Arguments m_chunksVector {_} _.
Arguments m_maxChunks {_} _.
Arguments m_maxChunkSize {_} _.
Arguments m_maxSizeInMemoryBeforeMovingToDisk {_} _.
Arguments m_mmapContainer {_} _.

Section B_Chunks.
Context {M : Type} `{Container M} `{!MMapFile M}.
Implicit Types c : B_Chunks M.

Definition bc_set_base (b : base) c : B_Chunks M :=
  mkChunks b (m_chunksVector c) (m_maxChunks c) (m_maxChunkSize c)
    (m_maxSizeInMemoryBeforeMovingToDisk c) (m_mmapContainer c).
Definition bc_set_vector (v : list BinaryContainerChunk) c : B_Chunks M :=
  mkChunks (bc_base c) v (m_maxChunks c) (m_maxChunkSize c)
    (m_maxSizeInMemoryBeforeMovingToDisk c) (m_mmapContainer c).
Definition bc_set_mmap (m : option M) c : B_Chunks M :=
  mkChunks (bc_base c) (m_chunksVector c) (m_maxChunks c) (m_maxChunkSize c)
    (m_maxSizeInMemoryBeforeMovingToDisk c) m.

Definition setMaxSizeInMemoryBeforeMovingToDisk (value : Z) c : B_Chunks M :=
  mkChunks (bc_base c) (m_chunksVector c) (m_maxChunks c) (m_maxChunkSize c) value
    (m_mmapContainer c).
Definition isUsingFiles c : bool := has_value (m_mmapContainer c).
Definition setMaxChunks (value : Z) c : B_Chunks M :=
  mkChunks (bc_base c) (m_chunksVector c) (if value <? UINT32_MAX then value else UINT32_MAX)
    (m_maxChunkSize c) (m_maxSizeInMemoryBeforeMovingToDisk c) (m_mmapContainer c).
Definition setMaxChunkSize (value : Z) c : B_Chunks M :=
  mkChunks (bc_base c) (m_chunksVector c) (m_maxChunks c) value
    (m_maxSizeInMemoryBeforeMovingToDisk c) (m_mmapContainer c).

Definition bc_size c : Z :=
  match m_mmapContainer c with
  | Some m => csize m
  | None => m_containerBytes (bc_base c)
  end.

Definition bc_setContainerBytes (n : Z) c : B_Chunks M :=
  bc_set_base (base_set_bytes n (bc_base c)) c.

(** The loop never advances its chunk pointer: the offset of the first chunk
    is rewritten once per chunk of the vector. *)
Fixpoint recalc_loop (n : nat) (currentOffset : Z) (i : BinaryContainerChunk) :
    BinaryContainerChunk :=
  match n with
  | O => i
  | S n =>
      let i := mkChunk (chunk_data i) currentOffset in
      recalc_loop n (nextOffset i) i
  end.

Definition recalcOffsets (v : list BinaryContainerChunk) : list BinaryContainerChunk :=
  match v with
  | [] => []
  | i :: rest => recalc_loop (length v) 0 i :: rest
  end.

Definition recalcChunkOffsets c : B_Chunks M := bc_set_vector (recalcOffsets (m_chunksVector c)) c.

Definition clearMmapedContainer c : B_Chunks M := bc_set_mmap None c.
Definition clearChunks c : B_Chunks M := bc_set_vector [] c.
Definition bc_clear2 c : B_Chunks M * bool := (clearChunks (clearMmapedContainer c), true).

(** ** The search over the chunk offsets

    [chunk_at v i] is [m_chunksVector\[i\]], undefined past the end. *)
Definition chunk_at (v : list BinaryContainerChunk) (i : Z) : outcome BinaryContainerChunk :=
  match v !! Z.to_nat i with Some ch => Ret ch | None => Undef end.

Definition next_curpos (curmin curmax : Z) : Z :=
  if curmin =? curmax then curmin
  else wrap (wrap (curmin + wrap (curmax + 1 - curmin) / 2) - wrap (curmax - curmin) mod 2).

Fixpoint I_Chunk_search (fuel : nat) (offset : Z) (v : list BinaryContainerChunk)
    (curpos curmax curmin : Z) : outcome Z :=
  match fuel with
  | O => NoFuel
  | S fuel =>
      ch ← chunk_at v curpos;
      if containsOffset offset ch then Ret curpos
      else if offset <? chunk_offset ch then
        if curpos =? curmin then Ret SIZE_MAX
        else
          let curmax := wrap (curpos - 1) in
          I_Chunk_search fuel offset v (next_curpos curmin curmax) curmax curmin
      else
        if curpos =? curmax then Ret SIZE_MAX
        else
          let curmin := wrap (curpos + 1) in
          I_Chunk_search fuel offset v (next_curpos curmin curmax) curmax curmin
  end.

(** The call with default arguments. *)
Definition I_Chunk_GetPosForOffset (offset : Z) (v : list BinaryContainerChunk) : outcome Z :=
  match v with
  | [] => Ret SIZE_MAX
  | _ =>
      let n := zlen v in
      I_Chunk_search (length v) offset v
        (if n =? 1 then 0 else wrap (n / 2 - 1)) (if n =? 1 then 0 else n - 1) 0
  end.

Definition bc_truncate2 (n : Z) c : outcome (B_Chunks M * option Z) :=
  match m_mmapContainer c with
  | Some m => '(m, r) ← truncate n m; Ret (bc_set_mmap (Some m) c, r)
  | None =>
      ival ← I_Chunk_GetPosForOffset n (m_chunksVector c);
      if ival =? SIZE_MAX then Ret (c, None)
      else
        ch ← chunk_at (m_chunksVector c) ival;
        '(v, ival) ← (if chunk_offset ch =? n then Ret (m_chunksVector c, wrap (ival - 1))
                     else
                       ch ← chunk_truncate n ch;
                       Ret (<[Z.to_nat ival := ch]> (m_chunksVector c), ival)
                     : outcome (list BinaryContainerChunk * Z));
        let c := bc_set_vector (ztake (wrap (ival + 1)) v) c in
        let c := bc_setContainerBytes n c in
        Ret (c, Some (bc_size c))
  end.

Fixpoint bc_displace_loop (v : list BinaryContainerChunk) (bytesToDisplace displaced : Z) c :
    B_Chunks M * Z :=
  if bytesToDisplace =? 0 then (recalcChunkOffsets (bc_set_vector v c), displaced)
  else
    match v with
    | [] => (bc_set_vector v c, displaced)
    | ch :: rest =>
        if bytesToDisplace >=? chunk_size ch then
          bc_displace_loop rest (bytesToDisplace - chunk_size ch)
            (wrap (displaced + chunk_size ch))
            (bc_setContainerBytes (wrap (bc_size c - chunk_size ch)) c)
        else
          let c := bc_setContainerBytes (wrap (bc_size c - bytesToDisplace)) c in
          (recalcChunkOffsets (bc_set_vector (chunk_displace bytesToDisplace ch :: rest) c),
           wrap (displaced + bytesToDisplace))
    end.

Definition bc_displace2 (bytesToDisplace : Z) c : outcome (B_Chunks M * option Z) :=
  match m_mmapContainer c with
  | Some m => '(m, r) ← displace bytesToDisplace m; Ret (bc_set_mmap (Some m) c, r)
  | None =>
      let '(c, displaced) := bc_displace_loop (m_chunksVector c) bytesToDisplace 0 c in
      Ret (c, Some displaced)
  end.

(** The spans [copyToStream2] and [copyToStreamableObject2] collect. *)
Fixpoint bc_spans (v : list BinaryContainerChunk) (offset dataToCopy : Z) : list bytes :=
  match v with
  | [] => []
  | i :: rest =>
      if (offset >? 0) && (offset >? chunk_size i) then
        bc_spans rest (offset - chunk_size i) dataToCopy
      else
        let rodata := zdrop offset (chunk_data i) in
        let rosize := Z.min dataToCopy (chunk_size i - offset) in
        let dataToCopy := dataToCopy - rosize in
        ztake rosize rodata :: (if dataToCopy =? 0 then [] else bc_spans rest 0 dataToCopy)
  end.

Definition bc_copyToStream2 {O} `{OStream O} (out : O) (n offset : Z) c : outcome (O * option Z) :=
  match m_mmapContainer c with
  | Some m => copyToStream out n offset m
  | None =>
      if n =? 0 then Ret (out, Some 0)
      else if CHECK_UINT_OVERFLOW_SUM offset n then Ret (out, None)
      else if offset >? bc_size c then Ret (out, None)
      else
        let n := if offset + n >? bc_size c then bc_size c - offset else n in
        copyToStreamUsingCleanVector out (bc_spans (m_chunksVector c) offset n) 0
  end.

Definition bc_copyToStreamableObject2 {S} `{Sink S} (bc : S) (n offset : Z) c :
    outcome (S * option Z) :=
  match m_mmapContainer c with
  | Some m => appendTo bc n offset m
  | None =>
      if n =? 0 then Ret (bc, Some 0)
      else if CHECK_UINT_OVERFLOW_SUM offset n then Ret (bc, None)
      else if offset >? bc_size c then Ret (bc, None)
      else
        let n := if offset + n >? bc_size c then bc_size c - offset else n in
        copyToStreamableObjectUsingCleanVector bc (bc_spans (m_chunksVector c) offset n) 0
  end.

(** The copy loop of [copyToBuffer2]: [rest] are the chunks after the current
    one. *)
Fixpoint bc_copy_loop (currentChunk : bytes) (rest : list BinaryContainerChunk) (n : Z) : bytes :=
  if n >? zlen currentChunk then
    currentChunk ++
      match rest with
      | [] => []
      | next :: rest => bc_copy_loop (chunk_data next) rest (n - zlen currentChunk)
      end
  else ztake n currentChunk.

Definition bc_copyToBuffer2 (n offset : Z) c : outcome (option bytes) :=
  match m_mmapContainer c with
  | Some m => copyOut n offset m
  | None =>
      if CHECK_UINT_OVERFLOW_SUM offset n then Ret None
      else if n =? 0 then Ret (Some [])
      else if offset + n >? bc_size c then Ret None
      else
        icurrentChunk ← I_Chunk_GetPosForOffset offset (m_chunksVector c);
        if icurrentChunk =? SIZE_MAX then Ret None
        else
          currentChunk ← chunk_at (m_chunksVector c) icurrentChunk;
          currentChunk ← moveToOffset offset currentChunk;
          Ret (Some (bc_copy_loop (chunk_data currentChunk)
                       (zdrop (icurrentChunk + 1) (m_chunksVector c)) n))
  end.

Fixpoint bc_compare_loop (v : list BinaryContainerChunk) (buf : bytes) (caseSensitive : bool)
    (dataToCompare offset : Z) : outcome bool :=
  match v with
  | [] => Ret (dataToCompare =? 0)
  | i :: rest =>
      if (offset >? 0) && (offset >? chunk_size i) then
        bc_compare_loop rest buf caseSensitive dataToCompare (offset - chunk_size i)
      else
        let data := zdrop offset (chunk_data i) in
        let currentChunkSize := Z.min dataToCompare (chunk_size i - offset) in
        r ← memicmp2 data buf currentChunkSize caseSensitive;
        if negb (r =? 0) then Ret false
        else
          let dataToCompare := dataToCompare - currentChunkSize in
          if dataToCompare =? 0 then Ret true
          else bc_compare_loop rest (zdrop currentChunkSize buf) caseSensitive dataToCompare 0
  end.

Definition bc_compare2 (buf : bytes) (caseSensitive : bool) (offset : Z) c : outcome bool :=
  match m_mmapContainer c with
  | Some m => compare buf caseSensitive offset m
  | None =>
      let len := zlen buf in
      if CHECK_UINT_OVERFLOW_SUM offset len then Ret false
      else if len =? 0 then Ret true
      else if offset + len >? bc_size c then Ret false
      else bc_compare_loop (m_chunksVector c) buf caseSensitive len offset
  end.

Fixpoint bc_find_loop (v : list BinaryContainerChunk) (ch : Z) (caseSensitive : bool)
    (offset searchSpace retpos : Z) : outcome (option Z) :=
  match v with
  | [] => Ret None
  | i :: rest =>
      if (offset >? 0) && (offset >? chunk_size i) then
        bc_find_loop rest ch caseSensitive (offset - chunk_size i) searchSpace
          (wrap (retpos + chunk_size i))
      else
        let data := zdrop offset (chunk_data i) in
        let currentSize := chunk_size i - offset in
        pos ← ((if negb caseSensitive then memchr data ch (Z.min searchSpace currentSize)
                else
                  let currentSearchSpace := Z.min searchSpace currentSize in
                  pos_upper ← memchr data (toupper ch) currentSearchSpace;
                  pos_lower ← memchr data (tolower ch) currentSearchSpace;
                  Ret (match pos_upper, pos_lower with
                       | Some u, Some l => Some (Z.min u l)
                       | Some u, None => Some u
                       | None, l => l
                       end)) : outcome (option Z));
        match pos with
        | Some p => Ret (Some (wrap (offset + p + retpos)))
        | None =>
            if searchSpace >? currentSize then
              bc_find_loop rest ch caseSensitive 0 (searchSpace - currentSize)
                (wrap (retpos + chunk_size i))
            else Ret None
        end
  end.

Definition bc_findChar (ch offset searchSpace : Z) (caseSensitive : bool) c :
    outcome (option Z) :=
  let caseSensitive := if caseSensitive && negb (isalpha (of_char ch)) then false else caseSensitive in
  match m_mmapContainer c with
  | Some m => findChar ch offset 0 false m
  | None =>
      let currentSize := bc_size c in
      if CHECK_UINT_OVERFLOW_SUM offset searchSpace then Ret None
      else if (offset >? currentSize) || (offset + searchSpace >? currentSize) then Ret None
      else bc_find_loop (m_chunksVector c) ch caseSensitive offset searchSpace 0
  end.

(** The part of the interface that only reads, as [copyToFS] uses it from
    inside [append2]: the one operation missing from it is [append2] itself,
    which [copyToFS] does not call on its source. *)
Definition bc_reading : Container (B_Chunks M) := {|
  get_base := bc_base;
  set_base := bc_set_base;
  csize := bc_size;
  truncate2 := bc_truncate2;
  append2 _ _ c := Ret (c, None);
  displace2 := bc_displace2;
  clear2 := bc_clear2;
  copyToStream2 O H := @bc_copyToStream2 O H;
  copyToStreamableObject2 S H := @bc_copyToStreamableObject2 S H;
  copyToBuffer2 := bc_copyToBuffer2;
  compare2 := bc_compare2;
  findChar := bc_findChar |}.

Fixpoint bc_append_loop (fuel : nat) (buf : bytes) (prependMode : bool) (appendedBytes : Z) c :
    outcome (B_Chunks M * option Z) :=
  match buf with
  | [] => Ret (if prependMode then recalcChunkOffsets c else c, Some appendedBytes)
  | _ =>
      match fuel with
      | O => NoFuel
      | S fuel =>
          let chunkSize := Z.min (zlen buf) (m_maxChunkSize c) in
          if zlen (m_chunksVector c) + 1 >? m_maxChunks c then Ret (c, Some appendedBytes)
          else
            let bcc := chunk_copy (ztake chunkSize buf) chunk_new in
            let v := m_chunksVector c in
            let v := if negb prependMode then
                       match last v with
                       | None => [mkChunk (chunk_data bcc) 0]
                       | Some l => v ++ [mkChunk (chunk_data bcc) (nextOffset l)]
                       end
                     else bcc :: v in
            let c := bc_set_vector v c in
            let c := bc_setContainerBytes (wrap (bc_size c + chunk_size bcc)) c in
            bc_append_loop fuel (zdrop chunkSize buf) prependMode
              (wrap (appendedBytes + chunk_size bcc)) c
      end
  end.

(** Each round consumes at least one byte; with [m_maxChunkSize = 0] it adds an
    empty chunk until the limit is reached. *)
Definition bc_append_fuel (buf : bytes) c : nat :=
  if m_maxChunkSize c =? 0 then Z.to_nat (m_maxChunks c) + 1 else length buf + 1.

Definition bc_append2 (buf : bytes) (prependMode : bool) c : outcome (B_Chunks M * option Z) :=
  let to_file (m : M) : outcome (B_Chunks M * option Z) :=
    '(m, r) ← (if prependMode then prepend buf m else Container.append buf m);
    Ret (bc_set_mmap (Some m) c, r) in
  match m_mmapContainer c with
  | Some m => to_file m
  | None =>
      if CHECK_UINT_OVERFLOW_SUM (zlen buf) (bc_size c) then Ret (c, None)
      else if negb (m_maxSizeInMemoryBeforeMovingToDisk c =? 0) &&
              (zlen buf + bc_size c >? m_maxSizeInMemoryBeforeMovingToDisk c) then
        fs ← copyToFS (H := bc_reading) (M := M) [] true c;
        match fs with
        | None => Ret (c, None)
        | Some m =>
            '(c', r) ← to_file m;
            Ret (clearChunks c', r)
        end
      else bc_append_loop (bc_append_fuel buf c) buf prependMode 0 c
  end.

#[export] Instance bc_container : Container (B_Chunks M) := {|
  get_base := bc_base;
  set_base := bc_set_base;
  csize := bc_size;
  truncate2 := bc_truncate2;
  append2 := bc_append2;
  displace2 := bc_displace2;
  clear2 := bc_clear2;
  copyToStream2 O H := @bc_copyToStream2 O H;
  copyToStreamableObject2 S H := @bc_copyToStreamableObject2 S H;
  copyToBuffer2 := bc_copyToBuffer2;
  compare2 := bc_compare2;
  findChar := bc_findChar |}.

(** [B_Chunks()] and [B_Chunks(str)]. *)
Definition bc_new : B_Chunks M := mkChunks base_init [] (256 * KB_MULT) (64 * KB_MULT) 0 None.
Definition bc_of_string (str : bytes) : outcome (B_Chunks M) :=
  '(c, _) ← Container.append str bc_new; Ret c.
End B_Chunks.

(** Projections of updated containers. *)
Ltac bc_simpl :=
  cbn [bc_set_vector bc_setContainerBytes bc_set_base bc_set_mmap recalcChunkOffsets m_chunksVector
       m_mmapContainer bc_base base_set_bytes m_containerBytes m_maxChunks m_maxChunkSize].

(** ** Well-formed chunk vectors *)

Definition chunks_bytes (v : list BinaryContainerChunk) : bytes := concat (map chunk_data v).

(** Each chunk starts where the previous one ends. *)
Fixpoint contiguous (start : Z) (v : list BinaryContainerChunk) : Prop :=
  match v with
  | [] => True
  | ch :: rest => chunk_offset ch = start /\ contiguous (start + chunk_size ch) rest
  end.

Lemma chunks_bytes_cons ch v : chunks_bytes (ch :: v) = chunk_data ch ++ chunks_bytes v.
Proof. done. Qed.

Lemma chunks_bytes_app v w : chunks_bytes (v ++ w) = chunks_bytes v ++ chunks_bytes w.
Proof. unfold chunks_bytes. by rewrite map_app, concat_app. Qed.

Lemma contiguous_app start v w :
  contiguous start (v ++ w) <->
  contiguous start v /\ contiguous (start + zlen (chunks_bytes v)) w.
Proof.
  revert start. induction v as [|ch v IH]; intros start; cbn [app contiguous].
  { rewrite Z.add_0_r. tauto. }
  rewrite IH, chunks_bytes_cons, zlen_app. unfold chunk_size.
  rewrite Z.add_assoc. tauto.
Qed.

(** A chunk of a contiguous vector, with what is before and after it. *)
Lemma contiguous_split v k ch :
  contiguous 0 v -> v !! k = Some ch ->
  v = take k v ++ ch :: drop (S k) v /\
  chunk_offset ch = zlen (chunks_bytes (take k v)).
Proof.
  intros Hc Hk. assert (v = take k v ++ ch :: drop (S k) v) as Hv by (symmetry; by apply take_drop_middle).
  split; [done|]. rewrite Hv in Hc. apply contiguous_app in Hc as [_ [Ho _]]. done.
Qed.

Lemma contiguous_le v j k a b :
  contiguous 0 v -> (j < k)%nat -> v !! j = Some a -> v !! k = Some b ->
  chunk_offset a + chunk_size a <= chunk_offset b.
Proof.
  intros Hc Hjk Ha Hb.
  destruct (contiguous_split v k b Hc Hb) as [Hv Ho].
  assert (take k v !! j = Some a) as Ha' by (by rewrite lookup_take_lt by lia).
  assert (contiguous 0 (take k v)) as Hck by (rewrite Hv in Hc; apply contiguous_app in Hc; tauto).
  destruct (contiguous_split _ _ _ Hck Ha') as [Hv' Ho'].
  rewrite Ho. rewrite Hv', chunks_bytes_app, chunks_bytes_cons, !zlen_app, <- Ho'.
  pose proof (zlen_nonneg (chunks_bytes (drop (S j) (take k v)))). unfold chunk_size. lia.
Qed.

Lemma contiguous_bound v k ch :
  contiguous 0 v -> v !! k = Some ch ->
  0 <= chunk_offset ch /\ chunk_offset ch + chunk_size ch <= zlen (chunks_bytes v).
Proof.
  intros Hc Hk. destruct (contiguous_split v k ch Hc Hk) as [Hv ->]. rewrite Hv at 3.
  rewrite chunks_bytes_app, chunks_bytes_cons, !zlen_app.
  pose proof (zlen_nonneg (chunks_bytes (take k v))).
  pose proof (zlen_nonneg (chunks_bytes (drop (S k) v))). unfold chunk_size. lia.
Qed.

(** In a vector of at most [SIZE_MAX] bytes the test of a chunk is exact. *)
Lemma containsOffset_spec v k ch off :
  contiguous 0 v -> zlen (chunks_bytes v) < SIZE_MOD -> v !! k = Some ch ->
  containsOffset off ch = (chunk_offset ch <=? off) && (off <? chunk_offset ch + chunk_size ch).
Proof.
  intros Hc Hb Hk. destruct (contiguous_bound v k ch Hc Hk). unfold containsOffset, nextOffset.
  pose proof (zlen_nonneg (chunk_data ch)). unfold chunk_size in *.
  rewrite wrap_small by lia. rewrite Z.geb_leb. do 2 f_equal. lia.
Qed.

Lemma next_curpos_bounds lo hi :
  0 <= lo <= hi -> hi < SIZE_MAX -> lo <= next_curpos lo hi <= hi.
Proof.
  intros Hl Hh. unfold next_curpos. destruct (Z.eqb_spec lo hi); [lia|].
  unfold SIZE_MAX, SIZE_MOD in *.
  rewrite (wrap_small (hi + 1 - lo)), (wrap_small (hi - lo)) by (unfold SIZE_MOD; lia).
  pose proof (Z.div_mod (hi - lo) 2). pose proof (Z.mod_pos_bound (hi - lo) 2).
  pose proof (Z.div_mod (hi + 1 - lo) 2). pose proof (Z.mod_pos_bound (hi + 1 - lo) 2).
  rewrite (wrap_small (lo + _)) by (unfold SIZE_MOD; lia).
  rewrite wrap_small by (unfold SIZE_MOD; lia). lia.
Qed.

Lemma I_Chunk_GetPosForOffset_cons off v :
  0 < zlen v ->
  I_Chunk_GetPosForOffset off v =
    I_Chunk_search (length v) off v (if zlen v =? 1 then 0 else wrap (zlen v / 2 - 1))
      (if zlen v =? 1 then 0 else zlen v - 1) 0.
Proof. by destruct v. Qed.

Section search.
Context (v : list BinaryContainerChunk) (off : Z).
Hypothesis (Hcont : contiguous 0 v).
Hypothesis (Hbytes : zlen (chunks_bytes v) < SIZE_MOD).
Hypothesis (Hlen : zlen v < SIZE_MAX).

Lemma I_Chunk_search_spec fuel curpos curmax curmin :
  0 <= curmin -> curmin <= curpos <= curmax -> curmax < zlen v ->
  curmax - curmin < Z.of_nat fuel ->
  (forall k ch, v !! k = Some ch -> containsOffset off ch = true -> curmin <= Z.of_nat k <= curmax) ->
  (exists k ch, I_Chunk_search fuel off v curpos curmax curmin = Ret (Z.of_nat k) /\
     v !! k = Some ch /\ containsOffset off ch = true) \/
  (I_Chunk_search fuel off v curpos curmax curmin = Ret SIZE_MAX /\
   forall k ch, v !! k = Some ch -> containsOffset off ch = false).
Proof.
  revert curpos curmax curmin.
  induction fuel as [|fuel IH]; intros curpos curmax curmin Hmin Hpos Hmax Hf Hin; [lia|].
  cbn [I_Chunk_search]. unfold chunk_at.
  destruct (lookup_lt_is_Some_2 v (Z.to_nat curpos)) as [ch Hch]; [unfold zlen in *; lia|].
  rewrite Hch. cbn [mbind outcome_bind].
  destruct (containsOffset off ch) eqn:Ec.
  { left. exists (Z.to_nat curpos), ch. rewrite Z2Nat.id by lia. done. }
  pose proof Ec as Ec'. rewrite (containsOffset_spec v _ ch off Hcont Hbytes Hch) in Ec'.
  assert (forall P : Prop, (forall k ch, v !! k = Some ch -> containsOffset off ch = true -> False) ->
    P \/ (Ret SIZE_MAX = Ret SIZE_MAX /\ forall k ch, v !! k = Some ch -> containsOffset off ch = false)) as Hnone.
  { intros P HP. right. split; [done|]. intros k c Hk. destruct (containsOffset off c) eqn:E; [|done].
    by destruct (HP k c Hk E). }
  destruct (Z.ltb_spec off (chunk_offset ch)) as [Hlt|Hge].
  - assert (forall k c, v !! k = Some c -> containsOffset off c = true -> Z.of_nat k < curpos) as Hbelow.
    { intros k c Hk Hc. pose proof Hc as Hc'.
      rewrite (containsOffset_spec v k c off Hcont Hbytes Hk) in Hc.
      destruct (decide (Z.of_nat k < curpos)) as [|Hn]; [done|].
      destruct (decide (k = Z.to_nat curpos)) as [->|Hne]; [congruence|].
      pose proof (contiguous_le v (Z.to_nat curpos) k ch c Hcont ltac:(lia) Hch Hk).
      pose proof (zlen_nonneg (chunk_data ch)). unfold chunk_size in *. lia. }
    destruct (Z.eqb_spec curpos curmin) as [->|Hne].
    { apply Hnone. intros k c Hk Hc. specialize (Hbelow k c Hk Hc). specialize (Hin k c Hk Hc). lia. }
    rewrite wrap_small by zl.
    apply IH; [lia|apply next_curpos_bounds; lia|lia|lia|].
    intros k c Hk Hc. specialize (Hbelow k c Hk Hc). specialize (Hin k c Hk Hc). lia.
  - assert (forall k c, v !! k = Some c -> containsOffset off c = true -> curpos < Z.of_nat k) as Habove.
    { intros k c Hk Hc. pose proof Hc as Hc'.
      rewrite (containsOffset_spec v k c off Hcont Hbytes Hk) in Hc.
      destruct (decide (curpos < Z.of_nat k)) as [|Hn]; [done|].
      destruct (decide (k = Z.to_nat curpos)) as [->|Hne]; [congruence|].
      pose proof (contiguous_le v k (Z.to_nat curpos) c ch Hcont ltac:(lia) Hk Hch).
      lia. }
    destruct (Z.eqb_spec curpos curmax) as [->|Hne].
    { apply Hnone. intros k c Hk Hc. specialize (Habove k c Hk Hc). specialize (Hin k c Hk Hc). lia. }
    rewrite wrap_small by zl.
    apply IH; [lia|apply next_curpos_bounds; lia|lia|lia|].
    intros k c Hk Hc. specialize (Habove k c Hk Hc). specialize (Hin k c Hk Hc). lia.
Qed.

(** Every byte of the container is in a chunk. *)
Lemma contains_exists start w :
  contiguous start w -> 0 <= start -> start + zlen (chunks_bytes w) < SIZE_MOD ->
  start <= off < start + zlen (chunks_bytes w) ->
  exists k ch, w !! k = Some ch /\ containsOffset off ch = true.
Proof.
  revert start. induction w as [|ch w IH]; intros start Hc Hs Hb Ho.
  { change (zlen (chunks_bytes [])) with 0 in Ho. lia. }
  rewrite chunks_bytes_cons, zlen_app in *. destruct Hc as [Hco Hc].
  pose proof (zlen_nonneg (chunk_data ch)). pose proof (zlen_nonneg (chunks_bytes w)).
  unfold chunk_size in *. destruct (decide (off < start + zlen (chunk_data ch))) as [Hlt|Hge].
  - exists O, ch. split; [done|]. unfold containsOffset, nextOffset, chunk_size.
    rewrite wrap_small by lia. lia.
  - destruct (IH (start + zlen (chunk_data ch))) as (k & c & Hk & Hco'); try lia; [done|].
    by exists (S k), c.
Qed.

(** The binary search finds the chunk of an offset inside the container. *)
Lemma I_Chunk_GetPosForOffset_found :
  0 <= off < zlen (chunks_bytes v) ->
  exists k ch, I_Chunk_GetPosForOffset off v = Ret (Z.of_nat k) /\ v !! k = Some ch /\
    containsOffset off ch = true.
Proof.
  intros Ho. destruct (contains_exists 0 v) as (k0 & c0 & Hk0 & Hc0); try done; try lia.
  assert (1 <= zlen v) by (apply lookup_lt_Some in Hk0; unfold zlen; lia).
  rewrite I_Chunk_GetPosForOffset_cons by lia.
  pose proof (Z.div_mod (zlen v) 2). pose proof (Z.mod_pos_bound (zlen v) 2).
  destruct (I_Chunk_search_spec (length v)
    (if zlen v =? 1 then 0 else wrap (zlen v / 2 - 1)) (if zlen v =? 1 then 0 else zlen v - 1) 0)
    as [Hr | [_ Hr]].
  - lia.
  - destruct (Z.eqb_spec (zlen v) 1); [lia|]. rewrite wrap_small by zl. lia.
  - destruct (zlen v =? 1) eqn:E; lia.
  - unfold zlen in *. destruct (_ =? 1) eqn:E; lia.
  - intros k c Hk _. apply lookup_lt_Some in Hk. unfold zlen in *. destruct (_ =? 1) eqn:E; lia.
  - exact Hr.
  - rewrite (Hr k0 c0 Hk0) in Hc0. done.
Qed.

(** Past the end there is nothing to find. *)
Lemma I_Chunk_GetPosForOffset_past :
  zlen (chunks_bytes v) <= off -> I_Chunk_GetPosForOffset off v = Ret SIZE_MAX.
Proof.
  intros Ho. destruct (Z.le_gt_cases (zlen v) 0) as [Hz|Hz].
  { pose proof (zlen_nonneg v). unfold I_Chunk_GetPosForOffset.
    assert (v = []) as -> by (apply zlen_zero_nil; lia). done. }
  rewrite I_Chunk_GetPosForOffset_cons by lia.
  assert (forall k c, v !! k = Some c -> containsOffset off c = true -> False) as Hnone.
  { intros k c Hk Hc. rewrite (containsOffset_spec v k c off Hcont Hbytes Hk) in Hc.
    destruct (contiguous_bound v k c Hcont Hk). lia. }
  pose proof (Z.div_mod (zlen v) 2). pose proof (Z.mod_pos_bound (zlen v) 2).
  destruct (I_Chunk_search_spec (length v)
    (if zlen v =? 1 then 0 else wrap (zlen v / 2 - 1)) (if zlen v =? 1 then 0 else zlen v - 1) 0)
    as [(k & c & _ & Hk & Hc) | [Hr _]].
  - lia.
  - destruct (Z.eqb_spec (zlen v) 1); [lia|]. rewrite wrap_small by zl. lia.
  - destruct (zlen v =? 1) eqn:E; lia.
  - unfold zlen in *. destruct (_ =? 1) eqn:E; lia.
  - intros k c Hk Hc. by destruct (Hnone k c Hk Hc).
  - by destruct (Hnone k c Hk Hc).
  - exact Hr.
Qed.
End search.

(** ** Reading a chunk vector

    Every reading loop is the same operation on the concatenated bytes. *)

Lemma zdrop_chunks_pass ch v off :
  chunk_size ch < off -> zdrop off (chunks_bytes (ch :: v)) = zdrop (off - chunk_size ch) (chunks_bytes v).
Proof. intros. unfold chunk_size in *. rewrite chunks_bytes_cons, zdrop_app_ge by lia. done. Qed.

Lemma zdrop_chunks_enter ch v off :
  off <= chunk_size ch ->
  zdrop off (chunks_bytes (ch :: v)) = zdrop off (chunk_data ch) ++ chunks_bytes v.
Proof. intros. unfold chunk_size in *. by rewrite chunks_bytes_cons, zdrop_app_le by lia. Qed.

Lemma bc_pass_test off ch :
  0 <= off -> (off >? 0) && (off >? chunk_size ch) = (chunk_size ch <? off).
Proof. intros. pose proof (zlen_nonneg (chunk_data ch)). unfold chunk_size. lia. Qed.

Lemma bc_spans_spec v off n :
  0 <= off -> 0 < n -> off + n <= zlen (chunks_bytes v) ->
  concat (bc_spans v off n) = slice off n (chunks_bytes v).
Proof.
  unfold slice. revert off n. induction v as [|ch v IH]; intros off n Ho Hn Hle.
  { change (zlen (chunks_bytes [])) with 0 in Hle. lia. }
  cbn [bc_spans]. rewrite bc_pass_test by lia.
  rewrite chunks_bytes_cons, zlen_app in Hle. change (zlen (chunk_data ch)) with (chunk_size ch) in Hle.
  destruct (Z.ltb_spec (chunk_size ch) off) as [Hlt|Hge].
  { rewrite IH by lia. by rewrite zdrop_chunks_pass by lia. }
  rewrite zdrop_chunks_enter by lia. cbn [concat].
  destruct (Z.eqb_spec (n - Z.min n (chunk_size ch - off)) 0) as [E|E].
  - cbn [concat]. rewrite app_nil_r, ztake_app_le by (rewrite zlen_zdrop; unfold chunk_size in *; lia).
    f_equal. lia.
  - rewrite IH by lia. rewrite (zdrop_le0 0) by lia.
    rewrite ztake_ge by (rewrite zlen_zdrop; unfold chunk_size in *; lia).
    rewrite ztake_app_ge by (rewrite zlen_zdrop; unfold chunk_size in *; lia).
    do 2 f_equal. rewrite zlen_zdrop. unfold chunk_size in *. lia.
Qed.

Lemma bc_copy_loop_spec cur rest n :
  0 <= n <= zlen cur + zlen (chunks_bytes rest) ->
  bc_copy_loop cur rest n = ztake n (cur ++ chunks_bytes rest).
Proof.
  revert cur n. induction rest as [|next rest IH]; intros cur n Hn; cbn [bc_copy_loop].
  all: destruct (Z.gtb_spec n (zlen cur)) as [Hgt|Hle]; [|by rewrite ztake_app_le by lia].
  - change (zlen (chunks_bytes [])) with 0 in Hn. lia.
  - rewrite ztake_app_ge by lia. rewrite chunks_bytes_cons in *. rewrite zlen_app in Hn.
    by rewrite IH by lia.
Qed.

Lemma bc_compare_loop_spec v buf cs off :
  0 <= off -> 0 < zlen buf -> zlen buf + blockSize < SIZE_MOD ->
  off + zlen buf <= zlen (chunks_bytes v) ->
  bc_compare_loop v buf cs (zlen buf) off =
    Ret (same_bytes cs (slice off (zlen buf) (chunks_bytes v)) buf).
Proof.
  unfold slice. revert buf off. induction v as [|ch v IH]; intros buf off Ho Hb Hsz Hle.
  { change (zlen (chunks_bytes [])) with 0 in Hle. lia. }
  cbn [bc_compare_loop]. rewrite bc_pass_test by lia.
  rewrite chunks_bytes_cons, zlen_app in Hle. change (zlen (chunk_data ch)) with (chunk_size ch) in Hle.
  destruct (Z.ltb_spec (chunk_size ch) off) as [Hlt|Hge].
  { rewrite IH by lia. by rewrite zdrop_chunks_pass by lia. }
  rewrite zdrop_chunks_enter by lia.
  set (k := Z.min (zlen buf) (chunk_size ch - off)).
  assert (zlen (zdrop off (chunk_data ch)) = chunk_size ch - off) as Hl.
  { rewrite zlen_zdrop. unfold chunk_size in *. lia. }
  destruct (memicmp2_spec (zdrop off (chunk_data ch)) buf k cs) as (r & -> & Hr); try lia.
  cbn [mbind outcome_bind]. rewrite Hr.
  destruct (Z.eqb_spec (zlen buf - k) 0) as [E|E].
  - rewrite (ztake_ge k buf) by lia. rewrite ztake_app_le by lia. replace k with (zlen buf) by lia.
    by destruct (same_bytes cs _ buf).
  - rewrite (ztake_ge k (zdrop off _)) by lia.
    rewrite ztake_app_ge by lia. rewrite Hl.
    replace (zlen buf - (chunk_size ch - off)) with (zlen (zdrop k buf)) by (rewrite zlen_zdrop; lia).
    replace (zlen buf - k) with (zlen (zdrop k buf)) by (rewrite zlen_zdrop; lia).
    rewrite <- (f_equal (same_bytes cs (_ ++ _)) (ztake_zdrop k buf)).
    rewrite same_bytes_app by (apply Nat2Z.inj; fold (zlen (ztake k buf)); rewrite zlen_ztake; unfold zlen in *; lia).
    destruct (same_bytes cs (zdrop off (chunk_data ch)) (ztake k buf)); cbn [negb andb]; [|done].
    rewrite IH; rewrite ?zlen_zdrop; try lia. by rewrite zdrop_le0 by lia.
Qed.

(** The character test of [findChar]: the letter in either case when the
    search is case sensitive, the exact byte when it is not. *)
Definition bc_match (charInt : Z) (caseSensitive : bool) (b : byte) : bool :=
  if caseSensitive && isalpha (of_char charInt)
  then (b =? of_char (toupper charInt)) || (b =? of_char (tolower charInt))
  else b =? of_char charInt.

Lemma bc_memchrs data ch cs n :
  0 <= n <= zlen data ->
  ((if negb (if cs && negb (isalpha (of_char ch)) then false else cs) then memchr data ch n
    else
      pos_upper ← memchr data (toupper ch) n;
      pos_lower ← memchr data (tolower ch) n;
      Ret (match pos_upper, pos_lower with
           | Some u, Some l => Some (Z.min u l)
           | Some u, None => Some u
           | None, l => l
           end)) : outcome (option Z)) = Ret (first_index (bc_match ch cs) (ztake n data)).
Proof.
  intros Hn. unfold bc_match.
  destruct cs; cbn [andb]; [destruct (isalpha (of_char ch)) eqn:Ea; cbn [negb]|].
  2, 3: by rewrite memchr_spec by lia.
  rewrite !memchr_spec by lia. cbn [mbind outcome_bind]. rewrite first_index_or.
  by destruct (first_index (fun b => b =? of_char (toupper ch)) _),
    (first_index (fun b => b =? of_char (tolower ch)) _).
Qed.

Lemma bc_find_loop_spec v ch cs off sp ret :
  0 <= off -> 0 <= sp -> 0 <= ret -> off + sp = zlen (chunks_bytes v) ->
  ret + zlen (chunks_bytes v) < SIZE_MOD ->
  bc_find_loop v ch (if cs && negb (isalpha (of_char ch)) then false else cs) off sp ret =
    Ret (Z.add (ret + off) <$> first_index (bc_match ch cs) (zdrop off (chunks_bytes v))).
Proof.
  revert off sp ret. induction v as [|i v IH]; intros off sp ret Ho Hs Hr Hsum Hb.
  { unfold zdrop. change (chunks_bytes []) with (@nil Z). by rewrite drop_nil. }
  cbn [bc_find_loop]. rewrite bc_pass_test by lia.
  rewrite chunks_bytes_cons, zlen_app in Hsum, Hb. change (zlen (chunk_data i)) with (chunk_size i) in *.
  pose proof (zlen_nonneg (chunk_data i)) as Hi. change (zlen (chunk_data i)) with (chunk_size i) in Hi.
  pose proof (zlen_nonneg (chunks_bytes v)).
  destruct (Z.ltb_spec (chunk_size i) off) as [Hlt|Hge].
  { rewrite wrap_small by lia. rewrite IH by lia. rewrite zdrop_chunks_pass by lia.
    do 3 f_equal. lia. }
  assert (zlen (zdrop off (chunk_data i)) = chunk_size i - off) as Hl.
  { rewrite zlen_zdrop. unfold chunk_size in *. lia. }
  rewrite bc_memchrs by lia. cbn [mbind outcome_bind].
  rewrite (ztake_ge _ (zdrop off _)) by lia.
  rewrite zdrop_chunks_enter by lia. rewrite first_index_app.
  destruct (first_index (bc_match ch cs) (zdrop off (chunk_data i))) as [p|] eqn:Ep.
  { apply first_index_bounds in Ep. rewrite wrap_small by lia. cbn. do 2 f_equal. lia. }
  destruct (Z.gtb_spec sp (chunk_size i - off)).
  - rewrite wrap_small by lia. rewrite IH by lia. rewrite zdrop_le0, Hl by lia.
    destruct (first_index (bc_match ch cs) (chunks_bytes v)); cbn; [|done]. do 2 f_equal. lia.
  - assert (chunks_bytes v = []) as -> by (apply zlen_zero_nil; lia). done.
Qed.

(** ** What [B_Chunks] promises *)
Section Theory.
Context {M : Type} `{Container M} `{!MMapFile M}.
Implicit Types c : B_Chunks M.

Definition bc_contents c : bytes := chunks_bytes (m_chunksVector c).

(** In memory, and counting the bytes it holds. *)
Definition bc_ok c : Prop :=
  m_mmapContainer c = None /\ m_containerBytes (bc_base c) = zlen (bc_contents c) /\
  zlen (bc_contents c) + blockSize < SIZE_MOD.

(** The offsets of the chunks are those of their bytes. *)
Definition bc_offsets_ok c : Prop :=
  bc_ok c /\ contiguous 0 (m_chunksVector c) /\ zlen (m_chunksVector c) < SIZE_MAX.

Lemma bc_size_ok c : bc_ok c -> bc_size c = zlen (bc_contents c).
Proof. intros (Hm & Hs & _). unfold bc_size. by rewrite Hm. Qed.

Lemma bc_compare2_spec c buf cs off :
  bc_ok c -> 0 <= off -> 0 < zlen buf -> is_size (zlen buf) -> off < SIZE_MOD ->
  bc_compare2 buf cs off c =
    Ret (same_bytes cs (ztake (zlen buf) (zdrop off (bc_contents c))) buf).
Proof.
  intros Hok Ho Hb Hsz Hoff. pose proof (bc_size_ok c Hok) as Hs.
  destruct Hok as (Hm & _ & Hbound). unfold bc_compare2. rewrite Hm, Hs.
  replace (zlen buf =? 0) with false by lia.
  destruct (Z.le_gt_cases (off + zlen buf) (zlen (bc_contents c))) as [Hle|Hgt].
  - unfold blockSize, KB_MULT in *. rewrite check_overflow_false by zl.
    replace (off + zlen buf >? _) with false by lia.
    apply bc_compare_loop_spec; try done. unfold blockSize, KB_MULT. lia.
  - change (same_bytes cs (ztake (zlen buf) ?l) buf) with (matches_at cs buf l).
    rewrite matches_at_short by (rewrite zlen_zdrop; lia).
    destruct (CHECK_UINT_OVERFLOW_SUM off (zlen buf)); [done|].
    by replace (off + zlen buf >? _) with true by lia.
Qed.

Lemma bc_findChar_spec c ch off sp cs :
  bc_ok c -> 0 <= off -> 0 <= sp -> off + sp = zlen (bc_contents c) ->
  bc_findChar ch off sp cs c =
    Ret (Z.add off <$> first_index (bc_match ch cs) (zdrop off (bc_contents c))).
Proof.
  intros Hok Ho Hsp Hsum. pose proof (bc_size_ok c Hok) as Hs.
  destruct Hok as (Hm & _ & Hbound). unfold blockSize, KB_MULT in *.
  unfold bc_findChar. rewrite Hm, Hs. rewrite check_overflow_false by zl.
  replace (off >? _) with false by lia. replace (off + sp >? _) with false by lia. cbn [orb].
  rewrite bc_find_loop_spec by (try done; unfold bc_contents in *; lia). done.
Qed.

Lemma bc_copyToSink_spec {S} `{SinkSpec S} c (s : S) acc n off :
  bc_ok c -> sink_rep s acc -> 0 <= off -> 0 < n -> off + n <= zlen (bc_contents c) -> n <= sink_room s ->
  exists s', bc_copyToStreamableObject2 s n off c = Ret (s', Some n) /\
    sink_rep s' (acc ++ slice off n (bc_contents c)) /\
    sink_room s - n <= sink_room s'.
Proof.
  intros Hok Hrep Ho Hn Hle Hroom. pose proof (bc_size_ok c Hok) as Hs.
  destruct Hok as (Hm & _ & Hbound). unfold blockSize, KB_MULT in *.
  unfold bc_copyToStreamableObject2. rewrite Hm, Hs. replace (n =? 0) with false by lia.
  rewrite check_overflow_false by zl. replace (off >? _) with false by lia.
  replace (off + n >? _) with false by lia.
  assert (concat (bc_spans (m_chunksVector c) off n) = slice off n (bc_contents c)) as Hc
    by (by apply bc_spans_spec).
  assert (zlen (slice off n (bc_contents c)) = n) as Hl by (apply zlen_slice; lia).
  destruct (copyToStreamableObject_spans s acc (bc_spans (m_chunksVector c) off n) 0)
    as (s' & Hw & Hd & Hr); rewrite ?Hc, ?Hl in *; try done; try zl.
  exists s'. rewrite Hw, Z.add_0_l. auto.
Qed.

#[export] Program Instance bc_contents_spec : ContentsSpec (B_Chunks M) := {|
  contents := bc_contents; contents_ok := bc_ok |}.
Next Obligation. intros c Hok. by apply bc_size_ok. Qed.
Next Obligation. by intros c (_ & _ & Hb). Qed.

#[export] Program Instance bc_scan : ScanSpec (B_Chunks M) := {| fc_match := bc_match |}.
Next Obligation. intros. by apply bc_compare2_spec. Qed.
Next Obligation. intros. by apply bc_findChar_spec. Qed.
Next Obligation. intros. by apply bc_copyToSink_spec. Qed.

Lemma bc_copyToBuffer2_spec c n off :
  bc_offsets_ok c -> 0 <= off -> 0 < n -> off + n <= zlen (bc_contents c) ->
  bc_copyToBuffer2 n off c = Ret (Some (slice off n (bc_contents c))).
Proof.
  intros (Hok & Hcont & Hlen) Ho Hn Hle. pose proof (bc_size_ok c Hok) as Hs.
  destruct Hok as (Hm & _ & Hbound). unfold blockSize, KB_MULT in *.
  unfold bc_copyToBuffer2. rewrite Hm, Hs. rewrite check_overflow_false by zl.
  replace (n =? 0) with false by lia. replace (off + n >? _) with false by lia.
  unfold bc_contents in *. assert (zlen (chunks_bytes (m_chunksVector c)) < SIZE_MOD) as Hb by lia.
  destruct (I_Chunk_GetPosForOffset_found (m_chunksVector c) off Hcont Hb Hlen) as (k & ch & -> & Hk & Hco);
    [lia|].
  pose proof (lookup_lt_Some _ _ _ Hk) as Hkl. cbn [mbind outcome_bind].
  replace (Z.of_nat k =? SIZE_MAX) with false by (unfold zlen in *; lia).
  unfold chunk_at. rewrite Nat2Z.id, Hk. cbn [mbind outcome_bind].
  rewrite (containsOffset_spec _ k ch off Hcont Hb Hk) in Hco.
  destruct (contiguous_bound _ k ch Hcont Hk). destruct (contiguous_split _ k ch Hcont Hk) as [Hv Hof].
  unfold moveToOffset. rewrite wrap_small by lia. replace (_ <=? chunk_size ch) with true by lia.
  cbn [mbind outcome_bind chunk_data]. do 2 f_equal.
  assert (chunks_bytes (m_chunksVector c) =
    chunks_bytes (take k (m_chunksVector c)) ++ chunk_data ch ++
    chunks_bytes (zdrop (Z.of_nat k + 1) (m_chunksVector c))) as Hcb.
  { rewrite Hv at 1. rewrite chunks_bytes_app, chunks_bytes_cons. do 3 f_equal.
    unfold zdrop. f_equal. lia. }
  pose proof (zlen_nonneg (chunk_data ch)). unfold chunk_size in *.
  rewrite bc_copy_loop_spec.
  - unfold slice. rewrite Hcb, zdrop_app_ge by lia. rewrite zdrop_app_le by lia. by rewrite <- Hof.
  - apply (f_equal zlen) in Hcb. rewrite !zlen_app in Hcb. rewrite zlen_zdrop. lia.
Qed.

#[export] Program Instance bc_read : ReadSpec (B_Chunks M) := {| read_ok := bc_offsets_ok |}.
Next Obligation. by intros c (Hok & _). Qed.
Next Obligation. intros. by apply bc_copyToBuffer2_spec. Qed.

(** ** Appending *)

Lemma chunks_bytes_snoc v buf off :
  chunks_bytes (v ++ [mkChunk buf off]) = chunks_bytes v ++ buf.
Proof. rewrite chunks_bytes_app, chunks_bytes_cons. cbn. by rewrite app_nil_r. Qed.

(** The offset [append2] gives a new chunk continues the vector. *)
Lemma contiguous_snoc v buf :
  contiguous 0 v -> zlen (chunks_bytes v) < SIZE_MOD ->
  (match last v with
   | None => [mkChunk buf 0]
   | Some l => v ++ [mkChunk buf (nextOffset l)]
   end) = v ++ [mkChunk buf (zlen (chunks_bytes v))].
Proof.
  intros Hc Hb. destruct (last v) as [l|] eqn:El.
  - rewrite last_lookup in El. do 2 f_equal. unfold nextOffset.
    destruct (contiguous_split v _ l Hc El) as [Hv Ho].
    assert (zlen (chunks_bytes v) = chunk_offset l + chunk_size l) as ->.
    { rewrite Hv at 1. rewrite drop_ge by (apply lookup_lt_Some in El; lia).
      rewrite chunks_bytes_app, zlen_app, <- Ho. cbn. by rewrite app_nil_r. }
    destruct (contiguous_bound v _ l Hc El). pose proof (zlen_nonneg (chunk_data l)).
    unfold chunk_size in *. rewrite wrap_small by lia. f_equal. lia.
  - by apply last_None in El as ->.
Qed.

Definition bc_push (buf : bytes) c : B_Chunks M :=
  bc_setContainerBytes (zlen (bc_contents c) + zlen buf)
    (bc_set_vector (m_chunksVector c ++ [mkChunk buf (zlen (bc_contents c))]) c).

Lemma bc_push_ok buf c :
  bc_offsets_ok c -> zlen (bc_contents c) + zlen buf + blockSize < SIZE_MOD ->
  zlen (m_chunksVector c) + 1 < SIZE_MAX ->
  bc_offsets_ok (bc_push buf c) /\ bc_contents (bc_push buf c) = bc_contents c ++ buf.
Proof.
  intros ((Hm & Hs & Hb) & Hc & Hl) Hbuf Hn.
  assert (bc_contents (bc_push buf c) = bc_contents c ++ buf) as Hcont
    by apply chunks_bytes_snoc.
  split; [|done]. unfold bc_offsets_ok, bc_ok. rewrite Hcont, zlen_app. split_and!; try done.
  - cbn. apply contiguous_app. split; [done|]. cbn. done.
  - cbn. rewrite zlen_app. cbn. exact Hn.
Qed.

(** A round of the append loop pushes a chunk. *)
Lemma bc_append_loop_step fuel buf appended c :
  bc_offsets_ok c -> buf <> [] -> zlen (m_chunksVector c) + 1 <= m_maxChunks c ->
  zlen (bc_contents c) + zlen buf + blockSize < SIZE_MOD -> 0 <= m_maxChunkSize c ->
  0 <= appended -> appended + zlen buf < SIZE_MOD ->
  bc_append_loop (S fuel) buf false appended c =
    bc_append_loop fuel (zdrop (m_maxChunkSize c) buf) false
      (appended + zlen (ztake (m_maxChunkSize c) buf)) (bc_push (ztake (m_maxChunkSize c) buf) c).
Proof.
  intros Hok Hne Hmax Hb Hcs Ha Has. pose proof Hok as ((Hm & Hs & Hbound) & Hc & Hl).
  destruct buf as [|x buf]; [done|]. set (b := x :: buf) in *.
  unfold blockSize, KB_MULT in *. pose proof (zlen_nonneg (bc_contents c)). pose proof (zlen_nonneg b).
  change (bc_append_loop (S fuel) b false appended c) with
    (if zlen (m_chunksVector c) + 1 >? m_maxChunks c then Ret (c, Some appended)
     else bc_append_loop fuel (zdrop (Z.min (zlen b) (m_maxChunkSize c)) b) false
       (wrap (appended + zlen (ztake (Z.min (zlen b) (m_maxChunkSize c)) b)))
       (bc_setContainerBytes
          (wrap (bc_size c + zlen (ztake (Z.min (zlen b) (m_maxChunkSize c)) b)))
          (bc_set_vector
             (match last (m_chunksVector c) with
              | None => [mkChunk (ztake (Z.min (zlen b) (m_maxChunkSize c)) b) 0]
              | Some l => m_chunksVector c ++
                  [mkChunk (ztake (Z.min (zlen b) (m_maxChunkSize c)) b) (nextOffset l)]
              end) c))).
  replace (_ >? m_maxChunks c) with false by lia.
  rewrite ztake_min_len, zdrop_min_len.
  assert (zlen (ztake (m_maxChunkSize c) b) <= zlen b) by (rewrite zlen_ztake; lia).
  pose proof (zlen_nonneg (ztake (m_maxChunkSize c) b)).
  rewrite contiguous_snoc by (try done; unfold bc_contents in *; lia).
  rewrite bc_size_ok by apply Hok.
  rewrite !wrap_small by lia. done.
Qed.

(** Chunks a piece of data needs. *)
Definition chunks_needed (len size : Z) : Z := (len + size - 1) / size.

Lemma chunks_needed_pos len size : 0 < size -> 0 < len -> 1 <= chunks_needed len size.
Proof.
  intros. unfold chunks_needed. replace (len + size - 1) with (len - 1 + 1 * size) by lia.
  rewrite Z.div_add by lia. pose proof (Z.div_pos (len - 1) size). lia.
Qed.

Lemma chunks_needed_rest len size :
  0 < size -> 0 < len -> chunks_needed (len - Z.min len size) size <= chunks_needed len size - 1.
Proof.
  intros Hs Hl. unfold chunks_needed. replace (len + size - 1) with (len - 1 + 1 * size) by lia.
  rewrite Z.div_add by lia. destruct (Z.le_gt_cases len size).
  - rewrite Z.min_l by lia. rewrite (Z.div_small (_ + size - 1)) by lia.
    pose proof (Z.div_pos (len - 1) size). lia.
  - rewrite Z.min_r by lia. replace (len - size + size - 1) with (len - 1) by lia. lia.
Qed.

Lemma bc_append_loop_spec fuel buf appended c :
  bc_offsets_ok c -> 0 < m_maxChunkSize c -> m_maxChunks c < SIZE_MAX ->
  zlen (bc_contents c) + zlen buf + blockSize < SIZE_MOD ->
  0 <= appended -> appended + zlen buf < SIZE_MOD -> (length buf < fuel)%nat ->
  exists c' r, bc_append_loop fuel buf false appended c = Ret (c', Some (appended + r)) /\
    0 <= r <= zlen buf /\ bc_offsets_ok c' /\ bc_contents c' = bc_contents c ++ ztake r buf /\
    (zlen (m_chunksVector c) + chunks_needed (zlen buf) (m_maxChunkSize c) <= m_maxChunks c ->
     r = zlen buf).
Proof.
  revert buf appended c. induction fuel as [|fuel IH]; intros buf appended c Hok Hcs Hmc Hb Ha Has Hf;
    [lia|].
  destruct (decide (buf = [])) as [->|Hne].
  { exists c, 0. cbn. rewrite ztake_le0, app_nil_r, Z.add_0_r by lia. split_and!; try done; lia. }
  assert (0 < zlen buf) as Hbl.
  { pose proof (zlen_nonneg buf). destruct (Z.eq_dec (zlen buf) 0) as [E|]; [|lia].
    by apply zlen_zero_nil in E. }
  destruct (Z.le_gt_cases (zlen (m_chunksVector c) + 1) (m_maxChunks c)) as [Hroom|Hfull].
  2: { exists c, 0. split.
       { destruct buf; [done|]. cbn [bc_append_loop].
         replace (_ >? m_maxChunks c) with true by lia. by rewrite Z.add_0_r. }
       rewrite ztake_le0, app_nil_r by lia. split_and!; try done; [lia|].
       pose proof (chunks_needed_pos (zlen buf) (m_maxChunkSize c) Hcs Hbl). lia. }
  rewrite bc_append_loop_step by (try done; lia).
  set (s := m_maxChunkSize c) in *. set (c1 := bc_push (ztake s buf) c).
  assert (zlen (ztake s buf) = Z.min (zlen buf) s) as Hts by (rewrite zlen_ztake; lia).
  assert (zlen (zdrop s buf) = zlen buf - Z.min (zlen buf) s) as Hds by (rewrite zlen_zdrop; lia).
  destruct (bc_push_ok (ztake s buf) c Hok) as [Hok1 Hc1]; [lia..|].
  destruct (IH (zdrop s buf) (appended + zlen (ztake s buf)) c1) as (c' & r & Hl & Hr & Hok' & Hc' & Hall);
    fold c1 in Hc1; rewrite ?Hc1, ?zlen_app; try done; try lia.
  { unfold zlen in *. lia. }
  exists c', (zlen (ztake s buf) + r). rewrite Hl. split_and!; try done; [do 3 f_equal; lia|lia|lia|..].
  - rewrite Hc', Hc1, <- app_assoc. f_equal.
    destruct (Z.le_gt_cases (zlen buf) s).
    + rewrite !(ztake_ge _ buf) by lia. rewrite (ztake_ge r) by lia.
      rewrite zdrop_ge by lia. apply app_nil_r.
    + replace (zlen (ztake s buf)) with s by lia. rewrite ztake_add by lia. done.
  - intros Hn. rewrite Hall; [lia|]. change (m_maxChunkSize c1) with s. change (m_maxChunks c1) with (m_maxChunks c).
    change (m_chunksVector c1) with (m_chunksVector c ++ [mkChunk (ztake s buf) (zlen (bc_contents c))]).
    rewrite zlen_app, Hds. pose proof (chunks_needed_rest (zlen buf) s Hcs Hbl). rewrite zlen_cons, (@zlen_nil BinaryContainerChunk). lia.
Qed.

(** The limits under which an append stays in memory. *)
Definition bc_in_memory (n : Z) c : Prop :=
  m_maxSizeInMemoryBeforeMovingToDisk c = 0 \/
  n + zlen (bc_contents c) <= m_maxSizeInMemoryBeforeMovingToDisk c.

Lemma bc_append2_spec buf c :
  bc_offsets_ok c -> 0 < m_maxChunkSize c -> m_maxChunks c < SIZE_MAX ->
  bc_in_memory (zlen buf) c -> zlen (bc_contents c) + zlen buf + blockSize < SIZE_MOD ->
  exists c' r, bc_append2 buf false c = Ret (c', Some r) /\
    0 <= r <= zlen buf /\ bc_offsets_ok c' /\ bc_contents c' = bc_contents c ++ ztake r buf /\
    (zlen (m_chunksVector c) + chunks_needed (zlen buf) (m_maxChunkSize c) <= m_maxChunks c ->
     r = zlen buf).
Proof.
  intros Hok Hcs Hmc Hmem Hb. pose proof Hok as ((Hm & Hs & Hbd) & _).
  pose proof (zlen_nonneg buf). pose proof (zlen_nonneg (bc_contents c)).
  unfold bc_append2. rewrite Hm, bc_size_ok by apply Hok.
  rewrite check_overflow_false by (unfold blockSize, KB_MULT, is_size in *; lia).
  replace (negb _ && _) with false by (destruct Hmem; lia).
  destruct (bc_append_loop_spec (bc_append_fuel buf c) buf 0 c) as (c' & r & Hr);
    try done; try (unfold blockSize, KB_MULT in *; lia).
  { unfold bc_append_fuel. replace (m_maxChunkSize c =? 0) with false by lia. lia. }
  by exists c', r.
Qed.

(** ** Displacing *)

Lemma recalcOffsets_bytes v : chunks_bytes (recalcOffsets v) = chunks_bytes v.
Proof.
  destruct v as [|ch v]; [done|]. unfold recalcOffsets. rewrite !chunks_bytes_cons. f_equal.
  generalize (length (ch :: v)) as n, 0 as o. intros n. revert ch.
  induction n as [|n IH]; intros ch o; [done|]. cbn [recalc_loop]. by rewrite IH.
Qed.

Lemma recalcOffsets_length v : length (recalcOffsets v) = length v.
Proof. by destruct v. Qed.

Lemma recalcOffsets_contiguous v : (length v <= 1)%nat -> contiguous 0 (recalcOffsets v).
Proof. destruct v as [|ch [|ch' v]]; cbn; [done|done|lia]. Qed.

Lemma bc_displace_stop v c :
  m_mmapContainer c = None -> m_containerBytes (bc_base c) = zlen (chunks_bytes v) ->
  forall c', c' = recalcChunkOffsets (bc_set_vector v c) ->
  bc_contents c' = zdrop 0 (chunks_bytes v) /\ m_mmapContainer c' = None /\
  m_containerBytes (bc_base c') = zlen (bc_contents c') /\
  (length (m_chunksVector c') <= length v)%nat /\
  ((length (m_chunksVector c') <= 1)%nat -> contiguous 0 (m_chunksVector c')).
Proof.
  intros Hm Hs c' ->. unfold bc_contents.
  cbn [recalcChunkOffsets bc_set_vector m_chunksVector m_mmapContainer bc_base].
  rewrite zdrop_le0, recalcOffsets_length, recalcOffsets_bytes by lia.
  split_and!; try done. apply recalcOffsets_contiguous.
Qed.

Lemma bc_displace_loop_spec v n displaced c :
  0 <= n -> 0 <= displaced -> displaced + zlen (chunks_bytes v) < SIZE_MOD ->
  m_mmapContainer c = None -> m_containerBytes (bc_base c) = zlen (chunks_bytes v) ->
  exists c', bc_displace_loop v n displaced c =
      (c', displaced + Z.min n (zlen (chunks_bytes v))) /\
    bc_contents c' = zdrop n (chunks_bytes v) /\ m_mmapContainer c' = None /\
    m_containerBytes (bc_base c') = zlen (bc_contents c') /\
    (length (m_chunksVector c') <= length v)%nat /\
    ((length (m_chunksVector c') <= 1)%nat -> contiguous 0 (m_chunksVector c')).
Proof.
  revert n displaced c. induction v as [|ch v IH]; intros n d c Hn Hd Hb Hm Hs;
    cbn [bc_displace_loop].
  all: destruct (Z.eqb_spec n 0) as [->|Hnz].
  1, 3: by eexists; split; [f_equal; zl|]; apply bc_displace_stop with (c := c).
  1: { eexists; split; [f_equal; change (zlen (chunks_bytes [])) with 0; lia|].
       unfold bc_contents, zdrop. change (chunks_bytes []) with (@nil Z) in *.
       rewrite drop_nil. by auto. }
  rewrite chunks_bytes_cons, zlen_app in *. change (zlen (chunk_data ch)) with (chunk_size ch) in *.
  pose proof (zlen_nonneg (chunk_data ch)) as Hcs. change (zlen (chunk_data ch)) with (chunk_size ch) in *.
  pose proof (zlen_nonneg (chunks_bytes v)).
  assert (bc_size c = chunk_size ch + zlen (chunks_bytes v)) as -> by (unfold bc_size; by rewrite Hm).
  rewrite Z.geb_leb. destruct (Z.leb_spec (chunk_size ch) n) as [Hle|Hgt].
  - rewrite !wrap_small by lia.
    edestruct (IH (n - chunk_size ch) (d + chunk_size ch)
      (bc_setContainerBytes (chunk_size ch + zlen (chunks_bytes v) - chunk_size ch) c))
      as (c' & Hc & Hcont & Hrest); try lia; [done|cbn; lia|].
    exists c'. rewrite Hc. split; [f_equal; lia|]. split.
    + rewrite Hcont. unfold chunk_size in *. by rewrite zdrop_app_ge by lia.
    + cbn [length]. destruct Hrest as (? & ? & ? & ?). auto with lia.
  - rewrite !wrap_small by lia. eexists; split; [f_equal; lia|].
    unfold bc_contents, chunk_displace.
    replace (n =? 0) with false by lia. rewrite Z.geb_leb. replace (chunk_size ch <=? n) with false by lia.
    cbn [bc_set_vector recalcChunkOffsets m_chunksVector m_mmapContainer bc_base bc_setContainerBytes bc_set_base].
    rewrite recalcOffsets_length, recalcOffsets_bytes, chunks_bytes_cons. cbn [chunk_data].
    unfold chunk_size in *. rewrite zdrop_app_le by lia. split_and!; try done; cbn [length].
    + cbn. rewrite zlen_app, zlen_zdrop. lia.
    + intros Hl. by apply recalcOffsets_contiguous.
Qed.

Lemma bc_displace2_spec n c :
  bc_ok c -> 0 <= n ->
  exists c', bc_displace2 n c = Ret (c', Some (Z.min n (zlen (bc_contents c)))) /\
    bc_ok c' /\ bc_contents c' = zdrop n (bc_contents c) /\
    ((length (m_chunksVector c') <= 1)%nat -> bc_offsets_ok c').
Proof.
  intros (Hm & Hs & Hb) Hn. unfold bc_displace2. rewrite Hm. unfold blockSize, KB_MULT in *.
  destruct (bc_displace_loop_spec (m_chunksVector c) n 0 c) as (c' & -> & Hc & Hm' & Hs' & Hl & Hcont);
    try done; unfold bc_contents in *; try lia.
  exists c'. assert (bc_ok c') as Hok.
  { split_and!; try done. unfold bc_contents, blockSize, KB_MULT. rewrite Hc, zlen_zdrop. lia. }
  split_and!; try done. intros H1. split_and!; [done|auto|]. unfold zlen, SIZE_MAX, SIZE_MOD. lia.
Qed.

(** ** Truncating *)

Lemma chunks_truncate_at v k ch n :
  contiguous 0 v -> v !! k = Some ch -> zlen (chunks_bytes v) < SIZE_MOD ->
  chunk_offset ch <= n < chunk_offset ch + chunk_size ch ->
  chunks_bytes (take k v ++ [mkChunk (ztake (n - chunk_offset ch) (chunk_data ch)) (chunk_offset ch)])
    = ztake n (chunks_bytes v) /\
  contiguous 0 (take k v ++ [mkChunk (ztake (n - chunk_offset ch) (chunk_data ch)) (chunk_offset ch)]) /\
  chunks_bytes (take k v) = ztake (chunk_offset ch) (chunks_bytes v) /\ contiguous 0 (take k v).
Proof.
  intros Hc Hk Hb Hn. destruct (contiguous_split v k ch Hc Hk) as [Hv Ho].
  assert (chunks_bytes v = chunks_bytes (take k v) ++ chunk_data ch ++ chunks_bytes (drop (S k) v)) as Hcb.
  { rewrite Hv at 1. by rewrite chunks_bytes_app, chunks_bytes_cons. }
  assert (contiguous 0 (take k v)) as Hck by (rewrite Hv in Hc; apply contiguous_app in Hc; tauto).
  unfold chunk_size in *. split_and!; [..|done].
  - rewrite chunks_bytes_snoc, Hcb. rewrite ztake_app_ge by lia. rewrite ztake_app_le by lia.
    by rewrite Ho.
  - apply contiguous_app. split; [done|]. cbn. lia.
  - rewrite Hcb, ztake_app_le by lia. by rewrite ztake_ge by lia.
Qed.

Lemma bc_truncate2_spec n c :
  bc_offsets_ok c -> 0 <= n < zlen (bc_contents c) ->
  exists c', bc_truncate2 n c = Ret (c', Some n) /\
    bc_offsets_ok c' /\ bc_contents c' = ztake n (bc_contents c).
Proof.
  intros (Hok & Hcont & Hlen) Hn. pose proof (bc_size_ok c Hok) as Hs.
  destruct Hok as (Hm & _ & Hbound). unfold blockSize, KB_MULT in *.
  unfold bc_contents in *. assert (zlen (chunks_bytes (m_chunksVector c)) < SIZE_MOD) as Hb by lia.
  set (v := m_chunksVector c) in *. unfold bc_truncate2. rewrite Hm. fold v.
  destruct (I_Chunk_GetPosForOffset_found v n Hcont Hb Hlen Hn) as (k & ch & -> & Hk & Hco).
  pose proof (lookup_lt_Some _ _ _ Hk) as Hkl. cbn [mbind outcome_bind].
  replace (Z.of_nat k =? SIZE_MAX) with false by (unfold zlen in *; lia).
  unfold chunk_at. rewrite Nat2Z.id, Hk. cbn [mbind outcome_bind].
  rewrite (containsOffset_spec v k ch n Hcont Hb Hk) in Hco.
  destruct (contiguous_bound v k ch Hcont Hk).
  destruct (chunks_truncate_at v k ch n Hcont Hk Hb) as (Hbytes & Hc1 & Hbytes0 & Hc0); [lia|].
  assert (forall w, contiguous 0 w -> chunks_bytes w = ztake n (chunks_bytes v) ->
    (length w <= length v)%nat ->
    exists c', Ret (bc_setContainerBytes n (bc_set_vector w c),
                    Some (bc_size (bc_setContainerBytes n (bc_set_vector w c)))) = Ret (c', Some n) /\
      bc_offsets_ok c' /\ chunks_bytes (m_chunksVector c') = ztake n (chunks_bytes v)) as Hdone.
  { intros w Hw Hwb Hwl. eexists. split; [unfold bc_size; cbn; by rewrite Hm|]. split; [|done].
    unfold bc_offsets_ok, bc_ok, bc_contents, blockSize, KB_MULT. bc_simpl. rewrite Hwb, zlen_ztake.
    unfold zlen in *. split_and!; try done; lia. }
  destruct (Z.eqb_spec (chunk_offset ch) n) as [E|E]; cbn [mbind outcome_bind].
  - replace (wrap (wrap (Z.of_nat k - 1) + 1)) with (Z.of_nat k).
    2: { rewrite wrap_add_l. rewrite wrap_small; unfold zlen, SIZE_MAX in *; lia. }
    unfold ztake at 1 2. rewrite !Nat2Z.id. apply Hdone; [done| |rewrite length_take; lia].
    rewrite Hbytes0. by rewrite E.
  - unfold chunk_truncate, nextOffset. unfold chunk_size in *. pose proof (zlen_nonneg (chunk_data ch)).
    rewrite (wrap_small (_ + _)) by lia. replace (n >=? _) with false by lia.
    replace ((n =? 0) || _) with false by lia. rewrite (wrap_small (n - _)) by lia.
    replace (_ <=? zlen (chunk_data ch)) with true by lia. cbn [mbind outcome_bind].
    rewrite (wrap_small (_ + 1)) by (unfold zlen, SIZE_MAX in *; lia).
    unfold ztake at 1 3. replace (Z.to_nat (Z.of_nat k + 1)) with (S k) by lia.
    rewrite (take_S_r _ k (mkChunk (ztake (n - chunk_offset ch) (chunk_data ch)) (chunk_offset ch)))
      by (by rewrite list_lookup_insert_eq).
    rewrite take_insert_ge by lia. apply Hdone; [done|done|].
    rewrite length_app, length_take. cbn. lia.
Qed.

(** ** Prepending *)

(** Data that fits in one chunk is put in front; the chunk offsets need not be
    those of the bytes afterwards. *)
Lemma bc_prepend_spec buf c :
  bc_ok c -> 0 < zlen buf <= m_maxChunkSize c ->
  zlen (m_chunksVector c) + 1 <= m_maxChunks c -> bc_in_memory (zlen buf) c ->
  zlen (bc_contents c) + zlen buf + blockSize < SIZE_MOD ->
  exists c', bc_append2 buf true c = Ret (c', Some (zlen buf)) /\
    bc_ok c' /\ bc_contents c' = buf ++ bc_contents c.
Proof.
  intros (Hm & Hs & Hbd) Hl Hmc Hmem Hb. pose proof (zlen_nonneg (bc_contents c)).
  unfold blockSize, KB_MULT in *. unfold bc_append2. rewrite Hm.
  rewrite bc_size_ok by done. rewrite check_overflow_false by (unfold is_size; lia).
  replace (negb _ && _) with false by (destruct Hmem; lia).
  unfold bc_append_fuel. replace (m_maxChunkSize c =? 0) with false by lia.
  rewrite Nat.add_1_r. destruct buf as [|x buf]; [by destruct Hl|]. set (b := x :: buf) in *.
  change (bc_append_loop (S (length b)) b true 0 c) with
    (if zlen (m_chunksVector c) + 1 >? m_maxChunks c then Ret (c, Some 0)
     else
       let chunk := ztake (Z.min (zlen b) (m_maxChunkSize c)) b in
       let c := bc_set_vector (mkChunk chunk 0 :: m_chunksVector c) c in
       let c := bc_setContainerBytes (wrap (bc_size c + zlen chunk)) c in
       bc_append_loop (length b) (zdrop (Z.min (zlen b) (m_maxChunkSize c)) b) true
         (wrap (0 + zlen chunk)) c).
  replace (_ >? m_maxChunks c) with false by lia. cbv zeta. bc_simpl.
  rewrite ztake_min_len, zdrop_min_len, ztake_ge, zdrop_ge by lia.
  assert (bc_size (bc_set_vector (mkChunk b 0 :: m_chunksVector c) c) = zlen (bc_contents c)) as ->.
  { unfold bc_size. bc_simpl. by rewrite Hm. }
  rewrite !wrap_small by lia. cbn [length bc_append_loop]. rewrite Z.add_0_l.
  eexists. split; [done|]. unfold bc_ok.
  assert (forall n, bc_contents (recalcChunkOffsets (bc_setContainerBytes n
    (bc_set_vector (mkChunk b 0 :: m_chunksVector c) c))) = b ++ bc_contents c) as Hc.
  { intros n. unfold bc_contents. bc_simpl. by rewrite recalcOffsets_bytes. }
  rewrite Hc. split; [|done]. bc_simpl. rewrite zlen_app. split_and!; [done|lia|].
  unfold blockSize, KB_MULT. lia.
Qed.
End Theory.

(** ** Properties *)

(** A file system on which no file can be created: enough to run a container
    that stays in memory. *)
Definition no_files : MMapFile B_MEM := {|
  referenceFile _ _ _ := None;
  setDeleteFileOnDestruction _ m := m |}.

(** [B_Chunks(str)] with the chunk size set to [n] first. *)
Definition chunked (n : Z) (str : bytes) : outcome (B_Chunks B_MEM) :=
  '(c, _) ← Container.append (H := bc_container (MMapFile0 := no_files)) str (setMaxChunkSize n bc_new);
  Ret c.

(** The binary search over the chunk offsets
    ([B_Chunks::I_Chunk_GetPosForOffset]) always answers, and it is exact: for an
    offset inside the container it returns the index of the chunk that holds
    that byte, for an offset past the end it returns [MAX_SIZE_T]. *)
Theorem I_Chunk_GetPosForOffset_correct (v : list BinaryContainerChunk) (off : Z) :
  contiguous 0 v -> zlen (chunks_bytes v) < SIZE_MOD -> zlen v < SIZE_MAX -> 0 <= off ->
  if off <? zlen (chunks_bytes v) then
    exists k ch, I_Chunk_GetPosForOffset off v = Ret (Z.of_nat k) /\ v !! k = Some ch /\
      chunk_offset ch <= off < chunk_offset ch + chunk_size ch
  else I_Chunk_GetPosForOffset off v = Ret SIZE_MAX.
Proof.
  intros Hc Hb Hl Ho. destruct (Z.ltb_spec off (zlen (chunks_bytes v))).
  - destruct (I_Chunk_GetPosForOffset_found v off Hc Hb Hl ltac:(lia)) as (k & ch & Hr & Hk & Hco).
    exists k, ch. rewrite (containsOffset_spec v k ch off Hc Hb Hk) in Hco. split_and!; try done; lia.
  - by apply I_Chunk_GetPosForOffset_past.
Qed.

Lemma I_Chunk_GetPosForOffset_correct_witness :
  let v := [mkChunk (bs "ab") 0; mkChunk (bs "cde") 2; mkChunk [] 5; mkChunk (bs "f") 5] in
  I_Chunk_GetPosForOffset 5 v = Ret 3 /\
  exists k ch, I_Chunk_GetPosForOffset 5 v = Ret (Z.of_nat k) /\ v !! k = Some ch /\
    chunk_offset ch <= 5 < chunk_offset ch + chunk_size ch.
Proof.
  split; [reflexivity|].
  refine (I_Chunk_GetPosForOffset_correct
    [mkChunk (bs "ab") 0; mkChunk (bs "cde") 2; mkChunk [] 5; mkChunk (bs "f") 5] 5 _ _ _ _).
  - repeat split.
  - reflexivity.
  - reflexivity.
  - discriminate.
Defined.

Section Properties.
Context {M : Type} `{Container M} `{!MMapFile M}.
Implicit Types c : B_Chunks M.

(** Appending to a chunked container ([B_Base::append] over
    [B_Chunks::append2]) and reading it back: a writable container with room for
    the data accepts all of it, its offsets stay consistent, and [toString()]
    is the old content followed by the data, however the data was cut into
    chunks. *)
Theorem append_toString (c : B_Chunks M) (data : bytes) :
  bc_offsets_ok c -> m_readOnly (bc_base c) = false -> data <> [] ->
  zlen data + zlen (bc_contents c) <= m_maxSize (bc_base c) ->
  zlen (bc_contents c) + zlen data + blockSize < SIZE_MOD ->
  0 < m_maxChunkSize c -> m_maxChunks c < SIZE_MAX -> bc_in_memory (zlen data) c ->
  zlen (m_chunksVector c) + chunks_needed (zlen data) (m_maxChunkSize c) <= m_maxChunks c ->
  exists c', Container.append data c = Ret (c', Some (zlen data)) /\ bc_offsets_ok c' /\
    toString SIZE_MAX 0 c' = Ret (Some (bc_contents c ++ data)).
Proof.
  intros Hok Hro Hne Hmax Hb Hcs Hmc Hmem Hroom.
  destruct (bc_append2_spec data c Hok Hcs Hmc Hmem Hb) as (c' & r & Ha & _ & Hok' & Hc' & Hall).
  specialize (Hall Hroom) as ->. rewrite ztake_ge in Hc' by lia.
  exists c'. split_and!; [|done|].
  - pose proof (zlen_nonneg data). pose proof (zlen_nonneg (bc_contents c)).
    unfold blockSize, KB_MULT in *. unfold Container.append. cbn [get_base bc_container csize].
    rewrite Hro, bc_size_ok by apply Hok. rewrite check_overflow_false by (unfold is_size; lia).
    rewrite wrap_small by lia. replace (_ >? m_maxSize _) with false by lia.
    replace (zlen data =? 0) with false; [done|].
    symmetry. apply Z.eqb_neq. intros E. by apply zlen_zero_nil in E.
  - rewrite toString_all by done. by rewrite <- Hc'.
Qed.

(** C21. [find] over a chunked container, case sensitive: the answer is the
    first place at or after the offset where the needle occurs, also when an
    occurrence spans several chunks, and [nullopt] means there is none. *)
Theorem chunks_find_first (c : B_Chunks M) (needle : bytes) (off : Z) :
  bc_ok c -> needle <> [] -> Forall is_byte needle -> 0 <= off <= zlen (bc_contents c) ->
  off + zlen needle < SIZE_MOD ->
  exists r, find needle true off 0 c = Ret r /\
    first_occurrence true needle (bc_contents c) off r.
Proof.
  intros Hok Hne Hby Ho Hov. eexists. split; [|by apply search_first].
  pose proof (zlen_nonneg needle). pose proof (find_spec c needle true off) as Hf.
  change (contents c) with (bc_contents c) in Hf. change (contents_ok c) with (bc_ok c) in Hf.
  apply Hf; try done; [unfold is_size; lia| |lia|lia].
  intros x Hx. destruct needle as [|y needle]; [done|]. cbn in *. apply Z.eqb_eq in Hx as ->.
  inversion Hby as [|? ? Hy _]; subst. unfold bc_match. rewrite of_to_char by done. cbn [andb].
  destruct (isalpha y) eqn:Ea; [|apply Z.eqb_refl].
  rewrite to_char_alpha by done. by apply letter_cases.
Qed.
End Properties.

(** [displace] and [truncate] over a chunked container
    ([B_Chunks::displace2], [B_Chunks::truncate2]): displacing [n] bytes removes
    exactly the first [n], truncating to [n] keeps exactly the first [n], across
    chunk borders, and both keep the byte count right. *)
Theorem displace_truncate_contents {M} `{Container M} `{!MMapFile M} (c : B_Chunks M) (n : Z) :
  bc_offsets_ok c -> 0 <= n < zlen (bc_contents c) ->
  (exists c', displace n c = Ret (c', Some n) /\ bc_ok c' /\
     bc_contents c' = zdrop n (bc_contents c)) /\
  (exists c', truncate n c = Ret (c', Some n) /\ bc_offsets_ok c' /\
     bc_contents c' = ztake n (bc_contents c)).
Proof.
  intros Hok Hn. split.
  - destruct (bc_displace2_spec n c) as (c' & Hd & Hok' & Hc' & _); [apply Hok|lia|].
    exists c'. unfold displace. cbn [csize displace2 bc_container]. rewrite bc_size_ok by apply Hok.
    rewrite Z.min_l by lia. rewrite Hd, Z.min_l by lia. auto.
  - destruct (bc_truncate2_spec n c Hok Hn) as (c' & Ht & Hok' & Hc').
    exists c'. unfold truncate. cbn [csize truncate2 bc_container]. rewrite bc_size_ok by apply Hok.
    replace (n >=? _) with false by lia. auto.
Qed.

(** A container of three chunks, built by the code. *)
Definition three_chunks : B_Chunks B_MEM :=
  match chunked 4 (bs "abcdefghij") with Ret c => c | _ => bc_new end.

Lemma three_chunks_ok : bc_offsets_ok three_chunks.
Proof. unfold bc_offsets_ok, bc_ok. by vm_compute. Qed.

Lemma append_toString_witness :
  exists c', Container.append (H := bc_container (MMapFile0 := no_files)) (bs "klm") three_chunks
    = Ret (c', Some 3) /\ bc_offsets_ok c' /\
    toString (H := bc_container (MMapFile0 := no_files)) SIZE_MAX 0 c'
      = Ret (Some (bs "abcdefghijklm")).
Proof.
  refine (append_toString (MMapFile0 := no_files) three_chunks (bs "klm") three_chunks_ok _ _ _ _ _ _ _ _);
    first [reflexivity | discriminate | by left | by vm_compute].
Defined.

Lemma chunks_find_first_witness :
  exists r, find (H := bc_container (MMapFile0 := no_files)) (bs "def") true 1 0 three_chunks = Ret r /\
    first_occurrence true (bs "def") (bc_contents three_chunks) 1 r.
Proof.
  refine (chunks_find_first (MMapFile0 := no_files) three_chunks (bs "def") 1 (proj1 three_chunks_ok) _ _ _ _).
  - discriminate.
  - repeat constructor; discriminate.
  - split; discriminate.
  - reflexivity.
Defined.

Lemma displace_truncate_contents_witness :
  0 <= 5 < zlen (bc_contents three_chunks) /\
  (exists c', displace (H := bc_container (MMapFile0 := no_files)) 5 three_chunks = Ret (c', Some 5) /\
     bc_ok c' /\ bc_contents c' = bs "fghij") /\
  (exists c', truncate (H := bc_container (MMapFile0 := no_files)) 5 three_chunks = Ret (c', Some 5) /\
     bc_offsets_ok c' /\ bc_contents c' = bs "abcde").
Proof.
  split; [split; [discriminate|reflexivity]|].
  refine (displace_truncate_contents (MMapFile0 := no_files) three_chunks 5 three_chunks_ok _).
  split; [discriminate|reflexivity].
Defined.

(** The defect of [B_Chunks::recalcChunkOffsets], whose loop never moves to
    the next chunk: after [displace(2)] on three chunks the container still has
    the right bytes and size, but its first chunk claims offset 4 instead of 0,
    the offset search fails and [toString()] is the empty string. *)
Theorem displace_breaks_toString :
  exists c, displace (H := bc_container (MMapFile0 := no_files)) 2 three_chunks = Ret (c, Some 2) /\
    bc_contents c = bs "cdefghij" /\ bc_size c = 8 /\
    I_Chunk_GetPosForOffset 0 (m_chunksVector c) = Ret SIZE_MAX /\
    toString (H := bc_container (MMapFile0 := no_files)) SIZE_MAX 0 c = Ret (Some []).
Proof. eexists. split; [vm_compute; reflexivity|]. by vm_compute. Qed.

(** The defect of prepending in [B_Chunks::append2]: data longer than a
    chunk is put in front chunk by chunk, so its chunks end up in reverse order. *)
Theorem prepend_reverses_chunks :
  exists c, prepend (H := bc_container (MMapFile0 := no_files)) (bs "12345678") three_chunks
              = Ret (c, Some 8) /\
    bc_contents c = bs "56781234abcdefghij".
Proof. eexists. split; [vm_compute; reflexivity|]. by vm_compute. Qed.

(** The inverted test of [B_Chunks::findChar]: a search that is not case
    sensitive looks for the first character in its own case only, so [find]
    misses an occurrence written in the other case. *)
Theorem find_case_insensitive_misses :
  find (H := bc_container (MMapFile0 := no_files)) (bs "DEF") false 0 0 three_chunks = Ret None /\
  ~ first_occurrence false (bs "DEF") (bc_contents three_chunks) 0 None.
Proof.
  split; [by vm_compute|]. intros Hf. apply (Hf 3); [split; discriminate|]. by vm_compute.
Qed.
