(* ===== verification/ChunkBuffer.v ===== *)
(** * Chunk containers as buffers and sinks

    The part of the behaviour of [B_Chunks] its clients rely on: appending,
    clearing and searching a container that stays in memory ([buffer_ready]),
    and the promise of a sink ([SinkSpec]) for the writes it gets from the
    streams. *)

From S2P Require Import Prelude SafeInt Mem Streamable Container ContainerTheory BMem BChunks.
From Stdlib Require Import ZArith Lia.

(** ** Containers that buffer

    [buffer_ready c]: a chunk container in memory, with
    consistent offsets, no empty chunk, and the limits of its constructor. *)
Section Theory.
Context {M : Type} `{Container M} `{!MMapFile M}.
Implicit Types c : B_Chunks M.

Record buffer_ready c : Prop := {
  br_ok : bc_offsets_ok c;
  br_writable : m_readOnly (bc_base c) = false;
  br_memory : m_maxSizeInMemoryBeforeMovingToDisk c = 0;
  br_chunkSize : 0 < m_maxChunkSize c;
  br_maxChunks : m_maxChunks c < SIZE_MAX;
  br_chunks : zlen (m_chunksVector c) <= zlen (bc_contents c);
  br_left : zlen (bc_contents c) <= m_maxSize (bc_base c) < SIZE_MOD }.

(** What an append leaves alone. *)
Definition same_limits c c' : Prop :=
  m_maxChunks c' = m_maxChunks c /\ m_maxChunkSize c' = m_maxChunkSize c /\
  m_maxSizeInMemoryBeforeMovingToDisk c' = m_maxSizeInMemoryBeforeMovingToDisk c /\
  m_mmapContainer c' = m_mmapContainer c /\
  m_readOnly (bc_base c') = m_readOnly (bc_base c) /\
  m_maxSize (bc_base c') = m_maxSize (bc_base c) /\
  m_writeStatus (bc_base c') = m_writeStatus (bc_base c).

Lemma same_limits_trans c1 c2 c3 : same_limits c1 c2 -> same_limits c2 c3 -> same_limits c1 c3.
Proof. unfold same_limits. intuition congruence. Qed.

Lemma bc_append_loop_limits fuel buf n c c' r :
  bc_append_loop fuel buf false n c = Ret (c', r) -> same_limits c c'.
Proof.
  revert buf n c. induction fuel as [|fuel IH]; intros buf n c; destruct buf as [|x buf];
    cbn [bc_append_loop]; try done.
  1, 2: intros [= <- <-]; done.
  destruct (_ >? _); [by intros [= <- <-]|]. intros Hr. apply IH in Hr.
  eapply same_limits_trans; [|exact Hr]. done.
Qed.

(** Each chunk an append adds holds at least one byte. *)
Lemma bc_append_loop_nonempty fuel buf n c c' r :
  0 < m_maxChunkSize c -> zlen (m_chunksVector c) <= zlen (bc_contents c) ->
  bc_append_loop fuel buf false n c = Ret (c', r) ->
  zlen (m_chunksVector c') <= zlen (bc_contents c').
Proof.
  revert buf n c. induction fuel as [|fuel IH]; intros buf n c Hs Hl; destruct buf as [|x buf];
    cbn [bc_append_loop]; try done.
  1, 2: intros [= <- <-]; done.
  destruct (_ >? _); [by intros [= <- <-]|].
  pose proof (zlen_nonneg buf). apply IH; [done|]. cbn [negb chunk_data chunk_copy]. unfold bc_contents. bc_simpl.
  set (piece := ztake _ (x :: buf)).
  assert (1 <= zlen piece) by (unfold piece; rewrite zlen_ztake, zlen_cons; lia).
  destruct (last (m_chunksVector c)) as [l|] eqn:El.
  - rewrite chunks_bytes_snoc, !zlen_app, zlen_cons, zlen_nil. unfold bc_contents in Hl. lia.
  - change (zlen [_]) with 1. rewrite chunks_bytes_cons, zlen_app. cbn [chunk_data].
    pose proof (zlen_nonneg (chunks_bytes [])). lia.
Qed.

(** Appending data that fits. *)
Lemma append_ready c data :
  buffer_ready c -> data <> [] -> zlen (bc_contents c) + zlen data <= m_maxSize (bc_base c) ->
  zlen (bc_contents c) + zlen data <= m_maxChunks c ->
  zlen (bc_contents c) + zlen data + blockSize < SIZE_MOD ->
  exists c', Container.append data c = Ret (c', Some (zlen data)) /\ buffer_ready c' /\
    bc_contents c' = bc_contents c ++ data /\ same_limits c c'.
Proof.
  intros [Hok Hw Hmem Hcs Hmc Hch Hleft] Hne Hmax Hroom Hb.
  pose proof (zlen_nonneg data). pose proof (zlen_nonneg (bc_contents c)).
  assert (0 < zlen data) as Hpos.
  { destruct (Z.eq_dec (zlen data) 0) as [E|]; [by apply zlen_zero_nil in E|lia]. }
  assert (Container.append data c = bc_append2 data false c) as Happ.
  { unfold blockSize, KB_MULT in *. unfold Container.append. cbn [get_base bc_container csize].
    rewrite Hw, bc_size_ok by apply Hok. rewrite check_overflow_false by (unfold is_size; lia).
    rewrite wrap_small by lia. replace (_ >? m_maxSize _) with false by lia.
    by replace (zlen data =? 0) with false by lia. }
  destruct (bc_append2_spec data c Hok Hcs Hmc) as (c' & r & Ha & _ & Hok' & Hc' & Hall);
    [by left|done|].
  rewrite Happ. assert (r = zlen data) as ->.
  { apply Hall. unfold chunks_needed. assert ((zlen data + m_maxChunkSize c - 1) / m_maxChunkSize c <= zlen data); [|lia].
    apply Z.div_le_upper_bound; [done|]. nia. }
  rewrite ztake_ge in Hc' by lia. exists c'. split; [done|].
  unfold bc_append2 in Ha. rewrite (proj1 (proj1 Hok)) in Ha. rewrite bc_size_ok in Ha by apply Hok.
  rewrite check_overflow_false in Ha by (unfold is_size, blockSize, KB_MULT in *; lia).
  rewrite Hmem in Ha. cbn [Z.eqb negb andb] in Ha.
  pose proof (bc_append_loop_limits _ _ _ _ _ _ Ha) as Hlim.
  pose proof (bc_append_loop_nonempty _ _ _ _ _ _ Hcs Hch Ha) as Hne'.
  pose proof Hlim as (E1 & E2 & E3 & E4 & E5 & E6 & _).
  split; [|done]. split; try congruence.
  rewrite Hc', zlen_app, E6. lia.
Qed.

(** Clearing empties the buffer and keeps its limits. *)
Lemma clear_ready c :
  buffer_ready c ->
  buffer_ready (Container.clear c).1 /\ bc_contents (Container.clear c).1 = [] /\
  same_limits c (Container.clear c).1.
Proof.
  intros [Hok Hw Hmem Hcs Hmc Hch Hleft]. pose proof (zlen_nonneg (bc_contents c)).
  split_and!; [|done|by repeat split; rewrite ?(proj1 (proj1 Hok))].
  split; try done. change (0 <= m_maxSize (bc_base c) < SIZE_MOD). lia.
Qed.

(** Clearing after the size limit was changed. *)
Lemma clear_resized_ready c k :
  buffer_ready c -> 0 <= k < SIZE_MOD ->
  let c' := (Container.clear (setMaxSize k c)).1 in
  buffer_ready c' /\ bc_contents c' = [] /\ m_maxChunks c' = m_maxChunks c /\
  m_maxSize (bc_base c') = k.
Proof.
  intros [Hok Hw Hmem Hcs Hmc Hch Hleft] Hk. split_and!; [|done..].
  by split.
Qed.

(** Searching the buffer. *)
Lemma find_ready c needle :
  buffer_ready c -> needle <> [] -> Forall is_byte needle -> zlen needle < SIZE_MOD ->
  find needle true 0 0 c = Ret (search true needle (bc_contents c)).
Proof.
  intros Hr Hne Hby Hl. pose proof (zlen_nonneg needle). pose proof (zlen_nonneg (bc_contents c)).
  pose proof (find_spec c needle true 0) as Hf.
  change (contents c) with (bc_contents c) in Hf. change (contents_ok c) with (bc_ok c) in Hf.
  rewrite Hf; [|apply Hr|done|done| |lia|lia|lia].
  - rewrite zdrop_le0 by lia. f_equal. by destruct (search true needle (bc_contents c)).
  - intros x Hx. destruct needle as [|y needle]; [done|]. cbn in *. apply Z.eqb_eq in Hx as ->.
    inversion Hby as [|? ? Hy _]; subst. unfold bc_match. rewrite of_to_char by done. cbn [andb].
    destruct (isalpha y) eqn:Ea; [|apply Z.eqb_refl].
    rewrite to_char_alpha by done. by apply letter_cases.
Qed.
End Theory.

Lemma buffer_ready_new {M} `{Container M} `{!MMapFile M} (n : Z) :
  0 <= n < SIZE_MOD -> buffer_ready (M := M) (setMaxSize n bc_new).
Proof.
  intros Hn. split; try reflexivity; [|exact Hn].
  unfold bc_offsets_ok, bc_ok. by vm_compute.
Qed.

(** ** Chunk containers as sinks *)
Section Sink.
Context {M : Type} `{Container M} `{!MMapFile M}.

(** Room for the data, for one chunk per byte, and in the counters. *)
Definition bc_room (c : B_Chunks M) : Z :=
  Z.min (Z.min (status_room (m_writeStatus (bc_base c))) (SIZE_MOD - blockSize - 1 - zlen (bc_contents c)))
    (Z.min (m_maxSize (bc_base c) - zlen (bc_contents c)) (m_maxChunks c - zlen (bc_contents c))).

#[export] Program Instance bc_sink_spec : SinkSpec (B_Chunks M) := {|
  sink_rep c acc := buffer_ready c /\ bc_contents c = acc /\ 0 <= bytesWritten (m_writeStatus (bc_base c));
  sink_room := bc_room |}.
Next Obligation.
  intros d c acc (Hr & <- & Hb) Hd. unfold bc_room in *.
  set (room := status_room (m_writeStatus (bc_base c))) in *.
  destruct (append_ready c d) as (c' & Ha & Hr' & Hc' & Hlim); [done| |lia..|].
  { intros ->. by destruct Hd. }
  destruct (status_room_add (m_writeStatus (bc_base c)) (zlen d) Hb) as [Hw Hroom]; [fold room; lia|].
  fold room in Hroom. destruct Hlim as (E1 & _ & _ & _ & _ & E6 & E7).
  cbn [sink_write container_sink]. unfold write. rewrite Ha. cbn [mbind outcome_bind get_base bc_container].
  rewrite E7, Hw. cbn [mbind outcome_bind].
  eexists _, (zlen d). split; [done|]. split; [lia|]. rewrite (ztake_ge (zlen d)) by lia.
  unfold container_set_status. cbn [set_base get_base bc_container bc_set_base bc_base].
  split; [split_and!|].
  - destruct Hr'. split; try done.
  - exact Hc'.
  - cbn [base_set_status m_writeStatus bytesWritten]. lia.
  - split; [|done].
    change (bc_contents (bc_set_base ?b c')) with (bc_contents c').
    cbn [base_set_status m_writeStatus bc_base m_maxSize m_maxChunks bc_set_base].
    rewrite Hc', zlen_app, E1, E6. lia.
Qed.

Lemma bc_new_rep : sink_rep (bc_new (M := M)) [].
Proof.
  by split; [split|].
Qed.

Lemma bc_new_room : sink_room (bc_new (M := M)) = 262144.
Proof. reflexivity. Qed.
End Sink.
