(* ===== verification/BRef.v ===== *)
(** * References to other containers (Memory/b_ref.cpp)

    A [B_Ref] is a window on another container it does not own.  The C++ object
    holds a pointer to that container; here the container is carried beside the
    fields of the reference, and the pair is again a container: an operation on
    the pair reads or updates the target that the pointer designates.

    The theorems show that a reference in range reads exactly the window of the
    target, and that comparing through a reference is always true. *)

From S2P Require Import Prelude SafeInt Mem Streamable Container ContainerTheory BMem.
From Stdlib Require Import ZArith Lia.

Record B_Ref := mkRef {
  ref_base : base;
  referencedBC : bool;   (** the pointer is not null *)
  referencedOffset : Z;
  referencedMaxBytes : Z }.

Definition ref_set_base (b : base) (r : B_Ref) : B_Ref :=
  mkRef b (referencedBC r) (referencedOffset r) (referencedMaxBytes r).

Section B_Ref.
Context {C : Type} `{Container C}.
Implicit Types (r : B_Ref) (bc : C) (rc : B_Ref * C).

(** [reference(bc, offset, maxBytes)]. *)
Definition ref_reference (bc : C) (offset maxBytes : Z) (r : B_Ref) : B_Ref * bool :=
  if offset >? csize bc then (r, false)
  else (mkRef (base_set_readOnly true (ref_base r)) true offset maxBytes, true).

(** [B_Ref()]: no target; the window fields get values with the first
    reference only, and nothing reads them before. *)
Definition ref_new : B_Ref := mkRef base_init false 0 0.

Definition ref_size rc : Z :=
  let '(r, bc) := rc in
  if negb (referencedBC r) then 0
  else
    let availableBytes := wrap (csize bc - referencedOffset r) in
    if (referencedMaxBytes r =? SIZE_MAX) || (referencedMaxBytes r >? availableBytes)
    then availableBytes else referencedMaxBytes r.

Definition ref_findChar (ch offset searchSpace : Z) (caseSensitive : bool) rc :
    outcome (option Z) :=
  let '(r, bc) := rc in
  if negb (referencedBC r) then Ret None
  else
    let caseSensitive :=
      if caseSensitive && negb (isalpha (of_char ch)) then false else caseSensitive in
    findChar ch (wrap (referencedOffset r + offset)) searchSpace caseSensitive bc.

Definition ref_truncate2 (n : Z) rc : outcome ((B_Ref * C) * option Z) :=
  let '(r, bc) := rc in
  Ret ((mkRef (ref_base r) (referencedBC r) (referencedOffset r) n, bc), Some n).

Definition ref_append2 (buf : bytes) (prependMode : bool) rc : outcome ((B_Ref * C) * option Z) :=
  let '(r, bc) := rc in
  if negb (referencedBC r) then Ret (rc, None)
  else
    '(bc, n) ← (if prependMode then prepend buf bc else append buf bc);
    Ret ((r, bc), n).

Definition ref_displace2 (n : Z) rc : outcome ((B_Ref * C) * option Z) :=
  let '(r, bc) := rc in
  let bytesToDisplace := n in
  if negb (referencedBC r) then Ret (rc, None)
  else
    let bytesToDisplace := if bytesToDisplace >? ref_size rc then ref_size rc else bytesToDisplace in
    let maxBytes :=
      if negb (referencedMaxBytes r =? SIZE_MAX)
      then wrap (referencedMaxBytes r - bytesToDisplace) else referencedMaxBytes r in
    Ret ((mkRef (ref_base r) (referencedBC r) (wrap (referencedOffset r + bytesToDisplace)) maxBytes,
          bc), Some bytesToDisplace).

Definition ref_clear2 rc : (B_Ref * C) * bool :=
  let '(r, bc) := rc in
  ((mkRef (ref_base r) false (referencedOffset r) (referencedMaxBytes r), bc), true).

Definition ref_copyToStream2 {O} `{OStream O} (out : O) (n offset : Z) rc : outcome (O * option Z) :=
  let '(r, bc) := rc in
  if negb (referencedBC r) then Ret (out, None)
  else if offset >? ref_size rc then Ret (out, None)
  else
    let bytesToCopy := Z.min n (ref_size rc - offset) in
    copyToStream out bytesToCopy (wrap (referencedOffset r + offset)) bc.

(** The assignment [bc.writeStatus.succeed = false]. *)
Definition status_failed {S} `{Sink S} (s : S) : S :=
  let ws := sink_status s in
  sink_set_status (mkWriteStatus false (finished ws) (bytesWritten ws) (writeError ws)) s.

Definition ref_copyToStreamableObject2 {S} `{Sink S} (out : S) (n offset : Z) rc :
    outcome (S * option Z) :=
  let '(r, bc) := rc in
  if negb (referencedBC r) then Ret (status_failed out, None)
  else if offset >? ref_size rc then Ret (status_failed out, None)
  else
    let bytesToCopy := Z.min n (ref_size rc - offset) in
    appendTo out bytesToCopy (wrap (referencedOffset r + offset)) bc.

Definition ref_copyToBuffer2 (n offset : Z) rc : outcome (option bytes) :=
  let '(r, bc) := rc in
  if negb (referencedBC r) then Ret None
  else if offset >? ref_size rc then Ret None
  else
    let bytesToCopy := Z.min n (ref_size rc - offset) in
    copyOut bytesToCopy (wrap (referencedOffset r + offset)) bc.

Definition ref_compare2 (buf : bytes) (caseSensitive : bool) (offset : Z) rc : outcome bool :=
  let '(r, bc) := rc in
  if negb (referencedBC r) then Ret false
  else if offset >? ref_size rc then Ret false
  else
    let bytesToCompare := Z.min (zlen buf) (ref_size rc - offset) in
    compare (ztake bytesToCompare buf) caseSensitive (wrap (referencedOffset r + offset)) bc.

#[export] Instance ref_container : Container (B_Ref * C) := {|
  get_base rc := ref_base rc.1;
  set_base b rc := (ref_set_base b rc.1, rc.2);
  csize := ref_size;
  truncate2 := ref_truncate2;
  append2 := ref_append2;
  displace2 := ref_displace2;
  clear2 := ref_clear2;
  copyToStream2 O H := @ref_copyToStream2 O H;
  copyToStreamableObject2 S H := @ref_copyToStreamableObject2 S H;
  copyToBuffer2 := ref_copyToBuffer2;
  compare2 := ref_compare2;
  findChar := ref_findChar |}.
End B_Ref.

(** ** What a reference shows *)
Section Theory.
Context {C : Type} `{ContentsSpec C}.
Implicit Types (r : B_Ref) (bc : C) (rc : B_Ref * C).

Definition ref_contents rc : bytes :=
  let l := zdrop (referencedOffset rc.1) (contents rc.2) in
  if referencedMaxBytes rc.1 =? SIZE_MAX then l else ztake (referencedMaxBytes rc.1) l.

(** The reference has a target and starts inside it. *)
Definition ref_ok rc : Prop :=
  contents_ok rc.2 /\ referencedBC rc.1 = true /\
  0 <= referencedOffset rc.1 <= zlen (contents rc.2) /\
  0 <= referencedMaxBytes rc.1 < SIZE_MOD.

Lemma ref_contents_len rc :
  ref_ok rc ->
  zlen (ref_contents rc) = if referencedMaxBytes rc.1 =? SIZE_MAX
    then zlen (contents rc.2) - referencedOffset rc.1
    else Z.min (referencedMaxBytes rc.1) (zlen (contents rc.2) - referencedOffset rc.1).
Proof.
  intros (_ & _ & Ho & Hm). unfold ref_contents.
  destruct (_ =? SIZE_MAX); rewrite ?zlen_ztake, zlen_zdrop; lia.
Qed.

Lemma ref_size_ok rc : ref_ok rc -> ref_size rc = zlen (ref_contents rc).
Proof.
  intros Hok. rewrite ref_contents_len by done. destruct rc as [r bc], Hok as (Hc & Hr & Ho & Hm).
  cbn [fst snd] in *. unfold ref_size. rewrite Hr. cbn [negb]. rewrite csize_ok by done.
  pose proof (csize_bound bc Hc). unfold blockSize, KB_MULT in *. rewrite wrap_small by lia.
  destruct (Z.eqb_spec (referencedMaxBytes r) SIZE_MAX); cbn [orb]; [done|].
  destruct (Z.gtb_spec (referencedMaxBytes r) (zlen (contents bc) - referencedOffset r)); lia.
Qed.

#[export] Program Instance ref_contents_spec : ContentsSpec (B_Ref * C) := {|
  contents := ref_contents; contents_ok := ref_ok |}.
Next Obligation. intros. by apply ref_size_ok. Qed.
Next Obligation.
  intros rc Hok. rewrite ref_contents_len by done. destruct Hok as (Hc & _ & Ho & _).
  pose proof (csize_bound rc.2 Hc). destruct (_ =? SIZE_MAX); lia.
Qed.

(** A piece of the window is a piece of the target. *)
Lemma ref_slice rc off n :
  ref_ok rc -> 0 <= off -> 0 <= n -> off + n <= zlen (ref_contents rc) ->
  slice off n (ref_contents rc) = slice (referencedOffset rc.1 + off) n (contents rc.2).
Proof.
  intros Hok Ho Hn Hle. pose proof (ref_contents_len rc Hok) as Hl. rewrite Hl in Hle.
  destruct Hok as (_ & _ & Hro & Hm).
  unfold slice, ref_contents. destruct (_ =? SIZE_MAX); [by rewrite zdrop_zdrop by lia|].
  rewrite <- zdrop_zdrop by lia. unfold ztake, zdrop. rewrite skipn_firstn_comm, take_take. f_equal. lia.
Qed.
End Theory.

Section Append.
Context {C : Type} `{ScanSpec C}.

(** [appendTo] through a reference hands over what the reference shows. *)
Lemma ref_appendTo_all {S} `{SinkSpec S} (rc : B_Ref * C) (s : S) acc :
  ref_ok rc -> sink_rep s acc -> zlen (ref_contents rc) <= sink_room s ->
  exists s', appendTo s SIZE_MAX 0 rc = Ret (s', Some (zlen (ref_contents rc))) /\
    sink_rep s' (acc ++ ref_contents rc) /\
    sink_room s - zlen (ref_contents rc) <= sink_room s'.
Proof.
  intros Hok Hrep Hroom. pose proof (zlen_nonneg (ref_contents rc)). pose proof (ref_contents_len rc Hok) as Hl.
  pose proof (csize_bound rc Hok) as Hb. change (contents rc) with (ref_contents rc) in Hb. unfold blockSize, KB_MULT in Hb.
  unfold appendTo. rewrite (csize_ok rc) by exact Hok. change (contents rc) with (ref_contents rc).
  rewrite Z.eqb_refl. replace (0 >? _) with false by lia. cbn [andb]. rewrite Z.sub_0_r.
  rewrite check_overflow_false by zl.
  destruct (zlen (ref_contents rc) =? 0) eqn:E.
  { exists s. assert (ref_contents rc = []) as -> by (apply zlen_zero_nil; lia).
    rewrite app_nil_r, (@zlen_nil Z). auto with lia. }
  replace (0 + zlen (ref_contents rc) >? _) with false by lia.
  cbn [copyToStreamableObject2 ref_container]. destruct rc as [r bc]. unfold ref_copyToStreamableObject2.
  rewrite (ref_size_ok (r, bc)) by done. pose proof Hok as (Hc & Hr & Ho & Hm). cbn [fst snd] in *. rewrite Hr. cbn [negb].
  replace (0 >? _) with false by lia. rewrite Z.sub_0_r, Z.min_id.
  pose proof (csize_bound bc Hc) as Hbc. unfold blockSize, KB_MULT in Hbc.
  assert (referencedOffset r + zlen (ref_contents (r, bc)) <= zlen (contents bc)) as Hin
    by (rewrite Hl; destruct (_ =? SIZE_MAX); lia).
  rewrite wrap_small by lia.
  destruct (appendTo_spec bc s acc (zlen (ref_contents (r, bc))) (referencedOffset r + 0)) as (s' & Hs & Hd & Hrm);
    try done; try lia.
  exists s'. split; [done|]. split; [|done].
  rewrite <- (slice_all (ref_contents (r, bc))), (ref_slice (r, bc)) by (done || lia). done.
Qed.
End Append.

Section Read.
Context {C : Type} `{ReadSpec C}.

#[export] Program Instance ref_read : ReadSpec (B_Ref * C) := {|
  read_ok rc := ref_ok rc /\ read_ok rc.2 |}.
Next Obligation. by intros rc [Hok _]. Qed.
Next Obligation.
  intros [r bc] n off [Hok Hread] Hoff Hn Hle. change (contents (r, bc)) with (ref_contents (r, bc)) in *.
  cbn [copyToBuffer2 ref_container]. unfold ref_copyToBuffer2.
  rewrite ref_slice by (try done; lia). cbn [fst snd].
  rewrite ref_size_ok by done. pose proof (ref_contents_len (r, bc) Hok) as Hl.
  destruct Hok as (Hc & Hr & Ho & Hm). cbn [fst snd] in *. rewrite Hr. cbn [negb].
  pose proof (csize_bound bc Hc). unfold blockSize, KB_MULT in *.
  assert (zlen (ref_contents (r, bc)) <= zlen (contents bc) - referencedOffset r) as Hle'
    by (rewrite Hl; destruct (_ =? SIZE_MAX); lia).
  replace (off >? _) with false by lia. rewrite Z.min_l by lia. rewrite wrap_small by lia.
  apply copyOut_spec; try done; try lia. unfold SIZE_MAX. lia.
Qed.
End Read.

(** ** Properties *)

(** A reference ([B_Ref::reference], [B_Ref::copyToBuffer2]) taken inside a
    readable container, at an offset and with a limit, reads as exactly that
    window of the target: [toString()] is the target's bytes from the offset,
    cut at the limit. *)
Theorem reference_toString {C} `{ReadSpec C} (bc : C) (offset maxBytes : Z) (r r' : B_Ref) :
  read_ok bc -> 0 <= offset <= zlen (contents bc) -> 0 <= maxBytes < SIZE_MAX ->
  ref_reference bc offset maxBytes r = (r', true) ->
  toString SIZE_MAX 0 (r', bc) = Ret (Some (slice offset maxBytes (contents bc))).
Proof.
  intros Hread Ho Hm Href. unfold ref_reference in Href. rewrite csize_ok in Href by by apply read_contents.
  replace (offset >? _) with false in Href by lia. injection Href as <-.
  rewrite toString_all.
  - change (contents (?r, bc)) with (ref_contents (r, bc)). unfold ref_contents. cbn [fst snd referencedMaxBytes referencedOffset].
    by replace (maxBytes =? SIZE_MAX) with false by lia.
  - split; [|done]. unfold ref_ok. cbn. split_and!; try done; try lia; [by apply read_contents|].
    unfold SIZE_MAX in *. lia.
Qed.

Lemma reference_toString_witness :
  toString SIZE_MAX 0
    ((ref_reference (bm_new (bs "hello world") 11) 6 3 ref_new).1, bm_new (bs "hello world") 11)
    = Ret (Some (bs "wor")).
Proof.
  refine (reference_toString (bm_new (bs "hello world") 11) 6 3 ref_new _ _ _ _ _).
  - split; [split; discriminate|reflexivity].
  - split; discriminate.
  - split; [discriminate|reflexivity].
  - reflexivity.
Defined.

(** Comparing through a reference never looks at the bytes: [compare] of the
    base class returns [true] before it compares, so [B_Ref::compare2] accepts any
    data, and [find] on a reference stops at the first character of the needle
    whatever follows it. *)
Theorem reference_find_ignores_needle :
  let rc := ((ref_reference (bm_new (bs "hello world") 11) 0 SIZE_MAX ref_new).1,
             bm_new (bs "hello world") 11) in
  find (bs "wxyz") true 0 0 rc = Ret (Some 6) /\
  compare2 (bs "wxyz") true 6 rc = Ret true.
Proof. by vm_compute. Qed.
