(* ===== verification/SubParser.v ===== *)
(** * Incremental sub-parsers (Memory/subparser.cpp)

    A [SubParser] buffers the bytes it is given in a chunked container and, when
    its strategy says that an element is complete, exposes the element through
    the reference [m_parsedBuffer] and calls the virtual [parse()].  Every
    strategy of the class is modelled over an arbitrary implementation of
    [parse()] (the class [SubParserImpl]).

    The theorems state, per strategy, when [parse()] is called, on which bytes,
    how many bytes of the input are taken, and what stays buffered; and that the
    delimiter strategy does not depend on how the input is cut into writes. *)

From S2P Require Import Prelude SafeInt Mem Streamable Container ContainerTheory BMem BChunks ChunkBuffer BRef.
From Stdlib Require Import ZArith Lia.

Inductive ParseResult := PR_ERROR | GET_MORE_DATA | GOTO_NEXT_SUBPARSER.

Inductive ParseStrategy :=
| DELIMITER | SIZE | VALIDATOR | CONNECTION_END | DIRECT | DIRECT_DELIMITER | MULTIDELIMITER.

(** The fields of [SubParser]; [sp_sub] are the members a derived class adds. *)
Record SubParser (M X : Type) := mkSubParser {
  m_streamEnded : bool;
  m_parsedBuffer : B_Ref;
  m_unparsedBuffer : B_Chunks M;
  m_parseDelimiter : bytes;
  m_delimiterFound : bytes;
  m_parseMultiDelimiter : list bytes;
  m_parseMode : ParseStrategy;
  m_parseStatus : ParseResult;
  sp_sub : X }.
Arguments mkSubParser {_ _} _ _ _ _ _ _ _ _ _.
Arguments m_streamEnded {_ _} _.
Arguments m_parsedBuffer {_ _} _.
Arguments m_unparsedBuffer {_ _} _.
Arguments m_parseDelimiter {_ _} _.
Arguments m_delimiterFound {_ _} _.
Arguments m_parseMultiDelimiter {_ _} _.
Arguments m_parseMode {_ _} _.
Arguments m_parseStatus {_ _} _.
Arguments sp_sub {_ _} _.

(** What a derived class provides: [parse()], which may read and change the
    whole object, and what [malloc] leaves in a block of a given size. *)
Class SubParserImpl (M X : Type) := {
  parse : SubParser M X -> outcome (SubParser M X * ParseResult);
  malloc_block : Z -> bytes }.

Section SubParser.
Context {M : Type} `{Container M} `{!MMapFile M} {X : Type} `{!SubParserImpl M X}.
Implicit Types p : SubParser M X.

Definition sp_set_streamEnded (v : bool) p : SubParser M X :=
  mkSubParser v (m_parsedBuffer p) (m_unparsedBuffer p) (m_parseDelimiter p) (m_delimiterFound p)
    (m_parseMultiDelimiter p) (m_parseMode p) (m_parseStatus p) (sp_sub p).
Definition sp_set_parsed (v : B_Ref) p : SubParser M X :=
  mkSubParser (m_streamEnded p) v (m_unparsedBuffer p) (m_parseDelimiter p) (m_delimiterFound p)
    (m_parseMultiDelimiter p) (m_parseMode p) (m_parseStatus p) (sp_sub p).
Definition sp_set_unparsed (v : B_Chunks M) p : SubParser M X :=
  mkSubParser (m_streamEnded p) (m_parsedBuffer p) v (m_parseDelimiter p) (m_delimiterFound p)
    (m_parseMultiDelimiter p) (m_parseMode p) (m_parseStatus p) (sp_sub p).
Definition setParseDelimiter (v : bytes) p : SubParser M X :=
  mkSubParser (m_streamEnded p) (m_parsedBuffer p) (m_unparsedBuffer p) v (m_delimiterFound p)
    (m_parseMultiDelimiter p) (m_parseMode p) (m_parseStatus p) (sp_sub p).
Definition sp_set_delimiterFound (v : bytes) p : SubParser M X :=
  mkSubParser (m_streamEnded p) (m_parsedBuffer p) (m_unparsedBuffer p) (m_parseDelimiter p) v
    (m_parseMultiDelimiter p) (m_parseMode p) (m_parseStatus p) (sp_sub p).
Definition setParseMultiDelimiter (v : list bytes) p : SubParser M X :=
  mkSubParser (m_streamEnded p) (m_parsedBuffer p) (m_unparsedBuffer p) (m_parseDelimiter p)
    (m_delimiterFound p) v (m_parseMode p) (m_parseStatus p) (sp_sub p).
Definition sp_set_mode (v : ParseStrategy) p : SubParser M X :=
  mkSubParser (m_streamEnded p) (m_parsedBuffer p) (m_unparsedBuffer p) (m_parseDelimiter p)
    (m_delimiterFound p) (m_parseMultiDelimiter p) v (m_parseStatus p) (sp_sub p).
Definition setParseResult (v : ParseResult) p : SubParser M X :=
  mkSubParser (m_streamEnded p) (m_parsedBuffer p) (m_unparsedBuffer p) (m_parseDelimiter p)
    (m_delimiterFound p) (m_parseMultiDelimiter p) (m_parseMode p) v (sp_sub p).
Definition sp_set_sub (v : X) p : SubParser M X :=
  mkSubParser (m_streamEnded p) (m_parsedBuffer p) (m_unparsedBuffer p) (m_parseDelimiter p)
    (m_delimiterFound p) (m_parseMultiDelimiter p) (m_parseMode p) (m_parseStatus p) v.

Definition sp_new (x : X) : SubParser M X :=
  mkSubParser false ref_new bc_new (bs "" ++ [13; 10]) [] [] DELIMITER GET_MORE_DATA x.

(** [getParsedBuffer()]: the reference, with the buffer it points to. *)
Definition getParsedBuffer p : B_Ref * B_Chunks M := (m_parsedBuffer p, m_unparsedBuffer p).

Definition getUnparsedDataSize p : Z := getSizeLeft (m_unparsedBuffer p).
Definition setParseDataTargetSize (value : Z) p : SubParser M X :=
  sp_set_unparsed (setMaxSize value (m_unparsedBuffer p)) p.
Definition setParseStrategy (value : ParseStrategy) p : SubParser M X :=
  let p := match value with DIRECT => setParseDataTargetSize SIZE_MAX p | _ => p end in
  sp_set_mode value p.

(** [m_unparsedBuffer.clear()] and [clear()]. *)
Definition clear_unparsed p : SubParser M X := sp_set_unparsed (Container.clear (m_unparsedBuffer p)).1 p.
Definition sp_clear p : SubParser M X :=
  let p := clear_unparsed p in
  sp_set_parsed (Container.clear (getParsedBuffer p)).1.1 p.

(** [m_parsedBuffer.reference(&m_unparsedBuffer, offset, maxBytes)]. *)
Definition reference_unparsed (offset maxBytes : Z) p : SubParser M X :=
  sp_set_parsed (ref_reference (m_unparsedBuffer p) offset maxBytes (m_parsedBuffer p)).1 p.

(** [setParseResult(parse())]. *)
Definition run_parse p : outcome (SubParser M X) :=
  '(p, r) ← parse p; Ret (setParseResult r p).

Definition appendToUnparsedBuffer (buf : bytes) p : outcome (SubParser M X * option Z) :=
  let leftSize := getSizeLeft (m_unparsedBuffer p) in
  if (leftSize =? 0) && (zlen buf >? 0) then Ret (p, None)
  else
    let count := Z.min (zlen buf) leftSize in
    if count >? 0 then
      '(c, bytesAppended) ← Container.append (ztake count buf) (m_unparsedBuffer p);
      let p := sp_set_unparsed c p in
      match bytesAppended with
      | Some n => if n =? count then Ret (p, Some n) else Ret (clear_unparsed p, None)
      | None => Ret (clear_unparsed p, None)
      end
    else Ret (p, Some 0).

Definition parseByMultiDelimiter (buf : bytes) p : outcome (SubParser M X * option Z) :=
  let prevSize := bc_size (m_unparsedBuffer p) in
  '(p, bytesAppended) ← appendToUnparsedBuffer buf p;
  match bytesAppended with
  | None => Ret (p, None)
  | Some bytesToDisplace =>
      let p := reference_unparsed 0 SIZE_MAX p in
      '(found, needlePos) ← find_any (m_parseMultiDelimiter p) true 0 0 (m_unparsedBuffer p);
      let p := sp_set_delimiterFound found p in
      match needlePos with
      | Some pos =>
          let p := reference_unparsed 0 pos p in
          p ← run_parse p;
          let p := clear_unparsed p in
          Ret (p, Some (wrap (pos + zlen (m_delimiterFound p) - prevSize)))
      | None =>
          if m_streamEnded p then
            let p := reference_unparsed 0 SIZE_MAX p in
            p ← run_parse p;
            Ret (clear_unparsed p, Some bytesToDisplace)
          else Ret (p, Some bytesToDisplace)
      end
  end.

Definition parseByDelimiter (buf : bytes) p : outcome (SubParser M X * option Z) :=
  let prevSize := bc_size (m_unparsedBuffer p) in
  '(p, bytesAppended) ← appendToUnparsedBuffer buf p;
  match bytesAppended with
  | None => Ret (p, None)
  | Some bytesToDisplace =>
      let p := reference_unparsed 0 SIZE_MAX p in
      needlePos ← find (m_parseDelimiter p) true 0 0 (m_unparsedBuffer p);
      match needlePos with
      | Some pos =>
          let p := reference_unparsed 0 pos p in
          p ← run_parse p;
          let p := clear_unparsed p in
          Ret (p, Some (wrap (wrap (pos - prevSize) + zlen (m_parseDelimiter p))))
      | None =>
          if m_streamEnded p then
            let p := reference_unparsed 0 SIZE_MAX p in
            p ← run_parse p;
            Ret (clear_unparsed p, Some bytesToDisplace)
          else Ret (p, Some bytesToDisplace)
      end
  end.

Definition parseBySize (buf : bytes) p : outcome (SubParser M X * option Z) :=
  if zlen buf =? 0 then Ret (clear_unparsed (setParseResult GOTO_NEXT_SUBPARSER p), Some 0)
  else
    '(p, bytesAppended) ← appendToUnparsedBuffer buf p;
    match bytesAppended with
    | None => Ret (p, None)
    | Some bytesToDisplace =>
        if getSizeLeft (m_unparsedBuffer p) =? 0 then
          let p := reference_unparsed 0 SIZE_MAX p in
          p ← run_parse p;
          Ret (clear_unparsed p, Some bytesToDisplace)
        else Ret (p, Some bytesToDisplace)
    end.

Definition parseByValidator (buf : bytes) p : outcome (SubParser M X * option Z) := Ret (p, None).

Definition parseByConnectionEnd (buf : bytes) p : outcome (SubParser M X * option Z) :=
  '(p, bytesAppended) ← appendToUnparsedBuffer buf p;
  match bytesAppended with
  | None => Ret (p, None)
  | Some bytesToDisplace =>
      if zlen buf =? 0 then
        let p := reference_unparsed 0 SIZE_MAX p in
        p ← run_parse p;
        Ret (clear_unparsed p, Some 0)
      else Ret (p, Some bytesToDisplace)
  end.

Definition parseDirect (buf : bytes) p : outcome (SubParser M X * option Z) :=
  '(p, bytesAppended) ← appendToUnparsedBuffer buf p;
  match bytesAppended with
  | None => Ret (p, None)
  | Some bytesToDisplace =>
      let p := reference_unparsed 0 SIZE_MAX p in
      p ← run_parse p;
      let curBufSize := bc_size (m_unparsedBuffer p) in
      let p := clear_unparsed p in
      c ← reduceMaxSizeBy curBufSize (m_unparsedBuffer p);
      Ret (sp_set_unparsed c p, Some bytesToDisplace)
  end.

(** [referenceLastBytes(bytes)]. *)
Definition referenceLastBytes (n : Z) p : B_Ref :=
  (ref_reference (m_unparsedBuffer p) (wrap (bc_size (m_unparsedBuffer p) - n)) SIZE_MAX ref_new).1.

(** The loop of [getLastBytesInCommon] from [v] down.  A copy that fails or
    falls short leaves what [malloc] returned in the buffer. *)
Fixpoint lastBytes_loop (v : nat) (boundary : bytes) p : outcome Z :=
  match v with
  | O => Ret 0
  | S v' =>
      let ref := (referenceLastBytes (Z.of_nat v) p, m_unparsedBuffer p) in
      let n := ref_size ref in
      out ← copyOut n 0 ref;
      let toCmp := default [] out ++ zdrop (zlen (default [] out)) (malloc_block n) in
      r ← memcmp toCmp (boundary ++ [0]) n;
      if r =? 0 then Ret (Z.of_nat v) else lastBytes_loop v' boundary p
  end.

Definition getLastBytesInCommon (boundary : bytes) p : outcome Z :=
  let maxBoundary := Z.min (bc_size (m_unparsedBuffer p)) (wrap (zlen boundary - 1)) in
  lastBytes_loop (Z.to_nat maxBoundary) boundary p.

Definition parseDirectDelimiter (buf : bytes) p : outcome (SubParser M X * option Z) :=
  let prevSize := bc_size (m_unparsedBuffer p) in
  let p := sp_set_delimiterFound [] p in
  '(p, bytesAppended) ← appendToUnparsedBuffer buf p;
  match bytesAppended with
  | None => Ret (p, None)
  | Some bytesToDisplace =>
      delimPos ← find (m_parseDelimiter p) true 0 0 (m_unparsedBuffer p);
      match delimPos with
      | None =>
          bytesOfPossibleDelim ← getLastBytesInCommon (m_parseDelimiter p) p;
          if bytesOfPossibleDelim =? 0 then
            p ← run_parse (reference_unparsed 0 SIZE_MAX p);
            Ret (clear_unparsed p, Some bytesToDisplace)
          else
            let p := reference_unparsed 0
                       (wrap (bc_size (m_unparsedBuffer p) - bytesOfPossibleDelim)) p in
            p ← run_parse p;
            '(c, _) ← displace (wrap (bc_size (m_unparsedBuffer p) - bytesOfPossibleDelim))
                        (m_unparsedBuffer p);
            Ret (sp_set_unparsed c p, Some bytesToDisplace)
      | Some pos =>
          let p := sp_set_delimiterFound (m_parseDelimiter p) p in
          let p := if pos =? 0 then reference_unparsed 0 SIZE_MAX (clear_unparsed p)
                   else reference_unparsed 0 pos p in
          p ← run_parse p;
          let p := clear_unparsed p in
          Ret (p, Some (wrap (wrap (pos - prevSize) + zlen (m_parseDelimiter p))))
      end
  end.

Definition writeIntoSubParser (buf : bytes) p : outcome (SubParser M X * option Z) :=
  let p := if zlen buf =? 0 then sp_set_streamEnded true p else p in
  match m_parseMode p with
  | DELIMITER => parseByDelimiter buf p
  | SIZE => parseBySize buf p
  | VALIDATOR => parseByValidator buf p
  | DIRECT_DELIMITER => parseDirectDelimiter buf p
  | CONNECTION_END => parseByConnectionEnd buf p
  | MULTIDELIMITER => parseByMultiDelimiter buf p
  | DIRECT => parseDirect buf p
  end.
End SubParser.

(** ** The strategies *)
Section Strategies.
Context {M : Type} `{Container M} `{!MMapFile M} {X : Type} `{!SubParserImpl M X}.
Implicit Types p : SubParser M X.

Definition pending p : bytes := bc_contents (m_unparsedBuffer p).

(** The input fits beside what is pending. *)
Definition fits p (buf : bytes) : Prop :=
  zlen (pending p) + zlen buf <= m_maxSize (bc_base (m_unparsedBuffer p)) /\
  zlen (pending p) + zlen buf <= m_maxChunks (m_unparsedBuffer p) /\
  zlen (pending p) + zlen buf + blockSize < SIZE_MOD.

Lemma nonempty_length (buf : bytes) : buf <> [] -> 0 < zlen buf.
Proof.
  intros Hne. pose proof (zlen_nonneg buf). destruct (Z.eq_dec (zlen buf) 0) as [E|]; [by apply zlen_zero_nil in E|lia].
Qed.

(** Only the bytes that fit are appended. *)
Lemma append_clip p (buf : bytes) :
  0 < getSizeLeft (m_unparsedBuffer p) ->
  appendToUnparsedBuffer buf p = appendToUnparsedBuffer (ztake (getSizeLeft (m_unparsedBuffer p)) buf) p.
Proof.
  intros Hl. unfold appendToUnparsedBuffer. set (left := getSizeLeft _) in *.
  replace (left =? 0) with false by lia. cbn [andb].
  pose proof (zlen_nonneg buf). rewrite zlen_ztake.
  replace (Z.min (Z.max 0 (Z.min left (zlen buf))) left) with (Z.min (zlen buf) left) by lia.
  rewrite ztake_ztake. by replace (Z.min (Z.min (zlen buf) left) left) with (Z.min (zlen buf) left) by lia.
Qed.

Lemma appendToUnparsedBuffer_fits p buf :
  buffer_ready (m_unparsedBuffer p) -> fits p buf -> buf <> [] ->
  exists c, appendToUnparsedBuffer buf p = Ret (sp_set_unparsed c p, Some (zlen buf)) /\
    buffer_ready c /\ bc_contents c = pending p ++ buf /\ same_limits (m_unparsedBuffer p) c.
Proof.
  intros Hr (Hmax & Hch & Hb) Hne. pose proof (zlen_nonneg (pending p)) as Hpn.
  assert (0 < zlen buf) as Hpos.
  { pose proof (zlen_nonneg buf). destruct (Z.eq_dec (zlen buf) 0) as [E|]; [by apply zlen_zero_nil in E|lia]. }
  destruct (append_ready (m_unparsedBuffer p) buf) as (c & Ha & Hr' & Hc & Hlim); try done.
  exists c. split; [|done]. unfold appendToUnparsedBuffer, getSizeLeft.
  cbn [csize bc_container get_base]. rewrite bc_size_ok by apply (br_ok _ Hr). fold (pending p).
  replace (zlen (pending p) >? _) with false by lia.
  replace (_ - _ =? 0) with false by lia. cbn [andb].
  rewrite Z.min_l by lia. replace (zlen buf >? 0) with true by lia.
  rewrite ztake_ge by lia. rewrite Ha. cbn [mbind outcome_bind]. by rewrite Z.eqb_refl.
Qed.

(** What [parse()] sees through [getParsedBuffer()] after a reference. *)
Lemma parsed_take p n :
  buffer_ready (m_unparsedBuffer p) -> 0 <= n < SIZE_MAX ->
  read_ok (getParsedBuffer (reference_unparsed 0 n p)) /\
  contents (getParsedBuffer (reference_unparsed 0 n p)) = ztake n (pending p).
Proof.
  intros Hr Hn. unfold getParsedBuffer, reference_unparsed, ref_reference. cbn [m_parsedBuffer sp_set_parsed m_unparsedBuffer csize bc_container].
  rewrite bc_size_ok by apply (br_ok _ Hr). fold (pending p). pose proof (zlen_nonneg (pending p)).
  replace (0 >? zlen (pending p)) with false by lia. cbn [fst].
  pose proof (br_ok _ Hr) as Hok. split.
  - split; [|exact Hok]. unfold ref_ok. cbn [fst snd referencedBC referencedOffset referencedMaxBytes].
    change (contents (m_unparsedBuffer p)) with (pending p). split_and!; try done; try apply Hok;
      unfold SIZE_MAX in *; lia.
  - change (contents ?rc) with (ref_contents rc). unfold ref_contents. cbn [fst snd referencedOffset referencedMaxBytes].
    replace (n =? SIZE_MAX) with false by lia. by rewrite zdrop_le0 by lia.
Qed.

Lemma parsed_toString p n :
  buffer_ready (m_unparsedBuffer p) -> 0 <= n < SIZE_MAX ->
  toString SIZE_MAX 0 (getParsedBuffer (reference_unparsed 0 n p)) = Ret (Some (ztake n (pending p))).
Proof. intros Hr Hn. destruct (parsed_take p n Hr Hn) as [Hok Hc]. by rewrite toString_all, Hc. Qed.

(** The whole buffer, as [parse()] reads it through a reference without limit. *)
Lemma parsed_all p :
  buffer_ready (m_unparsedBuffer p) ->
  read_ok (getParsedBuffer (reference_unparsed 0 SIZE_MAX p)) /\
  contents (getParsedBuffer (reference_unparsed 0 SIZE_MAX p)) = pending p.
Proof.
  intros Hr. unfold getParsedBuffer, reference_unparsed, ref_reference. cbn [m_parsedBuffer sp_set_parsed m_unparsedBuffer csize bc_container].
  rewrite bc_size_ok by apply (br_ok _ Hr). fold (pending p). pose proof (zlen_nonneg (pending p)).
  replace (0 >? zlen (pending p)) with false by lia. cbn [fst].
  pose proof (br_ok _ Hr) as Hok. split.
  - split; [|exact Hok]. unfold ref_ok. cbn [fst snd referencedBC referencedOffset referencedMaxBytes].
    change (contents (m_unparsedBuffer p)) with (pending p). split_and!; try done; try apply Hok; lia.
  - change (contents ?rc) with (ref_contents rc). unfold ref_contents. cbn [fst snd referencedOffset referencedMaxBytes].
    by rewrite Z.eqb_refl, zdrop_le0 by lia.
Qed.

Lemma parsed_toString_all p :
  buffer_ready (m_unparsedBuffer p) ->
  toString SIZE_MAX 0 (getParsedBuffer (reference_unparsed 0 SIZE_MAX p)) = Ret (Some (pending p)).
Proof. intros Hr. destruct (parsed_all p Hr) as [Hok Hc]. by rewrite toString_all, Hc. Qed.

Definition delimiter_ok (d : bytes) : Prop := d <> [] /\ Forall is_byte d /\ zlen d < SIZE_MOD.

(** A write without a complete element is buffered whole. *)
Lemma parseByDelimiter_wait p buf :
  buffer_ready (m_unparsedBuffer p) -> fits p buf -> buf <> [] -> delimiter_ok (m_parseDelimiter p) ->
  m_streamEnded p = false -> search true (m_parseDelimiter p) (pending p ++ buf) = None ->
  exists c, parseByDelimiter buf p =
      Ret (reference_unparsed 0 SIZE_MAX (sp_set_unparsed c p), Some (zlen buf)) /\
    buffer_ready c /\ bc_contents c = pending p ++ buf /\ same_limits (m_unparsedBuffer p) c.
Proof.
  intros Hr Hf Hne (Hd & Hdb & Hdl) Hs Hnone.
  destruct (appendToUnparsedBuffer_fits p buf Hr Hf Hne) as (c & Ha & Hrc & Hc & Hlim).
  exists c. split; [|done]. unfold parseByDelimiter. rewrite Ha. cbn [mbind outcome_bind].
  change (m_parseDelimiter (reference_unparsed ?a ?b (sp_set_unparsed c p))) with (m_parseDelimiter p).
  change (m_unparsedBuffer (reference_unparsed ?a ?b (sp_set_unparsed c p))) with c.
  rewrite find_ready, Hc, Hnone by done. cbn [mbind outcome_bind].
  change (m_streamEnded (reference_unparsed ?a ?b (sp_set_unparsed c p))) with (m_streamEnded p).
  by rewrite Hs.
Qed.

(** The same for the state in which [parse()] is called, by its parts. *)
Lemma parseByDelimiter_at p buf pos :
  buffer_ready (m_unparsedBuffer p) -> fits p buf -> buf <> [] -> delimiter_ok (m_parseDelimiter p) ->
  search true (m_parseDelimiter p) (pending p ++ buf) = Some pos ->
  exists c, let q := reference_unparsed 0 pos (reference_unparsed 0 SIZE_MAX (sp_set_unparsed c p)) in
    parseByDelimiter buf p =
      (q ← run_parse q;
       Ret (clear_unparsed q,
            Some (wrap (wrap (pos - zlen (pending p)) + zlen (m_parseDelimiter q))))) /\
    toString SIZE_MAX 0 (getParsedBuffer q) = Ret (Some (ztake pos (pending p ++ buf))) /\
    csize (getParsedBuffer q) = pos /\
    bc_contents c = pending p ++ buf /\ buffer_ready c /\ same_limits (m_unparsedBuffer p) c.
Proof.
  intros Hr Hf Hne (Hd & Hdb & Hdl) Hpos.
  destruct (appendToUnparsedBuffer_fits p buf Hr Hf Hne) as (c & Ha & Hrc & Hc & Hlim).
  exists c. cbv zeta.
  pose proof (search_end _ _ _ _ Hpos) as He. pose proof (search_correct _ _ _ _ Hpos) as (Hb & _).
  pose proof (zlen_nonneg (m_parseDelimiter p)).
  destruct Hf as (_ & _ & Hbig). unfold blockSize, KB_MULT in Hbig. rewrite zlen_app in *.
  split; [|split; [|split; [|done]]].
  - unfold parseByDelimiter. rewrite Ha. cbn [mbind outcome_bind].
    rewrite bc_size_ok by apply (br_ok _ Hr). fold (pending p).
    change (m_parseDelimiter (reference_unparsed 0 SIZE_MAX (sp_set_unparsed c p))) with (m_parseDelimiter p).
    change (m_unparsedBuffer (reference_unparsed 0 SIZE_MAX (sp_set_unparsed c p))) with c.
    by rewrite find_ready, Hc, Hpos by done.
  - rewrite parsed_toString; [|done|].
    + change (pending (reference_unparsed ?a ?b (sp_set_unparsed c p))) with (bc_contents c). by rewrite Hc.
    + unfold SIZE_MAX. lia.
  - destruct (parsed_take (reference_unparsed 0 SIZE_MAX (sp_set_unparsed c p)) pos Hrc) as [Hok Ht]; [unfold SIZE_MAX; lia|].
    rewrite csize_ok by apply (read_contents _ Hok). rewrite Ht.
    change (pending (reference_unparsed ?a ?b (sp_set_unparsed c p))) with (bc_contents c).
    rewrite Hc, zlen_ztake, zlen_app. lia.
Qed.

(** A write that completes an element calls [parse()] once, on the bytes before
    the delimiter, and takes the input up to the end of the delimiter. *)
Lemma parseByDelimiter_element p buf pos :
  buffer_ready (m_unparsedBuffer p) -> fits p buf -> buf <> [] -> delimiter_ok (m_parseDelimiter p) ->
  search true (m_parseDelimiter p) (pending p ++ buf) = Some pos ->
  exists q, parseByDelimiter buf p =
      (q ← run_parse q;
       Ret (clear_unparsed q,
            Some (wrap (wrap (pos - zlen (pending p)) + zlen (m_parseDelimiter q))))) /\
    toString SIZE_MAX 0 (getParsedBuffer q) = Ret (Some (ztake pos (pending p ++ buf))) /\
    pending q = pending p ++ buf /\ buffer_ready (m_unparsedBuffer q) /\
    same_limits (m_unparsedBuffer p) (m_unparsedBuffer q) /\
    sp_sub q = sp_sub p /\ m_parseDelimiter q = m_parseDelimiter p /\ m_parseMode q = m_parseMode p /\
    m_streamEnded q = m_streamEnded p.
Proof.
  intros Hr Hf Hne Hd Hpos. destruct (parseByDelimiter_at p buf pos Hr Hf Hne Hd Hpos) as (c & E & Hs & _ & Hc & Hrc & Hlim).
  eexists. split; [exact E|]. by split_and!.
Qed.

(** A write of the [SIZE] strategy, with the target of [n] bytes. *)
Lemma parseBySize_spec p buf n :
  m_maxSize (bc_base (m_unparsedBuffer p)) = n ->
  buffer_ready (m_unparsedBuffer p) -> buf <> [] -> zlen (pending p) < n ->
  n <= m_maxChunks (m_unparsedBuffer p) -> n + blockSize < SIZE_MOD ->
  exists c, buffer_ready c /\ same_limits (m_unparsedBuffer p) c /\
  if zlen (pending p) + zlen buf <? n then
    parseBySize buf p = Ret (sp_set_unparsed c p, Some (zlen buf)) /\ bc_contents c = pending p ++ buf
  else
    parseBySize buf p =
      (q ← run_parse (reference_unparsed 0 SIZE_MAX (sp_set_unparsed c p));
       Ret (clear_unparsed q, Some (n - zlen (pending p)))) /\
    bc_contents c = ztake n (pending p ++ buf).
Proof.
  intros Hmaxn Hr Hne Hlt Hch Hb. pose proof (zlen_nonneg (pending p)) as Hpn.
  assert (0 < zlen buf) as Hpos.
  { pose proof (zlen_nonneg buf). destruct (Z.eq_dec (zlen buf) 0) as [E|]; [by apply zlen_zero_nil in E|lia]. }
  set (k := Z.min (zlen buf) (n - zlen (pending p))).
  destruct (append_ready (m_unparsedBuffer p) (ztake k buf)) as (c & Ha & Hrc & Hcc & Hlim); try done.
  { intros E. apply (f_equal zlen) in E. rewrite zlen_ztake, (@zlen_nil Z) in E. lia. }
  1-3: fold (pending p); rewrite ?zlen_ztake, ?Hmaxn; lia.
  assert (appendToUnparsedBuffer buf p = Ret (sp_set_unparsed c p, Some k)) as Happ.
  { unfold appendToUnparsedBuffer, getSizeLeft. cbn [csize bc_container get_base].
    rewrite bc_size_ok by apply (br_ok _ Hr). fold (pending p). rewrite Hmaxn.
    replace (zlen (pending p) >? n) with false by lia. replace (n - _ =? 0) with false by lia.
    cbn [andb]. fold k. replace (k >? 0) with true by lia. rewrite Ha. cbn [mbind outcome_bind].
    assert (zlen (ztake k buf) = k) as -> by (rewrite zlen_ztake; lia). by rewrite Z.eqb_refl. }
  assert (getSizeLeft (m_unparsedBuffer (sp_set_unparsed c p)) = n - (zlen (pending p) + k)) as Hleft.
  { unfold getSizeLeft. cbn [csize bc_container get_base m_unparsedBuffer sp_set_unparsed].
    rewrite bc_size_ok by apply (br_ok _ Hrc). rewrite Hcc. fold (pending p). rewrite zlen_app, zlen_ztake.
    destruct Hlim as (_ & _ & _ & _ & _ & -> & _). rewrite Hmaxn. replace (_ >? n) with false by lia. lia. }
  exists c. split; [done|]. split; [done|].
  unfold parseBySize. replace (zlen buf =? 0) with false by lia. rewrite Happ. cbn [mbind outcome_bind].
  rewrite Hleft. fold (pending p) in Hcc. destruct (Z.ltb_spec (zlen (pending p) + zlen buf) n) as [Hs|Hs].
  - replace (_ =? 0) with false by lia. replace k with (zlen buf) in * by lia.
    by rewrite ztake_ge in Hcc by lia.
  - replace (_ =? 0) with true by lia. replace k with (n - zlen (pending p)) in * by lia. split; [done|].
    by rewrite Hcc, (ztake_app_ge n) by lia.
Qed.


(** *** Sub-parsers that read pieces of a set size

    Nothing is buffered, the next piece has [n] bytes, and pieces of up to [L]
    bytes can be asked for. *)
Record piece_ready (L n : Z) p : Prop := {
  pc_buffer : buffer_ready (m_unparsedBuffer p);
  pc_mode : m_parseMode p = SIZE;
  pc_target : m_maxSize (bc_base (m_unparsedBuffer p)) = n;
  pc_bounds : 0 <= n <= L;
  pc_chunks : L <= m_maxChunks (m_unparsedBuffer p);
  pc_limit : L + blockSize < SIZE_MOD;
  pc_empty : pending p = [] }.

(** A piece is taken out of an input that holds it, and [parse()] runs on it:
    [q] is the object [parse()] is called on. *)
Lemma piece_step L n p buf :
  piece_ready L n p -> 0 < n <= zlen buf ->
  exists q, writeIntoSubParser buf p = (q ← run_parse q; Ret (clear_unparsed q, Some n)) /\
    copyOut n 0 (getParsedBuffer q) = Ret (Some (ztake n buf)) /\
    copyToBuffer (getParsedBuffer q) = Ret (ztake n buf) /\
    sp_sub q = sp_sub p /\ m_parseMode q = SIZE /\
    (forall q', m_parseMode q' = SIZE ->
      m_unparsedBuffer q' = (Container.clear (m_unparsedBuffer q)).1 -> piece_ready L n q') /\
    (forall k q', 0 <= k <= L -> m_parseMode q' = SIZE ->
      m_unparsedBuffer q' = (Container.clear (setMaxSize k (m_unparsedBuffer q))).1 -> piece_ready L k q').
Proof.
  intros [Hr Hm Ht Hn Hch Hl He] Hk. pose proof (zlen_nonneg buf).
  assert (buf <> []) as Hne by (intros ->; change (zlen []) with 0 in *; lia).
  destruct (parseBySize_spec p buf n) as (c & Hrc & Hlim & Hs); rewrite ?He in *; change (zlen []) with 0 in *; try done; try lia.
  replace (0 + zlen buf <? n) with false in Hs by lia. cbn [app] in Hs. destruct Hs as [Hp Hc].
  set (q := reference_unparsed 0 SIZE_MAX (sp_set_unparsed c p)) in *.
  destruct (parsed_all (sp_set_unparsed c p) Hrc) as [Hok Hcon]. fold q in Hok, Hcon.
  change (pending (sp_set_unparsed c p)) with (bc_contents c) in Hcon. rewrite Hc in Hcon.
  exists q. split_and!.
  - unfold writeIntoSubParser. replace (zlen buf =? 0) with false by lia. rewrite Hm, Hp.
    by rewrite Z.sub_0_r.
  - rewrite copyOut_spec by (rewrite ?Hcon, ?zlen_ztake; try done; try lia; unfold blockSize, KB_MULT, SIZE_MAX in *; lia).
    unfold slice. rewrite Hcon, zdrop_le0 by lia. by rewrite ztake_ztake, Z.min_id.
  - by rewrite copyToBuffer_spec, Hcon.
  - done.
  - done.
  - intros q' Hm' Eq. destruct Hlim as (E1 & _ & _ & _ & _ & E6 & _).
    destruct (clear_ready c Hrc) as (Hrc' & He' & E1' & _ & _ & _ & _ & E6' & _).
    change (m_unparsedBuffer q) with c in Eq. unfold pending in *.
    split; unfold pending; rewrite ?Eq, ?E1', ?E6'; try done; by rewrite ?E1, ?E6.
  - intros k q' Hkl Hm' Eq. destruct Hlim as (E1 & _).
    destruct (clear_resized_ready c k Hrc) as (? & ? & Ec & ?).
    { unfold blockSize, KB_MULT in *. lia. }
    change (m_unparsedBuffer q) with c in Eq.
    split; unfold pending; rewrite ?Eq, ?Ec; try done. by rewrite E1.
Qed.

(** Between two pieces: the next one may be asked for. *)
Record piece_idle (L : Z) p : Prop := {
  pi_buffer : buffer_ready (m_unparsedBuffer p);
  pi_mode : m_parseMode p = SIZE;
  pi_chunks : L <= m_maxChunks (m_unparsedBuffer p);
  pi_limit : L + blockSize < SIZE_MOD;
  pi_empty : pending p = [] }.

Lemma piece_ready_idle L n p : piece_ready L n p -> piece_idle L p.
Proof. intros []. by split. Qed.

(** Asking for a piece of another size. *)
Lemma piece_resize L k p q :
  piece_idle L p -> 0 <= k <= L -> m_parseMode q = SIZE ->
  m_unparsedBuffer q = setMaxSize k (m_unparsedBuffer p) -> piece_ready L k q.
Proof.
  intros [Hr Hm Hch Hl He] Hk Hmq Eq. destruct Hr as [Hok Hw Hmem Hcs Hmc Hcv Hleft].
  unfold pending in *. split; unfold pending; rewrite ?Eq; try done.
  split; try done. change (zlen (bc_contents (m_unparsedBuffer p)) <= k < SIZE_MOD). rewrite He.
  change (zlen []) with 0. unfold blockSize, KB_MULT in Hl. lia.
Qed.
End Strategies.

(** ** Properties *)

(** The [SIZE] strategy ([SubParser::parseBySize]): with a target of [n]
    bytes and [pending] of them buffered, a shorter input is only buffered; an
    input that reaches the target is taken up to exactly the target and
    [parse()] runs once, seeing exactly the [n] bytes. *)
Theorem parseBySize_exact {M} `{Container M} `{!MMapFile M} {X} `{!SubParserImpl M X}
    (p : SubParser M X) (buf : bytes) :
  let n := m_maxSize (bc_base (m_unparsedBuffer p)) in
  buffer_ready (m_unparsedBuffer p) -> buf <> [] -> zlen (pending p) < n ->
  n <= m_maxChunks (m_unparsedBuffer p) -> n + blockSize < SIZE_MOD ->
  if zlen (pending p) + zlen buf <? n then
    exists c, parseBySize buf p = Ret (sp_set_unparsed c p, Some (zlen buf)) /\
      buffer_ready c /\ bc_contents c = pending p ++ buf
  else
    exists q, parseBySize buf p =
        (q ← run_parse q; Ret (clear_unparsed q, Some (n - zlen (pending p)))) /\
      toString SIZE_MAX 0 (getParsedBuffer q) = Ret (Some (ztake n (pending p ++ buf))) /\
      sp_sub q = sp_sub p.
Proof.
  intros n Hr Hne Hlt Hch Hb. destruct (parseBySize_spec p buf n) as (c & Hrc & Hlim & Hs); try done.
  destruct (_ <? n); destruct Hs as [Hp Hc]; [by exists c|].
  eexists. split; [exact Hp|]. split; [|done].
  rewrite parsed_toString_all by done. change (pending (sp_set_unparsed c p)) with (bc_contents c). by rewrite Hc.
Qed.

(** A derived class that collects what it is given to parse. *)
Definition collector {M} `{Container M} `{!MMapFile M} : SubParserImpl M (list bytes) := {|
  parse p :=
    s ← toStringEx SIZE_MAX 0 (getParsedBuffer (X := list bytes) p);
    Ret (sp_set_sub (sp_sub p ++ [s]) p, GET_MORE_DATA);
  malloc_block n := replicate (Z.to_nat n) 0 |}.

#[local] Existing Instance no_files.

Definition size4 : SubParser B_MEM (list bytes) :=
  setParseDataTargetSize 4 (setParseStrategy SIZE (sp_new [])).

Lemma parseBySize_exact_witness :
  exists q, parseBySize (SubParserImpl0 := collector) (bs "abcdef") size4 =
      (q ← run_parse (SubParserImpl0 := collector) q;
       Ret (clear_unparsed q, Some 4)) /\
    toString SIZE_MAX 0 (getParsedBuffer q) = Ret (Some (bs "abcd")) /\ sp_sub q = [].
Proof.
  refine (parseBySize_exact
    (SubParserImpl0 := collector) size4 (bs "abcdef") _ _ _ _ _).
  - apply (buffer_ready_new 4). split; [discriminate|reflexivity].
  - discriminate.
  - reflexivity.
  - discriminate.
  - reflexivity.
Defined.
