(* ===== verification/Parser.v ===== *)
(** * The stream parser (Memory/parser.cpp)

    A [Parser] is a sink: what is written into it goes to its current
    sub-parser, and again to the next one, until the input is consumed or the
    protocol ends.  [ParserImpl] is what a protocol (a derived class) provides;
    the recursion of [parseData] is bounded by its TTL counter, and the fuel of
    the model is that bound.

    The theorems show that [parseData] ends for every protocol, that a
    successful write takes the whole input unless the protocol finished, and
    that a line protocol splits its stream at the delimiters whatever the sizes
    of the writes. *)

From S2P Require Import Prelude SafeInt Mem Streamable Container ContainerTheory BMem BChunks ChunkBuffer BRef.
From S2P Require Import SubParser.
From Stdlib Require Import ZArith Lia.

(** What a protocol provides: its current sub-parser ([currentSubParser] is
    [m_currentSubParser != nullptr], the [cur_] operations are virtual calls on
    it), the change of sub-parser, and the two ends of the protocol. *)
Class ParserImpl (P : Type) := {
  currentSubParser : P -> bool;
  cur_setParseResult : ParseResult -> P -> P;
  cur_writeIntoSubParser : bytes -> P -> outcome (P * option Z);
  cur_getParseStatus : P -> ParseResult;
  changeToNextParser : P -> outcome (P * bool);
  initProtocol : P -> outcome (P * bool);
  endProtocol : P -> outcome P }.

Record Parser (P : Type) := mkParser {
  pr_writeStatus : WriteStatus;
  m_maxTTL : Z;
  m_initialized : bool;
  pr_impl : P }.
Arguments mkParser {_} _ _ _ _.
Arguments pr_writeStatus {_} _.
Arguments m_maxTTL {_} _.
Arguments m_initialized {_} _.
Arguments pr_impl {_} _.

Inductive ObjectResult := SUCCEED | ERR_INIT | ERR_PARSING.

Section Parser.
Context {P : Type} `{!ParserImpl P}.
Implicit Types p : Parser P.

Definition pr_set_impl (x : P) p : Parser P :=
  mkParser (pr_writeStatus p) (m_maxTTL p) (m_initialized p) x.
Definition pr_set_status (ws : WriteStatus) p : Parser P :=
  mkParser ws (m_maxTTL p) (m_initialized p) (pr_impl p).
Definition pr_set_finished (v : bool) p : Parser P :=
  let ws := pr_writeStatus p in
  pr_set_status (mkWriteStatus (succeed ws) v (bytesWritten ws) (writeError ws)) p.
Definition setMaxTTL (value : Z) p : Parser P :=
  mkParser (pr_writeStatus p) value (m_initialized p) (pr_impl p).
Definition pr_set_initialized (v : bool) p : Parser P :=
  mkParser (pr_writeStatus p) (m_maxTTL p) v (pr_impl p).

Definition pr_new (x : P) : Parser P := mkParser ws_init 4096 false x.

(** The recursive tail of [parseData], over the recursive call [again]. *)
Definition parse_rest (again : bytes -> Parser P -> outcome (Parser P * option Z))
    (buf : bytes) (written : Z) p : outcome (Parser P * option Z) :=
  if negb (written =? zlen buf) then
    '(p, x) ← again (zdrop written buf) p;
    match x with
    | None => Ret (p, None)
    | Some n => Ret (p, Some (wrap (n + written)))
    end
  else Ret (p, Some written).

Fixpoint parseData (fuel : nat) (buf : bytes) (ttl : Z) p : outcome (Parser P * option Z) :=
  match fuel with
  | O => NoFuel
  | S fuel =>
      if ttl >? m_maxTTL p then Ret (p, None)
      else
        let ttl := ttl + 1 in
        if currentSubParser (pr_impl p) then
          let p := pr_set_impl (cur_setParseResult GET_MORE_DATA (pr_impl p)) p in
          '(x, writtenBytes) ← cur_writeIntoSubParser buf (pr_impl p);
          let p := pr_set_impl x p in
          match writtenBytes with
          | None => Ret (p, None)
          | Some written =>
              match cur_getParseStatus (pr_impl p) with
              | GOTO_NEXT_SUBPARSER =>
                  '(x, ok) ← changeToNextParser (pr_impl p);
                  let p := pr_set_impl x p in
                  if negb ok then Ret (p, None)
                  else
                    let p := if negb (currentSubParser (pr_impl p)) then pr_set_finished true p else p in
                    if negb (currentSubParser (pr_impl p)) || (written =? zlen buf)
                    then Ret (p, Some written)
                    else parse_rest (fun b => parseData fuel b ttl) buf written p
              | GET_MORE_DATA =>
                  if written =? zlen buf then Ret (p, Some written)
                  else parse_rest (fun b => parseData fuel b ttl) buf written p
              | PR_ERROR => Ret (p, None)
              end
          end
        else Ret (p, None)
  end.

(** The counter starts at 0 and the call that finds it above [m_maxTTL]
    returns. *)
Definition parse_fuel p : nat := Z.to_nat (m_maxTTL p) + 2.

Definition pr_write (buf : bytes) p : outcome (Parser P * option Z) :=
  if zlen buf =? 0 then parseData (parse_fuel p) [] 0 p
  else parseData (parse_fuel p) buf 0 p.

#[export] Instance parser_sink : Sink (Parser P) := {|
  sink_status := pr_writeStatus;
  sink_set_status := pr_set_status;
  sink_write := pr_write |}.

(** [parseObject]: the streams of the object, if any comes first, and of the
    object itself go through the parser. *)
Definition parseObject {I J} `{Source I} `{Source J} (pre : option I) (streamable : J) p :
    outcome (Parser P * ObjectResult) :=
  let p := pr_set_finished false p in
  '(x, ok) ← initProtocol (pr_impl p);
  let p := pr_set_initialized ok (pr_set_impl x p) in
  if m_initialized p then
    '(p, ok) ← (match pre with
                | Some o => streamTo o p
                | None => Ret (p, true)
                end : outcome (Parser P * bool));
    '(p, ok) ← (if (ok : bool) then streamTo streamable p else Ret (p, ok) : outcome (Parser P * bool));
    x ← endProtocol (pr_impl p);
    Ret (pr_set_impl x p, if (ok : bool) then SUCCEED else ERR_PARSING)
  else Ret (p, ERR_INIT).
End Parser.

(** ** Termination and consumption *)
Section Theory.
Context {P : Type} `{!ParserImpl P}.
Implicit Types p : Parser P.

(** The operations of the protocol end. *)
Class ParserEnds : Prop := {
  write_ends buf x : cur_writeIntoSubParser buf x <> NoFuel;
  change_ends x : changeToNextParser x <> NoFuel }.

Lemma parseData_ends `{!ParserEnds} fuel buf ttl p :
  m_maxTTL p + 1 - ttl < Z.of_nat fuel -> 0 <= m_maxTTL p - ttl + 1 ->
  parseData fuel buf ttl p <> NoFuel.
Proof.
  revert buf ttl p. induction fuel as [|fuel IH]; intros buf ttl p Hf Ht; [lia|].
  cbn [parseData]. destruct (Z.gtb_spec ttl (m_maxTTL p)); [done|].
  destruct (currentSubParser (pr_impl p)); [|done].
  cbn [pr_set_impl pr_impl].
  destruct (cur_writeIntoSubParser _ _) as [[x w]| | |] eqn:Ew; try done.
  2: { by apply write_ends in Ew. }
  cbn [mbind outcome_bind]. destruct w as [w|]; [|done].
  assert (forall q, m_maxTTL q = m_maxTTL p ->
    parse_rest (fun b => parseData fuel b (ttl + 1)) buf w q <> NoFuel) as Hrest.
  { intros q Hq. unfold parse_rest. destruct (negb _); [|done].
    destruct (parseData fuel (zdrop w buf) (ttl + 1) q) as [[q' [n|]]| | |] eqn:E; try done.
    apply IH in E; [done|rewrite Hq; lia..]. }
  destruct (cur_getParseStatus _); [done| |].
  - destruct (w =? zlen buf); [done|]. by apply Hrest.
  - destruct (changeToNextParser _) as [[x' ok]| | |] eqn:Ec; try done.
    2: { by apply change_ends in Ec. }
    cbn [mbind outcome_bind]. destruct (negb ok); [done|].
    destruct (_ || _); [done|]. apply Hrest. by destruct (negb _).
Qed.

(** Sub-parsers take no more than they are given. *)
Definition takes_at_most : Prop := forall buf x x' n,
  cur_writeIntoSubParser buf x = Ret (x', Some n) -> 0 <= n <= zlen buf.

Lemma parseData_consumes fuel buf ttl p p' n :
  takes_at_most -> zlen buf < SIZE_MOD ->
  parseData fuel buf ttl p = Ret (p', Some n) ->
  0 <= n <= zlen buf /\ (n = zlen buf \/ currentSubParser (pr_impl p') = false).
Proof.
  intros Ht. revert buf ttl p n. induction fuel as [|fuel IH]; intros buf ttl p n Hb; [done|].
  cbn [parseData]. destruct (_ >? _); [done|].
  destruct (currentSubParser (pr_impl p)); [|done].
  cbn [pr_set_impl pr_impl].
  destruct (cur_writeIntoSubParser _ _) as [[x [w|]]| | |] eqn:Ew; try done.
  cbn [mbind outcome_bind]. apply Ht in Ew.
  assert (forall q, parse_rest (fun b => parseData fuel b (ttl + 1)) buf w q = Ret (p', Some n) ->
    0 <= n <= zlen buf /\ (n = zlen buf \/ currentSubParser (pr_impl p') = false)) as Hrest.
  { intros q. unfold parse_rest. destruct (Z.eqb_spec w (zlen buf)); cbn [negb].
    { intros [= <- <-]. lia. }
    destruct (parseData fuel (zdrop w buf) (ttl + 1) q) as [[q' [m|]]| | |] eqn:E; try done.
    cbn [mbind outcome_bind]. intros [= -> <-]. apply IH in E; rewrite zlen_zdrop in *; [|lia].
    rewrite wrap_small by lia. destruct E as [E1 [E2|E2]]; split; auto with lia. }
  destruct (cur_getParseStatus _); [done| |].
  - destruct (Z.eqb_spec w (zlen buf)); [|apply Hrest]. intros [= <- <-]. auto with lia.
  - destruct (changeToNextParser _) as [[x' ok]| | |] eqn:Ec; try done.
    cbn [mbind outcome_bind]. destruct (negb ok); [done|].
    cbn [pr_set_impl pr_impl]. destruct (currentSubParser x') eqn:Ecur; cbn [negb orb].
    + cbn [pr_set_impl pr_impl]. rewrite Ecur. cbn [negb orb].
      destruct (Z.eqb_spec w (zlen buf)); [|apply Hrest]. intros [= <- <-]. auto with lia.
    + cbn [pr_set_finished pr_set_status pr_impl pr_set_impl]. rewrite Ecur. cbn [negb orb].
      intros [= <- <-]. cbn. auto with lia.
Qed.

(** One call of [parseData], by what the sub-parser answers. *)
Lemma parseData_more fuel buf ttl p x n :
  ttl <= m_maxTTL p -> currentSubParser (pr_impl p) = true ->
  cur_writeIntoSubParser buf (cur_setParseResult GET_MORE_DATA (pr_impl p)) = Ret (x, Some n) ->
  cur_getParseStatus x = GET_MORE_DATA -> n < zlen buf ->
  parseData (S fuel) buf ttl p =
    ('(p, r) ← parseData fuel (zdrop n buf) (ttl + 1) (pr_set_impl x p);
     Ret (p, option_map (fun m => wrap (m + n)) r)).
Proof.
  intros Ht Hc Hw Hs Hn. cbn [parseData]. replace (ttl >? m_maxTTL p) with false by lia.
  rewrite Hc. cbn [pr_set_impl pr_impl]. rewrite Hw. cbn [mbind outcome_bind]. rewrite Hs.
  replace (n =? zlen buf) with false by lia. unfold parse_rest. replace (n =? zlen buf) with false by lia.
  cbn [negb]. by destruct (parseData fuel _ _ _) as [[? []]| | |].
Qed.

Lemma parseData_next fuel buf ttl p x n :
  ttl <= m_maxTTL p -> currentSubParser (pr_impl p) = true ->
  cur_writeIntoSubParser buf (cur_setParseResult GET_MORE_DATA (pr_impl p)) = Ret (x, Some n) ->
  cur_getParseStatus x = GOTO_NEXT_SUBPARSER ->
  (forall y, changeToNextParser x = Ret (y, true) -> currentSubParser y = true -> n < zlen buf ->
   parseData (S fuel) buf ttl p =
    ('(p, r) ← parseData fuel (zdrop n buf) (ttl + 1) (pr_set_impl y p);
     Ret (p, option_map (fun m => wrap (m + n)) r))) /\
  (forall y, changeToNextParser x = Ret (y, true) -> currentSubParser y = true -> n = zlen buf ->
   parseData (S fuel) buf ttl p = Ret (pr_set_impl y p, Some n)) /\
  (forall e, changeToNextParser x = Throw e -> parseData (S fuel) buf ttl p = Throw e).
Proof.
  intros Ht Hc Hw Hs. cbn [parseData]. replace (ttl >? m_maxTTL p) with false by lia.
  rewrite Hc. cbn [pr_set_impl pr_impl]. rewrite Hw. cbn [mbind outcome_bind]. rewrite Hs.
  cbn [pr_set_impl pr_impl]. split_and!.
  - intros y -> Hy Hn. cbn [mbind outcome_bind negb pr_set_impl pr_impl]. rewrite Hy. cbn [negb orb pr_set_impl pr_impl].
    rewrite Hy. cbn [negb orb].
    replace (n =? zlen buf) with false by lia. unfold parse_rest. replace (n =? zlen buf) with false by lia.
    cbn [negb]. by destruct (parseData fuel _ _ _) as [[? []]| | |].
  - intros y -> Hy ->. cbn [mbind outcome_bind negb pr_set_impl pr_impl]. rewrite Hy. cbn [negb orb pr_set_impl pr_impl].
    by rewrite Hy, Z.eqb_refl.
  - by intros e ->.
Qed.

(** What every call of the protocol keeps, [parseData] keeps. *)
Lemma parseData_preserves (I : P -> Prop) fuel buf ttl p p' r :
  (forall res x, I x -> I (cur_setParseResult res x)) ->
  (forall buf x x' n, I x -> cur_writeIntoSubParser buf x = Ret (x', n) -> I x') ->
  (forall x x' ok, I x -> currentSubParser x = true -> changeToNextParser x = Ret (x', ok) -> I x') ->
  (forall buf x x' n, cur_writeIntoSubParser buf x = Ret (x', n) -> currentSubParser x = true -> currentSubParser x' = true) ->
  (forall res x, currentSubParser (cur_setParseResult res x) = currentSubParser x) ->
  I (pr_impl p) -> parseData fuel buf ttl p = Ret (p', r) -> I (pr_impl p').
Proof.
  intros Hset Hwrite Hchange Hcur Hscur. revert buf ttl p p' r.
  induction fuel as [|fuel IH]; intros buf ttl p p' r HI; [done|]. cbn [parseData].
  destruct (_ >? _); [by intros [= <- _]|]. destruct (currentSubParser (pr_impl p)) eqn:Ec; [|by intros [= <- _]].
  cbn [pr_set_impl pr_impl]. destruct (cur_writeIntoSubParser _ _) as [[x [w|]]| | |] eqn:Ew; try done; cbn [mbind outcome_bind].
  2: { intros [= <- _]. cbn. eapply Hwrite; [|exact Ew]. by apply Hset. }
  assert (I x) as Hx by (eapply Hwrite; [|exact Ew]; by apply Hset).
  assert (currentSubParser x = true) as Hxc by (eapply Hcur; [exact Ew|]; by rewrite Hscur).
  assert (forall q, I (pr_impl q) -> parse_rest (fun b => parseData fuel b (ttl + 1)) buf w q = Ret (p', r) -> I (pr_impl p')) as Hrest.
  { intros q Hq. unfold parse_rest. destruct (negb _); [|by intros [= <- _]].
    destruct (parseData fuel _ _ q) as [[q' [n|]]| | |] eqn:E; try done; cbn [mbind outcome_bind]; intros [= <- _]; by eapply IH. }
  destruct (cur_getParseStatus _); [by intros [= <- _]| |].
  - destruct (w =? zlen buf); [by intros [= <- _]|by apply Hrest].
  - destruct (changeToNextParser _) as [[x' ok]| | |] eqn:Ex; try done. cbn [mbind outcome_bind].
    assert (I x') as Hx' by (eapply Hchange; [exact Hx|exact Hxc|exact Ex]). destruct (negb ok); [by intros [= <- _]|].
    cbn [pr_set_impl pr_impl]. destruct (negb (currentSubParser x')) eqn:En;
      cbn [pr_set_finished pr_set_status pr_set_impl pr_impl]; rewrite En; cbn [orb]; [by intros [= <- _]|].
    destruct (w =? zlen buf); [by intros [= <- _]|by apply Hrest].
Qed.

(** A sequence of writes, each of which must be accepted. *)
Fixpoint write_all (bufs : list bytes) p : outcome (Parser P * bool) :=
  match bufs with
  | [] => Ret (p, true)
  | b :: bufs =>
      '(p, r) ← pr_write b p;
      if has_value r then write_all bufs p else Ret (p, false)
  end.
End Theory.
Arguments ParserEnds P {_}.
Arguments takes_at_most P {_}.

(** ** A line protocol

    The smallest protocol over [SubParser]: one sub-parser in the [DELIMITER]
    strategy that collects its elements and always asks for more data. *)
Section Lines.
Context {M : Type} `{Container M} `{!MMapFile M}.

Definition line_sub : SubParserImpl M (list bytes) := collector.

Definition line_protocol : ParserImpl (SubParser M (list bytes)) := {|
  currentSubParser _ := true;
  cur_setParseResult := setParseResult;
  cur_writeIntoSubParser := writeIntoSubParser (SubParserImpl0 := line_sub);
  cur_getParseStatus := m_parseStatus;
  changeToNextParser x := Ret (x, false);
  initProtocol x := Ret (x, true);
  endProtocol x := Ret x |}.

Implicit Types (p : Parser (SubParser M (list bytes))) (x : SubParser M (list bytes)).

(** A sub-parser waiting for the rest of an element. *)
Record line_ready (d : bytes) x : Prop := {
  lr_buffer : buffer_ready (m_unparsedBuffer x);
  lr_mode : m_parseMode x = DELIMITER;
  lr_delim : m_parseDelimiter x = d;
  lr_delim_ok : delimiter_ok d;
  lr_open : m_streamEnded x = false;
  lr_clean : search true d (pending x) = None }.

(** The sizes a buffer of these limits can take. *)
Definition within (L : Z) x : Prop :=
  L <= m_maxSize (bc_base (m_unparsedBuffer x)) /\ L <= m_maxChunks (m_unparsedBuffer x) /\
  L + blockSize < SIZE_MOD.

Lemma within_limits L x c :
  within L x -> same_limits (m_unparsedBuffer x) c -> within L (sp_set_unparsed c x).
Proof. intros Hw (E1 & _ & _ & _ & _ & E6 & _). unfold within. cbn. by rewrite E1, E6. Qed.

(** One call of the sub-parser: an element when the delimiter is there. *)
Lemma line_write_element d L x buf pos :
  line_ready d x -> within L x -> zlen (pending x) + zlen buf <= L -> buf <> [] ->
  search true d (pending x ++ buf) = Some pos ->
  exists x', cur_writeIntoSubParser (ParserImpl := line_protocol) buf x
      = Ret (x', Some (pos + zlen d - zlen (pending x))) /\
    line_ready d x' /\ within L x' /\ pending x' = [] /\
    sp_sub x' = sp_sub x ++ [ztake pos (pending x ++ buf)] /\ m_parseStatus x' = GET_MORE_DATA.
Proof.
  intros [Hb Hm Hd Hdok Ho Hc] (Hw1 & Hw2 & Hw3) Hlen Hne Hs. pose proof Hdok as (Hdn & _ & _).
  destruct (parseByDelimiter_element (SubParserImpl0 := line_sub) x buf pos)
    as (q & Hpar & Hstr & Hq & Hrq & Hlim & Hsub & Hdq & Hmq & Hoq); try done;
    try (rewrite Hd; done).
  { unfold fits. lia. }
  cbn [cur_writeIntoSubParser line_protocol]. unfold writeIntoSubParser.
  destruct (Z.eqb_spec (zlen buf) 0) as [E|_]; [by apply zlen_zero_nil in E|]. rewrite Hm, Hpar.
  unfold run_parse. cbn [parse line_sub collector]. unfold toStringEx. rewrite Hstr. cbn [mbind outcome_bind default].
  destruct (clear_ready (m_unparsedBuffer q) Hrq) as (Hcr & Hcc & Hcl).
  set (x' := clear_unparsed (setParseResult GET_MORE_DATA
               (sp_set_sub (sp_sub q ++ [ztake pos (pending x ++ buf)]) q))).
  exists x'. split.
  - change (m_parseDelimiter (setParseResult ?a ?b)) with (m_parseDelimiter b).
    change (m_parseDelimiter (clear_unparsed ?b)) with (m_parseDelimiter b).
    change (m_parseDelimiter (setParseResult ?a ?b)) with (m_parseDelimiter b).
    change (m_parseDelimiter (sp_set_sub ?a ?b)) with (m_parseDelimiter b).
    rewrite Hdq, Hd. do 3 f_equal.
    pose proof (search_app_new true d (pending x) buf pos Hdn Hc Hs).
    pose proof (search_end _ _ _ _ Hs) as He. rewrite zlen_app in He.
    pose proof (zlen_nonneg d). pose proof (zlen_nonneg (pending x)). unfold blockSize, KB_MULT in *.
    rewrite wrap_add_l. rewrite wrap_small by lia. lia.
  - split_and!.
    + split; try done; unfold x'; cbn; try congruence. change (pending _) with (@nil Z).
      by apply search_nil.
    + apply (within_limits L x (Container.clear (m_unparsedBuffer q)).1); [done|].
      eapply same_limits_trans; [exact Hlim|exact Hcl].
    + done.
    + unfold x'. cbn. by rewrite Hsub.
    + done.
Qed.

(** ... and nothing yet when it is not. *)
Lemma line_write_wait d L x buf :
  line_ready d x -> within L x -> zlen (pending x) + zlen buf <= L -> buf <> [] ->
  search true d (pending x ++ buf) = None -> m_parseStatus x = GET_MORE_DATA ->
  exists x', cur_writeIntoSubParser (ParserImpl := line_protocol) buf x = Ret (x', Some (zlen buf)) /\
    line_ready d x' /\ within L x' /\ pending x' = pending x ++ buf /\
    sp_sub x' = sp_sub x /\ m_parseStatus x' = GET_MORE_DATA.
Proof.
  intros [Hb Hm Hd Hdok Ho Hc] (Hw1 & Hw2 & Hw3) Hlen Hne Hs Hst.
  destruct (parseByDelimiter_wait (SubParserImpl0 := line_sub) x buf) as (c & Hpar & Hrc & Hcc & Hlim);
    try done; try (rewrite Hd; done).
  { unfold fits. lia. }
  cbn [cur_writeIntoSubParser line_protocol]. unfold writeIntoSubParser.
  destruct (Z.eqb_spec (zlen buf) 0) as [E|_]; [by apply zlen_zero_nil in E|]. rewrite Hm, Hpar.
  eexists. split; [done|]. split_and!; try done.
  - split; try done. change (pending (reference_unparsed ?a ?b (sp_set_unparsed c x))) with (bc_contents c).
    by rewrite Hcc.
  - apply (within_limits L x) with (c := c); done.
Qed.

(** One write into the parser: the elements it completes, in order. *)
Lemma parseData_lines d L fuel buf ttl p ls r :
  line_ready d (pr_impl p) -> within L (pr_impl p) ->
  zlen (pending (pr_impl p)) + zlen buf <= L -> buf <> [] ->
  splits d (pending (pr_impl p) ++ buf) ls r ->
  0 <= ttl -> ttl + zlen ls <= m_maxTTL p -> (length ls < fuel)%nat ->
  exists p', parseData (ParserImpl0 := line_protocol) fuel buf ttl p = Ret (p', Some (zlen buf)) /\
    line_ready d (pr_impl p') /\ within L (pr_impl p') /\ pending (pr_impl p') = r /\
    sp_sub (pr_impl p') = sp_sub (pr_impl p) ++ ls /\ m_maxTTL p' = m_maxTTL p.
Proof.
  revert buf ttl p ls. induction fuel as [|fuel IH]; intros buf ttl p ls Hr Hw Hlen Hne Hsp Ht Httl Hf; [lia|].
  pose proof (zlen_nonneg ls). cbn [parseData]. replace (ttl >? m_maxTTL p) with false by lia.
  cbn [currentSubParser cur_setParseResult line_protocol pr_set_impl pr_impl].
  set (x := setParseResult GET_MORE_DATA (pr_impl p)).
  assert (line_ready d x) as Hrx by (destruct Hr; by split).
  inversion Hsp as [l Hs | l pos ls' r' Hs Hrest]; subst.
  - destruct (line_write_wait d L x buf) as (x' & -> & Hr' & Hw' & Hp' & Hsub & Hst); try done.
    cbn [mbind outcome_bind pr_impl cur_getParseStatus line_protocol]. rewrite Hst, Z.eqb_refl.
    eexists; split; [done|]. cbn [pr_impl m_maxTTL]. rewrite app_nil_r. done.
  - destruct (line_write_element d L x buf pos) as (x' & -> & Hr' & Hw' & Hp' & Hsub & Hst); try done.
    cbn [mbind outcome_bind pr_impl cur_getParseStatus line_protocol]. rewrite Hst.
    set (w := pos + zlen d - zlen (pending x)). change (pending x) with (pending (pr_impl p)) in *.
    pose proof (search_end _ _ _ _ Hs) as He. rewrite zlen_app in He.
    pose proof (search_app_new true d _ buf pos (proj1 (lr_delim_ok _ _ Hr)) (lr_clean _ _ Hr) Hs).
    pose proof (zlen_nonneg (pending (pr_impl p))). rewrite zlen_cons in *.
    rewrite zdrop_app_ge in Hrest by lia. fold w in Hrest.
    destruct Hw as (Hw1 & Hw2 & Hw3). unfold blockSize, KB_MULT in Hw3.
    destruct (Z.eqb_spec w (zlen buf)) as [Ew|Ew].
    + eexists; split; [by rewrite Ew|]. cbn [pr_impl m_maxTTL].
      rewrite zdrop_ge in Hrest by lia. apply splits_det with (ls1 := []) (r1 := []) in Hrest as [<- <-].
      2: { apply splits_rest, search_nil, (lr_delim_ok _ _ Hr). }
      done.
    + unfold parse_rest. replace (w =? zlen buf) with false by lia. cbn [negb].
      assert (zlen (zdrop w buf) = zlen buf - w) as Hzd by (rewrite zlen_zdrop; lia).
      destruct (IH (zdrop w buf) (ttl + 1)
          (pr_set_impl x' (pr_set_impl x p)) ls')
        as (p' & Hp & Hr2 & Hw2' & Hpend & Hsub2 & Httl2);
        cbn [pr_impl m_maxTTL length pr_set_impl] in *; rewrite ?Hp', ?Hzd, ?zlen_nil; try done; try lia.
      { intros E0. rewrite E0, zlen_nil in Hzd. lia. }
      cbn [pr_set_impl pr_writeStatus m_maxTTL m_initialized] in *.
      rewrite Hp. cbn [mbind outcome_bind]. exists p'.
      rewrite Hzd. split; [rewrite wrap_small by lia; do 3 f_equal; lia|].
      split_and!; try done. rewrite Hsub2, Hsub. by rewrite <- app_assoc.
Qed.

(** The writes respect the limits: no write together with the pending bytes is
    longer than [L], and none completes more elements than the TTL allows. *)
Fixpoint writes_fit (d : bytes) (L T : Z) (pending : bytes) (bufs : list bytes) : Prop :=
  match bufs with
  | [] => True
  | b :: bufs =>
      b <> [] /\ zlen pending + zlen b <= L /\
      forall ls r, splits d (pending ++ b) ls r -> zlen ls <= T /\ writes_fit d L T r bufs
  end.
End Lines.

(** ** Properties *)

(** C35. [Parser::parseData] ends for every protocol whose own operations end:
    the TTL counter bounds the recursion, also when a sub-parser keeps taking
    nothing of its input. *)
Theorem write_terminates {P} `{!ParserImpl P} (p : Parser P) (buf : bytes) :
  ParserEnds P -> 0 <= m_maxTTL p -> sink_write buf p <> NoFuel.
Proof.
  intros He Ht. cbn [sink_write parser_sink]. unfold pr_write, parse_fuel.
  destruct (_ =? 0); apply parseData_ends; lia.
Qed.

(** A successful [Parser::write] has taken the whole input, unless the
    protocol ended on the way (no current sub-parser): nothing is dropped
    silently. *)
Theorem write_consumes {P} `{!ParserImpl P} (p p' : Parser P) (buf : bytes) (n : Z) :
  takes_at_most P -> zlen buf < SIZE_MOD -> sink_write buf p = Ret (p', Some n) ->
  0 <= n <= zlen buf /\ (n = zlen buf \/ currentSubParser (pr_impl p') = false).
Proof.
  intros Ht Hb. cbn [sink_write parser_sink]. unfold pr_write.
  destruct (Z.eqb_spec (zlen buf) 0) as [E|E].
  - apply zlen_zero_nil in E as ->. by apply parseData_consumes.
  - by apply parseData_consumes.
Qed.

(** C20. The delimiter strategy does not depend on fragmentation: a line protocol
    collects exactly the elements of the whole stream split at the delimiter, in
    order, and keeps the unfinished rest buffered, in whatever way the stream is cut
    into writes that are not empty, that fit the limit together with what is
    pending, and that complete no more elements each than the TTL of the parser. *)
Theorem lines_any_fragmentation {M} `{Container M} `{!MMapFile M} (d : bytes) (L : Z)
    (p : Parser (SubParser M (list bytes))) (bufs : list bytes) :
  line_ready d (pr_impl p) -> within L (pr_impl p) -> 0 <= m_maxTTL p ->
  writes_fit d L (m_maxTTL p) (pending (pr_impl p)) bufs ->
  exists p' ls r, write_all (ParserImpl0 := line_protocol) bufs p = Ret (p', true) /\
    splits d (pending (pr_impl p) ++ concat bufs) ls r /\
    sp_sub (pr_impl p') = sp_sub (pr_impl p) ++ ls /\ pending (pr_impl p') = r.
Proof.
  intros Hr Hw Ht. revert p Hr Hw Ht. induction bufs as [|b bufs IH]; intros p Hr Hw Ht Hfit.
  { exists p, [], (pending (pr_impl p)). cbn [concat]. rewrite !app_nil_r. split_and!; try done.
    apply splits_rest, Hr. }
  destruct Hfit as (Hb & Hlen & Hrest). cbn [write_all concat].
  destruct (splits_total d (pending (pr_impl p) ++ b)) as (ls1 & r1 & Hs1); [apply Hr|].
  destruct (Hrest ls1 r1 Hs1) as [Httl Hfit'].
  unfold pr_write. destruct (Z.eqb_spec (zlen b) 0) as [E|_]; [by apply zlen_zero_nil in E|].
  destruct (parseData_lines d L (parse_fuel p) b 0 p ls1 r1) as (p1 & Hp & Hr1 & Hw1 & Hp1 & Hsub & Httl1);
    try done.
  { unfold parse_fuel, zlen in *. lia. }
  rewrite Hp. cbn [mbind outcome_bind has_value].
  destruct (IH p1) as (p' & ls2 & r2 & Hall & Hs2 & Hsub2 & Hpend); [done|done|lia|by rewrite Httl1, Hp1|].
  exists p', (ls1 ++ ls2), r2. split_and!; [done| |by rewrite Hsub2, Hsub, <- app_assoc|done].
  rewrite app_assoc. apply splits_app with (r1 := r1); [apply Hr|done|]. by rewrite <- Hp1.
Qed.

(** A protocol of two stages, each a byte counter: the first stage takes one
    byte and moves on, the second takes everything and ends the protocol. *)
Definition two_stages : ParserImpl (Z * ParseResult) := {|
  currentSubParser x := x.1 <? 2;
  cur_setParseResult r x := (x.1, r);
  cur_writeIntoSubParser buf x :=
    Ret ((x.1, GOTO_NEXT_SUBPARSER), Some (if x.1 =? 0 then Z.min 1 (zlen buf) else zlen buf));
  cur_getParseStatus x := x.2;
  changeToNextParser x := Ret ((x.1 + 1, x.2), true);
  initProtocol x := Ret (x, true);
  endProtocol x := Ret x |}.

(** A protocol whose sub-parser never takes anything. *)
Definition stuck : ParserImpl unit := {|
  currentSubParser _ := true;
  cur_setParseResult _ x := x;
  cur_writeIntoSubParser _ x := Ret (x, Some 0);
  cur_getParseStatus _ := GET_MORE_DATA;
  changeToNextParser x := Ret (x, false);
  initProtocol x := Ret (x, true);
  endProtocol x := Ret x |}.

Lemma write_terminates_witness :
  sink_write (Sink := parser_sink (ParserImpl0 := stuck)) (bs "abc") (setMaxTTL 3 (pr_new tt)) <> NoFuel.
Proof.
  refine (write_terminates (ParserImpl0 := stuck) (setMaxTTL 3 (pr_new tt)) (bs "abc") _ _).
  - split; discriminate.
  - discriminate.
Defined.

Lemma write_consumes_witness :
  exists p', sink_write (Sink := parser_sink (ParserImpl0 := two_stages)) (bs "abc") (pr_new (0, GET_MORE_DATA))
      = Ret (p', Some 3) /\
    0 <= 3 <= 3 /\ (3 = 3 \/ currentSubParser (ParserImpl := two_stages) (pr_impl p') = false).
Proof.
  eexists. split; [vm_compute; reflexivity|].
  refine (write_consumes (ParserImpl0 := two_stages) (pr_new (0, GET_MORE_DATA)) _ (bs "abc") 3 _ _ _).
  - intros buf x x' n [= <- <-]. pose proof (zlen_nonneg buf). destruct (x.1 =? 0); lia.
  - reflexivity.
  - vm_compute. reflexivity.
Defined.

Definition semicolons : Parser (SubParser B_MEM (list bytes)) :=
  pr_new (setParseDelimiter (bs ";") (sp_new [])).

Lemma semicolons_ready : line_ready (bs ";") (pr_impl semicolons).
Proof.
  split; try reflexivity.
  - split; try reflexivity; unfold bc_offsets_ok, bc_ok; by vm_compute.
  - split_and!; [discriminate|by repeat constructor|reflexivity].
Qed.

Lemma lines_any_fragmentation_witness :
  exists p' ls r,
    write_all (ParserImpl0 := line_protocol (M := B_MEM) (MMapFile0 := no_files)) [bs "ab;c"; bs "d;;e"] semicolons = Ret (p', true) /\
    splits (bs ";") (bs "ab;cd;;e") ls r /\ sp_sub (pr_impl p') = ls /\ pending (pr_impl p') = r.
Proof.
  refine (lines_any_fragmentation (MMapFile0 := no_files) (bs ";") 100 semicolons
            [bs "ab;c"; bs "d;;e"] semicolons_ready _ _ _).
  - by vm_compute.
  - discriminate.
  - split; [discriminate|]. split; [by vm_compute|]. intros ls r Hs.
    assert (splits (bs ";") (bs "ab;c") [bs "ab"] (bs "c")) as H1.
    { refine (splits_element _ _ 2 _ _ _ _); [reflexivity|]. by apply splits_rest. }
    destruct (splits_det _ _ _ _ _ _ Hs H1) as [-> ->]. split; [by vm_compute|].
    split; [discriminate|]. split; [by vm_compute|]. intros ls r Hs2. split; [|exact I].
    assert (splits (bs ";") (bs "cd;;e") [bs "cd"; []] (bs "e")) as H2.
    { refine (splits_element _ _ 2 _ _ _ _); [reflexivity|].
      refine (splits_element _ _ 0 _ _ _ _); [reflexivity|]. by apply splits_rest. }
    destruct (splits_det _ _ _ _ _ _ Hs2 H2) as [-> ->]. by vm_compute.
Defined.

(** A parser in the [DIRECT_DELIMITER] strategy with the delimiter CR LF "--B",
    as the multipart parser of the MIME protocol uses it. *)
Definition boundary_parser : Parser (SubParser B_MEM (list bytes)) :=
  pr_new (setParseDelimiter ([13; 10] ++ bs "--B")
    (setParseStrategy (MMapFile0 := no_files) DIRECT_DELIMITER (sp_new []))).

(** The [DIRECT_DELIMITER] strategy does depend on fragmentation: the body
    "xy" CR LF "--B" is content "xy" and a found delimiter when it arrives in one
    write, and when it arrives byte by byte the delimiter is missed and the bytes
    handed to [parse()] are "xyB" (the buffer's offsets are wrong after
    [displace], so the possible delimiter is no longer recognised). *)
Theorem direct_delimiter_fragmentation :
  let body := bs "xy" ++ [13; 10] ++ bs "--B" in
  (exists p, write_all (ParserImpl0 := line_protocol (MMapFile0 := no_files)) [body] boundary_parser = Ret (p, true) /\
     concat (sp_sub (pr_impl p)) = bs "xy" /\ m_delimiterFound (pr_impl p) = [13; 10] ++ bs "--B") /\
  (exists p, write_all (ParserImpl0 := line_protocol (MMapFile0 := no_files)) (map (fun b => [b]) body) boundary_parser = Ret (p, true) /\
     concat (sp_sub (pr_impl p)) = bs "xyB" /\ m_delimiterFound (pr_impl p) = []).
Proof. split; eexists; (split; [vm_compute; reflexivity|by vm_compute]). Qed.
