(* ===== verification/PartsTheory.v ===== *)
(** * Parts of a protocol (over Parser.v)

    A protocol that has several sub-parsers writes into one of them at a time.
    [Part] is what its client needs to know of one of them: when it is the current
    one, and that the operations of the protocol are then those of the sub-parser.
    Against it a step of [parseData] is described once for every protocol, and a
    part that lasts until the end of the protocol behaves as a parser that has
    nothing else ([alone]). *)

From S2P Require Import Prelude SafeInt Mem Streamable Container ContainerTheory BMem BChunks ChunkBuffer BRef.
From S2P Require Import SubParser Parser.
From Stdlib Require Import ZArith Lia.

(** ** One step of [parseData] *)
Section Steps.
Context {T : Type} `{!ParserImpl T}.
Implicit Types P : Parser T.

(** What [parseData] does with a text it takes whole. *)
Definition parses fuel (text : bytes) ttl P P' : Prop :=
  parseData fuel text ttl P = Ret (P', Some (zlen text)).

Lemma parses_more fuel a b ttl P P' x :
  ttl <= m_maxTTL P -> currentSubParser (pr_impl P) = true -> zlen (a ++ b) < SIZE_MOD -> b <> [] ->
  cur_writeIntoSubParser (a ++ b) (cur_setParseResult GET_MORE_DATA (pr_impl P)) = Ret (x, Some (zlen a)) ->
  cur_getParseStatus x = GET_MORE_DATA -> parses fuel b (ttl + 1) (pr_set_impl x P) P' ->
  parses (Datatypes.S fuel) (a ++ b) ttl P P'.
Proof.
  intros Ht Hc Hsz Hb Hw Hst Hp. unfold parses in *. pose proof (nonempty_length b Hb). pose proof (zlen_nonneg a).
  rewrite zlen_app in Hsz. rewrite (parseData_more _ _ _ _ x (zlen a)) by (done || (rewrite zlen_app; lia)).
  rewrite zdrop_app_ge, Z.sub_diag, zdrop_le0 by lia. rewrite Hp. cbn [mbind outcome_bind option_map].
  by rewrite wrap_small, zlen_app, Z.add_comm by lia.
Qed.

Lemma parses_next fuel a b ttl P P' x y :
  ttl <= m_maxTTL P -> currentSubParser (pr_impl P) = true -> zlen (a ++ b) < SIZE_MOD -> b <> [] ->
  cur_writeIntoSubParser (a ++ b) (cur_setParseResult GET_MORE_DATA (pr_impl P)) = Ret (x, Some (zlen a)) ->
  cur_getParseStatus x = GOTO_NEXT_SUBPARSER -> changeToNextParser x = Ret (y, true) -> currentSubParser y = true ->
  parses fuel b (ttl + 1) (pr_set_impl y P) P' ->
  parses (Datatypes.S fuel) (a ++ b) ttl P P'.
Proof.
  intros Ht Hc Hsz Hb Hw Hst Hch Hy Hp. unfold parses in *. pose proof (nonempty_length b Hb). pose proof (zlen_nonneg a).
  rewrite zlen_app in Hsz. destruct (parseData_next fuel (a ++ b) ttl P x (zlen a)) as (Hn & _); [done..|].
  rewrite (Hn y) by (done || (rewrite zlen_app; lia)).
  rewrite zdrop_app_ge, Z.sub_diag, zdrop_le0 by lia. rewrite Hp. cbn [mbind outcome_bind option_map].
  by rewrite wrap_small, zlen_app, Z.add_comm by lia.
Qed.

(** The end of a protocol step that leaves nothing to read. *)
Definition after_change (y : T) P : Parser T :=
  if currentSubParser y then pr_set_impl y P else pr_set_finished true (pr_set_impl y P).

Lemma parses_last fuel a ttl P x y :
  ttl <= m_maxTTL P -> currentSubParser (pr_impl P) = true ->
  cur_writeIntoSubParser a (cur_setParseResult GET_MORE_DATA (pr_impl P)) = Ret (x, Some (zlen a)) ->
  cur_getParseStatus x = GOTO_NEXT_SUBPARSER -> changeToNextParser x = Ret (y, true) ->
  parses (Datatypes.S fuel) a ttl P (after_change y P).
Proof.
  intros Ht Hc Hw Hst Hch. unfold parses, after_change. cbn [parseData]. replace (ttl >? m_maxTTL P) with false by lia.
  rewrite Hc. cbn [pr_set_impl pr_impl]. rewrite Hw. cbn [mbind outcome_bind]. rewrite Hst. cbn [pr_set_impl pr_impl].
  rewrite Hch. cbn [mbind outcome_bind negb pr_set_impl pr_impl].
  destruct (currentSubParser y) eqn:Ey; cbn [negb pr_set_finished pr_set_status pr_set_impl pr_impl]; rewrite Ey, ?Z.eqb_refl; done.
Qed.
End Steps.

(** A protocol that has ended takes nothing more. *)
Lemma ended_write {T} `{!ParserImpl T} b (P : Parser T) : currentSubParser (pr_impl P) = false -> pr_write b P = Ret (P, None).
Proof.
  intros Hc. unfold pr_write, parse_fuel. replace (Z.to_nat (m_maxTTL P) + 2)%nat with (Datatypes.S (Z.to_nat (m_maxTTL P) + 1)) by lia.
  cbn [parseData]. rewrite Hc. by destruct (zlen b =? 0), (0 >? m_maxTTL P).
Qed.

(** ** Parts *)
Section Parts.
Context {T : Type} `{!ParserImpl T} {M : Type} `{Container M} `{!MMapFile M} {X : Type} `{!SubParserImpl M X}.

Record Part := {
  part_current : T -> Prop;
  part_get : T -> SubParser M X;
  part_set : SubParser M X -> T -> T;
  part_get_set p x : part_get (part_set p x) = p;
  part_set_set p q x : part_set p (part_set q x) = part_set p x;
  part_set_get x : part_set (part_get x) x = x;
  part_stays p x : part_current x -> part_current (part_set p x);
  part_active x : part_current x -> currentSubParser x = true;
  part_result r x : part_current x -> cur_setParseResult r x = part_set (setParseResult r (part_get x)) x;
  part_write buf x : part_current x ->
    cur_writeIntoSubParser buf x = ('(p, n) ← writeIntoSubParser buf (part_get x); Ret (part_set p x, n));
  part_status x : part_current x -> cur_getParseStatus x = m_parseStatus (part_get x) }.

Context (part : Part).
Implicit Types P : Parser T.

(** A write into the part. *)
Lemma part_written buf x p n :
  part_current part x -> writeIntoSubParser buf (setParseResult GET_MORE_DATA (part_get part x)) = Ret (p, n) ->
  cur_writeIntoSubParser buf (cur_setParseResult GET_MORE_DATA x) = Ret (part_set part p x, n) /\
  cur_getParseStatus (part_set part p x) = m_parseStatus p /\ currentSubParser x = true.
Proof.
  intros Hc E. rewrite (part_result part) by done. rewrite (part_write part) by by apply part_stays. rewrite part_get_set, E.
  cbn [mbind outcome_bind]. rewrite part_set_set. split; [done|]. split; [|by apply (part_active part)].
  rewrite (part_status part) by by apply part_stays. by rewrite part_get_set.
Qed.

(** A protocol of one sub-parser, which ends with it. *)
Definition alone : ParserImpl (SubParser M X * bool) := {|
  currentSubParser x := x.2;
  cur_setParseResult r x := (setParseResult r x.1, x.2);
  cur_writeIntoSubParser buf x := '(p, r) ← writeIntoSubParser buf x.1; Ret ((p, x.2), r);
  cur_getParseStatus x := m_parseStatus x.1;
  changeToNextParser x := Ret ((x.1, false), true);
  initProtocol x := Ret (x, true);
  endProtocol x := Ret x |}.

(** The parser that has nothing but the part. *)
Definition only_part P : Parser (SubParser M X * bool) :=
  mkParser (pr_writeStatus P) (m_maxTTL P) (m_initialized P) (part_get part (pr_impl P), true).

Definition part_back (Q : Parser (SubParser M X * bool)) P : Parser T := pr_set_impl (part_set part (pr_impl Q).1 (pr_impl P)) P.

(** The part is the last one: the protocol ends with it. *)
Definition ends_after (Q : Parser (SubParser M X * bool)) P (y : T) : Prop :=
  changeToNextParser (part_set part (pr_impl Q).1 (pr_impl P)) = Ret (y, true) /\ currentSubParser y = false.

Lemma part_back_only P : part_back (only_part P) P = P.
Proof. unfold part_back. cbn [only_part pr_impl fst]. rewrite part_set_get. by destruct P. Qed.

Lemma part_back_set Q p P : part_back Q (pr_set_impl (part_set part p (pr_impl P)) P) = part_back Q P.
Proof. unfold part_back. cbn [pr_set_impl pr_impl]. by rewrite part_set_set. Qed.

Lemma only_part_set p P : only_part (pr_set_impl (part_set part p (pr_impl P)) P) = pr_set_impl (p, true) (only_part P).
Proof. unfold only_part. cbn. by rewrite part_get_set. Qed.

Lemma parseData_part fuel buf ttl P Q' r :
  part_current part (pr_impl P) -> parseData (ParserImpl0 := alone) fuel buf ttl (only_part P) = Ret (Q', r) ->
  if (pr_impl Q').2 then parseData fuel buf ttl P = Ret (part_back Q' P, r) /\ Q' = only_part (part_back Q' P)
  else forall y, ends_after Q' P y -> parseData fuel buf ttl P = Ret (pr_set_finished true (pr_set_impl y P), r).
Proof.
  revert buf ttl P Q' r. induction fuel as [|fuel IH]; intros buf ttl P Q' r Hc; [done|]. cbn [parseData].
  change (m_maxTTL (only_part P)) with (m_maxTTL P). destruct (ttl >? m_maxTTL P).
  { intros [= <- <-]. cbn [only_part pr_impl snd]. by rewrite part_back_only. }
  cbn [only_part pr_impl currentSubParser alone snd fst pr_set_impl cur_setParseResult cur_writeIntoSubParser].
  destruct (writeIntoSubParser buf (setParseResult GET_MORE_DATA (part_get part (pr_impl P)))) as [[p n]| | |] eqn:Ew; try done.
  destruct (part_written buf (pr_impl P) p n Hc Ew) as (Ew' & Est & ->). cbn [pr_set_impl pr_impl]. rewrite Ew'. cbn [mbind outcome_bind].
  assert (Hstep : forall m, Ret (pr_set_impl (p, true) (only_part P), m) = Ret (Q', r) ->
    if (pr_impl Q').2 then Ret (pr_set_impl (part_set part p (pr_impl P)) P, m) = Ret (part_back Q' P, r) /\ Q' = only_part (part_back Q' P)
    else forall y, ends_after Q' P y -> Ret (pr_set_impl (part_set part p (pr_impl P)) P, m) = Ret (pr_set_finished true (pr_set_impl y P), r)).
  { intros m [= <- <-]. cbn [pr_set_impl pr_impl snd]. split; [done|]. unfold only_part, part_back. cbn. by rewrite part_get_set. }
  destruct n as [n|]; [|apply Hstep]. cbn [pr_set_impl pr_impl cur_getParseStatus alone fst]. rewrite Est.
  destruct (m_parseStatus p); [apply Hstep| |].
  - destruct (n =? zlen buf) eqn:En; [apply Hstep|]. unfold parse_rest. rewrite En. cbn [negb].
    match goal with |- context [parseData fuel _ _ ?Q] => change Q with (pr_set_impl (p, true) (only_part P)) end.
    rewrite <- (only_part_set p P).
    change (pr_set_impl (part_set part p (pr_impl P)) (pr_set_impl (cur_setParseResult GET_MORE_DATA (pr_impl P)) P)) with (pr_set_impl (part_set part p (pr_impl P)) P).
    destruct (parseData (ParserImpl0 := alone) fuel (zdrop n buf) (ttl + 1) (only_part _)) as [[Q1 m]| | |] eqn:E1; try done.
    apply IH in E1; [|by apply part_stays]. rewrite part_back_set in E1. unfold ends_after in E1. cbn [pr_set_impl pr_impl] in E1. rewrite part_set_set in E1.
    cbn [mbind outcome_bind]. intros E. assert (Q' = Q1 /\ r = match m with None => None | Some k => Some (wrap (k + n)) end) as [-> ->] by (destruct m; by injection E).
    destruct (pr_impl Q1).2; [destruct E1 as [E1 E2]; rewrite E1; split; [by destruct m|exact E2]|]. intros y Hy. rewrite (E1 y Hy). by destruct m.
  - cbn [mbind outcome_bind changeToNextParser alone fst negb pr_set_impl pr_impl currentSubParser snd orb pr_set_finished pr_set_status].
    intros [= <- <-]. cbn [pr_impl snd]. intros y [Hch Hy]. cbn [pr_set_finished pr_set_status pr_set_impl pr_impl fst] in Hch. rewrite Hch. cbn [mbind outcome_bind negb pr_set_impl pr_impl].
    rewrite Hy. cbn [negb pr_set_finished pr_set_status pr_set_impl pr_impl]. by rewrite Hy.
Qed.

(** Any sequence of writes. *)
Lemma write_all_part bufs P Q' ok :
  part_current part (pr_impl P) -> write_all (ParserImpl0 := alone) bufs (only_part P) = Ret (Q', ok) ->
  if (pr_impl Q').2 then write_all bufs P = Ret (part_back Q' P, ok) /\ Q' = only_part (part_back Q' P)
  else forall y, ends_after Q' P y -> exists P', write_all bufs P = Ret (P', ok) /\ pr_impl P' = y.
Proof.
  revert P. induction bufs as [|b bufs IH]; intros P Hc; cbn [write_all].
  { intros [= <- <-]. cbn [only_part pr_impl snd]. by rewrite part_back_only. }
  unfold pr_write, parse_fuel. change (m_maxTTL (only_part P)) with (m_maxTTL P).
  replace (if zlen b =? 0 then parseData (Z.to_nat (m_maxTTL P) + 2) [] 0 P else parseData (Z.to_nat (m_maxTTL P) + 2) b 0 P)
    with (parseData (Z.to_nat (m_maxTTL P) + 2) b 0 P) by (destruct (Z.eqb_spec (zlen b) 0) as [E|E]; [by apply zlen_zero_nil in E as ->|done]).
  replace (if zlen b =? 0 then parseData (ParserImpl0 := alone) (Z.to_nat (m_maxTTL P) + 2) [] 0 (only_part P) else parseData (ParserImpl0 := alone) (Z.to_nat (m_maxTTL P) + 2) b 0 (only_part P))
    with (parseData (ParserImpl0 := alone) (Z.to_nat (m_maxTTL P) + 2) b 0 (only_part P)) by (destruct (Z.eqb_spec (zlen b) 0) as [E|E]; [by apply zlen_zero_nil in E as ->|done]).
  destruct (parseData (ParserImpl0 := alone) _ b 0 (only_part P)) as [[Q1 r]| | |] eqn:E1; try done.
  apply parseData_part in E1; [|done]. cbn [mbind outcome_bind]. destruct (pr_impl Q1).2 eqn:Eq.
  - destruct E1 as [-> E1]. cbn [mbind outcome_bind]. destruct (has_value r); [|intros [= <- <-]; rewrite Eq; by split].
    intros E. rewrite E1 in E. apply IH in E; [|by apply part_stays]. unfold part_back, ends_after in E |- *. cbn [pr_set_impl pr_impl] in E.
    rewrite !part_set_set in E. exact E.
  - intros E. assert ((pr_impl Q').2 = false /\ (pr_impl Q').1 = (pr_impl Q1).1 /\ ok = (if has_value r then bool_decide (bufs = []) else false)) as (Eq' & Ei & ->).
    { destruct (has_value r); [|by injection E as <- <-]. destruct bufs as [|b2 bufs]; cbn [write_all] in E; [by injection E as <- <-|].
      rewrite ended_write in E by done. by injection E as <- <-. }
    rewrite Eq'. intros y Hy. unfold ends_after in Hy. rewrite Ei in Hy. rewrite (E1 y Hy). cbn [mbind outcome_bind].
    destruct (has_value r); [|by eexists]. destruct bufs as [|b2 bufs]; [by eexists|]. cbn [write_all]. rewrite ended_write by by destruct Hy. by eexists.
Qed.
End Parts.
