(* ===== verification/CLib.v ===== *)
(** * The C and C++ library functions the protocols use

    Character strings are lists of bytes.  This file defines the functions of
    the standard library and of Boost.StringAlgo the protocol code calls on
    them, in the C locale: [strtoul], [std::to_string] and the [%X] conversion,
    [find], [substr], [trim], [to_upper_copy], [split], and proves the facts the
    clients share: numbers that are printed are read back. *)

From S2P Require Import Prelude.
From Stdlib Require Import ZArith Lia.

(** ** Characters *)

(** [isspace] of the C locale: tab, line feed, vertical tab, form feed,
    carriage return, space. *)
Definition isspace (c : Z) : bool := ((9 <=? c) && (c <=? 13)) || (c =? 32).

Definition to_upper_copy (s : bytes) : bytes := map toupper s.
Definition to_lower_copy (s : bytes) : bytes := map tolower s.

(** The characters [c_str()] shows to a C function: up to the first zero. *)
Fixpoint c_str (s : bytes) : bytes :=
  match s with
  | [] => []
  | c :: s => if c =? 0 then [] else c :: c_str s
  end.

(** ** [strtoul]

    The value of a digit, letters counting from 10. *)
Definition digit_value (c : Z) : option Z :=
  if isdigit c then Some (c - 48)
  else if islower c then Some (c - 87)
  else if isupper c then Some (c - 55)
  else None.

(** The longest run of digits of the base, its value, and the rest. *)
Fixpoint read_digits (base acc : Z) (s : bytes) : Z * bytes :=
  match s with
  | [] => (acc, [])
  | c :: s' =>
      match digit_value c with
      | Some d => if d <? base then read_digits base (acc * base + d) s' else (acc, s)
      | None => (acc, s)
      end
  end.

Fixpoint skip_space (s : bytes) : bytes :=
  match s with
  | c :: s' => if isspace c then skip_space s' else s
  | [] => []
  end.

(** A sign, if there is one. *)
Definition read_sign (s : bytes) : bool * bytes :=
  match s with
  | c :: s' => if c =? 45 then (true, s') else if c =? 43 then (false, s') else (false, s)
  | [] => (false, [])
  end.

(** The prefix 0x, which base 16 accepts when a digit follows it. *)
Definition skip_0x (base : Z) (s : bytes) : bytes :=
  match s with
  | z :: x :: d :: s' =>
      if (base =? 16) && (z =? 48) && (toupper x =? 88) && isxdigit d then d :: s' else s
  | _ => s
  end.

(** A string that starts with a digit of the base. *)
Definition has_digit (base : Z) (s : bytes) : bool :=
  match s with
  | c :: _ => match digit_value c with Some d => d <? base | None => false end
  | [] => false
  end.

Definition ULONG_MAX : Z := SIZE_MAX.

(** [strtoul(s.c_str(), &end, base)]: the value and what [end] points to;
    [None] is an [end] that equals the start (nothing was converted).  A value
    out of range is [ULONG_MAX]; a minus sign negates in the unsigned type. *)
Definition strtoul (base : Z) (str : bytes) : Z * option bytes :=
  let s := c_str str in
  let '(neg, t) := read_sign (skip_space s) in
  let t := skip_0x base t in
  if has_digit base t then
    let '(v, rest) := read_digits base 0 t in
    (if v >? ULONG_MAX then ULONG_MAX else if neg then wrap (- v) else v, Some rest)
  else (0, None).

Definition LONG_MAX : Z := 9223372036854775807.
Definition LONG_MIN : Z := - LONG_MAX - 1.

(** [strtol] and [strtoll]: a value out of range is the nearest one of the type. *)
Definition strtol_end (base : Z) (str : bytes) : Z * option bytes :=
  let '(neg, t) := read_sign (skip_space (c_str str)) in
  let t := skip_0x base t in
  if has_digit base t then
    let '(v, rest) := read_digits base 0 t in
    let v := if neg then - v else v in
    (if v >? LONG_MAX then LONG_MAX else if v <? LONG_MIN then LONG_MIN else v, Some rest)
  else (0, None).

(** ** Printing numbers *)

(** The digit of a value, in upper case. *)
Definition digit_char (d : Z) : Z := if d <? 10 then 48 + d else 55 + d.

Fixpoint print_digits (fuel : nat) (base n : Z) : bytes :=
  match fuel with
  | O => [digit_char (n mod base)]
  | S fuel => if n <? base then [digit_char n] else print_digits fuel base (n / base) ++ [digit_char (n mod base)]
  end.

(** The digits of [n] in a base from 2 on: each of them takes at least a bit. *)
Definition print_base (base n : Z) : bytes := print_digits (Z.to_nat (Z.log2 n)) base n.

(** The [%X] conversion of an [unsigned int], and [std::to_string]. *)
Definition print_X (n : Z) : bytes := print_base 16 n.
Definition to_string (n : Z) : bytes := print_base 10 n.

(** [std::to_string] of a signed type. *)
Definition to_string_signed (n : Z) : bytes := if n <? 0 then 45 :: to_string (- n) else to_string n.

(** The precision of a conversion: zeros up to a number of digits. *)
Definition pad_zeros (k : Z) (s : bytes) : bytes := replicate (Z.to_nat (k - zlen s)) 48 ++ s.

(** ** Strings *)

(** [s.find(c)], [npos] as [None]. *)
Fixpoint find_char (c : Z) (s : bytes) : option Z :=
  match s with
  | [] => None
  | x :: s => if x =? c then Some 0 else option_map (Z.add 1) (find_char c s)
  end.

Fixpoint starts_with (s prefix : bytes) : bool :=
  match prefix, s with
  | [], _ => true
  | p :: prefix, c :: s => (c =? p) && starts_with s prefix
  | _ :: _, [] => false
  end.

(** [s.find(needle)] for a needle that is not empty. *)
Fixpoint find_str (needle s : bytes) : option Z :=
  if starts_with s needle then Some 0
  else match s with
       | [] => None
       | _ :: s => option_map (Z.add 1) (find_str needle s)
       end.

Fixpoint trim_left (s : bytes) : bytes :=
  match s with
  | c :: s' => if isspace c then trim_left s' else s
  | [] => []
  end.

Definition trim (s : bytes) : bytes := reverse (trim_left (reverse (trim_left s))).

Definition iequals (a b : bytes) : bool := bool_decide (to_upper_copy a = to_upper_copy b).
Definition icontains (s needle : bytes) : bool := has_value (find_str (to_upper_copy needle) (to_upper_copy s)).

(** [boost::split] with [token_compress_on]: neighbouring separators count as
    one; a separator at an end leaves an empty token there. *)
Fixpoint split_compress (sep : Z -> bool) (skipping : bool) (tok s : bytes) : list bytes :=
  match s with
  | [] => [tok]
  | c :: s =>
      if sep c then
        if skipping then split_compress sep true [] s else tok :: split_compress sep true [] s
      else split_compress sep false (tok ++ [c]) s
  end.

Definition split_on (sep : bytes) (s : bytes) : list bytes :=
  split_compress (fun c => existsb (Z.eqb c) sep) false [] s.

(** ** Facts *)

Lemma c_str_nul_free s : 0 ∉ s -> c_str s = s.
Proof.
  induction s as [|c s IH]; [done|]. intros Hn. cbn [c_str]. apply not_elem_of_cons in Hn as [H1 H2].
  destruct (Z.eqb_spec c 0); [by subst|]. by rewrite IH.
Qed.

(** *** Numbers *)

Lemma digit_value_char d : 0 <= d < 36 -> digit_value (digit_char d) = Some d.
Proof.
  intros Hd. unfold digit_char, digit_value, isdigit, islower, isupper. destruct (Z.ltb_spec d 10).
  - replace ((48 <=? 48 + d) && (48 + d <=? 57)) with true by lia. f_equal. lia.
  - replace ((48 <=? 55 + d) && (55 + d <=? 57)) with false by lia.
    replace ((97 <=? 55 + d) && (55 + d <=? 122)) with false by lia.
    replace ((65 <=? 55 + d) && (55 + d <=? 90)) with true by lia. f_equal. lia.
Qed.

Lemma digit_char_range d : 0 <= d < 36 -> 48 <= digit_char d <= 90.
Proof. unfold digit_char. destruct (Z.ltb_spec d 10); lia. Qed.

(** Digits that were printed are read as the same number. *)
Lemma read_print_digits fuel base acc n rest :
  2 <= base <= 36 -> 0 <= n < base ^ (Z.of_nat fuel + 1) ->
  exists k, 0 < k /\ (forall acc', read_digits base acc' (print_digits fuel base n ++ rest) =
    read_digits base (acc' * base ^ k + n) rest) /\ zlen (print_digits fuel base n) = k /\
  read_digits base acc (print_digits fuel base n ++ rest) = read_digits base (acc * base ^ k + n) rest.
Proof.
  intros Hb. revert n rest acc. induction fuel as [|fuel IH]; intros n rest acc Hn.
  - exists 1. cbn [print_digits app read_digits]. rewrite Z.mod_small by lia.
    rewrite digit_value_char by lia. replace (n <? base) with true by lia. rewrite Z.pow_1_r.
    by split_and!; [lia|..].
  - cbn [print_digits]. destruct (Z.ltb_spec n base) as [Hlt|Hge].
    + exists 1. cbn [app read_digits]. rewrite digit_value_char by lia. replace (n <? base) with true by lia.
      rewrite Z.pow_1_r. by split_and!; [lia|..].
    + assert (0 <= n / base < base ^ (Z.of_nat fuel + 1)) as Hd.
      { split; [apply Z.div_pos; lia|]. apply Z.div_lt_upper_bound; [lia|].
        rewrite <- Z.pow_succ_r by lia. replace (Z.succ _) with (Z.of_nat (S fuel) + 1) by lia. lia. }
      destruct (IH (n / base) ([digit_char (n mod base)] ++ rest) acc Hd) as (k & Hk & Hall & Hl & _).
      assert (0 <= n mod base < base) by (apply Z.mod_pos_bound; lia).
      assert (forall acc', read_digits base acc' ((print_digits fuel base (n / base) ++ [digit_char (n mod base)]) ++ rest) =
        read_digits base (acc' * base ^ (k + 1) + n) rest) as Hr.
      { intros acc'. rewrite <- app_assoc, Hall. cbn [app read_digits]. rewrite digit_value_char by lia.
        replace (n mod base <? base) with true by lia. f_equal.
        rewrite Z.pow_add_r, Z.pow_1_r by lia. pose proof (Z.div_mod n base). nia. }
      exists (k + 1). split_and!; [lia|exact Hr|rewrite zlen_app; by rewrite Hl|apply Hr].
Qed.

Lemma print_base_bound base n : 2 <= base -> 0 <= n -> n < base ^ (Z.of_nat (Z.to_nat (Z.log2 n)) + 1).
Proof.
  intros Hb Hn. rewrite Z2Nat.id by apply Z.log2_nonneg. destruct (Z.eq_dec n 0) as [->|].
  - cbn. lia.
  - pose proof (Z.log2_spec n). assert (2 ^ Z.succ (Z.log2 n) <= base ^ Z.succ (Z.log2 n)) by (apply Z.pow_le_mono_l; lia).
    replace (Z.log2 n + 1) with (Z.succ (Z.log2 n)) by lia. lia.
Qed.

(** The characters of a printed number. *)
Lemma print_digits_chars fuel base n :
  2 <= base <= 36 -> 0 <= n -> Forall (fun c => exists d, c = digit_char d /\ 0 <= d < base) (print_digits fuel base n).
Proof.
  intros Hb. revert n. induction fuel as [|fuel IH]; intros n Hn; cbn [print_digits].
  - repeat constructor. exists (n mod base). split; [done|]. apply Z.mod_pos_bound. lia.
  - destruct (Z.ltb_spec n base).
    + repeat constructor. by exists n.
    + apply Forall_app. split; [apply IH, Z.div_pos; lia|]. repeat constructor. exists (n mod base). split; [done|].
      apply Z.mod_pos_bound. lia.
Qed.

Lemma print_base_chars base n :
  2 <= base <= 36 -> 0 <= n -> Forall (fun c => exists d, c = digit_char d /\ 0 <= d < base) (print_base base n).
Proof. apply print_digits_chars. Qed.

Lemma print_base_bytes base n : 2 <= base <= 36 -> 0 <= n -> Forall is_byte (print_base base n).
Proof.
  intros Hb Hn. eapply Forall_impl; [by apply print_base_chars|]. intros c (d & -> & Hd).
  pose proof (digit_char_range d). unfold is_byte. lia.
Qed.

Lemma print_digits_cons fuel base n :
  2 <= base <= 36 -> 0 <= n ->
  exists d l, print_digits fuel base n = digit_char d :: l /\ 0 <= d < base.
Proof.
  intros Hb Hn. pose proof (print_digits_chars fuel base n Hb Hn) as Hc.
  destruct (print_digits fuel base n) as [|c l] eqn:E.
  - destruct fuel; cbn in E; [done|]. destruct (_ <? _); [done|]. by apply app_nil in E as [_ ?].
  - apply Forall_cons in Hc as [(d & -> & Hd) _]. by exists d, l.
Qed.

(** The digit before an [x] of base 16 is a zero, which no number starts with
    unless it is the number zero. *)
Lemma skip_0x_digits base s :
  Forall (fun c => exists d, c = digit_char d /\ 0 <= d < 16) s -> skip_0x base s = s.
Proof.
  intros Hs. destruct s as [|z [|x [|d s]]]; try done. cbn [skip_0x].
  apply Forall_cons in Hs as [_ Hs]. apply Forall_cons in Hs as [(v & -> & Hv) _].
  assert ((toupper (digit_char v) =? 88) = false) as ->; [|by rewrite !andb_false_r, ?andb_false_l].
  unfold toupper, islower, digit_char. destruct (Z.ltb_spec v 10).
  - replace ((97 <=? 48 + v) && (48 + v <=? 122)) with false by lia. lia.
  - replace ((97 <=? 55 + v) && (55 + v <=? 122)) with false by lia. lia.
Qed.

(** A digit of a base. *)
Definition digit_of (base c : Z) : Prop := exists d, c = digit_char d /\ 0 <= d < base.

Lemma print_digit_of base n : 2 <= base <= 36 -> 0 <= n -> Forall (digit_of base) (print_base base n).
Proof. apply print_base_chars. Qed.

(** A text that is digits: nothing is cut or skipped before the number. *)
Lemma scan_digits base s :
  2 <= base <= 16 -> s <> [] -> Forall (digit_of base) s ->
  c_str s = s /\ skip_space s = s /\ read_sign s = (false, s) /\ skip_0x base s = s /\ has_digit base s = true.
Proof.
  intros Hb Hne Hc.
  assert (Forall (fun c => exists d, c = digit_char d /\ 0 <= d < 16) s) as Hx.
  { eapply Forall_impl; [exact Hc|]. intros c (d & -> & ?). exists d. split; [done|lia]. }
  assert (c_str s = s) as E1.
  { apply c_str_nul_free. intros Hin. rewrite Forall_forall in Hc. destruct (Hc 0 Hin) as (d & E & Hd).
    pose proof (digit_char_range d). lia. }
  rewrite skip_0x_digits by done. destruct s as [|c s]; [done|].
  apply Forall_cons in Hc as [(d & -> & Hd) _]. pose proof (digit_char_range d) as Hr. split_and!; [done|..].
  - cbn [skip_space]. by replace (isspace (digit_char d)) with false by (unfold isspace; lia).
  - cbn [read_sign]. replace (digit_char d =? 45) with false by lia. by replace (digit_char d =? 43) with false by lia.
  - done.
  - cbn [has_digit]. rewrite digit_value_char by lia. lia.
Qed.

Lemma read_print base n acc rest :
  2 <= base <= 36 -> 0 <= n -> exists k, 0 < k /\
  read_digits base acc (print_base base n ++ rest) = read_digits base (acc * base ^ k + n) rest.
Proof.
  intros Hb Hn. destruct (read_print_digits (Z.to_nat (Z.log2 n)) base acc n rest) as (k & Hk & _ & _ & Hr); [lia| |].
  { split; [lia|]. apply print_base_bound; lia. }
  by exists k.
Qed.

Lemma read_digits_zeros base k s : 2 <= base -> read_digits base 0 (replicate k 48 ++ s) = read_digits base 0 s.
Proof.
  intros Hb. induction k as [|k IH]; [done|]. cbn [replicate app read_digits]. change (digit_value 48) with (Some 0).
  cbv beta iota. by replace (0 <? base) with true by lia.
Qed.

Lemma print_base_nonempty base n : 2 <= base <= 36 -> 0 <= n -> print_base base n <> [].
Proof. intros Hb Hn. unfold print_base. by destruct (print_digits_cons (Z.to_nat (Z.log2 n)) base n Hb Hn) as (d & l & -> & _). Qed.

(** A printed number, with zeros before it or not. *)
Lemma scan_padded base k n :
  2 <= base <= 16 -> 0 <= n ->
  let s := pad_zeros k (print_base base n) in
  s <> [] /\ Forall (digit_of base) s /\ read_digits base 0 s = (n, []).
Proof.
  intros Hb Hn s. unfold s, pad_zeros. split_and!.
  - intros [_ E]%app_nil. revert E. apply print_base_nonempty; lia.
  - apply Forall_app. split; [|apply print_digit_of; lia]. apply Forall_replicate. exists 0. split; [done|lia].
  - rewrite read_digits_zeros by lia. destruct (read_print base n 0 []) as (j & _ & Hr); [lia..|].
    rewrite app_nil_r in Hr. rewrite Hr. cbn [read_digits]. by replace (0 * base ^ j + n) with n by lia.
Qed.

Lemma pad_zeros_0 s : pad_zeros 0 s = s.
Proof. unfold pad_zeros. pose proof (zlen_nonneg s). by replace (Z.to_nat (0 - zlen s)) with 0%nat by lia. Qed.

(** Reading back what [print_base] printed. *)
Lemma strtoul_print base n :
  2 <= base <= 16 -> 0 <= n <= ULONG_MAX -> strtoul base (print_base base n) = (n, Some []).
Proof.
  intros Hb Hn. unfold strtoul. pose proof (scan_padded base 0 n) as Hs. rewrite pad_zeros_0 in Hs.
  destruct Hs as (Hne & Hd & Hr); [lia..|]. destruct (scan_digits base (print_base base n)) as (-> & -> & -> & -> & ->); [done..|].
  rewrite Hr. by replace (n >? ULONG_MAX) with false by lia.
Qed.

Lemma strtol_padded base k n :
  2 <= base <= 16 -> 0 <= n <= LONG_MAX -> strtol_end base (pad_zeros k (print_base base n)) = (n, Some []).
Proof.
  intros Hb Hn. unfold strtol_end. destruct (scan_padded base k n) as (Hne & Hd & Hr); [lia..|].
  destruct (scan_digits base (pad_zeros k (print_base base n))) as (-> & -> & -> & -> & ->); [done..|].
  rewrite Hr. replace (n >? LONG_MAX) with false by lia.
  by replace (n <? LONG_MIN) with false by (unfold LONG_MIN, LONG_MAX; lia).
Qed.

Lemma strtol_print_signed n : LONG_MIN <= n <= LONG_MAX -> strtol_end 10 (to_string_signed n) = (n, Some []).
Proof.
  intros Hn. unfold to_string_signed, to_string. destruct (Z.ltb_spec n 0) as [Hneg|Hpos].
  - unfold strtol_end. pose proof (scan_padded 10 0 (- n)) as Hs. rewrite pad_zeros_0 in Hs.
    destruct Hs as (Hne & Hd & Hr); [lia..|].
    destruct (scan_digits 10 (print_base 10 (- n))) as (H1 & H2 & H3 & H4 & H5); [done..|].
    cbn [c_str]. rewrite H1.
    change (read_sign (skip_space (if 45 =? 0 then [] else 45 :: print_base 10 (- n)))) with (true, print_base 10 (- n)).
    cbv beta iota. rewrite H4, H5, Hr, Z.opp_involutive.
    replace (n >? LONG_MAX) with false by lia. by replace (n <? LONG_MIN) with false by lia.
  - rewrite <- (pad_zeros_0 (print_base 10 n)). apply strtol_padded; lia.
Qed.

(** *** Searching *)

Lemma find_char_app c s t :
  c ∉ s -> find_char c (s ++ t) = option_map (Z.add (zlen s)) (find_char c t).
Proof.
  induction s as [|x s IH]; intros Hn.
  - cbn. by destruct (find_char c t).
  - apply not_elem_of_cons in Hn as [H1 H2]. cbn [app find_char]. destruct (Z.eqb_spec x c); [by subst|].
    rewrite IH by done. rewrite zlen_cons. destruct (find_char c t); cbn; [|done]. f_equal. lia.
Qed.

Lemma find_char_bound c s n : find_char c s = Some n -> 0 <= n < zlen s.
Proof.
  revert n. induction s as [|x s IH]; intros n; cbn [find_char]; [done|]. rewrite zlen_cons. pose proof (zlen_nonneg s).
  destruct (x =? c); [intros [= <-]; lia|]. destruct (find_char c s) as [k|]; [|done]. cbn. intros [= <-].
  specialize (IH k eq_refl). lia.
Qed.

Lemma find_char_take c l n i : find_char c l = Some i -> i < n -> find_char c (ztake n l) = Some i.
Proof.
  revert n i. induction l as [|x l IH]; intros n i; cbn [find_char]; [done|]. destruct (Z.eqb_spec x c) as [->|Hne].
  - intros [= <-] Hn. rewrite ztake_cons by done. cbn [find_char]. by rewrite Z.eqb_refl.
  - destruct (find_char c l) as [k|] eqn:E; [|done]. intros [= <-] Hn. pose proof (find_char_bound _ _ _ E).
    rewrite ztake_cons by lia. cbn [find_char]. replace (x =? c) with false by lia. by rewrite (IH (n - 1) k) by (done || lia).
Qed.

Lemma find_char_prefix c a b i : find_char c a = Some i -> find_char c (a ++ b) = Some i.
Proof.
  revert i. induction a as [|x a IH]; intros i; cbn [app find_char]; [done|]. destruct (x =? c); [done|].
  destruct (find_char c a) as [k|]; [|done]. by rewrite (IH k eq_refl).
Qed.

Lemma find_char_none c s : c ∉ s -> find_char c s = None.
Proof. intros Hn. pose proof (find_char_app c s [] Hn) as E. by rewrite app_nil_r in E. Qed.

Lemma find_char_split c s t : c ∉ s -> find_char c (s ++ c :: t) = Some (zlen s).
Proof. intros Hn. rewrite find_char_app by done. cbn. rewrite Z.eqb_refl. cbn. f_equal. lia. Qed.

Lemma split_compress_token sep tok s :
  forallb (fun c => negb (sep c)) s = true -> split_compress sep false tok s = [tok ++ s].
Proof.
  revert tok. induction s as [|c s IH]; intros tok Hs; cbn [split_compress]; [by rewrite app_nil_r|].
  cbn in Hs. apply andb_true_iff in Hs as [Hc Hs]. destruct (sep c); [done|].
  rewrite IH by done. by rewrite <- app_assoc.
Qed.

(** A token ends at a separator. *)
Lemma split_compress_step sep skipping tok s c t :
  forallb (fun x => negb (sep x)) s = true -> s <> [] -> sep c = true -> (skipping = true -> tok = []) ->
  split_compress sep skipping tok (s ++ c :: t) = (tok ++ s) :: split_compress sep true [] t.
Proof.
  intros Hs Hne Hc _. destruct s as [|x s]; [done|]. cbn in Hs. apply andb_true_iff in Hs as [Hx Hs].
  cbn [app split_compress]. destruct (sep x); [done|]. clear Hne Hx.
  replace (tok ++ x :: s) with ((tok ++ [x]) ++ s) by by rewrite <- app_assoc.
  revert Hs. generalize (tok ++ [x]). clear tok. induction s as [|y s IH]; intros tok Hs; cbn [app split_compress].
  - by rewrite Hc, app_nil_r.
  - cbn in Hs. apply andb_true_iff in Hs as [Hy Hs]. destruct (sep y); [done|]. rewrite IH by done. by rewrite <- app_assoc.
Qed.

Lemma split_compress_last sep skipping tok s :
  forallb (fun x => negb (sep x)) s = true -> s <> [] ->
  split_compress sep skipping tok s = [tok ++ s].
Proof.
  intros Hs Hne. destruct s as [|x s]; [done|]. cbn in Hs. apply andb_true_iff in Hs as [Hx Hs].
  cbn [split_compress]. destruct (sep x); [done|]. rewrite split_compress_token by done. by rewrite <- app_assoc.
Qed.

(** ** More strings, and multimaps *)

(** [boost::replace_all] for a needle that is not empty. *)
Fixpoint replace_all_from (fuel : nat) (needle repl s : bytes) : bytes :=
  match fuel with
  | O => s
  | S fuel =>
      match s with
      | [] => []
      | c :: s' =>
          if starts_with s needle then repl ++ replace_all_from fuel needle repl (zdrop (zlen needle) s)
          else c :: replace_all_from fuel needle repl s'
      end
  end.
Definition replace_all (needle repl s : bytes) : bytes := replace_all_from (length s) needle repl s.

Lemma starts_with_app a b : starts_with (a ++ b) a = true.
Proof. induction a as [|x a IH]; [by destruct b|]. cbn [app starts_with]. by rewrite Z.eqb_refl, IH. Qed.

Lemma starts_with_split s a : starts_with s a = true -> s = a ++ zdrop (zlen a) s.
Proof.
  revert s. induction a as [|x a IH]; intros s; [intros _; by rewrite zdrop_le0|]. destruct s as [|y s]; [done|]. cbn.
  intros [->%Z.eqb_eq Hs]%andb_true_iff. rewrite zlen_cons. pose proof (zlen_nonneg a). rewrite zdrop_cons by lia.
  replace (1 + zlen a - 1) with (zlen a) by lia. by rewrite <- (IH s Hs).
Qed.

Lemma replace_all_from_fuel needle repl n m s :
  needle <> [] -> (length s <= n)%nat -> (length s <= m)%nat -> replace_all_from n needle repl s = replace_all_from m needle repl s.
Proof.
  intros Hne. revert m s. induction n as [|n IH]; intros [|m] [|c s] Hn Hm; cbn [length] in *; try lia; try done.
  cbn [replace_all_from]. destruct (starts_with _ _); [|f_equal; apply IH; lia]. f_equal.
  assert (length (zdrop (zlen needle) (c :: s)) <= length s)%nat.
  { unfold zdrop, zlen. rewrite length_drop. destruct needle; [done|]. cbn [length]. lia. }
  apply IH; lia.
Qed.

Lemma replace_all_skip needle repl c s :
  starts_with (c :: s) needle = false -> replace_all needle repl (c :: s) = c :: replace_all needle repl s.
Proof. intros E. unfold replace_all. cbn [length replace_all_from]. by rewrite E. Qed.

Lemma replace_all_hit needle repl s :
  needle <> [] -> replace_all needle repl (needle ++ s) = repl ++ replace_all needle repl s.
Proof.
  intros Hne. destruct needle as [|x n]; [done|]. unfold replace_all. cbn [app length replace_all_from].
  rewrite app_comm_cons, starts_with_app. f_equal.
  rewrite zdrop_app_ge, Z.sub_diag, zdrop_le0 by lia. apply replace_all_from_fuel; [done| |lia]. rewrite length_app. lia.
Qed.

(** Text without the first character of the needle stays. *)
Lemma replace_all_plain x n repl a s : x ∉ a -> replace_all (x :: n) repl (a ++ s) = a ++ replace_all (x :: n) repl s.
Proof.
  induction a as [|c a IH]; intros Hn; [done|]. apply not_elem_of_cons in Hn as [Hc Hn]. cbn [app].
  rewrite replace_all_skip, IH by done || (cbn; by replace (c =? x) with false by (symmetry; apply Z.eqb_neq; congruence)). done.
Qed.

Lemma replace_all_nil needle repl : replace_all needle repl [] = [].
Proof. done. Qed.

(** One character is replaced character by character. *)
Lemma replace_all_char c repl a b : replace_all [c] repl (a ++ b) = replace_all [c] repl a ++ replace_all [c] repl b.
Proof.
  induction a as [|x a IH]; [done|]. cbn [app]. destruct (Z.eqb_spec x c) as [->|Hne].
  - change (c :: a ++ b) with ([c] ++ (a ++ b)). change (c :: a) with ([c] ++ a). rewrite !replace_all_hit, IH by done.
    by rewrite app_assoc.
  - assert (forall l, starts_with (x :: l) [c] = false) as Hs by (intros l; cbn; by replace (x =? c) with false by lia).
    by rewrite !replace_all_skip, IH by done.
Qed.

(** [operator<] of strings. *)
Fixpoint bytes_lt (a b : bytes) : bool :=
  match a, b with
  | _, [] => false
  | [], _ :: _ => true
  | x :: a, y :: b => (x <? y) || ((x =? y) && bytes_lt a b)
  end.

(** [std::multimap<std::string, V>]: the entries in order; a new one comes after
    the ones with its key. *)
Section Multimap.
Context {V : Type}.
Implicit Types m : list (bytes * V).

Fixpoint mm_insert (k : bytes) (v : V) m : list (bytes * V) :=
  match m with
  | [] => [(k, v)]
  | e :: m' => if bytes_lt k e.1 then (k, v) :: m else e :: mm_insert k v m'
  end.
Definition mm_equal_range (k : bytes) m : list V := map snd (filter (fun e => e.1 = k) m).
Definition mm_erase (k : bytes) m : list (bytes * V) := filter (fun e => e.1 <> k) m.
Definition mm_find (k : bytes) m : option V := head (mm_equal_range k m).

Lemma mm_insert_elem k v m e : e ∈ mm_insert k v m <-> e = (k, v) \/ e ∈ m.
Proof.
  induction m as [|f m IH]; cbn [mm_insert]; [by rewrite list_elem_of_singleton, elem_of_nil; tauto|].
  destruct (bytes_lt k f.1); rewrite !elem_of_cons; [done|]. rewrite IH. tauto.
Qed.

Lemma mm_insert_length k v m : zlen (mm_insert k v m) = zlen m + 1.
Proof. induction m as [|f m IH]; cbn [mm_insert]; [done|]. destruct (bytes_lt k f.1); rewrite !zlen_cons; lia. Qed.

Lemma bytes_lt_irrefl k : bytes_lt k k = false.
Proof. induction k as [|x k IH]; [done|]. cbn. rewrite IH, andb_false_r. lia. Qed.

Lemma mm_erase_elem k m e : e ∈ mm_erase k m <-> e.1 <> k /\ e ∈ m.
Proof. apply (list_elem_of_filter (fun e : bytes * V => e.1 <> k)). Qed.

Lemma mm_range_insert_other k k' v m : k <> k' -> mm_equal_range k' (mm_insert k v m) = mm_equal_range k' m.
Proof.
  intros Hne. unfold mm_equal_range. induction m as [|f m IH]; cbn [mm_insert].
  - by rewrite filter_cons_False.
  - destruct (bytes_lt k f.1); [by rewrite filter_cons_False|]. rewrite !filter_cons. destruct (decide (f.1 = k')); cbn; by rewrite IH.
Qed.

Lemma mm_range_erase_other k k' m : k <> k' -> mm_equal_range k' (mm_erase k m) = mm_equal_range k' m.
Proof.
  intros Hne. unfold mm_equal_range, mm_erase. induction m as [|f m IH]; [done|]. rewrite (filter_cons (fun e => e.1 <> k)).
  destruct (decide (f.1 <> k)) as [Hf|Hf].
  - rewrite !filter_cons. destruct (decide (f.1 = k')); cbn; by rewrite IH.
  - rewrite IH. rewrite filter_cons_False; [done|]. intros <-. by apply Hf.
Qed.

Lemma mm_range_erase k m : mm_equal_range k (mm_erase k m) = [].
Proof.
  unfold mm_equal_range, mm_erase. induction m as [|f m IH]; [done|]. rewrite (filter_cons (fun e => e.1 <> k)).
  destruct (decide (f.1 <> k)) as [Hf|Hf]; [|done]. rewrite filter_cons_False; done.
Qed.

Lemma mm_range_insert k v m :
  exists l r, mm_equal_range k m = l ++ r /\ mm_equal_range k (mm_insert k v m) = l ++ v :: r.
Proof.
  unfold mm_equal_range. induction m as [|f m (l & r & E1 & E2)]; cbn [mm_insert].
  - exists [], []. by rewrite filter_cons_True.
  - destruct (bytes_lt k f.1).
    + eexists [], _. split; [reflexivity|]. by rewrite (filter_cons_True (fun e : bytes * V => e.1 = k) (k, v)).
    + rewrite !filter_cons. destruct (decide (f.1 = k)); [|by exists l, r]. exists (f.2 :: l), r. cbn [map app]. by rewrite E1, E2.
Qed.

Lemma mm_range_none k m : (forall e, e ∈ m -> e.1 <> k) -> mm_equal_range k m = [].
Proof.
  intros Hk. unfold mm_equal_range. induction m as [|f m IH]; [done|]. rewrite filter_cons_False by (apply Hk; by left).
  apply IH. intros e He. apply Hk. by right.
Qed.
Lemma mm_find_erase k m : mm_find k (mm_erase k m) = None.
Proof. unfold mm_find. by rewrite mm_range_erase. Qed.

Lemma mm_find_erase_ne j k m : j <> k -> mm_find j (mm_erase k m) = mm_find j m.
Proof. intros Hn. unfold mm_find. rewrite mm_range_erase_other by congruence. done. Qed.
End Multimap.

(** [std::map<std::string, V>]: [m[k] = v]; [find] and [erase] are those of a
    multimap. *)
Section OrderedMap.
Context {V : Type}.
Implicit Types m : list (bytes * V).

Fixpoint om_set (k : bytes) (v : V) m : list (bytes * V) :=
  match m with
  | [] => [(k, v)]
  | e :: m' =>
      if bytes_lt k e.1 then (k, v) :: m
      else if bool_decide (k = e.1) then (k, v) :: m' else e :: om_set k v m'
  end.

Definition om_count (k : bytes) m : bool := has_value (mm_find k m).

Lemma mm_find_cons k e m : mm_find k (e :: m) = if bool_decide (e.1 = k) then Some e.2 else mm_find k m.
Proof. unfold mm_find, mm_equal_range. cbn [filter list_filter]. by case_bool_decide; case_decide. Qed.

Lemma mm_find_om_set k v m : mm_find k (om_set k v m) = Some v.
Proof.
  induction m as [|e m IH]; cbn [om_set]; [by rewrite mm_find_cons, bool_decide_eq_true_2|].
  destruct (bytes_lt k e.1); [by rewrite mm_find_cons, bool_decide_eq_true_2|].
  case_bool_decide as Hk; rewrite mm_find_cons; [by rewrite bool_decide_eq_true_2|].
  by rewrite bool_decide_eq_false_2 by congruence.
Qed.

Lemma mm_find_om_set_ne j k v m : j <> k -> mm_find j (om_set k v m) = mm_find j m.
Proof.
  intros Hne. induction m as [|e m IH]; cbn [om_set]; [by rewrite mm_find_cons, bool_decide_eq_false_2|].
  destruct (bytes_lt k e.1); [by rewrite mm_find_cons, bool_decide_eq_false_2|].
  case_bool_decide as Hk; rewrite !mm_find_cons; [|by rewrite IH].
  subst. by rewrite !bool_decide_eq_false_2.
Qed.
End OrderedMap.

(** *** The anchors of a regular expression of Boost: the beginning of the text or
    of a line, by the character before. *)
Definition line_separator (c : Z) : bool := (c =? 10) || (c =? 12) || (c =? 13).

Definition at_line_start (prev : option Z) (s : bytes) : bool :=
  match prev with
  | None => true
  | Some p => line_separator p && negb ((p =? 13) && match s with c :: _ => c =? 10 | [] => false end)
  end.

(** [boost::join], [iequals], [istarts_with]. *)
Fixpoint join_with (sep : bytes) (l : list bytes) : bytes :=
  match l with
  | [] => []
  | w :: [] => w
  | w :: l => w ++ sep ++ join_with sep l
  end.
Definition istarts_with (s prefix : bytes) : bool := starts_with (to_upper_copy s) (to_upper_copy prefix).
