(* ===== verification/HttpContent.v ===== *)
(** * The content of an HTTP message (Protocol_HTTP/common_content.cpp,
      common_content_chunked_subparser.cpp)

    [Content] is the sub-parser of a message body.  It receives a body of a
    known length, a body that ends with the connection, or a body in chunks, and
    hands it to a stream object; [ContentChunkedTransformer] is the sink that
    writes a body in chunks.

    The refinement: one write into the sub-parser, in any of its modes, does what
    a machine that reads one byte at a time ([byte_step]) does, so the way the
    input is cut into writes does not matter; and what the transformer writes is
    received as it was sent. *)

From S2P Require Import Prelude SafeInt Mem Streamable Container ContainerTheory BMem BChunks ChunkBuffer BRef.
From S2P Require Import SubParser Parser CLib.
From Stdlib Require Import ZArith Lia.

Inductive ContainerType := BIN | MIME | URL | JSON.

Inductive ProcessingMode :=
| CHUNK_SIZE | CHUNK_DATA | CHUNK_CRLF | CHUNK_CLOSE | CONTENT_LENGTH | CONNECTION_CLOSE.

Inductive TransmissionMode := TM_CHUNKS | TM_CONTENT_LENGTH | TM_CONNECTION_CLOSE.

#[export] Instance ContainerType_eq_dec : EqDecision ContainerType.
Proof. solve_decision. Defined.
#[export] Instance ProcessingMode_eq_dec : EqDecision ProcessingMode.
Proof. solve_decision. Defined.

Definition MB_MULT : Z := 1048576.

Definition CRLF : bytes := [13; 10].

(** The members [Content] adds to [SubParser]. *)
Record Content (O : Type) := mkContent {
  m_contentStreamableObject : O;
  m_usingInternalOutStream : bool;
  m_transmitionMode : TransmissionMode;
  m_currentMode : ProcessingMode;
  m_containerType : ContainerType;
  m_securityMaxPostDataSize : Z;
  m_currentContentLengthSize : Z;
  m_securityMaxHttpChunkSize : Z }.
Arguments mkContent {_} _ _ _ _ _ _ _ _.
Arguments m_contentStreamableObject {_} _.
Arguments m_usingInternalOutStream {_} _.
Arguments m_transmitionMode {_} _.
Arguments m_currentMode {_} _.
Arguments m_containerType {_} _.
Arguments m_securityMaxPostDataSize {_} _.
Arguments m_currentContentLengthSize {_} _.
Arguments m_securityMaxHttpChunkSize {_} _.

(** The object [setContainerType] makes for a type of container, and the limit
    [setMaxSizeInMemoryBeforeMovingToDisk] of the container made for [BIN]. *)
Class ContentObjects (O : Type) := {
  make_object : ContainerType -> O;
  set_memory_limit : Z -> O -> O }.

Section Content.
Context {M : Type} `{Container M} `{!MMapFile M} {O : Type} `{Sink O} `{!ContentObjects O}.
Implicit Types (c : Content O) (p : SubParser M (Content O)).

Definition c_set_object (v : O) c : Content O :=
  mkContent v (m_usingInternalOutStream c) (m_transmitionMode c) (m_currentMode c) (m_containerType c)
    (m_securityMaxPostDataSize c) (m_currentContentLengthSize c) (m_securityMaxHttpChunkSize c).
Definition c_set_internal (v : bool) c : Content O :=
  mkContent (m_contentStreamableObject c) v (m_transmitionMode c) (m_currentMode c) (m_containerType c)
    (m_securityMaxPostDataSize c) (m_currentContentLengthSize c) (m_securityMaxHttpChunkSize c).
Definition c_set_transmission (v : TransmissionMode) c : Content O :=
  mkContent (m_contentStreamableObject c) (m_usingInternalOutStream c) v (m_currentMode c) (m_containerType c)
    (m_securityMaxPostDataSize c) (m_currentContentLengthSize c) (m_securityMaxHttpChunkSize c).
Definition c_set_mode (v : ProcessingMode) c : Content O :=
  mkContent (m_contentStreamableObject c) (m_usingInternalOutStream c) (m_transmitionMode c) v (m_containerType c)
    (m_securityMaxPostDataSize c) (m_currentContentLengthSize c) (m_securityMaxHttpChunkSize c).
Definition c_set_type (v : ContainerType) c : Content O :=
  mkContent (m_contentStreamableObject c) (m_usingInternalOutStream c) (m_transmitionMode c) (m_currentMode c) v
    (m_securityMaxPostDataSize c) (m_currentContentLengthSize c) (m_securityMaxHttpChunkSize c).
Definition c_set_current (v : Z) c : Content O :=
  mkContent (m_contentStreamableObject c) (m_usingInternalOutStream c) (m_transmitionMode c) (m_currentMode c)
    (m_containerType c) (m_securityMaxPostDataSize c) v (m_securityMaxHttpChunkSize c).

Definition setSecurityMaxPostDataSize (v : Z) c : Content O :=
  mkContent (m_contentStreamableObject c) (m_usingInternalOutStream c) (m_transmitionMode c) (m_currentMode c)
    (m_containerType c) v (m_currentContentLengthSize c) (m_securityMaxHttpChunkSize c).
Definition setSecurityMaxHttpChunkSize (v : Z) c : Content O :=
  mkContent (m_contentStreamableObject c) (m_usingInternalOutStream c) (m_transmitionMode c) (m_currentMode c)
    (m_containerType c) (m_securityMaxPostDataSize c) (m_currentContentLengthSize c) v.

(** The initial values of the members. *)
Definition content_init (o : O) : Content O :=
  mkContent o true TM_CONNECTION_CLOSE CONTENT_LENGTH BIN (17 * MB_MULT) 0 (16 * MB_MULT).
Definition content_new (o : O) : SubParser M (Content O) := sp_new (content_init o).

(** [B_Base::toUInt32(base)] on the whole buffer.  The value of [strtoul] has 64
    bits and is assigned to 32. *)
Definition toUInt32 {C} `{Container C} (base n offset : Z) (c : C) : outcome (option Z) :=
  s ← toString n offset c;
  Ret (match s with
       | None => None
       | Some s =>
           match strtoul base s with
           | (v, Some []) => Some (wrapw 32 v)
           | _ => None
           end
       end).

(** What [parseHttpChunkSize] does with the number it read. *)
Definition admit_chunk (chunkSize : Z) c : option (Z * Content O) :=
  if chunkSize >? m_securityMaxHttpChunkSize c then None
  else if m_currentContentLengthSize c >? m_securityMaxPostDataSize c then None
  else
    let remaining := m_securityMaxPostDataSize c - m_currentContentLengthSize c in
    if chunkSize >? remaining then None
    else Some (chunkSize, c_set_current (wrap (m_currentContentLengthSize c + chunkSize)) c).

Definition parseHttpChunkSize p : outcome (SubParser M (Content O) * option Z) :=
  parsed ← toUInt32 16 SIZE_MAX 0 (getParsedBuffer p);
  Ret (match parsed with
       | None => (p, None)
       | Some chunkSize =>
           match admit_chunk chunkSize (sp_sub p) with
           | None => (p, None)
           | Some (chunkSize, c) => (sp_set_sub c p, Some chunkSize)
           end
       end).

(** [m_contentStreamableObject->writeEOF()]. *)
Definition content_writeEOF p : outcome (SubParser M (Content O)) :=
  '(o, _) ← writeEOF (m_contentStreamableObject (sp_sub p));
  Ret (sp_set_sub (c_set_object o (sp_sub p)) p).

(** [getParsedBuffer()->appendTo( *m_contentStreamableObject )]. *)
Definition content_append p : outcome (SubParser M (Content O)) :=
  '(o, _) ← appendTo (m_contentStreamableObject (sp_sub p)) SIZE_MAX 0 (getParsedBuffer p);
  Ret (sp_set_sub (c_set_object o (sp_sub p)) p).

Definition content_mode (m : ProcessingMode) p : SubParser M (Content O) :=
  sp_set_sub (c_set_mode m (sp_sub p)) p.

Definition content_parse p : outcome (SubParser M (Content O) * ParseResult) :=
  match m_currentMode (sp_sub p) with
  | CHUNK_CLOSE => p ← content_writeEOF p; Ret (p, GOTO_NEXT_SUBPARSER)
  | CHUNK_SIZE =>
      '(p, targetChunkSize) ← parseHttpChunkSize p;
      match targetChunkSize with
      | Some n =>
          if n >? 0 then
            let p := setParseStrategy SIZE p in
            let p := setParseDataTargetSize n p in
            Ret (content_mode CHUNK_DATA p, GET_MORE_DATA)
          else
            let p := setParseStrategy DELIMITER p in
            let p := setParseDelimiter CRLF p in
            let p := setParseDataTargetSize (64 * KB_MULT) p in
            Ret (content_mode CHUNK_CLOSE p, GET_MORE_DATA)
      | None => Ret (p, PR_ERROR)
      end
  | CHUNK_DATA =>
      let p := setParseStrategy SIZE p in
      let p := setParseDataTargetSize 2 p in
      let p := content_mode CHUNK_CRLF p in
      p ← content_append p; Ret (p, GET_MORE_DATA)
  | CHUNK_CRLF =>
      let p := setParseStrategy DELIMITER p in
      let p := setParseDelimiter CRLF p in
      let p := setParseDataTargetSize (1 * KB_MULT) p in
      Ret (content_mode CHUNK_SIZE p, GET_MORE_DATA)
  | CONTENT_LENGTH =>
      p ← content_append p;
      if getUnparsedDataSize p >? 0 then Ret (p, GET_MORE_DATA)
      else p ← content_writeEOF p; Ret (p, GOTO_NEXT_SUBPARSER)
  | CONNECTION_CLOSE =>
      if negb (csize (getParsedBuffer p) =? 0) then p ← content_append p; Ret (p, GET_MORE_DATA)
      else p ← content_writeEOF p; Ret (p, GOTO_NEXT_SUBPARSER)
  end.

#[export] Instance content_sub : SubParserImpl M (Content O) := {|
  parse := content_parse;
  malloc_block n := replicate (Z.to_nat n) 0 |}.

Definition setTransmissionMode (value : TransmissionMode) p : SubParser M (Content O) :=
  let p := sp_set_sub (c_set_transmission value (sp_sub p)) p in
  match value with
  | TM_CONNECTION_CLOSE =>
      let p := setParseStrategy DIRECT p in
      let p := setParseDataTargetSize (m_securityMaxPostDataSize (sp_sub p)) p in
      content_mode CONNECTION_CLOSE p
  | TM_CHUNKS =>
      let p := setParseStrategy DELIMITER p in
      let p := setParseDelimiter CRLF p in
      let p := setParseDataTargetSize 64 p in
      content_mode CHUNK_SIZE p
  | TM_CONTENT_LENGTH =>
      let p := setParseStrategy DIRECT p in
      content_mode CONTENT_LENGTH p
  end.

Definition setCurrentSize (contentLengthSize : Z) p : SubParser M (Content O) * bool :=
  if contentLengthSize >? m_securityMaxPostDataSize (sp_sub p) then
    (setParseDataTargetSize 0 (sp_set_sub (c_set_current 0 (sp_sub p)) p), false)
  else
    (setParseDataTargetSize contentLengthSize (sp_set_sub (c_set_current contentLengthSize (sp_sub p)) p), true).

Definition setContainerType (value : ContainerType) c : Content O :=
  let c := c_set_type value c in
  if m_usingInternalOutStream c then c_set_object (make_object value) c else c.

(** [setStreamableObj]: a null pointer goes back to an internal object. *)
Definition setStreamableObj (outDataContainer : option O) c : Content O :=
  match outDataContainer with
  | Some o => c_set_object o (c_set_internal false c)
  | None => setContainerType (m_containerType c) (c_set_internal true c)
  end.

Definition setMaxBinPostMemoryBeforeFS (value : Z) c : outcome (Content O) :=
  if bool_decide (m_containerType c = BIN) && m_usingInternalOutStream c then
    Ret (c_set_object (set_memory_limit value (m_contentStreamableObject c)) c)
  else Throw (runtime_error
    "This method is only meant for the internal container. Custom containers should be configured externally.").

(** The accessors of the internal object, by the type it must have. *)
Definition typed_vars (t : ContainerType) (what : string) c : outcome O :=
  if bool_decide (m_containerType c = t) && m_usingInternalOutStream c then Ret (m_contentStreamableObject c)
  else Throw (runtime_error what).

Definition getUrlPostVars c : outcome O :=
  typed_vars URL "Invalid operation: getUrlPostVars should not be called when the content type is not URL." c.
Definition getJSONVars c : outcome O :=
  typed_vars JSON "Invalid operation: getJSONVars should not be called when the content type is not JSON." c.
Definition getMultiPartVars c : outcome O :=
  typed_vars MIME "Invalid operation: getMultiPartVars should not be called when the content type is not MIME." c.
End Content.

(** ** Sending in chunks *)
Record ContentChunkedTransformer := mkChunked {
  ct_writeStatus : WriteStatus;
  ct_pos : Z }.

Definition chunked_new : ContentChunkedTransformer := mkChunked ws_init 0.

Section Chunked.
Context {S : Type} `{Sink S}.

Definition ct_fail (ts : ContentChunkedTransformer * S) : outcome (ContentChunkedTransformer * S) :=
  ws ← ws_add_ssize (ct_writeStatus ts.1) (-1); Ret (mkChunked ws (ct_pos ts.1), ts.2).

(** The %X conversion takes an [unsigned int]. *)
Definition chunk_header (first : bool) (count : Z) : bytes :=
  (if first then [] else CRLF) ++ print_X (wrapw 32 count) ++ CRLF.

Definition last_chunk (first : bool) : bytes :=
  (if first then [] else CRLF) ++ bs "0" ++ CRLF ++ CRLF.

Definition ct_write (buf : bytes) (ts : ContentChunkedTransformer * S) :
    outcome ((ContentChunkedTransformer * S) * option Z) :=
  let '(t, up) := ts in
  let count := zlen buf in
  if count =? 0 then
    '(up, ok) ← writeString (last_chunk (ct_pos t =? 0)) up;
    if negb ok then ts ← ct_fail (t, up); Ret (ts, None)
    else Ret ((t, up), Some 0)
  else if wrap (count + 64) <? count then
    '(t, up) ← ct_fail (t, up);
    up ← status_add (-1) up;
    Ret ((t, up), None)
  else
    '(up, _) ← writeString (chunk_header (ct_pos t =? 0) count) up;
    if negb (succeed (sink_status up)) then ts ← ct_fail (t, up); Ret (ts, None)
    else
      '(up, ok) ← writeFullStream buf up;
      if negb ok then Ret ((t, up), None)
      else Ret ((mkChunked (ct_writeStatus t) (wrap (ct_pos t + count)), up), Some count).

#[export] Instance chunked_sink : Sink (ContentChunkedTransformer * S) := {|
  sink_status ts := ct_writeStatus ts.1;
  sink_set_status ws ts := (mkChunked ws (ct_pos ts.1), ts.2);
  sink_write := ct_write |}.

(** [Content::streamToUpstream]: the destructor of the transformer writes the
    end.  The answer is the status of the object that is sent, not of the
    stream it is sent to. *)
Definition content_streamToUpstream {O} `{Sink O} `{!Source O} (c : Content O) (up : S) : outcome (S * bool) :=
  match m_transmitionMode c with
  | TM_CHUNKS =>
      '(ts, _) ← streamTo (m_contentStreamableObject c) (chunked_new, up);
      '(ts, _) ← writeEOF ts;
      Ret (ts.2, succeed (sink_status (m_contentStreamableObject c)))
  | _ =>
      '(up, _) ← streamTo (m_contentStreamableObject c) up;
      Ret (up, succeed (sink_status (m_contentStreamableObject c)))
  end.
End Chunked.

(** ** The byte machine

    What the sub-parser does with a stream, one byte at a time.  [b_pending] is
    the element that is being read, [b_target] the bytes it may have, [b_total]
    what the chunk sizes announced, [b_out] the body received. *)
Record ByteState := mkByteState {
  b_mode : ProcessingMode;
  b_target : Z;
  b_pending : bytes;
  b_total : Z;
  b_out : bytes }.

Inductive ByteMachine :=
| Reading (s : ByteState)
| Complete (out rest : bytes)
| Refused.

(** The two limits of the content. *)
Record Limits := mkLimits { max_post : Z; max_chunk : Z }.

Definition content_limits {O} (c : Content O) : Limits :=
  mkLimits (m_securityMaxPostDataSize c) (m_securityMaxHttpChunkSize c).

Section ByteMachine.
Context (lim : Limits).

(** The number a chunk-size line announces, and the new total. *)
Definition line_size (total : Z) (line : bytes) : option Z :=
  match strtoul 16 line with
  | (v, Some []) =>
      let n := wrapw 32 v in
      if n >? max_chunk lim then None
      else if total >? max_post lim then None
      else if n >? max_post lim - total then None
      else Some n
  | _ => None
  end.

(** An element is complete. *)
Definition finish_element (s : ByteState) (e : bytes) : ByteMachine :=
  match b_mode s with
  | CHUNK_SIZE =>
      match line_size (b_total s) e with
      | None => Refused
      | Some n =>
          if n >? 0 then Reading (mkByteState CHUNK_DATA n [] (wrap (b_total s + n)) (b_out s))
          else Reading (mkByteState CHUNK_CLOSE (64 * KB_MULT) [] (wrap (b_total s + n)) (b_out s))
      end
  | CHUNK_DATA => Reading (mkByteState CHUNK_CRLF 2 [] (b_total s) (b_out s ++ e))
  | CHUNK_CRLF => Reading (mkByteState CHUNK_SIZE KB_MULT [] (b_total s) (b_out s))
  | CHUNK_CLOSE => Complete (b_out s) []
  | CONTENT_LENGTH | CONNECTION_CLOSE => Refused
  end.

(** The modes that wait for the end of a line, that wait for a number of bytes,
    and that hand every byte on. *)
Definition line_mode (m : ProcessingMode) : bool :=
  match m with CHUNK_SIZE | CHUNK_CLOSE => true | _ => false end.
Definition direct_mode (m : ProcessingMode) : bool :=
  match m with CONTENT_LENGTH | CONNECTION_CLOSE => true | _ => false end.

Definition element_of (s : ByteState) (pend : bytes) : option bytes :=
  if line_mode (b_mode s) then option_map (fun pos => ztake pos pend) (search true CRLF pend)
  else if zlen pend =? b_target s then Some pend else None.

Definition byte_step (m : ByteMachine) (b : byte) : ByteMachine :=
  match m with
  | Reading s =>
      if direct_mode (b_mode s) then
        if b_target s =? 0 then Refused
        else if bool_decide (b_mode s = CONTENT_LENGTH) && (b_target s =? 1) then Complete (b_out s ++ [b]) []
        else Reading (mkByteState (b_mode s) (b_target s - 1) [] (b_total s) (b_out s ++ [b]))
      else if zlen (b_pending s) >=? b_target s then Refused
      else
        let pend := b_pending s ++ [b] in
        match element_of s pend with
        | Some e => finish_element s e
        | None => Reading (mkByteState (b_mode s) (b_target s) pend (b_total s) (b_out s))
        end
  | Complete out rest => Complete out (rest ++ [b])
  | Refused => Refused
  end.

Definition byte_run (m : ByteMachine) (input : bytes) : ByteMachine := fold_left byte_step input m.

Lemma byte_run_app m l k : byte_run m (l ++ k) = byte_run (byte_run m l) k.
Proof. apply fold_left_app. Qed.

Lemma byte_run_complete out rest l : byte_run (Complete out rest) l = Complete out (rest ++ l).
Proof.
  revert rest. induction l as [|b l IH]; intros rest; cbn; [by rewrite app_nil_r|].
  unfold byte_run in IH. rewrite IH. by rewrite <- app_assoc.
Qed.

Lemma byte_run_refused l : byte_run Refused l = Refused.
Proof. by induction l. Qed.

(** Where the body ends. *)
Lemma step_complete s b out rest : byte_step (Reading s) b = Complete out rest -> rest = [].
Proof.
  cbn [byte_step]. destruct (direct_mode _).
  - destruct (_ =? _); [done|]. destruct (_ && _); [|done]. by intros [= _ <-].
  - destruct (_ >=? _); [done|]. destruct (element_of _ _); [|done]. unfold finish_element.
    destruct (b_mode s); try done; [|by intros [= _ <-]]. destruct (line_size _ _); [by destruct (_ >? _)|done].
Qed.

Lemma complete_suffix s l out rest :
  byte_run (Reading s) l = Complete out rest ->
  exists l1, l = l1 ++ rest /\ byte_run (Reading s) l1 = Complete out [].
Proof.
  revert s. induction l as [|b l IH]; intros s Hr; [done|]. cbn [byte_run fold_left] in Hr.
  change (fold_left byte_step l ?x) with (byte_run x l) in Hr. destruct (byte_step (Reading s) b) as [s'|o r|] eqn:E.
  - destruct (IH s' Hr) as (l1 & -> & Hl1). exists (b :: l1). split; [done|]. cbn [byte_run fold_left]. by rewrite E.
  - pose proof (step_complete s b o r E) as ->. rewrite byte_run_complete in Hr. injection Hr as <- <-.
    exists [b]. split; [done|]. cbn [byte_run fold_left]. by rewrite E.
  - by rewrite byte_run_refused in Hr.
Qed.

(** The elements a piece of the stream ends. *)
Definition completes (m : ByteMachine) (b : byte) : bool :=
  match m with
  | Reading s =>
      negb (direct_mode (b_mode s)) && (zlen (b_pending s) <? b_target s) && has_value (element_of s (b_pending s ++ [b]))
  | _ => false
  end.

Fixpoint elements (m : ByteMachine) (l : bytes) : Z :=
  match l with
  | [] => 0
  | b :: l => (if completes m b then 1 else 0) + elements (byte_step m b) l
  end.

Lemma elements_app m l k : elements m (l ++ k) = elements m l + elements (byte_run m l) k.
Proof.
  revert m. induction l as [|b l IH]; intros m; cbn [app elements byte_run fold_left]; [done|].
  rewrite IH. unfold byte_run. lia.
Qed.

Lemma elements_nonneg m l : 0 <= elements m l.
Proof. revert m. induction l as [|b l IH]; intros m; cbn [elements]; [lia|]. specialize (IH (byte_step m b)). case_bool; lia. Qed.

(** Without the end of an element nothing but the pending bytes changes. *)
Lemma no_element_run s l s' :
  direct_mode (b_mode s) = false -> elements (Reading s) l = 0 -> byte_run (Reading s) l = Reading s' ->
  s' = mkByteState (b_mode s) (b_target s) (b_pending s ++ l) (b_total s) (b_out s).
Proof.
  revert s. induction l as [|b l IH]; intros [m t pend tot out] Hd He Hr; cbn [b_mode b_target b_pending b_total b_out] in *.
  { injection Hr as <-. by rewrite app_nil_r. }
  cbn [elements] in He. pose proof (elements_nonneg (byte_step (Reading (mkByteState m t pend tot out)) b) l) as Hn.
  destruct (completes _ b) eqn:Ec; [lia|].
  unfold byte_run in Hr, IH. cbn [fold_left] in Hr. revert He Hr Hn Ec.
  cbn [byte_step completes b_mode b_target b_pending b_total b_out].
  rewrite Hd. cbn [negb andb]. destruct (Z.geb_spec (zlen pend) t) as [|Hlt].
  { intros _ Hr. pose proof (byte_run_refused l) as E. unfold byte_run in E. congruence. }
  replace (zlen pend <? t) with true by lia. cbn [andb].
  destruct (element_of _ _); cbn [has_value]; [done|]. intros He Hr _ _.
  apply IH in Hr; cbn [b_mode b_target b_pending b_total b_out] in *; [|done|lia]. by rewrite <- app_assoc in Hr.
Qed.

(** *** Runs that stay inside one element *)

Lemma line_run_wait s l :
  line_mode (b_mode s) = true -> search true CRLF (b_pending s ++ l) = None ->
  zlen (b_pending s ++ l) <= b_target s ->
  byte_run (Reading s) l = Reading (mkByteState (b_mode s) (b_target s) (b_pending s ++ l) (b_total s) (b_out s)).
Proof.
  revert s. induction l as [|b l IH]; intros [m t pend tot out] Hm Hs Hl; cbn [b_mode b_pending b_target b_total b_out] in *.
  { by rewrite app_nil_r. }
  assert (search true CRLF (pend ++ [b]) = None) as Hb.
  { destruct (search true CRLF (pend ++ [b])) as [x|] eqn:E; [|done].
    apply search_app with (k := l) in E; [|done]. rewrite <- app_assoc in E. cbn [app] in E. congruence. }
  replace (b :: l) with ([b] ++ l) in Hl, Hs |- * by done. rewrite byte_run_app. rewrite !zlen_app, zlen_cons, zlen_nil in Hl.
  pose proof (zlen_nonneg l).
  assert (byte_run (Reading (mkByteState m t pend tot out)) [b] = Reading (mkByteState m t (pend ++ [b]) tot out)) as ->.
  { cbn [byte_run fold_left byte_step b_mode b_pending b_target b_total b_out].
    replace (direct_mode m) with false by by destruct m. replace (zlen pend >=? t) with false by lia.
    unfold element_of. cbn [b_mode]. by rewrite Hm, Hb. }
  rewrite IH; cbn [b_mode b_pending b_target b_total b_out]; rewrite <- ?app_assoc; try done.
  rewrite !zlen_app, zlen_cons, zlen_nil. lia.
Qed.

(** The line ends inside the input: the element, and the rest. *)
Lemma line_run_element s l pos :
  line_mode (b_mode s) = true -> search true CRLF (b_pending s) = None ->
  search true CRLF (b_pending s ++ l) = Some pos -> pos + 2 <= b_target s ->
  byte_run (Reading s) (ztake (pos + 2 - zlen (b_pending s)) l) = finish_element s (ztake pos (b_pending s ++ l)).
Proof.
  intros Hm Hc Hs Ht. destruct s as [m t pend tot out]. cbn [b_mode b_pending b_target b_total b_out] in *.
  pose proof (search_app_new true CRLF pend l pos ltac:(done) Hc Hs) as Hnew.
  pose proof (search_end _ _ _ _ Hs) as He. change (zlen CRLF) with 2 in *. rewrite zlen_app in He.
  pose proof (zlen_nonneg pend). pose proof (search_correct _ _ _ _ Hs) as (Hp & _).
  set (k := pos + 2 - zlen pend).
  assert (exists l1 b, ztake k l = l1 ++ [b] /\ zlen l1 = k - 1) as (l1 & b & El & Hl1).
  { destruct (ztake k l) as [|x l0 _] eqn:E using rev_ind.
    - apply (f_equal zlen) in E. rewrite zlen_ztake, (@zlen_nil Z) in E. lia.
    - exists l0, x. split; [done|]. apply (f_equal zlen) in E. rewrite zlen_ztake, zlen_app, zlen_cons, (@zlen_nil Z) in E. lia. }
  assert (l = (l1 ++ [b]) ++ zdrop k l) as Ell by (rewrite <- El; by rewrite ztake_zdrop).
  rewrite El, byte_run_app.
  assert (search true CRLF (pend ++ l1) = None) as Hn1.
  { destruct (search true CRLF (pend ++ l1)) as [x|] eqn:E; [|done].
    pose proof (search_end _ _ _ _ E) as He1. change (zlen CRLF) with 2 in He1. rewrite zlen_app in He1.
    apply search_app with (k := [b] ++ zdrop k l) in E; [|done]. rewrite <- app_assoc, (app_assoc l1), <- Ell, Hs in E.
    injection E as <-. lia. }
  rewrite line_run_wait by (cbn [b_mode b_pending b_target]; rewrite ?zlen_app; first [done|lia]).
  assert (search true CRLF (pend ++ l1 ++ [b]) = Some pos) as Hlast.
  { assert (zlen (pend ++ l1 ++ [b]) = pos + 2) as Hlen by (rewrite !zlen_app, zlen_cons, zlen_nil; lia).
    pose proof (search_correct _ _ _ _ Hs) as (_ & Hmatch & Hmin).
    rewrite Ell in Hmatch, Hmin. rewrite (app_assoc pend) in Hmatch, Hmin.
    destruct (search true CRLF (pend ++ l1 ++ [b])) as [x|] eqn:E.
    - apply search_app with (k := zdrop k l) in E; [|done].
      rewrite <- app_assoc, <- Ell, Hs in E. congruence.
    - exfalso. pose proof (search_None _ _ _ E pos) as Hno. rewrite zdrop_app_le in Hmatch by lia.
      assert (zlen (zdrop pos (pend ++ l1 ++ [b])) = 2) as Hz by (rewrite zlen_zdrop; lia).
      unfold matches_at in *. change (zlen CRLF) with 2 in *. rewrite ztake_app_le in Hmatch by lia.
      rewrite Hno in Hmatch by lia. done. }
  cbn [byte_run fold_left byte_step b_mode b_pending b_target b_total b_out].
  replace (direct_mode m) with false by by destruct m.
  replace (zlen (pend ++ l1) >=? t) with false by (rewrite zlen_app; lia).
  unfold element_of. cbn [b_mode]. rewrite Hm, <- app_assoc, Hlast. cbn [option_map].
  f_equal. rewrite Ell at 1.
  assert (zlen (pend ++ l1 ++ [b]) = pos + 2) by (rewrite !zlen_app, zlen_cons, zlen_nil; lia).
  by rewrite (app_assoc pend (l1 ++ [b])), (ztake_app_le pos (pend ++ l1 ++ [b])) by lia.
Qed.

(** An element that has no room left. *)
Lemma full_run s l :
  direct_mode (b_mode s) = false -> b_target s <= zlen (b_pending s) -> l <> [] -> byte_run (Reading s) l = Refused.
Proof.
  intros Hm Ht Hne. destruct l as [|b l]; [done|]. cbn [byte_run fold_left byte_step]. rewrite Hm.
  replace (_ >=? _) with true by lia. apply byte_run_refused.
Qed.

(** Pieces of a set size. *)
Definition size_mode (m : ProcessingMode) : bool := negb (line_mode m) && negb (direct_mode m).

Lemma size_run_wait s l :
  size_mode (b_mode s) = true -> zlen (b_pending s ++ l) < b_target s ->
  byte_run (Reading s) l = Reading (mkByteState (b_mode s) (b_target s) (b_pending s ++ l) (b_total s) (b_out s)).
Proof.
  revert s. induction l as [|b l IH]; intros [m t pend tot out] Hm Hl; cbn [b_mode b_pending b_target b_total b_out] in *.
  { by rewrite app_nil_r. }
  rewrite zlen_app, zlen_cons in Hl. pose proof (zlen_nonneg l).
  cbn [byte_run fold_left byte_step b_mode b_pending b_target b_total b_out].
  unfold size_mode in Hm. apply andb_true_iff in Hm as [H1 H2]. apply negb_true_iff in H1, H2. rewrite H2.
  replace (zlen pend >=? t) with false by lia. unfold element_of. cbn [b_mode b_target]. rewrite H1.
  replace (zlen (pend ++ [b]) =? t) with false by (rewrite zlen_app, zlen_cons, zlen_nil; lia).
  change (fold_left byte_step l ?x) with (byte_run x l).
  rewrite IH; cbn [b_mode b_pending b_target b_total b_out]; rewrite <- ?app_assoc; try done.
  - unfold size_mode. by rewrite H1, H2.
  - rewrite !zlen_app, !zlen_cons, zlen_nil. lia.
Qed.

Lemma size_run_element s l :
  size_mode (b_mode s) = true -> zlen (b_pending s) < b_target s <= zlen (b_pending s ++ l) ->
  byte_run (Reading s) (ztake (b_target s - zlen (b_pending s)) l) =
    finish_element s (ztake (b_target s) (b_pending s ++ l)).
Proof.
  intros Hm Hl. rewrite zlen_app in Hl. destruct s as [m t pend tot out].
  cbn [b_mode b_pending b_target b_total b_out] in *. pose proof (zlen_nonneg pend).
  set (k := t - zlen pend) in *.
  rewrite (ztake_app_ge t) by lia. fold k.
  destruct (ztake k l) as [|b l0 _] eqn:E using rev_ind.
  { apply (f_equal zlen) in E. rewrite zlen_ztake, (@zlen_nil Z) in E. lia. }
  apply (f_equal zlen) in E. rewrite zlen_ztake, zlen_app, zlen_cons, (@zlen_nil Z) in E.
  rewrite byte_run_app, size_run_wait by (cbn [b_mode b_pending b_target]; rewrite ?zlen_app; first [done|lia]).
  cbn [byte_run fold_left byte_step b_mode b_pending b_target b_total b_out].
  unfold size_mode in Hm. apply andb_true_iff in Hm as [H1 H2]. apply negb_true_iff in H1, H2. rewrite H2.
  replace (zlen (pend ++ l0) >=? t) with false by (rewrite zlen_app; lia). unfold element_of. cbn [b_mode b_target].
  rewrite H1. replace (zlen ((pend ++ l0) ++ [b]) =? t) with true by (rewrite !zlen_app, zlen_cons, zlen_nil; lia).
  by rewrite <- app_assoc.
Qed.

(** Bytes that are handed on. *)
Lemma direct_run s l :
  direct_mode (b_mode s) = true -> b_pending s = [] -> zlen l <= b_target s -> l <> [] ->
  byte_run (Reading s) l =
    if bool_decide (b_mode s = CONTENT_LENGTH) && (zlen l =? b_target s) then Complete (b_out s ++ l) []
    else Reading (mkByteState (b_mode s) (b_target s - zlen l) [] (b_total s) (b_out s ++ l)).
Proof.
  intros Hm Hp Hl Hne. destruct s as [m t pend tot out]. cbn [b_mode b_pending b_target b_total b_out] in *. subst pend.
  revert t out Hl Hne. induction l as [|b l IH]; intros t out Hl Hne; [done|]. rewrite zlen_cons in *.
  pose proof (zlen_nonneg l). cbn [byte_run fold_left byte_step b_mode b_pending b_target b_total b_out].
  rewrite Hm. replace (t =? 0) with false by lia. destruct l as [|b' l].
  { change (zlen []) with 0 in *. cbn [fold_left]. replace (1 + 0 =? t) with (t =? 1) by lia.
    destruct (bool_decide _ && _); [done|]. do 2 f_equal. }
  rewrite zlen_cons in *. pose proof (zlen_nonneg l). replace (t =? 1) with false by lia. rewrite andb_false_r.
  change (fold_left byte_step ?x ?y) with (byte_run y x).
  rewrite IH by (rewrite ?zlen_cons; try done; lia).
  replace (1 + (1 + zlen l) =? t) with (1 + zlen l =? t - 1) by lia. rewrite <- app_assoc.
  destruct (bool_decide _ && _); [done|]. do 2 f_equal. lia.
Qed.

Lemma direct_run_overflow s l :
  direct_mode (b_mode s) = true -> b_target s = 0 -> l <> [] -> byte_run (Reading s) l = Refused.
Proof.
  intros Hm Ht Hne. destruct l as [|b l]; [done|]. cbn [byte_run fold_left byte_step].
  rewrite Hm, Ht, Z.eqb_refl. apply byte_run_refused.
Qed.
End ByteMachine.

(** ** The sub-parser does what the machine does *)

(** Ending a stream object returns. *)
Class SinkEOF (O : Type) `{SinkSpec O} := {
  eof_returns o acc : sink_rep o acc -> exists o' r, writeEOF o = Ret (o', r) }.

Section Refinement.
Context {M : Type} `{Container M} `{!MMapFile M} {O : Type} `{SinkEOF O}.
Context (lim : Limits) (cap L : Z).
Implicit Types (p q : SubParser M (Content O)) (s : ByteState).

Definition strategy_of (m : ProcessingMode) : ParseStrategy :=
  if line_mode m then DELIMITER else if direct_mode m then DIRECT else SIZE.

(** Nothing that waits is complete. *)
Definition element_open s : Prop :=
  if line_mode (b_mode s) then search true CRLF (b_pending s) = None /\ zlen (b_pending s) <= b_target s
  else if direct_mode (b_mode s) then b_pending s = []
  else zlen (b_pending s) < b_target s.

(** The object and the machine are in the same state.  [cap] is a body the
    stream object has room for, [L] what the buffer takes in single bytes. *)
Record content_at p s : Prop := {
  ca_sink : sink_rep (m_contentStreamableObject (sp_sub p)) (b_out s);
  ca_room : cap - zlen (b_out s) <= sink_room (m_contentStreamableObject (sp_sub p));
  ca_mode : m_currentMode (sp_sub p) = b_mode s;
  ca_total : m_currentContentLengthSize (sp_sub p) = b_total s;
  ca_limits : content_limits (sp_sub p) = lim;
  ca_strategy : m_parseMode p = strategy_of (b_mode s);
  ca_delim : line_mode (b_mode s) = true -> m_parseDelimiter p = CRLF;
  ca_target : m_maxSize (bc_base (m_unparsedBuffer p)) = b_target s;
  ca_pending : pending p = b_pending s;
  ca_buffer : buffer_ready (m_unparsedBuffer p);
  ca_open : m_streamEnded p = false;
  ca_chunks : L <= m_maxChunks (m_unparsedBuffer p);
  ca_bound : L + blockSize < SIZE_MOD;
  ca_element : element_open s }.

(** The body was handed over, and the stream object was told so. *)
Definition content_done p (out : bytes) : Prop :=
  exists o r, sink_rep o out /\ writeEOF o = Ret (m_contentStreamableObject (sp_sub p), r).

(** States inside the two bounds. *)
Definition inside (m : ByteMachine) : Prop :=
  match m with
  | Reading s => zlen (b_out s) <= cap /\ (direct_mode (b_mode s) = false -> b_target s <= L)
  | Complete out _ => zlen out <= cap
  | Refused => True
  end.

Definition run_inside (m : ByteMachine) (l : bytes) : Prop := forall k, inside (byte_run lim m (ztake k l)).

(** *** [parse()] in each mode *)

(** A line of the chunk sizes. *)
Lemma parse_size_line q line :
  content_limits (sp_sub q) = lim ->
  toString SIZE_MAX 0 (getParsedBuffer q) = Ret (Some line) ->
  parseHttpChunkSize q =
    Ret (match line_size lim (m_currentContentLengthSize (sp_sub q)) line with
         | Some n => (sp_set_sub (c_set_current (wrap (m_currentContentLengthSize (sp_sub q) + n)) (sp_sub q)) q, Some n)
         | None => (q, None)
         end).
Proof.
  intros Hl Hs. unfold parseHttpChunkSize, toUInt32. rewrite Hs. cbn [mbind outcome_bind].
  unfold line_size. destruct (strtoul 16 line) as [v [[|x r]|]]; try done.
  unfold admit_chunk. subst lim. cbn [max_chunk max_post content_limits].
  by repeat destruct (_ >? _).
Qed.

Definition with_object (o : O) q : SubParser M (Content O) := sp_set_sub (c_set_object o (sp_sub q)) q.

(** Handing the parsed bytes over. *)
Lemma content_append_ok q out e :
  sink_rep (m_contentStreamableObject (sp_sub q)) out ->
  read_ok (getParsedBuffer q) -> contents (getParsedBuffer q) = e ->
  zlen e <= sink_room (m_contentStreamableObject (sp_sub q)) ->
  exists o, content_append q = Ret (with_object o q) /\ sink_rep o (out ++ e) /\
    sink_room (m_contentStreamableObject (sp_sub q)) - zlen e <= sink_room o.
Proof.
  intros Hrep Hok <- Hroom. unfold content_append.
  destruct (ref_appendTo_all (getParsedBuffer q) (m_contentStreamableObject (sp_sub q)) out) as (o & -> & Hr & Hro); try done.
  - apply Hok.
  - by exists o.
Qed.

Lemma content_writeEOF_ok q out :
  sink_rep (m_contentStreamableObject (sp_sub q)) out ->
  exists o r, content_writeEOF q = Ret (with_object o q) /\
    writeEOF (m_contentStreamableObject (sp_sub q)) = Ret (o, r).
Proof.
  intros Hrep. destruct (eof_returns _ _ Hrep) as (o & r & E). exists o, r. split; [|done].
  unfold content_writeEOF. by rewrite E.
Qed.

(** The buffer of the next element. *)
Lemma next_element q k s' :
  buffer_ready (m_unparsedBuffer q) -> L <= m_maxChunks (m_unparsedBuffer q) -> L + blockSize < SIZE_MOD ->
  0 <= k < SIZE_MOD -> b_target s' = k -> b_pending s' = [] -> element_open s' ->
  forall q', m_unparsedBuffer q' = (Container.clear (setMaxSize k (m_unparsedBuffer q))).1 ->
  sink_rep (m_contentStreamableObject (sp_sub q')) (b_out s') ->
  cap - zlen (b_out s') <= sink_room (m_contentStreamableObject (sp_sub q')) ->
  m_currentMode (sp_sub q') = b_mode s' -> m_currentContentLengthSize (sp_sub q') = b_total s' ->
  content_limits (sp_sub q') = lim -> m_parseMode q' = strategy_of (b_mode s') ->
  (line_mode (b_mode s') = true -> m_parseDelimiter q' = CRLF) -> m_streamEnded q' = false ->
  content_at q' s'.
Proof.
  intros Hr Hc Hb Hk Ht Hp Ho q' E Hs Hroom Hm Htot Hl Hst Hd Hse.
  destruct (clear_resized_ready (m_unparsedBuffer q) k Hr Hk) as (Hr' & Hc' & Hch' & Hmax').
  split; try done; rewrite ?E; try done; try congruence.
  unfold pending. by rewrite E, Hp.
Qed.

(** The object [parse()] is called on: the state of [s], with an element [e]. *)
Record parsing q s (e : bytes) : Prop := {
  pa_sink : sink_rep (m_contentStreamableObject (sp_sub q)) (b_out s);
  pa_room : cap - zlen (b_out s) <= sink_room (m_contentStreamableObject (sp_sub q));
  pa_mode : m_currentMode (sp_sub q) = b_mode s;
  pa_total : m_currentContentLengthSize (sp_sub q) = b_total s;
  pa_limits : content_limits (sp_sub q) = lim;
  pa_string : toString SIZE_MAX 0 (getParsedBuffer q) = Ret (Some e);
  pa_parsed : size_mode (b_mode s) = true ->
    read_ok (getParsedBuffer q) /\ contents (getParsedBuffer q) = e;
  pa_delim : line_mode (b_mode s) = true -> m_parseDelimiter q = CRLF;
  pa_buffer : buffer_ready (m_unparsedBuffer q);
  pa_open : m_streamEnded q = false;
  pa_chunks : L <= m_maxChunks (m_unparsedBuffer q);
  pa_bound : L + blockSize < SIZE_MOD }.

Definition after_element (m : ByteMachine) q : Prop :=
  match m with
  | Reading s => m_parseStatus q = GET_MORE_DATA /\ content_at (clear_unparsed q) s
  | Complete out _ => m_parseStatus q = GOTO_NEXT_SUBPARSER /\ content_done (clear_unparsed q) out
  | Refused => m_parseStatus q = PR_ERROR
  end.

Lemma line_size_range total line n : line_size lim total line = Some n -> 0 <= n < 2 ^ 32.
Proof.
  unfold line_size. destruct (strtoul 16 line) as [v [[|]|]]; try done.
  pose proof (Z.mod_pos_bound v (2 ^ 32) ltac:(lia)). unfold wrapw.
  repeat destruct (_ >? _); try done. by intros [= <-].
Qed.

Lemma parse_element q s e :
  parsing q s e -> direct_mode (b_mode s) = false -> inside (finish_element lim s e) ->
  exists q', run_parse q = Ret q' /\ (line_mode (b_mode s) = true -> m_parseDelimiter q' = CRLF) /\
    after_element (finish_element lim s e) q'.
Proof.
  intros [Hs Hroom Hm Htot Hl Hstr Hpar Hd Hr Ho Hc Hb] Hdir Hin.
  unfold run_parse. cbn [parse content_sub]. unfold content_parse, finish_element in *. rewrite Hm.
  destruct (b_mode s) eqn:Em; try done; cbn [line_mode size_mode negb andb direct_mode] in *.
  - rewrite (parse_size_line q e) by done. cbn [mbind outcome_bind]. rewrite Htot.
    destruct (line_size lim (b_total s) e) as [n|] eqn:En; cbn [mbind outcome_bind].
    2: { eexists. split; [done|]. split; [exact Hd|done]. }
    pose proof (line_size_range _ _ _ En) as Hn. destruct (Z.gtb_spec n 0) as [Hp|Hz].
    + eexists. split; [reflexivity|]. split; [exact Hd || done|]. split; [done|].
      eapply (next_element q n); cbn [b_target b_pending b_out b_mode b_total]; try done; unfold SIZE_MOD; try lia.
    + assert (n = 0) as -> by lia. eexists. split; [reflexivity|]. split; [done|]. split; [done|].
      eapply (next_element q (64 * KB_MULT)); cbn [b_target b_pending b_out b_mode b_total]; try done.
  - destruct Hpar as [Hread Hcon]; [done|].
    set (q1 := content_mode CHUNK_CRLF (setParseDataTargetSize 2 (setParseStrategy SIZE q))).
    cbn [inside b_out] in Hin. rewrite zlen_app in Hin.
    destruct (content_append_ok q1 (b_out s) e) as (o & -> & Hrep & Hroom'); try done.
    { change (m_contentStreamableObject (sp_sub q1)) with (m_contentStreamableObject (sp_sub q)). lia. }
    cbn [mbind outcome_bind]. eexists. split; [reflexivity|]. split; [exact Hd || done|]. split; [done|].
    change (m_contentStreamableObject (sp_sub q1)) with (m_contentStreamableObject (sp_sub q)) in Hroom'.
    eapply (next_element q 2); cbn [b_target b_pending b_out b_mode b_total]; try done.
    rewrite zlen_app. cbn. lia.
  - eexists. split; [reflexivity|]. split; [done|]. split; [done|].
    eapply (next_element q (1 * KB_MULT)); cbn [b_target b_pending b_out b_mode b_total]; try done.
  - destruct (content_writeEOF_ok q (b_out s) Hs) as (o & r & -> & He). cbn [mbind outcome_bind].
    eexists. split; [reflexivity|]. split; [exact Hd|]. split; [done|]. by eexists _, r.
Qed.

(** *** One call *)

(** What a call does, by the machine: refused, or the first [k] bytes are taken. *)
Definition stuck s : Prop := forall l, l <> [] -> byte_run lim (Reading s) l = Refused.

Definition call_result s (buf : bytes) (r : outcome (SubParser M (Content O) * option Z)) : Prop :=
  exists p', (r = Ret (p', None) /\ byte_run lim (Reading s) buf = Refused) \/
    exists k, r = Ret (p', Some k) /\ 0 < k <= zlen buf /\
      match byte_run lim (Reading s) (ztake k buf) with
      | Reading s' => m_parseStatus p' = GET_MORE_DATA /\ content_at p' s' /\
          (k = zlen buf \/ 1 <= elements lim (Reading s) (ztake k buf) \/ stuck s')
      | Complete out rest => m_parseStatus p' = GOTO_NEXT_SUBPARSER /\ content_done p' out /\ rest = []
      | Refused => m_parseStatus p' = PR_ERROR
      end.

Lemma size_left p s :
  content_at p s -> 0 <= b_target s ->
  getSizeLeft (m_unparsedBuffer p) = Z.max 0 (b_target s - zlen (b_pending s)).
Proof.
  intros [] Ht. unfold getSizeLeft. cbn [csize bc_container get_base].
  rewrite bc_size_ok by apply (br_ok _ ca_buffer0). fold (pending p). rewrite ca_pending0, ca_target0.
  destruct (Z.gtb_spec (zlen (b_pending s)) (b_target s)); lia.
Qed.

Lemma content_fits p s (buf : bytes) :
  content_at p s -> b_target s <= L -> zlen (b_pending s) + zlen buf <= b_target s -> fits p buf.
Proof. intros [] Ht Hl. unfold fits. rewrite ca_pending0, ca_target0. lia. Qed.

(** A run that ends an element has ended one. *)
Lemma ended_element s e l s' :
  direct_mode (b_mode s) = false -> finish_element lim s e = Reading s' ->
  byte_run lim (Reading s) l = Reading s' -> l <> [] -> 1 <= elements lim (Reading s) l.
Proof.
  intros Hd Hf Hr Hne. pose proof (elements_nonneg lim (Reading s) l).
  destruct (Z.eq_dec (elements lim (Reading s) l) 0) as [E|]; [|lia].
  pose proof (no_element_run lim s l s' Hd E Hr) as ->.
  assert (b_pending s ++ l = []) as Hnil; [|by apply app_nil in Hnil as [_ ?]].
  unfold finish_element in Hf. destruct (b_mode s); try done; try (by injection Hf).
  destruct (line_size _ _ _); [destruct (_ >? _)|done]; by injection Hf.
Qed.

(** Common to the two strategies that wait: an element [e] ends after [k] bytes. *)
Lemma finish_call q s e (buf : bytes) k (f : SubParser M (Content O) -> option Z) :
  parsing q s e -> direct_mode (b_mode s) = false -> run_inside (Reading s) buf -> 0 < k <= zlen buf ->
  byte_run lim (Reading s) (ztake k buf) = finish_element lim s e ->
  (forall q', (line_mode (b_mode s) = true -> m_parseDelimiter q' = CRLF) -> f q' = Some k) ->
  call_result s buf (q' ← run_parse q; Ret (clear_unparsed q', f q')).
Proof.
  intros Hp Hd Hin Hk Hrun Hf.
  destruct (parse_element q s e Hp Hd) as (q' & -> & Hdel & Haft); [rewrite <- Hrun; apply Hin|].
  exists (clear_unparsed q'). right. exists k. cbn [mbind outcome_bind]. rewrite (Hf q' Hdel), Hrun.
  split; [done|]. split; [done|]. unfold after_element in Haft. destruct (finish_element _ _ _) eqn:Ef; try done.
  { destruct Haft as [Ha1 Ha2]. split_and!; [done..|]. right. left. apply (ended_element s e _ _ Hd Ef Hrun).
    intros E. apply (f_equal zlen) in E. rewrite zlen_ztake, (@zlen_nil Z) in E. lia. }
  destruct Haft as [Ha1 Ha2]. split_and!; [done..|].
  unfold finish_element in Ef. destruct (b_mode s); try done; [|congruence].
  destruct (line_size _ _ _); [by destruct (_ >? _)|done].
Qed.

(** The delimiter strategy, when the input fits. *)
Lemma line_call_fits p s (buf : bytes) :
  content_at p s -> line_mode (b_mode s) = true -> b_target s <= L -> buf <> [] ->
  zlen (b_pending s) + zlen buf <= b_target s -> m_parseStatus p = GET_MORE_DATA ->
  run_inside (Reading s) buf -> call_result s buf (parseByDelimiter buf p).
Proof.
  intros Hat Hm Ht Hne Hf Hst Hin. pose proof (content_fits p s buf Hat Ht Hf) as Hfit. pose proof Hat as [].
  pose proof (nonempty_length buf Hne). pose proof (zlen_nonneg (b_pending s)).
  assert (delimiter_ok CRLF) as Hdel by (split_and!; [done|repeat constructor; lia|done]).
  rewrite <- (ca_delim0 Hm) in Hdel.
  pose proof ca_element0 as Hel. unfold element_open in Hel. rewrite Hm in Hel. destruct Hel as [Hclean Hle].
  destruct (search true CRLF (b_pending s ++ buf)) as [pos|] eqn:Es.
  - destruct (parseByDelimiter_element p buf pos) as (q & -> & Hstr & Hpq & Hrq & Hlim & Hsub & Hdq & Hmq & Hoq);
      try done; rewrite ?ca_pending0, ?(ca_delim0 Hm); try done.
    pose proof (search_end _ _ _ _ Es) as He. pose proof (search_correct _ _ _ _ Es) as (Hpos & _).
    pose proof (search_app_new true CRLF (b_pending s) buf pos ltac:(done) Hclean Es) as Hnew.
    change (zlen CRLF) with 2 in *. rewrite zlen_app in He.
    pose proof (line_run_element lim s buf pos Hm Hclean Es ltac:(lia)) as Hrun.
    eapply finish_call with (f := fun q' => Some (wrap (wrap (pos - zlen (b_pending s)) + zlen (m_parseDelimiter q'))));
      [|by destruct (b_mode s)|done| |exact Hrun|].
    + destruct Hlim as (E1 & _). split; rewrite ?Hsub, ?Hoq, ?E1; try done.
      * by rewrite Hstr, ca_pending0.
      * intros Hsz. unfold size_mode in Hsz. by rewrite Hm in Hsz.
      * intros _. by rewrite Hdq, (ca_delim0 Hm).
    + lia.
    + intros q' Hq'. rewrite (Hq' Hm), wrap_add_l. change (zlen CRLF) with 2. rewrite wrap_small; [f_equal; lia|].
      unfold blockSize, KB_MULT in *. lia.
  - destruct (parseByDelimiter_wait p buf) as (c & -> & Hrc & Hc & Hlim); try done;
      rewrite ?ca_pending0, ?(ca_delim0 Hm); try done.
    eexists. right. exists (zlen buf). split; [done|]. split; [lia|]. rewrite ztake_ge by lia.
    rewrite line_run_wait by (rewrite ?zlen_app; done || lia). split; [done|]. split; [|by left].
    destruct Hlim as (E1 & _ & _ & _ & _ & E6 & _). split; cbn [b_out b_mode b_total b_target b_pending]; try done.
    + change (m_maxSize (bc_base c) = b_target s). by rewrite E6.
    + change (bc_contents c = b_pending s ++ buf). by rewrite Hc, ca_pending0.
    + change (L <= m_maxChunks c). by rewrite E1.
    + unfold element_open. cbn [b_mode b_pending b_target]. rewrite Hm, zlen_app. split; [done|lia].
Qed.

Lemma run_inside_take s (buf : bytes) n : run_inside (Reading s) buf -> run_inside (Reading s) (ztake n buf).
Proof. intros Hin k. rewrite ztake_ztake. apply Hin. Qed.

Lemma call_result_clip s (buf : bytes) n r :
  (n < zlen buf -> forall s', byte_run lim (Reading s) (ztake n buf) = Reading s' ->
    1 <= elements lim (Reading s) (ztake n buf) \/ stuck s') ->
  call_result s (ztake n buf) r -> call_result s buf r.
Proof.
  intros Hclip (p' & [[-> Hr]|(k & -> & Hk & Hres)]).
  - exists p'. left. split; [done|]. rewrite <- (ztake_zdrop n buf), byte_run_app, Hr. apply byte_run_refused.
  - exists p'. right. exists k. split; [done|]. rewrite zlen_ztake in Hk. split; [lia|].
    rewrite ztake_ztake in Hres. replace (Z.min k n) with k in Hres by lia.
    destruct (byte_run lim (Reading s) (ztake k buf)) as [s'| |] eqn:Er; try done.
    destruct Hres as (H3 & H4 & Hcases). split; [done|]. split; [done|]. rewrite zlen_ztake in Hcases.
    destruct Hcases as [Ek|Hc]; [|by right].
    destruct (Z.lt_ge_cases n (zlen buf)) as [Hn|Hn]; [|left; lia]. right.
    assert (k = n) as -> by lia. by apply Hclip.
Qed.

(** A line that was filled and did not end. *)
Lemma filled_stuck s l s' :
  direct_mode (b_mode s) = false -> b_target s <= zlen (b_pending s ++ l) ->
  byte_run lim (Reading s) l = Reading s' -> 1 <= elements lim (Reading s) l \/ stuck s'.
Proof.
  intros Hd Ht Hr. pose proof (elements_nonneg lim (Reading s) l).
  destruct (Z.eq_dec (elements lim (Reading s) l) 0) as [E|]; [|left; lia]. right.
  rewrite (no_element_run lim s l s' Hd E Hr). intros k Hk. by apply full_run.
Qed.

Lemma append_full p s (buf : bytes) :
  content_at p s -> 0 <= b_target s <= zlen (b_pending s) -> buf <> [] ->
  appendToUnparsedBuffer buf p = Ret (p, None).
Proof.
  intros Hat Ht Hne. unfold appendToUnparsedBuffer. rewrite (size_left p s) by (done || lia).
  pose proof (nonempty_length buf Hne).
  replace (Z.max 0 _ =? 0) with true by lia. by replace (zlen buf >? 0) with true by lia.
Qed.

Lemma target_nonneg p s : content_at p s -> 0 <= b_target s < SIZE_MOD.
Proof.
  intros []. pose proof (br_left _ ca_buffer0) as Hb. rewrite ca_target0 in Hb.
  pose proof (zlen_nonneg (bc_contents (m_unparsedBuffer p))). lia.
Qed.

Lemma line_call p s (buf : bytes) :
  content_at p s -> line_mode (b_mode s) = true -> b_target s <= L -> buf <> [] ->
  m_parseStatus p = GET_MORE_DATA -> run_inside (Reading s) buf ->
  call_result s buf (parseByDelimiter buf p).
Proof.
  intros Hat Hm Ht Hne Hst Hin. pose proof (target_nonneg p s Hat). pose proof (zlen_nonneg (b_pending s)).
  assert (direct_mode (b_mode s) = false) as Hd by by destruct (b_mode s).
  destruct (Z.le_gt_cases (b_target s) (zlen (b_pending s))) as [Hfull|Hleft].
  - exists p. left. split; [|by apply full_run]. unfold parseByDelimiter. by rewrite (append_full p s) by (done || lia).
  - pose proof (size_left p s Hat ltac:(lia)) as Hsl. pose proof (nonempty_length buf Hne).
    set (n := getSizeLeft (m_unparsedBuffer p)) in *.
    assert (parseByDelimiter buf p = parseByDelimiter (ztake n buf) p) as ->.
    { unfold parseByDelimiter. by rewrite (append_clip p buf) by (fold n; lia). }
    apply (call_result_clip s buf n); [|apply line_call_fits; try done].
    + intros Hn s' Hr. apply filled_stuck; [done| |done]. rewrite zlen_app, zlen_ztake. lia.
    + intros E. apply (f_equal zlen) in E. rewrite zlen_ztake, (@zlen_nil Z) in E. lia.
    + rewrite zlen_ztake. lia.
    + by apply run_inside_take.
Qed.

Lemma size_call p s (buf : bytes) :
  content_at p s -> size_mode (b_mode s) = true -> b_target s <= L -> buf <> [] ->
  m_parseStatus p = GET_MORE_DATA -> run_inside (Reading s) buf ->
  call_result s buf (parseBySize buf p).
Proof.
  intros Hat Hm Ht Hne Hst Hin. pose proof Hat as []. pose proof (nonempty_length buf Hne).
  pose proof (zlen_nonneg (b_pending s)).
  assert (line_mode (b_mode s) = false /\ direct_mode (b_mode s) = false) as [Hl Hd].
  { unfold size_mode in Hm. by destruct (line_mode _), (direct_mode _). }
  pose proof ca_element0 as Hel. unfold element_open in Hel. rewrite Hl, Hd in Hel.
  destruct (parseBySize_spec p buf (b_target s)) as (c & Hrc & Hlim & Hs); rewrite ?ca_pending0; try done; try lia.
  rewrite ca_pending0 in Hs. destruct Hlim as (E1 & _ & _ & _ & _ & E6 & _).
  destruct (Z.ltb_spec (zlen (b_pending s) + zlen buf) (b_target s)) as [Hlt|Hge]; destruct Hs as [-> Hc].
  - eexists. right. exists (zlen buf). split; [done|]. split; [lia|]. rewrite ztake_ge by lia.
    rewrite size_run_wait by (rewrite ?zlen_app; done || lia). split; [done|]. split; [|by left].
    split; cbn [b_out b_mode b_total b_target b_pending]; try done.
    + change (m_maxSize (bc_base c) = b_target s). by rewrite E6.
    + change (L <= m_maxChunks c). by rewrite E1.
    + unfold element_open. cbn [b_mode b_pending b_target]. rewrite Hl, Hd, zlen_app. lia.
  - destruct (parsed_all (sp_set_unparsed c p) Hrc) as [Hok Hcon].
    change (pending (sp_set_unparsed c p)) with (bc_contents c) in Hcon. rewrite Hc in Hcon.
    eapply (finish_call _ s (ztake (b_target s) (b_pending s ++ buf)) buf (b_target s - zlen (b_pending s))
              (fun _ => Some (b_target s - zlen (b_pending s)))); [|done|done|lia| |done].
    + split; try done.
      * rewrite toString_all by done. by rewrite Hcon.
      * change (L <= m_maxChunks c). by rewrite E1.
    + apply size_run_element; [done|]. rewrite zlen_app. lia.
Qed.

(** The direct strategy hands on what it gets and lowers the size that is left. *)
Lemma direct_call p s (buf : bytes) :
  content_at p s -> direct_mode (b_mode s) = true -> buf <> [] -> zlen buf <= L ->
  m_parseStatus p = GET_MORE_DATA -> run_inside (Reading s) buf ->
  call_result s buf (parseDirect buf p).
Proof.
  intros Hat Hm Hne HL Hst Hin. pose proof Hat as []. pose proof (nonempty_length buf Hne).
  pose proof (target_nonneg p s Hat) as Ht.
  assert (line_mode (b_mode s) = false) as Hl by by destruct (b_mode s).
  pose proof ca_element0 as Hel. unfold element_open in Hel. rewrite Hl, Hm in Hel.
  destruct (Z.eq_dec (b_target s) 0) as [H0t|Hnz].
  { exists p. left. split; [|by apply direct_run_overflow]. unfold parseDirect.
    rewrite (append_full p s) by (rewrite ?Hel; first [done|change (zlen []) with 0; lia]). done. }
  pose proof (size_left p s Hat ltac:(lia)) as Hsl. rewrite Hel in Hsl. change (zlen []) with 0 in Hsl.
  set (n := Z.min (zlen buf) (b_target s)).
  assert (parseDirect buf p = parseDirect (ztake n buf) p) as ->.
  { unfold parseDirect. rewrite (append_clip p buf) by lia. rewrite Hsl. do 2 f_equal.
    replace (Z.max 0 (b_target s - 0)) with (b_target s) by lia. unfold n. by rewrite ztake_min_len. }
  apply (call_result_clip s buf n).
  { intros Hn s' Hr. right. intros l Hl'.
    assert (ztake n buf <> []) as Hnn by (intros E; apply (f_equal zlen) in E; rewrite zlen_ztake, (@zlen_nil Z) in E; lia).
    rewrite direct_run in Hr by (rewrite ?zlen_ztake; done || lia). destruct (_ && _); [done|]. injection Hr as <-.
    apply direct_run_overflow; [done| |done]. cbn [b_target]. rewrite zlen_ztake. lia. }
  apply run_inside_take with (n := n) in Hin.
  assert (zlen (ztake n buf) = n) as Hn by (rewrite zlen_ztake; lia).
  assert (ztake n buf <> []) as Hne' by (intros E; rewrite E in Hn; change (zlen []) with 0 in Hn; lia).
  revert Hn Hne' Hin. generalize (ztake n buf). clear Hne. intros d Hn Hne Hin.
  destruct (appendToUnparsedBuffer_fits p d) as (c & Ha & Hrc & Hc & Hlim); try done.
  { unfold fits. rewrite ca_pending0, ca_target0, Hel. change (zlen []) with 0. lia. }
  rewrite ca_pending0, Hel in Hc. cbn [app] in Hc. destruct Hlim as (E1 & _ & _ & _ & _ & E6 & _).
  unfold parseDirect. rewrite Ha. cbn [mbind outcome_bind].
  set (q := reference_unparsed 0 SIZE_MAX (sp_set_unparsed c p)).
  destruct (parsed_all (sp_set_unparsed c p) Hrc) as [Hok Hcon]. fold q in Hok, Hcon.
  change (pending (sp_set_unparsed c p)) with (bc_contents c) in Hcon. rewrite Hc in Hcon.
  pose proof (Hin n) as Hin_n. rewrite ztake_ge in Hin_n by lia.
  pose proof (direct_run lim s d Hm Hel ltac:(lia) Hne) as Hrun. rewrite Hrun in Hin_n.
  assert (zlen (b_out s ++ d) <= cap) as Hcap by (destruct (_ && _); cbn in Hin_n; lia).
  rewrite zlen_app in Hcap.
  destruct (content_append_ok q (b_out s) d) as (o & Happ & Hrep & Hroom); [exact ca_sink0|done|done| |].
  { change (m_contentStreamableObject (sp_sub q)) with (m_contentStreamableObject (sp_sub p)). lia. }
  change (m_contentStreamableObject (sp_sub q)) with (m_contentStreamableObject (sp_sub p)) in Hroom.
  assert (forall q', m_unparsedBuffer q' = c -> bc_size (m_unparsedBuffer q') = n) as Hsz.
  { intros q' ->. rewrite bc_size_ok by apply (br_ok _ Hrc). by rewrite Hc. }
  destruct (clear_ready c Hrc) as (Hcr & Hcc & Hcl). destruct Hcl as (F1 & _ & _ & _ & _ & F6 & _).
  assert (reduceMaxSizeBy n (Container.clear c).1 = Ret (setMaxSize (b_target s - n) (Container.clear c).1)) as Hred.
  { unfold reduceMaxSizeBy, getMaxSize. cbn [get_base bc_container]. rewrite F6, E6, ca_target0.
    by replace (n >? b_target s) with false by lia. }
  assert (content_at (sp_set_unparsed (setMaxSize (b_target s - n) (Container.clear c).1)
            (clear_unparsed (setParseResult GET_MORE_DATA (with_object o q))))
            (mkByteState (b_mode s) (b_target s - n) [] (b_total s) (b_out s ++ d))) as Hnext.
  { split; cbn [b_out b_mode b_total b_target b_pending]; try done.
    - rewrite zlen_app. change (m_contentStreamableObject _) with o. lia.
    - destruct Hcr as [R1 R2 R3 R4 R5 R6 R7]. split; try done.
      change (zlen (bc_contents (Container.clear c).1) <= b_target s - n < SIZE_MOD). rewrite Hcc.
      change (zlen []) with 0. lia.
    - change (L <= m_maxChunks (Container.clear c).1). by rewrite F1, E1.
    - unfold element_open. cbn [b_mode b_pending]. by rewrite Hl, Hm. }
  assert (m_currentMode (sp_sub q) = b_mode s) as Hqm by exact ca_mode0.
  unfold run_parse. cbn [parse content_sub]. unfold content_parse. rewrite Hqm.
  assert (getUnparsedDataSize (with_object o q) = b_target s - n) as Hleft.
  { unfold getUnparsedDataSize, getSizeLeft. change (m_unparsedBuffer (with_object o q)) with c.
    cbn [csize bc_container get_base]. rewrite bc_size_ok by apply (br_ok _ Hrc). rewrite Hc, E6, ca_target0, Hn.
    by replace (n >? b_target s) with false by lia. }
  destruct (b_mode s) eqn:Em; try done; cbn [bool_decide decide] in *.
  - rewrite Happ. cbn [mbind outcome_bind]. rewrite Hleft.
    rewrite bool_decide_true in Hrun by done. cbn [andb] in Hrun. rewrite Hn in Hrun.
    destruct (Z.gtb_spec (b_target s - n) 0) as [Hmore|Hend]; cbn [mbind outcome_bind].
    + rewrite (Hsz (setParseResult _ _)) by done. change (m_unparsedBuffer (clear_unparsed _)) with (Container.clear c).1.
      rewrite Hred. cbn [mbind outcome_bind]. eexists. right. exists n. rewrite Hn. split; [done|]. split; [lia|].
      rewrite ztake_ge by lia. rewrite Hrun. replace (n =? b_target s) with false by lia. split; [done|]. split; [exact Hnext|by left].
    + destruct (content_writeEOF_ok (with_object o q) (b_out s ++ d) Hrep) as (o' & r & -> & He). cbn [mbind outcome_bind].
      rewrite (Hsz (setParseResult _ _)) by done. change (m_unparsedBuffer (clear_unparsed _)) with (Container.clear c).1.
      rewrite Hred. cbn [mbind outcome_bind]. eexists. right. exists n. rewrite Hn. split; [done|]. split; [lia|].
      rewrite ztake_ge by lia. rewrite Hrun. replace (n =? b_target s) with true by lia. split; [done|].
      split; [|done]. by exists o, r.
  - change (csize (getParsedBuffer q)) with (ref_size (getParsedBuffer q)).
    rewrite (ref_size_ok (getParsedBuffer q)) by apply Hok. change (ref_contents ?x) with (contents x).
    rewrite Hcon, Hn. replace (n =? 0) with false by lia. cbn [negb]. rewrite Happ. cbn [mbind outcome_bind].
    rewrite bool_decide_false in Hrun by done. cbn [andb] in Hrun. rewrite Hn in Hrun.
    rewrite (Hsz (setParseResult _ _)) by done. change (m_unparsedBuffer (clear_unparsed _)) with (Container.clear c).1.
    rewrite Hred. cbn [mbind outcome_bind]. eexists. right. exists n. rewrite Hn. split; [done|]. split; [lia|].
    rewrite ztake_ge by lia. rewrite Hrun. split; [done|]. split; [exact Hnext|left; lia].
Qed.

(** One write into the sub-parser, in any mode. *)
Lemma write_call p s (buf : bytes) :
  content_at p s -> buf <> [] -> zlen buf <= L -> inside (Reading s) ->
  m_parseStatus p = GET_MORE_DATA -> run_inside (Reading s) buf ->
  call_result s buf (writeIntoSubParser buf p).
Proof.
  intros Hat Hne HL [_ Ht] Hst Hin. unfold writeIntoSubParser.
  pose proof (nonempty_length buf Hne). replace (zlen buf =? 0) with false by lia.
  rewrite (ca_strategy _ _ Hat). unfold strategy_of. destruct (line_mode (b_mode s)) eqn:El.
  - apply line_call; try done. apply Ht. by destruct (b_mode s).
  - destruct (direct_mode (b_mode s)) eqn:Ed; [by apply direct_call|].
    apply size_call; try done; [by unfold size_mode; rewrite El, Ed|by apply Ht].
Qed.

(** *** The stream parser over the sub-parser

    A protocol that has the content as its only sub-parser, and ends with it. *)
#[local] Instance content_protocol : ParserImpl (SubParser M (Content O) * bool) := {|
  currentSubParser x := x.2;
  cur_setParseResult r x := (setParseResult r x.1, x.2);
  cur_writeIntoSubParser buf x := '(p, r) ← writeIntoSubParser buf x.1; Ret ((p, x.2), r);
  cur_getParseStatus x := m_parseStatus x.1;
  changeToNextParser x := Ret ((x.1, false), true);
  initProtocol x := Ret (x, true);
  endProtocol x := Ret x |}.

Implicit Types (P : Parser (SubParser M (Content O) * bool)).

Definition reading_at P s : Prop :=
  content_at (pr_impl P).1 s /\ (pr_impl P).2 = true /\ inside (Reading s) /\ 0 <= m_maxTTL P.

(** What the parser answers to a write. *)
Definition write_result P s (buf : bytes) ttl (r : outcome (Parser (SubParser M (Content O) * bool) * option Z)) : Prop :=
  match byte_run lim (Reading s) buf with
  | Refused => exists P', r = Ret (P', None)
  | Reading s' =>
      ttl + elements lim (Reading s) buf <= m_maxTTL P ->
      exists P', r = Ret (P', Some (zlen buf)) /\ reading_at P' s' /\ m_maxTTL P' = m_maxTTL P
  | Complete out rest =>
      ttl + elements lim (Reading s) buf <= m_maxTTL P ->
      exists P', r = Ret (P', Some (zlen buf - zlen rest)) /\ content_done (pr_impl P').1 out /\ (pr_impl P').2 = false
  end.

Lemma run_inside_drop s (buf : bytes) k s' :
  run_inside (Reading s) buf -> 0 <= k <= zlen buf -> byte_run lim (Reading s) (ztake k buf) = Reading s' ->
  run_inside (Reading s') (zdrop k buf) /\ inside (Reading s').
Proof.
  intros Hin Hk Hr. split.
  - intros n. rewrite <- Hr, <- byte_run_app. pose proof (Hin (k + Z.max 0 n)) as Hi.
    rewrite ztake_add in Hi by lia. destruct (Z.le_gt_cases 0 n); [by replace (Z.max 0 n) with n in Hi by lia|].
    rewrite (ztake_le0 n), ?app_nil_r by lia. by rewrite (ztake_le0 (Z.max 0 n)), app_nil_r in Hi by lia.
  - rewrite <- Hr. apply Hin.
Qed.

Lemma parse_content fuel (buf : bytes) ttl P s :
  reading_at P s -> buf <> [] -> zlen buf <= L -> run_inside (Reading s) buf ->
  0 <= ttl -> m_maxTTL P + 1 - ttl < Z.of_nat fuel -> 0 <= m_maxTTL P - ttl + 1 ->
  write_result P s buf ttl (parseData fuel buf ttl P).
Proof.
  revert buf ttl P s. induction fuel as [|fuel IH]; intros buf ttl P s (Hat & Hact & Hins & HT) Hne HL Hin Ht Hf Httl; [lia|].
  pose proof (ca_bound _ _ Hat) as HB. unfold blockSize, KB_MULT in HB.
  unfold write_result. cbn [parseData]. pose proof (elements_nonneg lim (Reading s) buf).
  destruct (Z.gtb_spec ttl (m_maxTTL P)) as [Hexc|Hok].
  { destruct (byte_run lim (Reading s) buf); [lia..|by eexists]. }
  cbn [currentSubParser content_protocol]. rewrite Hact.
  cbn [cur_setParseResult cur_writeIntoSubParser content_protocol pr_set_impl pr_impl fst snd].
  set (x := setParseResult GET_MORE_DATA (pr_impl P).1).
  assert (content_at x s) as Hx by (destruct Hat; by split).
  destruct (write_call x s buf Hx Hne HL Hins eq_refl Hin) as (p' & [[-> Href]|(k & -> & Hk & Hres)]);
    cbn [mbind outcome_bind].
  { rewrite Href. by eexists. }
  cbn [pr_set_impl pr_impl cur_getParseStatus content_protocol fst snd].
  pose proof (ztake_zdrop k buf) as Etd. pose proof (byte_run_app lim (Reading s) (ztake k buf) (zdrop k buf)) as Hsplit.
  rewrite Etd in Hsplit. pose proof (elements_app lim (Reading s) (ztake k buf) (zdrop k buf)) as Hel. rewrite Etd in Hel.
  destruct (byte_run lim (Reading s) (ztake k buf)) as [s'|out rest|] eqn:Er.
  - destruct Hres as (-> & Hat' & Hcases). destruct (run_inside_drop s buf k s' Hin ltac:(lia) Er) as [Hin' Hins'].
    destruct (Z.eqb_spec k (zlen buf)) as [->|Hlt].
    + rewrite zdrop_ge in Hsplit by lia. rewrite Hsplit. cbn [byte_run fold_left]. intros _. eexists. split; [done|].
      by split_and!.
    + unfold parse_rest. replace (k =? zlen buf) with false by lia. cbn [negb].
      assert (zdrop k buf <> []) as Hne' by (intros E; apply (f_equal zlen) in E; rewrite zlen_zdrop, (@zlen_nil Z) in E; lia).
      assert (zlen (zdrop k buf) = zlen buf - k) as Hzd by (rewrite zlen_zdrop; lia).
      match goal with |- context [parseData fuel _ _ ?Q] => set (P1 := Q) end.
      specialize (IH (zdrop k buf) (ttl + 1) P1 s'). unfold write_result in IH. rewrite <- Hsplit in IH.
      change (m_maxTTL P1) with (m_maxTTL P) in IH.
      assert (match byte_run lim (Reading s) buf with
              | Refused => True | _ => ttl + elements lim (Reading s) buf <= m_maxTTL P ->
                  ttl + 1 + elements lim (Reading s') (zdrop k buf) <= m_maxTTL P end) as Hcount.
      { destruct Hcases as [->|[Hc|Hstuck]]; [done| |rewrite Hsplit, (Hstuck _ Hne'); done].
        destruct (byte_run lim (Reading s) buf); lia || done. }
      assert (reading_at P1 s') as HP1 by (split_and!; try done; apply Hins').
      specialize (IH HP1 Hne' ltac:(lia) Hin' ltac:(lia) ltac:(lia) ltac:(lia)).
      destruct (byte_run lim (Reading s) buf) as [s2|out rest|] eqn:Efin.
      * intros Hle. destruct IH as (P' & -> & Hr' & HT'); [by apply Hcount|].
        cbn [mbind outcome_bind]. exists P'. split; [rewrite wrap_small by (unfold SIZE_MOD in *; lia); do 3 f_equal; lia|done].
      * intros Hle. destruct IH as (P' & -> & Hr' & HT'); [by apply Hcount|].
        cbn [mbind outcome_bind]. exists P'. split; [|done]. symmetry in Hsplit.
        destruct (complete_suffix lim s' _ out rest Hsplit) as (l1 & El & _). apply (f_equal zlen) in El.
        rewrite zlen_app in El. pose proof (zlen_nonneg l1). pose proof (zlen_nonneg rest).
        rewrite wrap_small by (unfold SIZE_MOD in *; lia). do 3 f_equal. lia.
      * destruct IH as (P' & ->). by eexists.
  - destruct Hres as (-> & Hdone & ->). cbn [changeToNextParser content_protocol mbind outcome_bind negb fst].
    cbn [pr_set_impl pr_impl currentSubParser content_protocol snd negb orb pr_set_finished pr_set_status].
    rewrite Hsplit, byte_run_complete. cbn [app]. intros _.
    replace (zlen buf - zlen (zdrop k buf)) with k by (rewrite zlen_zdrop; lia).
    by eexists.
  - rewrite Hres. rewrite Hsplit, byte_run_refused. by eexists.
Qed.

(** The writes: none is empty, each fits the buffer, and the counter of the
    parser covers the elements it ends. *)
Fixpoint writes_within (T : Z) (m : ByteMachine) (bufs : list bytes) : Prop :=
  match bufs with
  | [] => True
  | b :: bufs =>
      b <> [] /\ zlen b <= L /\ elements lim m b <= T /\ writes_within T (byte_run lim m b) bufs
  end.

Lemma run_inside_cat s (b k : bytes) : run_inside (Reading s) (b ++ k) -> run_inside (Reading s) b.
Proof.
  intros Hin n. pose proof (Hin (Z.min n (zlen b))) as Hi.
  destruct (Z.le_gt_cases n (zlen b)).
  - rewrite Z.min_l, ztake_app_le in Hi by lia. done.
  - rewrite Z.min_r, ztake_app_le, ztake_ge in Hi by lia. by rewrite ztake_ge by lia.
Qed.

(** After the end of the body nothing is taken. *)
Lemma write_all_ended bufs P : (pr_impl P).2 = false -> exists ok, write_all bufs P = Ret (P, ok).
Proof.
  intros Hf. destruct bufs as [|b bufs]; [by exists true|]. cbn [write_all].
  assert (pr_write b P = Ret (P, None)) as ->; [|by exists false].
  unfold pr_write, parse_fuel. replace (Z.to_nat (m_maxTTL P) + 2)%nat with (Datatypes.S (Z.to_nat (m_maxTTL P) + 1)) by lia.
  cbn [parseData currentSubParser content_protocol]. rewrite Hf. by repeat case_bool.
Qed.

Lemma write_all_content bufs P s :
  reading_at P s -> run_inside (Reading s) (concat bufs) ->
  writes_within (m_maxTTL P) (Reading s) bufs ->
  match byte_run lim (Reading s) (concat bufs) with
  | Reading s' => exists P', write_all bufs P = Ret (P', true) /\ reading_at P' s'
  | Complete out [] =>
      exists P', write_all bufs P = Ret (P', true) /\ content_done (pr_impl P').1 out /\ (pr_impl P').2 = false
  | Complete out _ =>
      exists P' ok, write_all bufs P = Ret (P', ok) /\ content_done (pr_impl P').1 out /\ (pr_impl P').2 = false
  | Refused => exists P', write_all bufs P = Ret (P', false)
  end.
Proof.
  revert P s. induction bufs as [|b bufs IH]; intros P s Hat Hin Hw; [by exists P|].
  destruct Hw as (Hne & HL & Hel & Hw). cbn [concat] in *. rewrite byte_run_app.
  pose proof (run_inside_cat s b _ Hin) as Hinb. pose proof Hat as (_ & _ & _ & HT).
  assert (forall k, write_result P s b 0 k -> k = pr_write b P ->
    match byte_run lim (byte_run lim (Reading s) b) (concat bufs) with
    | Reading s' => exists P', write_all (b :: bufs) P = Ret (P', true) /\ reading_at P' s'
    | Complete out [] =>
        exists P', write_all (b :: bufs) P = Ret (P', true) /\ content_done (pr_impl P').1 out /\ (pr_impl P').2 = false
    | Complete out _ =>
        exists P' ok, write_all (b :: bufs) P = Ret (P', ok) /\ content_done (pr_impl P').1 out /\ (pr_impl P').2 = false
    | Refused => exists P', write_all (b :: bufs) P = Ret (P', false)
    end) as Hgoal.
  { intros k Hk ->. unfold write_result in Hk. cbn [write_all]. destruct (byte_run lim (Reading s) b) as [s'|out rest|] eqn:Er.
    - destruct Hk as (P' & -> & Hat' & HT'); [lia|]. cbn [mbind outcome_bind has_value].
      apply IH; [done| |by rewrite HT']. intros n. rewrite <- Er, <- byte_run_app.
      pose proof (Hin (zlen b + Z.max 0 n)) as Hi. pose proof (zlen_nonneg b).
      rewrite ztake_app_ge in Hi by lia. replace (zlen b + Z.max 0 n - zlen b) with (Z.max 0 n) in Hi by lia.
      destruct (Z.le_gt_cases 0 n); [by replace (Z.max 0 n) with n in Hi by lia|].
      rewrite (ztake_le0 n) by lia. by rewrite (ztake_le0 (Z.max 0 n)) in Hi by lia.
    - rewrite byte_run_complete. destruct Hk as (P' & -> & Hd & Hf); [lia|]. cbn [mbind outcome_bind has_value].
      destruct (write_all_ended bufs P' Hf) as (ok & Eok). destruct (rest ++ concat bufs) as [|y r] eqn:En; [|by exists P', ok].
      apply app_nil in En as [-> En]. destruct bufs as [|b2 bufs]; [by exists P'|]. destruct Hw as (Hne2 & _). cbn [concat] in En.
      apply app_nil in En as [En _]. done.
    - rewrite byte_run_refused. destruct Hk as (P' & ->). by exists P'. }
  apply (Hgoal (pr_write b P)); [|done]. unfold pr_write. pose proof (nonempty_length b Hne).
  replace (zlen b =? 0) with false by lia. apply parse_content; try done; unfold parse_fuel; lia.
Qed.
End Refinement.
