(* ===== verification/HttpChunks.v ===== *)
(** * Chunked bodies: sending, receiving, limits

    What [ContentChunkedTransformer] writes is read by the byte machine as the
    body that was sent; the machine never takes more than the limit of the
    content.  With the refinement of HttpContent.v these are facts of the
    sub-parser [Content] for every way of cutting its input into writes. *)

From S2P Require Import Prelude SafeInt Mem Streamable Container ContainerTheory BMem BChunks ChunkBuffer BRef.
From S2P Require Import SubParser Parser CLib HttpContent.
From Stdlib Require Import ZArith Lia.

(** The machine of a content that was just set to receive chunks. *)
Definition chunked_start : ByteState := mkByteState CHUNK_SIZE 64 [] 0 [].

(** A line without a carriage return ends at the first CR LF. *)
Lemma search_line l r : 13 ∉ l -> search true CRLF (l ++ CRLF ++ r) = Some (zlen l).
Proof.
  induction l as [|c l IH]; intros Hn.
  - cbn [app search]. replace (matches_at true CRLF (CRLF ++ r)) with true; [done|]. by vm_compute.
  - apply not_elem_of_cons in Hn as [Hc Hn]. cbn [app search].
    replace (matches_at true CRLF (c :: l ++ CRLF ++ r)) with false.
    + rewrite (IH Hn), zlen_cons. cbn. f_equal. lia.
    + symmetry. apply matches_at_cons_false; [done|]. cbn. apply Z.eqb_neq. congruence.
Qed.

Section Machine.
Context (lim : Limits).
Implicit Types s : ByteState.

(** A whole line, and a whole piece of a set size. *)
Lemma line_piece s l :
  line_mode (b_mode s) = true -> b_pending s = [] -> 13 ∉ l -> zlen l + 2 <= b_target s ->
  byte_run lim (Reading s) (l ++ CRLF) = finish_element lim s l.
Proof.
  intros Hm Hp Hn Ht. pose proof (search_line l [] Hn) as Hs. rewrite app_nil_r in Hs.
  pose proof (line_run_element lim s (l ++ CRLF) (zlen l) Hm) as Hr. rewrite Hp in Hr. cbn [app] in Hr.
  change (zlen []) with 0 in Hr. rewrite ztake_ge in Hr by (rewrite zlen_app; change (zlen CRLF) with 2; lia).
  rewrite Hr by (done || lia). by rewrite ztake_app_le, ztake_ge by lia.
Qed.

Lemma size_piece s e :
  size_mode (b_mode s) = true -> b_pending s = [] -> 0 < b_target s -> zlen e = b_target s ->
  byte_run lim (Reading s) e = finish_element lim s e.
Proof.
  intros Hm Hp Ht He. pose proof (size_run_element lim s e Hm) as Hr. rewrite Hp in Hr. cbn [app] in Hr.
  change (zlen []) with 0 in Hr. rewrite !ztake_ge in Hr by lia. apply Hr. lia.
Qed.

(** The machine after chunks of which the whole is [body]. *)
Definition received (body : bytes) : ByteState :=
  if zlen body =? 0 then chunked_start else mkByteState CHUNK_CRLF 2 [] (zlen body) body.

Lemma print_X_line n : 0 <= n -> 13 ∉ print_X n.
Proof.
  intros Hn Hin. pose proof (print_base_chars 16 n ltac:(lia) Hn) as Hc. rewrite Forall_forall in Hc.
  destruct (Hc _ Hin) as (d & E & Hd). pose proof (digit_char_range d). lia.
Qed.

Lemma print_X_length n : 0 <= n < 2 ^ 32 -> 1 <= zlen (print_X n) <= 8.
Proof.
  intros Hn. unfold print_X, print_base.
  assert (forall fuel m k, 1 <= k -> 0 <= m < 16 ^ k -> 0 <= m < 16 ^ (Z.of_nat fuel + 1) ->
    1 <= zlen (print_digits fuel 16 m) <= k) as Hall.
  { induction fuel as [|fuel IH]; intros m k Hk Hm Hf; cbn [print_digits]; [change (zlen _) with 1; lia|].
    destruct (Z.ltb_spec m 16); [change (zlen _) with 1; lia|]. rewrite zlen_app. change (zlen [_]) with 1.
    destruct (Z.eq_dec k 1) as [->|]; [lia|].
    assert (16 ^ k = 16 * 16 ^ (k - 1)) by (rewrite <- Z.pow_succ_r by lia; f_equal; lia).
    assert (16 ^ (Z.of_nat (S fuel) + 1) = 16 * 16 ^ (Z.of_nat fuel + 1))
      by (rewrite <- Z.pow_succ_r by lia; f_equal; lia).
    specialize (IH (m / 16) (k - 1)). assert (0 <= m / 16 < 16 ^ (k - 1)).
    { split; [apply Z.div_pos; lia|apply Z.div_lt_upper_bound; lia]. }
    assert (0 <= m / 16 < 16 ^ (Z.of_nat fuel + 1)).
    { split; [apply Z.div_pos; lia|apply Z.div_lt_upper_bound; lia]. }
    lia. }
  apply Hall; [lia|cbn; lia|]. split; [lia|]. apply print_base_bound; lia.
Qed.

(** The line of a chunk size. *)
Lemma line_size_print total n :
  0 <= n < 2 ^ 32 -> n <= max_chunk lim -> 0 <= total -> total + n <= max_post lim ->
  line_size lim total (print_X n) = Some n.
Proof.
  intros Hn Hc Ht Hp. unfold line_size, print_X. rewrite strtoul_print by (unfold ULONG_MAX, SIZE_MAX, SIZE_MOD; lia).
  unfold wrapw. rewrite Z.mod_small by lia.
  replace (n >? max_chunk lim) with false by lia. replace (total >? max_post lim) with false by lia.
  by replace (n >? max_post lim - total) with false by lia.
Qed.

(** The CR LF that ends the data of the chunk before, if there is one. *)
Lemma run_separator body :
  exists t, 64 <= t /\ byte_run lim (Reading (received body)) (if zlen body =? 0 then [] else CRLF) =
    Reading (mkByteState CHUNK_SIZE t [] (zlen body) body).
Proof.
  unfold received. destruct (Z.eqb_spec (zlen body) 0) as [E|].
  - apply zlen_zero_nil in E as ->. by exists 64.
  - exists KB_MULT. split; [done|]. rewrite size_piece; done.
Qed.

(** One chunk. *)
Lemma run_chunk body d :
  0 < zlen d < 2 ^ 32 -> zlen d <= max_chunk lim -> zlen body + zlen d <= max_post lim -> max_post lim < SIZE_MOD ->
  byte_run lim (Reading (received body)) (chunk_header (zlen body =? 0) (zlen d) ++ d) = Reading (received (body ++ d)).
Proof.
  intros Hd Hc Hp Hm. pose proof (zlen_nonneg body). unfold chunk_header, wrapw. rewrite Z.mod_small by lia.
  destruct (run_separator body) as (t & Ht & Hs). rewrite <- !app_assoc, byte_run_app, Hs.
  rewrite (app_assoc (print_X _)), byte_run_app. pose proof (print_X_length (zlen d)).
  rewrite line_piece; [|done|done|apply print_X_line; lia|cbn [b_target]; lia].
  cbn [finish_element b_mode b_total b_out]. rewrite line_size_print by lia. replace (zlen d >? 0) with true by lia.
  rewrite size_piece by (done || (cbn [b_target]; lia)). cbn [finish_element b_mode b_total b_out].
  unfold received. replace (zlen (body ++ d) =? 0) with false by (rewrite zlen_app; lia).
  by rewrite zlen_app, wrap_small by lia.
Qed.

(** The last chunk. *)
Lemma run_last_chunk body :
  zlen body <= max_post lim -> 0 <= max_chunk lim ->
  byte_run lim (Reading (received body)) (last_chunk (zlen body =? 0)) = Complete body [].
Proof.
  intros Hp Hc. pose proof (zlen_nonneg body). unfold last_chunk.
  destruct (run_separator body) as (t & Ht & Hs). rewrite byte_run_app, Hs.
  change (bs "0" ++ CRLF ++ CRLF) with ((print_X 0 ++ CRLF) ++ [] ++ CRLF).
  rewrite byte_run_app, line_piece; [|done|done|apply print_X_line; lia|change (zlen (print_X 0)) with 1; cbn [b_target]; lia].
  cbn [finish_element b_mode b_total b_out]. rewrite line_size_print by lia. cbn [Z.gtb Z.compare].
  rewrite line_piece; [done|done|done|apply not_elem_of_nil|by vm_compute].
Qed.

(** ** The limits

    In the modes of a chunked body, what was received and what the current chunk
    announces stays below the limit of the content. *)
Definition chunk_inv s : Prop :=
  match b_mode s with
  | CHUNK_DATA => zlen (b_out s) + b_target s <= b_total s
  | CHUNK_SIZE | CHUNK_CRLF | CHUNK_CLOSE => zlen (b_out s) <= b_total s
  | CONTENT_LENGTH | CONNECTION_CLOSE => False
  end /\ b_total s <= max_post lim /\ b_target s <= Z.max (max_chunk lim) (64 * KB_MULT) /\
  zlen (b_pending s) <= b_target s.

Definition machine_inv (m : ByteMachine) : Prop :=
  match m with
  | Reading s => chunk_inv s
  | Complete out _ => zlen out <= max_post lim
  | Refused => True
  end.

Lemma line_size_bounds total line n :
  line_size lim total line = Some n -> 0 <= n /\ n <= max_chunk lim /\ total + n <= max_post lim.
Proof.
  intros Hl. pose proof (line_size_range lim total line n Hl) as Hr. revert Hl. unfold line_size.
  destruct (strtoul 16 line) as [v [[|]|]]; try done.
  destruct (Z.gtb_spec (wrapw 32 v) (max_chunk lim)); [done|]. destruct (Z.gtb_spec total (max_post lim)); [done|].
  destruct (Z.gtb_spec (wrapw 32 v) (max_post lim - total)); [done|]. intros [= <-]. lia.
Qed.

Ltac inv_bounds :=
  cbn [machine_inv]; unfold chunk_inv; cbn [b_mode b_target b_pending b_total b_out];
  rewrite ?zlen_app; change (@zlen Z []) with 0; unfold KB_MULT in *; lia.

Lemma byte_step_inv m b : max_post lim < SIZE_MOD -> machine_inv m -> machine_inv (byte_step lim m b).
Proof.
  intros Hp. destruct m as [[md t pend tot out]| |]; cbn [byte_step machine_inv]; [|done..].
  unfold chunk_inv. cbn [b_mode b_target b_pending b_total b_out]. intros (Hm & Ht & Htar & Hpend).
  destruct (direct_mode md) eqn:Ed; [by destruct md|].
  destruct (Z.geb_spec (zlen pend) t) as [|Hlt]; [done|]. pose proof (zlen_nonneg out) as Hout. pose proof (zlen_nonneg pend).
  destruct (element_of _ _) as [e|] eqn:Ee.
  2: { cbn [machine_inv]. unfold chunk_inv. cbn [b_mode b_target b_pending b_total b_out].
    rewrite zlen_app. change (zlen [b]) with 1. split; [by destruct md|lia]. }
  unfold element_of in Ee. cbn [b_mode b_target] in Ee. unfold finish_element. cbn [b_mode b_target b_total b_out].
  destruct md; try done; cbn [line_mode] in Ee.
  - destruct (line_size lim tot e) as [n|] eqn:En; [|done]. apply line_size_bounds in En as (H1 & H2 & H3).
    rewrite wrap_small by (unfold SIZE_MOD in *; lia).
    destruct (Z.gtb_spec n 0); inv_bounds.
  - destruct (Z.eqb_spec (zlen (pend ++ [b])) t) as [E|]; [|done]. injection Ee as <-.
    rewrite <- E in *. cbn [machine_inv]. rewrite zlen_app in *. inv_bounds.
  - inv_bounds.
  - inv_bounds.
Qed.

Lemma byte_run_inv m l : max_post lim < SIZE_MOD -> machine_inv m -> machine_inv (byte_run lim m l).
Proof.
  intros Hp. revert m. induction l as [|b l IH]; intros m Hm; [done|]. cbn [byte_run fold_left].
  apply IH. by apply byte_step_inv.
Qed.

Lemma chunked_start_inv : 0 <= max_post lim -> machine_inv (Reading chunked_start).
Proof. intros Hp. unfold chunked_start. inv_bounds. Qed.

(** A chunked body stays inside bounds that admit the limits. *)
Lemma chunked_run_inside cap L s l :
  0 <= max_post lim < SIZE_MOD -> chunk_inv s -> max_post lim <= cap -> max_chunk lim <= L -> 64 * KB_MULT <= L ->
  run_inside lim cap L (Reading s) l.
Proof.
  intros Hp Hs Hcap Hc HL k. pose proof (byte_run_inv (Reading s) (ztake k l) ltac:(lia) Hs) as Hi.
  destruct (byte_run lim _ _) as [s'| |]; cbn [machine_inv inside] in *; [|lia|done].
  destruct Hi as (Hm & Ht & Htar & Hpend). pose proof (zlen_nonneg (b_pending s')).
  split; [|lia]. destruct (b_mode s'); cbn in Hm; lia.
Qed.

Lemma elements_le m l : elements lim m l <= zlen l.
Proof.
  revert m. induction l as [|b l IH]; intros m; cbn [elements]; [done|]. rewrite zlen_cons.
  specialize (IH (byte_step lim m b)). case_bool; lia.
Qed.

Lemma writes_within_short L T m bufs :
  Forall (fun b => b <> [] /\ zlen b <= L /\ zlen b <= T) bufs -> writes_within lim L T m bufs.
Proof.
  intros Hf. revert m. induction Hf as [|b bufs (H1 & H2 & H3) _ IH]; intros m; [done|].
  pose proof (elements_le m b). cbn [writes_within]. by split_and!; [|lia..|].
Qed.
End Machine.

(** ** The transformer as a sink

    [(t, up)] has consumed [body] when the stream below holds bytes the machine
    reads as [body] without its end.  A write of [n] bytes takes a header of at
    most 12 bytes more. *)
Section Transformer.
Context (lim : Limits) {S : Type} `{SinkSpec S}.

Definition chunked_rep (ts : ContentChunkedTransformer * S) (body : bytes) : Prop :=
  exists wire, sink_rep ts.2 wire /\ succeed (ct_writeStatus ts.1) = true /\ ct_pos ts.1 = zlen body /\
    zlen body <= max_post lim /\ byte_run lim (Reading chunked_start) wire = Reading (received body).

Definition chunked_room (ts : ContentChunkedTransformer * S) : Z :=
  Z.min (sink_room ts.2 / 13) (Z.min (Z.min (2 ^ 32 - 1) (max_chunk lim)) (max_post lim - ct_pos ts.1)).

Lemma chunk_header_length first n : 0 <= n < 2 ^ 32 -> 3 <= zlen (chunk_header first n) <= 12.
Proof.
  intros Hn. unfold chunk_header, wrapw. rewrite Z.mod_small, !zlen_app by lia.
  pose proof (print_X_length n Hn). change (zlen CRLF) with 2. destruct first; change (zlen []) with 0 || change (zlen CRLF) with 2; lia.
Qed.

Lemma ct_write_ok d ts body :
  max_post lim < SIZE_MOD - 2 ^ 33 -> chunked_rep ts body -> 0 < zlen d <= chunked_room ts ->
  exists ts', ct_write d ts = Ret (ts', Some (zlen d)) /\ chunked_rep ts' (body ++ d) /\
    chunked_room ts - zlen d <= chunked_room ts'.
Proof.
  intros Hm (wire & Hrep & Hst & Hpos & Hbody & Hrun) Hd. destruct ts as [t up]. cbn [fst snd] in *.
  unfold chunked_room in *. cbn [fst snd] in *. set (room := sink_room up) in *.
  pose proof (Z.mul_div_le room 13 ltac:(lia)). pose proof (zlen_nonneg body).
  pose proof (chunk_header_length (ct_pos t =? 0) (zlen d)) as Hh.
  unfold ct_write. replace (zlen d =? 0) with false by lia.
  unfold SIZE_MOD in *. rewrite wrap_small by (unfold SIZE_MOD; lia). replace (zlen d + 64 <? zlen d) with false by lia.
  unfold writeString.
  destruct (writeFullStream_succeed (chunk_header (ct_pos t =? 0) (zlen d)) up wire Hrep) as (up1 & -> & Hrep1 & Hr1 & Hs1).
  { fold room. lia. }
  { intros E. rewrite E in Hh. change (zlen []) with 0 in Hh. lia. }
  cbn [mbind outcome_bind]. rewrite Hs1. cbn [negb].
  destruct (writeFullStream_ok d up1 _ Hrep1) as (up2 & -> & Hrep2 & Hr2); [fold room in Hr1; lia|].
  cbn [mbind outcome_bind negb]. eexists. split; [done|]. fold room in Hr1. cbn [fst snd ct_pos].
  rewrite wrap_small by (unfold SIZE_MOD; lia). split.
  - exists (wire ++ chunk_header (ct_pos t =? 0) (zlen d) ++ d). cbn [fst snd ct_writeStatus ct_pos].
    rewrite zlen_app, byte_run_app, Hrun, Hpos. rewrite <- app_assoc, Hpos in Hrep2.
    split_and!; try done; try lia. apply run_chunk; unfold SIZE_MOD; lia.
  - assert (room / 13 - zlen d <= sink_room up2 / 13); [|lia].
    replace (room / 13 - zlen d) with ((room + (- zlen d) * 13) / 13) by (rewrite Z.div_add by lia; lia).
    apply Z.div_le_mono; lia.
Qed.
End Transformer.

(** The same as a promise to the objects that are sent. *)
Definition chunked_sink_spec (lim : Limits) (Hlim : max_post lim < SIZE_MOD - 2 ^ 33) {S} `{SinkSpec S} :
    SinkSpec (ContentChunkedTransformer * S).
Proof.
  refine {| sink_rep := chunked_rep lim; sink_room := chunked_room lim |}.
  intros d ts body Hrep Hd. destruct (ct_write_ok lim d ts body Hlim Hrep Hd) as (ts' & Hw & Hr & Hroom).
  exists ts', (zlen d). rewrite (ztake_ge (zlen d)) by lia. split_and!; try done; [lia..|].
  by destruct Hr as (wire & _ & Hst & _).
Defined.

Section Send.
Context {C : Type} `{ScanSpec C}.

(** [streamTo] of a container hands over all it holds. *)
Lemma container_streamTo_all {S} `{SinkSpec S} (c : C) (s : S) acc :
  contents_ok c -> sink_rep s acc -> zlen (contents c) <= sink_room s ->
  exists s' r, container_streamTo c s = Ret (s', r) /\ sink_rep s' (acc ++ contents c) /\
    sink_room s - zlen (contents c) <= sink_room s'.
Proof.
  intros Hok Hrep Hroom. pose proof (csize_bound c Hok) as Hb. pose proof (zlen_nonneg (contents c)).
  unfold blockSize, KB_MULT in Hb. unfold container_streamTo.
  destruct (Z.eqb_spec (zlen (contents c)) 0) as [E|E].
  - unfold appendTo. rewrite csize_ok, E by done. cbn [mbind outcome_bind].
    exists s. eexists. split; [done|]. apply zlen_zero_nil in E as ->. rewrite app_nil_r. change (zlen []) with 0. by split; [|lia].
  - destruct (appendTo_spec c s acc (zlen (contents c)) 0) as (s' & Hs & Hr & Hm); try done; try lia.
    assert (appendTo s SIZE_MAX 0 c = appendTo s (zlen (contents c)) 0 c) as ->.
    { unfold appendTo. rewrite csize_ok, Z.eqb_refl by done. replace (zlen (contents c) =? SIZE_MAX) with false by zl.
      replace (0 >? zlen (contents c)) with false by lia. cbn [andb]. by rewrite Z.sub_0_r. }
    rewrite Hs. cbn [mbind outcome_bind]. rewrite slice_all in Hr. by eexists _, _.
Qed.

(** A content that is sent in chunks writes bytes that decode to it. *)
Lemma send_chunks lim {S} `{SinkSpec S} (c : Content C) (up : S) :
  max_post lim < SIZE_MOD - 2 ^ 33 ->
  m_transmitionMode c = TM_CHUNKS -> contents_ok (m_contentStreamableObject c) -> sink_rep up [] ->
  zlen (contents (m_contentStreamableObject c)) < chunked_room lim (chunked_new, up) ->
  exists up' wire r, content_streamToUpstream c up = Ret (up', r) /\ sink_rep up' wire /\
    byte_run lim (Reading chunked_start) wire = Complete (contents (m_contentStreamableObject c)) [].
Proof.
  intros Hlim Hm Hok Hup Hroom. set (body := contents _) in *. pose proof (zlen_nonneg body).
  assert (chunked_rep lim (chunked_new, up) []) as Hstart.
  { exists []. unfold chunked_room in Hroom. cbn [fst snd ct_pos chunked_new] in *. change (zlen []) with 0. by split_and!; [..|lia|]. }
  destruct (container_streamTo_all (H3 := chunked_sink_spec lim Hlim) (m_contentStreamableObject c)
              (chunked_new, up) [] Hok Hstart) as ([t up1] & r1 & Hs & Hrep & Hrm).
  { cbn [sink_room chunked_sink_spec]. fold body. lia. }
  cbn [sink_room sink_rep chunked_sink_spec app] in Hrep, Hrm. fold body in Hrep, Hrm.
  destruct Hrep as (wire & Hw & Hst & Hpos & Hpost & Hrun). cbn [fst snd] in *.
  assert (13 <= sink_room up1 /\ 0 <= max_chunk lim) as [Hr1 Hmc].
  { unfold chunked_room in Hrm, Hroom. cbn [fst snd ct_pos chunked_new] in *. pose proof (Z.mul_div_le (sink_room up1) 13 ltac:(lia)). lia. }
  unfold content_streamToUpstream. rewrite Hm. cbn [streamTo container_source]. rewrite Hs. cbn [mbind outcome_bind].
  unfold writeEOF. cbn [sink_write chunked_sink]. unfold ct_write. change (zlen []) with 0. cbn [Z.eqb].
  unfold writeString. rewrite Hpos.
  destruct (writeFullStream_ok (last_chunk (zlen body =? 0)) up1 wire Hw) as (up2 & -> & Hw2 & _).
  { unfold last_chunk. destruct (_ =? 0); vm_compute zlen; lia. }
  cbn [mbind outcome_bind negb has_value]. eexists _, _, _. split; [done|]. split; [exact Hw2|].
  rewrite byte_run_app, Hrun. apply run_last_chunk; lia.
Qed.
End Send.

(** Chunk containers as objects that receive a body: ending them never throws. *)
#[export] Program Instance bc_sink_eof {M} `{Container M} `{!MMapFile M} : SinkEOF (B_Chunks M).
Next Obligation.
  intros M HM HF c acc _. unfold writeEOF. cbn [sink_write container_sink]. unfold write.
  assert (exists c', append [] c = Ret (c', None)) as [c' ->].
  { unfold append. change (zlen []) with 0. repeat case_bool; eauto. by cbn in *. }
  cbn [mbind outcome_bind]. rewrite ws_add_ssize_failed. cbn [mbind outcome_bind has_value].
  by eexists _, _.
Qed.

(** ** Properties *)

#[local] Existing Instance content_protocol.

(** C2. The body a [Content] receives does not depend on how the connection cuts it
    into writes: as long as no write is empty, none is longer than the buffer takes,
    and none ends more elements (lines, or pieces of the body) than the TTL of the
    parser, [Parser::write] over the sub-parser does what the byte machine does on
    the concatenation of the writes, if at every point the body fits the stream
    object and a chunk fits the buffer. It goes on in the same state, refuses, or
    ends with the same body in the stream object; bytes that come after the end are
    not taken and change nothing of this body. *)
Theorem content_any_fragmentation {M} `{Container M} `{!MMapFile M} {O} `{SinkEOF O}
    (lim : Limits) (cap L : Z) (P : Parser (SubParser M (Content O) * bool)) (s : ByteState) (bufs : list bytes) :
  reading_at lim cap L P s -> run_inside lim cap L (Reading s) (concat bufs) ->
  writes_within lim L (m_maxTTL P) (Reading s) bufs ->
  match byte_run lim (Reading s) (concat bufs) with
  | Reading s' => exists P', write_all bufs P = Ret (P', true) /\ reading_at lim cap L P' s'
  | Complete out [] =>
      exists P', write_all bufs P = Ret (P', true) /\ content_done (pr_impl P').1 out /\ (pr_impl P').2 = false
  | Complete out _ =>
      exists P' ok, write_all bufs P = Ret (P', ok) /\ content_done (pr_impl P').1 out /\ (pr_impl P').2 = false
  | Refused => exists P', write_all bufs P = Ret (P', false)
  end.
Proof. apply write_all_content. Qed.

(** C1. Chunked transfer is a round trip: what [Content::streamToUpstream] sends in
    chunks, a [Content] that receives chunks hands over unchanged, in whatever way
    the bytes are cut into writes on the way that are not empty, are no longer than
    the buffer takes, and end no more lines and chunks each than the TTL of the
    parser (in particular, in any writes no longer than the TTL:
    [writes_within_short]). The body is within the limits of the receiver and fits
    its stream object, and the buffer of the receiver takes a chunk of the largest
    size it allows and 64 KB at least. *)
Theorem chunked_roundtrip {C} `{ScanSpec C} {S} `{SinkSpec S} {M} `{Container M} `{!MMapFile M} {O} `{SinkEOF O}
    (c : Content C) (up : S) (lim : Limits) (cap L : Z) (P : Parser (SubParser M (Content O) * bool)) :
  let body := contents (m_contentStreamableObject c) in
  m_transmitionMode c = TM_CHUNKS -> contents_ok (m_contentStreamableObject c) ->
  sink_rep up [] -> zlen body < chunked_room lim (chunked_new, up) ->
  reading_at lim cap L P chunked_start ->
  max_post lim < SIZE_MOD - 2 ^ 33 -> max_post lim <= cap -> max_chunk lim <= L -> 64 * KB_MULT <= L ->
  exists up' wire r, content_streamToUpstream c up = Ret (up', r) /\ sink_rep up' wire /\
    forall bufs, concat bufs = wire ->
      writes_within lim L (m_maxTTL P) (Reading chunked_start) bufs ->
      exists P', write_all bufs P = Ret (P', true) /\ content_done (pr_impl P').1 body /\ (pr_impl P').2 = false.
Proof.
  intros body Hm Hok Hup Hroom HP Hlim Hcap Hmc HL.
  destruct (send_chunks lim c up Hlim Hm Hok Hup Hroom) as (up' & wire & r & Hsend & Hw & Hrun).
  exists up', wire, r. split; [done|]. split; [done|]. intros bufs Hb Hf.
  pose proof (zlen_nonneg body). unfold chunked_room in Hroom. cbn [fst snd ct_pos chunked_new] in Hroom. fold body in Hroom.
  pose proof (write_all_content lim cap L bufs P chunked_start HP) as Hall. rewrite Hb, Hrun in Hall.
  apply Hall; [|exact Hf].
  apply chunked_run_inside; try done; [lia|]. apply (chunked_start_inv lim). lia.
Qed.

(** The size of a chunk is read with 64 bits and kept with 32: a size line
    of any number up to 2^64 means the number modulo 2^32, and the limits are
    compared with that. *)
Theorem chunk_size_truncated {M} `{Container M} `{!MMapFile M} {O} (p : SubParser M (Content O)) (n : Z) :
  0 <= n <= ULONG_MAX -> toString SIZE_MAX 0 (getParsedBuffer p) = Ret (Some (print_X n)) ->
  parseHttpChunkSize p =
    Ret (match admit_chunk (n mod 2 ^ 32) (sp_sub p) with
         | None => (p, None)
         | Some (k, c) => (sp_set_sub c p, Some k)
         end).
Proof.
  intros Hn Hs. unfold parseHttpChunkSize, toUInt32. rewrite Hs. cbn [mbind outcome_bind].
  unfold print_X. by rewrite strtoul_print by lia.
Qed.

Section Witnesses.
#[local] Existing Instance no_files.

Definition demo_limits : Limits := mkLimits 1000 500.

(** A content that receives chunks into a container. *)
Definition demo_receiver : Parser (SubParser B_MEM (Content (B_Chunks B_MEM)) * bool) :=
  let c := content_new (M := B_MEM) (bc_new (M := B_MEM)) in
  let c := sp_set_sub (setSecurityMaxPostDataSize 1000 (setSecurityMaxHttpChunkSize 500 (sp_sub c))) c in
  pr_new (setTransmissionMode TM_CHUNKS c, true).

Lemma demo_receiver_ready : reading_at demo_limits 1000 (64 * KB_MULT) demo_receiver chunked_start.
Proof. by split_and!. Qed.

Definition demo_writes : list bytes :=
  [bs "5"; [13; 10] ++ bs "he"; bs "llo" ++ [13]; [10] ++ bs "0" ++ [13; 10; 13]; [10]].

Lemma content_any_fragmentation_witness :
  exists P, write_all demo_writes demo_receiver = Ret (P, true) /\
    content_done (pr_impl P).1 (bs "hello") /\ (pr_impl P).2 = false.
Proof.
  assert (byte_run demo_limits (Reading chunked_start) (concat demo_writes) = Complete (bs "hello") []) as E
    by (vm_compute; reflexivity).
  pose proof (content_any_fragmentation demo_limits 1000 (64 * KB_MULT) demo_receiver chunked_start
    demo_writes demo_receiver_ready) as T.
  rewrite E in T. apply T.
  - apply chunked_run_inside.
    + split; [discriminate|reflexivity].
    + apply (chunked_start_inv demo_limits). discriminate.
    + discriminate.
    + discriminate.
    + discriminate.
  - apply writes_within_short. repeat constructor; discriminate.
Defined.

Definition demo_sender : Content B_MEM :=
  c_set_transmission TM_CHUNKS (content_init (bm_new (bs "hello world") 11)).

Lemma chunked_roundtrip_witness :
  exists up' wire r, content_streamToUpstream demo_sender (ss_new) = Ret (up', r) /\ sink_rep up' wire /\
    forall bufs, concat bufs = wire ->
      Forall (fun b => b <> [] /\ zlen b <= 64 * KB_MULT /\ zlen b <= m_maxTTL demo_receiver) bufs ->
      exists P', write_all bufs demo_receiver = Ret (P', true) /\ content_done (pr_impl P').1 (bs "hello world") /\ (pr_impl P').2 = false.
Proof.
  destruct (chunked_roundtrip demo_sender ss_new demo_limits 1000 (64 * KB_MULT) demo_receiver)
    as (up' & wire & r & E & Hw & Hall); try done.
  exists up', wire, r. split; [exact E|]. split; [exact Hw|]. intros bufs Hb Hf. apply Hall; [exact Hb|]. by apply writes_within_short.
Defined.

(** A sub-parser that shows the line 100000005. *)
Definition long_line : SubParser B_MEM (Content (B_Chunks B_MEM)) :=
  match appendToUnparsedBuffer (bs "100000005") (pr_impl demo_receiver).1 with
  | Ret (p, _) => reference_unparsed 0 SIZE_MAX p
  | _ => (pr_impl demo_receiver).1
  end.

Lemma chunk_size_truncated_witness :
  exists p, parseHttpChunkSize long_line = Ret (p, Some 5).
Proof.
  eexists. refine (chunk_size_truncated long_line 4294967301 _ _).
  - split; discriminate.
  - vm_compute. reflexivity.
Defined.

(** The size line 100000005 is a chunk of five bytes; the two bytes after the
    data of a chunk may be any; a line after the last chunk ends the body. *)
Example lenient_chunks :
  match write_all
    [bs "100000005" ++ CRLF ++ bs "hello" ++ bs "XY" ++ bs "0" ++ CRLF ++ bs "Trailer: x" ++ CRLF] demo_receiver with
  | Ret (P, true) => bc_contents (m_contentStreamableObject (sp_sub (pr_impl P).1)) = bs "hello" /\ (pr_impl P).2 = false
  | _ => False
  end.
Proof. by vm_compute. Qed.
End Witnesses.
