(* ===== verification/MimeHeader.v ===== *)
(** * MIME headers (Protocol_MIME/mime_sub_header.cpp, Helpers/random.cpp)

    The header lines of a message: a multimap from the names in upper case to
    shared option objects, the parser of a line and of the parameters of a value,
    and what is sent.

    The option objects are kept in a store and the multimap holds their places
    in it, because [m_lastOpt] is a second pointer to the object that was added
    last: a continuation line changes it through that pointer. *)

From S2P Require Import Prelude SafeInt Mem Streamable Container ContainerTheory BMem BChunks ChunkBuffer BRef.
From S2P Require Import SubParser Parser CLib HttpContent.
From Stdlib Require Import ZArith Lia.

(** [RAND_bytes], by the number of the call, of a generator that does not fail
    (the code throws when it does). *)
Class RandomBytes := { RAND_bytes : nat -> Z -> bytes }.

(** [Random::createRandomString]. *)
Definition random_charset : bytes := bs "abcdefghijklmnopqrstuvwxyzABCDEFGHIJKLMNOPQRSTUVWXYZ0123456789".
Definition createRandomString `{RandomBytes} (call : nat) (length : Z) : bytes :=
  map (fun b => nth (Z.to_nat (b mod 62)) random_charset 0) (RAND_bytes call length).

(** ** An option *)
Record MIME_HeaderOption := mkOption {
  m_maxSubOptionsCount : Z;
  m_maxHeaderOptSize : Z;
  m_curHeaderOptSize : Z;
  m_origName : bytes;
  m_origValue : bytes;
  m_value : bytes;
  m_subVar : list (bytes * bytes) }.

Definition option_new : MIME_HeaderOption := mkOption 16 (8 * KB_MULT) 0 [] [] [] [].

Definition setOrigName (v : bytes) (o : MIME_HeaderOption) : MIME_HeaderOption :=
  mkOption (m_maxSubOptionsCount o) (m_maxHeaderOptSize o) (m_curHeaderOptSize o) v (m_origValue o) (m_value o) (m_subVar o).
Definition setOrigValue (v : bytes) (o : MIME_HeaderOption) : MIME_HeaderOption :=
  mkOption (m_maxSubOptionsCount o) (m_maxHeaderOptSize o) (m_curHeaderOptSize o) (m_origName o) v (m_value o) (m_subVar o).
Definition setValue (v : bytes) (o : MIME_HeaderOption) : MIME_HeaderOption :=
  mkOption (m_maxSubOptionsCount o) (m_maxHeaderOptSize o) (m_curHeaderOptSize o) (m_origName o) (m_origValue o) (trim v)
    (m_subVar o).
Definition setMaxSubOptions (v : Z) (o : MIME_HeaderOption) : MIME_HeaderOption :=
  mkOption v (m_maxHeaderOptSize o) (m_curHeaderOptSize o) (m_origName o) (m_origValue o) (m_value o) (m_subVar o).

Definition getUpperName (o : MIME_HeaderOption) : bytes := to_upper_copy (m_origName o).
Definition option_toString (o : MIME_HeaderOption) : bytes := m_origName o ++ bs ": " ++ m_origValue o.

Definition getSubVars (n : bytes) (o : MIME_HeaderOption) : list bytes := mm_equal_range n (m_subVar o).
Definition getSubVar (n : bytes) (o : MIME_HeaderOption) : bytes :=
  match mm_find n (m_subVar o) with Some v => v | None => [] end.

Definition isPermited7bitCharset (varX : bytes) : bool := forallb (fun i => negb ((i <? 32) || (i >? 126))) varX.

Definition addSubVar (varName varValue : bytes) (o : MIME_HeaderOption) : MIME_HeaderOption :=
  let size := zlen varName + zlen varValue in
  if (zlen varName =? 0) && (zlen varValue =? 0) then o
  else if zlen (m_subVar o) >=? m_maxSubOptionsCount o then o
  else if wrap (size + m_curHeaderOptSize o) >? m_maxHeaderOptSize o then o
  else if negb (isPermited7bitCharset varName) then o
  else if negb (isPermited7bitCharset varValue) then o
  else mkOption (m_maxSubOptionsCount o) (m_maxHeaderOptSize o) (wrap (m_curHeaderOptSize o + size)) (m_origName o)
         (m_origValue o) (m_value o) (mm_insert varName varValue (m_subVar o)).

(** ** The parameters of a value *)

(** The leftmost text between two quotes ([regex_search]). *)
Definition quoted (s : bytes) : option bytes :=
  match find_char 34 s with
  | None => None
  | Some i => let t := zdrop (i + 1) s in option_map (fun j => ztake j t) (find_char 34 t)
  end.

Definition staticmsg (secureReplace : bytes) (i : nat) : bytes :=
  bs "_STATIC_" ++ secureReplace ++ bs "_" ++ to_string (Z.of_nat i).

(** Every quoted text is replaced by a mark; each round takes two quotes at
    least out of the value. *)
Fixpoint take_static (fuel : nat) (secureReplace : bytes) (texts : list bytes) (s : bytes) : outcome (list bytes * bytes) :=
  match quoted s with
  | None => Ret (texts, s)
  | Some t =>
      match fuel with
      | O => NoFuel
      | S fuel =>
          take_static fuel secureReplace (texts ++ [t])
            (replace_all ([34] ++ t ++ [34]) (staticmsg secureReplace (length texts)) s)
      end
  end.

(** The marks are replaced back, in their order. *)
Fixpoint put_back (secureReplace : bytes) (i : nat) (texts : list bytes) (s : bytes) : bytes :=
  match texts with
  | [] => s
  | t :: texts => put_back secureReplace (S i) texts (replace_all (staticmsg secureReplace i) t s)
  end.

Definition sub_value (secureReplace : bytes) (texts : list bytes) (value : bytes) (o : MIME_HeaderOption) : MIME_HeaderOption :=
  let back := put_back secureReplace 0 texts in
  match find_char 61 value with
  | Some pos => addSubVar (back (trim (ztake pos value))) (back (trim (zdrop (pos + 1) value))) o
  | None => addSubVar (back (trim value)) [] o
  end.

Definition parseSubValues (secureReplace : bytes) (o : MIME_HeaderOption) (strName : bytes) : outcome MIME_HeaderOption :=
  let o := setOrigValue strName o in
  '(texts, s) ← take_static (length strName) secureReplace [] (trim strName);
  match split_on (bs ";") s with
  | [] => Ret o
  | v :: values =>
      let o := sub_value secureReplace texts v o in
      let o := setValue (put_back secureReplace 0 texts (trim v)) o in
      Ret (foldl (fun o v => sub_value secureReplace texts v o) o values)
  end.

(** ** The header *)
Record MIME_Header := mkHeader {
  h_objects : list MIME_HeaderOption;
  m_headers : list (bytes * nat);
  m_lastOpt : option nat;
  m_maxOptions : Z;
  m_maxSubOptionCount : Z;
  m_maxSubOptionSize : Z;
  h_draws : nat }.

Definition header_init : MIME_Header := mkHeader [] [] None 32 100 (2 * KB_MULT) 0.

Section Header.
Context `{RandomBytes}.
Implicit Types h : MIME_Header.

Definition h_set_objects (l : list MIME_HeaderOption) h : MIME_Header :=
  mkHeader l (m_headers h) (m_lastOpt h) (m_maxOptions h) (m_maxSubOptionCount h) (m_maxSubOptionSize h) (h_draws h).
Definition h_set_headers (l : list (bytes * nat)) h : MIME_Header :=
  mkHeader (h_objects h) l (m_lastOpt h) (m_maxOptions h) (m_maxSubOptionCount h) (m_maxSubOptionSize h) (h_draws h).
Definition h_set_last (o : option nat) h : MIME_Header :=
  mkHeader (h_objects h) (m_headers h) o (m_maxOptions h) (m_maxSubOptionCount h) (m_maxSubOptionSize h) (h_draws h).
Definition h_count_draw h : MIME_Header :=
  mkHeader (h_objects h) (m_headers h) (m_lastOpt h) (m_maxOptions h) (m_maxSubOptionCount h) (m_maxSubOptionSize h)
    (S (h_draws h)).
Definition setMaxOptions (v : Z) h : MIME_Header :=
  mkHeader (h_objects h) (m_headers h) (m_lastOpt h) v (m_maxSubOptionCount h) (m_maxSubOptionSize h) (h_draws h).
Definition setMaxSubOptionCount (v : Z) h : MIME_Header :=
  mkHeader (h_objects h) (m_headers h) (m_lastOpt h) (m_maxOptions h) v (m_maxSubOptionSize h) (h_draws h).
Definition setMaxSubOptionSize (v : Z) h : MIME_Header :=
  mkHeader (h_objects h) (m_headers h) (m_lastOpt h) (m_maxOptions h) (m_maxSubOptionCount h) v (h_draws h).

Definition header_clear h : MIME_Header := h_set_headers [] h.
Definition h_object (i : nat) h : MIME_HeaderOption := nth i (h_objects h) option_new.

Definition getOptionByName (varName : bytes) h : option MIME_HeaderOption :=
  option_map (fun i => h_object i h) (mm_find (to_upper_copy varName) (m_headers h)).
Definition getOptionsByName (varName : bytes) h : list MIME_HeaderOption :=
  map (fun i => h_object i h) (mm_equal_range (to_upper_copy varName) (m_headers h)).
Definition header_exist (optionName : bytes) h : bool := has_value (getOptionByName optionName h).
Definition header_remove (optionName : bytes) h : MIME_Header :=
  h_set_headers (mm_erase (to_upper_copy optionName) (m_headers h)) h.

(** [addHeaderOption] of the object [i] of the store. *)
Definition addHeaderOption (i : nat) h : MIME_Header * bool :=
  if zlen (m_headers h) =? m_maxOptions h then (h, false)
  else (h_set_headers (mm_insert (getUpperName (h_object i h)) i (m_headers h)) h, true).

(** [add] with state 0, and with state 1. *)
Definition header_add (optionName optionValue : bytes) h : outcome (MIME_Header * bool) :=
  if zlen (m_headers h) =? m_maxOptions h then Ret (h, false)
  else
    let i := length (h_objects h) in
    optP ← parseSubValues (createRandomString (h_draws h) 16) (setOrigName optionName option_new) optionValue;
    let h := h_set_objects (h_objects h ++ [optP]) (h_count_draw h) in
    let '(h, ok) := addHeaderOption i h in
    if negb ok then Ret (h, false) else Ret (h_set_last (Some i) h, true).

Definition header_continue (optionValue : bytes) h : outcome (MIME_Header * bool) :=
  match m_lastOpt h with
  | Some i =>
      optP ← parseSubValues (createRandomString (h_draws h) 16) (h_object i h) optionValue;
      Ret (h_set_objects (<[i := optP]> (h_objects h)) (h_count_draw h), true)
  | None => Ret (h, true)
  end.

Definition header_replace (optionName optionValue : bytes) h : outcome MIME_Header :=
  '(h, _) ← header_add optionName optionValue (header_remove optionName h); Ret h.

Definition getOptionRawStringByName (varName : bytes) h : bytes :=
  match getOptionByName varName h with Some o => m_origValue o | None => [] end.
Definition getOptionValueStringByName (varName : bytes) h : bytes :=
  match getOptionByName varName h with Some o => m_value o | None => [] end.
Definition getOptionAsUINT64 (varName : bytes) (base : Z) h : Z * bool :=
  match getOptionByName varName h with Some o => ((strtoul base (m_value o)).1, true) | None => (0, false) end.

Definition parseOptionValue (optionValue : bytes) h : outcome MIME_Header :=
  let c := hd 0 (c_str optionValue) in
  if (c =? 32) || (c =? 9) then '(h, _) ← header_continue optionValue h; Ret h
  else
    match find_str (bs ": ") optionValue with
    | Some found =>
        '(h, _) ← header_add (ztake found optionValue) (c_str (zdrop (found + 2) optionValue)) h; Ret h
    | None => Ret h
    end.

(** The lines that are sent, in the order of the multimap. *)
Definition header_lines h : list bytes := map (fun e => option_toString (h_object e.2 h)) (m_headers h).

Fixpoint send_lines {S} `{Sink S} (lines : list bytes) (up : S) : outcome (S * bool) :=
  match lines with
  | [] => '(up, _) ← writeString CRLF up; Ret (up, succeed (sink_status up))
  | l :: lines =>
      '(up, _) ← writeString (l ++ CRLF) up;
      if negb (succeed (sink_status up)) then Ret (up, false) else send_lines lines up
  end.

Definition header_streamToUpstream {S} `{Sink S} h (up : S) : outcome (S * bool) := send_lines (header_lines h) up.
End Header.

Section SubHeader.
Context `{RandomBytes} {M : Type} `{Container M} `{!MMapFile M}.

Definition setMaxOptionSize (value : Z) (p : SubParser M MIME_Header) : SubParser M MIME_Header :=
  setParseDataTargetSize value p.

Definition header_new : SubParser M MIME_Header :=
  setMaxOptionSize (16 * KB_MULT) (setParseDelimiter CRLF (setParseStrategy DELIMITER (sp_new header_init))).

Definition header_parse (p : SubParser M MIME_Header) : outcome (SubParser M MIME_Header * ParseResult) :=
  if csize (getParsedBuffer p) =? 0 then Ret (p, GOTO_NEXT_SUBPARSER)
  else
    line ← toStringEx SIZE_MAX 0 (getParsedBuffer p);
    h ← parseOptionValue line (sp_sub p);
    Ret (sp_set_sub h p, GET_MORE_DATA).

#[export] Instance header_sub : SubParserImpl M MIME_Header := {|
  parse := header_parse;
  malloc_block n := replicate (Z.to_nat n) 0 |}.
End SubHeader.

(** ** Reading a value ends *)

Definition quotes (s : bytes) : nat := length (filter (fun c => c = 34) s).

Lemma quotes_app s t : quotes (s ++ t) = (quotes s + quotes t)%nat.
Proof. unfold quotes. by rewrite filter_app, length_app. Qed.

Lemma quotes_cons c s : quotes (c :: s) = ((if decide (c = 34%Z) then 1 else 0) + quotes s)%nat.
Proof. unfold quotes. rewrite filter_cons. by destruct (decide _). Qed.

Lemma quotes_length s : (quotes s <= length s)%nat.
Proof. apply length_filter. Qed.

Lemma find_char_first c s i : find_char c s = Some i -> s = ztake i s ++ c :: zdrop (i + 1) s /\ (c ∉ ztake i s) /\ 0 <= i.
Proof.
  revert i. induction s as [|x s IH]; intros i; [done|]. cbn [find_char]. destruct (Z.eqb_spec x c) as [->|Hx].
  - intros [= <-]. rewrite ztake_le0, zdrop_cons, zdrop_le0 by lia. split; [done|]. split; [apply not_elem_of_nil|lia].
  - destruct (find_char c s) as [j|]; [|done]. cbn [option_map]. intros [= <-]. destruct (IH j eq_refl) as (E & Hn & Hj).
    rewrite ztake_cons, zdrop_cons by lia. replace (1 + j - 1) with j by lia. replace (1 + j + 1 - 1) with (j + 1) by lia.
    cbn [app]. rewrite <- E. split; [done|]. split; [|lia]. by apply not_elem_of_cons.
Qed.

(** The quoted text, where it is. *)
Lemma quoted_spec s t : quoted s = Some t -> (34 ∉ t) /\ exists a b, s = a ++ [34] ++ t ++ [34] ++ b /\ (34 ∉ a).
Proof.
  unfold quoted. destruct (find_char 34 s) as [i|] eqn:Ei; [|done]. apply find_char_first in Ei as (Es & Ha & _).
  destruct (find_char 34 (zdrop (i + 1) s)) as [j|] eqn:Ej; [|done]. apply find_char_first in Ej as (Et & Ht & _).
  cbn [option_map]. intros [= <-]. split; [done|]. exists (ztake i s), (zdrop (j + 1) (zdrop (i + 1) s)). split; [|done].
  rewrite Es at 1. cbn [app]. by rewrite Et at 1.
Qed.

(** Replacing a text that holds quotes by one without. *)
Lemma replace_quotes fuel needle repl s :
  quotes repl = 0%nat -> (quotes (replace_all_from fuel needle repl s) <= quotes s)%nat.
Proof.
  intros Hr. revert s. induction fuel as [|fuel IH]; intros s; [done|]. destruct s as [|c s]; [done|]. cbn [replace_all_from].
  destruct (starts_with (c :: s) needle) eqn:E.
  - rewrite (starts_with_split _ _ E) at 2. rewrite !quotes_app, Hr. specialize (IH (zdrop (zlen needle) (c :: s))). lia.
  - rewrite !quotes_cons. specialize (IH s). lia.
Qed.

Lemma replace_quotes_less fuel (t repl a b : bytes) :
  quotes repl = 0%nat -> 34 ∉ a -> Nat.le (length (a ++ [34] ++ t ++ [34] ++ b)) fuel ->
  Nat.lt (quotes (replace_all_from fuel ([34] ++ t ++ [34]) repl (a ++ [34] ++ t ++ [34] ++ b)))
   (quotes (a ++ [34] ++ t ++ [34] ++ b)).
Proof.
  intros Hr. revert a. induction fuel as [|fuel IH]; intros a Ha Hf; [rewrite !length_app in Hf; cbn in Hf; lia|].
  destruct a as [|c a].
  - assert (starts_with ([] ++ [34] ++ t ++ [34] ++ b) ([34] ++ t ++ [34]) = true) as E.
    { replace ([] ++ [34] ++ t ++ [34] ++ b) with (([34] ++ t ++ [34]) ++ b) by (cbn; by rewrite <- app_assoc).
      apply starts_with_app. }
    cbn [app] in E |- *. cbn [replace_all_from]. rewrite E.
    replace (34 :: t ++ 34 :: b) with ((34 :: t ++ [34]) ++ b) by (cbn; by rewrite <- app_assoc).
    rewrite zdrop_app_ge, zdrop_le0 by lia. rewrite !quotes_app, Hr.
    pose proof (replace_quotes fuel (34 :: t ++ [34]) repl b Hr). rewrite quotes_cons, decide_True by done. lia.
  - apply not_elem_of_cons in Ha as [Hc Ha]. cbn [app replace_all_from].
    change (c :: a ++ 34 :: t ++ 34 :: b) with ((c :: a) ++ [34] ++ t ++ [34] ++ b).
    replace (starts_with ((c :: a) ++ [34] ++ t ++ [34] ++ b) (34 :: t ++ [34])) with false.
    2: { cbn [app starts_with]. by replace (c =? 34) with false by lia. }
    rewrite quotes_cons. cbn [app]. rewrite (quotes_cons c (a ++ _)).
    specialize (IH a Ha). cbn [app] in IH. cbn [length app] in Hf. lia.
Qed.

Lemma staticmsg_quotes r i : quotes r = 0%nat -> quotes (staticmsg r i) = 0%nat.
Proof.
  intros Hr. unfold staticmsg. rewrite !quotes_app, Hr. change (quotes (bs "_STATIC_")) with 0%nat. change (quotes (bs "_")) with 0%nat.
  cbn [Nat.add]. unfold quotes. pose proof (print_base_chars 10 (Z.of_nat i) ltac:(lia) ltac:(lia)) as Hc.
  unfold to_string. induction Hc as [|c l (d & -> & Hd) _ IH]; [done|]. rewrite filter_cons_False; [done|].
  pose proof (digit_char_range d). lia.
Qed.

Lemma take_static_total fuel r texts s :
  quotes r = 0%nat -> (quotes s <= fuel)%nat -> exists texts' s', take_static fuel r texts s = Ret (texts', s').
Proof.
  intros Hr. revert texts s. induction fuel as [|fuel IH]; intros texts s Hq; cbn [take_static].
  - destruct (quoted s) as [t|] eqn:E; [|by eexists _, _]. apply quoted_spec in E as (_ & a & b & -> & _).
    rewrite !quotes_app in Hq. change (quotes [34]) with 1%nat in Hq. lia.
  - destruct (quoted s) as [t|] eqn:E; [|by eexists _, _]. apply quoted_spec in E as (_ & a & b & -> & Ha).
    apply IH. pose proof (staticmsg_quotes r (length texts) Hr) as Hm.
    pose proof (replace_quotes_less (length (a ++ [34] ++ t ++ [34] ++ b)) t (staticmsg r (length texts)) a b Hm Ha (le_n _)).
    unfold replace_all. lia.
Qed.

Lemma trim_left_sub s : (quotes (trim_left s) <= quotes s)%nat.
Proof. induction s as [|c s IH]; [done|]. cbn [trim_left]. destruct (isspace c); [|done]. rewrite quotes_cons. lia. Qed.

Lemma quotes_reverse s : quotes (reverse s) = quotes s.
Proof.
  induction s as [|c s IH]; [done|]. rewrite reverse_cons, quotes_app, IH, !quotes_cons. change (quotes []) with 0%nat. lia.
Qed.

Lemma trim_quotes s : (quotes (trim s) <= quotes s)%nat.
Proof.
  unfold trim. rewrite quotes_reverse. pose proof (trim_left_sub (reverse (trim_left s))). rewrite quotes_reverse in *.
  pose proof (trim_left_sub s). lia.
Qed.

Lemma random_quotes `{RandomBytes} n k : quotes (createRandomString n k) = 0%nat.
Proof.
  unfold createRandomString. induction (RAND_bytes n k) as [|b l IH]; [done|]. cbn [map]. rewrite quotes_cons, IH.
  rewrite decide_False; [done|]. pose proof (Z.mod_pos_bound b 62 ltac:(lia)) as Hb. set (i := b mod 62) in *. clearbody i.
  assert (forallb (fun i => negb (nth i random_charset 0 =? 34)) (seq 0 62) = true) as Hall by done.
  rewrite forallb_forall in Hall. specialize (Hall (Z.to_nat i)). rewrite in_seq in Hall. specialize (Hall ltac:(lia)). lia.
Qed.

Lemma sub_value_kept r texts v o :
  m_origName (sub_value r texts v o) = m_origName o /\ m_origValue (sub_value r texts v o) = m_origValue o.
Proof. unfold sub_value, addSubVar. destruct (find_char 61 v); repeat case_bool; done. Qed.

Lemma parseSubValues_ret `{RandomBytes} n o s :
  exists o', parseSubValues (createRandomString n 16) o s = Ret o' /\ m_origName o' = m_origName o /\ m_origValue o' = s.
Proof.
  unfold parseSubValues. set (r := createRandomString n 16).
  destruct (take_static_total (length s) r [] (trim s)) as (texts & s' & ->); [apply random_quotes| |].
  { pose proof (trim_quotes s). pose proof (quotes_length s). lia. }
  cbn [mbind outcome_bind]. destruct (split_on _ s') as [|v vs]; [by eexists|]. eexists. split; [reflexivity|].
  assert (forall vs o, m_origName (foldl (fun o v => sub_value r texts v o) o vs) = m_origName o /\
    m_origValue (foldl (fun o v => sub_value r texts v o) o vs) = m_origValue o) as Hf.
  { clear. intros vs. induction vs as [|v vs IH]; intros o; [done|]. cbn [foldl]. destruct (IH (sub_value r texts v o)) as [-> ->].
    apply sub_value_kept. }
  destruct (Hf vs (setValue (put_back r 0 texts (trim v)) (sub_value r texts v (setOrigValue s o)))) as [-> ->].
  cbn [setValue m_origName m_origValue]. destruct (sub_value_kept r texts v (setOrigValue s o)) as [-> ->]. done.
Qed.
