(* ===== verification/HeaderTheory.v ===== *)
(** * What the MIME headers promise

    The invariant of the multimap and its objects under every operation, what
    [replace] does, that the lines that are sent are read back, and the inputs
    for which they are not. *)

From S2P Require Import Prelude SafeInt Mem Streamable Container ContainerTheory BMem BChunks ChunkBuffer BRef.
From S2P Require Import SubParser Parser CLib HttpContent MimeHeader.
From Stdlib Require Import ZArith Lia Sorting.Sorted.

(** ** Multimaps stay in order *)
Lemma bytes_lt_trans a b c : bytes_lt a b = true -> bytes_lt b c = true -> bytes_lt a c = true.
Proof.
  revert b c. induction a as [|x a IH]; intros [|y b] [|z c]; cbn; try done.
  intros [Hxy|[Hxy Hab]%andb_true_iff]%orb_true_iff [Hyz|[Hyz Hbc]%andb_true_iff]%orb_true_iff; apply orb_true_iff.
  1-3: left; lia.
  right. apply andb_true_iff. split; [lia|by eapply IH].
Qed.

Section Order.
Context {V : Type}.

Definition mm_le (a b : bytes * V) : Prop := bytes_lt b.1 a.1 = false.

Lemma mm_le_insert k v (e : bytes * V) m :
  bytes_lt k e.1 = true -> StronglySorted mm_le (e :: m) -> Forall (mm_le (k, v)) (e :: m).
Proof.
  intros Hk [_ Hs]%StronglySorted_inv. constructor.
  - unfold mm_le. cbn. destruct (bytes_lt e.1 k) eqn:E; [|done]. pose proof (bytes_lt_trans _ _ _ Hk E) as C.
    by rewrite bytes_lt_irrefl in C.
  - eapply Forall_impl; [exact Hs|]. unfold mm_le. cbn. intros f Hf. destruct (bytes_lt f.1 k) eqn:E; [|done].
    by rewrite (bytes_lt_trans _ _ _ E Hk) in Hf.
Qed.

Lemma mm_insert_sorted k v m : StronglySorted mm_le m -> StronglySorted mm_le (mm_insert k v m).
Proof.
  induction m as [|e m IH]; intros Hs; cbn [mm_insert]; [by repeat constructor|].
  destruct (bytes_lt k e.1) eqn:E; [constructor; [done|by apply mm_le_insert]|].
  apply StronglySorted_inv in Hs as [Hs Hall]. constructor; [by apply IH|]. apply Forall_forall. intros f Hf.
  apply mm_insert_elem in Hf as [->|Hf]; [done|]. rewrite Forall_forall in Hall. by apply Hall.
Qed.

Lemma mm_insert_last k v m : Forall (fun e => mm_le e (k, v)) m -> mm_insert k v m = m ++ [(k, v)].
Proof. induction 1 as [|e m He _ IH]; cbn [mm_insert app]; [done|]. unfold mm_le in He. cbn in He. by rewrite He, IH. Qed.

Lemma mm_filter_sorted (P : bytes * V -> Prop) `{!forall e, Decision (P e)} m :
  StronglySorted mm_le m -> StronglySorted mm_le (filter P m).
Proof.
  induction 1 as [|e m Hs IH Hall]; [constructor|]. rewrite filter_cons. destruct (decide (P e)); [|done].
  constructor; [done|]. rewrite Forall_forall in *. intros f Hf. apply Hall. by apply list_elem_of_filter in Hf as [_ Hf].
Qed.

Lemma mm_insert_nodup k (v : V) m : v ∉ map snd m -> NoDup (map snd m) -> NoDup (map snd (mm_insert k v m)).
Proof.
  intros Hv. induction m as [|e m IH]; intros Hm; cbn [mm_insert map] in *; [by apply NoDup_singleton|].
  destruct (bytes_lt k e.1); [by apply NoDup_cons|]. apply NoDup_cons in Hm as [He Hm].
  apply not_elem_of_cons in Hv as [Hne Hv]. cbn [map]. apply NoDup_cons. split; [|by apply IH].
  intros Hin. apply list_elem_of_fmap in Hin as (f & Hf & Hin). apply mm_insert_elem in Hin as [->|Hin]; [done|].
  apply He. apply list_elem_of_fmap. by exists f.
Qed.

Lemma mm_filter_nodup (P : bytes * V -> Prop) `{!forall e, Decision (P e)} m : NoDup (map snd m) -> NoDup (map snd (filter P m)).
Proof. intros Hm. eapply sublist_NoDup; [exact Hm|]. change (sublist (fmap snd (filter P m)) (fmap snd m)). apply fmap_sublist, sublist_filter. Qed.
End Order.

(** ** The invariant of a header *)
Record header_wf (h : MIME_Header) : Prop := {
  wf_refs : Forall (fun e => Nat.lt e.2 (length (h_objects h)) /\ e.1 = getUpperName (h_object e.2 h)) (m_headers h);
  wf_distinct : NoDup (map snd (m_headers h));
  wf_sorted : StronglySorted mm_le (m_headers h);
  wf_last : match m_lastOpt h with Some i => Nat.lt i (length (h_objects h)) | None => True end;
  wf_count : zlen (m_headers h) <= m_maxOptions h }.

(** What a client of the class does to a header by names and values, a received line
    included. *)
Inductive HeaderOp :=
  | OpAdd (name value : bytes)
  | OpContinue (value : bytes)
  | OpReplace (name value : bytes)
  | OpRemove (name : bytes)
  | OpClear
  | OpLine (line : bytes)
  | OpMaxOptions (value : Z).

Section Wf.
Context `{RandomBytes}.

Definition header_op (op : HeaderOp) (h : MIME_Header) : outcome MIME_Header :=
  match op with
  | OpAdd n v => '(h, _) ← header_add n v h; Ret h
  | OpContinue v => '(h, _) ← header_continue v h; Ret h
  | OpReplace n v => header_replace n v h
  | OpRemove n => Ret (header_remove n h)
  | OpClear => Ret (header_clear h)
  | OpLine l => parseOptionValue l h
  | OpMaxOptions v => Ret (setMaxOptions v h)
  end.

Fixpoint header_run (ops : list HeaderOp) (h : MIME_Header) : outcome MIME_Header :=
  match ops with
  | [] => Ret h
  | op :: ops => h ← header_op op h; header_run ops h
  end.

(** No maximum is set below the number of options. *)
Definition limit_respected (op : HeaderOp) (h : MIME_Header) : Prop :=
  match op with OpMaxOptions v => zlen (m_headers h) <= v | _ => True end.
Fixpoint limits_respected (ops : list HeaderOp) (h : MIME_Header) : Prop :=
  match ops with
  | [] => True
  | op :: ops => limit_respected op h /\ match header_op op h with Ret h => limits_respected ops h | _ => True end
  end.

(** The header after an option was added. *)
Definition added (o : MIME_HeaderOption) (h : MIME_Header) : MIME_Header :=
  h_set_last (Some (length (h_objects h)))
    (h_set_headers (mm_insert (getUpperName o) (length (h_objects h)) (m_headers h))
       (h_set_objects (h_objects h ++ [o]) (h_count_draw h))).

Lemma nth_app_last {A} (l : list A) x d : nth (length l) (l ++ [x]) d = x.
Proof. by rewrite app_nth2, Nat.sub_diag by lia. Qed.

Lemma header_add_eq n v h :
  (zlen (m_headers h) = m_maxOptions h /\ header_add n v h = Ret (h, false)) \/
  (zlen (m_headers h) <> m_maxOptions h /\ exists o, header_add n v h = Ret (added o h, true) /\
     parseSubValues (createRandomString (h_draws h) 16) (setOrigName n option_new) v = Ret o /\
     m_origName o = n /\ m_origValue o = v).
Proof.
  unfold header_add. destruct (Z.eqb_spec (zlen (m_headers h)) (m_maxOptions h)) as [E|E]; [by left|]. right. split; [done|].
  destruct (parseSubValues_ret (h_draws h) (setOrigName n option_new) v) as (o & Ho & En & Ev). exists o. rewrite Ho.
  split; [|done]. cbn [mbind outcome_bind]. unfold addHeaderOption. cbn [m_headers m_maxOptions h_set_objects h_count_draw].
  apply Z.eqb_neq in E. rewrite E. cbn [negb]. unfold h_object. cbn [h_objects h_set_objects]. by rewrite nth_app_last.
Qed.

Lemma added_object_new o h : h_object (length (h_objects h)) (added o h) = o.
Proof. apply nth_app_last. Qed.

Lemma added_object_old i o h : Nat.lt i (length (h_objects h)) -> h_object i (added o h) = h_object i h.
Proof. intros Hi. apply app_nth1, Hi. Qed.

Lemma refs_not_new h : header_wf h -> length (h_objects h) ∉ map snd (m_headers h).
Proof.
  intros Hwf Hin. apply list_elem_of_fmap in Hin as (e & Hl & He). pose proof (wf_refs h Hwf) as Hr. rewrite Forall_forall in Hr.
  apply Hr in He as [He _]. unfold Nat.lt in He. rewrite <- Hl in He. lia.
Qed.

Lemma added_wf o h : header_wf h -> zlen (m_headers h) <> m_maxOptions h -> header_wf (added o h).
Proof.
  intros Hwf Hne. pose proof Hwf as [Hr Hd Hs Hl Hc]. constructor; cbn [added h_set_last h_set_headers h_set_objects h_count_draw
    h_objects m_headers m_lastOpt m_maxOptions].
  - apply Forall_forall. intros e He. rewrite length_app. cbn [length]. apply mm_insert_elem in He as [->|He]; cbn [fst snd].
    + split; [unfold Nat.lt; lia|]. by rewrite added_object_new.
    + rewrite Forall_forall in Hr. apply Hr in He as [Hi Hn]. split; [unfold Nat.lt in *; lia|].
      by rewrite added_object_old.
  - apply mm_insert_nodup; [by apply refs_not_new|done].
  - by apply mm_insert_sorted.
  - rewrite length_app. cbn [length]. unfold Nat.lt. lia.
  - rewrite mm_insert_length. lia.
Qed.

Lemma header_add_wf n v h : header_wf h -> exists h' ok, header_add n v h = Ret (h', ok) /\ header_wf h'.
Proof.
  intros Hwf. destruct (header_add_eq n v h) as [[_ ->]|(Hne & o & -> & _)]; eexists _, _; (split; [reflexivity|done]) || idtac.
  split; [reflexivity|]. by apply added_wf.
Qed.

Lemma header_continue_wf v h : header_wf h -> exists h', header_continue v h = Ret (h', true) /\ header_wf h'.
Proof.
  intros Hwf. unfold header_continue. destruct (m_lastOpt h) as [i|] eqn:El; [|by eexists].
  destruct (parseSubValues_ret (h_draws h) (h_object i h) v) as (o & -> & En & _). cbn [mbind outcome_bind]. eexists.
  split; [reflexivity|]. destruct Hwf as [Hr Hd Hs Hl Hc]. constructor; try done.
  - cbn [h_set_objects h_count_draw m_headers h_objects]. eapply Forall_impl; [exact Hr|]. intros e [He Hn]. rewrite length_insert.
    split; [done|]. rewrite Hn. unfold h_object. cbn [h_objects h_set_objects h_count_draw].
    destruct (decide (e.2 = i)) as [E|Hi]; [rewrite E in *|].
    + assert (nth i (<[i:=o]> (h_objects h)) option_new = o) as ->; [|unfold getUpperName; by rewrite En].
      apply nth_lookup_Some. by apply list_lookup_insert_eq.
    + rewrite !nth_lookup. by rewrite list_lookup_insert_ne.
  - cbn [h_set_objects h_count_draw m_lastOpt h_objects]. by rewrite length_insert.
Qed.

Lemma header_filter_wf (P : bytes * nat -> Prop) `{!forall e, Decision (P e)} h :
  header_wf h -> header_wf (h_set_headers (filter P (m_headers h)) h).
Proof.
  intros [Hr Hd Hs Hl Hc]. constructor; try done; cbn [h_set_headers m_headers m_maxOptions].
  - rewrite Forall_forall in *. intros e He. apply list_elem_of_filter in He as [_ He]. by apply Hr.
  - by apply mm_filter_nodup.
  - by apply mm_filter_sorted.
  - pose proof (length_filter P (m_headers h)). unfold zlen in *. lia.
Qed.

Lemma header_remove_wf n h : header_wf h -> header_wf (header_remove n h).
Proof. apply header_filter_wf. Qed.

Lemma header_op_wf op h : header_wf h -> limit_respected op h -> exists h', header_op op h = Ret h' /\ header_wf h'.
Proof.
  intros Hwf Hlim. destruct op as [n v|v|n v|n| |l|v]; cbn [header_op].
  - destruct (header_add_wf n v h Hwf) as (h' & ok & -> & Hwf'). by exists h'.
  - destruct (header_continue_wf v h Hwf) as (h' & -> & Hwf'). by exists h'.
  - unfold header_replace. destruct (header_add_wf n v (header_remove n h)) as (h' & ok & -> & Hwf'); [by apply header_remove_wf|].
    by exists h'.
  - eexists. split; [reflexivity|]. by apply header_remove_wf.
  - eexists. split; [reflexivity|]. destruct Hwf as [Hr Hd Hs Hl Hc]. pose proof (zlen_nonneg (m_headers h)).
    by constructor; try constructor; try done; cbn; change (@zlen (bytes * nat) []) with 0; lia.
  - unfold parseOptionValue. destruct (_ || _).
    + destruct (header_continue_wf l h Hwf) as (h' & -> & Hwf'). by exists h'.
    + destruct (find_str _ l) as [i|]; [|by exists h].
      destruct (header_add_wf (ztake i l) (c_str (zdrop (i + 2) l)) h Hwf) as (h' & ok & -> & Hwf'). by exists h'.
  - eexists. split; [reflexivity|]. by destruct Hwf; constructor.
Qed.
End Wf.

(** ** What can be read from a header *)
Definition header_view (h : MIME_Header) : list (bytes * bytes * bytes) :=
  map (fun e => (e.1, m_origName (h_object e.2 h), m_origValue (h_object e.2 h))) (m_headers h).

(** A name and a value whose line is read back as they are: no colon and space in
    the name, which does not start with a blank either, and no NUL in the value. *)
Definition option_ok (i : bytes * bytes) : Prop :=
  find_str (bs ": ") i.1 = None /\ hd 0 i.1 <> 32 /\ hd 0 i.1 <> 9 /\ 0 ∉ i.2.

#[export] Instance option_ok_dec i : Decision (option_ok i).
Proof. unfold option_ok. apply _. Defined.

Definition option_line (i : bytes * bytes) : bytes := i.1 ++ bs ": " ++ i.2.

Section View.
Context `{RandomBytes}.

Lemma find_colon n v : find_str (bs ": ") n = None -> find_str (bs ": ") (n ++ bs ": " ++ v) = Some (zlen n).
Proof.
  change (bs ": ") with [58; 32]. induction n as [|c n IH]; [intros _; by destruct v|]. rewrite zlen_cons.
  cbn [find_str app starts_with]. intros Hn.
  assert (((c =? 58) && starts_with (n ++ 58 :: 32 :: v) [32]) = false) as ->.
  { destruct (c =? 58); [|done]. destruct n as [|d n]; [done|]. cbn [app starts_with] in *. by destruct (d =? 32), n. }
  change (58 :: 32 :: v) with ([58; 32] ++ v). rewrite IH; [done|].
  destruct ((c =? 58) && starts_with n [32]); [done|]. by destruct (find_str [58; 32] n).
Qed.

Lemma blank_first n v : hd 0 n <> 32 -> hd 0 n <> 9 ->
  (hd 0 (c_str (n ++ bs ": " ++ v)) =? 32) || (hd 0 (c_str (n ++ bs ": " ++ v)) =? 9) = false.
Proof. destruct n as [|c n]; [done|]. cbn [app hd c_str]. intros H1 H2. destruct (c =? 0) eqn:E; cbn [hd]; lia. Qed.

Lemma parse_option_line i h : option_ok i -> parseOptionValue (option_line i) h = '(h, _) ← header_add i.1 i.2 h; Ret h.
Proof.
  intros (Hf & H1 & H2 & Hv). unfold parseOptionValue, option_line. rewrite blank_first, find_colon by done.
  rewrite ztake_app_le, ztake_ge, zdrop_app_ge by lia. replace (zlen i.1 + 2 - zlen i.1) with 2 by lia.
  change (bs ": ") with [58; 32]. cbn [app]. rewrite !zdrop_cons, zdrop_le0 by lia. by rewrite c_str_nul_free.
Qed.

Lemma view_ext h h' l :
  Forall (fun e : bytes * nat => h_object e.2 h' = h_object e.2 h) l ->
  map (fun e => (e.1, m_origName (h_object e.2 h'), m_origValue (h_object e.2 h'))) l =
  map (fun e => (e.1, m_origName (h_object e.2 h), m_origValue (h_object e.2 h))) l.
Proof. induction 1 as [|e l He _ IH]; [done|]. cbn [map]. by rewrite He, IH. Qed.

Lemma refs_old h o : header_wf h -> Forall (fun e => h_object e.2 (added o h) = h_object e.2 h) (m_headers h).
Proof. intros Hwf. eapply Forall_impl; [exact (wf_refs h Hwf)|]. intros e [He _]. by apply added_object_old. Qed.

(** Adding an option that comes last. *)
Lemma added_view o h :
  header_wf h -> Forall (fun k => bytes_lt (getUpperName o) k = false) (map (fun i => i.1.1) (header_view h)) ->
  header_view (added o h) = header_view h ++ [(getUpperName o, m_origName o, m_origValue o)].
Proof.
  intros Hwf Hlast. unfold header_view at 1. cbn [added h_set_last h_set_headers h_set_objects h_count_draw m_headers].
  rewrite mm_insert_last.
  - rewrite map_app. cbn [map fst snd]. rewrite added_object_new. f_equal. by apply view_ext, refs_old.
  - unfold header_view in Hlast. rewrite map_map, Forall_map in Hlast. exact Hlast.
Qed.

Lemma read_lines_view L h :
  header_wf h -> Forall option_ok L ->
  StronglySorted (fun a b => bytes_lt b a = false) (map (fun i => i.1.1) (header_view h) ++ map (fun i => to_upper_copy i.1) L) ->
  zlen (m_headers h) + zlen L <= m_maxOptions h ->
  exists h', header_run (map (fun i => OpLine (option_line i)) L) h = Ret h' /\ header_wf h' /\
    header_view h' = header_view h ++ map (fun i => (to_upper_copy i.1, i.1, i.2)) L.
Proof.
  intros Hwf HL. revert h Hwf. induction HL as [|i L Hi _ IH]; intros h Hwf Hs Hn; cbn [map header_run].
  { exists h. by rewrite app_nil_r. }
  cbn [header_op]. rewrite parse_option_line by done. rewrite zlen_cons in Hn. pose proof (zlen_nonneg L).
  destruct (header_add_eq i.1 i.2 h) as [[C _]|(Hne & o & -> & _ & En & Ev)]; [lia|]. cbn [mbind outcome_bind].
  assert (header_view (added o h) = header_view h ++ [(to_upper_copy i.1, i.1, i.2)]) as Hview.
  { rewrite <- En, <- Ev. apply added_view; [done|]. unfold getUpperName. rewrite En.
    clear - Hs. induction (map (fun i => i.1.1) (header_view h)) as [|k ks IH]; [constructor|].
    cbn [map app] in Hs. apply StronglySorted_inv in Hs as [Hs Hall]. constructor; [|by apply IH].
    apply Forall_app in Hall as [_ Hall]. by apply Forall_inv in Hall. }
  destruct (IH (added o h)) as (h' & -> & Hwf' & Hv'); [by apply added_wf| | |].
  - rewrite Hview, map_app, <- app_assoc. exact Hs.
  - cbn [added h_set_last h_set_headers h_set_objects h_count_draw m_headers m_maxOptions]. rewrite mm_insert_length. lia.
  - exists h'. rewrite Hv', Hview, <- app_assoc. done.
Qed.
End View.

(** ** Properties *)

Section Props.
Context `{RandomBytes}.

Lemma view_keys h : map (fun i => i.1.1) (header_view h) = map fst (m_headers h).
Proof. unfold header_view. by rewrite map_map. Qed.

(** The options of a header, as they are sent. *)
Definition header_options (h : MIME_Header) : list (bytes * bytes) :=
  map (fun i => (i.1.2, i.2)) (header_view h).

Lemma header_lines_options h : header_lines h = map option_line (header_options h).
Proof. unfold header_lines, header_options, header_view. by rewrite !map_map. Qed.

Lemma view_options h : header_wf h ->
  header_view h = map (fun i => (to_upper_copy i.1, i.1, i.2)) (header_options h).
Proof.
  intros Hwf. unfold header_options, header_view. rewrite !map_map. cbn [fst snd]. apply map_ext_in. intros e He.
  apply list_elem_of_In in He. pose proof (wf_refs h Hwf) as Hr. rewrite Forall_forall in Hr. by destruct (Hr e He) as [_ ->].
Qed.

Lemma keys_sorted h : header_wf h -> StronglySorted (fun a b => bytes_lt b a = false) (map fst (m_headers h)).
Proof.
  intros Hwf. induction (wf_sorted h Hwf) as [|e m _ IH Hall]; cbn [map]; constructor; [done|]. by rewrite Forall_map.
Qed.

Lemma header_init_wf : header_wf header_init.
Proof. by repeat constructor. Qed.

(** C18. The header stays well formed under options that are added and replaced by
    name and value, continued, removed and cleared, lines that are read, and
    maximums that are set, in any sequence in which no maximum is set below the
    number of options there are at that moment: every one of these operations
    returns, every entry of the multimap points to an object that exists, under the
    name of that object in upper case, no object is listed twice, the entries are in
    order, [m_lastOpt] points to an object, and there are never more options than
    the maximum. Adding an object that others share ([addHeaderOption]) is not among
    the operations. *)
Theorem header_well_formed (ops : list HeaderOp) (h : MIME_Header) :
  header_wf h -> limits_respected ops h -> exists h', header_run ops h = Ret h' /\ header_wf h'.
Proof.
  revert h. induction ops as [|op ops IH]; intros h Hwf Hlim; [by exists h|]. cbn [header_run limits_respected] in *.
  destruct Hlim as [Hop Hlim]. destruct (header_op_wf op h Hwf Hop) as (h' & E & Hwf'). rewrite E in Hlim |- *. by apply IH.
Qed.

Lemma headers_read_back (h : MIME_Header) :
  header_wf h -> Forall option_ok (header_options h) -> zlen (m_headers h) <= 32 ->
  exists h', header_run (map OpLine (header_lines h)) header_init = Ret h' /\ header_wf h' /\ header_view h' = header_view h.
Proof.
  intros Hwf Hok Hn. rewrite header_lines_options, map_map.
  destruct (read_lines_view (header_options h) header_init) as (h' & Hrun & Hwf' & Hv); [apply header_init_wf|done| | |].
  - change (map (fun i => i.1.1) (header_view header_init)) with (@nil bytes). cbn [app].
    pose proof (keys_sorted h Hwf) as Hs. rewrite <- view_keys, view_options, map_map in Hs by done. exact Hs.
  - change (zlen (m_headers header_init)) with 0. change (m_maxOptions header_init) with 32.
    unfold header_options, header_view. unfold zlen in *. rewrite !length_map. lia.
  - exists h'. split; [done|]. split; [done|]. rewrite Hv. by rewrite <- view_options.
Qed.

(** The headers are a round trip: the lines that
    [MIME_Sub_Header::streamToUpstream] sends, read one by one by
    [parseOptionValue] into a new header, give the same options in the same
    order, under the same names and with the same values. *)
Theorem headers_roundtrip (h : MIME_Header) :
  header_wf h -> Forall option_ok (header_options h) -> zlen (m_headers h) <= 32 ->
  exists h', header_run (map OpLine (header_lines h)) header_init = Ret h' /\ header_wf h' /\ header_view h' = header_view h.
Proof. apply headers_read_back. Qed.

Lemma range_refs k i h : header_wf h -> In i (mm_equal_range k (m_headers h)) -> Nat.lt i (length (h_objects h)).
Proof.
  intros Hwf Hi. apply list_elem_of_In, list_elem_of_fmap in Hi as (e & -> & He).
  apply list_elem_of_filter in He as [_ He]. pose proof (wf_refs h Hwf) as Hr. rewrite Forall_forall in Hr. by apply Hr.
Qed.

(** [replace], in full. *)
Lemma header_replace_spec (h : MIME_Header) (n v : bytes) :
  header_wf h -> zlen (m_headers (header_remove n h)) < m_maxOptions h ->
  exists h' o, header_replace n v h = Ret h' /\ m_origName o = n /\ m_origValue o = v /\
    (forall m, getOptionsByName m h' = if iequals m n then [o] else getOptionsByName m h) /\
    header_wf h' /\ m_maxOptions h' = m_maxOptions h /\ zlen (m_headers h') = zlen (m_headers (header_remove n h)) + 1.
Proof.
  intros Hwf Hroom. unfold header_replace. pose proof (header_remove_wf n h Hwf) as Hwf'.
  destruct (header_add_eq n v (header_remove n h)) as [[C _]|(_ & o & -> & _ & En & Ev)].
  { change (m_maxOptions (header_remove n h)) with (m_maxOptions h) in C. lia. }
  cbn [mbind outcome_bind]. eexists _, o. split; [reflexivity|]. split; [done|]. split; [done|]. split.
  2: { split; [apply added_wf; [done|]; change (m_maxOptions (header_remove n h)) with (m_maxOptions h); lia|]. split; [done|].
       cbn [added h_set_last h_set_headers h_set_objects h_count_draw m_headers]. rewrite mm_insert_length. lia. }
  intros m.
  unfold getOptionsByName, iequals. change (m_headers (added o (header_remove n h)))
    with (mm_insert (getUpperName o) (length (h_objects h)) (mm_erase (to_upper_copy n) (m_headers h))).
  unfold getUpperName. rewrite En. case_bool_decide as Hm.
  - rewrite Hm. assert (mm_equal_range (to_upper_copy n) (mm_insert (to_upper_copy n) (length (h_objects h))
      (mm_erase (to_upper_copy n) (m_headers h))) = [length (h_objects h)]) as ->.
    { destruct (mm_range_insert (to_upper_copy n) (length (h_objects h)) (mm_erase (to_upper_copy n) (m_headers h)))
        as (l & r & E & ->). rewrite mm_range_erase in E. by destruct l, r. }
    cbn [map]. f_equal. apply (added_object_new o (header_remove n h)).
  - rewrite mm_range_insert_other, mm_range_erase_other by congruence. apply map_ext_in. intros i Hi.
    apply (added_object_old i o (header_remove n h)). exact (range_refs _ _ _ Hwf Hi).
Qed.

(** [MIME_Sub_Header::replace] leaves exactly one option under the name, in
    any case of its letters, with the given text, and does not change the options
    of any other name. *)
Theorem header_replace_exact (h : MIME_Header) (n v : bytes) :
  header_wf h -> zlen (m_headers (header_remove n h)) < m_maxOptions h ->
  exists h' o, header_replace n v h = Ret h' /\ m_origName o = n /\ m_origValue o = v /\
    forall m, getOptionsByName m h' = if iequals m n then [o] else getOptionsByName m h.
Proof.
  intros Hwf Hroom. destruct (header_replace_spec h n v Hwf Hroom) as (h' & o & ? & ? & ? & ? & _). by exists h', o.
Qed.

Lemma getOptionRaw_view m h :
  getOptionRawStringByName m h =
  match filter (fun i => i.1.1 = to_upper_copy m) (header_view h) with i :: _ => i.2 | [] => [] end.
Proof.
  unfold getOptionRawStringByName, getOptionByName, mm_find, mm_equal_range, header_view.
  induction (m_headers h) as [|e l IH]; [done|]. cbn [map]. rewrite !filter_cons. cbn [fst snd].
  by destruct (decide (e.1 = to_upper_copy m)).
Qed.

(** Header injection: a value that holds CR LF is accepted and sent as it is,
    so an option whose value is [a], CR LF and the line of another option is
    received as two options, and the receiver finds the second one under the
    name its sender never added. *)
Theorem header_injection (n a m b : bytes) :
  option_ok (n, a) -> option_ok (m, b) -> bytes_lt (to_upper_copy n) (to_upper_copy m) = true ->
  exists h line h', header_add n (a ++ CRLF ++ option_line (m, b)) header_init = Ret (h, true) /\
    header_lines h = [line] /\ line = option_line (n, a) ++ CRLF ++ option_line (m, b) /\
    getOptionByName m h = None /\
    header_run (map OpLine [option_line (n, a); option_line (m, b)]) header_init = Ret h' /\
    getOptionRawStringByName n h' = a /\ getOptionRawStringByName m h' = b.
Proof.
  intros Hn Hm Hlt.
  assert (to_upper_copy n <> to_upper_copy m) as Hne by (intros E; by rewrite E, bytes_lt_irrefl in Hlt).
  destruct (header_add_eq n (a ++ CRLF ++ option_line (m, b)) header_init) as [[C _]|(_ & o & E & _ & En & Ev)]; [discriminate C|].
  destruct (read_lines_view [(n, a); (m, b)] header_init) as (h' & Hrun & _ & Hv);
    [apply header_init_wf|by constructor; [|apply Forall_singleton]| |done|].
  { cbn [map app header_view header_init m_headers fst snd]. repeat constructor. 
    destruct (bytes_lt (to_upper_copy m) (to_upper_copy n)) eqn:E'; [|done].
    pose proof (bytes_lt_trans _ _ _ Hlt E') as C. by rewrite bytes_lt_irrefl in C. }
  exists (added o header_init), (m_origName o ++ bs ": " ++ m_origValue o), h'. split; [done|].
  split; [done|]. split; [|split].
  - rewrite En, Ev. unfold option_line. cbn [fst snd]. by rewrite <- !app_assoc.
  - unfold getOptionByName, mm_find, mm_equal_range. change (m_headers (added o header_init)) with [(getUpperName o, 0%nat)].
    unfold getUpperName. rewrite En, filter_cons_False; [done|]. exact Hne.
  - split; [exact Hrun|]. rewrite !getOptionRaw_view, Hv. cbn [map app header_view header_init m_headers fst snd].
    rewrite (filter_cons_True _ (to_upper_copy n, n, a)), (filter_cons_False _ (to_upper_copy n, n, a)) by done.
    by rewrite filter_cons_True.
Qed.

(** A folded line does not continue a value, it takes its place: whatever the
    last option held, after a line that starts with a blank its text is that
    line alone. *)
Theorem header_fold_overwrites (h : MIME_Header) (i : nat) (line : bytes) :
  header_wf h -> m_lastOpt h = Some i -> hd 0 line = 32 \/ hd 0 line = 9 ->
  exists h', parseOptionValue line h = Ret h' /\ m_headers h' = m_headers h /\
    m_origName (h_object i h') = m_origName (h_object i h) /\ m_origValue (h_object i h') = line.
Proof.
  intros Hwf El Hb. unfold parseOptionValue.
  assert ((hd 0 (c_str line) =? 32) || (hd 0 (c_str line) =? 9) = true) as ->.
  { destruct line as [|c line]; [cbn in Hb; lia|]. cbn [hd c_str] in *. destruct (c =? 0) eqn:E; cbn [hd]; lia. }
  unfold header_continue. rewrite El. destruct (parseSubValues_ret (h_draws h) (h_object i h) line) as (o & -> & En & Ev).
  cbn [mbind outcome_bind]. eexists. split; [reflexivity|]. split; [done|].
  pose proof (wf_last h Hwf) as Hl. rewrite El in Hl. unfold h_object at 1 3. cbn [h_set_objects h_count_draw h_objects].
  assert (nth i (<[i:=o]> (h_objects h)) option_new = o) as ->; [|done].
  apply nth_lookup_Some. by apply list_lookup_insert_eq.
Qed.
End Props.

(** ** The properties at concrete headers *)
(** ** The values under a name *)
Section Values.
Context `{RandomBytes}.

Definition option_values (n : bytes) (h : MIME_Header) : list bytes := map m_origValue (getOptionsByName n h).

(** A well-formed header that has room for [k] more options. *)
Definition has_room (k : Z) (h : MIME_Header) : Prop := header_wf h /\ zlen (m_headers h) + k <= m_maxOptions h.

Lemma has_room_less k k' h : has_room k h -> k' <= k -> has_room k' h.
Proof. intros [Hwf Hr] Hk. split; [done|lia]. Qed.

Lemma remove_room n k h : has_room k h -> has_room k (header_remove n h).
Proof.
  intros [Hwf Hr]. split; [by apply header_remove_wf|]. cbn [header_remove h_set_headers m_headers m_maxOptions].
  unfold mm_erase. pose proof (length_filter (fun e => e.1 <> to_upper_copy n) (m_headers h)). unfold zlen in *. lia.
Qed.

Lemma values_remove m n h : option_values m (header_remove n h) = if iequals m n then [] else option_values m h.
Proof.
  unfold option_values, getOptionsByName, iequals. cbn [header_remove h_set_headers m_headers]. case_bool_decide as E.
  - by rewrite E, mm_range_erase.
  - by rewrite mm_range_erase_other by congruence.
Qed.

Lemma replace_values n v k h :
  has_room (1 + k) h -> 0 <= k ->
  exists h', header_replace n v h = Ret h' /\ has_room k h' /\
    forall m, option_values m h' = if iequals m n then [v] else option_values m h.
Proof.
  intros Hroom Hk. pose proof (remove_room n _ _ Hroom) as [_ Hr]. destruct Hroom as [Hwf _].
  change (m_maxOptions (header_remove n h)) with (m_maxOptions h) in Hr.
  destruct (header_replace_spec h n v Hwf ltac:(lia)) as (h' & o & E & _ & Ev & Ho & Hwf' & Hmax & Hlen).
  exists h'. split; [done|]. split; [split; [done|lia]|]. intros m. unfold option_values. rewrite Ho.
  destruct (iequals m n); [|done]. cbn [map]. by rewrite Ev.
Qed.

Lemma add_values n v k h :
  has_room (1 + k) h -> 0 <= k ->
  exists h', header_add n v h = Ret (h', true) /\ has_room k h' /\
    (forall m, iequals m n = false -> option_values m h' = option_values m h) /\
    (forall m, iequals m n = true -> option_values m h' ≡ₚ v :: option_values m h).
Proof.
  intros [Hwf Hr] Hk. destruct (header_add_eq n v h) as [[C _]|(Hne & o & -> & _ & En & Ev)]; [lia|].
  eexists. split; [reflexivity|]. split; [|split].
  - split; [by apply added_wf|]. cbn [added h_set_last h_set_headers h_set_objects h_count_draw m_headers m_maxOptions].
    rewrite mm_insert_length. lia.
  - intros m Hm. unfold option_values, getOptionsByName. f_equal.
    cbn [added h_set_last h_set_headers h_set_objects h_count_draw m_headers]. unfold getUpperName. rewrite En.
    unfold iequals in Hm. apply bool_decide_eq_false in Hm. rewrite mm_range_insert_other by congruence.
    apply map_ext_in. intros i Hi. apply added_object_old. exact (range_refs _ _ _ Hwf Hi).
  - intros m Hm. unfold iequals in Hm. apply bool_decide_eq_true in Hm.
    unfold option_values, getOptionsByName. rewrite !map_map.
    cbn [added h_set_last h_set_headers h_set_objects h_count_draw m_headers]. unfold getUpperName. rewrite En, Hm.
    destruct (mm_range_insert (to_upper_copy n) (length (h_objects h)) (m_headers h)) as (l & r & E1 & ->).
    assert (forall i, In i (l ++ r) -> h_object i (added o h) = h_object i h) as Hold.
    { intros i Hi. apply added_object_old. rewrite <- E1 in Hi. exact (range_refs _ _ _ Hwf Hi). }
    rewrite E1, !map_app. cbn [map]. rewrite added_object_new, Ev, <- Permutation_middle. constructor.
    rewrite <- !map_app. rewrite (map_ext_in _ (fun x => m_origValue (h_object x h))); [done|]. intros i Hi. by rewrite (Hold i Hi).
Qed.
End Values.

Section Witnesses.

Definition zero_random : RandomBytes := {| RAND_bytes _ n := replicate (Z.to_nat n) 0 |}.
#[local] Existing Instance zero_random.

Definition demo_ops : list HeaderOp :=
  [OpAdd (bs "Host") (bs "a.org"); OpLine (bs "Content-Type: text/html; charset=utf-8"); OpLine (bs " folded");
   OpAdd (bs "Accept") (bs "*"); OpRemove (bs "ACCEPT"); OpMaxOptions 2; OpReplace (bs "content-type") (bs "text/plain; q=1")].

Definition demo_header : MIME_Header := Eval vm_compute in
  match header_run demo_ops header_init with Ret h => h | _ => header_init end.

Lemma demo_header_wf : header_wf demo_header.
Proof. constructor; [repeat constructor|repeat constructor|repeat constructor|cbv; lia|discriminate]; set_solver. Qed.

Lemma header_well_formed_witness : exists h', header_run demo_ops header_init = Ret h' /\ header_wf h'.
Proof. refine (header_well_formed demo_ops header_init header_init_wf _). vm_compute. repeat split; discriminate. Defined.

Lemma headers_roundtrip_witness :
  length (m_headers demo_header) = 2%nat /\
  exists h', header_run (map OpLine (header_lines demo_header)) header_init = Ret h' /\ header_wf h' /\
    header_view h' = header_view demo_header.
Proof.
  split; [reflexivity|]. refine (headers_roundtrip demo_header demo_header_wf _ _); [|discriminate].
  apply (bool_decide_unpack _). vm_compute. exact I.
Defined.

Lemma header_replace_exact_witness :
  exists h' o, header_replace (bs "HOST") (bs "b.org") demo_header = Ret h' /\ m_origName o = bs "HOST" /\
    m_origValue o = bs "b.org" /\
    forall m, getOptionsByName m h' = if iequals m (bs "HOST") then [o] else getOptionsByName m demo_header.
Proof. exact (header_replace_exact demo_header (bs "HOST") (bs "b.org") demo_header_wf (eq_refl _)). Defined.

Lemma header_injection_witness :
  exists h line h', header_add (bs "Location") (bs "/x" ++ CRLF ++ bs "Set-Cookie: a=b") header_init = Ret (h, true) /\
    header_lines h = [line] /\ line = bs "Location: /x" ++ CRLF ++ bs "Set-Cookie: a=b" /\
    getOptionByName (bs "Set-Cookie") h = None /\
    header_run (map OpLine [bs "Location: /x"; bs "Set-Cookie: a=b"]) header_init = Ret h' /\
    getOptionRawStringByName (bs "Location") h' = bs "/x" /\ getOptionRawStringByName (bs "Set-Cookie") h' = bs "a=b".
Proof.
  refine (header_injection (bs "Location") (bs "/x") (bs "Set-Cookie") (bs "a=b") _ _ eq_refl);
    apply (bool_decide_unpack _); vm_compute; exact I.
Defined.

Lemma header_fold_overwrites_witness :
  m_lastOpt demo_header = Some 3%nat /\
  exists h', parseOptionValue (bs " more") demo_header = Ret h' /\ m_headers h' = m_headers demo_header /\
    m_origName (h_object 3 h') = m_origName (h_object 3 demo_header) /\ m_origValue (h_object 3 h') = bs " more".
Proof.
  split; [reflexivity|].
  exact (header_fold_overwrites demo_header 3 (bs " more") demo_header_wf eq_refl (or_introl eq_refl)).
Defined.

(** Eleven quoted texts: the mark of the second one is the beginning of the mark
    of the eleventh, which comes back as the second text and a zero. *)
Definition quoted_list : bytes :=
  concat (map (fun c => bs "; " ++ [c] ++ bs "=" ++ [34; c; c; 34]) (bs "abcdefghijk")).

Example static_mark_collision :
  option_map (fun o => (getSubVar (bs "j") o, getSubVar (bs "k") o))
    (match parseSubValues (createRandomString 0 16) option_new (bs "v" ++ quoted_list) with Ret o => Some o | _ => None end) =
  Some (bs "jj", bs "bb0").
Proof. reflexivity. Qed.
End Witnesses.
