(* ===== verification/Mime.v ===== *)
(** * MIME messages (Protocol_MIME/mime_message.cpp, mime_partmessage.cpp,
      mime_sub_content.cpp, mime_sub_firstboundary.cpp, mime_sub_endpboundary.cpp)

    A multipart message: the four sub-parsers of its reader, the parts and their
    names, and what is sent.

    The parts are shared objects: the list of all parts, the map by name and
    [m_currentPart] point to them, and so does [m_currentSubParser], into the
    header or the content of one.  They are kept in a store and the pointers are
    places in it.  What a pointer to no part does is undefined behaviour. *)

From S2P Require Import Prelude SafeInt Mem Streamable Container ContainerTheory BMem BChunks ChunkBuffer BRef.
From S2P Require Import SubParser Parser CLib HttpContent MimeHeader.
From Stdlib Require Import ZArith Lia.

(** The container of a part: [make_shared<B_Chunks>()] and a [B_Chunks] seen as
    a stream object, and the file [referenceFile] opens, if it can. *)
Class PartObjects (M O : Type) := {
  new_container : O;
  of_chunks : B_Chunks M -> O;
  reference_file : bytes -> option O }.

(** ** The sub-parsers *)

(** [MIME_Sub_Content] without its sub-parser fields. *)
Record PartContent (O : Type) := mkPartContent {
  m_contentContainer : O;
  m_fsTmpFolder : bytes;
  pc_boundary : bytes;
  m_maxContentSize : Z;
  m_maxContentSizeUntilGoingToFS : Z }.
Arguments mkPartContent {_} _ _ _ _ _.
Arguments m_contentContainer {_} _.
Arguments m_fsTmpFolder {_} _.
Arguments pc_boundary {_} _.
Arguments m_maxContentSize {_} _.
Arguments m_maxContentSizeUntilGoingToFS {_} _.

(** [MIME_Sub_FirstBoundary] and [MIME_Sub_EndPBoundary]. *)
Record FirstBoundary := mkFirstBoundary { fb_boundary : bytes }.
Record EndPBoundary := mkEndPBoundary { ep_status : Z }.
Definition ENDP_STAT_UNINITIALIZED : Z := -1.
Definition ENDP_STAT_CONTINUE : Z := 0.
Definition ENDP_STAT_END : Z := 1.
Definition ENDP_STAT_ERROR : Z := 2.

Section SubParsers.
Context {M : Type} `{Container M} `{!MMapFile M} {O : Type} `{Sink O} `{!Source O}.

Definition firstboundary_parse (p : SubParser M FirstBoundary) : outcome (SubParser M FirstBoundary * ParseResult) :=
  Ret (p, GOTO_NEXT_SUBPARSER).
#[export] Instance firstboundary_sub : SubParserImpl M FirstBoundary := {|
  parse := firstboundary_parse;
  malloc_block n := replicate (Z.to_nat n) 0 |}.

Definition fb_setBoundary (value : bytes) (p : SubParser M FirstBoundary) : SubParser M FirstBoundary :=
  let p := setParseDelimiter (bs "--" ++ value ++ CRLF) p in
  let p := setParseDataTargetSize (wrap (zlen value + 512)) p in
  sp_set_sub (mkFirstBoundary value) p.

Definition default_boundary : bytes := replicate 51 88.
Definition firstboundary_new : SubParser M FirstBoundary :=
  fb_setBoundary default_boundary (setParseStrategy DELIMITER (sp_new (mkFirstBoundary []))).

Definition endpboundary_parse (p : SubParser M EndPBoundary) : outcome (SubParser M EndPBoundary * ParseResult) :=
  if bool_decide (m_delimiterFound p = bs "--" ++ CRLF) then
    Ret (sp_set_sub (mkEndPBoundary ENDP_STAT_END) p, GOTO_NEXT_SUBPARSER)
  else if bool_decide (m_delimiterFound p = CRLF) then
    Ret (sp_set_sub (mkEndPBoundary ENDP_STAT_CONTINUE) p, GOTO_NEXT_SUBPARSER)
  else Ret (sp_set_sub (mkEndPBoundary ENDP_STAT_ERROR) p, PR_ERROR).
#[export] Instance endpboundary_sub : SubParserImpl M EndPBoundary := {|
  parse := endpboundary_parse;
  malloc_block n := replicate (Z.to_nat n) 0 |}.

Definition ep_reset (p : SubParser M EndPBoundary) : SubParser M EndPBoundary :=
  let p := sp_set_sub (mkEndPBoundary ENDP_STAT_UNINITIALIZED) p in
  let p := setParseMultiDelimiter [bs "--" ++ CRLF; CRLF] p in
  sp_clear (setParseDataTargetSize 16 p).
Definition endpboundary_new : SubParser M EndPBoundary :=
  ep_reset (setParseStrategy MULTIDELIMITER (sp_new (mkEndPBoundary 0))).

Definition partcontent_parse (p : SubParser M (PartContent O)) : outcome (SubParser M (PartContent O) * ParseResult) :=
  let c := sp_sub p in
  '(o, _) ← appendTo (m_contentContainer c) SIZE_MAX 0 (getParsedBuffer p);
  let p := sp_set_sub (mkPartContent o (m_fsTmpFolder c) (pc_boundary c) (m_maxContentSize c)
    (m_maxContentSizeUntilGoingToFS c)) p in
  if bool_decide (m_delimiterFound p <> []) then Ret (p, GOTO_NEXT_SUBPARSER) else Ret (p, GET_MORE_DATA).
#[export] Instance partcontent_sub : SubParserImpl M (PartContent O) := {|
  parse := partcontent_parse;
  malloc_block n := replicate (Z.to_nat n) 0 |}.

Definition replaceContentContainer (o : O) (p : SubParser M (PartContent O)) : SubParser M (PartContent O) :=
  let c := sp_sub p in
  sp_set_sub (mkPartContent o (m_fsTmpFolder c) (pc_boundary c) (m_maxContentSize c) (m_maxContentSizeUntilGoingToFS c)) p.
Definition setFsTmpFolder (v : bytes) (p : SubParser M (PartContent O)) : SubParser M (PartContent O) :=
  let c := sp_sub p in
  sp_set_sub (mkPartContent (m_contentContainer c) v (pc_boundary c) (m_maxContentSize c) (m_maxContentSizeUntilGoingToFS c)) p.
Definition setMaxContentSizeUntilGoingToFS (v : Z) (p : SubParser M (PartContent O)) : SubParser M (PartContent O) :=
  let c := sp_sub p in
  sp_set_sub (mkPartContent (m_contentContainer c) (m_fsTmpFolder c) (pc_boundary c) (m_maxContentSize c) v) p.
Definition pc_target (c : PartContent O) : Z := wrap (m_maxContentSize c + zlen (pc_boundary c) + 4).
Definition setMaxContentSize (v : Z) (p : SubParser M (PartContent O)) : SubParser M (PartContent O) :=
  let c := sp_sub p in
  let c := mkPartContent (m_contentContainer c) (m_fsTmpFolder c) (pc_boundary c) v (m_maxContentSizeUntilGoingToFS c) in
  setParseDataTargetSize (pc_target c) (sp_set_sub c p).
Definition pc_setBoundary (v : bytes) (p : SubParser M (PartContent O)) : SubParser M (PartContent O) :=
  let c := sp_sub p in
  let c := mkPartContent (m_contentContainer c) (m_fsTmpFolder c) v (m_maxContentSize c) (m_maxContentSizeUntilGoingToFS c) in
  setParseDataTargetSize (pc_target c) (setParseDelimiter (CRLF ++ bs "--" ++ v) (sp_set_sub c p)).

Definition partcontent_new (o : O) : SubParser M (PartContent O) :=
  pc_setBoundary default_boundary
    (setParseStrategy DIRECT_DELIMITER (sp_new (mkPartContent o (bs "/tmp") [] 0 0))).

Definition partcontent_streamToUpstream {S} `{Sink S} (c : PartContent O) (up : S) : outcome (S * bool) :=
  '(up, ok) ← streamTo (m_contentContainer c) up;
  if negb ok then Ret (up, false)
  else
    '(up, _) ← writeString (CRLF ++ bs "--" ++ pc_boundary c) up;
    Ret (up, succeed (sink_status up)).
End SubParsers.

(** ** A part *)
Record PartMessage (M O : Type) := mkPart {
  p_content : SubParser M (PartContent O);
  p_header : SubParser M MIME_Header }.
Arguments mkPart {_ _} _ _.
Arguments p_content {_ _} _.
Arguments p_header {_ _} _.

(** ** The message *)
Inductive MIMEParsingStatus := FIRST_BOUNDARY | ENDPOINT | HEADERS | CONTENT.

(** What [m_currentSubParser] points to: a member of the message, or the header
    or the content of a part. *)
Inductive CurrentSub := CUR_FIRST | CUR_END | CUR_HEADER (i : nat) | CUR_CONTENT (i : nat).

Record MIME_Message (M O : Type) := mkMessage {
  mm_store : list (PartMessage M O);
  m_allParts : list nat;
  m_partsByName : list (bytes * nat);
  m_currentPart : option nat;
  m_currentParsingStatus : MIMEParsingStatus;
  m_currentSubParser : option CurrentSub;
  m_subFirstBoundary : SubParser M FirstBoundary;
  m_subEndPBoundary : SubParser M EndPBoundary;
  m_multiPartType : bytes;
  m_multiPartBoundary : bytes;
  m_maxHeaderSubOptionsCount : Z;
  m_maxHeaderSubOptionsSize : Z;
  m_maxHeaderOptionsCount : Z;
  m_maxHeaderOptionSize : Z;
  mm_maxVarContentSize : Z;
  mm_maxVarsCount : Z }.
Arguments mkMessage {_ _} _ _ _ _ _ _ _ _ _ _ _ _ _ _ _ _.
Arguments mm_store {_ _} _.
Arguments m_allParts {_ _} _.
Arguments m_partsByName {_ _} _.
Arguments m_currentPart {_ _} _.
Arguments m_currentParsingStatus {_ _} _.
Arguments m_currentSubParser {_ _} _.
Arguments m_subFirstBoundary {_ _} _.
Arguments m_subEndPBoundary {_ _} _.
Arguments m_multiPartType {_ _} _.
Arguments m_multiPartBoundary {_ _} _.
Arguments m_maxHeaderSubOptionsCount {_ _} _.
Arguments m_maxHeaderSubOptionsSize {_ _} _.
Arguments m_maxHeaderOptionsCount {_ _} _.
Arguments m_maxHeaderOptionSize {_ _} _.
Arguments mm_maxVarContentSize {_ _} _.
Arguments mm_maxVarsCount {_ _} _.

(** The two callbacks: they get the part, which they may change. *)
Class MIMECallbacks (M O : Type) := {
  m_onHeaderReady : bytes -> PartMessage M O -> PartMessage M O;
  m_onContentReady : bytes -> PartMessage M O -> PartMessage M O }.

Section Message.
Context {M : Type} `{Container M} `{!MMapFile M} {O : Type} `{Sink O} `{!Source O}.
Context `{!PartObjects M O} `{!MIMECallbacks M O} `{RandomBytes}.
Notation Part := (PartMessage M O).
Notation Msg := (MIME_Message M O).
Implicit Types m : Msg.

Definition part_new : Part := mkPart (partcontent_new new_container) header_new.

Definition mm_set_store (v : list Part) m : Msg :=
  mkMessage v (m_allParts m) (m_partsByName m) (m_currentPart m) (m_currentParsingStatus m) (m_currentSubParser
    m) (m_subFirstBoundary m) (m_subEndPBoundary m) (m_multiPartType m) (m_multiPartBoundary m)
    (m_maxHeaderSubOptionsCount m) (m_maxHeaderSubOptionsSize m) (m_maxHeaderOptionsCount m)
    (m_maxHeaderOptionSize m) (mm_maxVarContentSize m) (mm_maxVarsCount m).
Definition mm_set_parts (l : list nat) (names : list (bytes * nat)) m : Msg :=
  mkMessage (mm_store m) l names (m_currentPart m) (m_currentParsingStatus m) (m_currentSubParser m)
    (m_subFirstBoundary m) (m_subEndPBoundary m) (m_multiPartType m) (m_multiPartBoundary m)
    (m_maxHeaderSubOptionsCount m) (m_maxHeaderSubOptionsSize m) (m_maxHeaderOptionsCount m)
    (m_maxHeaderOptionSize m) (mm_maxVarContentSize m) (mm_maxVarsCount m).
Definition mm_set_currentPart (v : option nat) m : Msg :=
  mkMessage (mm_store m) (m_allParts m) (m_partsByName m) v (m_currentParsingStatus m) (m_currentSubParser m)
    (m_subFirstBoundary m) (m_subEndPBoundary m) (m_multiPartType m) (m_multiPartBoundary m)
    (m_maxHeaderSubOptionsCount m) (m_maxHeaderSubOptionsSize m) (m_maxHeaderOptionsCount m)
    (m_maxHeaderOptionSize m) (mm_maxVarContentSize m) (mm_maxVarsCount m).
Definition mm_set_cur (s : MIMEParsingStatus) (v : option CurrentSub) m : Msg :=
  mkMessage (mm_store m) (m_allParts m) (m_partsByName m) (m_currentPart m) s v (m_subFirstBoundary m)
    (m_subEndPBoundary m) (m_multiPartType m) (m_multiPartBoundary m) (m_maxHeaderSubOptionsCount m)
    (m_maxHeaderSubOptionsSize m) (m_maxHeaderOptionsCount m) (m_maxHeaderOptionSize m) (mm_maxVarContentSize m)
    (mm_maxVarsCount m).
Definition mm_set_first (v : SubParser M FirstBoundary) m : Msg :=
  mkMessage (mm_store m) (m_allParts m) (m_partsByName m) (m_currentPart m) (m_currentParsingStatus m)
    (m_currentSubParser m) v (m_subEndPBoundary m) (m_multiPartType m) (m_multiPartBoundary m)
    (m_maxHeaderSubOptionsCount m) (m_maxHeaderSubOptionsSize m) (m_maxHeaderOptionsCount m)
    (m_maxHeaderOptionSize m) (mm_maxVarContentSize m) (mm_maxVarsCount m).
Definition mm_set_end (v : SubParser M EndPBoundary) m : Msg :=
  mkMessage (mm_store m) (m_allParts m) (m_partsByName m) (m_currentPart m) (m_currentParsingStatus m)
    (m_currentSubParser m) (m_subFirstBoundary m) v (m_multiPartType m) (m_multiPartBoundary m)
    (m_maxHeaderSubOptionsCount m) (m_maxHeaderSubOptionsSize m) (m_maxHeaderOptionsCount m)
    (m_maxHeaderOptionSize m) (mm_maxVarContentSize m) (mm_maxVarsCount m).
Definition setMultiPartType (v : bytes) m : Msg :=
  mkMessage (mm_store m) (m_allParts m) (m_partsByName m) (m_currentPart m) (m_currentParsingStatus m)
    (m_currentSubParser m) (m_subFirstBoundary m) (m_subEndPBoundary m) v (m_multiPartBoundary m)
    (m_maxHeaderSubOptionsCount m) (m_maxHeaderSubOptionsSize m) (m_maxHeaderOptionsCount m)
    (m_maxHeaderOptionSize m) (mm_maxVarContentSize m) (mm_maxVarsCount m).
Definition mm_set_boundary (v : bytes) m : Msg :=
  mkMessage (mm_store m) (m_allParts m) (m_partsByName m) (m_currentPart m) (m_currentParsingStatus m)
    (m_currentSubParser m) (m_subFirstBoundary m) (m_subEndPBoundary m) (m_multiPartType m) v
    (m_maxHeaderSubOptionsCount m) (m_maxHeaderSubOptionsSize m) (m_maxHeaderOptionsCount m)
    (m_maxHeaderOptionSize m) (mm_maxVarContentSize m) (mm_maxVarsCount m).
Definition mm_set_limits (a b c d : Z) m : Msg :=
  mkMessage (mm_store m) (m_allParts m) (m_partsByName m) (m_currentPart m) (m_currentParsingStatus m)
    (m_currentSubParser m) (m_subFirstBoundary m) (m_subEndPBoundary m) (m_multiPartType m) (m_multiPartBoundary
    m) a b c d (mm_maxVarContentSize m) (mm_maxVarsCount m).
Definition mm_set_vars (size count : Z) m : Msg :=
  mkMessage (mm_store m) (m_allParts m) (m_partsByName m) (m_currentPart m) (m_currentParsingStatus m)
    (m_currentSubParser m) (m_subFirstBoundary m) (m_subEndPBoundary m) (m_multiPartType m) (m_multiPartBoundary
    m) (m_maxHeaderSubOptionsCount m) (m_maxHeaderSubOptionsSize m) (m_maxHeaderOptionsCount m)
    (m_maxHeaderOptionSize m) size count.

Definition message_part (i : nat) m : Part := nth i (mm_store m) part_new.
Definition set_part (i : nat) (p : Part) m : Msg := mm_set_store (<[i := p]> (mm_store m)) m.

(** What is done with [m_currentPart->getContent()] and [getHeader()]. *)
Definition on_current {A} (f : Part -> outcome (Part * A)) m : outcome (Msg * A) :=
  match m_currentPart m with
  | Some i => '(p, a) ← f (message_part i m); Ret (set_part i p m, a)
  | None => Undef
  end.
Definition on_content (f : SubParser M (PartContent O) -> SubParser M (PartContent O)) (p : Part) : Part :=
  mkPart (f (p_content p)) (p_header p).
Definition on_header (f : SubParser M MIME_Header -> SubParser M MIME_Header) (p : Part) : Part :=
  mkPart (p_content p) (f (p_header p)).
Definition update_current (f : Part -> Part) m : outcome Msg :=
  '(m, _) ← on_current (fun p => Ret (f p, tt)) m; Ret m.

Definition renewed_part m : Part :=
  on_header (fun p =>
    let p := sp_set_sub (setMaxOptions (m_maxHeaderOptionsCount m) (sp_sub p)) p in
    let p := setMaxOptionSize (m_maxHeaderOptionSize m) p in
    let p := sp_set_sub (setMaxSubOptionCount (m_maxHeaderSubOptionsCount m) (sp_sub p)) p in
    sp_set_sub (setMaxSubOptionSize (m_maxHeaderSubOptionsSize m) (sp_sub p)) p)
  (on_content (fun c => setMaxContentSize (mm_maxVarContentSize m) (pc_setBoundary (m_multiPartBoundary m) c)) part_new).

Definition renewCurrentPart m : Msg :=
  mm_set_currentPart (Some (length (mm_store m))) (mm_set_store (mm_store m ++ [renewed_part m]) m).

Definition setMultiPartBoundary (value : bytes) m : Msg :=
  let m := mm_set_boundary value m in
  let m := mm_set_first (fb_setBoundary (m_multiPartBoundary m) (m_subFirstBoundary m)) m in
  match m_currentPart m with
  | Some i => set_part i (on_content (pc_setBoundary (m_multiPartBoundary m)) (message_part i m)) m
  | None => m
  end.

(** The constructor and [create]. *)
Definition message_new : Msg :=
  setMultiPartBoundary (createRandomString 0 64)
    (renewCurrentPart
       (mkMessage [] [] [] None FIRST_BOUNDARY (Some CUR_FIRST) firstboundary_new endpboundary_new
          (bs "multipart/mixed") [] 16 (8 * KB_MULT) 64 (8 * KB_MULT) (16 * MB_MULT) 512)).
Definition message_create : Parser Msg := pr_set_initialized true (pr_new message_new).

Definition message_clear m : Msg := mm_set_parts [] [] (mm_set_currentPart None m).

(** The limits; every setter changes the current part too. *)
Definition setMaxVarContentSize_mime (v : Z) m : outcome Msg :=
  update_current (on_content (setMaxContentSize v)) (mm_set_vars v (mm_maxVarsCount m) m).
Definition setMaxVarsCount_mime (v : Z) m : Msg := mm_set_vars (mm_maxVarContentSize m) v m.
Definition setMaxHeaderOptionSize (v : Z) m : outcome Msg :=
  update_current (on_header (setMaxOptionSize v))
    (mm_set_limits (m_maxHeaderSubOptionsCount m) (m_maxHeaderSubOptionsSize m) (m_maxHeaderOptionsCount m) v m).
Definition setMaxHeaderOptionsCount (v : Z) m : outcome Msg :=
  update_current (on_header (fun p => sp_set_sub (setMaxOptions v (sp_sub p)) p))
    (mm_set_limits (m_maxHeaderSubOptionsCount m) (m_maxHeaderSubOptionsSize m) v (m_maxHeaderOptionSize m) m).
Definition setMaxHeaderSubOptionsSize (v : Z) m : outcome Msg :=
  update_current (on_header (fun p => sp_set_sub (setMaxSubOptionSize v (sp_sub p)) p))
    (mm_set_limits (m_maxHeaderSubOptionsCount m) v (m_maxHeaderOptionsCount m) (m_maxHeaderOptionSize m) m).
Definition setMaxHeaderSubOptionsCount (v : Z) m : outcome Msg :=
  update_current (on_header (fun p => sp_set_sub (setMaxSubOptionCount v (sp_sub p)) p))
    (mm_set_limits v (m_maxHeaderSubOptionsSize m) (m_maxHeaderOptionsCount m) (m_maxHeaderOptionSize m) m).

(** The name of a part. *)
Definition getMultiPartMessageName (p : Part) : bytes :=
  match getOptionByName (bs "content-disposition") (sp_sub (p_header p)) with
  | Some opt => getSubVar (bs "name") opt
  | None => []
  end.

Definition addMultiPartMessage (part : nat) m : Msg * bool :=
  if zlen (m_allParts m) >=? mm_maxVarsCount m then (m, false)
  else
    let m := mm_set_parts (m_allParts m ++ [part]) (m_partsByName m) m in
    let varName := getMultiPartMessageName (message_part part m) in
    if bool_decide (varName <> []) then
      (mm_set_parts (m_allParts m) (mm_insert (to_upper_copy varName) part (m_partsByName m)) m, true)
    else (m, false).

(** ** Reading *)
Definition mime_changeToNextParser m : outcome (Msg * bool) :=
  match m_currentParsingStatus m with
  | FIRST_BOUNDARY =>
      match m_currentPart m with
      | Some i => Ret (mm_set_cur HEADERS (Some (CUR_HEADER i)) m, true)
      | None => Undef
      end
  | ENDPOINT =>
      if ep_status (sp_sub (m_subEndPBoundary m)) =? ENDP_STAT_CONTINUE then
        match m_currentPart m with
        | Some i => Ret (mm_set_cur HEADERS (Some (CUR_HEADER i)) m, true)
        | None => Undef
        end
      else Ret (mm_set_cur ENDPOINT None m, true)
  | HEADERS =>
      match m_currentPart m with
      | Some i =>
          let p := message_part i m in
          let m := set_part i (m_onHeaderReady (getMultiPartMessageName p) p) m in
          Ret (mm_set_cur CONTENT (Some (CUR_CONTENT i)) m, true)
      | None => Undef
      end
  | CONTENT =>
      match m_currentPart m with
      | Some i =>
          let p := message_part i m in
          let m := set_part i (m_onContentReady (getMultiPartMessageName p) p) m in
          let '(m, r) := addMultiPartMessage i m in
          let m := renewCurrentPart m in
          if negb r then Ret (mm_set_cur CONTENT None m, r)
          else Ret (mm_set_cur ENDPOINT (Some CUR_END) (mm_set_end (ep_reset (m_subEndPBoundary m)) m), r)
      | None => Undef
      end
  end.

#[export] Instance mime_protocol : ParserImpl Msg := {|
  currentSubParser m := has_value (m_currentSubParser m);
  cur_setParseResult r m :=
    match m_currentSubParser m with
    | Some CUR_FIRST => mm_set_first (setParseResult r (m_subFirstBoundary m)) m
    | Some CUR_END => mm_set_end (setParseResult r (m_subEndPBoundary m)) m
    | Some (CUR_HEADER i) => set_part i (on_header (setParseResult r) (message_part i m)) m
    | Some (CUR_CONTENT i) => set_part i (on_content (setParseResult r) (message_part i m)) m
    | None => m
    end;
  cur_writeIntoSubParser buf m :=
    match m_currentSubParser m with
    | Some CUR_FIRST => '(p, r) ← writeIntoSubParser buf (m_subFirstBoundary m); Ret (mm_set_first p m, r)
    | Some CUR_END => '(p, r) ← writeIntoSubParser buf (m_subEndPBoundary m); Ret (mm_set_end p m, r)
    | Some (CUR_HEADER i) =>
        '(p, r) ← writeIntoSubParser buf (p_header (message_part i m));
        Ret (set_part i (on_header (fun _ => p) (message_part i m)) m, r)
    | Some (CUR_CONTENT i) =>
        '(p, r) ← writeIntoSubParser buf (p_content (message_part i m));
        Ret (set_part i (on_content (fun _ => p) (message_part i m)) m, r)
    | None => Ret (m, None)
    end;
  cur_getParseStatus m :=
    match m_currentSubParser m with
    | Some CUR_FIRST => m_parseStatus (m_subFirstBoundary m)
    | Some CUR_END => m_parseStatus (m_subEndPBoundary m)
    | Some (CUR_HEADER i) => m_parseStatus (p_header (message_part i m))
    | Some (CUR_CONTENT i) => m_parseStatus (p_content (message_part i m))
    | None => PR_ERROR
    end;
  changeToNextParser := mime_changeToNextParser;
  initProtocol m := Ret (m, true);
  endProtocol m := Ret m |}.

(** ** The variables *)
Definition mime_varCount (varName : bytes) m : Z := wrapw 32 (zlen (mm_equal_range (to_upper_copy varName) (m_partsByName m))).
Definition part_container (i : nat) m : O := m_contentContainer (sp_sub (p_content (message_part i m))).
Definition mime_getValues (varName : bytes) m : list O :=
  map (fun i => part_container i m) (mm_equal_range (to_upper_copy varName) (m_partsByName m)).
Definition mime_getValue (varName : bytes) m : option O := head (mime_getValues varName m).
Definition mime_getKeysList (m : Msg) : list bytes := remove_dups (map fst (m_partsByName m)).
Definition mime_isEmpty m : bool := match m_partsByName m with [] => true | _ => false end.
Definition getMultiPartMessagesByName (varName : bytes) m : list Part :=
  map (fun i => message_part i m) (mm_equal_range (to_upper_copy varName) (m_partsByName m)).
Definition getFirstMessageByName (varName : bytes) m : option Part :=
  option_map (fun i => message_part i m) (mm_find (to_upper_copy varName) (m_partsByName m)).

(** [m_currentPart->getHeader()->add(n, v)]. *)
Definition current_add (n v : bytes) m : outcome (Msg * bool) :=
  on_current (fun p =>
    '(h, ok) ← header_add n v (sp_sub (p_header p));
    Ret (on_header (sp_set_sub h) p, ok)) m.

Definition addStreamableObjectContainer (varName : bytes) (obj : O) m : outcome (Msg * bool) :=
  '(m, ok) ← current_add (bs "Content-Disposition") (bs "form-data") m;
  '(m, ok) ← (if (ok : bool) then current_add (bs "name") varName m else Ret (m, false) : outcome (Msg * bool));
  if (ok : bool) then
    m ← update_current (on_content (replaceContentContainer obj)) m;
    match m_currentPart m with
    | Some i =>
        let '(m, r) := addMultiPartMessage i m in
        Ret (renewCurrentPart m, r)
    | None => Undef
    end
  else Ret (m, false).

Definition addStringVar (key value : bytes) m : outcome (Msg * bool) :=
  '(m, ok) ← current_add (bs "Content-Disposition") (bs "form-data") m;
  '(m, ok) ← (if (ok : bool) then current_add (bs "name") key m else Ret (m, false) : outcome (Msg * bool));
  if (ok : bool) then
    '(contentBuffer, _) ← Container.append value (bc_new (M := M));
    m ← update_current (on_content (replaceContentContainer (of_chunks contentBuffer))) m;
    match m_currentPart m with
    | Some i =>
        let '(m, r) := addMultiPartMessage i m in
        Ret (renewCurrentPart m, r)
    | None => Undef
    end
  else Ret (m, false).

Definition mime_addVar (varName : bytes) (data : B_Chunks M) m : outcome (Msg * bool) :=
  addStreamableObjectContainer varName (of_chunks data) m.

Definition addReferecedFileVar (varName filePath : bytes) m : outcome (Msg * bool) :=
  match reference_file filePath with
  | Some fContainer => addStreamableObjectContainer varName fContainer m
  | None => Ret (m, false)
  end.

(** ** Sending *)
Section Send.
Context {S : Type} `{Sink S}.

(** [MIME_PartMessage::streamToSubParsers]. *)
Definition streamToSubParsers (p : Part) (up : S) : outcome (S * bool) :=
  '(up, ok) ← header_streamToUpstream (sp_sub (p_header p)) up;
  if (ok : bool) then partcontent_streamToUpstream (sp_sub (p_content p)) up else Ret (up, false).

Fixpoint stream_parts (boundary : bytes) (parts : list Part) (out : S) : outcome (S * bool) :=
  match parts with
  | [] => Ret (out, true)
  | p :: parts =>
      '(out, _) ← writeString CRLF out;
      if negb (succeed (sink_status out)) then Ret (out, false)
      else
        '(out, ok) ← streamToSubParsers p out;
        if negb ok then Ret (out, false)
        else
          '(out, _) ← writeString (bs "--" ++ boundary) out;
          if negb (succeed (sink_status out)) then Ret (out, false)
          else stream_parts boundary parts out
  end.

Definition mime_streamTo m (out : S) : outcome (S * bool) :=
  '(out, _) ← writeString (bs "--" ++ m_multiPartBoundary m) out;
  if negb (succeed (sink_status out)) then Ret (out, false)
  else
    '(out, ok) ← stream_parts (m_multiPartBoundary m) (map (fun i => message_part i m) (m_allParts m)) out;
    if negb ok then Ret (out, false)
    else
      '(out, _) ← writeString (bs "--" ++ CRLF) out;
      Ret (out, succeed (sink_status out)).
End Send.
End Message.
