(* ===== verification/MimeTheory.v ===== *)
(** * What the MIME messages promise

    The pointers between the message, its parts and their names stay right under
    everything that is read or added; the variables a client adds are refused;
    what is sent is not read back. *)

From S2P Require Import Prelude SafeInt Mem Streamable Container ContainerTheory BMem BChunks ChunkBuffer BRef.
From S2P Require Import SubParser Parser CLib HttpContent MimeHeader HeaderTheory Mime.
From Stdlib Require Import ZArith Lia Sorting.Sorted.

Section Invariant.
Context {M : Type} `{Container M} `{!MMapFile M} {O : Type} `{Sink O} `{!Source O}.
Context `{!PartObjects M O} `{!MIMECallbacks M O} `{RandomBytes}.
Implicit Types m : MIME_Message M O.

(** ** The invariant *)

(** An entry of the map: a part of the list, under its name in upper case. *)
Definition entry_ok m (e : bytes * nat) : Prop :=
  e.2 ∈ m_allParts m /\ getMultiPartMessageName (message_part e.2 m) <> [] /\
  e.1 = to_upper_copy (getMultiPartMessageName (message_part e.2 m)).

(** What the current sub-parser may be: the part that is read is the current
    one. *)
Definition current_ok m : Prop :=
  match m_currentSubParser m with
  | Some CUR_FIRST => m_currentParsingStatus m = FIRST_BOUNDARY
  | Some CUR_END => m_currentParsingStatus m = ENDPOINT
  | Some (CUR_HEADER i) => m_currentParsingStatus m = HEADERS /\ m_currentPart m = Some i
  | Some (CUR_CONTENT i) => m_currentParsingStatus m = CONTENT /\ m_currentPart m = Some i
  | None => True
  end.

Record message_wf m : Prop := {
  mw_refs : Forall (fun i => Nat.lt i (length (mm_store m))) (m_allParts m);
  mw_nodup : NoDup (m_allParts m);
  mw_count : zlen (m_allParts m) <= mm_maxVarsCount m;
  mw_entries : Forall (entry_ok m) (m_partsByName m);
  mw_sorted : StronglySorted mm_le (m_partsByName m);
  mw_distinct : NoDup (map snd (m_partsByName m));
  mw_part : exists i, m_currentPart m = Some i /\ Nat.lt i (length (mm_store m)) /\ i ∉ m_allParts m;
  mw_current : current_ok m }.

(** A change of the current part, of the other members that the invariant does
    not look at, and of the current sub-parser. *)
Lemma message_part_set i j (p : PartMessage M O) m :
  message_part j (set_part i p m) = if decide (i = j /\ (i < length (mm_store m))%nat) then p else message_part j m.
Proof.
  unfold message_part, set_part. cbn [mm_set_store mm_store]. destruct (decide _) as [[-> Hi]|Hn].
  - apply nth_lookup_Some. by apply list_lookup_insert_eq.
  - rewrite !nth_lookup. destruct (decide (i = j)) as [->|Hne]; [|by rewrite list_lookup_insert_ne].
    by rewrite list_insert_ge by lia.
Qed.

Lemma part_other i j (p : PartMessage M O) m : i <> j -> message_part j (set_part i p m) = message_part j m.
Proof. intros Hne. rewrite message_part_set, decide_False; [done|]. by intros [? _]. Qed.

Lemma entry_other i p m e : i ∉ m_allParts m -> entry_ok m e -> entry_ok (set_part i p m) e.
Proof.
  intros Hi (He & Hn & Hk). unfold entry_ok. rewrite part_other by (intros ->; done). done.
Qed.

Lemma set_part_wf i p m : m_currentPart m = Some i -> message_wf m -> message_wf (set_part i p m).
Proof.
  intros Ei [Hr Hd Hc He Hs Hn (j & Ej & Hj & Hout) Hcur]. constructor; try done.
  - cbn [set_part mm_set_store mm_store m_allParts]. by rewrite length_insert.
  - eapply Forall_impl; [exact He|]. intros e. apply entry_other. congruence.
  - exists j. cbn [set_part mm_set_store mm_store m_allParts m_currentPart]. by rewrite length_insert.
Qed.

Lemma set_first_wf p m : message_wf m -> message_wf (mm_set_first p m).
Proof. intros Hwf. by destruct Hwf; constructor. Qed.
Lemma set_end_wf p m : message_wf m -> message_wf (mm_set_end p m).
Proof. intros Hwf. by destruct Hwf; constructor. Qed.

Lemma set_cur_wf s c m :
  message_wf m -> current_ok (mm_set_cur s c m) -> message_wf (mm_set_cur s c m).
Proof. intros Hwf Hc. by destruct Hwf; constructor. Qed.

Lemma set_cur_again s c s' c' m :
  message_wf (mm_set_cur s' c' m) -> current_ok (mm_set_cur s c m) -> message_wf (mm_set_cur s c m).
Proof. intros Hwf Hc. by destruct Hwf; constructor. Qed.

Lemma renew_set_cur s c m : renewCurrentPart (mm_set_cur s c m) = mm_set_cur s c (renewCurrentPart m).
Proof. by destruct m. Qed.

(** A new current part, and a list of parts and names of the old ones. *)
Lemma renew_wf m st l names :
  Forall (fun i => Nat.lt i (length (mm_store m))) l -> NoDup l -> zlen l <= mm_maxVarsCount m ->
  Forall (entry_ok (mm_set_parts l names m)) names -> StronglySorted mm_le names -> NoDup (map snd names) ->
  message_wf (renewCurrentPart (mm_set_cur st None (mm_set_parts l names m))).
Proof.
  intros Hl Hnd Hc He Hs Hd. rewrite Forall_forall in Hl.
  constructor; cbn [renewCurrentPart mm_set_currentPart mm_set_store mm_set_cur mm_set_parts
    mm_store m_allParts m_partsByName m_currentPart m_currentSubParser mm_maxVarsCount]; try done.
  - apply Forall_forall. intros k Hk%Hl. rewrite length_app. cbn [length]. unfold Nat.lt in *. lia.
  - eapply Forall_impl; [exact He|]. intros e (Hin & Hnm & Hk). unfold entry_ok, message_part in *.
    cbn [renewCurrentPart mm_set_currentPart mm_set_store mm_set_cur mm_set_parts mm_store m_allParts] in *.
    by rewrite app_nth1 by (by apply Hl).
  - eexists. split; [reflexivity|]. rewrite length_app. cbn [length]. split; [unfold Nat.lt; lia|].
    intros Hin%Hl. unfold Nat.lt in Hin. lia.
Qed.

(** Adding the current part to the list, under its name if it has one. *)
Lemma part_added st i m m' r :
  m_currentPart m = Some i -> message_wf m -> addMultiPartMessage i m = (m', r) ->
  message_wf (mm_set_cur st None (renewCurrentPart m')).
Proof.
  rewrite <- renew_set_cur.
  intros Ei [Hr Hd Hc He Hs Hn (j & Ej & Hj & Hout) _]. rewrite Ei in Ej. injection Ej as <-.
  unfold addMultiPartMessage. rewrite Forall_forall in He.
  destruct (Z.geb_spec (zlen (m_allParts m)) (mm_maxVarsCount m)) as [Hfull|Hroom].
  { intros [= <- _]. assert (mm_set_parts (m_allParts m) (m_partsByName m) m = m) as E by (by destruct m).
    rewrite <- E. apply renew_wf; try done. rewrite E. by apply Forall_forall. }
  assert (forall names, Forall (entry_ok (mm_set_parts (m_allParts m ++ [i]) names m)) names ->
    StronglySorted mm_le names -> NoDup (map snd names) ->
    message_wf (renewCurrentPart (mm_set_cur st None (mm_set_parts (m_allParts m ++ [i]) names m)))) as Hwf.
  { intros names He' Hs' Hd'. apply renew_wf; try done.
    - apply Forall_app. by split; [|apply Forall_singleton].
    - apply NoDup_app. split; [done|]. split; [|apply NoDup_singleton]. intros k Hk Hki. by apply list_elem_of_singleton in Hki as ->.
    - rewrite zlen_app, zlen_cons. change (@zlen nat []) with 0. lia. }
  assert (forall e names, e ∈ m_partsByName m -> entry_ok (mm_set_parts (m_allParts m ++ [i]) names m) e) as Hold.
  { intros e names Hin%He. destruct Hin as [Hin Hnm]. split; [|exact Hnm]. apply elem_of_app. by left. }
  change (message_part i (mm_set_parts (m_allParts m ++ [i]) (m_partsByName m) m)) with (message_part i m).
  case_bool_decide as Hname; intros [= <- _]; apply Hwf; try done.
  - apply Forall_forall. intros e [->|Hin]%mm_insert_elem; [|by apply Hold].
    split; [|done]. apply elem_of_app. right. by apply list_elem_of_singleton.
  - by apply mm_insert_sorted.
  - apply mm_insert_nodup; [|done]. intros (e & -> & Hin)%list_elem_of_fmap. by destruct (He e Hin) as [? _].
  - apply Forall_forall. intros e Hin. by apply Hold.
Qed.

(** ** Reading keeps it *)
Lemma change_wf m m' ok :
  message_wf m -> has_value (m_currentSubParser m) = true -> mime_changeToNextParser m = Ret (m', ok) -> message_wf m'.
Proof.
  intros Hwf Hcur. pose proof (mw_current m Hwf) as Hc. destruct (mw_part m Hwf) as (i & Ei & Hi & Hout).
  unfold mime_changeToNextParser. rewrite Ei. destruct (m_currentParsingStatus m) eqn:Es.
  - intros [= <- _]. by apply set_cur_wf.
  - destruct (_ =? _); intros [= <- _]; by apply set_cur_wf.
  - intros [= <- _]. apply set_cur_wf; [by apply set_part_wf|done].
  - match goal with |- context [set_part i ?p m] => set (m1 := set_part i p m) end.
    assert (message_wf m1) as Hwf1 by (by apply set_part_wf).
    destruct (addMultiPartMessage i m1) as [m2 r] eqn:Ea. pose proof (fun st => part_added st i m1 m2 r Ei Hwf1 Ea) as Hadd.
    set (m3 := renewCurrentPart m2) in *. clearbody m3. destruct r; cbn [negb]; intros [= <- _]; [|apply Hadd].
    pose proof (set_end_wf (ep_reset (m_subEndPBoundary m3)) _ (Hadd ENDPOINT)) as Hwf3.
    by apply (set_cur_again _ _ ENDPOINT None).
Qed.

Lemma write_wf buf m m' n :
  message_wf m -> cur_writeIntoSubParser (ParserImpl := mime_protocol) buf m = Ret (m', n) -> message_wf m'.
Proof.
  intros Hwf. pose proof (mw_current m Hwf) as Hc. unfold current_ok in Hc. cbn [cur_writeIntoSubParser mime_protocol].
  destruct (m_currentSubParser m) as [[| |i|i]|]; [| | | |by intros [= <- _]].
  - destruct (writeIntoSubParser _ _) as [[p r]| | |]; [|done..]. intros [= <- _]. by apply set_first_wf.
  - destruct (writeIntoSubParser _ _) as [[p r]| | |]; [|done..]. intros [= <- _]. by apply set_end_wf.
  - destruct (writeIntoSubParser _ _) as [[p r]| | |]; [|done..]. intros [= <- _]. apply set_part_wf; [apply Hc|done].
  - destruct (writeIntoSubParser _ _) as [[p r]| | |]; [|done..]. intros [= <- _]. apply set_part_wf; [apply Hc|done].
Qed.

Lemma set_result_wf res m : message_wf m -> message_wf (cur_setParseResult (ParserImpl := mime_protocol) res m).
Proof.
  intros Hwf. pose proof (mw_current m Hwf) as Hc. unfold current_ok in Hc. cbn [cur_setParseResult mime_protocol].
  destruct (m_currentSubParser m) as [[| |i|i]|]; [by apply set_first_wf|by apply set_end_wf|..|done];
    (apply set_part_wf; [apply Hc|done]).
Qed.

Lemma read_wf buf (p p' : Parser (MIME_Message M O)) r :
  message_wf (pr_impl p) -> sink_write buf p = Ret (p', r) -> message_wf (pr_impl p').
Proof.
  intros Hwf. cbn [sink_write parser_sink]. unfold pr_write.
  assert (forall b, parseData (parse_fuel p) b 0 p = Ret (p', r) -> message_wf (pr_impl p')) as Hd.
  { intros b. eapply (parseData_preserves message_wf); [apply set_result_wf|apply write_wf|apply change_wf| | |done].
    - intros b' x x' n. cbn [cur_writeIntoSubParser mime_protocol currentSubParser].
      destruct (m_currentSubParser x) as [[| |i|i]|] eqn:E; [| | | |done];
        (destruct (writeIntoSubParser _ _) as [[q s]| | |]; [|done..]); intros [= <- _]; cbn; by rewrite E.
    - intros res x. cbn [cur_setParseResult mime_protocol currentSubParser].
      destruct (m_currentSubParser x) as [[| |i|i]|] eqn:E; cbn; by rewrite ?E. }
  destruct (_ =? _); apply Hd.
Qed.

(** ** Adding and configuring keep it *)
Lemma update_current_wf f m m' : message_wf m -> update_current f m = Ret m' -> message_wf m'.
Proof.
  intros Hwf. destruct (mw_part m Hwf) as (i & Ei & _). unfold update_current, on_current. rewrite Ei.
  cbn [mbind outcome_bind]. intros [= <-]. by apply set_part_wf.
Qed.

Lemma current_add_wf n v m m' ok : message_wf m -> current_add n v m = Ret (m', ok) -> message_wf m'.
Proof.
  intros Hwf. destruct (mw_part m Hwf) as (i & Ei & _). unfold current_add, on_current. rewrite Ei.
  destruct (header_add _ _ _) as [[h b]| | |]; [|done..]. cbn [mbind outcome_bind]. intros [= <- _]. by apply set_part_wf.
Qed.

(** No part is being read. *)
Definition idle m : Prop :=
  match m_currentSubParser m with Some (CUR_HEADER _) | Some (CUR_CONTENT _) => False | _ => True end.

Lemma set_part_idle i (p : PartMessage M O) m : idle (set_part i p m) <-> idle m.
Proof. done. Qed.

Lemma update_current_idle f m m' : idle m -> update_current f m = Ret m' -> idle m'.
Proof.
  intros Hi. unfold update_current, on_current. destruct (m_currentPart m); [|done]. cbn [mbind outcome_bind]. by intros [= <-].
Qed.

Lemma current_add_idle n v m m' ok : idle m -> current_add n v m = Ret (m', ok) -> idle m'.
Proof.
  intros Hi. unfold current_add, on_current. destruct (m_currentPart m); [|done].
  destruct (header_add _ _ _) as [[h b]| | |]; [|done..]. cbn [mbind outcome_bind]. by intros [= <- _].
Qed.

Lemma finish_part_wf i m m' r :
  m_currentPart m = Some i -> message_wf m -> idle m -> addMultiPartMessage i m = (m', r) -> message_wf (renewCurrentPart m').
Proof.
  intros Ei Hwf Hidle Ha. pose proof (part_added (m_currentParsingStatus m) i m m' r Ei Hwf Ha) as Hwf'.
  assert (m_currentSubParser m' = m_currentSubParser m /\ m_currentParsingStatus m' = m_currentParsingStatus m) as [Ec Es].
  { unfold addMultiPartMessage in Ha. destruct (_ >=? _); [by injection Ha as <- _|]. by case_bool_decide; injection Ha as <- _. }
  pose proof (mw_current m Hwf) as Hcur. unfold idle in Hidle. unfold current_ok in Hcur.
  assert (mm_set_cur (m_currentParsingStatus m) (m_currentSubParser m) (renewCurrentPart m') = renewCurrentPart m') as E.
  { rewrite <- renew_set_cur, <- Ec, <- Es. by destruct m'. }
  rewrite <- E. eapply set_cur_again; [exact Hwf'|]. unfold current_ok. cbn [mm_set_cur m_currentSubParser m_currentParsingStatus].
  by destruct (m_currentSubParser m) as [[| | |]|].
Qed.

Lemma addObject_wf n o m m' ok :
  message_wf m -> idle m -> addStreamableObjectContainer n o m = Ret (m', ok) -> message_wf m'.
Proof.
  intros Hwf Hi. unfold addStreamableObjectContainer.
  destruct (current_add (bs "Content-Disposition") _ m) as [[m1 b1]| | |] eqn:E1; [|done..]. cbn [mbind outcome_bind].
  pose proof (current_add_wf _ _ _ _ _ Hwf E1) as Hwf1. pose proof (current_add_idle _ _ _ _ _ Hi E1) as Hi1.
  destruct b1; [|by intros [= <- _]].
  destruct (current_add (bs "name") _ m1) as [[m2 b2]| | |] eqn:E2; [|done..]. cbn [mbind outcome_bind].
  pose proof (current_add_wf _ _ _ _ _ Hwf1 E2) as Hwf2. pose proof (current_add_idle _ _ _ _ _ Hi1 E2) as Hi2.
  destruct b2; [|by intros [= <- _]].
  destruct (update_current _ m2) as [m3| | |] eqn:E3; [|done..]. cbn [mbind outcome_bind].
  pose proof (update_current_wf _ _ _ Hwf2 E3) as Hwf3. pose proof (update_current_idle _ _ _ Hi2 E3) as Hi3.
  destruct (m_currentPart m3) as [i|] eqn:Ei; [|done]. destruct (addMultiPartMessage i m3) as [m4 r] eqn:E4.
  intros [= <- _]. by apply (finish_part_wf i m3 m4 r).
Qed.

(** A string is added like any other container. *)
Lemma addStringVar_container key value m m' ok :
  addStringVar key value m = Ret (m', ok) ->
  (ok = false /\ exists m1 b, current_add (bs "Content-Disposition") (bs "form-data") m = Ret (m1, b) /\
     (m' = m1 \/ exists b', current_add (bs "name") key m1 = Ret (m', b'))) \/
  exists o, addStreamableObjectContainer key o m = Ret (m', ok).
Proof.
  unfold addStringVar, addStreamableObjectContainer.
  destruct (current_add (bs "Content-Disposition") _ m) as [[m1 b1]| | |]; [|done..]. cbn [mbind outcome_bind].
  destruct b1; [|intros [= <- <-]; left; split; [done|]; eexists _, _; split; [done|by left]].
  destruct (current_add (bs "name") _ m1) as [[m2 b2]| | |] eqn:E2; [|done..]. cbn [mbind outcome_bind].
  destruct b2; [|intros [= <- <-]; left; split; [done|]; exists m1, true; split; [done|right; by exists false]].
  destruct (Container.append value bc_new) as [[c x]| | |]; [|done..]. cbn [mbind outcome_bind]. intros E. right.
  by exists (of_chunks c).
Qed.

Lemma setMultiPartBoundary_wf v m : message_wf m -> message_wf (setMultiPartBoundary v m).
Proof.
  intros Hwf. unfold setMultiPartBoundary. set (m1 := mm_set_first _ _).
  assert (message_wf m1) as Hwf1 by (apply set_first_wf; destruct Hwf; by constructor). clearbody m1.
  destruct (m_currentPart m1) as [i|] eqn:Ei; [by apply set_part_wf|done].
Qed.

(** What is done with a message; a limit on the parts is not set below their
    number, and parts are added when none is being read. *)
Inductive mime_step : MIME_Message M O -> MIME_Message M O -> Prop :=
  | step_read buf (p p' : Parser (MIME_Message M O)) r :
      sink_write buf p = Ret (p', r) -> mime_step (pr_impl p) (pr_impl p')
  | step_addObject n o m m' ok : idle m -> addStreamableObjectContainer n o m = Ret (m', ok) -> mime_step m m'
  | step_addString n v m m' ok : idle m -> addStringVar n v m = Ret (m', ok) -> mime_step m m'
  | step_addFile n f m m' ok : idle m -> addReferecedFileVar n f m = Ret (m', ok) -> mime_step m m'
  | step_boundary v m : mime_step m (setMultiPartBoundary v m)
  | step_maxVars v m : zlen (m_allParts m) <= v -> mime_step m (setMaxVarsCount_mime v m)
  | step_contentSize v m m' : setMaxVarContentSize_mime v m = Ret m' -> mime_step m m'
  | step_optionSize v m m' : setMaxHeaderOptionSize v m = Ret m' -> mime_step m m'
  | step_optionsCount v m m' : setMaxHeaderOptionsCount v m = Ret m' -> mime_step m m'
  | step_subOptionsSize v m m' : setMaxHeaderSubOptionsSize v m = Ret m' -> mime_step m m'
  | step_subOptionsCount v m m' : setMaxHeaderSubOptionsCount v m = Ret m' -> mime_step m m'.

Lemma limits_wf a b c d m : message_wf m -> message_wf (mm_set_limits a b c d m).
Proof. intros Hwf. by destruct Hwf; constructor. Qed.

Lemma step_wf m m' : mime_step m m' -> message_wf m -> message_wf m'.
Proof.
  intros Hst Hwf. destruct Hst as [buf p p' r Hw|n o m m' ok Hi Ha|n v m m' ok Hi Ha|n f m m' ok Hi Ha|v m|v m Hv|v m m' Ha|
    v m m' Ha|v m m' Ha|v m m' Ha|v m m' Ha].
  - by apply (read_wf buf p p' r).
  - by apply (addObject_wf n o m m' ok).
  - apply addStringVar_container in Ha as [(_ & m1 & b & E1 & Hm')|(o & Ha)]; [|by apply (addObject_wf n o m m' ok)].
    apply current_add_wf in E1; [|done]. destruct Hm' as [->|(b' & E2)]; [done|]. by apply current_add_wf in E2.
  - unfold addReferecedFileVar in Ha. destruct (reference_file f) as [o|]; [|by injection Ha as <- _].
    by apply (addObject_wf n o m m' ok).
  - by apply setMultiPartBoundary_wf.
  - by destruct Hwf; constructor.
  - eapply update_current_wf; [|exact Ha]. by destruct Hwf; constructor.
  - eapply update_current_wf; [|exact Ha]. by apply limits_wf.
  - eapply update_current_wf; [|exact Ha]. by apply limits_wf.
  - eapply update_current_wf; [|exact Ha]. by apply limits_wf.
  - eapply update_current_wf; [|exact Ha]. by apply limits_wf.
Qed.

Lemma message_new_wf : message_wf message_new.
Proof.
  unfold message_new. apply setMultiPartBoundary_wf. constructor; cbn; try constructor; try done.
  exists 0%nat. split; [done|]. split; [unfold Nat.lt; lia|]. apply not_elem_of_nil.
Qed.

Lemma rtc_read buf (q p : Parser (MIME_Message M O)) r :
  sink_write buf q = Ret (p, r) -> rtc mime_step (pr_impl q) (pr_impl p).
Proof. intros E. apply rtc_once. by apply (step_read buf q p r). Qed.

(** ** Properties *)

(** C19. The parts of a message stay well linked, from a new message on, through any
    sequence of writes that are parsed, in any fragments, of parts that are added
    while none is being read ([idle]), of boundaries and limits that are set, where
    the maximum of parts is not set below the number of parts there are (they would
    stay): the names point to parts of the list, each under the name its
    Content-Disposition gives, no part is listed or named twice, there are never
    more than the limit, and the part that is being read is the current one, which
    is not in the list yet. *)
Theorem mime_parts_linked m : rtc mime_step message_new m -> message_wf m.
Proof.
  intros Hr. assert (message_wf (@message_new M _ _ O _ _)) as Hwf by apply message_new_wf.
  induction Hr as [|x y z Hxy _ IH]; [done|]. apply IH. by apply (step_wf x y).
Qed.

(** What the first two options of a part are, as [addVar] adds them. *)
Lemma two_options h n :
  m_headers h = [] -> 2 <= m_maxOptions h ->
  exists h1 h2, header_add (bs "Content-Disposition") (bs "form-data") h = Ret (h1, true) /\
    header_add (bs "name") n h1 = Ret (h2, true) /\
    forall o, getOptionByName (bs "content-disposition") h2 = Some o -> getSubVar (bs "name") o = [].
Proof.
  intros Hh Hmax.
  destruct (header_add_eq (bs "Content-Disposition") (bs "form-data") h) as [[C _]|(_ & o1 & E1 & Hp & En & _)].
  { rewrite Hh in C. change (@zlen (bytes * nat) []) with 0 in C. lia. }
  destruct (header_add_eq (bs "name") n (added o1 h)) as [[C _]|(_ & o2 & E2 & _ & En2 & _)].
  { cbn [added h_set_last h_set_headers h_set_objects h_count_draw m_headers m_maxOptions] in C. rewrite Hh in C. 
    change (zlen (mm_insert _ _ [])) with 1 in C. lia. }
  exists (added o1 h), (added o2 (added o1 h)). split; [done|]. split; [done|]. intros o. unfold getOptionByName, mm_find.
  change (m_headers (added o2 (added o1 h)))
    with (mm_insert (getUpperName o2) (length (h_objects (added o1 h))) (mm_insert (getUpperName o1) (length (h_objects h)) (m_headers h))).
  unfold getUpperName at 1 2. rewrite En, En2, Hh, mm_range_insert_other by done. cbn [mm_insert].
  assert (mm_equal_range (to_upper_copy (bs "content-disposition"))
    [(to_upper_copy (bs "Content-Disposition"), length (h_objects h))] = [length (h_objects h)]) as -> by done.
  cbn [head option_map]. intros [= <-]. rewrite added_object_old, added_object_new.
  - vm_compute in Hp. by injection Hp as <-.
  - unfold Nat.lt. cbn [added h_set_last h_set_headers h_set_objects h_count_draw h_objects]. rewrite length_app. cbn [length]. lia.
Qed.

Lemma set_part_twice i (p q : PartMessage M O) m : set_part i p (set_part i q m) = set_part i p m.
Proof. unfold set_part. cbn [mm_set_store mm_store]. by rewrite list_insert_insert_eq. Qed.

Lemma current_add_eq i n v m h ok :
  m_currentPart m = Some i -> header_add n v (sp_sub (p_header (message_part i m))) = Ret (h, ok) ->
  current_add n v m = Ret (set_part i (on_header (sp_set_sub h) (message_part i m)) m, ok).
Proof. intros Ei Eh. unfold current_add, on_current. by rewrite Ei, Eh. Qed.

Lemma update_current_eq i f m :
  m_currentPart m = Some i -> update_current f m = Ret (set_part i (f (message_part i m)) m).
Proof. intros Ei. unfold update_current, on_current. by rewrite Ei. Qed.

(** A variable that a client adds to a message is always refused: the name
    is put in a header of its own and not in the Content-Disposition, where the
    name of a part is looked for.  The part stays in the list (and is sent), but
    under no name. *)
Theorem mime_addVar_refused m i n o :
  m_currentPart m = Some i -> Nat.lt i (length (mm_store m)) ->
  m_headers (sp_sub (p_header (message_part i m))) = [] -> 2 <= m_maxOptions (sp_sub (p_header (message_part i m))) ->
  exists m', addStreamableObjectContainer n o m = Ret (m', false) /\ m_partsByName m' = m_partsByName m /\
    m_allParts m' = if zlen (m_allParts m) >=? mm_maxVarsCount m then m_allParts m else m_allParts m ++ [i].
Proof.
  intros Ei Hi Hh Hmax. destruct (two_options _ n Hh Hmax) as (h1 & h2 & E1 & E2 & Hname).
  assert (forall p, message_part i (set_part i p m) = p) as Hset by (intros p; by rewrite message_part_set, decide_True).
  unfold addStreamableObjectContainer. rewrite (current_add_eq i _ _ _ h1 true) by done. cbn [mbind outcome_bind].
  rewrite (current_add_eq i _ _ _ h2 true); [|done|by rewrite Hset]. rewrite Hset, set_part_twice. cbn [mbind outcome_bind].
  rewrite (update_current_eq i) by done. rewrite Hset, set_part_twice. cbn [mbind outcome_bind].
  match goal with |- context [set_part i ?p m] => set (p3 := p) end. set (m3 := set_part i p3 m).
  assert (getMultiPartMessageName (message_part i m3) = []) as Hnone.
  { subst m3. rewrite Hset. unfold getMultiPartMessageName. subst p3. cbn [on_content on_header p_header sp_set_sub sp_sub].
    destruct (getOptionByName _ h2) as [opt|] eqn:Eo; [|done]. by apply Hname. }
  change (m_currentPart m3) with (m_currentPart m). rewrite Ei.
  unfold addMultiPartMessage. change (m_allParts m3) with (m_allParts m). change (mm_maxVarsCount m3) with (mm_maxVarsCount m).
  destruct (_ >=? _); [eexists; split; [reflexivity|done]|].
  change (message_part i (mm_set_parts _ _ m3)) with (message_part i m3). rewrite Hnone, bool_decide_eq_false_2 by (by intros []).
  eexists. split; [reflexivity|done].
Qed.
End Invariant.

(** ** Concrete messages *)
Section Witnesses.
#[local] Existing Instance no_files.
#[local] Existing Instance zero_random.

#[local] Instance string_parts : PartObjects B_MEM StreamableString := {|
  new_container := ss_new;
  of_chunks c := {| ss_writeStatus := ws_init; ss_value := bc_contents c |};
  reference_file _ := None |}.
#[local] Instance no_callbacks : MIMECallbacks B_MEM StreamableString := {|
  m_onHeaderReady _ p := p;
  m_onContentReady _ p := p |}.

Definition Message : Type := MIME_Message B_MEM StreamableString.

Definition fresh : Parser Message := message_create.
Definition boundary64 : bytes := m_multiPartBoundary (pr_impl fresh).

Definition form_part (name value : bytes) : bytes :=
  bs "Content-Disposition: form-data; name=" ++ name ++ CRLF ++ CRLF ++ value ++ CRLF ++ bs "--" ++ boundary64.

(** A message of two variables, as a browser sends it. *)
Definition form_text : bytes :=
  bs "--" ++ boundary64 ++ CRLF ++ form_part (bs "a") (bs "one") ++ CRLF ++ form_part (bs "b") (bs "") ++ bs "--" ++ CRLF.

Definition read_form (text : bytes) : outcome (Parser Message * option Z) := sink_write text fresh.

(** What was read, by name. *)
Definition form_vars (m : Message) : list (bytes * list bytes) :=
  map (fun k => (k, map ss_value (mime_getValues k m))) (mime_getKeysList m).

Example form_is_read :
  option_map (fun r => (r.2, form_vars (pr_impl r.1), m_currentSubParser (pr_impl r.1)))
    (match read_form form_text with Ret r => Some r | _ => None end) =
  Some (Some (zlen form_text), [(bs "A", [bs "one"]); (bs "B", [[]])], None).
Proof. vm_compute. reflexivity. Qed.

(** A message is not read back from what it sends: every boundary after a
    part is written twice, by [MIME_Sub_Content::streamToUpstream] and by
    [MIME_Message::streamTo], and the reader, which takes at most 16 bytes after
    a boundary, stops at the second one with the first variable only. *)
Theorem mime_output_unreadable :
  exists p n, read_form form_text = Ret (p, Some n) /\ mime_getKeysList (pr_impl p) = [bs "A"; bs "B"] /\
  exists s, mime_streamTo (pr_impl p) ss_new = Ret (s, true) /\
    ss_value s = bs "--" ++ boundary64 ++ CRLF ++
      form_part (bs "a") (bs "one") ++ bs "--" ++ boundary64 ++ CRLF ++
      form_part (bs "b") [] ++ bs "--" ++ boundary64 ++ bs "--" ++ CRLF /\
  exists p', read_form (ss_value s) = Ret (p', None) /\ mime_getKeysList (pr_impl p') = [bs "A"].
Proof.
  eexists _, _. split; [vm_compute; reflexivity|]. split; [reflexivity|].
  eexists. split; [vm_compute; reflexivity|]. split; [vm_compute; reflexivity|].
  eexists. split; [vm_compute; reflexivity|]. vm_compute. reflexivity.
Qed.

Lemma fresh_impl : pr_impl fresh = message_new.
Proof. unfold fresh, message_create, pr_set_initialized, pr_new. by cbn [pr_impl]. Qed.

Lemma form_step p r : read_form form_text = Ret (p, r) -> rtc mime_step message_new (pr_impl p).
Proof. rewrite <- fresh_impl. apply rtc_read. Qed.

Lemma mime_parts_linked_witness :
  exists p n, read_form form_text = Ret (p, Some n) /\ zlen (m_allParts (pr_impl p)) = 2 /\ message_wf (pr_impl p).
Proof.
  destruct (read_form form_text) as [[p r]| | |] eqn:E.
  - pose proof E as E'. assert (option_map (fun x => (has_value x.2, zlen (m_allParts (pr_impl x.1))))
      (match read_form form_text with Ret x => Some x | _ => None end) = Some (true, 2)) as Ec by (vm_compute; reflexivity).
    rewrite E in Ec. cbn [option_map fst snd] in Ec. destruct r as [n|]; [|discriminate Ec]. injection Ec as Ec.
    exists p, n. split; [reflexivity|]. split; [exact Ec|]. exact (mime_parts_linked (pr_impl p) (form_step p _ E')).
  - vm_compute in E. discriminate E.
  - vm_compute in E. discriminate E.
  - vm_compute in E. discriminate E.
Defined.

Lemma mime_addVar_refused_witness :
  exists m', addStreamableObjectContainer (bs "a") ss_new (message_new (M := B_MEM) (O := StreamableString)) = Ret (m', false) /\
    m_partsByName m' = [] /\ m_allParts m' = [0%nat].
Proof.
  refine (mime_addVar_refused message_new 0 (bs "a") ss_new eq_refl (le_n 1) eq_refl _). vm_compute. discriminate.
Defined.
End Witnesses.
