(* ===== verification/Encoders.v ===== *)
(** * Encoders (Helpers/encoders.cpp)

    URL, hexadecimal, base32 and base64 coding.  Strings are lists of bytes; a
    [char] is converted with [to_char] where its sign matters.  OpenSSL's base64
    BIO and the pseudo-random generator are interfaces ([Base64BIO], [Mt19937]);
    the base64 decoder of the obfuscated form is the library's own and is
    modelled in full.

    The theorems give the round trips, with the exact image where the code does
    not invert its encoder. *)

From S2P Require Import Prelude SafeInt Mem.
From Stdlib Require Import ZArith Lia.

Inductive EncType := STRICT_ENCODING | QUOTEPRINT_ENCODING.

(** ** Hexadecimal digits *)

(** [toHexFrom4bitChar(nibble, position)]; the division is on a signed [char]. *)
Definition toHexFrom4bitChar (b : byte) (position : Z) : byte :=
  let nibble := to_char b in
  let nibble :=
    if position =? 1 then Z.quot nibble 16
    else if position =? 2 then Z.land nibble 15 else nibble in
  if (nibble >=? 0) && (nibble <=? 9) then 48 + nibble
  else if (nibble >=? 10) && (nibble <=? 15) then 65 + nibble - 10
  else 48.

Definition hexToValue (v : byte) : Z :=
  if (v >=? 48) && (v <=? 57) then v - 48
  else if (v >=? 65) && (v <=? 70) then v - 65 + 10
  else if (v >=? 97) && (v <=? 102) then v - 97 + 10
  else 0.

Definition hexPairToByte (b0 b1 : byte) : byte :=
  if negb (isxdigit b0) || negb (isxdigit b1) then 0
  else wrapw 8 (hexToValue b0 * 16 + hexToValue b1).

(** [sprintf("%02X", b)]. *)
Definition hex_digit (n : Z) : byte := if n <? 10 then 48 + n else 55 + n.

Fixpoint toHex (data : bytes) : bytes :=
  match data with
  | [] => []
  | b :: data => hex_digit (b / 16) :: hex_digit (b mod 16) :: toHex data
  end.

(** The writes of [fromHex]: one byte per pair of digits of [hexValue]. *)
Fixpoint fromHex_bytes (n : nat) (hexValue : bytes) : bytes :=
  match n, hexValue with
  | S n, a :: b :: rest => wrapw 8 (hexToValue a * 16 + hexToValue b) :: fromHex_bytes n rest
  | _, _ => []
  end.

(** [fromHex(hexValue, data, maxlen)]: the buffer afterwards; [data] is the
    object the pointer designates. *)
Definition fromHex (hexValue data : bytes) (maxlen : Z) : outcome bytes :=
  let maxlen := if zlen hexValue / 2 <? maxlen then zlen hexValue / 2 else maxlen in
  let written := fromHex_bytes (Z.to_nat maxlen) hexValue in
  if zlen written <=? zlen data then Ret (written ++ zdrop (zlen written) data) else Undef.

(** ** URL coding *)
Definition getIfMustBeURLEncoded (b : byte) (urlEncodingType : EncType) : bool :=
  let c := to_char b in
  match urlEncodingType with
  | QUOTEPRINT_ENCODING =>
      if c =? 34 then true else if (c >=? 32) && (c <=? 126) then false else true
  | STRICT_ENCODING => if isalnum c then false else true
  end.

Fixpoint calcURLEncodingExpandedStringSize (str : bytes) (t : EncType) : Z :=
  match str with
  | [] => 0
  | i :: str => (if getIfMustBeURLEncoded i t then 3 else 1) + calcURLEncodingExpandedStringSize str t
  end.

(** The characters [toURL] assigns, in order. *)
Fixpoint toURL_chars (str : bytes) (t : EncType) : bytes :=
  match str with
  | [] => []
  | i :: str =>
      (if getIfMustBeURLEncoded i t
       then [37; toHexFrom4bitChar i 1; toHexFrom4bitChar i 2] else [i]) ++ toURL_chars str t
  end.

(** They overwrite a string of blanks of the computed size. *)
Definition toURL (str : bytes) (t : EncType) : outcome bytes :=
  match str with
  | [] => Ret []
  | _ =>
      let out := replicate (Z.to_nat (calcURLEncodingExpandedStringSize str t)) 32 in
      let chars := toURL_chars str t in
      if zlen chars <=? zlen out then Ret (chars ++ zdrop (zlen chars) out) else Undef
  end.

Fixpoint fromURL (s : bytes) : bytes :=
  match s with
  | c :: ((a :: b :: rest) as tl) =>
      if (c =? 37) && isxdigit a && isxdigit b
      then wrapw 8 (hexToValue a * 16 + hexToValue b) :: fromURL rest
      else c :: fromURL tl
  | c :: tl => c :: fromURL tl
  | [] => []
  end.

(** ** Hexadecimal codes in a text *)

(** [content.find("\\0x", pos)]: the three characters backslash, 0, x. *)
Definition hexcode_at (l : bytes) : bool :=
  match l with a :: b :: c :: _ => (a =? 92) && (b =? 48) && (c =? 120) | _ => false end.

Fixpoint hexcode_find (l : bytes) : option Z :=
  if hexcode_at l then Some 0
  else match l with [] => None | _ :: l => Z.succ <$> hexcode_find l end.

Fixpoint replaceHexCodes_loop (fuel : nat) (content : bytes) (pos : Z) : outcome bytes :=
  match fuel with
  | O => NoFuel
  | S fuel =>
      match (if pos >? zlen content then None else hexcode_find (zdrop pos content)) with
      | None => Ret content
      | Some d =>
          let pos := pos + d in
          match (if pos + 4 <? zlen content then zdrop (pos + 3) content else []) with
          | a :: b :: rest =>
              if isxdigit a && isxdigit b
              then replaceHexCodes_loop fuel (ztake pos content ++ hexPairToByte a b :: rest) pos
              else replaceHexCodes_loop fuel content (pos + 3)
          | _ => replaceHexCodes_loop fuel content (pos + 3)
          end
      end
  end.

(** Each round shortens the text after the position or moves past three of its
    characters. *)
Definition replaceHexCodes (content : bytes) : outcome bytes :=
  replaceHexCodes_loop (length content + 1) content 0.

(** ** Base32 *)
Definition b32_chars : bytes := bs "ABCDEFGHIJKLMNOPQRSTUVWXYZ234567".

(** The inner loop: [bits] bits of [val], most significant first. *)
Fixpoint b32_bits (bits : nat) (val : Z) (st : Z * Z * bytes) : Z * Z * bytes :=
  match bits with
  | O => st
  | S bits =>
      let '(currentByte, bitsRemaining, out) := st in
      let bit := Z.land (Z.shiftr val (Z.of_nat bits)) 1 in
      let currentByte := Z.lor (Z.shiftl currentByte 1) bit in
      let bitsRemaining := bitsRemaining - 1 in
      b32_bits bits val
        (if bitsRemaining =? 0 then (0, 8, out ++ [of_char currentByte])
         else (currentByte, bitsRemaining, out))
  end.

Fixpoint b32_loop (s : bytes) (st : Z * Z * bytes) : option (Z * Z * bytes) :=
  match s with
  | [] => Some st
  | c :: s =>
      if c =? 61 then Some st
      else
        match first_index (fun x => x =? c) b32_chars with
        | None => None
        | Some val => b32_loop s (b32_bits 5 val st)
        end
  end.

Definition decodeFromBase32 (s : bytes) : bytes :=
  match b32_loop s (0, 8, []) with
  | None => []
  | Some (currentByte, bitsRemaining, out) =>
      if negb (bitsRemaining =? 8) && (bitsRemaining <? 5)
      then out ++ [of_char (Z.shiftl currentByte (bitsRemaining + 3))]
      else out
  end.

(** ** Base64 *)

(** OpenSSL's base64 BIO with [BIO_FLAGS_BASE64_NO_NL]: what a chain over a
    memory BIO delivers after a write and a flush, and what reading at most [n]
    bytes through it returns; [None] when a call reports failure. *)
Class Base64BIO := {
  bio_b64_write : bytes -> option bytes;
  bio_b64_read : bytes -> Z -> option bytes }.

(** [std::mt19937_64] seeded with [seed] behind
    [std::uniform_int_distribution<char>]: the values it draws, in order. *)
Class Mt19937 := dis : Z -> nat -> Z.

Definition to_int (n : Z) : Z := safe_cast_or i32 u64 n 0.

(** [boost::replace_all] of one character by another. *)
Definition replace_char (a b : byte) (s : bytes) : bytes := map (fun c => if c =? a then b else c) s.

Section Base64.
Context `{Base64BIO}.

Definition encodeToBase64 (buf : bytes) (url : bool) : bytes :=
  let result := default [] (bio_b64_write (ztake (to_int (zlen buf)) buf)) in
  if url then
    let result := replace_char 47 95 result in
    let result := replace_char 43 45 result in
    List.filter (fun c => negb (c =? 61)) result
  else result.

(** The padding and the alphabet of the URL form; [None] for an impossible
    length. *)
Definition b64_from_url (input : bytes) : option bytes :=
  let n := zlen input mod 4 in
  padded ← (if n =? 0 then Some input
            else if n =? 2 then Some (input ++ [61; 61])
            else if n =? 3 then Some (input ++ [61]) else None : option bytes);
  Some (replace_char 45 43 (replace_char 95 47 padded)).

Definition decodeFromBase64 (input : bytes) (url : bool) : bytes :=
  match (if url then b64_from_url input else Some input) with
  | None => []
  | Some inputx =>
      default [] (bio_b64_read (ztake (to_int (zlen inputx)) inputx) (to_int (zlen inputx)))
  end.

(** The decoded bytes land in a zeroed block of [input.length() + 2] bytes. *)
Definition decodeFromBase64ToBin (input : bytes) (url : bool) : BinaryDataContainer :=
  let r := bdc_alloc (zlen input + 2) in
  match (if url then b64_from_url input else Some input) with
  | None => r
  | Some inputx =>
      match bio_b64_read (ztake (to_int (zlen inputx)) inputx) (to_int (zlen inputx)) with
      | Some d => {| bdc_data := d ++ zdrop (zlen d) (bdc_data r); bdc_length := zlen d; bdc_cur := 0 |}
      | None => r
      end
  end.

(** ** The obfuscated form *)
Context `{Mt19937}.

Definition xor_dis (seed : Z) (n : nat) (b : byte) : byte := Z.lxor b (of_char (dis seed n)).

Fixpoint obf_bytes (seed : Z) (n : nat) (buf : bytes) : bytes :=
  match buf with
  | [] => []
  | b :: buf => xor_dis seed n b :: obf_bytes seed (S n) buf
  end.

Definition encodeToBase64Obf (buf : bytes) (seed : Z) : bytes :=
  encodeToBase64 (obf_bytes seed 0 buf) false.
End Base64.

Definition m_b64Chars : bytes :=
  bs "ABCDEFGHIJKLMNOPQRSTUVWXYZabcdefghijklmnopqrstuvwxyz0123456789+/".

(** [static_cast<unsigned char>(m_b64Chars.find(c))]; [npos] becomes 255. *)
Definition b64_value (c : byte) : byte :=
  match first_index (fun x => x =? c) m_b64Chars with Some i => i | None => 255 end.

Definition b64_char (c : byte) : bool := isalnum (to_char c) || (c =? 47) || (c =? 43).

(** Three bytes from four values. *)
Definition b64_cont3 (c0 c1 c2 c3 : byte) : bytes :=
  [wrapw 8 (Z.shiftl c0 2 + Z.shiftr (Z.land c1 48) 4);
   wrapw 8 (Z.shiftl (Z.land c1 15) 4 + Z.shiftr (Z.land c2 60) 2);
   wrapw 8 (Z.shiftl (Z.land c2 3) 6 + c3)].

(** The main loop: whole groups of four characters are decoded, the rest is
    what was collected when it stopped. *)
Fixpoint b64_groups (s : bytes) : bytes * bytes :=
  match s with
  | c0 :: tl0 =>
      if (c0 =? 61) || negb (b64_char c0) then ([], [])
      else match tl0 with
      | c1 :: tl1 =>
          if (c1 =? 61) || negb (b64_char c1) then ([], [c0])
          else match tl1 with
          | c2 :: tl2 =>
              if (c2 =? 61) || negb (b64_char c2) then ([], [c0; c1])
              else match tl2 with
              | c3 :: tl3 =>
                  if (c3 =? 61) || negb (b64_char c3) then ([], [c0; c1; c2])
                  else
                    let '(out, rest) := b64_groups tl3 in
                    (b64_cont3 (b64_value c0) (b64_value c1) (b64_value c2) (b64_value c3) ++ out,
                     rest)
              | [] => ([], [c0; c1; c2])
              end
          | [] => ([], [c0; c1])
          end
      | [] => ([], [c0])
      end
  | [] => ([], [])
  end.

(** The tail: the missing characters are 0, which [find] does not know, and
    [x - 1] bytes are delivered ([x] is a [size_t] and not 0 here). *)
Definition b64_tail (rest : bytes) : bytes :=
  let c i := b64_value (nth i rest 0) in
  match rest with
  | [] => []
  | _ => take (length rest - 1) (b64_cont3 (c 0%nat) (c 1%nat) (c 2%nat) (c 3%nat))
  end.

Definition decodeFromBase64Obf `{Mt19937} (sB64Buf : bytes) (seed : Z) : bytes :=
  let '(out, rest) := b64_groups sB64Buf in
  obf_bytes seed 0 (out ++ b64_tail rest).

(** ** Lemmas *)

Lemma hex_digit_value n : 0 <= n < 16 -> hexToValue (hex_digit n) = n.
Proof. intros Hn. apply Z.eqb_eq. apply (bounded_forall 16 (fun n => hexToValue (hex_digit n) =? n)); [done|lia]. Qed.

Lemma hex_digit_xdigit n : 0 <= n < 16 -> isxdigit (hex_digit n) = true.
Proof. intros Hn. apply (bounded_forall 16 (fun n => isxdigit (hex_digit n))); [done|lia]. Qed.

Lemma hex_pair b : is_byte b -> wrapw 8 (b / 16 * 16 + b mod 16) = b.
Proof.
  intros Hb. rewrite (Z.mul_comm (b / 16) 16), <- Z.div_mod by lia. by apply Z.mod_small.
Qed.

Lemma toHex_length d : zlen (toHex d) = 2 * zlen d.
Proof. induction d as [|b d IH]; cbn [toHex]; rewrite ?zlen_cons; [done|lia]. Qed.

Lemma fromHex_bytes_toHex d : Forall is_byte d -> fromHex_bytes (length d) (toHex d) = d.
Proof.
  induction 1 as [|b d Hb _ IH]; cbn [length toHex fromHex_bytes]; [done|].
  assert (0 <= b / 16 < 16) by (unfold is_byte in Hb; split; [apply Z.div_pos|apply Z.div_lt_upper_bound]; lia).
  pose proof (Z.mod_pos_bound b 16 ltac:(lia)).
  rewrite !hex_digit_value, hex_pair, IH by done. done.
Qed.

(** The URL image of a byte: what decoding makes of its encoding. *)
Definition url_image (b : byte) : byte := if b <? 128 then b else b mod 16.

Lemma toHexFrom4bitChar_spec b :
  is_byte b ->
  isxdigit (toHexFrom4bitChar b 1) = true /\ isxdigit (toHexFrom4bitChar b 2) = true /\
  wrapw 8 (hexToValue (toHexFrom4bitChar b 1) * 16 + hexToValue (toHexFrom4bitChar b 2)) = url_image b.
Proof.
  intros Hb.
  assert ((isxdigit (toHexFrom4bitChar b 1) && isxdigit (toHexFrom4bitChar b 2)) &&
    (wrapw 8 (hexToValue (toHexFrom4bitChar b 1) * 16 + hexToValue (toHexFrom4bitChar b 2)) =? url_image b)
    = true) as H.
  { apply (bounded_forall 256 (fun b => (isxdigit (toHexFrom4bitChar b 1) && isxdigit (toHexFrom4bitChar b 2)) &&
      (wrapw 8 (hexToValue (toHexFrom4bitChar b 1) * 16 + hexToValue (toHexFrom4bitChar b 2)) =? url_image b)));
      [by vm_compute|unfold is_byte in *; lia]. }
  apply andb_true_iff in H as [[H1 H2]%andb_true_iff H3%Z.eqb_eq]. done.
Qed.

Lemma toURL_chars_length s t : zlen (toURL_chars s t) = calcURLEncodingExpandedStringSize s t.
Proof.
  induction s as [|b s IH]; cbn [toURL_chars calcURLEncodingExpandedStringSize]; [done|].
  rewrite zlen_app, IH. by destruct (getIfMustBeURLEncoded b t).
Qed.

(** The computed size is exact. *)
Lemma toURL_spec s t : toURL s t = Ret (toURL_chars s t).
Proof.
  unfold toURL. destruct s as [|b s]; [done|]. set (l := b :: s).
  assert (zlen (replicate (Z.to_nat (calcURLEncodingExpandedStringSize l t)) 32)
    = zlen (toURL_chars l t)) as E.
  { rewrite toURL_chars_length. unfold zlen. rewrite length_replicate, Z2Nat.id; [done|].
    rewrite <- toURL_chars_length. apply zlen_nonneg. }
  rewrite E, Z.leb_refl. rewrite zdrop_ge by lia. by rewrite app_nil_r.
Qed.

Lemma fromURL_plain c s : c <> 37 -> fromURL (c :: s) = c :: fromURL s.
Proof.
  intros Hc. destruct s as [|a [|b s]]; try done. cbn [fromURL].
  by destruct (Z.eqb_spec c 37).
Qed.

Lemma fromURL_toURL_strict s :
  Forall is_byte s -> fromURL (toURL_chars s STRICT_ENCODING) = map url_image s.
Proof.
  induction 1 as [|b s Hb _ IH]; [done|]. cbn [toURL_chars map].
  destruct (toHexFrom4bitChar_spec b Hb) as (H1 & H2 & H3).
  destruct (getIfMustBeURLEncoded b STRICT_ENCODING) eqn:E.
  - cbn [app fromURL]. by rewrite Z.eqb_refl, H1, H2, H3, IH.
  - cbn [app]. unfold getIfMustBeURLEncoded in E. destruct (isalnum (to_char b)) eqn:Ea; [|done].
    assert (b < 128 /\ b <> 37) as [Hlt H37].
    { unfold is_byte in Hb. unfold isalnum, isalpha, isupper, islower, isdigit, to_char in Ea.
      destruct (128 <=? b) eqn:E128; lia. }
    rewrite fromURL_plain, IH by done. unfold url_image. by replace (b <? 128) with true by lia.
Qed.

(** ** [replaceHexCodes] ends *)

Lemma hexcode_find_bounds l d : hexcode_find l = Some d -> 0 <= d /\ d + 3 <= zlen l.
Proof.
  revert d. induction l as [|x l IH]; intros d; cbn [hexcode_find]; [done|].
  destruct (hexcode_at (x :: l)) eqn:E.
  - intros [= <-]. unfold hexcode_at in E. rewrite zlen_cons.
    destruct l as [|y [|z l]]; [done|done|]. rewrite !zlen_cons. pose proof (zlen_nonneg l). lia.
  - destruct (hexcode_find l) as [d'|]; [|done]. intros [= <-].
    destruct (IH d' eq_refl). rewrite zlen_cons. lia.
Qed.

Lemma replaceHexCodes_loop_ends fuel content pos :
  0 <= pos -> zlen content - pos < Z.of_nat fuel -> (0 < fuel)%nat ->
  exists r, replaceHexCodes_loop fuel content pos = Ret r.
Proof.
  revert content pos. induction fuel as [|fuel IH]; intros content pos Hp Hf H0; [lia|].
  cbn [replaceHexCodes_loop].
  destruct (Z.gtb_spec pos (zlen content)) as [Hgt|Hle]; [by eexists|].
  destruct (hexcode_find (zdrop pos content)) as [d|] eqn:Ed; [|by eexists].
  apply hexcode_find_bounds in Ed as [Hd Hd3]. rewrite zlen_zdrop in Hd3.
  assert (exists r, replaceHexCodes_loop fuel content (pos + d + 3) = Ret r) as Hskip.
  { apply IH; lia. }
  destruct (Z.ltb_spec (pos + d + 4) (zlen content)) as [Hlt|]; [|done].
  destruct (zdrop (pos + d + 3) content) as [|a [|b rest]] eqn:Er; [done|done|].
  destruct (isxdigit a && isxdigit b); [|done].
  apply (f_equal zlen) in Er. rewrite zlen_zdrop, !zlen_cons in Er.
  apply IH; [lia| |lia]. rewrite zlen_app, zlen_cons, zlen_ztake. lia.
Qed.

(** ** Base64 *)

(** RFC 4648. *)
Definition b64_digit (i : Z) : byte := nth (Z.to_nat i) m_b64Chars 0.

Fixpoint rfc4648_encode (d : bytes) : bytes :=
  match d with
  | a :: b :: c :: tl =>
      [b64_digit (a / 4); b64_digit (a mod 4 * 16 + b / 16);
       b64_digit (b mod 16 * 4 + c / 64); b64_digit (c mod 64)] ++ rfc4648_encode tl
  | [a; b] =>
      [b64_digit (a / 4); b64_digit (a mod 4 * 16 + b / 16); b64_digit (b mod 16 * 4); 61]
  | [a] => [b64_digit (a / 4); b64_digit (a mod 4 * 16); 61; 61]
  | [] => []
  end.

Lemma b64_digit_spec i :
  0 <= i < 64 ->
  b64_value (b64_digit i) = i /\ b64_char (b64_digit i) = true /\ (b64_digit i =? 61) = false /\
  (b64_digit i =? 95) = false /\ (b64_digit i =? 45) = false.
Proof.
  intros Hi.
  assert ((b64_value (b64_digit i) =? i) && b64_char (b64_digit i) && negb (b64_digit i =? 61) &&
    negb (b64_digit i =? 95) && negb (b64_digit i =? 45) = true) as H.
  { apply (bounded_forall 64 (fun i => (b64_value (b64_digit i) =? i) && b64_char (b64_digit i) &&
      negb (b64_digit i =? 61) && negb (b64_digit i =? 95) && negb (b64_digit i =? 45)));
      [by vm_compute|lia]. }
  rewrite !andb_true_iff, !negb_true_iff, Z.eqb_eq in H. tauto.
Qed.

Lemma land_48 x : 0 <= x < 64 -> Z.shiftr (Z.land x 48) 4 = x / 16.
Proof.
  intros Hx. apply Z.eqb_eq.
  apply (bounded_forall 64 (fun x => Z.shiftr (Z.land x 48) 4 =? x / 16)); [by vm_compute|lia].
Qed.
Lemma land_60 x : 0 <= x < 64 -> Z.shiftr (Z.land x 60) 2 = x / 4.
Proof.
  intros Hx. apply Z.eqb_eq.
  apply (bounded_forall 64 (fun x => Z.shiftr (Z.land x 60) 2 =? x / 4)); [by vm_compute|lia].
Qed.
Lemma land_15 x : Z.land x 15 = x mod 16.
Proof. change 15 with (Z.ones 4). by rewrite Z.land_ones by lia. Qed.
Lemma land_3 x : Z.land x 3 = x mod 4.
Proof. change 3 with (Z.ones 2). by rewrite Z.land_ones by lia. Qed.

Section quanta.
Context (a b c : byte).
Hypotheses (Ha : is_byte a) (Hb : is_byte b) (Hc : is_byte c).

Lemma sextets :
  0 <= a / 4 < 64 /\ 0 <= a mod 4 * 16 + b / 16 < 64 /\ 0 <= b mod 16 * 4 + c / 64 < 64 /\
  0 <= c mod 64 < 64.
Proof.
  unfold is_byte in *. pose proof (Z.div_mod a 4). pose proof (Z.mod_pos_bound a 4).
  pose proof (Z.div_mod b 16). pose proof (Z.mod_pos_bound b 16).
  pose proof (Z.div_mod c 64). pose proof (Z.mod_pos_bound c 64). lia.
Qed.

(** Four sextets give back the three bytes. *)
Lemma cont3_quantum x3 :
  b64_cont3 (a / 4) (a mod 4 * 16 + b / 16) (b mod 16 * 4 + c / 64) x3 =
    [a; b; wrapw 8 (Z.shiftl (Z.land (b mod 16 * 4 + c / 64) 3) 6 + x3)].
Proof.
  destruct sextets as (H0 & H1 & H2 & _). unfold b64_cont3.
  rewrite land_48, land_60, land_15 by done. rewrite !Z.shiftl_mul_pow2 by lia.
  unfold is_byte in *. pose proof (Z.div_mod a 4). pose proof (Z.mod_pos_bound a 4).
  pose proof (Z.div_mod b 16). pose proof (Z.mod_pos_bound b 16).
  pose proof (Z.div_mod c 64). pose proof (Z.mod_pos_bound c 64).
  assert ((a mod 4 * 16 + b / 16) / 16 = a mod 4) as ->.
  { symmetry. apply Z.div_unique with (r := b / 16); lia. }
  assert ((a mod 4 * 16 + b / 16) mod 16 = b / 16) as ->.
  { symmetry. apply Z.mod_unique with (q := a mod 4); lia. }
  assert ((b mod 16 * 4 + c / 64) / 4 = b mod 16) as ->.
  { symmetry. apply Z.div_unique with (r := c / 64); lia. }
  change (2 ^ 2) with 4. change (2 ^ 4) with 16.
  replace (a / 4 * 4 + a mod 4) with a by lia. replace (b / 16 * 16 + b mod 16) with b by lia.
  unfold wrapw. by rewrite (Z.mod_small a), (Z.mod_small b) by (change (2 ^ 8) with 256; lia).
Qed.

Lemma last_byte : wrapw 8 (Z.shiftl (Z.land (b mod 16 * 4 + c / 64) 3) 6 + c mod 64) = c.
Proof.
  rewrite land_3, Z.shiftl_mul_pow2 by lia. unfold is_byte in *.
  pose proof (Z.div_mod b 16). pose proof (Z.mod_pos_bound b 16).
  pose proof (Z.div_mod c 64). pose proof (Z.mod_pos_bound c 64).
  assert ((b mod 16 * 4 + c / 64) mod 4 = c / 64) as ->.
  { symmetry. apply Z.mod_unique with (q := b mod 16); lia. }
  change (2 ^ 6) with 64. replace (c / 64 * 64 + c mod 64) with c by lia.
  apply Z.mod_small. change (2 ^ 8) with 256. lia.
Qed.
End quanta.

Lemma b64_groups_rfc d :
  Forall is_byte d ->
  let '(out, rest) := b64_groups (rfc4648_encode d) in out ++ b64_tail rest = d.
Proof.
  remember (length d) as n eqn:E. assert (length d <= n)%nat as Hn by lia. clear E.
  revert d Hn. induction n as [|n IH]; intros d Hn Hd.
  { by destruct d; [|cbn in Hn; lia]. }
  destruct d as [|a [|b [|c d]]]; [done|..].
  - inversion Hd as [|? ? Ha _]; subst.
    destruct (sextets a 0 0) as (H0 & H1 & _); try done.
    cbn [rfc4648_encode b64_groups]. rewrite Z.add_0_r in H1.
    destruct (b64_digit_spec _ H0) as (V0 & C0 & E0 & _), (b64_digit_spec _ H1) as (V1 & C1 & E1 & _).
    rewrite C0, E0, C1, E1. cbn [negb orb Z.eqb Pos.eqb app]. unfold b64_tail. cbn [nth length Nat.sub].
    rewrite V0, V1. pose proof (cont3_quantum a 0 0) as Hq. rewrite Z.add_0_r in Hq.
    unfold b64_cont3 in *. cbn [take]. specialize (Hq Ha ltac:(done) ltac:(done) 0).
    injection Hq as Hq _. by rewrite Hq.
  - inversion Hd as [|? ? Ha Hd1]; subst. inversion Hd1 as [|? ? Hb _]; subst.
    destruct (sextets a b 0) as (H0 & H1 & H2 & _); try done.
    cbn [rfc4648_encode b64_groups]. change (0 / 64) with 0 in H2. rewrite Z.add_0_r in H2.
    destruct (b64_digit_spec _ H0) as (V0 & C0 & E0 & _), (b64_digit_spec _ H1) as (V1 & C1 & E1 & _),
      (b64_digit_spec _ H2) as (V2 & C2 & E2 & _).
    rewrite C0, E0, C1, E1, C2, E2. cbn [negb orb Z.eqb Pos.eqb app]. unfold b64_tail.
    cbn [nth length Nat.sub]. rewrite V0, V1, V2. pose proof (cont3_quantum a b 0 Ha Hb ltac:(done) 0) as Hq.
    change (0 / 64) with 0 in Hq. rewrite Z.add_0_r in Hq.
    unfold b64_cont3 in *. cbn [take]. injection Hq as Hq1 Hq2. by rewrite Hq1, Hq2.
  - inversion Hd as [|? ? Ha Hd1]; subst. inversion Hd1 as [|? ? Hb Hd2]; subst.
    inversion Hd2 as [|? ? Hc Hd3]; subst.
    destruct (sextets a b c) as (H0 & H1 & H2 & H3); try done.
    destruct (b64_digit_spec _ H0) as (V0 & C0 & E0 & _), (b64_digit_spec _ H1) as (V1 & C1 & E1 & _),
      (b64_digit_spec _ H2) as (V2 & C2 & E2 & _), (b64_digit_spec _ H3) as (V3 & C3 & E3 & _).
    cbn [rfc4648_encode app b64_groups]. rewrite C0, E0, C1, E1, C2, E2, C3, E3. cbn [negb orb].
    rewrite V0, V1, V2, V3, cont3_quantum, last_byte by done.
    cbn [length] in Hn. specialize (IH d ltac:(lia) Hd3).
    destruct (b64_groups (rfc4648_encode d)) as [out rest]. cbn [app]. by rewrite IH.
Qed.

Lemma obf_bytes_involutive `{Mt19937} seed n d :
  obf_bytes seed n (obf_bytes seed n d) = d.
Proof.
  revert n. induction d as [|b d IH]; intros n; cbn [obf_bytes]; [done|]. rewrite IH. f_equal.
  unfold xor_dis. by rewrite Z.lxor_assoc, Z.lxor_nilpotent, Z.lxor_0_r.
Qed.

Lemma lxor_byte x y : is_byte x -> is_byte y -> is_byte (Z.lxor x y).
Proof.
  unfold is_byte. intros Hx Hy. split; [by apply Z.lxor_nonneg; lia|].
  destruct (Z.eq_dec (Z.lxor x y) 0) as [->|Hn]; [lia|].
  change 256 with (2 ^ 8). apply Z.log2_lt_pow2; [pose proof (Z.lxor_nonneg x y); lia|].
  pose proof (Z.log2_lxor x y ltac:(lia) ltac:(lia)).
  assert (forall z, 0 <= z < 256 -> Z.log2 z < 8) as Hl.
  { intros z Hz. destruct (Z.eq_dec z 0) as [->|]; [done|]. apply Z.log2_lt_pow2; lia. }
  pose proof (Hl x Hx). pose proof (Hl y Hy). lia.
Qed.

Lemma obf_bytes_byte `{Mt19937} seed n d : Forall is_byte d -> Forall is_byte (obf_bytes seed n d).
Proof.
  revert n. induction d as [|b d IH]; intros n Hd; cbn [obf_bytes]; [done|].
  inversion Hd; subst. constructor; [|by apply IH]. apply lxor_byte; [done|].
  apply Z.mod_pos_bound. lia.
Qed.

Lemma obf_bytes_length `{Mt19937} seed n d : zlen (obf_bytes seed n d) = zlen d.
Proof. revert n. induction d as [|b d IH]; intros n; cbn [obf_bytes]; rewrite ?zlen_cons, ?IH; done. Qed.

(** ** Base32 *)

(** A byte string as its bits, most significant first, and back to groups. *)
Definition bits_of (n : nat) (x : Z) : list bool :=
  map (fun i => Z.testbit x (Z.of_nat i)) (rev (seq 0 n)).

Fixpoint bits_value (l : list bool) (acc : Z) : Z :=
  match l with [] => acc | b :: l => bits_value l (2 * acc + Z.b2z b) end.

Definition all_bits (d : bytes) : list bool := concat (map (bits_of 8) d).

(** RFC 4648 base32: groups of five bits, the last one filled with zeros, as
    characters; then padding to a multiple of eight characters. *)
Fixpoint b32_groups (fuel : nat) (l : list bool) : bytes :=
  match fuel, l with
  | S fuel, _ :: _ =>
      nth (Z.to_nat (bits_value (take 5 (l ++ replicate 4 false)) 0)) b32_chars 0
        :: b32_groups fuel (drop 5 l)
  | _, _ => []
  end.

Definition rfc4648_base32 (d : bytes) : bytes :=
  let s := b32_groups (length (all_bits d)) (all_bits d) in
  s ++ replicate ((8 - length s mod 8) mod 8) 61.

(** The decoder as a machine on single bits. *)
Definition b32_bit (bit : bool) (st : Z * Z * bytes) : Z * Z * bytes :=
  let '(currentByte, bitsRemaining, out) := st in
  let currentByte := Z.lor (Z.shiftl currentByte 1) (Z.b2z bit) in
  let bitsRemaining := bitsRemaining - 1 in
  if bitsRemaining =? 0 then (0, 8, out ++ [of_char currentByte]) else (currentByte, bitsRemaining, out).

Definition b32_run (l : list bool) (st : Z * Z * bytes) : Z * Z * bytes :=
  fold_left (fun st bit => b32_bit bit st) l st.

Lemma b32_bits_run n val st : b32_bits n val st = b32_run (bits_of n val) st.
Proof.
  revert st. induction n as [|n IH]; intros [[cur rem] out]; [done|].
  unfold bits_of. rewrite seq_S, rev_app_distr. cbn [rev app map b32_run fold_left b32_bits Nat.add].
  assert (Z.land (Z.shiftr val (Z.of_nat n)) 1 = Z.b2z (Z.testbit val (Z.of_nat n))) as ->.
  { change 1 with (Z.ones 1). rewrite Z.land_ones, Z.testbit_spec' by lia.
    by rewrite Z.shiftr_div_pow2 by lia. }
  rewrite IH. unfold b32_bit. by destruct (rem - 1 =? 0).
Qed.

Lemma b32_run_app l k st : b32_run (l ++ k) st = b32_run k (b32_run l st).
Proof. apply fold_left_app. Qed.

Lemma b32_run_eight l out :
  length l = 8%nat -> b32_run l (0, 8, out) = (0, 8, out ++ [of_char (bits_value l 0)]).
Proof.
  intros Hl. destruct l as [|b0 [|b1 [|b2 [|b3 [|b4 [|b5 [|b6 [|b7 [|]]]]]]]]]; try done.
  destruct b0, b1, b2, b3, b4, b5, b6, b7; reflexivity.
Qed.

Lemma b32_run_byte b out : is_byte b -> b32_run (bits_of 8 b) (0, 8, out) = (0, 8, out ++ [b]).
Proof.
  intros Hb. rewrite b32_run_eight by done. do 3 f_equal.
  apply Z.eqb_eq. apply (bounded_forall 256 (fun b => of_char (bits_value (bits_of 8 b) 0) =? b));
    [by vm_compute|unfold is_byte in *; lia].
Qed.

Lemma b32_run_bytes d out : Forall is_byte d -> b32_run (all_bits d) (0, 8, out) = (0, 8, out ++ d).
Proof.
  intros Hd. revert out. induction Hd as [|b d Hb _ IH]; intros out.
  { by rewrite app_nil_r. }
  unfold all_bits. cbn [map concat]. rewrite b32_run_app, b32_run_byte by done.
  change (concat (map (bits_of 8) d)) with (all_bits d). rewrite IH. by rewrite <- app_assoc.
Qed.

Lemma all_bits_length d : length (all_bits d) = (8 * length d)%nat.
Proof. unfold all_bits. induction d as [|b d IH]; cbn [map concat length]; [done|]. rewrite length_app, IH. cbn. lia. Qed.

(** One character carries its five bits. *)
Lemma b32_char_bits l :
  length l = 5%nat ->
  first_index (fun x => x =? nth (Z.to_nat (bits_value l 0)) b32_chars 0) b32_chars = Some (bits_value l 0) /\
  (nth (Z.to_nat (bits_value l 0)) b32_chars 0 =? 61) = false /\
  bits_of 5 (bits_value l 0) = l.
Proof.
  intros Hl. destruct l as [|b0 [|b1 [|b2 [|b3 [|b4 [|]]]]]]; try done.
  destruct b0, b1, b2, b3, b4; by vm_compute.
Qed.

(** The zeros that fill the last group. *)
Definition b32_fill (n : nat) : nat := (5 - n mod 5) mod 5.

Lemma b32_fill_group n : (5 <= n)%nat -> b32_fill (n - 5) = b32_fill n.
Proof.
  intros Hn. unfold b32_fill. pose proof (Nat.Div0.mod_add (n - 5) 1 5) as Hm.
  replace (n - 5 + 1 * 5)%nat with n in Hm by lia. by rewrite Hm.
Qed.

Lemma b32_groups_decode fuel l st tail :
  (length l <= fuel)%nat -> (tail = [] \/ exists t, tail = 61 :: t) ->
  b32_loop (b32_groups fuel l ++ tail) st = Some (b32_run (l ++ replicate (b32_fill (length l)) false) st).
Proof.
  intros Hl Ht. revert l st Hl. induction fuel as [|fuel IH]; intros l st Hl.
  { destruct l; [|cbn in Hl; lia]. cbn. by destruct Ht as [->|[t ->]]. }
  destruct l as [|b l]; [cbn; by destruct Ht as [->|[t ->]]|].
  cbn [b32_groups]. set (w := b :: l) in *. set (g := take 5 (w ++ replicate 4 false)).
  assert (length g = 5%nat) as Hg.
  { unfold g. rewrite length_take, length_app, length_replicate. unfold w. cbn [length]. lia. }
  destruct (b32_char_bits g Hg) as (Hi & He & Hb).
  cbn [app b32_loop]. rewrite He, Hi, b32_bits_run, Hb.
  assert (0 < length w)%nat as Hw by (unfold w; cbn; lia).
  destruct (le_lt_dec 5 (length w)) as [H5|H5].
  - rewrite IH by (rewrite length_drop; lia). rewrite <- b32_run_app. do 2 f_equal.
    unfold g. rewrite take_app_le by done. rewrite app_assoc, take_drop. by rewrite length_drop, b32_fill_group.
  - rewrite drop_ge by lia. replace (b32_groups fuel []) with (@nil Z) by by destruct fuel.
    assert (forall st, b32_loop ([] ++ tail) st = Some st) as -> by (intros; by destruct Ht as [->|[t ->]]).
    do 2 f_equal. unfold g. rewrite take_app_ge by lia. f_equal.
    unfold b32_fill. rewrite (Nat.mod_small (length w)) by lia. rewrite (Nat.mod_small (5 - _)) by lia.
    rewrite take_replicate. f_equal. lia.
Qed.

Lemma b32_run_zeros n out :
  (n <= 4)%nat -> b32_run (replicate n false) (0, 8, out) = (0, 8 - Z.of_nat n, out).
Proof. intros Hn. do 5 (destruct n as [|n]; [done|]). lia. Qed.

Lemma b32_padding d :
  exists tail, rfc4648_base32 d = b32_groups (length (all_bits d)) (all_bits d) ++ tail /\
    (tail = [] \/ exists t, tail = 61 :: t).
Proof.
  eexists; split; [done|]. destruct ((8 - _) mod 8)%nat; [by left|right]. cbn. by eexists.
Qed.

Lemma b32_fill_byte_count n :
  (b32_fill (8 * n) <= 4)%nat /\ (b32_fill (8 * n) = 4%nat <-> (n mod 5 = 2)%nat).
Proof.
  unfold b32_fill. pose proof (Nat.div_mod n 5 ltac:(lia)) as Hn.
  pose proof (Nat.mod_upper_bound n 5 ltac:(lia)) as Hb.
  assert ((8 * n) mod 5 = (8 * (n mod 5)) mod 5)%nat as ->.
  { rewrite Hn at 1. replace (8 * (5 * (n / 5) + n mod 5))%nat with (8 * (n mod 5) + (8 * (n / 5)) * 5)%nat by lia.
    by rewrite Nat.Div0.mod_add. }
  destruct (n mod 5)%nat as [|[|[|[|[|m]]]]] eqn:E; cbn; lia.
Qed.

(** OpenSSL's BIO is base64 of RFC 4648: it encodes non-empty data that fits an
    [int], and reads back what it wrote. *)
Class RFC4648 `{Base64BIO} : Prop := {
  bio_write_ok d : d <> [] -> zlen d <= 2147483647 -> bio_b64_write d = Some (rfc4648_encode d);
  bio_write_empty : bio_b64_write [] = None;
  bio_read_ok d n : Forall is_byte d -> zlen (rfc4648_encode d) <= n -> zlen (rfc4648_encode d) <= 2147483647 ->
    bio_b64_read (rfc4648_encode d) n = Some d }.

Lemma to_int_small n : 0 <= n <= 2147483647 -> to_int n = n.
Proof.
  intros Hn. unfold to_int, safe_cast_or.
  assert (in_range_17 i32 u64 n = (n <=? 2147483647)) as -> by done.
  by replace (n <=? _) with true by lia.
Qed.

Lemma encodeToBase64_plain `{RFC4648} d :
  zlen d <= 2147483647 -> encodeToBase64 d false = rfc4648_encode d.
Proof.
  intros Hd. pose proof (zlen_nonneg d). unfold encodeToBase64. rewrite to_int_small, ztake_ge by lia.
  destruct d as [|x d]; [by rewrite bio_write_empty|]. by rewrite bio_write_ok.
Qed.

(** The URL alphabet: the characters [/], [+] and [=] do not survive, and the
    padding follows from the length. *)
Lemma rfc4648_length d : zlen (rfc4648_encode d) mod 4 = 0.
Proof.
  remember (length d) as n eqn:E. assert (length d <= n)%nat as Hn by lia. clear E. revert d Hn.
  induction n as [|n IH]; intros d Hn; [by destruct d; [|cbn in Hn; lia]|].
  destruct d as [|a [|b [|c d]]]; [done..|]. cbn [rfc4648_encode app]. rewrite !zlen_cons.
  cbn [length] in Hn. specialize (IH d ltac:(lia)). rewrite !Z.add_assoc. change (1 + 1 + 1 + 1) with 4.
  rewrite Z.add_comm. replace 4 with (1 * 4) at 1 by lia. by rewrite Z.mod_add.
Qed.

Lemma rfc4648_zlen d : zlen (rfc4648_encode d) = 4 * ((zlen d + 2) / 3).
Proof.
  remember (length d) as n eqn:E. assert (length d <= n)%nat as Hn by lia. clear E. revert d Hn.
  induction n as [|n IH]; intros d Hn; [by destruct d; [|cbn in Hn; lia]|].
  destruct d as [|a [|b [|c d]]]; [done..|]. cbn [rfc4648_encode app]. rewrite !zlen_cons.
  cbn [length] in Hn. rewrite (IH d) by lia. replace (1 + (1 + (1 + zlen d)) + 2) with (zlen d + 2 + 1 * 3) by lia.
  rewrite Z.div_add by lia. lia.
Qed.

Lemma rfc4648_size d : 3 * zlen (rfc4648_encode d) <= 4 * (zlen d + 2).
Proof.
  remember (length d) as n eqn:E. assert (length d <= n)%nat as Hn by lia. clear E. revert d Hn.
  induction n as [|n IH]; intros d Hn; [by destruct d; [|cbn in Hn; lia]|].
  destruct d as [|a [|b [|c d]]]; [done|unfold zlen; cbn; lia..|]. cbn [rfc4648_encode app]. rewrite !zlen_cons.
  cbn [length] in Hn. specialize (IH d ltac:(lia)). lia.
Qed.

Definition url_alphabet (s : bytes) : bytes :=
  List.filter (fun c => negb (c =? 61)) (replace_char 43 45 (replace_char 47 95 s)).

Definition url_alphabet_back (s : bytes) : bytes := replace_char 45 43 (replace_char 95 47 s).

Lemma url_digit i :
  0 <= i < 64 -> exists c, url_alphabet [b64_digit i] = [c] /\ url_alphabet_back [c] = [b64_digit i].
Proof.
  intros Hi. destruct (b64_digit_spec i Hi) as (_ & _ & H61 & H95 & H45).
  unfold url_alphabet, url_alphabet_back, replace_char. cbn [map List.filter].
  destruct (Z.eqb_spec (b64_digit i) 47) as [->|]; [by exists 95|].
  destruct (Z.eqb_spec (b64_digit i) 43) as [->|]; [by exists 45|].
  rewrite H61. cbn [negb]. eexists; split; [done|]. cbn [map]. by rewrite H95, H45.
Qed.

Lemma url_alphabet_app s t : url_alphabet (s ++ t) = url_alphabet s ++ url_alphabet t.
Proof. unfold url_alphabet, replace_char. by rewrite !map_app, List.filter_app. Qed.
Lemma url_alphabet_back_app s t : url_alphabet_back (s ++ t) = url_alphabet_back s ++ url_alphabet_back t.
Proof. unfold url_alphabet_back, replace_char. by rewrite !map_app. Qed.
Lemma url_alphabet_back_length s : zlen (url_alphabet_back s) = zlen s.
Proof. unfold url_alphabet_back, replace_char, zlen. by rewrite !length_map. Qed.

(** A group of [k] digits keeps its length and comes back. *)
Lemma url_digits l :
  Forall (fun i => 0 <= i < 64) l ->
  exists s, url_alphabet (map b64_digit l) = s /\ zlen s = zlen l /\
    url_alphabet_back s = map b64_digit l.
Proof.
  induction 1 as [|i l Hi _ (s & Hs & Hl & Hb)]; [by exists []|].
  destruct (url_digit i Hi) as (c & Hc & Hcb). exists (c :: s). split_and!.
  - change (map b64_digit (i :: l)) with ([b64_digit i] ++ map b64_digit l).
    by rewrite url_alphabet_app, Hc, Hs.
  - by rewrite !zlen_cons, Hl.
  - change (c :: s) with ([c] ++ s). by rewrite url_alphabet_back_app, Hcb, Hb.
Qed.

Lemma b64_from_url_encode d :
  Forall is_byte d -> b64_from_url (url_alphabet (rfc4648_encode d)) = Some (rfc4648_encode d).
Proof.
  remember (length d) as n eqn:E. assert (length d <= n)%nat as Hn by lia. clear E. revert d Hn.
  induction n as [|n IH]; intros d Hn Hd; [by destruct d; [|cbn in Hn; lia]|].
  destruct d as [|a [|b [|c d]]]; [done|..].
  - inversion Hd as [|? ? Ha _]; subst. destruct (sextets a 0 0 Ha) as (H0 & H1 & _); [done..|].
    rewrite Z.add_0_r in H1.
    destruct (url_digits [a / 4; a mod 4 * 16]) as (s & Hs & Hl & Hb); [by repeat (apply Forall_cons; split; [done|])|].
    change (rfc4648_encode [a]) with (map b64_digit [a / 4; a mod 4 * 16] ++ [61; 61]).
    rewrite url_alphabet_app, Hs. change (url_alphabet [61; 61]) with (@nil Z). rewrite app_nil_r.
    unfold b64_from_url. rewrite Hl. change (zlen [_; _] mod 4) with 2.
    cbn [Z.eqb Pos.eqb mbind option_bind]. f_equal. fold (url_alphabet_back (s ++ [61; 61])).
    rewrite url_alphabet_back_app, Hb. done.
  - inversion Hd as [|? ? Ha Hd1]; subst. inversion Hd1 as [|? ? Hb _]; subst.
    destruct (sextets a b 0 Ha Hb) as (H0 & H1 & H2 & _); [done|]. change (0 / 64) with 0 in H2. rewrite Z.add_0_r in H2.
    destruct (url_digits [a / 4; a mod 4 * 16 + b / 16; b mod 16 * 4]) as (s & Hs & Hl & Hbk);
      [by repeat (apply Forall_cons; split; [done|])|].
    change (rfc4648_encode [a; b]) with
      (map b64_digit [a / 4; a mod 4 * 16 + b / 16; b mod 16 * 4] ++ [61]).
    rewrite url_alphabet_app, Hs. change (url_alphabet [61]) with (@nil Z). rewrite app_nil_r.
    unfold b64_from_url. rewrite Hl. change (zlen [_; _; _] mod 4) with 3.
    cbn [Z.eqb Pos.eqb mbind option_bind]. f_equal. fold (url_alphabet_back (s ++ [61])).
    rewrite url_alphabet_back_app, Hbk. done.
  - inversion Hd as [|? ? Ha Hd1]; subst. inversion Hd1 as [|? ? Hb Hd2]; subst.
    inversion Hd2 as [|? ? Hc Hd3]; subst. destruct (sextets a b c) as (H0 & H1 & H2 & H3); try done.
    destruct (url_digits [a / 4; a mod 4 * 16 + b / 16; b mod 16 * 4 + c / 64; c mod 64])
      as (s & Hs & Hl & Hbk); [by repeat (apply Forall_cons; split; [done|])|].
    change (rfc4648_encode (a :: b :: c :: d)) with
      (map b64_digit [a / 4; a mod 4 * 16 + b / 16; b mod 16 * 4 + c / 64; c mod 64] ++ rfc4648_encode d).
    rewrite url_alphabet_app, Hs. cbn [length] in Hn. specialize (IH d ltac:(lia) Hd3).
    revert IH. set (t := url_alphabet (rfc4648_encode d)). unfold b64_from_url.
    assert (zlen (s ++ t) mod 4 = zlen t mod 4) as ->.
    { rewrite zlen_app, Hl. change (zlen [_; _; _; _]) with (1 * 4). rewrite Z.add_comm. by rewrite Z.mod_add. }
    destruct (zlen t mod 4 =? 0); [|destruct (zlen t mod 4 =? 2); [|destruct (zlen t mod 4 =? 3)]];
      cbn [mbind option_bind]; try done; intros [= Ht]; f_equal; rewrite <- ?app_assoc;
      match goal with |- replace_char 45 43 (replace_char 95 47 ?l) = _ => change (url_alphabet_back l = map b64_digit [a / 4; a mod 4 * 16 + b / 16; b mod 16 * 4 + c / 64; c mod 64] ++ rfc4648_encode d) end;
      rewrite url_alphabet_back_app, Hbk; f_equal; exact Ht.
Qed.

(** ** Properties *)

(** Hexadecimal round trip ([Encoders::toHex], [Encoders::fromHex]):
    decoding the digits of [d] into a buffer with room for it stores exactly [d]
    and leaves the rest of the buffer alone. *)
Theorem hex_roundtrip (d buf : bytes) (maxlen : Z) :
  Forall is_byte d -> zlen d <= maxlen -> zlen d <= zlen buf ->
  fromHex (toHex d) buf maxlen = Ret (d ++ zdrop (zlen d) buf).
Proof.
  intros Hd Hm Hb. pose proof (zlen_nonneg d). unfold fromHex. rewrite toHex_length.
  rewrite (Z.mul_comm 2), Z.div_mul by lia.
  assert ((if zlen d <? maxlen then zlen d else maxlen) = zlen d) as -> by (destruct (Z.ltb_spec (zlen d) maxlen); lia).
  assert (Z.to_nat (zlen d) = length d) as -> by (unfold zlen; lia). rewrite fromHex_bytes_toHex by done.
  by replace (zlen d <=? zlen buf) with true by lia.
Qed.

Lemma hex_roundtrip_witness :
  fromHex (toHex [0; 10; 255]) [1; 2; 3; 4] 4 = Ret [0; 10; 255; 4].
Proof.
  refine (hex_roundtrip [0; 10; 255] [1; 2; 3; 4] 4 _ _ _).
  - repeat constructor; discriminate.
  - discriminate.
  - discriminate.
Defined.

(** URL coding ([Encoders::toURL] with the strict type, [Encoders::fromURL]):
    the size computed for the output is exact, decoding gives every byte below
    128 back, and a byte from 128 on comes back as its low four bits, because
    the high digit is computed from a negative [char]. *)
Theorem url_roundtrip (s : bytes) :
  Forall is_byte s ->
  exists e, toURL s STRICT_ENCODING = Ret e /\
    zlen e = calcURLEncodingExpandedStringSize s STRICT_ENCODING /\
    fromURL e = map (fun b => if b <? 128 then b else b mod 16) s.
Proof.
  intros Hs. eexists. split; [apply toURL_spec|]. split; [apply toURL_chars_length|].
  by apply fromURL_toURL_strict.
Qed.

Lemma url_roundtrip_witness :
  exists e, toURL [97; 32; 195] STRICT_ENCODING = Ret e /\
    zlen e = calcURLEncodingExpandedStringSize [97; 32; 195] STRICT_ENCODING /\
    fromURL e = [97; 32; 3].
Proof. refine (url_roundtrip [97; 32; 195] _). repeat constructor; discriminate. Defined.

(** [Encoders::decodeFromBase32] on the base32 form of RFC 4648: it returns
    the data, followed by one zero byte exactly when the length of the data is
    2 modulo 5. *)
Theorem base32_decode (d : bytes) :
  Forall is_byte d ->
  decodeFromBase32 (rfc4648_base32 d) =
    d ++ (if (length d mod 5 =? 2)%nat then [0] else []).
Proof.
  intros Hd. destruct (b32_padding d) as (tail & -> & Ht). unfold decodeFromBase32.
  rewrite b32_groups_decode by done. rewrite b32_run_app, b32_run_bytes by done. cbn [app].
  rewrite all_bits_length. destruct (b32_fill_byte_count (length d)) as [Hf H4].
  rewrite b32_run_zeros by done. destruct (Nat.eqb_spec (length d mod 5) 2) as [E|E].
  - apply H4 in E as ->. done.
  - rewrite app_nil_r. destruct (negb _ && _) eqn:Eb; [|done]. lia.
Qed.

Lemma base32_decode_witness :
  rfc4648_base32 (bs "fo") = bs "MZXQ====" /\ decodeFromBase32 (rfc4648_base32 (bs "fo")) = bs "fo" ++ [0].
Proof. split; [reflexivity|]. refine (base32_decode (bs "fo") _). repeat constructor; discriminate. Defined.

(** The obfuscated base64 form ([encodeToBase64Obf], [decodeFromBase64Obf])
    round-trips for every seed, whatever the generator draws, given that the
    OpenSSL encoder is base64 of RFC 4648. *)
Theorem base64_obf_roundtrip `{RFC4648} `{Mt19937} (d : bytes) (seed : Z) :
  Forall is_byte d -> zlen d <= 2147483647 ->
  decodeFromBase64Obf (encodeToBase64Obf d seed) seed = d.
Proof.
  intros Hd Hl. unfold decodeFromBase64Obf, encodeToBase64Obf.
  rewrite encodeToBase64_plain by by rewrite obf_bytes_length.
  pose proof (b64_groups_rfc (obf_bytes seed 0 d) (obf_bytes_byte seed 0 d Hd)) as Hg.
  destruct (b64_groups _) as [out rest]. rewrite Hg. apply obf_bytes_involutive.
Qed.

Lemma encodeToBase64_url `{RFC4648} (d : bytes) :
  zlen d <= 2147483647 -> encodeToBase64 d true = url_alphabet (rfc4648_encode d).
Proof.
  intros Hl. pose proof (encodeToBase64_plain d Hl) as Hp. unfold encodeToBase64 in *. by rewrite Hp.
Qed.

Lemma base64url_spec `{RFC4648} (d : bytes) :
  Forall is_byte d -> zlen (rfc4648_encode d) <= 2147483647 -> zlen d <= 2147483647 ->
  decodeFromBase64 (encodeToBase64 d true) true = d.
Proof.
  intros Hd Hl Hl2. rewrite encodeToBase64_url by done.
  unfold decodeFromBase64. rewrite b64_from_url_encode by done.
  pose proof (zlen_nonneg (rfc4648_encode d)).
  rewrite to_int_small, ztake_ge by lia. by rewrite bio_read_ok.
Qed.

(** No digit is a dot, so a dot can separate encoded texts. *)
Lemma b64_digit_no_dot i : b64_digit i <> 46.
Proof.
  unfold b64_digit. destruct (nth_in_or_default (Z.to_nat i) m_b64Chars 0) as [Hin| ->]; [|done].
  intros E. rewrite E in Hin. vm_compute in Hin. intuition discriminate.
Qed.

Lemma rfc4648_no_dot d : Forall (fun c => c <> 46) (rfc4648_encode d).
Proof.
  remember (length d) as n eqn:E. assert (length d <= n)%nat as Hn by lia. clear E. revert d Hn.
  induction n as [|n IH]; intros d Hn; [by destruct d; [|cbn in Hn; lia]|].
  destruct d as [|a [|b [|c d]]]; cbn [rfc4648_encode app]; repeat (constructor; [by try apply b64_digit_no_dot|]); [by constructor..|].
  apply IH. cbn [length] in Hn. lia.
Qed.

Lemma encodeToBase64_url_no_dot `{RFC4648} (d : bytes) :
  zlen d <= 2147483647 -> Forall (fun c => c <> 46) (encodeToBase64 d true).
Proof.
  intros Hl. rewrite encodeToBase64_url by done. unfold url_alphabet, replace_char. apply Forall_forall.
  intros c Hc. apply list_elem_of_In, filter_In in Hc as [Hc _].
  apply in_map_iff in Hc as (b & <- & Hb). apply in_map_iff in Hb as (a & <- & Ha).
  pose proof (proj1 (Forall_forall _ _) (rfc4648_no_dot d) a (proj2 (list_elem_of_In _ _) Ha)).
  by repeat case_bool.
Qed.

(** The URL form of base64 ([encodeToBase64] and [decodeFromBase64] with
    [url]): alphabet change, removed padding and recomputed padding cancel, given
    that OpenSSL's BIO is base64 of RFC 4648. *)
Theorem base64url_roundtrip `{RFC4648} (d : bytes) :
  Forall is_byte d -> zlen (rfc4648_encode d) <= 2147483647 -> zlen d <= 2147483647 ->
  decodeFromBase64 (encodeToBase64 d true) true = d.
Proof. apply base64url_spec. Qed.

(** The interfaces can be met: base64 itself as the BIO, and a generator that
    counts. *)
Definition reference_bio : Base64BIO := {|
  bio_b64_write d := match d with [] => None | _ => Some (rfc4648_encode d) end;
  bio_b64_read s n := let '(out, rest) := b64_groups s in Some (out ++ b64_tail rest) |}.

Lemma reference_bio_rfc : RFC4648 (H := reference_bio).
Proof.
  split; [by intros [|]|done|]. intros d n Hd _ _. cbn [bio_b64_read reference_bio].
  pose proof (b64_groups_rfc d Hd) as Hg. destruct (b64_groups _) as [out rest]. by rewrite Hg.
Qed.

Definition counter : Mt19937 := fun seed n => seed + Z.of_nat n.

Lemma base64_obf_roundtrip_witness :
  decodeFromBase64Obf (H := counter) (encodeToBase64Obf (H := reference_bio) (H0 := counter) (bs "hello") 77) 77
    = bs "hello".
Proof.
  refine (base64_obf_roundtrip (H := reference_bio) (H0 := reference_bio_rfc) (H1 := counter) (bs "hello") 77 _ _).
  - repeat constructor; discriminate.
  - discriminate.
Defined.

Lemma base64url_roundtrip_witness :
  decodeFromBase64 (H := reference_bio) (encodeToBase64 (H := reference_bio) [255; 239; 190; 1] true) true
    = [255; 239; 190; 1].
Proof.
  refine (base64url_roundtrip (H := reference_bio) (H0 := reference_bio_rfc) [255; 239; 190; 1] _ _ _).
  - repeat constructor; discriminate.
  - discriminate.
  - discriminate.
Defined.

(** [Encoders::replaceHexCodes] ends on every text, and it decodes what it
    has just decoded again: the code of a backslash followed by "0x41" becomes
    the letter A instead of the text backslash "0x41". *)
Theorem replaceHexCodes_total :
  (forall content, exists r, replaceHexCodes content = Ret r) /\
  replaceHexCodes ([92] ++ bs "0x5C0x41") = Ret (bs "A").
Proof.
  split; [|by vm_compute]. intros content. apply replaceHexCodes_loop_ends; unfold zlen; lia.
Qed.
