(* ===== verification/UrlStream.v ===== *)
(** * URL coding as stream transformers (Protocol_HTTP/streamencoder_url.cpp,
      streamdecoder_url.cpp)

    [Encoders::URL] and [Decoders::URL] are [StreamableTransformer]s: bytes
    written to them come out transformed in another sink.  The encoder keeps no
    state; the decoder keeps the escape sequence it is reading ([m_bytes],
    [m_filled]).  Both are proved to be sinks in the sense of [SinkSpec], over
    any destination that is one, so that the [transform] of a whole container is
    a corollary of what the containers promise.  [url_escape] and [url_unescape]
    are the reference definitions of the two codings. *)

From S2P Require Import Prelude SafeInt Mem Streamable Container ContainerTheory BMem BChunks.
From S2P Require Import ChunkBuffer BRef Encoders.
From Stdlib Require Import ZArith Lia.

(** ** The encoder *)
(** [Encoders::URL] has no field of its own. *)
Record UrlEncoder := mkUrlEncoder { urlenc_writeStatus : WriteStatus }.

Definition UrlEncoder_new : UrlEncoder := mkUrlEncoder ws_init.

Definition shouldEncodeThisByte (b : byte) : bool := negb (isalnum b).

Fixpoint urlenc_getPlainBytesSize (buf : bytes) : Z :=
  match buf with
  | [] => 0
  | b :: buf => if shouldEncodeThisByte b then 0 else 1 + urlenc_getPlainBytesSize buf
  end.

(** [snprintf(encodedByte, 8, "%%%02" PRIX8, b)]. *)
Definition encodedByte (b : byte) : bytes := [37; hex_digit (b / 16); hex_digit (b mod 16)].

(** The [while] loop of [writeTo]; [rest] is what is left of the buffer at
    [readenBytes]. *)
Fixpoint urlenc_writeTo_loop {S} `{Sink S} (fuel : nat) (rest : bytes) (readenBytes : Z) (dst : S) :
    outcome (S * Z) :=
  match rest with
  | [] => Ret (dst, readenBytes)
  | b :: _ =>
      match fuel with
      | O => NoFuel
      | Datatypes.S fuel =>
          let bytesToTransmitInPlain := urlenc_getPlainBytesSize rest in
          let '(piece, consumed) :=
            if bytesToTransmitInPlain >? 0 then (ztake bytesToTransmitInPlain rest, bytesToTransmitInPlain)
            else (encodedByte b, 1) in
          '(dst, ok) ← writeFullStream piece dst;
          let '(rest, readenBytes) :=
            if (ok : bool) then (zdrop consumed rest, readenBytes + consumed) else (rest, readenBytes) in
          if negb (succeed (sink_status dst)) then Ret (dst, readenBytes)
          else urlenc_writeTo_loop fuel rest readenBytes dst
      end
  end.

(** A round that transmits consumes a byte, so one round per byte is enough;
    [encoder_hangs_when_full] is about the rounds that do not. *)
Definition urlenc_writeTo {S} `{Sink S} (buf : bytes) (t : UrlEncoder) (dst : S) : outcome (UrlEncoder * S * Z) :=
  let maxStream := SIZE_MAX / 3 - 3 in
  if zlen buf >? maxStream then
    dst ← status_add (-1) dst; Ret (t, dst, SIZE_MAX)
  else
    '(dst, r) ← urlenc_writeTo_loop (length buf + 1) buf 0 dst; Ret (t, dst, r).

#[global] Instance url_encoder : Transformer UrlEncoder := {|
  tr_status := urlenc_writeStatus;
  tr_set_status ws t := mkUrlEncoder ws;
  Streamable.writeTo S H := @urlenc_writeTo S H;
  writeTransformerEOF S H t dst := Ret (t, dst, 0) |}.

Definition encodeURLStr (M : Type) `{Container M} `{!MMapFile M} (url : bytes) : outcome bytes :=
  let uriDecoded := bm_new url (wrapw 32 (zlen url)) in
  '(_, uriEncoded) ← transform UrlEncoder_new uriDecoded (bc_new (M := M));
  if succeed (m_writeStatus (bc_base uriEncoded)) then toStringEx SIZE_MAX 0 uriEncoded
  else Ret url.

(** ** The decoder *)
Record UrlDecoder := mkUrlDecoder {
  urldec_writeStatus : WriteStatus;
  m_bytes : bytes;
  m_filled : Z }.

Definition UrlDecoder_new : UrlDecoder := mkUrlDecoder ws_init [0; 0; 0] 0.

Definition urldec_set_byte (i : nat) (b : byte) (t : UrlDecoder) : UrlDecoder :=
  mkUrlDecoder (urldec_writeStatus t) (<[i := b]> (m_bytes t)) (m_filled t).
Definition urldec_set_filled (n : Z) (t : UrlDecoder) : UrlDecoder := mkUrlDecoder (urldec_writeStatus t) (m_bytes t) n.

(** The number of plain bytes and [byteDetected]. *)
Fixpoint urldec_getPlainBytesSize (buf : bytes) : Z * Z :=
  match buf with
  | [] => (0, 0)
  | b :: buf =>
      if b =? 37 then (0, 37)
      else if b =? 43 then (0, 43)
      else let '(n, d) := urldec_getPlainBytesSize buf in (1 + n, d)
  end.

Definition flushBytesAndResetFilledCounter {S} `{Sink S} (t : UrlDecoder) (dst : S) :
    outcome (UrlDecoder * S * bool) :=
  '(dst, r) ← writeFullStream (ztake (m_filled t) (m_bytes t)) dst;
  Ret (urldec_set_filled 0 t, dst, r).

(** [if (!dst->writeFullStream(data, n)) dst->writeStatus += -1;] *)
Definition write_or_fail {S} `{Sink S} (data : bytes) (dst : S) : outcome S :=
  '(dst, ok) ← writeFullStream data dst;
  if negb ok then status_add (-1) dst else Ret dst.

Definition urldec_writeTo {S} `{Sink S} (data : bytes) (t : UrlDecoder) (dst : S) : outcome (UrlDecoder * S * Z) :=
  match data with
  | [] =>
      dst ← (if negb (m_filled t =? 0) then status_add (-1) dst else Ret dst);
      Ret (t, dst, 0)
  | b :: _ =>
      if m_filled t =? 0 then
        let '(plainBytes, byteDetected) := urldec_getPlainBytesSize data in
        if plainBytes >? 0 then
          dst ← write_or_fail (ztake plainBytes data) dst; Ret (t, dst, plainBytes)
        else if byteDetected =? 37 then
          Ret (urldec_set_filled 1 (urldec_set_byte 0 37 t), dst, 1)
        else if byteDetected =? 43 then
          let t := urldec_set_byte 0 32 t in
          dst ← write_or_fail (ztake 1 (m_bytes t)) dst; Ret (t, dst, 1)
        else Ret (t, dst, 0)
      else if m_filled t =? 1 then
        let t := urldec_set_filled 2 (urldec_set_byte 1 b t) in
        if negb (isxdigit b) then
          '(t, dst, _) ← flushBytesAndResetFilledCounter t dst; Ret (t, dst, 1)
        else Ret (t, dst, 1)
      else if m_filled t =? 2 then
        let t := urldec_set_byte 2 b t in
        if negb (isxdigit b) then
          '(t, dst, _) ← flushBytesAndResetFilledCounter (urldec_set_filled 3 t) dst; Ret (t, dst, 1)
        else
          let t := urldec_set_filled 0 t in
          let val := hexPairToByte (nth 1 (m_bytes t) 0) (nth 2 (m_bytes t) 0) in
          dst ← write_or_fail [val] dst; Ret (t, dst, 1)
      else Ret (t, dst, 0)
  end.

Definition urldec_writeTransformerEOF {S} `{Sink S} (t : UrlDecoder) (dst : S) : outcome (UrlDecoder * S * Z) :=
  '(t, dst, r) ← flushBytesAndResetFilledCounter t dst; Ret (t, dst, Z.b2z r).

#[global] Instance url_decoder : Transformer UrlDecoder := {|
  tr_status := urldec_writeStatus;
  tr_set_status ws t := mkUrlDecoder ws (m_bytes t) (m_filled t);
  Streamable.writeTo S H := @urldec_writeTo S H;
  Streamable.writeTransformerEOF S H := @urldec_writeTransformerEOF S H |}.

Definition decodeURLStr (M : Type) `{Container M} `{!MMapFile M} (url : bytes) : outcome bytes :=
  let uriEncoded := bm_new url (wrapw 32 (zlen url)) in
  '(_, uriDecoded) ← transform UrlDecoder_new uriEncoded (bc_new (M := M));
  if succeed (m_writeStatus (bc_base uriDecoded)) then toStringEx SIZE_MAX 0 uriDecoded
  else Ret url.

(** ** Reference definitions *)

(** Percent encoding: letters and digits stand for themselves. *)
Definition escape_byte (b : byte) : bytes := if isalnum b then [b] else encodedByte b.
Fixpoint url_escape (l : bytes) : bytes :=
  match l with
  | [] => []
  | b :: l => escape_byte b ++ url_escape l
  end.

(** Percent decoding: a plus sign is a space, a percent sign that does not start
    two hexadecimal digits stands for itself. *)
Fixpoint url_unescape (l : bytes) : bytes :=
  match l with
  | [] => []
  | c :: l1 =>
      if c =? 37 then
        match l1 with
        | [] => [37]
        | a :: l2 =>
            if negb (isxdigit a) then 37 :: a :: url_unescape l2
            else
              match l2 with
              | [] => [37; a]
              | b :: l3 =>
                  if negb (isxdigit b) then 37 :: a :: b :: url_unescape l3
                  else hexPairToByte a b :: url_unescape l3
              end
        end
      else (if c =? 43 then 32 else c) :: url_unescape l1
  end.

Lemma url_escape_app l k : url_escape (l ++ k) = url_escape l ++ url_escape k.
Proof. induction l as [|b l IH]; [done|]. cbn. by rewrite IH, app_assoc. Qed.

Lemma url_escape_len l : zlen (url_escape l) <= 3 * zlen l.
Proof.
  induction l as [|b l IH]; [done|]. cbn [url_escape]. rewrite zlen_app, zlen_cons.
  assert (zlen (escape_byte b) <= 3); [|lia]. unfold escape_byte. by destruct (isalnum b).
Qed.

(** ** The encoder is a sink *)
Section Encoder.
Context {S : Type} `{SinkSpec S}.

Lemma plain_prefix l :
  0 <= urlenc_getPlainBytesSize l <= zlen l /\
  url_escape (ztake (urlenc_getPlainBytesSize l) l) = ztake (urlenc_getPlainBytesSize l) l.
Proof.
  induction l as [|b l [IH1 IH2]]; [done|]. cbn [urlenc_getPlainBytesSize].
  rewrite zlen_cons. unfold shouldEncodeThisByte.
  destruct (isalnum b) eqn:E; cbn [negb]; [|split; [lia|done]]. split; [lia|].
  rewrite ztake_cons by lia. rewrite Z.add_simpl_l. cbn [url_escape].
  unfold escape_byte. by rewrite E, IH2.
Qed.

Lemma plain_none b l : urlenc_getPlainBytesSize (b :: l) <= 0 -> isalnum b = false.
Proof.
  cbn [urlenc_getPlainBytesSize]. unfold shouldEncodeThisByte.
  destruct (isalnum b); [|done]. cbn [negb]. pose proof (plain_prefix l). lia.
Qed.

(** One round of the loop writes the escaped form of a non-empty prefix. *)
Lemma enc_round b l :
  let n := urlenc_getPlainBytesSize (b :: l) in
  let '(piece, consumed) := if n >? 0 then (ztake n (b :: l), n) else (encodedByte b, 1) in
  0 < consumed <= zlen (b :: l) /\ piece = url_escape (ztake consumed (b :: l)) /\ piece <> [].
Proof.
  cbn zeta. destruct (plain_prefix (b :: l)) as [Hn Hp]. pose proof (zlen_nonneg l).
  destruct (_ >? 0) eqn:E.
  - split_and!; [lia..|done|]. rewrite ztake_cons by lia. done.
  - rewrite zlen_cons. split_and!; [lia..| |done].
    rewrite ztake_cons by lia. rewrite ztake_le0 by lia. cbn. unfold escape_byte.
    by rewrite (plain_none b l) by lia.
Qed.

Lemma enc_loop_ok fuel rest r (dst : S) acc :
  (length rest < fuel)%nat -> sink_rep dst acc -> 3 * zlen rest <= sink_room dst ->
  succeed (sink_status dst) = true ->
  exists dst', urlenc_writeTo_loop fuel rest r dst = Ret (dst', r + zlen rest) /\
    sink_rep dst' (acc ++ url_escape rest) /\ sink_room dst - 3 * zlen rest <= sink_room dst' /\
    succeed (sink_status dst') = true.
Proof.
  revert rest r dst acc. induction fuel as [|fuel IH]; intros rest r dst acc Hf Hrep Hroom Hs; [lia|].
  destruct rest as [|b l]; cbn [urlenc_writeTo_loop].
  { exists dst. change (zlen []) with 0. cbn [url_escape]. rewrite Z.add_0_r, app_nil_r.
    split_and!; try done. lia. }
  pose proof (enc_round b l) as Hr. cbn zeta in Hr.
  destruct (if _ >? 0 then _ else _) as [piece n]. destruct Hr as (Hn & -> & Hne).
  pose proof (url_escape_len (ztake n (b :: l))) as Hlen. rewrite zlen_ztake in Hlen.
  destruct (writeFullStream_succeed (url_escape (ztake n (b :: l))) dst acc)
    as (d1 & Hw & Hrep1 & Hroom1 & Hs1); [done|lia|done|].
  rewrite Hw. cbn [mbind outcome_bind]. rewrite Hs1. cbn [negb].
  destruct (IH (zdrop n (b :: l)) (r + n) d1 (acc ++ url_escape (ztake n (b :: l))))
    as (d2 & Hl & Hrep2 & Hroom2 & Hs2); try done.
  - unfold zdrop, zlen in *. rewrite length_drop. lia.
  - rewrite zlen_zdrop. lia.
  - rewrite zlen_zdrop in *. exists d2. rewrite Hl. split_and!; [do 2 f_equal; lia| |lia|done].
    by rewrite <- app_assoc, <- url_escape_app, ztake_zdrop in Hrep2.
Qed.

(** The bytes an encoder takes when its destination has room for [r]. *)
Definition enc_room (r : Z) : Z := Z.min (r / 3) (SIZE_MAX / 3 - 3).

Lemma enc_room_less r r' n : 0 <= n -> r - n <= r' -> enc_room r - n <= enc_room r'.
Proof.
  intros Hn Hr. unfold enc_room. enough (r / 3 - n <= r' / 3) by lia.
  pose proof (Z.mul_div_le r 3 ltac:(lia)). apply Z.div_le_lower_bound; lia.
Qed.

#[export] Program Instance enc_sink_spec : SinkSpec (UrlEncoder * S) := {|
  sink_rep ts acc := succeed (urlenc_writeStatus ts.1) = true /\
    succeed (sink_status ts.2) = true /\ sink_rep ts.2 (url_escape acc);
  sink_room ts := enc_room (sink_room ts.2) |}.
Next Obligation.
  intros d [t dst] acc (Ht & Hs & Hrep) Hd. unfold enc_room in *. cbn [fst snd] in *.
  pose proof (Z.mul_div_le (sink_room dst) 3 eq_refl).
  assert (3 * zlen d <= sink_room dst) as Hroom by lia.
  destruct (enc_loop_ok (length d + 1) d 0 dst (url_escape acc)) as (d' & Hw & Hrep' & Hroom' & Hs');
    [lia|done..|].
  exists (t, d'), (zlen d). cbn [sink_write transformer_sink tr_write].
  destruct d as [|b d]; [by destruct Hd|]. cbn [writeTo url_encoder]. unfold urlenc_writeTo.
  replace (zlen (b :: d) >? _) with false by lia. rewrite Hw. cbn [mbind outcome_bind].
  rewrite Hs'. cbn [negb fst snd]. split; [done|]. split; [lia|].
  rewrite (ztake_ge (zlen _)) by lia. split; [by rewrite url_escape_app|]. split; [|done].
  enough (sink_room dst / 3 - zlen (b :: d) <= sink_room d' / 3) by lia.
  apply Z.div_le_lower_bound; [done|]. lia.
Qed.
End Encoder.

(** ** The decoder is a sink *)

(** The bytes of an escape sequence the decoder can be holding. *)
Inductive pending_escape : bytes -> Prop :=
| pending_none : pending_escape []
| pending_percent : pending_escape [37]
| pending_digit a : isxdigit a = true -> pending_escape [37; a].

Record dec_holds (t : UrlDecoder) (pend : bytes) : Prop := {
  dh_pending : pending_escape pend;
  dh_filled : m_filled t = zlen pend;
  dh_bytes : exists x y z, m_bytes t = [x; y; z] /\ ztake (zlen pend) [x; y; z] = pend;
  dh_status : succeed (urldec_writeStatus t) = true }.

Lemma unescape_pending pend : pending_escape pend -> url_unescape pend = pend.
Proof. intros []; cbn; [done..|]. by rewrite H. Qed.

Lemma plain_detected l :
  0 <= (urldec_getPlainBytesSize l).1 <= zlen l.
Proof.
  induction l as [|b l IH]; [done|]. cbn [urldec_getPlainBytesSize]. pose proof (zlen_nonneg l).
  rewrite zlen_cons. destruct (b =? 37); [cbn; lia|]. destruct (b =? 43); [cbn; lia|].
  destruct (urldec_getPlainBytesSize l). cbn in *. lia.
Qed.

Lemma unescape_plain l k :
  url_unescape (ztake (urldec_getPlainBytesSize l).1 l ++ k) =
    ztake (urldec_getPlainBytesSize l).1 l ++ url_unescape k.
Proof.
  induction l as [|b l IH]; [done|]. cbn [urldec_getPlainBytesSize].
  destruct (b =? 37) eqn:E1; [done|]. destruct (b =? 43) eqn:E2; [done|].
  pose proof (plain_detected l) as Hn. destruct (urldec_getPlainBytesSize l) as [n d]. cbn [fst] in *.
  rewrite ztake_cons by lia. rewrite Z.add_simpl_l. cbn [app url_unescape].
  by rewrite E1, E2, IH.
Qed.

Section Decoder.
Context {S : Type} `{SinkSpec S}.

Lemma write_or_fail_ok d (dst : S) acc :
  sink_rep dst acc -> zlen d <= sink_room dst -> d <> [] ->
  exists dst', write_or_fail d dst = Ret dst' /\ sink_rep dst' (acc ++ d) /\
    sink_room dst - zlen d <= sink_room dst' /\ succeed (sink_status dst') = true.
Proof.
  intros Hrep Hr Hne. unfold write_or_fail.
  destruct (writeFullStream_succeed d dst acc) as (d' & -> & ?); [done..|]. by exists d'.
Qed.

Lemma flush_ok t (dst : S) acc pend :
  m_filled t = zlen pend -> ztake (zlen pend) (m_bytes t) = pend ->
  zlen pend <= sink_room dst -> sink_rep dst acc -> succeed (sink_status dst) = true ->
  exists dst', flushBytesAndResetFilledCounter t dst = Ret (urldec_set_filled 0 t, dst', true) /\
    sink_rep dst' (acc ++ pend) /\ sink_room dst - zlen pend <= sink_room dst' /\
    succeed (sink_status dst') = true.
Proof.
  intros Hf Hb Hr Hrep Hs. unfold flushBytesAndResetFilledCounter. rewrite Hf, Hb.
  destruct (decide (pend = [])) as [->|Hne].
  { exists dst. rewrite app_nil_r. change (zlen []) with 0. split_and!; try done. lia. }
  destruct (writeFullStream_succeed pend dst acc) as (d' & -> & ?); [done..|]. by exists d'.
Qed.

(** What one [writeTo] does with the sequence the decoder holds. *)
Definition dec_step (t : UrlDecoder) (pend data : bytes) (dst : S) acc : Prop :=
  exists t' dst' k w pend', urldec_writeTo data t dst = Ret (t', dst', k) /\
    0 < k <= zlen data /\ dec_holds t' pend' /\ sink_rep dst' (acc ++ w) /\
    (forall rest, url_unescape (pend ++ ztake k data ++ rest) = w ++ url_unescape (pend' ++ rest)) /\
    sink_room dst - zlen pend - k <= sink_room dst' - zlen pend' /\
    succeed (sink_status dst') = true.

(** A step that reads one byte. *)
Lemma dec_step_one t pend b l (dst : S) acc t' dst' w pend' :
  urldec_writeTo (b :: l) t dst = Ret (t', dst', 1) -> dec_holds t' pend' ->
  sink_rep dst' (acc ++ w) ->
  (forall rest, url_unescape (pend ++ b :: rest) = w ++ url_unescape (pend' ++ rest)) ->
  sink_room dst - zlen pend - 1 <= sink_room dst' - zlen pend' ->
  succeed (sink_status dst') = true -> dec_step t pend (b :: l) dst acc.
Proof.
  intros. pose proof (zlen_nonneg l). exists t', dst', 1, w, pend'. rewrite zlen_cons.
  split_and!; try done; lia.
Qed.

Lemma dec_holds_intro t pend x y z :
  pending_escape pend -> m_filled t = zlen pend -> m_bytes t = [x; y; z] ->
  ztake (zlen pend) [x; y; z] = pend -> succeed (urldec_writeStatus t) = true -> dec_holds t pend.
Proof. intros. split; [done..| |done]. by exists x, y, z. Qed.

Lemma dec_step_plain t b l (dst : S) acc :
  dec_holds t [] -> sink_rep dst acc -> succeed (sink_status dst) = true ->
  zlen (b :: l) <= sink_room dst -> dec_step t [] (b :: l) dst acc.
Proof.
  intros [_ Hf (x & y & z & Hb & _) Hst] Hrep Hs Hroom. change (zlen []) with 0 in Hf.
  pose proof (plain_detected (b :: l)) as Hp. pose proof (unescape_plain (b :: l)) as Hu.
  pose proof (zlen_nonneg l). pose proof (zlen_cons b l).
  destruct (urldec_getPlainBytesSize (b :: l)) as [n det] eqn:E. cbn [fst] in *.
  destruct (n >? 0) eqn:En.
  { destruct (write_or_fail_ok (ztake n (b :: l)) dst acc) as (d' & Hw & Hrep' & Hr' & Hs'); try done.
    { rewrite zlen_ztake. lia. }
    { rewrite ztake_cons by lia. done. }
    exists t, d', n, (ztake n (b :: l)), []. rewrite zlen_ztake in Hr'. change (zlen []) with 0.
    split_and!; try done; [|lia..|by eapply dec_holds_intro; try done; constructor|lia].
    unfold urldec_writeTo. by rewrite Hf, E, En, Hw. }
  cbn [urldec_getPlainBytesSize] in E. destruct (b =? 37) eqn:E1.
  { injection E as <- <-. apply Z.eqb_eq in E1 as ->.
    apply (dec_step_one _ _ _ _ _ _ (urldec_set_filled 1 (urldec_set_byte 0 37 t)) dst [] [37]);
      rewrite ?app_nil_r; try done; [by unfold urldec_writeTo; rewrite Hf| |change (zlen [37]) with 1; change (zlen []) with 0; lia].
    apply (dec_holds_intro _ _ 37 y z); try done; [constructor|]. cbn. by rewrite Hb. }
  destruct (b =? 43) eqn:E2.
  { injection E as <- <-. apply Z.eqb_eq in E2 as ->.
    destruct (write_or_fail_ok [32] dst acc) as (d' & Hw & Hrep' & Hr' & Hs'); try done.
    { change (zlen [32]) with 1. lia. }
    apply (dec_step_one _ _ _ _ _ _ (urldec_set_byte 0 32 t) d' [32] []); try done.
    - assert (ztake 1 (m_bytes (urldec_set_byte 0 32 t)) = [32]) as Hm by (cbn; by rewrite Hb).
      unfold urldec_writeTo. rewrite Hf. cbn [Z.eqb Pos.eqb urldec_getPlainBytesSize Z.gtb Z.compare].
      by rewrite Hm, Hw.
    - apply (dec_holds_intro _ _ 32 y z); try done; [constructor|]. cbn. by rewrite Hb.
    - change (zlen [32]) with 1 in *. change (zlen []) with 0. lia. }
  pose proof (plain_detected l). destruct (urldec_getPlainBytesSize l) as [m det'].
  injection E as <- <-. cbn [fst] in *. lia.
Qed.

(** The cases of a sequence in progress. *)
Lemma dec_step_percent t b l (dst : S) acc :
  dec_holds t [37] -> sink_rep dst acc -> succeed (sink_status dst) = true ->
  2 <= sink_room dst -> dec_step t [37] (b :: l) dst acc.
Proof.
  intros [_ Hf (x & y & z & Hb & Hx) Hst] Hrep Hs Hroom. change (zlen [37]) with 1 in *.
  injection Hx as ->. set (t1 := urldec_set_filled 2 (urldec_set_byte 1 b t)).
  assert (m_bytes t1 = [37; b; z]) as Hb1 by (cbn; by rewrite Hb).
  destruct (isxdigit b) eqn:Eb.
  { apply (dec_step_one _ _ _ _ _ _ t1 dst [] [37; b]); rewrite ?app_nil_r; try done.
    - unfold urldec_writeTo. rewrite Hf. cbn. by rewrite Eb.
    - apply (dec_holds_intro _ _ 37 b z); try done. by constructor.
    - change (zlen [37; b]) with 2. change (zlen [37]) with 1. lia. }
  destruct (flush_ok t1 dst acc [37; b]) as (d' & Hfl & Hrep' & Hr' & Hs'); try done.
  { by rewrite Hb1. }
  apply (dec_step_one _ _ _ _ _ _ (urldec_set_filled 0 t1) d' [37; b] []); try done.
  - unfold urldec_writeTo. rewrite Hf. cbn [Z.eqb Pos.eqb]. rewrite Eb. cbn [negb]. fold t1. by rewrite Hfl.
  - apply (dec_holds_intro _ _ 37 b z); try done. constructor.
  - intros rest. cbn. by rewrite Eb.
  - change (zlen [37; b]) with 2 in *. change (zlen [37]) with 1. change (zlen []) with 0. lia.
Qed.

Lemma dec_step_digit t a b l (dst : S) acc :
  dec_holds t [37; a] -> sink_rep dst acc -> succeed (sink_status dst) = true ->
  3 <= sink_room dst -> dec_step t [37; a] (b :: l) dst acc.
Proof.
  intros [Hp Hf (x & y & z & Hb & Hx) Hst] Hrep Hs Hroom. change (zlen [37; a]) with 2 in *.
  injection Hx as -> ->. assert (isxdigit a = true) as Ha by (by inversion Hp).
  set (t1 := urldec_set_byte 2 b t).
  assert (m_bytes t1 = [37; a; b]) as Hb1 by (cbn; by rewrite Hb).
  destruct (isxdigit b) eqn:Eb.
  - destruct (write_or_fail_ok [hexPairToByte a b] dst acc) as (d' & Hw & Hrep' & Hr' & Hs'); try done.
    { change (zlen [_]) with 1. lia. }
    apply (dec_step_one _ _ _ _ _ _ (urldec_set_filled 0 t1) d' [hexPairToByte a b] []); try done.
    + unfold urldec_writeTo. rewrite Hf. cbn [Z.eqb Pos.eqb]. rewrite Eb. cbn [negb]. fold t1.
      cbn [urldec_set_filled m_bytes]. rewrite Hb1. cbn [nth]. by rewrite Hw.
    + apply (dec_holds_intro _ _ 37 a b); try done. constructor.
    + intros rest. cbn [app url_unescape Z.eqb Pos.eqb]. by rewrite Ha, Eb.
    + change (zlen [hexPairToByte a b]) with 1 in *. change (zlen [37; a]) with 2. change (zlen []) with 0. lia.
  - destruct (flush_ok (urldec_set_filled 3 t1) dst acc [37; a; b]) as (d' & Hfl & Hrep' & Hr' & Hs'); try done.
    { cbn [urldec_set_filled m_bytes]. by rewrite Hb1. }
    apply (dec_step_one _ _ _ _ _ _ (urldec_set_filled 0 (urldec_set_filled 3 t1)) d' [37; a; b] []); try done.
    + unfold urldec_writeTo. rewrite Hf. cbn [Z.eqb Pos.eqb]. rewrite Eb. cbn [negb]. fold t1. by rewrite Hfl.
    + apply (dec_holds_intro _ _ 37 a b); try done. constructor.
    + intros rest. cbn [app url_unescape Z.eqb Pos.eqb]. by rewrite Ha, Eb.
    + change (zlen [37; a; b]) with 3 in *. change (zlen [37; a]) with 2. change (zlen []) with 0. lia.
Qed.

#[export] Program Instance dec_sink_spec : SinkSpec (UrlDecoder * S) := {|
  sink_rep ts acc := exists pend out, dec_holds ts.1 pend /\ sink_rep ts.2 out /\
    succeed (sink_status ts.2) = true /\
    forall rest, url_unescape (acc ++ rest) = out ++ url_unescape (pend ++ rest);
  sink_room ts := sink_room ts.2 - m_filled ts.1 |}.
Next Obligation.
  intros d [t dst] acc (pend & out & Hh & Hrep & Hs & Hu) Hd. cbn [fst snd] in *.
  destruct d as [|b l]; [by destruct Hd|].
  assert (dec_step t pend (b :: l) dst out) as (t' & d' & k & w & pend' & Hw & Hk & Hh' & Hrep' & Hu' & Hr' & Hs').
  { pose proof (dh_pending _ _ Hh) as Hp. pose proof (dh_filled _ _ Hh) as Hf.
    destruct Hp; [apply dec_step_plain|apply dec_step_percent|apply dec_step_digit]; try done;
      rewrite Hf in Hd; unfold zlen in *; cbn [length] in *; lia. }
  exists (t', d'), k. cbn [sink_write transformer_sink tr_write writeTo url_decoder]. rewrite Hw.
  cbn [mbind outcome_bind]. rewrite Hs'. cbn [negb fst snd]. split; [done|]. split; [done|].
  split; [|split].
  - exists pend', (out ++ w). split_and!; try done. intros rest.
    by rewrite <- !app_assoc, Hu, Hu'.
  - rewrite (dh_filled _ _ Hh), (dh_filled _ _ Hh'). lia.
  - apply (dh_status _ _ Hh').
Qed.
End Decoder.

(** ** The two functions *)
Section Strings.
Context {M : Type} `{Container M} `{!MMapFile M}.

(** A transformation into a fresh chunk container, up to the last byte. *)
Lemma transform_streamed {T} `{Transformer T} `{!SinkSpec (T * B_Chunks M)} (t : T) url :
  zlen url <= UINT32_MAX -> sink_rep (t, bc_new (M := M)) [] ->
  zlen url <= sink_room (t, bc_new (M := M)) ->
  exists ts, container_streamTo (bm_new url (wrapw 32 (zlen url))) (t, bc_new (M := M)) = Ret ts /\
    sink_rep ts.1 url /\ sink_room (t, bc_new (M := M)) - zlen url <= sink_room ts.1.
Proof.
  intros Hl Hrep Hroom. pose proof (zlen_nonneg url).
  assert (wrapw 32 (zlen url) = zlen url) as -> by (apply Z.mod_small; unfold UINT32_MAX in *; lia).
  destruct (bm_new_ok url Hl) as [Hok Hc].
  destruct (appendTo_all (bm_new url (zlen url)) (t, bc_new (M := M)) []) as (ts & Hs & Hr & Hroom'); try done.
  { change (contents ?m) with (bm_contents m). by rewrite Hc. }
  unfold container_streamTo. rewrite Hs. cbn [mbind outcome_bind].
  eexists (ts, _). split; [done|]. change (contents ?m) with (bm_contents m) in *.
  by rewrite Hc in *.
Qed.

Lemma bc_rep_string (c : B_Chunks M) acc :
  sink_rep c acc -> toStringEx SIZE_MAX 0 c = Ret acc.
Proof. intros (Hr & <- & _). exact (toStringEx_all c (br_ok _ Hr)). Qed.

Lemma encodeURLStr_spec url :
  3 * zlen url <= 262144 -> encodeURLStr M url = Ret (url_escape url).
Proof.
  intros Hl. pose proof (zlen_nonneg url). pose proof bc_new_rep as Hrep. pose proof bc_new_room as Hroom.
  unfold encodeURLStr, transform.
  destruct (transform_streamed UrlEncoder_new url) as ([[t c] ok] & Hs & (Ht & Hsc & Hc) & _).
  - unfold UINT32_MAX. lia.
  - split; [done|]. split; [done|exact Hrep].
  - cbn [sink_room enc_sink_spec fst snd] in *. rewrite Hroom. change (enc_room 262144) with 87381. lia.
  - cbn [streamTo container_source]. rewrite Hs. cbn [mbind outcome_bind fst snd] in *.
    unfold writeEOF. cbn [sink_write transformer_sink tr_write writeTransformerEOF url_encoder mbind outcome_bind].
    rewrite Hsc. cbn [negb mbind outcome_bind has_value]. cbn [sink_status container_sink] in Hsc.
    change (get_base c) with (bc_base c) in Hsc. rewrite Hsc. by apply bc_rep_string.
Qed.

Lemma decodeURLStr_spec url :
  zlen url <= 262144 -> decodeURLStr M url = Ret (url_unescape url).
Proof.
  intros Hl. pose proof (zlen_nonneg url). pose proof bc_new_rep as Hrep. pose proof bc_new_room as Hroom.
  unfold decodeURLStr, transform.
  destruct (transform_streamed UrlDecoder_new url) as ([[t c] ok] & Hs & (pend & out & Hh & Hc & Hsc & Hu) & Hr).
  - unfold UINT32_MAX. lia.
  - exists [], []. split_and!; try done. by eapply dec_holds_intro; try done; constructor.
  - cbn [sink_room dec_sink_spec fst snd UrlDecoder_new m_filled] in *. rewrite Hroom. lia.
  - cbn [streamTo container_source]. rewrite Hs. cbn [mbind outcome_bind fst snd] in *.
    destruct Hh as [Hp Hf (x & y & z & Hb & Htk) Hst].
    cbn [sink_room dec_sink_spec fst snd UrlDecoder_new m_filled] in Hr. rewrite Hroom, Hf in Hr.
    destruct (flush_ok t c out pend) as (c' & Hfl & Hrep' & _ & Hs'); try done; [by rewrite Hb|lia|].
    unfold writeEOF. cbn [sink_write transformer_sink tr_write writeTransformerEOF url_decoder].
    unfold urldec_writeTransformerEOF. rewrite Hfl. cbn [mbind outcome_bind]. rewrite Hs'.
    cbn [negb mbind outcome_bind has_value]. cbn [sink_status container_sink] in Hs'.
    change (get_base c') with (bc_base c') in Hs'. rewrite Hs', (bc_rep_string _ _ Hrep').
    specialize (Hu []). rewrite !app_nil_r, (unescape_pending pend) in Hu by done. by rewrite Hu.
Qed.

(** Encoding what a container holds into any sink, and decoding it into a fresh
    container. *)
Lemma encode_from {C} `{ScanSpec C} {S} `{SinkSpec S} (c : C) (out : S) acc :
  contents_ok c -> sink_rep out acc -> succeed (sink_status out) = true ->
  zlen (contents c) <= enc_room (sink_room out) ->
  exists t out', transform UrlEncoder_new c out = Ret (t, out') /\ sink_rep out' (acc ++ url_escape (contents c)) /\
    succeed (sink_status out') = true /\ enc_room (sink_room out) - zlen (contents c) <= enc_room (sink_room out').
Proof.
  intros Hok Hrep Hs Hroom.
  destruct (appendTo_all (H3 := enc_sink_spec (H0 := shifted_sink acc)) c (UrlEncoder_new, out) [])
    as ([t out'] & Ha & (Ht & Hs' & Hrep') & Hroom'); try done.
  { split; [done|]. split; [done|]. cbn [sink_rep shifted_sink url_escape fst snd]. by rewrite app_nil_r. }
  cbn [sink_room enc_sink_spec shifted_sink fst snd sink_rep app] in *.
  unfold transform. cbn [streamTo container_source]. unfold container_streamTo. rewrite Ha. cbn [mbind outcome_bind].
  unfold writeEOF. cbn [sink_write transformer_sink tr_write writeTransformerEOF url_encoder mbind outcome_bind].
  rewrite Hs'. cbn [negb mbind outcome_bind has_value]. by eexists _, _.
Qed.

Lemma decode_into {C} `{ScanSpec C} (rc : B_Ref * C) (d : B_Chunks M) :
  ref_ok rc -> sink_rep d [] -> succeed (sink_status d) = true -> zlen (ref_contents rc) <= sink_room d ->
  exists t d', transform UrlDecoder_new rc d = Ret (t, d') /\ sink_rep d' (url_unescape (ref_contents rc)) /\
    succeed (sink_status d') = true.
Proof.
  intros Hok Hrep Hsd Hroom.
  destruct (ref_appendTo_all rc (UrlDecoder_new, d) []) as ([t d1] & Ha & (pend & out & Hh & Hc & Hsc & Hu) & Hr); try done.
  { exists [], []. split_and!; try done. by eapply dec_holds_intro; try done; constructor. }
  { cbn [sink_room dec_sink_spec fst snd UrlDecoder_new m_filled]. lia. }
  cbn [fst snd app] in *. destruct Hh as [Hp Hf (x & y & z & Hb & Htk) Hst].
  cbn [sink_room dec_sink_spec fst snd UrlDecoder_new m_filled] in Hr. rewrite Hf in Hr.
  destruct (flush_ok t d1 out pend) as (d' & Hfl & Hrep' & _ & Hs'); try done; [by rewrite Hb|lia|].
  unfold transform. cbn [streamTo container_source]. unfold container_streamTo. rewrite Ha. cbn [mbind outcome_bind].
  unfold writeEOF. cbn [sink_write transformer_sink tr_write writeTransformerEOF url_decoder].
  unfold urldec_writeTransformerEOF. rewrite Hfl. cbn [mbind outcome_bind]. rewrite Hs'.
  cbn [negb mbind outcome_bind has_value]. eexists _, _. split; [done|]. split; [|done].
  specialize (Hu []). rewrite !app_nil_r, (unescape_pending pend) in Hu by done. by rewrite Hu.
Qed.

(** A writable-looking container without room refuses every byte, and the
    flag of its status comes out of [writeFullStream] as [true]. *)
Definition full (c : B_Chunks M) : Prop :=
  0 <= m_maxSize (bc_base c) <= bc_size c /\ bc_size c < SIZE_MOD.

Lemma full_refuses (c : B_Chunks M) d :
  full c -> d <> [] -> zlen d < SIZE_MOD ->
  exists c', writeFullStream d c = Ret (c', false) /\ full c' /\ succeed (sink_status c') = true.
Proof.
  intros [Hm Hs] Hne Hd. assert (0 < zlen d).
  { pose proof (zlen_nonneg d). destruct (Z.eq_dec (zlen d) 0) as [E|]; [by apply zlen_zero_nil in E|lia]. }
  assert (Container.append d c = Ret (c, None)) as Ha.
  { unfold Container.append. cbn [get_base bc_container csize].
    destruct (m_readOnly (bc_base c)); [done|].
    destruct (CHECK_UINT_OVERFLOW_SUM (zlen d) (bc_size c)) eqn:E; [done|].
    assert (zlen d + bc_size c < SIZE_MOD) as Hb.
    { rewrite check_overflow_spec in E by (unfold is_size; lia). lia. }
    rewrite wrap_small by lia. by replace (_ >? m_maxSize _) with true by lia. }
  destruct d as [|b d]; [done|]. unfold writeFullStream. rewrite Nat.add_comm. cbn [Nat.add writeFullStream_loop].
  cbn [sink_write container_sink]. unfold write. rewrite Ha. cbn [mbind outcome_bind].
  rewrite ws_add_ssize_failed. cbn [mbind outcome_bind]. eexists. by split_and!.
Qed.

Lemma encodedByte_some b : encodedByte b <> [] /\ zlen (encodedByte b) = 3.
Proof. done. Qed.

Lemma enc_loop_full fuel rest r (c : B_Chunks M) :
  full c -> rest <> [] -> zlen rest < SIZE_MOD -> urlenc_writeTo_loop fuel rest r c = NoFuel.
Proof.
  revert c. induction fuel as [|fuel IH]; intros c Hc Hne Hl; destruct rest as [|b rest]; try done.
  cbn [urlenc_writeTo_loop]. pose proof (enc_round b rest) as Hr. cbn zeta in Hr.
  set (round := if _ >? 0 then _ else _) in *.
  assert (round.1 <> [] /\ zlen round.1 < SIZE_MOD) as [Hn Hz].
  { subst round. destruct (_ >? 0) eqn:E; cbn [fst]; [|done].
    split; [by rewrite ztake_cons by lia|]. rewrite zlen_ztake. lia. }
  destruct round as [piece n]. cbn [fst] in *.
  destruct (full_refuses c piece) as (c' & -> & Hc' & Hs); [done..|].
  cbn [mbind outcome_bind]. rewrite Hs. cbn [negb]. by apply IH.
Qed.
End Strings.

(** *** The round trip *)
Lemma unescape_escape l : Forall is_byte l -> url_unescape (url_escape l) = l.
Proof.
  induction 1 as [|b l Hb _ IH]; [done|]. cbn [url_escape]. unfold escape_byte.
  destruct (isalnum b) eqn:E.
  - cbn [app url_unescape]. unfold isalnum, isalpha, isupper, islower, isdigit in E.
    replace (b =? 37) with false by lia. replace (b =? 43) with false by lia. by rewrite IH.
  - cbn [encodedByte app url_unescape Z.eqb Pos.eqb]. unfold is_byte in Hb.
    assert (0 <= b / 16 < 16) by (split; [apply Z.div_pos; lia|apply Z.div_lt_upper_bound; lia]).
    assert (0 <= b mod 16 < 16) by (apply Z.mod_pos_bound; lia).
    rewrite !hex_digit_xdigit by done. cbn [negb]. unfold hexPairToByte.
    rewrite !hex_digit_xdigit by done. cbn [negb orb].
    by rewrite !hex_digit_value, hex_pair, IH by done.
Qed.

(** ** Properties *)

(** C23. URL coding through the streams ([Encoders::URL::encodeURLStr],
    [Decoders::URL::decodeURLStr]): encoding a text of up to 87381 bytes gives
    its percent encoding, and decoding that gives the text back, byte for byte. *)
Theorem url_stream_roundtrip {M} `{Container M} `{!MMapFile M} (url : bytes) :
  Forall is_byte url -> 3 * zlen url <= 262144 ->
  exists encoded, encodeURLStr M url = Ret encoded /\ encoded = url_escape url /\
    decodeURLStr M encoded = Ret url.
Proof.
  intros Hb Hl. exists (url_escape url). split; [by apply encodeURLStr_spec|]. split; [done|].
  rewrite decodeURLStr_spec; [by rewrite unescape_escape|]. pose proof (url_escape_len url). lia.
Qed.

(** Decoding any text, malformed escapes included
    ([Decoders::URL::writeTo], [writeTransformerEOF]): the result is the percent
    decoding, in which a percent sign without two hexadecimal digits stands for
    itself, whatever the sizes of the pieces the text arrives in. *)
Theorem decodeURLStr_total {M} `{Container M} `{!MMapFile M} (url : bytes) :
  zlen url <= 262144 -> decodeURLStr M url = Ret (url_unescape url).
Proof. apply decodeURLStr_spec. Qed.

(** The encoder never returns when its destination is full
    ([Encoders::URL::writeTo]): the loop is left when the destination's [succeed]
    flag is false, but a refused write ends with [succeed += -1], which turns the
    flag back to true, so the same bytes are written again for ever. *)
Theorem encoder_hangs_when_full {M} `{Container M} `{!MMapFile M} (c : B_Chunks M) (buf : bytes) :
  full c -> buf <> [] -> zlen buf < SIZE_MOD ->
  forall fuel, urlenc_writeTo_loop fuel buf 0 c = NoFuel.
Proof. intros. by apply enc_loop_full. Qed.

#[local] Existing Instance no_files.

Lemma url_stream_roundtrip_witness :
  exists encoded, encodeURLStr B_MEM (bs "a b/c") = Ret encoded /\ encoded = url_escape (bs "a b/c") /\
    decodeURLStr B_MEM encoded = Ret (bs "a b/c").
Proof. apply (url_stream_roundtrip (M := B_MEM)); [repeat constructor; discriminate|discriminate]. Defined.

Lemma decodeURLStr_total_witness :
  decodeURLStr B_MEM (bs "x%2Fy+%zz%4") = Ret (bs "x/y %zz%4").
Proof. exact (decodeURLStr_total (M := B_MEM) (bs "x%2Fy+%zz%4") ltac:(discriminate)). Defined.

Lemma encoder_hangs_when_full_witness :
  urlenc_writeTo_loop 100 (bs "ab") 0 (setMaxSize 0 (bc_new (M := B_MEM))) = NoFuel.
Proof.
  refine (encoder_hangs_when_full (M := B_MEM) _ (bs "ab") _ _ _ 100); [split; [split|]|..]; by vm_compute.
Defined.
