(* ===== verification/HttpVars.v ===== *)
(** * URL variables (Protocol_HTTP/common_urlvars.cpp,
      common_urlvar_subparser.cpp, Memory/vars.cpp)

    [URLVars] is a stream parser over one sub-parser, [URLVarContent], that reads
    names and values in turn; and a stream object that writes the variables back.

    A machine that reads one byte at a time says what a query means
    ([query_step]); the parser does what the machine does, whatever the sizes of
    the writes, and variables that are written are read back. *)

From S2P Require Import Prelude SafeInt Mem Streamable Container ContainerTheory BMem BChunks ChunkBuffer BRef.
From S2P Require Import SubParser Parser Encoders UrlStream HttpContent.
From Stdlib Require Import ZArith Lia.

Inductive URLVarsParsingStatus := WAITING_FOR_NAME | WAITING_FOR_CONTENT.

#[export] Instance URLVarsParsingStatus_eq_dec : EqDecision URLVarsParsingStatus.
Proof. solve_decision. Defined.

Section Vars.
Context {M : Type} `{Container M} `{!MMapFile M}.

(** ** The sub-parser; [sp_sub] is [m_pData]. *)
Definition URLVarContent : Type := SubParser M (B_Chunks M).
Implicit Types p : URLVarContent.

Definition setParseMultiDelimiter (v : list bytes) p : URLVarContent :=
  mkSubParser (m_streamEnded p) (m_parsedBuffer p) (m_unparsedBuffer p) (m_parseDelimiter p) (m_delimiterFound p) v
    (m_parseMode p) (m_parseStatus p) (sp_sub p).

Definition urlvar_parse p : outcome (URLVarContent * ParseResult) :=
  let p := sp_set_sub (Container.clear (sp_sub p)).1 p in
  if csize (getParsedBuffer p) =? 0 then Ret (p, GET_MORE_DATA)
  else
    '(_, d) ← transform UrlDecoder_new (getParsedBuffer p) (sp_sub p);
    let p := sp_set_sub d p in
    if negb (succeed (m_writeStatus (bc_base d))) then Ret (sp_set_sub (Container.clear d).1 p, PR_ERROR)
    else Ret (p, GOTO_NEXT_SUBPARSER).

#[export] Instance urlvar_sub : SubParserImpl M (B_Chunks M) := {|
  parse := urlvar_parse;
  malloc_block n := replicate (Z.to_nat n) 0 |}.

Definition setVarType (varName : bool) p : URLVarContent :=
  setParseMultiDelimiter (if varName then [bs "="; bs "&"] else [bs "&"]) p.
Definition setMaxObjectSize (size : Z) p : URLVarContent := setParseDataTargetSize size p.

Definition urlvar_new : URLVarContent :=
  let p := setParseStrategy MULTIDELIMITER (sp_new bc_new) in
  let p := setParseMultiDelimiter [bs "="; bs "&"] p in
  setMaxObjectSize 4096 p.

Definition getContentAndFlush p : URLVarContent * B_Chunks M := (sp_set_sub bc_new p, sp_sub p).

Definition getContentAsStringAndFlush p : outcome (URLVarContent * bytes) :=
  r ← toString SIZE_MAX 0 (sp_sub p);
  Ret (sp_set_sub bc_new p, match r with Some s => s | None => [] end).

(** ** The variables *)
Record URLVars := mkURLVars {
  m_currentStat : URLVarsParsingStatus;
  m_currentVarName : bytes;
  m_vars : list (bytes * B_Chunks M);
  m_urlVarParser : URLVarContent;
  m_maxVarNameSize : Z;
  m_maxVarContentSize : Z;
  m_maxVarsCount : Z }.
Implicit Types v : URLVars.

Definition v_set_parser p v : URLVars :=
  mkURLVars (m_currentStat v) (m_currentVarName v) (m_vars v) p (m_maxVarNameSize v) (m_maxVarContentSize v)
    (m_maxVarsCount v).
Definition v_set_stat (s : URLVarsParsingStatus) v : URLVars :=
  mkURLVars s (m_currentVarName v) (m_vars v) (m_urlVarParser v) (m_maxVarNameSize v) (m_maxVarContentSize v)
    (m_maxVarsCount v).
Definition v_set_name (n : bytes) v : URLVars :=
  mkURLVars (m_currentStat v) n (m_vars v) (m_urlVarParser v) (m_maxVarNameSize v) (m_maxVarContentSize v)
    (m_maxVarsCount v).
Definition v_set_vars (l : list (bytes * B_Chunks M)) v : URLVars :=
  mkURLVars (m_currentStat v) (m_currentVarName v) l (m_urlVarParser v) (m_maxVarNameSize v) (m_maxVarContentSize v)
    (m_maxVarsCount v).
Definition setMaxVarsCount (n : Z) v : URLVars :=
  mkURLVars (m_currentStat v) (m_currentVarName v) (m_vars v) (m_urlVarParser v) (m_maxVarNameSize v)
    (m_maxVarContentSize v) n.

(** [setMaxVarNameSize] and [setMaxVarContentSize], with the virtual calls. *)
Definition iSetMaxVarNameSize v : URLVars :=
  match m_currentStat v with
  | WAITING_FOR_NAME => v_set_parser (setMaxObjectSize (m_maxVarNameSize v) (m_urlVarParser v)) v
  | WAITING_FOR_CONTENT => v
  end.
Definition iSetMaxVarContentSize v : URLVars :=
  match m_currentStat v with
  | WAITING_FOR_CONTENT => v_set_parser (setMaxObjectSize (m_maxVarContentSize v) (m_urlVarParser v)) v
  | WAITING_FOR_NAME => v
  end.
Definition setMaxVarNameSize (n : Z) v : URLVars :=
  iSetMaxVarNameSize (mkURLVars (m_currentStat v) (m_currentVarName v) (m_vars v) (m_urlVarParser v) n
    (m_maxVarContentSize v) (m_maxVarsCount v)).
Definition setMaxVarContentSize (n : Z) v : URLVars :=
  iSetMaxVarContentSize (mkURLVars (m_currentStat v) (m_currentVarName v) (m_vars v) (m_urlVarParser v)
    (m_maxVarNameSize v) n (m_maxVarsCount v)).

Definition urlvars_new : URLVars :=
  let p := setMaxObjectSize (1 * KB_MULT) (setVarType true urlvar_new) in
  mkURLVars WAITING_FOR_NAME [] [] p (1 * KB_MULT) (16 * MB_MULT) 512.

Definition isEmpty v : bool := match m_vars v with [] => true | _ => false end.

Definition varCount (varName : bytes) v : Z :=
  wrapw 32 (zlen (filter (fun i => i.1 = varName) (m_vars v))).

Definition getValues (varName : bytes) v : list (B_Chunks M) :=
  map snd (filter (fun i => i.1 = varName) (m_vars v)).

Fixpoint get_first (varName : bytes) (l : list (bytes * B_Chunks M)) : option (B_Chunks M) :=
  match l with
  | [] => None
  | i :: l => if bool_decide (i.1 = varName) then Some i.2 else get_first varName l
  end.
Definition getValue (varName : bytes) v : option (B_Chunks M) := get_first varName (m_vars v).
Definition exist (varName : bytes) v : bool := has_value (getValue varName v).

Definition addVar (varName : bytes) (data : B_Chunks M) v : URLVars * bool :=
  if bool_decide (varName <> []) && (zlen (m_vars v) <? m_maxVarsCount v) then
    (v_set_vars (m_vars v ++ [(varName, data)]) v, true)
  else (v, false).

Definition vars_clear v : URLVars := v_set_vars [] v.

Definition urlvars_changeToNextParser v : outcome (URLVars * bool) :=
  match m_currentStat v with
  | WAITING_FOR_NAME =>
      '(p, name) ← getContentAsStringAndFlush (m_urlVarParser v);
      let v := v_set_name name (v_set_parser p v) in
      if bool_decide (m_delimiterFound (m_urlVarParser v) = bs "&") || m_streamEnded (m_urlVarParser v) then
        let '(p, data) := getContentAndFlush (m_urlVarParser v) in
        Ret (addVar (m_currentVarName v) data (v_set_parser p v))
      else
        let v := v_set_stat WAITING_FOR_CONTENT v in
        let v := v_set_parser (setVarType false (m_urlVarParser v)) v in
        let v := v_set_parser (setMaxObjectSize (m_maxVarContentSize v) (m_urlVarParser v)) v in
        Ret (v, true)
  | WAITING_FOR_CONTENT =>
      let '(p, data) := getContentAndFlush (m_urlVarParser v) in
      let '(v, r) := addVar (m_currentVarName v) data (v_set_parser p v) in
      let v := v_set_stat WAITING_FOR_NAME v in
      let v := v_set_parser (setVarType true (m_urlVarParser v)) v in
      let v := v_set_parser (setMaxObjectSize (m_maxVarNameSize v) (m_urlVarParser v)) v in
      Ret (v, r)
  end.

#[export] Instance urlvars_protocol : ParserImpl URLVars := {|
  currentSubParser _ := true;
  cur_setParseResult r v := v_set_parser (setParseResult r (m_urlVarParser v)) v;
  cur_writeIntoSubParser buf v :=
    '(p, r) ← writeIntoSubParser buf (m_urlVarParser v); Ret (v_set_parser p v, r);
  cur_getParseStatus v := m_parseStatus (m_urlVarParser v);
  changeToNextParser := urlvars_changeToNextParser;
  initProtocol v := Ret (v, true);
  endProtocol v := Ret v |}.

(** [URLVars::create]. *)
Definition urlvars_create : Parser URLVars := pr_set_initialized true (pr_new urlvars_new).

(** ** Writing the variables *)
Section Send.
Context {S : Type} `{Sink S}.

Definition stream_var (firstVar : bool) (i : bytes * B_Chunks M) (out : S) : outcome (S * bool) :=
  '(out, ok) ← (if firstVar then Ret (out, true)
                else '(out, _) ← writeString (bs "&") out; Ret (out, succeed (sink_status out)) : outcome (S * bool));
  if negb ok then Ret (out, false)
  else
    '(varName, _) ← Container.append i.1 (bc_new (M := M));
    '(_, out) ← transform UrlEncoder_new varName out;
    if negb (succeed (sink_status out)) then Ret (out, false)
    else if negb (csize i.2 =? 0) then
      '(out, _) ← writeString (bs "=") out;
      if negb (succeed (sink_status out)) then Ret (out, false)
      else
        '(_, out) ← transform UrlEncoder_new i.2 out;
        Ret (out, succeed (sink_status out))
    else Ret (out, true).

Fixpoint stream_vars (firstVar : bool) (l : list (bytes * B_Chunks M)) (out : S) : outcome (S * bool) :=
  match l with
  | [] => Ret (out, true)
  | i :: l =>
      '(out, ok) ← stream_var firstVar i out;
      if (ok : bool) then stream_vars false l out else Ret (out, false)
  end.

Definition urlvars_streamTo v (out : S) : outcome (S * bool) := stream_vars true (m_vars v) out.
End Send.

#[export] Instance urlvars_source : Source URLVars := {| streamTo S HS v out := urlvars_streamTo v out |}.

(** [size()]: streamed into a [StreamableNull]. *)
Definition urlvars_size v : outcome Z :=
  '(n, _) ← urlvars_streamTo v sn_new;
  Ret (if succeed (sn_writeStatus n) then bytesWritten (sn_writeStatus n) else 0).
End Vars.
Arguments URLVars : clear implicits.
Arguments URLVarContent : clear implicits.

(** ** What a query means

    The machine reads one byte at a time.  [Ambiguous] are the inputs whose
    meaning depends on how they are cut into writes, or that are refused: a name
    without a value, an empty name or value, an element over a limit. *)
Record QueryState := mkQuery {
  q_stat : URLVarsParsingStatus;
  q_pending : bytes;
  q_name : bytes;
  q_vars : list (bytes * bytes) }.

Inductive QueryMachine := QReading (s : QueryState) | Ambiguous.

Definition q_stop (stat : URLVarsParsingStatus) (c : Z) : bool :=
  match stat with
  | WAITING_FOR_NAME => (c =? 61) || (c =? 38)
  | WAITING_FOR_CONTENT => c =? 38
  end.

Definition no_stop (stat : URLVarsParsingStatus) (l : bytes) : bool := forallb (fun c => negb (q_stop stat c)) l.

Section Query.
Context (nameLimit contentLimit maxVars : Z).

Definition q_limit (stat : URLVarsParsingStatus) : Z :=
  match stat with WAITING_FOR_NAME => nameLimit | WAITING_FOR_CONTENT => contentLimit end.

(** An element ends at a separator. *)
Definition query_element (s : QueryState) (c : Z) : QueryMachine :=
  match q_stat s with
  | WAITING_FOR_NAME =>
      if c =? 61 then
        match q_pending s with
        | [] => Ambiguous
        | _ => QReading (mkQuery WAITING_FOR_CONTENT [] (url_unescape (q_pending s)) (q_vars s))
        end
      else Ambiguous
  | WAITING_FOR_CONTENT =>
      match q_pending s, q_name s with
      | [], _ | _, [] => Ambiguous
      | _, _ =>
          if zlen (q_vars s) <? maxVars then
            QReading (mkQuery WAITING_FOR_NAME [] (q_name s) (q_vars s ++ [(q_name s, url_unescape (q_pending s))]))
          else Ambiguous
      end
  end.

Definition query_step (m : QueryMachine) (c : Z) : QueryMachine :=
  match m with
  | Ambiguous => Ambiguous
  | QReading s =>
      if zlen (q_pending s) >=? q_limit (q_stat s) then Ambiguous
      else if q_stop (q_stat s) c then query_element s c
      else QReading (mkQuery (q_stat s) (q_pending s ++ [c]) (q_name s) (q_vars s))
  end.

Definition query_run (m : QueryMachine) (l : bytes) : QueryMachine := fold_left query_step l m.

(** The end of the stream ends the last value. *)
Definition query_end (m : QueryMachine) : option (list (bytes * bytes)) :=
  match m with
  | QReading s =>
      match q_stat s, q_pending s with
      | WAITING_FOR_NAME, [] => Some (q_vars s)
      | WAITING_FOR_NAME, _ => None
      | WAITING_FOR_CONTENT, _ =>
          match query_element s 38 with
          | QReading s' => Some (q_vars s')
          | Ambiguous => None
          end
      end
  | Ambiguous => None
  end.

Lemma query_run_app m l k : query_run m (l ++ k) = query_run (query_run m l) k.
Proof. apply fold_left_app. Qed.

Lemma query_run_ambiguous l : query_run Ambiguous l = Ambiguous.
Proof. by induction l. Qed.

Lemma query_prefix s l k s' :
  query_run (QReading s) (l ++ k) = QReading s' -> exists s1, query_run (QReading s) l = QReading s1.
Proof.
  rewrite query_run_app. destruct (query_run (QReading s) l) as [s1|]; [by exists s1|]. by rewrite query_run_ambiguous.
Qed.

Lemma query_wait_inv s l s' :
  no_stop (q_stat s) l = true -> zlen (q_pending s) <= q_limit (q_stat s) -> query_run (QReading s) l = QReading s' ->
  s' = mkQuery (q_stat s) (q_pending s ++ l) (q_name s) (q_vars s) /\ zlen (q_pending s ++ l) <= q_limit (q_stat s).
Proof.
  revert s. induction l as [|c l IH]; intros [st pend nm vs] Hs Hl Hr; cbn [q_stat q_pending q_name q_vars] in *.
  { injection Hr as <-. by rewrite app_nil_r. }
  cbn in Hs. apply andb_true_iff in Hs as [Hc Hs]. apply negb_true_iff in Hc.
  cbn [query_run fold_left query_step q_stat q_pending q_name q_vars] in Hr. rewrite Hc in Hr.
  destruct (Z.geb_spec (zlen pend) (q_limit st)).
  { change (fold_left query_step l Ambiguous) with (query_run Ambiguous l) in Hr. by rewrite query_run_ambiguous in Hr. }
  destruct (IH (mkQuery st (pend ++ [c]) nm vs)) as [-> Hlen]; cbn [q_stat q_pending q_name q_vars] in *; try done.
  { rewrite zlen_app. change (zlen [c]) with 1. lia. }
  rewrite <- app_assoc in *. done.
Qed.

Lemma query_wait s l :
  no_stop (q_stat s) l = true -> zlen (q_pending s ++ l) <= q_limit (q_stat s) ->
  query_run (QReading s) l = QReading (mkQuery (q_stat s) (q_pending s ++ l) (q_name s) (q_vars s)).
Proof.
  revert s. induction l as [|c l IH]; intros [st pend nm vs] Hs Hl; cbn [q_stat q_pending q_name q_vars] in *.
  { by rewrite app_nil_r. }
  cbn in Hs. apply andb_true_iff in Hs as [Hc Hs]. apply negb_true_iff in Hc.
  rewrite zlen_app, zlen_cons in Hl. pose proof (zlen_nonneg l).
  cbn [query_run fold_left query_step q_stat q_pending q_name q_vars]. rewrite Hc.
  replace (zlen pend >=? q_limit st) with false by lia.
  change (fold_left query_step l ?m) with (query_run m l).
  rewrite IH; cbn [q_stat q_pending q_name q_vars]; try done; [by rewrite <- app_assoc|].
  rewrite !zlen_app. change (zlen [c]) with 1. lia.
Qed.

Lemma first_stop st l :
  no_stop st l = true \/ exists a c r, l = a ++ c :: r /\ no_stop st a = true /\ q_stop st c = true.
Proof.
  induction l as [|c l IH]; [by left|]. destruct (q_stop st c) eqn:E; [right; by exists [], c, l|].
  destruct IH as [Hn|(a & c' & r & -> & Ha & Hc)].
  - left. cbn. by rewrite E.
  - right. exists (c :: a), c', r. cbn. by rewrite E.
Qed.
End Query.

(** One byte in a list. *)
Lemma search_char c a r : c ∉ a -> search true [c] (a ++ c :: r) = Some (zlen a).
Proof.
  induction a as [|x a IH]; intros Hn.
  - cbn [app search]. unfold matches_at. rewrite ztake_cons, ztake_le0 by (change (zlen [c]) with 1; lia). cbn. by rewrite Z.eqb_refl.
  - apply not_elem_of_cons in Hn as [Hx Hn]. cbn [app search]. rewrite matches_at_cons_false; [|done|cbn; lia].
    rewrite (IH Hn), zlen_cons. cbn. f_equal. lia.
Qed.

Lemma search_char_none c a : c ∉ a -> search true [c] a = None.
Proof.
  induction a as [|x a IH]; intros Hn; [by apply search_nil|].
  apply not_elem_of_cons in Hn as [Hx Hn]. cbn [search]. rewrite matches_at_cons_false; [|done|cbn; lia]. by rewrite (IH Hn).
Qed.

Lemma no_stop_out st l c : no_stop st l = true -> q_stop st c = true -> c ∉ l.
Proof.
  intros Hs Hc. induction l as [|x l IH]; [apply not_elem_of_nil|]. cbn in Hs. apply andb_true_iff in Hs as [Hx Hs].
  apply not_elem_of_cons. split; [|by apply IH]. intros ->. by rewrite Hc in Hx.
Qed.

Lemma no_stop_app st l k : no_stop st (l ++ k) = no_stop st l && no_stop st k.
Proof. apply forallb_app. Qed.

(** ** The parser does what the machine does *)
Section Refinement.
Context {M : Type} `{Container M} `{!MMapFile M}.
Context (nameLimit contentLimit maxVars K W : Z).
Implicit Types (v : URLVars M) (s : QueryState).

(** Limits the buffers have room for, for writes of up to [W] bytes. *)
Hypothesis limits_ok : 0 < nameLimit <= K /\ 0 < contentLimit <= K /\ 0 < W /\ K + W <= 262144.

Definition var_is (i : bytes * B_Chunks M) (j : bytes * bytes) : Prop :=
  i.1 = j.1 /\ sink_rep i.2 j.2.

Record query_at v s : Prop := {
  qa_stat : m_currentStat v = q_stat s;
  qa_name : q_stat s = WAITING_FOR_CONTENT -> m_currentVarName v = q_name s;
  qa_vars : Forall2 var_is (m_vars v) (q_vars s);
  qa_names : nameLimit <= m_maxVarNameSize v < SIZE_MOD;
  qa_contents : contentLimit <= m_maxVarContentSize v < SIZE_MOD;
  qa_count : m_maxVarsCount v = maxVars;
  qa_data : sp_sub (m_urlVarParser v) = bc_new;
  qa_mode : m_parseMode (m_urlVarParser v) = MULTIDELIMITER;
  qa_delims : m_parseMultiDelimiter (m_urlVarParser v) =
    match q_stat s with WAITING_FOR_NAME => [bs "="; bs "&"] | WAITING_FOR_CONTENT => [bs "&"] end;
  qa_max : q_limit nameLimit contentLimit (q_stat s) <= m_maxSize (bc_base (m_unparsedBuffer (m_urlVarParser v)));
  qa_pending : pending (m_urlVarParser v) = q_pending s;
  qa_clean : no_stop (q_stat s) (q_pending s) = true;
  qa_len : zlen (q_pending s) <= q_limit nameLimit contentLimit (q_stat s);
  qa_ready : buffer_ready (m_unparsedBuffer (m_urlVarParser v));
  qa_open : m_streamEnded (m_urlVarParser v) = false;
  qa_chunks : 262144 <= m_maxChunks (m_unparsedBuffer (m_urlVarParser v)) }.

Notation run := (query_run nameLimit contentLimit maxVars).
Notation limit := (q_limit nameLimit contentLimit).

Lemma limit_range st : 0 < limit st <= K.
Proof. destruct st; cbn; lia. Qed.

(** [appendTo]-like clip of the input to what the buffer takes. *)
Lemma multi_clip p (buf : bytes) :
  0 < getSizeLeft (m_unparsedBuffer p) ->
  parseByMultiDelimiter buf p = parseByMultiDelimiter (ztake (getSizeLeft (m_unparsedBuffer p)) buf) p.
Proof. intros Hl. unfold parseByMultiDelimiter. by rewrite (append_clip p buf) by done. Qed.

Lemma find_delims c ds :
  buffer_ready c -> (forall d, d ∈ ds -> exists x, d = [x] /\ is_byte x) ->
  find_any ds true 0 0 c = Ret (search_any true ds (bc_contents c)).
Proof.
  intros Hr. induction ds as [|d ds IH]; intros Hd; [done|]. cbn [find_any search_any].
  destruct (Hd d (list_elem_of_here d ds)) as (x & -> & Hx). rewrite find_ready by (try done; by constructor).
  cbn [mbind outcome_bind]. destruct (search true [x] (bc_contents c)); [done|]. apply IH.
  intros d' Hin. apply Hd. by apply list_elem_of_further.
Qed.

Definition delims (st : URLVarsParsingStatus) : list bytes :=
  match st with WAITING_FOR_NAME => [bs "="; bs "&"] | WAITING_FOR_CONTENT => [bs "&"] end.

Lemma delims_ok st d : d ∈ delims st -> exists x, d = [x] /\ is_byte x.
Proof.
  destruct st; cbn; intros Hd; repeat (apply elem_of_cons in Hd as [->|Hd]); try (by apply not_elem_of_nil in Hd);
    eexists; (split; [reflexivity|done]).
Qed.

(** The separator that ends an element is the one that is found. *)
Lemma search_delims st a c r :
  no_stop st a = true -> c = match st with WAITING_FOR_NAME => 61 | WAITING_FOR_CONTENT => 38 end ->
  search_any true (delims st) (a ++ c :: r) = ([c], Some (zlen a)).
Proof.
  intros Ha ->. destruct st; unfold delims; cbn [search_any].
  - rewrite (search_char 61) by (by eapply no_stop_out). done.
  - rewrite (search_char 38) by (by eapply no_stop_out). done.
Qed.

Lemma search_delims_none st a : no_stop st a = true -> search_any true (delims st) a = ([], None).
Proof.
  intros Ha. destruct st; unfold delims; cbn [search_any].
  - rewrite (search_char_none 61), (search_char_none 38) by (by eapply no_stop_out). done.
  - by rewrite (search_char_none 38) by (by eapply no_stop_out).
Qed.

(** Decoding an element into the fresh [m_pData]. *)
Lemma urlvar_parse_element p raw :
  sp_sub p = bc_new -> read_ok (getParsedBuffer p) -> contents (getParsedBuffer p) = raw -> raw <> [] ->
  zlen raw <= 262144 ->
  exists d, urlvar_parse p = Ret (sp_set_sub d p, GOTO_NEXT_SUBPARSER) /\ sink_rep d (url_unescape raw) /\
    toString SIZE_MAX 0 d = Ret (Some (url_unescape raw)).
Proof.
  intros Hd [Hok _] Hc Hne Hl. unfold urlvar_parse. rewrite Hd.
  change (csize (getParsedBuffer ?q)) with (ref_size (getParsedBuffer q)).
  change (contents (getParsedBuffer p)) with (ref_contents (getParsedBuffer p)) in Hc.
  set (d0 := (Container.clear (bc_new (M := M))).1).
  change (getParsedBuffer (sp_set_sub d0 p)) with (getParsedBuffer p). rewrite ref_size_ok, Hc by done.
  pose proof (nonempty_length raw Hne). replace (zlen raw =? 0) with false by lia.
  change (sp_sub (sp_set_sub d0 p)) with d0.
  destruct (decode_into (getParsedBuffer p) d0 Hok) as (t & d & Ht & Hrep & Hs).
  - destruct (clear_ready (bc_new (M := M))) as (Hr & Hc0 & _); [by apply (buffer_ready_new SIZE_MAX)|]. done.
  - done.
  - rewrite Hc. done.
  - rewrite Ht. cbn [mbind outcome_bind]. cbn [sink_status container_sink get_base bc_container] in Hs. rewrite Hs.
    cbn [negb]. rewrite Hc in Hrep. exists d. split; [done|]. split; [done|].
    destruct Hrep as (Hr & <- & _). exact (toString_all d (br_ok _ Hr)).
Qed.

(** The state after an element: the machine's, for a parser whose buffer was
    emptied. *)
Lemma query_next v p s st' :
  query_at v s -> buffer_ready (m_unparsedBuffer p) -> 262144 <= m_maxChunks (m_unparsedBuffer p) ->
  m_parseMode p = MULTIDELIMITER -> m_streamEnded p = false -> pending p = [] ->
  forall v', m_currentStat v' = st' ->
  m_urlVarParser v' = setMaxObjectSize (match st' with WAITING_FOR_NAME => m_maxVarNameSize v | _ => m_maxVarContentSize v end)
    (setVarType (match st' with WAITING_FOR_NAME => true | _ => false end) (sp_set_sub bc_new p)) ->
  m_maxVarNameSize v' = m_maxVarNameSize v -> m_maxVarContentSize v' = m_maxVarContentSize v ->
  m_maxVarsCount v' = m_maxVarsCount v ->
  forall s', q_stat s' = st' -> q_pending s' = [] -> (st' = WAITING_FOR_CONTENT -> m_currentVarName v' = q_name s') ->
  Forall2 var_is (m_vars v') (q_vars s') -> query_at v' s'.
Proof.
  intros [] Hr Hch Hm Ho Hp v' Hst Hv' En Ec Ex s' Hst' Hpend Hname Hvars. pose proof (limit_range st') as Hlim.
  assert (m_unparsedBuffer (m_urlVarParser v') =
    setMaxSize (match st' with WAITING_FOR_NAME => m_maxVarNameSize v | _ => m_maxVarContentSize v end) (m_unparsedBuffer p)) as Hb
    by by rewrite Hv'.
  split; rewrite ?Hpend, ?Hst', ?En, ?Ec, ?Ex; try done; try congruence.
  - by rewrite Hv'.
  - by rewrite Hv'.
  - rewrite Hv'. by destruct st'.
  - rewrite Hb. destruct st'; cbn; lia.
  - unfold pending. rewrite Hb. exact Hp.
  - change (zlen []) with 0. lia.
  - rewrite Hb. destruct Hr as [R1 R2 R3 R4 R5 R6 R7]. split; try done.
    change (zlen (bc_contents (m_unparsedBuffer p)) <=
      match st' with WAITING_FOR_NAME => m_maxVarNameSize v | _ => m_maxVarContentSize v end < SIZE_MOD).
    unfold pending in Hp. rewrite Hp. change (zlen []) with 0. destruct st'; lia.
  - by rewrite Hv'.
  - by rewrite Hb.
Qed.

Lemma multi_left v s :
  query_at v s -> getSizeLeft (m_unparsedBuffer (m_urlVarParser v)) =
    m_maxSize (bc_base (m_unparsedBuffer (m_urlVarParser v))) - zlen (q_pending s).
Proof.
  intros []. unfold getSizeLeft. cbn [csize bc_container get_base].
  rewrite bc_size_ok by apply (br_ok _ qa_ready0). fold (pending (m_urlVarParser v)). rewrite qa_pending0.
  destruct (Z.gtb_spec (zlen (q_pending s)) (m_maxSize (bc_base (m_unparsedBuffer (m_urlVarParser v))))); lia.
Qed.

Definition call_outcome v s (buf : bytes) (r : outcome (URLVars M * option Z)) : Prop :=
  exists v1 k s1, r = Ret (v1, Some k) /\ 0 < k <= zlen buf /\ run (QReading s) (ztake k buf) = QReading s1 /\
    ((m_parseStatus (m_urlVarParser v1) = GET_MORE_DATA /\ query_at v1 s1 /\ k = zlen buf) \/
     (m_parseStatus (m_urlVarParser v1) = GOTO_NEXT_SUBPARSER /\
      exists v2, urlvars_changeToNextParser v1 = Ret (v2, true) /\ query_at v2 s1)).

(** No separator in the input. *)
Lemma call_wait v s (buf : bytes) s' :
  query_at v s -> buf <> [] -> zlen buf <= W -> m_parseStatus (m_urlVarParser v) = GET_MORE_DATA ->
  no_stop (q_stat s) buf = true -> run (QReading s) buf = QReading s' ->
  call_outcome v s buf (cur_writeIntoSubParser buf v).
Proof.
  intros Hat Hne HW Hst Hno Hrun. pose proof Hat as []. pose proof (nonempty_length buf Hne) as Hpos.
  pose proof (limit_range (q_stat s)) as Hlim. pose proof (zlen_nonneg (q_pending s)).
  destruct (query_wait_inv _ _ _ _ _ _ Hno qa_len0 Hrun) as [-> Hlen]. rewrite zlen_app in Hlen.
  destruct (appendToUnparsedBuffer_fits (m_urlVarParser v) buf) as (c & Ha & Hrc & Hc & Hlm); try done.
  { unfold fits. rewrite qa_pending0. unfold blockSize, KB_MULT, SIZE_MOD. lia. }
  rewrite qa_pending0 in Hc. destruct Hlm as (E1 & _ & _ & _ & _ & E6 & _).
  assert (no_stop (q_stat s) (q_pending s ++ buf) = true) as Hall by by rewrite no_stop_app, qa_clean0, Hno.
  cbn [cur_writeIntoSubParser urlvars_protocol]. unfold writeIntoSubParser. replace (zlen buf =? 0) with false by lia.
  rewrite qa_mode0. unfold parseByMultiDelimiter. rewrite Ha. cbn [mbind outcome_bind].
  set (q := reference_unparsed 0 SIZE_MAX (sp_set_unparsed c (m_urlVarParser v))).
  change (m_parseMultiDelimiter q) with (m_parseMultiDelimiter (m_urlVarParser v)). change (m_unparsedBuffer q) with c.
  rewrite qa_delims0. fold (delims (q_stat s)). rewrite find_delims, Hc, search_delims_none by (done || apply delims_ok).
  cbn [mbind outcome_bind]. change (m_streamEnded (sp_set_delimiterFound [] q)) with (m_streamEnded (m_urlVarParser v)).
  rewrite qa_open0. cbn [mbind outcome_bind].
  eexists _, (zlen buf), _. split; [done|]. split; [lia|]. split; [rewrite ztake_ge by lia; exact Hrun|]. left.
  split; [done|]. split; [|done]. split; cbn [q_stat q_pending q_name q_vars]; try done.
  - change (limit (q_stat s) <= m_maxSize (bc_base c)). by rewrite E6.
  - rewrite zlen_app. lia.
  - change (262144 <= m_maxChunks c). by rewrite E1.
Qed.

(** The parser after an element, before the protocol moves on. *)
Record element_read v s (raw : bytes) v1 (d : B_Chunks M) : Prop := {
  er_parser : exists p, v1 = v_set_parser p v /\ sp_sub p = d /\ buffer_ready (m_unparsedBuffer p) /\
    262144 <= m_maxChunks (m_unparsedBuffer p) /\ m_parseMode p = MULTIDELIMITER /\ m_streamEnded p = false /\
    pending p = [] /\ m_delimiterFound p = [match q_stat s with WAITING_FOR_NAME => 61 | WAITING_FOR_CONTENT => 38 end];
  er_data : sink_rep d (url_unescape raw);
  er_string : toString SIZE_MAX 0 d = Ret (Some (url_unescape raw)) }.

(** The protocol moves on as the machine does. *)
Lemma change_element v s raw v1 d s1 :
  query_at v s -> element_read v s raw v1 d -> raw <> [] ->
  query_element maxVars (mkQuery (q_stat s) raw (q_name s) (q_vars s))
    (match q_stat s with WAITING_FOR_NAME => 61 | WAITING_FOR_CONTENT => 38 end) = QReading s1 ->
  exists v2, urlvars_changeToNextParser v1 = Ret (v2, true) /\ query_at v2 s1.
Proof.
  intros Hat [(p & -> & Hd & Hr & Hch & Hm & Ho & Hp & Hf) Hrep Hstr] Hne He. pose proof Hat as [].
  unfold urlvars_changeToNextParser. cbn [v_set_parser m_currentStat m_urlVarParser]. rewrite qa_stat0.
  unfold query_element in He. cbn [q_stat q_pending q_name q_vars] in He.
  destruct (q_stat s) eqn:Es.
  - cbn [Z.eqb Pos.eqb] in He. destruct raw as [|x raw]; [done|]. injection He as <-.
    unfold getContentAsStringAndFlush. rewrite Hd, Hstr. cbn [mbind outcome_bind].
    cbn [v_set_name v_set_parser m_urlVarParser sp_set_sub m_delimiterFound m_streamEnded]. rewrite Hf, Ho.
    eexists. split; [reflexivity|].
    eapply (query_next v p s WAITING_FOR_CONTENT); done.
  - destruct raw as [|x raw]; [done|]. destruct (q_name s) as [|y nm] eqn:En; [done|].
    destruct (Z.ltb_spec (zlen (q_vars s)) maxVars) as [Hn|]; [|done]. injection He as <-.
    cbn [getContentAndFlush]. cbv zeta.
    assert (zlen (m_vars v) = zlen (q_vars s)) as Hlen by (unfold zlen; by erewrite Forall2_length).
    unfold addVar, getContentAndFlush.
    cbn [m_currentVarName v_set_parser m_vars m_maxVarsCount]. rewrite qa_name0, qa_count0, Hlen by done.
    rewrite bool_decide_true by done. replace (zlen (q_vars s) <? maxVars) with true by lia. cbn [andb].
    eexists. split; [reflexivity|].
    eapply (query_next v p s WAITING_FOR_NAME); try done.
    cbn. rewrite Hd. apply Forall2_app; [done|]. by constructor.
Qed.

(** An element ends inside the input. *)
Lemma call_element v s (a : bytes) c r s1 :
  query_at v s -> m_parseStatus (m_urlVarParser v) = GET_MORE_DATA ->
  zlen (a ++ c :: r) <= W -> no_stop (q_stat s) a = true -> q_stop (q_stat s) c = true ->
  run (QReading s) (a ++ [c]) = QReading s1 ->
  call_outcome v s (a ++ c :: r) (cur_writeIntoSubParser (a ++ c :: r) v).
Proof.
  intros Hat Hst HW Hno Hc Hrun. pose proof Hat as []. pose proof (limit_range (q_stat s)) as Hlim.
  pose proof (zlen_nonneg (q_pending s)). pose proof (zlen_nonneg a). pose proof (zlen_nonneg r).
  destruct (query_prefix _ _ _ _ _ _ _ Hrun) as [s0 Hs0].
  destruct (query_wait_inv _ _ _ _ _ _ Hno qa_len0 Hs0) as [-> Hlen].
  set (raw := q_pending s ++ a) in *.
  pose proof Hrun as Hrun1. rewrite query_run_app, Hs0 in Hrun. cbn [query_run fold_left query_step q_stat q_pending] in Hrun.
  destruct (Z.geb_spec (zlen raw) (limit (q_stat s))) as [|Hlt]; [done|]. rewrite Hc in Hrun.
  assert (c = match q_stat s with WAITING_FOR_NAME => 61 | WAITING_FOR_CONTENT => 38 end) as Hcc.
  { unfold query_element in Hrun. cbn [q_stat] in Hrun. destruct (q_stat s); cbn in Hc; [|lia].
    destruct (Z.eqb_spec c 61); [done|done]. }
  assert (raw <> []) as Hraw.
  { intros E. rewrite E in Hrun. unfold query_element in Hrun. cbn [q_stat q_pending] in Hrun.
    destruct (q_stat s); [by destruct (_ =? _)|done]. }
  assert (zlen raw = zlen (q_pending s) + zlen a) as Hrl by apply zlen_app.
  rewrite zlen_app, zlen_cons in HW. pose proof (multi_left v s Hat) as Hleft.
  set (left := getSizeLeft (m_unparsedBuffer (m_urlVarParser v))) in *.
  assert (ztake left (a ++ c :: r) = a ++ c :: ztake (left - zlen a - 1) r) as Hclip.
  { rewrite ztake_app_ge by lia. by rewrite ztake_cons by lia. }
  set (d := ztake (left - zlen a - 1) r) in *.
  assert (zlen d <= zlen r /\ zlen a + 1 + zlen d <= left) as [Hd1 Hd2] by (unfold d; rewrite zlen_ztake; lia).
  destruct (appendToUnparsedBuffer_fits (m_urlVarParser v) (a ++ c :: d)) as (b & Ha & Hrb & Hb & Hlm); try done.
  { unfold fits. rewrite qa_pending0, zlen_app, zlen_cons. unfold blockSize, KB_MULT, SIZE_MOD. lia. }
  { by destruct a. }
  rewrite qa_pending0, app_assoc in Hb. fold raw in Hb. destruct Hlm as (E1 & _ & _ & _ & _ & E6 & _).
  assert (no_stop (q_stat s) raw = true) as Hall by (unfold raw; by rewrite no_stop_app, qa_clean0, Hno).
  unfold call_outcome. cbn [cur_writeIntoSubParser urlvars_protocol]. unfold writeIntoSubParser.
  replace (zlen (a ++ c :: r) =? 0) with false by (rewrite zlen_app, zlen_cons; lia).
  rewrite qa_mode0, multi_clip by (fold left; lia). fold left. rewrite Hclip. unfold parseByMultiDelimiter. rewrite Ha. cbn [mbind outcome_bind].
  set (q := reference_unparsed 0 SIZE_MAX (sp_set_unparsed b (m_urlVarParser v))).
  change (m_parseMultiDelimiter q) with (m_parseMultiDelimiter (m_urlVarParser v)). change (m_unparsedBuffer q) with b.
  rewrite qa_delims0. fold (delims (q_stat s)).
  rewrite find_delims, Hb, (search_delims (q_stat s) raw c d) by (done || apply delims_ok).
  cbn [mbind outcome_bind]. set (q1 := reference_unparsed 0 (zlen raw) (sp_set_delimiterFound [c] q)).
  destruct (parsed_take (sp_set_delimiterFound [c] q) (zlen raw) Hrb) as [Hok Hcon]; [unfold SIZE_MAX, SIZE_MOD; lia|].
  fold q1 in Hok, Hcon. change (pending (sp_set_delimiterFound [c] q)) with (bc_contents b) in Hcon.
  rewrite Hb, ztake_app_le, ztake_ge in Hcon by lia.
  destruct (urlvar_parse_element q1 raw qa_data0 Hok Hcon Hraw) as (dd & Hparse & Hrep & Hstring); [lia|].
  unfold run_parse. cbn [parse urlvar_sub]. rewrite Hparse. cbn [mbind outcome_bind].
  rewrite bc_size_ok by apply (br_ok _ qa_ready0). fold (pending (m_urlVarParser v)). rewrite qa_pending0.
  change (zlen (m_delimiterFound _)) with 1. rewrite wrap_small by (unfold SIZE_MOD; lia).
  eexists _, (zlen a + 1), s1. split; [do 3 f_equal; lia|]. split; [rewrite zlen_app, zlen_cons; lia|]. split.
  { replace (ztake (zlen a + 1) (a ++ c :: r)) with (a ++ [c]); [done|].
    rewrite ztake_app_ge by lia. replace (zlen a + 1 - zlen a) with 1 by lia. by rewrite ztake_cons, ztake_le0 by lia. }
  right. split; [done|]. destruct (clear_ready b Hrb) as (Hrc & Hcc2 & Hlc). destruct Hlc as (F1 & _).
  eapply (change_element v s raw _ dd); try done.
  - split; try done. eexists. split; [reflexivity|]. split_and!; try done.
    + change (262144 <= m_maxChunks (Container.clear b).1). by rewrite F1, E1.
    + change ([c] = [match q_stat s with WAITING_FOR_NAME => 61 | WAITING_FOR_CONTENT => 38 end]). by rewrite Hcc.
  - by rewrite <- Hcc.
Qed.

Lemma call_step v s (buf : bytes) s' :
  query_at v s -> buf <> [] -> zlen buf <= W -> m_parseStatus (m_urlVarParser v) = GET_MORE_DATA ->
  run (QReading s) buf = QReading s' -> call_outcome v s buf (cur_writeIntoSubParser buf v).
Proof.
  intros Hat Hne HW Hst Hrun. destruct (first_stop (q_stat s) buf) as [Hno|(a & c & r & -> & Ha & Hc)].
  - by apply (call_wait v s buf s').
  - replace (a ++ c :: r) with ((a ++ [c]) ++ r) in Hrun by by rewrite <- app_assoc.
    destruct (query_prefix _ _ _ _ _ _ _ Hrun) as [s1 Hs1]. by apply (call_element v s a c r s1).
Qed.

(** One write into the parser. *)
Lemma query_write fuel (buf : bytes) ttl (P : Parser (URLVars M)) s s' :
  query_at (pr_impl P) s -> buf <> [] -> zlen buf <= W -> run (QReading s) buf = QReading s' ->
  0 <= ttl -> ttl + zlen buf <= m_maxTTL P + 1 -> zlen buf < Z.of_nat fuel ->
  exists P', parseData fuel buf ttl P = Ret (P', Some (zlen buf)) /\ query_at (pr_impl P') s' /\ m_maxTTL P' = m_maxTTL P /\
    pr_writeStatus P' = pr_writeStatus P.
Proof.
  revert buf ttl P s. induction fuel as [|fuel IH]; intros buf ttl P s Hat Hne HW Hrun Ht Httl Hf; pose proof (nonempty_length buf Hne); [lia|].
  cbn [parseData]. replace (ttl >? m_maxTTL P) with false by lia. cbn [currentSubParser urlvars_protocol].
  cbn [cur_setParseResult urlvars_protocol pr_set_impl pr_impl].
  set (x := v_set_parser (setParseResult GET_MORE_DATA (m_urlVarParser (pr_impl P))) (pr_impl P)).
  assert (query_at x s) as Hx by (destruct Hat; by split).
  destruct (call_step x s buf s' Hx Hne HW eq_refl Hrun) as (v1 & k & s1 & -> & Hk & Hr1 & Hres).
  cbn [mbind outcome_bind pr_impl cur_getParseStatus urlvars_protocol].
  assert (run (QReading s1) (zdrop k buf) = QReading s') as Hr2
    by by rewrite <- Hr1, <- query_run_app, ztake_zdrop.
  destruct Hres as [(-> & Hat1 & ->)|(-> & v2 & Hch & Hat2)].
  - rewrite Z.eqb_refl. eexists. split; [done|]. rewrite zdrop_ge in Hr2 by lia. cbn in Hr2. by injection Hr2 as <-.
  - cbn [changeToNextParser urlvars_protocol]. rewrite Hch. cbn [mbind outcome_bind negb pr_impl currentSubParser urlvars_protocol orb].
    destruct (Z.eqb_spec k (zlen buf)) as [->|Hlt].
    { eexists. split; [done|]. rewrite zdrop_ge in Hr2 by lia. cbn in Hr2. by injection Hr2 as <-. }
    unfold parse_rest. replace (k =? zlen buf) with false by lia. cbn [negb].
    assert (zlen (zdrop k buf) = zlen buf - k) as Hz by (rewrite zlen_zdrop; lia).
    match goal with |- context [parseData fuel _ _ ?Q] => set (P1 := Q) end.
    destruct (IH (zdrop k buf) (ttl + 1) P1 s1) as (P' & -> & Hat' & HT' & Hws'); try done; rewrite ?Hz; try lia.
    { intros E. apply (f_equal zlen) in E. rewrite Hz in E. change (zlen []) with 0 in E. lia. }
    { change (m_maxTTL P1) with (m_maxTTL P). lia. }
    cbn [mbind outcome_bind]. exists P'. split; [|done]. rewrite wrap_small; [do 3 f_equal; lia|].
    unfold SIZE_MOD. lia.
Qed.

Lemma query_write_all bufs (P : Parser (URLVars M)) s s' :
  query_at (pr_impl P) s -> W <= m_maxTTL P -> Forall (fun b => b <> [] /\ zlen b <= W) bufs ->
  run (QReading s) (concat bufs) = QReading s' ->
  exists P', write_all bufs P = Ret (P', true) /\ query_at (pr_impl P') s' /\ m_maxTTL P' = m_maxTTL P.
Proof.
  intros Hat HT Hf. revert P s Hat HT. induction Hf as [|b bufs [Hne HW] _ IH]; intros P s Hat HT Hrun.
  { injection Hrun as <-. by exists P. }
  cbn [concat] in Hrun. destruct (query_prefix _ _ _ _ _ _ _ Hrun) as [s1 Hs1]. rewrite query_run_app, Hs1 in Hrun.
  cbn [write_all]. unfold pr_write. pose proof (nonempty_length b Hne). replace (zlen b =? 0) with false by lia.
  destruct (query_write (parse_fuel P) b 0 P s s1) as (P1 & -> & Hat1 & HT1 & _); try done; [unfold parse_fuel; lia..|].
  cbn [mbind outcome_bind has_value]. destruct (IH P1 s1 Hat1) as (P' & -> & Hat' & HT'); [lia|done|].
  exists P'. split_and!; [done..|lia].
Qed.

(** The end of the stream: [parse()] sees what is pending. *)
Lemma eof_call v s :
  query_at v s -> exists p, p = reference_unparsed 0 SIZE_MAX (sp_set_delimiterFound []
      (reference_unparsed 0 SIZE_MAX (sp_set_streamEnded true (m_urlVarParser v)))) /\
    cur_writeIntoSubParser [] v = ('(q, r) ← urlvar_parse p; Ret (v_set_parser (clear_unparsed (setParseResult r q)) v, Some 0)) /\
    read_ok (getParsedBuffer p) /\ contents (getParsedBuffer p) = q_pending s.
Proof.
  intros Hat. pose proof Hat as []. pose proof (limit_range (q_stat s)). pose proof (zlen_nonneg (q_pending s)).
  eexists. split; [reflexivity|].
  cbn [cur_writeIntoSubParser urlvars_protocol]. unfold writeIntoSubParser. change (zlen [] =? 0) with true. cbv iota.
  set (p0 := sp_set_streamEnded true (m_urlVarParser v)). change (m_parseMode p0) with (m_parseMode (m_urlVarParser v)).
  rewrite qa_mode0. unfold parseByMultiDelimiter, appendToUnparsedBuffer. change (zlen [] >? 0) with false. rewrite andb_false_r.
  assert (getSizeLeft (m_unparsedBuffer p0) = m_maxSize (bc_base (m_unparsedBuffer (m_urlVarParser v))) - zlen (q_pending s)) as Hleft
    by exact (multi_left _ _ Hat).
  change (zlen []) with 0. rewrite Hleft, Z.min_l by lia. cbn [Z.gtb Z.compare mbind outcome_bind].
  set (q := reference_unparsed 0 SIZE_MAX p0). change (m_parseMultiDelimiter q) with (m_parseMultiDelimiter (m_urlVarParser v)).
  change (m_unparsedBuffer q) with (m_unparsedBuffer (m_urlVarParser v)).
  rewrite qa_delims0. fold (delims (q_stat s)). rewrite find_delims by (done || apply delims_ok).
  fold (pending (m_urlVarParser v)). rewrite qa_pending0, search_delims_none by done. cbn [mbind outcome_bind].
  change (m_streamEnded (sp_set_delimiterFound [] q)) with true. cbv iota.
  set (q1 := reference_unparsed 0 SIZE_MAX (sp_set_delimiterFound [] q)).
  destruct (parsed_all (sp_set_delimiterFound [] q)) as [Hok Hcon]; [done|]. fold q1 in Hok, Hcon.
  change (pending (sp_set_delimiterFound [] q)) with (pending (m_urlVarParser v)) in Hcon. rewrite qa_pending0 in Hcon.
  split; [|done]. unfold run_parse. cbn [parse urlvar_sub].
  by destruct (urlvar_parse q1) as [[]| | |].
Qed.

(** A value is added to the variables. *)
Lemma value_added v p :
  m_currentStat v = WAITING_FOR_CONTENT -> m_currentVarName v <> [] -> zlen (m_vars v) < m_maxVarsCount v ->
  exists v2, urlvars_changeToNextParser (v_set_parser p v) = Ret (v2, true) /\
    m_vars v2 = m_vars v ++ [(m_currentVarName v, sp_sub p)].
Proof.
  intros Hs Hn Hl. unfold urlvars_changeToNextParser, getContentAndFlush, addVar.
  cbn [v_set_parser m_currentStat m_urlVarParser m_currentVarName m_vars m_maxVarsCount]. rewrite Hs, bool_decide_true by done.
  replace (zlen (m_vars v) <? m_maxVarsCount v) with true by lia. by eexists.
Qed.

Lemma query_eof (P : Parser (URLVars M)) s vs :
  query_at (pr_impl P) s -> 0 <= m_maxTTL P -> query_end maxVars (QReading s) = Some vs ->
  exists P', pr_write [] P = Ret (P', Some 0) /\ Forall2 var_is (m_vars (pr_impl P')) vs.
Proof.
  intros Hat HT He. pose proof (limit_range (q_stat s)) as Hlim.
  unfold pr_write. change (zlen [] =? 0) with true. cbv iota.
  destruct (parse_fuel P) as [|fuel] eqn:Ef; [unfold parse_fuel in Ef; lia|]. cbn [parseData].
  replace (0 >? m_maxTTL P) with false by lia. cbn [currentSubParser urlvars_protocol cur_setParseResult pr_set_impl pr_impl].
  set (v0 := v_set_parser (setParseResult GET_MORE_DATA (m_urlVarParser (pr_impl P))) (pr_impl P)).
  assert (query_at v0 s) as Hat0 by (destruct Hat; by split). pose proof Hat0 as [].
  destruct (eof_call v0 s Hat0) as (p & Hp & -> & Hok & Hcon).
  destruct (decide (q_pending s = [])) as [E|E].
  - assert (q_stat s = WAITING_FOR_NAME /\ vs = q_vars s) as [Es ->].
    { unfold query_end, query_element in He. rewrite E in He. destruct (q_stat s); [by injection He|done]. }
    unfold urlvar_parse. change (csize (getParsedBuffer ?x)) with (ref_size (getParsedBuffer x)).
    change (getParsedBuffer (sp_set_sub ?d p)) with (getParsedBuffer p).
    rewrite ref_size_ok by apply Hok. change (ref_contents ?x) with (contents x). rewrite Hcon, E.
    change (zlen [] =? 0) with true. cbv iota. cbn [mbind outcome_bind pr_impl cur_getParseStatus urlvars_protocol].
    change (m_parseStatus _) with GET_MORE_DATA. change (0 =? zlen []) with true. cbv iota. by eexists.
  - assert (zlen (q_pending s) <= 262144) as Hl262 by lia.
    assert (sp_sub p = bc_new) as Hdata by by subst p.
    destruct (urlvar_parse_element p (q_pending s) Hdata Hok Hcon E Hl262) as (d & -> & Hrep & _).
    assert (exists s1, query_element maxVars s 38 = QReading s1 /\ q_stat s = WAITING_FOR_CONTENT /\ vs = q_vars s1) as (s1 & Hq & Es & ->).
    { unfold query_end in He. destruct (q_stat s) eqn:Es; [by destruct (q_pending s)|].
      destruct (query_element maxVars s 38) as [s1|]; [|done]. exists s1. split_and!; try done. by injection He. }
    unfold query_element in Hq. rewrite Es in Hq. destruct (q_pending s) as [|x raw] eqn:Ep; [done|].
    destruct (q_name s) as [|y nm] eqn:En; [done|]. destruct (Z.ltb_spec (zlen (q_vars s)) maxVars); [|done]. injection Hq as <-.
    assert (zlen (m_vars v0) = zlen (q_vars s)) as Hlen by (unfold zlen; by erewrite Forall2_length).
    cbn [mbind outcome_bind pr_impl cur_getParseStatus urlvars_protocol]. change (m_parseStatus _) with GOTO_NEXT_SUBPARSER. cbv iota.
    cbn [changeToNextParser urlvars_protocol].
    destruct (value_added v0 (clear_unparsed (setParseResult GOTO_NEXT_SUBPARSER (sp_set_sub d p)))) as (v2 & -> & Hvars);
      [by rewrite qa_stat0|by rewrite qa_name0|by rewrite Hlen, qa_count0|].
    cbn [mbind outcome_bind negb orb currentSubParser urlvars_protocol]. change (0 =? zlen []) with true. cbv iota.
    eexists. split; [reflexivity|]. cbn [pr_impl pr_set_impl q_vars]. rewrite Hvars, qa_name0 by done.
    apply Forall2_app; [done|]. by constructor.
Qed.
End Refinement.

(** ** What is written *)

Definition pair_text (i : bytes * bytes) : bytes := url_escape i.1 ++ [61] ++ url_escape i.2.

Fixpoint query_text (first : bool) (vs : list (bytes * bytes)) : bytes :=
  match vs with
  | [] => []
  | i :: vs => (if first then [] else [38]) ++ pair_text i ++ query_text false vs
  end.

(** A variable whose name and value are not empty and fit the limits. *)
Definition pair_ok (nameLimit contentLimit : Z) (i : bytes * bytes) : Prop :=
  i.1 <> [] /\ i.2 <> [] /\ Forall is_byte i.1 /\ Forall is_byte i.2 /\
  zlen (url_escape i.1) < nameLimit /\ zlen (url_escape i.2) < contentLimit.

Lemma escape_chars l : Forall is_byte l -> Forall (fun c => isalnum c = true \/ c = 37) (url_escape l).
Proof.
  induction 1 as [|b l Hb _ IH]; [constructor|]. cbn [url_escape]. apply Forall_app. split; [|done]. unfold escape_byte.
  destruct (isalnum b) eqn:E; [by constructor; [left|]|]. unfold encodedByte.
  assert (forall d, 0 <= d < 16 -> isalnum (hex_digit d) = true) as Hx.
  { intros d Hd. pose proof (hex_digit_xdigit d Hd) as Hx. unfold isxdigit, isalnum, isalpha, isupper, islower, isdigit in *. lia. }
  unfold is_byte in Hb. rewrite !Forall_cons. split; [by right|]. split; [left|split; [left|constructor]]; apply Hx.
  - split; [apply Z.div_pos; lia|apply Z.div_lt_upper_bound; lia].
  - apply Z.mod_pos_bound. lia.
Qed.

Lemma escape_no_stop st l : Forall is_byte l -> no_stop st (url_escape l) = true.
Proof.
  intros Hl. pose proof (escape_chars l Hl) as Hc. unfold no_stop. induction Hc as [|c k Hx _ IH]; [done|].
  cbn. rewrite IH, andb_true_r. unfold isalnum, isalpha, isupper, islower, isdigit in Hx. destruct st; cbn; lia.
Qed.

Lemma url_escape_longer l : zlen l <= zlen (url_escape l).
Proof.
  induction l as [|b l IH]; [done|]. cbn [url_escape]. rewrite zlen_app, zlen_cons.
  assert (1 <= zlen (escape_byte b)); [|lia]. unfold escape_byte. by destruct (isalnum b).
Qed.

Lemma escape_nonempty l : l <> [] -> url_escape l <> [].
Proof. destruct l as [|b l]; [done|]. intros _. cbn [url_escape]. unfold escape_byte. by destruct (isalnum b). Qed.

Section Text.
Context (nameLimit contentLimit maxVars : Z).
Notation run := (query_run nameLimit contentLimit maxVars).

Lemma run_pair nm vs i :
  pair_ok nameLimit contentLimit i ->
  run (QReading (mkQuery WAITING_FOR_NAME [] nm vs)) (pair_text i) =
    QReading (mkQuery WAITING_FOR_CONTENT (url_escape i.2) i.1 vs).
Proof.
  intros (Hn & Hv & Hbn & Hbv & Hln & Hlv). unfold pair_text.
  rewrite query_run_app, query_wait; cbn [q_stat q_pending q_name q_vars app q_limit]; [|by apply escape_no_stop|lia].
  change (61 :: url_escape i.2) with ([61] ++ url_escape i.2). rewrite query_run_app.
  cbn [query_run fold_left query_step q_stat q_pending q_limit q_stop]. replace (_ >=? _) with false by lia.
  cbn [Z.eqb Pos.eqb orb]. unfold query_element. cbn [q_stat q_pending q_name q_vars Z.eqb Pos.eqb].
  pose proof (escape_nonempty i.1 Hn). destruct (url_escape i.1) as [|x r] eqn:E; [done|]. rewrite <- E, unescape_escape by done.
  change (fold_left (query_step nameLimit contentLimit maxVars) (url_escape i.2) ?m) with (run m (url_escape i.2)).
  rewrite query_wait; cbn [q_stat q_pending q_name q_vars app q_limit]; [done|by apply escape_no_stop|lia].
Qed.

Lemma end_value i vs :
  pair_ok nameLimit contentLimit i -> zlen vs < maxVars ->
  query_element maxVars (mkQuery WAITING_FOR_CONTENT (url_escape i.2) i.1 vs) 38 =
    QReading (mkQuery WAITING_FOR_NAME [] i.1 (vs ++ [i])).
Proof.
  intros (Hn & Hv & Hbn & Hbv & Hln & Hlv) Hm. unfold query_element. cbn [q_stat q_pending q_name q_vars].
  pose proof (escape_nonempty i.2 Hv). destruct (url_escape i.2) as [|x r] eqn:E; [done|].
  destruct i as [n w]. cbn [fst snd] in *. destruct n as [|y n]; [done|].
  replace (zlen vs <? maxVars) with true by lia. by rewrite <- E, unescape_escape by done.
Qed.

Lemma run_rest i vs l :
  pair_ok nameLimit contentLimit i -> Forall (pair_ok nameLimit contentLimit) l -> zlen vs + 1 + zlen l <= maxVars ->
  exists s, run (QReading (mkQuery WAITING_FOR_CONTENT (url_escape i.2) i.1 vs)) (query_text false l) = QReading s /\
    query_end maxVars (QReading s) = Some (vs ++ [i] ++ l).
Proof.
  revert i vs. induction l as [|j l IH]; intros i vs Hi Hl Hm.
  - change (zlen []) with 0 in Hm. eexists. split; [reflexivity|]. unfold query_end. cbn [q_stat q_pending].
    rewrite end_value by (done || lia). cbn [q_vars]. by destruct (url_escape i.2).
  - apply Forall_cons in Hl as [Hj Hl]. rewrite zlen_cons in Hm. pose proof (zlen_nonneg l). pose proof (zlen_nonneg vs).
    cbn [query_text]. change ([38] ++ pair_text j ++ query_text false l) with ([38] ++ (pair_text j ++ query_text false l)).
    rewrite query_run_app. cbn [query_run fold_left query_step q_stat q_pending q_limit q_stop Z.eqb Pos.eqb].
    pose proof Hi as (_ & _ & _ & _ & _ & Hlv). replace (_ >=? _) with false by lia. rewrite end_value by (done || lia).
    change (fold_left (query_step nameLimit contentLimit maxVars) ?x ?m) with (run m x).
    rewrite query_run_app, run_pair by done. destruct (IH j (vs ++ [i]) Hj Hl) as (s & -> & He).
    { rewrite zlen_app. change (zlen [i]) with 1. lia. }
    exists s. split; [done|]. by rewrite <- app_assoc in He.
Qed.

Lemma run_query_text l :
  Forall (pair_ok nameLimit contentLimit) l -> zlen l <= maxVars ->
  exists s, run (QReading (mkQuery WAITING_FOR_NAME [] [] [])) (query_text true l) = QReading s /\
    query_end maxVars (QReading s) = Some l.
Proof.
  intros Hl Hm. destruct l as [|i l]; [by eexists|]. apply Forall_cons in Hl as [Hi Hl]. rewrite zlen_cons in Hm.
  cbn [query_text app]. rewrite query_run_app, run_pair by done.
  destruct (run_rest i [] l Hi Hl) as (s & -> & He); [change (zlen []) with 0; lia|]. by exists s.
Qed.
End Text.

Section Stream.
Context {M : Type} `{Container M} `{!MMapFile M} {S : Type} `{SinkSpec S}.

(** The room a text of escaped variables is sure to fit. *)
Fixpoint query_size (vs : list (bytes * bytes)) : Z :=
  match vs with
  | [] => 0
  | i :: vs => zlen i.1 + zlen i.2 + 2 + query_size vs
  end.

Lemma query_size_nonneg vs : 0 <= query_size vs.
Proof.
  induction vs as [|i vs IH]; cbn [query_size]; [lia|]. pose proof (zlen_nonneg i.1). pose proof (zlen_nonneg i.2). lia.
Qed.

Lemma query_size_text first vs : query_size vs <= zlen (query_text first vs) + (if first then 1 else 0).
Proof.
  revert first. induction vs as [|[n w] vs IH]; intros first; cbn [query_size query_text].
  { change (zlen []) with 0. destruct first; lia. }
  specialize (IH false). cbv iota in IH. unfold pair_text. cbn [fst snd]. rewrite !zlen_app. change (zlen [61]) with 1.
  pose proof (url_escape_longer n). pose proof (url_escape_longer w).
  destruct first; change (zlen []) with 0; change (zlen [38]) with 1; destruct vs; cbn [query_size] in *; lia.
Qed.

(** One byte between the variables, or between a name and its value. *)
Lemma write_mark (out : S) acc b :
  sink_rep out acc -> 1 <= enc_room (sink_room out) ->
  exists out', writeString [b] out = Ret (out', true) /\ sink_rep out' (acc ++ [b]) /\
    succeed (sink_status out') = true /\ enc_room (sink_room out) - 1 <= enc_room (sink_room out').
Proof.
  intros Hrep Hr. unfold writeString. assert (1 <= sink_room out).
  { unfold enc_room in Hr. pose proof (Z.mul_div_le (sink_room out) 3 ltac:(lia)). lia. }
  destruct (writeFullStream_succeed [b] out acc Hrep) as (out' & Hw & Hrep' & Hroom & Hs); [done|done|].
  exists out'. split_and!; try done. change (zlen [b]) with 1 in Hroom. by apply enc_room_less.
Qed.

Lemma stream_var_ok first (c : B_Chunks M) n w (out : S) acc :
  n <> [] -> w <> [] -> zlen n <= 65536 -> sink_rep c w ->
  sink_rep out acc -> succeed (sink_status out) = true -> zlen n + zlen w + 2 <= enc_room (sink_room out) ->
  exists out', stream_var first (n, c) out = Ret (out', true) /\
    sink_rep out' (acc ++ (if first then [] else [38]) ++ pair_text (n, w)) /\
    succeed (sink_status out') = true /\ enc_room (sink_room out) - (zlen n + zlen w + 2) <= enc_room (sink_room out').
Proof.
  intros Hn Hw Hln (Hcr & Hcc & _) Hrep Hs Hroom. pose proof (nonempty_length n Hn). pose proof (nonempty_length w Hw).
  assert (exists o1, (if first then Ret (out, true)
       else '(out, _) ← writeString (bs "&") out; Ret (out, succeed (sink_status out)) : outcome (S * bool)) = Ret (o1, true) /\
    sink_rep o1 (acc ++ (if first then [] else [38])) /\ succeed (sink_status o1) = true /\
    enc_room (sink_room out) - 1 <= enc_room (sink_room o1)) as (o1 & E1 & Hr1 & Hs1 & Hm1).
  { destruct first; [exists out; rewrite app_nil_r; split_and!; try done; lia|].
    destruct (write_mark out acc 38 Hrep) as (o1 & Ho & Hr1 & Hs1 & Hm1); [lia|]. exists o1.
    change (bs "&") with [38]. rewrite Ho. cbn [mbind outcome_bind]. by rewrite Hs1. }
  unfold stream_var. rewrite E1. cbn [mbind outcome_bind negb fst snd].
  destruct (append_ready (bc_new (M := M)) n) as (vn & Ha & Hrn & Hcn & _);
    [by apply (buffer_ready_new SIZE_MAX)|done|change (0 + zlen n <= SIZE_MAX)|change (0 + zlen n <= 262144)|
     change (0 + zlen n + 65536 < SIZE_MOD)|]; [unfold SIZE_MAX, SIZE_MOD; lia..|].
  rewrite Ha. cbn [mbind outcome_bind]. change (bc_contents bc_new ++ n) with n in Hcn.
  destruct (encode_from vn o1 (acc ++ (if first then [] else [38]))) as (t & o2 & -> & Hr2 & Hs2 & Hm2);
    [exact (proj1 (br_ok _ Hrn))|done|done| |].
  { change (contents vn) with (bc_contents vn). rewrite Hcn. lia. }
  change (contents vn) with (bc_contents vn) in *. rewrite Hcn in *. cbn [mbind outcome_bind]. rewrite Hs2. cbn [negb].
  cbn [csize bc_container]. rewrite bc_size_ok, Hcc by apply (br_ok _ Hcr). replace (zlen w =? 0) with false by lia. cbn [negb].
  destruct (write_mark o2 _ 61 Hr2) as (o3 & Ho3 & Hr3 & Hs3 & Hm3); [lia|]. change (bs "=") with [61]. rewrite Ho3.
  cbn [mbind outcome_bind]. rewrite Hs3. cbn [negb].
  destruct (encode_from c o3 (((acc ++ (if first then [] else [38])) ++ url_escape n) ++ [61]))
    as (t2 & o4 & -> & Hr4 & Hs4 & Hm4); [exact (proj1 (br_ok _ Hcr))|done|done| |].
  { change (contents c) with (bc_contents c). rewrite Hcc. lia. }
  change (contents c) with (bc_contents c) in *. rewrite Hcc in *. cbn [mbind outcome_bind]. rewrite Hs4.
  exists o4. split; [done|]. split; [|split; [done|lia]]. unfold pair_text. cbn [fst snd]. by rewrite <- !app_assoc in Hr4.
Qed.

Lemma stream_vars_ok first (ms : list (bytes * B_Chunks M)) vs (out : S) acc :
  Forall2 var_is ms vs -> Forall (fun i => i.1 <> [] /\ i.2 <> [] /\ zlen i.1 <= 65536) vs ->
  sink_rep out acc -> succeed (sink_status out) = true -> query_size vs <= enc_room (sink_room out) ->
  exists out', stream_vars first ms out = Ret (out', true) /\ sink_rep out' (acc ++ query_text first vs).
Proof.
  intros Hm. revert first out acc. induction Hm as [|[n c] [n' w] ms vs [Hn Hc] _ IH]; intros first out acc Hok Hrep Hs Hroom.
  { exists out. cbn [query_text]. by rewrite app_nil_r. }
  apply Forall_cons in Hok as [(H1' & H2' & H3') Hok]. cbn [fst snd query_size] in *. subst n'.
  pose proof (query_size_nonneg vs).
  destruct (stream_var_ok first c n w out acc) as (o1 & E1 & Hr1 & Hs1 & Hm1); try done; [lia|].
  cbn [stream_vars]. rewrite E1. cbn [mbind outcome_bind].
  destruct (IH false o1 _ Hok Hr1 Hs1) as (o2 & E2 & Hr2); [lia|]. exists o2. split; [done|].
  cbn [query_text]. by rewrite <- !app_assoc in Hr2.
Qed.
End Stream.

(** A whole query in one write, and its end, as the request line writes it. *)
Lemma urlvars_start {M} `{Container M} `{!MMapFile M} :
  query_at 1024 131072 512 (pr_impl (urlvars_create (M := M))) (mkQuery WAITING_FOR_NAME [] [] []).
Proof. by split. Qed.

Lemma write_query {M} `{Container M} `{!MMapFile M} (vs : list (bytes * bytes)) :
  Forall (pair_ok 1024 131072) vs -> zlen vs <= 512 -> zlen (query_text true vs) <= 4096 ->
  exists P r, writeFullStreamWithEOF (query_text true vs) (urlvars_create (M := M)) = Ret (P, r) /\
    Forall2 var_is (m_vars (pr_impl P)) vs.
Proof.
  intros Hok Hn Hl. destruct (run_query_text 1024 131072 512 vs Hok Hn) as (s & Hrun & He).
  set (q := query_text true vs) in *. set (P0 := urlvars_create (M := M)).
  assert (exists P1, writeFullStream q P0 = Ret (P1, true) /\ query_at 1024 131072 512 (pr_impl P1) s /\ m_maxTTL P1 = 4096)
    as (P1 & Hw & Hat & HT).
  { destruct (decide (q = [])) as [E|E]; [rewrite E in *; injection Hrun as <-; by exists P0|].
    destruct (query_write 1024 131072 512 131072 4096 ltac:(lia) (parse_fuel P0) q 0 P0 _ s urlvars_start E Hl Hrun)
      as (P1 & Hp & Hat & HT & Hws); [done|change (m_maxTTL P0) with 4096; lia|change (Z.of_nat (parse_fuel P0)) with 4098; lia|].
    exists P1. split; [|done]. unfold writeFullStream. pose proof (nonempty_length q E) as Hpos.
    destruct (length q + 2)%nat as [|fuel] eqn:Ef; [lia|].
    assert (sink_write q P0 = Ret (P1, Some (zlen q))) as Hsw.
    { cbn [sink_write parser_sink]. unfold pr_write. by replace (zlen q =? 0) with false by lia. }
    destruct q as [|x q'] eqn:Eq; [done|]. cbn [writeFullStream_loop]. rewrite Hsw. cbn [mbind outcome_bind].
    cbn [sink_status parser_sink]. rewrite Hws. cbn [negb].
    change (succeed (pr_writeStatus P0)) with true. cbn [negb]. rewrite zdrop_ge by lia. by destruct fuel. }
  destruct (query_eof 1024 131072 512 131072 4096 ltac:(lia) P1 s vs Hat) as (P2 & Hw2 & Hv); [lia|done|].
  unfold writeFullStreamWithEOF. rewrite Hw. cbn [mbind outcome_bind negb]. unfold writeEOF. cbn [sink_write parser_sink].
  rewrite Hw2. cbn [mbind outcome_bind has_value negb]. by eexists _, _.
Qed.

(** ** Properties *)

(** C17. URL variables are a round trip: the text [URLVars::streamTo] writes,
    [URLVars] reads back as the same names and values in the same order, however
    the text is cut into writes of up to 4096 bytes; for up to 512 variables
    whose names and values are not empty and fit the limits. *)
Theorem urlvars_roundtrip {M} `{Container M} `{!MMapFile M} {S} `{SinkSpec S}
    (v : URLVars M) (vs : list (bytes * bytes)) (out : S) :
  Forall2 var_is (m_vars v) vs -> Forall (pair_ok 1024 131072) vs -> zlen vs <= 512 ->
  sink_rep out [] -> succeed (sink_status out) = true -> query_size vs <= enc_room (sink_room out) ->
  exists out' text, urlvars_streamTo v out = Ret (out', true) /\ sink_rep out' text /\
    forall bufs, concat bufs = text -> Forall (fun b => b <> [] /\ zlen b <= 4096) bufs ->
      exists P P', write_all bufs (urlvars_create (M := M)) = Ret (P, true) /\ pr_write [] P = Ret (P', Some 0) /\
        Forall2 var_is (m_vars (pr_impl P')) vs.
Proof.
  intros Hv Hok Hn Hrep Hs Hroom.
  destruct (stream_vars_ok true (m_vars v) vs out [] Hv) as (out' & Ho & Hr); try done.
  { eapply Forall_impl; [exact Hok|]. intros i (H1' & H2' & _ & _ & Hl & _). split; [done|]. split; [done|].
    pose proof (url_escape_longer i.1). lia. }
  exists out', (query_text true vs). split; [done|]. split; [done|]. intros bufs Hb Hf.
  destruct (run_query_text 1024 131072 512 vs Hok Hn) as (s & Hrun & He).
  destruct (query_write_all 1024 131072 512 131072 4096 ltac:(lia) bufs (urlvars_create (M := M)) _ s urlvars_start)
    as (P & Hw & Hat & HT); [done|done|by rewrite Hb|].
  destruct (query_eof 1024 131072 512 131072 4096 ltac:(lia) P s vs Hat) as (P' & Hw' & Hvars); [by rewrite HT|done|].
  by exists P, P'.
Qed.

Section Witnesses.
#[local] Existing Instance no_files.

Definition demo_vars : URLVars B_MEM :=
  match bc_of_string (bs "x y"), bc_of_string (bs "1") with
  | Ret a, Ret b => (addVar (bs "q&a") b (addVar (bs "name") a urlvars_new).1).1
  | _, _ => urlvars_new
  end.

Lemma urlvars_roundtrip_witness :
  exists out' text, urlvars_streamTo demo_vars ss_new = Ret (out', true) /\ sink_rep out' text /\
    forall bufs, concat bufs = text -> Forall (fun b => b <> [] /\ zlen b <= 4096) bufs ->
      exists P P', write_all bufs (urlvars_create (M := B_MEM)) = Ret (P, true) /\ pr_write [] P = Ret (P', Some 0) /\
        Forall2 var_is (m_vars (pr_impl P')) [(bs "name", bs "x y"); (bs "q&a", bs "1")].
Proof.
  refine (urlvars_roundtrip demo_vars [(bs "name", bs "x y"); (bs "q&a", bs "1")] ss_new _ _ _ _ _ _).
  - repeat constructor; unfold bc_offsets_ok, bc_ok; by vm_compute.
  - repeat constructor; discriminate.
  - discriminate.
  - split; [done|discriminate].
  - done.
  - discriminate.
Defined.

(** The names and values a query gives, for a cut into writes. *)
Definition query_vars (bufs : list bytes) : option (list (bytes * bytes)) :=
  match write_all bufs (urlvars_create (M := B_MEM)) with
  | Ret (P, true) =>
      match pr_write [] P with
      | Ret (P, Some _) => Some (map (fun i => (i.1, bc_contents i.2)) (m_vars (pr_impl P)))
      | _ => None
      end
  | _ => None
  end.

(** Empty names and values are misread: the value after a name without one is
    lost or becomes part of another variable, and what a name without an equals
    sign means depends on how the query is cut into writes, since the sub-parser
    looks for an equals sign in all it was given before it looks for an
    ampersand. *)
Theorem urlvars_ambiguous :
  query_vars [bs "a=&b=c"] = Some [(bs "a", bs "b=c")] /\
  query_vars [bs "a&b=c"] = Some [(bs "a&b", bs "c")] /\
  query_vars [bs "a&"; bs "b=c"] = Some [(bs "a", []); (bs "b", bs "c")] /\
  query_vars [bs "a=b&&c=d"] = Some [(bs "a", bs "b"); (bs "&c", bs "d")].
Proof. by vm_compute. Qed.
End Witnesses.
