(* ===== verification/HttpLines.v ===== *)
(** * The first lines of HTTP messages (Protocol_HTTP/common_version.cpp,
      req_requestline.cpp, rsp_status.cpp)

    The version, the request line and the status line: what [parse()] reads from
    a line and what [streamToUpstream] writes, with the round trips between the
    two. *)

From S2P Require Import Prelude SafeInt Mem Streamable Container ContainerTheory BMem BChunks ChunkBuffer BRef.
From S2P Require Import SubParser Parser CLib UrlStream HttpContent HttpVars.
From Stdlib Require Import ZArith Lia.

(** ** Versions *)
Record Version := mkVersion { m_minorVersion : Z; m_majorVersion : Z }.

Definition version_new : Version := mkVersion 1 1.

Definition version_parse (version : bytes) : Version :=
  match split_on (bs "/") version with
  | [_; number] =>
      match split_on (bs ".") number with
      | [major; minor] => mkVersion (wrapw 16 (strtoul 10 minor).1) (wrapw 16 (strtoul 10 major).1)
      | _ => mkVersion 0 1
      end
  | _ => mkVersion 0 1
  end.

Definition version_toString (v : Version) : bytes :=
  bs "HTTP/" ++ to_string (m_majorVersion v) ++ bs "." ++ to_string (m_minorVersion v).

Definition setMinor (value : Z) (v : Version) : Version := mkVersion value (m_majorVersion v).
Definition setMajor (value : Z) (v : Version) : Version := mkVersion (m_minorVersion v) value.
Definition upgradeMinor (value : Z) (v : Version) : Version :=
  if value >? m_minorVersion v then setMinor value v else v.

(** ** The request line *)
Record RequestLine (M : Type) := mkRequestLine {
  m_requestMethod : bytes;
  m_requestURI : bytes;
  m_requestGETVarsRawString : bytes;
  rl_httpVersion : Version;
  m_getVars : Parser (URLVars M) }.
Arguments mkRequestLine {_} _ _ _ _ _.
Arguments m_requestMethod {_} _.
Arguments m_requestURI {_} _.
Arguments m_requestGETVarsRawString {_} _.
Arguments rl_httpVersion {_} _.
Arguments m_getVars {_} _.

Section RequestLine.
Context {M : Type} `{Container M} `{!MMapFile M}.
Implicit Types (r : RequestLine M) (p : SubParser M (RequestLine M)).

Definition requestline_init : RequestLine M := mkRequestLine (bs "GET") [] [] version_new urlvars_create.

Definition requestline_new : SubParser M (RequestLine M) :=
  setParseDataTargetSize (128 * KB_MULT) (setParseDelimiter CRLF (setParseStrategy DELIMITER (sp_new requestline_init))).

Definition setHTTPMethod (value : bytes) r : RequestLine M :=
  mkRequestLine value (m_requestURI r) (m_requestGETVarsRawString r) (rl_httpVersion r) (m_getVars r).
Definition setRequestURI (value : bytes) r : RequestLine M :=
  mkRequestLine (m_requestMethod r) value (m_requestGETVarsRawString r) (rl_httpVersion r) (m_getVars r).
Definition rl_set_raw (value : bytes) r : RequestLine M :=
  mkRequestLine (m_requestMethod r) (m_requestURI r) value (rl_httpVersion r) (m_getVars r).
Definition rl_set_version (value : Version) r : RequestLine M :=
  mkRequestLine (m_requestMethod r) (m_requestURI r) (m_requestGETVarsRawString r) value (m_getVars r).
Definition rl_set_vars (value : Parser (URLVars M)) r : RequestLine M :=
  mkRequestLine (m_requestMethod r) (m_requestURI r) (m_requestGETVarsRawString r) (rl_httpVersion r) value.

Definition parseGETVars r : outcome (RequestLine M) :=
  '(v, _) ← writeFullStreamWithEOF (m_requestGETVarsRawString r) (m_getVars r); Ret (rl_set_vars v r).

(** The variables are read through [c_str()], so they end at a zero byte. *)
Definition parseURI r : outcome (RequestLine M) :=
  r ← (match find_char 63 (m_requestURI r) with
       | Some found =>
           parseGETVars (setRequestURI (ztake found (m_requestURI r))
                           (rl_set_raw (c_str (zdrop (found + 1) (m_requestURI r))) r))
       | None => Ret r
       end);
  uri ← decodeURLStr M (m_requestURI r);
  Ret (setRequestURI uri r).

Definition requestline_parse p : outcome (SubParser M (RequestLine M) * ParseResult) :=
  clientRequest ← toStringEx SIZE_MAX 0 (getParsedBuffer p);
  match split_on [9; 32] clientRequest with
  | method :: uri :: more =>
      let r := setRequestURI uri (setHTTPMethod (to_upper_copy method) (sp_sub p)) in
      let r := rl_set_version (version_parse (match more with v :: _ => v | [] => bs "HTTP/1.0" end)) r in
      r ← parseURI r;
      Ret (sp_set_sub r p, GOTO_NEXT_SUBPARSER)
  | _ => Ret (p, PR_ERROR)
  end.

#[export] Instance requestline_sub : SubParserImpl M (RequestLine M) := {|
  parse := requestline_parse;
  malloc_block n := replicate (Z.to_nat n) 0 |}.

Definition requestline_text r : outcome bytes :=
  vars ← (if isEmpty (pr_impl (m_getVars r)) then Ret []
          else '(s, _) ← urlvars_streamTo (pr_impl (m_getVars r)) ss_new; Ret (bs "?" ++ ss_value s) : outcome bytes);
  Ret (m_requestMethod r ++ bs " " ++ m_requestURI r ++ vars ++ bs " " ++ version_toString (rl_httpVersion r) ++ CRLF).

Definition requestline_streamToUpstream {S} `{Sink S} r (up : S) : outcome (S * bool) :=
  buffer ← requestline_text r;
  '(up, _) ← writeString buffer up;
  Ret (up, succeed (sink_status up)).

Definition requestline_toString r : bytes :=
  match m_requestGETVarsRawString r with
  | [] => m_requestMethod r ++ bs " " ++ m_requestURI r ++ bs " " ++ version_toString (rl_httpVersion r)
  | raw => m_requestMethod r ++ bs " " ++ m_requestURI r ++ bs "?" ++ raw ++ bs " " ++ version_toString (rl_httpVersion r)
  end.
End RequestLine.

(** ** The status line *)
Record Status := mkStatus {
  st_httpVersion : Version;
  m_statusCode : Z;
  m_statusMessage : bytes }.

Definition S_999_NOT_SET : Z := 1000.

Definition m_responseStatusCodesTable : list (Z * bytes) :=
  [(100, bs "Continue"); (101, bs "Switching Protocol"); (200, bs "OK"); (201, bs "Created"); (202, bs "Accepted");
   (203, bs "Non-Authoritative Information"); (204, bs "No Content"); (205, bs "Reset Content");
   (206, bs "Partial Content"); (300, bs "Multiple Choices"); (301, bs "Moved Permanently"); (302, bs "Found");
   (303, bs "See Other"); (304, bs "Not Modified"); (307, bs "Temporary Redirect"); (308, bs "Permanent Redirect");
   (400, bs "Bad Request"); (401, bs "Unauthorized"); (403, bs "Forbidden"); (404, bs "Not Found");
   (405, bs "Method Not Allowed"); (406, bs "Not Acceptable"); (407, bs "Proxy Authentication Required");
   (408, bs "Request Timeout"); (409, bs "Conflict"); (410, bs "Gone"); (411, bs "Length Required");
   (412, bs "Precondition Failed"); (413, bs "Payload Too Large"); (414, bs "URI Too Long");
   (415, bs "Unsupported Media Type"); (416, bs "Range Not Satisfiable"); (417, bs "Expectation Failed");
   (426, bs "Upgrade Required"); (428, bs "Precondition Required"); (429, bs "Too Many Requests");
   (431, bs "Request Header Fields Too Large"); (451, bs "Unavailable For Legal Reasons");
   (500, bs "Internal Server Error"); (501, bs "Not Implemented"); (502, bs "Bad Gateway");
   (503, bs "Service Unavailable"); (504, bs "Gateway Timeout"); (505, bs "HTTP Version Not Supported");
   (511, bs "Network Authentication Required")].

Fixpoint table_find (code : Z) (t : list (Z * bytes)) : option bytes :=
  match t with
  | [] => None
  | (k, m) :: t => if k =? code then Some m else table_find code t
  end.

Definition getStringTranslation (code : Z) : bytes :=
  match table_find code m_responseStatusCodesTable with Some m => m | None => [] end.

Definition setResponseMessage (value : bytes) (s : Status) : Status := mkStatus (st_httpVersion s) (m_statusCode s) value.

Definition setCode (code : Z) (s : Status) : Status :=
  if code =? S_999_NOT_SET then s
  else setResponseMessage (getStringTranslation code) (mkStatus (st_httpVersion s) code (m_statusMessage s)).

(** The words from the third on, with a space between them. *)
Fixpoint join_words (words : list bytes) : bytes :=
  match words with
  | [] => []
  | [w] => w
  | w :: words => w ++ bs " " ++ join_words words
  end.

Section Status.
Context {M : Type} `{Container M} `{!MMapFile M}.

Definition status_new : SubParser M Status :=
  setParseDataTargetSize 128 (setParseDelimiter CRLF (setParseStrategy DELIMITER
    (sp_new (mkStatus version_new S_999_NOT_SET [])))).

Definition status_parse (p : SubParser M Status) : outcome (SubParser M Status * ParseResult) :=
  clientRequest ← toStringEx SIZE_MAX 0 (getParsedBuffer p);
  match split_on [9; 32] clientRequest with
  | version :: code :: words =>
      Ret (sp_set_sub (mkStatus (version_parse version) (wrapw 16 (strtoul 10 code).1) (join_words words)) p,
           GOTO_NEXT_SUBPARSER)
  | _ => Ret (p, PR_ERROR)
  end.

#[export] Instance status_sub : SubParserImpl M Status := {|
  parse := status_parse;
  malloc_block n := replicate (Z.to_nat n) 0 |}.
End Status.

Definition status_text (s : Status) : bytes :=
  version_toString (st_httpVersion s) ++ bs " " ++ to_string (wrapw 16 (m_statusCode s)) ++ bs " " ++ m_statusMessage s ++ CRLF.

Definition status_streamToUpstream {S} `{Sink S} (s : Status) (up : S) : outcome (S * bool) :=
  writeString (status_text s) up.

(** ** Words *)

Definition is_sep (seps : bytes) (c : Z) : bool := existsb (Z.eqb c) seps.
Definition word_ok (seps w : bytes) : Prop := w <> [] /\ forallb (fun c => negb (is_sep seps c)) w = true.

Lemma split_first seps skipping w c t :
  word_ok seps w -> is_sep seps c = true ->
  split_compress (is_sep seps) skipping [] (w ++ c :: t) = w :: split_compress (is_sep seps) true [] t.
Proof. intros [Hne Hw] Hc. by rewrite split_compress_step. Qed.

Lemma split_last seps skipping w : word_ok seps w -> split_compress (is_sep seps) skipping [] w = [w].
Proof. intros [Hne Hw]. by rewrite split_compress_last. Qed.

Lemma split_join seps skipping ws :
  Forall (word_ok seps) ws -> is_sep seps 32 = true -> ws <> [] ->
  split_compress (is_sep seps) skipping [] (join_words ws) = ws.
Proof.
  intros Hf Hs. revert skipping. induction Hf as [|w ws Hw Hf IH]; intros skipping Hne; [done|].
  destruct ws as [|w2 ws]; [by apply split_last|].
  change (join_words (w :: w2 :: ws)) with (w ++ 32 :: join_words (w2 :: ws)).
  rewrite split_first by done. by rewrite IH.
Qed.

Lemma digits_word seps base n :
  2 <= base <= 16 -> 0 <= n -> (forall d, 0 <= d < base -> is_sep seps (digit_char d) = false) -> word_ok seps (print_base base n).
Proof.
  intros Hb Hn Hs. split.
  - unfold print_base. destruct (print_digits_cons (Z.to_nat (Z.log2 n)) base n) as (d & l & -> & _); lia || done.
  - pose proof (print_base_chars base n ltac:(lia) Hn) as Hc. induction Hc as [|c l (d & -> & Hd) _ IH]; [done|].
    cbn. by rewrite IH, Hs.
Qed.

Definition version_ok (v : Version) : Prop := 0 <= m_majorVersion v < 65536 /\ 0 <= m_minorVersion v < 65536.

Lemma decimal_word seps n : 0 <= n -> (forall c, c ∈ seps -> c < 48 \/ 57 < c) -> word_ok seps (to_string n).
Proof.
  intros Hn Hs. apply digits_word; [lia|done|]. intros d Hd. unfold is_sep. apply not_true_is_false. intros Ht.
  apply existsb_exists in Ht as (c & Hin & Hc). apply list_elem_of_In in Hin. apply Z.eqb_eq in Hc. subst c.
  specialize (Hs _ Hin). unfold digit_char in Hs. destruct (Z.ltb_spec d 10); lia.
Qed.

Lemma word_ok_app seps w w' : word_ok seps w -> forallb (fun c => negb (is_sep seps c)) w' = true -> word_ok seps (w ++ w').
Proof. intros [Hne Hw] Hw'. split; [by destruct w|]. rewrite forallb_app. by rewrite Hw, Hw'. Qed.

Lemma strtoul_decimal n : 0 <= n < 65536 -> wrapw 16 (strtoul 10 (to_string n)).1 = n.
Proof.
  intros Hn. unfold to_string. rewrite strtoul_print by (unfold ULONG_MAX, SIZE_MAX, SIZE_MOD; lia).
  cbn [fst]. apply Z.mod_small. lia.
Qed.

Lemma version_reads v : version_ok v -> version_parse (version_toString v) = v.
Proof.
  intros [Hmaj Hmin]. unfold version_parse, version_toString.
  assert (word_ok (bs "/") (to_string (m_majorVersion v) ++ bs "." ++ to_string (m_minorVersion v))) as Hnum.
  { apply word_ok_app; [apply decimal_word; [lia|]|].
    - intros c [->|Hc]%elem_of_cons; [left; done|by apply not_elem_of_nil in Hc].
    - rewrite forallb_app. apply andb_true_iff. split; [done|]. apply decimal_word; [lia|].
      intros c [->|Hc]%elem_of_cons; [left; done|by apply not_elem_of_nil in Hc]. }
  assert (forall w, word_ok (bs ".") w -> word_ok (bs ".") w) by done.
  unfold split_on. change (fun c => existsb (Z.eqb c) (bs "/")) with (is_sep (bs "/")).
  change (fun c => existsb (Z.eqb c) (bs ".")) with (is_sep (bs ".")).
  change (bs "HTTP/" ++ ?x) with (bs "HTTP" ++ 47 :: x). rewrite split_first, split_last by done.
  change (bs "." ++ ?x) with (46 :: x).
  assert (forall n, 0 <= n -> word_ok (bs ".") (to_string n)) as Hw.
  { intros n Hn. apply decimal_word; [done|]. intros c [->|Hc]%elem_of_cons; [left; done|by apply not_elem_of_nil in Hc]. }
  rewrite split_first, split_last by (done || apply Hw; lia). rewrite !strtoul_decimal by done. by destruct v.
Qed.

(** ** Properties *)

Definition blanks : bytes := [9; 32].

Lemma version_word v : version_ok v -> word_ok blanks (version_toString v).
Proof.
  intros [Hmaj Hmin]. unfold version_toString. apply word_ok_app; [done|]. rewrite !forallb_app, !andb_true_iff.
  assert (forall n, 0 <= n -> word_ok blanks (to_string n)) as Hw.
  { intros n Hn. apply decimal_word; [done|]. intros c [->|[->|Hc]%elem_of_cons]%elem_of_cons; [lia..|by apply not_elem_of_nil in Hc]. }
  split; [apply Hw; lia|]. split; [done|apply Hw; lia].
Qed.

(** A URI without variables that stands for itself. *)
Definition uri_plain (uri : bytes) : Prop :=
  word_ok blanks uri /\ zlen uri <= 262144 /\ (63 ∉ uri) /\ Forall (fun c => c <> 37 /\ c <> 43) uri.

Lemma unescape_id l : Forall (fun c => c <> 37 /\ c <> 43) l -> url_unescape l = l.
Proof.
  induction 1 as [|c l [H1 H2] _ IH]; [done|]. cbn [url_unescape]. replace (c =? 37) with false by lia.
  replace (c =? 43) with false by lia. by rewrite IH.
Qed.

Lemma query_text_chars first vs :
  Forall (pair_ok 1024 131072) vs -> Forall (fun c => (isalnum c = true \/ c = 37 \/ c = 38 \/ c = 61)) (query_text first vs).
Proof.
  intros Hok. revert first. induction Hok as [|i vs (_ & _ & Hn & Hv & _) _ IH]; intros first; [constructor|].
  cbn [query_text]. unfold pair_text. repeat (apply Forall_app; split); try (apply IH).
  - destruct first; [constructor|]. constructor; [auto|constructor].
  - eapply Forall_impl; [by apply escape_chars|]. naive_solver.
  - constructor; [auto|constructor].
  - eapply Forall_impl; [by apply escape_chars|]. naive_solver.
Qed.

Lemma query_text_word vs :
  Forall (pair_ok 1024 131072) vs ->
  forallb (fun c => negb (is_sep blanks c)) (query_text true vs) = true /\ c_str (query_text true vs) = query_text true vs.
Proof.
  intros Hok. pose proof (query_text_chars true vs Hok) as Hc.
  assert (forall c, (isalnum c = true \/ c = 37 \/ c = 38 \/ c = 61) -> c <> 0 /\ is_sep blanks c = false) as Hx.
  { intros c Hc'. unfold is_sep, blanks. cbn. unfold isalnum, isalpha, isupper, islower, isdigit in Hc'. lia. }
  split.
  - induction Hc as [|c l H _ IH]; [done|]. cbn [forallb]. destruct (Hx c H) as [_ ->]. by rewrite IH.
  - apply c_str_nul_free. intros Hin. rewrite Forall_forall in Hc. by destruct (Hx 0 (Hc 0 Hin)).
Qed.

(** The variables of a request line, with the question mark. *)
Definition vars_text (vs : list (bytes * bytes)) : bytes :=
  match vs with [] => [] | _ => bs "?" ++ query_text true vs end.

Lemma requestline_text_eq {M} `{Container M} `{!MMapFile M} (r : RequestLine M) (vs : list (bytes * bytes)) :
  Forall2 var_is (m_vars (pr_impl (m_getVars r))) vs -> Forall (pair_ok 1024 131072) vs ->
  zlen (query_text true vs) <= 4096 ->
  requestline_text r = Ret ((m_requestMethod r ++ bs " " ++ m_requestURI r ++ vars_text vs ++ bs " " ++
    version_toString (rl_httpVersion r)) ++ CRLF).
Proof.
  intros Hvars Hok Hlen. unfold requestline_text, isEmpty, vars_text, urlvars_streamTo.
  destruct (m_vars (pr_impl (m_getVars r))) as [|v0 ms].
  - inversion Hvars; subst. cbn [mbind outcome_bind app]. by rewrite <- !app_assoc.
  - destruct vs as [|j vs]; [by inversion Hvars|].
    destruct (stream_vars_ok true (v0 :: ms) (j :: vs) ss_new [] Hvars) as (o & -> & Ho & _); try done.
    + eapply Forall_impl; [exact Hok|]. intros i (H1 & H2 & _ & _ & Hl & _). pose proof (url_escape_longer i.1). by split_and!; [..|lia].
    + pose proof (query_size_text true (j :: vs)) as Hsz. cbv iota in Hsz.
      assert (enc_room (sink_room ss_new) = 3074457345618258602) as -> by reflexivity. lia.
    + cbn [mbind outcome_bind]. cbn [app] in Ho. rewrite Ho. by rewrite <- !app_assoc.
Qed.

Lemma vars_text_word vs :
  Forall (pair_ok 1024 131072) vs -> forallb (fun c => negb (is_sep blanks c)) (vars_text vs) = true.
Proof. intros Hok. destruct (query_text_word vs Hok) as [Hw _]. by destruct vs. Qed.

Lemma decode_plain {M} `{Container M} `{!MMapFile M} uri : uri_plain uri -> decodeURLStr M uri = Ret uri.
Proof. intros (_ & Hl & _ & Hp). by rewrite decodeURLStr_spec, unescape_id by done. Qed.

(** Reading the URI and its variables. *)
Lemma parseURI_ok {M} `{Container M} `{!MMapFile M} (r : RequestLine M) uri vs :
  m_requestURI r = uri ++ vars_text vs -> uri_plain uri -> m_getVars r = urlvars_create ->
  Forall (pair_ok 1024 131072) vs -> zlen vs <= 512 -> zlen (query_text true vs) <= 4096 ->
  exists r', parseURI r = Ret r' /\ m_requestMethod r' = m_requestMethod r /\ m_requestURI r' = uri /\
    rl_httpVersion r' = rl_httpVersion r /\ Forall2 var_is (m_vars (pr_impl (m_getVars r'))) vs.
Proof.
  intros Hr Hu Hv Hok Hn Hl. pose proof Hu as (_ & _ & Hq & _). unfold parseURI. rewrite Hr. unfold vars_text.
  destruct vs as [|j vs].
  - rewrite app_nil_r, find_char_none by done. cbn [mbind outcome_bind]. rewrite Hr. cbn [vars_text]. rewrite app_nil_r.
    rewrite decode_plain by done. cbn [mbind outcome_bind]. eexists. split_and!; try done. cbn. by rewrite Hv.
  - change (bs "?" ++ query_text true (j :: vs)) with (63 :: query_text true (j :: vs)).
    rewrite find_char_split by done.
    rewrite zdrop_app_ge, ztake_app_le, ztake_ge by lia. replace (zlen uri + 1 - zlen uri) with 1 by lia.
    rewrite zdrop_cons, zdrop_le0 by lia. destruct (query_text_word (j :: vs) Hok) as [_ ->].
    unfold parseGETVars. cbn [m_requestGETVarsRawString m_getVars setRequestURI rl_set_raw]. rewrite Hv.
    destruct (write_query (M := M) (j :: vs) Hok Hn Hl) as (P & ok & -> & Hvars). cbn [mbind outcome_bind].
    cbn [m_requestURI rl_set_vars setRequestURI rl_set_raw]. rewrite decode_plain by done. cbn [mbind outcome_bind].
    eexists. by split_and!.
Qed.

(** A request line that can be sent: a method in upper case, a URI that needs no
    decoding and variables that fit the limits. *)
Record sendable {M} `{Container M} `{!MMapFile M} (r : RequestLine M) (vs : list (bytes * bytes)) : Prop := {
  sd_method : word_ok blanks (m_requestMethod r);
  sd_upper : to_upper_copy (m_requestMethod r) = m_requestMethod r;
  sd_uri : uri_plain (m_requestURI r);
  sd_version : version_ok (rl_httpVersion r);
  sd_vars : Forall2 var_is (m_vars (pr_impl (m_getVars r))) vs;
  sd_pairs : Forall (pair_ok 1024 131072) vs;
  sd_count : zlen vs <= 512;
  sd_query : zlen (query_text true vs) <= 4096 }.

(** The members that travel. *)
Definition same_request {M} `{Container M} `{!MMapFile M} (r r' : RequestLine M) (vs : list (bytes * bytes)) : Prop :=
  m_requestMethod r' = m_requestMethod r /\ m_requestURI r' = m_requestURI r /\
  rl_httpVersion r' = rl_httpVersion r /\ Forall2 var_is (m_vars (pr_impl (m_getVars r'))) vs.

Lemma requestline_reads {M} `{Container M} `{!MMapFile M} (r : RequestLine M) (vs : list (bytes * bytes)) :
  sendable r vs ->
  exists line, requestline_text r = Ret (line ++ CRLF) /\
    forall x0, m_getVars x0 = urlvars_create -> exists x, same_request r x vs /\
    forall p, sp_sub p = x0 -> toString SIZE_MAX 0 (getParsedBuffer p) = Ret (Some line) ->
      requestline_parse p = Ret (sp_set_sub x p, GOTO_NEXT_SUBPARSER).
Proof.
  intros [Hm Hup Hu Hver Hvars Hok Hn Hlen].
  eexists. split; [by apply requestline_text_eq|]. intros x0 Hfresh.
  destruct (parseURI_ok (rl_set_version (rl_httpVersion r) (setRequestURI (m_requestURI r ++ vars_text vs)
    (setHTTPMethod (m_requestMethod r) x0))) (m_requestURI r) vs) as (x & Ex & E1 & E2 & E3 & E4); try done.
  exists x. split; [by split_and!|]. intros p Hsub Hline.
  unfold requestline_parse, toStringEx. rewrite Hline. cbn [mbind outcome_bind from_option id].
  unfold split_on. change (fun c => existsb (Z.eqb c) [9; 32]) with (is_sep blanks).
  replace (m_requestMethod r ++ bs " " ++ m_requestURI r ++ vars_text vs ++ bs " " ++ version_toString (rl_httpVersion r))
    with (m_requestMethod r ++ 32 :: (m_requestURI r ++ vars_text vs) ++ 32 :: version_toString (rl_httpVersion r))
    by (change (bs " ") with [32]; by rewrite <- !app_assoc).
  rewrite split_first, split_first, split_last by
    first [done|by apply version_word|apply word_ok_app; [apply Hu|by apply vars_text_word]].
  rewrite version_reads, Hup, Hsub by done. rewrite Ex. done.
Qed.

(** The request line is a round trip: for a method in upper case, a URI that
    needs no decoding and variables that fit the limits, what
    [RequestLine::streamToUpstream] sends is a line from which
    [RequestLine::parse] reads the same method, URI, version and variables. *)
Theorem requestline_roundtrip {M} `{Container M} `{!MMapFile M} (r : RequestLine M) (vs : list (bytes * bytes)) :
  sendable r vs ->
  exists line, requestline_text r = Ret (line ++ CRLF) /\
    forall p, m_getVars (sp_sub p) = urlvars_create -> toString SIZE_MAX 0 (getParsedBuffer p) = Ret (Some line) ->
    exists p', requestline_parse p = Ret (p', GOTO_NEXT_SUBPARSER) /\ same_request r (sp_sub p') vs.
Proof.
  intros Hs. destruct (requestline_reads r vs Hs) as (line & Et & Hr). exists line. split; [done|]. intros p Hf Hl.
  destruct (Hr (sp_sub p) Hf) as (x & Hx & Hp). exists (sp_set_sub x p). split; [by apply Hp|done].
Qed.

(** The status line is a round trip: for a code of 16 bits and a message of
    words with a space between them, what [Status::streamToUpstream] writes is a
    line from which [Status::parse] reads the same version, code and message. *)
Theorem status_roundtrip {M} `{Container M} `{!MMapFile M} (s : Status) (words : list bytes) :
  version_ok (st_httpVersion s) -> 0 <= m_statusCode s < 65536 ->
  m_statusMessage s = join_words words -> Forall (word_ok blanks) words ->
  exists line, status_text s = line ++ CRLF /\
    forall (p : SubParser M Status), toString SIZE_MAX 0 (getParsedBuffer p) = Ret (Some line) ->
    status_parse p = Ret (sp_set_sub s p, GOTO_NEXT_SUBPARSER).
Proof.
  intros Hver Hcode Hmsg Hw.
  exists (version_toString (st_httpVersion s) ++ 32 :: to_string (m_statusCode s) ++ 32 :: join_words words).
  split.
  { unfold status_text, wrapw. rewrite Z.mod_small, Hmsg by lia. change (bs " ") with [32]. rewrite <- !app_assoc.
    cbn [app]. by rewrite <- !app_assoc. }
  intros p Hline. unfold status_parse, toStringEx. rewrite Hline. cbn [mbind outcome_bind from_option id].
  unfold split_on. change (fun c => existsb (Z.eqb c) [9; 32]) with (is_sep blanks).
  assert (word_ok blanks (to_string (m_statusCode s))) as Hnum.
  { apply decimal_word; [lia|]. intros c [->|[->|Hc]%elem_of_cons]%elem_of_cons; [lia..|by apply not_elem_of_nil in Hc]. }
  rewrite split_first, split_first by (done || by apply version_word).
  rewrite version_reads, strtoul_decimal by done.
  assert (join_words (split_compress (is_sep blanks) true [] (join_words words)) = join_words words) as ->.
  { destruct words as [|w words]; [done|]. by rewrite split_join. }
  rewrite <- Hmsg. by destruct s.
Qed.

Section Witnesses.
#[local] Existing Instance no_files.

Definition demo_line : RequestLine B_MEM :=
  mkRequestLine (bs "GET") (bs "/index") [] version_new (pr_set_impl demo_vars urlvars_create).

Definition demo_pairs : list (bytes * bytes) := [(bs "name", bs "x y"); (bs "q&a", bs "1")].

Lemma demo_sendable : sendable demo_line demo_pairs.
Proof.
  constructor.
  - by split.
  - reflexivity.
  - split; [by split|]. split; [discriminate|]. split.
    + cbn. intros Hin. repeat (apply elem_of_cons in Hin as [?|Hin]; [discriminate|]). by apply not_elem_of_nil in Hin.
    + repeat constructor; discriminate.
  - by repeat split.
  - repeat constructor; unfold bc_offsets_ok, bc_ok; by vm_compute.
  - repeat constructor; discriminate.
  - discriminate.
  - discriminate.
Qed.

Lemma requestline_roundtrip_witness :
  exists line, requestline_text demo_line = Ret (line ++ CRLF) /\
    forall p, m_getVars (sp_sub p) = urlvars_create -> toString SIZE_MAX 0 (getParsedBuffer p) = Ret (Some line) ->
    exists p', requestline_parse p = Ret (p', GOTO_NEXT_SUBPARSER) /\ same_request demo_line (sp_sub p') demo_pairs.
Proof.
  exact (requestline_roundtrip demo_line demo_pairs demo_sendable).
Defined.

Definition demo_status : Status := mkStatus version_new 404 (bs "Not Found").

Lemma status_roundtrip_witness :
  exists line, status_text demo_status = line ++ CRLF /\
    forall (p : SubParser B_MEM Status), toString SIZE_MAX 0 (getParsedBuffer p) = Ret (Some line) ->
    status_parse p = Ret (sp_set_sub demo_status p, GOTO_NEXT_SUBPARSER).
Proof.
  refine (status_roundtrip demo_status [bs "Not"; bs "Found"] _ _ _ _).
  - by repeat split.
  - by repeat split.
  - reflexivity.
  - by repeat constructor.
Defined.
End Witnesses.

(** Numbers that do not fit are cut to 16 bits. *)
Example version_truncated : version_parse (bs "HTTP/65537.0") = mkVersion 0 1.
Proof. by vm_compute. Qed.
