(* ===== verification/HttpHeaders.v ===== *)
(** * Header values and cookies (Protocol_HTTP/hdr_cachecontrol.cpp,
      hdr_sec_hsts.cpp, hdr_sec_xframeopts.cpp, hdr_sec_xssprotection.cpp,
      hdr_cookie.cpp, req_cookies.cpp, rsp_cookies.cpp)

    The options that are sent as the text of a header and read back from it.  The
    theorems say for every option what reading gives: the options that come back
    as they were, and the ones that do not.

    Dates are printed and read by [strftime] and [strptime], a parameter. *)

From S2P Require Import Prelude SafeInt Mem Streamable Container ContainerTheory BMem BChunks ChunkBuffer BRef.
From S2P Require Import SubParser Parser CLib HttpContent MimeHeader HttpLines.
From Stdlib Require Import ZArith Lia.

(** ** Cache-Control *)
Record CacheControl := mkCacheControl {
  optionNoStore : bool;
  optionNoCache : bool;
  optionMustRevalidate : bool;
  optionPrivate : bool;
  optionPublic : bool;
  optionImmutable : bool;
  optionNoTransform : bool;
  optionProxyRevalidate : bool;
  maxAge : Z;
  sMaxAge : Z }.

Definition cachecontrol_new : CacheControl := mkCacheControl true false false false false false false false 0 0.

(** [r += (r.empty() ? "" : ",") + part]. *)
Definition add_part (cond : bool) (part r : bytes) : bytes :=
  if cond then match r with [] => part | _ => r ++ bs "," ++ part end else r.

Definition cachecontrol_toString (c : CacheControl) : bytes :=
  let r := [] in
  let r := if optionMustRevalidate c then r ++ bs "must-revalidate" else r in
  let r := add_part (optionProxyRevalidate c) (bs "proxy-revalidate") r in
  let r := add_part (optionNoTransform c) (bs "no-transform") r in
  let r := add_part (optionImmutable c) (bs "immutable") r in
  let r := add_part (optionNoStore c) (bs "no-store") r in
  let r := add_part (optionNoCache c) (bs "no-cache") r in
  let r := add_part (optionPrivate c) (bs "private") r in
  let r := add_part (optionPublic c) (bs "public") r in
  let r := add_part (negb (maxAge c =? 0)) (bs "max-age=" ++ to_string (maxAge c)) r in
  add_part (negb (sMaxAge c =? 0)) (bs "s-maxage=" ++ to_string (sMaxAge c)) r.

Definition cc_noStore (v : bool) (c : CacheControl) : CacheControl :=
  mkCacheControl v (optionNoCache c) (optionMustRevalidate c) (optionPrivate c) (optionPublic c) (optionImmutable c)
    (optionNoTransform c) (optionProxyRevalidate c) (maxAge c) (sMaxAge c).
Definition cc_noCache (v : bool) (c : CacheControl) : CacheControl :=
  mkCacheControl (optionNoStore c) v (optionMustRevalidate c) (optionPrivate c) (optionPublic c) (optionImmutable c)
    (optionNoTransform c) (optionProxyRevalidate c) (maxAge c) (sMaxAge c).
Definition cc_mustRevalidate (v : bool) (c : CacheControl) : CacheControl :=
  mkCacheControl (optionNoStore c) (optionNoCache c) v (optionPrivate c) (optionPublic c) (optionImmutable c)
    (optionNoTransform c) (optionProxyRevalidate c) (maxAge c) (sMaxAge c).
Definition cc_private (v : bool) (c : CacheControl) : CacheControl :=
  mkCacheControl (optionNoStore c) (optionNoCache c) (optionMustRevalidate c) v (optionPublic c) (optionImmutable c)
    (optionNoTransform c) (optionProxyRevalidate c) (maxAge c) (sMaxAge c).
Definition cc_public (v : bool) (c : CacheControl) : CacheControl :=
  mkCacheControl (optionNoStore c) (optionNoCache c) (optionMustRevalidate c) (optionPrivate c) v (optionImmutable c)
    (optionNoTransform c) (optionProxyRevalidate c) (maxAge c) (sMaxAge c).
Definition cc_immutable (v : bool) (c : CacheControl) : CacheControl :=
  mkCacheControl (optionNoStore c) (optionNoCache c) (optionMustRevalidate c) (optionPrivate c) (optionPublic c) v
    (optionNoTransform c) (optionProxyRevalidate c) (maxAge c) (sMaxAge c).
Definition cc_noTransform (v : bool) (c : CacheControl) : CacheControl :=
  mkCacheControl (optionNoStore c) (optionNoCache c) (optionMustRevalidate c) (optionPrivate c) (optionPublic c)
    (optionImmutable c) v (optionProxyRevalidate c) (maxAge c) (sMaxAge c).
Definition cc_proxyRevalidate (v : bool) (c : CacheControl) : CacheControl :=
  mkCacheControl (optionNoStore c) (optionNoCache c) (optionMustRevalidate c) (optionPrivate c) (optionPublic c)
    (optionImmutable c) (optionNoTransform c) v (maxAge c) (sMaxAge c).
Definition cc_maxAge (v : Z) (c : CacheControl) : CacheControl :=
  mkCacheControl (optionNoStore c) (optionNoCache c) (optionMustRevalidate c) (optionPrivate c) (optionPublic c)
    (optionImmutable c) (optionNoTransform c) (optionProxyRevalidate c) v (sMaxAge c).
Definition cc_sMaxAge (v : Z) (c : CacheControl) : CacheControl :=
  mkCacheControl (optionNoStore c) (optionNoCache c) (optionMustRevalidate c) (optionPrivate c) (optionPublic c)
    (optionImmutable c) (optionNoTransform c) (optionProxyRevalidate c) (maxAge c) v.

(** One parameter of the header. *)
Definition cc_param (c : CacheControl) (param : bytes) : CacheControl :=
  let paramLower := to_lower_copy param in
  if bool_decide (paramLower = bs "no-store") then cc_noStore true c
  else if bool_decide (paramLower = bs "no-cache") then cc_noCache true c
  else if bool_decide (paramLower = bs "private") then cc_private true c
  else if bool_decide (paramLower = bs "public") then cc_public true c
  else if bool_decide (paramLower = bs "immutable") then cc_immutable true c
  else if bool_decide (paramLower = bs "proxy-revalidate") then cc_proxyRevalidate true c
  else if bool_decide (paramLower = bs "no-transform") then cc_noTransform true c
  else if starts_with paramLower (bs "max-age=") then cc_maxAge (wrapw 32 (strtoul 10 (zdrop 8 paramLower)).1) c
  else if starts_with paramLower (bs "s-maxage=") then cc_sMaxAge (wrapw 32 (strtoul 10 (zdrop 9 paramLower)).1) c
  else c.

Definition cachecontrol_fromString (str : bytes) : CacheControl :=
  foldl cc_param cachecontrol_new (split_on (bs ", ") str).

(** ** Strict-Transport-Security *)
Record HSTS := mkHSTS { hsts_activated : bool; isPreloadEnabled : bool; isSubdomainIncluded : bool; hsts_maxAge : Z }.

Definition hsts_new : HSTS := mkHSTS false false false 0.

Definition hsts_toString (h : HSTS) : bytes :=
  if hsts_activated h then
    let r := [] in
    let r := if negb (hsts_maxAge h =? 0) then r ++ bs "; max-age=" ++ to_string (hsts_maxAge h) else r in
    let r := if isSubdomainIncluded h then r ++ bs "; includeSubDomains" else r in
    let r := if isPreloadEnabled h then r ++ bs "; preload" else r in
    if zlen r >? 2 then zdrop 2 r else []
  else [].

Definition hsts_part (h : HSTS) (part : bytes) : HSTS :=
  if iequals part (bs "preload") then mkHSTS (hsts_activated h) true (isSubdomainIncluded h) (hsts_maxAge h)
  else if iequals part (bs "includeSubDomains") then mkHSTS (hsts_activated h) (isPreloadEnabled h) true (hsts_maxAge h)
  else if istarts_with part (bs "max-age=") then
    mkHSTS (hsts_activated h) (isPreloadEnabled h) (isSubdomainIncluded h) (wrapw 32 (strtoul 10 (zdrop 0 part)).1)
  else h.

Definition hsts_fromString (sValue : bytes) : HSTS :=
  let parts := split_on (bs "; ") sValue in
  match sValue with
  | [] => hsts_new
  | _ => foldl hsts_part (mkHSTS true false false 0) parts
  end.

(** ** X-Frame-Options *)
Inductive XFrameOption := XF_NONE | XF_DENY | XF_SAMEORIGIN | XF_ALLOWFROM.
#[export] Instance XFrameOption_eq_dec : EqDecision XFrameOption.
Proof. solve_decision. Defined.

Record XFrameOptions := mkXFrame { xf_allowFromURL : bytes; xf_value : XFrameOption }.

Definition xframe_new : XFrameOptions := mkXFrame [] XF_DENY.
Definition xframe_make (value : XFrameOption) (allowFromURL : bytes) : outcome XFrameOptions :=
  if bool_decide (allowFromURL <> []) && bool_decide (value <> XF_ALLOWFROM) then
    Throw (runtime_error "Using allowFromURL without ALLOWFROM")
  else Ret (mkXFrame allowFromURL value).
Definition isNotActivated (x : XFrameOptions) : bool := bool_decide (xf_value x = XF_NONE).

Definition xframe_toString (x : XFrameOptions) : bytes :=
  match xf_value x with
  | XF_DENY => bs "DENY"
  | XF_ALLOWFROM => bs "ALLOW-FROM " ++ xf_allowFromURL x
  | XF_SAMEORIGIN => bs "SAMEORIGIN"
  | XF_NONE => []
  end.

Definition xframe_fromString (sValue : bytes) : XFrameOptions * bool :=
  match sValue with
  | [] => (xframe_new, false)
  | _ =>
      match split_on (bs " ") sValue with
      | [] => (xframe_new, false)
      | p :: rest =>
          if iequals p (bs "DENY") then (mkXFrame [] XF_DENY, true)
          else if iequals p (bs "SAMEORIGIN") then (mkXFrame [] XF_SAMEORIGIN, true)
          else if iequals p (bs "ALLOW-FROM") then
            match rest with
            | [] => (xframe_new, false)
            | url :: _ => (mkXFrame url XF_ALLOWFROM, true)
            end
          else (xframe_new, false)
      end
  end.

(** ** X-XSS-Protection *)
Record XSSProtection := mkXSS { xss_activated : bool; enableBlockingMode : bool; reportURL : bytes }.

Definition xss_new : XSSProtection := mkXSS true true [].

Definition xss_toString (x : XSSProtection) : bytes :=
  if negb (xss_activated x) then bs "0"
  else
    let r := bs "1" in
    let r := if enableBlockingMode x then r ++ bs "; mode=block" else r in
    if bool_decide (reportURL x <> []) then r ++ bs "; report=" ++ reportURL x else r.

Definition xss_part (x : XSSProtection) (part : bytes) : XSSProtection :=
  if iequals part (bs "mode=block") then mkXSS (xss_activated x) true (reportURL x)
  else if istarts_with part (bs "report=") then mkXSS (xss_activated x) (enableBlockingMode x) (zdrop 7 part)
  else x.

Definition xss_fromString (sValue : bytes) : XSSProtection :=
  match split_on (bs "; ") sValue with
  | [] => mkXSS false true []
  | [p] => mkXSS (bool_decide (p = bs "1")) true []
  | p :: parts => if bool_decide (p = bs "1") then foldl xss_part (mkXSS true false []) parts else mkXSS false true []
  end.

(** ** Dates *)

(** [strftime] of the format of HTTP dates, and [strptime] with [mktime]. *)
Class DateFormat := {
  strftime_http : Z -> bytes;
  strptime_http : bytes -> option Z }.

Definition date_toString `{DateFormat} (m_unixTime : Z) : bytes := strftime_http m_unixTime.
Definition date_fromString `{DateFormat} (fTime : bytes) : Z * bool :=
  match strptime_http fTime with Some t => (t, true) | None => (0, false) end.

(** ** Cookies *)
Inductive SameSitePolicy := SS_NONE | SS_LAX | SS_STRICT.

Record Cookie := mkCookie {
  ck_value : bytes;
  ck_expires : option Z;
  ck_maxAge : option Z;
  ck_domain : bytes;
  ck_path : bytes;
  ck_secure : bool;
  ck_httpOnly : bool;
  sameSitePolicy : SameSitePolicy }.

Definition cookie_new : Cookie := mkCookie [] None None [] [] true true SS_STRICT.

Definition ck_set_value (v : bytes) (c : Cookie) : Cookie :=
  mkCookie v (ck_expires c) (ck_maxAge c) (ck_domain c) (ck_path c) (ck_secure c) (ck_httpOnly c) (sameSitePolicy c).
Definition ck_set_expires (v : option Z) (c : Cookie) : Cookie :=
  mkCookie (ck_value c) v (ck_maxAge c) (ck_domain c) (ck_path c) (ck_secure c) (ck_httpOnly c) (sameSitePolicy c).
Definition ck_set_maxAge (v : option Z) (c : Cookie) : Cookie :=
  mkCookie (ck_value c) (ck_expires c) v (ck_domain c) (ck_path c) (ck_secure c) (ck_httpOnly c) (sameSitePolicy c).
Definition ck_set_domain (v : bytes) (c : Cookie) : Cookie :=
  mkCookie (ck_value c) (ck_expires c) (ck_maxAge c) v (ck_path c) (ck_secure c) (ck_httpOnly c) (sameSitePolicy c).
Definition ck_set_path (v : bytes) (c : Cookie) : Cookie :=
  mkCookie (ck_value c) (ck_expires c) (ck_maxAge c) (ck_domain c) v (ck_secure c) (ck_httpOnly c) (sameSitePolicy c).
Definition ck_set_secure (v : bool) (c : Cookie) : Cookie :=
  mkCookie (ck_value c) (ck_expires c) (ck_maxAge c) (ck_domain c) (ck_path c) v (ck_httpOnly c) (sameSitePolicy c).
Definition ck_set_httpOnly (v : bool) (c : Cookie) : Cookie :=
  mkCookie (ck_value c) (ck_expires c) (ck_maxAge c) (ck_domain c) (ck_path c) (ck_secure c) v (sameSitePolicy c).
Definition ck_set_sameSite (v : SameSitePolicy) (c : Cookie) : Cookie :=
  mkCookie (ck_value c) (ck_expires c) (ck_maxAge c) (ck_domain c) (ck_path c) (ck_secure c) (ck_httpOnly c) v.

Definition getVarNameAndValue (var : bytes) : bytes * bytes :=
  match find_char 61 var with
  | Some found => (trim (ztake found var), trim (c_str (zdrop (found + 1) var)))
  | None => (trim var, trim [])
  end.

Section Cookies.
Context `{DateFormat} `{RandomBytes}.

Definition cookie_text (cookieName : bytes) (c : Cookie) : list bytes :=
  [cookieName ++ bs "=" ++ ck_value c ++ bs "; "] ++
  match ck_expires c with Some d => [bs "Expires=" ++ date_toString d ++ bs "; "] | None => [] end ++
  match ck_maxAge c with Some a => [bs "Max-Age=" ++ to_string a ++ bs "; "] | None => [] end ++
  (if ck_secure c then [bs "Secure; "] else []) ++
  (if ck_httpOnly c then [bs "HttpOnly; "] else []) ++
  (if bool_decide (ck_domain c <> []) then [bs "Domain=" ++ ck_domain c ++ bs "; "] else []) ++
  (if bool_decide (ck_path c <> []) then [bs "Path=" ++ ck_path c ++ bs "; "] else []) ++
  match sameSitePolicy c with
  | SS_NONE => [bs "SameSite=None; "]
  | SS_STRICT => [bs "SameSite=Strict; "]
  | SS_LAX => [bs "SameSite=Lax; "]
  end.

Definition toSetCookieString (cookieName : bytes) (c : Cookie) : bytes := concat (cookie_text cookieName c).

(** A parameter after the first. *)
Definition cookie_param (c : Cookie) (param : bytes) : Cookie :=
  let var := getVarNameAndValue param in
  let varNameUpper := to_upper_copy var.1 in
  if bool_decide (varNameUpper = bs "EXPIRES") then ck_set_expires (Some (date_fromString var.2).1) c
  else if bool_decide (varNameUpper = bs "MAX-AGE") then ck_set_maxAge (Some (wrapw 32 (strtoul 10 var.2).1)) c
  else if bool_decide (varNameUpper = bs "SECURE") then ck_set_secure true c
  else if bool_decide (varNameUpper = bs "HTTPONLY") then ck_set_httpOnly true c
  else if bool_decide (varNameUpper = bs "DOMAIN") then ck_set_domain var.2 c
  else if bool_decide (varNameUpper = bs "PATH") then ck_set_path var.2 c
  else if bool_decide (varNameUpper = bs "SAMESITE") then
    if iequals var.2 (bs "LAX") then ck_set_sameSite SS_LAX c
    else if iequals var.2 (bs "STRICT") then ck_set_sameSite SS_STRICT c
    else ck_set_sameSite SS_NONE c
  else c.

(** [fromSetCookieString]: the name and the cookie. *)
Definition fromSetCookieString (setCookieValue : bytes) (cookieName : bytes) : bytes * Cookie :=
  match split_on (bs ";") setCookieValue with
  | [] => (cookieName, cookie_new)
  | param :: params =>
      let var := getVarNameAndValue param in
      (var.1, foldl cookie_param (ck_set_value var.2 cookie_new) params)
  end.

Definition setAsSessionCookie (c : Cookie) : Cookie := ck_set_maxAge None (ck_set_expires None c).
Definition setExpiration (exp : Z) (c : Cookie) : Cookie := ck_set_expires (Some exp) c.
Definition setExpirationFromNow (now seconds : Z) (c : Cookie) : Cookie := ck_set_expires (Some (now + seconds)) c.
Definition deleteCookie (c : Cookie) : Cookie :=
  ck_set_maxAge (Some 0) (ck_set_expires None (ck_set_sameSite SS_NONE (ck_set_value [] c))).

(** ** The cookies of a request *)
Definition ClientCookies : Type := list (bytes * bytes).
Implicit Types cc : ClientCookies.

Definition clientcookies_toString cc : bytes := join_with (bs "; ") (map (fun i => i.1 ++ bs "=" ++ i.2) cc).
Definition clientcookies_putOnHeaders cc (h : MIME_Header) : outcome MIME_Header :=
  match cc with
  | [] => Ret h
  | _ => '(h, _) ← header_add (bs "Cookie") (clientcookies_toString cc) h; Ret h
  end.
Definition addClientCookie (cookieName cookieValue : bytes) cc : ClientCookies := om_set cookieName cookieValue cc.
Definition parseClientCookie (cookie : bytes) cc : ClientCookies :=
  match find_char 61 cookie with
  | Some found =>
      addClientCookie (trim (ztake found cookie)) (trim (c_str (zdrop (found + 1) cookie))) cc
  | None => cc
  end.
Definition clientcookies_parseFromHeaders (cookies_str : bytes) cc : ClientCookies :=
  foldl (fun cc c => parseClientCookie c cc) cc (split_on (bs ";") cookies_str).
Definition getClientCookie (cookieName : bytes) cc : bytes :=
  match mm_find cookieName cc with Some v => v | None => [] end.

(** ** The cookies of a response *)
Definition ServerCookies : Type := list (bytes * Cookie).
Implicit Types sc : ServerCookies.

Fixpoint servercookies_putOnHeaders sc (h : MIME_Header) : outcome MIME_Header :=
  match sc with
  | [] => Ret h
  | i :: sc => '(h, _) ← header_add (bs "Set-Cookie") (toSetCookieString i.1 i.2) h; servercookies_putOnHeaders sc h
  end.
Definition getCookieByName (cookieName : bytes) sc : option Cookie := mm_find cookieName sc.
Definition getCookieValueByName (cookieName : bytes) sc : bytes :=
  match getCookieByName cookieName sc with Some c => ck_value c | None => [] end.
Definition parseServerCookie (cookie_str : bytes) sc : ServerCookies * bool :=
  let '(cookieName, cookieValue) := fromSetCookieString cookie_str [] in
  if bool_decide (cookieName = []) || om_count cookieName sc then (sc, false)
  else (om_set cookieName cookieValue sc, true).
Definition addServerCookie (cookieName : bytes) (cookieValue : Cookie) sc : ServerCookies * bool :=
  if om_count cookieName sc then (sc, false) else (om_set cookieName cookieValue sc, true).
Definition removeCookie (cookieName : bytes) sc : ServerCookies * bool :=
  if om_count cookieName sc then (mm_erase cookieName sc, true) else (sc, false).
Definition addClearSecureCookie (cookieName path : bytes) sc : ServerCookies :=
  let c := cookie_new in
  let c := if bool_decide (path <> []) then ck_set_path path c else c in
  let c := ck_set_httpOnly true (ck_set_secure true (ck_set_value [] c)) in
  let c := ck_set_sameSite SS_STRICT (deleteCookie c) in
  (addServerCookie cookieName c (mm_erase cookieName sc)).1.

(** The path of a cookie behind a prefix. *)
Definition prepend_path (prefix path : bytes) : bytes :=
  if bool_decide (path = []) || bool_decide (path = bs "/") then prefix
  else
    let cleanPrefix := if bool_decide (last prefix = Some 47) then ztake (zlen prefix - 1) prefix else prefix in
    if bool_decide (head path = Some 47) then cleanPrefix ++ path else cleanPrefix ++ bs "/" ++ path.
Definition prependPathToAllCookies (prefix : bytes) sc : ServerCookies :=
  match prefix with
  | [] => sc
  | _ => map (fun i => (i.1, ck_set_path (prepend_path prefix (ck_path i.2)) i.2)) sc
  end.
End Cookies.

(** ** Joining and splitting *)

Lemma join_app sep l w : l <> [] -> join_with sep (l ++ [w]) = join_with sep l ++ sep ++ w.
Proof.
  intros Hl. induction l as [|x l IH]; [done|]. destruct l as [|y l]; [done|].
  change (join_with sep ((x :: y :: l) ++ [w])) with (x ++ sep ++ join_with sep ((y :: l) ++ [w])).
  rewrite IH by done. change (join_with sep (x :: y :: l)) with (x ++ sep ++ join_with sep (y :: l)). by rewrite <- !app_assoc.
Qed.

Lemma join_nonempty sep l : l <> [] -> Forall (fun w => w <> []) l -> join_with sep l <> [].
Proof. intros Hl Hw. destruct Hw as [|w [|y l] Hw _]; [done|done|]. cbn [join_with]. by destruct w. Qed.

(** [split] of joined words, when the first character of what joins them is a
    separator and so are the others. *)
Lemma split_join_with seps sep skipping l :
  forallb (is_sep seps) sep = true -> sep <> [] -> Forall (word_ok seps) l -> l <> [] ->
  split_compress (is_sep seps) skipping [] (join_with sep l) = l.
Proof.
  intros Hsep Hne Hl. revert skipping. induction Hl as [|w l Hw Hl IH]; intros skipping Hn; [done|].
  destruct l as [|y l]; [by apply split_last|].
  change (join_with sep (w :: y :: l)) with (w ++ sep ++ join_with sep (y :: l)).
  destruct sep as [|c sep]; [done|]. cbn [forallb] in Hsep. apply andb_true_iff in Hsep as [Hc Hsep].
  cbn [app]. rewrite split_first by done. f_equal. specialize (IH true ltac:(done)). rewrite <- IH at 2.
  generalize (join_with (c :: sep) (y :: l)). clear -Hsep. intros t.
  induction sep as [|d sep IH]; [done|]. cbn [forallb] in Hsep. apply andb_true_iff in Hsep as [Hd Hsep].
  cbn [app split_compress]. by rewrite Hd, IH.
Qed.

Lemma to_lower_digits n : 0 <= n -> to_lower_copy (to_string n) = to_string n.
Proof.
  intros Hn. unfold to_string. induction (print_base_chars 10 n ltac:(lia) Hn) as [|c l (d & -> & Hd) _ IH]; [done|].
  unfold to_lower_copy in *. cbn [map]. rewrite IH. f_equal. unfold tolower, isupper, digit_char.
  replace (d <? 10) with true by lia. by replace ((65 <=? 48 + d) && (48 + d <=? 90)) with false by lia.
Qed.

Lemma strtoul_u32 n : 0 <= n < 4294967296 -> wrapw 32 (strtoul 10 (to_string n)).1 = n.
Proof.
  intros Hn. unfold to_string. rewrite strtoul_print by (unfold ULONG_MAX, SIZE_MAX, SIZE_MOD; lia).
  cbn [fst]. apply Z.mod_small. lia.
Qed.

(** ** Cache-Control *)
Definition opt (b : bool) (p : bytes) : list bytes := if b then [p] else [].

Definition cc_parts (c : CacheControl) : list bytes :=
  opt (optionMustRevalidate c) (bs "must-revalidate") ++ opt (optionProxyRevalidate c) (bs "proxy-revalidate") ++
  opt (optionNoTransform c) (bs "no-transform") ++ opt (optionImmutable c) (bs "immutable") ++
  opt (optionNoStore c) (bs "no-store") ++ opt (optionNoCache c) (bs "no-cache") ++ opt (optionPrivate c) (bs "private") ++
  opt (optionPublic c) (bs "public") ++ opt (negb (maxAge c =? 0)) (bs "max-age=" ++ to_string (maxAge c)) ++
  opt (negb (sMaxAge c =? 0)) (bs "s-maxage=" ++ to_string (sMaxAge c)).

Lemma add_part_join b p l :
  Forall (fun w => w <> []) l -> add_part b p (join_with (bs ",") l) = join_with (bs ",") (l ++ opt b p).
Proof.
  intros Hl. destruct b; cbn [add_part opt]; [|by rewrite app_nil_r].
  destruct l as [|w l]; [done|]. rewrite join_app by done.
  pose proof (join_nonempty (bs ",") (w :: l) ltac:(done) Hl). by destruct (join_with _ _).
Qed.

Lemma opt_words seps b p : word_ok seps p -> Forall (word_ok seps) (opt b p).
Proof. destruct b; repeat constructor; apply H. Qed.

Definition cc_ok (c : CacheControl) : Prop := 0 <= maxAge c < 4294967296 /\ 0 <= sMaxAge c < 4294967296.

Lemma age_word p n : word_ok (bs ", ") p -> 0 <= n -> word_ok (bs ", ") (p ++ to_string n).
Proof.
  intros Hp Hn. apply word_ok_app; [done|]. apply decimal_word; [done|].
  intros c [->|[->|Hc]%elem_of_cons]%elem_of_cons; [left; done|left; done|by apply not_elem_of_nil in Hc].
Qed.

Lemma cc_parts_words c : cc_ok c -> Forall (word_ok (bs ", ")) (cc_parts c).
Proof.
  intros [Ha Hs]. unfold cc_parts. repeat (apply Forall_app; split); apply opt_words; try (by split);
    (apply age_word; [by split|lia]).
Qed.

Lemma cc_text c : cc_ok c -> cachecontrol_toString c = join_with (bs ",") (cc_parts c).
Proof.
  intros Hok. pose proof (cc_parts_words c Hok) as Hw. unfold cachecontrol_toString, cc_parts in *. 
  assert ((if optionMustRevalidate c then [] ++ bs "must-revalidate" else []) =
    join_with (bs ",") (opt (optionMustRevalidate c) (bs "must-revalidate"))) as -> by by destruct (optionMustRevalidate c).
  assert (forall l, Forall (word_ok (bs ", ")) l -> Forall (fun w : bytes => w <> []) l) as Hne.
  { intros l Hl. eapply Forall_impl; [exact Hl|]. by intros w [? _]. }
  apply Hne in Hw. rewrite !Forall_app in Hw. destruct Hw as (H1 & H2 & H3 & H4 & H5 & H6 & H7 & H8 & H9 & H10).
  rewrite !add_part_join by (rewrite ?Forall_app; auto 20). by rewrite <- !app_assoc.
Qed.

(** What the parameters of the header do. *)
Lemma maxage_param c n : 0 <= n < 4294967296 -> cc_param c (bs "max-age=" ++ to_string n) = cc_maxAge n c.
Proof.
  intros Hn. unfold cc_param.
  assert (to_lower_copy (bs "max-age=" ++ to_string n) = bs "max-age=" ++ to_string n) as ->.
  { unfold to_lower_copy. rewrite map_app. f_equal. apply to_lower_digits. lia. }
  rewrite !bool_decide_eq_false_2 by discriminate.
  rewrite starts_with_app.
  rewrite zdrop_app_ge, zdrop_le0 by done. by rewrite strtoul_u32.
Qed.

Lemma smaxage_param c n : 0 <= n < 4294967296 -> cc_param c (bs "s-maxage=" ++ to_string n) = cc_sMaxAge n c.
Proof.
  intros Hn. unfold cc_param.
  assert (to_lower_copy (bs "s-maxage=" ++ to_string n) = bs "s-maxage=" ++ to_string n) as ->.
  { unfold to_lower_copy. rewrite map_app. f_equal. apply to_lower_digits. lia. }
  rewrite !bool_decide_eq_false_2 by discriminate.
  change (starts_with (bs "s-maxage=" ++ to_string n) (bs "max-age=")) with false.
  rewrite starts_with_app.
  rewrite zdrop_app_ge, zdrop_le0 by done. by rewrite strtoul_u32.
Qed.

Lemma cc_fold c0 c :
  cc_ok c ->
  foldl cc_param c0 (cc_parts c) =
  mkCacheControl (optionNoStore c || optionNoStore c0) (optionNoCache c || optionNoCache c0) (optionMustRevalidate c0)
    (optionPrivate c || optionPrivate c0) (optionPublic c || optionPublic c0) (optionImmutable c || optionImmutable c0)
    (optionNoTransform c || optionNoTransform c0) (optionProxyRevalidate c || optionProxyRevalidate c0)
    (if maxAge c =? 0 then maxAge c0 else maxAge c) (if sMaxAge c =? 0 then sMaxAge c0 else sMaxAge c).
Proof.
  intros [Ha Hs]. unfold cc_parts. rewrite !foldl_app.
  assert (forall c0, foldl cc_param c0 (opt (optionMustRevalidate c) (bs "must-revalidate")) = c0) as ->
    by by destruct (optionMustRevalidate c).
  assert (forall c0, foldl cc_param c0 (opt (optionProxyRevalidate c) (bs "proxy-revalidate")) =
    cc_proxyRevalidate (optionProxyRevalidate c || optionProxyRevalidate c0) c0) as ->
    by (destruct (optionProxyRevalidate c); by intros []).
  assert (forall c0, foldl cc_param c0 (opt (optionNoTransform c) (bs "no-transform")) =
    cc_noTransform (optionNoTransform c || optionNoTransform c0) c0) as -> by (destruct (optionNoTransform c); by intros []).
  assert (forall c0, foldl cc_param c0 (opt (optionImmutable c) (bs "immutable")) =
    cc_immutable (optionImmutable c || optionImmutable c0) c0) as -> by (destruct (optionImmutable c); by intros []).
  assert (forall c0, foldl cc_param c0 (opt (optionNoStore c) (bs "no-store")) =
    cc_noStore (optionNoStore c || optionNoStore c0) c0) as -> by (destruct (optionNoStore c); by intros []).
  assert (forall c0, foldl cc_param c0 (opt (optionNoCache c) (bs "no-cache")) =
    cc_noCache (optionNoCache c || optionNoCache c0) c0) as -> by (destruct (optionNoCache c); by intros []).
  assert (forall c0, foldl cc_param c0 (opt (optionPrivate c) (bs "private")) =
    cc_private (optionPrivate c || optionPrivate c0) c0) as -> by (destruct (optionPrivate c); by intros []).
  assert (forall c0, foldl cc_param c0 (opt (optionPublic c) (bs "public")) =
    cc_public (optionPublic c || optionPublic c0) c0) as -> by (destruct (optionPublic c); by intros []).
  assert (forall c0, foldl cc_param c0 (opt (negb (maxAge c =? 0)) (bs "max-age=" ++ to_string (maxAge c))) =
    cc_maxAge (if maxAge c =? 0 then maxAge c0 else maxAge c) c0) as ->.
  { intros c1. destruct (maxAge c =? 0); cbn [negb opt foldl]; [by destruct c1|by rewrite maxage_param]. }
  destruct (sMaxAge c =? 0); cbn [negb opt foldl]; [done|by rewrite smaxage_param].
Qed.

(** Cache-Control as it is read back: what [fromString] makes of the text of
    [toString] has the same options and ages, but must-revalidate is never read
    and no-store is always set. *)
Theorem cachecontrol_read_back (c : CacheControl) :
  cc_ok c -> cachecontrol_fromString (cachecontrol_toString c) = cc_noStore true (cc_mustRevalidate false c).
Proof.
  intros Hok. unfold cachecontrol_fromString. rewrite cc_text by done. unfold split_on.
  change (fun x => existsb (Z.eqb x) (bs ", ")) with (is_sep (bs ", ")).
  assert (foldl cc_param cachecontrol_new (split_compress (is_sep (bs ", ")) false [] (join_with (bs ",") (cc_parts c))) =
    foldl cc_param cachecontrol_new (cc_parts c)) as ->.
  { destruct (cc_parts c) as [|p l] eqn:E; [done|]. rewrite <- E. rewrite split_join_with; try done; [by apply cc_parts_words|].
    by rewrite E. }
  rewrite cc_fold by done. destruct c as [a b cc d e f g h i j]. cbn. rewrite !orb_false_r, orb_true_r.
  unfold cc_noStore, cc_mustRevalidate. cbn. f_equal; [destruct (Z.eqb_spec i 0)|destruct (Z.eqb_spec j 0)]; by subst.
Qed.

(** ** The security headers *)
Definition hsts_ok (h : HSTS) : Prop := 0 <= hsts_maxAge h < 4294967296.

Definition hsts_parts (h : HSTS) : list bytes :=
  opt (negb (hsts_maxAge h =? 0)) (bs "max-age=" ++ to_string (hsts_maxAge h)) ++
  opt (isSubdomainIncluded h) (bs "includeSubDomains") ++ opt (isPreloadEnabled h) (bs "preload").

Lemma semicolon_word p n : word_ok (bs "; ") p -> 0 <= n -> word_ok (bs "; ") (p ++ to_string n).
Proof.
  intros Hp Hn. apply word_ok_app; [done|]. apply decimal_word; [done|].
  intros c [->|[->|Hc]%elem_of_cons]%elem_of_cons; [right; done|left; done|by apply not_elem_of_nil in Hc].
Qed.

Lemma hsts_parts_words h : hsts_ok h -> Forall (word_ok (bs "; ")) (hsts_parts h).
Proof.
  intros [Ha _]. unfold hsts_parts. repeat (apply Forall_app; split); apply opt_words; try (by split).
  apply semicolon_word; [by split|lia].
Qed.

(** Parts that are written each behind what separates them. *)
Lemma join_behind sep l : l <> [] -> concat (map (fun w => sep ++ w) l) = sep ++ join_with sep l.
Proof.
  intros Hl. induction l as [|w l IH]; [done|]. destruct l as [|y l]; [cbn; by rewrite app_nil_r|].
  change (concat (map (fun w => sep ++ w) (w :: y :: l))) with ((sep ++ w) ++ concat (map (fun w => sep ++ w) (y :: l))).
  rewrite IH by done. change (join_with sep (w :: y :: l)) with (w ++ sep ++ join_with sep (y :: l)). by rewrite <- !app_assoc.
Qed.

Lemma hsts_text h :
  hsts_ok h -> hsts_toString h = if hsts_activated h then join_with (bs "; ") (hsts_parts h) else [].
Proof.
  intros Hok.  unfold hsts_toString. destruct (hsts_activated h); [|done].
  assert ((if isPreloadEnabled h then (if isSubdomainIncluded h then (if negb (hsts_maxAge h =? 0) then
      [] ++ bs "; max-age=" ++ to_string (hsts_maxAge h) else []) ++ bs "; includeSubDomains"
      else if negb (hsts_maxAge h =? 0) then [] ++ bs "; max-age=" ++ to_string (hsts_maxAge h) else []) ++ bs "; preload"
      else if isSubdomainIncluded h then (if negb (hsts_maxAge h =? 0) then
      [] ++ bs "; max-age=" ++ to_string (hsts_maxAge h) else []) ++ bs "; includeSubDomains"
      else if negb (hsts_maxAge h =? 0) then [] ++ bs "; max-age=" ++ to_string (hsts_maxAge h) else []) =
    concat (map (fun w => bs "; " ++ w) (hsts_parts h))) as ->.
  { unfold hsts_parts. destruct (negb _), (isSubdomainIncluded h), (isPreloadEnabled h); cbn [opt map concat app];
      rewrite ?app_nil_r, <- ?app_assoc; reflexivity. }
  destruct (hsts_parts h) as [|p l] eqn:E; [done|]. rewrite join_behind by done. rewrite zlen_app.
  change (zlen (bs "; ")) with 2. rewrite zdrop_app_ge, zdrop_le0 by done.
  assert (join_with (bs "; ") (p :: l) <> []) as Hne.
  { apply join_nonempty; [done|]. rewrite <- E. eapply Forall_impl; [by apply hsts_parts_words|]. by intros w [? _]. }
  destruct (join_with (bs "; ") (p :: l)) as [|c t]; [done|]. rewrite zlen_cons. pose proof (zlen_nonneg t).
  by replace (2 + (1 + zlen t) >? 2) with true by lia.
Qed.

Lemma hsts_words l : Forall (word_ok (bs "; ")) l -> l <> [] -> split_on (bs "; ") (join_with (bs "; ") l) = l.
Proof.
  intros Hl Hne. unfold split_on. change (fun x => existsb (Z.eqb x) (bs "; ")) with (is_sep (bs "; ")).
  by rewrite split_join_with.
Qed.

(** What is read from a Strict-Transport-Security header that was written: never
    its max-age. *)
Lemma hsts_read h :
  hsts_ok h ->
  hsts_fromString (hsts_toString h) =
    if hsts_activated h && (negb (hsts_maxAge h =? 0) || isSubdomainIncluded h || isPreloadEnabled h)
    then mkHSTS true (isPreloadEnabled h) (isSubdomainIncluded h) 0 else hsts_new.
Proof.
  intros Hok. rewrite hsts_text by done. destruct (hsts_activated h); [|done]. pose proof (hsts_parts_words h Hok) as Hw.
  unfold hsts_fromString. destruct (hsts_parts h) as [|p l] eqn:E.
  - unfold hsts_parts in E. apply app_nil in E as [E1 E]. apply app_nil in E as [E2 E3].
    destruct (negb _); [done|]. destruct (isSubdomainIncluded h); [done|]. by destruct (isPreloadEnabled h).
  - rewrite hsts_words by done. rewrite <- E in *.
    assert (join_with (bs "; ") (hsts_parts h) <> []) as Hne.
    { apply join_nonempty; [by rewrite E|]. eapply Forall_impl; [exact Hw|]. by intros w [? _]. }
    destruct (join_with _ _); [done|]. clear Hne. unfold hsts_parts in *. rewrite !foldl_app.
    assert (forall x, foldl hsts_part x (opt (negb (hsts_maxAge h =? 0)) (bs "max-age=" ++ to_string (hsts_maxAge h))) =
      if hsts_maxAge h =? 0 then x else mkHSTS (hsts_activated x) (isPreloadEnabled x) (isSubdomainIncluded x) 0) as ->.
    { intros x. destruct (hsts_maxAge h =? 0); [done|]. cbn [negb opt foldl]. unfold hsts_part, iequals.
      rewrite !bool_decide_eq_false_2 by discriminate.
      assert (istarts_with (bs "max-age=" ++ to_string (hsts_maxAge h)) (bs "max-age=") = true) as ->.
      { unfold istarts_with, to_upper_copy. rewrite map_app. apply starts_with_app. }
      by rewrite zdrop_le0. }
    destruct (hsts_maxAge h =? 0) eqn:Ea, (isSubdomainIncluded h) eqn:Es, (isPreloadEnabled h) eqn:Ep; try done.
Qed.

(** The frame options: the address of ALLOW-FROM comes back if it is one word; a
    header that is not sent is read as DENY. *)
Lemma xframe_read x :
  (xf_value x = XF_ALLOWFROM -> word_ok (bs " ") (xf_allowFromURL x)) ->
  xframe_fromString (xframe_toString x) =
    match xf_value x with
    | XF_NONE => (xframe_new, false)
    | XF_ALLOWFROM => (x, true)
    | v => (mkXFrame [] v, true)
    end.
Proof.
  intros Hw. unfold xframe_toString. destruct (xf_value x) eqn:Ev; try done. specialize (Hw eq_refl).
  unfold xframe_fromString, split_on. change (fun c => existsb (Z.eqb c) (bs " ")) with (is_sep (bs " ")).
  change (bs "ALLOW-FROM " ++ xf_allowFromURL x) with (bs "ALLOW-FROM" ++ 32 :: xf_allowFromURL x).
  rewrite split_first, split_last by done. cbn match. by destruct x; cbn in *; subst.
Qed.

(** The protection against cross-site scripting: a bare 1 is read as blocking. *)
Lemma xss_read x :
  (reportURL x <> [] -> word_ok (bs "; ") (bs "report=" ++ reportURL x)) ->
  xss_fromString (xss_toString x) =
    if negb (xss_activated x) then mkXSS false true []
    else if negb (enableBlockingMode x) && bool_decide (reportURL x = []) then xss_new
    else x.
Proof.
  intros Hw. destruct x as [a b u]. unfold xss_toString. cbn [xss_activated enableBlockingMode reportURL] in *.
  destruct a; [|done]. cbn [negb]. destruct (decide (u = [])) as [->|Hu]; [by destruct b|]. specialize (Hw Hu).
  rewrite (bool_decide_eq_true_2 (u <> [])), (bool_decide_eq_false_2 (u = [])), andb_false_r by done.
  assert (forall x, xss_part x (bs "report=" ++ u) = mkXSS (xss_activated x) (enableBlockingMode x) u) as Hr.
  { intros x. unfold xss_part, iequals. rewrite bool_decide_eq_false_2 by discriminate.
    assert (istarts_with (bs "report=" ++ u) (bs "report=") = true) as ->.
    { unfold istarts_with, to_upper_copy. rewrite map_app. apply starts_with_app. }
    by rewrite zdrop_app_ge, zdrop_le0 by done. }
  unfold xss_fromString. destruct b.
  - change ((bs "1" ++ bs "; mode=block") ++ bs "; report=" ++ u)
      with (join_with (bs "; ") [bs "1"; bs "mode=block"; bs "report=" ++ u]).
    rewrite hsts_words by (by repeat constructor || apply Hw). cbn match. rewrite bool_decide_eq_true_2 by done.
    cbn [foldl]. by rewrite Hr.
  - change (bs "1" ++ bs "; report=" ++ u) with (join_with (bs "; ") [bs "1"; bs "report=" ++ u]).
    rewrite hsts_words by (by repeat constructor || apply Hw). cbn match. rewrite bool_decide_eq_true_2 by done.
    cbn [foldl]. by rewrite Hr.
Qed.

(** The security headers as they are read back: Strict-Transport-Security
    loses its max-age; X-Frame-Options comes back, with the address of
    ALLOW-FROM, but a header that is left out is read as DENY; X-XSS-Protection
    comes back, but a bare 1 is read as the blocking mode. *)
Theorem security_headers_read_back (h : HSTS) (f : XFrameOptions) (x : XSSProtection) :
  hsts_ok h -> (xf_value f = XF_ALLOWFROM -> word_ok (bs " ") (xf_allowFromURL f)) ->
  (reportURL x <> [] -> word_ok (bs "; ") (bs "report=" ++ reportURL x)) ->
  hsts_fromString (hsts_toString h) =
    (if hsts_activated h && (negb (hsts_maxAge h =? 0) || isSubdomainIncluded h || isPreloadEnabled h)
     then mkHSTS true (isPreloadEnabled h) (isSubdomainIncluded h) 0 else hsts_new) /\
  xframe_fromString (xframe_toString f) =
    match xf_value f with
    | XF_NONE => (xframe_new, false)
    | XF_ALLOWFROM => (f, true)
    | v => (mkXFrame [] v, true)
    end /\
  xss_fromString (xss_toString x) =
    if negb (xss_activated x) then mkXSS false true []
    else if negb (enableBlockingMode x) && bool_decide (reportURL x = []) then xss_new
    else x.
Proof. intros Hh Hf Hx. split; [by apply hsts_read|]. split; [by apply xframe_read|by apply xss_read]. Qed.

(** ** Cookies *)
Section CookieTheory.
Context `{DateFormat}.

(** A text that can be the value of a parameter. *)
Definition param_ok (v : bytes) : Prop := trim v = v /\ (59 ∉ v) /\ 0 ∉ v.

Definition date_ok (d : Z) : Prop := param_ok (strftime_http d) /\ strptime_http (strftime_http d) = Some d.

Record cookie_ok (name : bytes) (c : Cookie) : Prop := {
  co_name : param_ok name /\ (61 ∉ name);
  co_value : param_ok (ck_value c);
  co_expires : match ck_expires c with Some d => date_ok d | None => True end;
  co_maxAge : match ck_maxAge c with Some a => 0 <= a < 4294967296 | None => True end;
  co_domain : param_ok (ck_domain c);
  co_path : param_ok (ck_path c) }.

Lemma getvar_eq k v : 61 ∉ k -> 0 ∉ v -> getVarNameAndValue (k ++ 61 :: v) = (trim k, trim v).
Proof.
  intros Hk Hv. unfold getVarNameAndValue. rewrite find_char_split by done.
  rewrite ztake_app_le, ztake_ge, zdrop_app_ge by lia. replace (zlen k + 1 - zlen k) with 1 by lia.
  rewrite zdrop_cons, zdrop_le0 by lia. by rewrite c_str_nul_free.
Qed.

Definition ck_parts (name : bytes) (c : Cookie) : list bytes :=
  match ck_expires c with Some d => [bs "Expires=" ++ strftime_http d] | None => [] end ++
  match ck_maxAge c with Some a => [bs "Max-Age=" ++ to_string a] | None => [] end ++
  opt (ck_secure c) (bs "Secure") ++ opt (ck_httpOnly c) (bs "HttpOnly") ++
  opt (bool_decide (ck_domain c <> [])) (bs "Domain=" ++ ck_domain c) ++
  opt (bool_decide (ck_path c <> [])) (bs "Path=" ++ ck_path c) ++
  [match sameSitePolicy c with SS_NONE => bs "SameSite=None" | SS_STRICT => bs "SameSite=Strict" | SS_LAX => bs "SameSite=Lax" end].

Lemma cookie_text_parts name c :
  cookie_text name c = map (fun p => p ++ bs "; ") ((name ++ 61 :: ck_value c) :: ck_parts name c).
Proof.
  unfold cookie_text, ck_parts. cbn [map]. rewrite !map_app. change ([?x] ++ ?y) with (x :: y). f_equal.
  { change (bs "=") with [61]. by rewrite <- app_assoc. }
  f_equal; [destruct (ck_expires c); [|done]; cbn [map]; unfold date_toString; by rewrite app_assoc|].
  f_equal; [destruct (ck_maxAge c); [|done]; cbn [map]; by rewrite app_assoc|].
  f_equal; [by destruct (ck_secure c)|]. f_equal; [by destruct (ck_httpOnly c)|].
  f_equal; [destruct (bool_decide (ck_domain c <> [])); [|done]; cbn [map opt]; by rewrite app_assoc|].
  f_equal; [destruct (bool_decide (ck_path c <> [])); [|done]; cbn [map opt]; by rewrite app_assoc|].
  by destruct (sameSitePolicy c).
Qed.

Lemma not_in_word p : p <> [] -> 59 ∉ p -> word_ok (bs ";") p.
Proof.
  intros Hne Hp. split; [done|]. apply forallb_forall. intros x Hx. apply list_elem_of_In in Hx.
  unfold is_sep. change (bs ";") with [59]. cbn [existsb]. rewrite orb_false_r. apply negb_true_iff, Z.eqb_neq. by intros ->.
Qed.

Lemma split_params skipping p ps :
  Forall (word_ok (bs ";")) (p :: ps) ->
  split_compress (is_sep (bs ";")) skipping [] (concat (map (fun q => q ++ bs "; ") (p :: ps))) =
  p :: map (cons 32) ps ++ [[32]].
Proof.
  revert p skipping. induction ps as [|q ps IH]; intros p skipping [Hp Hps]%Forall_cons.
  - cbn [map concat]. rewrite app_nil_r. change (bs "; ") with (59 :: [32]). by rewrite split_first.
  - assert (concat (map (fun r => r ++ bs "; ") (p :: q :: ps)) =
      p ++ 59 :: concat (map (fun r => r ++ bs "; ") ((32 :: q) :: ps))) as ->.
    { cbn [map concat]. rewrite <- !app_assoc. by change (bs "; ") with (59 :: [32]). }
    rewrite split_first by done. f_equal. rewrite IH; [done|].
    apply Forall_cons in Hps as [Hq Hps]. constructor; [|done].
    apply (word_ok_app (bs ";") [32] q); [by split|apply Hq].
Qed.

Lemma param_value k v :
  61 ∉ k -> param_ok v -> getVarNameAndValue (32 :: k ++ 61 :: v) = (trim (32 :: k), v).
Proof.
  intros Hk (Ht & _ & H0). change (32 :: k ++ 61 :: v) with ((32 :: k) ++ 61 :: v).
  rewrite getvar_eq; [by rewrite Ht| |done].
  apply not_elem_of_cons. by split.
Qed.

Lemma key_no_equals k : forallb (fun x => negb (x =? 61)) k = true -> 61 ∉ k.
Proof.
  intros Hk Hin. rewrite forallb_forall in Hk. apply list_elem_of_In in Hin. by apply Hk in Hin.
Qed.

Lemma digits_param n : 0 <= n -> param_ok (to_string n).
Proof.
  intros Hn. assert (Forall (fun c => 48 <= c <= 57) (to_string n)) as Hd.
  { unfold to_string. eapply Forall_impl; [by apply print_base_chars; lia|]. intros c (d & -> & Hd). unfold digit_char.
    replace (d <? 10) with true by lia. lia. }
  assert (forall l, Forall (fun c => 48 <= c <= 57) l -> trim_left l = l) as Ht.
  { intros l Hl. destruct Hl as [|c l Hc _]; [done|]. cbn [trim_left]. unfold isspace.
    by replace (((9 <=? c) && (c <=? 13)) || (c =? 32)) with false by lia. }
  split; [|rewrite Forall_forall in Hd; split; intros Hin; apply Hd in Hin; lia].
  unfold trim. rewrite (Ht (to_string n)) by done. rewrite Ht by (by apply Forall_reverse). by rewrite reverse_involutive.
Qed.

(** The parameters, one by one. *)
Lemma read_expires x d : date_ok d -> cookie_param x (32 :: bs "Expires=" ++ strftime_http d) = ck_set_expires (Some d) x.
Proof.
  intros [Hp Hd]. unfold cookie_param. change (bs "Expires=" ++ ?v) with (bs "Expires" ++ 61 :: v).
  rewrite param_value by (done || by apply key_no_equals). cbn [fst snd]. unfold date_fromString. by rewrite Hd.
Qed.

Lemma read_maxage x a : 0 <= a < 4294967296 -> cookie_param x (32 :: bs "Max-Age=" ++ to_string a) = ck_set_maxAge (Some a) x.
Proof.
  intros Ha. unfold cookie_param. change (bs "Max-Age=" ++ ?v) with (bs "Max-Age" ++ 61 :: v).
  rewrite param_value; [|by apply key_no_equals|apply digits_param; lia]. cbn [fst snd]. by rewrite strtoul_u32.
Qed.

Lemma read_domain x v : param_ok v -> cookie_param x (32 :: bs "Domain=" ++ v) = ck_set_domain v x.
Proof.
  intros Hv. unfold cookie_param. change (bs "Domain=" ++ v) with (bs "Domain" ++ 61 :: v).
  by rewrite param_value by (done || by apply key_no_equals).
Qed.

Lemma read_path x v : param_ok v -> cookie_param x (32 :: bs "Path=" ++ v) = ck_set_path v x.
Proof.
  intros Hv. unfold cookie_param. change (bs "Path=" ++ v) with (bs "Path" ++ 61 :: v).
  by rewrite param_value by (done || by apply key_no_equals).
Qed.

Lemma ck_parts_words name c : cookie_ok name c -> Forall (word_ok (bs ";")) (ck_parts name c).
Proof.
  intros [Hn Hv He Ha Hd Hp]. unfold ck_parts.
  assert (forall k v, word_ok (bs ";") k -> 59 ∉ v -> word_ok (bs ";") (k ++ v)) as Hw.
  { intros k v Hk Hv'. destruct v as [|x v]; [by rewrite app_nil_r|]. apply word_ok_app; [done|]. by apply not_in_word. }
  repeat (apply Forall_app; split).
  - destruct (ck_expires c) as [d|]; repeat constructor; apply Hw; [by split|apply He|by split|apply He].
  - destruct (ck_maxAge c) as [a|]; repeat constructor; apply Hw; try (by split); apply digits_param; lia.
  - by destruct (ck_secure c); repeat constructor.
  - by destruct (ck_httpOnly c); repeat constructor.
  - apply opt_words, Hw; [by split|apply Hd].
  - apply opt_words, Hw; [by split|apply Hp].
  - destruct (sameSitePolicy c); repeat constructor; done.
Qed.

Lemma fold_parts name c x :
  cookie_ok name c ->
  foldl cookie_param x (map (cons 32) (ck_parts name c) ++ [[32]]) =
  mkCookie (ck_value x) (match ck_expires c with Some d => Some d | None => ck_expires x end)
    (match ck_maxAge c with Some a => Some a | None => ck_maxAge x end)
    (if bool_decide (ck_domain c <> []) then ck_domain c else ck_domain x)
    (if bool_decide (ck_path c <> []) then ck_path c else ck_path x)
    (ck_secure c || ck_secure x) (ck_httpOnly c || ck_httpOnly x) (sameSitePolicy c).
Proof.
  intros [Hn Hv He Ha Hd Hp]. unfold ck_parts. rewrite !map_app, !foldl_app.
  assert (forall x, foldl cookie_param x (map (cons 32)
    (match ck_expires c with Some d => [bs "Expires=" ++ strftime_http d] | None => [] end)) =
    ck_set_expires (match ck_expires c with Some d => Some d | None => ck_expires x end) x) as ->.
  { intros y. destruct (ck_expires c) as [d|]; cbn [map foldl]; [by rewrite read_expires|by destruct y]. }
  assert (forall x, foldl cookie_param x (map (cons 32)
    (match ck_maxAge c with Some a => [bs "Max-Age=" ++ to_string a] | None => [] end)) =
    ck_set_maxAge (match ck_maxAge c with Some a => Some a | None => ck_maxAge x end) x) as ->.
  { intros y. destruct (ck_maxAge c) as [a|]; cbn [map foldl]; [by rewrite read_maxage|by destruct y]. }
  assert (forall x, foldl cookie_param x (map (cons 32) (opt (ck_secure c) (bs "Secure"))) =
    ck_set_secure (ck_secure c || ck_secure x) x) as -> by (intros []; by destruct (ck_secure c)).
  assert (forall x, foldl cookie_param x (map (cons 32) (opt (ck_httpOnly c) (bs "HttpOnly"))) =
    ck_set_httpOnly (ck_httpOnly c || ck_httpOnly x) x) as -> by (intros []; by destruct (ck_httpOnly c)).
  assert (forall x, foldl cookie_param x (map (cons 32) (opt (bool_decide (ck_domain c <> [])) (bs "Domain=" ++ ck_domain c))) =
    ck_set_domain (if bool_decide (ck_domain c <> []) then ck_domain c else ck_domain x) x) as ->.
  { intros y. case_bool_decide; cbn [opt map foldl]; [by rewrite read_domain|by destruct y]. }
  assert (forall x, foldl cookie_param x (map (cons 32) (opt (bool_decide (ck_path c <> [])) (bs "Path=" ++ ck_path c))) =
    ck_set_path (if bool_decide (ck_path c <> []) then ck_path c else ck_path x) x) as ->.
  { intros y. case_bool_decide; cbn [opt map foldl]; [by rewrite read_path|by destruct y]. }
  by destruct (sameSitePolicy c), x.
Qed.

(** A cookie is read back from its Set-Cookie text with its name, value,
    times, domain, path and policy; but it is always read as secure and as
    hidden from scripts, since the reader starts from a cookie that is both. *)
Theorem cookie_roundtrip (name other : bytes) (c : Cookie) :
  cookie_ok name c ->
  fromSetCookieString (toSetCookieString name c) other = (name, ck_set_secure true (ck_set_httpOnly true c)).
Proof.
  intros Hok. pose proof Hok as [[Hn Heq] Hv _ _ _ _]. unfold fromSetCookieString, toSetCookieString, split_on.
  change (fun x => existsb (Z.eqb x) (bs ";")) with (is_sep (bs ";")). rewrite cookie_text_parts, split_params.
  - rewrite getvar_eq by (done || apply Hv). destruct Hn as [-> _]. pose proof Hv as [-> _]. cbn [fst snd].
    rewrite (fold_parts name) by done. unfold ck_set_secure, ck_set_httpOnly. cbn. rewrite !orb_true_r.
    destruct c as [v e a d p s h ss]; cbn. f_equal.
    f_equal; try (by destruct e); try (by destruct a); case_bool_decide as E; try done; by apply dec_stable in E.
  - constructor; [|by apply ck_parts_words]. apply not_in_word; [by destruct name|].
    intros [Hin|[Hin|Hin]%elem_of_cons]%elem_of_app; [by apply Hn in Hin|done|by apply Hv in Hin].
Qed.
End CookieTheory.

(** ** The cookies of a request *)

Lemma om_set_last {V} k (v : V) m : Forall (fun e => bytes_lt e.1 k = true) m -> om_set k v m = m ++ [(k, v)].
Proof.
  induction 1 as [|e m He _ IH]; cbn [om_set app]; [done|].
  destruct (bytes_lt k e.1) eqn:E.
  { exfalso. clear IH. revert He E. generalize (e.1). intros b. revert b.
    induction k as [|x k IH]; intros [|y b]; cbn; try done.
    intros [?|[? ?]%andb_true_iff]%orb_true_iff [?|[? ?]%andb_true_iff]%orb_true_iff; try lia. by eapply IH. }
  rewrite bool_decide_eq_false_2, IH; [done|]. intros ->. by rewrite bytes_lt_irrefl in He.
Qed.

Definition client_cookie_ok (i : bytes * bytes) : Prop := param_ok i.1 /\ (61 ∉ i.1) /\ param_ok i.2.

(** The names of a map, in order. *)
Fixpoint keys_increase (cc : ClientCookies) : Prop :=
  match cc with
  | [] => True
  | i :: cc => Forall (fun j => bytes_lt i.1 j.1 = true) cc /\ keys_increase cc
  end.

Lemma keys_increase_snoc a i b :
  keys_increase (a ++ i :: b) -> Forall (fun e => bytes_lt e.1 i.1 = true) a.
Proof.
  induction a as [|e a IH]; [constructor|]. cbn [app keys_increase]. intros [Hf Ha]. constructor; [|by apply IH].
  apply Forall_app in Hf as [_ Hf]. by apply Forall_cons in Hf as [Hf _].
Qed.

Lemma parse_client_cookie i cc sp :
  client_cookie_ok i -> sp = [] \/ sp = [32] -> parseClientCookie (sp ++ i.1 ++ bs "=" ++ i.2) cc = om_set i.1 i.2 cc.
Proof.
  intros ((Ht & _) & Hn & (Ht2 & _ & H0)) Hsp. unfold parseClientCookie, addClientCookie.
  change (bs "=" ++ i.2) with (61 :: i.2). rewrite app_assoc, find_char_split.
  - rewrite ztake_app_le, ztake_ge, zdrop_app_ge by lia. replace (zlen (sp ++ i.1) + 1 - zlen (sp ++ i.1)) with 1 by lia.
    rewrite zdrop_cons, zdrop_le0, c_str_nul_free, Ht2 by (done || lia).
    assert (trim (sp ++ i.1) = trim i.1) as -> by by destruct Hsp as [->| ->]. by rewrite Ht.
  - intros [Hin|Hin]%elem_of_app; [|done]. destruct Hsp as [->| ->]; [by apply not_elem_of_nil in Hin|].
    apply elem_of_cons in Hin as [?|Hin]; [lia|by apply not_elem_of_nil in Hin].
Qed.

Lemma read_client_cookies a b sp :
  keys_increase (a ++ b) -> Forall client_cookie_ok b -> sp = [] \/ sp = [32] ->
  b <> [] ->
  foldl (fun cc c => parseClientCookie c cc) a
    (split_compress (is_sep (bs ";")) false [] (sp ++ clientcookies_toString b)) = a ++ b.
Proof.
  intros Hk Hok Hsp Hne. revert a sp Hk Hsp Hne. induction Hok as [|i b Hi Hok IH]; intros a sp Hk Hsp Hne; [done|].
  assert (word_ok (bs ";") (sp ++ i.1 ++ bs "=" ++ i.2)) as Hw.
  { apply not_in_word; [destruct Hsp as [->| ->]; [by destruct i.1|done]|].
    destruct Hi as ((_ & H1 & _) & _ & (_ & H2 & _)). change (bs "=" ++ i.2) with (61 :: i.2).
    intros [Hin|[Hin|[?|Hin]%elem_of_cons]%elem_of_app]%elem_of_app; [|done|lia|done].
    destruct Hsp as [->| ->]; [by apply not_elem_of_nil in Hin|].
    apply elem_of_cons in Hin as [?|Hin]; [lia|by apply not_elem_of_nil in Hin]. }
  pose proof (keys_increase_snoc a i b Hk) as Ha. destruct b as [|j b].
  - unfold clientcookies_toString. cbn [map join_with]. rewrite split_last by done. cbn [foldl].
    rewrite parse_client_cookie, om_set_last by done. by destruct i.
  - assert (sp ++ clientcookies_toString (i :: j :: b) =
      (sp ++ i.1 ++ bs "=" ++ i.2) ++ 59 :: ([32] ++ clientcookies_toString (j :: b))) as ->.
    { unfold clientcookies_toString. cbn [map join_with]. change (bs "; ") with [59; 32]. by rewrite <- !app_assoc. }
    rewrite split_first by done. cbn [foldl]. rewrite parse_client_cookie, om_set_last by done.
    change (split_compress (is_sep (bs ";")) true [] ([32] ++ ?t)) with (split_compress (is_sep (bs ";")) false [] ([32] ++ t)).
    rewrite IH; [by rewrite <- app_assoc; destruct i| |by right|done]. by rewrite <- app_assoc; destruct i.
Qed.

(** The cookies a client sends are read back as the same map. *)
Theorem clientcookies_roundtrip (cc : ClientCookies) :
  keys_increase cc -> Forall client_cookie_ok cc ->
  clientcookies_parseFromHeaders (clientcookies_toString cc) [] = cc.
Proof.
  intros Hk Hok. destruct cc as [|i cc]; [done|]. unfold clientcookies_parseFromHeaders, split_on.
  change (fun x => existsb (Z.eqb x) (bs ";")) with (is_sep (bs ";")).
  exact (read_client_cookies [] (i :: cc) [] Hk Hok (or_introl eq_refl) ltac:(done)).
Qed.

(** ** The properties at concrete values *)
Section Witnesses.

Definition demo_cache : CacheControl := mkCacheControl false true true true false false false false 60 0.

Lemma cachecontrol_read_back_witness :
  cachecontrol_fromString (bs "must-revalidate,no-cache,private,max-age=60") = cc_noStore true (cc_mustRevalidate false demo_cache).
Proof. refine (cachecontrol_read_back demo_cache _). split; cbn; lia. Defined.

Lemma security_headers_read_back_witness :
  hsts_fromString (bs "max-age=600; preload") = mkHSTS true true false 0 /\
  xframe_fromString [] = (xframe_new, false) /\
  xss_fromString (bs "1; report=/log") = mkXSS true false (bs "/log").
Proof.
  refine (security_headers_read_back (mkHSTS true true false 600) (mkXFrame [] XF_NONE) (mkXSS true false (bs "/log")) _ _ _).
  - split; cbn; lia.
  - discriminate.
  - by split.
Defined.

Definition one_date : DateFormat := {|
  strftime_http d := to_string d;
  strptime_http s := match strtoul 10 s with (v, Some []) => Some v | _ => None end |}.
#[local] Existing Instance one_date.

Definition demo_cookie : Cookie := mkCookie (bs "a=1 b") (Some 1700000000) (Some 3600) (bs "a.org") [] false false SS_LAX.

Lemma cookie_roundtrip_witness :
  fromSetCookieString (toSetCookieString (bs "sid") demo_cookie) [] =
    (bs "sid", ck_set_secure true (ck_set_httpOnly true demo_cookie)).
Proof.
  refine (cookie_roundtrip (bs "sid") [] demo_cookie _).
  constructor; try (split; [reflexivity|split; apply (bool_decide_unpack _); vm_compute; exact I]).
  - split; [split; [reflexivity|split]|]; apply (bool_decide_unpack _); vm_compute; exact I.
  - split; [split; [reflexivity|split; apply (bool_decide_unpack _); vm_compute; exact I]|]. reflexivity.
  - split; [discriminate|reflexivity].
Defined.
End Witnesses.
