(* ===== verification/HttpResponse.v ===== *)
(** * Requests and responses of HTTP/1 (Protocol_HTTP/httpv1_base.h,
      httpv1_server_response.cpp, httpv1_server_headersparser.cpp,
      httpv1_server_htmltools.cpp, httpv1_server_mimetypes.cpp)

    The structures [Response] and [Request] of [HTTPv1_Base] apart from the
    sub-parsers of the request, and what the server computes on them without
    sending anything: the headers of a response, the host, the port and the
    credentials a request announces, the type of a file.

    The date and the OpenSSL functions are parameters. *)

From S2P Require Import Prelude SafeInt Mem Streamable Container ContainerTheory BMem BChunks ChunkBuffer BRef.
From S2P Require Import SubParser Parser CLib HttpContent MimeHeader HeaderTheory Encoders HttpLines HttpHeaders.
From Stdlib Require Import ZArith Lia.

(** ** The response *)
Record Security := mkSecurity {
  xFrameOptions : XFrameOptions;
  xSSProtection : XSSProtection;
  hSTS : HSTS;
  disableNoSniffContentType : bool }.

Definition security_new : Security := mkSecurity xframe_new xss_new hsts_new false.

Definition setNoSniff (v : bool) (s : Security) : Security :=
  mkSecurity (xFrameOptions s) (xSSProtection s) (hSTS s) v.

(** What the response and the server ask of the object that is sent or
    received: its size, when it is known, and the boundary of a MIME message. *)
Class HttpObjects (O : Type) := {
  object_size : O -> Z;
  set_boundary : bytes -> O -> O }.

Record Response (O : Type) := mkResponse {
  rs_status : Status;
  rs_content : Content O;
  rs_headers : MIME_Header;
  rs_security : Security;
  rs_cookies : ServerCookies;
  rs_cacheControl : CacheControl;
  sWWWAuthenticateRealm : bytes;
  rs_contentType : bytes;
  immutableHeaders : bool;
  includeDate : bool }.
Arguments mkResponse {_} _ _ _ _ _ _ _ _ _ _.
Arguments rs_status {_} _.
Arguments rs_content {_} _.
Arguments rs_headers {_} _.
Arguments rs_security {_} _.
Arguments rs_cookies {_} _.
Arguments rs_cacheControl {_} _.
Arguments sWWWAuthenticateRealm {_} _.
Arguments rs_contentType {_} _.
Arguments immutableHeaders {_} _.
Arguments includeDate {_} _.

Section Response.
Context `{RandomBytes} `{DateFormat} {O : Type} `{!ContentObjects O} `{!HttpObjects O}.
Implicit Types r : Response O.

Definition rs_set_status (v : Status) r : Response O :=
    mkResponse v (rs_content r) (rs_headers r) (rs_security r) (rs_cookies r) (rs_cacheControl r)
    (sWWWAuthenticateRealm r) (rs_contentType r) (immutableHeaders r) (includeDate r).
Definition rs_set_content (v : Content O) r : Response O :=
    mkResponse (rs_status r) v (rs_headers r) (rs_security r) (rs_cookies r) (rs_cacheControl r)
    (sWWWAuthenticateRealm r) (rs_contentType r) (immutableHeaders r) (includeDate r).
Definition rs_set_headers (v : MIME_Header) r : Response O :=
    mkResponse (rs_status r) (rs_content r) v (rs_security r) (rs_cookies r) (rs_cacheControl r)
    (sWWWAuthenticateRealm r) (rs_contentType r) (immutableHeaders r) (includeDate r).
Definition rs_set_security (v : Security) r : Response O :=
    mkResponse (rs_status r) (rs_content r) (rs_headers r) v (rs_cookies r) (rs_cacheControl r)
    (sWWWAuthenticateRealm r) (rs_contentType r) (immutableHeaders r) (includeDate r).
Definition rs_set_cookies (v : ServerCookies) r : Response O :=
    mkResponse (rs_status r) (rs_content r) (rs_headers r) (rs_security r) v (rs_cacheControl r)
    (sWWWAuthenticateRealm r) (rs_contentType r) (immutableHeaders r) (includeDate r).
Definition rs_set_cache (v : CacheControl) r : Response O :=
    mkResponse (rs_status r) (rs_content r) (rs_headers r) (rs_security r) (rs_cookies r) v
    (sWWWAuthenticateRealm r) (rs_contentType r) (immutableHeaders r) (includeDate r).
Definition rs_set_type (v : bytes) r : Response O :=
    mkResponse (rs_status r) (rs_content r) (rs_headers r) (rs_security r) (rs_cookies r) (rs_cacheControl r)
    (sWWWAuthenticateRealm r) v (immutableHeaders r) (includeDate r).
Definition rs_set_immutable (v : bool) r : Response O :=
    mkResponse (rs_status r) (rs_content r) (rs_headers r) (rs_security r) (rs_cookies r) (rs_cacheControl r)
    (sWWWAuthenticateRealm r) (rs_contentType r) v (includeDate r).

Definition content_default : Content O := content_init (make_object BIN).
Definition response_new : Response O :=
  mkResponse (mkStatus version_new S_999_NOT_SET []) content_default header_init security_new [] cachecontrol_new
    [] [] false true.

Definition set_code (code : Z) r : Response O := rs_set_status (setCode code (rs_status r)) r.

(** The cache policy of dynamic answers: the constructor of the server and
    [setDataStreamer(nullptr)] set the same three options. *)
Definition conservative_cache (c : CacheControl) : CacheControl :=
  cc_mustRevalidate true (cc_noStore true (cc_noCache true c)).

Definition setServerName (sServerName : bytes) r : outcome (Response O) :=
  h ← header_replace (bs "Server") sServerName (rs_headers r); Ret (rs_set_headers h r).
Definition setContentType (contentType : bytes) (bNoSniff : bool) r : Response O :=
  rs_set_security (setNoSniff bNoSniff (rs_security r)) (rs_set_type contentType r).
Definition setDataStreamer (dataStream : option O) r : Response O :=
  let r :=
    match dataStream with
    | Some _ => r
    | None =>
        let r := rs_set_headers (header_remove (bs "Last-Modified") (rs_headers r)) r in
        setContentType [] false (rs_set_cache (conservative_cache cachecontrol_new) r)
    end in
  rs_set_content (setStreamableObj dataStream (rs_content r)) r.

Definition setCookie (sCookieName : bytes) (sCookieValue : Cookie) r : Response O :=
  rs_set_cookies (addServerCookie sCookieName sCookieValue (removeCookie sCookieName (rs_cookies r)).1).1 r.
Definition setSecureCookie (now : Z) (cookieName cookieValue : bytes) (uMaxAge : Z) (path : bytes) r : Response O :=
  let val := setExpirationFromNow now uMaxAge cookie_new in
  let val := ck_set_value cookieValue (ck_set_path path val) in
  let val := ck_set_maxAge (Some uMaxAge) (ck_set_httpOnly true (ck_set_secure true val)) in
  setCookie cookieName (ck_set_sameSite SS_STRICT val) r.
Definition setInsecureCookie (sCookieName sCookieValue : bytes) r : Response O :=
  setCookie sCookieName (ck_set_value sCookieValue cookie_new) r.
Definition addCookieClearSecure (cookieName path : bytes) r : Response O :=
  rs_set_cookies (addClearSecureCookie cookieName path (rs_cookies r)) r.

Definition S_307_TEMPORARY_REDIRECT : Z := 307.
Definition S_308_PERMANENT_REDIRECT : Z := 308.
Definition setRedirectLocation (location : bytes) (temporary : bool) r : outcome (Response O * Z) :=
  h ← header_replace (bs "Location") location (rs_headers r);
  let r := setDataStreamer None (rs_set_headers h r) in
  Ret (r, if temporary then S_307_TEMPORARY_REDIRECT else S_308_PERMANENT_REDIRECT).

(** *** The headers of a response

    [replace_if]: [headers.replace(name, value)] under a condition. *)
Definition replace_if (cond : bool) (name value : bytes) (h : MIME_Header) : outcome MIME_Header :=
  if cond then header_replace name value h else Ret h.

Definition is_chunks (m : TransmissionMode) : bool := match m with TM_CHUNKS => true | _ => false end.

(** The size, as far as it is known, and the date: the headers that are set even
    when the others may not change. *)
Definition framing_headers (now : Z) r : outcome MIME_Header :=
  let h := rs_headers r in
  let strsize := object_size (m_contentStreamableObject (rs_content r)) in
  h ← (if strsize =? SIZE_MAX then
         h ← header_replace (bs "Connection") (bs "close") h;
         let h := header_remove (bs "Content-Length") h in
         replace_if (is_chunks (m_transmitionMode (rs_content r))) (bs "Transfer-Encoding") (bs "Chunked") h
       else header_replace (bs "Content-Length") (to_string strsize) h : outcome MIME_Header);
  replace_if (includeDate r) (bs "Date") (date_toString now) h.

(** The headers of the other members. *)
Definition option_headers r (h : MIME_Header) : outcome MIME_Header :=
  h ← replace_if (bool_decide (sWWWAuthenticateRealm r <> [])) (bs "WWW-Authenticate")
        (bs "Basic realm=" ++ [34] ++ sWWWAuthenticateRealm r ++ [34]) h;
  h ← servercookies_putOnHeaders (rs_cookies r) (header_remove (bs "Set-Cookie") h);
  h ← header_replace (bs "X-XSS-Protection") (xss_toString (xSSProtection (rs_security r))) h;
  let cacheOptions := cachecontrol_toString (rs_cacheControl r) in
  h ← replace_if (bool_decide (cacheOptions <> [])) (bs "Cache-Control") cacheOptions h;
  h ← replace_if (negb (isNotActivated (xFrameOptions (rs_security r)))) (bs "X-Frame-Options")
        (xframe_toString (xFrameOptions (rs_security r))) h;
  h ← replace_if (hsts_activated (hSTS (rs_security r))) (bs "Strict-Transport-Security")
        (hsts_toString (hSTS (rs_security r))) h;
  let typed := bool_decide (rs_contentType r <> []) in
  h ← replace_if typed (bs "Content-Type") (rs_contentType r) h;
  replace_if (typed && disableNoSniffContentType (rs_security r)) (bs "X-Content-Type-Options") (bs "nosniff") h.

(** The headers [sendHTTPHeadersResponse] sends. *)
Definition response_headers (now : Z) r : outcome MIME_Header :=
  h ← framing_headers now r;
  if immutableHeaders r then Ret h else option_headers r h.
End Response.

(** ** The request, apart from its sub-parsers *)
Record BasicAuth := mkBasicAuth { ba_username : bytes; ba_password : bytes; ba_isEnabled : bool }.

Definition basicauth_new : BasicAuth := mkBasicAuth [] [] false.
Definition setAuthentication (username password : bytes) : BasicAuth := mkBasicAuth username password true.

(** [REMOTE_ADDR] is an array of 46 characters, given without the zeros at its end. *)
Record NetworkClientInfo := mkClientInfo { rEMOTE_ADDR : bytes; isSecure : bool; tlsCommonName : bytes }.

Definition INET6_ADDRSTRLEN : Z := 46.
Definition clientinfo_new : NetworkClientInfo := mkClientInfo [] false [].
Definition setClientInformation (ipAddress : bytes) (secure : bool) (cn : bytes) : NetworkClientInfo :=
  mkClientInfo (ztake INET6_ADDRSTRLEN (c_str ipAddress)) secure cn.

(** [REMOTE_ADDR] as a string: [strncpy] leaves no zero after 46 characters. *)
Definition remote_address (i : NetworkClientInfo) : outcome bytes :=
  if zlen (rEMOTE_ADDR i) >=? INET6_ADDRSTRLEN then Undef else Ret (rEMOTE_ADDR i).

Record RequestInfo := mkRequestInfo {
  basicAuth : BasicAuth;
  userAgent : bytes;
  virtualHost : bytes;
  virtualPort : Z;
  networkClientInfo : NetworkClientInfo }.

Definition requestinfo_new : RequestInfo := mkRequestInfo basicauth_new [] [] 80 clientinfo_new.

Definition ri_set_auth (v : BasicAuth) (i : RequestInfo) : RequestInfo :=
    mkRequestInfo v (userAgent i) (virtualHost i) (virtualPort i) (networkClientInfo i).
Definition ri_set_agent (v : bytes) (i : RequestInfo) : RequestInfo :=
    mkRequestInfo (basicAuth i) v (virtualHost i) (virtualPort i) (networkClientInfo i).
Definition ri_set_host (v : bytes) (i : RequestInfo) : RequestInfo :=
    mkRequestInfo (basicAuth i) (userAgent i) v (virtualPort i) (networkClientInfo i).
Definition ri_set_port (v : Z) (i : RequestInfo) : RequestInfo :=
    mkRequestInfo (basicAuth i) (userAgent i) (virtualHost i) v (networkClientInfo i).
Definition ri_set_client (v : NetworkClientInfo) (i : RequestInfo) : RequestInfo :=
    mkRequestInfo (basicAuth i) (userAgent i) (virtualHost i) (virtualPort i) v.

Definition parsePort (portStr : bytes) (i : RequestInfo) : RequestInfo :=
  let '(v, endptr) := strtoul 10 portStr in
  let port := wrapw 16 v in
  let at_end := match endptr with Some rest => rest | None => c_str portStr end in
  if bool_decide (at_end = []) && (port <=? 65535) then ri_set_port port i else ri_set_port 80 i.

(** The first [find(c)] of a text cuts it in two. *)
Definition split_at (c : Z) (s : bytes) : option (bytes * bytes) :=
  match find_char c s with
  | Some pos => Some (ztake pos s, zdrop (pos + 1) s)
  | None => None
  end.

Definition parseHostHeader (hostValue : bytes) (i : RequestInfo) : RequestInfo :=
  match hostValue with
  | [] => i
  | _ =>
      let i := ri_set_port 80 i in
      match split_at 58 hostValue with
      | None => ri_set_host hostValue i
      | Some (host, port) => parsePort port (ri_set_host host i)
      end
  end.

Definition BASIC_PREFIX : bytes := bs "Basic ".
Definition parseBasicAuth `{Base64BIO} (authHeader : bytes) (i : RequestInfo) : RequestInfo * bool :=
  if negb (starts_with authHeader BASIC_PREFIX) then (i, false)
  else
    match split_at 58 (decodeFromBase64 (zdrop (zlen BASIC_PREFIX) authHeader) false) with
    | None => (i, false)
    | Some (username, password) => (ri_set_auth (mkBasicAuth username password true) i, true)
    end.

(** *** A word of [istringstream >> word], and what follows it. *)
Fixpoint take_word (s : bytes) : bytes * bytes :=
  match s with
  | [] => ([], [])
  | c :: s' => if isspace c then ([], s) else let '(w, r) := take_word s' in (c :: w, r)
  end.
Definition next_word (s : bytes) : bytes * bytes := take_word (trim_left s).

Definition getAuthorizationBearer (authorization : bytes) : bytes :=
  match authorization with
  | [] => []
  | _ =>
      let '(keyword, rest) := next_word authorization in
      let '(headerBearerToken, _) := next_word rest in
      if bool_decide (keyword = bs "Bearer") && bool_decide (headerBearerToken <> []) then headerBearerToken else []
  end.

(** ** Text for pages *)
Definition html_char (i : byte) : bytes :=
  if i =? 60 then bs "&lt;"
  else if i =? 62 then bs "&gt;"
  else if i =? 34 then bs "&quot;"
  else if i =? 38 then bs "&amp;"
  else if i =? 39 then bs "&apos;"
  else [i].

Fixpoint htmlEncode (rawStr : bytes) : bytes :=
  match rawStr with
  | [] => []
  | i :: rawStr => html_char i ++ htmlEncode rawStr
  end.

(** ** The types of files *)
Definition default_mime_types : list (bytes * bytes) :=
  [(bs ".aac", bs "audio/aac"); (bs ".abw", bs "application/x-abiword"); (bs ".arc", bs
   "application/x-freearc"); (bs ".avi", bs "video/x-msvideo"); (bs ".azw", bs "application/vnd.amazon.ebook");
   (bs ".bin", bs "application/octet-stream"); (bs ".bmp", bs "image/bmp"); (bs ".bz", bs "application/x-bzip");
   (bs ".bz2", bs "application/x-bzip2"); (bs ".csh", bs "application/x-csh"); (bs ".css", bs "text/css"); (bs
   ".csv", bs "text/csv"); (bs ".doc", bs "application/msword"); (bs ".docx", bs
   "application/vnd.openxmlformats-officedocument.wordprocessingml.document"); (bs ".eot", bs
   "application/vnd.ms-fontobject"); (bs ".epub", bs "application/epub+zip"); (bs ".gz", bs "application/gzip");
   (bs ".gif", bs "image/gif"); (bs ".htm", bs "text/html"); (bs ".html", bs "text/html"); (bs ".iso", bs
   "application/octet-stream"); (bs ".ico", bs "image/vnd.microsoft.icon"); (bs ".ics", bs "text/calendar"); (bs
   ".jar", bs "application/java-archive"); (bs ".jpeg", bs "image/jpeg"); (bs ".jpg", bs "image/jpeg"); (bs
   ".js", bs "application/javascript"); (bs ".json", bs "application/json"); (bs ".jsonld", bs
   "application/ld+json"); (bs ".mid", bs "audio/midi"); (bs ".midi", bs "audio/x-midi"); (bs ".mjs", bs
   "text/javascript"); (bs ".mp3", bs "audio/mpeg"); (bs ".mp4", bs "video/mp4"); (bs ".mpeg", bs "video/mpeg");
   (bs ".mpg", bs "video/mpeg"); (bs ".mpkg", bs "application/vnd.apple.installer+xml"); (bs ".odp", bs
   "application/vnd.oasis.opendocument.presentation"); (bs ".ods", bs
   "application/vnd.oasis.opendocument.spreadsheet"); (bs ".odt", bs "application/vnd.oasis.opendocument.text");
   (bs ".oga", bs "audio/ogg"); (bs ".ogv", bs "video/ogg"); (bs ".ogx", bs "application/ogg"); (bs ".opus", bs
   "audio/opus"); (bs ".otf", bs "font/otf"); (bs ".png", bs "image/png"); (bs ".pdf", bs "application/pdf");
   (bs ".php", bs "application/x-httpd-php"); (bs ".ppt", bs "application/vnd.ms-powerpoint"); (bs ".pptx", bs
   "application/vnd.openxmlformats-officedocument.presentationml.presentation"); (bs ".rar", bs
   "application/vnd.rar"); (bs ".rtf", bs "application/rtf"); (bs ".sh", bs "application/x-sh"); (bs ".svg", bs
   "image/svg+xml"); (bs ".swf", bs "application/x-shockwave-flash"); (bs ".tar", bs "application/x-tar"); (bs
   ".tif", bs "image/tiff"); (bs ".ts", bs "video/mp2t"); (bs ".ttf", bs "font/ttf"); (bs ".txt", bs
   "text/plain"); (bs ".vsd", bs "application/vnd.visio"); (bs ".wav", bs "audio/wav"); (bs ".weba", bs
   "audio/webm"); (bs ".webm", bs "video/webm"); (bs ".webp", bs "image/webp"); (bs ".woff", bs "font/woff");
   (bs ".woff2", bs "font/woff2"); (bs ".xhtml", bs "application/xhtml+xml"); (bs ".xls", bs
   "application/vnd.ms-excel"); (bs ".xlsx", bs
   "application/vnd.openxmlformats-officedocument.spreadsheetml.sheet"); (bs ".xml", bs "application/xml"); (bs
   ".xul", bs "application/vnd.mozilla.xul+xml"); (bs ".zip", bs "application/zip"); (bs ".3gp", bs
   "video/3gpp"); (bs ".3g2", bs "video/3gpp2"); (bs ".7z", bs "application/x-7z-compressed")].

Definition setMimeTypeForFileExtension (ext type : bytes) (m : list (bytes * bytes)) : list (bytes * bytes) :=
  om_set ext type m.
Definition loadDefaultMIMETypes : list (bytes * bytes) :=
  foldl (fun m e => setMimeTypeForFileExtension e.1 e.2 m) [] default_mime_types.

(** [strrchr(s, '.')]: from the last dot on. *)
Fixpoint last_dot (s : bytes) : option bytes :=
  match s with
  | [] => None
  | c :: s' => match last_dot s' with Some r => Some r | None => if c =? 46 then Some s else None end
  end.

(** The extension that is remembered and the type that is set; nothing when the
    name has no extension. *)
Definition detectContentType (mimeTypes : list (bytes * bytes)) (sFilePath : bytes) : option (bytes * option bytes) :=
  match last_dot (c_str sFilePath) with
  | None | Some [_] => None
  | Some cFileExtension =>
      let ext := to_lower_copy cFileExtension in
      Some (ext, mm_find ext mimeTypes)
  end.
