(* ===== verification/WebSocket.v ===== *)
(** * WebSocket frames (Protocol_HTTP/websocket_frameheader.cpp,
      websocket_framecontent.cpp, httpv1_server_websockets.cpp)

    [FrameHeader] and [FrameContent] are sub-parsers that read pieces of a set
    size: the two first bytes, the extended length, the masking key, the payload.
    The server alternates between them ([WsServer], an implementation of
    [ParserImpl]) and calls the events of the application; the calls are recorded
    in [ws_events].

    The theorems are about what is sent (the frames of a message decode, by a
    reading of the format written apart from the code, to the message), what is
    parsed (the header that was sent; the unmasked payload), and where the state
    machine departs from the protocol. *)

From S2P Require Import Prelude SafeInt Mem Streamable Container ContainerTheory BMem BChunks ChunkBuffer BRef.
From S2P Require Import SubParser Parser.
From Stdlib Require Import ZArith Lia.

(** ** The frame header *)

(** [OpCode] is an enumeration over [uint8_t]: any value can be cast to it. *)
Definition OPCODE_CONTINUATION : Z := 0.
Definition OPCODE_TEXT : Z := 1.
Definition OPCODE_BINARY : Z := 2.
Definition OPCODE_CLOSE : Z := 8.
Definition OPCODE_PING : Z := 9.
Definition OPCODE_PONG : Z := 10.

Inductive ParseState := FIRST_2BYTES | EXTENDED_LENGTH_16 | EXTENDED_LENGTH_64 | MASKING_KEY | COMPLETE.

Inductive LastError :=
| LE_NONE | INVALID_OPCODE | INVALID_RSV_BITS | CONTROL_FRAME_TOO_LARGE | FRAGMENTED_CONTROL_FRAME
| INVALID_UTF8 | PAYLOAD_TOO_LARGE.

(** The members [FrameHeader] adds to [SubParser]. *)
Record FrameHeader := mkFrameHeader {
  m_fin : bool;
  m_rsv1 : bool;
  m_rsv2 : bool;
  m_rsv3 : bool;
  m_opcode : Z;
  m_masked : bool;
  m_payloadLength : Z;
  m_maskingKey : bytes;
  m_parseState : ParseState;
  m_extendedLengthBytes : Z;
  m_extendedLengthBytesRead : Z;
  m_maskingKeyBytesRead : Z;
  m_maxPayloadSize : Z;
  m_requireMasking : bool;
  m_lastError : LastError }.

Definition fh_init : FrameHeader :=
  mkFrameHeader false false false false OPCODE_CONTINUATION false 0 [0; 0; 0; 0] FIRST_2BYTES 0 0 0
    (256 * 1024) true LE_NONE.

(** [reset()] without the change of the target size. *)
Definition fh_reset_fields (h : FrameHeader) : FrameHeader :=
  mkFrameHeader false false false false OPCODE_CONTINUATION false 0 [0; 0; 0; 0] FIRST_2BYTES 0 0 0
    (m_maxPayloadSize h) (m_requireMasking h) LE_NONE.

Definition fh_set_first (fin r1 r2 r3 : bool) (op : Z) (h : FrameHeader) : FrameHeader :=
  mkFrameHeader fin r1 r2 r3 op (m_masked h) (m_payloadLength h) (m_maskingKey h) (m_parseState h)
    (m_extendedLengthBytes h) (m_extendedLengthBytesRead h) (m_maskingKeyBytesRead h)
    (m_maxPayloadSize h) (m_requireMasking h) (m_lastError h).
Definition fh_set_second (masked : bool) (len : Z) (h : FrameHeader) : FrameHeader :=
  mkFrameHeader (m_fin h) (m_rsv1 h) (m_rsv2 h) (m_rsv3 h) (m_opcode h) masked len (m_maskingKey h)
    (m_parseState h) (m_extendedLengthBytes h) (m_extendedLengthBytesRead h)
    (m_maskingKeyBytesRead h) (m_maxPayloadSize h) (m_requireMasking h) (m_lastError h).
Definition fh_set_key (key : bytes) (h : FrameHeader) : FrameHeader :=
  mkFrameHeader (m_fin h) (m_rsv1 h) (m_rsv2 h) (m_rsv3 h) (m_opcode h) (m_masked h)
    (m_payloadLength h) key (m_parseState h) (m_extendedLengthBytes h)
    (m_extendedLengthBytesRead h) (m_maskingKeyBytesRead h) (m_maxPayloadSize h)
    (m_requireMasking h) (m_lastError h).
Definition fh_set_state (st : ParseState) (ext : Z) (h : FrameHeader) : FrameHeader :=
  mkFrameHeader (m_fin h) (m_rsv1 h) (m_rsv2 h) (m_rsv3 h) (m_opcode h) (m_masked h)
    (m_payloadLength h) (m_maskingKey h) st ext (m_extendedLengthBytesRead h)
    (m_maskingKeyBytesRead h) (m_maxPayloadSize h) (m_requireMasking h) (m_lastError h).
Definition fh_set_error (e : LastError) (h : FrameHeader) : FrameHeader :=
  mkFrameHeader (m_fin h) (m_rsv1 h) (m_rsv2 h) (m_rsv3 h) (m_opcode h) (m_masked h)
    (m_payloadLength h) (m_maskingKey h) (m_parseState h) (m_extendedLengthBytes h)
    (m_extendedLengthBytesRead h) (m_maskingKeyBytesRead h) (m_maxPayloadSize h)
    (m_requireMasking h) e.

Definition isControlFrame (h : FrameHeader) : bool := negb (Z.land (m_opcode h) 8 =? 0).
Definition isDataFrame (h : FrameHeader) : bool := negb (isControlFrame h).
Definition isValidOpCode (h : FrameHeader) : bool :=
  (m_opcode h <=? OPCODE_BINARY) || ((m_opcode h >=? OPCODE_CLOSE) && (m_opcode h <=? OPCODE_PONG)).

(** The [k] low bytes of an integer in network order. *)
Fixpoint be_bytes (k : nat) (v : Z) : bytes :=
  match k with
  | O => []
  | S k => be_bytes k (v / 256) ++ [v mod 256]
  end.

Definition flag (b : bool) (v : Z) : Z := if b then v else 0.

(** The two first bytes [streamToUpstream] sends. *)
Definition header_firstByte (h : FrameHeader) : byte :=
  Z.lor (Z.lor (Z.lor (Z.lor (flag (m_fin h) 128) (flag (m_rsv1 h) 64)) (flag (m_rsv2 h) 32))
           (flag (m_rsv3 h) 16)) (Z.land (m_opcode h) 15).
Definition payloadLenField (h : FrameHeader) : Z :=
  if m_payloadLength h <=? 125 then m_payloadLength h
  else if m_payloadLength h <=? 65535 then 126 else 127.
Definition header_secondByte (h : FrameHeader) : byte :=
  Z.lor (flag (m_masked h) 128) (Z.land (payloadLenField h) 127).

Definition fh_streamToUpstream {S} `{Sink S} (h : FrameHeader) (up : S) : outcome (S * bool) :=
  '(up, ok) ← writeFullStream [header_firstByte h; header_secondByte h] up;
  if negb ok then Ret (up, false)
  else
    '(up, ok) ← (if payloadLenField h =? 126 then writeFullStream (be_bytes 2 (m_payloadLength h)) up
                 else if payloadLenField h =? 127 then writeFullStream (be_bytes 8 (m_payloadLength h)) up
                 else Ret (up, true) : outcome (S * bool));
    if negb ok then Ret (up, false)
    else if m_masked h then writeFullStream (m_maskingKey h) up
    else Ret (up, true).

(** [prepareCloseFrame], [preparePongFrame], [preparePingFrame]. *)
Definition prepareControlFrame (opcode payloadLength : Z) (h : FrameHeader) : FrameHeader :=
  let h := fh_reset_fields h in
  let h := fh_set_first true (m_rsv1 h) (m_rsv2 h) (m_rsv3 h) opcode h in
  fh_set_second (m_masked h) (if payloadLength >? 125 then 125 else payloadLength) h.
Definition prepareCloseFrame := prepareControlFrame OPCODE_CLOSE.
Definition preparePongFrame := prepareControlFrame OPCODE_PONG.
Definition preparePingFrame := prepareControlFrame OPCODE_PING.

Definition prepareHeader (fin : bool) (opcode payloadLength : Z) (masked : bool) (maskingKey : bytes)
    (h : FrameHeader) : FrameHeader :=
  let h := fh_set_first fin (m_rsv1 h) (m_rsv2 h) (m_rsv3 h) opcode h in
  let h := fh_set_second masked payloadLength h in
  let h := fh_set_key (if masked then maskingKey else [0; 0; 0; 0]) h in
  fh_set_state COMPLETE (m_extendedLengthBytes h) h.

Definition parseFirstByte (b : byte) (h : FrameHeader) : FrameHeader * bool :=
  let h := fh_set_first (negb (Z.land b 128 =? 0)) (negb (Z.land b 64 =? 0)) (negb (Z.land b 32 =? 0))
             (negb (Z.land b 16 =? 0)) (Z.land b 15) h in
  if m_rsv1 h || m_rsv2 h || m_rsv3 h then (fh_set_error INVALID_RSV_BITS h, false)
  else if negb (isValidOpCode h) then (fh_set_error INVALID_OPCODE h, false)
  else if isControlFrame h && negb (m_fin h) then (fh_set_error FRAGMENTED_CONTROL_FRAME h, false)
  else (h, true).

Definition parseSecondByte (b : byte) (h : FrameHeader) : FrameHeader * bool :=
  let h := fh_set_second (negb (Z.land b 128 =? 0)) (Z.land b 127) h in
  if m_requireMasking h && negb (m_masked h) then (fh_set_error INVALID_OPCODE h, false)
  else if isControlFrame h && (m_payloadLength h >? 125) then (fh_set_error CONTROL_FRAME_TOO_LARGE h, false)
  else (h, true).

(** The loop over the bytes of the 64-bit length: [i] of the 8 are left. *)
Fixpoint extended64_loop (i : nat) (data : bytes) (acc : Z) : outcome Z :=
  match i with
  | O => Ret acc
  | S i' =>
      match nth_error data (2 + (8 - i)) with
      | Some b => extended64_loop i' data (Z.lor (wrap (Z.shiftl acc 8)) b)
      | None => Undef
      end
  end.

Section Header.
Context {M : Type} `{Container M} `{!MMapFile M}.
Implicit Types p : SubParser M FrameHeader.

Definition fh_new : SubParser M FrameHeader :=
  setParseDataTargetSize 2 (setParseStrategy SIZE (sp_new fh_init)).

Definition fh_reset p : SubParser M FrameHeader :=
  setParseDataTargetSize 2 (sp_set_sub (fh_reset_fields (sp_sub p)) p).

Definition parseExtendedLength p : outcome (SubParser M FrameHeader * bool) :=
  let h := sp_sub p in
  '(len, ok) ←
    (if m_extendedLengthBytes h =? 2 then
       x ← copyOut 2 0 (getParsedBuffer p);
       match x with
       | Some data =>
           if negb (zlen data =? 2) then Ret (0, false)
           else
             match nth_error data 2, nth_error data 3 with
             | Some a, Some b => Ret (Z.lor (Z.shiftl a 8) b, true)
             | _, _ => Undef
             end
       | None => Ret (0, false)
       end
     else if m_extendedLengthBytes h =? 8 then
       x ← copyOut 8 0 (getParsedBuffer p);
       match x with
       | Some data =>
           if negb (zlen data =? 8) then Ret (0, false)
           else len ← extended64_loop 8 data 0; Ret (len, true)
       | None => Ret (0, false)
       end
     else Throw (runtime_error "WebSocket: Invalid extended length bytes.") : outcome (Z * bool));
  if negb ok then Ret (p, false)
  else
    let h := fh_set_second (m_masked h) len h in
    if len >? m_maxPayloadSize h then Ret (sp_set_sub (fh_set_error PAYLOAD_TOO_LARGE h) p, false)
    else Ret (sp_set_sub h p, true).

Definition parseMaskingKey p : outcome (SubParser M FrameHeader * bool) :=
  x ← copyOut 4 0 (getParsedBuffer p);
  match x with
  | Some data =>
      if negb (zlen data =? 4) then Ret (p, false)
      else Ret (sp_set_sub (fh_set_key data (sp_sub p)) p, true)
  | None => Ret (p, false)
  end.

(** The case [FIRST_2BYTES] of [parse()], once the two bytes are read. *)
Definition parse_first2 (b0 b1 : byte) p : SubParser M FrameHeader * ParseResult :=
  let '(h, ok) := parseFirstByte b0 (sp_sub p) in
  if negb ok then (sp_set_sub h p, PR_ERROR)
  else
    let '(h, ok) := parseSecondByte b1 h in
    if negb ok then (sp_set_sub h p, PR_ERROR)
    else
      let next st ext n :=
        (setParseDataTargetSize n (setParseStrategy SIZE (sp_set_sub (fh_set_state st ext h) p)), GET_MORE_DATA) in
      if m_payloadLength h =? 126 then next EXTENDED_LENGTH_16 2 2
      else if m_payloadLength h =? 127 then next EXTENDED_LENGTH_64 8 8
      else if m_masked h then next MASKING_KEY (m_extendedLengthBytes h) 4
      else (sp_set_sub (fh_set_state COMPLETE (m_extendedLengthBytes h) h) p, GOTO_NEXT_SUBPARSER).

Definition fh_set_parseState (st : ParseState) p : SubParser M FrameHeader :=
  sp_set_sub (fh_set_state st (m_extendedLengthBytes (sp_sub p)) (sp_sub p)) p.

Definition fh_parse p : outcome (SubParser M FrameHeader * ParseResult) :=
  match m_parseState (sp_sub p) with
  | FIRST_2BYTES =>
      x ← copyOut 2 0 (getParsedBuffer p);
      match x with
      | Some [b0; b1] => Ret (parse_first2 b0 b1 p)
      | _ => Ret (p, PR_ERROR)
      end
  | EXTENDED_LENGTH_16 | EXTENDED_LENGTH_64 =>
      '(p, ok) ← parseExtendedLength p;
      if negb ok then Ret (p, PR_ERROR)
      else if m_masked (sp_sub p) then Ret (fh_set_parseState MASKING_KEY p, GET_MORE_DATA)
      else Ret (fh_set_parseState COMPLETE p, GOTO_NEXT_SUBPARSER)
  | MASKING_KEY =>
      '(p, ok) ← parseMaskingKey p;
      if negb ok then Ret (p, PR_ERROR) else Ret (fh_set_parseState COMPLETE p, GOTO_NEXT_SUBPARSER)
  | COMPLETE => Ret (p, GOTO_NEXT_SUBPARSER)
  end.

#[export] Instance frame_header : SubParserImpl M FrameHeader := {|
  parse := fh_parse;
  malloc_block n := replicate (Z.to_nat n) 0 |}.
End Header.

(** ** The frame content *)
Inductive ValidationResult := VR_SUCCESS | VR_INVALID_UTF8 | VR_INCOMPLETE_UTF8 | VR_ERROR.

Record FrameContent (M : Type) := mkFrameContent {
  fc_masked : bool;
  fc_maskingKey : bytes;
  m_validateUtf8 : bool;
  m_content : B_Chunks M;
  m_isComplete : bool;
  m_isFirstFrame : bool;
  m_lastValidationResult : ValidationResult;
  m_maxContentSize : Z }.
Arguments mkFrameContent {_} _ _ _ _ _ _ _ _.
Arguments fc_masked {_} _.
Arguments fc_maskingKey {_} _.
Arguments m_validateUtf8 {_} _.
Arguments m_content {_} _.
Arguments m_isComplete {_} _.
Arguments m_isFirstFrame {_} _.
Arguments m_lastValidationResult {_} _.
Arguments m_maxContentSize {_} _.

(** [unmaskData]: the loop variable runs from [i]. *)
Fixpoint unmaskData (key : bytes) (i : nat) (data : bytes) : bytes :=
  match data with
  | [] => []
  | b :: data => Z.lxor b (nth (i mod 4) key 0) :: unmaskData key (S i) data
  end.

Definition isValidUtf8Continuation (b : byte) : bool := Z.land b 192 =? 128.

(** One iteration of the loop of [validateUtf8Payload]: the new values of
    [utf8BytesRemaining] and [utf8Codepoint], or nothing for [return false]. *)
Definition utf8_step (b : byte) (remaining cp : Z) : option (Z * Z) :=
  if remaining =? 0 then
    if Z.land b 128 =? 0 then Some (0, cp)
    else if Z.land b 224 =? 192 then Some (1, Z.land b 31)
    else if Z.land b 240 =? 224 then Some (2, Z.land b 15)
    else if Z.land b 248 =? 240 then Some (3, Z.land b 7)
    else None
  else if negb (isValidUtf8Continuation b) then None
  else
    let cp := Z.lor (wrapw 32 (Z.shiftl cp 6)) (Z.land b 63) in
    let remaining := remaining - 1 in
    if (remaining =? 0) && ((cp >? 1114111) || ((cp >=? 55296) && (cp <=? 57343))) then None
    else Some (remaining, cp).

Section Content.
Context {M : Type} `{Container M} `{!MMapFile M}.
Implicit Types p : SubParser M (FrameContent M).

Definition fcontent_init : FrameContent M :=
  mkFrameContent false [0; 0; 0; 0] false bc_new false false VR_SUCCESS (512 * 1024).

Definition fcontent_new : SubParser M (FrameContent M) := setParseStrategy SIZE (sp_new fcontent_init).

Definition fcontent_set_mask (masked : bool) (key : bytes) (f : FrameContent M) : FrameContent M :=
  mkFrameContent masked key (m_validateUtf8 f) (m_content f) (m_isComplete f) (m_isFirstFrame f)
    (m_lastValidationResult f) (m_maxContentSize f).
Definition fcontent_set_content (c : B_Chunks M) (f : FrameContent M) : FrameContent M :=
  mkFrameContent (fc_masked f) (fc_maskingKey f) (m_validateUtf8 f) c (m_isComplete f) (m_isFirstFrame f)
    (m_lastValidationResult f) (m_maxContentSize f).
Definition fcontent_set_first (v : bool) (f : FrameContent M) : FrameContent M :=
  mkFrameContent (fc_masked f) (fc_maskingKey f) (m_validateUtf8 f) (m_content f) (m_isComplete f) v
    (m_lastValidationResult f) (m_maxContentSize f).
Definition fcontent_set_validation (v : ValidationResult) (f : FrameContent M) : FrameContent M :=
  mkFrameContent (fc_masked f) (fc_maskingKey f) (m_validateUtf8 f) (m_content f) (m_isComplete f)
    (m_isFirstFrame f) v (m_maxContentSize f).
Definition setValidateUtf8 (v : bool) (f : FrameContent M) : FrameContent M :=
  mkFrameContent (fc_masked f) (fc_maskingKey f) v (m_content f) (m_isComplete f) (m_isFirstFrame f)
    (m_lastValidationResult f) (m_maxContentSize f).

Definition fcontent_reset (f : FrameContent M) : FrameContent M :=
  mkFrameContent false [0; 0; 0; 0] (m_validateUtf8 f) (Container.clear (m_content f)).1 false true
    VR_SUCCESS (m_maxContentSize f).

Definition setPayloadLength (length : Z) p : SubParser M (FrameContent M) :=
  setParseDataTargetSize length (sp_set_sub (fcontent_set_first false (sp_sub p)) p).

Definition fcontent_streamToUpstream {S} `{Sink S} (f : FrameContent M) (up : S) : outcome (S * bool) :=
  '(up, x) ← appendTo up SIZE_MAX 0 (m_content f);
  Ret (up, match x with Some n => n =? csize (m_content f) | None => false end).

(** The loop of [validateUtf8Payload]; [n] bytes are left. *)
Fixpoint validateUtf8_loop (n : nat) (i remaining cp : Z) (c : B_Chunks M) : outcome bool :=
  match n with
  | O => Ret true
  | S n =>
      x ← copyOut 1 i c;
      match x with
      | Some (b :: _) =>
          match utf8_step b remaining cp with
          | Some (remaining, cp) => validateUtf8_loop n (i + 1) remaining cp c
          | None => Ret false
          end
      | _ => Ret false
      end
  end.

Definition validateUtf8Payload (f : FrameContent M) : outcome bool :=
  validateUtf8_loop (Z.to_nat (csize (m_content f))) 0 0 0 (m_content f).

Definition fcontent_parse p : outcome (SubParser M (FrameContent M) * ParseResult) :=
  currentPayload ← copyToBuffer (getParsedBuffer p);
  let f := sp_sub p in
  let currentPayload := if fc_masked f then unmaskData (fc_maskingKey f) 0 currentPayload else currentPayload in
  '(c, x) ← Container.append currentPayload (m_content f);
  let f := fcontent_set_content c f in
  if negb (has_value x) then Ret (sp_set_sub f p, PR_ERROR)
  else
    valid ← (if m_isComplete f && m_validateUtf8 f then validateUtf8Payload f else Ret true);
    if negb valid then Ret (sp_set_sub (fcontent_set_validation VR_INVALID_UTF8 f) p, PR_ERROR)
    else Ret (sp_set_sub f p, GOTO_NEXT_SUBPARSER).

Definition validateContent (f : FrameContent M) : ValidationResult :=
  if negb (m_validateUtf8 f) then VR_SUCCESS else m_lastValidationResult f.

#[export] Instance frame_content : SubParserImpl M (FrameContent M) := {|
  parse := fcontent_parse;
  malloc_block n := replicate (Z.to_nat n) 0 |}.
End Content.

(** ** The server *)

(** The virtual functions the server calls; the data frames with the content
    they can read. *)
Inductive WsEvent (M : Type) :=
| onWebSocketTextFrameReceived (c : B_Chunks M)
| onWebSocketBinaryDataFrameReceived (c : B_Chunks M)
| onWebSocketPingReceived (c : B_Chunks M)
| onWebSocketPongReceived (c : B_Chunks M)
| onWebSocketConnectionFinished.
Arguments onWebSocketTextFrameReceived {_} _.
Arguments onWebSocketBinaryDataFrameReceived {_} _.
Arguments onWebSocketPingReceived {_} _.
Arguments onWebSocketPongReceived {_} _.
Arguments onWebSocketConnectionFinished {_}.

(** [m_currentSubParser], once the connection is upgraded. *)
Inductive WsPart := WS_HEADER | WS_CONTENT.

(** [webSocketCurrentFrame], the current sub-parser and the stream. *)
Record WsServer (M S : Type) := mkWsServer {
  ws_current : option WsPart;
  frameType : Z;
  ws_header : SubParser M FrameHeader;
  ws_content : SubParser M (FrameContent M);
  lastPongReceived : Z;
  ws_stream : S;
  ws_events : list (WsEvent M) }.
Arguments mkWsServer {_ _} _ _ _ _ _ _ _.
Arguments ws_current {_ _} _.
Arguments frameType {_ _} _.
Arguments ws_header {_ _} _.
Arguments ws_content {_ _} _.
Arguments lastPongReceived {_ _} _.
Arguments ws_stream {_ _} _.
Arguments ws_events {_ _} _.

Section Server.
Context {M : Type} `{Container M} `{!MMapFile M} {S : Type} `{Sink S}.
Implicit Types w : WsServer M S.

(** [time(nullptr)] when a pong is handled. *)
Variable now : Z.

Definition ws_set_current (v : option WsPart) w : WsServer M S :=
  mkWsServer v (frameType w) (ws_header w) (ws_content w) (lastPongReceived w) (ws_stream w) (ws_events w).
Definition ws_set_header (h : SubParser M FrameHeader) w : WsServer M S :=
  mkWsServer (ws_current w) (frameType w) h (ws_content w) (lastPongReceived w) (ws_stream w) (ws_events w).
Definition ws_set_content (c : SubParser M (FrameContent M)) w : WsServer M S :=
  mkWsServer (ws_current w) (frameType w) (ws_header w) c (lastPongReceived w) (ws_stream w) (ws_events w).
Definition ws_set_frameType (t : Z) w : WsServer M S :=
  mkWsServer (ws_current w) t (ws_header w) (ws_content w) (lastPongReceived w) (ws_stream w) (ws_events w).
Definition ws_set_stream (s : S) w : WsServer M S :=
  mkWsServer (ws_current w) (frameType w) (ws_header w) (ws_content w) (lastPongReceived w) s (ws_events w).
Definition ws_set_lastPong (t : Z) w : WsServer M S :=
  mkWsServer (ws_current w) (frameType w) (ws_header w) (ws_content w) t (ws_stream w) (ws_events w).
Definition ws_event (e : WsEvent M) w : WsServer M S :=
  mkWsServer (ws_current w) (frameType w) (ws_header w) (ws_content w) (lastPongReceived w) (ws_stream w)
    (ws_events w ++ [e]).

(** A change of the members [FrameContent] adds. *)
Definition ws_on_content (f : FrameContent M -> FrameContent M) w : WsServer M S :=
  ws_set_content (sp_set_sub (f (sp_sub (ws_content w))) (ws_content w)) w.

(** [content.reset(); header.reset();] and the next sub-parser. *)
Definition ws_reset_frame (next : option WsPart) w : WsServer M S :=
  ws_set_current next (ws_set_header (fh_reset (ws_header w)) (ws_on_content fcontent_reset w)).

Definition callOnFinalFragmentReceived w : outcome (WsServer M S * bool) :=
  let content := m_content (sp_sub (ws_content w)) in
  let next w := Ret (ws_reset_frame (Some WS_HEADER) w, true) in
  if frameType w =? OPCODE_CONTINUATION then
    Throw (runtime_error "The first frame should be text/binary/close/ping/pong...")
  else if frameType w =? OPCODE_TEXT then next (ws_event (onWebSocketTextFrameReceived content) w)
  else if frameType w =? OPCODE_BINARY then next (ws_event (onWebSocketBinaryDataFrameReceived content) w)
  else if frameType w =? OPCODE_CLOSE then
    let w := ws_event onWebSocketConnectionFinished w in
    '(s, _) ← fh_streamToUpstream (prepareCloseFrame 0 fh_init) (ws_stream w);
    Ret (ws_reset_frame None (ws_set_stream s w), true)
  else if frameType w =? OPCODE_PING then
    '(s, ok) ← fh_streamToUpstream (preparePongFrame 0 fh_init) (ws_stream w);
    let w := ws_set_stream s w in
    if negb ok then Ret (ws_reset_frame None w, false)
    else next (ws_event (onWebSocketPingReceived content) w)
  else if frameType w =? OPCODE_PONG then
    next (ws_event (onWebSocketPongReceived content) (ws_set_lastPong now w))
  else next w.

Definition changeToNextParserFromWebSocketFrameHeader w : outcome (WsServer M S * bool) :=
  let h := sp_sub (ws_header w) in
  let first := m_isFirstFrame (sp_sub (ws_content w)) in
  let w := if first then ws_set_frameType (m_opcode h) w else w in
  if first && (frameType w =? OPCODE_CONTINUATION) then Ret (ws_set_current None w, false)
  else
    let w := if first && (frameType w =? OPCODE_TEXT) then ws_on_content (setValidateUtf8 true) w else w in
    let payloadLength := m_payloadLength h in
    if negb (payloadLength =? 0) then
      let w := ws_on_content (fun f => fcontent_set_mask (m_masked h)
                 (if m_masked h then m_maskingKey h else fc_maskingKey f) f) w in
      let w := ws_set_content (setPayloadLength payloadLength (ws_content w)) w in
      Ret (ws_set_current (Some WS_CONTENT) w, true)
    else '(w, _) ← callOnFinalFragmentReceived w; Ret (w, true).

Definition changeToNextParserFromWebSocketFrameContent w : outcome (WsServer M S * bool) :=
  if m_fin (sp_sub (ws_header w)) then callOnFinalFragmentReceived w
  else Ret (ws_set_current (Some WS_HEADER) (ws_set_header (fh_reset (ws_header w)) w), true).

(** The server as a protocol of [Parser], once the connection is upgraded. *)
#[export] Instance ws_protocol : ParserImpl (WsServer M S) := {|
  currentSubParser w := has_value (ws_current w);
  cur_setParseResult r w :=
    match ws_current w with
    | Some WS_HEADER => ws_set_header (setParseResult r (ws_header w)) w
    | Some WS_CONTENT => ws_set_content (setParseResult r (ws_content w)) w
    | None => w
    end;
  cur_writeIntoSubParser buf w :=
    match ws_current w with
    | Some WS_HEADER => '(h, n) ← writeIntoSubParser buf (ws_header w); Ret (ws_set_header h w, n)
    | Some WS_CONTENT => '(c, n) ← writeIntoSubParser buf (ws_content w); Ret (ws_set_content c w, n)
    | None => Ret (w, None)
    end;
  cur_getParseStatus w :=
    match ws_current w with
    | Some WS_HEADER => m_parseStatus (ws_header w)
    | Some WS_CONTENT => m_parseStatus (ws_content w)
    | None => PR_ERROR
    end;
  changeToNextParser w :=
    match ws_current w with
    | Some WS_HEADER => changeToNextParserFromWebSocketFrameHeader w
    | Some WS_CONTENT => changeToNextParserFromWebSocketFrameContent w
    | None => Ret (w, false)
    end;
  initProtocol w := Ret (w, true);
  endProtocol w := Ret w |}.

(** The server when the connection has just been upgraded. *)
Definition ws_upgraded (s : S) : WsServer M S :=
  mkWsServer (Some WS_HEADER) OPCODE_CONTINUATION fh_new fcontent_new 0 s [].

(** [sendWebSocketData]: the frames from [bytesSent] on, one per round. *)
Fixpoint sendWebSocketData_loop (fuel : nat) (data : bytes) (bytesSent mode : Z) (up : S) : outcome (S * bool) :=
  match fuel with
  | O => NoFuel
  | Datatypes.S fuel =>
      let len := zlen data in
      let remaining := len - bytesSent in
      let frameSize := if remaining >? 65535 then 65535 else remaining in
      let isFinal := bytesSent + frameSize >=? len in
      let opcode := if bytesSent =? 0 then mode else OPCODE_CONTINUATION in
      '(up, ok) ← fh_streamToUpstream (prepareHeader isFinal opcode frameSize false [0; 0; 0; 0] fh_init) up;
      if negb ok then Ret (up, false)
      else
        '(c, _) ← Container.append (slice bytesSent frameSize data) (bc_new (M := M));
        '(up, ok) ← fcontent_streamToUpstream (fcontent_set_content c fcontent_init) up;
        if negb ok then Ret (up, false)
        else if bytesSent + frameSize <? len
        then sendWebSocketData_loop fuel data (bytesSent + frameSize) mode up
        else Ret (up, true)
  end.

Definition sendWebSocketData (data : bytes) (mode : Z) (up : S) : outcome (S * bool) :=
  sendWebSocketData_loop (Z.to_nat (zlen data / 65535) + 1) data 0 mode up.

Definition sendWebSocketText (data : bytes) := sendWebSocketData data OPCODE_TEXT.
Definition sendWebSocketBinaryData (data : bytes) := sendWebSocketData data OPCODE_BINARY.

Definition sendWebSocketPing (data : bytes) (up : S) : outcome (S * bool) :=
  let data := ztake 125 data in
  '(up, ok) ← fh_streamToUpstream (preparePingFrame (zlen data) fh_init) up;
  if negb ok then Ret (up, false)
  else
    '(c, _) ← Container.append data (bc_new (M := M));
    fcontent_streamToUpstream (fcontent_set_content c fcontent_init) up.
End Server.

(** ** Headers that are sent, and read back *)

(** A header the format allows without extensions. *)
Record header_valid (h : FrameHeader) : Prop := {
  hv_rsv : m_rsv1 h = false /\ m_rsv2 h = false /\ m_rsv3 h = false;
  hv_opcode : In (m_opcode h) [0; 1; 2; 8; 9; 10];
  hv_control : 8 <= m_opcode h -> m_fin h = true;
  hv_length : 0 <= m_payloadLength h <= 125;
  hv_key : zlen (m_maskingKey h) = 4 }.

Definition header_bytes (h : FrameHeader) : bytes :=
  [header_firstByte h; header_secondByte h] ++
  (if payloadLenField h =? 126 then be_bytes 2 (m_payloadLength h)
   else if payloadLenField h =? 127 then be_bytes 8 (m_payloadLength h) else []) ++
  (if m_masked h then m_maskingKey h else []).

(** The fields that travel. *)
Definition same_header (h h' : FrameHeader) : Prop :=
  m_fin h' = m_fin h /\ m_rsv1 h' = m_rsv1 h /\ m_rsv2 h' = m_rsv2 h /\ m_rsv3 h' = m_rsv3 h /\
  m_opcode h' = m_opcode h /\ m_masked h' = m_masked h /\ m_payloadLength h' = m_payloadLength h /\
  (m_masked h = true -> m_maskingKey h' = m_maskingKey h).

Lemma header_stream_ok {S} `{SinkSpec S} h (s : S) acc :
  sink_rep s acc -> zlen (header_bytes h) <= sink_room s ->
  exists s', fh_streamToUpstream h s = Ret (s', true) /\ sink_rep s' (acc ++ header_bytes h) /\
    sink_room s - zlen (header_bytes h) <= sink_room s'.
Proof.
  unfold header_bytes, fh_streamToUpstream. intros Hrep Hroom.
  set (first := [_; _]) in *. set (ext := if _ =? 126 then be_bytes 2 _ else _) in *.
  set (key := if m_masked h then m_maskingKey h else []) in *. rewrite !zlen_app in *.
  pose proof (zlen_nonneg ext). pose proof (zlen_nonneg key).
  destruct (writeFullStream_ok first s acc) as (s1 & -> & Hrep1 & Hroom1); [done|lia|].
  cbn [mbind outcome_bind negb].
  assert (exists s2, (if payloadLenField h =? 126 then writeFullStream (be_bytes 2 (m_payloadLength h)) s1
      else if payloadLenField h =? 127 then writeFullStream (be_bytes 8 (m_payloadLength h)) s1
      else Ret (s1, true)) = Ret (s2, true) /\
    sink_rep s2 ((acc ++ first) ++ ext) /\ sink_room s1 - zlen ext <= sink_room s2) as (s2 & -> & Hrep2 & Hroom2).
  { subst ext. do 2 (case_match; [apply writeFullStream_ok; [done|lia]|]).
    exists s1. rewrite app_nil_r. change (zlen []) with 0. split_and!; try done. lia. }
  cbn [mbind outcome_bind negb].
  assert (exists s3, (if m_masked h then writeFullStream (m_maskingKey h) s2 else Ret (s2, true)) = Ret (s3, true) /\
    sink_rep s3 (((acc ++ first) ++ ext) ++ key) /\ sink_room s2 - zlen key <= sink_room s3) as (s3 & -> & Hrep3 & Hroom3).
  { subst key. case_match; [apply writeFullStream_ok; [done|lia]|].
    exists s2. rewrite app_nil_r. change (zlen []) with 0. split_and!; try done. lia. }
  exists s3. rewrite <- !app_assoc in Hrep3. split_and!; try done. lia.
Qed.

Lemma parse_sent_first h h0 :
  header_valid h ->
  parseFirstByte (header_firstByte h) h0 = (fh_set_first (m_fin h) false false false (m_opcode h) h0, true).
Proof.
  intros [(R1 & R2 & R3) Hop Hctl _ _]. unfold header_firstByte. rewrite R1, R2, R3.
  revert Hop Hctl. generalize (m_opcode h) as op, (m_fin h) as fin. intros op fin Hop Hctl.
  destruct fin; repeat (destruct Hop as [<-|Hop]; [first [reflexivity | exfalso; by apply diff_false_true, Hctl]|]); done.
Qed.

Lemma second_byte_fields (masked : bool) len :
  0 <= len <= 127 ->
  negb (Z.land (Z.lor (flag masked 128) (Z.land len 127)) 128 =? 0) = masked /\
  Z.land (Z.lor (flag masked 128) (Z.land len 127)) 127 = len.
Proof.
  intros Hl.
  assert ((Bool.eqb (negb (Z.land (Z.lor (flag masked 128) (Z.land len 127)) 128 =? 0)) masked &&
    (Z.land (Z.lor (flag masked 128) (Z.land len 127)) 127 =? len)) = true) as Hb.
  { apply (bounded_forall 128 (fun len => Bool.eqb (negb (Z.land (Z.lor (flag masked 128) (Z.land len 127)) 128 =? 0)) masked &&
      (Z.land (Z.lor (flag masked 128) (Z.land len 127)) 127 =? len))); [by destruct masked|lia]. }
  apply andb_prop in Hb as [H1 H2]. apply eqb_prop in H1. split; [done|lia].
Qed.

Lemma parse_sent_second h h0 :
  header_valid h -> (m_requireMasking h0 = true -> m_masked h = true) ->
  parseSecondByte (header_secondByte h) h0 = (fh_set_second (m_masked h) (m_payloadLength h) h0, true).
Proof.
  intros Hv Hm. destruct Hv as [_ _ _ Hl _]. unfold header_secondByte, payloadLenField.
  replace (m_payloadLength h <=? 125) with true by lia.
  destruct (second_byte_fields (m_masked h) (m_payloadLength h)) as [E1 E2]; [lia|].
  unfold parseSecondByte. rewrite E1, E2. cbn [fh_set_second m_requireMasking m_masked m_payloadLength].
  replace (m_payloadLength h >? 125) with false by lia. rewrite andb_false_r.
  destruct (m_requireMasking h0); [|done]. by rewrite Hm.
Qed.

Section Exchange.
Context {M : Type} `{Container M} `{!MMapFile M}.

(** The bytes of a header with a short payload. *)
Lemma short_header_bytes h :
  header_valid h ->
  header_bytes h = header_firstByte h :: header_secondByte h :: (if m_masked h then m_maskingKey h else []).
Proof.
  intros [_ _ _ Hl _]. unfold header_bytes, payloadLenField.
  replace (m_payloadLength h <=? 125) with true by lia.
  replace (m_payloadLength h =? 126) with false by lia. by replace (m_payloadLength h =? 127) with false by lia.
Qed.

(** The header sub-parser waiting for a frame. *)
Definition header_waiting (p : SubParser M FrameHeader) : Prop :=
  piece_ready 8 2 p /\ m_parseState (sp_sub p) = FIRST_2BYTES.

(** The two first bytes of a masked header. *)
Lemma header_first_piece p h rest :
  header_waiting p -> header_valid h -> m_masked h = true ->
  exists p1 h1, writeIntoSubParser (header_bytes h ++ rest) p = Ret (p1, Some 2) /\
    m_parseStatus p1 = GET_MORE_DATA /\ piece_ready 8 4 p1 /\ sp_sub p1 = h1 /\
    m_parseState h1 = MASKING_KEY /\ m_fin h1 = m_fin h /\ m_rsv1 h1 = false /\ m_rsv2 h1 = false /\
    m_rsv3 h1 = false /\ m_opcode h1 = m_opcode h /\ m_masked h1 = true /\
    m_payloadLength h1 = m_payloadLength h /\ m_requireMasking h1 = m_requireMasking (sp_sub p).
Proof.
  intros [Hp Hst] Hv Hm. rewrite short_header_bytes by done. rewrite Hm.
  destruct (piece_step 8 2 p (header_firstByte h :: header_secondByte h :: m_maskingKey h ++ rest))
    as (q & Hw & Hout & _ & Hsub & Hmode & _ & Hnext); [done| |].
  { pose proof (zlen_nonneg (m_maskingKey h ++ rest)). rewrite !zlen_cons. lia. }
  cbn [app]. rewrite Hw. unfold run_parse. cbn [parse frame_header]. unfold fh_parse. rewrite Hsub, Hst, Hout.
  change (ztake 2 (?a :: ?b :: ?l)) with [a; b]. cbn [mbind outcome_bind]. unfold parse_first2.
  rewrite parse_sent_first by done. cbn [negb]. rewrite parse_sent_second by (try done; by rewrite Hm).
  cbn [negb]. rewrite Hsub. cbn [fh_set_second fh_set_first m_payloadLength m_masked].
  pose proof (hv_length _ Hv). replace (m_payloadLength h =? 126) with false by lia.
  replace (m_payloadLength h =? 127) with false by lia. rewrite Hm. cbn [mbind outcome_bind].
  eexists _, _. split; [done|]. split; [done|]. split.
  - by apply (Hnext 4).
  - split_and!; done.
Qed.

Lemma header_second_piece p key rest :
  piece_ready 8 4 p -> m_parseState (sp_sub p) = MASKING_KEY -> zlen key = 4 ->
  exists p2, writeIntoSubParser (key ++ rest) p = Ret (p2, Some 4) /\
    m_parseStatus p2 = GOTO_NEXT_SUBPARSER /\ piece_ready 8 4 p2 /\
    sp_sub p2 = fh_set_state COMPLETE (m_extendedLengthBytes (sp_sub p)) (fh_set_key key (sp_sub p)).
Proof.
  intros Hp Hst Hk.
  destruct (piece_step 8 4 p (key ++ rest)) as (q & Hw & Hout & _ & Hsub & Hmode & Hnext & _); [done| |].
  { pose proof (zlen_nonneg rest). rewrite zlen_app. lia. }
  rewrite ztake_app_le, ztake_ge in Hout by lia.
  rewrite Hw. unfold run_parse. cbn [parse frame_header]. unfold fh_parse. rewrite Hsub, Hst.
  assert (parseMaskingKey q = Ret (sp_set_sub (fh_set_key key (sp_sub q)) q, true)) as ->.
  { unfold parseMaskingKey. rewrite Hout. cbn [mbind outcome_bind]. by rewrite Hk. }
  cbn [mbind outcome_bind negb].
  eexists. split; [done|]. split; [done|]. split; [by apply Hnext|].
  cbn. by rewrite Hsub.
Qed.

(** A masked header is read in two pieces, and all its fields arrive. *)
Lemma header_exchange p h rest :
  header_waiting p -> header_valid h -> m_masked h = true ->
  exists p1, writeIntoSubParser (header_bytes h ++ rest) p = Ret (p1, Some 2) /\
    m_parseStatus p1 = GET_MORE_DATA /\
    forall r, exists p2, writeIntoSubParser (m_maskingKey h ++ rest) (setParseResult r p1) = Ret (p2, Some 4) /\
      m_parseStatus p2 = GOTO_NEXT_SUBPARSER /\ piece_ready 8 4 p2 /\ same_header h (sp_sub p2).
Proof.
  intros Hp Hv Hm. destruct (hv_rsv _ Hv) as (R1 & R2 & R3).
  destruct (header_first_piece p h rest)
    as (p1 & h1 & Hw1 & Hs1 & Hr1 & Hsub1 & Hst1 & F1 & F2 & F3 & F4 & F5 & F6 & F7 & _); [done..|].
  exists p1. split; [done|]. split; [done|]. intros r.
  destruct (header_second_piece (setParseResult r p1) (m_maskingKey h) rest) as (p2 & Hw2 & Hs2 & Hr2 & Hsub2).
  - destruct Hr1. by split.
  - by rewrite <- Hsub1 in Hst1.
  - apply Hv.
  - exists p2. split_and!; [done..|]. cbn [sp_sub setParseResult] in Hsub2. rewrite Hsub1 in Hsub2.
    rewrite Hsub2. unfold same_header. cbn. split_and!; congruence.
Qed.

Lemma header_reset_waiting p n : piece_ready 8 n p -> header_waiting (fh_reset p).
Proof.
  intros Hp. split; [|done]. eapply (piece_resize 8 2); [by eapply piece_ready_idle|lia|by apply (pc_mode _ _ _ Hp)|done].
Qed.

(** ** Payloads *)

(** The masking of the format: byte [i] with byte [i mod 4] of the key. *)
Definition mask_payload (key data : bytes) : bytes :=
  imap (fun i b => Z.lxor b (nth (i mod 4) key 0)) data.

Lemma unmask_masked key data : unmaskData key 0 (mask_payload key data) = data.
Proof.
  assert (forall i, unmaskData key i (imap (fun j b => Z.lxor b (nth ((i + j) mod 4) key 0)) data) = data) as H0;
    [|exact (H0 O)].
  induction data as [|b data IH]; intros i; [done|]. cbn [imap unmaskData].
  rewrite Nat.add_0_r, Z.lxor_assoc, Z.lxor_nilpotent, Z.lxor_0_r. f_equal.
  etransitivity; [|apply (IH (S i))]. f_equal. apply imap_ext. intros j x _. cbn [compose].
  by rewrite Nat.add_succ_r.
Qed.

Lemma mask_payload_len key data : zlen (mask_payload key data) = zlen data.
Proof. unfold zlen, mask_payload. by rewrite length_imap. Qed.

(** The room of the content for more payload. *)
Definition content_room (f : FrameContent M) (n : Z) : Prop :=
  buffer_ready (m_content f) /\ zlen (bc_contents (m_content f)) + n <= m_maxSize (bc_base (m_content f)) /\
  zlen (bc_contents (m_content f)) + n <= m_maxChunks (m_content f) /\
  zlen (bc_contents (m_content f)) + n + blockSize < SIZE_MOD.

Lemma content_piece L n (p : SubParser M (FrameContent M)) key data rest :
  piece_ready L n p -> zlen data = n -> 0 < n -> content_room (sp_sub p) n ->
  m_isComplete (sp_sub p) = false ->
  (fc_masked (sp_sub p) = true -> fc_maskingKey (sp_sub p) = key) ->
  exists p' c, writeIntoSubParser ((if fc_masked (sp_sub p) then mask_payload key data else data) ++ rest) p
      = Ret (p', Some n) /\
    m_parseStatus p' = GOTO_NEXT_SUBPARSER /\ piece_ready L n p' /\
    sp_sub p' = fcontent_set_content c (sp_sub p) /\
    bc_contents c = bc_contents (m_content (sp_sub p)) ++ data /\ buffer_ready c /\
    same_limits (m_content (sp_sub p)) c.
Proof.
  intros Hp Hd Hn (Hr & Hmax & Hch & Hb) Hcomp Hkey.
  set (wire := if fc_masked (sp_sub p) then mask_payload key data else data).
  assert (zlen wire = n) as Hwl by (subst wire; case_match; rewrite ?mask_payload_len; done).
  destruct (piece_step L n p (wire ++ rest)) as (q & Hw & _ & Hout & Hsub & Hmode & Hnext & _); [done| |].
  { pose proof (zlen_nonneg rest). rewrite zlen_app. lia. }
  rewrite ztake_app_le, ztake_ge in Hout by lia.
  rewrite Hw. unfold run_parse. cbn [parse frame_content]. unfold fcontent_parse. rewrite Hout, Hsub.
  cbn [mbind outcome_bind].
  assert ((if fc_masked (sp_sub p) then unmaskData (fc_maskingKey (sp_sub p)) 0 wire else wire) = data) as ->.
  { subst wire. destruct (fc_masked (sp_sub p)); [|done]. by rewrite Hkey, unmask_masked. }
  destruct (append_ready (m_content (sp_sub p)) data) as (c & Ha & Hrc & Hc & Hlim); rewrite ?Hd; try done.
  { intros ->. by change (zlen []) with 0 in Hd; lia. }
  rewrite Ha. cbn [mbind outcome_bind has_value negb fcontent_set_content m_isComplete]. rewrite Hcomp.
  cbn [andb mbind outcome_bind negb]. eexists _, c. split; [done|]. split; [done|]. split; [by apply Hnext|done].
Qed.
End Exchange.

(** ** Messages *)
Section Messages.
Context {M : Type} `{Container M} `{!MMapFile M} {S : Type} `{Sink S} (now : Z).
Implicit Types w : WsServer M S.

(** The server between two frames: it waits for a header, and there is room for
    a frame of up to 125 bytes. *)
Record ws_waiting w : Prop := {
  ww_current : ws_current w = Some WS_HEADER;
  ww_header : header_waiting (ws_header w);
  ww_content : piece_idle 125 (ws_content w);
  ww_room : content_room (sp_sub (ws_content w)) 125;
  ww_incomplete : m_isComplete (sp_sub (ws_content w)) = false }.

(** The type the server takes the frame for. *)
Definition ws_type w (h : FrameHeader) : Z :=
  if m_isFirstFrame (sp_sub (ws_content w)) then m_opcode h else frameType w.

(** A masked frame on the wire. *)
Definition masked_frame (h : FrameHeader) (data : bytes) : bytes :=
  header_bytes h ++ mask_payload (m_maskingKey h) data.

(** What the server holds when the payload of a frame is complete. *)
Record ws_got w (h : FrameHeader) (data : bytes) w' : Prop := {
  wg_current : ws_current w' = Some WS_CONTENT;
  wg_type : frameType w' = ws_type w h;
  wg_header : exists n, piece_ready 8 n (ws_header w');
  wg_fin : m_fin (sp_sub (ws_header w')) = m_fin h;
  wg_content : exists n, piece_ready 125 n (ws_content w');
  wg_data : bc_contents (m_content (sp_sub (ws_content w'))) =
            bc_contents (m_content (sp_sub (ws_content w))) ++ data;
  wg_ready : buffer_ready (m_content (sp_sub (ws_content w')));
  wg_limits : same_limits (m_content (sp_sub (ws_content w))) (m_content (sp_sub (ws_content w')));
  wg_incomplete : m_isComplete (sp_sub (ws_content w')) = false;
  wg_status : m_parseStatus (ws_content w') = GOTO_NEXT_SUBPARSER;
  wg_events : ws_events w' = ws_events w;
  wg_stream : ws_stream w' = ws_stream w }.

Lemma piece_ready_setResult {X} L n (p : SubParser M X) r : piece_ready L n p -> piece_ready L n (setParseResult r p).
Proof. intros []. by split. Qed.

(** The step of the header parser to the content. *)
Lemma ws_to_content w h2 (h : FrameHeader) :
  ws_waiting w -> same_header h (sp_sub h2) -> m_masked h = true -> 0 < m_payloadLength h <= 125 ->
  ws_type w h <> OPCODE_CONTINUATION \/ m_isFirstFrame (sp_sub (ws_content w)) = false ->
  exists w3, changeToNextParserFromWebSocketFrameHeader now (ws_set_header h2 w) = Ret (w3, true) /\
    ws_current w3 = Some WS_CONTENT /\ frameType w3 = ws_type w h /\ ws_header w3 = h2 /\
    piece_ready 125 (m_payloadLength h) (ws_content w3) /\
    fc_masked (sp_sub (ws_content w3)) = true /\
    fc_maskingKey (sp_sub (ws_content w3)) = m_maskingKey h /\
    m_content (sp_sub (ws_content w3)) = m_content (sp_sub (ws_content w)) /\
    m_isComplete (sp_sub (ws_content w3)) = false /\
    ws_events w3 = ws_events w /\ ws_stream w3 = ws_stream w.
Proof.
  intros Hw (E1 & E2 & E3 & E4 & E5 & E6 & E7 & E8) Hm Hl Hty.
  unfold changeToNextParserFromWebSocketFrameHeader, ws_type in *. cbn [ws_set_header ws_header ws_content].
  rewrite E5, E6, E7, Hm, E8 by done.
  assert (forall f : FrameContent M, piece_ready 125 (m_payloadLength h)
    (setPayloadLength (m_payloadLength h) (sp_set_sub f (ws_content w)))) as Hpr.
  { intros f. eapply piece_resize; [apply (ww_content _ Hw)|lia|apply (pi_mode _ _ (ww_content _ Hw))|done]. }
  pose proof (ww_incomplete _ Hw). replace (negb (m_payloadLength h =? 0)) with true by lia.
  destruct (m_isFirstFrame (sp_sub (ws_content w))); cbn [andb].
  - destruct Hty as [Hty|]; [|done].
    cbn [ws_set_frameType frameType]. replace (m_opcode h =? OPCODE_CONTINUATION) with false by lia.
    destruct (m_opcode h =? OPCODE_TEXT); (eexists; split; [done|]; split_and!; try done; apply Hpr).
  - eexists; split; [done|]. split_and!; try done. apply Hpr.
Qed.

Lemma masked_frame_len h data :
  header_valid h -> m_masked h = true -> zlen (masked_frame h data) = 6 + zlen data.
Proof.
  intros Hv Hm. unfold masked_frame. rewrite short_header_bytes, Hm by done.
  rewrite zlen_app, mask_payload_len, !zlen_cons, (hv_key _ Hv). lia.
Qed.

(** A call of the current sub-parser, as [parseData] makes it. *)
Lemma ws_feed_header buf w :
  ws_current w = Some WS_HEADER ->
  cur_writeIntoSubParser (ParserImpl := ws_protocol now) buf
    (cur_setParseResult (ParserImpl := ws_protocol now) GET_MORE_DATA w) =
  ('(h, n) ← writeIntoSubParser buf (setParseResult GET_MORE_DATA (ws_header w)); Ret (ws_set_header h w, n)).
Proof.
  intros E. cbn [cur_writeIntoSubParser cur_setParseResult ws_protocol]. rewrite E.
  cbn [ws_set_header ws_current]. by rewrite E.
Qed.

Lemma ws_feed_content buf w :
  ws_current w = Some WS_CONTENT ->
  cur_writeIntoSubParser (ParserImpl := ws_protocol now) buf
    (cur_setParseResult (ParserImpl := ws_protocol now) GET_MORE_DATA w) =
  ('(c, n) ← writeIntoSubParser buf (setParseResult GET_MORE_DATA (ws_content w)); Ret (ws_set_content c w, n)).
Proof.
  intros E. cbn [cur_writeIntoSubParser cur_setParseResult ws_protocol]. rewrite E.
  cbn [ws_set_content ws_current]. by rewrite E.
Qed.

(** The calls of the sub-parsers a frame takes. *)
Lemma ws_frame_pieces w h data :
  ws_waiting w -> header_valid h -> m_masked h = true -> m_payloadLength h = zlen data -> 0 < zlen data ->
  ws_type w h <> OPCODE_CONTINUATION \/ m_isFirstFrame (sp_sub (ws_content w)) = false ->
  exists w1 w2 w3 w4,
    let wire := mask_payload (m_maskingKey h) data in
    let start := cur_setParseResult (ParserImpl := ws_protocol now) GET_MORE_DATA in
    let feed := cur_writeIntoSubParser (ParserImpl := ws_protocol now) in
    let status := cur_getParseStatus (ParserImpl := ws_protocol now) in
    (feed (masked_frame h data) (start w) = Ret (w1, Some 2) /\ status w1 = GET_MORE_DATA /\
       has_value (ws_current w1) = true) /\
    (feed (m_maskingKey h ++ wire) (start w1) = Ret (w2, Some 4) /\ status w2 = GOTO_NEXT_SUBPARSER /\
       changeToNextParser (ParserImpl := ws_protocol now) w2 = Ret (w3, true) /\ has_value (ws_current w3) = true) /\
    (feed wire (start w3) = Ret (w4, Some (zlen data)) /\ status w4 = GOTO_NEXT_SUBPARSER) /\
    ws_got w h data w4.
Proof.
  intros Hw Hv Hm Hlen Hpos Hty. pose proof (hv_length _ Hv) as Hl. destruct (ww_header _ Hw) as [Hpc Hst].
  destruct (header_exchange (setParseResult GET_MORE_DATA (ws_header w)) h (mask_payload (m_maskingKey h) data))
    as (p1 & Hw1 & Hs1 & Hnext); [by split; [apply piece_ready_setResult|]|done..|].
  destruct (Hnext GET_MORE_DATA) as (p2 & Hw2 & Hs2 & Hr2 & Hsame).
  destruct (ws_to_content w p2 h) as (w3 & Hn3 & C3 & T3 & H3 & P3 & M3 & K3 & D3 & I3 & V3 & S3); [done..|lia|done|].
  destruct (content_piece 125 (m_payloadLength h) (setParseResult GET_MORE_DATA (ws_content w3)) (m_maskingKey h) data [])
    as (p4 & c & Hw4 & Hs4 & Hr4 & Hsub4 & Hc4 & Hrc4 & Hlim4); try done.
  { by apply piece_ready_setResult. }
  { lia. }
  { cbn [setParseResult sp_sub]. unfold content_room. rewrite D3. destruct (ww_room _ Hw) as (? & ? & ? & ?).
    split_and!; try done; lia. }
  rewrite app_nil_r in Hw4. cbn [setParseResult sp_sub] in Hw4, Hsub4, Hc4, Hlim4. rewrite M3, Hlen in Hw4.
  rewrite D3 in Hc4, Hlim4. pose proof (ww_current _ Hw) as C0.
  exists (ws_set_header p1 w), (ws_set_header p2 w), w3, (ws_set_content p4 w3).
  change (masked_frame h data) with (header_bytes h ++ mask_payload (m_maskingKey h) data).
  split; [|split; [|split]].
  - rewrite ws_feed_header, Hw1 by done. cbn. by rewrite C0.
  - rewrite ws_feed_header by done. cbn [ws_set_header ws_header]. rewrite Hw2. cbn. rewrite C0.
    split; [done|]. split; [done|]. split; [exact Hn3|]. by rewrite C3.
  - rewrite ws_feed_content, Hw4 by done. cbn. by rewrite C3.
  - split; try done; cbn; rewrite ?H3, ?Hsub4; try done; cbn; try done.
    + by exists 4.
    + apply Hsame.
    + by eexists.
Qed.

(** Reading a frame that arrives in one write: three calls of [parseData], and
    then the change of parser after the content. *)
Lemma ws_frame_read (p : Parser (WsServer M S)) h data :
  ws_waiting (pr_impl p) -> header_valid h -> m_masked h = true ->
  m_payloadLength h = zlen data -> 0 < zlen data -> 2 <= m_maxTTL p ->
  ws_type (pr_impl p) h <> OPCODE_CONTINUATION \/ m_isFirstFrame (sp_sub (ws_content (pr_impl p))) = false ->
  exists w4, ws_got (pr_impl p) h data w4 /\
    (forall y, changeToNextParserFromWebSocketFrameContent now w4 = Ret (y, true) -> has_value (ws_current y) = true ->
     pr_write (ParserImpl0 := ws_protocol now) (masked_frame h data) p
       = Ret (pr_set_impl y p, Some (zlen (masked_frame h data)))) /\
    (forall e, changeToNextParserFromWebSocketFrameContent now w4 = Throw e ->
     pr_write (ParserImpl0 := ws_protocol now) (masked_frame h data) p = Throw e).
Proof.
  intros Hw Hv Hm Hlen Hpos Httl Hty.
  destruct (ws_frame_pieces (pr_impl p) h data) as (w1 & w2 & w3 & w4 & (F1 & S1 & C1) & (F2 & S2 & N2 & C2) & (F3 & S3) & Hgot);
    [done..|]. exists w4. split; [done|].
  pose proof (masked_frame_len h data Hv Hm) as Hfl. pose proof (hv_length _ Hv) as Hl. pose proof (hv_key _ Hv) as Hk.
  pose proof (mask_payload_len (m_maskingKey h) data) as Hml.
  assert (zdrop 2 (masked_frame h data) = m_maskingKey h ++ mask_payload (m_maskingKey h) data) as Hz2.
  { unfold masked_frame. by rewrite short_header_bytes, Hm by done. }
  assert (zdrop 4 (m_maskingKey h ++ mask_payload (m_maskingKey h) data) = mask_payload (m_maskingKey h) data) as Hz4.
  { rewrite zdrop_app_ge by lia. apply zdrop_le0. lia. }
  assert (has_value (ws_current (pr_impl p)) = true) as C0 by (by rewrite (ww_current _ Hw)).
  assert (has_value (ws_current w4) = true) as C4 by (by rewrite (wg_current _ _ _ _ Hgot)).
  assert (exists f, parse_fuel p = Datatypes.S (Datatypes.S (Datatypes.S f))) as [f Hf].
  { unfold parse_fuel. exists (Z.to_nat (m_maxTTL p) - 1)%nat. lia. }
  unfold pr_write. replace (zlen (masked_frame h data) =? 0) with false by lia. rewrite Hf.
  rewrite (parseData_more _ _ _ _ w1 2), Hz2 by (try done; lia).
  set (pA := pr_set_impl w1 p).
  pose proof (fun Hn => proj1 (parseData_next (ParserImpl0 := ws_protocol now) (Datatypes.S f) _ (0 + 1) pA w2 4 Hn C1 F2 S2) w3 N2 C2) as HB.
  rewrite HB by (cbn; rewrite ?zlen_app; lia). rewrite Hz4. set (pB := pr_set_impl w3 pA).
  destruct (parseData_next (ParserImpl0 := ws_protocol now) f (mask_payload (m_maskingKey h) data) (0 + 1 + 1) pB w4 (zlen data))
    as (_ & Hlast & Hthrow); [cbn; lia|done..|].
  cbn [changeToNextParser ws_protocol] in Hlast, Hthrow. rewrite (wg_current _ _ _ _ Hgot) in Hlast, Hthrow.
  split.
  - intros y Hy Cy. rewrite (Hlast y Hy Cy) by done. cbn [mbind outcome_bind option_map].
    rewrite !wrap_small by (rewrite ?wrap_small; unfold SIZE_MOD; lia).
    do 3 f_equal. lia.
  - intros e He. by rewrite (Hthrow e He).
Qed.

(** The server waiting for the first frame of a message. *)
Definition ws_open w : Prop :=
  ws_waiting w /\ m_isFirstFrame (sp_sub (ws_content w)) = true /\
  bc_contents (m_content (sp_sub (ws_content w))) = [].

(** After a complete message the server is open again. *)
Lemma ws_reset_open w h data w4 e :
  ws_open w -> ws_got w h data w4 -> ws_open (ws_reset_frame (Some WS_HEADER) (ws_event e w4)).
Proof.
  intros (Hw & _ & He) [_ _ [n Hh] _ [k Hc] _ Hr Hlim Hi _ _ _].
  destruct (clear_ready (m_content (sp_sub (ws_content w4))) Hr) as (Hr' & He' & Hlim').
  destruct Hlim as (L1 & _ & _ & _ & _ & L6 & _), Hlim' as (L1' & _ & _ & _ & _ & L6' & _).
  destruct (ww_room _ Hw) as (_ & B1 & B2 & B3). rewrite He in *.
  split; [|by split]. split; try done.
  - by eapply header_reset_waiting.
  - destruct Hc. by split.
  - split; [exact Hr'|].
    change (m_content (sp_sub (ws_content (ws_reset_frame (Some WS_HEADER) (ws_event e w4)))))
      with (clear (m_content (sp_sub (ws_content w4)))).1.
    rewrite He', L6', L6, L1', L1. by split_and!.
Qed.

(** The header of a whole message, as a client prepares it. *)
Definition client_header (op : Z) (key data : bytes) : FrameHeader :=
  prepareHeader true op (zlen data) true key fh_init.

Definition client_frame (op : Z) (key data : bytes) : bytes := masked_frame (client_header op key data) data.

Definition message_ok (op : Z) (key data : bytes) : Prop :=
  (op = OPCODE_TEXT \/ op = OPCODE_BINARY) /\ zlen key = 4 /\ 0 < zlen data <= 125.

Lemma client_header_valid op key data : message_ok op key data -> header_valid (client_header op key data).
Proof. intros (Hop & Hk & Hd). split; try done; cbn; [|lia]. by destruct Hop as [-> | ->]; auto. Qed.

(** The event of a message and what the application reads in it. *)
Definition event_message (e : WsEvent M) : option (Z * bytes) :=
  match e with
  | onWebSocketTextFrameReceived c => Some (OPCODE_TEXT, bc_contents c)
  | onWebSocketBinaryDataFrameReceived c => Some (OPCODE_BINARY, bc_contents c)
  | _ => None
  end.

Lemma ws_message (p : Parser (WsServer M S)) op key data :
  ws_open (pr_impl p) -> message_ok op key data -> 2 <= m_maxTTL p ->
  exists p' e, pr_write (ParserImpl0 := ws_protocol now) (client_frame op key data) p
      = Ret (p', Some (zlen (client_frame op key data))) /\
    ws_events (pr_impl p') = ws_events (pr_impl p) ++ [e] /\ event_message e = Some (op, data) /\
    ws_open (pr_impl p') /\ m_maxTTL p' = m_maxTTL p.
Proof.
  intros Ho Hmsg Httl. pose proof Ho as (Hw & Hf & He). pose proof Hmsg as (Hop & Hk & Hd).
  destruct (ws_frame_read p (client_header op key data) data) as (w4 & Hgot & Hret & _); try done; try lia.
  { by apply client_header_valid. }
  { left. unfold ws_type. rewrite Hf. by destruct Hop as [-> | ->]. }
  assert (frameType w4 = op) as Ht.
  { rewrite (wg_type _ _ _ _ Hgot). unfold ws_type. by rewrite Hf. }
  set (content := m_content (sp_sub (ws_content w4))).
  set (e := if op =? OPCODE_TEXT then onWebSocketTextFrameReceived content else onWebSocketBinaryDataFrameReceived content).
  assert (changeToNextParserFromWebSocketFrameContent now w4 = Ret (ws_reset_frame (Some WS_HEADER) (ws_event e w4), true)) as Hn.
  { unfold changeToNextParserFromWebSocketFrameContent. rewrite (wg_fin _ _ _ _ Hgot). cbn [m_fin client_header prepareHeader fh_set_state fh_set_key fh_set_second fh_set_first].
    unfold callOnFinalFragmentReceived. rewrite Ht. unfold e. by destruct Hop as [-> | ->]. }
  exists (pr_set_impl (ws_reset_frame (Some WS_HEADER) (ws_event e w4)) p), e.
  split; [by apply (Hret _ Hn)|]. split; [cbn; by rewrite (wg_events _ _ _ _ Hgot)|]. split; [|split; [by eapply ws_reset_open|done]].
  pose proof (wg_data _ _ _ _ Hgot) as Hdata. rewrite He in Hdata. cbn [app] in Hdata. fold content in Hdata.
  unfold e. destruct Hop as [-> | ->]; cbn; by rewrite Hdata.
Qed.
End Messages.

(** ** Messages that are sent *)

(** A reading of unmasked frames written from the format: the FIN bit, the
    opcode, the payload and what follows. *)
Definition be_value (l : bytes) : Z := fold_left (fun a b => a * 256 + b) l 0.

Definition frame_decode (w : bytes) : option (bool * Z * bytes * bytes) :=
  match w with
  | b0 :: b1 :: r =>
      let '(ext, len) :=
        if b1 <? 126 then (0, b1)
        else if b1 =? 126 then (2, be_value (ztake 2 r)) else (8, be_value (ztake 8 r)) in
      let r := zdrop ext r in
      if (b1 >=? 128) || (zlen r <? len) then None
      else Some (128 <=? b0, b0 mod 16, ztake len r, zdrop len r)
  | _ => None
  end.

(** A message: frames up to one with FIN, at the end of the bytes; the first
    has the opcode of the message, the others the opcode of a continuation. *)
Fixpoint message_decode (fuel : nat) (w : bytes) : option (Z * bytes) :=
  match fuel with
  | O => None
  | S fuel =>
      match frame_decode w with
      | Some (true, op, payload, []) => Some (op, payload)
      | Some (false, op, payload, rest) =>
          match message_decode fuel rest with
          | Some (0, data) => Some (op, payload ++ data)
          | _ => None
          end
      | _ => None
      end
  end.

Section Sending.
Context {M : Type} `{Container M} `{!MMapFile M} {S : Type} `{SinkSpec S}.

(** The header [sendWebSocketData] prepares for a frame. *)
Definition frame_header_of (fin : bool) (op len : Z) : FrameHeader :=
  prepareHeader fin op len false [0; 0; 0; 0] fh_init.

Lemma sent_first_byte (fin : bool) op :
  0 <= op < 16 ->
  (128 <=? header_firstByte (frame_header_of fin op 0)) = fin /\
  header_firstByte (frame_header_of fin op 0) mod 16 = op.
Proof.
  intros Hop.
  assert (Bool.eqb (128 <=? header_firstByte (frame_header_of fin op 0)) fin &&
    (header_firstByte (frame_header_of fin op 0) mod 16 =? op) = true) as Hb.
  { apply (bounded_forall 16 (fun op => Bool.eqb (128 <=? header_firstByte (frame_header_of fin op 0)) fin &&
      (header_firstByte (frame_header_of fin op 0) mod 16 =? op))); [by destruct fin|lia]. }
  apply andb_prop in Hb as [Hb1 Hb2]. apply eqb_prop in Hb1. split; [done|lia].
Qed.

Lemma frame_decode_sent fin op payload rest :
  0 <= op < 16 -> zlen payload <= 65535 ->
  frame_decode (header_bytes (frame_header_of fin op (zlen payload)) ++ payload ++ rest) =
    Some (fin, op, payload, rest) /\
  zlen (header_bytes (frame_header_of fin op (zlen payload))) <= 4.
Proof.
  intros Hop Hlen. pose proof (zlen_nonneg payload). pose proof (zlen_nonneg rest).
  destruct (sent_first_byte fin op Hop) as [Hf Ho].
  unfold header_bytes, header_secondByte.
  change (header_firstByte (frame_header_of fin op (zlen payload))) with (header_firstByte (frame_header_of fin op 0)).
  change (m_masked (frame_header_of fin op (zlen payload))) with false.
  assert (payloadLenField (frame_header_of fin op (zlen payload)) =
    if zlen payload <=? 125 then zlen payload else 126) as ->.
  { unfold payloadLenField. cbn [frame_header_of prepareHeader fh_set_state fh_set_key fh_set_second m_payloadLength].
    by replace (zlen payload <=? 65535) with true by lia. }
  assert (zlen (payload ++ rest) = zlen payload + zlen rest) as Hpr by apply zlen_app.
  destruct (Z.leb_spec (zlen payload) 125) as [Hs|Hs].
  - replace (zlen payload =? 126) with false by lia. replace (zlen payload =? 127) with false by lia.
    destruct (second_byte_fields false (zlen payload)) as [_ E]; [lia|].
    change (Z.lor (flag false 128) ?x) with x in *. assert (Z.land (zlen payload) 127 = zlen payload) as ->.
    { rewrite <- E at 2. by rewrite <- Z.land_assoc. }
    cbn [app]. split; [|done]. unfold frame_decode. replace (zlen payload <? 126) with true by lia.
    rewrite (zdrop_le0 0) by lia. rewrite Hpr. replace (zlen payload >=? 128) with false by lia.
    replace (_ <? zlen payload) with false by lia. cbn [orb]. rewrite Hf, Ho.
    by rewrite ztake_app_le, ztake_ge, zdrop_app_le, zdrop_ge by lia.
  - change (126 =? 126) with true. cbn iota.
    cbn [be_bytes app frame_header_of prepareHeader fh_set_state fh_set_key fh_set_second m_payloadLength].
    split; [|done]. unfold frame_decode. change (Z.lor (flag false 128) (Z.land 126 127)) with 126. cbn [Z.ltb Z.eqb Z.compare Pos.compare Pos.compare_cont Pos.eqb].
    set (hi := (zlen payload / 256) mod 256). set (lo := zlen payload mod 256).
    change (ztake 2 (hi :: lo :: payload ++ rest)) with [hi; lo].
    change (zdrop 2 (hi :: lo :: payload ++ rest)) with (payload ++ rest).
    assert (be_value [hi; lo] = zlen payload) as ->.
    { unfold be_value, hi, lo. cbn [fold_left]. rewrite (Z.mod_small (zlen payload / 256)).
      - pose proof (Z.div_mod (zlen payload) 256). lia.
      - split; [apply Z.div_pos; lia|apply Z.div_lt_upper_bound; lia]. }
    rewrite Hpr. change (126 >=? 128) with false. replace (_ <? zlen payload) with false by lia. cbn [orb].
    rewrite Hf, Ho. by rewrite ztake_app_le, ztake_ge, zdrop_app_le, zdrop_ge by lia.
Qed.

(** The content of a frame goes out as it is. *)
Lemma content_stream_ok piece (s : S) acc :
  zlen piece <= 65535 -> sink_rep s acc -> zlen piece <= sink_room s ->
  exists c r s', Container.append piece (bc_new (M := M)) = Ret (c, r) /\
    fcontent_streamToUpstream (fcontent_set_content c fcontent_init) s = Ret (s', true) /\
    sink_rep s' (acc ++ piece) /\ sink_room s - zlen piece <= sink_room s'.
Proof.
  intros Hl Hrep Hroom. pose proof (zlen_nonneg piece).
  assert (exists c r, Container.append piece (bc_new (M := M)) = Ret (c, r) /\ buffer_ready c /\ bc_contents c = piece)
    as (c & r & Ha & Hr & Hc).
  { destruct bc_new_rep as (Hr & _). destruct piece as [|b piece]; [by exists bc_new, None|].
    destruct (append_ready (M := M) bc_new (b :: piece)) as (c & Ha & Hrc & Hc & _);
      [done|done|change (zlen (bc_contents bc_new)) with 0; cbn [bc_new bc_base base_init m_maxSize m_maxChunks];
        unfold SIZE_MAX, SIZE_MOD, blockSize, KB_MULT; lia..|].
    by exists c, (Some (zlen (b :: piece))). }
  destruct (appendTo_all c s acc) as (s' & Hs & Hrep' & Hroom'); [apply (br_ok _ Hr)|done| |].
  { change (contents c) with (bc_contents c). by rewrite Hc. }
  change (contents c) with (bc_contents c) in *. rewrite Hc in *.
  exists c, r, s'. split_and!; try done. unfold fcontent_streamToUpstream.
  cbn [fcontent_set_content m_content]. rewrite Hs. cbn [mbind outcome_bind csize bc_container].
  rewrite bc_size_ok, Hc by apply (br_ok _ Hr). by rewrite Z.eqb_refl.
Qed.

(** The bytes a message of [n] bytes may take, with a header of up to 4 bytes
    per frame. *)
Definition wire_room (n : Z) : Z := n + 4 * (n / 65535 + 1).

Lemma send_loop_ok fuel data k mode (s : S) acc :
  0 <= k -> k < zlen data \/ k = 0 -> (zlen data - k) / 65535 < Z.of_nat fuel -> 0 <= mode < 16 ->
  sink_rep s acc -> wire_room (zlen data - k) <= sink_room s ->
  exists s' out, sendWebSocketData_loop (M := M) fuel data k mode s = Ret (s', true) /\
    sink_rep s' (acc ++ out) /\
    message_decode fuel out = Some (if k =? 0 then mode else OPCODE_CONTINUATION, zdrop k data).
Proof.
  revert k s acc. induction fuel as [|fuel IH]; intros k s acc Hk Hlt Hf Hmode Hrep Hroom.
  { pose proof (zlen_nonneg data). assert (0 <= (zlen data - k) / 65535) by (apply Z.div_pos; lia). lia. }
  pose proof (zlen_nonneg data). unfold wire_room in *. cbn [sendWebSocketData_loop].
  set (n := zlen data) in *. set (fs := if n - k >? 65535 then 65535 else n - k) in *.
  set (op := if k =? 0 then mode else OPCODE_CONTINUATION).
  assert (0 <= fs <= 65535 /\ fs <= n - k) as [Hfs Hfsn] by (unfold fs; case_match; lia).
  assert (zlen (slice k fs data) = fs) as Hsl by (rewrite zlen_slice; lia).
  assert (0 <= (n - k) / 65535) by (apply Z.div_pos; lia).
  assert (0 <= op < 16) as Hop by (unfold op, OPCODE_CONTINUATION; case_match; lia).
  fold (frame_header_of (k + fs >=? n) op fs). set (h := frame_header_of (k + fs >=? n) op fs).
  pose proof (fun rest => frame_decode_sent (k + fs >=? n) op (slice k fs data) rest Hop) as Hdec.
  rewrite Hsl in Hdec. fold h in Hdec. destruct (Hdec []) as [_ Hhl]; [lia|].
  destruct (header_stream_ok h s acc) as (s1 & -> & Hrep1 & Hroom1); [done|lia|].
  cbn [mbind outcome_bind negb].
  destruct (content_stream_ok (slice k fs data) s1 (acc ++ header_bytes h)) as (c & r & s2 & -> & Hs2 & Hrep2 & Hroom2);
    [lia|done|lia|].
  cbn [mbind outcome_bind]. rewrite Hs2. cbn [mbind outcome_bind negb]. rewrite <- app_assoc in Hrep2.
  destruct (Z.ltb_spec (k + fs) n) as [Hmore|Hlast].
  - assert (fs = 65535) as Efs by (unfold fs in *; destruct (Z.gtb_spec (n - k) 65535); lia).
    assert ((n - k) / 65535 = (n - (k + fs)) / 65535 + 1) as Hdiv.
    { rewrite Efs. replace (n - k) with (n - (k + 65535) + 1 * 65535) by lia. by rewrite Z.div_add by lia. }
    destruct (IH (k + fs) s2 (acc ++ header_bytes h ++ slice k fs data)) as (s3 & out & Hl3 & Hrep3 & Hd3); try done; try lia.
    exists s3, (header_bytes h ++ slice k fs data ++ out). split; [done|]. split; [by rewrite !app_assoc in *|].
    cbn [message_decode]. destruct (Hdec out) as [-> _]; [lia|]. replace (k + fs >=? n) with false by lia.
    rewrite Hd3. replace (k + fs =? 0) with false by lia. cbn [OPCODE_CONTINUATION]. fold op.
    pose proof (ztake_zdrop fs (zdrop k data)) as Hz. rewrite zdrop_zdrop in Hz by lia. by rewrite <- Hz.
  - assert (k + fs = n) as E by lia. exists s2, (header_bytes h ++ slice k fs data). split; [done|]. split; [done|].
    cbn [message_decode]. destruct (Hdec []) as [Hd _]; [lia|]. rewrite app_nil_r in Hd. rewrite Hd.
    replace (k + fs >=? n) with true by lia. fold op. do 2 f_equal. unfold slice. apply ztake_ge.
    rewrite zlen_zdrop. fold n. lia.
Qed.
End Sending.

(** ** UTF-8 *)

(** The encoding of a code point. *)
Definition utf8_encode (cp : Z) : bytes :=
  if cp <? 128 then [cp]
  else if cp <? 2048 then [192 + cp / 64; 128 + cp mod 64]
  else if cp <? 65536 then [224 + cp / 4096; 128 + cp / 64 mod 64; 128 + cp mod 64]
  else [240 + cp / 262144; 128 + cp / 4096 mod 64; 128 + cp / 64 mod 64; 128 + cp mod 64].

Definition scalar_value (cp : Z) : Prop := 0 <= cp <= 1114111 /\ (cp < 55296 \/ 57343 < cp).

(** The validation as a pass over the bytes. *)
Fixpoint utf8_scan (remaining cp : Z) (l : bytes) : bool :=
  match l with
  | [] => true
  | b :: l =>
      match utf8_step b remaining cp with
      | Some (remaining, cp) => utf8_scan remaining cp l
      | None => false
      end
  end.

Section Utf8.
Context {M : Type} `{Container M} `{!MMapFile M}.

Lemma validate_loop_spec (c : B_Chunks M) n i remaining cp :
  buffer_ready c -> 0 <= i -> i + Z.of_nat n = zlen (bc_contents c) ->
  validateUtf8_loop n i remaining cp c = Ret (utf8_scan remaining cp (zdrop i (bc_contents c))).
Proof.
  intros Hr. revert i remaining cp. induction n as [|n IH]; intros i remaining cp Hi Hn.
  { cbn. by rewrite zdrop_ge by lia. }
  cbn [validateUtf8_loop]. pose proof (br_ok _ Hr) as Hok.
  rewrite (copyOut_spec c 1 i) by (try exact Hok; change (contents c) with (bc_contents c); unfold SIZE_MAX, SIZE_MOD; lia).
  change (contents c) with (bc_contents c). cbn [mbind outcome_bind]. unfold slice.
  destruct (zdrop i (bc_contents c)) as [|b l] eqn:E.
  { apply (f_equal zlen) in E. rewrite zlen_zdrop in E. change (zlen []) with 0 in E. lia. }
  change (ztake 1 (b :: l)) with [b]. cbn [utf8_scan].
  assert (zdrop (i + 1) (bc_contents c) = l) as El.
  { rewrite <- (zdrop_zdrop 1 i) by lia. by rewrite E. }
  destruct (utf8_step b remaining cp) as [[r' cp']|]; [|done]. rewrite IH by lia. by rewrite El.
Qed.

Lemma validate_spec (f : FrameContent M) :
  buffer_ready (m_content f) ->
  validateUtf8Payload f = Ret (utf8_scan 0 0 (bc_contents (m_content f))).
Proof.
  intros Hr. unfold validateUtf8Payload. cbn [csize bc_container]. rewrite bc_size_ok by apply (br_ok _ Hr).
  pose proof (zlen_nonneg (bc_contents (m_content f))).
  rewrite validate_loop_spec by (try done; lia). by rewrite zdrop_le0 by lia.
Qed.
End Utf8.

(** Between characters the code point of the last one is not read. *)
Lemma utf8_scan_cp l cp cp' : utf8_scan 0 cp l = utf8_scan 0 cp' l.
Proof.
  revert cp cp'. induction l as [|b l IH]; intros cp cp'; [done|]. cbn [utf8_scan]. unfold utf8_step.
  cbn [Z.eqb]. destruct (_ =? 0); [apply IH|]. by repeat case_match.
Qed.

(** Lead and continuation bytes. *)
Lemma utf8_lead2 x cp : 0 <= x < 32 -> utf8_step (192 + x) 0 cp = Some (1, x).
Proof.
  intros Hx. unfold utf8_step. cbn [Z.eqb].
  assert (negb (Z.land (192 + x) 128 =? 0) && (Z.land (192 + x) 224 =? 192) && (Z.land (192 + x) 31 =? x) = true) as Hb.
  { apply (bounded_forall 32 (fun x => negb (Z.land (192 + x) 128 =? 0) && (Z.land (192 + x) 224 =? 192) &&
      (Z.land (192 + x) 31 =? x))); [done|lia]. }
  apply andb_prop in Hb as [Hb Hb3]. apply andb_prop in Hb as [Hb1 Hb2]. apply negb_true_iff in Hb1.
  rewrite Hb1, Hb2. by apply Z.eqb_eq in Hb3 as ->.
Qed.

Lemma utf8_lead3 x cp : 0 <= x < 16 -> utf8_step (224 + x) 0 cp = Some (2, x).
Proof.
  intros Hx. unfold utf8_step. cbn [Z.eqb].
  assert (negb (Z.land (224 + x) 128 =? 0) && negb (Z.land (224 + x) 224 =? 192) &&
    (Z.land (224 + x) 240 =? 224) && (Z.land (224 + x) 15 =? x) = true) as Hb.
  { apply (bounded_forall 16 (fun x => negb (Z.land (224 + x) 128 =? 0) && negb (Z.land (224 + x) 224 =? 192) &&
      (Z.land (224 + x) 240 =? 224) && (Z.land (224 + x) 15 =? x))); [done|lia]. }
  repeat apply andb_prop in Hb as [Hb ?]. repeat match goal with E : negb _ = true |- _ => apply negb_true_iff in E; rewrite E end.
  repeat match goal with E : (_ =? _) = true |- _ => apply Z.eqb_eq in E; rewrite E end. done.
Qed.

Lemma utf8_lead4 x cp : 0 <= x < 8 -> utf8_step (240 + x) 0 cp = Some (3, x).
Proof.
  intros Hx. unfold utf8_step. cbn [Z.eqb].
  assert (negb (Z.land (240 + x) 128 =? 0) && negb (Z.land (240 + x) 224 =? 192) &&
    negb (Z.land (240 + x) 240 =? 224) && (Z.land (240 + x) 248 =? 240) && (Z.land (240 + x) 7 =? x) = true) as Hb.
  { apply (bounded_forall 8 (fun x => negb (Z.land (240 + x) 128 =? 0) && negb (Z.land (240 + x) 224 =? 192) &&
      negb (Z.land (240 + x) 240 =? 224) && (Z.land (240 + x) 248 =? 240) && (Z.land (240 + x) 7 =? x))); [done|lia]. }
  repeat apply andb_prop in Hb as [Hb ?]. repeat match goal with E : negb _ = true |- _ => apply negb_true_iff in E; rewrite E end.
  repeat match goal with E : (_ =? _) = true |- _ => apply Z.eqb_eq in E; rewrite E end. done.
Qed.

Lemma utf8_next y r cp :
  0 <= y < 64 -> 1 <= r -> 0 <= cp < 32768 -> r <> 1 \/ scalar_value (cp * 64 + y) ->
  utf8_step (128 + y) r cp = Some (r - 1, cp * 64 + y).
Proof.
  intros Hy Hr Hcp Hlast. unfold utf8_step. replace (r =? 0) with false by lia.
  assert ((Z.land (128 + y) 192 =? 128) && (Z.land (128 + y) 63 =? y) = true) as Hb.
  { apply (bounded_forall 64 (fun y => (Z.land (128 + y) 192 =? 128) && (Z.land (128 + y) 63 =? y))); [done|lia]. }
  apply andb_prop in Hb as [Hb1 Hb2]. apply Z.eqb_eq in Hb2. unfold isValidUtf8Continuation. rewrite Hb1, Hb2. cbn [negb].
  assert (Z.lor (wrapw 32 (Z.shiftl cp 6)) y = cp * 64 + y) as ->.
  { unfold wrapw. rewrite Z.mod_small; [by apply (lor_shiftl_add cp y 6)|]. rewrite Z.shiftl_mul_pow2 by done. lia. }
  destruct (Z.eqb_spec (r - 1) 0) as [E|E]; [|done]. cbn [andb].
  destruct Hlast as [|(Hb & Hs)]; [lia|].
  replace (_ >? 1114111) with false by lia. cbn [orb].
  replace ((cp * 64 + y >=? 55296) && (cp * 64 + y <=? 57343)) with false by lia. done.
Qed.

Lemma utf8_scan_encode v cp rest :
  scalar_value v -> exists cp', utf8_scan 0 cp (utf8_encode v ++ rest) = utf8_scan 0 cp' rest.
Proof.
  intros Hv. pose proof Hv as [Hr _]. unfold utf8_encode.
  pose proof (Z.div_mod v 64). pose proof (Z.mod_pos_bound v 64).
  pose proof (Z.div_mod (v / 64) 64). pose proof (Z.mod_pos_bound (v / 64) 64).
  pose proof (Z.div_mod (v / 64 / 64) 64). pose proof (Z.mod_pos_bound (v / 64 / 64) 64).
  assert (v / 4096 = v / 64 / 64) as -> by (by rewrite Z.div_div).
  assert (v / 262144 = v / 64 / 64 / 64) as -> by (by rewrite !Z.div_div).
  set (a := v / 64) in *. set (b := a / 64) in *. set (c := b / 64) in *.
  destruct (Z.ltb_spec v 128); [|destruct (Z.ltb_spec v 2048); [|destruct (Z.ltb_spec v 65536)]]; cbn [app utf8_scan].
  - exists cp. unfold utf8_step. cbn [Z.eqb].
    assert ((Z.land v 128 =? 0) = true) as ->; [|done].
    apply (bounded_forall 128 (fun v => Z.land v 128 =? 0)); [done|lia].
  - rewrite utf8_lead2 by lia. rewrite utf8_next; [by eexists|lia..|]. right. by replace (a * 64 + v mod 64) with v by lia.
  - rewrite utf8_lead3 by lia. rewrite utf8_next; [|lia..]. rewrite utf8_next; [by eexists|lia..|].
    right. by replace ((b * 64 + a mod 64) * 64 + v mod 64) with v by lia.
  - rewrite utf8_lead4 by lia. rewrite utf8_next; [|lia..]. rewrite utf8_next; [|lia..].
    rewrite utf8_next; [by eexists|lia..|].
    right. by replace (((c * 64 + b mod 64) * 64 + a mod 64) * 64 + v mod 64) with v by lia.
Qed.

(** ** Extended lengths *)
Section Extended.
Context {M : Type} `{Container M} `{!MMapFile M}.
Implicit Types p : SubParser M FrameHeader.

(** The bytes of the extended length of a data frame of 126 bytes or more. *)
Definition extended_size (h : FrameHeader) : Z := if m_payloadLength h <=? 65535 then 2 else 8.

Lemma parse_extended_second h h0 :
  m_masked h = true -> 126 <= m_payloadLength h -> isControlFrame h0 = false ->
  parseSecondByte (header_secondByte h) h0 =
    (fh_set_second true (if m_payloadLength h <=? 65535 then 126 else 127) h0, true).
Proof.
  intros Hm Hl Hc. unfold header_secondByte, payloadLenField.
  replace (m_payloadLength h <=? 125) with false by lia. rewrite Hm.
  destruct (second_byte_fields true (if m_payloadLength h <=? 65535 then 126 else 127)) as [E1 E2]; [case_match; lia|].
  unfold parseSecondByte. rewrite E1, E2.
  change (isControlFrame (fh_set_second ?m ?l h0)) with (isControlFrame h0). rewrite Hc.
  cbn [fh_set_second m_masked negb andb]. by rewrite andb_false_r.
Qed.

Lemma extended_first_piece p h rest :
  header_waiting p -> m_rsv1 h = false /\ m_rsv2 h = false /\ m_rsv3 h = false -> In (m_opcode h) [0; 1; 2] ->
  m_masked h = true -> 126 <= m_payloadLength h ->
  exists p1, writeIntoSubParser (header_bytes h ++ rest) p = Ret (p1, Some 2) /\
    piece_ready 8 (extended_size h) p1 /\ m_extendedLengthBytes (sp_sub p1) = extended_size h /\
    (m_parseState (sp_sub p1) = EXTENDED_LENGTH_16 \/ m_parseState (sp_sub p1) = EXTENDED_LENGTH_64).
Proof.
  intros [Hp Hst] Hrsv Hop Hm Hl.
  assert (exists tail, header_bytes h ++ rest = header_firstByte h :: header_secondByte h :: tail) as [tail ->] by (by eexists).
  destruct (piece_step 8 2 p (header_firstByte h :: header_secondByte h :: tail))
    as (q & Hw & Hout & _ & Hsub & Hmode & _ & Hnext); [done| |].
  { pose proof (zlen_nonneg tail). rewrite !zlen_cons. lia. }
  rewrite Hw. unfold run_parse. cbn [parse frame_header]. unfold fh_parse. rewrite Hsub, Hst, Hout.
  change (ztake 2 (?a :: ?b :: ?t)) with [a; b]. cbn [mbind outcome_bind]. unfold parse_first2.
  assert (header_valid (fh_set_key [0; 0; 0; 0] (fh_set_second true 0 h))) as Hv.
  { split; try done; cbn in *; [tauto|]. destruct Hop as [<-|[<-|[<-|[]]]]; lia. }
  pose proof (parse_sent_first _ (sp_sub q) Hv) as Hfirst.
  change (header_firstByte (fh_set_key [0; 0; 0; 0] (fh_set_second true 0 h))) with (header_firstByte h) in Hfirst.
  rewrite Hfirst. cbn [negb].
  change (m_fin (fh_set_key _ (fh_set_second true 0 h))) with (m_fin h).
  change (m_opcode (fh_set_key _ (fh_set_second true 0 h))) with (m_opcode h).
  rewrite parse_extended_second; [|done..|].
  2: { unfold isControlFrame. cbn. by destruct Hop as [<-|[<-|[<-|[]]]]. }
  cbn [negb fh_set_second m_payloadLength]. unfold extended_size.
  destruct (m_payloadLength h <=? 65535); cbn [Z.eqb Pos.eqb mbind outcome_bind].
  all: eexists; split; [done|]; split; [by apply Hnext|]; split; [done|auto].
Qed.

Lemma extended_piece p h buf :
  piece_ready 8 (extended_size h) p -> m_extendedLengthBytes (sp_sub p) = extended_size h ->
  m_parseState (sp_sub p) = EXTENDED_LENGTH_16 \/ m_parseState (sp_sub p) = EXTENDED_LENGTH_64 ->
  extended_size h <= zlen buf -> writeIntoSubParser buf p = Undef.
Proof.
  intros Hp Hext Hst Hl.
  destruct (piece_step 8 (extended_size h) p buf) as (q & Hw & Hout & _ & Hsub & _); [done| |].
  { unfold extended_size in *. case_match; lia. }
  rewrite Hw. unfold run_parse. cbn [parse frame_header]. unfold fh_parse. rewrite Hsub.
  assert (parseExtendedLength q = Undef) as Hu.
  { unfold parseExtendedLength. rewrite Hsub, Hext. unfold extended_size in *.
    assert (zlen (ztake (if m_payloadLength h <=? 65535 then 2 else 8) buf) = if m_payloadLength h <=? 65535 then 2 else 8) as Hd.
    { rewrite zlen_ztake. case_match; lia. }
    destruct (m_payloadLength h <=? 65535); cbn [Z.eqb Pos.eqb]; rewrite Hout; cbn [mbind outcome_bind]; rewrite Hd; cbn [Z.eqb Pos.eqb negb].
    - destruct (ztake 2 buf) as [|x0 [|x1 [|x2 l]]]; try done. rewrite !zlen_cons in Hd. pose proof (zlen_nonneg l). lia.
    - destruct (ztake 8 buf) as [|x0 [|x1 [|x2 [|x3 [|x4 [|x5 [|x6 [|x7 [|x8 l]]]]]]]]]; try done.
      rewrite !zlen_cons in Hd. pose proof (zlen_nonneg l). lia. }
  by destruct Hst as [-> | ->]; rewrite Hu.
Qed.
End Extended.

(** ** Properties *)

(** Messages the server receives ([HTTPv1_Server] with [FrameHeader::parse]
    and [FrameContent::parse]): a server that waits for the first frame of a
    message, given any sequence of masked text and binary messages of up to 125
    bytes, calls the application once per message, in order, each with the type
    and the unmasked bytes of the message, and waits for the next one. (The
    constructor does not set up that state: see [first_message_throws].) *)
Theorem messages_delivered {M} `{Container M} `{!MMapFile M} {S} `{Sink S} (now : Z)
    (p : Parser (WsServer M S)) (msgs : list (Z * bytes * bytes)) :
  ws_open (pr_impl p) -> 2 <= m_maxTTL p ->
  Forall (fun '(op, key, data) => message_ok op key data) msgs ->
  exists p', write_all (ParserImpl0 := ws_protocol now)
      (map (fun '(op, key, data) => client_frame op key data) msgs) p = Ret (p', true) /\
    map event_message (ws_events (pr_impl p')) =
      map event_message (ws_events (pr_impl p)) ++ map (fun '(op, key, data) => Some (op, data)) msgs /\
    ws_open (pr_impl p').
Proof.
  intros Ho Ht Hmsgs. revert p Ho Ht. induction Hmsgs as [|[[op key] data] msgs Hmsg _ IH]; intros p Ho Ht.
  { exists p. cbn [map]. rewrite app_nil_r. done. }
  destruct (ws_message now p op key data) as (p1 & e & Hw & Hev & Hmess & Ho1 & Ht1); [done..|].
  cbn [map write_all]. rewrite Hw. cbn [mbind outcome_bind has_value].
  destruct (IH p1) as (p' & Hall & Hev' & Ho'); [done|lia|].
  exists p'. split; [done|]. split; [|done]. rewrite Hev', Hev, map_app, <- app_assoc. cbn [map]. by rewrite Hmess.
Qed.

(** C22. Messages the server sends ([sendWebSocketData]): on a stream with enough
    room, data of any length goes out as a sequence of frames of at most 65535
    bytes that decodes, by the format, to exactly the data with the opcode of
    the message: the first frame carries the opcode, the others are
    continuations, and only the last one has the FIN bit. *)
Theorem sent_message_decodes {M} `{Container M} `{!MMapFile M} {S} `{SinkSpec S}
    (data : bytes) (mode : Z) (s : S) (acc : bytes) :
  0 <= mode < 16 -> sink_rep s acc -> wire_room (zlen data) <= sink_room s ->
  exists s' out fuel, sendWebSocketData (M := M) data mode s = Ret (s', true) /\
    sink_rep s' (acc ++ out) /\ message_decode fuel out = Some (mode, data).
Proof.
  intros Hmode Hrep Hroom. pose proof (zlen_nonneg data).
  destruct (send_loop_ok (M := M) (Z.to_nat (zlen data / 65535) + 1) data 0 mode s acc)
    as (s' & out & Hs & Hr & Hd); rewrite ?Z.sub_0_r; try done; try lia.
  exists s', out, (Z.to_nat (zlen data / 65535) + 1)%nat. rewrite zdrop_le0 in Hd by lia. done.
Qed.

(** The frame header ([FrameHeader::streamToUpstream], [FrameHeader::parse]):
    every valid masked header with a payload of up to 125 bytes is sent as six
    bytes, which the parser reads back in two pieces (two bytes, then the key)
    into the same flags, opcode, length and masking key, whatever follows. *)
Theorem ws_header_roundtrip {M} `{Container M} `{!MMapFile M} {S} `{SinkSpec S}
    (h : FrameHeader) (s : S) (acc rest : bytes) (p : SubParser M FrameHeader) :
  header_valid h -> m_masked h = true -> sink_rep s acc -> 6 <= sink_room s -> header_waiting p ->
  exists s' wire p1 p2, fh_streamToUpstream h s = Ret (s', true) /\ sink_rep s' (acc ++ wire) /\ zlen wire = 6 /\
    writeIntoSubParser (wire ++ rest) p = Ret (p1, Some 2) /\ m_parseStatus p1 = GET_MORE_DATA /\
    writeIntoSubParser (zdrop 2 (wire ++ rest)) p1 = Ret (p2, Some 4) /\
    m_parseStatus p2 = GOTO_NEXT_SUBPARSER /\ same_header h (sp_sub p2).
Proof.
  intros Hv Hm Hrep Hroom Hp.
  assert (zlen (header_bytes h) = 6) as Hl.
  { rewrite short_header_bytes, Hm by done. rewrite !zlen_cons, (hv_key _ Hv). done. }
  destruct (header_stream_ok h s acc) as (s' & Hs & Hr & _); [done|lia|].
  destruct (header_exchange p h rest) as (p1 & Hw1 & Hs1 & Hnext); [done..|].
  destruct (Hnext (m_parseStatus p1)) as (p2 & Hw2 & Hs2 & _ & Hsame).
  exists s', (header_bytes h), p1, p2. split_and!; try done.
  rewrite short_header_bytes, Hm by done. cbn [app].
  change (zdrop 2 (?a :: ?b :: ?l)) with l. rewrite <- Hw2. f_equal. by destruct p1.
Qed.

(** The UTF-8 check ([FrameContent::validateUtf8Payload]) accepts the
    encoding of every text of Unicode scalar values. *)
Theorem utf8_accepted {M} `{Container M} `{!MMapFile M} (f : FrameContent M) (text : list Z) :
  buffer_ready (m_content f) -> bc_contents (m_content f) = concat (map utf8_encode text) ->
  Forall scalar_value text -> validateUtf8Payload f = Ret true.
Proof.
  intros Hr Hc Htext. rewrite validate_spec, Hc by done. f_equal. clear Hc.
  generalize 0 at 2. induction Htext as [|v text Hv _ IH]; intros cp; [done|]. cbn [map concat].
  destruct (utf8_scan_encode v cp (concat (map utf8_encode text)) Hv) as [cp' ->]. apply IH.
Qed.

(** The UTF-8 check also accepts what is not UTF-8: the overlong form C0 80,
    and a text cut in the middle of a character. *)
Theorem utf8_accepts_malformed {M} `{Container M} `{!MMapFile M} (f : FrameContent M) :
  buffer_ready (m_content f) ->
  bc_contents (m_content f) = [192; 128] \/ bc_contents (m_content f) = [97; 226; 130] ->
  validateUtf8Payload f = Ret true.
Proof. intros Hr Hc. rewrite validate_spec by done. by destruct Hc as [-> | ->]. Qed.

(** The first message of a connection is an error: the flag
    [m_isFirstFrame] of the content is false until a message was completed, so
    the type of the first frame is never recorded and, when its payload is
    complete, [callOnFinalFragmentReceived] throws, whatever the frame is. *)
Theorem first_message_throws {M} `{Container M} `{!MMapFile M} {S} `{Sink S} (now : Z) (s : S)
    (h : FrameHeader) (data : bytes) :
  header_valid h -> m_masked h = true -> m_fin h = true -> m_payloadLength h = zlen data -> 0 < zlen data ->
  pr_write (ParserImpl0 := ws_protocol now) (masked_frame h data) (pr_new (ws_upgraded (M := M) s)) =
    Throw (runtime_error "The first frame should be text/binary/close/ping/pong...").
Proof.
  intros Hv Hm Hf Hl Hpos. set (p := pr_new (ws_upgraded s)).
  assert (buffer_ready (M := M) (setMaxSize 2 bc_new)) as Hr2 by (by apply buffer_ready_new).
  assert (buffer_ready (M := M) bc_new) as Hr by (by apply bc_new_rep).
  assert (ws_waiting (pr_impl p)) as Hw by (by split).
  destruct (ws_frame_read now p h data) as (w4 & Hgot & _ & Hthrow); try done; [auto|].
  apply Hthrow. unfold changeToNextParserFromWebSocketFrameContent. rewrite (wg_fin _ _ _ _ Hgot), Hf.
  unfold callOnFinalFragmentReceived. by rewrite (wg_type _ _ _ _ Hgot).
Qed.

(** Frames of 126 bytes or more cannot be received: after the two first
    bytes the parser asks for the extended length, and [parseExtendedLength]
    reads it at index 2 of an array that starts with it, past the end of the
    array. *)
Theorem extended_length_out_of_bounds {M} `{Container M} `{!MMapFile M} (p : SubParser M FrameHeader)
    (h : FrameHeader) (rest : bytes) :
  header_waiting p -> m_rsv1 h = false /\ m_rsv2 h = false /\ m_rsv3 h = false -> In (m_opcode h) [0; 1; 2] ->
  m_masked h = true -> 126 <= m_payloadLength h ->
  exists p1, writeIntoSubParser (header_bytes h ++ rest) p = Ret (p1, Some 2) /\
    writeIntoSubParser (zdrop 2 (header_bytes h ++ rest)) p1 = Undef.
Proof.
  intros Hp Hrsv Hop Hm Hl. destruct (extended_first_piece p h rest) as (p1 & Hw & Hr & Hext & Hst); [done..|].
  exists p1. split; [done|]. eapply extended_piece; [done..|].
  unfold header_bytes, payloadLenField, extended_size. rewrite Hm.
  replace (m_payloadLength h <=? 125) with false by lia. pose proof (zlen_nonneg (m_maskingKey h)). pose proof (zlen_nonneg rest).
  destruct (m_payloadLength h <=? 65535); cbn [Z.eqb Pos.eqb be_bytes app]; change (zdrop 2 (?a :: ?b :: ?l)) with l;
    rewrite !zlen_cons, !zlen_app; lia.
Qed.

(** ** Witnesses *)
#[local] Existing Instance no_files.

(** A server after its content was reset once. *)
Definition ws_sample : WsServer B_MEM StreamableString :=
  mkWsServer (Some WS_HEADER) OPCODE_CONTINUATION fh_new
    (sp_set_sub (fcontent_reset fcontent_init) fcontent_new) 0 ss_new [].

Lemma ws_sample_open : ws_open ws_sample.
Proof.
  assert (buffer_ready (M := B_MEM) (setMaxSize 2 bc_new)) as Hr2 by (by apply buffer_ready_new).
  assert (buffer_ready (M := B_MEM) bc_new) as Hr by (by apply bc_new_rep).
  by split; [split|].
Qed.

Lemma header_waiting_new : header_waiting (M := B_MEM) fh_new.
Proof. by split; [split|]. Qed.

Lemma ss_new_rep : sink_rep ss_new [].
Proof. by split. Qed.

Lemma messages_delivered_witness :
  exists p', write_all (ParserImpl0 := ws_protocol 0)
      [client_frame 1 [1; 2; 3; 4] (bs "hello"); client_frame 2 [9; 8; 7; 6] [0; 255]] (pr_new ws_sample)
      = Ret (p', true) /\
    map event_message (ws_events (pr_impl p')) = [Some (1, bs "hello"); Some (2, [0; 255])] /\
    ws_open (pr_impl p').
Proof.
  refine (messages_delivered 0 (pr_new ws_sample) [(1, [1; 2; 3; 4], bs "hello"); (2, [9; 8; 7; 6], [0; 255])]
    ws_sample_open _ _); [discriminate|].
  repeat constructor; cbn; discriminate.
Defined.

Lemma sent_message_decodes_witness :
  exists s' out fuel, sendWebSocketData (M := B_MEM) (bs "hello") 1 ss_new = Ret (s', true) /\
    sink_rep s' ([] ++ out) /\ message_decode fuel out = Some (1, bs "hello").
Proof.
  refine (sent_message_decodes (M := B_MEM) (bs "hello") 1 ss_new [] _ ss_new_rep _);
    [split; [discriminate|reflexivity]|discriminate].
Defined.

Lemma ws_header_roundtrip_witness :
  exists s' wire p1 p2, fh_streamToUpstream (client_header 1 [1; 2; 3; 4] (bs "hi")) ss_new = Ret (s', true) /\
    sink_rep s' ([] ++ wire) /\ zlen wire = 6 /\
    writeIntoSubParser (wire ++ [7]) (fh_new (M := B_MEM)) = Ret (p1, Some 2) /\ m_parseStatus p1 = GET_MORE_DATA /\
    writeIntoSubParser (zdrop 2 (wire ++ [7])) p1 = Ret (p2, Some 4) /\
    m_parseStatus p2 = GOTO_NEXT_SUBPARSER /\ same_header (client_header 1 [1; 2; 3; 4] (bs "hi")) (sp_sub p2).
Proof.
  refine (ws_header_roundtrip (M := B_MEM) (client_header 1 [1; 2; 3; 4] (bs "hi")) ss_new [] [7] fh_new
    _ eq_refl ss_new_rep _ header_waiting_new); [|discriminate].
  apply client_header_valid. split; [by left|]. split; [reflexivity|]. split; [reflexivity|discriminate].
Defined.

Lemma utf8_accepted_witness :
  exists c r, Container.append (utf8_encode 233 ++ utf8_encode 8364) (bc_new (M := B_MEM)) = Ret (c, r) /\
    validateUtf8Payload (fcontent_set_content c fcontent_init) = Ret true.
Proof.
  eexists _, _. split; [vm_compute; reflexivity|].
  refine (utf8_accepted _ [233; 8364] _ _ _); [|reflexivity|].
  - split; try reflexivity; [unfold bc_offsets_ok, bc_ok; by vm_compute|discriminate|split; [discriminate|reflexivity]].
  - repeat constructor; discriminate.
Defined.

Lemma utf8_accepts_malformed_witness :
  exists c r, Container.append [192; 128] (bc_new (M := B_MEM)) = Ret (c, r) /\
    validateUtf8Payload (fcontent_set_content c fcontent_init) = Ret true.
Proof.
  eexists _, _. split; [vm_compute; reflexivity|].
  refine (utf8_accepts_malformed _ _ _); [|by left].
  split; try reflexivity; [unfold bc_offsets_ok, bc_ok; by vm_compute|discriminate|split; [discriminate|reflexivity]].
Defined.

Lemma first_message_throws_witness :
  pr_write (ParserImpl0 := ws_protocol 0) (client_frame 1 [1; 2; 3; 4] (bs "hello"))
    (pr_new (ws_upgraded (M := B_MEM) ss_new)) =
  Throw (runtime_error "The first frame should be text/binary/close/ping/pong...").
Proof.
  refine (first_message_throws (M := B_MEM) 0 ss_new (client_header 1 [1; 2; 3; 4] (bs "hello")) (bs "hello")
    _ eq_refl eq_refl eq_refl eq_refl).
  apply client_header_valid. split; [by left|]. split; [reflexivity|]. split; [reflexivity|discriminate].
Defined.

Lemma extended_length_out_of_bounds_witness :
  let h := client_header 2 [1; 2; 3; 4] (replicate 200 0) in
  exists p1, writeIntoSubParser (header_bytes h ++ []) (fh_new (M := B_MEM)) = Ret (p1, Some 2) /\
    writeIntoSubParser (zdrop 2 (header_bytes h ++ [])) p1 = Undef.
Proof.
  refine (extended_length_out_of_bounds (M := B_MEM) fh_new (client_header 2 [1; 2; 3; 4] (replicate 200 0)) []
    header_waiting_new _ _ eq_refl _); [by split_and!|by cbn; auto|by vm_compute].
Defined.
