(* ===== verification/HttpServer.v ===== *)
(** * The HTTP/1 server (Protocol_HTTP/httpv1_server.cpp,
      httpv1_server_headersparser.cpp, httpv1_server_response.cpp,
      httpv1_server_websockets.cpp, httpv1_server_staticcontent.cpp)

    [HTTPv1_Server] is a [Parser] whose current sub-parser goes from the request
    line to the headers, the body and back to the request line of the next
    request, or to the frames of a WebSocket connection (file WebSocket.v).  What
    it sends goes to the stream of the connection, which the state keeps beside
    the WebSocket frames.

    The virtual functions an application overrides are the class [HttpHandlers];
    they may change the whole server, and the members of the derived class, which
    are [hs_app].  SHA-1 and base64 of OpenSSL, the clock and
    the date format are parameters. *)

From S2P Require Import Prelude SafeInt Mem Streamable Container ContainerTheory BMem BChunks ChunkBuffer BRef.
From S2P Require Import SubParser Parser CLib HttpContent MimeHeader HeaderTheory Encoders UrlStream HttpVars HttpLines HttpHeaders HttpResponse WebSocket.
From Stdlib Require Import ZArith Lia.

(** [m_currentSubParser]; among the frames the state of the WebSocket part says
    which of its sub-parsers it is. *)
Inductive HttpPart := REQUEST_LINE | HEADERS | BODY | WEBSOCKET.
#[export] Instance HttpPart_eq_dec : EqDecision HttpPart.
Proof. solve_decision. Defined.

(** An entry of the log of requests. *)
Record WebLog := mkWebLog {
  remoteHost : bytes;
  timestamp : Z;
  log_requestLine : bytes;
  referer : bytes;
  log_userAgent : bytes;
  responseStatus : Z;
  bytesSent : option Z }.

Record HttpServer (M : Type) (S : Type) (O : Type) (A : Type) := mkHttpServer {
  hs_requestLine : SubParser M (RequestLine M);
  hs_headers : SubParser M MIME_Header;
  hs_content : SubParser M (Content O);
  hs_info : RequestInfo;
  hs_response : Response O;
  hs_ws : WsServer M S;
  hs_current : option HttpPart;
  connectionContinue : bool;
  prohibitConnectionUpgrade : bool;
  m_staticContentElements : list (bytes * option O);
  m_mimeTypes : list (bytes * bytes);
  m_currentFileExtension : bytes;
  hs_log : list WebLog;
  hs_app : A }.
Arguments mkHttpServer {_ _ _ _} _ _ _ _ _ _ _ _ _ _ _ _ _ _.
Arguments hs_requestLine {_ _ _ _} _.
Arguments hs_headers {_ _ _ _} _.
Arguments hs_content {_ _ _ _} _.
Arguments hs_info {_ _ _ _} _.
Arguments hs_response {_ _ _ _} _.
Arguments hs_ws {_ _ _ _} _.
Arguments hs_current {_ _ _ _} _.
Arguments connectionContinue {_ _ _ _} _.
Arguments prohibitConnectionUpgrade {_ _ _ _} _.
Arguments m_staticContentElements {_ _ _ _} _.
Arguments m_mimeTypes {_ _ _ _} _.
Arguments m_currentFileExtension {_ _ _ _} _.
Arguments hs_log {_ _ _ _} _.
Arguments hs_app {_ _ _ _} _.

(** The virtual functions of an application, and SHA-1. *)
Class HttpHandlers (M S O A : Type) := {
  onHTTPClientURIReceived : HttpServer M S O A -> outcome (HttpServer M S O A * bool);
  onHTTPClientHeadersReceived : HttpServer M S O A -> outcome (HttpServer M S O A * bool);
  onHTTPClientContentReceived : HttpServer M S O A -> outcome (HttpServer M S O A * Z);
  onWebSocketHTTPClientHeadersReceived : HttpServer M S O A -> outcome (HttpServer M S O A * bool);
  onWebSocketConnectionEstablished : HttpServer M S O A -> outcome (HttpServer M S O A) }.

Class SHA1 := { EVP_sha1 : bytes -> bytes }.

(** [Crypto::calcSHA1] gives the digest in hexadecimal. *)
Definition calcSHA1 `{SHA1} (password : bytes) : bytes := toHex (EVP_sha1 password).

Definition S_101_SWITCHING_PROTOCOLS : Z := 101.
Definition S_200_OK : Z := 200.
Definition S_400_BAD_REQUEST : Z := 400.
Definition S_404_NOT_FOUND : Z := 404.
Definition S_413_PAYLOAD_TOO_LARGE : Z := 413.
Definition S_426_UPGRADE_REQUIRED : Z := 426.
Definition S_505_HTTP_VERSION_NOT_SUPPORTED : Z := 505.

Section HttpServer.
Context {M : Type} `{Container M} `{!MMapFile M} {S : Type} `{Sink S} {O : Type} `{Sink O} `{!Source O} {A : Type}.
Context `{!ContentObjects O} `{!HttpObjects O} `{!HttpHandlers M S O A}.
Context `{RandomBytes} `{DateFormat} `{Base64BIO} `{SHA1}.
Implicit Types s : HttpServer M S O A.

(** [time(nullptr)]. *)
Variable now : Z.

Definition hs_set_line (v : SubParser M (RequestLine M)) s : HttpServer M S O A :=
    mkHttpServer v (hs_headers s) (hs_content s) (hs_info s) (hs_response s) (hs_ws s) (hs_current s)
    (connectionContinue s) (prohibitConnectionUpgrade s) (m_staticContentElements s) (m_mimeTypes s)
    (m_currentFileExtension s) (hs_log s) (hs_app s).
Definition hs_set_headers (v : SubParser M MIME_Header) s : HttpServer M S O A :=
    mkHttpServer (hs_requestLine s) v (hs_content s) (hs_info s) (hs_response s) (hs_ws s) (hs_current s)
    (connectionContinue s) (prohibitConnectionUpgrade s) (m_staticContentElements s) (m_mimeTypes s)
    (m_currentFileExtension s) (hs_log s) (hs_app s).
Definition hs_set_content (v : SubParser M (Content O)) s : HttpServer M S O A :=
    mkHttpServer (hs_requestLine s) (hs_headers s) v (hs_info s) (hs_response s) (hs_ws s) (hs_current s)
    (connectionContinue s) (prohibitConnectionUpgrade s) (m_staticContentElements s) (m_mimeTypes s)
    (m_currentFileExtension s) (hs_log s) (hs_app s).
Definition hs_set_info (v : RequestInfo) s : HttpServer M S O A :=
    mkHttpServer (hs_requestLine s) (hs_headers s) (hs_content s) v (hs_response s) (hs_ws s) (hs_current s)
    (connectionContinue s) (prohibitConnectionUpgrade s) (m_staticContentElements s) (m_mimeTypes s)
    (m_currentFileExtension s) (hs_log s) (hs_app s).
Definition hs_set_response (v : Response O) s : HttpServer M S O A :=
    mkHttpServer (hs_requestLine s) (hs_headers s) (hs_content s) (hs_info s) v (hs_ws s) (hs_current s)
    (connectionContinue s) (prohibitConnectionUpgrade s) (m_staticContentElements s) (m_mimeTypes s)
    (m_currentFileExtension s) (hs_log s) (hs_app s).
Definition hs_set_ws (v : WsServer M S) s : HttpServer M S O A :=
    mkHttpServer (hs_requestLine s) (hs_headers s) (hs_content s) (hs_info s) (hs_response s) v (hs_current s)
    (connectionContinue s) (prohibitConnectionUpgrade s) (m_staticContentElements s) (m_mimeTypes s)
    (m_currentFileExtension s) (hs_log s) (hs_app s).
Definition hs_set_current (v : option HttpPart) s : HttpServer M S O A :=
    mkHttpServer (hs_requestLine s) (hs_headers s) (hs_content s) (hs_info s) (hs_response s) (hs_ws s) v
    (connectionContinue s) (prohibitConnectionUpgrade s) (m_staticContentElements s) (m_mimeTypes s)
    (m_currentFileExtension s) (hs_log s) (hs_app s).
Definition setConnectionContinue (v : bool) s : HttpServer M S O A :=
    mkHttpServer (hs_requestLine s) (hs_headers s) (hs_content s) (hs_info s) (hs_response s) (hs_ws s)
    (hs_current s) v (prohibitConnectionUpgrade s) (m_staticContentElements s) (m_mimeTypes s)
    (m_currentFileExtension s) (hs_log s) (hs_app s).
Definition hs_set_prohibit (v : bool) s : HttpServer M S O A :=
    mkHttpServer (hs_requestLine s) (hs_headers s) (hs_content s) (hs_info s) (hs_response s) (hs_ws s)
    (hs_current s) (connectionContinue s) v (m_staticContentElements s) (m_mimeTypes s)
    (m_currentFileExtension s) (hs_log s) (hs_app s).
Definition setStaticContentElements (v : list (bytes * option O)) s : HttpServer M S O A :=
    mkHttpServer (hs_requestLine s) (hs_headers s) (hs_content s) (hs_info s) (hs_response s) (hs_ws s)
    (hs_current s) (connectionContinue s) (prohibitConnectionUpgrade s) v (m_mimeTypes s)
    (m_currentFileExtension s) (hs_log s) (hs_app s).
Definition hs_set_mime (v : list (bytes * bytes)) s : HttpServer M S O A :=
    mkHttpServer (hs_requestLine s) (hs_headers s) (hs_content s) (hs_info s) (hs_response s) (hs_ws s)
    (hs_current s) (connectionContinue s) (prohibitConnectionUpgrade s) (m_staticContentElements s) v
    (m_currentFileExtension s) (hs_log s) (hs_app s).
Definition hs_set_extension (v : bytes) s : HttpServer M S O A :=
    mkHttpServer (hs_requestLine s) (hs_headers s) (hs_content s) (hs_info s) (hs_response s) (hs_ws s)
    (hs_current s) (connectionContinue s) (prohibitConnectionUpgrade s) (m_staticContentElements s)
    (m_mimeTypes s) v (hs_log s) (hs_app s).
Definition hs_set_log (v : list WebLog) s : HttpServer M S O A :=
    mkHttpServer (hs_requestLine s) (hs_headers s) (hs_content s) (hs_info s) (hs_response s) (hs_ws s)
    (hs_current s) (connectionContinue s) (prohibitConnectionUpgrade s) (m_staticContentElements s)
    (m_mimeTypes s) (m_currentFileExtension s) v (hs_app s).

Definition hs_set_app (v : A) s : HttpServer M S O A :=
    mkHttpServer (hs_requestLine s) (hs_headers s) (hs_content s) (hs_info s) (hs_response s) (hs_ws s)
    (hs_current s) (connectionContinue s) (prohibitConnectionUpgrade s) (m_staticContentElements s)
    (m_mimeTypes s) (m_currentFileExtension s) (hs_log s) v.

(** The members of the sub-parsers. *)
Definition request_line s : RequestLine M := sp_sub (hs_requestLine s).
Definition request_headers s : MIME_Header := sp_sub (hs_headers s).
Definition request_content s : Content O := sp_sub (hs_content s).
Definition hs_on_response (f : Response O -> Response O) s : HttpServer M S O A := hs_set_response (f (hs_response s)) s.
Definition hs_on_info (f : RequestInfo -> RequestInfo) s : HttpServer M S O A := hs_set_info (f (hs_info s)) s.
Definition hs_stream s : S := ws_stream (hs_ws s).
Definition hs_set_stream (up : S) s : HttpServer M S O A := hs_set_ws (ws_set_stream up (hs_ws s)) s.

(** ** Construction *)
Definition HTTP_PRODUCT : bytes := bs "Mantids30::HTTP".
Definition setInternalProductVersion (prodName extraInfo : bytes) (versionMajor versionMinor : Z) (r : Response O) :
    outcome (Response O) :=
  setServerName (prodName ++ bs "/" ++ to_string versionMajor ++ bs "." ++ to_string versionMinor ++
    (match extraInfo with [] => [] | _ => bs " " ++ extraInfo end)) r.

Definition httpserver_new (app : A) (up : S) : outcome (HttpServer M S O A) :=
  r ← setInternalProductVersion HTTP_PRODUCT (bs "(+https://github.com/unmanarc/libMantids30)") 0 6 response_new;
  let r := rs_set_cache (conservative_cache (rs_cacheControl r)) r in
  Ret (mkHttpServer requestline_new header_new (content_new (make_object BIN)) requestinfo_new r
        (ws_set_current None (ws_upgraded up)) (Some REQUEST_LINE) true false [] loadDefaultMIMETypes [] [] app).

(** [reset()].  The assignment of a sub-parser copies the members of the derived
    class only. *)
Definition hs_reset s : HttpServer M S O A :=
  let s := hs_set_response response_new s in
  let preservedClientInfo := networkClientInfo (hs_info s) in
  let s := hs_set_line (sp_set_sub requestline_init (hs_requestLine s)) s in
  let s := hs_set_headers (sp_set_sub header_init (hs_headers s)) s in
  let s := hs_set_content (sp_set_sub content_default (hs_content s)) s in
  hs_set_info (ri_set_client preservedClientInfo requestinfo_new) s.

(** ** Static content and types of files *)
Definition addStaticContent (path : bytes) (contentElement : option O) s : HttpServer M S O A :=
  setStaticContentElements (om_set path contentElement (m_staticContentElements s)) s.
Definition verifyStaticContentExistence (path : bytes) s : bool := om_count path (m_staticContentElements s).

Definition detectContentTypeFromFilePath (sFilePath : bytes) s : HttpServer M S O A * bool :=
  match detectContentType (m_mimeTypes s) sFilePath with
  | None => (s, false)
  | Some (ext, type) =>
      let s := hs_set_extension ext s in
      match type with
      | Some type => (hs_on_response (setContentType type true) s, true)
      | None => (hs_on_response (setContentType [] false) s, false)
      end
  end.

(** [copyStreamToInternalResponseContent]. *)
Definition copyStreamToInternalResponseContent {I} `{Source I} (source : I) s : outcome (HttpServer M S O A * bool) :=
  let c := rs_content (hs_response s) in
  '(o, _) ← streamTo source (m_contentStreamableObject c);
  Ret (hs_on_response (rs_set_content (c_set_object o c)) s, true).

(** ** Request accessors *)
Definition getHeaderOption (optionName : bytes) s : bytes := getOptionRawStringByName optionName (request_headers s).
Definition bearer_token s : bytes := getAuthorizationBearer (getHeaderOption (bs "Authorization") s).
Definition getCookie (sCookieName : bytes) s : bytes :=
  match getOptionByName (bs "Cookie") (request_headers s) with
  | None => []
  | Some cookiesSubVars => getSubVar sCookieName cookiesSubVars
  end.
Definition getAllCookies s : list (bytes * bytes) :=
  match getOptionByName (bs "Cookie") (request_headers s) with
  | None => []
  | Some cookiesSubVars => m_subVar cookiesSubVars
  end.

(** [getJSONStreamerContent]: the variables of a GET, decoded, as a JSON text;
    the body of the other methods. *)
Definition getJSONStreamerContent s : outcome (option O) :=
  if bool_decide (m_requestMethod (request_line s) = bs "GET") then
    let urlData := {| ss_writeStatus := ws_init; ss_value := m_requestGETVarsRawString (request_line s) |} in
    ts ← transform UrlDecoder_new urlData (make_object JSON : O);
    '(jsonParameters, _) ← writeEOF ts.2;
    Ret (if succeed (sink_status jsonParameters) then Some jsonParameters else None)
  else
    match m_containerType (request_content s) with
    | JSON => o ← getJSONVars (request_content s); Ret (Some o)
    | _ => Ret None
    end.

(** ** The headers of the request *)
Definition parseAuthenticationHeaders s : HttpServer M S O A :=
  let auth := basicAuth (hs_info s) in
  let s := hs_on_info (ri_set_auth (mkBasicAuth (ba_username auth) (ba_password auth) false)) s in
  if negb (header_exist (bs "Authorization") (request_headers s)) then s
  else
    let authHeader := getOptionValueStringByName (bs "Authorization") (request_headers s) in
    hs_on_info (fun i => (parseBasicAuth authHeader i).1) s.

Definition parseUserAgent s : HttpServer M S O A :=
  if header_exist (bs "User-Agent") (request_headers s) then hs_on_info (ri_set_agent (getHeaderOption (bs "User-Agent") s)) s
  else s.

Definition parseAllClientHeaders s : HttpServer M S O A :=
  let s := hs_on_info (parseHostHeader (getOptionValueStringByName (bs "HOST") (request_headers s))) s in
  parseUserAgent (parseAuthenticationHeaders s).

Definition validateHTTPv11Requirements s : HttpServer M S O A * bool :=
  if (m_minorVersion (rl_httpVersion (request_line s)) >=? 1) && bool_decide (virtualHost (hs_info s) = [])
  then (hs_on_response (set_code S_400_BAD_REQUEST) s, false)
  else (s, true).

(** The type of container a Content-Type asks for. *)
Definition container_for (contentType : bytes) : ContainerType :=
  if icontains contentType (bs "multipart/form-data") then MIME
  else if icontains contentType (bs "application/x-www-form-urlencoded") then URL
  else if icontains contentType (bs "application/json") then JSON
  else BIN.

Definition set_container (contentType : bytes) s : outcome (HttpServer M S O A) :=
  let p := hs_content s in
  let c := setContainerType (container_for contentType) (sp_sub p) in
  match container_for contentType with
  | MIME =>
      o ← getMultiPartVars c;
      match getOptionByName (bs "Content-Type") (request_headers s) with
      | None => Undef
      | Some option =>
          Ret (hs_set_content (sp_set_sub (c_set_object (set_boundary (getSubVar (bs "boundary") option) o) c) p) s)
      end
  | _ => Ret (hs_set_content (sp_set_sub c p) s)
  end.

(** The server, the content length, and whether the request can be received. *)
Definition setupContentHandling s : outcome (HttpServer M S O A * Z * bool) :=
  let s := hs_set_content (setCurrentSize 0 (hs_content s)).1 s in
  let contentLength := (getOptionAsUINT64 (bs "Content-Length") 10 (request_headers s)).1 in
  let contentType := getOptionValueStringByName (bs "Content-Type") (request_headers s) in
  if contentLength =? 0 then Ret (s, contentLength, true)
  else
    let p := setTransmissionMode TM_CONTENT_LENGTH (hs_content s) in
    let '(p, ok) := setCurrentSize contentLength p in
    let s := hs_set_content p s in
    if negb ok then Ret (hs_on_response (set_code S_413_PAYLOAD_TOO_LARGE) s, contentLength, false)
    else s ← set_container contentType s; Ret (s, contentLength, true).

(** ** Sending the response *)
Definition fillLogInformation s : outcome WebLog :=
  addr ← remote_address (networkClientInfo (hs_info s));
  let strsize := object_size (m_contentStreamableObject (rs_content (hs_response s))) in
  Ret (mkWebLog addr now (requestline_toString (request_line s)) (getHeaderOption (bs "Referer") s)
        (getHeaderOption (bs "User-Agent") s) (m_statusCode (rs_status (hs_response s)))
        (if strsize =? SIZE_MAX then None else Some strsize)).

Definition write_log s : outcome (HttpServer M S O A) :=
  l ← fillLogInformation s; Ret (hs_set_log (hs_log s ++ [l]) s).

Definition sendHTTPHeadersResponse s : outcome (HttpServer M S O A * bool) :=
  s ← write_log s;
  h ← response_headers now (hs_response s);
  let s := hs_on_response (rs_set_headers h) s in
  '(up, ok) ← header_streamToUpstream h (hs_stream s);
  Ret (hs_set_stream up s, ok).

(** What follows the decision to keep or to close the connection. *)
Definition send_response s : outcome (HttpServer M S O A * bool) :=
  '(up, ok) ← status_streamToUpstream (rs_status (hs_response s)) (hs_stream s);
  let s := hs_set_stream up s in
  if negb ok then Ret (hs_set_current None s, false)
  else
    '(s, ok) ← sendHTTPHeadersResponse s;
    if negb ok then Ret (hs_set_current None s, false)
    else
      let c := rs_content (hs_response s) in
      '(up, streamedOK) ← content_streamToUpstream c (hs_stream s);
      let s := hs_on_response (rs_set_content (setStreamableObj None c)) (hs_set_stream up s) in
      let s := if (streamedOK : bool) then s else hs_set_current None s in
      let s := if connectionContinue s then hs_reset s else s in
      Ret (s, streamedOK).

Definition sendFullHTTPResponse s : outcome (HttpServer M S O A * bool) :=
  s ← write_log s;
  s ← (if connectionContinue s && bool_decide (getHeaderOption (bs "Connection") s <> bs "close")
       then Ret (hs_set_prohibit true (hs_set_current (Some REQUEST_LINE) s))
       else
         h ← header_replace (bs "Connection") (bs "close") (rs_headers (hs_response s));
         Ret (hs_on_response (rs_set_headers h) (hs_set_current None s)) : outcome (HttpServer M S O A));
  send_response s.

Definition refuse s : outcome (HttpServer M S O A * bool) := sendFullHTTPResponse (setConnectionContinue false s).

(** ** The upgrade to WebSocket *)
Definition WEBSOCKET_MAGIC_STRING : bytes := bs "258EAFA5-E914-47DA-95CA-C5AB0DC85B11".

Definition isWebSocketConnectionRequest s : bool :=
  iequals (getOptionValueStringByName (bs "CONNECTION") (request_headers s)) (bs "upgrade") &&
  iequals (getOptionValueStringByName (bs "UPGRADE") (request_headers s)) (bs "websocket").

Definition accept_key (clientKey : bytes) : bytes :=
  encodeToBase64 (calcSHA1 (clientKey ++ WEBSOCKET_MAGIC_STRING)) false.

(** [find_first_not_of(' ', tab)] of the first protocol of the list; a list that
    starts with blanks only is kept as it is. *)
Fixpoint skip_blanks (s : bytes) : bytes :=
  match s with
  | c :: s' => if (c =? 32) || (c =? 9) then skip_blanks s' else s
  | [] => []
  end.
Definition select_protocol (requestedProtocol : bytes) : bytes :=
  match split_at 44 requestedProtocol with
  | Some (selectedProtocol, _) =>
      match skip_blanks selectedProtocol with [] => selectedProtocol | selected => selected end
  | None => requestedProtocol
  end.

Definition add_header (name value : bytes) (h : MIME_Header) : outcome MIME_Header :=
  '(h, _) ← header_add name value h; Ret h.

Definition upgrade_headers s (clientKey : bytes) : outcome MIME_Header :=
  h ← add_header (bs "Upgrade") (bs "websocket") (rs_headers (hs_response s));
  h ← add_header (bs "Connection") (bs "Upgrade") h;
  h ← add_header (bs "Sec-WebSocket-Accept") (accept_key clientKey) h;
  match getOptionValueStringByName (bs "Sec-WebSocket-Protocol") (request_headers s) with
  | [] => Ret h
  | requestedProtocol => add_header (bs "Sec-WebSocket-Protocol") (select_protocol requestedProtocol) h
  end.

Definition setupAndSendWebSocketHeaderResponse s : outcome (HttpServer M S O A * bool) :=
  let clientKey := getOptionValueStringByName (bs "Sec-WebSocket-Key") (request_headers s) in
  if bool_decide (clientKey = []) || negb (zlen clientKey =? 24) then
    '(s, _) ← refuse (hs_on_response (set_code S_400_BAD_REQUEST) s); Ret (s, false)
  else if bool_decide (getOptionValueStringByName (bs "Sec-WebSocket-Version") (request_headers s) <> bs "13") then
    h ← add_header (bs "Sec-WebSocket-Version") (bs "13") (rs_headers (hs_response s));
    '(s, _) ← refuse (hs_on_response (fun r => set_code S_426_UPGRADE_REQUIRED (rs_set_headers h r)) s); Ret (s, false)
  else
    let s := hs_on_response (set_code S_101_SWITCHING_PROTOCOLS) s in
    h ← upgrade_headers s clientKey;
    sendHTTPHeadersResponse (hs_on_response (fun r => rs_set_immutable true (rs_set_headers h r)) s).

(** ** The change of sub-parser *)
Definition prepareServerVersionOnURI s : HttpServer M S O A * bool :=
  let version f r := rs_set_status (mkStatus (f (st_httpVersion (rs_status r))) (m_statusCode (rs_status r))
    (m_statusMessage (rs_status r))) r in
  let s := hs_on_response (version (fun v => setMinor 0 (setMajor 1 v))) s in
  let v := rl_httpVersion (request_line s) in
  if negb (m_majorVersion v =? 1) then (hs_on_response (set_code S_505_HTTP_VERSION_NOT_SUPPORTED) s, false)
  else (hs_on_response (version (setMinor (m_minorVersion v))) s, true).

Definition changeToNextParserFromClientRequestLine s : outcome (HttpServer M S O A * bool) :=
  let '(s, ok) := prepareServerVersionOnURI s in
  if negb ok then refuse s
  else
    '(s, ok) ← onHTTPClientURIReceived s;
    Ret (hs_set_current (if (ok : bool) then Some HEADERS else None) s, true).

Definition changeToNextParserFromClientContentData s : outcome (HttpServer M S O A * bool) :=
  '(s, code) ← onHTTPClientContentReceived s;
  sendFullHTTPResponse (hs_on_response (set_code code) s).

Definition upgrade s : outcome (HttpServer M S O A * bool) :=
  if prohibitConnectionUpgrade s then Ret (hs_set_current None s, false)
  else
    '(s, ok) ← onWebSocketHTTPClientHeadersReceived s;
    if negb ok then refuse s
    else
      '(s, ok) ← setupAndSendWebSocketHeaderResponse s;
      if (ok : bool) then
        s ← onWebSocketConnectionEstablished s;
        Ret (hs_set_current (Some WEBSOCKET) (hs_set_ws (ws_set_current (Some WS_HEADER) (hs_ws s)) s), true)
      else Ret (hs_set_current None s, false).

Definition changeToNextParserFromClientHeaders s : outcome (HttpServer M S O A * bool) :=
  let s := parseAllClientHeaders s in
  let '(s, ok) := validateHTTPv11Requirements s in
  if negb ok then refuse s
  else
    '(s, headerIncommingContentLength, ok) ← setupContentHandling s;
    if negb ok then refuse s
    else if isWebSocketConnectionRequest s then upgrade s
    else
      '(s, ok) ← onHTTPClientHeadersReceived s;
      if negb ok then Ret (hs_set_current None s, true)
      else if headerIncommingContentLength =? 0 then changeToNextParserFromClientContentData s
      else Ret (hs_set_current (Some BODY) s, true).

(** After a WebSocket step the current sub-parser is the one of its part. *)
Definition on_websocket s (x : outcome (WsServer M S * bool)) : outcome (HttpServer M S O A * bool) :=
  '(w, ok) ← x;
  Ret (hs_set_current (option_map (fun _ => WEBSOCKET) (ws_current w)) (hs_set_ws w s), ok).

Definition hs_changeToNextParser s : outcome (HttpServer M S O A * bool) :=
  match hs_current s with
  | Some REQUEST_LINE => changeToNextParserFromClientRequestLine s
  | Some HEADERS => changeToNextParserFromClientHeaders s
  | Some WEBSOCKET => on_websocket s (changeToNextParser (ParserImpl := ws_protocol now) (hs_ws s))
  | Some BODY | None => changeToNextParserFromClientContentData s
  end.

(** The server as a protocol of [Parser]. *)
#[export] Instance http_protocol : ParserImpl (HttpServer M S O A) := {|
  currentSubParser s := has_value (hs_current s);
  cur_setParseResult r s :=
    match hs_current s with
    | Some REQUEST_LINE => hs_set_line (setParseResult r (hs_requestLine s)) s
    | Some HEADERS => hs_set_headers (setParseResult r (hs_headers s)) s
    | Some BODY => hs_set_content (setParseResult r (hs_content s)) s
    | Some WEBSOCKET => hs_set_ws (cur_setParseResult (ParserImpl := ws_protocol now) r (hs_ws s)) s
    | None => s
    end;
  cur_writeIntoSubParser buf s :=
    match hs_current s with
    | Some REQUEST_LINE => '(p, n) ← writeIntoSubParser buf (hs_requestLine s); Ret (hs_set_line p s, n)
    | Some HEADERS => '(p, n) ← writeIntoSubParser buf (hs_headers s); Ret (hs_set_headers p s, n)
    | Some BODY => '(p, n) ← writeIntoSubParser buf (hs_content s); Ret (hs_set_content p s, n)
    | Some WEBSOCKET =>
        '(w, n) ← cur_writeIntoSubParser (ParserImpl := ws_protocol now) buf (hs_ws s); Ret (hs_set_ws w s, n)
    | None => Ret (s, None)
    end;
  cur_getParseStatus s :=
    match hs_current s with
    | Some REQUEST_LINE => m_parseStatus (hs_requestLine s)
    | Some HEADERS => m_parseStatus (hs_headers s)
    | Some BODY => m_parseStatus (hs_content s)
    | Some WEBSOCKET => cur_getParseStatus (ParserImpl := ws_protocol now) (hs_ws s)
    | None => PR_ERROR
    end;
  changeToNextParser := hs_changeToNextParser;
  initProtocol s := Ret (s, true);
  endProtocol s := Ret s |}.

(** The default virtual functions. *)
Definition default_handlers : HttpHandlers M S O A := {|
  onHTTPClientURIReceived s := Ret (s, true);
  onHTTPClientHeadersReceived s := Ret (s, true);
  onHTTPClientContentReceived s := Ret (s, S_200_OK);
  onWebSocketHTTPClientHeadersReceived s := Ret (hs_on_response (set_code S_404_NOT_FOUND) s, false);
  onWebSocketConnectionEstablished s := Ret s |}.
End HttpServer.
