(* ===== verification/HttpServerTheory.v ===== *)
(** * What the HTTP/1 server sends and when (theorems on HttpResponse.v and
      HttpServer.v)

    The headers of a response are exactly the ones its members ask for as long as
    there is room for them; a response is the status line, those headers and the
    body, and leaves the server ready for the next request; the connection
    becomes a WebSocket connection only after a complete handshake.  Then the
    places where the server departs from the protocol: the handshake without its
    status line, the headers that are dropped, the bodies that are not read. *)

From S2P Require Import Prelude SafeInt Mem Streamable Container ContainerTheory BMem BChunks ChunkBuffer BRef.
From S2P Require Import SubParser Parser CLib HttpContent MimeHeader HeaderTheory Encoders UrlStream HttpVars HttpLines HttpHeaders HttpResponse WebSocket HttpServer.
From Stdlib Require Import ZArith Lia.

(** Names that are known are compared. *)
Ltac known_names :=
  repeat match goal with |- context [iequals (bytes_of_string ?x) (bytes_of_string ?y)] =>
    let b := eval vm_compute in (iequals (bytes_of_string x) (bytes_of_string y)) in
    change (iequals (bytes_of_string x) (bytes_of_string y)) with b end;
  rewrite ?andb_false_r, ?andb_true_r.

(** ** The headers of a response *)
Section ResponseHeaders.
Context `{RandomBytes} `{DateFormat} {O : Type} `{!ContentObjects O} `{!HttpObjects O}.
Implicit Types r : Response O.

Lemma replace_if_values c n v k h :
  has_room (1 + k) h -> 0 <= k ->
  exists h', replace_if c n v h = Ret h' /\ has_room k h' /\
    forall m, option_values m h' = if c && iequals m n then [v] else option_values m h.
Proof.
  intros Hroom Hk. destruct c; [by apply replace_values|]. exists h. split; [done|]. split; [|done].
  by apply (has_room_less (1 + k)); [|lia].
Qed.

Lemma put_cookies sc k h :
  has_room (zlen sc + k) h -> 0 <= k ->
  exists h', servercookies_putOnHeaders sc h = Ret h' /\ has_room k h' /\
    (forall m, iequals m (bs "Set-Cookie") = false -> option_values m h' = option_values m h) /\
    option_values (bs "Set-Cookie") h' ≡ₚ map (fun i => toSetCookieString i.1 i.2) sc ++ option_values (bs "Set-Cookie") h.
Proof.
  intros Hroom Hk. revert h Hroom. induction sc as [|i sc IH]; intros h Hroom; cbn [servercookies_putOnHeaders].
  { exists h. split; [done|]. split; [by apply (has_room_less (zlen (@nil (bytes * Cookie)) + k))|]. done. }
  rewrite zlen_cons in Hroom. pose proof (zlen_nonneg sc).
  destruct (add_values (bs "Set-Cookie") (toSetCookieString i.1 i.2) (zlen sc + k) h) as (h1 & -> & R1 & O1 & P1);
    [by apply (has_room_less (1 + zlen sc + k)); [|lia]|lia|].
  cbn [mbind outcome_bind]. destruct (IH h1 R1) as (h' & -> & R' & O' & P'). exists h'. split; [done|]. split; [done|]. split.
  - intros m Hm. by rewrite O', O1.
  - rewrite P', P1 by done. cbn [map app]. by rewrite <- Permutation_middle.
Qed.

(** What the framing headers change. *)
Definition framing_value (now : Z) r (m : bytes) : option (list bytes) :=
  let size := object_size (m_contentStreamableObject (rs_content r)) in
  if includeDate r && iequals m (bs "Date") then Some [date_toString now]
  else if size =? SIZE_MAX then
    if is_chunks (m_transmitionMode (rs_content r)) && iequals m (bs "Transfer-Encoding") then Some [bs "Chunked"]
    else if iequals m (bs "Content-Length") then Some []
    else if iequals m (bs "Connection") then Some [bs "close"]
    else None
  else if iequals m (bs "Content-Length") then Some [to_string size]
  else None.

Lemma framing_headers_values now r k :
  has_room (3 + k) (rs_headers r) -> 0 <= k ->
  exists h, framing_headers now r = Ret h /\ has_room k h /\
    forall m, option_values m h = default (option_values m (rs_headers r)) (framing_value now r m).
Proof.
  intros Hroom Hk. unfold framing_headers, framing_value. cbv zeta. destruct (_ =? SIZE_MAX).
  - destruct (replace_values (bs "Connection") (bs "close") (2 + k) (rs_headers r)) as (h1 & -> & R1 & V1);
      [by apply (has_room_less (3 + k)); [|lia]|lia|]. cbn [mbind outcome_bind].
    destruct (replace_if_values (is_chunks (m_transmitionMode (rs_content r))) (bs "Transfer-Encoding") (bs "Chunked") (1 + k)
      (header_remove (bs "Content-Length") h1)) as (h2 & -> & R2 & V2);
      [apply remove_room; by apply (has_room_less (2 + k)); [|lia]|lia|]. cbn [mbind outcome_bind].
    destruct (replace_if_values (includeDate r) (bs "Date") (date_toString now) k h2 R2 Hk) as (h3 & E3 & R3 & V3).
    exists h3. split; [done|]. split; [done|]. intros m. rewrite V3, V2, values_remove, V1.
    destruct (includeDate r && _); [done|]. destruct (_ && _); [done|]. destruct (iequals m _); [done|].
    by destruct (iequals m _).
  - destruct (replace_values (bs "Content-Length") (to_string (object_size (m_contentStreamableObject (rs_content r)))) (2 + k)
      (rs_headers r)) as (h1 & -> & R1 & V1); [by apply (has_room_less (3 + k)); [|lia]|lia|]. cbn [mbind outcome_bind].
    destruct (replace_if_values (includeDate r) (bs "Date") (date_toString now) k h1) as (h3 & E3 & R3 & V3);
      [by apply (has_room_less (2 + k)); [|lia]|lia|].
    exists h3. split; [done|]. split; [done|]. intros m. rewrite V3, V1.
    destruct (includeDate r && _); [done|]. by destruct (iequals m _).
Qed.

(** What the members of the response change, apart from the cookies. *)
Definition member_value r (m : bytes) : option (list bytes) :=
  let sec := rs_security r in
  let typed := bool_decide (rs_contentType r <> []) in
  if typed && disableNoSniffContentType sec && iequals m (bs "X-Content-Type-Options") then Some [bs "nosniff"]
  else if typed && iequals m (bs "Content-Type") then Some [rs_contentType r]
  else if hsts_activated (hSTS sec) && iequals m (bs "Strict-Transport-Security") then Some [hsts_toString (hSTS sec)]
  else if negb (isNotActivated (xFrameOptions sec)) && iequals m (bs "X-Frame-Options") then Some [xframe_toString (xFrameOptions sec)]
  else if bool_decide (cachecontrol_toString (rs_cacheControl r) <> []) && iequals m (bs "Cache-Control")
    then Some [cachecontrol_toString (rs_cacheControl r)]
  else if iequals m (bs "X-XSS-Protection") then Some [xss_toString (xSSProtection sec)]
  else None.

(** One conditional header of a chain, with the room it takes. *)
Ltac header_step h' R' V' :=
  match goal with |- context [replace_if ?c ?n ?v ?x] =>
    match goal with R0 : has_room (?j + ?k) x |- _ =>
      let j' := eval vm_compute in (j - 1) in
      destruct (replace_if_values c n v (j' + k) x) as (h' & -> & R' & V');
        [by apply (has_room_less (j + k)); [|lia]|lia|]; cbn [mbind outcome_bind]
    end
  end.

Lemma option_headers_values r h k :
  has_room (7 + zlen (rs_cookies r) + k) h -> 0 <= k ->
  exists h', option_headers r h = Ret h' /\ has_room k h' /\
    (forall m, iequals m (bs "Set-Cookie") = false -> iequals m (bs "WWW-Authenticate") = false ->
       option_values m h' = default (option_values m h) (member_value r m)) /\
    option_values (bs "Set-Cookie") h' ≡ₚ map (fun i => toSetCookieString i.1 i.2) (rs_cookies r).
Proof.
  intros Hroom Hk. unfold option_headers. cbv zeta. pose proof (zlen_nonneg (rs_cookies r)).
  destruct (replace_if_values (bool_decide (sWWWAuthenticateRealm r <> [])) (bs "WWW-Authenticate")
    (bs "Basic realm=" ++ [34] ++ sWWWAuthenticateRealm r ++ [34]) (6 + zlen (rs_cookies r) + k) h) as (h1 & -> & R1 & V1);
    [by apply (has_room_less (7 + zlen (rs_cookies r) + k)); [|lia]|lia|]. cbn [mbind outcome_bind].
  destruct (put_cookies (rs_cookies r) (6 + k) (header_remove (bs "Set-Cookie") h1)) as (h2 & -> & R2 & O2 & P2);
    [apply remove_room; by apply (has_room_less (6 + zlen (rs_cookies r) + k)); [|lia]|lia|]. cbn [mbind outcome_bind].
  rewrite values_remove, app_nil_r in P2.
  destruct (replace_values (bs "X-XSS-Protection") (xss_toString (xSSProtection (rs_security r))) (5 + k) h2)
    as (h3 & -> & R3 & V3); [by apply (has_room_less (6 + k)); [|lia]|lia|]. cbn [mbind outcome_bind].
  header_step h4 R4 V4. header_step h5 R5 V5. header_step h6 R6 V6. header_step h7 R7 V7.
  match goal with |- context [replace_if ?c ?n ?v h7] =>
    destruct (replace_if_values c n v k h7 R7 Hk) as (h8 & E8 & R8 & V8) end.
  exists h8. split; [exact E8|]. split; [exact R8|]. split.
  - intros m Hm Hw. unfold member_value.
    rewrite V8, V7, V6, V5, V4, V3, O2, values_remove, V1, Hm, Hw by done. rewrite andb_false_r.
    do 6 (match goal with |- context [if ?b then _ else _] => destruct b; [done|] end). done.
  - rewrite V8, V7, V6, V5, V4, V3.
    by known_names.
Qed.

(** The headers of a response say what its members say, once each: the length of
    the body when it is known; when it is not, no length and a connection that
    closes; the date; and, unless the headers are immutable, one Set-Cookie for
    every cookie, the protections that are active, the cache policy and the
    type. *)
Theorem response_headers_exact now r :
  has_room (10 + zlen (rs_cookies r)) (rs_headers r) ->
  exists h, response_headers now r = Ret h /\ header_wf h /\
    (let size := object_size (m_contentStreamableObject (rs_content r)) in
     if size =? SIZE_MAX
     then option_values (bs "Content-Length") h = [] /\ option_values (bs "Connection") h = [bs "close"]
     else option_values (bs "Content-Length") h = [to_string size]) /\
    (includeDate r = true -> option_values (bs "Date") h = [date_toString now]) /\
    (immutableHeaders r = false ->
       option_values (bs "Set-Cookie") h ≡ₚ map (fun i => toSetCookieString i.1 i.2) (rs_cookies r) /\
       option_values (bs "X-XSS-Protection") h = [xss_toString (xSSProtection (rs_security r))] /\
       (xf_value (xFrameOptions (rs_security r)) <> XF_NONE ->
          option_values (bs "X-Frame-Options") h = [xframe_toString (xFrameOptions (rs_security r))]) /\
       (hsts_activated (hSTS (rs_security r)) = true ->
          option_values (bs "Strict-Transport-Security") h = [hsts_toString (hSTS (rs_security r))]) /\
       (cachecontrol_toString (rs_cacheControl r) <> [] ->
          option_values (bs "Cache-Control") h = [cachecontrol_toString (rs_cacheControl r)]) /\
       (rs_contentType r <> [] ->
          option_values (bs "Content-Type") h = [rs_contentType r] /\
          (disableNoSniffContentType (rs_security r) = true -> option_values (bs "X-Content-Type-Options") h = [bs "nosniff"]))).
Proof.
  intros Hroom. pose proof (zlen_nonneg (rs_cookies r)).
  destruct (framing_headers_values now r (7 + zlen (rs_cookies r))) as (h1 & E1 & R1 & V1);
    [by apply (has_room_less (10 + zlen (rs_cookies r))); [|lia]|lia|].
  unfold response_headers. rewrite E1. cbn [mbind outcome_bind]. destruct (immutableHeaders r).
  - exists h1. split; [done|]. split; [by apply R1|]. split; [|split; [|done]].
    + cbv zeta. rewrite !V1. unfold framing_value. known_names.
      by destruct (_ =? SIZE_MAX).
    + intros Hd. rewrite V1. unfold framing_value. by rewrite Hd.
  - destruct (option_headers_values r h1 0) as (h2 & E2 & R2 & V2 & P2);
      [by apply (has_room_less (7 + zlen (rs_cookies r))); [|lia]|lia|].
    exists h2. split; [done|]. split; [by apply R2|]. split; [|split; [|intros _; split; [done|]]].
    + cbv zeta. rewrite !V2 by done. rewrite !V1. unfold member_value, framing_value. known_names.
      by destruct (_ =? SIZE_MAX).
    + intros Hd. rewrite V2, V1 by done. unfold member_value, framing_value. rewrite Hd. by known_names.
    + rewrite !V2 by done. unfold member_value. known_names. split; [done|]. unfold isNotActivated. split_and!.
      * intros Hx. by rewrite bool_decide_eq_false_2.
      * by intros ->.
      * intros Hc. by rewrite bool_decide_eq_true_2.
      * intros Ht. rewrite (bool_decide_eq_true_2 (rs_contentType r <> [])) by done. split; [done|]. by intros ->.
Qed.

(** The part of it that the server uses. *)
Lemma response_headers_return now r :
  has_room (10 + zlen (rs_cookies r)) (rs_headers r) -> exists h, response_headers now r = Ret h.
Proof.
  intros Hroom. pose proof (zlen_nonneg (rs_cookies r)).
  destruct (framing_headers_values now r (7 + zlen (rs_cookies r))) as (h1 & E1 & R1 & _);
    [by apply (has_room_less (10 + zlen (rs_cookies r))); [|lia]|lia|].
  unfold response_headers. rewrite E1. cbn [mbind outcome_bind]. destruct (immutableHeaders r); [by eexists|].
  destruct (option_headers_values r h1 0) as (h2 & E2 & _); [by apply (has_room_less (7 + zlen (rs_cookies r))); [|lia]|lia|].
  by exists h2.
Qed.

(** The limit of a header never changes. *)
Lemma header_replace_max n v h h' : header_replace n v h = Ret h' -> m_maxOptions h' = m_maxOptions h.
Proof.
  unfold header_replace. destruct (header_add_eq n v (header_remove n h)) as [[_ ->]|(_ & o & -> & _)];
    cbn [mbind outcome_bind]; by intros [= <-].
Qed.

Lemma replace_if_max c n v h h' : replace_if c n v h = Ret h' -> m_maxOptions h' = m_maxOptions h.
Proof. destruct c; [apply header_replace_max|]. by intros [= <-]. Qed.

Lemma framing_headers_max now r h : framing_headers now r = Ret h -> m_maxOptions h = m_maxOptions (rs_headers r).
Proof.
  unfold framing_headers. cbv zeta. destruct (_ =? SIZE_MAX).
  - destruct (header_replace _ _ _) as [h1| | |] eqn:E1; try done. cbn [mbind outcome_bind].
    destruct (replace_if (is_chunks _) _ _ _) as [h2| | |] eqn:E2; try done. cbn [mbind outcome_bind]. intros E3.
    rewrite (replace_if_max _ _ _ _ _ E3), (replace_if_max _ _ _ _ _ E2). exact (header_replace_max _ _ _ _ E1).
  - destruct (header_replace _ _ _) as [h1| | |] eqn:E1; try done. cbn [mbind outcome_bind]. intros E3.
    rewrite (replace_if_max _ _ _ _ _ E3). exact (header_replace_max _ _ _ _ E1).
Qed.

(** A header that is full. *)
Lemma replace_full n v h :
  zlen (m_headers h) = m_maxOptions h -> option_values n h = [] -> header_replace n v h = Ret h.
Proof.
  intros Hf Hn. assert (header_remove n h = h) as E.
  { unfold header_remove. assert (mm_erase (to_upper_copy n) (m_headers h) = m_headers h) as ->; [|by destruct h].
    unfold option_values, getOptionsByName, mm_equal_range in Hn. apply map_eq_nil, map_eq_nil, map_eq_nil in Hn.
    unfold mm_erase. clear Hf. induction (m_headers h) as [|e l IH]; [done|]. rewrite filter_cons in Hn |- *.
    destruct (decide (e.1 = to_upper_copy n)) as [|Hne]; [done|]. rewrite decide_True by done. by rewrite IH. }
  unfold header_replace. rewrite E. destruct (header_add_eq n v h) as [[_ ->]|[C _]]; done.
Qed.

Lemma replace_if_full c n v h :
  zlen (m_headers h) = m_maxOptions h -> option_values n h = [] -> replace_if c n v h = Ret h.
Proof. intros. destruct c; [by apply replace_full|done]. Qed.

Lemma put_cookies_fill sc h :
  header_wf h -> m_maxOptions h <= zlen (m_headers h) + zlen sc ->
  exists h', servercookies_putOnHeaders sc h = Ret h' /\ header_wf h' /\ zlen (m_headers h') = m_maxOptions h' /\
    forall m, iequals m (bs "Set-Cookie") = false -> option_values m h' = option_values m h.
Proof.
  revert h. induction sc as [|i sc IH]; intros h Hwf Hn; cbn [servercookies_putOnHeaders].
  { exists h. pose proof (wf_count h Hwf). change (zlen []) with 0 in Hn. split_and!; try done. lia. }
  rewrite zlen_cons in Hn. destruct (Z.eq_dec (zlen (m_headers h)) (m_maxOptions h)) as [Hfull|Hroom].
  - destruct (header_add_eq (bs "Set-Cookie") (toSetCookieString i.1 i.2) h) as [[_ ->]|[C _]]; [|done].
    cbn [mbind outcome_bind]. apply IH; [done|]. pose proof (zlen_nonneg sc). lia.
  - pose proof (wf_count h Hwf). destruct (add_values (bs "Set-Cookie") (toSetCookieString i.1 i.2) 0 h) as (h1 & E & R & V & _);
      [split; [done|lia]|lia|].
    destruct (header_add_eq (bs "Set-Cookie") (toSetCookieString i.1 i.2) h) as [[C _]|(_ & o & E' & _)]; [done|].
    rewrite E in E' |- *. injection E' as ->. cbn [mbind outcome_bind]. destruct (IH (added o h)) as (h' & -> & Hwf' & Hf & V').
    + by apply R.
    + cbn [added h_set_last h_set_headers h_set_objects h_count_draw m_headers m_maxOptions]. rewrite mm_insert_length. lia.
    + exists h'. split_and!; try done. intros m Hm. by rewrite V', V.
Qed.

(** The protections are dropped without a word: the cookies are added first and a
    header holds 32 options, so a response with that many cookies carries no
    X-Frame-Options, no Strict-Transport-Security, no X-XSS-Protection, no cache
    policy and no type, whatever its members say. *)
Theorem security_headers_dropped now r :
  rs_headers r = header_init -> immutableHeaders r = false -> sWWWAuthenticateRealm r = [] -> 32 <= zlen (rs_cookies r) ->
  exists h, response_headers now r = Ret h /\
    Forall (fun n => option_values n h = [])
      [bs "X-Frame-Options"; bs "Strict-Transport-Security"; bs "X-XSS-Protection"; bs "Cache-Control"; bs "Content-Type"].
Proof.
  intros Eh Ei Ew Hc. destruct (framing_headers_values now r 29) as (h1 & E1 & R1 & V1); [|lia|].
  { rewrite Eh. split; [apply header_init_wf|done]. }
  unfold response_headers. rewrite E1, Ei. cbn [mbind outcome_bind]. unfold option_headers. rewrite Ew.
  cbn [replace_if mbind outcome_bind]. change (bool_decide ([] <> @nil Z)) with false. cbn [replace_if mbind outcome_bind].
  assert (m_maxOptions h1 = 32) as Hm. { rewrite (framing_headers_max _ _ _ E1). by rewrite Eh. }
  destruct (put_cookies_fill (rs_cookies r) (header_remove (bs "Set-Cookie") h1)) as (h2 & -> & Hwf & Hf & V2).
  { apply header_remove_wf, R1. }
  { change (m_maxOptions (header_remove (bs "Set-Cookie") h1)) with (m_maxOptions h1).
    pose proof (zlen_nonneg (m_headers (header_remove (bs "Set-Cookie") h1))). lia. }
  cbn [mbind outcome_bind].
  assert (forall m, iequals m (bs "Set-Cookie") = false -> framing_value now r m = None -> option_values m h2 = []) as Hv.
  { intros m Hs Hfr. by rewrite V2, values_remove, Hs, V1, Hfr, Eh. }
  unfold framing_value in Hv.
  assert (Forall (fun n => option_values n h2 = []) [bs "X-Frame-Options"; bs "Strict-Transport-Security";
    bs "X-XSS-Protection"; bs "Cache-Control"; bs "Content-Type"; bs "X-Content-Type-Options"]) as Hall.
  { repeat constructor; apply Hv; try done; known_names; by destruct (_ =? SIZE_MAX). }
  do 6 (apply Forall_cons in Hall as [? Hall]). exists h2. split; [|by repeat constructor].
  rewrite replace_full by done. cbn [mbind outcome_bind].
  do 4 (rewrite replace_if_full by done; cbn [mbind outcome_bind]). by apply replace_if_full.
Qed.
End ResponseHeaders.

(** ** Sending *)
Definition header_text (h : MIME_Header) : bytes := concat (map (fun l => l ++ CRLF) (header_lines h)) ++ CRLF.

Section Sending.
Context {M : Type} `{Container M} `{!MMapFile M} {S : Type} `{SinkSpec S} {O : Type} `{Sink O} `{!Source O} {A : Type}.
Context `{!ContentObjects O} `{!HttpObjects O} `{!HttpHandlers M S O A}.
Context `{RandomBytes} `{DateFormat} `{Base64BIO} `{SHA1}.
Variable now : Z.
Implicit Types s : HttpServer M S O A.

Lemma send_lines_ok lines (up : S) acc :
  sink_rep up acc -> zlen (concat (map (fun l => l ++ CRLF) lines) ++ CRLF) <= sink_room up ->
  exists up', send_lines lines up = Ret (up', true) /\
    sink_rep up' (acc ++ concat (map (fun l => l ++ CRLF) lines) ++ CRLF) /\
    sink_room up - zlen (concat (map (fun l => l ++ CRLF) lines) ++ CRLF) <= sink_room up'.
Proof.
  revert up acc. induction lines as [|l lines IH]; intros up acc Hrep Hroom; cbn [send_lines map concat] in *.
  - destruct (writeFullStream_succeed CRLF up acc) as (up' & E & Hrep' & Hroom' & Hs); [done..|].
    unfold writeString. rewrite E. cbn [mbind outcome_bind]. rewrite Hs. by exists up'.
  - rewrite <- !app_assoc in *. rewrite zlen_app in Hroom. pose proof (zlen_nonneg (CRLF ++ concat (map (fun l => l ++ CRLF) lines) ++ CRLF)).
    rewrite (zlen_app CRLF) in *. pose proof (zlen_nonneg (concat (map (fun l => l ++ CRLF) lines) ++ CRLF)).
    destruct (writeFullStream_succeed (l ++ CRLF) up acc) as (up1 & E & Hrep1 & Hroom1 & Hs); [done| |by destruct l|].
    { rewrite zlen_app. lia. }
    unfold writeString. rewrite E. cbn [mbind outcome_bind]. rewrite Hs. cbn [negb]. rewrite zlen_app in Hroom1.
    destruct (IH up1 _ Hrep1) as (up' & -> & Hrep' & Hroom'); [lia|]. exists up'. split; [done|].
    rewrite <- !app_assoc in Hrep'. split; [done|]. rewrite !zlen_app in *. lia.
Qed.

(** Sending the object gives these bytes. *)
Definition streams (o : O) (body : bytes) : Prop :=
  forall (up : S) acc, sink_rep up acc -> zlen body <= sink_room up ->
    exists up', streamTo o up = Ret (up', true) /\ sink_rep up' (acc ++ body).

(** The connection closes after this response. *)
Definition closing s : bool :=
  negb (connectionContinue s && bool_decide (getHeaderOption (bs "Connection") s <> bs "close")).

(** The response, with the announcement that the connection closes. *)
Definition announced s : outcome (Response O) :=
  if closing s then
    h ← header_replace (bs "Connection") (bs "close") (rs_headers (hs_response s)); Ret (rs_set_headers h (hs_response s))
  else Ret (hs_response s).

Lemma write_log_ok s :
  zlen (rEMOTE_ADDR (networkClientInfo (hs_info s))) < INET6_ADDRSTRLEN ->
  exists l, write_log now s = Ret (hs_set_log (hs_log s ++ [l]) s).
Proof.
  intros Ha. unfold write_log, fillLogInformation, remote_address. replace (_ >=? _) with false by lia.
  cbn [mbind outcome_bind]. by eexists.
Qed.

Lemma headers_sent s h acc :
  zlen (rEMOTE_ADDR (networkClientInfo (hs_info s))) < INET6_ADDRSTRLEN ->
  response_headers now (hs_response s) = Ret h -> sink_rep (hs_stream s) acc -> zlen (header_text h) <= sink_room (hs_stream s) ->
  exists l up, sendHTTPHeadersResponse now s =
      Ret (hs_set_stream up (hs_on_response (rs_set_headers h) (hs_set_log (hs_log s ++ [l]) s)), true) /\
    sink_rep up (acc ++ header_text h) /\ sink_room (hs_stream s) - zlen (header_text h) <= sink_room up.
Proof.
  intros Ha Eh Hrep Hroom. unfold sendHTTPHeadersResponse. destruct (write_log_ok s Ha) as (l & ->). cbn [mbind outcome_bind].
  cbn [hs_set_log hs_response]. rewrite Eh. cbn [mbind outcome_bind].
  unfold header_streamToUpstream. destruct (send_lines_ok (header_lines h) (hs_stream s) acc Hrep Hroom) as (up & E & Hrep' & Hroom').
  exists l, up. split; [|done]. change (hs_stream (hs_on_response _ _)) with (hs_stream s). rewrite E. done.
Qed.

(** The state once the response is decided on, before anything of it is sent. *)
Definition decided s (l : WebLog) (r : Response O) : HttpServer M S O A :=
  hs_set_response r (hs_set_prohibit (prohibitConnectionUpgrade s || negb (closing s))
    (hs_set_current (if closing s then None else Some REQUEST_LINE) (hs_set_log (hs_log s ++ [l]) s))).

Lemma sendFull_decides s r :
  zlen (rEMOTE_ADDR (networkClientInfo (hs_info s))) < INET6_ADDRSTRLEN -> announced s = Ret r ->
  exists l, sendFullHTTPResponse now s = send_response now (decided s l r).
Proof.
  intros Ha. unfold announced, sendFullHTTPResponse, decided, closing. destruct (write_log_ok s Ha) as (l & ->).
  cbn [mbind outcome_bind]. change (connectionContinue (hs_set_log _ s)) with (connectionContinue s).
  change (getHeaderOption _ (hs_set_log _ s)) with (getHeaderOption (bs "Connection") s).
  change (hs_response (hs_set_log _ s)) with (hs_response s).
  intros Hr. exists l. revert Hr. destruct (connectionContinue s && _); cbn [negb].
  - intros [= <-]. cbn [mbind outcome_bind]. f_equal. by destruct s as [? ? ? ? ? ? ? ? [] ? ? ? ?].
  - destruct (header_replace _ _ _) as [h| | |]; try done. cbn [mbind outcome_bind]. intros [= <-].
    cbn [mbind outcome_bind]. f_equal. by destruct s as [? ? ? ? ? ? ? ? [] ? ? ? ?].
Qed.

(** The response, its headers, and the room it needs. *)
Lemma response_ready s :
  has_room (11 + zlen (rs_cookies (hs_response s))) (rs_headers (hs_response s)) ->
  exists r h, announced s = Ret r /\ response_headers now r = Ret h /\ rs_status r = rs_status (hs_response s) /\
    rs_content r = rs_content (hs_response s).
Proof.
  intros Hroom. unfold announced. pose proof (zlen_nonneg (rs_cookies (hs_response s))). destruct (closing s).
  - destruct (replace_values (bs "Connection") (bs "close") (10 + zlen (rs_cookies (hs_response s))) (rs_headers (hs_response s)))
      as (h1 & -> & R1 & _); [by apply (has_room_less (11 + zlen (rs_cookies (hs_response s)))); [|lia]|lia|].
    cbn [mbind outcome_bind]. destruct (response_headers_return now (rs_set_headers h1 (hs_response s))) as (h & E); [exact R1|].
    by eexists _, h.
  - destruct (response_headers_return now (hs_response s)) as (h & E);
      [by apply (has_room_less (11 + zlen (rs_cookies (hs_response s)))); [|lia]|]. by eexists _, h.
Qed.

Lemma sent_body (c : Content O) body (up : S) acc :
  is_chunks (m_transmitionMode c) = false -> streams (m_contentStreamableObject c) body ->
  succeed (sink_status (m_contentStreamableObject c)) = true -> sink_rep up acc -> zlen body <= sink_room up ->
  exists up', content_streamToUpstream c up = Ret (up', true) /\ sink_rep up' (acc ++ body).
Proof.
  intros Hc Hb Hs Hrep Hroom. destruct (Hb up acc Hrep Hroom) as (up' & E & Hrep'). exists up'. split; [|done].
  unfold content_streamToUpstream. destruct (m_transmitionMode c); [done|..]; rewrite E; cbn [mbind outcome_bind]; by rewrite Hs.
Qed.

(** C4. A response is sent whole and in order: the status line, the headers, an empty
    line, the body.  Afterwards the server waits for a request line or the
    connection is over, as [closing] says; with a connection that goes on the
    request and the response are new and only what is known of the client is
    kept.  Every response is logged twice. *)
Theorem response_sent s acc body :
  zlen (rEMOTE_ADDR (networkClientInfo (hs_info s))) < INET6_ADDRSTRLEN ->
  has_room (11 + zlen (rs_cookies (hs_response s))) (rs_headers (hs_response s)) ->
  is_chunks (m_transmitionMode (rs_content (hs_response s))) = false ->
  streams (m_contentStreamableObject (rs_content (hs_response s))) body ->
  succeed (sink_status (m_contentStreamableObject (rs_content (hs_response s)))) = true ->
  sink_rep (hs_stream s) acc ->
  exists r h, announced s = Ret r /\ response_headers now r = Ret h /\
    let text := status_text (rs_status (hs_response s)) ++ header_text h ++ body in
    (zlen text <= sink_room (hs_stream s) ->
     exists s', sendFullHTTPResponse now s = Ret (s', true) /\ sink_rep (hs_stream s') (acc ++ text) /\
       hs_current s' = (if closing s then None else Some REQUEST_LINE) /\
       zlen (hs_log s') = zlen (hs_log s) + 2 /\
       (connectionContinue s = true ->
          hs_response s' = response_new /\ request_line s' = requestline_init /\ request_headers s' = header_init /\
          request_content s' = content_default /\ hs_info s' = ri_set_client (networkClientInfo (hs_info s)) requestinfo_new)).
Proof.
  intros Ha Hroom Hc Hb Hs Hrep. destruct (response_ready s Hroom) as (r & h & Er & Eh & Est & Eco).
  exists r, h. split; [done|]. split; [done|]. cbv zeta. intros Hsz. rewrite !zlen_app in Hsz.
  pose proof (zlen_nonneg (header_text h)). pose proof (zlen_nonneg body).
  destruct (sendFull_decides s r Ha Er) as (l & ->). unfold send_response.
  change (hs_response (decided s l r)) with r. change (hs_stream (decided s l r)) with (hs_stream s).
  unfold status_streamToUpstream, writeString. rewrite Est.
  destruct (writeFullStream_ok (status_text (rs_status (hs_response s))) (hs_stream s) acc Hrep ltac:(lia)) as (u1 & E1 & H1' & R1').
  rewrite E1. cbn [mbind outcome_bind negb].
  destruct (headers_sent (hs_set_stream u1 (decided s l r)) h (acc ++ status_text (rs_status (hs_response s))))
    as (l2 & u2 & E2 & H2' & R2'); [done|done|done|change (hs_stream (hs_set_stream u1 _)) with u1; lia|].
  change (hs_stream (hs_set_stream u1 _)) with u1 in *. rewrite E2. cbn [mbind outcome_bind negb].
  match goal with |- context [content_streamToUpstream ?c ?u] =>
    change c with (rs_content r); change u with u2 end. rewrite Eco.
  destruct (sent_body (rs_content (hs_response s)) body u2 _ Hc Hb Hs H2' ltac:(lia)) as (u3 & -> & H3').
  cbn [mbind outcome_bind].
  match goal with |- context [if connectionContinue ?x then _ else _] => set (s3 := x) end.
  change (connectionContinue s3) with (connectionContinue s).
  exists (if connectionContinue s then hs_reset s3 else s3). split; [done|].
  rewrite <- !app_assoc in H3'. destruct (connectionContinue s).
  - split; [exact H3'|]. split; [done|]. split; [|done].
    change (hs_log (hs_reset s3)) with ((hs_log s ++ [l]) ++ [l2]). rewrite !zlen_app.
    change (zlen [l]) with 1. change (zlen [l2]) with 1. lia.
  - split; [exact H3'|]. split; [done|]. split; [|done].
    change (hs_log s3) with ((hs_log s ++ [l]) ++ [l2]). rewrite !zlen_app.
    change (zlen [l]) with 1. change (zlen [l2]) with 1. lia.
Qed.
End Sending.

(** ** The upgrade to WebSocket *)
Section Upgrade.
Context {M : Type} `{Container M} `{!MMapFile M} {S : Type} `{Sink S} {O : Type} `{Sink O} `{!Source O} {A : Type}.
Context `{!ContentObjects O} `{!HttpObjects O} `{!HttpHandlers M S O A}.
Context `{RandomBytes} `{DateFormat} `{Base64BIO} `{SHA1}.
Variable now : Z.
Implicit Types s : HttpServer M S O A.

(** What sending the headers leaves alone. *)
Lemma headers_current s s' b : sendHTTPHeadersResponse now s = Ret (s', b) -> hs_current s' = hs_current s.
Proof.
  unfold sendHTTPHeadersResponse, write_log. intros E. ret_inv E. by ret_inv E0.
Qed.

Lemma send_response_current s s' b :
  send_response now s = Ret (s', b) -> hs_current s' = None \/ hs_current s' = hs_current s.
Proof.
  unfold send_response. intros E. ret_inv E. destruct b0; cbn [negb] in E; [|ret_inv E; by left].
  ret_inv E. apply headers_current in E1. destruct b0; cbn [negb] in E; [|ret_inv E; by left].
  ret_inv E. case_match; case_match; cbn; auto.
Qed.

(** After a response the server waits for a request line or the connection is
    over. *)
Lemma sendFull_current s s' b :
  sendFullHTTPResponse now s = Ret (s', b) -> hs_current s' = None \/ hs_current s' = Some REQUEST_LINE.
Proof.
  unfold sendFullHTTPResponse. intros E. ret_inv E. apply send_response_current in E as [E|E]; [by left|]. rewrite E.
  destruct (_ && _); ret_inv E1; [by right|by left].
Qed.

(** What is decided before the virtual functions are called. *)
Lemma setup_keeps s s' n ok :
  setupContentHandling s = Ret (s', n, ok) ->
  hs_headers s' = hs_headers s /\ prohibitConnectionUpgrade s' = prohibitConnectionUpgrade s /\
  n = (getOptionAsUINT64 (bs "Content-Length") 10 (request_headers s)).1.
Proof.
  unfold setupContentHandling. set (n0 := (getOptionAsUINT64 _ _ _).1).
  change (request_headers (hs_set_content _ s)) with (request_headers s). fold n0.
  destruct (n0 =? 0); [by intros [= <- <- _]|].
  destruct (setCurrentSize n0 _) as [p b]. destruct b; cbn [negb]; [|by intros [= <- <- _]]. intros E. ret_inv E.
  unfold set_container in E0. destruct (container_for _); ret_inv E0; try done.
  destruct (getOptionByName _ _); [|done]. by ret_inv E0.
Qed.

Lemma validated_keeps s s' ok :
  validateHTTPv11Requirements (parseAllClientHeaders s) = (s', ok) ->
  hs_headers s' = hs_headers s /\ prohibitConnectionUpgrade s' = prohibitConnectionUpgrade s.
Proof.
  unfold validateHTTPv11Requirements, parseAllClientHeaders, parseUserAgent, parseAuthenticationHeaders.
  intros E. repeat case_match; injection E as <- <-; done.
Qed.

Lemma handshake_conditions s s' :
  setupAndSendWebSocketHeaderResponse now s = Ret (s', true) ->
  zlen (getOptionValueStringByName (bs "Sec-WebSocket-Key") (request_headers s)) = 24 /\
  getOptionValueStringByName (bs "Sec-WebSocket-Version") (request_headers s) = bs "13".
Proof.
  unfold setupAndSendWebSocketHeaderResponse. destruct (bool_decide _ || _) eqn:Ek; [intros E; ret_inv E; done|].
  apply orb_false_iff in Ek as [_ Ek]. case_bool_decide as Ev; [intros E; ret_inv E; done|].
  intros _. split; [lia|done].
Qed.

(** *** The prohibition of the upgrade

    It is a private member of the server: the functions of the application cannot
    change it. *)
Class PrivateMembers : Prop := {
  private_uri s s' b : onHTTPClientURIReceived s = Ret (s', b) -> prohibitConnectionUpgrade s' = prohibitConnectionUpgrade s;
  private_headers s s' b : onHTTPClientHeadersReceived s = Ret (s', b) -> prohibitConnectionUpgrade s' = prohibitConnectionUpgrade s;
  private_content s s' n : onHTTPClientContentReceived s = Ret (s', n) -> prohibitConnectionUpgrade s' = prohibitConnectionUpgrade s;
  private_upgrade s s' b : onWebSocketHTTPClientHeadersReceived s = Ret (s', b) -> prohibitConnectionUpgrade s' = prohibitConnectionUpgrade s;
  private_established s s' : onWebSocketConnectionEstablished s = Ret s' -> prohibitConnectionUpgrade s' = prohibitConnectionUpgrade s }.

Lemma headers_prohibit s s' b : sendHTTPHeadersResponse now s = Ret (s', b) -> prohibitConnectionUpgrade s' = prohibitConnectionUpgrade s.
Proof. unfold sendHTTPHeadersResponse, write_log. intros E. ret_inv E. by ret_inv E0. Qed.

Lemma send_response_prohibit s s' b : send_response now s = Ret (s', b) -> prohibitConnectionUpgrade s' = prohibitConnectionUpgrade s.
Proof.
  unfold send_response. intros E. ret_inv E. destruct b0; cbn [negb] in E; [|by ret_inv E].
  ret_inv E. apply headers_prohibit in E1. destruct b0; cbn [negb] in E; [|by ret_inv E]. ret_inv E. by case_match; case_match.
Qed.

(** A response that leaves the connection open prohibits the upgrade, and no response
    allows it. *)
Lemma sendFull_prohibit s s' b :
  sendFullHTTPResponse now s = Ret (s', b) ->
  (hs_current s' = Some REQUEST_LINE -> prohibitConnectionUpgrade s' = true) /\
  (prohibitConnectionUpgrade s = true -> prohibitConnectionUpgrade s' = true).
Proof.
  unfold sendFullHTTPResponse, write_log. intros E. ret_inv E. pose proof (send_response_prohibit _ _ _ E) as Ep.
  apply send_response_current in E. ret_inv E0. rewrite Ep. destruct (_ && _); ret_inv E1; [done|].
  split; [|done]. intros Hc. by destruct E as [E|E]; rewrite Hc in E.
Qed.

Lemma content_prohibit `{!PrivateMembers} s s' b :
  changeToNextParserFromClientContentData now s = Ret (s', b) -> prohibitConnectionUpgrade s = true -> prohibitConnectionUpgrade s' = true.
Proof.
  unfold changeToNextParserFromClientContentData. intros E Hp. ret_inv E. apply private_content in E0.
  apply sendFull_prohibit in E as [_ E]. apply E. by rewrite <- Hp, <- E0.
Qed.

Lemma refuse_prohibit s s' b : refuse now s = Ret (s', b) -> prohibitConnectionUpgrade s = true -> prohibitConnectionUpgrade s' = true.
Proof. unfold refuse. intros E. by apply sendFull_prohibit in E as [_ E]. Qed.

Lemma line_prohibit `{!PrivateMembers} s s' b :
  changeToNextParserFromClientRequestLine now s = Ret (s', b) -> prohibitConnectionUpgrade s = true -> prohibitConnectionUpgrade s' = true.
Proof.
  unfold changeToNextParserFromClientRequestLine. intros E Hp.
  assert (prohibitConnectionUpgrade (prepareServerVersionOnURI s).1 = true) as Hp1 by (unfold prepareServerVersionOnURI; cbv zeta; destruct (negb _); exact Hp).
  destruct (prepareServerVersionOnURI s) as [s1 ok]. destruct ok; cbn [negb fst] in *; [|by apply refuse_prohibit in E].
  ret_inv E. apply private_uri in E0. by destruct b0; cbn; rewrite E0.
Qed.

Lemma upgrade_prohibited s s' b : upgrade now s = Ret (s', b) -> prohibitConnectionUpgrade s = true -> s' = hs_set_current None s.
Proof. unfold upgrade. intros E Hp. rewrite Hp in E. by ret_inv E. Qed.

Lemma headers_change_prohibit `{!PrivateMembers} s s' b :
  changeToNextParserFromClientHeaders now s = Ret (s', b) -> prohibitConnectionUpgrade s = true -> prohibitConnectionUpgrade s' = true.
Proof.
  unfold changeToNextParserFromClientHeaders. intros E Hp. destruct (validateHTTPv11Requirements _) as [s1 ok] eqn:E1.
  apply validated_keeps in E1 as [_ Ep1]. rewrite Hp in Ep1. destruct ok; cbn [negb] in E; [|by apply refuse_prohibit in E].
  apply bind_Ret in E as ([[s2 n] b0] & E0 & E). apply setup_keeps in E0 as (_ & Ep2 & _). rewrite Ep1 in Ep2.
  destruct b0; cbn [negb] in E; [|by apply refuse_prohibit in E]. destruct (isWebSocketConnectionRequest s2).
  - by rewrite (upgrade_prohibited _ _ _ E Ep2).
  - apply bind_Ret in E as ([s3 b1] & E3 & E). apply private_headers in E3. rewrite Ep2 in E3.
    destruct b1; cbn [negb] in E; [|by ret_inv E]. destruct (n =? 0); [by apply content_prohibit in E|by ret_inv E].
Qed.

Lemma change_prohibit `{!PrivateMembers} s s' b :
  hs_changeToNextParser now s = Ret (s', b) -> prohibitConnectionUpgrade s = true -> prohibitConnectionUpgrade s' = true.
Proof.
  unfold hs_changeToNextParser. destruct (hs_current s) as [[]|]; [apply line_prohibit|apply headers_change_prohibit|apply content_prohibit| |apply content_prohibit].
  unfold on_websocket. intros E Hp. by ret_inv E.
Qed.

(** The step that ends a request and waits for the next one. *)
Lemma next_request_prohibits s s' b :
  hs_changeToNextParser now s = Ret (s', b) -> hs_current s' = Some REQUEST_LINE -> prohibitConnectionUpgrade s' = true.
Proof.
  intros E Hc. assert (forall s1 b1, sendFullHTTPResponse now s1 = Ret (s', b1) -> prohibitConnectionUpgrade s' = true) as Hsend.
  { intros s1 b1 E1. apply sendFull_prohibit in E1 as [E1 _]. by apply E1. }
  assert (forall s1 b1, changeToNextParserFromClientContentData now s1 = Ret (s', b1) -> prohibitConnectionUpgrade s' = true) as Hcont.
  { unfold changeToNextParserFromClientContentData. intros s1 b1 E1. ret_inv E1. by apply Hsend in E1. }
  unfold hs_changeToNextParser in E. destruct (hs_current s) as [[]|].
  - unfold changeToNextParserFromClientRequestLine in E. destruct (prepareServerVersionOnURI s) as [s1 ok].
    destruct ok; cbn [negb] in E; [|by apply Hsend in E]. ret_inv E. by destruct b0.
  - unfold changeToNextParserFromClientHeaders in E. destruct (validateHTTPv11Requirements _) as [s1 ok].
    destruct ok; cbn [negb] in E; [|by apply Hsend in E]. apply bind_Ret in E as ([[s2 n] b0] & _ & E).
    destruct b0; cbn [negb] in E; [|by apply Hsend in E]. destruct (isWebSocketConnectionRequest s2).
    + unfold upgrade in E. destruct (prohibitConnectionUpgrade s2); [by ret_inv E|]. apply bind_Ret in E as ([s3 b1] & _ & E).
      destruct b1; cbn [negb] in E; [|by apply Hsend in E]. apply bind_Ret in E as ([s4 b2] & _ & E). destruct b2; by ret_inv E.
    + apply bind_Ret in E as ([s3 b1] & _ & E). destruct b1; cbn [negb] in E; [|by ret_inv E].
      destruct (n =? 0); [by apply Hcont in E|by ret_inv E].
  - by apply Hcont in E.
  - unfold on_websocket in E. ret_inv E. cbn in Hc. by destruct (ws_current w).
  - by apply Hcont in E.
Qed.

(** What happens to a server while a connection is parsed. *)
Inductive server_step s : HttpServer M S O A -> Prop :=
| step_result r : server_step s (cur_setParseResult (ParserImpl := http_protocol now) r s)
| step_bytes buf s' n : cur_writeIntoSubParser (ParserImpl := http_protocol now) buf s = Ret (s', n) -> server_step s s'
| step_change s' b : hs_changeToNextParser now s = Ret (s', b) -> server_step s s'.

Lemma steps_prohibit `{!PrivateMembers} s s' : rtc server_step s s' -> prohibitConnectionUpgrade s = true -> prohibitConnectionUpgrade s' = true.
Proof.
  induction 1 as [|s s1 s' Hst _ IH]; [done|]. intros Hp. apply IH. destruct Hst as [r|buf s1 n E|s1 b E].
  - cbn. by destruct (hs_current s) as [[]|].
  - cbn in E. destruct (hs_current s) as [[]|]; by ret_inv E.
  - by apply change_prohibit in E.
Qed.

(** C7. A connection becomes a WebSocket connection only from the headers of a
    request that ask for it, when the upgrade is not prohibited, the application
    agrees, the key has 24 characters and the version is 13; whatever the
    application does in its virtual functions.  And, since the application cannot
    reach the private member that prohibits it, only from the first request of the
    connection: after a step that has ended a request, and waits for the line of
    another one, no steps of the parser lead there. *)
Theorem websocket_guard s s' b :
  hs_changeToNextParser now s = Ret (s', b) -> hs_current s <> Some WEBSOCKET -> hs_current s' = Some WEBSOCKET ->
  hs_current s = Some HEADERS /\ prohibitConnectionUpgrade s = false /\ isWebSocketConnectionRequest s = true /\
  exists s1 s2, request_headers s1 = request_headers s /\ onWebSocketHTTPClientHeadersReceived s1 = Ret (s2, true) /\
    zlen (getOptionValueStringByName (bs "Sec-WebSocket-Key") (request_headers s2)) = 24 /\
    getOptionValueStringByName (bs "Sec-WebSocket-Version") (request_headers s2) = bs "13" /\
    (PrivateMembers -> forall s0 s3 b3,
       hs_changeToNextParser now s0 = Ret (s3, b3) -> hs_current s3 = Some REQUEST_LINE -> ~ rtc server_step s3 s).
Proof.
  intros E Hw Hw'. assert (prohibitConnectionUpgrade s = false -> PrivateMembers -> forall s0 s3 b3,
    hs_changeToNextParser now s0 = Ret (s3, b3) -> hs_current s3 = Some REQUEST_LINE -> ~ rtc server_step s3 s) as Hfirst.
  { intros Hp Hpriv s0 s3 b3 E3 Hc Hr. apply next_request_prohibits in E3; [|done]. apply (steps_prohibit _ _ Hr) in E3. congruence. } assert (forall s1 b1, sendFullHTTPResponse now s1 = Ret (s', b1) -> False) as Hsend.
  { intros s1 b1 E1. apply sendFull_current in E1 as [C|C]; congruence. }
  unfold hs_changeToNextParser in E. destruct (hs_current s) as [[]|] eqn:Ec; try done.
  - unfold changeToNextParserFromClientRequestLine in E. ret_inv E. destruct b0; cbn [negb] in E; [|by apply Hsend in E].
    ret_inv E. by destruct b0.
  - split; [done|]. unfold changeToNextParserFromClientHeaders in E.
    destruct (validateHTTPv11Requirements _) as [s1 ok] eqn:E1. apply validated_keeps in E1 as [Eh Ep].
    destruct ok; cbn [negb] in E; [|by apply Hsend in E]. apply bind_Ret in E as ([[s2 n] b0] & E0 & E).
    apply setup_keeps in E0 as (Eh2 & Ep2 & _). destruct b0; cbn [negb] in E; [|by apply Hsend in E].
    assert (request_headers s2 = request_headers s) as Er by (unfold request_headers; by rewrite Eh2, Eh).
    assert (isWebSocketConnectionRequest s2 = isWebSocketConnectionRequest s) as Eq
      by (unfold isWebSocketConnectionRequest; by rewrite Er).
    rewrite <- Ep, <- Ep2, <- Eq. destruct (isWebSocketConnectionRequest s2).
    + unfold upgrade in E. destruct (prohibitConnectionUpgrade s2); [ret_inv E; done|]. split; [done|]. split; [done|].
      apply bind_Ret in E as ([s3 b1] & Eon & E). destruct b1; cbn [negb] in E; [|by apply Hsend in E].
      apply bind_Ret in E as ([s4 b2] & Eset & E). destruct b2; [|by ret_inv E].
      exists s2, s3. split; [done|]. split; [done|]. destruct (handshake_conditions _ _ Eset) as [Hk Hv]. split; [done|]. split; [done|].
      apply Hfirst. congruence.
    + ret_inv E. destruct b0; cbn [negb] in E; [|by ret_inv E]. destruct (n =? 0); [|by ret_inv E].
      unfold changeToNextParserFromClientContentData in E. ret_inv E. by apply Hsend in E.
  - unfold changeToNextParserFromClientContentData in E. ret_inv E. by apply Hsend in E.
  - unfold changeToNextParserFromClientContentData in E. ret_inv E. by apply Hsend in E.
Qed.

(** Only a Content-Length brings a body: without one, or with the length 0, the
    bytes after the headers are read as the next request, whatever the
    Transfer-Encoding says. *)
Theorem body_needs_length s s' b :
  hs_current s = Some HEADERS -> hs_changeToNextParser now s = Ret (s', b) -> hs_current s' = Some BODY ->
  (getOptionAsUINT64 (bs "Content-Length") 10 (request_headers s)).1 <> 0.
Proof.
  intros Ec E Hb. assert (forall s1 b1, sendFullHTTPResponse now s1 = Ret (s', b1) -> False) as Hsend.
  { intros s1 b1 E1. apply sendFull_current in E1 as [C|C]; congruence. }
  unfold hs_changeToNextParser in E. rewrite Ec in E. unfold changeToNextParserFromClientHeaders in E.
  destruct (validateHTTPv11Requirements _) as [s1 ok] eqn:E1. apply validated_keeps in E1 as [Eh _].
  destruct ok; cbn [negb] in E; [|by apply Hsend in E]. apply bind_Ret in E as ([[s2 n] b0] & E0 & E).
  apply setup_keeps in E0 as (_ & _ & En). destruct b0; cbn [negb] in E; [|by apply Hsend in E].
  unfold request_headers in En |- *. rewrite Eh in En. rewrite <- En.
  destruct (isWebSocketConnectionRequest s2).
  - unfold upgrade in E. destruct (prohibitConnectionUpgrade s2); [ret_inv E; done|].
    ret_inv E. destruct b0; cbn [negb] in E; [|by apply Hsend in E]. ret_inv E. destruct b0; ret_inv E; done.
  - ret_inv E. destruct b0; cbn [negb] in E; [|by ret_inv E]. destruct (Z.eqb_spec n 0); [|done].
    unfold changeToNextParserFromClientContentData in E. ret_inv E. by apply Hsend in E.
Qed.
End Upgrade.

Section Handshake.
Context {M : Type} `{Container M} `{!MMapFile M} {S : Type} `{SinkSpec S} {O : Type} `{Sink O} `{!Source O} {A : Type}.
Context `{!ContentObjects O} `{!HttpObjects O} `{!HttpHandlers M S O A}.
Context `{RandomBytes} `{DateFormat} `{RFC4648} `{SHA1}.
Variable now : Z.
Implicit Types s : HttpServer M S O A.

Lemma add_header_values n v k h :
  has_room (1 + k) h -> 0 <= k -> option_values n h = [] ->
  exists h', add_header n v h = Ret h' /\ has_room k h' /\ option_values n h' = [v] /\
    forall m, iequals m n = false -> option_values m h' = option_values m h.
Proof.
  intros Hroom Hk Hn. destruct (add_values n v k h Hroom Hk) as (h' & E & R & O1 & P1). exists h'. unfold add_header. rewrite E.
  split; [done|]. split; [done|]. split; [|done]. apply Permutation_singleton_r. rewrite P1, Hn; [done|].
  unfold iequals. by rewrite bool_decide_eq_true.
Qed.

(** The handshake is not the answer RFC 6455 asks for: nothing comes before the
    headers, the status line "HTTP/1.1 101" is missing; and the accept key is the
    base64 of the 40 hexadecimal digits of the digest, 56 characters, in place of
    the base64 of its 20 bytes, 28 characters. *)
Theorem handshake_malformed s acc key digest :
  zlen (rEMOTE_ADDR (networkClientInfo (hs_info s))) < INET6_ADDRSTRLEN ->
  has_room 7 (rs_headers (hs_response s)) ->
  option_values (bs "Upgrade") (rs_headers (hs_response s)) = [] ->
  option_values (bs "Connection") (rs_headers (hs_response s)) = [] ->
  option_values (bs "Sec-WebSocket-Accept") (rs_headers (hs_response s)) = [] ->
  getOptionValueStringByName (bs "Sec-WebSocket-Key") (request_headers s) = key -> zlen key = 24 ->
  getOptionValueStringByName (bs "Sec-WebSocket-Version") (request_headers s) = bs "13" ->
  getOptionValueStringByName (bs "Sec-WebSocket-Protocol") (request_headers s) = [] ->
  EVP_sha1 (key ++ WEBSOCKET_MAGIC_STRING) = digest -> zlen digest = 20 ->
  sink_rep (hs_stream s) acc ->
  exists h, option_values (bs "Upgrade") h = [bs "websocket"] /\
    option_values (bs "Sec-WebSocket-Accept") h = [rfc4648_encode (toHex digest)] /\
    zlen (rfc4648_encode (toHex digest)) = 56 /\ zlen (rfc4648_encode digest) = 28 /\
    (zlen (header_text h) <= sink_room (hs_stream s) ->
     exists s', setupAndSendWebSocketHeaderResponse now s = Ret (s', true) /\
       m_statusCode (rs_status (hs_response s')) = 101 /\ sink_rep (hs_stream s') (acc ++ header_text h)).
Proof.
  intros Ha Hroom Hu Hc Hk Ekey Hlen Ever Eproto Edig Hdig Hrep.
  destruct (add_header_values (bs "Upgrade") (bs "websocket") 6 (rs_headers (hs_response s)) Hroom ltac:(lia) Hu)
    as (h1 & E1 & R1 & V1 & O1).
  destruct (add_header_values (bs "Connection") (bs "Upgrade") 5 h1 R1 ltac:(lia)) as (h2 & E2 & R2 & V2 & O2); [by rewrite O1|].
  destruct (add_header_values (bs "Sec-WebSocket-Accept") (accept_key key) 4 h2 R2 ltac:(lia)) as (h3 & E3 & R3 & V3 & O3);
    [by rewrite O2, O1|].
  set (r := rs_set_immutable true (rs_set_headers h3 (set_code S_101_SWITCHING_PROTOCOLS (hs_response s)))).
  destruct (framing_headers_values now r 1) as (h & E & R & V); [by apply (has_room_less 4); [|lia]|lia|].
  assert (toHex digest <> []) as Hne by (destruct digest; done).
  assert (accept_key key = rfc4648_encode (toHex digest)) as Ekk.
  { unfold accept_key, calcSHA1. rewrite Edig. apply encodeToBase64_plain. rewrite toHex_length. lia. }
  exists h. split_and!.
  - rewrite V. unfold framing_value. known_names. change (rs_headers r) with h3. rewrite O3, O2, V1 by done. by destruct (_ =? SIZE_MAX).
  - rewrite V. unfold framing_value. known_names. change (rs_headers r) with h3. rewrite V3, Ekk. by destruct (_ =? SIZE_MAX).
  - rewrite rfc4648_zlen, toHex_length, Hdig. done.
  - by rewrite rfc4648_zlen, Hdig.
  - intros Hsz. unfold setupAndSendWebSocketHeaderResponse. rewrite Ekey.
    rewrite bool_decide_eq_false_2 by (intros ->; done). replace (zlen key =? 24) with true by lia. cbn [negb orb].
    rewrite Ever. cbn [bool_decide]. change (bool_decide (bs "13" <> bs "13")) with false. cbv iota.
    unfold upgrade_headers.
    change (rs_headers (hs_response (hs_on_response (set_code S_101_SWITCHING_PROTOCOLS) s))) with (rs_headers (hs_response s)).
    change (request_headers (hs_on_response (set_code S_101_SWITCHING_PROTOCOLS) s)) with (request_headers s).
    rewrite E1. cbn [mbind outcome_bind]. rewrite E2. cbn [mbind outcome_bind]. rewrite E3. cbn [mbind outcome_bind].
    rewrite Eproto. cbn [mbind outcome_bind].
    match goal with |- context [sendHTTPHeadersResponse now ?x] => set (s1 := x) end.
    destruct (headers_sent now s1 h acc) as (l & up & E5 & Hrep' & _); try done.
    { change (hs_response s1) with r. unfold response_headers. rewrite E. done. }
    eexists. split; [exact E5|]. split; [done|]. exact Hrep'.
Qed.
End Handshake.

(** ** What a request announces *)

Lemma split_at_first c (a b : bytes) : c ∉ a -> split_at c (a ++ c :: b) = Some (a, b).
Proof.
  intros Ha. unfold split_at. rewrite find_char_split by done. rewrite ztake_app_le, ztake_ge by lia.
  rewrite zdrop_app_ge by lia. replace (zlen a + 1 - zlen a) with 1 by lia. by rewrite zdrop_cons, zdrop_le0 by lia.
Qed.

(** The user and the password of a Basic authorization come back as they were
    encoded, as long as the name has no colon. *)
Theorem basic_auth_roundtrip `{RFC4648} (username password : bytes) (i : RequestInfo) :
  58 ∉ username -> Forall is_byte (username ++ bs ":" ++ password) -> zlen (username ++ bs ":" ++ password) <= 1000000000 ->
  parseBasicAuth (BASIC_PREFIX ++ encodeToBase64 (username ++ bs ":" ++ password) false) i =
    (ri_set_auth (setAuthentication username password) i, true).
Proof.
  intros Hu Hb Hl. set (d := username ++ bs ":" ++ password) in *. pose proof (rfc4648_size d).
  unfold parseBasicAuth. rewrite starts_with_app. cbn [negb]. rewrite zdrop_app_ge, Z.sub_diag, zdrop_le0 by lia.
  rewrite encodeToBase64_plain by lia. unfold decodeFromBase64.
  pose proof (zlen_nonneg (rfc4648_encode d)). rewrite to_int_small, ztake_ge by lia. rewrite bio_read_ok by (done || lia).
  change (default [] (Some d)) with (username ++ 58 :: password). by rewrite split_at_first.
Qed.

(** The host comes back as it was sent, and the port modulo 65536: the test
    against 65535 comes after the conversion to 16 bits and never fails. *)
Theorem host_port_truncated (host : bytes) (port : Z) (i : RequestInfo) :
  host <> [] -> 58 ∉ host -> 0 <= port <= ULONG_MAX ->
  let i' := parseHostHeader (host ++ bs ":" ++ to_string port) i in
  virtualHost i' = host /\ virtualPort i' = port mod 65536.
Proof.
  intros Hne Hh Hp. cbv zeta. unfold parseHostHeader. destruct host as [|c host]; [done|].
  change (bs ":" ++ to_string port) with (58 :: to_string port). cbn [app].
  change (c :: host ++ 58 :: to_string port) with ((c :: host) ++ 58 :: to_string port).
  rewrite split_at_first by done. unfold parsePort, to_string. rewrite strtoul_print by lia.
  pose proof (Z.mod_pos_bound port 65536 ltac:(lia)). unfold wrapw. change (2 ^ 16) with 65536.
  replace (port mod 65536 <=? 65535) with true by lia. done.
Qed.

(** ** Text for pages *)

(** A reader of the five entities. *)
Definition html_entities : list (bytes * byte) :=
  [(bs "&lt;", 60); (bs "&gt;", 62); (bs "&quot;", 34); (bs "&amp;", 38); (bs "&apos;", 39)].

Fixpoint html_decode (fuel : nat) (s : bytes) : bytes :=
  match fuel, s with
  | Datatypes.S fuel, c :: s' =>
      match List.find (fun e => starts_with s e.1) html_entities with
      | Some (e, v) => v :: html_decode fuel (zdrop (zlen e) s)
      | None => c :: html_decode fuel s'
      end
  | _, _ => []
  end.

Lemma html_char_entity i :
  In (html_char i, i) html_entities \/ (html_char i = [i] /\ i <> 38 /\ i <> 60 /\ i <> 62 /\ i <> 34 /\ i <> 39).
Proof.
  unfold html_char.
  destruct (Z.eqb_spec i 60) as [->|]; [left; cbn; tauto|]. destruct (Z.eqb_spec i 62) as [->|]; [left; cbn; tauto|].
  destruct (Z.eqb_spec i 34) as [->|]; [left; cbn; tauto|]. destruct (Z.eqb_spec i 38) as [->|]; [left; cbn; tauto|].
  destruct (Z.eqb_spec i 39) as [->|]; [left; cbn; tauto|]. right. repeat split; done.
Qed.

Definition html_plain (c : byte) : Prop := c <> 60 /\ c <> 62 /\ c <> 34 /\ c <> 39.

Lemma html_entity_read e v fuel rest :
  In (e, v) html_entities -> html_decode (Datatypes.S fuel) (e ++ rest) = v :: html_decode fuel rest /\ Forall html_plain e.
Proof.
  unfold html_entities. cbn [In]. intros Hin.
  repeat (destruct Hin as [[= <- <-]|Hin]; [split; [by destruct rest|unfold html_plain; apply (bool_decide_unpack _); vm_compute; exact I]|]). done.
Qed.

(** Encoded text is safe in a page: it has no angle brackets and no quotes, and
    a reader of the entities gets the text back, so no two texts are shown
    alike. *)
Theorem htmlEncode_safe (raw : bytes) :
  Forall html_plain (htmlEncode raw) /\ html_decode (length raw) (htmlEncode raw) = raw.
Proof.
  induction raw as [|i raw [IHs IHd]]; [by split|]. cbn [htmlEncode length].
  destruct (html_char_entity i) as [Hin|(-> & Hi)].
  - destruct (html_entity_read _ _ (length raw) (htmlEncode raw) Hin) as [-> He]. split; [by apply Forall_app|by rewrite IHd].
  - split; [constructor; [unfold html_plain; tauto|done]|]. cbn [app html_decode].
    assert (List.find (fun e => starts_with (i :: htmlEncode raw) e.1) html_entities = None) as ->.
    { assert (forall t, starts_with (i :: htmlEncode raw) (38 :: t) = false) as Hs.
      { intros t. cbn [starts_with]. by replace (i =? 38) with false by lia. }
      unfold html_entities. cbn [List.find fst].
      change (bs "&lt;") with (38 :: bs "lt;"). change (bs "&gt;") with (38 :: bs "gt;").
      change (bs "&quot;") with (38 :: bs "quot;"). change (bs "&amp;") with (38 :: bs "amp;").
      change (bs "&apos;") with (38 :: bs "apos;"). by rewrite !Hs. }
    by rewrite IHd.
Qed.
