(* ===== verification/HttpFlow.v ===== *)
(** * A request, from the bytes to the decision (the composition of Parser.v,
      SubParser.v, HttpLines.v, MimeHeader.v and HttpServer.v)

    The server is given the text of a request: the line
    [RequestLine::streamToUpstream] sends, the lines of the headers, an empty
    line.  The theorem says that the parser hands these lines to the sub-parsers
    one by one, that the server ends up with the request line and the headers that
    were sent, and that what it does then is the decision on the headers. *)

From S2P Require Import Prelude SafeInt Mem Streamable Container ContainerTheory BMem BChunks ChunkBuffer BRef.
From S2P Require Import SubParser Parser PartsTheory CLib HttpContent MimeHeader HeaderTheory Encoders UrlStream HttpVars HttpLines HttpHeaders HttpResponse WebSocket HttpServer HttpServerTheory.
From Stdlib Require Import ZArith Lia.

(** ** One line *)
Section Line.
Context {M : Type} `{Container M} `{!MMapFile M} {X : Type} `{!SubParserImpl M X}.
Implicit Types p : SubParser M X.

(** A sub-parser that waits for a line of at most [L] bytes, its end included. *)
Record at_line (L : Z) p : Prop := {
  al_buffer : buffer_ready (m_unparsedBuffer p);
  al_mode : m_parseMode p = DELIMITER;
  al_delim : m_parseDelimiter p = CRLF;
  al_pending : pending p = [];
  al_open : m_streamEnded p = false;
  al_max : m_maxSize (bc_base (m_unparsedBuffer p)) = L;
  al_chunks : L <= m_maxChunks (m_unparsedBuffer p);
  al_small : 0 < L /\ L + blockSize < SIZE_MOD }.

(** A line: the first CR LF after it is its end. *)
Definition one_line (line : bytes) : Prop := search true CRLF (line ++ CRLF) = Some (zlen line).

Lemma crlf_ok : delimiter_ok CRLF.
Proof. split; [done|]. split; [by repeat constructor|done]. Qed.

(** What a write sees of its data. *)
Lemma parseByDelimiter_clip p buf :
  0 < getSizeLeft (m_unparsedBuffer p) ->
  parseByDelimiter buf p = parseByDelimiter (ztake (getSizeLeft (m_unparsedBuffer p)) buf) p.
Proof. intros Hl. unfold parseByDelimiter. by rewrite append_clip. Qed.

Lemma flow_line L p line rest :
  at_line L p -> one_line line -> zlen line + 2 <= L ->
  exists q, writeIntoSubParser (line ++ CRLF ++ rest) p =
      (q ← run_parse q; Ret (clear_unparsed q, Some (wrap (zlen line + zlen (m_parseDelimiter q))))) /\
    toString SIZE_MAX 0 (getParsedBuffer q) = Ret (Some line) /\ csize (getParsedBuffer q) = zlen line /\
    sp_sub q = sp_sub p /\ m_parseDelimiter q = CRLF /\
    forall x r, at_line L (clear_unparsed (setParseResult r (sp_set_sub x q))).
Proof.
  intros [Hb Hm Hd Hp Ho Hmax Hch [HL Hsm]] Hone Hlen. pose proof crlf_ok as Hok. pose proof (zlen_nonneg line).
  assert (getSizeLeft (m_unparsedBuffer p) = L) as Hleft.
  { unfold getSizeLeft. cbn [csize bc_container get_base]. rewrite bc_size_ok by apply (br_ok _ Hb). fold (pending p).
    rewrite Hp, Hmax. change (zlen []) with 0. replace (0 >? L) with false by lia. lia. }
  set (buf := ztake L (line ++ CRLF ++ rest)).
  assert (buf = (line ++ CRLF) ++ ztake (L - zlen line - 2) rest) as Ebuf.
  { unfold buf. rewrite app_assoc, ztake_app_ge by (rewrite zlen_app; change (zlen CRLF) with 2; lia).
    do 2 f_equal. rewrite zlen_app. change (zlen CRLF) with 2. lia. }
  assert (zlen buf <= L) as Hbl by (unfold buf; rewrite zlen_ztake; lia).
  destruct (parseByDelimiter_at p buf (zlen line)) as (c & E & Hs & Hc & Hcc & Hrc & Hlim); [done| | |by rewrite Hd| |].
  { unfold fits. rewrite Hp, Hmax. change (zlen []) with 0. lia. }
  { rewrite Ebuf. by destruct line. }
  { rewrite Hd, Hp. cbn [app]. rewrite Ebuf. by apply search_app. }
  cbv zeta in *. rewrite Hp in *. cbn [app] in *.
  eexists. split; [|split; [|split; [exact Hc|split; [done|split; [exact Hd|]]]]].
  - unfold writeIntoSubParser. replace (zlen (line ++ CRLF ++ rest) =? 0) with false
      by (rewrite !zlen_app; change (zlen CRLF) with 2; pose proof (zlen_nonneg rest); lia).
    rewrite Hm, parseByDelimiter_clip, Hleft by lia. fold buf. rewrite E. change (zlen []) with 0.
    unfold blockSize, KB_MULT in Hsm. rewrite Z.sub_0_r, (wrap_small (zlen line)) by lia. done.
  - rewrite Hs, Ebuf, <- app_assoc, ztake_app_le, ztake_ge by lia. done.
  - intros x r. destruct (clear_ready c Hrc) as (Hr' & Hc' & Hl'). pose proof (same_limits_trans _ _ _ Hlim Hl') as Hl.
    destruct Hl as (E1 & _ & _ & _ & _ & E6 & _). split; try done.
    + change (m_maxSize (bc_base (Container.clear c).1) = L). congruence.
    + change (L <= m_maxChunks (Container.clear c).1). rewrite E1. done.
Qed.

(** When [parse()] changes the members of the derived class only. *)
Lemma line_parsed L p line rest x r :
  at_line L p -> one_line line -> zlen line + 2 <= L ->
  (forall q, toString SIZE_MAX 0 (getParsedBuffer q) = Ret (Some line) -> csize (getParsedBuffer q) = zlen line ->
     sp_sub q = sp_sub p -> parse q = Ret (sp_set_sub x q, r)) ->
  exists p', writeIntoSubParser (line ++ CRLF ++ rest) p = Ret (p', Some (zlen line + 2)) /\ at_line L p' /\
    sp_sub p' = x /\ m_parseStatus p' = r.
Proof.
  intros Hat Hone Hlen Hparse. destruct (flow_line L p line rest Hat Hone Hlen) as (q & -> & Hs & Hc & Hsub & Hd & Hall).
  unfold run_parse. rewrite (Hparse q Hs Hc Hsub). cbn [mbind outcome_bind].
  exists (clear_unparsed (setParseResult r (sp_set_sub x q))). split; [|by split_and!; [apply Hall|..]].
  change (m_parseDelimiter (setParseResult r (sp_set_sub x q))) with (m_parseDelimiter q). rewrite Hd.
  change (zlen CRLF) with 2. destruct Hat as [_ _ _ _ _ _ _ [_ Hsm]]. pose proof (zlen_nonneg line).
  unfold blockSize, KB_MULT in Hsm. by rewrite wrap_small by lia.
Qed.

(** A new sub-parser of lines of at most [L] bytes. *)
Lemma new_at_line L (x : X) :
  0 < L <= 256 * KB_MULT ->
  at_line L (setParseDataTargetSize L (setParseDelimiter CRLF (setParseStrategy DELIMITER (sp_new x)))).
Proof.
  intros HL. split; [apply buffer_ready_new; unfold SIZE_MOD, KB_MULT in *; lia|done..|cbn; unfold KB_MULT in *; lia|].
  unfold blockSize, SIZE_MOD, KB_MULT in *. lia.
Qed.

Lemma at_line_result L p r : at_line L p -> at_line L (setParseResult r p).
Proof. by intros [? ? ? ? ? ? ? ?]; split. Qed.
End Line.

(** ** The headers *)
Section Headers.
Context {M : Type} `{Container M} `{!MMapFile M} `{RandomBytes}.

(** A header line the sub-parser can take. *)
Definition header_fits (l : bytes) : Prop := l <> [] /\ one_line l /\ zlen l + 2 <= 16 * KB_MULT.

Lemma header_line_parsed (p : SubParser M MIME_Header) line rest h :
  at_line (16 * KB_MULT) p -> header_fits line -> parseOptionValue line (sp_sub p) = Ret h ->
  exists p', writeIntoSubParser (line ++ CRLF ++ rest) p = Ret (p', Some (zlen line + 2)) /\
    at_line (16 * KB_MULT) p' /\ sp_sub p' = h /\ m_parseStatus p' = GET_MORE_DATA.
Proof.
  intros Hat (Hne & Hone & Hlen) Hh. apply line_parsed; [done..|]. intros q Hs Hc Hsub. cbn [parse header_sub].
  unfold header_parse, toStringEx. rewrite Hc, Hs, Hsub. pose proof (nonempty_length line Hne).
  replace (zlen line =? 0) with false by lia. cbn [mbind outcome_bind from_option id]. by rewrite Hh.
Qed.

Lemma header_end_parsed (p : SubParser M MIME_Header) rest :
  at_line (16 * KB_MULT) p ->
  exists p', writeIntoSubParser (CRLF ++ rest) p = Ret (p', Some 2) /\
    at_line (16 * KB_MULT) p' /\ sp_sub p' = sp_sub p /\ m_parseStatus p' = GOTO_NEXT_SUBPARSER.
Proof.
  intros Hat. destruct (line_parsed (16 * KB_MULT) p [] rest (sp_sub p) GOTO_NEXT_SUBPARSER Hat) as (p' & E & ?); try done.
  - intros q Hs Hc Hsub. cbn [parse header_sub]. unfold header_parse. rewrite Hc. change (zlen [] =? 0) with true.
    cbv iota. rewrite <- Hsub. by destruct q.
  - by exists p'.
Qed.

(** The text of header lines. *)
Definition lines_text (lines : list bytes) : bytes := concat (map (fun l => l ++ CRLF) lines).

Lemma lines_text_cons l lines : lines_text (l :: lines) ++ CRLF = (l ++ CRLF) ++ lines_text lines ++ CRLF.
Proof. unfold lines_text. cbn [map concat]. by rewrite <- !app_assoc. Qed.

(** Any protocol while the headers are its part: the header lines, and the empty
    line after them. *)
Lemma headers_parsed {T} `{!ParserImpl T} (part : Part (T := T) (M := M) (X := MIME_Header)) lines fuel ttl (P : Parser T) h' :
  part_current part (pr_impl P) -> at_line (16 * KB_MULT) (part_get part (pr_impl P)) ->
  Forall header_fits lines -> header_run (map OpLine lines) (sp_sub (part_get part (pr_impl P))) = Ret h' ->
  zlen (lines_text lines ++ CRLF) < SIZE_MOD -> ttl + zlen lines <= m_maxTTL P -> zlen lines < Z.of_nat fuel ->
  exists p, at_line (16 * KB_MULT) p /\ sp_sub p = h' /\
    forall y, changeToNextParser (part_set part p (pr_impl P)) = Ret (y, true) ->
      parses fuel (lines_text lines ++ CRLF) ttl P (after_change y P).
Proof.
  intros Hcur Hat Hlines. revert fuel ttl P Hcur Hat. induction Hlines as [|l lines Hl _ IH];
    intros fuel ttl P Hcur Hat Hrun Hsz Ht Hf.
  - injection Hrun as <-. rewrite (@zlen_nil bytes) in Ht, Hf. destruct fuel as [|fuel]; [lia|].
    destruct (header_end_parsed (setParseResult GET_MORE_DATA (part_get part (pr_impl P))) []) as (p & E & Hat' & Hsub & Hst);
      [by apply at_line_result|].
    exists p. split; [done|]. split; [done|]. change (lines_text [] ++ CRLF) with CRLF. intros y Hy.
    rewrite app_nil_r in E. destruct (part_written part _ _ _ _ Hcur E) as (Hw & Hs & Ha).
    eapply parses_last; [lia|done|exact Hw|by rewrite Hs|exact Hy].
  - cbn [map header_run] in Hrun. apply bind_Ret in Hrun as (h1 & Eh & Hrun). cbn [header_op] in Eh.
    rewrite zlen_cons in *. pose proof (zlen_nonneg lines). destruct fuel as [|fuel]; [lia|].
    rewrite lines_text_cons in *.
    destruct (header_line_parsed (setParseResult GET_MORE_DATA (part_get part (pr_impl P))) l (lines_text lines ++ CRLF) h1)
      as (p1 & E & Hat1 & Hsub1 & Hst1); [by apply at_line_result|done|done|].
    destruct (IH fuel (ttl + 1) (pr_set_impl (part_set part p1 (pr_impl P)) P)) as (p & Hat' & Hsub' & Hp);
      cbn [pr_set_impl pr_impl]; rewrite ?part_get_set; [by apply part_stays|done|by rewrite Hsub1| | |lia|].
    { rewrite zlen_app in Hsz. pose proof (zlen_nonneg (l ++ CRLF)). lia. }
    { change (m_maxTTL (pr_set_impl _ P)) with (m_maxTTL P). lia. }
    exists p. split; [done|]. split; [done|]. intros y Hy.
    assert (E' : writeIntoSubParser ((l ++ CRLF) ++ lines_text lines ++ CRLF) (setParseResult GET_MORE_DATA (part_get part (pr_impl P))) = Ret (p1, Some (zlen (l ++ CRLF)))).
    { rewrite <- app_assoc, E, zlen_app. done. }
    destruct (part_written part _ _ _ _ Hcur E') as (Hw & Hs & Ha).
    eapply parses_more; [lia|done|done|by destruct (lines_text lines)|exact Hw|by rewrite Hs|].
    apply Hp. cbn [pr_set_impl pr_impl]. by rewrite part_set_set.
Qed.
End Headers.

(** ** The request *)
Section Request.
Context {M : Type} `{Container M} `{!MMapFile M} {S : Type} `{Sink S} {O : Type} `{Sink O} `{!Source O} {A : Type}.
Context `{!ContentObjects O} `{!HttpObjects O} `{!HttpHandlers M S O A}.
Context `{RandomBytes} `{DateFormat} `{Base64BIO} `{SHA1}.
Variable now : Z.
Implicit Types (s : HttpServer M S O A) (P : Parser (HttpServer M S O A)).
Let protocol : ParserImpl (HttpServer M S O A) := http_protocol now.
#[local] Existing Instance protocol.

(** A server that waits for a request. *)
Record waiting s : Prop := {
  wt_current : hs_current s = Some REQUEST_LINE;
  wt_line : at_line (128 * KB_MULT) (hs_requestLine s);
  wt_headers : at_line (16 * KB_MULT) (hs_headers s);
  wt_request : request_line s = requestline_init;
  wt_options : request_headers s = header_init }.

(** A new server does. *)
Lemma httpserver_new_waits app up s : httpserver_new app up = Ret s -> waiting s.
Proof.
  unfold httpserver_new. intros E. apply bind_Ret in E as (r & _ & [= <-]).
  split; [done|apply new_at_line|apply new_at_line|done|done]; done.
Qed.

(** The sub-parser of the headers, and the state while it is the current one. *)
Definition server_headers : Part (T := HttpServer M S O A) (M := M) (X := MIME_Header).
Proof.
  refine {| part_current s := hs_current s = Some HEADERS; part_get := hs_headers; part_set := hs_set_headers |}; try done.
  - by intros [].
  - intros x. cbn. by intros ->.
  - intros r x. cbn. by intros ->.
  - intros buf x. cbn. by intros ->.
  - intros x. cbn. by intros ->.
Defined.

(** The answer takes the version of the request. *)
Definition response_version (v : Version) (r : Response O) : Response O :=
  rs_set_status (mkStatus (setMinor (m_minorVersion v) (setMajor 1 (st_httpVersion (rs_status r))))
    (m_statusCode (rs_status r)) (m_statusMessage (rs_status r))) r.

(** Everything apart from the sub-parsers of the request line and of the headers,
    the current sub-parser and the version of the answer is as it was. *)
Definition request_only s s' : Prop :=
  hs_content s' = hs_content s /\ hs_info s' = hs_info s /\ hs_ws s' = hs_ws s /\
  connectionContinue s' = connectionContinue s /\ prohibitConnectionUpgrade s' = prohibitConnectionUpgrade s /\
  m_staticContentElements s' = m_staticContentElements s /\ m_mimeTypes s' = m_mimeTypes s /\
  m_currentFileExtension s' = m_currentFileExtension s /\ hs_log s' = hs_log s /\
  hs_response s' = response_version (rl_httpVersion (request_line s')) (hs_response s).

(** The decision on a line of HTTP/1, with an application that accepts the URI. *)
Lemma line_decided s :
  hs_current s = Some REQUEST_LINE -> m_majorVersion (rl_httpVersion (request_line s)) = 1 ->
  (forall s, onHTTPClientURIReceived s = Ret (s, true)) ->
  hs_changeToNextParser now s =
    Ret (hs_set_current (Some HEADERS) (hs_set_response (response_version (rl_httpVersion (request_line s)) (hs_response s)) s), true).
Proof.
  intros Hcur Hmaj Huri. unfold hs_changeToNextParser. rewrite Hcur.
  unfold changeToNextParserFromClientRequestLine, prepareServerVersionOnURI. cbv zeta.
  change (request_line (hs_on_response ?f s)) with (request_line s). rewrite Hmaj. cbn [Z.eqb negb Pos.eqb]. by rewrite Huri.
Qed.

(** What a server makes of the head of a request that is written to it. *)
Definition head_read (r : RequestLine M) (vs : list (bytes * bytes)) (line : bytes) (h : MIME_Header) P : Prop :=
  exists s, hs_current s = Some HEADERS /\ at_line (128 * KB_MULT) (hs_requestLine s) /\ at_line (16 * KB_MULT) (hs_headers s) /\
    same_request r (request_line s) vs /\ header_view (request_headers s) = header_view h /\ request_only (pr_impl P) s /\
    forall s', changeToNextParserFromClientHeaders now s = Ret (s', true) ->
      pr_write (line ++ CRLF ++ header_text h) P = Ret (after_change s' P, Some (zlen (line ++ CRLF ++ header_text h))).

Lemma server_reads_head r vs line h P :
  waiting (pr_impl P) -> 35 <= m_maxTTL P ->
  sendable r vs -> m_majorVersion (rl_httpVersion r) = 1 ->
  requestline_text r = Ret (line ++ CRLF) -> one_line line -> zlen line + 2 <= 128 * KB_MULT ->
  header_wf h -> Forall option_ok (header_options h) -> zlen (m_headers h) <= 32 -> Forall header_fits (header_lines h) ->
  (forall s, onHTTPClientURIReceived s = Ret (s, true)) ->
  zlen (line ++ CRLF ++ header_text h) < SIZE_MOD ->
  head_read r vs line h P.
Proof.
  intros [Hcur Hl Hh Hrl Hro] HT Hsend Hmaj Htext Hone Hlen Hwf Hok Hn Hfit Huri Hsz.
  destruct (requestline_reads r vs Hsend) as (line' & Htext' & Hread). rewrite Htext in Htext'. injection Htext' as Eline.
  apply app_inj_2 in Eline as [<- _]; [|done]. clear Htext.
  destruct (Hread requestline_init eq_refl) as (x & Hx & Hparse). clear Hread.
  destruct (headers_read_back h Hwf Hok Hn) as (h' & Hrun & _ & Hview).
  set (s0 := pr_impl P) in *.
  destruct (line_parsed (128 * KB_MULT) (setParseResult GET_MORE_DATA (hs_requestLine s0)) line (header_text h) x GOTO_NEXT_SUBPARSER)
    as (pl & El & Hatl & Hsubl & Hstl); [by apply at_line_result|done|done| |].
  { intros q Hs _ Hsub. cbn [parse requestline_sub]. apply Hparse; [|done]. by rewrite Hsub. }
  set (s1 := hs_set_line pl s0).
  set (s2 := hs_set_current (Some HEADERS) (hs_set_response (response_version (rl_httpVersion x) (hs_response s0)) s1)).
  assert (hs_changeToNextParser now s1 = Ret (s2, true)) as Hchange.
  { rewrite line_decided; unfold request_line; change (hs_requestLine s1) with pl; rewrite ?Hsubl; [done|done| |done].
    destruct Hx as (_ & _ & -> & _). done. }
  destruct (headers_parsed server_headers (header_lines h) (Z.to_nat (m_maxTTL P) + 1) 1 (pr_set_impl s2 P) h') as (ph & Hath & Hsubh & Hgo).
  { done. } { exact Hh. } { exact Hfit. } { by rewrite <- Hro in Hrun. }
  { rewrite app_assoc, zlen_app in Hsz. pose proof (zlen_nonneg (line ++ CRLF)). unfold header_text, lines_text in *. lia. }
  { unfold header_lines, zlen in *. rewrite length_map. change (m_maxTTL (pr_set_impl s2 P)) with (m_maxTTL P). lia. }
  { unfold header_lines, zlen in *. rewrite length_map. lia. }
  exists (hs_set_headers ph s2). split; [done|]. split; [exact Hatl|]. split; [exact Hath|].
  split; [unfold request_line; change (hs_requestLine (hs_set_headers ph s2)) with pl; by rewrite Hsubl|].
  split; [unfold request_headers; change (hs_headers (hs_set_headers ph s2)) with ph; by rewrite Hsubh|].
  split.
  { unfold request_only, request_line. change (hs_requestLine (hs_set_headers ph s2)) with pl. rewrite Hsubl. by split_and!. }
  intros s' Hs'. unfold pr_write. pose proof (nonempty_length (line ++ CRLF ++ header_text h)) as Hne.
  assert (line ++ CRLF ++ header_text h <> []) as Hnn by (by destruct line). specialize (Hne Hnn).
  replace (zlen (line ++ CRLF ++ header_text h) =? 0) with false by lia. unfold parse_fuel.
  replace (Z.to_nat (m_maxTTL P) + 2)%nat with (Datatypes.S (Z.to_nat (m_maxTTL P) + 1)) by lia.
  rewrite app_assoc in *.
  change (after_change s' P) with (after_change s' (pr_set_impl s2 P)).
  eapply (parses_next _ (line ++ CRLF) (header_text h) 0 P _ s1 s2); try done; try lia; change (pr_impl P) with s0.
  - cbn [currentSubParser protocol http_protocol]. by rewrite Hcur.
  - unfold header_text. by destruct (concat _).
  - cbn [cur_writeIntoSubParser cur_setParseResult protocol http_protocol]. rewrite Hcur. cbn [hs_current hs_set_line].
    rewrite Hcur. cbn [hs_requestLine hs_set_line]. rewrite El, zlen_app. done.
  - cbn [cur_getParseStatus protocol http_protocol]. change (hs_current s1) with (hs_current s0). by rewrite Hcur.
  - exact (Hgo s' Hs').
Qed.

(** C3. A request that is sent is the request the server decides on: given the line of
    a request and the lines of headers, in one write, the server reaches the
    decision on the headers with the same method, URI, version and variables and
    the same options, and with nothing else changed; when the decision is taken
    the write has taken every byte. *)
Theorem request_received (r : RequestLine M) (vs : list (bytes * bytes)) (line : bytes) (h : MIME_Header) P :
  waiting (pr_impl P) -> 35 <= m_maxTTL P ->
  sendable r vs -> m_majorVersion (rl_httpVersion r) = 1 ->
  requestline_text r = Ret (line ++ CRLF) -> one_line line -> zlen line + 2 <= 128 * KB_MULT ->
  header_wf h -> Forall option_ok (header_options h) -> zlen (m_headers h) <= 32 -> Forall header_fits (header_lines h) ->
  (forall s, onHTTPClientURIReceived s = Ret (s, true)) ->
  zlen (line ++ CRLF ++ header_text h) < SIZE_MOD ->
  exists s, hs_current s = Some HEADERS /\ at_line (128 * KB_MULT) (hs_requestLine s) /\ at_line (16 * KB_MULT) (hs_headers s) /\
    same_request r (request_line s) vs /\ header_view (request_headers s) = header_view h /\ request_only (pr_impl P) s /\
    forall s', changeToNextParserFromClientHeaders now s = Ret (s', true) ->
      pr_write (line ++ CRLF ++ header_text h) P = Ret (after_change s' P, Some (zlen (line ++ CRLF ++ header_text h))).
Proof. exact (server_reads_head r vs line h P). Qed.
End Request.
