(* ===== verification/HttpClient.v ===== *)
(** * The HTTP/1 client (Protocol_HTTP/httpv1_client.cpp)

    [HTTPv1_Client] is a [Parser] over the structures it shares with the server
    (httpv1_base.h): it sends the line, the headers and the body of its request when
    the protocol starts, and reads the status line, the headers and the body of the
    response with its sub-parsers.  Of the sub-parsers of the request it uses the
    members of the derived classes only. *)

From S2P Require Import Prelude SafeInt Mem Streamable Container ContainerTheory BMem BChunks ChunkBuffer BRef.
From S2P Require Import SubParser Parser CLib HttpContent MimeHeader HeaderTheory Encoders UrlStream HttpVars HttpLines HttpHeaders HttpResponse.
From Stdlib Require Import ZArith Lia.

(** [m_currentSubParser]. *)
Inductive ClientPart := CP_STATUS | CP_HEADERS | CP_BODY.

(** What the headers of a response say, apart from the headers themselves. *)
Record Received := mkReceived {
  rc_security : Security;
  rc_cookies : ServerCookies;
  rc_cacheControl : CacheControl;
  rc_realm : bytes;
  m_serverContentType : bytes }.

Definition received_new : Received := mkReceived security_new [] cachecontrol_new [] [].

Record HttpClient (M S O : Type) := mkHttpClient {
  cl_requestLine : RequestLine M;
  cl_headers : MIME_Header;
  cl_content : Content O;
  cl_info : RequestInfo;
  m_clientCookies : ClientCookies;
  sr_status : SubParser M Status;
  sr_headers : SubParser M MIME_Header;
  sr_content : SubParser M (Content O);
  cl_received : Received;
  cl_current : option ClientPart;
  cl_stream : S }.
Arguments mkHttpClient {_ _ _} _ _ _ _ _ _ _ _ _ _ _.
Arguments cl_requestLine {_ _ _} _.
Arguments cl_headers {_ _ _} _.
Arguments cl_content {_ _ _} _.
Arguments cl_info {_ _ _} _.
Arguments m_clientCookies {_ _ _} _.
Arguments sr_status {_ _ _} _.
Arguments sr_headers {_ _ _} _.
Arguments sr_content {_ _ _} _.
Arguments cl_received {_ _ _} _.
Arguments cl_current {_ _ _} _.
Arguments cl_stream {_ _ _} _.

(** ** The realm of WWW-Authenticate

    At the beginning of a line: spaces, Basic, at least one space, the name Realm and
    an equals sign, a text between quotes, anything; in any case of the letters. *)
Fixpoint skip_spaces (s : bytes) : bytes :=
  match s with
  | c :: s' => if c =? 32 then skip_spaces s' else s
  | [] => []
  end.

Definition realm_here (s : bytes) : option bytes :=
  let s := skip_spaces s in
  if negb (istarts_with s (bs "Basic ")) then None
  else
    let s := skip_spaces (zdrop 5 s) in
    if negb (istarts_with s (bs "Realm=" ++ [34])) then None
    else split_at 34 (zdrop 7 s) ≫= (fun r => Some r.1).

(** The leftmost match takes the rest of the text, so it is the only one. *)
Fixpoint realm_search (prev : option Z) (s : bytes) : option bytes :=
  match (if at_line_start prev s then realm_here s else None) with
  | Some r => Some r
  | None => match s with [] => None | c :: s => realm_search (Some c) s end
  end.

Section HttpClient.
Context {M : Type} `{Container M} `{!MMapFile M} {S : Type} `{Sink S} {O : Type} `{Sink O} `{!Source O}.
Context `{!ContentObjects O} `{!HttpObjects O} `{RandomBytes} `{DateFormat} `{Base64BIO}.
Implicit Types c : HttpClient M S O.

(** *** Assignments *)
Definition cl_set_line (v : RequestLine M) c : HttpClient M S O :=
  mkHttpClient v (cl_headers c) (cl_content c) (cl_info c) (m_clientCookies c) (sr_status c) (sr_headers c) (sr_content c)
    (cl_received c) (cl_current c) (cl_stream c).
Definition cl_set_headers (v : MIME_Header) c : HttpClient M S O :=
  mkHttpClient (cl_requestLine c) v (cl_content c) (cl_info c) (m_clientCookies c) (sr_status c) (sr_headers c) (sr_content c)
    (cl_received c) (cl_current c) (cl_stream c).
Definition cl_set_content (v : Content O) c : HttpClient M S O :=
  mkHttpClient (cl_requestLine c) (cl_headers c) v (cl_info c) (m_clientCookies c) (sr_status c) (sr_headers c) (sr_content c)
    (cl_received c) (cl_current c) (cl_stream c).
Definition cl_set_info (v : RequestInfo) c : HttpClient M S O :=
  mkHttpClient (cl_requestLine c) (cl_headers c) (cl_content c) v (m_clientCookies c) (sr_status c) (sr_headers c) (sr_content c)
    (cl_received c) (cl_current c) (cl_stream c).
Definition cl_set_cookies (v : ClientCookies) c : HttpClient M S O :=
  mkHttpClient (cl_requestLine c) (cl_headers c) (cl_content c) (cl_info c) v (sr_status c) (sr_headers c) (sr_content c)
    (cl_received c) (cl_current c) (cl_stream c).
Definition sr_set_status (v : SubParser M Status) c : HttpClient M S O :=
  mkHttpClient (cl_requestLine c) (cl_headers c) (cl_content c) (cl_info c) (m_clientCookies c) v (sr_headers c) (sr_content c)
    (cl_received c) (cl_current c) (cl_stream c).
Definition sr_set_headers (v : SubParser M MIME_Header) c : HttpClient M S O :=
  mkHttpClient (cl_requestLine c) (cl_headers c) (cl_content c) (cl_info c) (m_clientCookies c) (sr_status c) v (sr_content c)
    (cl_received c) (cl_current c) (cl_stream c).
Definition sr_set_content (v : SubParser M (Content O)) c : HttpClient M S O :=
  mkHttpClient (cl_requestLine c) (cl_headers c) (cl_content c) (cl_info c) (m_clientCookies c) (sr_status c) (sr_headers c) v
    (cl_received c) (cl_current c) (cl_stream c).
Definition cl_set_received (v : Received) c : HttpClient M S O :=
  mkHttpClient (cl_requestLine c) (cl_headers c) (cl_content c) (cl_info c) (m_clientCookies c) (sr_status c) (sr_headers c)
    (sr_content c) v (cl_current c) (cl_stream c).
Definition cl_set_current (v : option ClientPart) c : HttpClient M S O :=
  mkHttpClient (cl_requestLine c) (cl_headers c) (cl_content c) (cl_info c) (m_clientCookies c) (sr_status c) (sr_headers c)
    (sr_content c) (cl_received c) v (cl_stream c).
Definition cl_set_stream (v : S) c : HttpClient M S O :=
  mkHttpClient (cl_requestLine c) (cl_headers c) (cl_content c) (cl_info c) (m_clientCookies c) (sr_status c) (sr_headers c)
    (sr_content c) (cl_received c) (cl_current c) v.

Definition on_line (f : RequestLine M -> RequestLine M) c : HttpClient M S O := cl_set_line (f (cl_requestLine c)) c.
Definition on_version (f : Version -> Version) : RequestLine M -> RequestLine M := fun r => rl_set_version (f (rl_httpVersion r)) r.

(** ** The request *)
Definition client_agent : bytes := bs "libMantids/" ++ to_string 0 ++ bs "." ++ to_string 6.

Definition httpclient_new (up : S) : HttpClient M S O :=
  let line := setHTTPMethod (bs "GET") (on_version (fun v => setMinor 0 (setMajor 1 v)) requestline_init) in
  mkHttpClient line header_init content_default (ri_set_agent client_agent requestinfo_new) [] status_new header_new
    (content_new (make_object BIN)) received_new (Some CP_STATUS) up.

Definition setClientRequest (hostName uriPath : bytes) c : HttpClient M S O :=
  let c := match hostName with [] => c | _ => on_line (on_version (upgradeMinor 1)) c end in
  cl_set_info (ri_set_host hostName (cl_info c)) (on_line (setRequestURI uriPath) c).

(** The variables of the URL and of the body stay in the client. *)
Definition prepareRequestAsPost (t : ContainerType) (vars : Content O -> outcome O) (hostName uriPath : bytes) c
    : outcome (HttpClient M S O * O) :=
  let c := on_line (setHTTPMethod (bs "POST")) (setClientRequest hostName uriPath c) in
  let c := cl_set_content (setContainerType t (cl_content c)) c in
  postVars ← vars (cl_content c); Ret (c, postVars).
Definition prepareRequestAsPostMIME := prepareRequestAsPost MIME getMultiPartVars.
Definition prepareRequestAsPostURL := prepareRequestAsPost URL getUrlPostVars.

Definition setReferer (refererURL : bytes) c : outcome (HttpClient M S O) :=
  let c := on_line (on_version (upgradeMinor 1)) c in
  h ← header_replace (bs "Referer") refererURL (cl_headers c); Ret (cl_set_headers h c).

Definition addURLVar (varName varValue : bytes) c : outcome (HttpClient M S O) :=
  data ← bc_of_string varValue;
  let vars := m_getVars (cl_requestLine c) in
  Ret (on_line (rl_set_vars (pr_set_impl (addVar varName data (pr_impl vars)).1 vars)) c).

Definition addCookie (cookieName cookieVal : bytes) c : HttpClient M S O :=
  cl_set_cookies (addClientCookie cookieName cookieVal (m_clientCookies c)) c.

Definition getServerContentType c : bytes := m_serverContentType (cl_received c).
Definition getResponseHeader (headerName : bytes) c : bytes := getOptionValueStringByName headerName (sp_sub (sr_headers c)).

(** *** Sending *)
Definition host_text (i : RequestInfo) : bytes :=
  virtualHost i ++ (if virtualPort i =? 80 then [] else bs ":" ++ to_string (virtualPort i)).

(** The headers that are sent; nothing for a body whose size is not known. *)
Definition request_head c : outcome (option MIME_Header) :=
  let strsize := object_size (m_contentStreamableObject (cl_content c)) in
  if strsize =? SIZE_MAX then Ret None
  else
    h ← header_replace (bs "Content-Length") (to_string strsize) (cl_headers c);
    let h := if strsize =? 0 then header_remove (bs "Content-Length") h else h in
    h ← clientcookies_putOnHeaders (m_clientCookies c) h;
    let i := cl_info c in
    h ← replace_if (ba_isEnabled (basicAuth i)) (bs "Authentication")
          (bs "Basic " ++ encodeToBase64 (ba_username (basicAuth i) ++ bs ":" ++ ba_password (basicAuth i)) false) h;
    h ← header_replace (bs "User-Agent") (userAgent i) h;
    h ← replace_if (bool_decide (virtualHost i <> [])) (bs "Host") (host_text i) h;
    Ret (Some h).

Definition streamClientHeaders c : outcome (HttpClient M S O * bool) :=
  h ← request_head c;
  match h with
  | None => Ret (c, false)
  | Some h => '(up, ok) ← header_streamToUpstream h (cl_stream c); Ret (cl_set_stream up (cl_set_headers h c), ok)
  end.

Definition cl_initProtocol c : outcome (HttpClient M S O * bool) :=
  '(up, ok) ← requestline_streamToUpstream (cl_requestLine c) (cl_stream c);
  let c := cl_set_stream up c in
  if negb ok then Ret (c, false)
  else
    '(c, ok) ← streamClientHeaders c;
    if negb ok then Ret (c, false)
    else '(up, ok) ← content_streamToUpstream (cl_content c) (cl_stream c); Ret (cl_set_stream up c, ok).

(** ** The response *)

(** The options of the name that is asked for: it is the empty one. *)
Definition parseHeaders2ServerCookies (h : MIME_Header) (cookies : ServerCookies) : ServerCookies :=
  foldl (fun sc o => (parseServerCookie (m_origValue o) sc).1) cookies (getOptionsByName [] h).

(** The content, and whether it is the next sub-parser. *)
Definition parseHeaders2TransmissionMode (h : MIME_Header) (p : SubParser M (Content O)) : SubParser M (Content O) * bool :=
  let p := setTransmissionMode TM_CONNECTION_CLOSE p in
  if header_exist (bs "Content-Length") h then
    let len := (getOptionAsUINT64 (bs "Content-Length") 10 h).1 in
    let p := setTransmissionMode TM_CONTENT_LENGTH p in
    if len =? 0 then (p, false) else setCurrentSize len p
  else if icontains (getOptionValueStringByName (bs "Transfer-Encoding") h) (bs "CHUNKED") then (setTransmissionMode TM_CHUNKS p, true)
  else (p, true).

Definition parse_received (h : MIME_Header) (r : Received) : Received :=
  let raw name := getOptionRawStringByName name h in
  mkReceived
    (mkSecurity (xframe_fromString (raw (bs "X-Frame-Options"))).1 (xss_fromString (raw (bs "X-XSS-Protection")))
      (hsts_fromString (raw (bs "Strict-Transport-Security"))) (iequals (raw (bs "X-Content-Type-Options")) (bs "nosniff")))
    (parseHeaders2ServerCookies h (rc_cookies r))
    (cachecontrol_fromString (raw (bs "Cache-Control")))
    (default (rc_realm r) (realm_search None (raw (bs "WWW-Authenticate"))))
    (raw (bs "Content-Type")).

Definition cl_changeToNextParser c : outcome (HttpClient M S O * bool) :=
  match cl_current c with
  | Some CP_STATUS => Ret (cl_set_current (Some CP_HEADERS) c, true)
  | Some CP_HEADERS =>
      let h := sp_sub (sr_headers c) in
      let c := cl_set_received (parse_received h (cl_received c)) c in
      let '(p, more) := parseHeaders2TransmissionMode h (sr_content c) in
      Ret (cl_set_current (if more : bool then Some CP_BODY else None) (sr_set_content p c), true)
  | Some CP_BODY | None => Ret (cl_set_current None c, true)
  end.

(** The client as a protocol of [Parser]. *)
#[export] Instance client_protocol : ParserImpl (HttpClient M S O) := {|
  currentSubParser c := has_value (cl_current c);
  cur_setParseResult r c :=
    match cl_current c with
    | Some CP_STATUS => sr_set_status (setParseResult r (sr_status c)) c
    | Some CP_HEADERS => sr_set_headers (setParseResult r (sr_headers c)) c
    | Some CP_BODY => sr_set_content (setParseResult r (sr_content c)) c
    | None => c
    end;
  cur_writeIntoSubParser buf c :=
    match cl_current c with
    | Some CP_STATUS => '(p, n) ← writeIntoSubParser buf (sr_status c); Ret (sr_set_status p c, n)
    | Some CP_HEADERS => '(p, n) ← writeIntoSubParser buf (sr_headers c); Ret (sr_set_headers p c, n)
    | Some CP_BODY => '(p, n) ← writeIntoSubParser buf (sr_content c); Ret (sr_set_content p c, n)
    | None => Ret (c, None)
    end;
  cur_getParseStatus c :=
    match cl_current c with
    | Some CP_STATUS => m_parseStatus (sr_status c)
    | Some CP_HEADERS => m_parseStatus (sr_headers c)
    | Some CP_BODY => m_parseStatus (sr_content c)
    | None => PR_ERROR
    end;
  changeToNextParser := cl_changeToNextParser;
  initProtocol := cl_initProtocol;
  endProtocol c := Ret c |}.
End HttpClient.
