(* ===== verification/HttpClientTheory.v ===== *)
(** * The HTTP/1 client: the theorems

    What the client reads: the response a server has sent, its head in one write and
    its body in any fragments and in any of the three ways of ending it.  What the
    client sends: its request, header by header. *)

From S2P Require Import Prelude SafeInt Mem Streamable Container ContainerTheory BMem BChunks ChunkBuffer BRef.
From S2P Require Import SubParser Parser PartsTheory CLib HttpContent HttpChunks MimeHeader HeaderTheory Encoders UrlStream HttpVars HttpLines HttpHeaders HttpResponse.
From S2P Require Import WebSocket HttpServer HttpServerTheory HttpFlow HttpClient.
From Stdlib Require Import ZArith Lia.

(** ** Values without parameters

    A value that is one word: no blank, no quote, no semicolon. *)
Definition word_value (v : bytes) : Prop := v <> [] /\ forallb (fun c => negb (isspace c || (c =? 34) || (c =? 59))) v = true.

Section Values.
Context `{RandomBytes}.
Implicit Types h : MIME_Header.

Lemma word_trim v : word_value v -> trim v = v.
Proof.
  intros [_ Hv]. assert (forall s, forallb (fun c => negb (isspace c || (c =? 34) || (c =? 59))) s = true -> trim_left s = s) as Hl.
  { intros [|c s]; [done|]. cbn [forallb trim_left]. intros [Hc _]%andb_true_iff. apply negb_true_iff, orb_false_iff in Hc as [Hc _]. by apply orb_false_iff in Hc as [-> _]. }
  unfold trim. rewrite (Hl v Hv), Hl, reverse_involutive; [done|]. rewrite forallb_forall in *. intros c Hc. apply Hv.
  apply list_elem_of_In. apply list_elem_of_In in Hc. by apply elem_of_reverse.
Qed.

Lemma word_quoted v : word_value v -> quoted v = None.
Proof.
  intros [_ Hv]. unfold quoted. rewrite find_char_none; [done|]. intros Hin. rewrite forallb_forall in Hv. apply list_elem_of_In, Hv in Hin.
  by rewrite Z.eqb_refl, orb_true_r in Hin.
Qed.

Lemma word_split v : word_value v -> split_on (bs ";") v = [v].
Proof.
  intros [Hne Hv]. unfold split_on. rewrite split_compress_last; [done| |done]. rewrite forallb_forall in *. intros c Hc.
  apply Hv, negb_true_iff, orb_false_iff in Hc as [_ Hc]. change (bs ";") with [59]. cbn [existsb]. by rewrite Hc.
Qed.

Lemma word_parsed r o v o' : word_value v -> parseSubValues r o v = Ret o' -> m_value o' = v.
Proof.
  intros Hv. unfold parseSubValues. rewrite word_trim by done.
  assert (take_static (length v) r [] v = Ret ([], v)) as -> by (destruct (length v); cbn [take_static]; by rewrite word_quoted).
  cbn [mbind outcome_bind]. rewrite word_split by done. cbn [foldl put_back]. intros [= <-]. cbn [setValue m_value]. by rewrite !(word_trim v Hv).
Qed.

Definition values_kept h : Prop := Forall (fun o => word_value (m_origValue o) -> m_value o = m_origValue o) (h_objects h).

Lemma header_add_kept n v h h' r : values_kept h -> header_add n v h = Ret (h', r) -> values_kept h'.
Proof.
  intros Hk. destruct (header_add_eq n v h) as [[_ ->]|(_ & o & -> & Ho & _ & Ev)]; intros [= <- _]; [done|].
  apply Forall_app. split; [done|]. constructor; [|done]. rewrite Ev. intros Hv. by apply (word_parsed _ _ _ _ Hv Ho).
Qed.

Lemma header_line_kept l h h' : values_kept h -> parseOptionValue l h = Ret h' -> values_kept h'.
Proof.
  intros Hk. unfold parseOptionValue. case_bool.
  - unfold header_continue. destruct (m_lastOpt h) as [i|]; [|by intros [= <-]].
    destruct (parseSubValues_ret (h_draws h) (h_object i h) l) as (o & Ho & _ & Ev). rewrite Ho. intros [= <-].
    apply Forall_insert; [done|]. rewrite Ev. intros Hv. by apply (word_parsed _ _ _ _ Hv Ho).
  - destruct (find_str _ l); [|by intros [= <-]]. intros Hb. apply bind_Ret in Hb as ([h1 r] & Ha & [= <-]). by apply header_add_kept in Ha.
Qed.

Lemma header_run_kept lines h h' : values_kept h -> header_run (map OpLine lines) h = Ret h' -> values_kept h'.
Proof.
  revert h. induction lines as [|l lines IH]; intros h Hk; cbn [map header_run]; [by intros [= <-]|].
  intros E. apply bind_Ret in E as (h1 & Hl & E). apply (IH h1); [by apply (header_line_kept l h)|done].
Qed.

(** The value of such an option is the text that was sent. *)
Lemma kept_value n h : header_wf h -> values_kept h -> word_value (getOptionRawStringByName n h) ->
  getOptionValueStringByName n h = getOptionRawStringByName n h /\ header_exist n h = true.
Proof.
  intros Hwf Hk. unfold getOptionRawStringByName, getOptionValueStringByName, header_exist, getOptionByName.
  destruct (mm_find (to_upper_copy n) (m_headers h)) as [i|] eqn:E; cbn [option_map]; [|by intros [Hv _]].
  intros Hv. split; [|done]. unfold values_kept in Hk. rewrite Forall_forall in Hk. apply Hk; [|done].
  unfold h_object. apply list_elem_of_In, nth_In. apply (range_refs (to_upper_copy n)); [done|]. unfold mm_find in E.
  destruct (mm_equal_range _ _) as [|j l]; [done|]. injection E as ->. by left.
Qed.

Lemma to_string_word n : 0 <= n -> word_value (to_string n).
Proof.
  intros Hn. split; [apply (decimal_word [] n Hn); intros c Hc; by apply not_elem_of_nil in Hc|]. apply forallb_forall. intros c Hc. apply list_elem_of_In in Hc.
  pose proof (print_base_chars 10 n ltac:(lia) Hn) as Hf. rewrite Forall_forall in Hf. destruct (Hf c Hc) as (d & -> & Hd).
  unfold digit_char, isspace. destruct (Z.ltb_spec d 10); lia.
Qed.
End Values.

(** ** The sub-parsers of the response *)
Section Parts.
Context {M : Type} `{Container M} `{!MMapFile M} {S : Type} `{Sink S} {O : Type} `{SinkEOF O} `{!Source O}.
Context `{!ContentObjects O} `{!HttpObjects O} `{RandomBytes} `{DateFormat} `{Base64BIO}.
Implicit Types (c : HttpClient M S O) (P : Parser (HttpClient M S O)) (p : SubParser M (Content O)).

Definition client_status : Part (T := HttpClient M S O) (M := M) (X := Status).
Proof.
  refine {| part_current c := cl_current c = Some CP_STATUS; part_get := sr_status; part_set := sr_set_status |}; try done.
  - by intros [].
  - intros x. cbn. by intros ->.
  - intros r x. cbn. by intros ->.
  - intros buf x. cbn. by intros ->.
  - intros x. cbn. by intros ->.
Defined.

Definition client_headers : Part (T := HttpClient M S O) (M := M) (X := MIME_Header).
Proof.
  refine {| part_current c := cl_current c = Some CP_HEADERS; part_get := sr_headers; part_set := sr_set_headers |}; try done.
  - by intros [].
  - intros x. cbn. by intros ->.
  - intros r x. cbn. by intros ->.
  - intros buf x. cbn. by intros ->.
  - intros x. cbn. by intros ->.
Defined.

Definition client_body : Part (T := HttpClient M S O) (M := M) (X := Content O).
Proof.
  refine {| part_current c := cl_current c = Some CP_BODY; part_get := sr_content; part_set := sr_set_content |}; try done.
  - by intros [].
  - intros x. cbn. by intros ->.
  - intros r x. cbn. by intros ->.
  - intros buf x. cbn. by intros ->.
  - intros x. cbn. by intros ->.
Defined.

(** A content that has received nothing, into an object with room for a body of
    [cap] bytes, with a buffer that takes [L] of them. *)
Record fresh_content (lim : Limits) (cap L : Z) p : Prop := {
  fc_sink : sink_rep (m_contentStreamableObject (sp_sub p)) [];
  fc_room : 0 <= cap <= sink_room (m_contentStreamableObject (sp_sub p));
  fc_total : m_currentContentLengthSize (sp_sub p) = 0;
  fc_limits : content_limits (sp_sub p) = lim;
  fc_pending : pending p = [];
  fc_buffer : buffer_ready (m_unparsedBuffer p);
  fc_open : m_streamEnded p = false;
  fc_chunks : 64 <= L <= m_maxChunks (m_unparsedBuffer p);
  fc_bound : L + blockSize < SIZE_MOD;
  fc_post : 0 <= max_post lim < SIZE_MOD }.

(** What the headers say about the body: its length, or that it comes in chunks, or
    that it ends with the connection. *)
Definition announced_length (h : MIME_Header) : option Z :=
  if header_exist (bs "Content-Length") h then Some (getOptionAsUINT64 (bs "Content-Length") 10 h).1 else None.
Definition in_chunks (h : MIME_Header) : bool := icontains (getOptionValueStringByName (bs "Transfer-Encoding") h) (bs "CHUNKED").

Definition body_start (lim : Limits) (h : MIME_Header) : ByteState :=
  match announced_length h with
  | Some n => mkByteState CONTENT_LENGTH n [] n []
  | None => if in_chunks h then chunked_start else mkByteState CONNECTION_CLOSE (max_post lim) [] 0 []
  end.
Definition has_body (lim : Limits) (h : MIME_Header) : bool :=
  match announced_length h with Some n => (0 <? n) && (n <=? max_post lim) | None => true end.

Lemma resized_ready (b : B_Chunks M) k : buffer_ready b -> bc_contents b = [] -> 0 <= k < SIZE_MOD -> buffer_ready (setMaxSize k b).
Proof.
  intros [Hok Hw Hm Hc Hmc Hch _] He Hk. split; try done. change (zlen (bc_contents b) <= k < SIZE_MOD). rewrite He. change (zlen (@nil Z)) with 0. lia.
Qed.

Lemma fresh_element lim cap L p q k s :
  fresh_content lim cap L p -> m_unparsedBuffer q = setMaxSize k (m_unparsedBuffer p) -> 0 <= k < SIZE_MOD ->
  b_target s = k -> b_pending s = [] -> b_out s = [] ->
  m_contentStreamableObject (sp_sub q) = m_contentStreamableObject (sp_sub p) -> content_limits (sp_sub q) = content_limits (sp_sub p) ->
  m_currentMode (sp_sub q) = b_mode s -> m_currentContentLengthSize (sp_sub q) = b_total s -> m_parseMode q = strategy_of (b_mode s) ->
  (line_mode (b_mode s) = true -> m_parseDelimiter q = CRLF) -> m_streamEnded q = m_streamEnded p -> element_open s ->
  content_at lim cap L q s.
Proof.
  intros [Hs Hr _ Hl Hp Hb Ho Hc Hbd _] Eb Hk Hk' Hpend Hout Eo El Em Et Est Ed Ese He.
  split; rewrite ?Eb, ?Eo, ?Hout; try done; try congruence.
  - change (zlen (@nil Z)) with 0. lia.
  - rewrite Hpend, <- Hp. unfold pending. by rewrite Eb.
  - by apply resized_ready.
  - change (L <= m_maxChunks (m_unparsedBuffer p)). lia.
Qed.

Lemma transmission_start h lim cap L p :
  fresh_content lim cap L p -> has_body lim h = true ->
  exists p', parseHeaders2TransmissionMode h p = (p', true) /\ content_at lim cap L p' (body_start lim h).
Proof.
  intros Hp Hbody. pose proof (fc_post _ _ _ _ Hp) as Hpost. unfold has_body, body_start, parseHeaders2TransmissionMode, announced_length in *.
  assert (Hmax : m_securityMaxPostDataSize (sp_sub p) = max_post lim) by by rewrite <- (fc_limits _ _ _ _ Hp).
  destruct (header_exist _ h).
  - set (n := (getOptionAsUINT64 (bs "Content-Length") 10 h).1) in *. apply andb_true_iff in Hbody as [Hn0 Hn].
    cbv zeta. replace (n =? 0) with false by lia. unfold setCurrentSize.
    change (m_securityMaxPostDataSize (sp_sub (setTransmissionMode _ (setTransmissionMode _ p)))) with (m_securityMaxPostDataSize (sp_sub p)).
    rewrite Hmax. replace (n >? max_post lim) with false by lia. eexists. split; [reflexivity|].
    by apply (fresh_element lim cap L p _ n); first [done|lia].
  - unfold in_chunks. destruct (icontains _ _); (eexists; split; [reflexivity|]).
    + by apply (fresh_element lim cap L p _ 64); first [done|unfold SIZE_MOD; lia|apply (fc_total _ _ _ _ Hp)].
    + apply (fresh_element lim cap L p _ (max_post lim)); first [done|lia|apply (fc_total _ _ _ _ Hp)|cbn; by rewrite <- Hmax].
Qed.

Lemma transmission_empty h p : announced_length h = Some 0 -> exists p', parseHeaders2TransmissionMode h p = (p', false).
Proof.
  unfold announced_length, parseHeaders2TransmissionMode. destruct (header_exist _ h); [|done]. intros [= ->]. by eexists.
Qed.

(** ** A response, from its bytes *)

(** A client that waits for the response. *)
Record expecting (lim : Limits) (cap L : Z) c : Prop := {
  ex_current : cl_current c = Some CP_STATUS;
  ex_status : at_line 128 (sr_status c);
  ex_headers : at_line (16 * KB_MULT) (sr_headers c);
  ex_options : sp_sub (sr_headers c) = header_init;
  ex_content : fresh_content lim cap L (sr_content c) }.

(** A status line that fits, with a message of words. *)
Record status_fits (st : Status) : Prop := {
  sf_version : version_ok (st_httpVersion st);
  sf_code : 0 <= m_statusCode st < 65536;
  sf_words : exists words, m_statusMessage st = join_words words /\ Forall (word_ok blanks) words;
  sf_line : exists line, status_text st = line ++ CRLF /\ one_line line /\ zlen line + 2 <= 128 }.

(** Headers that fit. *)
Record headers_fit (h : MIME_Header) : Prop := {
  hf_wf : header_wf h;
  hf_options : Forall option_ok (header_options h);
  hf_count : zlen (m_headers h) <= 32;
  hf_lines : Forall header_fits (header_lines h) }.

Lemma status_line_parsed lim cap L P st rest :
  expecting lim cap L (pr_impl P) -> status_fits st ->
  exists p : SubParser M Status, writeIntoSubParser (status_text st ++ rest) (setParseResult GET_MORE_DATA (sr_status (pr_impl P))) = Ret (p, Some (zlen (status_text st))) /\
    sp_sub p = st /\ m_parseStatus p = GOTO_NEXT_SUBPARSER.
Proof.
  intros [_ Hat _ _ _] [Hv Hc (words & Hm & Hw) (line & Et & Hone & Hlen)].
  destruct (status_roundtrip st words Hv Hc Hm Hw) as (line' & Et' & Hparse). rewrite Et in Et'. apply app_inj_2 in Et' as [<- _]; [|done].
  destruct (line_parsed 128 (setParseResult GET_MORE_DATA (sr_status (pr_impl P))) line rest st GOTO_NEXT_SUBPARSER) as (p & E & _ & Hsub & Hst);
    [by apply at_line_result|done|done| |].
  { intros q Hs _ _. by apply Hparse. }
  exists p. rewrite Et, <- app_assoc, E, zlen_app. done.
Qed.

(** The head of a response in one write. *)
Lemma head_parsed lim cap L P st h :
  expecting lim cap L (pr_impl P) -> 35 <= m_maxTTL P -> status_fits st -> headers_fit h -> zlen (status_text st ++ header_text h) < SIZE_MOD ->
  exists c, sp_sub (sr_status c) = st /\ header_view (sp_sub (sr_headers c)) = header_view h /\
    header_wf (sp_sub (sr_headers c)) /\ values_kept (sp_sub (sr_headers c)) /\ cl_current c = Some CP_HEADERS /\
    sr_content c = sr_content (pr_impl P) /\ cl_received c = cl_received (pr_impl P) /\
    forall y, cl_changeToNextParser c = Ret (y, true) ->
      pr_write (status_text st ++ header_text h) P = Ret (after_change y P, Some (zlen (status_text st ++ header_text h))).
Proof.
  intros Hex HT Hst [Hwf Hok Hn Hfit] Hsz. destruct (headers_read_back h Hwf Hok Hn) as (h' & Hrun & Hwf' & Hview).
  pose proof Hex as [Hcur _ Hath Hopt _]. destruct (status_line_parsed lim cap L P st (header_text h) Hex Hst) as (p & Ep & Hsub & Hres).
  destruct (part_written client_status _ _ _ _ Hcur Ep) as (Hw & Hs & Ha). set (c1 := sr_set_status p (pr_impl P)) in *.
  set (c2 := cl_set_current (Some CP_HEADERS) c1). assert (Hch : changeToNextParser c1 = Ret (c2, true)).
  { cbn [changeToNextParser client_protocol]. unfold cl_changeToNextParser. change (cl_current c1) with (cl_current (pr_impl P)). by rewrite Hcur. }
  destruct (headers_parsed client_headers (header_lines h) (Z.to_nat (m_maxTTL P) + 1) 1 (pr_set_impl c2 P) h') as (ph & _ & Hsubh & Hgo).
  { done. } { exact Hath. } { exact Hfit. } { change (sp_sub _) with (sp_sub (sr_headers (pr_impl P))). by rewrite Hopt. }
  { rewrite zlen_app in Hsz. pose proof (zlen_nonneg (status_text st)). unfold header_text, lines_text in *. lia. }
  { unfold header_lines, zlen in *. rewrite length_map. change (m_maxTTL (pr_set_impl c2 P)) with (m_maxTTL P). lia. }
  { unfold header_lines, zlen in *. rewrite length_map. lia. }
  exists (sr_set_headers ph c2). change (sr_headers (sr_set_headers ph c2)) with ph. rewrite Hsubh. split; [exact Hsub|].
  split; [exact Hview|]. split; [exact Hwf'|]. split; [apply (header_run_kept (header_lines h) header_init h'); [by constructor|done]|].
  split; [done|]. split; [done|]. split; [done|].
  intros y Hy. unfold pr_write. assert (Hne : header_text h <> []) by (unfold header_text; by destruct (concat _)).
  pose proof (nonempty_length _ Hne) as Hl. replace (zlen (status_text st ++ header_text h) =? 0) with false by (rewrite zlen_app; pose proof (zlen_nonneg (status_text st)); lia).
  unfold parse_fuel. replace (Z.to_nat (m_maxTTL P) + 2)%nat with (Datatypes.S (Z.to_nat (m_maxTTL P) + 1)) by lia.
  change (after_change y P) with (after_change y (pr_set_impl c2 P)).
  apply (parses_next _ (status_text st) (header_text h) 0 P _ c1 c2); [lia|exact Ha|done|done|exact Hw|exact (eq_trans Hs Hres)|exact Hch|done|exact (Hgo y Hy)].
Qed.

(** The length that a header announces with a number. *)
Lemma number_announced h n :
  header_wf h -> values_kept h -> getOptionRawStringByName (bs "Content-Length") h = to_string n -> 0 <= n <= ULONG_MAX ->
  announced_length h = Some n.
Proof.
  intros Hwf Hk Hr Hn. destruct (kept_value (bs "Content-Length") h Hwf Hk) as [Hv He]; [rewrite Hr; apply to_string_word; lia|].
  unfold announced_length. rewrite He. rewrite Hr in Hv. unfold getOptionValueStringByName, getOptionAsUINT64, header_exist in *.
  destruct (getOptionByName _ h); [|done]. cbn [fst]. rewrite Hv. unfold to_string. by rewrite strtoul_print by lia.
Qed.

(** A body of the length that was announced. *)
Lemma length_run lim body : body <> [] -> byte_run lim (Reading (mkByteState CONTENT_LENGTH (zlen body) [] (zlen body) [])) body = Complete body [].
Proof. intros Hne. rewrite direct_run by done. cbn [b_mode b_target b_out]. by rewrite Z.eqb_refl. Qed.

Lemma length_inside lim cap L body : zlen body <= cap -> run_inside lim cap L (Reading (mkByteState CONTENT_LENGTH (zlen body) [] (zlen body) [])) body.
Proof.
  intros Hc k. pose proof (zlen_nonneg body). destruct (ztake k body) as [|x l] eqn:E; [cbn; split; [change (zlen (@nil Z)) with 0; lia|done]|].
  pose proof (zlen_ztake k body) as Hz. rewrite E in Hz. rewrite direct_run by (done || (cbn [b_target]; lia)). cbn [b_mode b_target b_out app].
  destruct (_ && _); cbn [inside b_out b_mode]; [lia|split; [lia|done]].
Qed.

(** The body after a head. *)
Lemma body_parsed lim cap L P h c :
  fresh_content lim cap L (sr_content c) -> header_wf (sp_sub (sr_headers c)) -> cl_current c = Some CP_HEADERS -> 0 <= m_maxTTL P ->
  sp_sub (sr_headers c) = h -> has_body lim h = true ->
  exists y, cl_changeToNextParser c = Ret (y, true) /\ currentSubParser y = true /\ sr_status y = sr_status c /\ sr_headers y = sr_headers c /\
    cl_received y = parse_received h (cl_received c) /\
    forall bufs body, run_inside lim cap L (Reading (body_start lim h)) (concat bufs) -> writes_within lim L (m_maxTTL P) (Reading (body_start lim h)) bufs ->
      byte_run lim (Reading (body_start lim h)) (concat bufs) = Complete body [] ->
      exists P2, write_all bufs (pr_set_impl y P) = Ret (P2, true) /\ content_done (sr_content (pr_impl P2)) body /\ cl_current (pr_impl P2) = None /\
        sr_status (pr_impl P2) = sr_status c /\ sr_headers (pr_impl P2) = sr_headers c.
Proof.
  intros Hf Hwf Hcur HT Hh Hb. destruct (transmission_start h lim cap L (sr_content c) Hf Hb) as (p & Ep & Hat).
  unfold cl_changeToNextParser. rewrite Hcur, Hh. change (sr_content (cl_set_received _ c)) with (sr_content c). rewrite Ep.
  eexists. split; [reflexivity|]. split; [done|]. split; [done|]. split; [done|]. split; [done|].
  intros bufs body Hin Hw Hrun. set (y := cl_set_current (Some CP_BODY) _).
  assert (Hrd : reading_at lim cap L (only_part client_body (pr_set_impl y P)) (body_start lim h)).
  { split; [exact Hat|]. split; [done|]. split; [|done]. exact (Hin 0). }
  pose proof (write_all_content lim cap L bufs _ _ Hrd Hin Hw) as Hall. rewrite Hrun in Hall. destruct Hall as (Q' & E & Hdone & Hend).
  pose proof (write_all_part client_body bufs (pr_set_impl y P) Q' true eq_refl E) as Hp. rewrite Hend in Hp.
  destruct (Hp (cl_set_current None (sr_set_content (pr_impl Q').1 y))) as (P2 & E2 & Hi); [done|].
  exists P2. rewrite Hi. done.
Qed.

(** C5. A response that fits is read as it was sent, by a client that waits for one
    and has a TTL of at least 35. Its status line has a message of words, a code
    below 65536 and at most 128 bytes; its headers are at most 32, each on a line of
    its own of at most 16384 bytes that can be read back ([option_ok]). When the
    line and the headers arrive in one write, the client then has the same status,
    the same options, and under every name the same raw value, and
    [getResponseHeader] gives this raw value when it is one word, without blank,
    quote or semicolon (nothing is said of what it gives for other values). The body
    then reaches the object of the client whole. A body of the announced length,
    within the maximum and the capacity of the object, does so in any fragments that
    are not empty, not longer than the buffer takes in one write and not longer than
    m_maxTTL bytes. In general, when the headers say that there is a body, the
    object gets what the byte machine makes of the bytes in the way of ending that
    they say, when it stays within the limits, no write is empty or too long for the
    buffer, and none ends more elements than m_maxTTL. After the body, or when the
    announced length is zero, nothing more is read. *)
Theorem response_received lim cap L P st h :
  expecting lim cap L (pr_impl P) -> 35 <= m_maxTTL P -> status_fits st -> headers_fit h -> zlen (status_text st ++ header_text h) < SIZE_MOD ->
  exists c, sp_sub (sr_status c) = st /\ header_view (sp_sub (sr_headers c)) = header_view h /\
    cl_received c = parse_received (sp_sub (sr_headers c)) (cl_received (pr_impl P)) /\
    (forall n, getOptionRawStringByName n (sp_sub (sr_headers c)) = getOptionRawStringByName n h) /\
    (forall n, word_value (getOptionRawStringByName n h) -> getResponseHeader n c = getOptionRawStringByName n h) /\
    let P1 := after_change c P in
    pr_write (status_text st ++ header_text h) P = Ret (P1, Some (zlen (status_text st ++ header_text h))) /\
    (getOptionRawStringByName (bs "Content-Length") h = to_string 0 -> cl_current c = None) /\
    let received bufs body := exists P2, write_all bufs P1 = Ret (P2, true) /\ content_done (sr_content (pr_impl P2)) body /\
      cl_current (pr_impl P2) = None /\ sr_status (pr_impl P2) = sr_status c /\ sr_headers (pr_impl P2) = sr_headers c in
    (forall bufs body, has_body lim (sp_sub (sr_headers c)) = true ->
       let start := Reading (body_start lim (sp_sub (sr_headers c))) in
       run_inside lim cap L start (concat bufs) -> writes_within lim L (m_maxTTL P) start bufs -> byte_run lim start (concat bufs) = Complete body [] ->
       received bufs body) /\
    (forall bufs, let body := concat bufs in
       getOptionRawStringByName (bs "Content-Length") h = to_string (zlen body) -> body <> [] -> zlen body <= max_post lim -> zlen body <= cap ->
       Forall (fun b => b <> [] /\ zlen b <= L /\ zlen b <= m_maxTTL P) bufs -> received bufs body).
Proof.
  intros Hex HT Hst Hh Hsz. destruct (head_parsed lim cap L P st h Hex HT Hst Hh Hsz) as (c & Es & Ev & Hwf & Hk & Hcur & Ec & Er & Hgo).
  pose proof (ex_content _ _ _ _ Hex) as Hf. rewrite <- Ec in Hf. assert (Hraw : forall n, getOptionRawStringByName n (sp_sub (sr_headers c)) = getOptionRawStringByName n h).
  { intros n. by rewrite !getOptionRaw_view, Ev. }
  assert (exists y, cl_changeToNextParser c = Ret (y, true) /\ sr_status y = sr_status c /\ sr_headers y = sr_headers c /\
    cl_received y = parse_received (sp_sub (sr_headers c)) (cl_received c) /\ (announced_length (sp_sub (sr_headers c)) = Some 0 -> cl_current y = None)) as (y & Ey & Eys & Eyh & Eyr & Ey0).
  { unfold cl_changeToNextParser. rewrite Hcur. destruct (parseHeaders2TransmissionMode _ _) as [p more] eqn:Ep. eexists. split; [reflexivity|].
    do 3 (split; [done|]). intros E0. destruct (transmission_empty _ (sr_content c) E0) as (p' & Ep'). change (sr_content (cl_set_received _ c)) with (sr_content c) in Ep.
    rewrite Ep in Ep'. by injection Ep' as -> ->. }
  assert (Hbody : forall bufs body, has_body lim (sp_sub (sr_headers c)) = true ->
    run_inside lim cap L (Reading (body_start lim (sp_sub (sr_headers c)))) (concat bufs) ->
    writes_within lim L (m_maxTTL P) (Reading (body_start lim (sp_sub (sr_headers c)))) bufs ->
    byte_run lim (Reading (body_start lim (sp_sub (sr_headers c)))) (concat bufs) = Complete body [] ->
    exists P2, write_all bufs (after_change y P) = Ret (P2, true) /\ content_done (sr_content (pr_impl P2)) body /\
      cl_current (pr_impl P2) = None /\ sr_status (pr_impl P2) = sr_status y /\ sr_headers (pr_impl P2) = sr_headers y).
  { intros bufs body Hb. destruct (body_parsed lim cap L P _ c Hf Hwf Hcur ltac:(lia) eq_refl Hb) as (y' & Ey' & Ha & _ & _ & _ & Hall).
    rewrite Ey in Ey'. injection Ey' as <-. unfold after_change. rewrite Ha, Eys, Eyh. apply Hall. }
  exists y. rewrite Eys, Eyh. split; [done|]. split; [done|]. split; [by rewrite <- Er|]. split; [done|].
  split. { intros n Hn. unfold getResponseHeader. rewrite Eyh, <- Hraw. apply kept_value; [done|done|by rewrite Hraw]. }
  split; [by apply Hgo|]. split; [intros E0; by apply Ey0, number_announced; rewrite ?Hraw|]. rewrite Eys, Eyh in Hbody. split; [exact Hbody|].
  intros bufs body Hl Hne Hmax Hcap Hbufs. assert (Ha : announced_length (sp_sub (sr_headers c)) = Some (zlen body)).
  { apply number_announced; [done|done|by rewrite Hraw|]. pose proof (zlen_nonneg body). pose proof (fc_post _ _ _ _ Hf). unfold ULONG_MAX, SIZE_MAX. lia. }
  apply Hbody; unfold has_body, body_start; rewrite Ha.
  - pose proof (nonempty_length body Hne). lia.
  - by apply length_inside.
  - by apply writes_within_short.
  - by apply length_run.
Qed.
End Parts.
