(* ===== verification/HttpExamples.v ===== *)
(** * The HTTP/1 server at concrete inputs

    A server over strings, with the virtual functions of [HTTPv1_Server] or with
    an application that accepts WebSocket connections; the theorems of
    HttpServerTheory.v and HttpFlow.v are applied to it. *)

From S2P Require Import Prelude SafeInt Mem Streamable Container ContainerTheory BMem BChunks ChunkBuffer BRef.
From S2P Require Import SubParser Parser CLib HttpContent MimeHeader HeaderTheory Encoders UrlStream HttpVars HttpLines HttpHeaders HttpResponse WebSocket HttpServer HttpServerTheory HttpFlow.
From Stdlib Require Import ZArith Lia.

#[local] Existing Instance no_files.
#[local] Existing Instance zero_random.
#[local] Existing Instance one_date.
#[local] Existing Instance reference_bio.
#[local] Existing Instance reference_bio_rfc.

Abbreviation SS := StreamableString.
#[local] Instance string_objects : ContentObjects SS := {| make_object _ := ss_new; set_memory_limit _ o := o |}.
#[local] Instance string_sizes : HttpObjects SS := {| object_size o := zlen (ss_value o); set_boundary _ o := o |}.
#[local] Instance some_digest : SHA1 := {| EVP_sha1 _ := replicate 20 7 |}.

(** An application that accepts every WebSocket connection. *)
#[local] Instance accepting : HttpHandlers B_MEM SS SS unit := {|
  onHTTPClientURIReceived s := Ret (s, true);
  onHTTPClientHeadersReceived s := Ret (s, true);
  onHTTPClientContentReceived s := Ret (s, S_200_OK);
  onWebSocketHTTPClientHeadersReceived s := Ret (s, true);
  onWebSocketConnectionEstablished s := Ret s |}.

Definition demo_server : HttpServer B_MEM SS SS unit :=
  mkHttpServer requestline_new header_new (content_new ss_new) requestinfo_new response_new
    (ws_set_current None (ws_upgraded ss_new)) (Some REQUEST_LINE) true false [] loadDefaultMIMETypes [] [] tt.

Definition with_text (t : bytes) : SS := {| ss_writeStatus := ws_init; ss_value := t |}.

Definition headers_of (lines : list bytes) : MIME_Header :=
  match header_run (map OpLine lines) header_init with Ret h => h | _ => header_init end.

(** The server at the end of these headers. *)
Definition at_headers (lines : list bytes) : HttpServer B_MEM SS SS unit :=
  hs_set_current (Some HEADERS)
    (hs_set_headers (sp_set_sub (headers_of lines) (hs_headers demo_server))
      (hs_set_line (sp_set_sub demo_line (hs_requestLine demo_server)) demo_server)).

Lemma string_streams (t : bytes) : streams (S := SS) (O := SS) (with_text t) t.
Proof. intros up acc Hrep Hroom. destruct (writeFullStream_ok t up acc Hrep Hroom) as (u & E & Hr & _). by exists u. Qed.

(** ** The headers of responses *)
Definition demo_response : Response SS :=
  rs_set_cookies [(bs "sid", demo_cookie)]
    (rs_set_content (c_set_object (with_text (bs "hello")) content_default) response_new).

Lemma response_headers_exact_witness :
  exists h, response_headers 1700000000 demo_response = Ret h /\ header_wf h /\
    option_values (bs "Content-Length") h = [bs "5"] /\
    option_values (bs "Set-Cookie") h = [toSetCookieString (bs "sid") demo_cookie] /\
    option_values (bs "X-XSS-Protection") h = [bs "1; mode=block"].
Proof.
  destruct (response_headers_exact 1700000000 demo_response) as (h & E & Hwf & Hlen & _ & Hrest).
  { split; [apply header_init_wf|]. by vm_compute. }
  destruct (Hrest eq_refl) as (Hc & Hx & _). exists h. split; [exact E|]. split; [exact Hwf|]. split; [exact Hlen|].
  split; [by apply Permutation_singleton_r in Hc|exact Hx].
Defined.

Definition many_cookies : Response SS :=
  rs_set_cookies (replicate 32 (bs "c", demo_cookie)) response_new.

Lemma security_headers_dropped_witness :
  exists h, response_headers 1700000000 many_cookies = Ret h /\
    Forall (fun n => option_values n h = [])
      [bs "X-Frame-Options"; bs "Strict-Transport-Security"; bs "X-XSS-Protection"; bs "Cache-Control"; bs "Content-Type"].
Proof. refine (security_headers_dropped 1700000000 many_cookies _ _ _ _); [reflexivity..|]. by vm_compute. Defined.

(** A response to a request that ends here. *)
Lemma response_sent_witness :
  exists s' text, sendFullHTTPResponse 1700000000 (hs_set_response demo_response demo_server) = Ret (s', true) /\
    sink_rep (hs_stream s') text /\ zlen text = 228 /\ hs_current s' = Some REQUEST_LINE.
Proof.
  destruct (response_sent 1700000000 (hs_set_response demo_response demo_server) [] (bs "hello"))
    as (r & h & Er & Eh & Hsend).
  - by vm_compute.
  - split; [apply header_init_wf|]. by vm_compute.
  - reflexivity.
  - apply string_streams.
  - reflexivity.
  - by vm_compute.
  - injection Er as <-. vm_compute in Eh. injection Eh as <-.
    destruct Hsend as (s' & E & Hrep & Hcur & _); [by vm_compute|].
    assert (closing (hs_set_response demo_response demo_server) = false) as Ec by (vm_compute; reflexivity).
    rewrite Ec in Hcur. eexists s', _. split; [exact E|]. split; [exact Hrep|]. split; [vm_compute; reflexivity|exact Hcur].
Defined.

(** ** WebSocket connections *)
Definition upgrade_request : list bytes :=
  [bs "Host: a.org"; bs "Upgrade: websocket"; bs "Connection: Upgrade";
   bs "Sec-WebSocket-Key: dGhlIHNhbXBsZSBub25jZQ=="; bs "Sec-WebSocket-Version: 13"].

Lemma websocket_guard_witness :
  (exists s' b, hs_changeToNextParser 1700000000 (at_headers upgrade_request) = Ret (s', b) /\ hs_current s' = Some WEBSOCKET) /\
  isWebSocketConnectionRequest (at_headers upgrade_request) = true.
Proof.
  assert (exists s' b, hs_changeToNextParser 1700000000 (at_headers upgrade_request) = Ret (s', b) /\
    hs_current s' = Some WEBSOCKET) as (s' & b & E & Hc) by (vm_compute; eexists _, _; split; reflexivity).
  split; [exists s', b; split; [exact E|exact Hc]|].
  refine (proj1 (proj2 (proj2 (websocket_guard 1700000000 _ s' b E _ Hc)))). discriminate.
Defined.

Definition upgrading : HttpServer B_MEM SS SS unit := at_headers upgrade_request.

Lemma handshake_malformed_witness :
  exists h, option_values (bs "Sec-WebSocket-Accept") h = [rfc4648_encode (toHex (replicate 20 7))] /\
    (zlen (header_text h) <= sink_room (hs_stream upgrading) ->
     exists s', setupAndSendWebSocketHeaderResponse 1700000000 upgrading = Ret (s', true) /\
       m_statusCode (rs_status (hs_response s')) = 101 /\ sink_rep (hs_stream s') (header_text h)).
Proof.
  destruct (handshake_malformed 1700000000 upgrading [] (bs "dGhlIHNhbXBsZSBub25jZQ==") (replicate 20 7))
    as (h & Hu & Ha & _ & _ & Hsend).
  - vm_compute; reflexivity.
  - split; [apply header_init_wf|]. by vm_compute.
  - vm_compute; reflexivity.
  - vm_compute; reflexivity.
  - vm_compute; reflexivity.
  - vm_compute; reflexivity.
  - vm_compute; reflexivity.
  - vm_compute; reflexivity.
  - vm_compute; reflexivity.
  - vm_compute; reflexivity.
  - vm_compute; reflexivity.
  - by vm_compute.
  - exists h. split; [exact Ha|exact Hsend].
Defined.

(** ** Bodies *)
Definition posting : HttpServer B_MEM SS SS unit := at_headers [bs "Host: a.org"; bs "Content-Length: 5"].

Lemma body_needs_length_witness :
  exists s' b, hs_changeToNextParser 1700000000 posting = Ret (s', b) /\ hs_current s' = Some BODY /\
    (getOptionAsUINT64 (bs "Content-Length") 10 (request_headers posting)).1 <> 0.
Proof.
  assert (exists s' b, hs_changeToNextParser 1700000000 posting = Ret (s', b) /\ hs_current s' = Some BODY)
    as (s' & b & E & Hc) by (vm_compute; eexists _, _; split; reflexivity).
  exists s', b. split; [exact E|]. split; [exact Hc|]. exact (body_needs_length 1700000000 posting s' b eq_refl E Hc).
Defined.

(** ** What the headers of a request say *)
Lemma basic_auth_roundtrip_witness :
  parseBasicAuth (BASIC_PREFIX ++ encodeToBase64 (bs "user:pass:word") false) requestinfo_new =
    (ri_set_auth (setAuthentication (bs "user") (bs "pass:word")) requestinfo_new, true).
Proof.
  refine (basic_auth_roundtrip (bs "user") (bs "pass:word") requestinfo_new _ _ _);
    apply (bool_decide_unpack _); vm_compute; exact I.
Defined.

Lemma host_port_truncated_witness :
  let i := parseHostHeader (bs "a.org:65616") requestinfo_new in virtualHost i = bs "a.org" /\ virtualPort i = 80.
Proof.
  refine (host_port_truncated (bs "a.org") 65616 requestinfo_new _ _ _);
    [discriminate|apply (bool_decide_unpack _); vm_compute; exact I|by vm_compute].
Defined.

(** ** A request, from its bytes *)
Lemma request_received_witness :
  exists s0 s : HttpServer B_MEM SS SS unit, httpserver_new tt ss_new = Ret s0 /\
    requestline_text demo_line = Ret (bs "GET /index?name=x%20y&q%26a=1 HTTP/1.1" ++ CRLF) /\
    same_request demo_line (request_line s) demo_pairs /\ header_view (request_headers s) = header_view demo_header /\
    hs_current s = Some HEADERS.
Proof.
  destruct (httpserver_new tt ss_new) as [s0| | |] eqn:E0; [|vm_compute in E0; discriminate..].
  assert (requestline_text demo_line = Ret (bs "GET /index?name=x%20y&q%26a=1 HTTP/1.1" ++ CRLF)) as Et by (vm_compute; reflexivity).
  destruct (request_received 1700000000 demo_line demo_pairs (bs "GET /index?name=x%20y&q%26a=1 HTTP/1.1") demo_header (pr_new s0))
    as (s & Hc & _ & _ & Hs & Hh & _).
  - exact (httpserver_new_waits tt ss_new s0 E0).
  - discriminate.
  - exact demo_sendable.
  - reflexivity.
  - exact Et.
  - vm_compute; reflexivity.
  - by vm_compute.
  - exact demo_header_wf.
  - apply (bool_decide_unpack _); vm_compute; exact I.
  - by vm_compute.
  - repeat constructor; try discriminate; by vm_compute.
  - reflexivity.
  - by vm_compute.
  - exists s0, s. split; [reflexivity|]. split; [exact Et|]. split; [exact Hs|]. split; [exact Hh|exact Hc].
Defined.
