(* ===== verification/HttpClientSends.v ===== *)
(** * What the HTTP/1 client sends, and what a server makes of it

    The request of a client is its line, the headers that its members ask for and its
    body; a server that waits for a request decides on the same line and the same
    options.  The last section applies the theorems of the client to a client and a
    server over strings. *)

From S2P Require Import Prelude SafeInt Mem Streamable Container ContainerTheory BMem BChunks ChunkBuffer BRef.
From S2P Require Import SubParser Parser PartsTheory CLib HttpContent HttpChunks MimeHeader HeaderTheory Encoders UrlStream HttpVars HttpLines HttpHeaders HttpResponse.
From S2P Require Import WebSocket HttpServer HttpServerTheory HttpFlow HttpClient HttpClientTheory HttpExamples.
From Stdlib Require Import ZArith Lia.

(** Whether an option exists can be told from what is read of the header. *)
Lemma header_exist_view n h : header_exist n h = existsb (fun i => bool_decide (i.1.1 = to_upper_copy n)) (header_view h).
Proof.
  unfold header_exist, getOptionByName, mm_find, mm_equal_range, header_view. induction (m_headers h) as [|e l IH]; [done|].
  cbn [map existsb fst snd]. rewrite filter_cons. case_decide as E; [by rewrite bool_decide_eq_true_2|by rewrite bool_decide_eq_false_2].
Qed.

Lemma values_none n h : option_values n h = [] -> header_exist n h = false.
Proof.
  unfold option_values, getOptionsByName, header_exist, getOptionByName, mm_find. by destruct (mm_equal_range _ _).
Qed.

Section Request.
Context {M : Type} `{Container M} `{!MMapFile M} {S : Type} `{SinkSpec S} {O : Type} `{Sink O} `{!Source O}.
Context `{!ContentObjects O} `{!HttpObjects O} `{RandomBytes} `{DateFormat} `{Base64BIO}.
Implicit Types c : HttpClient M S O.

(** The values that are sent under a name. *)
Definition sent_values c (m : bytes) : list bytes :=
  let i := cl_info c in
  let size := object_size (m_contentStreamableObject (cl_content c)) in
  let given := if iequals m (bs "Content-Length") then (if size =? 0 then [] else [to_string size]) else option_values m (cl_headers c) in
  let given := if bool_decide (m_clientCookies c <> []) && iequals m (bs "Cookie") then clientcookies_toString (m_clientCookies c) :: given else given in
  if bool_decide (virtualHost i <> []) && iequals m (bs "Host") then [host_text i]
  else if iequals m (bs "User-Agent") then [userAgent i]
  else if ba_isEnabled (basicAuth i) && iequals m (bs "Authentication")
    then [bs "Basic " ++ encodeToBase64 (ba_username (basicAuth i) ++ bs ":" ++ ba_password (basicAuth i)) false]
  else given.

Lemma put_client_cookies cc k h :
  has_room (1 + k) h -> 0 <= k ->
  exists h', clientcookies_putOnHeaders cc h = Ret h' /\ has_room k h' /\
    forall m, option_values m h' ≡ₚ
      if bool_decide (cc <> []) && iequals m (bs "Cookie") then clientcookies_toString cc :: option_values m h else option_values m h.
Proof.
  intros Hroom Hk. destruct cc as [|e cc].
  - exists h. split; [done|]. split; [by apply (has_room_less (1 + k)); [|lia]|]. done.
  - destruct (add_values (bs "Cookie") (clientcookies_toString (e :: cc)) k h Hroom Hk) as (h' & E & R & Vo & Vc).
    exists h'. unfold clientcookies_putOnHeaders. rewrite E. split; [done|]. split; [done|]. intros m. rewrite bool_decide_eq_true_2 by done.
    cbn [andb]. destruct (iequals m (bs "Cookie")) eqn:Em; [by apply Vc|by rewrite Vo].
Qed.

Lemma request_head_values c k :
  has_room (5 + k) (cl_headers c) -> 0 <= k -> object_size (m_contentStreamableObject (cl_content c)) <> SIZE_MAX ->
  exists h, request_head c = Ret (Some h) /\ has_room k h /\ forall m, option_values m h ≡ₚ sent_values c m.
Proof.
  intros Hroom Hk Hsize. unfold request_head, sent_values. cbv zeta. set (size := object_size _) in *.
  replace (size =? SIZE_MAX) with false by lia.
  destruct (replace_values (bs "Content-Length") (to_string size) (4 + k) (cl_headers c)) as (h1 & -> & R1 & V1);
    [by apply (has_room_less (5 + k)); [|lia]|lia|]. cbn [mbind outcome_bind].
  set (h2 := if size =? 0 then _ else h1). assert (has_room (4 + k) h2 /\ forall m, option_values m h2 =
    if iequals m (bs "Content-Length") then (if size =? 0 then [] else [to_string size]) else option_values m (cl_headers c)) as [R2 V2].
  { unfold h2. destruct (size =? 0); split; try done; [by apply remove_room|]. intros m. rewrite values_remove, V1. by destruct (iequals m _). }
  destruct (put_client_cookies (m_clientCookies c) (3 + k) h2) as (h3 & -> & R3 & V3);
    [by apply (has_room_less (4 + k)); [|lia]|lia|]. cbn [mbind outcome_bind].
  match goal with |- context [replace_if ?b ?n ?v h3] =>
    destruct (replace_if_values b n v (2 + k) h3) as (h4 & -> & R4 & V4); [by apply (has_room_less (3 + k)); [|lia]|lia|] end. cbn [mbind outcome_bind].
  destruct (replace_values (bs "User-Agent") (userAgent (cl_info c)) (1 + k) h4) as (h5 & -> & R5 & V5);
    [by apply (has_room_less (2 + k)); [|lia]|lia|]. cbn [mbind outcome_bind].
  match goal with |- context [replace_if ?b ?n ?v h5] =>
    destruct (replace_if_values b n v k h5 R5 Hk) as (h6 & -> & R6 & V6) end. cbn [mbind outcome_bind].
  exists h6. split; [done|]. split; [done|]. intros m. rewrite V6, V5, V4.
  destruct (_ && iequals m (bs "Host")); [done|]. destruct (iequals m (bs "User-Agent")); [done|].
  destruct (_ && iequals m (bs "Authentication")); [done|]. by rewrite V3, V2.
Qed.

(** The protocol starts: the line, the headers and the body, in this order. *)
Lemma request_written c line h body acc :
  requestline_text (cl_requestLine c) = Ret (line ++ CRLF) -> request_head c = Ret (Some h) ->
  is_chunks (m_transmitionMode (cl_content c)) = false -> streams (S := S) (m_contentStreamableObject (cl_content c)) body ->
  succeed (sink_status (m_contentStreamableObject (cl_content c))) = true ->
  sink_rep (cl_stream c) acc -> zlen ((line ++ CRLF ++ header_text h) ++ body) <= sink_room (cl_stream c) ->
  exists up, cl_initProtocol c = Ret (cl_set_stream up (cl_set_headers h c), true) /\ sink_rep up (acc ++ (line ++ CRLF ++ header_text h) ++ body).
Proof.
  intros El Eh Hc Hb Hs Hrep Hroom. rewrite !zlen_app in Hroom. pose proof (zlen_nonneg line). pose proof (zlen_nonneg (header_text h)). pose proof (zlen_nonneg body).
  unfold cl_initProtocol, requestline_streamToUpstream. rewrite El. cbn [mbind outcome_bind].
  destruct (writeFullStream_succeed (line ++ CRLF) (cl_stream c) acc) as (up1 & E1 & Hrep1 & Hroom1 & Hs1); [done|rewrite zlen_app; lia|by destruct line|].
  unfold writeString. rewrite E1. cbn [mbind outcome_bind]. rewrite Hs1. cbn [negb]. rewrite zlen_app in Hroom1.
  unfold streamClientHeaders. change (request_head (cl_set_stream up1 c)) with (request_head c). rewrite Eh. cbn [mbind outcome_bind].
  unfold header_streamToUpstream. destruct (send_lines_ok (header_lines h) up1 _ Hrep1) as (up2 & E2 & Hrep2 & Hroom2); [fold (header_text h); lia|].
  change (cl_stream (cl_set_stream up1 c)) with up1. rewrite E2. cbn [mbind outcome_bind negb].
  fold (header_text h) in Hrep2, Hroom2. change (cl_content (cl_set_stream _ _)) with (cl_content c). change (cl_stream (cl_set_stream up2 _)) with up2.
  destruct (sent_body (cl_content c) body up2 _ Hc Hb Hs Hrep2) as (up3 & -> & Hrep3); [lia|]. cbn [mbind outcome_bind].
  exists up3. split; [done|]. rewrite <- !app_assoc in *. exact Hrep3.
Qed.
End Request.

(** ** The client and the server *)
Section Reaches.
Context {M : Type} `{Container M} `{!MMapFile M} {S : Type} `{SinkSpec S} {O : Type} `{Sink O} `{!Source O}.
Context `{!ContentObjects O} `{!HttpObjects O} `{RandomBytes} `{DateFormat} `{Base64BIO} `{SHA1}.
Context {S' O' A : Type} `{Sink S'} `{Sink O'} `{!Source O'} `{!ContentObjects O'} `{!HttpObjects O'} `{!HttpHandlers M S' O' A}.
Variable now : Z.
Implicit Types c : HttpClient M S O.

(** C6.  A request that a client sends is the one that the server decides on: when the
    protocol of the client starts, its stream gets the line, the headers and the
    body, in this order, where the headers hold under every name the values that the
    members of the client ask for (its host, its agent, its cookies, the length of
    the body unless it is empty) and otherwise the ones that were there before; a
    server that gets this line and these headers finds the same method, URI,
    variables and options.  The credentials of the client are not among what the
    server looks at: it has none, whatever they were, unless the headers held an
    Authorization of their own. *)
Theorem client_reaches_server c line body acc :
  has_room 5 (cl_headers c) -> requestline_text (cl_requestLine c) = Ret (line ++ CRLF) ->
  is_chunks (m_transmitionMode (cl_content c)) = false -> streams (S := S) (m_contentStreamableObject (cl_content c)) body ->
  succeed (sink_status (m_contentStreamableObject (cl_content c))) = true ->
  object_size (m_contentStreamableObject (cl_content c)) <> SIZE_MAX -> sink_rep (cl_stream c) acc ->
  exists h, request_head c = Ret (Some h) /\ (forall m, option_values m h ≡ₚ sent_values c m) /\
    let head := line ++ CRLF ++ header_text h in
    (zlen (head ++ body) <= sink_room (cl_stream c) ->
     exists up, cl_initProtocol c = Ret (cl_set_stream up (cl_set_headers h c), true) /\ sink_rep up (acc ++ head ++ body)) /\
    (forall vs (P : Parser (HttpServer M S' O' A)),
       waiting (pr_impl P) -> 35 <= m_maxTTL P -> (forall s : HttpServer M S' O' A, onHTTPClientURIReceived s = Ret (s, true)) ->
       sendable (cl_requestLine c) vs -> m_majorVersion (rl_httpVersion (cl_requestLine c)) = 1 -> one_line line -> zlen line + 2 <= 128 * KB_MULT ->
       headers_fit h -> zlen head < SIZE_MOD -> head_read now (cl_requestLine c) vs line h P) /\
    (forall s : HttpServer M S' O' A, header_view (request_headers s) = header_view h -> option_values (bs "Authorization") (cl_headers c) = [] ->
       ba_isEnabled (basicAuth (hs_info (parseAuthenticationHeaders s))) = false).
Proof.
  intros Hroom El Hc Hb Hs Hsize Hrep. destruct (request_head_values c 0 Hroom ltac:(lia) Hsize) as (h & Eh & _ & Hv).
  exists h. split; [exact Eh|]. split; [exact Hv|]. split; [intros Hfit; by apply request_written|]. split.
  - intros vs P Hw HT Huri Hsend Hmaj Hone Hlen [Hwf Hok Hn Hfit] Hsz. by apply server_reads_head.
  - intros s Hs' Ha. assert (option_values (bs "Authorization") h = []) as He.
    { apply Permutation_nil_r. rewrite Hv. unfold sent_values. known_names. by rewrite Ha. }
    apply values_none in He. rewrite header_exist_view, <- Hs', <- header_exist_view in He. unfold parseAuthenticationHeaders.
    change (request_headers (hs_on_info ?f s)) with (request_headers s). by rewrite He.
Qed.
End Reaches.

(** The cookies that a server sets are not read: what is read as a cookie is an option
    with no name, which no header that is read has. *)
Theorem set_cookie_ignored `{RandomBytes} `{DateFormat} h r :
  header_wf h -> Forall (fun i => i.1 <> []) (header_options h) -> rc_cookies (parse_received h r) = rc_cookies r.
Proof.
  intros Hwf Hn. cbn [parse_received rc_cookies]. unfold parseHeaders2ServerCookies, getOptionsByName, mm_equal_range.
  change (to_upper_copy []) with (@nil Z).
  destruct (filter (fun e => e.1 = []) (m_headers h)) as [|e l] eqn:E; [done|]. exfalso. rewrite Forall_forall in Hn.
  assert (e ∈ e :: l) as Hin by by left. rewrite <- E in Hin. apply list_elem_of_filter in Hin as [Ee He].
  assert (e.1 ∈ map (fun i => i.1.1) (header_view h)) as Hk by (rewrite view_keys; by apply list_elem_of_fmap_2).
  rewrite view_options, map_map in Hk by done. apply list_elem_of_fmap in Hk as (i & Ei & Hi). cbn [fst] in Ei.
  apply (Hn i Hi). rewrite Ee in Ei. by destruct i.1.
Qed.

(** ** Concrete inputs *)
Section Inputs.
#[local] Existing Instance no_files.
#[local] Existing Instance zero_random.
#[local] Existing Instance one_date.
#[local] Existing Instance reference_bio.

(** A client that receives into chunks. *)
Abbreviation Chunks := (B_Chunks B_MEM).
#[local] Instance chunk_objects : ContentObjects Chunks := {| make_object _ := bc_new; set_memory_limit _ o := o |}.
#[local] Instance chunk_sizes : HttpObjects Chunks := {| object_size o := csize o; set_boundary _ o := o |}.

Definition demo_client : HttpClient B_MEM SS Chunks := httpclient_new ss_new.
Definition default_limits : Limits := content_limits (sp_sub (sr_content demo_client)).

Lemma demo_client_expects : expecting default_limits 1000 (64 * KB_MULT) demo_client.
Proof.
  split; [done|apply (new_at_line 128); done|apply (new_at_line (16 * KB_MULT)); done|done|].
  split; try done; try (apply buffer_ready_new; done).
Qed.

Definition demo_answer : MIME_Header := Eval vm_compute in headers_of [bs "Content-Type: text/plain"; bs "Content-Length: 5"].

(** A header that is known fits. *)
Ltac fits :=
  split; [constructor; [repeat constructor|repeat constructor|repeat constructor|cbv; lia|discriminate]; apply (bool_decide_unpack _); vm_compute; exact I
    |apply (bool_decide_unpack _); vm_compute; exact I|by vm_compute|repeat constructor; try discriminate; by vm_compute].

Lemma demo_answer_fits : headers_fit demo_answer.
Proof. fits. Qed.

Lemma response_received_witness :
  exists c : HttpClient B_MEM SS Chunks, sp_sub (sr_status c) = demo_status /\ getResponseHeader (bs "content-type") c = bs "text/plain" /\
    exists P2, write_all [bs "he"; bs "llo"] (after_change c (pr_new demo_client)) = Ret (P2, true) /\
      content_done (sr_content (pr_impl P2)) (bs "hello") /\ cl_current (pr_impl P2) = None.
Proof.
  destruct (response_received default_limits 1000 (64 * KB_MULT) (pr_new demo_client) demo_status demo_answer)
    as (c & Es & _ & _ & _ & Hg & _ & _ & _ & Hbody).
  - exact demo_client_expects.
  - discriminate.
  - split; [by repeat split|by repeat split|exists [bs "Not"; bs "Found"]; split; [reflexivity|by repeat constructor]|].
    exists (bs "HTTP/1.1 404 Not Found"). by vm_compute.
  - exact demo_answer_fits.
  - by vm_compute.
  - exists c. split; [exact Es|]. split; [refine (Hg _ _); split; [discriminate|by vm_compute]|].
    destruct (Hbody [bs "he"; bs "llo"]) as (P2 & E & Hd & Hc & _).
    + by vm_compute.
    + discriminate.
    + discriminate.
    + discriminate.
    + repeat constructor; discriminate.
    + exists P2. split; [exact E|]. split; [exact Hd|exact Hc].
Defined.

(** A client and a server over strings. *)
#[local] Existing Instance string_objects.
#[local] Existing Instance string_sizes.
#[local] Existing Instance some_digest.
#[local] Existing Instance accepting.

(** A client that posts to a host, with a cookie, with credentials. *)
Definition posting_client : HttpClient B_MEM SS SS :=
  let c := addCookie (bs "sid") (bs "abc") (setClientRequest (bs "a.org") (bs "/login") (httpclient_new ss_new)) in
  let c := on_line (setHTTPMethod (bs "POST")) (cl_set_content (c_set_object (with_text (bs "hello")) (cl_content c)) c) in
  cl_set_info (ri_set_auth (setAuthentication (bs "user") (bs "pass")) (cl_info c)) c.

Lemma posting_sendable : sendable (cl_requestLine posting_client) [].
Proof.
  constructor.
  - by split.
  - reflexivity.
  - split; [by split|]. split; [discriminate|]. split.
    + cbn. intros Hin. repeat (apply elem_of_cons in Hin as [?|Hin]; [discriminate|]). by apply not_elem_of_nil in Hin.
    + repeat constructor; discriminate.
  - by repeat split.
  - constructor.
  - constructor.
  - discriminate.
  - discriminate.
Qed.

Definition posted_header : MIME_Header := Eval vm_compute in
  match request_head posting_client with Ret (Some h) => h | _ => header_init end.

Lemma posted_header_fits : headers_fit posted_header.
Proof. fits. Qed.

Lemma client_reaches_server_witness :
  exists h (s s0 : HttpServer B_MEM SS SS unit), httpserver_new tt ss_new = Ret s0 /\
    option_values (bs "Content-Length") h = [bs "5"] /\ option_values (bs "Cookie") h = [bs "sid=abc"] /\
    (exists up, cl_initProtocol posting_client = Ret (cl_set_stream up (cl_set_headers h posting_client), true) /\
       sink_rep up ((bs "POST /login HTTP/1.1" ++ CRLF ++ header_text posted_header) ++ bs "hello")) /\
    hs_current s = Some HEADERS /\ m_requestURI (request_line s) = bs "/login" /\ header_view (request_headers s) = header_view h /\
    ba_isEnabled (basicAuth (hs_info (parseAuthenticationHeaders s))) = false.
Proof.
  destruct (httpserver_new tt ss_new) as [s0| | |] eqn:E0; [|vm_compute in E0; discriminate..].
  destruct (client_reaches_server (S' := SS) (O' := SS) (A := unit) 1700000000 posting_client (bs "POST /login HTTP/1.1") (bs "hello") [])
    as (h & Eh & Hv & Hsent & Hread & Hauth).
  - split; [apply header_init_wf|]. by vm_compute.
  - vm_compute; reflexivity.
  - reflexivity.
  - apply string_streams.
  - reflexivity.
  - discriminate.
  - by vm_compute.
  - assert (request_head posting_client = Ret (Some posted_header)) as Eh' by (vm_compute; reflexivity).
    rewrite Eh in Eh'. injection Eh' as ->. destruct Hsent as (up & Es & Hu); [by vm_compute|].
    destruct (Hread [] (pr_new s0)) as (s & Hs & _ & _ & (_ & Hi & _) & Hh & _).
    + exact (httpserver_new_waits tt ss_new s0 E0).
    + discriminate.
    + reflexivity.
    + exact posting_sendable.
    + reflexivity.
    + by vm_compute.
    + by vm_compute.
    + exact posted_header_fits.
    + by vm_compute.
    + exists posted_header, s, s0. split; [reflexivity|]. split; [vm_compute; reflexivity|]. split; [vm_compute; reflexivity|].
      split; [exists up; split; [exact Es|exact Hu]|].
      split; [exact Hs|]. split; [exact Hi|]. split; [exact Hh|]. by apply Hauth.
Defined.
End Inputs.
