(* ===== verification/FilePaths.v ===== *)
(** * Files of the HTTP/1 server (Protocol_HTTP/httpv1_server_filepaths.cpp)

    The three functions that turn a URI into a file.  The file system is the
    class [FileSystem]: [realpath], [stat], [access] and the mapping of a file in
    memory; it does not change while a function runs.

    The laws of [FileSystemLaws] state what POSIX says of [realpath]: its result
    is an absolute path without empty, [.] and [..] components.  From these the
    containment of what is served follows. *)

From S2P Require Import Prelude SafeInt Mem Streamable Container ContainerTheory BMem BChunks ChunkBuffer BRef.
From S2P Require Import SubParser Parser CLib HttpContent MimeHeader HeaderTheory Encoders UrlStream HttpVars HttpLines HttpHeaders HttpResponse WebSocket HttpServer HttpExamples.
From Stdlib Require Import ZArith Lia.

(** What the members of [struct stat] say. *)
Inductive FileKind := IS_DIR | IS_REG | IS_OTHER.
#[export] Instance FileKind_eq_dec : EqDecision FileKind.
Proof. solve_decision. Defined.

Record FileStats := mkStats { st_mode : FileKind; st_mtim : Z }.

(** [stat] is what the structure holds after the call. *)
Class FileSystem (O : Type) := {
  realpath : bytes -> option bytes;
  stat : bytes -> FileStats;
  access_R_OK : bytes -> bool;
  access_X_OK : bytes -> bool;
  referenceFile : bytes -> option O }.

Definition SLASHB : byte := 47.
Definition SLASH : bytes := [SLASHB].

(** [LocalRequestedFileInfo]. *)
Record FileInfo := mkFileInfo {
  relativePath : bytes;
  fullPath : bytes;
  isDirectory : bool;
  isExecutable : bool;
  isTransversal : bool;
  fi_exists : bool }.

Definition fileinfo_reset : FileInfo := mkFileInfo [] [] false false false false.
Definition fi_set_paths (relative full : bytes) (i : FileInfo) : FileInfo :=
  mkFileInfo relative full (isDirectory i) (isExecutable i) (isTransversal i) (fi_exists i).
Definition fi_set_directory (v : bool) (i : FileInfo) : FileInfo :=
  mkFileInfo (relativePath i) (fullPath i) v (isExecutable i) (isTransversal i) (fi_exists i).
Definition fi_set_executable (v : bool) (i : FileInfo) : FileInfo :=
  mkFileInfo (relativePath i) (fullPath i) (isDirectory i) v (isTransversal i) (fi_exists i).
Definition fi_set_transversal (v : bool) (i : FileInfo) : FileInfo :=
  mkFileInfo (relativePath i) (fullPath i) (isDirectory i) (isExecutable i) v (fi_exists i).
Definition fi_set_exists (v : bool) (i : FileInfo) : FileInfo :=
  mkFileInfo (relativePath i) (fullPath i) (isDirectory i) (isExecutable i) (isTransversal i) v.

(** [x + (x.back() == SLASHB ? "" : SLASH)]; [back] of an empty string is
    undefined. *)
Definition with_slash (path : bytes) : outcome bytes :=
  match last path with
  | None => Undef
  | Some c => Ret (if c =? SLASHB then path else path ++ SLASH)
  end.

(** The test of a path that was resolved against the directory it must be in. *)
Definition outside (root path : bytes) : outcome bool :=
  if zlen path <? zlen root then Ret true
  else
    r ← memcmp root path (zlen root);
    Ret (negb (r =? 0)).

Section FilePaths.
Context {M : Type} `{Container M} `{!MMapFile M} {S : Type} `{Sink S} {O : Type} `{Sink O} `{!Source O} {A : Type}.
Context `{!ContentObjects O} `{!HttpObjects O} `{!HttpHandlers M S O A} `{RandomBytes} `{DateFormat} `{!FileSystem O}.
Implicit Types s : HttpServer M S O A.

(** The function object [resolveDirPathWithSlashAtEnd]. *)
Definition resolveDirPathWithSlashAtEnd (serverDirectoryPath : bytes) : outcome bytes :=
  match realpath (c_str serverDirectoryPath) with
  | None => Ret []
  | Some [] => Ret []
  | Some resolvedPath => with_slash resolvedPath
  end.

(** [RequestedOverlapInfo]; the statistics are read when the path is chosen. *)
Record OverlapInfo := mkOverlap {
  fileSystemRealPath : bytes;
  serverWebRootWithEndingSlash : bytes;
  urlPathPrefix : bytes }.

Definition detectPathTraversal (o : OverlapInfo) : outcome bool :=
  outside (serverWebRootWithEndingSlash o) (fileSystemRealPath o).

Definition getRelativePath (o : OverlapInfo) : bytes :=
  urlPathPrefix o ++ zdrop (zlen (serverWebRootWithEndingSlash o)) (fileSystemRealPath o).

(** The overlapped directories whose prefix the URI has.  [substr] past the end
    would throw; the prefix is one of the URI, so it does not. *)
Fixpoint add_overlaps (requestedURI requestURIWithDefaultFile : bytes) (dirs : list (bytes * bytes)) : outcome (list OverlapInfo) :=
  match dirs with
  | [] => Ret []
  | (first, second) :: dirs =>
      if bool_decide (first = []) || bool_decide (second = []) || negb (starts_with requestedURI first)
      then add_overlaps requestedURI requestURIWithDefaultFile dirs
      else
        root ← resolveDirPathWithSlashAtEnd second;
        rest ← add_overlaps requestedURI requestURIWithDefaultFile dirs;
        if bool_decide (root = []) then Ret rest
        else Ret (mkOverlap (root ++ zdrop (zlen first - 1) requestURIWithDefaultFile) root first :: rest)
  end.

(** The first of the candidates that exists.  [Some] of a candidate with its
    resolved path and statistics and whether it is outside of its directory. *)
Fixpoint select_overlap (candidates : list OverlapInfo) (info : FileInfo) : outcome (FileInfo * option (OverlapInfo * FileStats * bool)) :=
  match candidates with
  | [] => Ret (info, None)
  | o :: candidates =>
      match realpath (c_str (fileSystemRealPath o)) with
      | None => select_overlap candidates info
      | Some path =>
          let st := stat path in
          let info := fi_set_directory (bool_decide (st_mode st = IS_DIR)) info in
          path ← (if isDirectory info then with_slash path else Ret path);
          let o := mkOverlap path (serverWebRootWithEndingSlash o) (urlPathPrefix o) in
          bad ← detectPathTraversal o;
          Ret (info, Some (o, st, bad))
      end
  end.

(** The cache policy of files. *)
Definition file_cache (c : CacheControl) : CacheControl :=
  cc_immutable true (cc_maxAge 3600 (cc_mustRevalidate false (cc_noStore false (cc_noCache false c)))).

(** [m_staticContentElements[path]]: a missing entry is made. *)
Definition static_element (path : bytes) s : HttpServer M S O A * option O :=
  match mm_find path (m_staticContentElements s) with
  | Some e => (s, e)
  | None => (addStaticContent path None s, None)
  end.

Definition serve_static (requestedURI defaultFileToAppend : bytes) (info : FileInfo) s : HttpServer M S O A * FileInfo :=
  let s := hs_on_response (fun r => rs_set_cache (file_cache (rs_cacheControl r)) r) s in
  let relative := requestedURI ++ defaultFileToAppend in
  let '(s, _) := detectContentTypeFromFilePath relative s in
  let info := fi_set_paths relative (bs "MEM:" ++ relative) info in
  let '(s, e) := static_element relative s in
  (hs_on_response (setDataStreamer e) s, info).

(** A regular file that is mapped. *)
Definition serve_file (o : OverlapInfo) (st : FileStats) (file : O) (info : FileInfo) s : outcome (HttpServer M S O A * FileInfo) :=
  let info := fi_set_paths (getRelativePath o) (fileSystemRealPath o) info in
  let s := hs_on_response (setDataStreamer (Some file)) s in
  let '(s, _) := detectContentTypeFromFilePath (relativePath info) s in
  let r := hs_response s in
  h ← (if includeDate r then add_header (bs "Last-Modified") (date_toString (st_mtim st)) (rs_headers r)
       else Ret (rs_headers r));
  Ret (hs_on_response (fun r => rs_set_cache (file_cache (rs_cacheControl r)) r) (hs_set_response (rs_set_headers h r) s), info).

(** What is done with the file that was found. *)
Definition serve_selected (defaultFileToAppend : bytes) (preventMappingExecutables : bool) (o : OverlapInfo) (st : FileStats)
    (info : FileInfo) s : outcome (HttpServer M S O A * FileInfo * bool) :=
  if isDirectory info then
    let info := fi_set_exists true info in
    if bool_decide (defaultFileToAppend <> []) then Ret (s, info, false)
    else
      let info := fi_set_paths (getRelativePath o) (fileSystemRealPath o) info in
      Ret (s, info, access_R_OK (c_str (fullPath info)))
  else if bool_decide (st_mode st = IS_REG) then
    let info := fi_set_exists true info in
    if preventMappingExecutables && access_X_OK (c_str (fileSystemRealPath o)) then
      Ret (s, fi_set_executable true (fi_set_paths (getRelativePath o) (fileSystemRealPath o) info), true)
    else
      match referenceFile (c_str (fileSystemRealPath o)) with
      | Some file => '(s, info) ← serve_file o st file info s; Ret (s, info, true)
      | None => Ret (s, info, false)
      end
  else Ret (s, info, false).

Definition resolveLocalFilePathFromURI2 (defaultWebRootWithEndingSlash : bytes) (overlappedDirectories : list (bytes * bytes))
    (info : option FileInfo) (defaultFileToAppend : bytes) (preventMappingExecutables : bool) s :
    outcome (HttpServer M S O A * FileInfo * bool) :=
  match info with
  | None => Throw (runtime_error "resolveLocalFilePathFromURI2 Should be called with info object... Aborting...")
  | Some _ =>
      let info := fileinfo_reset in
      let requestedURI := m_requestURI (request_line s) in
      root ← resolveDirPathWithSlashAtEnd defaultWebRootWithEndingSlash;
      if bool_decide (root = []) then Ret (s, info, false)
      else
        let requestURIWithoutLeadingSlash := if zlen requestedURI <=? 1 then SLASH else zdrop 1 requestedURI in
        let requestURIWithDefaultFile := requestURIWithoutLeadingSlash ++ defaultFileToAppend in
        overlaps ← add_overlaps requestedURI requestURIWithDefaultFile overlappedDirectories;
        if om_count requestURIWithDefaultFile (m_staticContentElements s) then
          let '(s, info) := serve_static requestedURI defaultFileToAppend info s in Ret (s, info, true)
        else
          '(info, selected) ← select_overlap (mkOverlap (root ++ requestURIWithDefaultFile) root SLASH :: overlaps) info;
          match selected with
          | None => Ret (s, info, false)
          | Some (o, st, true) => Ret (s, fi_set_transversal true info, false)
          | Some (o, st, false) => serve_selected defaultFileToAppend preventMappingExecutables o st info s
          end
  end.

(** The path of a URI inside a directory, resolved. *)
Definition resolve_in (uri sServerDir : bytes) : outcome (option (bytes * bytes)) :=
  match realpath (c_str sServerDir) with
  | None => Ret None
  | Some dir =>
      dir ← with_slash dir;
      match realpath (c_str (dir ++ match uri with [] => [] | _ :: uri => uri end)) with
      | None => Ret None
      | Some path => Ret (Some (dir, path))
      end
  end.

(** The end of both functions: the test, and the paths. *)
Definition contained_info (dir path : bytes) (info : FileInfo) : outcome (FileInfo * bool) :=
  bad ← outside dir path;
  if (bad : bool) then Ret (fi_set_transversal true info, false)
  else Ret (fi_set_paths (c_str (zdrop (zlen dir - 1) path)) path info, true).

Definition resolveLocalFilePathFromURI0NE (uri sServerDir : bytes) (info : option FileInfo) : outcome (FileInfo * bool) :=
  match info with
  | None => Throw (runtime_error "resolveLocalFilePathFromURI0NE Should be called with info object... Aborting...")
  | Some _ =>
      found ← resolve_in uri sServerDir;
      match found with
      | None => Ret (fileinfo_reset, false)
      | Some (dir, path) => contained_info dir path fileinfo_reset
      end
  end.

Definition resolveLocalFilePathFromURI0E (uri sServerDir : bytes) (info : option FileInfo) : outcome (FileInfo * bool) :=
  match info with
  | None => Throw (runtime_error "resolveLocalFilePathFromURI0E Should be called with info object... Aborting...")
  | Some _ =>
      found ← resolve_in uri sServerDir;
      match found with
      | None => Ret (fileinfo_reset, false)
      | Some (dir, path) =>
          let info := fi_set_directory (bool_decide (st_mode (stat path) = IS_DIR)) fileinfo_reset in
          path ← (if isDirectory info then with_slash path else Ret path);
          contained_info dir path info
      end
  end.
End FilePaths.

(** ** Paths *)

(** A component of a resolved path. *)
Definition component_ok (c : bytes) : Prop := c <> [] /\ (SLASHB ∉ c) /\ (0 ∉ c) /\ c <> bs "." /\ c <> bs "..".

#[export] Instance component_ok_dec c : Decision (component_ok c).
Proof. unfold component_ok. apply _. Defined.

(** The text of a path, and of a directory with its slash. *)
Definition slashed (cs : list bytes) : bytes := concat (map (cons SLASHB) cs).
Definition path_text (cs : list bytes) : bytes := match cs with [] => SLASH | _ => slashed cs end.
Definition dir_text (cs : list bytes) : bytes := slashed cs ++ SLASH.

Class FileSystemLaws (O : Type) `{!FileSystem O} : Prop := {
  realpath_resolved p q : realpath p = Some q -> exists cs, q = path_text cs /\ Forall component_ok cs }.

Lemma split_unique {A} (x : A) a b l l' : x ∉ a -> x ∉ b -> a ++ x :: l = b ++ x :: l' -> a = b /\ l = l'.
Proof.
  revert b. induction a as [|y a IH]; intros [|z b] Ha Hb E; cbn [app] in E.
  - by injection E.
  - injection E as -> _. destruct Hb. apply list_elem_of_here.
  - injection E as -> _. destruct Ha. apply list_elem_of_here.
  - injection E as -> E2. apply not_elem_of_cons in Ha as [_ Ha]. apply not_elem_of_cons in Hb as [_ Hb].
    by destruct (IH b Ha Hb E2) as [-> ->].
Qed.

(** A path that starts with a directory is in it, component by component. *)
Lemma prefix_components rc pc rest (t : bytes) :
  Forall component_ok rc -> Forall component_ok pc -> t = [] \/ t = SLASH ->
  dir_text rc ++ rest = slashed pc ++ t -> exists cs, pc = rc ++ cs /\ SLASH ++ rest = slashed cs ++ t.
Proof.
  intros Hr Hp Ht. revert pc Hp. induction Hr as [|c rc Hc Hr IH]; intros pc Hp E.
  { exists pc. by split. }
  unfold dir_text, slashed in E. cbn [map concat] in E. rewrite <- !app_assoc in E. cbn [app] in E.
  destruct Hp as [|d pc Hd Hp]; cbn [map concat app] in E.
  { destruct Hc as (Hne & _). destruct Ht as [-> | ->]; [done|]. destruct c; [done|].
    injection E as E. done. }
  injection E as E. destruct Hc as (_ & Hc & _), Hd as (_ & Hd & _).
  assert (forall l, concat (map (cons SLASHB) rc) ++ SLASHB :: l = SLASHB :: tl (concat (map (cons SLASHB) rc) ++ SLASHB :: l)) as Hhd.
  { intros l. by destruct rc. }
  rewrite Hhd, <- app_assoc in E. destruct (concat (map (cons SLASHB) pc) ++ t) as [|y Y] eqn:EY.
  { rewrite app_nil_r in E. destruct Hd. rewrite <- E. apply elem_of_app. right. apply list_elem_of_here. }
  assert (y = SLASHB) as ->.
  { destruct pc as [|e pc]; [destruct Ht as [-> | ->]; by inversion EY|by inversion EY]. }
  apply split_unique in E as [-> E]; [|done..].
  destruct (IH pc Hp) as (cs & -> & Es). { unfold dir_text, slashed. rewrite <- app_assoc. change (SLASH ++ rest) with (SLASHB :: rest). by rewrite Hhd, EY, E. }
  by exists cs.
Qed.

Lemma path_text_slashed cs : path_text cs = slashed cs ++ match cs with [] => SLASH | _ => [] end.
Proof. destruct cs; [done|]. by rewrite app_nil_r. Qed.

Lemma slashed_last cs c : last (slashed cs) = Some c -> Forall component_ok cs -> c <> SLASHB.
Proof.
  intros Hl Hok. destruct (exists_last (l := cs)) as (cs' & d & ->); [by intros ->|].
  apply Forall_app in Hok as [_ Hok]. inversion Hok as [|? ? (Hne & Hs & _) _]; subst.
  unfold slashed in Hl. rewrite map_app, concat_app in Hl. cbn [map concat] in Hl. rewrite app_nil_r in Hl.
  destruct (exists_last Hne) as (d' & x & ->). rewrite app_comm_cons, app_assoc, last_snoc in Hl. injection Hl as ->.
  intros ->. apply Hs. apply elem_of_app. right. apply list_elem_of_here.
Qed.

Lemma with_slash_dir cs : Forall component_ok cs -> with_slash (path_text cs) = Ret (dir_text cs).
Proof.
  intros Hok. unfold with_slash, dir_text. destruct cs as [|c cs]; [done|]. cbn [path_text].
  destruct (last (slashed (c :: cs))) as [x|] eqn:El; [|by apply last_None in El].
  apply slashed_last in El; [|done]. by replace (x =? SLASHB) with false by lia.
Qed.

(** The test compares the beginning of the path with the directory. *)
Lemma outside_spec root path :
  exists b, outside root path = Ret b /\ (b = false <-> exists rest, path = root ++ rest).
Proof.
  unfold outside. destruct (Z.ltb_spec (zlen path) (zlen root)) as [Hlt|Hge].
  - exists true. split; [done|]. split; [done|]. intros (rest & ->). rewrite zlen_app in Hlt. pose proof (zlen_nonneg rest). lia.
  - unfold memcmp. replace (zlen root <=? zlen root) with true by lia. replace (zlen root <=? zlen path) with true by lia.
    cbn [andb mbind outcome_bind]. eexists. split; [done|]. rewrite negb_false_iff, Z.eqb_eq, cmp_bytes_zero.
    + rewrite ztake_ge by lia. split.
      * intros E. exists (zdrop (zlen root) path). rewrite E at 1. by rewrite ztake_zdrop.
      * intros (rest & ->). by rewrite ztake_app_le, ztake_ge by lia.
    + unfold ztake, zlen in *. rewrite !length_take. lia.
Qed.

(** The text of a path that is a directory or not. *)
Definition entry_text (dir : bool) (cs : list bytes) : bytes := if dir then dir_text cs else path_text cs.

Lemma entry_text_slash (dir : bool) pc :
  Forall component_ok pc -> (if dir then with_slash (path_text pc) else Ret (path_text pc)) = Ret (entry_text dir pc).
Proof. intros Hok. destruct dir; [by apply with_slash_dir|done]. Qed.

Lemma inside_components dir rc pc :
  Forall component_ok rc -> Forall component_ok pc -> outside (dir_text rc) (entry_text dir pc) = Ret false ->
  exists cs, pc = rc ++ cs /\ Forall component_ok cs /\ entry_text dir pc = dir_text rc ++ tail (entry_text dir cs).
Proof.
  intros Hr Hp Ho. destruct (outside_spec (dir_text rc) (entry_text dir pc)) as (b & Eb & Hb).
  rewrite Ho in Eb. injection Eb as <-. destruct (proj1 Hb eq_refl) as (rest & E).
  assert (exists t, (t = [] \/ t = SLASH) /\ entry_text dir pc = slashed pc ++ t /\
    forall cs, pc = rc ++ cs -> SLASH ++ rest = slashed cs ++ t -> entry_text dir cs = slashed cs ++ t) as (t & Ht & Et & Hcs).
  { destruct dir; cbn [entry_text]; [by exists SLASH; split; [right|]|]. rewrite path_text_slashed.
    eexists. split; [|split; [reflexivity|]]; [destruct pc; by auto|]. intros cs Epc Er. destruct pc as [|c pc].
    - symmetry in Epc. by apply app_nil in Epc as [_ ->].
    - rewrite path_text_slashed. destruct cs; [done|by rewrite app_nil_r]. }
  rewrite Et in E. symmetry in E. destruct (prefix_components rc pc rest t Hr Hp Ht E) as (cs & -> & Es).
  exists cs. split; [done|]. split; [by apply Forall_app in Hp as []|]. rewrite Et, <- E, (Hcs cs eq_refl Es), <- Es. done.
Qed.

Lemma inside_text dir rc cs :
  (dir = false -> cs <> []) -> outside (dir_text rc) (entry_text dir (rc ++ cs)) = Ret false /\
    entry_text dir (rc ++ cs) = dir_text rc ++ tail (entry_text dir cs).
Proof.
  intros Hcs. assert (entry_text dir (rc ++ cs) = dir_text rc ++ tail (entry_text dir cs)) as E.
  { assert (slashed (rc ++ cs) = slashed rc ++ slashed cs) as Es by (unfold slashed; by rewrite map_app, concat_app).
    destruct dir; cbn [entry_text]; unfold dir_text.
    - rewrite Es, <- !app_assoc. f_equal. by destruct cs.
    - destruct cs as [|c cs]; [by destruct (Hcs eq_refl)|]. rewrite path_text_slashed.
      replace (match rc ++ c :: cs with [] => SLASH | _ => [] end) with (@nil byte) by (by destruct rc).
      rewrite app_nil_r, Es, <- app_assoc. done. }
  split; [|done]. destruct (outside_spec (dir_text rc) (entry_text dir (rc ++ cs))) as (b & -> & Hb). f_equal.
  apply Hb. eexists. exact E.
Qed.

(** A resolved path has no end before its end. *)
Lemma resolved_c_str dir cs : Forall component_ok cs -> c_str (entry_text dir cs) = entry_text dir cs.
Proof.
  intros Hok. assert (0 ∉ slashed cs) as Hs.
  { unfold slashed. induction Hok as [|c cs (_ & _ & Hc & _) Hok IH]; cbn [map concat]; [by apply not_elem_of_nil|].
    rewrite elem_of_app, elem_of_cons. intros [[?|?]|?]; done. }
  apply c_str_nul_free. destruct dir; cbn [entry_text].
  - unfold dir_text. rewrite elem_of_app. intros [?|?%list_elem_of_singleton]; done.
  - rewrite path_text_slashed, elem_of_app. intros [?|Hin]; [done|]. destruct cs; [|by apply not_elem_of_nil in Hin].
    by apply list_elem_of_singleton in Hin.
Qed.

Section Theory.
Context {M : Type} `{Container M} `{!MMapFile M} {S : Type} `{Sink S} {O : Type} `{Sink O} `{!Source O} {A : Type}.
Context `{!ContentObjects O} `{!HttpObjects O} `{!HttpHandlers M S O A} `{RandomBytes} `{DateFormat}.
Context `{!FileSystem O} `{!FileSystemLaws O}.
Implicit Types s : HttpServer M S O A.

(** A directory on the server, as the functions see it. *)
Lemma resolve_dir_spec d :
  (realpath (c_str d) = None /\ resolveDirPathWithSlashAtEnd d = Ret []) \/
  (exists rc, realpath (c_str d) = Some (path_text rc) /\ Forall component_ok rc /\ resolveDirPathWithSlashAtEnd d = Ret (dir_text rc)).
Proof.
  unfold resolveDirPathWithSlashAtEnd. destruct (realpath (c_str d)) as [q|] eqn:E; [right|by left].
  destruct (realpath_resolved _ _ E) as (rc & -> & Hok). exists rc. split; [done|]. split; [done|].
  rewrite <- with_slash_dir by done. by destruct rc.
Qed.

Lemma dir_text_nonempty cs : dir_text cs <> [].
Proof. unfold dir_text. by destruct (slashed cs). Qed.

(** What a candidate is: a path below a directory that was resolved. *)
Definition candidate_in (dirs : list (bytes * bytes)) (o : OverlapInfo) : Prop :=
  exists dir rc, (urlPathPrefix o, dir) ∈ dirs /\ realpath (c_str dir) = Some (path_text rc) /\ Forall component_ok rc /\
    serverWebRootWithEndingSlash o = dir_text rc.

Lemma add_overlaps_candidates uri text dirs :
  exists l, add_overlaps uri text dirs = Ret l /\ Forall (candidate_in dirs) l.
Proof.
  induction dirs as [|[first second] dirs (l & IH & Hl)]; cbn [add_overlaps]; [by exists []|].
  assert (Forall (candidate_in ((first, second) :: dirs)) l) as Hl'.
  { eapply Forall_impl; [exact Hl|]. intros o (dir & rc & Hin & Hrest). exists dir, rc. split; [|done].
    by apply list_elem_of_further. }
  destruct (_ || _); [by exists l|]. destruct (resolve_dir_spec second) as [[_ ->]|(rc & Er & Hrc & ->)];
    cbn [mbind outcome_bind]; rewrite IH; cbn [mbind outcome_bind]; [by exists l|].
  rewrite bool_decide_eq_false_2 by apply dir_text_nonempty. eexists. split; [done|]. constructor; [|done].
  exists second, rc. split; [apply list_elem_of_here|done].
Qed.

Lemma select_overlap_found cands info :
  Forall (candidate_in cands.1) cands.2 ->
  exists info' r, select_overlap cands.2 info = Ret (info', r) /\ fi_set_directory (isDirectory info') info = info' /\
    match r with
    | None => True
    | Some (o, st, bad) => exists pc, candidate_in cands.1 o /\ Forall component_ok pc /\ st = stat (path_text pc) /\
        isDirectory info' = bool_decide (st_mode st = IS_DIR) /\
        fileSystemRealPath o = entry_text (isDirectory info') pc /\
        outside (serverWebRootWithEndingSlash o) (fileSystemRealPath o) = Ret bad
    end.
Proof.
  destruct cands as [dirs cands]. cbn [fst snd]. induction 1 as [|o cands Ho _ IH]; cbn [select_overlap].
  { exists info, None. by destruct info. }
  destruct (realpath (c_str (fileSystemRealPath o))) as [q|] eqn:E; [|exact IH].
  destruct (realpath_resolved _ _ E) as (pc & -> & Hok). cbn [isDirectory fi_set_directory].
  rewrite entry_text_slash by done. cbn [mbind outcome_bind]. unfold detectPathTraversal. cbn [serverWebRootWithEndingSlash fileSystemRealPath].
  destruct (outside_spec (serverWebRootWithEndingSlash o) (entry_text (bool_decide (st_mode (stat (path_text pc)) = IS_DIR)) pc)) as (b & Eb & _).
  rewrite Eb. cbn [mbind outcome_bind]. eexists _, _. split; [done|]. split; [done|]. exists pc. by split_and!.
Qed.

(** Serving sets the object, and nothing else touches it. *)
Lemma detectContentType_content path s :
  rs_content (hs_response (detectContentTypeFromFilePath path s).1) = rs_content (hs_response s) /\
  request_line (detectContentTypeFromFilePath path s).1 = request_line s /\
  m_staticContentElements (detectContentTypeFromFilePath path s).1 = m_staticContentElements s.
Proof. unfold detectContentTypeFromFilePath. by destruct (detectContentType _ _) as [[ext [type|]]|]. Qed.

Lemma serve_file_serves o st file info s :
  exists s', serve_file o st file info s = Ret (s', fi_set_paths (getRelativePath o) (fileSystemRealPath o) info) /\
    m_contentStreamableObject (rs_content (hs_response s')) = file.
Proof.
  unfold serve_file. cbn [relativePath fi_set_paths].
  pose proof (detectContentType_content (getRelativePath o) (hs_on_response (setDataStreamer (Some file)) s)) as (Ec & _).
  destruct (detectContentTypeFromFilePath _ _) as [s1 b]. cbn [fst] in Ec.
  assert (exists h, (if includeDate (hs_response s1) then add_header (bs "Last-Modified") (date_toString (st_mtim st)) (rs_headers (hs_response s1))
    else Ret (rs_headers (hs_response s1))) = Ret h) as (h & ->).
  { destruct (includeDate _); [|by eexists]. unfold add_header.
    destruct (header_add_eq (bs "Last-Modified") (date_toString (st_mtim st)) (rs_headers (hs_response s1)))
      as [[_ ->]|(_ & opt & -> & _)]; by eexists. }
  cbn [mbind outcome_bind]. eexists. split; [done|].
  change (m_contentStreamableObject (rs_content (hs_response s1)) = file). by rewrite Ec.
Qed.

(** A file that is not there leaves the server as it was. *)
Lemma resolve_refused root dirs info0 defaultFile prevent s s' info :
  resolveLocalFilePathFromURI2 root dirs (Some info0) defaultFile prevent s = Ret (s', info, false) -> s' = s.
Proof.
  unfold resolveLocalFilePathFromURI2.
  destruct (resolve_dir_spec root) as [[_ ->]|(rc0 & _ & _ & ->)]; cbn [mbind outcome_bind].
  { by intros [= ->]. }
  rewrite bool_decide_eq_false_2 by apply dir_text_nonempty.
  set (text := _ ++ defaultFile). destruct (add_overlaps_candidates (m_requestURI (request_line s)) text dirs) as (l & -> & _).
  cbn [mbind outcome_bind]. destruct (om_count _ _); [by destruct (serve_static _ _ _ _)|].
  destruct (select_overlap _ _) as [[i r]| | |]; [|done..]. cbn [mbind outcome_bind].
  destruct r as [[[o st] []]|]; [by intros [= ->]| |by intros [= ->]].
  unfold serve_selected. destruct (isDirectory i); [destruct (bool_decide _); by intros [= ->]|].
  destruct (bool_decide _); [|by intros [= ->]]. destruct (_ && _); [done|].
  destruct (referenceFile _) as [file|]; [|by intros [= ->]].
  destruct (serve_file_serves o st file (fi_set_exists true i) s) as (s2 & -> & _). done.
Qed.

(** What is answered: content in memory, or a resolved path below a directory. *)
Lemma resolve_contained root dirs info0 defaultFile prevent s s' info :
  resolveLocalFilePathFromURI2 root dirs (Some info0) defaultFile prevent s = Ret (s', info, true) ->
  fullPath info = bs "MEM:" ++ m_requestURI (request_line s) ++ defaultFile \/
  exists prefix dir rc cs, (prefix, dir) ∈ (SLASH, root) :: dirs /\ realpath (c_str dir) = Some (path_text rc) /\
    Forall component_ok cs /\ fullPath info = entry_text (isDirectory info) (rc ++ cs) /\
    fullPath info = dir_text rc ++ tail (entry_text (isDirectory info) cs) /\
    relativePath info = prefix ++ tail (entry_text (isDirectory info) cs) /\
    (isDirectory info = false -> prevent = false \/ isExecutable info = false ->
       referenceFile (fullPath info) = Some (m_contentStreamableObject (rs_content (hs_response s')))).
Proof.
  unfold resolveLocalFilePathFromURI2.
  destruct (resolve_dir_spec root) as [[_ ->]|(rc0 & Er0 & Hrc0 & ->)]; cbn [mbind outcome_bind];
    [by rewrite bool_decide_eq_true_2|].
  rewrite bool_decide_eq_false_2 by apply dir_text_nonempty.
  set (text := _ ++ defaultFile). destruct (add_overlaps_candidates (m_requestURI (request_line s)) text dirs) as (l & -> & Hl).
  cbn [mbind outcome_bind]. destruct (om_count _ _).
  { unfold serve_static. destruct (detectContentTypeFromFilePath _ _) as [s1 b1]. destruct (static_element _ s1) as [s2 e].
    intros [= _ <-]. by left. }
  set (cands := mkOverlap _ _ _ :: l).
  destruct (select_overlap_found ((SLASH, root) :: dirs, cands) fileinfo_reset) as (i & r & E & Hi & Hr).
  { constructor; [exists root, rc0; split; [apply list_elem_of_here|done]|]. eapply Forall_impl; [exact Hl|].
    intros o (dir & rc & Hin & Hrest). exists dir, rc. split; [by apply list_elem_of_further|done]. }
  cbn [snd] in E. rewrite E. cbn [mbind outcome_bind].
  destruct r as [[[o st] []]|]; [done| |done]. destruct Hr as (pc & (dir & rc & Hin & Er & Hrc & Ero) & Hpc & -> & Hd & Ep & Hout).
  intros Hs. right. exists (urlPathPrefix o), dir, rc. rewrite Ero, Ep in Hout.
  destruct (inside_components (isDirectory i) rc pc Hrc Hpc Hout) as (cs & -> & Hcs & Etext). exists cs.
  assert (getRelativePath o = urlPathPrefix o ++ tail (entry_text (isDirectory i) cs)) as Erel.
  { unfold getRelativePath. rewrite Ero, Ep, Etext, zdrop_app_ge, Z.sub_diag, zdrop_le0 by lia. done. }
  assert (c_str (fileSystemRealPath o) = entry_text (isDirectory i) (rc ++ cs)) as Ec by (rewrite Ep; by apply resolved_c_str).
  unfold serve_selected in Hs. destruct (isDirectory i) eqn:Ed.
  - destruct (bool_decide _); [done|]. injection Hs as <- <- _. cbn [fullPath relativePath isDirectory fi_set_paths fi_set_exists].
    rewrite Ed. split_and!; try done; by rewrite ?Ep, ?Erel.
  - destruct (bool_decide _); [|done]. destruct (prevent && _) eqn:Ex.
    { apply andb_prop in Ex as [-> _]. injection Hs as <- <-. cbn [fullPath relativePath isDirectory isExecutable fi_set_paths fi_set_exists fi_set_executable].
      rewrite Ed. split_and!; try done; try (by rewrite ?Ep, ?Erel). by intros _ [?|?]. }
    rewrite Ec in Hs. destruct (referenceFile _) as [file|] eqn:Ef; [|done].
    destruct (serve_file_serves o (stat (path_text (rc ++ cs))) file (fi_set_exists true i) s) as (s2 & E2 & Hfile).
    rewrite E2 in Hs. cbn [mbind outcome_bind] in Hs. injection Hs as <- <-.
    cbn [fullPath relativePath isDirectory isExecutable fi_set_paths fi_set_exists].
    rewrite Ed. split_and!; try done; try (by rewrite ?Ep, ?Erel). intros _ _. by rewrite Ep, Ef, Hfile.
Qed.

(** C33. Nothing outside of the directories of the server is served: when the answer
    is yes, it is the static content, or the resolved path of the file is below a
    directory the server was given, component by component and with no step up;
    the path the filters see names that place; and unless it is a directory or an
    executable, the response is that file and no other. *)
Theorem served_file_contained root dirs info0 defaultFile prevent s s' info :
  resolveLocalFilePathFromURI2 root dirs (Some info0) defaultFile prevent s = Ret (s', info, true) ->
  fullPath info = bs "MEM:" ++ m_requestURI (request_line s) ++ defaultFile \/
  exists prefix dir rc cs, (prefix, dir) ∈ (SLASH, root) :: dirs /\ realpath (c_str dir) = Some (path_text rc) /\
    Forall component_ok cs /\ fullPath info = entry_text (isDirectory info) (rc ++ cs) /\
    fullPath info = dir_text rc ++ tail (entry_text (isDirectory info) cs) /\
    relativePath info = prefix ++ tail (entry_text (isDirectory info) cs) /\
    (isDirectory info = false -> isExecutable info = false ->
       referenceFile (fullPath info) = Some (m_contentStreamableObject (rs_content (hs_response s')))).
Proof.
  intros E. destruct (resolve_contained _ _ _ _ _ _ _ _ E) as [C|(prefix & dir & rc & cs & C)]; [by left|right].
  exists prefix, dir, rc, cs. destruct C as (? & ? & ? & ? & ? & ? & Hfile). split_and!; auto.
Qed.

(** A file that is there is served: a regular readable file below the web root,
    named by the URI, is the body of the response, with its path relative to the
    root, whatever other directories the server has. *)
Theorem file_served root dirs info0 defaultFile s rc cs uri file :
  realpath (c_str root) = Some (path_text rc) -> Forall component_ok rc -> Forall component_ok cs -> cs <> [] ->
  m_requestURI (request_line s) = SLASHB :: uri -> uri <> [] ->
  mm_find (uri ++ defaultFile) (m_staticContentElements s) = None ->
  realpath (c_str (dir_text rc ++ uri ++ defaultFile)) = Some (path_text (rc ++ cs)) ->
  st_mode (stat (path_text (rc ++ cs))) = IS_REG -> referenceFile (path_text (rc ++ cs)) = Some file ->
  exists s', resolveLocalFilePathFromURI2 root dirs (Some info0) defaultFile false s =
      Ret (s', mkFileInfo (path_text cs) (path_text (rc ++ cs)) false false false true, true) /\
    m_contentStreamableObject (rs_content (hs_response s')) = file.
Proof.
  intros Hroot Hrc Hcs Hne Huri Hun Hstatic Hreal Hreg Hfile. unfold resolveLocalFilePathFromURI2.
  destruct (resolve_dir_spec root) as [[E _]|(rc' & E & Hrc' & Hdir)]; [congruence|].
  assert (resolveDirPathWithSlashAtEnd root = Ret (dir_text rc)) as Hdir'.
  { unfold resolveDirPathWithSlashAtEnd. rewrite Hroot, <- with_slash_dir by done. by destruct rc. }
  rewrite Hdir'. cbn [mbind outcome_bind]. rewrite bool_decide_eq_false_2 by apply dir_text_nonempty.
  rewrite Huri. rewrite zlen_cons. pose proof (nonempty_length uri Hun). replace (1 + zlen uri <=? 1) with false by lia.
  rewrite zdrop_cons, zdrop_le0 by lia.
  destruct (add_overlaps_candidates (SLASHB :: uri) (uri ++ defaultFile) dirs) as (l & -> & _). cbn [mbind outcome_bind].
  unfold om_count. rewrite Hstatic. cbn [has_value select_overlap fileSystemRealPath]. rewrite Hreal, Hreg.
  cbn [bool_decide decide mbind outcome_bind isDirectory fi_set_directory fileinfo_reset].
  change (bool_decide (IS_REG = IS_DIR)) with false. cbn [isDirectory fi_set_directory mbind outcome_bind].
  destruct (inside_text false rc cs ltac:(done)) as [Hin Etext]. cbn [entry_text] in *.
  unfold detectPathTraversal. cbn [serverWebRootWithEndingSlash fileSystemRealPath urlPathPrefix]. rewrite Hin. cbn [mbind outcome_bind].
  unfold serve_selected. cbn [isDirectory fi_set_directory fileSystemRealPath]. rewrite Hreg.
  rewrite bool_decide_eq_true_2 by done. cbn [andb].
  pose proof (resolved_c_str false (rc ++ cs) ltac:(by apply Forall_app)) as Hc. cbn [entry_text] in Hc. rewrite Hc, Hfile.
  set (o := mkOverlap (path_text (rc ++ cs)) (dir_text rc) SLASH).
  destruct (serve_file_serves o (stat (path_text (rc ++ cs))) file (fi_set_exists true (fi_set_directory false fileinfo_reset)) s)
    as (s' & -> & Hs'). cbn [mbind outcome_bind]. exists s'. split; [|done]. do 2 f_equal.
  unfold fi_set_paths. f_equal. unfold getRelativePath. cbn [urlPathPrefix fileSystemRealPath serverWebRootWithEndingSlash o].
  rewrite Etext, zdrop_app_ge, Z.sub_diag, zdrop_le0 by lia. by destruct cs.
Qed.

(** The static content is looked up without the slash of the URI and taken with
    it: content that was added under the name that is looked up is never sent.
    The answer is yes, the body is a new empty object, the type is empty and the
    elements have an entry without content for the URI. *)
Theorem static_content_lost root dirs info0 defaultFile prevent s uri e :
  realpath (c_str root) <> None ->
  m_requestURI (request_line s) = SLASHB :: uri -> uri <> [] ->
  mm_find (uri ++ defaultFile) (m_staticContentElements s) = Some e ->
  mm_find (SLASHB :: uri ++ defaultFile) (m_staticContentElements s) = None ->
  exists s' info, resolveLocalFilePathFromURI2 root dirs (Some info0) defaultFile prevent s = Ret (s', info, true) /\
    m_contentStreamableObject (rs_content (hs_response s')) =
      m_contentStreamableObject (setStreamableObj None (rs_content (hs_response s))) /\
    rs_contentType (hs_response s') = [] /\
    m_staticContentElements s' = om_set (SLASHB :: uri ++ defaultFile) None (m_staticContentElements s).
Proof.
  intros Hroot Huri Hun Hfound Hmissing. unfold resolveLocalFilePathFromURI2.
  destruct (resolve_dir_spec root) as [[E _]|(rc & E & Hrc & ->)]; [done|]. cbn [mbind outcome_bind].
  rewrite bool_decide_eq_false_2 by apply dir_text_nonempty. rewrite Huri, zlen_cons.
  pose proof (nonempty_length uri Hun). replace (1 + zlen uri <=? 1) with false by lia. rewrite zdrop_cons, zdrop_le0 by lia.
  destruct (add_overlaps_candidates (SLASHB :: uri) (uri ++ defaultFile) dirs) as (l & -> & _). cbn [mbind outcome_bind].
  unfold om_count. rewrite Hfound. cbn [has_value]. unfold serve_static. cbn [app].
  pose proof (detectContentType_content (SLASHB :: uri ++ defaultFile)
    (hs_on_response (fun r => rs_set_cache (file_cache (rs_cacheControl r)) r) s)) as (Ec & _ & Es).
  destruct (detectContentTypeFromFilePath _ _) as [s1 b]. cbn [fst] in Ec, Es.
  change (m_staticContentElements s1 = m_staticContentElements s) in Es. unfold static_element. rewrite Es, Hmissing.
  eexists _, _. split; [done|]. cbn [hs_on_response]. split; [|split; [done|]].
  - change (m_contentStreamableObject (setStreamableObj None (rs_content (hs_response s1))) =
      m_contentStreamableObject (setStreamableObj None (rs_content (hs_response s)))). by rewrite Ec.
  - change (om_set (SLASHB :: uri ++ defaultFile) None (m_staticContentElements s1) =
      om_set (SLASHB :: uri ++ defaultFile) None (m_staticContentElements s)). by rewrite Es.
Qed.

Lemma resolve_in_spec uri dir :
  exists r, resolve_in uri dir = Ret r /\
    match r with
    | None => True
    | Some (d, path) => exists rc pc, realpath (c_str dir) = Some (path_text rc) /\ Forall component_ok rc /\
        d = dir_text rc /\ Forall component_ok pc /\ path = path_text pc
    end.
Proof.
  unfold resolve_in. destruct (realpath (c_str dir)) as [q|] eqn:E; [|by exists None].
  destruct (realpath_resolved _ _ E) as (rc & -> & Hrc). rewrite with_slash_dir by done. cbn [mbind outcome_bind].
  destruct (realpath (c_str (dir_text rc ++ _))) as [p|] eqn:E2; [|by exists None].
  destruct (realpath_resolved _ _ E2) as (pc & -> & Hpc). eexists. split; [done|]. by exists rc, pc.
Qed.

Lemma contained_info_spec d rc pc info info' :
  Forall component_ok rc -> Forall component_ok pc ->
  contained_info (dir_text rc) (entry_text d pc) info = Ret (info', true) ->
  isDirectory info' = isDirectory info /\
  exists cs, pc = rc ++ cs /\ Forall component_ok cs /\ fullPath info' = entry_text d (rc ++ cs) /\
    relativePath info' = SLASH ++ tail (entry_text d cs).
Proof.
  intros Hrc Hpc. unfold contained_info. intros E.
  destruct (outside_spec (dir_text rc) (entry_text d pc)) as (b & Eb & _). rewrite Eb in E.
  cbn [mbind outcome_bind] in E. destruct b; [done|]. injection E as <-. split; [done|].
  destruct (inside_components d rc pc Hrc Hpc Eb) as (cs & -> & Hcs & Et). exists cs.
  split; [done|]. split; [done|]. cbn [fullPath relativePath fi_set_paths]. split; [done|].
  rewrite Et. unfold dir_text. rewrite <- app_assoc, zlen_app. change (zlen SLASH) with 1.
  rewrite zdrop_app_ge by lia. replace (zlen (slashed rc) + 1 - 1 - zlen (slashed rc)) with 0 by lia. rewrite zdrop_le0 by lia.
  destruct (entry_text d cs) as [|x t] eqn:Ex; [done|]. cbn [tail].
  pose proof (resolved_c_str d cs Hcs) as Hc. rewrite Ex in Hc. cbn [c_str] in Hc. destruct (x =? 0); [done|].
  injection Hc as Hc. cbn. by rewrite Hc.
Qed.

(** The two functions without a response answer yes for resolved paths below the
    directory only. *)
Theorem uri_path_contained uri dir info0 info :
  resolveLocalFilePathFromURI0E uri dir (Some info0) = Ret (info, true) \/
  resolveLocalFilePathFromURI0NE uri dir (Some info0) = Ret (info, true) ->
  exists rc cs, realpath (c_str dir) = Some (path_text rc) /\ Forall component_ok cs /\
    fullPath info = entry_text (isDirectory info) (rc ++ cs) /\
    relativePath info = SLASH ++ tail (entry_text (isDirectory info) cs).
Proof.
  destruct (resolve_in_spec uri dir) as (r & E & Hr). unfold resolveLocalFilePathFromURI0E, resolveLocalFilePathFromURI0NE.
  rewrite E. cbn [mbind outcome_bind]. destruct r as [[d p]|]; [|intros [?|?]; done].
  destruct Hr as (rc & pc & Er & Hrc & -> & Hpc & ->). intros [Hs|Hs].
  - cbn [isDirectory fi_set_directory] in Hs. rewrite entry_text_slash in Hs by done. cbn [mbind outcome_bind] in Hs.
    apply contained_info_spec in Hs as (Hd & cs & -> & Hcs & Hf & Hrel); [|done..]. exists rc, cs. by rewrite Hd.
  - apply (contained_info_spec false) in Hs as (Hd & cs & -> & Hcs & Hf & Hrel); [|done..]. exists rc, cs. by rewrite Hd.
Qed.
End Theory.

(** ** A small file system *)
Section Witnesses.
#[local] Existing Instance no_files.
#[local] Existing Instance zero_random.
#[local] Existing Instance one_date.
#[local] Existing Instance string_objects.
#[local] Existing Instance string_sizes.
#[local] Existing Instance accepting.

(** A directory [/srv] with the page [a.html] and a directory, a link [www] to it, and a file outside. *)
Definition small_realpath (p : bytes) : option bytes :=
  if bool_decide (p ∈ [bs "/www"; bs "/srv"]) then Some (bs "/srv")
  else if bool_decide (p ∈ [bs "/srv/a.html"; bs "/srv/d/../a.html"]) then Some (bs "/srv/a.html")
  else if bool_decide (p = bs "/srv/d") then Some (bs "/srv/d")
  else if bool_decide (p ∈ [bs "/etc/passwd"; bs "/srv/../etc/passwd"]) then Some (bs "/etc/passwd")
  else None.

#[local] Instance small_files : FileSystem StreamableString := {|
  realpath := small_realpath;
  stat p := mkStats (if bool_decide (p ∈ [bs "/srv"; bs "/srv/d"]) then IS_DIR else IS_REG) 1700000000;
  access_R_OK _ := true;
  access_X_OK _ := false;
  referenceFile p := Some (with_text p) |}.

#[local] Instance small_laws : FileSystemLaws StreamableString.
Proof.
  split. intros p q. cbn [realpath small_files]. unfold small_realpath.
  assert (forall cs, Forall component_ok cs -> exists cs', path_text cs = path_text cs' /\ Forall component_ok cs') as Hok by (intros cs ?; by exists cs).
  repeat (case_bool_decide; [intros [= <-]|]); [| | | |done].
  - apply (Hok [bs "srv"]). apply (bool_decide_unpack _). vm_compute. exact I.
  - apply (Hok [bs "srv"; bs "a.html"]). apply (bool_decide_unpack _). vm_compute. exact I.
  - apply (Hok [bs "srv"; bs "d"]). apply (bool_decide_unpack _). vm_compute. exact I.
  - apply (Hok [bs "etc"; bs "passwd"]). apply (bool_decide_unpack _). vm_compute. exact I.
Qed.

Definition asking (uri : bytes) (s : HttpServer B_MEM StreamableString StreamableString unit) : HttpServer B_MEM StreamableString StreamableString unit :=
  hs_set_line (sp_set_sub (setRequestURI uri requestline_init) (hs_requestLine s)) s.

(** Steps up that stay inside are followed; the others are reported. *)
Example traversal_reported :
  match resolveLocalFilePathFromURI2 (bs "/www") [] (Some fileinfo_reset) [] false (asking (bs "/../etc/passwd") demo_server) with
  | Ret (_, info, ok) => (isTransversal info, ok) = (true, false)
  | _ => False
  end.
Proof. vm_compute. reflexivity. Qed.

Lemma served_file_contained_witness :
  exists s' info, resolveLocalFilePathFromURI2 (bs "/www") [] (Some fileinfo_reset) [] false (asking (bs "/d/../a.html") demo_server) =
      Ret (s', info, true) /\ fullPath info = bs "/srv/a.html" /\
    referenceFile (bs "/srv/a.html") = Some (m_contentStreamableObject (rs_content (hs_response s'))).
Proof.
  assert (exists s' info, resolveLocalFilePathFromURI2 (bs "/www") [] (Some fileinfo_reset) [] false (asking (bs "/d/../a.html") demo_server) =
      Ret (s', info, true) /\ fullPath info = bs "/srv/a.html" /\ isDirectory info = false /\ isExecutable info = false)
    as (s' & info & E & Hf & Hd & He).
  { vm_compute. eexists _, _. repeat split. }
  exists s', info. split; [exact E|]. split; [exact Hf|].
  destruct (served_file_contained _ _ _ _ _ _ _ _ E) as [C|(prefix & dir & rc & cs & _ & _ & _ & _ & _ & _ & Hfile)].
  - rewrite Hf in C. vm_compute in C. discriminate.
  - rewrite <- Hf. exact (Hfile Hd He).
Defined.

Lemma file_served_witness :
  exists s', resolveLocalFilePathFromURI2 (bs "/www") [(bs "/a", bs "/srv")] (Some fileinfo_reset) (bs ".html") false (asking (bs "/a") demo_server) =
      Ret (s', mkFileInfo (bs "/a.html") (bs "/srv/a.html") false false false true, true) /\
    m_contentStreamableObject (rs_content (hs_response s')) = with_text (bs "/srv/a.html").
Proof.
  refine (file_served (bs "/www") _ fileinfo_reset (bs ".html") _ [bs "srv"] [bs "a.html"] (bs "a") _ _ _ _ _ _ _ _ _ _ _).
  - vm_compute; reflexivity.
  - apply (bool_decide_unpack _). vm_compute. exact I.
  - apply (bool_decide_unpack _). vm_compute. exact I.
  - discriminate.
  - reflexivity.
  - discriminate.
  - reflexivity.
  - vm_compute; reflexivity.
  - vm_compute; reflexivity.
  - vm_compute; reflexivity.
Defined.

Lemma static_content_lost_witness :
  exists s' info, resolveLocalFilePathFromURI2 (bs "/www") [] (Some fileinfo_reset) [] false
      (asking (bs "/logo.png") (addStaticContent (bs "logo.png") (Some (with_text (bs "PNG"))) demo_server)) = Ret (s', info, true) /\
    m_contentStreamableObject (rs_content (hs_response s')) = with_text [].
Proof.
  destruct (static_content_lost (bs "/www") [] fileinfo_reset [] false
    (asking (bs "/logo.png") (addStaticContent (bs "logo.png") (Some (with_text (bs "PNG"))) demo_server)) (bs "logo.png")
    (Some (with_text (bs "PNG")))) as (s' & info & E & Hc & _).
  - vm_compute. discriminate.
  - reflexivity.
  - discriminate.
  - vm_compute; reflexivity.
  - vm_compute; reflexivity.
  - exists s', info. split; [exact E|]. rewrite Hc. vm_compute. reflexivity.
Defined.

Lemma uri_path_contained_witness :
  exists info, resolveLocalFilePathFromURI0E (bs "/d") (bs "/www") (Some fileinfo_reset) = Ret (info, true) /\
    exists rc cs, realpath (c_str (bs "/www")) = Some (path_text rc) /\ Forall component_ok cs /\
      fullPath info = entry_text (isDirectory info) (rc ++ cs) /\
      relativePath info = SLASH ++ tail (entry_text (isDirectory info) cs).
Proof.
  assert (exists info, resolveLocalFilePathFromURI0E (bs "/d") (bs "/www") (Some fileinfo_reset) = Ret (info, true)) as (info & E)
    by (vm_compute; eexists; reflexivity).
  exists info. split; [exact E|]. exact (uri_path_contained (bs "/d") (bs "/www") fileinfo_reset info (or_introl E)).
Defined.
End Witnesses.
