(* ===== verification/Jwt.v ===== *)
(** * JSON web tokens (DataFormat_JWT)

    [Token] (jwt_token.cpp), the cache of verified payloads [Cache]
    (jwt_cache.cpp), the revocation list [Revocation] (jwt_revocation.cpp) and
    the signing and verification of [JWT] (jwt.cpp).

    JsonCpp and OpenSSL are parameters: the classes [JsonCpp] and [OpenSSL] have
    the calls the code makes, [JsonLaws] what it relies on.  The clock is an
    argument.  The cache and the revocation list are shared between threads: each
    section that holds the mutex is one atomic step, and the theorems about them
    are about every sequence of such steps. *)

From S2P Require Import Prelude SafeInt Mem Encoders.
From Stdlib Require Import ZArith Lia.
From stdpp Require Import gmap.
#[local] Open Scope Z_scope.

(** ** JsonCpp *)
Class JsonCpp (J : Type) := {
  json_null : J;
  json_string : bytes -> J;
  json_int64 : Z -> J;
  json_set : J -> bytes -> J -> J;
  json_isNull : J -> bool;
  json_isObject : J -> bool;
  json_isString : J -> bool;
  json_isInt64 : J -> bool;
  json_isArray : J -> bool;
  json_isBool : J -> bool;
  json_has : J -> bytes -> bool;
  json_get : J -> bytes -> J;
  json_asString : J -> bytes;
  json_asInt64 : J -> Z;
  json_asBool : J -> bool;
  json_array : J;
  json_append : J -> J -> J;
  json_elements : J -> list J;
  (** [CharReader::parse]: the value left in the output, and the result. *)
  json_parse : bytes -> J * bool;
  json_writeString : J -> bytes }.

Section Token.
Context {J : Type} `{JsonCpp J}.

(** [Value::isMember]: only of objects and null. *)
Definition isMember (j : J) (k : bytes) : outcome bool :=
  if json_isObject j || json_isNull j then Ret (json_isObject j && json_has j k)
  else Throw (logic_error "in Json::Value::find(begin, end): requires objectValue or nullValue").

Definition ASSTRING (j : J) (x def : bytes) : bytes :=
  if json_isObject j && json_has j x && json_isString (json_get j x) then json_asString (json_get j x) else def.
Definition ASINT64 (j : J) (x : bytes) (def : Z) : Z :=
  if json_isObject j && json_has j x && json_isInt64 (json_get j x) then json_asInt64 (json_get j x) else def.

Record Token := mkToken {
  m_claims : J;
  m_signatureVerified : bool;
  m_revoked : bool }.

Definition token_new : Token := mkToken json_null false false.

(** [m_claims[name] = value]: only of objects and null. *)
Definition setClaim (name : bytes) (value : J) (t : Token) : outcome Token :=
  if json_isObject (m_claims t) || json_isNull (m_claims t) then
    Ret (mkToken (json_set (m_claims t) name value) (m_signatureVerified t) (m_revoked t))
  else Throw (logic_error "in Json::Value::resolveReference(key, end): requires objectValue").
Definition setExpirationTime (v : Z) : Token -> outcome Token := setClaim (bs "exp") (json_int64 v).
Definition setNotBefore (v : Z) : Token -> outcome Token := setClaim (bs "nbf") (json_int64 v).
Definition setIssuedAt (v : Z) : Token -> outcome Token := setClaim (bs "iat") (json_int64 v).
Definition setIssuer (v : bytes) : Token -> outcome Token := setClaim (bs "iss") (json_string v).
Definition setSubject (v : bytes) : Token -> outcome Token := setClaim (bs "sub") (json_string v).
Definition setDomain (v : bytes) : Token -> outcome Token := setClaim (bs "domain") (json_string v).
Definition setAudience (v : bytes) : Token -> outcome Token := setClaim (bs "aud") (json_string v).
Definition setJwtId (v : bytes) : Token -> outcome Token := setClaim (bs "jti") (json_string v).

Definition getIssuer (t : Token) : bytes := ASSTRING (m_claims t) (bs "iss") [].
Definition getSubject (t : Token) : bytes := ASSTRING (m_claims t) (bs "sub") [].
Definition getDomain (t : Token) : bytes := ASSTRING (m_claims t) (bs "domain") [].
Definition getAudience (t : Token) : bytes := ASSTRING (m_claims t) (bs "aud") [].
Definition getImpersonator (t : Token) : bytes := ASSTRING (m_claims t) (bs "impersonator") [].
Definition getJwtId (t : Token) : bytes := ASSTRING (m_claims t) (bs "jti") [].
Definition getIssuedAt (t : Token) : Z := ASINT64 (m_claims t) (bs "iat") 0.
Definition hasClaim (name : bytes) (t : Token) : outcome bool := isMember (m_claims t) name.

Definition ASSTRING_D (j : J) (def : bytes) : bytes := if json_isString j then json_asString j else def.

(** The strings of the array in a claim: "roles" and "scopes". *)
Definition getAllStrings (claim : bytes) (t : Token) : outcome (list bytes) :=
  has ← isMember (m_claims t) claim;
  Ret (if has && json_isArray (json_get (m_claims t) claim)
       then map (fun e => ASSTRING_D e []) (json_elements (json_get (m_claims t) claim)) else []).

Definition getAllRoles (t : Token) : outcome (gset bytes) := list_to_set <$> getAllStrings (bs "roles") t.
Definition getAllScopes (t : Token) : outcome (gset bytes) := list_to_set <$> getAllStrings (bs "scopes") t.
Definition hasRole (roleId : bytes) (t : Token) : outcome bool :=
  existsb (fun r => bool_decide (r = roleId)) <$> getAllStrings (bs "roles") t.
Definition hasScope (scopeId : bytes) (t : Token) : outcome bool :=
  existsb (fun r => bool_decide (r = scopeId)) <$> getAllStrings (bs "scopes") t.

(** [append] of a string to the claim, which becomes an array when it is absent;
    [Value::append] is only of arrays and null. *)
Definition addString (claim s : bytes) (t : Token) : outcome Token :=
  has ← isMember (m_claims t) claim;
  t ← (if has : bool then Ret t else setClaim claim json_array t : outcome Token);
  let v := json_get (m_claims t) claim in
  if json_isArray v || json_isNull v then setClaim claim (json_append v (json_string s)) t
  else Throw (logic_error "in Json::Value::append: requires arrayValue").

Definition addRole (roleId : bytes) : Token -> outcome Token := addString (bs "roles") roleId.
Definition addScope (scopeId : bytes) : Token -> outcome Token := addString (bs "scopes") scopeId.

Definition ASBOOL_D (j : J) (def : bool) : bool := if json_isBool j then json_asBool j else def.

Definition getClaim (name : bytes) (t : Token) : outcome J :=
  if json_isObject (m_claims t) || json_isNull (m_claims t) then Ret (json_get (m_claims t) name)
  else Throw (logic_error "in Json::Value::find(begin, end): requires objectValue or nullValue").

Definition isAdmin (t : Token) : outcome bool :=
  has ← hasClaim (bs "isAdmin") t;
  if has : bool then v ← getClaim (bs "isAdmin") t; Ret (ASBOOL_D v false) else Ret false.

Definition exportPayload (t : Token) : bytes := json_writeString (m_claims t).
Definition decodePayload (payload : bytes) (t : Token) : Token * bool :=
  let '(j, ok) := json_parse payload in (mkToken j (m_signatureVerified t) (m_revoked t), ok).

Definition getExpirationTime (t : Token) : Z := ASINT64 (m_claims t) (bs "exp") 9223372036854775807.
Definition getNotBefore (t : Token) : Z := ASINT64 (m_claims t) (bs "nbf") 0.

Definition setSignatureVerified (v : bool) (t : Token) : Token := mkToken (m_claims t) v (m_revoked t).
Definition setRevoked (v : bool) (t : Token) : Token := mkToken (m_claims t) (m_signatureVerified t) v.

Definition isValid (currentTime : Z) (t : Token) : outcome bool :=
  hasExp ← isMember (m_claims t) (bs "exp");
  if hasExp && (currentTime >=? getExpirationTime t) then Ret false
  else
    hasNbf ← isMember (m_claims t) (bs "nbf");
    if hasNbf && (currentTime <? getNotBefore t) then Ret false
    else Ret (m_signatureVerified t && negb (m_revoked t)).
End Token.
Arguments Token J : clear implicits.

(** ** The cache *)
Record Cache := mkCache {
  m_cacheMaxByteCount : Z;
  m_cacheCurrentByteCount : Z;
  m_enabled : bool;
  m_tokenCache : gmap bytes bool;
  m_cacheQueue : list bytes }.

Definition cache_new : Cache := mkCache 0 0 false ∅ [].

(** The loop of [evictCache]; [front()] of an empty queue is undefined. *)
Fixpoint evictCache_loop (queue : list bytes) (tokens : gmap bytes bool) (current max : Z) :
    outcome (list bytes * gmap bytes bool * Z) :=
  if current >? max then
    match queue with
    | [] => Undef
    | evictedToken :: queue =>
        evictCache_loop queue (delete evictedToken tokens) (wrap (current - zlen evictedToken)) max
    end
  else Ret (queue, tokens, current).

Definition evictCache (c : Cache) : outcome Cache :=
  '(q, t, n) ← evictCache_loop (m_cacheQueue c) (m_tokenCache c) (m_cacheCurrentByteCount c) (m_cacheMaxByteCount c);
  Ret (mkCache (m_cacheMaxByteCount c) n (m_enabled c) t q).

Definition cache_set_max (n : Z) (c : Cache) : Cache :=
  mkCache n (m_cacheCurrentByteCount c) (m_enabled c) (m_tokenCache c) (m_cacheQueue c).
Definition setCacheMaxByteCount (n : Z) (c : Cache) : outcome Cache := evictCache (cache_set_max n c).

Definition cache_clear (c : Cache) : Cache :=
  mkCache (m_cacheMaxByteCount c) (m_cacheCurrentByteCount c) (m_enabled c) ∅ [].

Definition setEnabled (v : bool) (c : Cache) : Cache :=
  let c := if negb v then cache_clear c else c in
  mkCache (m_cacheMaxByteCount c) (m_cacheCurrentByteCount c) v (m_tokenCache c) (m_cacheQueue c).

Definition checkToken (payload : bytes) (c : Cache) : bool :=
  if negb (m_enabled c) then false else has_value (m_tokenCache c !! payload).

(** The section of [add] that holds the mutex, for an enabled cache. *)
Definition cache_insert (payload : bytes) (c : Cache) : Cache :=
  mkCache (m_cacheMaxByteCount c) (wrap (m_cacheCurrentByteCount c + zlen payload)) (m_enabled c)
    (<[payload := true]> (m_tokenCache c)) (m_cacheQueue c ++ [payload]).

Definition cache_add (payload : bytes) (c : Cache) : outcome Cache :=
  if negb (m_enabled c) then Ret c else evictCache (cache_insert payload c).

(** ** The revocation list *)

(** A [std::multimap] in the order of its keys. *)
Fixpoint multimap_insert (k : Z) (v : bytes) (m : list (Z * bytes)) : list (Z * bytes) :=
  match m with
  | [] => [(k, v)]
  | (k', v') :: rest => if k <? k' then (k, v) :: m else (k', v') :: multimap_insert k v rest
  end.

(** The entries before and from [upper_bound(k)]. *)
Fixpoint upper_bound (k : Z) (m : list (Z * bytes)) : list (Z * bytes) * list (Z * bytes) :=
  match m with
  | [] => ([], [])
  | (k', v') :: rest =>
      if k' <=? k then let '(before, after) := upper_bound k rest in ((k', v') :: before, after) else ([], m)
  end.

Record Revocation := mkRevocation {
  m_expirationSignatures : list (Z * bytes);
  m_revokedTokens : gset bytes }.

Definition revocation_new : Revocation := mkRevocation [] ∅.

Definition addToRevocationList (signature : bytes) (expirationTime : Z) (r : Revocation) : Revocation :=
  mkRevocation (multimap_insert expirationTime signature (m_expirationSignatures r))
    ({[signature]} ∪ m_revokedTokens r).

Definition isSignatureRevoked (signature : bytes) (r : Revocation) : bool :=
  bool_decide (signature ∈ m_revokedTokens r).

Definition removeExpiredTokensFromRevocationList (now : Z) (r : Revocation) : Revocation :=
  let '(expired, rest) := upper_bound now (m_expirationSignatures r) in
  mkRevocation rest (foldl (fun s e => s ∖ {[e.2]}) (m_revokedTokens r) expired).

(** ** Signing and verification *)
Inductive Algorithm := HS256 | HS384 | HS512 | RS256 | RS384 | RS512.

(** The digests, by their OpenSSL number. *)
Inductive HashType := NID_sha256 | NID_sha384 | NID_sha512.

(** [createSignature]'s result: [RAWSignature::Result] and the digest. *)
Inductive SignResult := SUCCESS | EMPTY_KEY | ERROR_CREATING_SIGNATURE | ERROR_READING_KEY.

(** OpenSSL: [HMAC]; whether [BIO_new_mem_buf] and [EVP_MD_CTX_new] find memory;
    reading a PEM key; signing with a private key ([None] when [EVP_DigestSignInit]
    fails or the size is zero); [EVP_DigestVerifyFinal] returning 1. *)
Class OpenSSL := {
  hmac : HashType -> bytes -> bytes -> bytes;
  bio_new_mem_buf : bytes -> bool;
  evp_md_ctx_new : bool;
  pem_private_ok : bytes -> bool;
  pem_public_ok : bytes -> bool;
  evp_sign : HashType -> bytes -> bytes -> option bytes;
  evp_verify : HashType -> bytes -> bytes -> bytes -> bool }.

Record JWT := mkJWT {
  m_algorithm : Algorithm;
  m_sharedSecret : bytes;
  m_publicSecret : bytes;
  m_privateSecret : bytes;
  m_defaultExpirationTimeInSeconds : Z;
  m_defaultMaxTimeBeforeInSeconds : Z;
  verificationCallback : option (bytes -> bool);
  m_cache : Cache;
  m_revocation : Revocation }.

Definition jwt_new (a : Algorithm) : JWT := mkJWT a [] [] [] 300 60 None cache_new revocation_new.

Definition jwt_set_cache (c : Cache) (j : JWT) : JWT :=
  mkJWT (m_algorithm j) (m_sharedSecret j) (m_publicSecret j) (m_privateSecret j)
    (m_defaultExpirationTimeInSeconds j) (m_defaultMaxTimeBeforeInSeconds j) (verificationCallback j) c
    (m_revocation j).
Definition jwt_set_revocation (r : Revocation) (j : JWT) : JWT :=
  mkJWT (m_algorithm j) (m_sharedSecret j) (m_publicSecret j) (m_privateSecret j)
    (m_defaultExpirationTimeInSeconds j) (m_defaultMaxTimeBeforeInSeconds j) (verificationCallback j) (m_cache j) r.

Definition setSharedSecret (s : bytes) (j : JWT) : JWT :=
  mkJWT (m_algorithm j) s (m_publicSecret j) (m_privateSecret j) (m_defaultExpirationTimeInSeconds j)
    (m_defaultMaxTimeBeforeInSeconds j) (verificationCallback j) (cache_clear (m_cache j)) (m_revocation j).
Definition setPublicSecret (s : bytes) (j : JWT) : JWT :=
  mkJWT (m_algorithm j) (m_sharedSecret j) s (m_privateSecret j) (m_defaultExpirationTimeInSeconds j)
    (m_defaultMaxTimeBeforeInSeconds j) (verificationCallback j) (cache_clear (m_cache j)) (m_revocation j).
Definition setPrivateSecret (s : bytes) (j : JWT) : JWT :=
  mkJWT (m_algorithm j) (m_sharedSecret j) (m_publicSecret j) s (m_defaultExpirationTimeInSeconds j)
    (m_defaultMaxTimeBeforeInSeconds j) (verificationCallback j) (m_cache j) (m_revocation j).

Definition setDefaultMaxTimeBeforeInSeconds (n : Z) (j : JWT) : JWT :=
  mkJWT (m_algorithm j) (m_sharedSecret j) (m_publicSecret j) (m_privateSecret j)
    (m_defaultExpirationTimeInSeconds j) n (verificationCallback j) (m_cache j) (m_revocation j).
Definition setDefaultMaxExpirationTimeInSeconds (n : Z) (j : JWT) : JWT :=
  mkJWT (m_algorithm j) (m_sharedSecret j) (m_publicSecret j) (m_privateSecret j) n
    (m_defaultMaxTimeBeforeInSeconds j) (verificationCallback j) (m_cache j) (m_revocation j).

Definition alg_name (a : Algorithm) : bytes :=
  match a with
  | HS256 => bs "HS256" | HS384 => bs "HS384" | HS512 => bs "HS512"
  | RS256 => bs "RS256" | RS384 => bs "RS384" | RS512 => bs "RS512"
  end.

(** [AlgorithmDetails(m_algorithm)]: the digest, and whether it is an HMAC. *)
Definition getHashTypeNumber (a : Algorithm) : HashType :=
  match a with
  | HS256 | RS256 => NID_sha256
  | HS384 | RS384 => NID_sha384
  | HS512 | RS512 => NID_sha512
  end.
Definition isUsingHMAC (a : Algorithm) : bool :=
  match a with HS256 | HS384 | HS512 => true | RS256 | RS384 | RS512 => false end.

(** The constructor of [AlgorithmDetails] from a name. *)
Definition algorithm_of_name (name : bytes) : Algorithm :=
  if bool_decide (name = bs "HS256") then HS256
  else if bool_decide (name = bs "HS384") then HS384
  else if bool_decide (name = bs "HS512") then HS512
  else if bool_decide (name = bs "RS256") then RS256
  else if bool_decide (name = bs "RS384") then RS384
  else RS512.

Definition isHMACAlgorithm (a : bytes) : bool :=
  bool_decide (a = bs "HS256") || bool_decide (a = bs "HS384") || bool_decide (a = bs "HS512").
Definition isRSAAlgorithm (a : bytes) : bool :=
  bool_decide (a = bs "RS256") || bool_decide (a = bs "RS384") || bool_decide (a = bs "RS512").
Definition isAlgorithmSupported (a : bytes) : bool :=
  bool_decide (a = bs "HS256") || bool_decide (a = bs "RS256") || bool_decide (a = bs "HS384") ||
  bool_decide (a = bs "RS384") || bool_decide (a = bs "HS512") || bool_decide (a = bs "RS512").

(** [find('.')] and [rfind('.')]. *)
Definition find_dot (s : bytes) : option Z := first_index (fun c => c =? 46) s.
Definition rfind_dot (s : bytes) : option Z :=
  match first_index (fun c => c =? 46) (rev s) with
  | Some p => Some (zlen s - 1 - p)
  | None => None
  end.

(** The three parts of a token, or nothing. *)
Definition split_token (s : bytes) : option (bytes * bytes * bytes) :=
  match find_dot s, rfind_dot s with
  | Some pos_header, Some pos_payload =>
      if pos_header >=? pos_payload then None
      else Some (ztake pos_header s, slice (pos_header + 1) (pos_payload - pos_header - 1) s,
                 zdrop (pos_payload + 1) s)
  | _, _ => None
  end.

Section JWT.
Context {J : Type} `{JsonCpp J} `{OpenSSL} `{Base64BIO}.

Definition jwt_header (a : Algorithm) : J :=
  let header := json_set json_null (bs "typ") (json_string (bs "JWT")) in
  json_set header (bs "alg") (json_string (alg_name a)).

Definition createHeader (j : JWT) : bytes := encodeToBase64 (json_writeString (jwt_header (m_algorithm j))) true.

Definition createHMACSignature (hashType : HashType) (data : bytes) (j : JWT) : SignResult * bytes :=
  match m_sharedSecret j with
  | [] => (EMPTY_KEY, [])
  | _ => (SUCCESS, hmac hashType (m_sharedSecret j) data)
  end.

(** Without a memory BIO the result keeps its first value. *)
Definition createRSASignature (hashType : HashType) (data : bytes) (j : JWT) : SignResult * bytes :=
  if bio_new_mem_buf (m_privateSecret j) then
    if pem_private_ok (m_privateSecret j) then
      if evp_md_ctx_new then
        match evp_sign hashType (m_privateSecret j) data with
        | Some digest => (SUCCESS, digest)
        | None => (ERROR_CREATING_SIGNATURE, [])
        end
      else (ERROR_CREATING_SIGNATURE, [])
    else (ERROR_READING_KEY, [])
  else (SUCCESS, []).

Definition createSignature (data : bytes) (j : JWT) : SignResult * bytes :=
  if isUsingHMAC (m_algorithm j) then createHMACSignature (getHashTypeNumber (m_algorithm j)) data j
  else createRSASignature (getHashTypeNumber (m_algorithm j)) data j.

(** Zero is success. *)
Definition validateRSASignature (hashType : HashType) (data signature : bytes) (j : JWT) : Z :=
  if bio_new_mem_buf (m_publicSecret j) then
    if pem_public_ok (m_publicSecret j) then
      if evp_md_ctx_new then
        if evp_verify hashType (m_publicSecret j) data signature then 0 else -1
      else 0
    else -3
  else 0.

Definition sign (payload : J) (j : JWT) : bytes :=
  let payload_str := json_writeString payload in
  let header_str := createHeader j in
  let '(result, digest) := createSignature (header_str ++ [46] ++ encodeToBase64 payload_str true) j in
  let signature := match result with SUCCESS => encodeToBase64 digest true | _ => [] end in
  header_str ++ [46] ++ encodeToBase64 payload_str true ++ [46] ++ signature.

(** The three readings of the clock are one value here. *)
Definition signFromToken (t : Token J) (updateDefaultTimeValues : bool) (now : Z) (j : JWT) :
    outcome (Token J * bytes) :=
  t ← (if updateDefaultTimeValues then
         t ← setExpirationTime (now + m_defaultExpirationTimeInSeconds j) t;
         t ← setIssuedAt now t;
         setNotBefore (now - m_defaultMaxTimeBeforeInSeconds j) t
       else Ret t : outcome (Token J));
  Ret (t, sign (m_claims t) j).

(** The check of the signature itself, once the header is parsed; [None] is the
    early [return false]. *)
Definition check_signature (incomingAlgorithm header_b64 payload_b64 signature_str : bytes) (j : JWT) :
    option bool :=
  if negb (isAlgorithmSupported incomingAlgorithm) then None
  else if isHMACAlgorithm incomingAlgorithm then
    match createSignature (header_b64 ++ [46] ++ payload_b64) j with
    | (SUCCESS, digest) =>
        Some ((zlen digest >? 0) && (zlen digest =? zlen signature_str) && bool_decide (digest = signature_str))
    | _ => None
    end
  else if isRSAAlgorithm incomingAlgorithm then
    Some (validateRSASignature (getHashTypeNumber (m_algorithm j)) (header_b64 ++ [46] ++ payload_b64)
            signature_str j =? 0)
  else Some false.

(** [verify(fullSignedToken, tokenPayloadOutput)]: the object, the token
    filled in, and the answer. *)
Definition verify (now : Z) (fullSignedToken : bytes) (out : Token J) (j : JWT) :
    outcome (JWT * Token J * bool) :=
  match split_token fullSignedToken with
  | None => Ret (j, out, false)
  | Some (header_b64, payload_b64, signature_b64) =>
      let header_str := decodeFromBase64 header_b64 true in
      let payload_str := decodeFromBase64 payload_b64 true in
      let signature_str := decodeFromBase64 signature_b64 true in
      let trusted :=
        let out := setSignatureVerified true (decodePayload payload_str out).1 in
        ok ← isValid now out; Ret (j, out, ok) in
      match verificationCallback j with
      | Some callback => if callback fullSignedToken then trusted else Ret (j, out, false)
      | None =>
          if checkToken payload_str (m_cache j) then trusted
          else
            let '(header_json, ok) := json_parse header_str in
            if negb ok then Ret (j, out, false)
            else
              match check_signature (ASSTRING header_json (bs "alg") []) header_b64 payload_b64 signature_str j with
              | None => Ret (j, out, false)
              | Some isSignatureVerified =>
                  '(j, out) ← (if isSignatureVerified then
                                 c ← cache_add payload_str (m_cache j);
                                 Ret (jwt_set_cache c j, (decodePayload payload_str out).1)
                               else Ret (j, out) : outcome (JWT * Token J));
                  let out := setSignatureVerified isSignatureVerified out in
                  let out := setRevoked (isSignatureRevoked signature_str (m_revocation j)) out in
                  ok ← isValid now out; Ret (j, out, ok)
              end
      end
  end.

Definition decodeNoVerify (fullSignedToken : bytes) (out : Token J) : Token J * bool :=
  match split_token fullSignedToken with
  | None => (out, false)
  | Some (_, payload_b64, _) => decodePayload (decodeFromBase64 payload_b64 true) out
  end.

Definition verifyAndDecodeTokenPayload (now : Z) (fullSignedToken : bytes) (j : JWT) :
    outcome (JWT * Token J) :=
  '(j, r, ok) ← verify now fullSignedToken token_new j;
  Ret (j, if (ok : bool) then r else token_new).
End JWT.

(** ** The cache *)
Fixpoint queue_bytes (q : list bytes) : Z :=
  match q with
  | [] => 0
  | t :: q => zlen t + queue_bytes q
  end.

Lemma queue_bytes_nonneg q : 0 <= queue_bytes q.
Proof. induction q as [|t q IH]; [done|]. cbn [queue_bytes]. pose proof (zlen_nonneg t). lia. Qed.
Lemma queue_bytes_app q r : queue_bytes (q ++ r) = queue_bytes q + queue_bytes r.
Proof. induction q as [|t q IH]; [done|]. cbn [app queue_bytes]. rewrite IH. lia. Qed.

(** The counter is the size of the queue, and every token that is found is in
    the queue. *)
Record cache_ok (c : Cache) : Prop := {
  ck_count : m_cacheCurrentByteCount c = queue_bytes (m_cacheQueue c);
  ck_small : queue_bytes (m_cacheQueue c) < SIZE_MOD;
  ck_max : 0 <= m_cacheMaxByteCount c;
  ck_keys : forall t, is_Some (m_tokenCache c !! t) -> t ∈ m_cacheQueue c }.

(** Eviction drops the oldest tokens until the rest fits, and no more. *)
Lemma evict_loop_spec q tokens max :
  queue_bytes q < SIZE_MOD -> 0 <= max ->
  exists old q', q = old ++ q' /\
    evictCache_loop q tokens (queue_bytes q) max = Ret (q', foldl (fun m t => delete t m) tokens old, queue_bytes q') /\
    queue_bytes q' <= max /\
    (old = [] \/ exists old' x, old = old' ++ [x] /\ max < queue_bytes (x :: q')).
Proof.
  revert tokens. induction q as [|t q IH]; intros tokens Hs Hm; cbn [evictCache_loop].
  { exists [], []. cbn [queue_bytes] in *. replace (0 >? max) with false by lia. split_and!; auto. }
  pose proof (zlen_nonneg t). pose proof (queue_bytes_nonneg q). cbn [queue_bytes] in *.
  destruct (Z.gtb_spec (zlen t + queue_bytes q) max) as [Hgt|Hle].
  - rewrite Z.add_simpl_l, wrap_small by lia. destruct (IH (delete t tokens)) as (old & q' & -> & -> & Hle & Hmin); [lia|done|].
    exists (t :: old), q'. split_and!; try done. right. destruct Hmin as [->|(old' & x & -> & Hx)].
    + exists [], t. split; [done|]. cbn [app queue_bytes] in *. lia.
    + by exists (t :: old'), x.
  - exists [], (t :: q). split_and!; auto; cbn [queue_bytes]; lia.
Qed.

Lemma foldl_delete_lookup (old : list bytes) (tokens : gmap bytes bool) (t : bytes) :
  foldl (fun m t => delete t m) tokens old !! t = if bool_decide (t ∈ old) then None else tokens !! t.
Proof.
  revert tokens. induction old as [|x old IH]; intros tokens; cbn [foldl].
  - by rewrite bool_decide_false by (by intros []%not_elem_of_nil).
  - rewrite IH. destruct (decide (t ∈ old)) as [Hin|Hni].
    + by rewrite !bool_decide_true by set_solver.
    + rewrite (bool_decide_false (t ∈ old)) by done. destruct (decide (t = x)) as [->|Hne].
      * by rewrite lookup_delete_eq, bool_decide_true by set_solver.
      * by rewrite lookup_delete_ne, bool_decide_false by set_solver.
Qed.

Lemma evictCache_ok c :
  cache_ok c ->
  exists old q' c', m_cacheQueue c = old ++ q' /\ evictCache c = Ret c' /\ m_cacheQueue c' = q' /\ cache_ok c' /\
    m_tokenCache c' = foldl (fun m t => delete t m) (m_tokenCache c) old /\
    m_enabled c' = m_enabled c /\ m_cacheMaxByteCount c' = m_cacheMaxByteCount c /\
    queue_bytes q' <= m_cacheMaxByteCount c /\
    (old = [] \/ exists old' x, old = old' ++ [x] /\ m_cacheMaxByteCount c < queue_bytes (x :: q')).
Proof.
  intros [Hc Hs Hm Hk]. destruct (evict_loop_spec (m_cacheQueue c) (m_tokenCache c) (m_cacheMaxByteCount c) Hs Hm)
    as (old & q' & Hq & Hl & Hle & Hmin).
  exists old, q'. unfold evictCache. rewrite Hc, Hl. cbn [mbind outcome_bind]. eexists. split_and!; try done.
  rewrite Hq, queue_bytes_app in Hs. pose proof (queue_bytes_nonneg old).
  split; cbn; [done|lia|done|]. intros t. rewrite foldl_delete_lookup.
  destruct (bool_decide_reflect (t ∈ old)); [by intros []|]. intros Ht%Hk. rewrite Hq in Ht. set_solver.
Qed.

(** The atomic steps of the threads that share the cache, without [clear]. *)
Inductive cache_step (c : Cache) : Cache -> Prop :=
| step_insert payload :
    m_enabled c = true -> zlen payload + queue_bytes (m_cacheQueue c) < SIZE_MOD ->
    cache_step c (cache_insert payload c)
| step_evict c' : evictCache c = Ret c' -> cache_step c c'
| step_set_max n : 0 <= n < SIZE_MOD -> cache_step c (cache_set_max n c)
| step_enable : cache_step c (setEnabled true c).

Lemma cache_insert_ok payload c :
  cache_ok c -> zlen payload + queue_bytes (m_cacheQueue c) < SIZE_MOD -> cache_ok (cache_insert payload c).
Proof.
  intros [Hc Hs Hm Hk] Hp. pose proof (zlen_nonneg payload). pose proof (queue_bytes_nonneg (m_cacheQueue c)).
  split; cbn [cache_insert m_cacheCurrentByteCount m_cacheQueue m_cacheMaxByteCount m_tokenCache]; [|rewrite queue_bytes_app; cbn [queue_bytes]; lia|done|].
  - rewrite Hc, queue_bytes_app, wrap_small by lia. cbn [queue_bytes]. lia.
  - intros t. destruct (decide (t = payload)) as [->|Hne]; [set_solver|].
    rewrite lookup_insert_ne by done. intros ?%Hk. set_solver.
Qed.

Lemma cache_step_ok c c' : cache_ok c -> cache_step c c' -> cache_ok c'.
Proof.
  intros Hok [payload _ Hp|c1 He|n Hn|].
  - by apply cache_insert_ok.
  - destruct (evictCache_ok c Hok) as (old & q' & c2 & _ & He2 & _ & Hok2 & _). congruence.
  - destruct Hok. split; try done. cbn. lia.
  - by destruct Hok.
Qed.

Lemma cache_new_ok : cache_ok cache_new.
Proof. split; try done. intros t [x Hx]. cbn in Hx. by rewrite lookup_empty in Hx. Qed.

Lemma cache_reachable_ok c : rtc cache_step cache_new c -> cache_ok c.
Proof.
  intros Hr. remember cache_new as c0 eqn:E. assert (cache_ok c0) as H0 by (subst; apply cache_new_ok). clear E.
  induction Hr as [|c0 c1 c2 Hs _ IH]; [done|]. apply IH. by eapply cache_step_ok.
Qed.

Lemma checkToken_queued c p : cache_ok c -> checkToken p c = true -> p ∈ m_cacheQueue c.
Proof.
  intros Hok. unfold checkToken. destruct (m_enabled c); [|done]. cbn [negb].
  destruct (m_tokenCache c !! p) eqn:E; [|done]. intros _. by apply (ck_keys c Hok); rewrite E.
Qed.

(** A new payload that fits is there after [add]. *)
Lemma cache_add_found c p :
  cache_ok c -> m_enabled c = true -> p ∉ m_cacheQueue c -> zlen p <= m_cacheMaxByteCount c ->
  zlen p + queue_bytes (m_cacheQueue c) < SIZE_MOD ->
  exists c', cache_add p c = Ret c' /\ checkToken p c' = true /\ cache_ok c'.
Proof.
  intros Hok He Hni Hfit Hs. unfold cache_add. rewrite He. cbn [negb].
  pose proof (cache_insert_ok p c Hok Hs) as Hi.
  destruct (evictCache_ok _ Hi) as (old & q' & c' & Hq & -> & Hq' & Hok' & Ht & He' & _ & _ & Hmin).
  exists c'. split_and!; [done| |done]. unfold checkToken. rewrite He', Ht, foldl_delete_lookup.
  cbn [cache_insert m_enabled m_tokenCache m_cacheQueue m_cacheMaxByteCount] in *. rewrite He. cbn [negb].
  assert (p ∉ old) as Hno.
  { destruct Hmin as [->|(old' & x & -> & Hx)]; [apply not_elem_of_nil|]. intros Hin.
    rewrite <- (app_nil_r (m_cacheQueue c ++ [p])) in Hq.
    destruct q' as [|y q'' _] using rev_ind.
    - rewrite !app_nil_r in Hq. apply app_inj_tail in Hq as [_ <-]. cbn [queue_bytes] in Hx. lia.
    - rewrite app_nil_r, app_assoc in Hq. apply app_inj_tail in Hq as [Hq _]. apply Hni. rewrite Hq. set_solver. }
  by rewrite bool_decide_false, lookup_insert_eq by done.
Qed.

(** [add] ends. *)
Lemma cache_add_ends c p :
  cache_ok c -> zlen p + queue_bytes (m_cacheQueue c) < SIZE_MOD -> exists c', cache_add p c = Ret c' /\ cache_ok c'.
Proof.
  intros Hok Hs. unfold cache_add. destruct (m_enabled c); [|by exists c]. cbn [negb].
  destruct (evictCache_ok _ (cache_insert_ok p c Hok Hs)) as (old & q' & c' & _ & -> & _ & Hok' & _). by exists c'.
Qed.

(** C27. The cache of verified payloads under any interleaving of the threads'
    critical sections (the inserting half of [add], [evictCache], the limit set by
    [setCacheMaxByteCount], enabling): whatever the other threads have done,
    [evictCache] ends without looking at an empty queue, drops the oldest payloads
    and no more than it has to, leaves at most the limit, and the byte counter is
    the size of what is queued; a payload that [checkToken] finds is queued; and a
    new payload that fits the limit is found after [add]. *)
Theorem cache_interleaving (c : Cache) (p : bytes) :
  rtc cache_step cache_new c ->
  (exists old c', evictCache c = Ret c' /\ m_cacheQueue c = old ++ m_cacheQueue c' /\
     queue_bytes (m_cacheQueue c') <= m_cacheMaxByteCount c /\
     m_cacheCurrentByteCount c' = queue_bytes (m_cacheQueue c') /\
     (old = [] \/ exists old' x, old = old' ++ [x] /\ m_cacheMaxByteCount c < queue_bytes (x :: m_cacheQueue c'))) /\
  (checkToken p c = true -> p ∈ m_cacheQueue c) /\
  (m_enabled c = true -> p ∉ m_cacheQueue c -> zlen p <= m_cacheMaxByteCount c ->
   zlen p + queue_bytes (m_cacheQueue c) < SIZE_MOD ->
   exists c', cache_add p c = Ret c' /\ checkToken p c' = true).
Proof.
  intros Hok%cache_reachable_ok. split_and!.
  - destruct (evictCache_ok c Hok) as (old & q' & c' & Hq & Hr & <- & Hok' & _ & _ & _ & Hle & Hmin).
    exists old, c'. split_and!; try done. apply Hok'.
  - by apply checkToken_queued.
  - intros. destruct (cache_add_found c p) as (c' & ? & ? & _); eauto.
Qed.

Lemma cache_interleaving_witness :
  let c := cache_insert (bs "one") (setEnabled true (cache_set_max 5 cache_new)) in
  exists c', cache_add (bs "two") c = Ret c' /\ checkToken (bs "two") c' = true.
Proof.
  refine (proj2 (proj2 (cache_interleaving (cache_insert (bs "one") (setEnabled true (cache_set_max 5 cache_new))) (bs "two") _)) _ _ _ _).
  - eapply rtc_l; [by apply (step_set_max _ 5)|]. eapply rtc_l; [apply step_enable|].
    eapply rtc_l; [by apply (step_insert _ (bs "one"))|]. apply rtc_refl.
  - reflexivity.
  - intros Hin. apply list_elem_of_singleton in Hin. discriminate.
  - discriminate.
  - reflexivity.
Defined.

(** [clear] (which every change of a key calls) empties the queue and keeps
    the byte counter: after one payload was cached and the cache cleared, lowering
    the limit makes [evictCache] take the front of an empty queue. *)
Theorem cache_clear_breaks_eviction (p : bytes) (n : Z) :
  0 < zlen p <= n -> n < SIZE_MOD ->
  (c ← cache_add p (setEnabled true (cache_set_max n cache_new));
   setCacheMaxByteCount 0 (cache_clear c)) = Undef.
Proof.
  intros Hp Hn. unfold cache_add, evictCache, cache_insert.
  cbn [setEnabled cache_set_max cache_new negb m_enabled m_cacheQueue m_tokenCache m_cacheCurrentByteCount
    m_cacheMaxByteCount app evictCache_loop].
  rewrite Z.add_0_l, wrap_small by lia. replace (zlen p >? n) with false by lia.
  cbn [mbind outcome_bind]. unfold setCacheMaxByteCount, evictCache.
  cbn [cache_set_max cache_clear m_enabled m_cacheQueue m_tokenCache m_cacheCurrentByteCount m_cacheMaxByteCount evictCache_loop].
  by replace (zlen p >? 0) with true by lia.
Qed.

Lemma cache_clear_breaks_eviction_witness :
  (c ← cache_add (bs "one") (setEnabled true (cache_set_max 5 cache_new));
   setCacheMaxByteCount 0 (cache_clear c)) = Undef.
Proof. apply (cache_clear_breaks_eviction (bs "one") 5); [split; [reflexivity|discriminate]|reflexivity]. Defined.

(** ** The revocation list *)
Inductive RevocationOp := Revoke (signature : bytes) (expirationTime : Z) | Sweep (now : Z).

Definition revocation_step (r : Revocation) (op : RevocationOp) : Revocation :=
  match op with
  | Revoke s e => addToRevocationList s e r
  | Sweep now => removeExpiredTokensFromRevocationList now r
  end.

Definition revocation_run (ops : list RevocationOp) : Revocation := foldl revocation_step revocation_new ops.

Lemma multimap_insert_elem k v m x : x ∈ multimap_insert k v m <-> x = (k, v) \/ x ∈ m.
Proof.
  induction m as [|[k' v'] m IH]; cbn [multimap_insert]; [by rewrite list_elem_of_singleton, elem_of_nil; tauto|].
  destruct (k <? k'); rewrite !elem_of_cons; [tauto|]. rewrite IH. tauto.
Qed.

Fixpoint multimap_sorted (m : list (Z * bytes)) : Prop :=
  match m with
  | [] => True
  | (k, _) :: rest => Forall (fun e => k <= e.1) rest /\ multimap_sorted rest
  end.

Lemma multimap_insert_sorted k v m : multimap_sorted m -> multimap_sorted (multimap_insert k v m).
Proof.
  induction m as [|[k' v'] m IH]; cbn [multimap_insert multimap_sorted]; [by split; [constructor|]|].
  intros [Hk Hm]. destruct (Z.ltb_spec k k') as [Hlt|Hge]; cbn [multimap_sorted].
  - split; [|done]. constructor; [cbn; lia|]. eapply Forall_impl; [exact Hk|]. cbn. lia.
  - split; [|auto]. apply Forall_forall. intros x [->|Hx]%multimap_insert_elem; [cbn; lia|].
    by apply (proj1 (Forall_forall _ _) Hk).
Qed.

(** [upper_bound] splits the entries by their key. *)
Lemma upper_bound_spec k m :
  multimap_sorted m ->
  let '(before, after) := upper_bound k m in
  multimap_sorted after /\ (forall x, x ∈ before <-> x ∈ m /\ x.1 <= k) /\ (forall x, x ∈ after <-> x ∈ m /\ k < x.1).
Proof.
  induction m as [|[k' v'] m IH]; cbn [upper_bound multimap_sorted]; [set_solver|]. intros [Hk Hm].
  destruct (Z.leb_spec k' k) as [Hle|Hgt].
  - specialize (IH Hm). destruct (upper_bound k m) as [before after]. destruct IH as (Hs & Hb & Ha). split; [done|].
    split; intros x; rewrite !elem_of_cons, ?Hb, ?Ha; split.
    + intros [->|[? ?]]; [split; [by left|done]|split; [by right|done]].
    + intros [[->|?] ?]; [by left|right; done].
    + intros [? ?]. split; [by right|done].
    + intros [[->|?] ?]; [cbn in *; lia|done].
  - split; [done|]. rewrite Forall_forall in Hk. split; intros x; rewrite ?elem_of_cons.
    + split; [by intros []%not_elem_of_nil|]. intros [[->|Hx] ?]; [cbn in *; lia|]. apply Hk in Hx. lia.
    + split; [|by intros [? _]]. intros [->|Hx]; [split; [by left|done]|].
      split; [by right|]. apply Hk in Hx. lia.
Qed.

Lemma foldl_difference (l : list (Z * bytes)) (s : gset bytes) t :
  t ∈ foldl (fun s e => s ∖ {[e.2]}) s l <-> t ∈ s /\ forall e, e ∈ l -> e.2 <> t.
Proof.
  revert s. induction l as [|e l IH]; intros s; cbn [foldl].
  - split; [|by intros [? _]]. intros ?. split; [done|]. by intros e []%not_elem_of_nil.
  - rewrite IH, elem_of_difference, not_elem_of_singleton. setoid_rewrite elem_of_cons. naive_solver.
Qed.

(** The revocations of [s] until [e] that no sweep has removed. *)
Definition listed (s : bytes) (e : Z) (ops : list RevocationOp) : Prop :=
  exists pre post, ops = pre ++ Revoke s e :: post /\ forall now, Sweep now ∈ post -> now < e.

Lemma listed_nil s e : ~ listed s e [].
Proof. by intros ([|] & ? & ? & _). Qed.

Lemma listed_snoc s e ops op :
  listed s e (ops ++ [op]) <->
  op = Revoke s e \/ listed s e ops /\ (forall now, op = Sweep now -> now < e).
Proof.
  split.
  - intros (pre & post & Heq & Hpost). destruct post as [|op' post' _] using rev_ind.
    + apply app_inj_tail in Heq as [_ ->]. by left.
    + rewrite app_comm_cons, app_assoc in Heq. apply app_inj_tail in Heq as [-> ->]. right. split.
      * exists pre, post'. split; [done|]. intros now Hin. apply Hpost. set_solver.
      * intros now ->. apply Hpost. set_solver.
  - intros [->|[(pre & post & -> & Hpost) Hop]].
    + exists ops, []. split; [done|]. by intros now []%not_elem_of_nil.
    + exists pre, (post ++ [op]). split; [by rewrite <- app_assoc|].
      intros now [Hin|Hin%list_elem_of_singleton]%elem_of_app; auto.
Qed.

Lemma revocation_run_snoc ops op : revocation_run (ops ++ [op]) = revocation_step (revocation_run ops) op.
Proof. unfold revocation_run. by rewrite foldl_app. Qed.

Lemma revocation_sorted ops : multimap_sorted (m_expirationSignatures (revocation_run ops)).
Proof.
  induction ops as [|[s e|now] ops IH] using rev_ind; [done| |]; rewrite revocation_run_snoc; cbn [revocation_step].
  - by apply multimap_insert_sorted.
  - unfold removeExpiredTokensFromRevocationList. pose proof (upper_bound_spec now _ IH) as Hu.
    by destruct (upper_bound now _), Hu.
Qed.

(** The multimap holds exactly the listed revocations. *)
Lemma expirations_listed ops s e :
  (e, s) ∈ m_expirationSignatures (revocation_run ops) <-> listed s e ops.
Proof.
  induction ops as [|[s' e'|now] ops IH] using rev_ind.
  - split; [by intros []%not_elem_of_nil|by intros []%listed_nil].
  - rewrite revocation_run_snoc, listed_snoc. cbn [revocation_step addToRevocationList m_expirationSignatures].
    rewrite multimap_insert_elem, IH. split; intros [H|H]; try (by left; congruence); right; [by split|by destruct H].
  - rewrite revocation_run_snoc, listed_snoc. cbn [revocation_step]. unfold removeExpiredTokensFromRevocationList.
    pose proof (upper_bound_spec now _ (revocation_sorted ops)) as Hu. destruct (upper_bound now _) as [before after].
    destruct Hu as (_ & _ & Ha). cbn [m_expirationSignatures]. rewrite Ha, IH. cbn [snd fst]. split.
    + intros [Hl Hlt]. right. split; [done|]. by intros ? [= <-].
    + intros [[=]|[Hl Hlt]]. split; [done|]. by apply Hlt.
Qed.

(** Signatures that are revoked with one expiration time. *)
Definition one_expiration (ops : list RevocationOp) : Prop :=
  forall s e e', Revoke s e ∈ ops -> Revoke s e' ∈ ops -> e = e'.

Lemma one_expiration_app ops ops' : one_expiration (ops ++ ops') -> one_expiration ops.
Proof. intros Hone s e e' H1 H2. eapply Hone; apply elem_of_app; by left. Qed.

Lemma listed_revoked s e ops : listed s e ops -> Revoke s e ∈ ops.
Proof. intros (pre & post & -> & _). set_solver. Qed.

(** The set of signatures follows the multimap. *)
Lemma revoked_listed ops s :
  one_expiration ops ->
  s ∈ m_revokedTokens (revocation_run ops) <-> exists e, listed s e ops.
Proof.
  induction ops as [|[s' e'|now] ops IH] using rev_ind; intros Hone.
  - split; [set_solver|]. by intros (e & []%listed_nil).
  - pose proof (one_expiration_app _ _ Hone) as Hone'. specialize (IH Hone').
    rewrite revocation_run_snoc. cbn [revocation_step addToRevocationList m_revokedTokens].
    rewrite elem_of_union, elem_of_singleton, IH. split.
    + intros [->|(e & He)]; [exists e'|exists e]; apply listed_snoc; [by left|by right].
    + intros (e & [[= -> ->]|[He _]]%listed_snoc); [by left|by right; exists e].
  - pose proof (one_expiration_app _ _ Hone) as Hone'. specialize (IH Hone').
    rewrite revocation_run_snoc. cbn [revocation_step]. unfold removeExpiredTokensFromRevocationList.
    pose proof (upper_bound_spec now _ (revocation_sorted ops)) as Hu. destruct (upper_bound now _) as [before after].
    destruct Hu as (_ & Hb & _). cbn [m_revokedTokens]. rewrite foldl_difference, IH. split.
    + intros [(e & He) Hni]. exists e. apply listed_snoc. right. split; [done|]. intros ? [= <-].
      destruct (Z.lt_ge_cases now e) as [|Hle]; [done|]. destruct (Hni (e, s)); [|done].
      apply Hb. by rewrite expirations_listed.
    + intros (e & [[=]|[He Hlt]]%listed_snoc). split; [by exists e|]. intros [e2 s2] [Hin Hle]%Hb Es.
      cbn [fst snd] in *. subst s2. apply expirations_listed in Hin. specialize (Hlt now eq_refl).
      assert (e2 = e) by (eapply Hone'; by apply listed_revoked). lia.
Qed.

(** C26. The revocation list under any interleaving of revocations and sweeps of
    the collector (each is one section under the mutex, [addToRevocationList] and
    [removeExpiredTokensFromRevocationList]), where a signature is always revoked
    with the same expiration time: [isSignatureRevoked] answers yes exactly when
    the signature was revoked and no sweep since then ran at or after its
    expiration time.  So a token stays revoked as long as it could be accepted. *)
Theorem revocation_exact (ops : list RevocationOp) (s : bytes) :
  one_expiration ops ->
  isSignatureRevoked s (revocation_run ops) = true <-> exists e, listed s e ops.
Proof.
  intros Hone. unfold isSignatureRevoked. rewrite bool_decide_eq_true. by apply revoked_listed.
Qed.

Lemma revocation_exact_witness :
  let ops := [Revoke (bs "b") 9; Revoke (bs "a") 5; Sweep 6] in
  (isSignatureRevoked (bs "b") (revocation_run ops) = true <-> exists e, listed (bs "b") e ops) /\
  isSignatureRevoked (bs "a") (revocation_run ops) = false.
Proof.
  split; [|by vm_compute]. apply (revocation_exact [Revoke (bs "b") 9; Revoke (bs "a") 5; Sweep 6] (bs "b")).
  intros s e e' H1 H2. rewrite !list_elem_of_In in *. cbn in H1, H2. intuition (congruence || (simplify_eq; discriminate)).
Defined.

(** A signature revoked twice is dropped at the earlier of the two times. *)
Lemma revoked_twice_dropped_early s e e' now :
  e <= now < e' -> isSignatureRevoked s (revocation_run [Revoke s e'; Revoke s e; Sweep now]) = false.
Proof.
  intros [He He']. unfold isSignatureRevoked, revocation_run. apply bool_decide_eq_false.
  cbn [foldl revocation_step]. unfold removeExpiredTokensFromRevocationList, addToRevocationList.
  cbn [m_expirationSignatures m_revokedTokens revocation_new multimap_insert].
  replace (e <? e') with true by lia. cbn [upper_bound]. replace (e <=? now) with true by lia.
  replace (e' <=? now) with false by lia. cbn [m_revokedTokens foldl snd]. set_solver.
Qed.
