(* ===== verification/JwtVerify.v ===== *)
(** * Signing and verifying tokens: the theorems

    A signed token splits into its three parts, [verify] accepts only payloads
    that a key has signed, and it accepts what [sign] produced.  [JsonLaws] is
    what the code relies on of JsonCpp. *)

From S2P Require Import Prelude SafeInt Mem Encoders Jwt.
From Stdlib Require Import ZArith Lia.
From stdpp Require Import gmap.
#[local] Open Scope Z_scope.

(** ** Splitting at the dots *)
Definition no_dot (s : bytes) : Prop := Forall (fun c => c <> 46) s.

Lemma no_dot_find s r : no_dot s -> find_dot (s ++ 46 :: r) = Some (zlen s).
Proof.
  unfold find_dot. induction 1 as [|c s Hc _ IH]; [done|]. cbn [app first_index].
  destruct (Z.eqb_spec c 46); [done|]. rewrite IH, zlen_cons. cbn. f_equal. lia.
Qed.

(** What the search for the first dot returns. *)
Lemma first_dot_split s i :
  first_index (fun c => c =? 46) s = Some i -> exists a b, s = a ++ 46 :: b /\ zlen a = i.
Proof.
  revert i. induction s as [|c s IH]; intros i; cbn [first_index]; [done|]. destruct (Z.eqb_spec c 46) as [->|].
  - intros [= <-]. by exists [], s.
  - destruct (first_index _ s) as [k|]; [|done]. cbn. intros [= <-]. destruct (IH k eq_refl) as (a & b & -> & Ha).
    exists (c :: a), b. split; [done|]. rewrite zlen_cons. lia.
Qed.

Lemma zlen_rev {A} (l : list A) : zlen (rev l) = zlen l.
Proof. unfold zlen. by rewrite length_rev. Qed.

Lemma no_dot_rfind l s : no_dot s -> rfind_dot (l ++ 46 :: s) = Some (zlen l).
Proof.
  intros Hs. unfold rfind_dot. rewrite rev_app_distr. cbn [rev]. rewrite <- app_assoc.
  assert (no_dot (rev s)) as Hr.
  { apply Forall_forall. intros c Hc%list_elem_of_In%in_rev. by apply (proj1 (Forall_forall _ _) Hs), list_elem_of_In. }
  pose proof (no_dot_find (rev s) (rev l) Hr) as Hf. unfold find_dot in Hf. cbn [app]. rewrite Hf, zlen_rev. f_equal.
  rewrite zlen_app, zlen_cons. lia.
Qed.

Lemma rfind_dot_split s k : rfind_dot s = Some k -> exists a b, s = a ++ 46 :: b /\ zlen a = k.
Proof.
  unfold rfind_dot. destruct (first_index _ (rev s)) as [p|] eqn:E; [|done]. intros [= <-].
  apply first_dot_split in E as (a & b & Hr & <-). exists (rev b), (rev a).
  assert (s = rev b ++ 46 :: rev a) as Hs.
  { rewrite <- (rev_involutive s), Hr, rev_app_distr. cbn [rev]. by rewrite <- app_assoc. }
  split; [done|]. rewrite Hs, zlen_app, zlen_cons, !zlen_rev. lia.
Qed.

(** The text of a token with its parts. *)
Definition token_text (h p s : bytes) : bytes := h ++ [46] ++ p ++ [46] ++ s.

Lemma token_text_parts h p s :
  let t := token_text h p s in
  ztake (zlen h) t = h /\ slice (zlen h + 1) (zlen p) t = p /\ zdrop (zlen h + 1 + zlen p + 1) t = s.
Proof.
  pose proof (zlen_nonneg h). pose proof (zlen_nonneg p). unfold token_text, slice. split_and!.
  - by rewrite ztake_app_ge, Z.sub_diag, ztake_le0, app_nil_r by lia.
  - rewrite zdrop_app_ge, Z.add_simpl_l by lia. cbn [app]. rewrite zdrop_cons, zdrop_le0 by lia.
    by rewrite ztake_app_ge, Z.sub_diag, ztake_le0, app_nil_r by lia.
  - rewrite zdrop_app_ge by lia. cbn [app]. rewrite zdrop_cons, zdrop_app_ge by lia. cbn [app].
    by rewrite zdrop_cons, zdrop_le0 by lia.
Qed.

(** A text without dots at its ends splits at them. *)
Lemma split_token_text h p s : no_dot h -> no_dot s -> split_token (token_text h p s) = Some (h, p, s).
Proof.
  intros Hh Hs. unfold split_token. pose proof (token_text_parts h p s) as (H1 & H2 & H3).
  assert (find_dot (token_text h p s) = Some (zlen h)) as -> by by apply no_dot_find.
  assert (rfind_dot (token_text h p s) = Some (zlen h + 1 + zlen p)) as ->.
  { replace (token_text h p s) with ((h ++ 46 :: p) ++ 46 :: s) by by unfold token_text; rewrite <- app_assoc.
    rewrite no_dot_rfind by done. f_equal. rewrite zlen_app, zlen_cons. lia. }
  pose proof (zlen_nonneg p). replace (_ >=? _) with false by lia.
  replace (zlen h + 1 + zlen p - zlen h - 1) with (zlen p) by lia. by rewrite H1, H2, H3.
Qed.

(** Whatever is split was a text of that form. *)
Lemma split_token_sound t h p s : split_token t = Some (h, p, s) -> t = token_text h p s.
Proof.
  unfold split_token. destruct (find_dot t) as [i|] eqn:Ei; [|done]. destruct (rfind_dot t) as [k|] eqn:Ek; [|done].
  destruct (Z.geb_spec i k) as [|Hlt]; [done|].
  apply first_dot_split in Ei as (a & b & Ha & Hi). apply rfind_dot_split in Ek as (c & d & Hc & Hk).
  assert (exists m, c = a ++ 46 :: m) as [m ->].
  { rewrite Ha in Hc. symmetry in Hc. apply app_eq_inv in Hc as [(m & -> & Hm)|(m & -> & Hm)].
    - destruct m as [|x m]; [rewrite app_nil_r in *; lia|]. injection Hm as <- _. by exists m.
    - rewrite zlen_app in *. pose proof (zlen_nonneg m). lia. }
  rewrite <- app_assoc in Hc. change (t = token_text a m d) in Hc. pose proof (token_text_parts a m d) as (H1 & H2 & H3).
  rewrite zlen_app, zlen_cons in Hk. rewrite Hc, <- Hk, <- Hi.
  replace (zlen a + (1 + zlen m) - zlen a - 1) with (zlen m) by lia.
  replace (zlen a + (1 + zlen m) + 1) with (zlen a + 1 + zlen m + 1) by lia. rewrite H1, H2, H3. by intros [= <- <- <-].
Qed.

(** ** What an accepted token is *)

(** OpenSSL finds the memory it asks for. *)
Class OpenSSLMemory `{OpenSSL} : Prop := {
  bio_available s : bio_new_mem_buf s = true;
  ctx_available : evp_md_ctx_new = true }.

Section Verify.
Context {J : Type} `{JsonCpp J} `{OpenSSL} `{Base64BIO}.

(** The answer of the code on a signature [s] of the text [h . p]. *)
Definition passes_signature (j : JWT) (h p s : bytes) : Prop :=
  createSignature (h ++ [46] ++ p) j = (SUCCESS, s) /\ s <> [] \/
  validateRSASignature (getHashTypeNumber (m_algorithm j)) (h ++ [46] ++ p) s j = 0.

(** [s] is a signature of the text [h . p] under a key of [j]. *)
Definition accepts_signature (j : JWT) (h p s : bytes) : Prop :=
  createSignature (h ++ [46] ++ p) j = (SUCCESS, s) /\ s <> [] \/
  pem_public_ok (m_publicSecret j) = true /\
  evp_verify (getHashTypeNumber (m_algorithm j)) (m_publicSecret j) (h ++ [46] ++ p) s = true.

Lemma passes_accepts `{!OpenSSLMemory} j h p s : passes_signature j h p s -> accepts_signature j h p s.
Proof.
  intros [Hc|Hv]; [by left|right]. unfold validateRSASignature in Hv. rewrite bio_available, ctx_available in Hv.
  destruct (pem_public_ok _); [|done]. by destruct (evp_verify _ _ _ _).
Qed.

(** Without memory for the digest every signature passes. *)
Lemma no_memory_passes j h p s : evp_md_ctx_new = false -> pem_public_ok (m_publicSecret j) = true -> passes_signature j h p s.
Proof. intros Hm Hp. right. unfold validateRSASignature. rewrite Hp, Hm. by destruct (bio_new_mem_buf _). Qed.

Lemma check_signature_true alg h p s j :
  check_signature alg h p s j = Some true -> isAlgorithmSupported alg = true /\ passes_signature j h p s.
Proof.
  unfold check_signature. destruct (isAlgorithmSupported alg); [|done]. cbn [negb].
  destruct (isHMACAlgorithm alg).
  - destruct (createSignature _ j) as [[] digest] eqn:E; try done. intros [= Hc]. split; [done|]. left. rewrite E.
    apply andb_prop in Hc as [[Hl _]%andb_prop ->%bool_decide_eq_true]. split; [done|]. by intros ->.
  - destruct (isRSAAlgorithm alg); [|done]. intros [= Hv%Z.eqb_eq]. split; [done|]. by right.
Qed.

(** The time limits of a token, for the clock [now]. *)
Definition in_time (now : Z) (t : Token J) : Prop :=
  (isMember (m_claims t) (bs "exp") = Ret true -> now < getExpirationTime t) /\
  (isMember (m_claims t) (bs "nbf") = Ret true -> getNotBefore t <= now).

Lemma isValid_true now t :
  isValid now t = Ret true -> m_signatureVerified t = true /\ m_revoked t = false /\ in_time now t.
Proof.
  unfold isValid, in_time. destruct (isMember (m_claims t) (bs "exp")) as [he| | |]; cbn [mbind outcome_bind]; try done.
  destruct (he && (now >=? getExpirationTime t)) eqn:E1; [done|].
  destruct (isMember (m_claims t) (bs "nbf")) as [hn| | |]; cbn [mbind outcome_bind]; try done.
  destruct (hn && (now <? getNotBefore t)) eqn:E2; [done|].
  intros [= [Hs Hr%negb_true_iff]%andb_prop]. split_and!; [done|done|intros [= ->]..]; cbn [andb] in *; lia.
Qed.

(** The two ways to a result without a callback: the cache, or the signature. *)
Lemma verify_cases now tok out j j' t ok :
  verificationCallback j = None -> verify now tok out j = Ret (j', t, ok) ->
  (split_token tok = None /\ j' = j /\ ok = false) \/
  exists h p s, split_token tok = Some (h, p, s) /\
    let payload := decodeFromBase64 p true in
    let signature := decodeFromBase64 s true in
    (ok = true -> isValid now t = Ret true /\ m_claims t = (json_parse payload).1) /\
    (j' = j /\ (ok = true -> checkToken payload (m_cache j) = true) \/
     checkToken payload (m_cache j) = false /\ passes_signature j h p signature /\
     (ok = true -> isSignatureRevoked signature (m_revocation j) = false) /\
     exists c, cache_add payload (m_cache j) = Ret c /\ j' = jwt_set_cache c j).
Proof.
  intros Hcb. unfold verify. rewrite Hcb. destruct (split_token tok) as [[[h p] s]|]; [|intros [= <- <- <-]; by left].
  intros Hv. right. exists h, p, s. split; [done|]. cbv zeta in Hv |- *.
  destruct (checkToken (decodeFromBase64 p true) (m_cache j)) eqn:Ec.
  { destruct (isValid _ _) as [v| | |] eqn:Ev; try done. cbn [mbind outcome_bind] in Hv. injection Hv as <- <- <-.
    split; [intros ->; split; [done|]|by left]. cbn [setSignatureVerified m_claims]. unfold decodePayload.
    by destruct (json_parse _). }
  destruct (json_parse (decodeFromBase64 h true)) as [hj okh]. destruct okh; cbn [negb] in Hv.
  2: { injection Hv as <- <- <-. split; [done|]. by left. }
  destruct (check_signature _ h p _ j) as [[]|] eqn:Es.
  - apply check_signature_true in Es as [_ Hacc]. cbv iota in Hv.
    destruct (cache_add _ (m_cache j)) as [c| | |] eqn:Ea; try done. cbn [mbind outcome_bind] in Hv. cbv beta iota in Hv.
    destruct (isValid now _) as [v| | |] eqn:Ev; try done. cbn [mbind outcome_bind] in Hv. injection Hv as <- <- <-.
    split.
    + intros ->. split; [done|]. cbn [setRevoked setSignatureVerified m_claims]. unfold decodePayload.
      by destruct (json_parse _).
    + right. split_and!; [done|done| |by exists c]. intros ->. by apply isValid_true in Ev as (_ & Hr & _).
  - cbn [mbind outcome_bind] in Hv. cbv beta iota in Hv. destruct (isValid now _) as [v| | |] eqn:Ev; try done.
    cbn [mbind outcome_bind] in Hv. injection Hv as <- <- <-.
    assert (v = true -> False) as Hv by (intros ->; by apply isValid_true in Ev as (? & _)).
    split; [intros Hvt; by destruct (Hv Hvt)|]. left. split; [done|]. intros Hvt. by destruct (Hv Hvt).
  - injection Hv as <- <- <-. split; [done|]. by left.
Qed.

(** ** Verifications among other steps

    No lock is held across [verify]: other threads may run between its look into
    the cache, its check of the signature, the storing of the payload and its look
    into the revocation list.  The same body with the object as it is at each of
    these moments; the state that it leaves is the one of [step_insert] below. *)
Definition verify_between (now : Z) (tok : bytes) (out : Token J) (looked checked listed : JWT) : outcome (Token J * bool) :=
  match split_token tok with
  | None => Ret (out, false)
  | Some (h, p, s) =>
      let payload := decodeFromBase64 p true in
      let signature := decodeFromBase64 s true in
      let trusted :=
        let out := setSignatureVerified true (decodePayload payload out).1 in
        ok ← isValid now out; Ret (out, ok) in
      match verificationCallback looked with
      | Some callback => if callback tok then trusted else Ret (out, false)
      | None =>
          if checkToken payload (m_cache looked) then trusted
          else
            let '(header, ok) := json_parse (decodeFromBase64 h true) in
            if negb ok then Ret (out, false)
            else
              match check_signature (ASSTRING header (bs "alg") []) h p signature checked with
              | None => Ret (out, false)
              | Some verified =>
                  let out := if verified then (decodePayload payload out).1 else out in
                  let out := setRevoked (isSignatureRevoked signature (m_revocation listed)) (setSignatureVerified verified out) in
                  ok ← isValid now out; Ret (out, ok)
              end
      end
  end.

(** Without other threads it is [verify]. *)
Lemma verify_alone now tok out j j' t ok :
  verify now tok out j = Ret (j', t, ok) -> verify_between now tok out j j j = Ret (t, ok).
Proof.
  unfold verify, verify_between. destruct (split_token tok) as [[[h p] s]|]; [|by intros [= _ <- <-]]. cbv zeta.
  assert (forall i o, (v ← isValid now o; Ret (i, o, v) : outcome (JWT * Token J * bool)) = Ret (j', t, ok) ->
    (v ← isValid now o; Ret (o, v) : outcome (Token J * bool)) = Ret (t, ok)) as Htrust.
  { intros i o. destruct (isValid now o); cbn [mbind outcome_bind]; try done. by intros [= _ <- <-]. }
  destruct (verificationCallback j) as [f|]; [destruct (f tok); [apply Htrust|by intros [= _ <- <-]]|].
  destruct (checkToken _ _); [apply Htrust|]. destruct (json_parse _) as [header okh]. destruct okh; cbn [negb]; [|by intros [= _ <- <-]].
  destruct (check_signature _ _ _ _ _) as [[]|]; [| |by intros [= _ <- <-]].
  - destruct (cache_add _ _) as [c| | |]; [apply (Htrust (jwt_set_cache c j))|done..].
  - apply (Htrust j).
Qed.

(** An acceptance: by the callback, by the cache, or by the signature. *)
Lemma verify_between_accepts now tok out j1 j2 j3 t :
  verify_between now tok out j1 j2 j3 = Ret (t, true) ->
  exists h p s, split_token tok = Some (h, p, s) /\ isValid now t = Ret true /\
    m_claims t = (json_parse (decodeFromBase64 p true)).1 /\
    match verificationCallback j1 with
    | Some callback => callback tok = true
    | None =>
        if checkToken (decodeFromBase64 p true) (m_cache j1) then True
        else passes_signature j2 h p (decodeFromBase64 s true) /\ isSignatureRevoked (decodeFromBase64 s true) (m_revocation j3) = false
    end.
Proof.
  unfold verify_between. destruct (split_token tok) as [[[h p] s]|]; [|done]. cbv zeta. intros Hv. exists h, p, s. split; [done|].
  assert (forall o (P : Prop), (v ← isValid now o; Ret (o, v) : outcome (Token J * bool)) = Ret (t, true) ->
    m_claims o = (json_parse (decodeFromBase64 p true)).1 -> P -> isValid now t = Ret true /\ m_claims t = (json_parse (decodeFromBase64 p true)).1 /\ P) as Htrust.
  { intros o P. destruct (isValid now o) eqn:E; cbn [mbind outcome_bind]; try done. by intros [= <- ->]. }
  assert (m_claims (decodePayload (decodeFromBase64 p true) out).1 = (json_parse (decodeFromBase64 p true)).1) as Hcl.
  { unfold decodePayload. destruct (json_parse (decodeFromBase64 p true)). done. }
  revert Hv. destruct (verificationCallback j1) as [f|]; [destruct (f tok); [intros Hv; by apply (Htrust _ _ Hv Hcl)|done]|].
  destruct (checkToken _ _); [intros Hv; by apply (Htrust _ _ Hv Hcl)|]. destruct (json_parse (decodeFromBase64 h true)) as [header okh]. destruct okh; cbn [negb]; [|done].
  destruct (check_signature _ _ _ _ _) as [[]|] eqn:Ec; [| |done]; intros Hv.
  - apply check_signature_true in Ec as [_ Hp]. apply (Htrust _ _ Hv Hcl). split; [done|].
    apply bind_Ret in Hv as (v & E & [= _ ->]). by apply isValid_true in E as (_ & Hr & _).
  - apply bind_Ret in Hv as (v & E & [= _ ->]). by apply isValid_true in E as (C & _).
Qed.

(** ** Every cached payload was signed *)

(** Eviction removes. *)
Lemma evictCache_loop_keys q tokens cur max q' tokens' cur' :
  evictCache_loop q tokens cur max = Ret (q', tokens', cur') ->
  forall x, is_Some (tokens' !! x) -> is_Some (tokens !! x).
Proof.
  revert tokens cur. induction q as [|t q IH]; intros tokens cur; cbn [evictCache_loop].
  - destruct (cur >? max); [done|]. by intros [= <- <- <-].
  - destruct (cur >? max); [|by intros [= <- <- <-]]. intros Hl x Hx%(IH _ _ Hl). destruct (decide (x = t)) as [->|].
    + rewrite lookup_delete_eq in Hx. by destruct Hx.
    + by rewrite lookup_delete_ne in Hx.
Qed.

Lemma evictCache_keys c c' x :
  evictCache c = Ret c' -> is_Some (m_tokenCache c' !! x) -> is_Some (m_tokenCache c !! x).
Proof.
  unfold evictCache. destruct (evictCache_loop _ _ _ _) as [[[q t] n]| | |] eqn:E; try done.
  cbn [mbind outcome_bind]. intros [= <-]. by apply (evictCache_loop_keys _ _ _ _ _ _ _ E).
Qed.

(** What the threads that share an object have done: the object; the payloads that
    running verifications have checked and not yet stored; and the objects with keys
    that were replaced while the cache held something or a verification was running. *)
Record Shared := mkShared { object : JWT; checked : list bytes; replaced : list JWT }.
Definition shared_new (a : Algorithm) : Shared := mkShared (jwt_new a) [] [].

(** Nothing is left of the replaced keys. *)
Definition settle (x : Shared) : Shared :=
  if bool_decide (checked x = [] /\ m_tokenCache (m_cache (object x)) = ∅) then mkShared (object x) [] [] else x.

Definition assign_keys (shared public priv : bytes) (j : JWT) : JWT :=
  mkJWT (m_algorithm j) shared public priv (m_defaultExpirationTimeInSeconds j) (m_defaultMaxTimeBeforeInSeconds j)
    (verificationCallback j) (m_cache j) (m_revocation j).
Definition set_callback (f : option (bytes -> bool)) (j : JWT) : JWT :=
  mkJWT (m_algorithm j) (m_sharedSecret j) (m_publicSecret j) (m_privateSecret j) (m_defaultExpirationTimeInSeconds j)
    (m_defaultMaxTimeBeforeInSeconds j) f (m_cache j) (m_revocation j).
Definition set_shared_cache (c : Cache) (x : Shared) : Shared := mkShared (jwt_set_cache c (object x)) (checked x) (replaced x).

(** The steps of the threads.  Setting a secret is the assignment of the key, and then,
    for the shared and the public one, the clearing of the cache. *)
Inductive jwt_step (x : Shared) : Shared -> Prop :=
| step_check alg h p s :
    check_signature alg h p s (object x) = Some true ->
    jwt_step x (mkShared (object x) (decodeFromBase64 p true :: checked x) (replaced x))
| step_insert payload before after :
    checked x = before ++ payload :: after ->
    jwt_step x (mkShared (jwt_set_cache (cache_insert payload (m_cache (object x))) (object x)) (before ++ after) (replaced x))
| step_drop payload before after :
    checked x = before ++ payload :: after -> jwt_step x (settle (mkShared (object x) (before ++ after) (replaced x)))
| step_evict c : evictCache (m_cache (object x)) = Ret c -> jwt_step x (settle (set_shared_cache c x))
| step_keys shared public priv :
    jwt_step x (settle (mkShared (assign_keys shared public priv (object x)) (checked x) (object x :: replaced x)))
| step_cache_max n : jwt_step x (set_shared_cache (cache_set_max n (m_cache (object x))) x)
| step_cache_enable v : jwt_step x (settle (set_shared_cache (setEnabled v (m_cache (object x))) x))
| step_cache_clear : jwt_step x (settle (set_shared_cache (cache_clear (m_cache (object x))) x))
| step_revocation op :
    jwt_step x (mkShared (jwt_set_revocation (revocation_step (m_revocation (object x)) op) (object x)) (checked x) (replaced x))
| step_callback f : jwt_step x (mkShared (set_callback f (object x)) (checked x) (replaced x)).

(** The setters of the source are these steps. *)
Lemma setters_step s x :
  setSharedSecret s (object x) = jwt_set_cache (cache_clear (m_cache (object x))) (assign_keys s (m_publicSecret (object x)) (m_privateSecret (object x)) (object x)) /\
  setPublicSecret s (object x) = jwt_set_cache (cache_clear (m_cache (object x))) (assign_keys (m_sharedSecret (object x)) s (m_privateSecret (object x)) (object x)) /\
  setPrivateSecret s (object x) = assign_keys (m_sharedSecret (object x)) (m_publicSecret (object x)) s (object x).
Proof. done. Qed.

(** A change of the shared or the public key leaves nothing of the old ones when no
    verification is running. *)
Lemma quiet_change s p k x :
  checked x = [] -> exists x', rtc jwt_step x x' /\ replaced x' = [] /\ object x' = jwt_set_cache (cache_clear (m_cache (object x))) (assign_keys s p k (object x)).
Proof.
  intros Hc. set (x1 := settle (mkShared (assign_keys s p k (object x)) (checked x) (object x :: replaced x))).
  assert (object x1 = assign_keys s p k (object x) /\ checked x1 = []) as [Ho Hc1].
  { unfold x1, settle. rewrite Hc. by destruct (bool_decide _). }
  exists (settle (set_shared_cache (cache_clear (m_cache (object x1))) x1)). split.
  { eapply rtc_l; [apply (step_keys _ s p k)|]. apply rtc_once, step_cache_clear. }
  unfold settle at 1 2. cbn [set_shared_cache object checked]. rewrite Hc1, Ho, bool_decide_eq_true_2; done.
Qed.

(** Some text with this payload was signed under the keys of [j]. *)
Definition signed_payload (j : JWT) (payload : bytes) : Prop :=
  exists h p s, decodeFromBase64 p true = payload /\ accepts_signature j h p s.

Definition all_signed (x : Shared) : Prop :=
  forall payload, payload ∈ checked x \/ is_Some (m_tokenCache (m_cache (object x)) !! payload) ->
    exists j, j ∈ object x :: replaced x /\ signed_payload j payload.

Lemma settle_signed x : all_signed x -> all_signed (settle x).
Proof.
  intros Hx. unfold settle. case_bool_decide as E; [|done]. destruct E as [_ E]. intros payload. cbn [checked object]. rewrite E, lookup_empty.
  intros [Hp|[]]; [by apply not_elem_of_nil in Hp|done].
Qed.

(** Other members than the keys do not matter. *)
Lemma same_keys_signed x j' r :
  (forall h p s, accepts_signature (object x) h p s -> accepts_signature j' h p s) ->
  (forall payload, payload ∈ r \/ is_Some (m_tokenCache (m_cache j') !! payload) ->
     payload ∈ checked x \/ is_Some (m_tokenCache (m_cache (object x)) !! payload)) ->
  all_signed x -> all_signed (mkShared j' r (replaced x)).
Proof.
  intros Ha Hk Hx payload Hp. destruct (Hx payload (Hk payload Hp)) as (j & [->|Hj]%elem_of_cons & h & p & s & Hd & Hs).
  - exists j'. split; [by left|]. exists h, p, s. auto.
  - exists j. split; [by right|]. by exists h, p, s.
Qed.

Lemma jwt_step_signed `{!OpenSSLMemory} x x' : all_signed x -> jwt_step x x' -> all_signed x'.
Proof.
  intros Hx Hst. destruct Hst as [alg h p s Hc|payload before after Hc|payload before after Hc|c Hc|s p k|n|v| |op|f];
    try apply settle_signed; try (by apply (same_keys_signed x)).
  - apply check_signature_true in Hc as [_ Hc%passes_accepts]. intros y [[->|Hy]%elem_of_cons|Hy]; [|by apply Hx; left|by apply Hx; right].
    exists (object x). split; [by left|]. by exists h, p, s.
  - apply (same_keys_signed x); [done| |done]. intros y [Hy|Hy].
    + left. rewrite Hc. set_solver.
    + cbn [jwt_set_cache m_cache cache_insert m_tokenCache] in Hy. destruct (decide (y = payload)) as [->|Hne]; [left; rewrite Hc; set_solver|].
      right. by rewrite lookup_insert_ne in Hy.
  - apply (same_keys_signed x); [done| |done]. intros y [Hy|Hy]; [left; rewrite Hc; set_solver|by right].
  - apply (same_keys_signed x); [done| |done]. intros y [Hy|Hy]; [by left|right]. by apply (evictCache_keys _ _ _ Hc).
  - intros y Hy. destruct (Hx y Hy) as (j & Hj & Hs). exists j. split; [by right|done].
  - apply (same_keys_signed x); [done| |done]. intros y [Hy|Hy]; [by left|right]. destruct v; [done|]. cbn in Hy. rewrite lookup_empty in Hy. by destruct Hy.
  - apply (same_keys_signed x); [done| |done]. intros y [Hy|Hy]; [by left|]. cbn in Hy. rewrite lookup_empty in Hy. by destruct Hy.
Qed.

Lemma jwt_reachable_signed `{!OpenSSLMemory} a x : rtc jwt_step (shared_new a) x -> all_signed x.
Proof.
  intros Hr. assert (all_signed (shared_new a)) as H0'.
  { intros payload [Hp|Hp]; [by apply not_elem_of_nil in Hp|]. cbn in Hp. rewrite lookup_empty in Hp. by destruct Hp. }
  induction Hr as [|x0 x1 x2 Hs _ IH]; [done|]. apply IH. by eapply jwt_step_signed.
Qed.


(** Keys that were replaced during a verification stay in force: its payload is stored
    after the cache was cleared, and is found there under the new keys. *)
Theorem replaced_key_accepted (alg h p s k : bytes) (x : Shared) :
  m_enabled (m_cache (object x)) = true -> check_signature alg h p s (object x) = Some true ->
  exists x', rtc jwt_step x x' /\ m_sharedSecret (object x') = k /\ checkToken (decodeFromBase64 p true) (m_cache (object x')) = true.
Proof.
  intros He Hc. set (j := object x). eexists. split; [|split].
  - eapply rtc_l; [by apply (step_check _ alg h p s)|].
    eapply rtc_l; [apply (step_keys _ k (m_publicSecret j) (m_privateSecret j))|].
    eapply rtc_l; [apply step_cache_clear|]. eapply rtc_l; [|apply rtc_refl].
    apply (step_insert _ (decodeFromBase64 p true) [] (checked x)). done.
  - done.
  - unfold checkToken. cbn. rewrite He. cbn [negb]. by rewrite lookup_insert_eq.
Qed.

(** A token that was accepted and cached stays accepted after its signature
    is revoked: the way through the cache checks neither the signature nor the
    revocation list.  The revocation list and the cache are used together here as
    the documentation shows them. *)
Theorem revoked_token_accepted_from_cache (now : Z) (tok h p s : bytes) (out out' t : Token J) (j j1 : JWT) (e : Z) :
  verificationCallback j = None -> m_revoked out' = false -> split_token tok = Some (h, p, s) ->
  verify now tok out j = Ret (j1, t, true) ->
  checkToken (decodeFromBase64 p true) (m_cache j1) = true ->
  let signature := decodeFromBase64 s true in
  let j2 := jwt_set_revocation (addToRevocationList signature e (m_revocation j1)) j1 in
  isSignatureRevoked signature (m_revocation j2) = true /\
  exists t', verify now tok out' j2 = Ret (j2, t', true).
Proof.
  intros Hcb Hout Hs Hv Hc signature j2. split.
  { unfold isSignatureRevoked. apply bool_decide_eq_true. cbn. set_solver. }
  destruct (verify_cases _ _ _ _ _ _ _ Hcb Hv) as [(_ & _ & ?)|(h1 & p1 & s1 & Hs1 & Ht & Hj)]; [done|].
  rewrite Hs in Hs1. injection Hs1 as <- <- <-. destruct (Ht eq_refl) as [Hval Hcl].
  assert (verificationCallback j2 = None) as Hcb2.
  { destruct Hj as [[-> _]|(_ & _ & _ & c & _ & ->)]; done. }
  assert (m_cache j2 = m_cache j1) as Hcache by done.
  exists t. unfold verify. rewrite Hs, Hcb2, Hcache, Hc. cbv zeta.
  assert (setSignatureVerified true (decodePayload (decodeFromBase64 p true) out').1 = t) as ->.
  { apply isValid_true in Hval as (Hsv & Hrv & _). unfold decodePayload. destruct t as [cl sv rv]. cbn in *.
    rewrite Hcl, Hsv, Hrv. destruct (json_parse _) as [jv okp]. unfold setSignatureVerified. cbn. by rewrite Hout. }
  by rewrite Hval.
Qed.
End Verify.

(** ** A signed token verifies *)

(** What the code relies on of JsonCpp: [json_wf] are the values that survive
    printing (no comments, no values that JSON cannot express). *)
Class JsonLaws (J : Type) `{JsonCpp J} := {
  json_wf : J -> Prop;
  printable : bytes -> Prop := Forall (fun c => 32 <= c < 127);
  wf_null : json_wf json_null;
  wf_string s : printable s -> json_wf (json_string s);
  wf_set j k v : json_isNull j || json_isObject j = true -> printable k -> json_wf j -> json_wf v ->
    json_wf (json_set j k v);
  isNull_null : json_isNull json_null = true;
  isObject_set j k v : json_isNull j || json_isObject j = true -> json_isObject (json_set j k v) = true;
  has_set j k v : json_isNull j || json_isObject j = true -> json_has (json_set j k v) k = true;
  get_set j k v : json_isNull j || json_isObject j = true -> json_get (json_set j k v) k = v;
  isString_string s : json_isString (json_string s) = true;
  asString_string s : json_asString (json_string s) = s;
  parse_write j : json_wf j -> json_parse (json_writeString j) = (j, true);
  write_bytes j : Forall is_byte (json_writeString j) }.

(** What it relies on of OpenSSL: digests are short byte strings, and the public
    key of a pair verifies what its private key signs. *)
Class OpenSSLLaws `{OpenSSL} := {
  laws_memory :: OpenSSLMemory;
  key_pair : bytes -> bytes -> Prop;
  hmac_digest n k d : Forall is_byte (hmac n k d) /\ 0 < zlen (hmac n k d) <= 64;
  key_pair_readable priv pub : key_pair priv pub -> pem_private_ok priv = true /\ pem_public_ok pub = true;
  evp_sign_verify n priv pub d : key_pair priv pub ->
    exists s, evp_sign n priv d = Some s /\ evp_verify n pub d s = true /\ Forall is_byte s /\ 0 < zlen s <= 65536 }.

(** Sizes at which the base64 of a text is still counted by an [int]. *)
Definition fits_base64 (s : bytes) : Prop := zlen s <= 1000000000.

Lemma base64url_fits `{RFC4648} s :
  Forall is_byte s -> fits_base64 s ->
  decodeFromBase64 (encodeToBase64 s true) true = s /\ no_dot (encodeToBase64 s true).
Proof.
  unfold fits_base64. intros Hb Hs. pose proof (rfc4648_size s). split.
  - apply base64url_spec; [done|lia..].
  - apply encodeToBase64_url_no_dot. lia.
Qed.

Section SignVerify.
Context {J : Type} `{JsonLaws J} `{OpenSSLLaws} `{RFC4648}.

(** The keys an algorithm needs. *)
Definition signing_keys (j : JWT) : Prop :=
  if isUsingHMAC (m_algorithm j) then m_sharedSecret j <> [] else key_pair (m_privateSecret j) (m_publicSecret j).

Lemma alg_name_kind a :
  isAlgorithmSupported (alg_name a) = true /\ isHMACAlgorithm (alg_name a) = isUsingHMAC a /\
  isRSAAlgorithm (alg_name a) = negb (isUsingHMAC a).
Proof. by destruct a; vm_compute. Qed.

Lemma algorithm_of_alg_name a : algorithm_of_name (alg_name a) = a.
Proof. by destruct a; vm_compute. Qed.

Lemma alg_name_printable a : printable (alg_name a).
Proof. by destruct a; repeat constructor. Qed.

Lemma createSignature_signs h p j :
  signing_keys j ->
  exists d, createSignature (h ++ [46] ++ p) j = (SUCCESS, d) /\ Forall is_byte d /\ fits_base64 d /\
    check_signature (alg_name (m_algorithm j)) h p d j = Some true.
Proof.
  unfold signing_keys, check_signature, createSignature, createHMACSignature, createRSASignature, validateRSASignature, fits_base64. pose proof (alg_name_kind (m_algorithm j)) as (-> & -> & ->).
  cbn [negb]. destruct (isUsingHMAC (m_algorithm j)); cbn [negb].
  - destruct (m_sharedSecret j) as [|c k] eqn:Ek; [done|]. intros _. rewrite <- Ek.
    destruct (hmac_digest (getHashTypeNumber (m_algorithm j)) (m_sharedSecret j) (h ++ [46] ++ p)) as [Hb Hl].
    eexists. split_and!; [done|done|lia|]. replace (_ >? 0) with true by lia. by rewrite Z.eqb_refl, bool_decide_true.
  - intros Hkp. destruct (key_pair_readable _ _ Hkp) as [Hr Hu]. rewrite !bio_available, ctx_available, Hr.
    destruct (evp_sign_verify (getHashTypeNumber (m_algorithm j)) _ _ (h ++ [46] ++ p) Hkp) as (s & Hs & Hv & Hb & Hl).
    rewrite Hs. exists s. split_and!; [done|done|lia|]. by rewrite Hu, Hv.
Qed.

Lemma jwt_header_ok a :
  json_parse (json_writeString (jwt_header a)) = (jwt_header a, true) /\
  ASSTRING (jwt_header a) (bs "alg") [] = alg_name a.
Proof.
  assert (json_isNull json_null || json_isObject json_null = true) as H0' by by rewrite isNull_null.
  assert (json_isNull (json_set json_null (bs "typ") (json_string (bs "JWT"))) ||
          json_isObject (json_set json_null (bs "typ") (json_string (bs "JWT"))) = true) as H1'
    by by rewrite isObject_set, orb_true_r.
  unfold jwt_header. split.
  - apply parse_write, wf_set; [done|by repeat constructor| |apply wf_string, alg_name_printable].
    apply wf_set; [done|by repeat constructor|apply wf_null|]. apply wf_string. by repeat constructor.
  - unfold ASSTRING. by rewrite isObject_set, has_set, get_set, isString_string, asString_string.
Qed.

(** The steps of the cache, and its clearing and disabling while it is empty. *)
Inductive quiet_step (c : Cache) : Cache -> Prop :=
| quiet_cache c' : cache_step c c' -> quiet_step c c'
| quiet_clear : m_cacheQueue c = [] -> quiet_step c (cache_clear c)
| quiet_enable v : m_cacheQueue c = [] -> quiet_step c (setEnabled v c).

Lemma quiet_reachable_ok c : rtc quiet_step cache_new c -> cache_ok c.
Proof.
  intros Hr. remember cache_new as c0 eqn:E. assert (cache_ok c0) as H0' by (subst; apply cache_new_ok). clear E.
  induction Hr as [|c0 c1 c2 Hs _ IH]; [done|]. apply IH. destruct Hs as [c' Hs|Hq|v Hq]; [by apply (cache_step_ok c0)| |].
  - destruct H0' as [Hc Hs Hm Hk]. rewrite Hq in Hc. by split; cbn; try rewrite lookup_empty; try done; intros t; rewrite lookup_empty; intros [].
  - destruct H0' as [Hc Hs Hm Hk]. destruct v; [by split|]. rewrite Hq in Hc. by split; cbn; try done; intros t; rewrite lookup_empty; intros [].
Qed.

(** C25. What [JWT::sign] returns, [JWT::verify] accepts with the same claims, for
    every algorithm, in an object without a callback whose keys can sign, into a
    token that is not revoked, while the claims are in their time limits and the
    signature is not revoked: given the round trips of JsonCpp, the base64 of
    OpenSSL, and its signatures, for well formed claims whose text is not too long
    for base64 and for the count of the cache. The cache may be in any state that
    the threads reach by storing, evicting, changing its size and enabling it, and
    by clearing it (as a new key does) or disabling it as long as it holds nothing.
    The states after a cache that held something was cleared are left out: see
    [cache_clear_breaks_eviction]. *)
Theorem sign_verify (j : JWT) (claims : J) (now : Z) (out : Token J) :
  verificationCallback j = None -> signing_keys j -> rtc quiet_step cache_new (m_cache j) ->
  json_wf claims -> fits_base64 (json_writeString claims) ->
  fits_base64 (json_writeString (jwt_header (m_algorithm j) : J)) ->
  zlen (json_writeString claims) + queue_bytes (m_cacheQueue (m_cache j)) < SIZE_MOD ->
  isSignatureRevoked (createSignature (createHeader (J := J) j ++ [46] ++ encodeToBase64 (json_writeString claims) true) j).2
    (m_revocation j) = false ->
  m_revoked out = false -> isValid now (mkToken claims true false) = Ret true ->
  exists j' t, verify now (sign claims j) out j = Ret (j', t, true) /\ m_claims t = claims.
Proof.
  intros Hcb Hkeys Hcache%quiet_reachable_ok Hwf Hfit Hfith Hsize Hnr Hout Hval. unfold sign, createHeader in *.
  destruct (base64url_fits _ (write_bytes (jwt_header (m_algorithm j))) Hfith) as [Hdh Hnh].
  destruct (base64url_fits _ (write_bytes claims) Hfit) as [Hdp _].
  set (h := encodeToBase64 (json_writeString (jwt_header _)) true) in *.
  set (p := encodeToBase64 (json_writeString claims) true) in *.
  destruct (createSignature_signs h p j Hkeys) as (d & Hsig & Hbd & Hfd & Hcheck).
  destruct (base64url_fits _ Hbd Hfd) as [Hdd Hnd]. rewrite Hsig in *. cbn [snd] in Hnr.
  change (h ++ [46] ++ p ++ [46] ++ encodeToBase64 d true) with (token_text h p (encodeToBase64 d true)).
  unfold verify. rewrite split_token_text, Hcb, Hdp, Hdh, Hdd by done. cbv zeta. unfold decodePayload. rewrite parse_write by done.
  destruct (jwt_header_ok (m_algorithm j)) as [Hph Halg]. cbn [fst]. unfold setSignatureVerified, setRevoked.
  cbn [m_claims m_revoked m_signatureVerified].
  destruct (checkToken (json_writeString claims) (m_cache j)).
  - rewrite Hout, Hval. by eexists _, _.
  - rewrite Hph, Halg. cbn [negb]. rewrite Hcheck.
    destruct (cache_add_ends (m_cache j) (json_writeString claims) Hcache Hsize) as (c & -> & _).
    cbn [mbind outcome_bind]. cbv beta iota. cbn [m_claims m_revoked m_signatureVerified jwt_set_cache m_revocation].
    rewrite Hnr, Hval. by eexists _, _.
Qed.
End SignVerify.

(** ** The parameters can be instantiated

    JSON values as trees, printed as the bits of their code; signatures as
    checksums. *)
Fixpoint pos_bits (p : positive) : bytes :=
  match p with
  | xH => [49]
  | xO p => 48 :: pos_bits p
  | xI p => 49 :: pos_bits p
  end.

Fixpoint bits_pos (l : bytes) : option positive :=
  match l with
  | [] => None
  | [b] => Some xH
  | b :: l => (if b =? 48 then xO else xI) <$> bits_pos l
  end.

Lemma bits_pos_bits p : bits_pos (pos_bits p) = Some p.
Proof.
  induction p as [p IH|p IH|]; [..|done]; cbn [pos_bits bits_pos]; destruct (pos_bits p) eqn:E;
    [by destruct p|by rewrite IH|by destruct p|by rewrite IH].
Qed.

Lemma pos_bits_bytes p : Forall is_byte (pos_bits p).
Proof. induction p; cbn; constructor; done. Qed.

Definition tree_string (s : bytes) : gen_tree Z := GenNode 1 (GenLeaf <$> s).

Fixpoint leaves (l : list (gen_tree Z)) : bytes :=
  match l with
  | GenLeaf x :: l => x :: leaves l
  | _ => []
  end.

Lemma leaves_fmap s : leaves (GenLeaf <$> s) = s.
Proof. induction s as [|x s IH]; [done|]. cbn. by rewrite IH. Qed.

(** The members of an object: keys and values in turn. *)
Fixpoint tree_member (k : bytes) (l : list (gen_tree Z)) : option (gen_tree Z) :=
  match l with
  | k' :: v :: l => if decide (k' = tree_string k) then Some v else tree_member k l
  | _ => None
  end.

Definition tree_members (t : gen_tree Z) : list (gen_tree Z) := match t with GenNode 3 l => l | _ => [] end.

Definition tree_json : JsonCpp (gen_tree Z) := {|
  json_null := GenNode 0 [];
  json_string := tree_string;
  json_int64 z := GenNode 2 [GenLeaf z];
  json_set t k v := GenNode 3 (tree_string k :: v :: tree_members t);
  json_isNull t := match t with GenNode 0 _ => true | _ => false end;
  json_isObject t := match t with GenNode 3 _ => true | _ => false end;
  json_isString t := match t with GenNode 1 _ => true | _ => false end;
  json_isInt64 t := match t with GenNode 2 _ => true | _ => false end;
  json_isArray t := match t with GenNode 4 _ => true | _ => false end;
  json_isBool t := match t with GenNode 5 _ => true | _ => false end;
  json_asBool t := match t with GenNode 5 [] => false | GenNode 5 _ => true | _ => false end;
  json_has t k := has_value (tree_member k (tree_members t));
  json_get t k := default (GenNode 0 []) (tree_member k (tree_members t));
  json_asString t := match t with GenNode 1 l => leaves l | _ => [] end;
  json_asInt64 t := match t with GenNode 2 [GenLeaf z] => z | _ => 0 end;
  json_array := GenNode 4 [];
  json_append t v := match t with GenNode 4 l => GenNode 4 (l ++ [v]) | _ => GenNode 4 [v] end;
  json_elements t := match t with GenNode 4 l => l | _ => [] end;
  json_parse s := match p ← bits_pos s; decode p with Some t => (t, true) | None => (GenNode 0 [], false) end;
  json_writeString t := pos_bits (encode t) |}.

Definition tree_laws : JsonLaws (H := tree_json) (gen_tree Z).
Proof.
  refine (Build_JsonLaws _ tree_json (fun _ => True) _ _ _ _ _ _ _ _ _ _ _); cbn; try done.
  - intros t k v _. by rewrite decide_True.
  - intros t k v _. by rewrite decide_True.
  - apply leaves_fmap.
  - intros t _. rewrite bits_pos_bits. cbn. by rewrite decode_encode.
  - intros t. apply pos_bits_bytes.
Defined.

Definition checksum_size (n : HashType) : nat :=
  match n with NID_sha256 => 32 | NID_sha384 => 48 | NID_sha512 => 64 end.

Definition checksum (n : HashType) (k d : bytes) : bytes :=
  replicate (checksum_size n) (fold_right Z.add 0 (k ++ d) mod 256).

Definition checksum_ssl : OpenSSL := {|
  hmac := checksum;
  bio_new_mem_buf _ := true;
  evp_md_ctx_new := true;
  pem_private_ok k := match k with [] => false | _ => true end;
  pem_public_ok k := match k with [] => false | _ => true end;
  evp_sign n k d := Some (checksum n k d);
  evp_verify n k d s := bool_decide (s = checksum n k d) |}.

Lemma checksum_digest n k d : Forall is_byte (checksum n k d) /\ 0 < zlen (checksum n k d) <= 64.
Proof.
  split.
  - apply Forall_replicate. unfold is_byte. by apply Z.mod_pos_bound.
  - unfold checksum, zlen. rewrite length_replicate. by destruct n; cbn.
Qed.

Lemma checksum_memory : OpenSSLMemory (H := checksum_ssl).
Proof. by split. Qed.

Definition checksum_laws : OpenSSLLaws (H := checksum_ssl).
Proof.
  refine (Build_OpenSSLLaws checksum_ssl checksum_memory (fun priv pub => priv = pub /\ pub <> []) _ _ _); cbn.
  - apply checksum_digest.
  - by intros priv pub [-> Hp]; destruct pub.
  - intros n priv pub d [-> _]. eexists. destruct (checksum_digest n pub d).
    split_and!; [done|by apply bool_decide_eq_true|done|lia|lia].
Defined.

Section Examples.
#[local] Existing Instance tree_json.
#[local] Existing Instance tree_laws.
#[local] Existing Instance checksum_ssl.
#[local] Existing Instance checksum_memory.
#[local] Existing Instance checksum_laws.
#[local] Existing Instance reference_bio.
#[local] Existing Instance reference_bio_rfc.

(** An object with a key and a cache, and claims that expire at 100. *)
Definition example_jwt : JWT :=
  jwt_set_cache (setEnabled true (cache_set_max 4096 cache_new)) (setSharedSecret (bs "key") (jwt_new HS256)).
Definition example_claims : gen_tree Z := json_set json_null (bs "exp") (json_int64 100).

(** The same key without a cache: the object and the claims after the token was
    verified at time 5. *)
Definition plain_jwt : JWT := setSharedSecret (bs "key") (jwt_new HS256).
Definition plain_token : bytes := sign example_claims plain_jwt.
Definition plain_result : JWT * Token (gen_tree Z) :=
  match verify 5 plain_token token_new plain_jwt with Ret (j, t, _) => (j, t) | _ => (plain_jwt, token_new) end.

Definition plain_shared : Shared := mkShared plain_jwt [] [].


(** A token without claims, cached by its verification. *)
Definition null_token : bytes := sign (json_null : gen_tree Z) example_jwt.
Definition null_parts : bytes * bytes * bytes := default ([], [], []) (split_token null_token).
Definition null_result : JWT * Token (gen_tree Z) :=
  match verify 5 null_token token_new example_jwt with Ret (j, t, _) => (j, t) | _ => (example_jwt, token_new) end.

Lemma revoked_token_accepted_from_cache_witness :
  let signature := decodeFromBase64 null_parts.2 true in
  let j2 := jwt_set_revocation (addToRevocationList signature 100 (m_revocation null_result.1)) null_result.1 in
  isSignatureRevoked signature (m_revocation j2) = true /\
  exists t', verify 5 null_token token_new j2 = Ret (j2, t', true).
Proof.
  apply (revoked_token_accepted_from_cache 5 null_token null_parts.1.1 null_parts.1.2 null_parts.2
    token_new token_new null_result.2 example_jwt null_result.1 100).
  - reflexivity.
  - reflexivity.
  - vm_compute. reflexivity.
  - vm_compute. reflexivity.
  - vm_compute. reflexivity.
Defined.

Lemma sign_verify_witness :
  exists j' t, verify 5 (sign example_claims example_jwt) token_new example_jwt = Ret (j', t, true) /\
    m_claims t = example_claims.
Proof.
  apply (sign_verify example_jwt example_claims 5 token_new).
  - reflexivity.
  - discriminate.
  - eapply rtc_l; [by apply quiet_clear|]. eapply rtc_l; [by apply quiet_cache, (step_set_max _ 4096)|].
    eapply rtc_l; [apply quiet_cache, step_enable|]. apply rtc_refl.
  - exact I.
  - vm_compute. discriminate.
  - vm_compute. discriminate.
  - vm_compute. reflexivity.
  - vm_compute. reflexivity.
  - reflexivity.
  - vm_compute. reflexivity.
Defined.
End Examples.
