(* ===== verification/Threads.v ===== *)
(** * Structures shared between threads (Threads)

    The map that owns its elements ([SafeMap], safe_map.h with safe_mapitem), the
    bounded queues ([SafeQueue], safe_queue.h and safe_sharedqueue.h) and the
    thread pool ([Pool], threadpool.cpp).

    A section of code that holds the mutex is a function on the shared state; a
    wait on a condition variable ends the section, and what follows it is another
    one.  The system of threads is a step relation over these sections: which
    thread goes next, which queue a random choice takes and which waiter is woken
    are free, so a theorem about reachable states holds for every scheduling. *)

From S2P Require Import Prelude.
From Stdlib Require Import ZArith Lia.
From stdpp Require Import gmap.
#[local] Open Scope Z_scope.

(** ** The map *)
Module SafeMap.
Section SafeMap.
Context {K : Type} `{Countable K}.

(** An item is known by its address; [item] is a null pointer when [None]. *)
Record MapElement := mkMapElement {
  item : option Z;
  numReaders : Z }.

Abbreviation KeyValueMap := (gmap K MapElement).

Definition element_new : MapElement := mkMapElement None 0.

(** [operator[]] makes an element that is absent. *)
Definition element (k : K) (m : KeyValueMap) : MapElement := default element_new (m !! k).

Definition getKeys (m : KeyValueMap) : gset K := dom m.
Definition isMember (k : K) (m : KeyValueMap) : bool := has_value (m !! k).

Definition addElement (k : K) (e : option Z) (m : KeyValueMap) : KeyValueMap * bool :=
  match m !! k with
  | None => (<[k := mkMapElement e 0]> m, true)
  | Some _ => (m, false)
  end.

Definition openElement (k : K) (m : KeyValueMap) : KeyValueMap * option Z :=
  match m !! k with
  | Some (mkMapElement (Some p) n) => (<[k := mkMapElement (Some p) (wrapw 32 (n + 1))]> m, Some p)
  | _ => (m, None)
  end.

(** The map, the answer, and whether [noReadersCondition] is notified. *)
Definition releaseElement (k : K) (m : KeyValueMap) : outcome (KeyValueMap * bool * bool) :=
  match m !! k with
  | None => Ret (m, false, false)
  | Some (mkMapElement i n) =>
      if n =? 0 then Throw (runtime_error "Invalid close on Mutex MAP")
      else Ret (<[k := mkMapElement i (wrapw 32 (n - 1))]> m, true, wrapw 32 (n - 1) =? 0)
  end.

(** How a section of [destroyElement] ends: with [return false], in the wait, or
    having deleted the item. *)
Inductive DestroyStatus := NotDestroyed | WaitReaders (p : Z) | Destroyed (p : Z).

(** From the test of [numReaders] on. *)
Definition destroy_test (k : K) (p : Z) (m : KeyValueMap) : KeyValueMap * DestroyStatus :=
  if numReaders (element k m) =? 0 then (delete k m, Destroyed p)
  else (<[k := element k m]> m, WaitReaders p).

Definition destroyElement (k : K) (m : KeyValueMap) : KeyValueMap * DestroyStatus :=
  match m !! k with
  | Some (mkMapElement (Some p) n) => destroy_test k p (<[k := mkMapElement None n]> m)
  | _ => (m, NotDestroyed)
  end.

(** [destroyElement] when no other thread runs: a wait that nobody ends goes
    round for ever. *)
Fixpoint destroy_alone_loop (fuel : nat) (k : K) (p : Z) (m : KeyValueMap) : outcome (KeyValueMap * option Z) :=
  match fuel with
  | O => NoFuel
  | S fuel =>
      match destroy_test k p m with
      | (m, Destroyed p) => Ret (m, Some p)
      | (m, _) => destroy_alone_loop fuel k p m
      end
  end.

Definition destroy_alone (fuel : nat) (k : K) (m : KeyValueMap) : outcome (KeyValueMap * option Z) :=
  match destroyElement k m with
  | (m, NotDestroyed) => Ret (m, None)
  | (m, Destroyed p) => Ret (m, Some p)
  | (m, WaitReaders p) => destroy_alone_loop fuel k p m
  end.

(** *** The threads

    [handles]: what readers hold, a pointer that [openElement] gave for a key.
    [destroyers]: the thread in the wait of [destroyElement] for a key, with its
    item and whether it was notified.  [deleted]: the items that were deleted, in
    order; [added]: every item that was ever given to [addElement]. *)
Record MapSystem := mkMapSystem {
  shared : KeyValueMap;
  handles : list (K * Z);
  destroyers : gmap K (Z * bool);
  added : gset Z;
  deleted : list Z }.

Definition map_system_new : MapSystem := mkMapSystem ∅ [] ∅ ∅ [].

(** [notify_one] on the condition of a key. *)
Definition notify (k : K) (d : gmap K (Z * bool)) : gmap K (Z * bool) :=
  alter (fun e => (e.1, true)) k d.

Definition after_destroy (k : K) (r : KeyValueMap * DestroyStatus) (s : MapSystem) : MapSystem :=
  match r with
  | (m, NotDestroyed) => mkMapSystem m (handles s) (destroyers s) (added s) (deleted s)
  | (m, WaitReaders p) => mkMapSystem m (handles s) (<[k := (p, false)]> (destroyers s)) (added s) (deleted s)
  | (m, Destroyed p) => mkMapSystem m (handles s) (delete k (destroyers s)) (added s) (deleted s ++ [p])
  end.

(** A client adds an object of its own, opens, and releases what it opened once. *)
Inductive map_step (s : MapSystem) : MapSystem -> Prop :=
| step_add k p m' added_ok :
    p ∉ added s -> addElement k (Some p) (shared s) = (m', added_ok) ->
    map_step s (mkMapSystem m' (handles s) (destroyers s) (if added_ok then {[p]} ∪ added s else added s) (deleted s))
| step_open k m' r :
    Z.of_nat (length (handles s)) + 1 < 4294967296 -> openElement k (shared s) = (m', r) ->
    map_step s (mkMapSystem m' (match r with Some p => (k, p) :: handles s | None => handles s end)
              (destroyers s) (added s) (deleted s))
| step_release k p h1 h2 m' released wake :
    handles s = h1 ++ (k, p) :: h2 -> releaseElement k (shared s) = Ret (m', released, wake) ->
    map_step s (mkMapSystem m' (h1 ++ h2) (if wake then notify k (destroyers s) else destroyers s) (added s) (deleted s))
| step_destroy k :
    map_step s (after_destroy k (destroyElement k (shared s)) s)
| step_resume k p woken :
    destroyers s !! k = Some (p, woken) ->
    map_step s (after_destroy k (destroy_test k p (shared s)) s).

(** *** No item is deleted under a reader *)

Definition readers (k : K) (h : list (K * Z)) : list (K * Z) := filter (fun x => x.1 = k) h.

(** The item a key stands for: the one in the map, or the one being destroyed. *)
Definition owner (s : MapSystem) (k : K) : option Z :=
  match item (element k (shared s)) with
  | Some p => Some p
  | None => fst <$> destroyers s !! k
  end.

Record map_ok (s : MapSystem) : Prop := {
  ok_count k : Z.of_nat (length (readers k (handles s))) = numReaders (element k (shared s));
  ok_small : Z.of_nat (length (handles s)) < 4294967296;
  ok_handles k p : (k, p) ∈ handles s -> owner s k = Some p;
  ok_excl k p : item (element k (shared s)) = Some p -> destroyers s !! k = None;
  ok_dom k e : destroyers s !! k = Some e -> is_Some (shared s !! k);
  ok_asleep k p : destroyers s !! k = Some (p, false) -> numReaders (element k (shared s)) <> 0;
  ok_inj k k' p : owner s k = Some p -> owner s k' = Some p -> k = k';
  ok_fresh k p : owner s k = Some p -> p ∈ added s /\ p ∉ deleted s;
  ok_deleted : NoDup (deleted s) /\ forall p, p ∈ deleted s -> p ∈ added s }.

Lemma element_insert k e m k' : element k' (<[k := e]> m) = if decide (k = k') then e else element k' m.
Proof. unfold element. by rewrite lookup_insert; destruct (decide (k = k')). Qed.

Lemma element_delete k m k' : element k' (delete k m) = if decide (k = k') then element_new else element k' m.
Proof. unfold element. by rewrite lookup_delete; destruct (decide (k = k')). Qed.

Lemma element_some k e m : m !! k = Some e -> element k m = e.
Proof. unfold element. by intros ->. Qed.

Lemma readers_bound k h : (length (readers k h) <= length h)%nat.
Proof. apply length_filter. Qed.

Lemma map_ok_new : map_ok map_system_new.
Proof.
  split; cbn; unfold owner, element, map_system_new; cbn; intros; rewrite ?lookup_empty in *; cbn in *; rewrite ?lookup_empty in *; try done.
  - by apply not_elem_of_nil in H0.
  - split; [constructor|]. by intros p []%not_elem_of_nil.
Qed.

Lemma ok_add s k p m' b :
  map_ok s -> p ∉ added s -> addElement k (Some p) (shared s) = (m', b) ->
  map_ok (mkMapSystem m' (handles s) (destroyers s) (if b then {[p]} ∪ added s else added s) (deleted s)).
Proof.
  intros Hok Hp. unfold addElement. destruct (shared s !! k) as [e|] eqn:E; intros [= <- <-]; [by destruct s|].
  assert (element k (shared s) = element_new) as Hel by by unfold element; rewrite E.
  assert (destroyers s !! k = None) as Hd.
  { destruct (destroyers s !! k) eqn:Ed; [|done]. apply (ok_dom s Hok) in Ed as [? ?]. congruence. }
  assert (forall k' q, owner (mkMapSystem (<[k := mkMapElement (Some p) 0]> (shared s)) (handles s) (destroyers s)
    ({[p]} ∪ added s) (deleted s)) k' = Some q -> k' = k /\ q = p \/ k' <> k /\ owner s k' = Some q) as Ho.
  { intros k' q. unfold owner. cbn [shared destroyers]. rewrite element_insert. destruct (decide (k = k')) as [->|Hne]; cbn.
    - intros [= ->]. by left.
    - right. split; congruence. }
  assert (forall k' q, owner s k' = Some q -> q <> p) as Hne.
  { intros k' q Hq ->. by apply (ok_fresh s Hok) in Hq as [? _]. }
  split; cbn [shared handles destroyers added deleted].
  - intros k'. rewrite element_insert, (ok_count s Hok). by destruct (decide (k = k')) as [<-|]; [rewrite Hel|].
  - apply Hok.
  - intros k' q Hq%(ok_handles s Hok). unfold owner in *. cbn [shared destroyers]. rewrite element_insert.
    destruct (decide (k = k')) as [<-|]; [|done]. rewrite Hel, Hd in Hq. done.
  - intros k' q. rewrite element_insert. destruct (decide (k = k')) as [<-|]; [done|]. apply (ok_excl s Hok).
  - intros k' e He%(ok_dom s Hok). destruct (decide (k = k')) as [<-|]; [by rewrite lookup_insert_eq|].
    by rewrite lookup_insert_ne.
  - intros k' q Hq. rewrite element_insert. destruct (decide (k = k')) as [<-|]; [congruence|]. by apply (ok_asleep s Hok) in Hq.
  - intros k1 k2 q [[-> ->]|[? H1]]%Ho [[-> E2]|[? H2]]%Ho; try done.
    + by destruct (Hne _ _ H2).
    + subst. by destruct (Hne _ _ H1).
    + by apply (ok_inj s Hok) with q.
  - intros k' q [[-> ->]|[? Hq]]%Ho.
    + split; [set_solver|]. intros Hin%(proj2 (ok_deleted s Hok)). done.
    + apply (ok_fresh s Hok) in Hq. set_solver.
  - destruct (ok_deleted s Hok) as [Hn Hd']. split; [done|]. set_solver.
Qed.

(** A map_step that keeps the owners and the log only has to account for readers. *)
Lemma ok_same_owner s s' :
  map_ok s -> (forall k, owner s' k = owner s k) -> added s' = added s -> deleted s' = deleted s ->
  (forall k, Z.of_nat (length (readers k (handles s'))) = numReaders (element k (shared s'))) ->
  Z.of_nat (length (handles s')) < 4294967296 ->
  (forall k p, (k, p) ∈ handles s' -> owner s k = Some p) ->
  (forall k p, item (element k (shared s')) = Some p -> destroyers s' !! k = None) ->
  (forall k e, destroyers s' !! k = Some e -> is_Some (shared s' !! k)) ->
  (forall k p, destroyers s' !! k = Some (p, false) -> numReaders (element k (shared s')) <> 0) ->
  map_ok s'.
Proof.
  intros Hok Ho Ha Hd ??????. split; try done.
  - intros k p. rewrite Ho. auto.
  - intros k k' p. rewrite !Ho. apply (ok_inj s Hok).
  - intros k p. rewrite Ho, Ha, Hd. apply (ok_fresh s Hok).
  - rewrite Ha, Hd. apply (ok_deleted s Hok).
Qed.

Lemma wrap32_small n : 0 <= n < 4294967296 -> wrapw 32 n = n.
Proof. intros. by apply Z.mod_small. Qed.

Lemma ok_readers_bound s k :
  map_ok s -> 0 <= numReaders (element k (shared s)) <= Z.of_nat (length (handles s)).
Proof. intros Hok. rewrite <- (ok_count s Hok k). pose proof (readers_bound k (handles s)). lia. Qed.

Lemma readers_cons k x h : readers k (x :: h) = if decide (x.1 = k) then x :: readers k h else readers k h.
Proof. unfold readers. by rewrite filter_cons. Qed.

Lemma ok_open s k m' r :
  map_ok s -> Z.of_nat (length (handles s)) + 1 < 4294967296 -> openElement k (shared s) = (m', r) ->
  map_ok (mkMapSystem m' (match r with Some p => (k, p) :: handles s | None => handles s end)
        (destroyers s) (added s) (deleted s)).
Proof.
  intros Hok Hs. unfold openElement. destruct (shared s !! k) as [[[p|] n]|] eqn:E; intros [= <- <-]; try by destruct s.
  pose proof (element_some k _ _ E) as Hel. pose proof (ok_readers_bound s k Hok) as Hb. rewrite Hel in Hb. cbn in Hb.
  apply (ok_same_owner s); cbn [shared handles destroyers added deleted]; try done.
  - intros k'. unfold owner. cbn [shared destroyers]. rewrite element_insert. destruct (decide (k = k')) as [<-|]; [|done].
    by rewrite Hel.
  - intros k'. rewrite element_insert, readers_cons. cbn [fst]. pose proof (ok_count s Hok k') as Hc.
    destruct (decide (k = k')) as [<-|]; [|done]. rewrite Hel in Hc. cbn [numReaders] in *.
    rewrite wrap32_small by lia. cbn [length]. lia.
  - cbn [length]. lia.
  - intros k' q [[= -> ->]|Hq]%elem_of_cons; [|by apply (ok_handles s Hok)]. unfold owner. by rewrite Hel.
  - intros k' q. rewrite element_insert. destruct (decide (k = k')) as [<-|]; [|apply (ok_excl s Hok)].
    cbn. intros [= ->]. apply (ok_excl s Hok k q). by rewrite Hel.
  - intros k' e He%(ok_dom s Hok). by apply lookup_insert_is_Some'; right.
  - intros k' q Hq. rewrite element_insert. destruct (decide (k = k')) as [<-|]; [|by apply (ok_asleep s Hok) in Hq].
    pose proof (ok_excl s Hok k p) as Hx. rewrite Hel in Hx. rewrite (Hx eq_refl) in Hq. done.
Qed.

Lemma owner_notify s m k h a d k' :
  item (element k' m) = item (element k' (shared s)) ->
  owner (mkMapSystem m h (notify k (destroyers s)) a d) k' = owner s k'.
Proof.
  intros Hi. unfold owner, notify. cbn [shared destroyers]. rewrite Hi. destruct (item (element k' (shared s))) as [q|]; [reflexivity|].
  destruct (decide (k = k')) as [<-|]; [|by rewrite lookup_alter_ne]. rewrite lookup_alter_eq.
  by destruct (destroyers s !! k).
Qed.

Lemma ok_release s k p h1 h2 m' b wake :
  map_ok s -> handles s = h1 ++ (k, p) :: h2 -> releaseElement k (shared s) = Ret (m', b, wake) ->
  map_ok (mkMapSystem m' (h1 ++ h2) (if wake then notify k (destroyers s) else destroyers s) (added s) (deleted s)).
Proof.
  intros Hok Hh. pose proof (ok_count s Hok k) as Hck. pose proof (ok_readers_bound s k Hok) as Hb.
  assert (length (readers k (handles s)) = S (length (readers k (h1 ++ h2)))) as Hlen.
  { rewrite Hh. unfold readers. rewrite !filter_app, filter_cons_True by done. rewrite !length_app. cbn. lia. }
  assert (forall k', k' <> k -> readers k' (handles s) = readers k' (h1 ++ h2)) as Hoth.
  { intros k' Hne. rewrite Hh. unfold readers. rewrite !filter_app, filter_cons_False; [done|]. cbn. congruence. }
  pose proof (ok_small s Hok) as Hsm. pose proof Hsm as Hsm'. rewrite Hh, length_app in Hsm'. cbn [length] in Hsm'.
  unfold releaseElement. destruct (shared s !! k) as [[i n]|] eqn:E.
  2: { unfold element in Hck. rewrite E in Hck. cbn in Hck. lia. }
  pose proof (element_some k _ _ E) as Hel. rewrite Hel in Hck, Hb. cbn [numReaders] in *.
  destruct (Z.eqb_spec n 0); [done|]. rewrite wrap32_small by lia. intros [= <- <- <-].
  assert (forall k', item (element k' (<[k := mkMapElement i (n - 1)]> (shared s))) = item (element k' (shared s))) as Hit.
  { intros k'. rewrite element_insert. destruct (decide (k = k')) as [<-|]; [by rewrite Hel|done]. }
  apply (ok_same_owner s); cbn [shared handles destroyers added deleted]; try done.
  - intros k'. destruct (n - 1 =? 0); [by apply owner_notify|]. unfold owner. cbn [shared destroyers]. by rewrite Hit.
  - intros k'. rewrite element_insert. destruct (decide (k = k')) as [<-|Hne]; cbn; [lia|].
    rewrite <- Hoth by congruence. apply (ok_count s Hok).
  - rewrite length_app. lia.
  - intros k' q Hq. apply (ok_handles s Hok). rewrite Hh. set_solver.
  - intros k' q. rewrite Hit. intros Hq%(ok_excl s Hok). destruct (n - 1 =? 0); [|done]. unfold notify.
    destruct (decide (k = k')) as [<-|]; [by rewrite lookup_alter_eq, Hq|by rewrite lookup_alter_ne].
  - intros k' e He. apply lookup_insert_is_Some'. destruct (decide (k = k')) as [<-|Hne]; [by left|right].
    destruct (n - 1 =? 0); [|by apply (ok_dom s Hok) in He]. unfold notify in He. rewrite lookup_alter_ne in He by done.
    by apply (ok_dom s Hok) in He.
  - intros k' q Hq. rewrite element_insert. destruct (decide (k = k')) as [<-|Hne].
    + cbn. destruct (Z.eqb_spec (n - 1) 0); [|done]. unfold notify in Hq. rewrite lookup_alter_eq in Hq.
      by destruct (destroyers s !! k).
    + destruct (n - 1 =? 0); [unfold notify in Hq; rewrite lookup_alter_ne in Hq by done|];
        by apply (ok_asleep s Hok) in Hq.
Qed.

Lemma readers_none k p s : map_ok s -> numReaders (element k (shared s)) = 0 -> (k, p) ∉ handles s.
Proof.
  intros Hok Hn Hin. pose proof (ok_count s Hok k) as Hc. rewrite Hn in Hc.
  assert ((k, p) ∈ readers k (handles s)) as Hr by by apply list_elem_of_filter.
  destruct (readers k (handles s)); [by apply not_elem_of_nil in Hr|]. cbn in Hc. lia.
Qed.

(** The map while the item of [k] is being destroyed: the pointer is gone, the
    readers stay. *)
Record closing (k : K) (m m' : KeyValueMap) : Prop := {
  closing_here : m' !! k = Some (mkMapElement None (numReaders (element k m)));
  closing_other k' : k' <> k -> m' !! k' = m !! k' }.

Lemma closing_element k m m' k' :
  closing k m m' ->
  element k' m' = if decide (k = k') then mkMapElement None (numReaders (element k m)) else element k' m.
Proof.
  intros [Hh Ho]. unfold element. destruct (decide (k = k')) as [<-|Hne]; [by rewrite Hh|]. by rewrite Ho.
Qed.

Lemma ok_wait s k p m :
  map_ok s -> owner s k = Some p -> closing k (shared s) m -> numReaders (element k (shared s)) <> 0 ->
  map_ok (mkMapSystem m (handles s) (<[k := (p, false)]> (destroyers s)) (added s) (deleted s)).
Proof.
  intros Hok Hp Hm Hn. pose proof (fun k' => closing_element k (shared s) m k' Hm) as Hel.
  apply (ok_same_owner s); cbn [shared handles destroyers added deleted]; try done.
  - intros k'. unfold owner. cbn [shared destroyers]. rewrite Hel. destruct (decide (k = k')) as [<-|Hne]; cbn.
    + by rewrite lookup_insert_eq.
    + by rewrite lookup_insert_ne.
  - intros k'. rewrite Hel. destruct (decide (k = k')) as [<-|]; apply (ok_count s Hok).
  - apply Hok.
  - apply Hok.
  - intros k' q. rewrite Hel. destruct (decide (k = k')) as [<-|]; [done|]. rewrite lookup_insert_ne by done. apply (ok_excl s Hok).
  - intros k' e. destruct (decide (k = k')) as [<-|]; [intros _; rewrite (closing_here k _ m Hm); by eexists|].
    rewrite lookup_insert_ne, (closing_other k _ m Hm) by congruence. apply (ok_dom s Hok).
  - intros k' q. rewrite Hel. destruct (decide (k = k')) as [<-|]; [done|]. rewrite lookup_insert_ne by done. apply (ok_asleep s Hok).
Qed.

Lemma ok_destroyed s k p m :
  map_ok s -> owner s k = Some p -> closing k (shared s) m -> numReaders (element k (shared s)) = 0 ->
  map_ok (mkMapSystem (delete k m) (handles s) (delete k (destroyers s)) (added s) (deleted s ++ [p])).
Proof.
  intros Hok Hp Hm Hn.
  assert (forall k', element k' (delete k m) = if decide (k = k') then element_new else element k' (shared s)) as Hel.
  { intros k'. rewrite element_delete, (closing_element k (shared s)) by done. by destruct (decide (k = k')). }
  assert (forall k' q, owner (mkMapSystem (delete k m) (handles s) (delete k (destroyers s)) (added s) (deleted s ++ [p])) k' = Some q
      <-> k' <> k /\ owner s k' = Some q) as Ho.
  { intros k' q. unfold owner. cbn [shared destroyers]. rewrite Hel. destruct (decide (k = k')) as [<-|Hne].
    - cbn. rewrite lookup_delete_eq. naive_solver.
    - rewrite lookup_delete_ne by done. naive_solver. }
  split; try setoid_rewrite Ho; cbn [shared handles destroyers added deleted].
  - intros k'. rewrite Hel. pose proof (ok_count s Hok k') as Hc. destruct (decide (k = k')) as [<-|]; [|done]. by rewrite Hn in Hc.
  - apply Hok.
  - intros k' q Hq. split; [|by apply (ok_handles s Hok)]. intros ->. by apply (readers_none k q s Hok Hn).
  - intros k' q. rewrite Hel. destruct (decide (k = k')) as [<-|]; [done|]. rewrite lookup_delete_ne by done. apply (ok_excl s Hok).
  - intros k' e. destruct (decide (k = k')) as [<-|]; [by rewrite lookup_delete_eq|].
    rewrite !lookup_delete_ne, (closing_other k _ m Hm) by congruence. apply (ok_dom s Hok).
  - intros k' q. rewrite Hel. destruct (decide (k = k')) as [<-|]; [by rewrite lookup_delete_eq|].
    rewrite lookup_delete_ne by done. apply (ok_asleep s Hok).
  - intros k1 k2 q [_ H1] [_ H2]. by apply (ok_inj s Hok) with q.
  - intros k' q [Hne Hq]. destruct (ok_fresh s Hok k' q Hq) as [Ha Hd]. split; [done|].
    rewrite elem_of_app, list_elem_of_singleton. intros [?| ->]; [done|]. apply Hne. by apply (ok_inj s Hok) with p.
  - destruct (ok_deleted s Hok) as [Hnd Hsub], (ok_fresh s Hok k p Hp) as [Ha Hd]. split.
    + apply NoDup_app. split_and!; [done| |apply NoDup_singleton]. by intros q Hq ->%list_elem_of_singleton.
    + intros q [Hq| ->%list_elem_of_singleton]%elem_of_app; auto.
Qed.

Lemma ok_destroy_test s k p m :
  map_ok s -> owner s k = Some p -> closing k (shared s) m -> map_ok (after_destroy k (destroy_test k p m) s).
Proof.
  intros Hok Hp Hm. unfold destroy_test, after_destroy. pose proof (closing_element k (shared s) m k Hm) as Hel.
  rewrite decide_True in Hel by done. rewrite Hel. cbn [numReaders]. destruct (Z.eqb_spec (numReaders (element k (shared s))) 0).
  - by apply ok_destroyed.
  - rewrite insert_id by apply Hm. by apply ok_wait.
Qed.

Lemma map_ok_step s s' : map_ok s -> map_step s s' -> map_ok s'.
Proof.
  intros Hok [k p m' b Hp Ha|k m' r Hs Ho|k p h1 h2 m' b w Hh Hr|k|k p w Hd].
  - by apply (ok_add s k p).
  - by apply (ok_open s k).
  - by apply (ok_release s k p h1 h2 m' b w).
  - unfold destroyElement. destruct (shared s !! k) as [[[p|] n]|] eqn:E; [|by destruct s..].
    pose proof (element_some k _ _ E) as Hel. apply ok_destroy_test; [done|unfold owner; by rewrite Hel|].
    split; [by rewrite lookup_insert_eq, Hel|]. intros k' Hne. by rewrite lookup_insert_ne by congruence.
  - destruct (ok_dom s Hok _ _ Hd) as [[[q|] n] E]; pose proof (element_some k _ _ E) as Hel.
    + pose proof (ok_excl s Hok k q) as Hx. rewrite Hel in Hx. rewrite (Hx eq_refl) in Hd. done.
    + apply ok_destroy_test; [done|unfold owner; by rewrite Hel, Hd|]. split; [by rewrite E, Hel|done].
Qed.

Lemma map_ok_reachable s : rtc map_step map_system_new s -> map_ok s.
Proof.
  intros Hr. remember map_system_new as s0 eqn:E. assert (map_ok s0) as H0 by (subst; apply map_ok_new). clear E.
  induction Hr as [|s0 s1 s2 Hs _ IH]; [done|]. apply IH. by eapply map_ok_step.
Qed.

(** C28. The map that owns its elements, under every scheduling of threads that
    add, open, release and destroy: an item that a reader holds has not been
    deleted; no item is deleted twice; [releaseElement] of a handle never throws;
    and a thread that sleeps in [destroyElement] (with no notification on its way)
    waits for a reader that still holds that very item. *)
Theorem map_reader_safe (s : MapSystem) :
  rtc map_step map_system_new s ->
  (forall k p, (k, p) ∈ handles s -> p ∉ deleted s) /\ NoDup (deleted s) /\
  (forall k p, (k, p) ∈ handles s -> exists m wake, releaseElement k (shared s) = Ret (m, true, wake)) /\
  (forall k p, destroyers s !! k = Some (p, false) -> (k, p) ∈ handles s).
Proof.
  intros Hok%map_ok_reachable. split_and!.
  - intros k p Hp%(ok_handles s Hok). by apply (ok_fresh s Hok) in Hp as [_ ?].
  - apply (ok_deleted s Hok).
  - intros k p Hp. unfold releaseElement. destruct (Z.eq_dec (numReaders (element k (shared s))) 0) as [H0|H0].
    + by destruct (readers_none k p s Hok H0).
    + destruct (shared s !! k) as [[i n]|] eqn:E; unfold element in H0; rewrite E in H0; [|done]. cbn in H0.
      destruct (Z.eqb_spec n 0); [done|]. by eexists _, _.
  - intros k p Hd. pose proof (ok_asleep s Hok k p Hd) as Hn. pose proof (ok_count s Hok k) as Hc.
    destruct (readers k (handles s)) as [|[k' q] l] eqn:E; [cbn in Hc; lia|].
    assert ((k', q) ∈ readers k (handles s)) as [Hk Hin]%list_elem_of_filter by (rewrite E; set_solver). cbn in Hk. subst k'.
    pose proof (ok_handles s Hok k q Hin) as Ho. unfold owner in Ho.
    destruct (item (element k (shared s))) as [x|] eqn:Ei; [by rewrite (ok_excl s Hok k x Ei) in Hd|].
    rewrite Hd in Ho. cbn in Ho. by simplify_eq.
Qed.
End SafeMap.
Arguments MapSystem K {_ _}.

(** A reader opens the item 7, another thread destroys it and sleeps. *)
Definition sleeping_system : MapSystem Z :=
  mkMapSystem (K := Z) {[ 1 := mkMapElement None 1 ]} [(1, 7)] {[ 1 := (7, false) ]} {[7]} [].

Lemma map_reader_safe_witness :
  (forall k p, (k, p) ∈ handles sleeping_system -> p ∉ deleted sleeping_system) /\ NoDup (deleted sleeping_system) /\
  (forall k p, (k, p) ∈ handles sleeping_system ->
     exists m wake, releaseElement k (shared sleeping_system) = Ret (m, true, wake)) /\
  (forall k p, destroyers sleeping_system !! k = Some (p, false) -> (k, p) ∈ handles sleeping_system).
Proof.
  apply (map_reader_safe (K := Z) sleeping_system).
  eapply rtc_l; [eapply (step_add map_system_new 1 7); [set_solver|reflexivity]|].
  eapply rtc_l; [eapply (step_open _ 1); reflexivity|]. eapply rtc_l; [apply (step_destroy _ 1)|]. apply rtc_refl.
Defined.
End SafeMap.

(** ** The queues *)
Module SafeQueue.
Section SafeQueue.
Context {T : Type}.

Record Queue := mkQueue { m_queue : list T; m_maxItems : Z }.

Definition queue_new : Queue := mkQueue [] SIZE_MAX.
Definition setMaxItems (n : Z) (q : Queue) : Queue := mkQueue (m_queue q) n.

(** The section of [push] from the test of the size on; [None] is the wait, or
    the return of [false]. *)
Definition push (x : T) (q : Queue) : option Queue :=
  if zlen (m_queue q) >=? m_maxItems q then None else Some (mkQueue (m_queue q ++ [x]) (m_maxItems q)).

(** The section of [pop]. *)
Definition pop (q : Queue) : option (T * Queue) :=
  match m_queue q with
  | [] => None
  | x :: l => Some (x, mkQueue l (m_maxItems q))
  end.

(** The threads: the items whose [push] succeeded and those [pop] returned, in
    order, and the largest limit so far.  A wait that is woken tries its section
    again; a wait that times out and a call without a timeout change nothing. *)
Record QueueSystem := mkQueueSystem {
  queue : Queue;
  pushers : list T;
  pushed : list T;
  popped : list T;
  largest : Z }.

Definition queue_system_new : QueueSystem := mkQueueSystem queue_new [] [] [] SIZE_MAX.

Inductive queue_step (s : QueueSystem) : QueueSystem -> Prop :=
| step_push x q : push x (queue s) = Some q -> queue_step s (mkQueueSystem q (pushers s) (pushed s ++ [x]) (popped s) (largest s))
| step_push_wait x : push x (queue s) = None -> queue_step s (mkQueueSystem (queue s) (pushers s ++ [x]) (pushed s) (popped s) (largest s))
| step_push_resume x l1 l2 q :
    pushers s = l1 ++ x :: l2 -> push x (queue s) = Some q ->
    queue_step s (mkQueueSystem q (l1 ++ l2) (pushed s ++ [x]) (popped s) (largest s))
| step_push_timeout x l1 l2 :
    pushers s = l1 ++ x :: l2 -> queue_step s (mkQueueSystem (queue s) (l1 ++ l2) (pushed s) (popped s) (largest s))
| step_pop x q : pop (queue s) = Some (x, q) -> queue_step s (mkQueueSystem q (pushers s) (pushed s) (popped s ++ [x]) (largest s))
| step_set_max n : queue_step s (mkQueueSystem (setMaxItems n (queue s)) (pushers s) (pushed s) (popped s) (Z.max n (largest s))).

Definition queue_ok (s : QueueSystem) : Prop :=
  pushed s = popped s ++ m_queue (queue s) /\ zlen (m_queue (queue s)) <= largest s /\ m_maxItems (queue s) <= largest s.

Lemma push_spec x q q' :
  push x q = Some q' -> m_queue q' = m_queue q ++ [x] /\ m_maxItems q' = m_maxItems q /\ zlen (m_queue q') <= m_maxItems q.
Proof.
  unfold push. destruct (Z.geb_spec (zlen (m_queue q)) (m_maxItems q)) as [|Hlt]; [done|]. intros [= <-]. split_and!; [done..|].
  cbn. rewrite zlen_app, zlen_cons, zlen_nil. lia.
Qed.

Lemma queue_ok_step s s' : queue_ok s -> queue_step s s' -> queue_ok s'.
Proof.
  intros (Hf & Hl & Hm) Hs. unfold queue_ok. destruct Hs as [x q Hp|x Hp|x l1 l2 q _ Hp|x l1 l2 _|x q Hp|n]; cbn; try done.
  - apply push_spec in Hp as (-> & -> & ?). rewrite Hf, app_assoc. split_and!; [done|lia..].
  - apply push_spec in Hp as (-> & -> & ?). rewrite Hf, app_assoc. split_and!; [done|lia..].
  - unfold pop in Hp. destruct (m_queue (queue s)) as [|y l]; [done|]. injection Hp as <- <-. cbn.
    rewrite zlen_cons in Hl. rewrite Hf, <- app_assoc. split_and!; [done|lia|done].
  - split_and!; [done|lia..].
Qed.

(** The bounded queues, under every scheduling of threads that push (waiting
    while it is full, or giving up), pop and change the limit: what was popped is
    exactly what was pushed, in the same order and each item once, up to what is
    still queued; and the queue never holds more than the largest limit. *)
Theorem queue_fifo (s : QueueSystem) :
  rtc queue_step queue_system_new s ->
  pushed s = popped s ++ m_queue (queue s) /\ zlen (m_queue (queue s)) <= largest s.
Proof.
  intros Hr. remember queue_system_new as s0 eqn:E. assert (queue_ok s0) as H0 by by subst. clear E.
  induction Hr as [s|s0 s1 s2 Hs _ IH]; [by destruct H0 as (? & ? & _)|]. apply IH. by eapply queue_ok_step.
Qed.
End SafeQueue.
Arguments QueueSystem T : clear implicits.
Arguments Queue T : clear implicits.
End SafeQueue.

Lemma queue_fifo_witness :
  let s := SafeQueue.mkQueueSystem (SafeQueue.mkQueue [2] 1) [] [1; 2] [1] SIZE_MAX in
  SafeQueue.pushed s = SafeQueue.popped s ++ SafeQueue.m_queue (SafeQueue.queue s) /\
  zlen (SafeQueue.m_queue (SafeQueue.queue s)) <= SafeQueue.largest s.
Proof.
  apply (SafeQueue.queue_fifo (SafeQueue.mkQueueSystem (SafeQueue.mkQueue [2] 1) [] [1; 2] [1] SIZE_MAX)).
  eapply rtc_l; [apply (SafeQueue.step_set_max _ 1)|]. eapply rtc_l; [by eapply (SafeQueue.step_push _ 1)|].
  eapply rtc_l; [by apply (SafeQueue.step_push_wait _ 2)|]. eapply rtc_l; [by eapply SafeQueue.step_pop|].
  eapply rtc_l; [by eapply (SafeQueue.step_push_resume _ 2 [] [])|]. apply rtc_refl.
Defined.

(** ** The thread pool *)
Module Pool.
Section Pool.
Context {Task : Type} (isNull : Task -> bool).

Record ThreadPool := mkThreadPool {
  m_queues : list (list Task);
  m_terminate : bool;
  m_maxTasksPerQueue : Z }.

Definition tasks (i : nat) (p : ThreadPool) : list Task := default [] (m_queues p !! i).
Definition set_tasks (i : nat) (l : list Task) (p : ThreadPool) : ThreadPool :=
  mkThreadPool (<[i := l]> (m_queues p)) (m_terminate p) (m_maxTasksPerQueue p).

Definition pool_new (taskQueues : nat) : ThreadPool := mkThreadPool (replicate taskQueues []) false 100.

Definition stop (p : ThreadPool) : ThreadPool := mkThreadPool (m_queues p) true (m_maxTasksPerQueue p).
Definition setMaxTasksPerQueue (n : Z) (p : ThreadPool) : ThreadPool := mkThreadPool (m_queues p) (m_terminate p) n.

(** The first queue with elements in the shuffled order [fullVector]. *)
Definition getRandomTaskQueueWithElements (fullVector : list nat) (p : ThreadPool) : option nat :=
  List.find (fun i => match tasks i p with [] => false | _ => true end) fullVector.

(** [scaled] is the number of queues times the priority, [d] the drawn index. *)
Definition getRandomQueueByKey (fullVector : list nat) (scaled d : nat) (p : ThreadPool) : option nat :=
  let elements := if (scaled =? 0)%nat then 1%nat else scaled in
  let elements := if (length (m_queues p) <? elements)%nat then length (m_queues p) else elements in
  take elements fullVector !! d.

(** A section of [pushTask]: its answer, or the wait for a removed element. *)
Inductive PushStatus := Refused | WaitRemoved | Inserted (p : ThreadPool).

Definition push_test (i : nat) (t : Task) (p : ThreadPool) : PushStatus :=
  if zlen (tasks i p) >? m_maxTasksPerQueue p then WaitRemoved else Inserted (set_tasks i (tasks i p ++ [t]) p).

Definition pushTask (i : nat) (t : Task) (p : ThreadPool) : PushStatus :=
  if m_terminate p then Refused else push_test i t p.

(** A section of [popTask]: the task taken from a queue, the wait for an inserted
    element, or the null task. *)
Inductive PopStatus := Popped (i : nat) (t : Task) (p : ThreadPool) | WaitInserted | NullTask.

Definition pop_from (tq : option nat) (p : ThreadPool) : PopStatus :=
  match tq with
  | None => WaitInserted
  | Some i =>
      match tasks i p with
      | t :: l => Popped i t (set_tasks i l p)
      | [] => WaitInserted
      end
  end.

Definition popTask (fullVector : list nat) (p : ThreadPool) : PopStatus :=
  pop_from (getRandomTaskQueueWithElements fullVector p) p.

(** From the end of the wait on. *)
Definition popTask_resume (fullVector : list nat) (p : ThreadPool) : PopStatus :=
  match getRandomTaskQueueWithElements fullVector p with
  | None => if m_terminate p then NullTask else WaitInserted
  | Some i => pop_from (Some i) p
  end.

(** *** The threads

    A worker runs [taskProcessor]: it is about to call [popTask], sleeps in it, was
    notified, runs a task, or has left its loop (a null task ends it).  [blocked]
    are the threads that wait in [pushTask].  A notification is made after the
    mutex is released: [notify_one_left] and [notify_all_left] are the calls still
    to be made on [m_insertedElementCond].  [pushed] and [taken] are the tasks that
    entered and left each queue, in order. *)
Inductive Worker := Idle | Waiting | Notified | Running (t : Task) | Exited.

Record PoolSystem := mkPoolSystem {
  pool : ThreadPool;
  workers : list Worker;
  blocked : list (nat * Task);
  notify_one_left : nat;
  notify_all_left : nat;
  pushed : list (nat * Task);
  taken : list (nat * Task) }.

Definition pool_system_new (threadsCount taskQueues : nat) : PoolSystem :=
  mkPoolSystem (pool_new taskQueues) (replicate threadsCount Idle) [] 0 0 [] [].

Definition set_worker (w : nat) (x : Worker) (s : PoolSystem) : PoolSystem :=
  mkPoolSystem (pool s) (<[w := x]> (workers s)) (blocked s) (notify_one_left s) (notify_all_left s) (pushed s) (taken s).

Definition after_push (i : nat) (t : Task) (r : PushStatus) (s : PoolSystem) : PoolSystem :=
  match r with
  | Refused => s
  | WaitRemoved =>
      mkPoolSystem (pool s) (workers s) (blocked s ++ [(i, t)]) (notify_one_left s) (notify_all_left s) (pushed s) (taken s)
  | Inserted p =>
      mkPoolSystem p (workers s) (blocked s) (S (notify_one_left s)) (notify_all_left s) (pushed s ++ [(i, t)]) (taken s)
  end.

Definition after_pop (w : nat) (r : PopStatus) (s : PoolSystem) : PoolSystem :=
  match r with
  | Popped i t p =>
      mkPoolSystem p (<[w := if isNull t then Exited else Running t]> (workers s)) (blocked s) (notify_one_left s)
        (notify_all_left s) (pushed s) (taken s ++ [(i, t)])
  | WaitInserted => set_worker w Waiting s
  | NullTask => set_worker w Exited s
  end.

Definition unblock (l : list (nat * Task)) (s : PoolSystem) : PoolSystem :=
  mkPoolSystem (pool s) (workers s) l (notify_one_left s) (notify_all_left s) (pushed s) (taken s).

Definition wake (x : Worker) : Worker := match x with Waiting => Notified | _ => x end.

(** What the threads do of their own, until [stop] is called. *)
Inductive pool_step (s : PoolSystem) : PoolSystem -> Prop :=
| step_push i t :
    (i < length (m_queues (pool s)))%nat -> pool_step s (after_push i t (pushTask i t (pool s)) s)
| step_push_resume i t l1 l2 :
    blocked s = l1 ++ (i, t) :: l2 -> (i < length (m_queues (pool s)))%nat ->
    pool_step s (after_push i t (push_test i t (pool s)) (unblock (l1 ++ l2) s))
| step_push_timeout i t l1 l2 :
    blocked s = l1 ++ (i, t) :: l2 -> pool_step s (unblock (l1 ++ l2) s)
| step_pop w fullVector :
    workers s !! w = Some Idle -> Permutation fullVector (seq 0 (length (m_queues (pool s)))) ->
    pool_step s (after_pop w (popTask fullVector (pool s)) s)
| step_pop_resume w fullVector :
    workers s !! w = Some Notified -> Permutation fullVector (seq 0 (length (m_queues (pool s)))) ->
    pool_step s (after_pop w (popTask_resume fullVector (pool s)) s)
| step_done w t : workers s !! w = Some (Running t) -> pool_step s (set_worker w Idle s)
| step_notify_one w n :
    notify_one_left s = S n -> workers s !! w = Some Waiting ->
    pool_step s (mkPoolSystem (pool s) (<[w := Notified]> (workers s)) (blocked s) n (notify_all_left s) (pushed s) (taken s))
| step_notify_nobody n :
    notify_one_left s = S n -> Waiting ∉ workers s ->
    pool_step s (mkPoolSystem (pool s) (workers s) (blocked s) n (notify_all_left s) (pushed s) (taken s))
| step_notify_all n :
    notify_all_left s = S n ->
    pool_step s (mkPoolSystem (pool s) (map wake (workers s)) (blocked s) (notify_one_left s) n (pushed s) (taken s)).

(** [stop], a changed limit, and a wait that ends without a notification. *)
Inductive outer_step (s : PoolSystem) : PoolSystem -> Prop :=
| step_stop :
    outer_step s (mkPoolSystem (stop (pool s)) (workers s) (blocked s) (notify_one_left s) (S (notify_all_left s))
      (pushed s) (taken s))
| step_set_max n :
    outer_step s (mkPoolSystem (setMaxTasksPerQueue n (pool s)) (workers s) (blocked s) (notify_one_left s)
      (notify_all_left s) (pushed s) (taken s))
| step_spurious w :
    workers s !! w = Some Waiting -> outer_step s (set_worker w Notified s).

Definition any_step (s s' : PoolSystem) : Prop := pool_step s s' \/ outer_step s s'.

(** *** Every task once and in order *)

Definition of_queue (i : nat) (l : list (nat * Task)) : list Task := snd <$> filter (fun x => x.1 = i) l.

Lemma of_queue_app i l1 l2 : of_queue i (l1 ++ l2) = of_queue i l1 ++ of_queue i l2.
Proof. unfold of_queue. by rewrite filter_app, fmap_app. Qed.

Lemma of_queue_one i j t : of_queue i [(j, t)] = if decide (j = i) then [t] else [].
Proof. unfold of_queue. rewrite filter_cons. cbn. by destruct (decide (j = i)). Qed.

Lemma tasks_set i j l p :
  (i < length (m_queues p))%nat -> tasks j (set_tasks i l p) = if decide (i = j) then l else tasks j p.
Proof.
  intros Hi. unfold tasks, set_tasks. cbn. destruct (decide (i = j)) as [<-|]; [by rewrite list_lookup_insert_eq|].
  by rewrite list_lookup_insert_ne.
Qed.

Lemma tasks_bound i p t l : tasks i p = t :: l -> (i < length (m_queues p))%nat.
Proof. unfold tasks. intros Ht. apply lookup_lt_is_Some. by destruct (m_queues p !! i). Qed.

Lemma pop_from_spec tq p :
  match pop_from tq p with
  | Popped i t p' => exists l, tq = Some i /\ tasks i p = t :: l /\ p' = set_tasks i l p
  | _ => True
  end.
Proof. destruct tq as [i|]; cbn; [|done]. destruct (tasks i p) as [|t l] eqn:E; [done|]. by exists l. Qed.

Lemma popTask_resume_popped v p i t p' :
  popTask_resume v p = Popped i t p' -> exists l, tasks i p = t :: l /\ p' = set_tasks i l p.
Proof.
  unfold popTask_resume. destruct (getRandomTaskQueueWithElements v p) as [j|].
  - intros Hp. pose proof (pop_from_spec (Some j) p) as Hs. rewrite Hp in Hs. destruct Hs as (l & _ & ? & ?). by exists l.
  - by destruct (m_terminate p).
Qed.

Lemma popTask_popped v p i t p' :
  popTask v p = Popped i t p' -> exists l, tasks i p = t :: l /\ p' = set_tasks i l p.
Proof.
  unfold popTask. intros Hp. pose proof (pop_from_spec (getRandomTaskQueueWithElements v p) p) as Hs. rewrite Hp in Hs.
  destruct Hs as (l & _ & ? & ?). by exists l.
Qed.

Definition balanced (s : PoolSystem) : Prop :=
  forall i, of_queue i (pushed s) = of_queue i (taken s) ++ tasks i (pool s).

Lemma balanced_push s i t r :
  balanced s -> (i < length (m_queues (pool s)))%nat ->
  (r = Inserted (set_tasks i (tasks i (pool s) ++ [t]) (pool s)) \/ r = Refused \/ r = WaitRemoved) ->
  balanced (after_push i t r s).
Proof.
  intros Hb Hi [->|[->| ->]]; try done. intros j. cbn [after_push after_pop pushed taken pool]. rewrite of_queue_app, of_queue_one, Hb, tasks_set by done.
  destruct (decide (i = j)) as [<-|]; [by rewrite app_assoc|by rewrite app_nil_r].
Qed.

Lemma push_test_cases i t p :
  push_test i t p = WaitRemoved \/ push_test i t p = Inserted (set_tasks i (tasks i p ++ [t]) p).
Proof. unfold push_test. destruct (_ >? _); auto. Qed.

Lemma pushTask_cases i t p :
  pushTask i t p = Refused \/ pushTask i t p = WaitRemoved \/
  pushTask i t p = Inserted (set_tasks i (tasks i p ++ [t]) p) /\ m_terminate p = false.
Proof.
  unfold pushTask. destruct (m_terminate p); [by left|]. destruct (push_test_cases i t p) as [->| ->]; auto.
Qed.

Lemma balanced_pop s w r :
  balanced s ->
  (forall i t p, r = Popped i t p -> exists l, tasks i (pool s) = t :: l /\ p = set_tasks i l (pool s)) ->
  balanced (after_pop w r s).
Proof.
  intros Hb Hr. destruct r as [i t p| |]; try done. destruct (Hr i t p eq_refl) as (l & Ht & ->).
  intros j. cbn [after_push after_pop pushed taken pool]. rewrite of_queue_app, of_queue_one, Hb, tasks_set by by eapply tasks_bound.
  destruct (decide (i = j)) as [<-|]; [by rewrite Ht, <- app_assoc|by rewrite app_nil_r].
Qed.

Lemma balanced_step s s' : balanced s -> any_step s s' -> balanced s'.
Proof.
  intros Hb [Hs|Hs].
  - destruct Hs as [i t Hi|i t l1 l2 _ Hi| |w v _ _|w v _ _| | | |]; try done.
    + apply balanced_push; [done..|]. destruct (pushTask_cases i t (pool s)) as [->|[->|[-> _]]]; auto.
    + apply balanced_push; [done..|]. destruct (push_test_cases i t (pool s)) as [->| ->]; auto.
    + apply balanced_pop; [done|]. apply popTask_popped.
    + apply balanced_pop; [done|]. apply popTask_resume_popped.
  - by destruct Hs.
Qed.

Lemma pool_new_empty n i : tasks i (pool_new n) = [].
Proof.
  unfold tasks, pool_new. cbn. destruct (replicate n _ !! i) as [l|] eqn:El; [|done].
  by apply lookup_replicate in El as [-> _].
Qed.

Lemma pool_new_balanced n q : balanced (pool_system_new n q).
Proof. intros i. cbn. by rewrite pool_new_empty. Qed.

(** C29. The pool runs every task once and each queue in order: under every
    scheduling of workers, pushing threads, notifications and [stop], what was
    pushed to a queue is what workers took from it followed by what it still
    holds. *)
Theorem pool_fifo (threadsCount taskQueues : nat) (s : PoolSystem) :
  rtc any_step (pool_system_new threadsCount taskQueues) s ->
  forall i, of_queue i (pushed s) = of_queue i (taken s) ++ tasks i (pool s).
Proof.
  intros Hr. remember (pool_system_new threadsCount taskQueues) as s0 eqn:E.
  assert (balanced s0) as H0 by (subst; apply pool_new_balanced).
  clear E. induction Hr as [s|s0 s1 s2 Hs _ IH]; [exact H0|]. apply IH. by eapply balanced_step.
Qed.

(** *** No task is forgotten *)
Definition all_empty (p : ThreadPool) : Prop := forall i, tasks i p = [].

Lemma no_queue_with_elements v p :
  Permutation v (seq 0 (length (m_queues p))) -> getRandomTaskQueueWithElements v p = None -> all_empty p.
Proof.
  intros Hv Hf i. destruct (decide (i < length (m_queues p))%nat) as [Hi|Hi].
  - unfold getRandomTaskQueueWithElements in Hf. assert (In i v) as Hin.
    { apply list_elem_of_In. rewrite Hv. apply list_elem_of_In, in_seq. lia. }
    pose proof (find_none _ _ Hf i Hin) as Hn. cbn in Hn. by destruct (tasks i p).
  - unfold tasks. by rewrite lookup_ge_None_2 by lia.
Qed.

Lemma found_has_elements v p i : getRandomTaskQueueWithElements v p = Some i -> tasks i p <> [].
Proof. intros [_ Hf]%find_some. by destruct (tasks i p). Qed.

(** Somebody will look at the queues: a notification is to be made, or a worker is
    neither asleep nor gone. *)
Definition attended (s : PoolSystem) : Prop :=
  (0 < notify_one_left s)%nat \/ exists w x, workers s !! w = Some x /\ x <> Waiting /\ x <> Exited.

(** While the pool is not stopped and no null task was pushed. *)
Definition watchful (s : PoolSystem) : Prop :=
  workers s <> [] /\
  (Forall (fun x => isNull x.2 = false) (pushed s) -> m_terminate (pool s) = false ->
   Exited ∉ workers s /\ (all_empty (pool s) \/ attended s)).

Lemma attended_by w x s : (w < length (workers s))%nat -> x <> Waiting -> x <> Exited -> attended (set_worker w x s).
Proof. intros Hw ??. right. exists w, x. split; [|done]. cbn. by apply list_lookup_insert_eq. Qed.

Lemma not_exited_insert w x (l : list Worker) : x <> Exited -> Exited ∉ l -> Exited ∉ <[w := x]> l.
Proof.
  intros Hx Hl Hin. apply list_elem_of_lookup in Hin as [i Hi]. apply list_lookup_insert_Some in Hi as [(_ & Hi & _)|[_ Hi]].
  - congruence.
  - apply Hl. by eapply list_elem_of_lookup_2.
Qed.

Lemma somebody_awake (s : PoolSystem) :
  workers s <> [] -> Exited ∉ workers s -> Waiting ∉ workers s -> attended s.
Proof.
  intros Hw He Hn. destruct (workers s) as [|x l] eqn:E; [done|]. right. exists 0%nat, x. rewrite E.
  split_and!; [done|set_solver..].
Qed.

Lemma in_queue_pushed s i t : balanced s -> t ∈ tasks i (pool s) -> exists j, (j, t) ∈ pushed s.
Proof.
  intros Hb Ht. assert (t ∈ of_queue i (pushed s)) as Hin by (rewrite Hb; apply elem_of_app; by right).
  apply list_elem_of_fmap in Hin as ([j t'] & -> & [_ Hin]%list_elem_of_filter). by exists j.
Qed.

Lemma pop_empty v p :
  Permutation v (seq 0 (length (m_queues p))) -> popTask v p = WaitInserted \/ popTask_resume v p = WaitInserted -> all_empty p.
Proof.
  intros Hv Hp. apply (no_queue_with_elements v); [done|]. unfold popTask, popTask_resume in Hp.
  destruct (getRandomTaskQueueWithElements v p) as [i|] eqn:E; [|done]. apply found_has_elements in E. cbn in Hp.
  destruct (tasks i p); [done|]. by destruct Hp.
Qed.

Lemma watchful_push s i t r :
  watchful s -> (r = Refused \/ r = WaitRemoved \/ exists l, r = Inserted (set_tasks i l (pool s))) ->
  watchful (after_push i t r s).
Proof.
  intros [Hw Hs] [->|[->|(l & ->)]]; [by split..|]. split; [done|]. cbn. intros [Hf _]%Forall_app Ht.
  destruct (Hs Hf Ht) as [He _]. split; [done|]. right. left. cbn. lia.
Qed.

Lemma watchful_pop s w x r :
  balanced s -> watchful s -> workers s !! w = Some x ->
  (forall i t p, r = Popped i t p -> exists l, tasks i (pool s) = t :: l /\ p = set_tasks i l (pool s)) ->
  (r = WaitInserted -> all_empty (pool s)) -> (r = NullTask -> m_terminate (pool s) = true) ->
  watchful (after_pop w r s).
Proof.
  intros Hb [Hne Hs] Hx%lookup_lt_Some Hpop Hwait Hnull.
  assert (forall y, <[w := y]> (workers s) <> []) as Hins.
  { intros y Hy. apply (f_equal length) in Hy. rewrite length_insert in Hy. cbn in Hy. lia. }
  destruct r as [i t p| |]; (split; [apply Hins|]); cbn [after_pop set_worker pushed pool workers]; intros Hf Ht.
  - destruct (Hpop i t p eq_refl) as (l & Htk & ->). destruct (Hs Hf Ht) as [He _].
    destruct (in_queue_pushed s i t Hb) as [j Hj]; [rewrite Htk; set_solver|].
    pose proof (proj1 (Forall_forall _ _) Hf _ Hj) as Hn. cbn in Hn. rewrite Hn. split; [by apply not_exited_insert|].
    right. right. exists w, (Running t). split; [|done]. by apply list_lookup_insert_eq.
  - destruct (Hs Hf Ht) as [He _]. split; [by apply not_exited_insert|]. left. auto.
  - by rewrite (Hnull eq_refl) in Ht.
Qed.

Lemma watchful_set s w x y :
  watchful s -> workers s !! w = Some y -> x <> Waiting -> x <> Exited -> watchful (set_worker w x s).
Proof.
  intros [Hne Hs] Hx%lookup_lt_Some Hxw Hxe. split.
  - cbn. intros Hy. apply (f_equal length) in Hy. rewrite length_insert in Hy. cbn in Hy. lia.
  - intros Hf Ht. destruct (Hs Hf Ht) as [He _]. split; [by apply not_exited_insert|]. right. by apply attended_by.
Qed.

Lemma wake_not_waiting (x : Worker) : wake x <> Waiting /\ (wake x = Exited -> x = Exited).
Proof. by destruct x. Qed.

Lemma watchful_step s s' : balanced s -> watchful s -> any_step s s' -> watchful s'.
Proof.
  intros Hb HW [Hs|Hs]; pose proof HW as [Hne Hs0].
  - destruct Hs as [i t Hi|i t l1 l2 _ Hi|i t l1 l2 _|w v Hw Hv|w v Hw Hv|w t Hw|w n Hn Hw|n Hn Hw|n Hn].
    + apply watchful_push; [done|]. destruct (pushTask_cases i t (pool s)) as [->|[->|[-> _]]]; eauto.
    + apply watchful_push; [done|]. destruct (push_test_cases i t (pool s)) as [->| ->]; eauto.
    + done.
    + apply (watchful_pop s w Idle); [done..| | |].
      * apply popTask_popped.
      * intros Hp. eapply pop_empty; eauto.
      * unfold popTask. destruct (getRandomTaskQueueWithElements v (pool s)); [cbn; by destruct (tasks _ _)|done].
    + apply (watchful_pop s w Notified); [done..| | |].
      * apply popTask_resume_popped.
      * intros Hp. eapply pop_empty; eauto.
      * unfold popTask_resume. destruct (getRandomTaskQueueWithElements v (pool s)); [cbn; by destruct (tasks _ _)|].
        by destruct (m_terminate (pool s)).
    + by apply (watchful_set s w _ (Running t)).
    + destruct (watchful_set s w Notified Waiting HW Hw) as [Hne' Hs']; [done..|]. split; [done|]. intros Hf Ht.
      destruct (Hs' Hf Ht) as [He _]. split; [done|]. right. right. exists w, Notified. split; [|done].
      apply list_lookup_insert_eq. by eapply lookup_lt_Some.
    + split; [done|]. intros Hf Ht. destruct (Hs0 Hf Ht) as [He _]. split; [done|]. right. by apply somebody_awake.
    + split; [by cbn; destruct (workers s)|]. cbn. intros Hf Ht. destruct (Hs0 Hf Ht) as [He _].
      assert (Exited ∉ map wake (workers s)) as He'.
      { intros Hin. apply list_elem_of_In, in_map_iff in Hin as (x & Hx & Hin). apply wake_not_waiting in Hx as ->.
        by apply He, list_elem_of_In. }
      split; [done|]. right. apply somebody_awake; cbn; [by destruct (workers s)|done|]. intros Hin.
      apply list_elem_of_In, in_map_iff in Hin as (x & Hx & _). by apply wake_not_waiting in Hx.
  - destruct Hs as [|n|w Hw]; [by split|done|]. by apply (watchful_set s w _ Waiting).
Qed.

(** C30. No task is forgotten: in a pool with at least one thread that was not
    stopped and was given no null task, whatever the scheduling, when a queue has a
    task then a notification of the workers is under way or some worker is awake
    (and looks at the queues before it sleeps). *)
Theorem pool_no_lost_task (threadsCount taskQueues : nat) (s : PoolSystem) (i : nat) :
  (0 < threadsCount)%nat -> rtc any_step (pool_system_new threadsCount taskQueues) s ->
  Forall (fun x => isNull x.2 = false) (pushed s) -> m_terminate (pool s) = false ->
  tasks i (pool s) <> [] -> attended s.
Proof.
  intros Hn Hr Hf Ht Hi.
  assert (balanced s /\ watchful s) as [_ [_ Hs]].
  { clear Hf Ht Hi. remember (pool_system_new threadsCount taskQueues) as s0 eqn:E.
    assert (balanced s0 /\ watchful s0) as H0.
    { subst. split; [by apply pool_new_balanced|]. split; [by destruct threadsCount; [lia|]|]. intros _ _. split.
      - cbn. intros Hin%elem_of_replicate. by destruct Hin.
      - left. intros j. apply pool_new_empty. }
    clear E. induction Hr as [s|s0 s1 s2 Hst _ IH]; [exact H0|]. apply IH. destruct H0 as [Hb Hw].
    split; [by eapply balanced_step|by eapply watchful_step]. }
  destruct (Hs Hf Ht) as [_ [He|Ha]]; [|done]. by destruct (Hi (He i)).
Qed.

(** *** A pool that is only stopped by its destructor may never end *)
Lemma no_elements v p : all_empty p -> getRandomTaskQueueWithElements v p = None.
Proof. intros He. induction v as [|i v IH]; [done|]. cbn. by rewrite He. Qed.

(** Stopped before the threads call [popTask]: [k] of them are asleep. *)
Definition stopped (n q k : nat) : PoolSystem :=
  mkPoolSystem (stop (pool_new q)) (replicate k Waiting ++ replicate (n - k) Idle) [] 0 0 [] [].

Lemma stop_then_notify n q : rtc any_step (pool_system_new n q) (stopped n q 0).
Proof.
  eapply rtc_l; [right; apply step_stop|]. eapply rtc_l; [left; by apply (step_notify_all _ 0)|].
  unfold stopped. rewrite Nat.sub_0_r. cbn. assert (map wake (replicate n Idle) = replicate n Idle) as ->; [|apply rtc_refl].
  induction n as [|n IH]; [done|]. cbn. by rewrite IH.
Qed.

Lemma next_sleeps n q k : (k < n)%nat -> any_step (stopped n q k) (stopped n q (S k)).
Proof.
  intros Hk. left. assert (exists m, n - k = S m /\ n - S k = m)%nat as (m & E1 & E2) by (exists (n - S k)%nat; lia).
  pose proof (step_pop (stopped n q k) k (seq 0 (length (m_queues (stop (pool_new q)))))) as Hs.
  unfold stopped in *. cbn [workers pool] in Hs. rewrite E1 in *. rewrite E2. unfold popTask in Hs.
  rewrite no_elements in Hs by (intros i; apply (pool_new_empty q)). cbn [pop_from after_pop set_worker workers] in Hs.
  rewrite (replicate_S_end k), <- app_assoc. cbn [replicate app] in *. unfold set_worker in Hs.
  cbn [pool workers blocked notify_one_left notify_all_left pushed taken] in Hs.
  assert (<[k := Waiting]> (replicate k Waiting ++ Idle :: replicate m Idle) =
          replicate k Waiting ++ Waiting :: replicate m Idle) as Hi.
  { pose proof (insert_app_r (replicate k Waiting) (Idle :: replicate m Idle) 0 Waiting) as H.
    rewrite length_replicate, Nat.add_0_r in H. exact H. }
  rewrite Hi in Hs. apply Hs; [|done]. apply list_lookup_middle. by rewrite length_replicate.
Qed.

(** [stop] can be missed: [popTask] waits without looking at [m_terminate]
    first.  For every number of threads and queues there is a scheduling in which
    [stop] was called, its notification was made, the queues are empty and every
    worker sleeps, and then nothing that the threads do of their own changes
    anything.  The destructor calls [stop] once and joins the workers, so it never
    returns. *)
Theorem pool_stop_deadlock (threadsCount taskQueues : nat) :
  exists s : PoolSystem,
    rtc any_step (pool_system_new threadsCount taskQueues) s /\
    m_terminate (pool s) = true /\ all_empty (pool s) /\ workers s = replicate threadsCount Waiting /\
    (forall s', pool_step s s' -> s' = s).
Proof.
  exists (stopped threadsCount taskQueues threadsCount). split_and!.
  - assert (forall k, (k <= threadsCount)%nat ->
      rtc any_step (pool_system_new threadsCount taskQueues) (stopped threadsCount taskQueues k)) as Hk; [|by apply Hk].
    induction k as [|k IH]; intros Hle; [apply stop_then_notify|].
    eapply rtc_r; [apply IH; lia|]. apply next_sleeps. lia.
  - done.
  - intros i. apply (pool_new_empty taskQueues).
  - cbn. by rewrite Nat.sub_diag, app_nil_r.
  - intros s' Hs. unfold stopped in *. rewrite Nat.sub_diag in *. rewrite app_nil_r in *.
    assert (forall w x, replicate threadsCount Waiting !! w = Some x -> x = Waiting) as Hall.
    { intros w x Hx. by apply lookup_replicate in Hx as [-> _]. }
    inversion Hs as [i t Hi|i t l1 l2 Hb|i t l1 l2 Hb|w v Hw|w v Hw|w t Hw|w n Hn|n Hn|n Hn]; cbn in *;
      try (by apply Hall in Hw); try done; by destruct l1.
Qed.
End Pool.
Arguments Worker Task : clear implicits.
Arguments ThreadPool Task : clear implicits.
Arguments PoolSystem Task : clear implicits.
End Pool.

(** One worker and one queue of numbers; 0 is the null task. *)
Definition one_task : Pool.PoolSystem Z :=
  Pool.mkPoolSystem (Pool.mkThreadPool [[5]] false 100) [Pool.Waiting] [] 1 0 [(0%nat, 5)] [].

Lemma one_task_reachable : rtc (Pool.any_step (Z.eqb 0)) (Pool.pool_system_new 1 1) one_task.
Proof.
  eapply rtc_l; [left; apply (Pool.step_pop _ _ 0 [0%nat]); done|].
  eapply rtc_l; [left; apply (Pool.step_push _ _ 0 5); cbn; lia|]. apply rtc_refl.
Qed.

Lemma pool_fifo_witness :
  Pool.of_queue 0 (Pool.pushed one_task) = Pool.of_queue 0 (Pool.taken one_task) ++ Pool.tasks 0 (Pool.pool one_task).
Proof. apply (Pool.pool_fifo (Z.eqb 0) 1 1 one_task). apply one_task_reachable. Defined.

Lemma pool_no_lost_task_witness : Pool.attended one_task.
Proof.
  apply (Pool.pool_no_lost_task (Z.eqb 0) 1 1 one_task 0).
  - lia.
  - apply one_task_reachable.
  - repeat constructor.
  - reflexivity.
  - discriminate.
Defined.
