(* ===== verification/Sessions.v ===== *)
(** * Sessions (API_EndpointsAndSessions/session.cpp, session_vars.cpp and
    Server_MonolithWebAPI/sessionsmanager.cpp)

    [Session] is an authenticated user with the time of the last activity and its
    variables.  [WebSessionsManager] keeps the web sessions by identifier in the map
    of Threads.v and, beside it, the sessions of each user.

    Sessions are shared by pointer: a web session has the address of its [Session]
    in a store [auth] that the functions take.  The functions of the manager are
    given as they run when no other thread runs; [destroyElement] then waits for
    ever if a reader is left ([NoFuel]). *)

From S2P Require Import Prelude SafeInt Mem Encoders Jwt Threads.
From Stdlib Require Import ZArith Lia.
From stdpp Require Import gmap.
Import SafeMap.
#[local] Open Scope Z_scope.

Section Session.
Context {J : Type} `{JsonCpp J}.

Record Session := mkSession {
  m_jwtAuthenticatedInfo : Token J;
  m_user : bytes;
  m_domain : bytes;
  m_impersonator : bytes;
  m_firstActivityTimestamp : Z;
  m_lastActivityTimestamp : Z;
  m_sessionVariables : gmap bytes J }.

Definition session_new (now : Z) (jwt : Token J) : Session :=
  mkSession jwt (getSubject jwt) (getDomain jwt) (getImpersonator jwt) now now ∅.

Definition setLastActivity (value : Z) (s : Session) : Session :=
  mkSession (m_jwtAuthenticatedInfo s) (m_user s) (m_domain s) (m_impersonator s) (m_firstActivityTimestamp s) value
    (m_sessionVariables s).
Definition updateLastActivity (now : Z) (s : Session) : Session := setLastActivity now s.

(** A clock that went back counts as expired. *)
Definition isLastActivityExpired (now expSeconds : Z) (s : Session) : bool :=
  if m_lastActivityTimestamp s >? now then true else now - m_lastActivityTimestamp s >? expSeconds.

Definition set_variables (v : gmap bytes J) (s : Session) : Session :=
  mkSession (m_jwtAuthenticatedInfo s) (m_user s) (m_domain s) (m_impersonator s) (m_firstActivityTimestamp s)
    (m_lastActivityTimestamp s) v.
Definition setSessionVariable (name : bytes) (v : J) (s : Session) : Session :=
  set_variables (<[name := v]> (m_sessionVariables s)) s.
Definition getSessionVariableValue (name : bytes) (s : Session) : J := default json_null (m_sessionVariables s !! name).
Definition doesSessionVariableExist (name : bytes) (s : Session) : bool := has_value (m_sessionVariables s !! name).
Definition clearSessionVariable (name : bytes) (s : Session) : Session :=
  set_variables (delete name (m_sessionVariables s)) s.

(** ** The manager *)
Record WebSession := mkWebSession { authSession : Z; networkClientInfo : J }.

Record WebSessionsManager := mkWebSessionsManager {
  m_sessions : gmap bytes MapElement;
  web_sessions : gmap Z WebSession;
  m_sessionClientInfo : gmap bytes (gmap bytes J);
  m_MaxInactiveSeconds : Z;
  m_maxSessionsPerUser : Z }.

Definition manager_new : WebSessionsManager := mkWebSessionsManager ∅ ∅ ∅ 900 100.

Definition setMaxInactiveSeconds (n : Z) (m : WebSessionsManager) : WebSessionsManager :=
  mkWebSessionsManager (m_sessions m) (web_sessions m) (m_sessionClientInfo m) n (m_maxSessionsPerUser m).
Definition setMaxSessionsPerUser (n : Z) (m : WebSessionsManager) : WebSessionsManager :=
  mkWebSessionsManager (m_sessions m) (web_sessions m) (m_sessionClientInfo m) (m_MaxInactiveSeconds m) n.
Definition set_sessions (s : gmap bytes MapElement) (w : gmap Z WebSession) (m : WebSessionsManager) :
    WebSessionsManager :=
  mkWebSessionsManager s w (m_sessionClientInfo m) (m_MaxInactiveSeconds m) (m_maxSessionsPerUser m).
Definition set_client_info (i : gmap bytes (gmap bytes J)) (m : WebSessionsManager) : WebSessionsManager :=
  mkWebSessionsManager (m_sessions m) (web_sessions m) i (m_MaxInactiveSeconds m) (m_maxSessionsPerUser m).

(** Reading through a pointer. *)
Definition deref {A} (store : gmap Z A) (p : Z) : outcome A :=
  match store !! p with
  | Some x => Ret x
  | None => Undef
  end.

(** [sessionId] is the random identifier, [addr] the address of the new object.
    The result is the identifier, or nothing, and the remaining age. *)
Definition createSession (auth : gmap Z Session) (session : Z) (info : J) (sessionId : bytes) (addr : Z)
    (m : WebSessionsManager) : outcome (WebSessionsManager * bytes * Z) :=
  s ← deref auth session;
  let effectiveUser := m_user s in
  let user := default ∅ (m_sessionClientInfo m !! effectiveUser) in
  if has_value (m_sessionClientInfo m !! effectiveUser) && (Z.of_nat (size user) >=? m_maxSessionsPerUser m) then
    Ret (m, [], 0)
  else
    let m := set_client_info (<[effectiveUser := <[sessionId := info]> user]> (m_sessionClientInfo m)) m in
    match addElement sessionId (Some addr) (m_sessions m) with
    | (ms, true) =>
        Ret (set_sessions ms (<[addr := mkWebSession session info]> (web_sessions m)) m, sessionId, m_MaxInactiveSeconds m)
    | (_, false) => Ret (m, [], m_MaxInactiveSeconds m)
    end.

Definition releaseSession (sessionId : bytes) (m : WebSessionsManager) : outcome (WebSessionsManager * bool) :=
  '(ms, r, _) ← releaseElement sessionId (m_sessions m);
  Ret (set_sessions ms (web_sessions m) m, r).

(** [m_sessions.destroyElement]. *)
Definition destroy_web_session (sessionId : bytes) (m : WebSessionsManager) : outcome (WebSessionsManager * bool) :=
  '(ms, r) ← destroy_alone 1 sessionId (m_sessions m);
  match r with
  | Some p => Ret (set_sessions ms (delete p (web_sessions m)) m, true)
  | None => Ret (set_sessions ms (web_sessions m) m, false)
  end.

Definition destroySession (auth : gmap Z Session) (sessionId : bytes) (m : WebSessionsManager) :
    outcome (WebSessionsManager * bool) :=
  match openElement sessionId (m_sessions m) with
  | (_, None) => Ret (m, false)
  | (ms, Some p) =>
      w ← deref (web_sessions m) p;
      s ← deref auth (authSession w);
      let effectiveUser := m_user s in
      '(m, _) ← releaseSession sessionId (set_sessions ms (web_sessions m) m);
      '(m, destroyed) ← destroy_web_session sessionId m;
      if destroyed : bool then
        let user := default ∅ (m_sessionClientInfo m !! effectiveUser) in
        match user !! sessionId with
        | None => Throw (runtime_error "Unregistered Session??")
        | Some _ =>
            let user := delete sessionId user in
            Ret (set_client_info (if bool_decide (user = ∅) then delete effectiveUser (m_sessionClientInfo m)
                                  else <[effectiveUser := user]> (m_sessionClientInfo m)) m, true)
        end
      else Ret (m, false)
  end.

(** The object that was opened, and the remaining age. *)
Definition openSession (now : Z) (auth : gmap Z Session) (sessionId : bytes) (m : WebSessionsManager) :
    outcome (WebSessionsManager * option (Z * Z)) :=
  match openElement sessionId (m_sessions m) with
  | (_, None) => Ret (m, None)
  | (ms, Some p) =>
      w ← deref (web_sessions m) p;
      s ← deref auth (authSession w);
      let lastActivity := m_lastActivityTimestamp s in
      let maxAge :=
        if isLastActivityExpired now (m_MaxInactiveSeconds m) s then 0
        else
          let expirationTime := lastActivity + m_MaxInactiveSeconds m in
          if expirationTime >=? lastActivity then
            if expirationTime >? now then expirationTime - now else 0
          else 0 in
      Ret (set_sessions ms (web_sessions m) m, Some (p, maxAge))
  end.

(** One key of [gc]. *)
Definition gc_key (now : Z) (auth : gmap Z Session) (key : bytes) (m : WebSessionsManager) :
    outcome WebSessionsManager :=
  match openElement key (m_sessions m) with
  | (_, None) => Ret m
  | (ms, Some p) =>
      w ← deref (web_sessions m) p;
      s ← deref auth (authSession w);
      '(m', _) ← releaseSession key (set_sessions ms (web_sessions m) m);
      if isLastActivityExpired now (m_MaxInactiveSeconds m) s then
        '(m', _) ← destroy_web_session key m';
        Ret m'
      else Ret m'
  end.

Fixpoint gc_loop (now : Z) (auth : gmap Z Session) (keys : list bytes) (m : WebSessionsManager) :
    outcome WebSessionsManager :=
  match keys with
  | [] => Ret m
  | key :: keys => m ← gc_key now auth key m; gc_loop now auth keys m
  end.

Definition gc (now : Z) (auth : gmap Z Session) (m : WebSessionsManager) : outcome WebSessionsManager :=
  gc_loop now auth (elements (getKeys (m_sessions m))) m.

(** Twelve letters or digits, a colon, and twelve more. *)
Definition validateSessionIDFormat (sessionId : bytes) : bool :=
  match sessionId with
  | [] => true
  | _ =>
      (zlen sessionId =? 25) && forallb isalnum (ztake 12 sessionId) && bool_decide (slice 12 1 sessionId = [58]) &&
      forallb isalnum (zdrop 13 sessionId)
  end.
End Session.
Arguments Session J : clear implicits.
Arguments WebSession J : clear implicits.
Arguments WebSessionsManager J : clear implicits.

(** ** A session from its creation to its end *)
Section SessionTheory.
Context {J : Type} `{JsonCpp J}.
Implicit Types (m : WebSessionsManager J) (auth : gmap Z (Session J)) (ms : gmap bytes MapElement).

Lemma openElement_fresh (sid : bytes) p ms :
  openElement sid (<[sid := mkMapElement (Some p) 0]> ms) = (<[sid := mkMapElement (Some p) 1]> ms, Some p).
Proof. unfold openElement. by rewrite lookup_insert_eq, insert_insert_eq. Qed.

Lemma releaseElement_one (sid : bytes) p ms :
  releaseElement sid (<[sid := mkMapElement (Some p) 1]> ms) = Ret (<[sid := mkMapElement (Some p) 0]> ms, true, true).
Proof. unfold releaseElement. rewrite lookup_insert_eq. cbn [Z.eqb]. by rewrite insert_insert_eq. Qed.

Lemma destroy_alone_fresh (sid : bytes) p ms :
  ms !! sid = None -> destroy_alone 1 sid (<[sid := mkMapElement (Some p) 0]> ms) = Ret (ms, Some p).
Proof.
  intros Hn. unfold destroy_alone, destroyElement, destroy_test. rewrite lookup_insert_eq, insert_insert_eq.
  unfold element. rewrite lookup_insert_eq. cbn. by rewrite delete_insert_id.
Qed.

(** The manager with one more session. *)
Definition with_session (u sid : bytes) (sp addr : Z) (info : J) m : WebSessionsManager J :=
  mkWebSessionsManager (<[sid := mkMapElement (Some addr) 0]> (m_sessions m))
    (<[addr := mkWebSession sp info]> (web_sessions m))
    (<[u := <[sid := info]> (default ∅ (m_sessionClientInfo m !! u))]> (m_sessionClientInfo m))
    (m_MaxInactiveSeconds m) (m_maxSessionsPerUser m).

(** Another session of the user of [s] fits. *)
Definition room_for (u : bytes) m : Prop :=
  m_sessionClientInfo m !! u = None \/ Z.of_nat (size (default ∅ (m_sessionClientInfo m !! u))) < m_maxSessionsPerUser m.

Lemma createSession_spec auth sp s info sid addr m :
  auth !! sp = Some s -> m_sessions m !! sid = None -> room_for (m_user s) m ->
  createSession auth sp info sid addr m = Ret (with_session (m_user s) sid sp addr info m, sid, m_MaxInactiveSeconds m).
Proof.
  intros Hs Hn Hroom. unfold createSession, deref. rewrite Hs. cbn [mbind outcome_bind].
  assert (has_value (m_sessionClientInfo m !! m_user s) &&
    (Z.of_nat (size (default ∅ (m_sessionClientInfo m !! m_user s))) >=? m_maxSessionsPerUser m) = false) as ->.
  { destruct Hroom as [->|Hlt]; [done|]. apply andb_false_intro2. lia. }
  unfold addElement. cbn [set_client_info m_sessions]. by rewrite Hn.
Qed.

(** What [openSession] answers about the age. *)
Lemma openSession_spec now auth sp s info sid addr m :
  auth !! sp = Some s -> 0 <= m_MaxInactiveSeconds m ->
  let m1 := with_session (m_user s) sid sp addr info m in
  exists m2, releaseSession sid m2 = Ret (m1, true) /\
    openSession now auth sid m1 =
      Ret (m2, Some (addr, if isLastActivityExpired now (m_MaxInactiveSeconds m) s then 0
                           else m_lastActivityTimestamp s + m_MaxInactiveSeconds m - now)).
Proof.
  intros Hs Hmax m1. unfold openSession, m1. cbn [with_session m_sessions web_sessions m_MaxInactiveSeconds].
  rewrite openElement_fresh. unfold deref. rewrite lookup_insert_eq. cbn [mbind outcome_bind authSession]. rewrite Hs.
  eexists. split; [|cbn [mbind outcome_bind]; do 3 f_equal].
  - unfold releaseSession. cbn [set_sessions m_sessions]. by rewrite releaseElement_one.
  - unfold isLastActivityExpired. destruct (m_lastActivityTimestamp s >? now) eqn:E1; [done|].
    destruct (now - m_lastActivityTimestamp s >? m_MaxInactiveSeconds m) eqn:E2; [done|].
    replace (_ >=? _) with true by lia. destruct (_ + _ >? now) eqn:E3; [done|]. f_equal. lia.
Qed.

Lemma destroySession_spec auth sp s info sid addr m :
  auth !! sp = Some s -> m_sessions m !! sid = None -> web_sessions m !! addr = None ->
  default ∅ (m_sessionClientInfo m !! m_user s) !! sid = None -> m_sessionClientInfo m !! m_user s <> Some ∅ ->
  destroySession auth sid (with_session (m_user s) sid sp addr info m) = Ret (m, true).
Proof.
  intros Hs Hn Ha Hi Hne. unfold destroySession. cbn [with_session m_sessions web_sessions]. rewrite openElement_fresh.
  unfold deref. rewrite lookup_insert_eq. cbn [mbind outcome_bind authSession]. rewrite Hs. cbn [mbind outcome_bind].
  unfold releaseSession. cbn [set_sessions m_sessions web_sessions]. rewrite releaseElement_one.
  cbn [mbind outcome_bind]. unfold destroy_web_session. cbn [set_sessions m_sessions web_sessions].
  rewrite destroy_alone_fresh by done. cbn [mbind outcome_bind]. cbn [set_sessions with_session m_sessionClientInfo].
  rewrite lookup_insert_eq. cbn [default from_option id]. rewrite lookup_insert_eq, delete_insert_id by done.
  rewrite (delete_insert_id (web_sessions m)) by done. unfold set_client_info, set_sessions. cbn. f_equal. f_equal. destruct m as [a b i x y]. cbn in *.
  f_equal. case_bool_decide as Hd.
  - rewrite delete_insert_eq. apply delete_id. destruct (i !! m_user s) as [u|]; [|done]. cbn in Hd. by subst.
  - rewrite insert_insert_eq. apply insert_id. by destruct (i !! m_user s).
Qed.

(** The life of a web session: for a user who has room for it,
    [createSession] gives it the whole age; [openSession] finds the same object
    and answers the time that is left (zero once the last activity is too old or
    the clock went back); [releaseSession] undoes the opening; and
    [destroySession] restores the manager as it was, identifiers, objects and the
    sessions listed for the user. *)
Theorem session_lifecycle auth sp s info sid addr m now :
  auth !! sp = Some s -> m_sessions m !! sid = None -> web_sessions m !! addr = None ->
  default ∅ (m_sessionClientInfo m !! m_user s) !! sid = None -> m_sessionClientInfo m !! m_user s <> Some ∅ ->
  room_for (m_user s) m -> 0 <= m_MaxInactiveSeconds m ->
  exists m1 m2,
    createSession auth sp info sid addr m = Ret (m1, sid, m_MaxInactiveSeconds m) /\
    openSession now auth sid m1 =
      Ret (m2, Some (addr, if isLastActivityExpired now (m_MaxInactiveSeconds m) s then 0
                           else m_lastActivityTimestamp s + m_MaxInactiveSeconds m - now)) /\
    releaseSession sid m2 = Ret (m1, true) /\
    destroySession auth sid m1 = Ret (m, true).
Proof.
  intros Hs Hn Ha Hi Hne Hroom Hmax. destruct (openSession_spec now auth sp s info sid addr m Hs Hmax) as (m2 & Hr & Ho).
  exists (with_session (m_user s) sid sp addr info m), m2. split_and!; [by apply createSession_spec|done|done|].
  by apply destroySession_spec.
Qed.

(** ** The collector forgets the list of a user *)

(** A session is created, its activity grows old, the collector runs. *)
Definition create_and_expire (now : Z) auth (sp : Z) (info : J) (sid : bytes) (addr : Z) m : outcome (WebSessionsManager J) :=
  '(m, _, _) ← createSession auth sp info sid addr m;
  gc now auth m.

Fixpoint create_and_expire_all (now : Z) auth (sp : Z) (info : J) (sids : list bytes) (addr : Z) m :
    outcome (WebSessionsManager J) :=
  match sids with
  | [] => Ret m
  | sid :: sids => m ← create_and_expire now auth sp info sid addr m; create_and_expire_all now auth sp info sids addr m
  end.

(** Only the list of the user is left. *)
Definition only_listed (u : bytes) (l : gmap bytes J) (maxInactive maxSessions : Z) : WebSessionsManager J :=
  mkWebSessionsManager ∅ ∅ (if bool_decide (l = ∅) then ∅ else {[u := l]}) maxInactive maxSessions.

Lemma gc_one now auth sp s info sid addr u l a b :
  auth !! sp = Some s -> isLastActivityExpired now a s = true ->
  gc now auth (mkWebSessionsManager {[sid := mkMapElement (Some addr) 0]} {[addr := mkWebSession sp info]} {[u := l]} a b) =
    Ret (mkWebSessionsManager ∅ ∅ {[u := l]} a b).
Proof.
  intros Hs He. unfold gc, getKeys. cbn [m_sessions]. rewrite dom_singleton_L, elements_singleton. cbn [gc_loop].
  unfold gc_key. cbn [m_sessions web_sessions]. rewrite <- insert_empty, openElement_fresh. unfold deref.
  rewrite lookup_singleton_eq. cbn [mbind outcome_bind authSession]. rewrite Hs. cbn [mbind outcome_bind].
  unfold releaseSession. cbn [set_sessions m_sessions web_sessions]. rewrite releaseElement_one. cbn [mbind outcome_bind].
  cbn [m_MaxInactiveSeconds]. rewrite He. unfold destroy_web_session. cbn [set_sessions m_sessions web_sessions].
  rewrite destroy_alone_fresh by apply lookup_empty. cbn [mbind outcome_bind]. unfold set_sessions. cbn.
  by rewrite delete_singleton_eq.
Qed.

Lemma create_and_expire_listed now auth sp s info sid addr l a b :
  auth !! sp = Some s -> isLastActivityExpired now a s = true -> Z.of_nat (size l) < b ->
  create_and_expire now auth sp info sid addr (only_listed (m_user s) l a b) =
    Ret (only_listed (m_user s) (<[sid := info]> l) a b).
Proof.
  intros Hs He Hb. unfold create_and_expire.
  assert (default ∅ (m_sessionClientInfo (only_listed (m_user s) l a b) !! m_user s) = l) as Hl.
  { cbn. case_bool_decide as Hd; [by subst|]. by rewrite lookup_singleton_eq. }
  rewrite createSession_spec with (s := s); [|done|apply lookup_empty|right; by rewrite Hl].
  cbn [mbind outcome_bind]. unfold with_session. rewrite Hl.
  assert (<[m_user s := <[sid := info]> l]> (m_sessionClientInfo (only_listed (m_user s) l a b)) = {[m_user s := <[sid := info]> l]}) as ->.
  { cbn. case_bool_decide; [by rewrite insert_empty|]. by rewrite insert_singleton_eq. }
  cbn [only_listed m_sessions web_sessions m_MaxInactiveSeconds m_maxSessionsPerUser].
  rewrite !insert_empty, (gc_one now auth sp s) by done. unfold only_listed.
  by rewrite bool_decide_false by apply insert_non_empty.
Qed.

(** [gc] destroys the expired sessions but leaves them in the list of their
    user, against which [createSession] counts: after as many expired sessions as
    a user may have, no session exists and the user cannot create one any more. *)
Theorem expired_sessions_lock_out now auth sp s info (sids : list bytes) addr a sid' addr' :
  auth !! sp = Some s -> isLastActivityExpired now a s = true -> NoDup sids -> sids <> [] ->
  exists m,
    create_and_expire_all now auth sp info sids addr (only_listed (m_user s) ∅ a (Z.of_nat (length sids))) = Ret m /\
    m_sessions m = ∅ /\ createSession auth sp info sid' addr' m = Ret (m, [], 0).
Proof.
  intros Hs He Hnd Hne.
  assert (forall l, (forall x, x ∈ sids -> l !! x = None) ->
    create_and_expire_all now auth sp info sids addr (only_listed (m_user s) l a (Z.of_nat (size l + length sids))) =
      Ret (only_listed (m_user s) (foldl (fun l x => <[x := info]> l) l sids) a (Z.of_nat (size l + length sids))) /\
    size (foldl (fun l x => <[x := info]> l) l sids) = (size l + length sids)%nat) as Hrun.
  { clear Hne. induction Hnd as [|x xs Hx _ IH]; intros l Hl; cbn [create_and_expire_all foldl length]; [split; [done|lia]|].
    rewrite (create_and_expire_listed now auth sp s) by (done || lia). cbn [mbind outcome_bind].
    assert (size (<[x := info]> l) = S (size l)) as Hsz by (apply map_size_insert_None, Hl; set_solver).
    destruct (IH (<[x := info]> l)) as [Hr Hz].
    { intros y Hy. rewrite lookup_insert_ne by congruence. apply Hl. set_solver. }
    rewrite Hsz in Hr, Hz. replace (size l + S (length xs))%nat with (S (size l) + length xs)%nat by lia. by rewrite Hr. }
  destruct (Hrun ∅) as [Hr Hz]; [intros; apply lookup_empty|]. rewrite map_size_empty in *. cbn [Nat.add] in *.
  eexists. split; [exact Hr|]. split; [done|]. set (l := foldl _ _ _) in *. unfold createSession, deref. rewrite Hs.
  cbn [mbind outcome_bind only_listed m_sessionClientInfo m_maxSessionsPerUser].
  assert (l <> ∅) as Hnl by (intros Hl; rewrite Hl, map_size_empty in Hz; by destruct sids).
  rewrite bool_decide_false, lookup_singleton_eq by done. cbn [has_value default from_option id andb].
  rewrite Hz. by replace (_ >=? _) with true by lia.
Qed.
End SessionTheory.

(** A user "u" whose last activity was at time 10; values are texts. *)
Definition example_session : Session bytes := mkSession (mkToken [] true false) (bs "u") [] [] 10 10 ∅.
Definition example_auth : gmap Z (Session bytes) := {[ 1 := example_session ]}.
Definition example_manager : WebSessionsManager bytes := mkWebSessionsManager ∅ ∅ ∅ 900 1.

Lemma session_lifecycle_witness :
  exists m1 m2,
    createSession example_auth 1 (bs "info") (bs "id") 7 example_manager = Ret (m1, bs "id", 900) /\
    openSession 110 example_auth (bs "id") m1 = Ret (m2, Some (7, 800)) /\
    releaseSession (bs "id") m2 = Ret (m1, true) /\
    destroySession example_auth (bs "id") m1 = Ret (example_manager, true).
Proof.
  apply (session_lifecycle example_auth 1 example_session (bs "info") (bs "id") 7 example_manager 110).
  - reflexivity.
  - reflexivity.
  - reflexivity.
  - reflexivity.
  - discriminate.
  - left. reflexivity.
  - discriminate.
Defined.

Lemma expired_sessions_lock_out_witness :
  exists m,
    create_and_expire_all 1000 example_auth 1 (bs "info") [bs "a"; bs "b"] 7 (only_listed (bs "u") ∅ 900 2) = Ret m /\
    m_sessions m = ∅ /\ createSession example_auth 1 (bs "info") (bs "c") 8 m = Ret (m, [], 0).
Proof.
  apply (expired_sessions_lock_out 1000 example_auth 1 example_session (bs "info") [bs "a"; bs "b"] 7 900 (bs "c") 8).
  - reflexivity.
  - reflexivity.
  - apply NoDup_cons. split; [intros Hin; apply list_elem_of_singleton in Hin; discriminate|].
    apply NoDup_cons. split; [intros Hin; by apply not_elem_of_nil in Hin|constructor].
  - discriminate.
Defined.
