(* ===== verification/Endpoints.v ===== *)
(** * API endpoints and who may use them (API_EndpointsAndSessions)

    The requirements of the monolithic endpoints (endpoints_requirements_map.cpp,
    api_monolith_endpoints.cpp), the RESTful endpoints (api_restful_endpoints.cpp,
    security.h) and the WebSocket endpoints (api_websocket_endpoints.cpp).

    The functions of the application are values of a type variable.  A session is
    its [Session], absent for a null pointer. *)

From S2P Require Import Prelude SafeInt Mem CLib Encoders HttpHeaders Jwt JwtVerify Threads Sessions.
From Stdlib Require Import ZArith Lia.
From stdpp Require Import gmap.
#[local] Open Scope Z_scope.

(** ** Scopes and roles of the monolithic endpoints *)
Record EndpointsRequirements_Map := mkRequirements {
  m_endpointRequiredScopes : list (bytes * bytes);
  m_endpointRequiredRoles : list (bytes * bytes) }.

Definition requirements_new : EndpointsRequirements_Map := mkRequirements [] [].

(** The multimaps are only read as sets of values of a key. *)
Definition addEndpointRequiredScopes (name : bytes) (scopes : gset bytes) (m : EndpointsRequirements_Map) :
    EndpointsRequirements_Map :=
  mkRequirements (m_endpointRequiredScopes m ++ map (fun s => (name, s)) (elements scopes)) (m_endpointRequiredRoles m).
Definition addEndpointRequiredRoles (name : bytes) (roles : gset bytes) (m : EndpointsRequirements_Map) :
    EndpointsRequirements_Map :=
  mkRequirements (m_endpointRequiredScopes m) (m_endpointRequiredRoles m ++ map (fun s => (name, s)) (elements roles)).

Definition equal_range (name : bytes) (l : list (bytes * bytes)) : gset bytes :=
  list_to_set (snd <$> filter (fun e => e.1 = name) l).
Definition getEndpointRequiredScopes (name : bytes) (m : EndpointsRequirements_Map) : gset bytes :=
  equal_range name (m_endpointRequiredScopes m).
Definition getEndpointRequiredRoles (name : bytes) (m : EndpointsRequirements_Map) : gset bytes :=
  equal_range name (m_endpointRequiredRoles m).

(** A loop that erases from [left] what is held. *)
Fixpoint erase_held (held : bytes -> outcome bool) (l : list bytes) (left : gset bytes) : outcome (gset bytes) :=
  match l with
  | [] => Ret left
  | x :: l => h ← held x; erase_held held l (if h : bool then left ∖ {[x]} else left)
  end.

Section Monolith.
Context {J : Type} `{JsonCpp J}.

(** The answer, [rolesLeft] and [scopesLeft]. *)
Definition validateEndpoint (session : option (Session J)) (name : bytes) (rolesLeft scopesLeft : gset bytes)
    (m : EndpointsRequirements_Map) : outcome (bool * gset bytes * gset bytes) :=
  match session with
  | None => Ret (false, rolesLeft, scopesLeft)
  | Some s =>
      let token := m_jwtAuthenticatedInfo s in
      admin ← isAdmin token;
      _ ← getAllRoles token;
      if admin : bool then Ret (true, ∅, ∅)
      else
        let requiredRoles := getEndpointRequiredRoles name m in
        let requiredScopes := getEndpointRequiredScopes name m in
        scopesLeft ← erase_held (fun x => hasScope x token) (elements requiredScopes) requiredScopes;
        scopesLeft ← erase_held (fun x => hasRole x token) (elements requiredRoles) scopesLeft;
        Ret (bool_decide (rolesLeft = ∅) && bool_decide (scopesLeft = ∅), rolesLeft, scopesLeft)
  end.

(** An endpoint of the application: session and payload to the answer. *)
Context {Payload Answer : Type}.

Record EndpointDefinition := mkEndpointDefinition {
  endpointFunction : option (Session J) -> Payload -> Answer;
  endpointName : bytes;
  reqScopes : gset bytes;
  reqRoles : gset bytes;
  doUsageUpdateLastSessionActivity : bool;
  isActiveSessionRequired : bool }.

Record MonolithEndpoints := mkMonolithEndpoints {
  m_endpoints : gmap bytes (option (Session J) -> Payload -> Answer);
  m_endpointRequireActiveSession : gmap bytes bool;
  m_endpointUpdateSessionLastActivityOnUsage : gmap bytes bool;
  m_endpointsScopes : EndpointsRequirements_Map }.

Definition monolith_new : MonolithEndpoints := mkMonolithEndpoints ∅ ∅ ∅ requirements_new.

Definition monolith_addEndpoint (d : EndpointDefinition) (e : MonolithEndpoints) : MonolithEndpoints * bool :=
  match m_endpoints e !! endpointName d with
  | Some _ => (e, false)
  | None =>
      (mkMonolithEndpoints (<[endpointName d := endpointFunction d]> (m_endpoints e))
         (<[endpointName d := isActiveSessionRequired d]> (m_endpointRequireActiveSession e))
         (<[endpointName d := doUsageUpdateLastSessionActivity d]> (m_endpointUpdateSessionLastActivityOnUsage e))
         (addEndpointRequiredRoles (endpointName d) (reqRoles d)
            (addEndpointRequiredScopes (endpointName d) (reqScopes d) (m_endpointsScopes e))), true)
  end.

Inductive ValidationResult := VALIDATED | ENDPOINTNOTFOUND | NOTAUTHORIZED.

(** The result, and the roles and scopes that are given as reasons. *)
Definition validateEndpointRequirements (session : option (Session J)) (name : bytes) (e : MonolithEndpoints) :
    outcome (ValidationResult * option (gset bytes * gset bytes)) :=
  match m_endpoints e !! name with
  | None => Ret (ENDPOINTNOTFOUND, None)
  | Some _ =>
      if default false (m_endpointRequireActiveSession e !! name) && negb (has_value session) then
        Ret (NOTAUTHORIZED, None)
      else
        '(ok, rolesLeft, scopesLeft) ← validateEndpoint session name ∅ ∅ (m_endpointsScopes e);
        Ret (if ok : bool then (VALIDATED, None) else (NOTAUTHORIZED, Some (rolesLeft, scopesLeft)))
  end.

(** [invoke]: the answer ([None] is [NOTFOUND]) and the session afterwards. *)
Definition invoke (now : Z) (session : option (Session J)) (name : bytes) (payload : Payload) (e : MonolithEndpoints) :
    outcome (option Answer * option (Session J)) :=
  match m_endpoints e !! name with
  | None => Ret (None, session)
  | Some f =>
      let answer := f session payload in
      if default false (m_endpointUpdateSessionLastActivityOnUsage e !! name) then
        match session with
        | Some s => Ret (Some answer, Some (updateLastActivity now s))
        | None => Undef
        end
      else Ret (Some answer, session)
  end.
End Monolith.
Arguments MonolithEndpoints J Payload Answer : clear implicits.
Arguments EndpointDefinition J Payload Answer : clear implicits.

(** ** RESTful endpoints *)
Inductive Method := GET | POST | PUT | DELETE | PATCH | UNKNOWN.

Definition MethodToString (m : Method) : bytes :=
  match m with
  | GET => bs "GET" | POST => bs "POST" | PUT => bs "PUT" | DELETE => bs "DELETE" | PATCH => bs "PATCH"
  | UNKNOWN => bs "POST"
  end.

Definition stringToMethod (s : bytes) : Method :=
  if bool_decide (s = bs "GET") then GET
  else if bool_decide (s = bs "PUT") then PUT
  else if bool_decide (s = bs "DELETE") then DELETE
  else if bool_decide (s = bs "PATCH") then PATCH
  else if bool_decide (s = bs "POST") then POST
  else UNKNOWN.

(** [Security::Configuration] and [ReceivedAuth]. *)
Record Configuration := mkConfiguration {
  requireJWTHeaderAuthentication : bool;
  requireJWTCookieAuthentication : bool;
  requiredScopes : gset bytes }.

Definition configuration_set (requirements : Z) (scopes : gset bytes) : Configuration :=
  mkConfiguration (Z.testbit requirements 0) (Z.testbit requirements 1) scopes.

Record ReceivedAuth := mkReceivedAuth {
  hasVerifiedJWTAuthorizationHeader : bool;
  hasVerifiedJWTAccessTokenCookie : bool }.

Section RESTful.
Context {J : Type} `{JsonCpp J}.

(** [APIReturn]: the status, the body, and what else is set in the response. *)
Record APIReturn := mkAPIReturn {
  httpResponseCode : Z;
  body : J;
  cookiesMap : list (bytes * Cookie);
  httpExtraHeaders : list (bytes * bytes);
  redirectURL : bytes }.

Definition apireturn_new : APIReturn := mkAPIReturn 200 json_null [] [] [].
Definition setStatus (code : Z) (r : APIReturn) : APIReturn :=
  mkAPIReturn code (body r) (cookiesMap r) (httpExtraHeaders r) (redirectURL r).
Definition addHeader (name value : bytes) (r : APIReturn) : APIReturn :=
  mkAPIReturn (httpResponseCode r) (body r) (cookiesMap r) (om_set name value (httpExtraHeaders r)) (redirectURL r).
Definition set_body (v : J) (r : APIReturn) : APIReturn :=
  mkAPIReturn (httpResponseCode r) v (cookiesMap r) (httpExtraHeaders r) (redirectURL r).
Definition hasError (r : APIReturn) : bool := (httpResponseCode r <? 200) || (httpResponseCode r >? 299).

Definition setError (code : Z) (error message : bytes) (r : APIReturn) : outcome APIReturn :=
  if json_isObject (body r) || json_isNull (body r) then
    Ret (set_body (json_set (json_set (body r) (bs "error") (json_string error)) (bs "message") (json_string message))
           (setStatus code r))
  else Throw (logic_error "in Json::Value::resolveReference(key, end): requires objectValue").

(** [setError] through a pointer that may be null, behind a test or without. *)
Definition setError_if (code : Z) (message : bytes) (r : option APIReturn) : outcome (option APIReturn) :=
  match r with
  | Some r => r ← setError code (bs "invalid_invokation") message r; Ret (Some r)
  | None => Ret None
  end.
Definition setError_unchecked (code : Z) (message : bytes) (r : option APIReturn) : outcome (option APIReturn) :=
  match r with
  | Some r => r ← setError code (bs "invalid_invokation") message r; Ret (Some r)
  | None => Undef
  end.

(** What [handleEndpoint] looks at in the request: its JSON value (the result of
    [getJSONStreamerContent]), its method, its raw GET variables, and whether its
    content is JSON. *)
Record ClientRequest := mkClientRequest {
  jsonStreamerContent : option J;
  getHTTPMethod : bytes;
  getRequestGETVarsRawString : bytes;
  content_is_json : bool }.

Record RESTfulAPIEndpointFullDefinition := mkFullDefinition {
  endpointDefinition : option (ClientRequest -> J -> APIReturn);
  security : Configuration }.

(** The value a definition has before it is assigned. *)
Definition definition_new : RESTfulAPIEndpointFullDefinition :=
  mkFullDefinition None (mkConfiguration true true ∅).

Record RESTfulEndpoints := mkRESTfulEndpoints {
  m_endpointsGET : gmap bytes RESTfulAPIEndpointFullDefinition;
  m_endpointsPOST : gmap bytes RESTfulAPIEndpointFullDefinition;
  m_endpointsPUT : gmap bytes RESTfulAPIEndpointFullDefinition;
  m_endpointsDELETE : gmap bytes RESTfulAPIEndpointFullDefinition;
  m_endpointsPATCH : gmap bytes RESTfulAPIEndpointFullDefinition }.

Definition rest_new : RESTfulEndpoints := mkRESTfulEndpoints ∅ ∅ ∅ ∅ ∅.

Definition rest_addEndpoint (m : Method) (path : bytes) (d : RESTfulAPIEndpointFullDefinition) (e : RESTfulEndpoints) :
    RESTfulEndpoints * bool :=
  match m with
  | GET => (mkRESTfulEndpoints (<[path := d]> (m_endpointsGET e)) (m_endpointsPOST e) (m_endpointsPUT e)
              (m_endpointsDELETE e) (m_endpointsPATCH e), true)
  | POST => (mkRESTfulEndpoints (m_endpointsGET e) (<[path := d]> (m_endpointsPOST e)) (m_endpointsPUT e)
               (m_endpointsDELETE e) (m_endpointsPATCH e), true)
  | PUT => (mkRESTfulEndpoints (m_endpointsGET e) (m_endpointsPOST e) (<[path := d]> (m_endpointsPUT e))
              (m_endpointsDELETE e) (m_endpointsPATCH e), true)
  | DELETE => (mkRESTfulEndpoints (m_endpointsGET e) (m_endpointsPOST e) (m_endpointsPUT e)
                 (<[path := d]> (m_endpointsDELETE e)) (m_endpointsPATCH e), true)
  | PATCH => (mkRESTfulEndpoints (m_endpointsGET e) (m_endpointsPOST e) (m_endpointsPUT e)
                (m_endpointsDELETE e) (<[path := d]> (m_endpointsPATCH e)), true)
  | UNKNOWN => (e, false)
  end.

Inductive RestResult := REST_SUCCESS | INVALID_METHOD_MODE | RESOURCE_NOT_FOUND | AUTHENTICATION_REQUIRED | INVALID_SCOPE |
  INTERNAL_ERROR.

(** [find] in the map of the method; [None] is the default case of the switch. *)
Definition rest_find (m : Method) (path : bytes) (e : RESTfulEndpoints) : option RESTfulAPIEndpointFullDefinition :=
  match m with
  | GET => Some (default definition_new (m_endpointsGET e !! path))
  | POST => Some (default definition_new (m_endpointsPOST e !! path))
  | PUT => Some (default definition_new (m_endpointsPUT e !! path))
  | DELETE => Some (default definition_new (m_endpointsDELETE e !! path))
  | PATCH => Some (default definition_new (m_endpointsPATCH e !! path))
  | UNKNOWN => None
  end.

Definition handleEndpoint_method (m : Method) (path : bytes) (req : ClientRequest) (currentScopes : gset bytes)
    (isAdmin : bool) (auth : ReceivedAuth) (apiResponse : option APIReturn) (e : RESTfulEndpoints) :
    outcome (RestResult * option APIReturn) :=
  match rest_find m path e with
  | None => r ← setError_if 400 (bs "Invalid Method Mode") apiResponse; Ret (INVALID_METHOD_MODE, r)
  | Some d =>
      match endpointDefinition d with
      | None => r ← setError_if 404 (bs "Resource not found") apiResponse; Ret (RESOURCE_NOT_FOUND, r)
      | Some f =>
          if requireJWTHeaderAuthentication (security d) && negb (hasVerifiedJWTAuthorizationHeader auth) then
            r ← setError_if 403 (bs "JWT Authentication Header Required") apiResponse; Ret (AUTHENTICATION_REQUIRED, r)
          else if requireJWTCookieAuthentication (security d) && negb (hasVerifiedJWTAccessTokenCookie auth) then
            r ← setError_if 403 (bs "JWT Authentication Cookie Required") apiResponse; Ret (AUTHENTICATION_REQUIRED, r)
          else if negb isAdmin && existsb (fun s => negb (bool_decide (s ∈ currentScopes))) (elements (requiredScopes (security d)))
          then r ← setError_if 401 (bs "Invalid Scope") apiResponse; Ret (INVALID_SCOPE, r)
          else
            let call input :=
              match apiResponse with
              | Some _ => Ret (REST_SUCCESS, Some (f req input))
              | None => Ret (INTERNAL_ERROR, None)
              end in
            match jsonStreamerContent req with
            | Some input => call input
            | None =>
                if bool_decide (getHTTPMethod req = bs "GET") then
                  if bool_decide (getRequestGETVarsRawString req = []) then call json_null
                  else
                    r ← setError_unchecked 400 (bs "Bad Input JSON Parsing during GET") apiResponse; Ret (INTERNAL_ERROR, r)
                else if content_is_json req then
                  r ← setError_unchecked 400 (bs "Bad Input JSON Parsing during POST") apiResponse; Ret (INTERNAL_ERROR, r)
                else call json_null
            end
      end
  end.

Definition handleEndpoint (method path : bytes) (req : ClientRequest) (currentScopes : gset bytes) (isAdmin : bool)
    (auth : ReceivedAuth) (apiResponse : option APIReturn) (e : RESTfulEndpoints) : outcome (RestResult * option APIReturn) :=
  match stringToMethod method with
  | UNKNOWN => r ← setError_if 400 (bs "Invalid method mode string") apiResponse; Ret (INVALID_METHOD_MODE, r)
  | m => handleEndpoint_method m path req currentScopes isAdmin auth apiResponse e
  end.
End RESTful.
Arguments APIReturn J : clear implicits.
Arguments ClientRequest J : clear implicits.
Arguments RESTfulEndpoints J : clear implicits.
Arguments RESTfulAPIEndpointFullDefinition J : clear implicits.

(** ** WebSocket endpoints

    The member [it] is the endpoint that the last [checkEndpoint] looked for, of
    whichever connection: every connection uses the same object.  [None] is the
    iterator before any call, [Some None] the end of the map. *)
Inductive EventType := SESSION_START | RECEIVED_MESSAGE_BINARY | RECEIVED_MESSAGE_TEXT | SESSION_END | OTHER_EVENT.

Section WebSocketEndpoints.
Context {Handler : Type}.

Record WsEndpoint := mkWsEndpoint {
  sessionStartHandler : option Handler;
  binaryMessageReceivedHandler : option Handler;
  textMessageReceivedHandler : option Handler;
  sessionEndHandler : option Handler;
  ws_security : Configuration;
  requireSession : bool }.

Record WsEndpoints := mkWsEndpoints {
  ws_endpoints : gmap bytes WsEndpoint;
  it : option (option bytes) }.

Definition ws_addEndpoint (path : bytes) (d : WsEndpoint) (e : WsEndpoints) : WsEndpoints * bool :=
  (mkWsEndpoints (<[path := d]> (ws_endpoints e)) (it e), true).

Inductive WsResult := WS_SUCCESS | INVALID_EVENT_TYPE | ENDPOINT_NOT_FOUND | WS_AUTHENTICATION_REQUIRED | WS_INVALID_SCOPE.

Record SecurityParameters := mkSecurityParameters {
  haveJWTAuthHeader : bool;
  haveJWTAuthCookie : bool;
  haveSession : bool }.

Definition checkEndpoint (path : bytes) (currentScopes : gset bytes) (isAdmin : bool) (p : SecurityParameters)
    (e : WsEndpoints) : WsEndpoints * WsResult :=
  match ws_endpoints e !! path with
  | None => (mkWsEndpoints (ws_endpoints e) (Some None), ENDPOINT_NOT_FOUND)
  | Some d =>
      (mkWsEndpoints (ws_endpoints e) (Some (Some path)),
       if requireJWTHeaderAuthentication (ws_security d) && negb (haveJWTAuthHeader p) then WS_AUTHENTICATION_REQUIRED
       else if requireJWTCookieAuthentication (ws_security d) && negb (haveJWTAuthCookie p) then WS_AUTHENTICATION_REQUIRED
       else if requireSession d && negb (haveSession p) then WS_AUTHENTICATION_REQUIRED
       else if negb isAdmin && existsb (fun s => negb (bool_decide (s ∈ currentScopes))) (elements (requiredScopes (ws_security d)))
       then WS_INVALID_SCOPE
       else WS_SUCCESS)
  end.

(** [invokeHandler]: the handler that is called, and the answer. *)
Definition invokeHandler (d : WsEndpoint) (eventType : EventType) : option Handler * bool :=
  match eventType with
  | SESSION_START => (sessionStartHandler d, true)
  | RECEIVED_MESSAGE_TEXT => (textMessageReceivedHandler d, true)
  | RECEIVED_MESSAGE_BINARY => (binaryMessageReceivedHandler d, true)
  | SESSION_END => (sessionEndHandler d, true)
  | OTHER_EVENT => (None, false)
  end.

(** The handler that is called, and the result. *)
Definition handleEvent (eventType : EventType) (e : WsEndpoints) : outcome (option Handler * WsResult) :=
  match it e with
  | None => Undef
  | Some None => Ret (None, ENDPOINT_NOT_FOUND)
  | Some (Some path) =>
      match ws_endpoints e !! path with
      | None => Undef
      | Some d =>
          let '(h, ok) := invokeHandler d eventType in
          Ret (h, if ok : bool then WS_SUCCESS else INVALID_EVENT_TYPE)
      end
  end.
End WebSocketEndpoints.
Arguments WsEndpoint Handler : clear implicits.
Arguments WsEndpoints Handler : clear implicits.

(** ** Who may use a monolithic endpoint *)
Lemma erase_held_spec held (h : bytes -> bool) l left :
  (forall x, held x = Ret (h x)) ->
  exists r, erase_held held l left = Ret r /\ forall x, x ∈ r <-> x ∈ left /\ ~ (x ∈ l /\ h x = true).
Proof.
  intros Hh. revert left. induction l as [|y l IH]; intros left; cbn [erase_held].
  - exists left. split; [done|]. set_solver.
  - rewrite Hh. cbn [mbind outcome_bind]. destruct (IH (if h y then left ∖ {[y]} else left)) as (r & -> & Hr).
    exists r. split; [done|]. intros x. rewrite Hr. setoid_rewrite elem_of_cons. destruct (h y) eqn:E.
    + rewrite elem_of_difference, elem_of_singleton. split.
      * intros [[Hx Hne] Hn]. split; [done|]. intros [[->|Hl] Hhx]; [done|]. by apply Hn.
      * intros [Hx Hn]. split_and!; [done| |]; [intros ->; apply Hn; auto|]. intros [Hl Hhx]. apply Hn. auto.
    + split; intros [Hx Hn]; (split; [done|]); [|intros [? ?]; apply Hn; auto]. intros [[->|Hl] Hhx]; [congruence|]. by apply Hn.
Qed.

Lemma existsb_elem (x : bytes) l : existsb (fun r => bool_decide (r = x)) l = true <-> x ∈ l.
Proof.
  rewrite existsb_exists, list_elem_of_In. split.
  - by intros (y & Hy & ->%bool_decide_eq_true).
  - intros Hx. exists x. split; [done|]. by apply bool_decide_eq_true.
Qed.

Section MonolithTheory.
Context {J : Type} `{JsonCpp J} {Payload Answer : Type}.
Implicit Types (e : MonolithEndpoints J Payload Answer) (s : Session J).

(** What a token says of its holder. *)
Record token_says (t : Token J) (admin : bool) (roles scopes : list bytes) : Prop := {
  says_admin : isAdmin t = Ret admin;
  says_roles : getAllStrings (bs "roles") t = Ret roles;
  says_scopes : getAllStrings (bs "scopes") t = Ret scopes }.

(** The condition the code checks: a required role only counts where it has the
    name of a required scope. *)
Definition admitted (name : bytes) (m : EndpointsRequirements_Map) (admin : bool) (roles scopes : list bytes) : Prop :=
  admin = true \/
  forall x, x ∈ getEndpointRequiredScopes name m -> x ∈ scopes \/ x ∈ getEndpointRequiredRoles name m /\ x ∈ roles.

Lemma validateEndpoint_spec s name m admin roles scopes :
  token_says (m_jwtAuthenticatedInfo s) admin roles scopes ->
  exists ok rl sl, validateEndpoint (Some s) name ∅ ∅ m = Ret (ok, rl, sl) /\
    (ok = true <-> admitted name m admin roles scopes).
Proof.
  intros [Ha Hr Hs]. unfold validateEndpoint, getAllRoles. rewrite Ha, Hr. cbn [mbind outcome_bind fmap outcome_fmap].
  destruct admin; [eexists true, ∅, ∅; split; [done|]; split; [by left|done]|].
  destruct (erase_held_spec (fun x => hasScope x (m_jwtAuthenticatedInfo s))
    (fun x => existsb (fun r => bool_decide (r = x)) scopes) (elements (getEndpointRequiredScopes name m))
    (getEndpointRequiredScopes name m)) as (l1 & -> & H1); [intros x; unfold hasScope; by rewrite Hs|].
  cbn [mbind outcome_bind].
  destruct (erase_held_spec (fun x => hasRole x (m_jwtAuthenticatedInfo s))
    (fun x => existsb (fun r => bool_decide (r = x)) roles) (elements (getEndpointRequiredRoles name m)) l1)
    as (l2 & -> & H2); [intros x; unfold hasRole; by rewrite Hr|].
  cbn [mbind outcome_bind]. eexists _, _, _. split; [done|]. rewrite bool_decide_true by done. cbn [andb].
  rewrite bool_decide_eq_true. unfold admitted. setoid_rewrite existsb_elem in H1. setoid_rewrite existsb_elem in H2.
  setoid_rewrite elem_of_elements in H1. setoid_rewrite elem_of_elements in H2. split.
  - intros -> . right. intros x Hx. destruct (decide (x ∈ scopes)) as [|Hns]; [by left|right].
    assert (~ ~ (x ∈ getEndpointRequiredRoles name m /\ x ∈ roles)) as Hnn.
    { intros Hn. apply (not_elem_of_empty (C := gset bytes) x), H2. split; [|done]. apply H1. split; [done|]. by intros [_ ?]. }
    destruct (decide (x ∈ getEndpointRequiredRoles name m)), (decide (x ∈ roles)); tauto.
  - intros [|Hall]; [done|]. apply leibniz_equiv, elem_of_equiv_empty. intros x Hx%H2. destruct Hx as [Hx Hn]. apply H1 in Hx as [Hx Hn'].
    destruct (Hall x Hx) as [|]; tauto.
Qed.

(** Who may use a monolithic endpoint ([validateEndpointRequirements]): without
    a session nobody, even where no session is required; with one, exactly an
    administrator or a token with every required scope, where a role of the token
    stands in for a scope of the same name if that role is required.  The required
    roles themselves are never enforced. *)
Theorem monolith_authorization e s name f admin roles scopes :
  m_endpoints e !! name = Some f ->
  token_says (m_jwtAuthenticatedInfo s) admin roles scopes ->
  (exists r, validateEndpointRequirements None name e = Ret (NOTAUTHORIZED, r)) /\
  (exists v r, validateEndpointRequirements (Some s) name e = Ret (v, r) /\
     (v = VALIDATED <-> admitted name (m_endpointsScopes e) admin roles scopes)).
Proof.
  intros Hf Ht. unfold validateEndpointRequirements. rewrite Hf. split.
  - cbn [has_value negb]. rewrite andb_true_r. destruct (default false _); by eexists.
  - cbn [has_value negb]. rewrite andb_false_r.
    destruct (validateEndpoint_spec s name (m_endpointsScopes e) admin roles scopes Ht) as (ok & rl & sl & -> & Hok).
    cbn [mbind outcome_bind]. destruct ok; eexists _, _; (split; [done|]); rewrite <- Hok; done.
Qed.
End MonolithTheory.

(** ** Who may use a RESTful endpoint *)
Section RestTheory.
Context {J : Type} `{JsonCpp J}.
Implicit Types (e : RESTfulEndpoints J) (req : ClientRequest J).

Definition rest_admitted (c : Configuration) (scopes : gset bytes) (admin : bool) (auth : ReceivedAuth) : Prop :=
  (requireJWTHeaderAuthentication c = true -> hasVerifiedJWTAuthorizationHeader auth = true) /\
  (requireJWTCookieAuthentication c = true -> hasVerifiedJWTAccessTokenCookie auth = true) /\
  (admin = true \/ requiredScopes c ⊆ scopes).

Lemma missing_scope (required scopes : gset bytes) :
  existsb (fun s => negb (bool_decide (s ∈ scopes))) (elements required) = false <-> required ⊆ scopes.
Proof.
  rewrite <- not_true_iff_false, existsb_exists. split.
  - intros Hn x Hx. destruct (decide (x ∈ scopes)) as [|Hx']; [done|]. destruct Hn. exists x.
    rewrite bool_decide_false by done. split; [|done]. by apply list_elem_of_In, elem_of_elements.
  - intros Hs (x & Hx%list_elem_of_In%elem_of_elements & Hb). by rewrite bool_decide_true in Hb by by apply Hs.
Qed.

(** The three tests of [handleEndpoint] pass exactly when the caller is admitted. *)
Lemma rest_tests c scopes admin auth :
  requireJWTHeaderAuthentication c && negb (hasVerifiedJWTAuthorizationHeader auth) = false ->
  requireJWTCookieAuthentication c && negb (hasVerifiedJWTAccessTokenCookie auth) = false ->
  negb admin && existsb (fun s => negb (bool_decide (s ∈ scopes))) (elements (requiredScopes c)) = false ->
  rest_admitted c scopes admin auth.
Proof.
  intros H1 H2 H3. split_and!.
  - intros Hr. rewrite Hr in H1. cbn in H1. by apply negb_false_iff.
  - intros Hr. rewrite Hr in H2. cbn in H2. by apply negb_false_iff.
  - destruct admin; [by left|right]. by apply missing_scope.
Qed.

Lemma rest_tests_pass c scopes admin auth :
  rest_admitted c scopes admin auth ->
  requireJWTHeaderAuthentication c && negb (hasVerifiedJWTAuthorizationHeader auth) = false /\
  requireJWTCookieAuthentication c && negb (hasVerifiedJWTAccessTokenCookie auth) = false /\
  negb admin && existsb (fun s => negb (bool_decide (s ∈ scopes))) (elements (requiredScopes c)) = false.
Proof.
  intros (H1 & H2 & H3). split_and!.
  - destruct (requireJWTHeaderAuthentication c); [|done]. by rewrite H1.
  - destruct (requireJWTCookieAuthentication c); [|done]. by rewrite H2.
  - destruct H3 as [->|H3]; [done|]. apply andb_false_intro2. by apply missing_scope.
Qed.

Lemma stringToMethod_unknown method : stringToMethod method <> UNKNOWN ->
  forall path req scopes admin auth r e,
  handleEndpoint method path req scopes admin auth r e =
    handleEndpoint_method (stringToMethod method) path req scopes admin auth r e.
Proof. intros Hm path req scopes admin auth r e. unfold handleEndpoint. by destruct (stringToMethod method). Qed.

(** A branch that reports an error is not a success. *)
Ltac rest_error := by cbn; destruct (setError _ _ _ _).

(** C31. Who may use a RESTful endpoint ([handleEndpoint]): the function of the
    application runs only if it is registered for the method and path, every
    authentication the endpoint requires was verified, and the caller is an
    administrator or has every required scope; the answer is then what the
    function returned.  And such a request with a JSON value always reaches it. *)
Theorem rest_authorized (method path : bytes) req scopes admin auth (r0 : APIReturn J) e :
  (forall res, handleEndpoint method path req scopes admin auth (Some r0) e = Ret (REST_SUCCESS, res) ->
     exists d f input, rest_find (stringToMethod method) path e = Some d /\ endpointDefinition d = Some f /\
       rest_admitted (security d) scopes admin auth /\ res = Some (f req input)) /\
  (forall d f input, rest_find (stringToMethod method) path e = Some d -> endpointDefinition d = Some f ->
     rest_admitted (security d) scopes admin auth -> jsonStreamerContent req = Some input ->
     handleEndpoint method path req scopes admin auth (Some r0) e = Ret (REST_SUCCESS, Some (f req input))).
Proof.
  split.
  - intros res. unfold handleEndpoint. destruct (stringToMethod method) eqn:Em;
      try rest_error; rewrite <- Em; clear Em; unfold handleEndpoint_method;
      (destruct (rest_find _ path e) as [d|]; [|rest_error]);
      (destruct (endpointDefinition d) as [f|] eqn:Ef; [|rest_error]);
      destruct (requireJWTHeaderAuthentication _ && _) eqn:E1; try rest_error;
      destruct (requireJWTCookieAuthentication _ && _) eqn:E2; try rest_error;
      destruct (negb admin && _) eqn:E3; try rest_error;
      pose proof (rest_tests _ _ _ _ E1 E2 E3) as Hadm;
      (destruct (jsonStreamerContent req) as [input|]; [intros [= <-]; by exists d, f, input|]);
      (destruct (bool_decide (getHTTPMethod req = bs "GET"));
         [destruct (bool_decide (getRequestGETVarsRawString req = []))|destruct (content_is_json req)]);
      try rest_error; intros [= <-]; by exists d, f, json_null.
  - intros d f input Hd Hf Hadm Hj. rewrite stringToMethod_unknown by (intros E; by rewrite E in Hd).
    unfold handleEndpoint_method. rewrite Hd, Hf. destruct (rest_tests_pass _ _ _ _ Hadm) as (-> & -> & ->). by rewrite Hj.
Qed.
End RestTheory.

(** ** Which WebSocket endpoint an event reaches *)
Section WsTheory.
Context {Handler : Type}.
Implicit Types (e : WsEndpoints Handler) (d : WsEndpoint Handler).

(** The handlers of an endpoint by event. *)
Definition handler_of d (eventType : EventType) : option Handler := (invokeHandler d eventType).1.

(** An event of a WebSocket connection is handled by the endpoint that was
    looked for last, on any connection: after a connection was admitted to one
    path, a request of another connection to a second path, also one that is
    refused, sends the messages of the first connection to the handlers of the
    second path, with whatever scopes that path requires. *)
Theorem websocket_event_wrong_endpoint e pathA pathB dA dB scopesA scopesB adminA adminB pA pB eventType :
  ws_endpoints e !! pathA = Some dA -> ws_endpoints e !! pathB = Some dB -> eventType <> OTHER_EVENT ->
  let '(e1, resA) := checkEndpoint pathA scopesA adminA pA e in
  let '(e2, resB) := checkEndpoint pathB scopesB adminB pB e1 in
  handleEvent eventType e1 = Ret (handler_of dA eventType, WS_SUCCESS) /\
  handleEvent eventType e2 = Ret (handler_of dB eventType, WS_SUCCESS).
Proof.
  intros HA HB Ht. unfold checkEndpoint. rewrite HA. cbn [ws_endpoints]. rewrite HB. unfold handleEvent. cbn [it ws_endpoints].
  rewrite HA, HB. unfold handler_of. by destruct eventType.
Qed.
End WsTheory.

(** ** Examples *)
Section EndpointExamples.
#[local] Existing Instance tree_json.

(** A token with one scope and no role. *)
Definition example_token_claims : gen_tree Z :=
  json_set json_null (bs "scopes") (json_append json_array (json_string (bs "read"))).
Definition reader : Session (gen_tree Z) := session_new 0 (mkToken example_token_claims true false).

(** An endpoint that requires the scope "read" and the role "boss". *)
Definition boss_only : MonolithEndpoints (gen_tree Z) Z Z :=
  (monolith_addEndpoint (mkEndpointDefinition (fun _ x => x) (bs "f") {[bs "read"]} {[bs "boss"]} true true) monolith_new).1.

Lemma monolith_authorization_witness :
  (exists r, validateEndpointRequirements None (bs "f") boss_only = Ret (NOTAUTHORIZED, r)) /\
  (exists v r, validateEndpointRequirements (Some reader) (bs "f") boss_only = Ret (v, r) /\
     (v = VALIDATED <-> admitted (bs "f") (m_endpointsScopes boss_only) false [] [bs "read"])).
Proof.
  apply (monolith_authorization boss_only reader (bs "f") (fun _ x => x) false [] [bs "read"]).
  - reflexivity.
  - split; vm_compute; reflexivity.
Defined.

(** The reader passes without the role. *)
Example boss_only_admits_reader : validateEndpointRequirements (Some reader) (bs "f") boss_only = Ret (VALIDATED, None).
Proof. vm_compute. reflexivity. Qed.

Definition ok_answer : APIReturn (gen_tree Z) := set_body (json_string (bs "ok")) apireturn_new.
Definition one_endpoint : RESTfulEndpoints (gen_tree Z) :=
  (rest_addEndpoint POST (bs "/f") (mkFullDefinition (Some (fun _ _ => ok_answer)) (configuration_set 1 {[bs "read"]})) rest_new).1.
Definition json_request : ClientRequest (gen_tree Z) := mkClientRequest (Some json_null) (bs "POST") [] true.

Lemma rest_authorized_witness :
  handleEndpoint (bs "POST") (bs "/f") json_request {[bs "read"]} false (mkReceivedAuth true false)
    (Some apireturn_new) one_endpoint = Ret (REST_SUCCESS, Some ok_answer).
Proof.
  apply (proj2 (rest_authorized (bs "POST") (bs "/f") json_request {[bs "read"]} false (mkReceivedAuth true false)
    apireturn_new one_endpoint) (mkFullDefinition (Some (fun _ _ => ok_answer)) (configuration_set 1 {[bs "read"]}))
    (fun _ _ => ok_answer) json_null).
  - reflexivity.
  - reflexivity.
  - split; [reflexivity|]. split; [discriminate|]. right. reflexivity.
  - reflexivity.
Defined.

Definition ws_open (h : Z) : WsEndpoint Z := mkWsEndpoint None None (Some h) None (mkConfiguration false false ∅) false.
Definition ws_closed (h : Z) : WsEndpoint Z := mkWsEndpoint None None (Some h) None (mkConfiguration true true {[bs "admin"]}) true.
Definition two_paths : WsEndpoints Z :=
  mkWsEndpoints {[bs "/public" := ws_open 1; bs "/private" := ws_closed 2]} None.

Lemma websocket_event_wrong_endpoint_witness :
  let '(e1, resA) := checkEndpoint (bs "/public") ∅ false (mkSecurityParameters false false false) two_paths in
  let '(e2, resB) := checkEndpoint (bs "/private") ∅ false (mkSecurityParameters false false false) e1 in
  handleEvent RECEIVED_MESSAGE_TEXT e1 = Ret (handler_of (ws_open 1) RECEIVED_MESSAGE_TEXT, WS_SUCCESS) /\
  handleEvent RECEIVED_MESSAGE_TEXT e2 = Ret (handler_of (ws_closed 2) RECEIVED_MESSAGE_TEXT, WS_SUCCESS).
Proof.
  apply (websocket_event_wrong_endpoint two_paths (bs "/public") (bs "/private") (ws_open 1) (ws_closed 2) ∅ ∅ false false
    (mkSecurityParameters false false false) (mkSecurityParameters false false false) RECEIVED_MESSAGE_TEXT).
  - reflexivity.
  - reflexivity.
  - discriminate.
Defined.
End EndpointExamples.
