(* ===== verification/ResourcesFilter.v ===== *)
(** * The filter of web resources (Server_WebCore/resourcesfilter.cpp)

    A list of rules: what the session must and must not have, the patterns of the
    paths, and what is done with a path that matches.  The regular expressions of
    Boost and the property trees the rules are read from are parameters. *)

From S2P Require Import Prelude SafeInt Mem CLib.
From Stdlib Require Import ZArith Lia.
From stdpp Require Import gmap.
#[local] Open Scope Z_scope.

(** [boost::regex], compiled from a text, and [regex_match] of a whole C string. *)
Class BoostRegex (R : Type) := {
  regex_compile : bytes -> R;
  regex_match : R -> bytes -> bool }.

(** [boost::property_tree]: [read_json] of a file, the children, a child by name
    and the conversions; [get_value] of a text always succeeds. *)
Class PropertyTree (T : Type) := {
  read_json : bytes -> outcome T;
  pt_children : T -> list T;
  get_child_optional : T -> bytes -> option T;
  get_value_string : T -> bytes;
  get_bool : T -> bytes -> bool -> bool }.

Inductive FilterAction := ACCEPT | DENY | REDIRECT.
#[export] Instance FilterAction_eq_dec : EqDecision FilterAction.
Proof. solve_decision. Defined.

Record FilterEvaluationResult := mkEvaluation { fe_accept : bool; fe_redirectLocation : bytes }.
Definition evaluation_new : FilterEvaluationResult := mkEvaluation true [].

Section Filter.
Context {R : Type} `{!BoostRegex R}.

Record Filter := mkFilter {
  regexPatterns : list R;
  redirectLocation : bytes;
  f_requiredScopes : list bytes;
  rejectedScopes : list bytes;
  requiredRoles : list bytes;
  rejectedRoles : list bytes;
  sRegexs : list bytes;
  f_requireSession : bool;
  disallowSession : bool;
  action : FilterAction }.

Definition compileRegex (f : Filter) : Filter :=
  mkFilter (regexPatterns f ++ map (fun i => regex_compile (c_str i)) (sRegexs f)) (redirectLocation f)
    (f_requiredScopes f) (rejectedScopes f) (requiredRoles f) (rejectedRoles f) (sRegexs f) (f_requireSession f)
    (disallowSession f) (action f).

Definition addFilter (f : Filter) (m_filters : list Filter) : list Filter := m_filters ++ [f].

(** A loop over names that stops to look once the filter does not match: all
    names are held, or none is. *)
Fixpoint check_required (names : list bytes) (held : gset bytes) (matches : bool) : bool :=
  match names with
  | [] => matches
  | n :: names =>
      if negb matches then matches
      else check_required names held (if bool_decide (n ∉ held) then false else matches)
  end.

Fixpoint check_rejected (names : list bytes) (held : gset bytes) (matches : bool) : bool :=
  match names with
  | [] => matches
  | n :: names =>
      if negb matches then matches
      else check_rejected names held (if bool_decide (n ∈ held) then false else matches)
  end.

(** [filterMatchesRequirements]. *)
Definition matches_requirements (f : Filter) (scopes roles : gset bytes) (isSessionActive : bool) : bool :=
  let m := check_required (f_requiredScopes f) scopes true in
  let m := check_rejected (rejectedScopes f) scopes m in
  let m := check_required (requiredRoles f) roles m in
  let m := check_rejected (rejectedRoles f) roles m in
  let m := if f_requireSession f && negb isSessionActive then false else m in
  if disallowSession f && isSessionActive then false else m.

Definition apply_action (f : Filter) : FilterEvaluationResult :=
  match action f with
  | ACCEPT => mkEvaluation true []
  | REDIRECT => mkEvaluation true (redirectLocation f)
  | DENY => mkEvaluation false []
  end.

(** The patterns of one rule: the first that matches decides. *)
Fixpoint match_patterns (patterns : list R) (uri : bytes) (f : Filter) : option FilterEvaluationResult :=
  match patterns with
  | [] => None
  | p :: patterns => if regex_match p (c_str uri) then Some (apply_action f) else match_patterns patterns uri f
  end.

Fixpoint evaluateURI (m_filters : list Filter) (uri : bytes) (scopes roles : gset bytes) (isSessionActive : bool) : FilterEvaluationResult :=
  match m_filters with
  | [] => evaluation_new
  | f :: m_filters =>
      if negb (matches_requirements f scopes roles isSessionActive) then evaluateURI m_filters uri scopes roles isSessionActive
      else
        match match_patterns (regexPatterns f) uri f with
        | Some r => r
        | None => evaluateURI m_filters uri scopes roles isSessionActive
        end
  end.
End Filter.
Arguments Filter R : clear implicits.

(** ** Reading the rules *)
Section Load.
Context {R : Type} `{!BoostRegex R} {T : Type} `{!PropertyTree T}.

(** The texts of a list, when the entry has it. *)
Definition texts_of (entry : T) (name : bytes) : list bytes :=
  match get_child_optional entry name with
  | Some l => map get_value_string (pt_children l)
  | None => []
  end.

(** A word that is not one of the three leaves the action as it is: ACCEPT. *)
Definition action_of (sAction : bytes) : FilterAction :=
  if bool_decide (to_upper_copy sAction = bs "REDIRECT") then REDIRECT
  else if bool_decide (to_upper_copy sAction = bs "DENY") then DENY
  else ACCEPT.

Definition filter_of (entry : T) : outcome (Filter R) :=
  match get_child_optional entry (bs "action") with
  | None => Throw (runtime_error "No such node (action)")
  | Some a =>
      let f := compileRegex (mkFilter [] [] [] [] [] [] (texts_of entry (bs "uriRegex")) false false ACCEPT) in
      Ret (mkFilter (regexPatterns f)
             (match get_child_optional entry (bs "redirectLocation") with Some l => get_value_string l | None => [] end)
             (texts_of entry (bs "requiredScopes")) (texts_of entry (bs "disallowedScopes"))
             (texts_of entry (bs "requiredRoles")) (texts_of entry (bs "disallowedRoles")) (sRegexs f)
             (get_bool entry (bs "requireSession") false) (get_bool entry (bs "disallowSession") false)
             (action_of (get_value_string a)))
  end.

Fixpoint load_entries (entries : list T) (m_filters : list (Filter R)) : outcome (list (Filter R)) :=
  match entries with
  | [] => Ret m_filters
  | e :: entries => f ← filter_of e; load_entries entries (addFilter f m_filters)
  end.

Definition loadFiltersFromFile (filePath : bytes) (m_filters : list (Filter R)) : outcome (list (Filter R) * bool) :=
  root ← read_json filePath;
  l ← load_entries (pt_children root) m_filters;
  Ret (l, true).
End Load.

(** ** The first rule decides *)
Section Theory.
Context {R : Type} `{!BoostRegex R}.
Implicit Types (f : Filter R) (l : list (Filter R)).

(** A rule applies to a session and a path. *)
Definition session_fits f (scopes roles : gset bytes) (active : bool) : Prop :=
  Forall (fun n => n ∈ scopes) (f_requiredScopes f) /\ Forall (fun n => n ∉ scopes) (rejectedScopes f) /\
  Forall (fun n => n ∈ roles) (requiredRoles f) /\ Forall (fun n => n ∉ roles) (rejectedRoles f) /\
  (f_requireSession f = true -> active = true) /\ (disallowSession f = true -> active = false).
Definition path_fits f (uri : bytes) : Prop := Exists (fun p => regex_match p (c_str uri) = true) (regexPatterns f).
Definition applies (uri : bytes) (scopes roles : gset bytes) (active : bool) f : Prop :=
  session_fits f scopes roles active /\ path_fits f uri.

Lemma check_required_spec names held m : check_required names held m = true <-> m = true /\ Forall (fun n => n ∈ held) names.
Proof.
  revert m. induction names as [|n names IH]; intros m; cbn [check_required]; [by split; [|intros []]|].
  destruct m; cbn [negb]; [|by split; [|intros []]]. rewrite IH, Forall_cons. case_bool_decide; intuition done.
Qed.

Lemma check_rejected_spec names held m : check_rejected names held m = true <-> m = true /\ Forall (fun n => n ∉ held) names.
Proof.
  revert m. induction names as [|n names IH]; intros m; cbn [check_rejected]; [by split; [|intros []]|].
  destruct m; cbn [negb]; [|by split; [|intros []]]. rewrite IH, Forall_cons. case_bool_decide; intuition done.
Qed.

Lemma matches_requirements_spec f scopes roles active :
  matches_requirements f scopes roles active = true <-> session_fits f scopes roles active.
Proof.
  unfold matches_requirements, session_fits.
  destruct (disallowSession f), (f_requireSession f), active; cbn [andb negb];
    rewrite ?check_rejected_spec, ?check_required_spec, ?check_rejected_spec, ?check_required_spec; intuition done.
Qed.

Lemma match_patterns_spec patterns uri f :
  (Exists (fun p => regex_match p (c_str uri) = true) patterns /\ match_patterns patterns uri f = Some (apply_action f)) \/
  (~ Exists (fun p => regex_match p (c_str uri) = true) patterns /\ match_patterns patterns uri f = None).
Proof.
  induction patterns as [|p patterns IH]; cbn [match_patterns]; [right; split; [by intros ?%Exists_nil|done]|].
  destruct (regex_match p (c_str uri)) eqn:E; [left; by split; [left|]|].
  destruct IH as [[? ->]|[Hn ->]]; [left; by split; [right|]|right]. split; [|done].
  intros [?|?]%Exists_cons; [congruence|done].
Qed.

(** The path is decided by the first rule that applies to the session and to the
    path, whatever comes after it; a path no rule applies to is accepted. *)
Theorem evaluateURI_first l uri scopes roles active :
  (exists l1 f l2, l = l1 ++ f :: l2 /\ Forall (fun g => ~ applies uri scopes roles active g) l1 /\
     applies uri scopes roles active f /\ evaluateURI l uri scopes roles active = apply_action f) \/
  (Forall (fun g => ~ applies uri scopes roles active g) l /\ evaluateURI l uri scopes roles active = mkEvaluation true []).
Proof.
  induction l as [|f l IH]; cbn [evaluateURI]; [by right|].
  assert (~ applies uri scopes roles active f ->
    (exists l1 g l2, f :: l = l1 ++ g :: l2 /\ Forall (fun g => ~ applies uri scopes roles active g) l1 /\
       applies uri scopes roles active g /\ evaluateURI l uri scopes roles active = apply_action g) \/
    (Forall (fun g => ~ applies uri scopes roles active g) (f :: l) /\ evaluateURI l uri scopes roles active = mkEvaluation true [])) as Hskip.
  { intros Hn. destruct IH as [(l1 & g & l2 & -> & Hl & Hg & E)|[Hl E]]; [left|right]; [|by split; [constructor|]].
    exists (f :: l1), g, l2. by split_and!; [|constructor| |]. }
  destruct (matches_requirements f scopes roles active) eqn:Em; cbn [negb].
  - apply matches_requirements_spec in Em. destruct (match_patterns_spec (regexPatterns f) uri f) as [[Hp ->]|[Hp ->]].
    + left. by exists [], f, l.
    + apply Hskip. by intros [_ ?].
  - apply Hskip. intros [Hs%matches_requirements_spec _]. congruence.
Qed.

(** A rule whose action is misspelt accepts what it was written to deny. *)
Lemma misspelt_action_accepts (sAction : bytes) :
  to_upper_copy sAction <> bs "DENY" -> to_upper_copy sAction <> bs "REDIRECT" -> action_of sAction = ACCEPT.
Proof. intros H1 H2. unfold action_of. by rewrite !bool_decide_eq_false_2. Qed.
End Theory.
