(* ===== verification/Cors.v ===== *)
(** * Cross-origin requests (API_EndpointsAndSessions/api_options_handler.cpp,
      endpoints_options.cpp)

    What an endpoint answers to OPTIONS: the origins, methods and headers a page
    of another site may use.  A [std::set] is the list of its elements in order. *)

From S2P Require Import Prelude SafeInt Mem CLib Encoders HttpHeaders Jwt JwtVerify Endpoints.
From Stdlib Require Import ZArith Lia.
From stdpp Require Import countable.
#[local] Open Scope Z_scope.

(** [std::set::insert]. *)
Fixpoint os_insert (k : bytes) (s : list bytes) : list bytes :=
  match s with
  | [] => [k]
  | e :: s' => if bytes_lt k e then k :: s else if bool_decide (k = e) then s else e :: os_insert k s'
  end.

Record OptionsHandlerConfig := mkOptions {
  allowedOrigins : list bytes;
  allowedMethods : list bytes;
  allowedHeaders : list bytes;
  exposeHeaders : list bytes;
  allowCredentials : bool;
  maxAgeSeconds : Z }.

Definition options_new : OptionsHandlerConfig := mkOptions [] [] [] [] false 86400.

Definition setAllowedOrigins (v : list bytes) (c : OptionsHandlerConfig) : OptionsHandlerConfig :=
  mkOptions v (allowedMethods c) (allowedHeaders c) (exposeHeaders c) (allowCredentials c) (maxAgeSeconds c).
Definition setAllowedMethods (v : list bytes) (c : OptionsHandlerConfig) : OptionsHandlerConfig :=
  mkOptions (allowedOrigins c) v (allowedHeaders c) (exposeHeaders c) (allowCredentials c) (maxAgeSeconds c).
Definition setAllowedHeaders (v : list bytes) (c : OptionsHandlerConfig) : OptionsHandlerConfig :=
  mkOptions (allowedOrigins c) (allowedMethods c) v (exposeHeaders c) (allowCredentials c) (maxAgeSeconds c).
Definition setExposeHeaders (v : list bytes) (c : OptionsHandlerConfig) : OptionsHandlerConfig :=
  mkOptions (allowedOrigins c) (allowedMethods c) (allowedHeaders c) v (allowCredentials c) (maxAgeSeconds c).
Definition setAllowCredentials (v : bool) (c : OptionsHandlerConfig) : OptionsHandlerConfig :=
  mkOptions (allowedOrigins c) (allowedMethods c) (allowedHeaders c) (exposeHeaders c) v (maxAgeSeconds c).
Definition setMaxAgeSeconds (v : Z) (c : OptionsHandlerConfig) : OptionsHandlerConfig :=
  mkOptions (allowedOrigins c) (allowedMethods c) (allowedHeaders c) (exposeHeaders c) (allowCredentials c) v.
Definition insertAllowedOrigin (v : bytes) (c : OptionsHandlerConfig) : OptionsHandlerConfig :=
  setAllowedOrigins (os_insert v (allowedOrigins c)) c.
Definition insertAllowedMethod (v : bytes) (c : OptionsHandlerConfig) : OptionsHandlerConfig :=
  setAllowedMethods (os_insert v (allowedMethods c)) c.
Definition insertAllowedHeader (v : bytes) (c : OptionsHandlerConfig) : OptionsHandlerConfig :=
  setAllowedHeaders (os_insert v (allowedHeaders c)) c.
Definition insertExposeHeader (v : bytes) (c : OptionsHandlerConfig) : OptionsHandlerConfig :=
  setExposeHeaders (os_insert v (exposeHeaders c)) c.

Definition allowsAllOrigins (c : OptionsHandlerConfig) : bool := bool_decide (bs "*" ∈ allowedOrigins c).
Definition allowsOrigin (origin : bytes) (c : OptionsHandlerConfig) : bool :=
  if allowsAllOrigins c then true else bool_decide (origin ∈ allowedOrigins c).
Definition getOriginsHeader (c : OptionsHandlerConfig) : bytes :=
  if allowsAllOrigins c then bs "*" else match allowedOrigins c with o :: _ => o | [] => [] end.
Definition getMethodsHeader (c : OptionsHandlerConfig) : bytes := join_with (bs ", ") (allowedMethods c).
Definition getHeadersHeader (c : OptionsHandlerConfig) : bytes := join_with (bs ", ") (allowedHeaders c).
Definition getExposeHeadersHeader (c : OptionsHandlerConfig) : bytes := join_with (bs ", ") (exposeHeaders c).

Section Cors.
Context {J : Type} `{JsonCpp J}.
Implicit Types r : APIReturn J.

Definition addHeader_if (cond : bool) (name value : bytes) r : APIReturn J := if cond then addHeader name value r else r.
Definition nonempty_or (v d : bytes) : bytes := match v with [] => d | _ => v end.

Definition configureAPIReturnOptionsHeaders (requestOrigin : bytes) (c : OptionsHandlerConfig) r : APIReturn J :=
  let r :=
    if bool_decide (requestOrigin <> []) && allowsOrigin requestOrigin c then
      addHeader (bs "Access-Control-Allow-Origin") (if allowsAllOrigins c then bs "*" else requestOrigin) r
    else addHeader_if (bool_decide (allowedOrigins c <> [])) (bs "Access-Control-Allow-Origin") (getOriginsHeader c) r in
  let r := addHeader (bs "Access-Control-Allow-Methods")
             (nonempty_or (getMethodsHeader c) (bs "GET, POST, PUT, DELETE, OPTIONS")) r in
  let r := addHeader (bs "Access-Control-Allow-Headers")
             (nonempty_or (getHeadersHeader c) (bs "Content-Type, Authorization")) r in
  let r := addHeader_if (bool_decide (getExposeHeadersHeader c <> [])) (bs "Access-Control-Expose-Headers")
             (getExposeHeadersHeader c) r in
  let r := addHeader_if (allowCredentials c) (bs "Access-Control-Allow-Credentials") (bs "true") r in
  addHeader_if (maxAgeSeconds c >? 0) (bs "Access-Control-Max-Age") (to_string (maxAgeSeconds c)) r.

(** [Endpoints_Options]. *)
Record Endpoints_Options := mkEndpointsOptions {
  m_globalOptionsConfig : OptionsHandlerConfig;
  m_perEndpointOptionsConfig : list (bytes * OptionsHandlerConfig);
  isOptionsEnabled : bool }.

Definition endpoints_options_new : Endpoints_Options := mkEndpointsOptions options_new [] false.

Definition setEndpointOptions (endpointPath : bytes) (config : OptionsHandlerConfig) (e : Endpoints_Options) : Endpoints_Options :=
  match endpointPath with
  | [] => mkEndpointsOptions config (m_perEndpointOptionsConfig e) true
  | _ => mkEndpointsOptions (m_globalOptionsConfig e) (om_set endpointPath config (m_perEndpointOptionsConfig e)) true
  end.

Definition getOptionsConfigOnEndpoint (endpointPath : bytes) (e : Endpoints_Options) : option OptionsHandlerConfig :=
  mm_find endpointPath (m_perEndpointOptionsConfig e).

Definition buildCORSOptionsResponse (config : OptionsHandlerConfig) (requestOrigin : bytes) : APIReturn J :=
  configureAPIReturnOptionsHeaders requestOrigin config (setStatus 204 apireturn_new).

(** The end of [handleOptionsRequest] of the servers: the configuration of the
    endpoint, or else the global one. *)
Definition options_response (endpointName origin : bytes) (e : Endpoints_Options) : APIReturn J :=
  if isOptionsEnabled e then
    buildCORSOptionsResponse (default (m_globalOptionsConfig e) (getOptionsConfigOnEndpoint endpointName e)) origin
  else apireturn_new.

(** ** Which pages may read the answers *)

(** The header a browser looks at. *)
Definition allow_origin r : option bytes := mm_find (bs "Access-Control-Allow-Origin") (httpExtraHeaders r).

(** A browser gives the answer to a page of this origin. *)
Definition readable_from (origin : bytes) r : Prop := allow_origin r = Some (bs "*") \/ allow_origin r = Some origin.

Lemma addHeader_if_code cond n v r : httpResponseCode (addHeader_if cond n v r) = httpResponseCode r.
Proof. by destruct cond. Qed.

Lemma allow_origin_configured origin c r :
  allow_origin (configureAPIReturnOptionsHeaders origin c r) =
    if bool_decide (origin <> []) && allowsOrigin origin c then Some (if allowsAllOrigins c then bs "*" else origin)
    else if bool_decide (allowedOrigins c <> []) then Some (getOriginsHeader c) else allow_origin r.
Proof.
  assert (forall cond n v r', bs "Access-Control-Allow-Origin" <> n -> allow_origin (addHeader_if cond n v r') = allow_origin r') as Hne.
  { intros [] n v r' Hn; [|done]. by apply mm_find_om_set_ne. }
  unfold configureAPIReturnOptionsHeaders. rewrite !Hne by done.
  assert (forall n v r', bs "Access-Control-Allow-Origin" <> n -> allow_origin (addHeader n v r') = allow_origin r') as Hne'
    by (intros; by apply mm_find_om_set_ne).
  rewrite !Hne' by done. destruct (_ && _); [apply mm_find_om_set|]. destruct (bool_decide _); [apply mm_find_om_set|done].
Qed.

(** C34. The answer to OPTIONS, when it is enabled and the request names an origin, has
    the code 204 and can be read by the pages of the allowed origins and of no
    other: with the origin star by every page, otherwise by the origins of the list;
    a page of another origin is told the name of the first allowed one, or nothing
    when none is allowed.  The configuration that counts is the one of the endpoint,
    or the global one for an endpoint without. *)
Theorem cors_exact (endpointName origin : bytes) (e : Endpoints_Options) :
  origin <> [] -> isOptionsEnabled e = true ->
  let c := default (m_globalOptionsConfig e) (getOptionsConfigOnEndpoint endpointName e) in
  httpResponseCode (options_response endpointName origin e) = 204 /\
  (readable_from origin (options_response endpointName origin e) <-> bs "*" ∈ allowedOrigins c \/ origin ∈ allowedOrigins c) /\
  ((bs "*") ∉ allowedOrigins c -> origin ∉ allowedOrigins c ->
   allow_origin (options_response endpointName origin e) = head (allowedOrigins c)).
Proof.
  intros Ho He. cbv zeta. unfold options_response. rewrite He. set (c := default _ _). split.
  { unfold buildCORSOptionsResponse, configureAPIReturnOptionsHeaders. cbv zeta. rewrite !addHeader_if_code.
    cbn [httpResponseCode addHeader]. by destruct (_ && _); rewrite ?addHeader_if_code. }
  split.
  2: { intros Hs Hin. unfold buildCORSOptionsResponse. rewrite allow_origin_configured. unfold allowsOrigin, getOriginsHeader, allowsAllOrigins.
    rewrite (bool_decide_eq_false_2 (bs "*" ∈ _)), (bool_decide_eq_false_2 (origin ∈ _)), andb_false_r by done.
    by destruct (allowedOrigins c). }
  unfold readable_from, buildCORSOptionsResponse. rewrite allow_origin_configured, bool_decide_eq_true_2 by done.
  unfold allowsOrigin, getOriginsHeader, allowsAllOrigins. cbn [andb].
  case_bool_decide as Hs; [by split; [left|intros _; left]|]. case_bool_decide as Hin; [by split; right|].
  destruct (allowedOrigins c) as [|o l] eqn:El; [by split; [intros [?|?]|intros [?|?]]|].
  rewrite bool_decide_eq_true_2 by done. split; intros [E|E].
  - injection E as ->. destruct Hs. apply list_elem_of_here.
  - injection E as ->. destruct Hin. apply list_elem_of_here.
  - done.
  - done.
Qed.
End Cors.

(** ** An example *)
#[local] Existing Instance tree_json.
Definition one_origin : Endpoints_Options :=
  setEndpointOptions (bs "list") (insertAllowedOrigin (bs "https://a.org") options_new) endpoints_options_new.

Lemma cors_exact_witness :
  httpResponseCode (options_response (J := gen_tree Z) (bs "list") (bs "https://b.org") one_origin) = 204 /\
  ~ readable_from (bs "https://b.org") (options_response (J := gen_tree Z) (bs "list") (bs "https://b.org") one_origin) /\
  allow_origin (options_response (J := gen_tree Z) (bs "list") (bs "https://b.org") one_origin) = Some (bs "https://a.org").
Proof.
  destruct (cors_exact (J := gen_tree Z) (bs "list") (bs "https://b.org") one_origin ltac:(discriminate) eq_refl) as (Hc & Hr & Ha).
  split; [exact Hc|]. split.
  - intros E. destruct (proj1 Hr E) as [E'|E']; revert E'; apply (bool_decide_unpack _); vm_compute; exact I.
  - refine (Ha _ _); apply (bool_decide_unpack _); vm_compute; exact I.
Defined.
