(* ===== verification/WebApi.v ===== *)
(** * Servers of an API: the state and the interface
      (Server_WebCore/apiserver_clienthandler.h, apiserver_config.h)

    An [APIServer_ClientHandler] is the HTTP server of one connection
    ([hs_app] holds its members) with the configuration all connections share.
    What a kind of server (RESTful, monolithic) supplies are the virtual
    functions of the class [ApiServer].

    Sessions, the token validator and the WebSocket endpoints are shared by
    pointer: they are in the state, and a session is known by its address in
    [wa_auth].  The functions an application registers, the objects that carry
    JSON and text, and the printing of JSON are parameters. *)

From S2P Require Import Prelude SafeInt Mem Streamable Container ContainerTheory BMem BChunks ChunkBuffer BRef.
From S2P Require Import SubParser Parser CLib HttpContent MimeHeader HeaderTheory Encoders UrlStream HttpVars HttpLines HttpHeaders HttpResponse WebSocket HttpServer.
From S2P Require Import Jwt JwtVerify Threads Sessions Endpoints ResourcesFilter.
From Stdlib Require Import ZArith Lia.
From stdpp Require Import gmap.
#[local] Open Scope Z_scope.

(** What the handlers make of objects and read in them: [StreamableJSON] with its
    format and value, [StreamableString] with the text written to it, a variable
    of posted variables, the bytes of a memory container. *)
Class WebObjects (J O : Type) := {
  json_streamer : bool -> J -> O;
  json_value : O -> J;
  string_streamer : bytes -> O;
  posted_value : O -> bytes -> option bytes;
  object_bytes : O -> bytes }.

(** More of JsonCpp: values of other types, and the two printers. *)
Class JsonOutput (J : Type) := {
  json_bool : bool -> J;
  json_uint64 : Z -> J;
  json_int : Z -> J;
  fast_write : J -> bytes;
  styled_write : J -> bytes }.

(** [session.h]: what a connection knows of its session. *)
Record SessionInfo := mkSessionInfo {
  si_authSession : option Z;
  halfSessionId : bytes;
  sessionId : bytes;
  isImpersonation : bool }.

Definition sessioninfo_new : SessionInfo := mkSessionInfo None [] [] false.

(** [RPCLog::truncateSessionId]. *)
Definition truncateSessionId (sSessionId : bytes) : bytes :=
  if zlen sSessionId >? 12 then ztake 12 sSessionId else sSessionId.

(** ** The connections of a WebSocket endpoint (api_websocket_endpoint.cpp)

    The [SessionInfo] a connection points to does not change once the connection
    is a WebSocket.  Sending to a connection gives its identifier. *)
Record WebSocketConnection := mkConnection {
  c_sessionInfo : SessionInfo;
  subscribedTopics : gset bytes }.

Section Connections.
Context {J : Type} `{JsonCpp J}.
Implicit Types connections : gmap bytes WebSocketConnection.

(** [connection->sessionInfo->authSession->getUser()]: the pointer may be null. *)
Definition connection_user (auth : gmap Z (Session J)) (c : WebSocketConnection) : outcome bytes :=
  match si_authSession (c_sessionInfo c) with
  | None => Undef
  | Some p => s ← deref auth p; Ret (m_user s)
  end.

Fixpoint count_connections (auth : gmap Z (Session J)) (userId : bytes) (l : list WebSocketConnection) : outcome Z :=
  match l with
  | [] => Ret 0
  | c :: l =>
      user ← connection_user auth c;
      n ← count_connections auth userId l;
      Ret (if bool_decide (user = userId) then n + 1 else n)
  end.

Definition getActiveUserConnectionsCount (auth : gmap Z (Session J)) (userId : bytes) connections : outcome Z :=
  count_connections auth userId (snd <$> map_to_list connections).

Definition sendJSONToConnectionID (sessionId : bytes) connections : list bytes * bool :=
  match connections !! sessionId with
  | Some _ => ([sessionId], true)
  | None => ([], false)
  end.

Fixpoint send_to_user (auth : gmap Z (Session J)) (userId : bytes) (l : list (bytes * WebSocketConnection)) : outcome (list bytes * bool) :=
  match l with
  | [] => Ret ([], false)
  | (id, c) :: l =>
      user ← connection_user auth c;
      if bool_decide (user = userId) then Ret ([id], true) else send_to_user auth userId l
  end.
Definition sendJSONToUser (auth : gmap Z (Session J)) (userId : bytes) connections : outcome (list bytes * bool) :=
  send_to_user auth userId (map_to_list connections).

Definition sendJSONToSubscriptionTopic (topicId : bytes) connections : list bytes :=
  fst <$> filter (fun c => topicId ∈ subscribedTopics c.2) (map_to_list connections).

Definition joinTopicSubscription (maxTopics : Z) (sessionId topicId : bytes) connections : gmap bytes WebSocketConnection * bool :=
  match connections !! sessionId with
  | None => (connections, false)
  | Some c =>
      if Z.of_nat (size (subscribedTopics c)) <? maxTopics
      then (<[sessionId := mkConnection (c_sessionInfo c) ({[topicId]} ∪ subscribedTopics c)]> connections, true)
      else (connections, false)
  end.

Definition leaveTopicSubscription (sessionId topicId : bytes) connections : gmap bytes WebSocketConnection * bool :=
  match connections !! sessionId with
  | None => (connections, false)
  | Some c => (<[sessionId := mkConnection (c_sessionInfo c) (subscribedTopics c ∖ {[topicId]})]> connections, true)
  end.
End Connections.

(** ** The members of a client handler

    [wa_endpoints] is the object all connections use, with the connections of
    each path; [wa_derived] are the members of the class of the server. *)
Record WebApp (J W D : Type) := mkWebApp {
  jwtToken : Token J;
  currentSessionInfo : SessionInfo;
  logUsername : bytes;
  m_webSocketSessionId : bytes;
  m_webSocketCurrentEndpoint : option bytes;
  wa_endpoints : WsEndpoints W;
  wa_connections : gmap bytes (gmap bytes WebSocketConnection);
  wa_auth : gmap Z (Session J);
  wa_validator : option JWT;
  wa_draws : nat;
  wa_derived : D }.
Arguments mkWebApp {_ _ _} _ _ _ _ _ _ _ _ _ _ _.
Arguments jwtToken {_ _ _} _.
Arguments currentSessionInfo {_ _ _} _.
Arguments logUsername {_ _ _} _.
Arguments m_webSocketSessionId {_ _ _} _.
Arguments m_webSocketCurrentEndpoint {_ _ _} _.
Arguments wa_endpoints {_ _ _} _.
Arguments wa_connections {_ _ _} _.
Arguments wa_auth {_ _ _} _.
Arguments wa_validator {_ _ _} _.
Arguments wa_draws {_ _ _} _.
Arguments wa_derived {_ _ _} _.

Section WebApi.
Context {M S O J R W D : Type}.
Abbreviation App := (WebApp J W D).
Abbreviation Web := (HttpServer M S O (WebApp J W D)).
Implicit Types a : App.

Definition wa_set_token (v : Token J) a : App :=
  mkWebApp v (currentSessionInfo a) (logUsername a) (m_webSocketSessionId a) (m_webSocketCurrentEndpoint a) (wa_endpoints a)
    (wa_connections a) (wa_auth a) (wa_validator a) (wa_draws a) (wa_derived a).
Definition wa_set_info (v : SessionInfo) a : App :=
  mkWebApp (jwtToken a) v (logUsername a) (m_webSocketSessionId a) (m_webSocketCurrentEndpoint a) (wa_endpoints a)
    (wa_connections a) (wa_auth a) (wa_validator a) (wa_draws a) (wa_derived a).
Definition wa_set_user (v : bytes) a : App :=
  mkWebApp (jwtToken a) (currentSessionInfo a) v (m_webSocketSessionId a) (m_webSocketCurrentEndpoint a) (wa_endpoints a)
    (wa_connections a) (wa_auth a) (wa_validator a) (wa_draws a) (wa_derived a).
Definition wa_set_ws_id (v : bytes) a : App :=
  mkWebApp (jwtToken a) (currentSessionInfo a) (logUsername a) v (m_webSocketCurrentEndpoint a) (wa_endpoints a)
    (wa_connections a) (wa_auth a) (wa_validator a) (wa_draws a) (wa_derived a).
Definition wa_set_ws_endpoint (v : option bytes) a : App :=
  mkWebApp (jwtToken a) (currentSessionInfo a) (logUsername a) (m_webSocketSessionId a) v (wa_endpoints a)
    (wa_connections a) (wa_auth a) (wa_validator a) (wa_draws a) (wa_derived a).
Definition wa_set_endpoints (v : WsEndpoints W) a : App :=
  mkWebApp (jwtToken a) (currentSessionInfo a) (logUsername a) (m_webSocketSessionId a) (m_webSocketCurrentEndpoint a) v
    (wa_connections a) (wa_auth a) (wa_validator a) (wa_draws a) (wa_derived a).
Definition wa_set_connections (v : gmap bytes (gmap bytes WebSocketConnection)) a : App :=
  mkWebApp (jwtToken a) (currentSessionInfo a) (logUsername a) (m_webSocketSessionId a) (m_webSocketCurrentEndpoint a)
    (wa_endpoints a) v (wa_auth a) (wa_validator a) (wa_draws a) (wa_derived a).
Definition wa_set_auth (v : gmap Z (Session J)) a : App :=
  mkWebApp (jwtToken a) (currentSessionInfo a) (logUsername a) (m_webSocketSessionId a) (m_webSocketCurrentEndpoint a)
    (wa_endpoints a) (wa_connections a) v (wa_validator a) (wa_draws a) (wa_derived a).
Definition wa_set_validator (v : option JWT) a : App :=
  mkWebApp (jwtToken a) (currentSessionInfo a) (logUsername a) (m_webSocketSessionId a) (m_webSocketCurrentEndpoint a)
    (wa_endpoints a) (wa_connections a) (wa_auth a) v (wa_draws a) (wa_derived a).
Definition wa_set_draws (v : nat) a : App :=
  mkWebApp (jwtToken a) (currentSessionInfo a) (logUsername a) (m_webSocketSessionId a) (m_webSocketCurrentEndpoint a)
    (wa_endpoints a) (wa_connections a) (wa_auth a) (wa_validator a) v (wa_derived a).
Definition wa_set_derived (v : D) a : App :=
  mkWebApp (jwtToken a) (currentSessionInfo a) (logUsername a) (m_webSocketSessionId a) (m_webSocketCurrentEndpoint a)
    (wa_endpoints a) (wa_connections a) (wa_auth a) (wa_validator a) (wa_draws a) v.

(** An object made with [make_shared]: its address. *)
Definition new_session (x : Session J) a : App * Z :=
  let p := fresh (dom (wa_auth a)) in (wa_set_auth (<[p := x]> (wa_auth a)) a, p).

Definition on_app (f : App -> App) (s : Web) : Web := hs_set_app (f (hs_app s)) s.

(** [currentSessionInfo.authSession], followed to the session. *)
Definition current_session (s : Web) : outcome (option (Session J)) :=
  match si_authSession (currentSessionInfo (hs_app s)) with
  | None => Ret None
  | Some p => x ← deref (wa_auth (hs_app s)) p; Ret (Some x)
  end.

(** ** The configuration

    The functions of the application see the whole request and response. *)
Record APIServerConfig := mkConfig {
  dynamicInitialChecks : option (Web -> outcome (Web * Z));
  dynamicTokenValidator : option (bytes -> bytes -> Token J -> Token J * bool);
  dynamicOriginValidator : option (bytes -> bytes -> gset bytes -> bool);
  dynamicLoginCallbackOriginValidator : option (bytes -> bytes -> gset bytes -> bool);
  redirections : list (bytes * bytes);
  resourceFilter : option (list (ResourcesFilter.Filter R));
  permittedLoginOrigins : gset bytes;
  loginCallbackAPIEndpointName : bytes;
  sendWebSocketSessionIDAtConnection : bool;
  maxConnectionsPerUserPerEndpoint : Z;
  allowFloatingClients : bool;
  allowImpersonation : bool;
  allowImpersonationBetweenDifferentDomains : bool;
  useFormattedJSONOutput : bool;
  useHTMLIEngine : bool;
  aPIURLs : list bytes;
  appName : bytes;
  softwareName : bytes;
  redirectPathOn404 : bytes;
  defaultLoginRedirect : bytes;
  permittedAPIOrigins : gset bytes;
  redirectLocationOnLoginFailed : bytes;
  webServerName : bytes;
  softwareVersion : bytes;
  softwareDescription : bytes;
  dynamicRequestHandlersByRoute : list (bytes * (bytes -> Web -> outcome (Web * Z)));
  m_documentRootPath : bytes;
  m_overlappedDirectories : list (bytes * bytes) }.

(** The values of a configuration that nobody has changed. *)
Definition config_new : APIServerConfig :=
  mkConfig None None None None [] None ∅ (bs "callback") true 16 false false false true true [bs "/api"] [] []
    (bs "/") [] ∅ (bs "/") [] [] [] [] [] [].

(** ** What a kind of server supplies *)
Class ApiServer := {
  sessionStart : Web -> outcome (Web * Z);
  sessionCleanup : Web -> outcome Web;
  handleAPIRequest : bytes -> Z -> bytes -> bytes -> J -> Web -> outcome (Web * APIReturn J);
  handleOptionsRequest : bytes -> Z -> bytes -> Web -> outcome (Web * APIReturn J);
  handleAuthFunctions : bytes -> bytes -> Web -> outcome (Web * Z);
  handleAPIInfo : bytes -> Web -> J;
  isSessionActive : Web -> bool;
  getSessionScopes : Web -> outcome (gset bytes);
  getSessionRoles : Web -> outcome (gset bytes);
  hasSessionVariable : bytes -> Web -> outcome bool;
  sessionVariableValue : bytes -> Web -> outcome J;
  fillSessionExtraInfo : J -> Web -> J;
  checkWebSocketRequestURI : bytes -> Web -> outcome (Web * Z);
  handleWebSocketEvent : EventType -> Web -> outcome Web }.
End WebApi.
Arguments APIServerConfig M S O J R W D : clear implicits.
Arguments ApiServer M S O J W D : clear implicits.

(** [StreamableObject::toString]. *)
Definition so_toString {I} `{Source I} (x : I) : outcome bytes := '(s, _) ← streamTo x ss_new; Ret (ss_value s).

(** ** Reading the request *)
Section Request.
Context {M : Type} `{Container M} `{!MMapFile M} {S : Type} `{Sink S} {O : Type} `{Sink O} `{!Source O} {A : Type}.
Context {J : Type} `{!WebObjects J O}.
Implicit Types s : HttpServer M S O A.

Definition getOrigin s : bytes := getHeaderOption (bs "Origin") s.

(** [postVars()]: no object stands for a new object without variables. *)
Definition postVars (c : Content O) : outcome (option O) :=
  if negb (m_usingInternalOutStream c) then Throw (runtime_error "Error: not using internal output stream")
  else match m_containerType c with
       | BIN | JSON => Ret None
       | _ => Ret (Some (m_contentStreamableObject c))
       end.

(** A posted variable, and a variable of the URI. *)
Definition posted_variable (varName : bytes) s : outcome (option bytes) :=
  v ← postVars (request_content s);
  Ret (match v with Some o => posted_value o varName | None => None end).

Definition uri_variable (varName : bytes) s : outcome (option bytes) :=
  match getValue varName (pr_impl (m_getVars (request_line s))) with
  | None => Ret None
  | Some c => v ← so_toString c; Ret (Some v)
  end.

(** [getTValue<std::string>]: the first word, when nothing follows it. *)
Definition one_word (v : bytes) : bytes :=
  let '(w, rest) := next_word v in
  if bool_decide (w = []) || bool_decide (rest <> []) then [] else w.
End Request.

(** ** What a page may show of the session (apiserver_clienthandler.cpp) *)
Section SessionVariables.
Context {M S O J W D : Type} `{JsonCpp J} `{!JsonOutput J}.
Implicit Types s : HttpServer M S O (WebApp J W D).

Definition fillSessionInfo (jVars : J) s : outcome J :=
  session ← current_session s;
  let info := currentSessionInfo (hs_app s) in
  let jVars :=
    match session with
    | Some x =>
        let jVars := json_set jVars (bs "isImpersonation") (json_bool (isImpersonation info)) in
        let jVars := json_set jVars (bs "impersonator") (json_string (m_impersonator x)) in
        let jVars := json_set jVars (bs "halfSessionID") (json_string (halfSessionId info)) in
        let jVars := json_set jVars (bs "user") (json_string (m_user x)) in
        let jVars := json_set jVars (bs "domain") (json_string (m_domain x)) in
        json_set jVars (bs "loggedIn") (json_bool true)
    | None => json_set jVars (bs "loggedIn") (json_bool false)
    end in
  let client := HttpResponse.networkClientInfo (hs_info s) in
  addr ← remote_address client;
  let jVars := json_set jVars (bs "userTLSCommonName") (json_string (c_str (tlsCommonName client))) in
  let jVars := json_set jVars (bs "userIP") (json_string addr) in
  Ret (json_set jVars (bs "userAgent") (json_string (userAgent (hs_info s)))).
End SessionVariables.
