(* ===== verification/HtmlEngine.v ===== *)
(** * The pages with tags (Server_WebCore/htmliengine.cpp)

    A page is a text with tags: first the tags that include another file are
    replaced, over and over; then, in one pass, the tags that stand for a
    variable or for the answer of an API function.

    The code finds the tags with regular expressions of the standard library and
    of Boost.  Each of them matches in at most one way at a position, so they are
    given as functions: [match_tag], [match_include], [match_call],
    [match_function_name]. *)

From S2P Require Import Prelude SafeInt Mem Streamable Container ContainerTheory BMem BChunks ChunkBuffer BRef.
From S2P Require Import SubParser Parser CLib HttpContent MimeHeader HeaderTheory Encoders UrlStream HttpVars HttpLines HttpHeaders HttpResponse WebSocket HttpServer.
From S2P Require Import Jwt JwtVerify Threads Sessions Endpoints ResourcesFilter WebApi.
From Stdlib Require Import ZArith Lia.
From stdpp Require Import gmap.
#[local] Open Scope Z_scope.

(** [std::ifstream] of a path: the bytes of the file, when it opens. *)
Class WebFiles := { read_file : bytes -> option bytes }.

(** ** The tags *)

(** The longest beginning whose characters pass the test. *)
Fixpoint span (f : byte -> bool) (s : bytes) : bytes * bytes :=
  match s with
  | [] => ([], [])
  | c :: s' => if f c then let '(a, b) := span f s' in (c :: a, b) else ([], s)
  end.

Definition strip (prefix s : bytes) : option bytes := if starts_with s prefix then Some (zdrop (zlen prefix) s) else None.

(** The two ways a tag is written. *)
Record TagSyntax := mkSyntax { tag_open : bytes; tag_close : bytes }.
Definition reHTML : TagSyntax := mkSyntax (bs "<!--<") (bs "%>-->").
Definition reJS : TagSyntax := mkSyntax (bs "//<") (bs "%>//").

(** At the beginning of a text: a percent sign and a j, a command of letters,
    digits, underscores and slashes, a colon, spaces, and the value up to a percent
    sign, between the two ends.  The command, the value and what follows; the
    value takes the spaces at its end. *)
Definition match_tag (x : TagSyntax) (s : bytes) : option (bytes * bytes * bytes) :=
  match strip (tag_open x ++ bs "%") s with
  | Some (c :: s) =>
      if (c =? 106) || (c =? 74) then
        let '(command, s) := span (fun c => isalnum c || (c =? 95) || (c =? 47)) s in
        match command, s with
        | _ :: _, 58 :: s =>
            let '(_, s) := span (fun c => c =? 32) s in
            let '(value, s) := span (fun c => negb (c =? 37)) s in
            match strip (tag_close x) s with
            | Some rest => Some (command, value, rest)
            | None => None
            end
        | _, _ => None
        end
      else None
  | _ => None
  end.

(** The word include in any case, perhaps after a percent sign; what stands before
    the colon, spaces, and a path up to a percent sign, which is not empty (it
    takes one of the spaces when nothing follows them). *)
Definition match_include (x : TagSyntax) (s : bytes) : option (bytes * bytes * bytes) :=
  match strip (tag_open x) s with
  | None => None
  | Some s =>
      let s := match s with 37 :: s => s | _ => s end in
      if istarts_with s (bs "include") then
        match span (fun c => negb (c =? 58)) (zdrop 7 s) with
        | (tag, 58 :: s) =>
            let '(spaces, s) := span (fun c => c =? 32) s in
            let '(path, s) := span (fun c => negb (c =? 37)) s in
            let path := match path, spaces with [], _ :: _ => [32] | _, _ => path end in
            match path, strip (tag_close x) s with
            | _ :: _, Some rest => Some (tag, path, rest)
            | _, _ => None
            end
        | _ => None
        end
      else None
  end.

(** The first place where one of them matches: the text before it. *)
Section FindTag.
Context (matcher : bytes -> option (bytes * bytes * bytes)).
Fixpoint find_tag (s : bytes) : option (bytes * (bytes * bytes * bytes)) :=
  match matcher s with
  | Some m => Some ([], m)
  | None =>
      match s with
      | [] => None
      | c :: s' => match find_tag s' with Some (before, m) => Some (c :: before, m) | None => None end
      end
  end.
End FindTag.

(** A name and an argument in parentheses, searched in a text. *)
Definition match_call (functionDef : bytes) : option (bytes * bytes) :=
  let '(_, s) := span (fun c => c =? 40) functionDef in
  match span (fun c => negb (c =? 40)) s with
  | (functionName, 40 :: s) =>
      match span (fun c => negb (c =? 41)) s with
      | (functionInput, 41 :: _) => Some (functionName, functionInput)
      | _ => None
      end
  | _ => None
  end.

(** A method, a version after a v, and a name of one line, between slashes. *)
Definition one_line_text (s : bytes) : bool := bool_decide (s <> []) && forallb (fun c => negb ((c =? 10) || (c =? 13))) s.
Definition match_function_name (functionName : bytes) : option (bytes * bytes * bytes) :=
  match span (fun c => negb (c =? 47)) functionName with
  | (mode, 47 :: 118 :: s) =>
      match span (fun c => negb (c =? 47)) s with
      | (version, 47 :: name) =>
          if bool_decide (mode <> []) && bool_decide (version <> []) && one_line_text name then Some (mode, version, name) else None
      | _ => None
      end
  | _ => None
  end.

(** [input.replace(pos, len, with)] with the position and the length as [int]. *)
Definition as_int (z : Z) : Z := let w := wrapw 32 z in if w >=? 2147483648 then w - 4294967296 else w.
Definition replace_range (pos len : Z) (repl input : bytes) : outcome bytes :=
  let pos := wrap pos in
  if pos >? zlen input then Throw (logic_error "basic_string::replace")
  else Ret (ztake pos input ++ repl ++ zdrop (pos + wrap len) input).

Section HtmlEngine.
Context {M : Type} `{Container M} `{!MMapFile M} {S : Type} `{Sink S} {O : Type} `{Sink O} `{!Source O} `{!ContentObjects O}.
Context {J : Type} `{JsonCpp J} `{!JsonOutput J} `{!WebObjects J O} {R W D : Type} `{!WebFiles} `{DateFormat}.
Context `{!ApiServer M S O J W D} (config : APIServerConfig M S O J R W D).
Abbreviation Web := (HttpServer M S O (WebApp J W D)).
Implicit Types s : Web.

Definition script_text (str scriptVarName : bytes) (useHTMLFrame : bool) : bytes :=
  match scriptVarName with
  | [] => str
  | _ =>
      if useHTMLFrame then bs "<script>" ++ [10] ++ bs "const " ++ scriptVarName ++ bs " = " ++ str ++ bs ";" ++ [10] ++ bs "</script>"
      else bs "const " ++ scriptVarName ++ bs " = " ++ str ++ bs ";" ++ [10]
  end.

(** The line breaks are removed and the brackets escaped. *)
Definition escaped (str : bytes) : bytes :=
  let str := List.filter (fun c => negb (c =? 10)) str in
  let str := replace_all (bs "<") (bs "\<") str in
  replace_all (bs ">") (bs "\>") str.

Definition replaceByJVar (value : J) (scriptVarName : bytes) (useHTMLFrame : bool) : bytes :=
  script_text (escaped (fast_write value)) scriptVarName useHTMLFrame.

(** *** The variables *)
Definition procResource_HTMLIEngineJSESSVAR (scriptVarName varName : bytes) (useHTMLFrame : bool) s : outcome bytes :=
  found ← hasSessionVariable varName s;
  if (found : bool) then
    v ← sessionVariableValue varName s; Ret (replaceByJVar v scriptVarName useHTMLFrame)
  else Ret (replaceByJVar json_null scriptVarName useHTMLFrame).

Definition procResource_HTMLIEngineJVAR (scriptVarName varName : bytes) (useHTMLFrame : bool) s : outcome bytes :=
  let jVars := json_set json_null (bs "softwareVersion") (json_string (softwareVersion config)) in
  jVars ← fillSessionInfo jVars s;
  let jVars := fillSessionExtraInfo jVars s in
  isSessionVar ← hasSessionVariable varName s;
  isJVar ← Jwt.isMember jVars varName;
  if (isJVar : bool) then Ret (replaceByJVar (json_get jVars varName) scriptVarName useHTMLFrame)
  else if (isSessionVar : bool) then
    v ← sessionVariableValue varName s; Ret (replaceByJVar v scriptVarName useHTMLFrame)
  else Ret (replaceByJVar json_null scriptVarName useHTMLFrame).

Definition variable_text (v : option bytes) (scriptVarName : bytes) (useHTMLFrame : bool) : bytes :=
  match v with
  | Some v => replaceByJVar (json_string (one_word v)) scriptVarName useHTMLFrame
  | None => replaceByJVar json_null scriptVarName useHTMLFrame
  end.

Definition procResource_HTMLIEngineJGETVAR (scriptVarName varName : bytes) (useHTMLFrame : bool) s : outcome bytes :=
  v ← uri_variable varName s; Ret (variable_text v scriptVarName useHTMLFrame).
Definition procResource_HTMLIEngineJPOSTVAR (scriptVarName varName : bytes) (useHTMLFrame : bool) s : outcome bytes :=
  v ← posted_variable varName s; Ret (variable_text v scriptVarName useHTMLFrame).

(** *** The answer of a function *)
Definition toJSON (r : APIReturn J) : J :=
  let root := json_set json_null (bs "httpResponseCode") (json_int (httpResponseCode r)) in
  let root := json_set root (bs "body") (body r) in
  let root :=
    match httpExtraHeaders r with
    | [] => root
    | l => json_set root (bs "extraHeaders") (foldl (fun j h => json_set j h.1 (json_string h.2)) json_null l)
    end in
  match cookiesMap r with
  | [] => root
  | l => json_set root (bs "cookies") (foldl (fun j c => json_append j (json_string (toSetCookieString c.1 c.2))) json_null l)
  end.

Definition procJAPI_Exec (functionName functionInput : bytes) s : outcome (Web * J) :=
  let '(vars, _) := json_parse functionInput in
  '(s, apiReturn) ←
    match match_function_name functionName with
    | Some (mode, version, name) =>
        handleAPIRequest (bs "/") (wrapw 32 (strtoul 10 version).1) mode name vars s
    | None => handleAPIRequest (bs "/") 1 (bs "POST") functionName vars s
    end;
  Ret (s, toJSON apiReturn).

Definition procResource_HTMLIEngineJFUNC (scriptVarName functionDef : bytes) (useHTMLFrame : bool) s : outcome (Web * bytes) :=
  match match_call functionDef with
  | Some (functionName, functionInput) =>
      functionInput ← replaceHexCodes functionInput;
      '(s, v) ← procJAPI_Exec functionName functionInput s;
      Ret (s, replaceByJVar v scriptVarName useHTMLFrame)
  | None => Ret (s, replaceByJVar json_null scriptVarName useHTMLFrame)
  end.

(** What a tag is replaced by. *)
Definition tag_text (command value : bytes) (useHTMLFrame : bool) s : outcome (Web * bytes) :=
  if istarts_with command (bs "VAR/") then
    r ← procResource_HTMLIEngineJVAR (zdrop 4 command) value useHTMLFrame s; Ret (s, r)
  else if istarts_with command (bs "GETVAR/") then
    r ← procResource_HTMLIEngineJGETVAR (zdrop 7 command) value useHTMLFrame s; Ret (s, r)
  else if istarts_with command (bs "POSTVAR/") then
    r ← procResource_HTMLIEngineJPOSTVAR (zdrop 8 command) value useHTMLFrame s; Ret (s, r)
  else if istarts_with command (bs "FUNC/") then procResource_HTMLIEngineJFUNC (zdrop 5 command) value useHTMLFrame s
  else if istarts_with command (bs "SESS/") then
    r ← procResource_HTMLIEngineJSESSVAR (zdrop 5 command) value useHTMLFrame s; Ret (s, r)
  else Ret (s, bs "null").

Fixpoint iProcResource_JProcessor (fuel : nat) (re : TagSyntax) (useHTMLFrame : bool) (input : bytes) (pos : Z) s : outcome (Web * bytes) :=
  match fuel with
  | Datatypes.O => NoFuel
  | Datatypes.S fuel =>
      match find_tag (match_tag re) (zdrop pos input) with
      | None => Ret (s, input)
      | Some (before, (command, value, rest)) =>
          let absolute_pos := as_int (pos + zlen before) in
          let length := as_int (zlen input - pos - zlen before - zlen rest) in
          '(s, replacedBy) ← tag_text command value useHTMLFrame s;
          input ← replace_range absolute_pos length replacedBy input;
          iProcResource_JProcessor fuel re useHTMLFrame input (wrap (absolute_pos + zlen replacedBy)) s
      end
  end.

(** A round goes past the end of a tag. *)
Definition jprocessor (re : TagSyntax) (useHTMLFrame : bool) (input : bytes) s : outcome (Web * bytes) :=
  iProcResource_JProcessor (Datatypes.S (length input)) re useHTMLFrame input 0 s.

Definition procResource_JProcessor (input : bytes) s : outcome (Web * bytes) :=
  '(s, input) ← jprocessor reJS false input s;
  jprocessor reHTML true input s.

(** *** The inclusions *)
Definition included_text (tag includePath : bytes) : bytes :=
  match read_file (m_documentRootPath config ++ includePath) with
  | Some content =>
      match tag with
      | 47 :: ((_ :: _) as name) => bs "<" ++ name ++ bs ">" ++ content ++ bs "</" ++ name ++ bs ">"
      | _ => content
      end
  | None => bs "<!-- HTMLI ENGINE ERROR (FILE NOT FOUND): " ++ includePath ++ bs " -->"
  end.

Fixpoint iProcResource_HTMLIEngineInclude (fuel : nat) (re : TagSyntax) (fileContent : bytes) : outcome bytes :=
  match fuel with
  | Datatypes.O => NoFuel
  | Datatypes.S fuel =>
      match find_tag (match_include re) fileContent with
      | None => Ret fileContent
      | Some (before, (tag, includePath, rest)) =>
          let fulltag := slice (zlen before) (zlen fileContent - zlen before - zlen rest) fileContent in
          iProcResource_HTMLIEngineInclude fuel re (replace_all fulltag (included_text tag includePath) fileContent)
      end
  end.

Definition procResource_HTMLIEngineInclude (fuel : nat) (contentType fileContent : bytes) : outcome bytes :=
  if bool_decide (contentType = bs "application/javacript") then iProcResource_HTMLIEngineInclude fuel reJS fileContent
  else iProcResource_HTMLIEngineInclude fuel reHTML fileContent.

(** *** A file *)
Definition page_content (sRealFullPath : bytes) s : option bytes :=
  if starts_with sRealFullPath (bs "MEM:") then Some (object_bytes (m_contentStreamableObject (rs_content (hs_response s))))
  else read_file sRealFullPath.

(** [fuel] is for the inclusions, which may have no end. *)
Definition processResourceFile (fuel : nat) (sRealFullPath : bytes) s : outcome (Web * Z) :=
  let fileContent := page_content sRealFullPath s in
  let s := hs_on_response (setDataStreamer None) s in
  match fileContent with
  | None => Ret (s, S_404_NOT_FOUND)
  | Some fileContent =>
      fileContent ← procResource_HTMLIEngineInclude fuel (rs_contentType (hs_response s)) fileContent;
      '(s, fileContent) ← procResource_JProcessor fileContent s;
      let c := rs_content (hs_response s) in
      '(o, _) ← writeString fileContent (m_contentStreamableObject c);
      Ret (hs_on_response (rs_set_content (c_set_object o c)) s, S_200_OK)
  end.
End HtmlEngine.

(** ** The tags *)
Lemma span_app f s : s = (span f s).1 ++ (span f s).2.
Proof. induction s as [|c s IH]; [done|]. cbn [span]. destruct (f c); [|done]. destruct (span f s). cbn in *. by rewrite IH at 1. Qed.

Lemma span_all f s : Forall (fun c => f c = true) (span f s).1.
Proof. induction s as [|c s IH]; [done|]. cbn [span]. destruct (f c) eqn:E; [|done]. destruct (span f s). by constructor. Qed.

Lemma span_stop f a c r : Forall (fun c => f c = true) a -> f c = false -> span f (a ++ c :: r) = (a, c :: r).
Proof. induction 1 as [|x a Hx _ IH]; intros Hc; cbn [app span]; [by rewrite Hc|]. by rewrite Hx, IH. Qed.

Lemma span_none f c r : f c = false -> span f (c :: r) = ([], c :: r).
Proof. intros E. cbn [span]. by rewrite E. Qed.

Lemma strip_some prefix s r : strip prefix s = Some r -> s = prefix ++ r.
Proof. unfold strip. destruct (starts_with s prefix) eqn:E; [|done]. intros [= <-]. by apply starts_with_split. Qed.

Lemma strip_app prefix r : strip prefix (prefix ++ r) = Some r.
Proof. unfold strip. by rewrite starts_with_app, zdrop_app_ge, Z.sub_diag, zdrop_le0 by lia. Qed.

(** What is matched is not empty, and the rest is what follows. *)
Definition proper (matcher : bytes -> option (bytes * bytes * bytes)) : Prop :=
  forall s a b rest, matcher s = Some (a, b, rest) -> exists t, s = t ++ rest /\ t <> [].

Lemma match_tag_proper x : proper (match_tag x).
Proof.
  intros s a b rest. unfold match_tag. destruct (strip _ s) as [[|c s1]|] eqn:E; try done. apply strip_some in E as ->.
  destruct (_ || _); [|done]. pose proof (span_app (fun c => isalnum c || (c =? 95) || (c =? 47)) s1) as H1.
  destruct (span _ s1) as [command s2]. cbn [fst snd] in H1. destruct command as [|y command]; [done|].
  destruct s2 as [|z s3]; [done|]. destruct (Z.eq_dec z 58) as [->|Hz].
  2: { destruct z as [|p|p]; try done. do 6 (destruct p as [p|p|]; try done). }
  pose proof (span_app (fun c => c =? 32) s3) as H2. destruct (span _ s3) as [sp s4]. cbn [fst snd] in H2.
  pose proof (span_app (fun c => negb (c =? 37)) s4) as H3. destruct (span _ s4) as [value s5]. cbn [fst snd] in H3.
  destruct (strip _ s5) as [r|] eqn:E5; [|done]. apply strip_some in E5. intros [= _ _ <-].
  exists ((tag_open x ++ bs "%") ++ c :: (y :: command) ++ 58 :: sp ++ value ++ tag_close x). split.
  - rewrite H1, H2, H3, E5. by rewrite <- !app_assoc; cbn [app]; rewrite <- !app_assoc; cbn [app]; rewrite <- !app_assoc.
  - by intros [_ ?]%app_eq_nil.
Qed.

Lemma find_tag_split matcher s before a b rest :
  proper matcher -> find_tag matcher s = Some (before, (a, b, rest)) -> exists t, s = before ++ t ++ rest /\ t <> [].
Proof.
  intros Hm. revert before. induction s as [|c s IH]; intros before; cbn [find_tag].
  - destruct (matcher []) as [[[a' b'] r']|] eqn:E; [|done]. intros [= <- <- <- <-]. by apply Hm in E.
  - destruct (matcher (c :: s)) as [[[a' b'] r']|] eqn:E.
    + intros [= <- <- <- <-]. by apply Hm in E.
    + destruct (find_tag matcher s) as [[b2 m2]|]; [|done]. intros [= <- ->]. destruct (IH b2 eq_refl) as (t & -> & Ht).
      by exists t.
Qed.

Definition INT_MAX : Z := 2147483647.

Lemma as_int_id z : 0 <= z <= INT_MAX -> as_int z = z.
Proof. unfold INT_MAX, as_int, wrapw. intros Hz. rewrite Z.mod_small by lia. by replace (z >=? 2147483648) with false by lia. Qed.

Lemma replace_range_spec a t rest repl :
  zlen (a ++ t ++ rest) <= INT_MAX -> replace_range (zlen a) (zlen t) repl (a ++ t ++ rest) = Ret (a ++ repl ++ rest).
Proof.
  intros Hz. unfold INT_MAX in Hz. rewrite !zlen_app in Hz. pose proof (zlen_nonneg a). pose proof (zlen_nonneg t). pose proof (zlen_nonneg rest).
  unfold replace_range. rewrite !wrap_small by (unfold is_size, SIZE_MOD; lia). rewrite !zlen_app.
  replace (zlen a >? _) with false by lia. f_equal. f_equal.
  - rewrite ztake_app_le by lia. apply ztake_ge. lia.
  - f_equal. rewrite zdrop_app_ge by lia. replace (zlen a + zlen t - zlen a) with (zlen t) by lia.
    rewrite zdrop_app_ge by lia. by rewrite Z.sub_diag, zdrop_le0 by lia.
Qed.

Section Pages.
Context {M : Type} `{Container M} `{!MMapFile M} {S : Type} `{Sink S} {O : Type} `{Sink O} `{!Source O} `{!ContentObjects O}.
Context {J : Type} `{JsonCpp J} `{!JsonOutput J} `{!WebObjects J O} {R W D : Type} `{!WebFiles} `{DateFormat}.
Context `{!ApiServer M S O J W D} (config : APIServerConfig M S O J R W D).
Abbreviation Web := (HttpServer M S O (WebApp J W D)).
Implicit Types s : Web.

(** A page as it is meant: the text between the tags as it is, and for each tag,
    from left to right, what it stands for, which is not looked at again. *)
Inductive rendered (re : TagSyntax) (frame : bool) : bytes -> Web -> bytes -> Web -> Prop :=
| rendered_end input s :
    find_tag (match_tag re) input = None -> rendered re frame input s input s
| rendered_tag input s before command value rest r s1 out s2 :
    find_tag (match_tag re) input = Some (before, (command, value, rest)) ->
    tag_text config command value frame s = Ret (s1, r) ->
    rendered re frame rest s1 out s2 ->
    rendered re frame input s (before ++ r ++ out) s2.

Lemma rendered_loop re frame input s out s2 (d : bytes) fuel :
  rendered re frame input s out s2 -> (length input < fuel)%nat ->
  zlen d + zlen input + zlen out <= INT_MAX ->
  iProcResource_JProcessor config fuel re frame (d ++ input) (zlen d) s = Ret (s2, d ++ out).
Proof.
  intros Hr. revert d fuel. induction Hr as [input s E|input s before command value rest r s1 out s2 E Et Hr IH];
    intros d [|fuel] Hf Hi; try lia; cbn [iProcResource_JProcessor];
    rewrite zdrop_app_ge, Z.sub_diag, zdrop_le0, E by lia; [done|].
  destruct (find_tag_split _ _ _ _ _ _ (match_tag_proper re) E) as (t & -> & Ht).
  rewrite !zlen_app in Hi. rewrite !zlen_app.
  pose proof (zlen_nonneg d). pose proof (zlen_nonneg before). pose proof (zlen_nonneg t). pose proof (zlen_nonneg rest).
  pose proof (zlen_nonneg r). pose proof (zlen_nonneg out).
  rewrite Et. cbn [mbind outcome_bind].
  replace (zlen d + (zlen before + (zlen t + zlen rest)) - zlen d - zlen before - zlen rest) with (zlen t) by lia.
  rewrite !as_int_id by lia. rewrite <- zlen_app, app_assoc.
  rewrite replace_range_spec by (rewrite !zlen_app; lia). cbn [mbind outcome_bind].
  rewrite wrap_small by (unfold is_size, SIZE_MOD, INT_MAX in *; rewrite zlen_app; lia).
  rewrite <- zlen_app, (app_assoc (d ++ before)). rewrite IH; [by rewrite <- !app_assoc| |rewrite !zlen_app; lia].
  rewrite !length_app in Hf. assert (0 < length t)%nat by (destruct t; [done|cbn; lia]). lia.
Qed.

(** C32. The loop that replaces the tags in place is the page as it is meant: it ends,
    and what a tag is replaced by is never taken for a tag. *)
Theorem tags_replaced_once (re : TagSyntax) (frame : bool) (input out : bytes) s s2 :
  rendered re frame input s out s2 -> zlen input + zlen out <= INT_MAX ->
  jprocessor config re frame input s = Ret (s2, out).
Proof.
  intros Hr Hi. unfold jprocessor. pose proof (rendered_loop re frame input s out s2 [] (Datatypes.S (length input)) Hr) as E.
  rewrite zlen_nil in E. cbn [app] in E. apply E; lia.
Qed.

(** *** A page that includes itself *)
Definition include_tag (path : bytes) : bytes := bs "<!--<%include:" ++ path ++ bs "%>-->".

Lemma match_include_tag path rest :
  (37 ∉ path) -> head path <> Some 32 -> path <> [] -> match_include reHTML (include_tag path ++ rest) = Some ([], path, rest).
Proof.
  intros Hp Hh Hne. unfold match_include, include_tag.
  change (bs "<!--<%include:") with (tag_open reHTML ++ 37 :: bs "include" ++ [58]). rewrite <- !app_assoc, strip_app.
  cbn [app]. rewrite <- !app_assoc. change (istarts_with (bs "include" ++ [58] ++ path ++ bs "%>-->" ++ rest) (bs "include")) with true.
  cbv iota. change (zdrop 7 (bs "include" ++ [58] ++ path ++ bs "%>-->" ++ rest)) with (58 :: path ++ bs "%>-->" ++ rest).
  rewrite span_none by done. destruct path as [|c path]; [done|]. cbn [app].
  rewrite span_none by (apply Z.eqb_neq; cbn in Hh; congruence). rewrite app_comm_cons.
  change (bs "%>-->" ++ rest) with (37 :: (bs ">-->" ++ rest)).
  rewrite span_stop; [|apply Forall_forall; intros x Hx; apply negb_true_iff, Z.eqb_neq; congruence|done].
  change (37 :: bs ">-->" ++ rest) with (tag_close reHTML ++ rest). by rewrite strip_app.
Qed.

Lemma match_include_none c (r : bytes) : c <> 60 -> match_include reHTML (c :: r) = None.
Proof.
  intros Hc. unfold match_include, strip. change (tag_open reHTML) with (60 :: bs "!--<"). cbn [starts_with].
  by replace (c =? 60) with false by lia.
Qed.

Lemma find_include a path b :
  (60 ∉ a) -> (37 ∉ path) -> head path <> Some 32 -> path <> [] ->
  find_tag (match_include reHTML) (a ++ include_tag path ++ b) = Some (a, ([], path, b)).
Proof.
  intros Ha Hp Hh Hne. induction a as [|c a IH]; cbn [app].
  - pose proof (match_include_tag path b Hp Hh Hne) as E. destruct (include_tag path ++ b) eqn:El; cbn [find_tag]; by rewrite E.
  - apply not_elem_of_cons in Ha as [Hc Ha]. cbn [find_tag]. rewrite match_include_none by congruence. by rewrite IH.
Qed.

(** A page that includes a file which includes itself is never finished: after
    any number of rounds there is a next one, and the text has grown. *)
Theorem self_include_never_ends (fuel : nat) (path a b before after : bytes) :
  (60 ∉ a) -> (60 ∉ b) -> (60 ∉ before) -> (60 ∉ after) -> (37 ∉ path) -> head path <> Some 32 -> path <> [] ->
  read_file (m_documentRootPath config ++ path) = Some (a ++ include_tag path ++ b) ->
  iProcResource_HTMLIEngineInclude config fuel reHTML (before ++ include_tag path ++ after) = NoFuel.
Proof.
  intros Ha Hb Hbe Haf Hp Hh Hne Hr. revert before after Hbe Haf.
  induction fuel as [|fuel IH]; intros before after Hbe Haf; [done|]. cbn [iProcResource_HTMLIEngineInclude].
  rewrite find_include by done. rewrite !zlen_app.
  replace (_ - zlen before - zlen after) with (zlen (include_tag path)) by lia. unfold slice.
  rewrite zdrop_app_ge, Z.sub_diag, zdrop_le0, ztake_app_le, ztake_ge by lia.
  unfold included_text. rewrite Hr.
  assert (include_tag path = 60 :: zdrop 1 (include_tag path)) as Ei by done.
  assert (forall repl, replace_all (include_tag path) repl after = after) as Hafter.
  { intros repl. rewrite Ei. pose proof (replace_all_plain 60 (zdrop 1 (include_tag path)) repl after [] Haf) as E.
    by rewrite replace_all_nil, !app_nil_r in E. }
  rewrite Ei at 1. rewrite replace_all_plain by done. rewrite <- Ei, replace_all_hit, Hafter by done.
  rewrite <- !app_assoc, (app_assoc before). apply IH; rewrite elem_of_app; tauto.
Qed.

(** *** What a variable can do to a page *)

(** What JsonCpp prints for a text it need not escape. *)
Definition prints_plainly (v : bytes) : Prop := fast_write (json_string v) = [34] ++ v ++ [34; 10].

Definition contains (t text : bytes) : Prop := exists p q, text = p ++ t ++ q.

Lemma contains_in t a b text : contains t text -> contains t (a ++ text ++ b).
Proof. intros (p & q & ->). exists (a ++ p), (q ++ b). by rewrite <- !app_assoc. Qed.

Lemma contains_after t a text : contains t text -> contains t (a ++ text).
Proof. intros Hc. pose proof (contains_in t a [] text Hc) as E. by rewrite app_nil_r in E. Qed.

Lemma escaped_app a b : escaped (a ++ b) = escaped a ++ escaped b.
Proof. unfold escaped. change (bs "<") with [60]. change (bs ">") with [62]. by rewrite List.filter_app, !replace_all_char. Qed.

Lemma script_text_contains t str name frame : contains t str -> contains t (script_text str name frame).
Proof.
  intros Hc. unfold script_text. destruct name as [|c name]; [done|]. 
  destruct frame; [do 5 apply contains_after|do 3 apply contains_after]; by apply (contains_in t []).
Qed.

(** The text of a variable in a page is not kept inside its script: with the end
    of a script element in the value, in the form that ends with a slash, the end
    of the script is in the page as it is, whatever the page does with the value. *)
Theorem variable_leaves_script (scriptVarName a b : bytes) (useHTMLFrame : bool) :
  prints_plainly (a ++ bs "</script/" ++ b) ->
  contains (bs "</script/") (replaceByJVar (json_string (a ++ bs "</script/" ++ b)) scriptVarName useHTMLFrame).
Proof.
  intros Hw. unfold replaceByJVar. rewrite Hw. apply script_text_contains.
  rewrite !escaped_app. change (escaped (bs "</script/")) with (bs "\" ++ bs "</script/").
  rewrite <- !app_assoc. do 3 apply contains_after. apply (contains_in _ []). by exists [], [].
Qed.
End Pages.
