(* ===== verification/WebCore.v ===== *)
(** * Servers of an API: what they do with a request
      (Server_WebCore/apiserver_clienthandler.cpp,
      apiserver_clienthandler_websockets.cpp)

    A request is answered by the first of: a refusal of the browser, the checks of
    the application, a redirection, the API under one of its base URLs, a handler
    of the application, a file.  The session is started before and cleaned up
    after; what that means is for the kind of server ([ApiServer]).

    The log of the operations ([rpcLog]) is left out: it changes no state. *)

From S2P Require Import Prelude SafeInt Mem Streamable Container ContainerTheory BMem BChunks ChunkBuffer BRef.
From S2P Require Import SubParser Parser CLib HttpContent MimeHeader HeaderTheory Encoders UrlStream HttpVars HttpLines HttpHeaders HttpResponse WebSocket HttpServer FilePaths.
From S2P Require Import Jwt JwtVerify Threads Sessions Endpoints ResourcesFilter WebApi HtmlEngine.
From Stdlib Require Import ZArith Lia.
From stdpp Require Import gmap.
#[local] Open Scope Z_scope.

(** ** Numbers in texts *)

(** [strtol(s.c_str(), nullptr, 10)]. *)
Definition strtol (str : bytes) : Z := (strtol_end 10 str).1.

(** [std::stoul] of digits; [std::out_of_range] is a [logic_error]. *)
Definition stoul (digits : bytes) : outcome Z :=
  let v := (read_digits 10 0 digits).1 in
  if v >? ULONG_MAX then Throw (logic_error "stoul") else Ret v.

(** ** Supported browsers *)
Definition versionIsSupported (versionStr : bytes) (minVersion : Z) : bool :=
  let version := as_int (strtol versionStr) in
  if version <? 0 then false else version >=? minVersion.

Definition supportedBrowsers : list (bytes * Z) :=
  [(bs "chrome/", 51); (bs "firefox/", 60); (bs "applewebkit/", 606); (bs "trident/", 7); (bs "curl/", 0); (bs "wget/", 0);
   (bs "httpie/", 0); (bs "libwww-perl/", 0); (bs "libfetch/", 0); (bs "axel/", 0); (bs "wget2/", 0); (bs "PostmanRuntime/", 0);
   (bs "libmantids/", 0)].

(** What follows a position up to a space. *)
Definition version_at (versionStart : Z) (details : bytes) : bytes :=
  let rest := zdrop versionStart details in
  match find_char 32 rest with Some n => ztake n rest | None => rest end.

Fixpoint supported_in (browsers : list (bytes * Z)) (details : bytes) : bool :=
  match browsers with
  | [] => false
  | (name, minVersion) :: browsers =>
      match find_str name details with
      | Some pos =>
          if minVersion =? 0 then true else versionIsSupported (version_at (pos + zlen name) details) minVersion
      | None => supported_in browsers details
      end
  end.

Definition isSupportedUserAgent (userAgent : bytes) : bool := supported_in supportedBrowsers (to_lower_copy userAgent).

Definition isURLSafe (url : bytes) : bool :=
  forallb (fun c => isalnum c || (c =? 45) || (c =? 95) || (c =? 46) || (c =? 47)) url.

(** ** Paths of the API

    The pattern of a version and a resource matches in at most one way. *)
Definition match_api_path (path : bytes) : option (bytes * bytes) :=
  match strip (bs "/v") path with
  | None => None
  | Some s =>
      match span isdigit s with
      | ((_ :: _) as version, 47 :: name) => if one_line_text name then Some (version, name) else None
      | _ => None
      end
  end.

(** ** Pages of the server *)
Definition browser_message : bytes :=
  [10] ++ bs "                                <h1>Browser Upgrade Required</h1>" ++ [10] ++
    bs "                                <p>Your browser does not meet the security requirements to access this site.</p>" ++
    [10] ++
    bs "                                <p>To continue, please update your browser to the last version for enhanced security.</p>" ++
    [10] ++ bs "                                ".
Definition alert_begin : bytes :=
  [10] ++ bs "        <!DOCTYPE html>" ++ [10] ++ bs "        <html lang=" ++ [34] ++ bs "en" ++ [34] ++ bs ">" ++
    [10] ++ bs "        <head>" ++ [10] ++ bs "            <meta charset=" ++ [34] ++ bs "UTF-8" ++ [34] ++ bs ">" ++
    [10] ++ bs "            <meta name=" ++ [34] ++ bs "viewport" ++ [34] ++ bs " content=" ++ [34] ++
    bs "width=device-width, initial-scale=1.0" ++ [34] ++ bs ">" ++ [10] ++ bs "            <title>".
Definition alert_middle : bytes :=
  bs "            </title>" ++ [10] ++ bs "            <style>" ++ [10] ++ bs "                body {" ++ [10] ++
    bs "                    font-family: Arial, sans-serif;" ++ [10] ++ bs "                    color: #333;" ++
    [10] ++ bs "                    display: flex;" ++ [10] ++ bs "                    align-items: center;" ++
    [10] ++ bs "                    justify-content: center;" ++ [10] ++ bs "                    height: 100vh;" ++
    [10] ++ bs "                    margin: 0;" ++ [10] ++ bs "                    background-color: #f4f4f4;" ++
    [10] ++ bs "                }" ++ [10] ++ bs "                .container {" ++ [10] ++
    bs "                    text-align: center;" ++ [10] ++ bs "                    max-width: 600px;" ++ [10] ++
    bs "                    padding: 20px;" ++ [10] ++ bs "                    background-color: #fff;" ++ [10] ++
    bs "                    border: 1px solid #ccc;" ++ [10] ++ bs "                    border-radius: 8px;" ++
    [10] ++ bs "                    box-shadow: 0 4px 8px rgba(0, 0, 0, 0.1);" ++ [10] ++ bs "                }" ++
    [10] ++ bs "                h1 {" ++ [10] ++ bs "                    color: #d9534f;" ++ [10] ++
    bs "                }" ++ [10] ++ bs "                p {" ++ [10] ++
    bs "                    font-size: 1.1em;" ++ [10] ++ bs "                    margin-top: 10px;" ++ [10] ++
    bs "                }" ++ [10] ++ bs "                a {" ++ [10] ++ bs "                    color: #0275d8;" ++
    [10] ++ bs "                    text-decoration: none;" ++ [10] ++ bs "                }" ++ [10] ++
    bs "                a:hover {" ++ [10] ++ bs "                    text-decoration: underline;" ++ [10] ++
    bs "                }" ++ [10] ++ bs "            </style>" ++ [10] ++ bs "        </head>" ++ [10] ++
    bs "        <body>" ++ [10] ++ bs "            <div class=" ++ [34] ++ bs "container" ++ [34] ++ bs ">" ++
    [10] ++ bs "    ".
Definition alert_end : bytes :=
  [10] ++ bs "            </div>" ++ [10] ++ bs "        </body>" ++ [10] ++ bs "        </html>" ++ [10] ++ bs "    ".

Section WebCore.
Context {M : Type} `{Container M} `{!MMapFile M} {S : Type} `{Sink S} {O : Type} `{Sink O} `{!Source O} `{!ContentObjects O}.
Context `{!HttpObjects O} `{!FileSystem O}.
Context {J : Type} `{JsonCpp J} `{!JsonOutput J} `{!WebObjects J O} {R : Type} `{!BoostRegex R} {W D : Type} `{!WebFiles}.
Context `{RandomBytes} `{DateFormat} `{OpenSSL} `{Base64BIO}.
Context `{!ApiServer M S O J W D} (config : APIServerConfig M S O J R W D).
Abbreviation Web := (HttpServer M S O (WebApp J W D)).
Implicit Types s : Web.

(** [time(nullptr)], and the rounds of inclusions of a page. *)
Variable now : Z.
Variable fuel : nat.

Definition isRedirectPathSafeForAuth (url : bytes) : bool :=
  forallb (fun apiurl => negb (starts_with url (apiurl ++ SLASH))) (aPIURLs config).

(** The user an entry of the web log is given: only the empty one. *)
Definition weblog_user s : option bytes :=
  match logUsername (hs_app s) with [] => Some [] | _ => None end.

(** *** What is sent *)
Definition send_object (o : O) (type : bytes) s : Web :=
  hs_on_response (fun r => setContentType type true (setDataStreamer (Some o) r)) s.

Definition createHTMLAlertMessage (title message : bytes) : O :=
  string_streamer (alert_begin ++ title ++ alert_middle ++ message ++ alert_end).
Definition showBrowserMessage (title message : bytes) (returnCode : Z) s : Web * Z :=
  (send_object (createHTMLAlertMessage title message) (bs "text/html") s, returnCode).

Definition redirect_script (url : bytes) : bytes :=
  bs "<script>window.location.href = atob('" ++ encodeToBase64 url false ++ bs "');</script>".
Definition redirectUsingJS (url : bytes) s : Web * Z :=
  if bool_decide (url = bs "#retokenize") then (s, S_200_OK)
  else (send_object (string_streamer (redirect_script url)) (bs "text/html") s, S_200_OK).

Definition redirect_to (location : bytes) s : outcome (Web * Z) :=
  '(r, code) ← setRedirectLocation location true (hs_response s); Ret (hs_set_response r s, code).

(** *** Tokens *)
Definition verifyToken (strToken : bytes) s : outcome (Web * bool) :=
  match wa_validator (hs_app s) with
  | None => Ret (s, false)
  | Some j =>
      '(j, t, x) ← verify now strToken (jwtToken (hs_app s)) j;
      let s := on_app (fun a => wa_set_token t (wa_set_validator (Some j) a)) s in
      if negb x then Ret (s, false)
      else
        app ← getClaim (bs "app") t;
        if bool_decide (ASSTRING_D app [] <> appName config) then Ret (s, false)
        else
          type ← getClaim (bs "type") t;
          Ret (s, bool_decide (ASSTRING_D type [] = bs "access"))
  end.

(** *** Files *)
Definition resolve_resource (suffix : bytes) s : outcome (Web * FileInfo * bool) :=
  resolveLocalFilePathFromURI2 (m_documentRootPath config) (m_overlappedDirectories config) (Some fileinfo_reset) suffix false s.

(** The three attempts, in order. *)
Definition find_resource s : outcome (Web * FileInfo * bool) :=
  '(s, info, ok) ← resolve_resource (bs ".html") s;
  if (ok : bool) then Ret (s, info, true)
  else
    '(s, info, ok) ← resolve_resource (bs "index.html") s;
    if (ok : bool) then Ret (s, info, true) else resolve_resource [] s.

Definition evaluate_filter (relativePath : bytes) s : outcome FilterEvaluationResult :=
  match resourceFilter config with
  | None => Ret evaluation_new
  | Some filters =>
      scopes ← getSessionScopes s;
      roles ← getSessionRoles s;
      Ret (evaluateURI filters relativePath scopes roles (isSessionActive s))
  end.

(** The status of a file, before the engine. *)
Definition file_status (info : FileInfo) (found : bool) s : outcome (Web * Z) :=
  if found && negb (isDirectory info) then
    e ← evaluate_filter (relativePath info) s;
    if negb (fe_accept e) then Ret (s, 403)
    else
      match fe_redirectLocation e with
      | [] => Ret (s, S_200_OK)
      | location => redirect_to location s
      end
  else Ret (s, S_404_NOT_FOUND).

(** The type of what is sent is one the engine processes. *)
Definition engine_type s : bool :=
  bool_decide (rs_contentType (hs_response s) = bs "text/html") ||
  bool_decide (rs_contentType (hs_response s) = bs "application/javascript").

Definition handleRegularFileRequest s : outcome (Web * Z) :=
  match m_documentRootPath config with
  | [] => Ret (s, S_404_NOT_FOUND)
  | _ =>
      '(s, info, found) ← find_resource s;
      '(s, ret) ← file_status info found s;
      let s := if ret =? S_200_OK then s else hs_on_response (setDataStreamer None) s in
      '(s, ret) ← (if useHTMLIEngine config && engine_type s then processResourceFile config fuel (fullPath info) s
                   else Ret (s, ret) : outcome (Web * Z));
      if (ret =? S_404_NOT_FOUND) && bool_decide (redirectPathOn404 config <> []) then redirect_to (redirectPathOn404 config) s
      else Ret (s, ret)
  end.

(** *** Calls of the API *)
Definition json_answer (v : J) s : Web := send_object (json_streamer (useFormattedJSONOutput config) v) (bs "application/json") s.

(** The origins that may call an endpoint. *)
Definition origin_allowed (endpointName : bytes) s : bool :=
  let requestOrigin := getOrigin s in
  let requestXAPIKEY := getOptionValueStringByName (bs "x-api-key") (request_headers s) in
  let permitted (origin apikey : bytes) (origins : gset bytes) := bool_decide (origin ∈ origins) in
  if bool_decide (endpointName = loginCallbackAPIEndpointName config) then
    default permitted (dynamicLoginCallbackOriginValidator config) requestOrigin requestXAPIKEY (permittedLoginOrigins config)
  else if bool_decide (requestOrigin <> []) then
    default permitted (dynamicOriginValidator config) requestOrigin requestXAPIKEY (permittedAPIOrigins config)
  else true.

(** The body is an object the response shares with [apiReturn]: the error that is
    set after it was given to the response is in it. *)
Definition disallowed_origin s : outcome (Web * Z) :=
  apiReturn ← setError 401 (bs "invalid_security_context") (bs "Disallowed Origin") apireturn_new;
  Ret (json_answer (body apiReturn) s, httpResponseCode apiReturn).

Fixpoint add_headers (l : list (bytes * bytes)) (h : MIME_Header) : outcome MIME_Header :=
  match l with
  | [] => Ret h
  | (name, value) :: l => h ← add_header name value h; add_headers l h
  end.

(** The cookies, headers and redirection of an answer. *)
Definition apply_answer (apiReturn : APIReturn J) s : outcome (Web * Z) :=
  let s := hs_on_response (fun r => foldl (fun r i => setCookie i.1 i.2 r) r (cookiesMap apiReturn)) s in
  h ← add_headers (httpExtraHeaders apiReturn) (rs_headers (hs_response s));
  let s := hs_on_response (rs_set_headers h) s in
  Ret (match redirectURL apiReturn with
       | [] => (s, httpResponseCode apiReturn)
       | url => redirectUsingJS url s
       end).

Definition post_parameters s : outcome J :=
  o ← getJSONStreamerContent s; Ret (match o with Some o => json_value o | None => json_null end).

Definition call_api (baseApiUrl : bytes) (apiVersion : Z) (endpointName : bytes) s : outcome (Web * Z) :=
  postParameters ← post_parameters s;
  let httpMethodMode := m_requestMethod (request_line s) in
  '(s, apiReturn) ←
    (if bool_decide (httpMethodMode = bs "OPTIONS") then handleOptionsRequest baseApiUrl (wrapw 32 apiVersion) endpointName s
     else
       '(s, apiReturn) ← handleAPIRequest baseApiUrl (wrapw 32 apiVersion) httpMethodMode endpointName postParameters s;
       Ret (json_answer (body apiReturn) s, apiReturn) : outcome (Web * APIReturn J));
  apply_answer apiReturn s.

(** What is under a base URL: the answer, when it is one of the API. *)
Definition serve_api (baseApiUrl apiUrlWithoutBase : bytes) s : outcome (Web * option Z) :=
  match match_api_path apiUrlWithoutBase with
  | Some (version, endpointName) =>
      apiVersion ← stoul version;
      '(s, ret) ← (if origin_allowed endpointName s then call_api baseApiUrl apiVersion endpointName s else disallowed_origin s);
      Ret (s, Some ret)
  | None =>
      if starts_with apiUrlWithoutBase (bs "/auth/") then
        '(s, ret) ← handleAuthFunctions baseApiUrl (zdrop 6 apiUrlWithoutBase) s; Ret (s, Some ret)
      else if starts_with apiUrlWithoutBase (bs "/info") then
        Ret (json_answer (handleAPIInfo baseApiUrl s) s, Some S_200_OK)
      else Ret (s, None)
  end.

(** The first base URL the request is under. *)
Fixpoint find_api (urls : list bytes) (requestURI : bytes) s : outcome (Web * option Z) :=
  match urls with
  | [] => Ret (s, None)
  | baseApiUrl :: urls =>
      if starts_with requestURI (baseApiUrl ++ SLASH) then serve_api baseApiUrl (zdrop (zlen baseApiUrl) requestURI) s
      else find_api urls requestURI s
  end.

(** A handler of the application, or a file. *)
Fixpoint find_route (routes : list (bytes * (bytes -> Web -> outcome (Web * Z)))) (requestURI : bytes) s : outcome (Web * Z) :=
  match routes with
  | [] => handleRegularFileRequest s
  | (route, handler) :: routes =>
      if starts_with requestURI (route ++ SLASH) then handler (zdrop (zlen route) requestURI) s
      else find_route routes requestURI s
  end.

Definition set_server_name s : outcome Web :=
  match webServerName config with
  | [] => Ret s
  | name => r ← setServerName name (hs_response s); Ret (hs_set_response r s)
  end.

Definition set_log_user s : outcome Web :=
  session ← current_session s;
  Ret (on_app (wa_set_user (match session with Some x => m_user x | None => [] end)) s).

Definition initial_checks s : outcome (Web * Z) :=
  match dynamicInitialChecks config with Some check => check s | None => Ret (s, S_200_OK) end.

(** From the start of the session to its end. *)
Definition serve_in_session (requestURI : bytes) s : outcome (Web * Z) :=
  '(s, rtmp) ← sessionStart s;
  if negb (rtmp =? S_200_OK) then Ret (s, rtmp)
  else
    s ← set_log_user s;
    '(s, answer) ← find_api (aPIURLs config) requestURI s;
    '(s, ret) ← (match answer with
                 | Some ret => Ret (s, ret)
                 | None => find_route (dynamicRequestHandlersByRoute config) requestURI s
                 end : outcome (Web * Z));
    s ← sessionCleanup s;
    Ret (s, ret).

Definition web_onHTTPClientContentReceived s : outcome (Web * Z) :=
  let requestURI := m_requestURI (request_line s) in
  s ← set_server_name s;
  if negb (isSupportedUserAgent (userAgent (hs_info s))) then
    Ret (showBrowserMessage (bs "Browser Upgrade Required") browser_message S_426_UPGRADE_REQUIRED s)
  else
    '(s, retCode) ← initial_checks s;
    if negb (retCode =? S_200_OK) then Ret (s, retCode)
    else
      match mm_find requestURI (redirections config) with
      | Some location => redirect_to location s
      | None => serve_in_session requestURI s
      end.

(** *** WebSocket connections *)
Definition refuse_websocket (code : Z) s : outcome (Web * bool) := Ret (hs_on_response (set_code code) s, false).

(** [getWebSocketEndpointByURI], and the connections of the endpoint. *)
Definition endpoint_by_uri (path : bytes) (a : WebApp J W D) : option bytes :=
  match ws_endpoints (wa_endpoints a) !! path with Some _ => Some path | None => None end.
Definition endpoint_connections (path : bytes) (a : WebApp J W D) : gmap bytes WebSocketConnection := default ∅ (wa_connections a !! path).

Definition web_onWebSocketHTTPClientHeadersReceived s : outcome (Web * bool) :=
  let requestURI := m_requestURI (request_line s) in
  s ← set_server_name s;
  '(s, rtmp) ← sessionStart s;
  if negb (rtmp =? S_200_OK) then refuse_websocket rtmp s
  else
    s ← set_log_user s;
    '(s, rtmp) ← checkWebSocketRequestURI requestURI s;
    if negb (rtmp =? S_200_OK) then s ← sessionCleanup s; refuse_websocket rtmp s
    else
      let s := on_app (fun a => wa_set_ws_endpoint (endpoint_by_uri requestURI a) a) s in
      match m_webSocketCurrentEndpoint (hs_app s) with
      | None => Undef
      | Some path =>
          session ← current_session s;
          match session with
          | None => Undef
          | Some x =>
              userConnectionCount ← getActiveUserConnectionsCount (wa_auth (hs_app s)) (m_user x) (endpoint_connections path (hs_app s));
              if userConnectionCount >=? maxConnectionsPerUserPerEndpoint config then
                s ← sessionCleanup s; refuse_websocket 429 s
              else Ret (s, true)
          end
      end.

(** The text of the first message. *)
Definition session_id_message (id : bytes) : bytes :=
  styled_write (json_set (json_set json_null (bs "type") (json_string (bs "session_id"))) (bs "sessionId") (json_string id)).

Definition send_text (text : bytes) s : outcome Web :=
  '(up, _) ← sendWebSocketText text (hs_stream s); Ret (hs_set_stream up s).

Definition web_onWebSocketConnectionEstablished s : outcome Web :=
  match m_webSocketCurrentEndpoint (hs_app s) with
  | None => Ret s
  | Some path =>
      let a := hs_app s in
      let id := createRandomString (wa_draws a) 16 in
      let s := hs_set_app (wa_set_ws_id id (wa_set_draws (Datatypes.S (wa_draws a)) a)) s in
      let connections := endpoint_connections path a in
      match connections !! id with
      | Some _ => Throw (runtime_error "Web Socket ID is repeated. This should not happen. Reseting")
      | None =>
          let c := mkConnection (currentSessionInfo a) ∅ in
          let s := on_app (fun a => wa_set_connections (<[path := <[id := c]> connections]> (wa_connections a)) a) s in
          s ← (if sendWebSocketSessionIDAtConnection config then send_text (session_id_message id) s else Ret s);
          handleWebSocketEvent SESSION_START s
      end
  end.

Definition onWebSocketBinaryDataFrameReceived s : outcome Web := handleWebSocketEvent RECEIVED_MESSAGE_BINARY s.
Definition onWebSocketTextFrameReceived s : outcome Web := handleWebSocketEvent RECEIVED_MESSAGE_TEXT s.

(** [destroyElement]: nobody else reads the connection. *)
Definition onWebSocketConnectionFinished s : outcome Web :=
  s ← handleWebSocketEvent SESSION_END s;
  let a := hs_app s in
  let s :=
    match m_webSocketCurrentEndpoint a with
    | Some path =>
        let left := delete (m_webSocketSessionId a) (endpoint_connections path a) in
        hs_set_app (wa_set_connections (<[path := left]> (wa_connections a)) a) s
    | None => s
    end in
  sessionCleanup s.

(** The server as an application of the HTTP server. *)
#[export] Instance web_handlers : HttpHandlers M S O (WebApp J W D) := {|
  onHTTPClientURIReceived s := Ret (s, true);
  onHTTPClientHeadersReceived s := Ret (s, true);
  onHTTPClientContentReceived := web_onHTTPClientContentReceived;
  onWebSocketHTTPClientHeadersReceived := web_onWebSocketHTTPClientHeadersReceived;
  onWebSocketConnectionEstablished := web_onWebSocketConnectionEstablished |}.
End WebCore.

(** ** Files *)
Section Files.
Context {M : Type} `{Container M} `{!MMapFile M} {S : Type} `{Sink S} {O : Type} `{Sink O} `{!Source O} `{!ContentObjects O}.
Context `{!HttpObjects O} `{!FileSystem O} `{!FileSystemLaws O}.
Context {J : Type} `{JsonCpp J} `{!JsonOutput J} `{!WebObjects J O} {R : Type} `{!BoostRegex R} {W D : Type} `{!WebFiles}.
Context `{RandomBytes} `{DateFormat} `{OpenSSL} `{Base64BIO}.
Context `{!ApiServer M S O J W D} (config : APIServerConfig M S O J R W D).
Abbreviation Web := (HttpServer M S O (WebApp J W D)).
Implicit Types s : Web.

Lemma redirect_code location s s' code : redirect_to location s = Ret (s', code) -> code = 307.
Proof.
  unfold redirect_to, setRedirectLocation. destruct (header_replace _ _ _) as [h| | |]; [|done..]. by intros [= _ <-].
Qed.

Lemma processed_code fuel path s s' code : processResourceFile config fuel path s = Ret (s', code) -> code = 200 \/ code = 404.
Proof.
  unfold processResourceFile. destruct (page_content path s) as [c|]; [|intros [= _ <-]; by right].
  destruct (procResource_HTMLIEngineInclude _ _ _ _) as [c1| | |]; [|done..]. cbn [mbind outcome_bind].
  destruct (procResource_JProcessor _ _ _) as [[s1 c2]| | |]; [|done..]. cbn [mbind outcome_bind].
  destruct (writeString _ _) as [[o w]| | |]; [|done..]. intros [= _ <-]. by left.
Qed.

(** The attempts that fail change nothing. *)
Lemma find_resource_spec s s' info :
  find_resource config s = Ret (s', info, true) ->
  exists suffix, suffix ∈ [bs ".html"; bs "index.html"; []] /\ resolve_resource config suffix s = Ret (s', info, true).
Proof.
  unfold find_resource.
  destruct (resolve_resource config (bs ".html") s) as [[[s1 i1] [|]]| | |] eqn:E1; cbn [mbind outcome_bind]; try done.
  { intros [= <- <-]. exists (bs ".html"). split; [set_solver|done]. }
  apply (resolve_refused _ _ fileinfo_reset) in E1 as ->.
  destruct (resolve_resource config (bs "index.html") s) as [[[s2 i2] [|]]| | |] eqn:E2; cbn [mbind outcome_bind]; try done.
  { intros [= <- <-]. exists (bs "index.html"). split; [set_solver|done]. }
  apply (resolve_refused _ _ fileinfo_reset) in E2 as ->. intros E3. exists []. split; [set_solver|done].
Qed.

(** What may be answered: a file that was found and that the filter accepts. *)
Lemma file_status_ok info found s s' :
  file_status config info found s = Ret (s', 200) ->
  s' = s /\ found = true /\ isDirectory info = false /\
  exists e, evaluate_filter config (relativePath info) s = Ret e /\ fe_accept e = true /\ fe_redirectLocation e = [].
Proof.
  unfold file_status. destruct (found && negb (isDirectory info)) eqn:Ef; [|done].
  apply andb_prop in Ef as [-> Hd%negb_true_iff].
  destruct (evaluate_filter _ _ _) as [e| | |]; [|done..]. cbn [mbind outcome_bind].
  destruct (fe_accept e) eqn:Ea; [|done]. cbn [negb].
  destruct (fe_redirectLocation e) eqn:El; [|by intros ?%redirect_code]. intros [= <-]. split_and!; try done. by exists e.
Qed.

(** After [setDataStreamer(nullptr)] the engine is not for what is left. *)
Lemma cleared_type s : engine_type (hs_on_response (setDataStreamer None) s) = false.
Proof. done. Qed.

(** Where a file that is answered comes from. *)
Definition served_from (suffix : bytes) (info : FileInfo) s s1 : Prop :=
  fullPath info = bs "MEM:" ++ m_requestURI (request_line s) ++ suffix \/
  exists prefix dir rc cs, (prefix, dir) ∈ (SLASH, m_documentRootPath config) :: m_overlappedDirectories config /\
    realpath (c_str dir) = Some (path_text rc) /\ Forall component_ok cs /\ fullPath info = entry_text false (rc ++ cs) /\
    relativePath info = prefix ++ tail (entry_text false cs) /\
    referenceFile (fullPath info) = Some (m_contentStreamableObject (rs_content (hs_response s1))).

Lemma resolve_resource_from suffix info s s1 :
  resolve_resource config suffix s = Ret (s1, info, true) -> isDirectory info = false -> served_from suffix info s s1.
Proof.
  intros E Hd. destruct (resolve_contained (m_documentRootPath config) (m_overlappedDirectories config) fileinfo_reset suffix false s s1 info E) as [C|(prefix & dir & rc & cs & C)]; [by left|right].
  rewrite Hd in C. exists prefix, dir, rc, cs. destruct C as (? & ? & ? & ? & ? & ? & Hfile). split_and!; auto.
Qed.

(** C11. A file is answered with success only when it is content in memory or a file
    below the document root or an overlapped directory, it is not a directory, and
    the filter accepts its path for the scopes and roles of the session without a
    redirection; and what is answered is that file, unless it is a page for the
    engine. *)
Theorem file_request_filtered fuel s s' :
  handleRegularFileRequest config fuel s = Ret (s', S_200_OK) ->
  exists suffix info s1 e, suffix ∈ [bs ".html"; bs "index.html"; []] /\
    resolve_resource config suffix s = Ret (s1, info, true) /\ served_from suffix info s s1 /\ isDirectory info = false /\
    evaluate_filter config (relativePath info) s1 = Ret e /\ fe_accept e = true /\ fe_redirectLocation e = [] /\
    (if useHTMLIEngine config && engine_type s1 then processResourceFile config fuel (fullPath info) s1 = Ret (s', S_200_OK)
     else s' = s1).
Proof.
  unfold handleRegularFileRequest. destruct (m_documentRootPath config); [done|].
  destruct (find_resource config s) as [[[s1 info] found]| | |] eqn:Ef; [|done..]. cbn [mbind outcome_bind].
  destruct (file_status config info found s1) as [[s2 ret]| | |] eqn:Es; [|done..]. cbn [mbind outcome_bind].
  destruct (Z.eqb_spec ret S_200_OK) as [->|Hret].
  - apply file_status_ok in Es as (-> & -> & Hd & e & He & Ha & Hl).
    destruct (find_resource_spec s s1 info Ef) as (suffix & Hin & Er). intros Hs. exists suffix, info, s1, e.
    split_and!; try done; [by apply resolve_resource_from|].
    destruct (useHTMLIEngine config && engine_type s1).
    + destruct (processResourceFile config fuel (fullPath info) s1) as [[s3 code]| | |] eqn:Ep; [|done..].
      cbn [mbind outcome_bind] in Hs. destruct (_ && _); [by apply redirect_code in Hs|done].
    + cbn [mbind outcome_bind] in Hs. change (S_200_OK =? S_404_NOT_FOUND) with false in Hs. cbn [andb] in Hs. by injection Hs.
  - rewrite cleared_type, andb_false_r. cbn [mbind outcome_bind]. destruct (_ && _); [by intros ?%redirect_code|].
    by intros [= _ ->].
Qed.
End Files.

(** ** Calls of the API *)

Lemma digit_char_isdigit d : 0 <= d < 10 -> isdigit (digit_char d) = true.
Proof. intros Hd. unfold digit_char, isdigit. replace (d <? 10) with true by lia. lia. Qed.

Lemma to_string_digits n : 0 <= n -> Forall (fun c => isdigit c = true) (to_string n).
Proof.
  intros Hn. eapply Forall_impl; [apply print_base_chars; lia|]. intros c (d & -> & Hd). by apply digit_char_isdigit.
Qed.

Lemma stoul_to_string n : 0 <= n -> stoul (to_string n) = if n >? ULONG_MAX then Throw (logic_error "stoul") else Ret n.
Proof.
  intros Hn. unfold stoul. pose proof (print_base_bound 10 n).
  destruct (read_print_digits (Z.to_nat (Z.log2 n)) 10 0 n []) as (k & _ & _ & _ & Hr); [lia|lia|].
  rewrite app_nil_r in Hr. change (print_digits (Z.to_nat (Z.log2 n)) 10 n) with (to_string n) in Hr. rewrite Hr.
  cbn [read_digits fst]. by replace (0 * 10 ^ k + n) with n by lia.
Qed.

(** The path of a version and a name. *)
Definition api_path (n : Z) (name : bytes) : bytes := bs "/v" ++ to_string n ++ 47 :: name.

Lemma match_api_path_spec n name :
  0 <= n -> one_line_text name = true -> match_api_path (api_path n name) = Some (to_string n, name).
Proof.
  intros Hn Hname. unfold match_api_path, api_path. rewrite strip_app, span_stop by (by apply to_string_digits || done).
  rewrite Hname. destruct (to_string n) eqn:E; [|done]. unfold to_string, print_base in E.
  destruct (print_digits_cons (Z.to_nat (Z.log2 n)) 10 n) as (d & l & E' & _); [lia..|]. by rewrite E in E'.
Qed.

Section Calls.
Context {M : Type} `{Container M} `{!MMapFile M} {S : Type} `{Sink S} {O : Type} `{Sink O} `{!Source O} `{!ContentObjects O}.
Context `{!HttpObjects O} `{!FileSystem O}.
Context {J : Type} `{JsonLaws J} `{!JsonOutput J} `{!WebObjects J O} {R : Type} `{!BoostRegex R} {W D : Type} `{!WebFiles}.
Context `{RandomBytes} `{DateFormat} `{OpenSSL} `{Base64BIO}.
Context `{!ApiServer M S O J W D} (config : APIServerConfig M S O J R W D).
Abbreviation Web := (HttpServer M S O (WebApp J W D)).
Implicit Types s : Web.

Lemma find_api_base before base after uri rest s :
  Forall (fun u => starts_with uri (u ++ SLASH) = false) before -> uri = base ++ rest -> head rest = Some SLASHB ->
  find_api config (before ++ base :: after) uri s = serve_api config base rest s.
Proof.
  intros Hb -> Hh. destruct rest as [|c rest]; [done|]. injection Hh as ->.
  induction Hb as [|u before Hu _ IH]; cbn [app find_api]; [|by rewrite Hu].
  change (SLASHB :: rest) with (SLASH ++ rest). rewrite app_assoc, starts_with_app. f_equal.
  by rewrite <- app_assoc, zdrop_app_ge, Z.sub_diag, zdrop_le0 by lia.
Qed.

(** The refusal of an origin. *)
Definition refused_origin : J :=
  json_set (json_set json_null (bs "error") (json_string (bs "invalid_security_context"))) (bs "message")
    (json_string (bs "Disallowed Origin")).

Lemma disallowed_origin_spec s : disallowed_origin config s = Ret (json_answer config refused_origin s, 401).
Proof. unfold disallowed_origin, setError. cbn [body apireturn_new]. by rewrite isNull_null, orb_true_r. Qed.

(** What an API call is answered, once its session is started: an exception for a
    version that is no [unsigned long], a refusal of the origin, or the handler of
    the version, whose number is taken in 32 bits. *)
Definition api_answer (base : bytes) (n : Z) (name : bytes) s : outcome (Web * Z) :=
  if n >? ULONG_MAX then Throw (logic_error "stoul")
  else if negb (origin_allowed config name s) then Ret (json_answer config refused_origin s, 401)
  else
    post ← post_parameters s;
    if bool_decide (m_requestMethod (request_line s) = bs "OPTIONS") then
      '(s, r) ← handleOptionsRequest base (n mod 2 ^ 32) name s; apply_answer r s
    else
      '(s, r) ← handleAPIRequest base (n mod 2 ^ 32) (m_requestMethod (request_line s)) name post s;
      apply_answer r (json_answer config (body r) s).

Lemma serve_api_call base n name s :
  0 <= n -> one_line_text name = true ->
  serve_api config base (api_path n name) s = '(s, code) ← api_answer base n name s; Ret (s, Some code).
Proof.
  intros Hn Hname. unfold serve_api, api_answer. rewrite match_api_path_spec, stoul_to_string by done.
  destruct (n >? ULONG_MAX); [done|]. cbn [mbind outcome_bind]. destruct (origin_allowed config name s); cbn [negb].
  - unfold call_api, wrapw. destruct (post_parameters s) as [post| | |]; [|done..]. cbn [mbind outcome_bind].
    case_bool_decide; [done|]. by destruct (handleAPIRequest _ _ _ _ _ _) as [[s1 r]| | |].
  - by rewrite disallowed_origin_spec.
Qed.

(** C8. From the whole request: a browser that is supported asks for a version and a
    name under a base URL of the server.  The first base URL the URI is under
    answers; the session is started before and cleaned up after, the handlers of
    the application and the files are not asked; and when the answer is an
    exception the session is left as it is. *)
Theorem api_call_answered fuel base n name before after s s0 s1 s2 :
  0 <= n -> one_line_text name = true -> aPIURLs config = before ++ base :: after ->
  m_requestURI (request_line s) = base ++ api_path n name ->
  Forall (fun u => starts_with (base ++ api_path n name) (u ++ SLASH) = false) before ->
  isSupportedUserAgent (userAgent (hs_info s0)) = true -> dynamicInitialChecks config = None ->
  mm_find (base ++ api_path n name) (redirections config) = None ->
  set_server_name config s = Ret s0 -> sessionStart s0 = Ret (s1, S_200_OK) -> set_log_user s1 = Ret s2 ->
  web_onHTTPClientContentReceived config fuel s =
    '(s3, code) ← api_answer base n name s2; s4 ← sessionCleanup s3; Ret (s4, code).
Proof.
  intros Hn Hname Hurls Huri Hb Hua Hchecks Hred Es0 Es1 Es2. unfold web_onHTTPClientContentReceived. rewrite Es0.
  cbn [mbind outcome_bind]. rewrite Hua, Huri. unfold initial_checks. rewrite Hchecks. cbn [negb mbind outcome_bind].
  change (S_200_OK =? S_200_OK) with true. cbn [negb]. rewrite Hred. unfold serve_in_session. rewrite Es1.
  cbn [mbind outcome_bind]. change (S_200_OK =? S_200_OK) with true. cbn [negb]. rewrite Es2. cbn [mbind outcome_bind].
  rewrite Hurls, (find_api_base before base after _ (api_path n name)), serve_api_call by done.
  by destruct (api_answer base n name s2) as [[s3 code]| | |].
Qed.
End Calls.
