(* ===== verification/Restful.v ===== *)
(** * The RESTful server (Server_RESTfulWebAPI: clienthandler.cpp,
      clienthandler_session.cpp, clienthandler_websocket.cpp, engine.cpp)

    A request is authenticated by the token in its Authorization header or, when
    it has none, by the one in a cookie.  The token and what was verified stay in
    the members of the connection from one request to the next. *)

From S2P Require Import Prelude SafeInt Mem Streamable Container ContainerTheory BMem BChunks ChunkBuffer BRef.
From S2P Require Import SubParser Parser CLib HttpContent MimeHeader HeaderTheory Encoders UrlStream HttpVars HttpLines HttpHeaders HttpResponse WebSocket HttpServer FilePaths.
From S2P Require Import Jwt JwtVerify Threads Sessions Endpoints ResourcesFilter Cors WebApi HtmlEngine WebCore.
From Stdlib Require Import ZArith Lia.
From stdpp Require Import gmap.
#[local] Open Scope Z_scope.

(** The members of the class. *)
Record RestHandler (J : Type) := mkRestHandler {
  m_endpointsHandler : gmap Z (RESTfulEndpoints J * Endpoints_Options);
  jwtAccessTokenName : bytes;
  m_isAuthorizationHeaderJWTVerified : bool;
  m_isAccessTokenCookieJWTVerified : bool }.
Arguments mkRestHandler {_} _ _ _ _.
Arguments m_endpointsHandler {_} _.
Arguments jwtAccessTokenName {_} _.
Arguments m_isAuthorizationHeaderJWTVerified {_} _.
Arguments m_isAccessTokenCookieJWTVerified {_} _.

Section Restful.
Context {M : Type} `{Container M} `{!MMapFile M} {S : Type} `{Sink S} {O : Type} `{Sink O} `{!Source O} `{!ContentObjects O}.
Context `{!HttpObjects O}.
Context {J : Type} `{JsonCpp J} `{!JsonOutput J} `{!WebObjects J O} {R W : Type}.
Context `{RandomBytes} `{DateFormat} `{OpenSSL} `{Base64BIO}.
Abbreviation Rest := (RestHandler J).
Abbreviation Web := (HttpServer M S O (WebApp J W (RestHandler J))).
Context (config : APIServerConfig M S O J R W Rest).
Implicit Types s : Web.

(** [time(nullptr)]; what a WebSocket handler of the application does. *)
Variable now : Z.
Variable run_handler : W -> EventType -> Web -> outcome Web.

Definition rest_members s : Rest := wa_derived (hs_app s).
Definition rest_set_header_verified (v : bool) s : Web :=
  on_app (wa_set_derived (mkRestHandler (m_endpointsHandler (rest_members s)) (jwtAccessTokenName (rest_members s)) v
    (m_isAccessTokenCookieJWTVerified (rest_members s)))) s.
Definition rest_set_cookie_verified (v : bool) s : Web :=
  on_app (wa_set_derived (mkRestHandler (m_endpointsHandler (rest_members s)) (jwtAccessTokenName (rest_members s))
    (m_isAuthorizationHeaderJWTVerified (rest_members s)) v)) s.

Definition rest_isSessionActive s : bool :=
  m_isAuthorizationHeaderJWTVerified (rest_members s) || m_isAccessTokenCookieJWTVerified (rest_members s).

(** *** The session *)

(** The validator of the application, or else the one of the server. *)
Definition validate_token (token : bytes) s : outcome (Web * bool) :=
  match dynamicTokenValidator config with
  | Some validator =>
      let apikey := getOptionValueStringByName (bs "x-api-key") (request_headers s) in
      let '(t, ok) := validator token apikey (jwtToken (hs_app s)) in
      Ret (on_app (wa_set_token t) s, ok)
  | None => verifyToken config now token s
  end.

(** A session object for the request. *)
Definition start_temporary_session s : Web :=
  let token := jwtToken (hs_app s) in
  let x := session_new now token in
  let '(a, p) := new_session x (hs_app s) in
  hs_set_app (wa_set_info (mkSessionInfo (Some p) (getJwtId token) (getJwtId token) (bool_decide (m_impersonator x <> []))) a) s.

Definition rest_sessionStart s : outcome (Web * Z) :=
  let headerBearerToken := bearer_token s in
  let cookieBearerToken := getCookie (jwtAccessTokenName (rest_members s)) s in
  s ← (if bool_decide (headerBearerToken <> []) then
         '(s, ok) ← validate_token headerBearerToken s; Ret (rest_set_header_verified ok s)
       else if bool_decide (cookieBearerToken <> []) then
         '(s, ok) ← validate_token cookieBearerToken s; Ret (rest_set_cookie_verified ok s)
       else Ret s : outcome Web);
  Ret (if rest_isSessionActive s then start_temporary_session s else s, S_200_OK).

Definition rest_getSessionScopes s : outcome (gset bytes) :=
  if rest_isSessionActive s then getAllScopes (jwtToken (hs_app s)) else Ret ∅.
Definition rest_getSessionRoles s : outcome (gset bytes) :=
  if rest_isSessionActive s then getAllRoles (jwtToken (hs_app s)) else Ret ∅.
Definition rest_doesSessionVariableExist (varName : bytes) s : outcome bool :=
  if rest_isSessionActive s then hasClaim varName (jwtToken (hs_app s)) else Ret false.
Definition rest_getSessionVariableValue (varName : bytes) s : outcome J :=
  if rest_isSessionActive s then getClaim varName (jwtToken (hs_app s)) else Ret json_null.
Definition rest_fillSessionExtraInfo (jVars : J) s : J :=
  let jVars := json_set jVars (bs "maxAge") (json_int 0) in
  if rest_isSessionActive s then json_set jVars (bs "maxAge") (json_int64 (getExpirationTime (jwtToken (hs_app s)) - now)) else jVars.

(** *** Calls *)

(** What an endpoint sees of the request. *)
Definition request_context s : outcome (ClientRequest J) :=
  o ← getJSONStreamerContent s;
  Ret (mkClientRequest (json_value <$> o) (m_requestMethod (request_line s)) (m_requestGETVarsRawString (request_line s))
         (match m_containerType (request_content s) with JSON => true | _ => false end)).

(** Whether the caller is an administrator, and the scopes; none without a session. *)
Definition rest_rights s : outcome (bool * gset bytes) :=
  if rest_isSessionActive s then
    admin ← isAdmin (jwtToken (hs_app s));
    scopes ← getAllScopes (jwtToken (hs_app s));
    Ret (admin, scopes)
  else Ret (false, ∅).

Definition rest_handleAPIRequest (baseApiUrl : bytes) (apiVersion : Z) (httpMethodMode endpointName : bytes) (postParameters : J) s :
    outcome (Web * APIReturn J) :=
  '(admin, currentScopes) ← rest_rights s;
  match m_endpointsHandler (rest_members s) !! apiVersion with
  | None => r ← setError 404 (bs "invalid_api_request") (bs "Resource Not Found") apireturn_new; Ret (s, r)
  | Some (endpoints, _) =>
      req ← request_context s;
      let auth := mkReceivedAuth (m_isAuthorizationHeaderJWTVerified (rest_members s)) (m_isAccessTokenCookieJWTVerified (rest_members s)) in
      '(_, r) ← handleEndpoint httpMethodMode endpointName req currentScopes admin auth (Some apireturn_new) endpoints;
      Ret (s, default apireturn_new r)
  end.

Definition rest_handleOptionsRequest (baseApiUrl : bytes) (apiVersion : Z) (endpointName : bytes) s : outcome (Web * APIReturn J) :=
  match m_endpointsHandler (rest_members s) !! apiVersion with
  | None => r ← setError 404 (bs "invalid_options_request") (bs "Resource Not Found") apireturn_new; Ret (s, r)
  | Some (_, options) => Ret (s, options_response endpointName (getOrigin s) options)
  end.

(** *** WebSocket *)
Definition websocket_status (r : WsResult) : Z :=
  match r with
  | WS_SUCCESS => 200
  | INVALID_EVENT_TYPE => 500
  | ENDPOINT_NOT_FOUND => 404
  | WS_AUTHENTICATION_REQUIRED => 401
  | WS_INVALID_SCOPE => 403
  end.

Definition rest_checkWebSocketRequestURI (path : bytes) s : outcome (Web * Z) :=
  '(admin, currentScopes) ← rest_rights s;
  let p := mkSecurityParameters (m_isAuthorizationHeaderJWTVerified (rest_members s)) (m_isAccessTokenCookieJWTVerified (rest_members s)) false in
  let '(e, r) := checkEndpoint path currentScopes admin p (wa_endpoints (hs_app s)) in
  Ret (on_app (wa_set_endpoints e) s, websocket_status r).

(** The handler of the shared object is called. *)
Definition rest_handleWebSocketEvent (eventType : EventType) s : outcome Web :=
  '(handler, _) ← handleEvent eventType (wa_endpoints (hs_app s));
  match handler with Some h => run_handler h eventType s | None => Ret s end.

#[export] Instance rest_server : ApiServer M S O J W Rest := {|
  sessionStart := rest_sessionStart;
  sessionCleanup s := Ret s;
  handleAPIRequest := rest_handleAPIRequest;
  handleOptionsRequest := rest_handleOptionsRequest;
  handleAuthFunctions _ _ s := Ret (s, 501);
  handleAPIInfo _ _ := json_null;
  isSessionActive := rest_isSessionActive;
  getSessionScopes := rest_getSessionScopes;
  getSessionRoles := rest_getSessionRoles;
  hasSessionVariable := rest_doesSessionVariableExist;
  sessionVariableValue := rest_getSessionVariableValue;
  fillSessionExtraInfo := rest_fillSessionExtraInfo;
  checkWebSocketRequestURI := rest_checkWebSocketRequestURI;
  handleWebSocketEvent := rest_handleWebSocketEvent |}.

(** *** The endpoints of every RESTful server (engine.cpp), by what they do to the
    shared state: the input is the JSON of the request. *)
Definition revokeJWT (input : J) (a : WebApp J W Rest) : outcome (WebApp J W Rest * APIReturn J) :=
  let jwtSignature := decodeFromBase64 (ASSTRING input (bs "signature") []) true in
  let expirationTime := ASINT64 input (bs "expiration") 0 in
  match wa_validator a with
  | None => Undef
  | Some j =>
      let j := jwt_set_revocation (addToRevocationList jwtSignature expirationTime (m_revocation j)) j in
      Ret (wa_set_validator (Some j) a, apireturn_new)
  end.

(** The constructor of an answer with an error. *)
Definition error_answer (code : Z) (error message : bytes) : outcome (APIReturn J) := setError code error message apireturn_new.

(** What both functions of the topics look up. *)
Definition with_topic (input : J) (a : WebApp J W Rest)
    (f : bytes -> bytes -> gmap bytes WebSocketConnection -> gmap bytes WebSocketConnection * bool) (refusal : outcome (APIReturn J)) :
    outcome (WebApp J W Rest * APIReturn J) :=
  let uri := ASSTRING input (bs "uri") [] in
  let webSocketSessionId := ASSTRING input (bs "webSocketSessionId") [] in
  let topicId := ASSTRING input (bs "topicId") [] in
  if bool_decide (uri = []) || bool_decide (webSocketSessionId = []) || bool_decide (topicId = []) then
    r ← error_answer 400 (bs "missing_parameters") (bs "Required parameters (uri, webSocketSessionId, topicId) are missing"); Ret (a, r)
  else
    match endpoint_by_uri uri a with
    | None => r ← error_answer 404 (bs "invalid_uri") (bs "WebSocket endpoint not found"); Ret (a, r)
    | Some path =>
        let '(connections, ok) := f webSocketSessionId topicId (endpoint_connections path a) in
        if (ok : bool) then Ret (wa_set_connections (<[path := connections]> (wa_connections a)) a, apireturn_new)
        else r ← refusal; Ret (a, r)
    end.

Definition subscribeToTopic (maxTopics : Z) (input : J) (a : WebApp J W Rest) : outcome (WebApp J W Rest * APIReturn J) :=
  with_topic input a (joinTopicSubscription maxTopics)
    (error_answer 429 (bs "limits_reached") (bs "Connection limit reached for this topic")).
Definition unsubscribeFromTopic (input : J) (a : WebApp J W Rest) : outcome (WebApp J W Rest * APIReturn J) :=
  with_topic input a leaveTopicSubscription
    (error_answer 404 (bs "not_subscribed") (bs "Client is not subscribed to this topic")).

(** Who may call them: [jwt/revoke] has the requirements of a definition that
    nobody has changed. *)
Definition jwtRevokeDef (f : ClientRequest J -> J -> APIReturn J) : RESTfulAPIEndpointFullDefinition J :=
  mkFullDefinition (Some f) (mkConfiguration true true {[bs "IAM"]}).
Definition topics_security : Configuration := configuration_set 2 {[bs "WSTOPICS"]}.
End Restful.

(** ** Who is authenticated *)
Section RestTheory.
Context {M : Type} `{Container M} `{!MMapFile M} {S : Type} `{Sink S} {O : Type} `{Sink O} `{!Source O} `{!ContentObjects O}.
Context `{!HttpObjects O}.
Context {J : Type} `{JsonLaws J} `{!JsonOutput J} `{!WebObjects J O} {R W : Type}.
Context `{RandomBytes} `{DateFormat} `{OpenSSL} `{Base64BIO}.
Abbreviation Web := (HttpServer M S O (WebApp J W (RestHandler J))).
Context (config : APIServerConfig M S O J R W (RestHandler J)).
Implicit Types s : Web.
Variable now : Z.

(** The server accepts a token: it verifies, and it is an access token of the
    application. *)
Definition token_accepted (token : bytes) (t0 t : Token J) (j j' : JWT) : Prop :=
  verify now token t0 j = Ret (j', t, true) /\
  (exists app, getClaim (bs "app") t = Ret app /\ ASSTRING_D app [] = appName config) /\
  exists type, getClaim (bs "type") t = Ret type /\ ASSTRING_D type [] = bs "access".

Lemma verifyToken_accepts token s s' :
  verifyToken config now token s = Ret (s', true) ->
  exists j j', wa_validator (hs_app s) = Some j /\ wa_validator (hs_app s') = Some j' /\
    token_accepted token (jwtToken (hs_app s)) (jwtToken (hs_app s')) j j'.
Proof.
  unfold verifyToken. destruct (wa_validator (hs_app s)) as [j|]; [|done].
  destruct (verify now token _ j) as [[[j' t] x]| | |] eqn:Ev; [|done..]. cbn [mbind outcome_bind].
  destruct x; [|done]. cbn [negb]. destruct (getClaim (bs "app") t) as [a| | |] eqn:Ea; [|done..]. cbn [mbind outcome_bind].
  case_bool_decide as Happ; [done|]. destruct (getClaim (bs "type") t) as [y| | |] eqn:Ey; [|done..].
  cbn [mbind outcome_bind]. intros [= <- Hy%bool_decide_eq_true]. exists j, j'. split; [done|]. split; [done|].
  split; [exact Ev|]. split; [by exists a|by exists y].
Qed.

Lemma verifyToken_members token s s' b :
  verifyToken config now token s = Ret (s', b) -> rest_members s' = rest_members s.
Proof.
  unfold verifyToken. destruct (wa_validator (hs_app s)) as [j|]; [|by intros [= <- _]].
  destruct (verify now token _ j) as [[[j' t] x]| | |]; [|done..]. cbn [mbind outcome_bind].
  destruct x; [|by intros [= <- _]]. cbn [negb]. destruct (getClaim (bs "app") t) as [a| | |]; [|done..]. cbn [mbind outcome_bind].
  case_bool_decide; [by intros [= <- _]|]. destruct (getClaim (bs "type") t) as [y| | |]; [|done..]. by intros [= <- _].
Qed.

(** The flags, after one of them was set. *)
Lemma flags_header b s :
  m_isAuthorizationHeaderJWTVerified (rest_members (rest_set_header_verified b s)) = b /\
  m_isAccessTokenCookieJWTVerified (rest_members (rest_set_header_verified b s)) = m_isAccessTokenCookieJWTVerified (rest_members s).
Proof. done. Qed.
Lemma flags_cookie b s :
  m_isAuthorizationHeaderJWTVerified (rest_members (rest_set_cookie_verified b s)) = m_isAuthorizationHeaderJWTVerified (rest_members s) /\
  m_isAccessTokenCookieJWTVerified (rest_members (rest_set_cookie_verified b s)) = b.
Proof. done. Qed.

(** The session object of the request. *)
Lemma start_temporary_session_spec s :
  current_session (start_temporary_session now s) = Ret (Some (session_new now (jwtToken (hs_app s)))) /\
  jwtToken (hs_app (start_temporary_session now s)) = jwtToken (hs_app s) /\
  rest_members (start_temporary_session now s) = rest_members s /\
  wa_validator (hs_app (start_temporary_session now s)) = wa_validator (hs_app s).
Proof.
  split_and!; [|done..]. unfold current_session, start_temporary_session, deref. cbn -[fresh]. by rewrite lookup_insert_eq.
Qed.

(** Nothing was verified on the connection before. *)
Definition fresh_connection s : Prop :=
  m_isAuthorizationHeaderJWTVerified (rest_members s) = false /\ m_isAccessTokenCookieJWTVerified (rest_members s) = false.

(** What the endpoint asks for is not there. *)
Definition lacks (c : Configuration) s : Prop :=
  requireJWTHeaderAuthentication c = true /\ m_isAuthorizationHeaderJWTVerified (rest_members s) = false \/
  requireJWTCookieAuthentication c = true /\ m_isAccessTokenCookieJWTVerified (rest_members s) = false \/
  requiredScopes c <> ∅ /\ rest_isSessionActive s = false.

Lemma setError_new code error message :
  setError (J := J) code error message apireturn_new =
    Ret (mkAPIReturn code (json_set (json_set json_null (bs "error") (json_string error)) (bs "message") (json_string message)) [] [] []).
Proof. unfold setError. cbn [body apireturn_new]. by rewrite isNull_null, orb_true_r. Qed.

Lemma rest_refuses base v mode name post s e opts d f req :
  m_endpointsHandler (rest_members s) !! v = Some (e, opts) -> rest_find (stringToMethod mode) name e = Some d ->
  endpointDefinition d = Some f -> request_context s = Ret req -> (exists a c, rest_rights s = Ret (a, c)) -> lacks (security d) s ->
  exists r, rest_handleAPIRequest base v mode name post s = Ret (s, r) /\ (httpResponseCode r = 401 \/ httpResponseCode r = 403).
Proof.
  intros He Hd Hf Hreq (a & c & Hr) Hl. unfold rest_handleAPIRequest. rewrite Hr. cbn [mbind outcome_bind].
  rewrite He, Hreq. cbn [mbind outcome_bind]. rewrite stringToMethod_unknown by (intros E; by rewrite E in Hd).
  unfold handleEndpoint_method. rewrite Hd, Hf. unfold setError_if. rewrite !setError_new. cbn [mbind outcome_bind].
  cbn [hasVerifiedJWTAuthorizationHeader hasVerifiedJWTAccessTokenCookie].
  destruct (requireJWTHeaderAuthentication (security d) && _) eqn:E1; [eexists; split; [done|by right]|].
  destruct (requireJWTCookieAuthentication (security d) && _) eqn:E2; [eexists; split; [done|by right]|].
  destruct (negb a && _) eqn:E3; [eexists; split; [done|by left]|]. exfalso.
  destruct Hl as [[Hl1 Hl2]|[[Hl1 Hl2]|[Hl1 Hl2]]]; [by rewrite Hl1, Hl2 in E1|by rewrite Hl1, Hl2 in E2|].
  unfold rest_rights in Hr. rewrite Hl2 in Hr. injection Hr as <- <-. cbn [negb andb] in E3. apply Hl1.
  apply missing_scope in E3. set_solver.
Qed.

(** C9. The first request of a connection: it is in a session only with a token that
    the server accepts, the one of the header, or the one of the cookie when the
    header has none; the session is the one of that token; and an endpoint that
    asks for more than there is answers 401 or 403 without its function.  Both kinds
    of authentication are never there at once, so the endpoints that ask for both,
    as a definition nobody has changed does ([jwt/revoke]), are closed. *)
Theorem rest_first_request s s1 code :
  fresh_connection s -> dynamicTokenValidator config = None -> rest_sessionStart config now s = Ret (s1, code) ->
  code = S_200_OK /\
  (rest_isSessionActive s1 = true -> exists token j j',
     token <> [] /\ wa_validator (hs_app s) = Some j /\ wa_validator (hs_app s1) = Some j' /\
     token_accepted token (jwtToken (hs_app s)) (jwtToken (hs_app s1)) j j' /\
     current_session s1 = Ret (Some (session_new now (jwtToken (hs_app s1)))) /\
     if m_isAuthorizationHeaderJWTVerified (rest_members s1) then token = bearer_token s
     else bearer_token s = [] /\ token = getCookie (jwtAccessTokenName (rest_members s)) s) /\
  (m_isAuthorizationHeaderJWTVerified (rest_members s1) && m_isAccessTokenCookieJWTVerified (rest_members s1) = false) /\
  (forall base v mode name post e opts d f req,
     m_endpointsHandler (rest_members s1) !! v = Some (e, opts) -> rest_find (stringToMethod mode) name e = Some d ->
     endpointDefinition d = Some f -> request_context s1 = Ret req -> (exists a c, rest_rights s1 = Ret (a, c)) ->
     lacks (security d) s1 ->
     exists r, rest_handleAPIRequest base v mode name post s1 = Ret (s1, r) /\ (httpResponseCode r = 401 \/ httpResponseCode r = 403)).
Proof.
  intros [Hh Hc] Hv. unfold rest_sessionStart, validate_token. rewrite Hv.
  destruct (bool_decide (bearer_token s <> [])) eqn:Eb.
  - apply bool_decide_eq_true in Eb. destruct (verifyToken config now (bearer_token s) s) as [[s2 ok]| | |] eqn:Et; [|done..].
    cbn [mbind outcome_bind]. pose proof (verifyToken_members _ _ _ _ Et) as Hm. destruct (flags_header ok s2) as [Fh Fc].
    rewrite Hm, Hc in Fc. assert (rest_isSessionActive (rest_set_header_verified ok s2) = ok) as Ha
      by (unfold rest_isSessionActive; by rewrite Fh, Fc, orb_false_r).
    rewrite Ha. intros [= <- <-]. split; [done|]. destruct ok.
    + destruct (start_temporary_session_spec (rest_set_header_verified true s2)) as (Hs & Ht & Hd & Hw).
      rewrite Hw, Ht, Hs, Hd, Fh, Fc. split; [|split; [done|intros; by eapply rest_refuses; rewrite ?Hd]]. intros _.
      destruct (verifyToken_accepts _ _ _ Et) as (j & j' & Hj & Hj' & Hok). exists (bearer_token s), j, j'. by split_and!.
    + rewrite Ha, Fh, Fc. split; [done|split; [done|intros; by eapply rest_refuses]].
  - apply bool_decide_eq_false, dec_stable in Eb. destruct (bool_decide (getCookie _ s <> [])) eqn:Ec.
    + apply bool_decide_eq_true in Ec. destruct (verifyToken config now (getCookie _ s) s) as [[s2 ok]| | |] eqn:Et; [|done..].
      cbn [mbind outcome_bind]. pose proof (verifyToken_members _ _ _ _ Et) as Hm. destruct (flags_cookie ok s2) as [Fh Fc].
      rewrite Hm, Hh in Fh. assert (rest_isSessionActive (rest_set_cookie_verified ok s2) = ok) as Ha
        by (unfold rest_isSessionActive; by rewrite Fh, Fc).
      rewrite Ha. intros [= <- <-]. split; [done|]. destruct ok.
      * destruct (start_temporary_session_spec (rest_set_cookie_verified true s2)) as (Hs & Ht & Hd & Hw).
        rewrite Hw, Ht, Hs, Hd, Fh, Fc. split; [|split; [done|intros; by eapply rest_refuses; rewrite ?Hd]]. intros _.
        destruct (verifyToken_accepts _ _ _ Et) as (j & j' & Hj & Hj' & Hok).
        exists (getCookie (jwtAccessTokenName (rest_members s)) s), j, j'. by split_and!.
      * rewrite Ha, Fh, Fc. split; [done|split; [done|intros; by eapply rest_refuses]].
    + cbn [mbind outcome_bind]. assert (rest_isSessionActive s = false) as Ha by (unfold rest_isSessionActive; by rewrite Hh, Hc).
      rewrite Ha. intros [= <- <-]. split; [done|]. rewrite Ha, Hh.
      split; [done|split; [done|intros; by eapply rest_refuses]].
Qed.

(** What was verified for one request stays for the next: without a token the
    next request is still in the session of the old one; and once a cookie was
    accepted, a token in the header that the server refuses, because it is expired
    or revoked, gives the request the user, the scopes and the rights of an
    administrator that the refused token names. *)
Theorem rest_refused_token_used s :
  m_isAccessTokenCookieJWTVerified (rest_members s) = true -> dynamicTokenValidator config = None ->
  (bearer_token s = [] -> getCookie (jwtAccessTokenName (rest_members s)) s = [] ->
     exists s1, rest_sessionStart config now s = Ret (s1, S_200_OK) /\ rest_isSessionActive s1 = true /\
       current_session s1 = Ret (Some (session_new now (jwtToken (hs_app s))))) /\
  (forall j j' t, bearer_token s <> [] -> wa_validator (hs_app s) = Some j ->
     verify now (bearer_token s) (jwtToken (hs_app s)) j = Ret (j', t, false) ->
     exists s1, rest_sessionStart config now s = Ret (s1, S_200_OK) /\ rest_isSessionActive s1 = true /\
       current_session s1 = Ret (Some (session_new now t)) /\
       rest_rights s1 = (admin ← isAdmin t; scopes ← getAllScopes t; Ret (admin, scopes))).
Proof.
  intros Hc Hv. unfold rest_sessionStart, validate_token. rewrite Hv. split.
  - intros -> ->. rewrite !bool_decide_eq_false_2 by (intros Hn; by apply Hn). cbn [mbind outcome_bind].
    assert (rest_isSessionActive s = true) as -> by (unfold rest_isSessionActive; by rewrite Hc, orb_true_r).
    destruct (start_temporary_session_spec s) as (Hs & _ & Hd & _). eexists. split; [done|]. split; [|exact Hs].
    unfold rest_isSessionActive. by rewrite Hd, Hc, orb_true_r.
  - intros j j' t Hb Hj Ht. rewrite bool_decide_eq_true_2 by done. unfold verifyToken. rewrite Hj, Ht. cbn [mbind outcome_bind negb].
    set (s2 := rest_set_header_verified _ _).
    assert (m_isAccessTokenCookieJWTVerified (rest_members s2) = true) as Fc by exact Hc.
    assert (rest_isSessionActive s2 = true) as Ha by (unfold rest_isSessionActive; by rewrite Fc, orb_true_r).
    rewrite Ha. destruct (start_temporary_session_spec s2) as (Hs & Htok & Hd & _).
    assert (rest_isSessionActive (start_temporary_session now s2) = true) as Ha' by (unfold rest_isSessionActive in *; by rewrite Hd).
    eexists. split; [done|]. split; [exact Ha'|]. split; [exact Hs|]. unfold rest_rights. by rewrite Ha', Htok.
Qed.
End RestTheory.
