(* ===== verification/Monolith.v ===== *)
(** * The monolithic server (Server_MonolithWebAPI: clienthandler.cpp,
      clienthandler_session.cpp, clienthandler_authfunctions.cpp,
      clienthandler_websocket.cpp)

    A login turns a token into a session of the sessions manager; a request names
    its session in a cookie and proves it with the first half in a header.  The
    manager is shared by the connections: a request runs from a state of it to
    the next.  The members of a connection stay from one request to the next. *)

From S2P Require Import Prelude SafeInt Mem Streamable Container ContainerTheory BMem BChunks ChunkBuffer BRef.
From S2P Require Import SubParser Parser CLib HttpContent MimeHeader HeaderTheory Encoders UrlStream HttpVars HttpLines HttpHeaders HttpResponse WebSocket HttpServer FilePaths.
From S2P Require Import Jwt JwtVerify Threads Sessions Endpoints ResourcesFilter Cors WebApi HtmlEngine WebCore Restful.
From Stdlib Require Import ZArith Lia.
From stdpp Require Import gmap.
#[local] Open Scope Z_scope.

(** [__DATE__] and [__TIME__]. *)
Class BuildTime := { build_date : bytes; build_time : bytes }.

Definition CURRENT_SESSIONID_COOKIENAME : bytes := bs "sessionId".
Definition IMPERSONATOR_SESSIONID_COOKIENAME : bytes := bs "impersonatorSessionId".

(** The members of the class; the web session is known by its address. *)
Record MonolithHandler (J : Type) := mkMonolithHandler {
  m_endpointsHandlerByAPIVersion : gmap Z (MonolithEndpoints J J J * Endpoints_Options);
  m_sessionsManager : WebSessionsManager J;
  m_currentWebSession : option Z;
  m_sessionMaxAge : Z;
  m_sessionID : bytes;
  m_impersonatorSessionID : bytes;
  m_destroySession : bool }.
Arguments mkMonolithHandler {_} _ _ _ _ _ _ _.
Arguments m_endpointsHandlerByAPIVersion {_} _.
Arguments m_sessionsManager {_} _.
Arguments m_currentWebSession {_} _.
Arguments m_sessionMaxAge {_} _.
Arguments m_sessionID {_} _.
Arguments m_impersonatorSessionID {_} _.
Arguments m_destroySession {_} _.

Section MonolithMembers.
Context {J : Type}.
Implicit Types h : MonolithHandler J.

Definition mh_set_manager (v : WebSessionsManager J) h : MonolithHandler J :=
  mkMonolithHandler (m_endpointsHandlerByAPIVersion h) v (m_currentWebSession h) (m_sessionMaxAge h) (m_sessionID h)
    (m_impersonatorSessionID h) (m_destroySession h).
Definition mh_set_web_session (v : option Z) h : MonolithHandler J :=
  mkMonolithHandler (m_endpointsHandlerByAPIVersion h) (m_sessionsManager h) v (m_sessionMaxAge h) (m_sessionID h)
    (m_impersonatorSessionID h) (m_destroySession h).
Definition mh_set_age (v : Z) h : MonolithHandler J :=
  mkMonolithHandler (m_endpointsHandlerByAPIVersion h) (m_sessionsManager h) (m_currentWebSession h) v (m_sessionID h)
    (m_impersonatorSessionID h) (m_destroySession h).
Definition mh_set_id (v : bytes) h : MonolithHandler J :=
  mkMonolithHandler (m_endpointsHandlerByAPIVersion h) (m_sessionsManager h) (m_currentWebSession h) (m_sessionMaxAge h) v
    (m_impersonatorSessionID h) (m_destroySession h).
Definition mh_set_impersonator_id (v : bytes) h : MonolithHandler J :=
  mkMonolithHandler (m_endpointsHandlerByAPIVersion h) (m_sessionsManager h) (m_currentWebSession h) (m_sessionMaxAge h)
    (m_sessionID h) v (m_destroySession h).
Definition mh_set_destroy (v : bool) h : MonolithHandler J :=
  mkMonolithHandler (m_endpointsHandlerByAPIVersion h) (m_sessionsManager h) (m_currentWebSession h) (m_sessionMaxAge h)
    (m_sessionID h) (m_impersonatorSessionID h) v.
End MonolithMembers.

Section Monolith.
Context {M : Type} `{Container M} `{!MMapFile M} {S : Type} `{Sink S} {O : Type} `{Sink O} `{!Source O} `{!ContentObjects O}.
Context `{!HttpObjects O}.
Context {J : Type} `{JsonCpp J} `{!JsonOutput J} `{!WebObjects J O} {R W : Type} `{!BuildTime}.
Context `{RandomBytes} `{DateFormat} `{OpenSSL} `{Base64BIO}.
Abbreviation Mono := (MonolithHandler J).
Abbreviation Web := (HttpServer M S O (WebApp J W (MonolithHandler J))).
Context (config : APIServerConfig M S O J R W Mono).
Implicit Types s : Web.

(** [time(nullptr)]; what a WebSocket handler of the application does. *)
Variable now : Z.
Variable run_handler : W -> EventType -> Web -> outcome Web.

Definition mono_members s : Mono := wa_derived (hs_app s).
Definition on_members (f : Mono -> Mono) s : Web := on_app (fun a => wa_set_derived (f (wa_derived a)) a) s.
Definition manager s : WebSessionsManager J := m_sessionsManager (mono_members s).

(** A session is never revoked ([isSessionRevoked] of session.h). *)
Definition mono_isSessionActive s : bool := has_value (si_authSession (currentSessionInfo (hs_app s))).

Definition validateSessionAntiCSRFMechanism s : bool :=
  bool_decide (getHeaderOption (bs "X-HalfSession-ID") s = truncateSessionId (getCookie CURRENT_SESSIONID_COOKIENAME s)).

(** *** The web session (sessionsmanager.h) *)
Definition compareUserAgent (userAgent : bytes) (w : WebSession J) : bool :=
  bool_decide (ASSTRING (Sessions.networkClientInfo w) (bs "userAgent") [] = userAgent).
Definition compareRemoteAddress (remoteAddress : bytes) (w : WebSession J) : bool :=
  bool_decide (ASSTRING (Sessions.networkClientInfo w) (bs "remoteAddress") [] = remoteAddress).

(** *** The manager, from a connection *)
Definition open_session (sessionID : bytes) s : outcome (Web * option (Z * Z)) :=
  '(m, r) ← openSession now (wa_auth (hs_app s)) sessionID (manager s);
  Ret (on_members (mh_set_manager m) s, r).
Definition release_session (sessionID : bytes) s : outcome Web :=
  '(m, _) ← releaseSession sessionID (manager s); Ret (on_members (mh_set_manager m) s).
Definition destroy_session (sessionID : bytes) s : outcome Web :=
  '(m, _) ← destroySession (wa_auth (hs_app s)) sessionID (manager s); Ret (on_members (mh_set_manager m) s).

(** [webSession->getAuthSession()->updateLastActivity()]. *)
Definition touch_session (p : Z) s : outcome Web :=
  x ← deref (wa_auth (hs_app s)) p;
  Ret (on_app (fun a => wa_set_auth (<[p := updateLastActivity now x]> (wa_auth a)) a) s).
Definition touch_web_session (p : Z) s : outcome Web :=
  w ← deref (web_sessions (manager s)) p; touch_session (authSession w) s.

Definition updateActivityOnImpersonatorSession s : outcome Web :=
  match m_impersonatorSessionID (mono_members s) with
  | [] => Ret s
  | id =>
      '(s, r) ← open_session id s;
      s ← (match r with Some (p, _) => touch_web_session p s | None => Ret s end : outcome Web);
      release_session id s
  end.

(** *** The start of a request *)
Definition clear_ids s : Web := on_members (fun h => mh_set_impersonator_id [] (mh_set_id [] h)) s.

Definition session_info_of (x : Session J) (p : Z) (id : bytes) : SessionInfo :=
  mkSessionInfo (Some p) (truncateSessionId id) id (bool_decide (m_impersonator x <> [])).

(** The client must be the one the session was made for. *)
Definition check_client (w : WebSession J) s : outcome (Web * Z) :=
  addr ← remote_address (HttpResponse.networkClientInfo (hs_info s));
  if negb (allowFloatingClients config) && negb (compareRemoteAddress addr w) then Ret (clear_ids s, 403)
  else if negb (compareUserAgent (userAgent (hs_info s)) w) then Ret (clear_ids s, 403)
  else Ret (s, S_200_OK).

Definition load_session s : outcome (Web * Z) :=
  let id := m_sessionID (mono_members s) in
  '(s, r) ← open_session id s;
  match r with
  | Some (p, maxAge) =>
      let s := on_members (fun h => mh_set_age maxAge (mh_set_web_session (Some p) h)) s in
      w ← deref (web_sessions (manager s)) p;
      x ← deref (wa_auth (hs_app s)) (authSession w);
      check_client w (on_app (wa_set_info (session_info_of x (authSession w) id)) s)
  | None => Ret (on_members (fun h => mh_set_id [] (mh_set_destroy true (mh_set_web_session None h))) s, S_200_OK)
  end.

Definition mono_sessionStart s : outcome (Web * Z) :=
  let id := getCookie CURRENT_SESSIONID_COOKIENAME s in
  let impersonator := getCookie IMPERSONATOR_SESSIONID_COOKIENAME s in
  let s := on_members (fun h => mh_set_impersonator_id impersonator (mh_set_id id h)) s in
  if negb (validateSessionIDFormat id) || negb (validateSessionIDFormat impersonator) then Ret (clear_ids s, 403)
  else if bool_decide (id <> []) && negb (validateSessionAntiCSRFMechanism s) then Ret (s, 403)
  else s ← updateActivityOnImpersonatorSession s; load_session s.

(** *** The end of a request *)
Definition js_cookie (value : bytes) (maxAge : Z) : Cookie :=
  let c := ck_set_value value (ck_set_httpOnly false (ck_set_secure true cookie_new)) in
  let c := ck_set_maxAge (Some maxAge) (setExpirationFromNow now maxAge c) in
  ck_set_path (bs "/") (ck_set_sameSite SS_STRICT c).

Definition set_cookie (name : bytes) (c : Cookie) s : Web := hs_on_response (setCookie name c) s.
Definition set_secure_cookie (name value : bytes) (maxAge : Z) s : Web := hs_on_response (setSecureCookie now name value maxAge (bs "/")) s.
Definition clear_cookie (name : bytes) s : Web := hs_on_response (addCookieClearSecure name (bs "/")) s.

Definition setJSSessionTimeOutCookie (maxAge : Z) s : Web := set_cookie (bs "jsSessionTimeout") (js_cookie (bs "1") maxAge) s.
Definition setJSSessionHalfIDCookie (sessionID : bytes) s : Web :=
  if mono_isSessionActive s
  then set_cookie (bs "jsSessionHalfID") (js_cookie (truncateSessionId sessionID) (m_sessionMaxAge (mono_members s))) s
  else s.

(** The cookies of a logout, which falls back to the session of the impersonator. *)
Definition logout_cookies (parent : option Z) s : Web :=
  match parent with
  | None =>
      clear_cookie CURRENT_SESSIONID_COOKIENAME (clear_cookie (bs "jsSessionHalfID") (clear_cookie (bs "jsSessionTimeout") s))
  | Some parentSessionMaxAge =>
      let id := m_impersonatorSessionID (mono_members s) in
      let s := setJSSessionHalfIDCookie id (setJSSessionTimeOutCookie parentSessionMaxAge s) in
      set_secure_cookie CURRENT_SESSIONID_COOKIENAME id (m_sessionMaxAge (mono_members s)) (clear_cookie IMPERSONATOR_SESSIONID_COOKIENAME s)
  end.

Definition sessionLogout s : outcome Web :=
  if negb (validateSessionIDFormat (getCookie CURRENT_SESSIONID_COOKIENAME s)) then Ret s
  else
    let impersonator := m_impersonatorSessionID (mono_members s) in
    '(s, parent) ← open_session impersonator s;
    s ← (if has_value parent then release_session impersonator s else Ret s);
    let s := if m_destroySession (mono_members s) then logout_cookies (snd <$> parent) s else s in
    match m_sessionID (mono_members s) with
    | [] => Ret s
    | id => destroy_session id s
    end.

Definition mono_sessionCleanup s : outcome Web :=
  s ← (if mono_isSessionActive s then
         let id := m_sessionID (mono_members s) in
         let age := m_sessionMaxAge (mono_members s) in
         let s := setJSSessionHalfIDCookie id (setJSSessionTimeOutCookie age s) in
         release_session id (set_secure_cookie CURRENT_SESSIONID_COOKIENAME id age s)
       else Ret s);
  sessionLogout s.

(** *** What the session says *)
Definition session_claims {A} (f : Session J -> outcome A) (none : A) s : outcome A :=
  session ← current_session s;
  match session with Some x => f x | None => Ret none end.
Definition mono_getSessionScopes s : outcome (gset bytes) := session_claims (fun x => getAllScopes (m_jwtAuthenticatedInfo x)) ∅ s.
Definition mono_getSessionRoles s : outcome (gset bytes) := session_claims (fun x => getAllRoles (m_jwtAuthenticatedInfo x)) ∅ s.
Definition mono_doesSessionVariableExist (varName : bytes) s : outcome bool :=
  session_claims (fun x => Ret (doesSessionVariableExist varName x)) false s.
Definition mono_getSessionVariableValue (varName : bytes) s : outcome J :=
  session_claims (fun x => Ret (getSessionVariableValue varName x)) json_null s.
Definition mono_fillSessionExtraInfo (jVars : J) s : J :=
  let jVars := json_set jVars (bs "maxAge") (json_uint64 0) in
  if mono_isSessionActive s then json_set jVars (bs "maxAge") (json_uint64 (m_sessionMaxAge (mono_members s))) else jVars.

(** *** Calls *)
Definition set_error (code : Z) (message : bytes) s : outcome (Web * APIReturn J) :=
  r ← setError code (bs "invalid_api_handling") message apireturn_new; Ret (s, r).

Definition doesAPIEndpointRequireActiveSession (name : bytes) (e : MonolithEndpoints J J J) : bool :=
  default false (m_endpointRequireActiveSession e !! name).

(** [JSON::fromSet], in the order of the set. *)
Definition fromSet (l : gset bytes) : J :=
  foldl (fun j x => json_append j (json_string x)) json_null (foldr os_insert [] (elements l)).
Definition reasons_json (r : option (gset bytes * gset bytes)) : J :=
  match r with
  | None => json_null
  | Some (rolesLeft, scopesLeft) => json_set (json_set json_null (bs "rolesLeft") (fromSet rolesLeft)) (bs "scopesLeft") (fromSet scopesLeft)
  end.

(** The session after a call, at its address. *)
Definition store_session (session : option (Session J)) s : Web :=
  match si_authSession (currentSessionInfo (hs_app s)), session with
  | Some p, Some x => on_app (fun a => wa_set_auth (<[p := x]> (wa_auth a)) a) s
  | _, _ => s
  end.

Definition run_endpoint (e : MonolithEndpoints J J J) (endpointName : bytes) (postParameters : J) s : outcome (Web * APIReturn J) :=
  session ← current_session s;
  '(v, reasons) ← validateEndpointRequirements session endpointName e;
  match v with
  | VALIDATED =>
      '(answer, session) ← invoke now session endpointName postParameters e;
      let s := store_session session s in
      match answer with
      | Some v => Ret (s, set_body v apireturn_new)
      | None => set_error 404 (bs "Endpoint not found.") s
      end
  | NOTAUTHORIZED =>
      '(s, r) ← set_error 401 (bs "Endpoint unauthorized.") s;
      Ret (s, set_body (json_set (body r) (bs "reasons") (reasons_json reasons)) r)
  | ENDPOINTNOTFOUND => set_error 404 (bs "Endpoint not found.") s
  end.

Definition mono_handleAPIRequest (baseApiUrl : bytes) (apiVersion : Z) (httpMethodMode endpointName : bytes) (postParameters : J) s :
    outcome (Web * APIReturn J) :=
  match m_endpointsHandlerByAPIVersion (mono_members s) !! apiVersion with
  | None => set_error 404 (bs "Endpoint Not Found") s
  | Some (e, _) =>
      if doesAPIEndpointRequireActiveSession endpointName e && negb (has_value (m_currentWebSession (mono_members s)))
      then set_error 404 (bs "Endpoint Not Found") s
      else run_endpoint e endpointName postParameters s
  end.

Definition mono_handleOptionsRequest (baseApiUrl : bytes) (apiVersion : Z) (endpointName : bytes) s : outcome (Web * APIReturn J) :=
  match m_endpointsHandlerByAPIVersion (mono_members s) !! apiVersion with
  | None => set_error 404 (bs "Endpoint not found.") s
  | Some (_, options) => Ret (s, options_response endpointName (getOrigin s) options)
  end.

Definition mono_handleAPIInfo (baseApiUrl : bytes) s : J :=
  let x := json_set json_null (bs "version") (json_string (softwareVersion config)) in
  let x := json_set x (bs "softwareName") (json_string (softwareName config)) in
  let x := json_set x (bs "description") (json_string (softwareDescription config)) in
  let x := json_set x (bs "endpoint") (json_string baseApiUrl) in
  json_set x (bs "buildDate") (json_string (build_date ++ bs " " ++ build_time)).

(** *** Logging in and out *)
Definition client_json s : outcome J :=
  let client := HttpResponse.networkClientInfo (hs_info s) in
  addr ← remote_address client;
  let j := json_set json_null (bs "remoteAddress") (json_string addr) in
  let j := json_set j (bs "isSecureConnection") (json_bool (isSecure client)) in
  let j := json_set j (bs "tls") (json_set json_null (bs "commonName") (json_string (tlsCommonName client))) in
  let j := json_set j (bs "userAgent") (json_string (userAgent (hs_info s))) in
  Ret (json_set j (bs "startTime") (json_int64 now)).

(** Whether the session of the connection may be replaced by the one of the token:
    the status of the refusal, when it may not. *)
Definition check_impersonation (isImpersonation : bool) s : outcome (option Z) :=
  if isImpersonation && negb (allowImpersonation config) then Ret (Some 405)
  else
    match m_currentWebSession (mono_members s) with
    | None => Ret None
    | Some _ =>
        if negb isImpersonation then Ret (Some 403)
        else
          session ← current_session s;
          match session with
          | None => Undef
          | Some x =>
              jwtDomain ← getClaim (bs "domain") (jwtToken (hs_app s));
              jwtImpersonator ← getClaim (bs "impersonator") (jwtToken (hs_app s));
              if negb (bool_decide (m_user x = ASSTRING_D jwtImpersonator [])) then Ret (Some 403)
              else if negb (bool_decide (ASSTRING_D jwtDomain [] = m_domain x)) && allowImpersonationBetweenDifferentDomains config
              then Ret (Some 403)
              else Ret None
          end
    end.

(** [createSession] with the identifier it draws; the new object. *)
Definition create_session (p : Z) s : outcome Web :=
  info ← client_json s;
  let a := hs_app s in
  let id := createRandomString (wa_draws a) 12 ++ bs ":" ++ createRandomString (Datatypes.S (wa_draws a)) 12 in
  let s := on_app (wa_set_draws (Datatypes.S (Datatypes.S (wa_draws a)))) s in
  '(m, id, maxAge) ← createSession (wa_auth a) p info id (fresh (dom (web_sessions (manager s)))) (manager s);
  Ret (on_members (fun h => mh_set_id id (mh_set_age maxAge (mh_set_manager m h))) s).

Definition login_answer (isImpersonation : bool) (impersonatorSessionID : bytes) s : outcome (Web * Z) :=
  let age := m_sessionMaxAge (mono_members s) in
  let s := set_secure_cookie CURRENT_SESSIONID_COOKIENAME (m_sessionID (mono_members s)) age s in
  let s := if isImpersonation then set_secure_cookie IMPERSONATOR_SESSIONID_COOKIENAME impersonatorSessionID age s else s in
  redirectURL ← posted_variable (bs "redirectURI") s;
  Ret (redirectUsingJS (match redirectURL with Some ((_ :: _) as url) => url | _ => SLASH end) s).

(** The session of a token that was accepted. *)
Definition login_with_token s : outcome (Web * Z) :=
  isImpersonation ← hasClaim (bs "impersonator") (jwtToken (hs_app s));
  refusal ← check_impersonation isImpersonation s;
  match refusal with
  | Some code => Ret (s, code)
  | None =>
      let impersonatorSessionID :=
        if has_value (m_currentWebSession (mono_members s)) && isImpersonation then sessionId (currentSessionInfo (hs_app s)) else [] in
      let '(a, p) := new_session (session_new now (jwtToken (hs_app s))) (hs_app s) in
      s ← create_session p (hs_set_app a s);
      match m_sessionID (mono_members s) with
      | [] => Ret (s, 503)
      | id =>
          let s := on_app (wa_set_info (mkSessionInfo (Some p) (truncateSessionId id) id isImpersonation)) s in
          login_answer isImpersonation impersonatorSessionID s
      end
  end.

Definition handleAuthLoginFunction s : outcome (Web * Z) :=
  if bool_decide (getOrigin s ∉ permittedLoginOrigins config) then Ret (s, 401)
  else
    postLoginToken ← posted_variable (bs "accessToken") s;
    '(s, verified) ← verifyToken config now (default [] postLoginToken) s;
    if (verified : bool) then login_with_token s
    else redirect_to (redirectLocationOnLoginFailed config) s.

Definition same_site_request s : bool := bool_decide (getOrigin s = []) && validateSessionAntiCSRFMechanism s.

Definition handleAuthLogoutFunction s : Web * Z :=
  if same_site_request s then (on_members (mh_set_destroy true) s, 202) else (s, 405).

Definition handleAuthUpdateLastActivityFunction s : outcome (Web * Z) :=
  if same_site_request s then
    s ← (match m_currentWebSession (mono_members s) with Some p => touch_web_session p s | None => Ret s end : outcome Web);
    Ret (s, 202)
  else Ret (s, 405).

(** [getUserSessionsInfo], which makes an entry for the user. *)
Definition getUserSessionsInfo (user : bytes) (m : WebSessionsManager J) : WebSessionsManager J * J :=
  let sessions := default ∅ (m_sessionClientInfo m !! user) in
  let ids := foldr os_insert [] (elements (dom sessions)) in
  (set_client_info (<[user := sessions]> (m_sessionClientInfo m)) m,
   foldl (fun j id => json_set j (truncateSessionId id) (default json_null (sessions !! id))) json_null ids).

Definition claim_as_json (claim : bytes) (t : Token J) : outcome J :=
  has ← Jwt.isMember (m_claims t) claim; Ret (if has : bool then json_get (m_claims t) claim else json_null).
Definition getAllScopesAsJSON (t : Token J) : outcome J := claim_as_json (bs "scopes") t.
Definition getAllRolesAsJSON (t : Token J) : outcome J := claim_as_json (bs "roles") t.

Definition retrieved_info (x : Session J) s : outcome (Web * J) :=
  let user := m_user x in
  let info := currentSessionInfo (hs_app s) in
  scopes ← getAllScopesAsJSON (m_jwtAuthenticatedInfo x);
  roles ← getAllRolesAsJSON (m_jwtAuthenticatedInfo x);
  let '(m, sessions) := getUserSessionsInfo user (manager s) in
  let j := json_set json_null (bs "loggedUser")
             (json_set (json_set json_null (bs "username") (json_string user)) (bs "sessionsInfo") sessions) in
  let j := json_set j (bs "isImpersonation") (json_bool (isImpersonation info)) in
  let j := json_set j (bs "impersonator") (json_string (m_impersonator x)) in
  let j := json_set (json_set j (bs "scopes") scopes) (bs "roles") roles in
  let activity := json_set json_null (bs "first") (json_uint64 (m_firstActivityTimestamp x)) in
  let activity := json_set activity (bs "last") (json_uint64 (m_lastActivityTimestamp x)) in
  let j := json_set j (bs "currentActivity") (json_set activity (bs "sessionMaxAge") (json_uint64 (m_sessionMaxAge (mono_members s)))) in
  let limits := json_set json_null (bs "maxInactiveTime") (json_uint64 (m_MaxInactiveSeconds m)) in
  let j := json_set j (bs "limits") (json_set limits (bs "maxSessionsPerUser") (json_uint64 (m_maxSessionsPerUser m))) in
  Ret (on_members (mh_set_manager m) s, j).

Definition handleAuthRetrieveInfoFunction s : outcome (Web * Z) :=
  session ← current_session s;
  '(s, j) ← (match session with Some x => retrieved_info x s | None => Ret (s, json_null) end : outcome (Web * J));
  Ret (json_answer config j s, S_200_OK).

Definition mono_handleAuthFunctions (baseApiUrl authFunctionName : bytes) s : outcome (Web * Z) :=
  let in_session := has_value (m_currentWebSession (mono_members s)) in
  if bool_decide (authFunctionName = bs "login") then handleAuthLoginFunction s
  else if bool_decide (authFunctionName = bs "login_redirect") && negb in_session then redirect_to (defaultLoginRedirect config) s
  else if bool_decide (authFunctionName = bs "retrieveInfo") && in_session then handleAuthRetrieveInfoFunction s
  else if bool_decide (authFunctionName = bs "updateLastActivity") && in_session then handleAuthUpdateLastActivityFunction s
  else if bool_decide (authFunctionName = bs "logout") && in_session then Ret (handleAuthLogoutFunction s)
  else Ret (s, S_404_NOT_FOUND).

(** *** WebSocket: the rights are those of the token of the connection, which only
    a login on the same connection fills. *)
Definition mono_checkWebSocketRequestURI (path : bytes) s : outcome (Web * Z) :=
  '(admin, currentScopes) ←
    (if mono_isSessionActive s then
       admin ← isAdmin (jwtToken (hs_app s)); scopes ← getAllScopes (jwtToken (hs_app s)); Ret (admin, scopes)
     else Ret (false, ∅) : outcome (bool * gset bytes));
  let p := mkSecurityParameters false false (mono_isSessionActive s) in
  let '(e, r) := checkEndpoint path currentScopes admin p (wa_endpoints (hs_app s)) in
  Ret (on_app (wa_set_endpoints e) s, websocket_status r).

Definition mono_handleWebSocketEvent (eventType : EventType) s : outcome Web :=
  '(handler, _) ← handleEvent eventType (wa_endpoints (hs_app s));
  match handler with Some h => run_handler h eventType s | None => Ret s end.

#[export] Instance monolith_server : ApiServer M S O J W Mono := {|
  sessionStart := mono_sessionStart;
  sessionCleanup := mono_sessionCleanup;
  handleAPIRequest := mono_handleAPIRequest;
  handleOptionsRequest := mono_handleOptionsRequest;
  handleAuthFunctions := mono_handleAuthFunctions;
  handleAPIInfo := mono_handleAPIInfo;
  isSessionActive := mono_isSessionActive;
  getSessionScopes := mono_getSessionScopes;
  getSessionRoles := mono_getSessionRoles;
  hasSessionVariable := mono_doesSessionVariableExist;
  sessionVariableValue := mono_getSessionVariableValue;
  fillSessionExtraInfo := mono_fillSessionExtraInfo;
  checkWebSocketRequestURI := mono_checkWebSocketRequestURI;
  handleWebSocketEvent := mono_handleWebSocketEvent |}.
End Monolith.

(** ** Sessions of the manager *)
Section Absent.
Context {J : Type} `{JsonCpp J}.
Implicit Types (m : WebSessionsManager J) (auth : gmap Z (Session J)).

(** Opening and releasing adds no session. *)
Lemma openSession_absent now auth id k m m' r :
  openSession now auth id m = Ret (m', r) -> m_sessions m !! k = None -> m_sessions m' !! k = None.
Proof.
  unfold openSession, SafeMap.openElement. intros E Hk. destruct (m_sessions m !! id) as [[[p|] n]|] eqn:Ei; [|by injection E as <- _..].
  destruct (deref (web_sessions m) p) as [w| | |]; [|done..]. cbn [mbind outcome_bind] in E.
  destruct (deref auth (authSession w)) as [x| | |]; [|done..]. injection E as <- _. cbn [m_sessions set_sessions].
  rewrite lookup_insert_ne by congruence. done.
Qed.

Lemma releaseSession_absent id k m m' b :
  releaseSession id m = Ret (m', b) -> m_sessions m !! k = None -> m_sessions m' !! k = None.
Proof.
  unfold releaseSession, SafeMap.releaseElement. intros E Hk. destruct (m_sessions m !! id) as [[i n]|] eqn:Ei.
  - destruct (n =? 0); [done|]. injection E as <- _. cbn [m_sessions set_sessions]. rewrite lookup_insert_ne by congruence. done.
  - by injection E as <- _.
Qed.

Lemma openSession_none now auth id m : m_sessions m !! id = None -> openSession now auth id m = Ret (m, None).
Proof. intros E. unfold openSession, SafeMap.openElement. by rewrite E. Qed.

(** What an opened session is. *)
Lemma openSession_found now auth id m m' p age :
  openSession now auth id m = Ret (m', Some (p, age)) ->
  web_sessions m' = web_sessions m /\
  exists n w x, m_sessions m' !! id = Some (SafeMap.mkMapElement (Some p) n) /\ web_sessions m !! p = Some w /\ auth !! authSession w = Some x.
Proof.
  unfold openSession, SafeMap.openElement. intros E. destruct (m_sessions m !! id) as [[[q|] n]|] eqn:Ei; [|done..].
  unfold deref in E. destruct (web_sessions m !! q) as [w|] eqn:Ew; [|done]. cbn [mbind outcome_bind] in E.
  destruct (auth !! authSession w) as [x|] eqn:Ex; [|done]. injection E as <- -> _. cbn [m_sessions web_sessions set_sessions].
  split; [done|]. rewrite lookup_insert_eq. by eexists _, w, x.
Qed.
End Absent.

Section MonoTheory.
Context {M : Type} `{Container M} `{!MMapFile M} {S : Type} `{Sink S} {O : Type} `{Sink O} `{!Source O} `{!ContentObjects O}.
Context `{!HttpObjects O}.
Context {J : Type} `{JsonCpp J} `{!JsonOutput J} `{!WebObjects J O} {R W : Type}.
Context `{RandomBytes} `{DateFormat} `{OpenSSL} `{Base64BIO}.
Abbreviation Web := (HttpServer M S O (WebApp J W (MonolithHandler J))).
Context (config : APIServerConfig M S O J R W (MonolithHandler J)).
Implicit Types s : Web.
Variable now : Z.

(** Two states of a server with the same request and peer. *)
Definition same_question s s' : Prop := request_headers s' = request_headers s /\ hs_info s' = hs_info s.

Lemma impersonator_activity s s' :
  updateActivityOnImpersonatorSession now s = Ret s' ->
  same_question s s' /\ m_sessionID (mono_members s') = m_sessionID (mono_members s) /\
  forall k, m_sessions (manager s) !! k = None -> m_sessions (manager s') !! k = None.
Proof.
  unfold updateActivityOnImpersonatorSession. destruct (m_impersonatorSessionID (mono_members s)) as [|c id]; [by intros [= <-]|].
  unfold open_session. destruct (openSession now _ (c :: id) (manager s)) as [[m r]| | |] eqn:Eo; [|done..]. cbn [mbind outcome_bind].
  set (s1 := on_members _ s). intros E.
  assert (exists s2, (match r with Some (p, _) => touch_web_session now p s1 | None => Ret s1 end = Ret s2) /\
    release_session (c :: id) s2 = Ret s' /\ manager s2 = m /\ same_question s s2 /\
    m_sessionID (mono_members s2) = m_sessionID (mono_members s)) as (s2 & _ & Er & Hm & Hq & Hid).
  { destruct r as [[p age]|].
    - unfold touch_web_session, touch_session in *. destruct (deref (web_sessions (manager s1)) p) as [w| | |]; [|done..]. cbn [mbind outcome_bind] in *.
      destruct (deref (wa_auth (hs_app s1)) (authSession w)) as [x| | |]; [|done..]. cbn [mbind outcome_bind] in *.
      eexists. split; [done|]. split; [exact E|]. done.
    - by exists s1. }
  unfold release_session in Er. destruct (releaseSession (c :: id) (manager s2)) as [[m3 b]| | |] eqn:Ere; [|done..].
  injection Er as <-. split; [exact Hq|]. split; [exact Hid|]. intros k Hk. cbn. rewrite Hm in Ere.
  eapply releaseSession_absent; [exact Ere|]. by eapply openSession_absent.
Qed.

Lemma check_client_ok w s s' :
  check_client config w s = Ret (s', S_200_OK) ->
  s' = s /\ compareUserAgent (userAgent (hs_info s)) w = true /\
  exists addr, remote_address (HttpResponse.networkClientInfo (hs_info s)) = Ret addr /\
    (allowFloatingClients config = false -> compareRemoteAddress addr w = true).
Proof.
  unfold check_client. destruct (remote_address _) as [addr| | |]; [|done..]. cbn [mbind outcome_bind].
  destruct (negb (allowFloatingClients config) && _) eqn:Ef; [done|]. destruct (compareUserAgent _ w); [|done].
  intros [= <-]. split_and!; [done..|]. exists addr. split; [done|]. intros Hf. rewrite Hf in Ef. by apply negb_false_iff.
Qed.

(** C10. A request is in a web session only when its cookie names a session of the
    manager, in the form of an identifier, the header repeats the first half of it
    (which another site cannot know), the browser is the one the session was made
    for, and so is the address, unless clients may move; the user is then the one
    of that session. *)
Theorem mono_session_guarded s s1 p :
  m_sessions (manager s) !! [] = None -> mono_sessionStart config now s = Ret (s1, S_200_OK) ->
  m_currentWebSession (mono_members s1) = Some p ->
  let id := getCookie CURRENT_SESSIONID_COOKIENAME s in
  id <> [] /\ validateSessionIDFormat id = true /\ getHeaderOption (bs "X-HalfSession-ID") s = truncateSessionId id /\
  exists n w x addr,
    m_sessions (manager s1) !! id = Some (SafeMap.mkMapElement (Some p) n) /\ web_sessions (manager s1) !! p = Some w /\
    wa_auth (hs_app s1) !! authSession w = Some x /\ currentSessionInfo (hs_app s1) = session_info_of x (authSession w) id /\
    compareUserAgent (userAgent (hs_info s)) w = true /\ remote_address (HttpResponse.networkClientInfo (hs_info s)) = Ret addr /\
    (allowFloatingClients config = false -> compareRemoteAddress addr w = true).
Proof.
  intros Hnil Hs Hp id. unfold mono_sessionStart in Hs. fold id in Hs.
  destruct (validateSessionIDFormat id) eqn:Ev; [|done]. destruct (validateSessionIDFormat (getCookie IMPERSONATOR_SESSIONID_COOKIENAME s)); [|done].
  cbn [negb orb] in Hs. set (s0 := on_members _ s) in Hs.
  destruct (bool_decide (id <> []) && negb (validateSessionAntiCSRFMechanism s0)) eqn:Ec; [done|].
  destruct (updateActivityOnImpersonatorSession now s0) as [s2| | |] eqn:Eu; [|done..]. cbn [mbind outcome_bind] in Hs.
  apply impersonator_activity in Eu as ([Hq1 Hq2] & Hid & Habs). change (m_sessionID (mono_members s0)) with id in Hid.
  change (hs_info s0) with (hs_info s) in Hq2.
  unfold load_session in Hs. rewrite Hid in Hs. unfold open_session in Hs.
  destruct (openSession now _ id (manager s2)) as [[m r]| | |] eqn:Eo; [|done..]. cbn [mbind outcome_bind] in Hs.
  destruct r as [[q age]|]; [|injection Hs as <-; done].
  assert (id <> []) as Hne. { intros E. rewrite E in Eo. rewrite openSession_none in Eo by (by apply Habs). done. }
  rewrite bool_decide_eq_true_2 in Ec by done. cbn [andb] in Ec. apply negb_false_iff, bool_decide_eq_true in Ec.
  destruct (openSession_found _ _ _ _ _ _ _ Eo) as (Hweb & n & w & x & Hn & Hw & Hx).
  set (s3 := on_members _ (on_members _ s2)) in Hs. change (manager s3) with m in Hs. unfold deref in Hs.
  rewrite Hweb, Hw in Hs. cbn [mbind outcome_bind] in Hs. change (wa_auth (hs_app s3)) with (wa_auth (hs_app s2)) in Hs.
  rewrite Hx in Hs. cbn [mbind outcome_bind] in Hs.
  apply check_client_ok in Hs as (-> & Hua & addr & Haddr & Hfloat). injection Hp as ->.
  split; [done|]. split; [done|]. split; [exact Ec|]. exists n, w, x, addr. split; [exact Hn|].
  split; [change (web_sessions m !! p = Some w); by rewrite Hweb|]. split; [exact Hx|]. split; [done|].
  change (hs_info (on_app _ s3)) with (hs_info s2) in Hua, Haddr. rewrite Hq2 in Hua, Haddr. done.
Qed.

(** The user of a connection stays when the next request names no session: it is
    not in a web session, but the session of before answers for its scopes, its
    roles and its variables, even when the manager has destroyed it. *)
Theorem mono_session_stays s p :
  si_authSession (currentSessionInfo (hs_app s)) = Some p -> m_sessions (manager s) !! [] = None ->
  getCookie CURRENT_SESSIONID_COOKIENAME s = [] -> getCookie IMPERSONATOR_SESSIONID_COOKIENAME s = [] ->
  exists s1, mono_sessionStart config now s = Ret (s1, S_200_OK) /\ m_currentWebSession (mono_members s1) = None /\
    mono_isSessionActive s1 = true /\ current_session s1 = current_session s /\ mono_getSessionScopes s1 = mono_getSessionScopes s.
Proof.
  intros Hi Hnil Hc Him. unfold mono_sessionStart. rewrite Hc, Him. cbn [validateSessionIDFormat negb orb].
  rewrite bool_decide_eq_false_2 by (intros E; by apply E). cbn [andb].
  unfold updateActivityOnImpersonatorSession. cbn [mono_members on_members on_app hs_app hs_set_app wa_derived wa_set_derived m_impersonatorSessionID mh_set_impersonator_id mbind outcome_bind].
  unfold load_session, open_session. cbn [mono_members on_members on_app hs_app hs_set_app wa_derived wa_set_derived m_sessionID mh_set_impersonator_id mh_set_id].
  rewrite openSession_none by exact Hnil. cbn [mbind outcome_bind]. eexists. split; [done|]. split; [done|].
  split; [|done]. unfold mono_isSessionActive. cbn. by rewrite Hi.
Qed.

(** *** The end of a request *)

Lemma releaseElement_zero (id : bytes) (i : option Z) (ms : gmap bytes SafeMap.MapElement) :
  SafeMap.releaseElement (K := bytes) id (<[id := SafeMap.mkMapElement i 0]> ms) = Throw (runtime_error "Invalid close on Mutex MAP").
Proof. unfold SafeMap.releaseElement. by rewrite lookup_insert_eq. Qed.

Lemma setCookie_found name c (r : Response O) : mm_find name (rs_cookies (setCookie name c r)) = Some c.
Proof.
  unfold setCookie, addServerCookie, removeCookie, om_count. cbn [rs_cookies rs_set_cookies].
  destruct (mm_find name (rs_cookies r)) as [x|] eqn:E; cbn [has_value fst].
  - rewrite mm_find_erase. cbn [has_value fst]. apply mm_find_om_set.
  - rewrite E. cbn [has_value fst]. apply mm_find_om_set.
Qed.

(** Before the session is released, the client is given its cookie again. *)
Lemma cleanup_active s :
  mono_isSessionActive s = true ->
  exists s1 c, mono_sessionCleanup now s = (s2 ← release_session (m_sessionID (mono_members s)) s1; sessionLogout now s2) /\
    hs_app s1 = hs_app s /\ request_headers s1 = request_headers s /\
    mm_find CURRENT_SESSIONID_COOKIENAME (rs_cookies (hs_response s1)) = Some c /\ ck_value c = m_sessionID (mono_members s) /\
    ck_maxAge c = Some (m_sessionMaxAge (mono_members s)).
Proof.
  intros Ha. unfold mono_sessionCleanup. rewrite Ha. eexists _, _. split; [reflexivity|].
  assert (forall id age s0, hs_app (setJSSessionHalfIDCookie now id (setJSSessionTimeOutCookie now age s0)) = hs_app s0 /\
    request_headers (setJSSessionHalfIDCookie now id (setJSSessionTimeOutCookie now age s0)) = request_headers s0) as Hjs.
  { intros id age s0. unfold setJSSessionHalfIDCookie. set (s1 := setJSSessionTimeOutCookie now age s0). destruct (mono_isSessionActive s1); split; reflexivity. }
  destruct (Hjs (m_sessionID (mono_members s)) (m_sessionMaxAge (mono_members s)) s) as [Ea Eq].
  split; [exact Ea|]. split; [exact Eq|]. split; [apply setCookie_found|]. done.
Qed.

(** Every request ends its session: after a request that was in a session, without
    a logout, the client is sent the cookie of the session with the time that is
    left, and the manager is as it was before the session was created. *)
Theorem mono_request_ends_session s x (sp addr age : Z) (info : J) (m : WebSessionsManager J) :
  let id := m_sessionID (mono_members s) in
  mono_isSessionActive s = true -> id <> [] -> m_impersonatorSessionID (mono_members s) = [] ->
  m_destroySession (mono_members s) = false ->
  validateSessionIDFormat (getCookie CURRENT_SESSIONID_COOKIENAME s) = true ->
  wa_auth (hs_app s) !! sp = Some x -> m_sessions m !! [] = None -> m_sessions m !! id = None -> web_sessions m !! addr = None ->
  default ∅ (m_sessionClientInfo m !! m_user x) !! id = None -> m_sessionClientInfo m !! m_user x <> Some ∅ ->
  0 <= m_MaxInactiveSeconds m ->
  openSession now (wa_auth (hs_app s)) id (with_session (m_user x) id sp addr info m) = Ret (manager s, Some (addr, age)) ->
  exists s' c, mono_sessionCleanup now s = Ret s' /\ manager s' = m /\
    mm_find CURRENT_SESSIONID_COOKIENAME (rs_cookies (hs_response s')) = Some c /\ ck_value c = id /\
    ck_maxAge c = Some (m_sessionMaxAge (mono_members s)).
Proof.
  intros id Ha Hid Him Hdes Hcookie Hx Hnil Hn Haddr Hi Hne Hmax Hopen.
  destruct (openSession_spec now (wa_auth (hs_app s)) sp x info id addr m Hx Hmax) as (m2 & Hrel & Ho).
  rewrite Ho in Hopen. injection Hopen as Hm2 _. rewrite Hm2 in Hrel. clear Ho.
  destruct (cleanup_active s Ha) as (s1 & c & -> & Ea & Eq & Hc & Hv & Hage). fold id.
  unfold release_session at 1. assert (manager s1 = manager s) as -> by (unfold manager, mono_members; by rewrite Ea).
  rewrite Hrel. cbn [mbind outcome_bind]. set (s2 := on_members _ s1).
  assert (mono_members s2 = mh_set_manager (with_session (m_user x) id sp addr info m) (mono_members s)) as Hmem
    by (unfold s2, mono_members; cbn; by rewrite Ea).
  assert (wa_auth (hs_app s2) = wa_auth (hs_app s)) as Hauth by (unfold s2; cbn; by rewrite Ea).
  assert (manager s2 = with_session (m_user x) id sp addr info m) as Hman by (unfold manager; by rewrite Hmem).
  unfold sessionLogout. assert (getCookie CURRENT_SESSIONID_COOKIENAME s2 = getCookie CURRENT_SESSIONID_COOKIENAME s) as ->
    by (unfold getCookie; by change (request_headers s2) with (request_headers s1); rewrite Eq).
  rewrite Hcookie. cbn [negb]. rewrite Hmem. cbn [m_impersonatorSessionID mh_set_manager]. rewrite Him.
  unfold open_session. rewrite Hauth, Hman, openSession_none.
  2: { cbn [m_sessions with_session]. by rewrite lookup_insert_ne. }
  cbn [mbind outcome_bind has_value]. set (s3 := on_members _ s2).
  assert (mono_members s3 = mono_members s2) as Hmem3 
    by (change (mono_members s3) with (mh_set_manager (with_session (m_user x) id sp addr info m) (mono_members s2)); by rewrite Hmem).
  rewrite Hmem3, Hmem. cbn [m_destroySession mh_set_manager]. rewrite Hdes, Hmem3, Hmem. cbn [m_sessionID mh_set_manager]. fold id.
  assert (match id with [] => Ret s3 | b :: l => destroy_session (b :: l) s3 end = destroy_session id s3) as -> by by destruct id.
  unfold destroy_session. change (wa_auth (hs_app s3)) with (wa_auth (hs_app s2)). rewrite Hauth.
  assert (manager s3 = with_session (m_user x) id sp addr info m) as -> by (unfold manager; by rewrite Hmem3, Hmem).
  rewrite (destroySession_spec _ _ _ _ _ _ _ Hx Hn Haddr Hi Hne). cbn [mbind outcome_bind].
  eexists _, c. split; [done|]. split; [done|]. split; [exact Hc|]. by rewrite Hv.
Qed.

(** *** Logging in *)

Lemma mono_id_nonempty (a b : bytes) : a ++ bs ":" ++ b <> [].
Proof. by destruct a. Qed.

Lemma redirect_same url s : hs_app (redirectUsingJS url s).1 = hs_app s /\ (redirectUsingJS url s).2 = 200.
Proof. unfold redirectUsingJS. by destruct (bool_decide _). Qed.

(** A login is never answered: with a token that is accepted, from an origin that may
    log in, the session is created and stays in the manager, with nobody who has it
    open; the end of the request releases it all the same, which is an exception. *)
Theorem mono_login_never_answers s s1 (postToken redirect : option bytes) (info : J) :
  getOrigin s ∈ permittedLoginOrigins config -> posted_variable (bs "accessToken") s = Ret postToken ->
  verifyToken config now (default [] postToken) s = Ret (s1, true) -> m_currentWebSession (mono_members s1) = None ->
  hasClaim (bs "impersonator") (jwtToken (hs_app s1)) = Ret false -> client_json now s1 = Ret info ->
  posted_variable (bs "redirectURI") s1 = Ret redirect ->
  let id := createRandomString (wa_draws (hs_app s1)) 12 ++ bs ":" ++ createRandomString (Datatypes.S (wa_draws (hs_app s1))) 12 in
  m_sessions (manager s1) !! id = None -> room_for (getSubject (jwtToken (hs_app s1))) (manager s1) ->
  exists s2 p, handleAuthLoginFunction config now s = Ret (s2, S_200_OK) /\
    m_sessions (manager s2) = <[id := SafeMap.mkMapElement (Some p) 0]> (m_sessions (manager s1)) /\
    mono_sessionCleanup now s2 = Throw (runtime_error "Invalid close on Mutex MAP").
Proof.
  intros Horig Htok Hver Hcur Himp Hinfo Hred id Hnew Hroom. unfold handleAuthLoginFunction.
  rewrite bool_decide_eq_false_2 by (intros Hn; by apply Hn). rewrite Htok. cbn [mbind outcome_bind]. rewrite Hver. cbn [mbind outcome_bind].
  unfold login_with_token. rewrite Himp. cbn [mbind outcome_bind]. unfold check_impersonation. cbn [andb]. rewrite Hcur.
  cbn [mbind outcome_bind has_value andb].
  set (x := session_new now (jwtToken (hs_app s1))). unfold new_session.
  set (p := fresh (dom (wa_auth (hs_app s1)))). set (s2 := hs_set_app _ s1). unfold create_session.
  change (client_json now s2) with (client_json now s1). rewrite Hinfo. cbn [mbind outcome_bind].
  change (wa_draws (hs_app s2)) with (wa_draws (hs_app s1)). fold id.
  change (wa_auth (hs_app s2)) with (<[p := x]> (wa_auth (hs_app s1))).
  set (s3 := on_app _ s2). change (manager s3) with (manager s1). set (addr := fresh (dom (web_sessions (manager s1)))).
  rewrite (createSession_spec _ p x info id addr (manager s1)) by (by apply lookup_insert_eq || done).
  cbn [mbind outcome_bind]. set (s4 := on_members _ s3).
  change (m_sessionID (mono_members s4)) with id. destruct id as [|b l] eqn:Eid; [by destruct (mono_id_nonempty _ _ Eid)|].
  set (s5 := on_app _ s4). unfold login_answer. cbv iota.
  set (s6 := set_secure_cookie _ _ _ _ s5). change (posted_variable (bs "redirectURI") s6) with (posted_variable (bs "redirectURI") s1).
  rewrite Hred. cbn [mbind outcome_bind].
  set (url := match redirect with Some ((_ :: _) as u) => u | _ => SLASH end).
  destruct (redirect_same url s6) as [Eapp Ecode]. destruct (redirectUsingJS url s6) as [s7 code] eqn:Er. cbn [fst snd] in Eapp, Ecode.
  subst code. exists s7, addr. split; [done|].
  assert (mono_members s7 = mono_members s4) as Hmem by (unfold mono_members; by rewrite Eapp).
  assert (manager s7 = with_session (getSubject (jwtToken (hs_app s1))) (b :: l) p addr info (manager s1)) as Hman
    by (unfold manager; rewrite Hmem; reflexivity).
  split; [by rewrite Hman|].
  destruct (cleanup_active s7) as (s8 & c & -> & Ea & _).
  { unfold mono_isSessionActive. by rewrite Eapp. }
  rewrite Hmem. change (m_sessionID (mono_members s4)) with (b :: l). unfold release_session, releaseSession.
  assert (manager s8 = manager s7) as -> by (unfold manager, mono_members; by rewrite Ea). rewrite Hman.
  cbn [m_sessions with_session]. by rewrite releaseElement_zero.
Qed.
End MonoTheory.
