(* ===== verification/ApiProxy.v ===== *)
(** * The proxy of the web servers (Server_WebCore/apiproxy.cpp, apiproxy_config.cpp)

    A handler of dynamic requests that gives a request to another server with the
    client of HttpClient.v, and answers with what it receives.  Who the user is, as
    far as the session says, goes along in five headers, which replace what the
    request had under these names.

    A connection is the stream that the client writes to and the one it reads from;
    making one ([connectTo]) is a parameter, over the kind of the socket and its
    options.  The log of the configuration is left out. *)

From S2P Require Import Prelude SafeInt Mem Streamable Container ContainerTheory BMem BChunks ChunkBuffer BRef.
From S2P Require Import SubParser Parser PartsTheory CLib HttpContent MimeHeader HeaderTheory Encoders UrlStream HttpVars HttpLines HttpHeaders HttpResponse WebSocket HttpServer.
From S2P Require Import HttpServerTheory HttpFlow HttpClient HttpClientTheory HttpExamples HttpClientSends Jwt Sessions ResourcesFilter WebApi.
From Stdlib Require Import ZArith Lia.

(** ** The parameters *)
Record APIProxyParameters := mkProxyParameters {
  ap_useTLS : bool;
  ap_checkTLSPeer : bool;
  ap_usePrivateCA : bool;
  ap_remoteHost : bytes;
  ap_remotePort : Z;
  ap_privateCAPath : bytes;
  ap_proxyPath : bytes;
  ap_extraHeaders : list (bytes * bytes);
  ap_transformCookiePath : bool }.
Definition proxyparameters_new : APIProxyParameters :=
  mkProxyParameters true false false (bs "localhost") 8443 [] [] [] false.

(** More of a property tree: its children with their names, and values with a default. *)
Class PropertyValues (T : Type) := {
  pt_entries : T -> list (bytes * T);
  get_string : T -> bytes -> bytes -> bytes;
  get_int : T -> bytes -> Z -> Z }.

Section Configuration.
Context {T : Type} `{!PropertyTree T} `{!PropertyValues T}.
Implicit Types vars : list (bytes * bytes).

(** The variables, one after the other in the order of their names. *)
Definition replace_variables vars (value : bytes) : bytes :=
  foldl (fun value var => replace_all (bs "%" ++ var.1 ++ bs "%") var.2 value) value vars.

Definition parseExtraHeaders (headersTree : T) (extraHeaders : list (bytes * bytes)) vars : list (bytes * bytes) :=
  foldl (fun headers pair => om_set pair.1 (replace_variables vars (get_value_string pair.2)) headers) extraHeaders (pt_entries headersTree).

Definition createAPIProxyParams (config : T) vars : APIProxyParameters :=
  let tls := get_child_optional config (bs "TLS") in
  mkProxyParameters (get_bool config (bs "UseTLS") true)
    (match tls with Some t => get_bool t (bs "CheckTLSPeer") true | None => false end)
    (match tls with Some t => get_bool t (bs "UsePrivateCA") false | None => false end)
    (get_string config (bs "RemoteHost") (bs "localhost"))
    (wrapw 16 (get_int config (bs "RemotePort") 8443))
    (match tls with Some _ => get_string config (bs "PrivateCAPath") [] | None => [] end)
    []
    (match get_child_optional config (bs "ExtraHeaders") with Some t => parseExtraHeaders t [] vars | None => [] end)
    (get_bool config (bs "TransformCookiePath") false).
End Configuration.

(** ** The request *)

(** The socket that is made: with TLS, whether the peer is verified, and then with the
    certificates of the system or with those of a file. *)
Inductive ProxySocket := TCP_SOCKET | TLS_NOVALIDATE | TLS_VALIDATE (useSystemCertificates : bool) (ca : option bytes).
Definition proxy_socket (p : APIProxyParameters) : ProxySocket :=
  if ap_useTLS p then
    if ap_checkTLSPeer p then TLS_VALIDATE (negb (ap_usePrivateCA p)) (if ap_usePrivateCA p then Some (ap_privateCAPath p) else None)
    else TLS_NOVALIDATE
  else TCP_SOCKET.

Definition authHeaders : list bytes :=
  [bs "X-Auth-User"; bs "X-Auth-Domain"; bs "X-Auth-Half-Session-Id"; bs "X-Auth-Impersonation"; bs "X-Auth-Impersonator"].

Section Proxy.
Context {M : Type} `{Container M} `{!MMapFile M} {S U : Type} `{Sink U} {I : Type} `{Source I} {O : Type} `{Sink O} `{!Source O} {A : Type}.
Context `{!ContentObjects O} `{!HttpObjects O} `{RandomBytes} `{DateFormat} `{Base64BIO} {J : Type} `{JsonCpp J}.
Context (connectTo : ProxySocket -> bytes -> Z -> option (U * I)).
Implicit Types (s : HttpServer M S O A) (c : HttpClient M U O) (p : APIProxyParameters).

(** Who asks: the [SessionInfo] of the connection with the session it points to. *)
Definition Asker : Type := option (SessionInfo * Session J).

Definition identity_values (i : SessionInfo) (u : Session J) : list (bytes * bytes) :=
  [(bs "X-Auth-User", m_user u); (bs "X-Auth-Domain", m_domain u); (bs "X-Auth-Half-Session-Id", halfSessionId i);
   (bs "X-Auth-Impersonation", if isImpersonation i then bs "true" else bs "false"); (bs "X-Auth-Impersonator", m_impersonator u)].

Fixpoint replace_headers (l : list (bytes * bytes)) (h : MIME_Header) : outcome MIME_Header :=
  match l with
  | [] => Ret h
  | (name, value) :: l => h ← header_replace name value h; replace_headers l h
  end.

Definition put_identity (who : Asker) (h : MIME_Header) : outcome MIME_Header :=
  match who with
  | Some (i, u) => replace_headers (identity_values i u) h
  | None => Ret (foldl (fun h name => header_remove name h) h authHeaders)
  end.

Definition proxy_headers p (who : Asker) (h : MIME_Header) : outcome MIME_Header :=
  h ← replace_headers (ap_extraHeaders p) h; h ← put_identity who h; header_replace (bs "Connection") (bs "close") h.

(** The members of the request are copied; the streams of the sub-parsers are not. *)
Definition take_request s c : HttpClient M U O :=
  cl_set_info (hs_info s) (cl_set_content (sp_sub (hs_content s)) (cl_set_headers (request_headers s) (cl_set_line (request_line s) c))).

Definition proxy_client p (who : Asker) (internalPath : bytes) s (up : U) : outcome (HttpClient M U O) :=
  let c := on_line (setRequestURI internalPath) (take_request s (httpclient_new up)) in
  h ← proxy_headers p who (cl_headers c); Ret (cl_set_headers h c).

(** ** The answer *)
Definition S_502_BAD_GATEWAY : Z := 502.

Definition proxied_cookies p c : ServerCookies :=
  if ap_transformCookiePath p then prependPathToAllCookies (ap_proxyPath p) (rc_cookies (cl_received c)) else rc_cookies (cl_received c).

Definition proxied_response p c : Response O :=
  mkResponse (sp_sub (sr_status c)) (sp_sub (sr_content c)) (sp_sub (sr_headers c)) (rc_security (cl_received c)) (proxied_cookies p c)
    (rc_cacheControl (cl_received c)) (rc_realm (cl_received c)) [] true true.

Definition APIProxy (internalPath : bytes) (obj : option APIProxyParameters) (who : Asker) s : outcome (HttpServer M S O A * Z) :=
  match obj with
  | None => Throw (runtime_error "Undefined API Proxy Object.")
  | Some p =>
      match connectTo (proxy_socket p) (ap_remoteHost p) (ap_remotePort p) with
      | None => Ret (s, S_502_BAD_GATEWAY)
      | Some (up, connection) =>
          c ← proxy_client p who internalPath s up;
          '(P, msg) ← parseObject (I := I) (P := HttpClient M U O) None connection (pr_new c);
          match msg with
          | SUCCEED => Ret (hs_set_response (proxied_response p (pr_impl P)) s, m_statusCode (sp_sub (sr_status (pr_impl P))))
          | _ => Ret (s, S_502_BAD_GATEWAY)
          end
      end
  end.
End Proxy.

(** ** The headers of the request that is sent *)
Section Headers.
Context `{RandomBytes}.
Implicit Types h : MIME_Header.

(** Every option of a header is one of these, and its maximum is this one. *)
Definition all_options (Q : bytes * bytes -> Prop) (N : Z) h : Prop := Forall Q (header_options h) /\ m_maxOptions h = N.

Lemma remove_options Q N n h : all_options Q N h -> all_options Q N (header_remove n h).
Proof.
  intros [Hq Hn]. split; [|exact Hn]. unfold header_options, header_view in *. rewrite Forall_map, Forall_map in *.
  unfold header_remove, mm_erase. cbn [h_set_headers m_headers]. rewrite Forall_forall in *. intros e He.
  apply list_elem_of_filter in He as [_ He]. exact (Hq e He).
Qed.

Lemma replace_options Q N n v h h' :
  header_wf h -> all_options Q N h -> Q (n, v) -> header_replace n v h = Ret h' -> header_wf h' /\ all_options Q N h'.
Proof.
  intros Hwf Hall Hnv. apply (header_remove_wf n) in Hwf. apply (remove_options _ _ n) in Hall. unfold header_replace.
  destruct (header_add_eq n v (header_remove n h)) as [[_ ->]|(Hne & o & -> & _ & En & Ev)]; cbn [mbind outcome_bind]; intros [= <-]; [done|].
  split; [by apply added_wf|]. destruct Hall as [Hq Hn]. split; [|exact Hn]. revert Hwf Hq. generalize (header_remove n h). intros g Hwf Hq.
  unfold header_options, header_view in *. rewrite !Forall_map in *. cbn [added h_set_last h_set_headers m_headers].
  rewrite Forall_forall in *. intros e [->|He]%mm_insert_elem; cbn [fst snd].
  - by rewrite added_object_new, En, Ev.
  - pose proof (wf_refs g Hwf) as Hr. rewrite Forall_forall in Hr. destruct (Hr e He) as [Hi _]. rewrite added_object_old by done. exact (Hq e He).
Qed.

Lemma replace_if_options Q N b n v h h' :
  header_wf h -> all_options Q N h -> Q (n, v) -> replace_if b n v h = Ret h' -> header_wf h' /\ all_options Q N h'.
Proof. destruct b; [apply replace_options|]. by intros ? ? _ [= <-]. Qed.

Lemma replace_headers_options Q N l h h' :
  header_wf h -> all_options Q N h -> Forall Q l -> replace_headers l h = Ret h' -> header_wf h' /\ all_options Q N h'.
Proof.
  revert h. induction l as [|[n v] l IH]; intros h Hwf Hall Hl E; cbn [replace_headers] in E; [by injection E as <-|].
  apply Forall_cons in Hl as [Hnv Hl]. apply bind_Ret in E as (h1 & E1 & E).
  destruct (replace_options Q N n v h h1 Hwf Hall Hnv E1) as [Hwf1 Hall1]. by apply (IH h1).
Qed.

(** One header is replaced: in a header that is full it may be lost, and with room for
    it it is there. *)
Lemma replace_any n v h :
  header_wf h -> exists h', header_replace n v h = Ret h' /\ header_wf h' /\
    (forall m, iequals m n = false -> option_values m h' = option_values m h) /\
    (option_values n h' = [v] \/ option_values n h' = []) /\
    (forall k, 0 <= k -> has_room (1 + k) h -> has_room k h' /\ option_values n h' = [v]).
Proof.
  intros Hwf. assert (forall m, iequals m m = true) as Hrefl by (intros m; by apply bool_decide_eq_true_2).
  destruct (Z.eq_dec (zlen (m_headers (header_remove n h))) (m_maxOptions h)) as [E|E].
  - exists (header_remove n h). unfold header_replace. destruct (header_add_eq n v (header_remove n h)) as [[_ ->]|[C _]]; [|done].
    split; [done|]. split; [by apply header_remove_wf|]. split; [intros m Hm; by rewrite values_remove, Hm|].
    split; [right; by rewrite values_remove, Hrefl|]. intros k Hk Hroom. apply (remove_room n) in Hroom as [_ Hr].
    change (m_maxOptions (header_remove n h)) with (m_maxOptions h) in Hr. lia.
  - assert (zlen (m_headers (header_remove n h)) < m_maxOptions h) as Hlt.
    { pose proof (wf_count _ (header_remove_wf n h Hwf)) as Hc. change (m_maxOptions (header_remove n h)) with (m_maxOptions h) in Hc. lia. }
    destruct (header_replace_spec h n v Hwf Hlt) as (h' & o & Er & _ & Ev & Ho & Hwf' & _). exists h'.
    assert (forall m, option_values m h' = if iequals m n then [v] else option_values m h) as Hv.
    { intros m. unfold option_values. rewrite Ho. destruct (iequals m n); [|done]. cbn [map]. by rewrite Ev. }
    split; [done|]. split; [done|]. split; [intros m Hm; by rewrite Hv, Hm|]. split; [left; by rewrite Hv, Hrefl|].
    intros k Hk Hroom. destruct (replace_values n v k h Hroom Hk) as (h2 & E2 & R2 & V2). rewrite Er in E2. injection E2 as <-.
    split; [done|]. by rewrite V2, Hrefl.
Qed.

(** No two names of the list are the same, in any case. *)
Fixpoint distinct_names (l : list bytes) : Prop :=
  match l with [] => True | n :: l => Forall (fun m => iequals n m = false) l /\ distinct_names l end.

Lemma replace_headers_any l h :
  header_wf h -> exists h', replace_headers l h = Ret h' /\ header_wf h' /\
    (forall m, Forall (fun e => iequals m e.1 = false) l -> option_values m h' = option_values m h) /\
    (forall k, 0 <= k -> has_room (zlen l + k) h -> has_room k h') /\
    (distinct_names (map fst l) -> Forall (fun e => option_values e.1 h' = [e.2] \/ option_values e.1 h' = []) l /\
      (has_room (zlen l) h -> Forall (fun e => option_values e.1 h' = [e.2]) l)).
Proof.
  revert h. induction l as [|[n v] l IH]; intros h Hwf; cbn [replace_headers map distinct_names].
  { exists h. split; [done|]. split; [done|]. split; [done|]. split; [by intros k _ Hr|by repeat constructor]. }
  destruct (replace_any n v h Hwf) as (h1 & -> & W1 & O1 & V1 & R1). cbn [mbind outcome_bind].
  destruct (IH h1 W1) as (h' & -> & W' & O' & R' & V'). exists h'. split; [done|]. split; [done|].
  pose proof (zlen_nonneg l) as Hl. rewrite zlen_cons. cbn [fst snd]. split; [|split].
  - intros m [Hm Hms]%Forall_cons. by rewrite O', O1.
  - intros k Hk Hr. apply R'; [done|]. apply R1; [lia|]. by apply (has_room_less (1 + zlen l + k)); [|lia].
  - intros [Hn Hd]. destruct (V' Hd) as [Hany Hroom].
    assert (option_values n h' = option_values n h1) as En by (apply O'; by apply Forall_map in Hn).
    split; [constructor; [cbn [fst snd]; by rewrite En|done]|]. intros Hr. destruct (R1 (zlen l) Hl Hr) as [Hr1 Ev].
    constructor; [cbn [fst snd]; by rewrite En|by apply Hroom].
Qed.
End Headers.

(** What is found under a name. *)
Lemma raw_value n v h : option_values n h = [v] -> getOptionRawStringByName n h = v.
Proof.
  unfold option_values, getOptionsByName, getOptionRawStringByName, getOptionByName, mm_find.
  destruct (mm_equal_range _ _) as [|i [|j l]]; cbn [map head option_map]; congruence.
Qed.

Section Identity.
Context {M : Type} `{Container M} `{!MMapFile M} {S U : Type} `{Sink U} {O : Type} `{Sink O} `{!Source O} {A : Type}.
Context `{!ContentObjects O} `{!HttpObjects O} `{RandomBytes} `{DateFormat} `{Base64BIO} {J : Type} `{JsonCpp J}.
Implicit Types (s : HttpServer M S O A) (c : HttpClient M U O) (p : APIProxyParameters) (who : Asker (J := J)).

(** The headers that the client adds when it sends leave the others alone. *)
Definition sent_names : list bytes := [bs "Content-Length"; bs "Authentication"; bs "User-Agent"; bs "Host"].

Lemma request_head_any c :
  header_wf (cl_headers c) -> m_clientCookies c = [] -> object_size (m_contentStreamableObject (cl_content c)) <> SIZE_MAX ->
  exists h, request_head c = Ret (Some h) /\ header_wf h /\
    forall m, Forall (fun n => iequals m n = false) sent_names -> option_values m h = option_values m (cl_headers c).
Proof.
  intros Hwf Hc Hsize. unfold request_head. cbv zeta. set (size := object_size _) in *. replace (size =? SIZE_MAX) with false by lia.
  destruct (replace_any (bs "Content-Length") (to_string size) (cl_headers c) Hwf) as (h1 & -> & W1 & O1 & _). cbn [mbind outcome_bind].
  set (h2 := if size =? 0 then _ else h1). assert (header_wf h2 /\ forall m, iequals m (bs "Content-Length") = false -> option_values m h2 = option_values m h1) as [W2 O2].
  { unfold h2. destruct (size =? 0); [|done]. split; [by apply header_remove_wf|]. intros m Hm. by rewrite values_remove, Hm. }
  rewrite Hc. cbn [clientcookies_putOnHeaders mbind outcome_bind].
  assert (forall b n v h, header_wf h -> exists h', replace_if b n v h = Ret h' /\ header_wf h' /\ forall m, iequals m n = false -> option_values m h' = option_values m h) as Hif.
  { intros [] n v h Hw; [|by exists h]. destruct (replace_any n v h Hw) as (h' & E & W & Ho & _). by exists h'. }
  match goal with |- context [replace_if ?b ?n ?v h2] => destruct (Hif b n v h2 W2) as (h3 & -> & W3 & O3) end. cbn [mbind outcome_bind].
  destruct (replace_any (bs "User-Agent") (userAgent (cl_info c)) h3 W3) as (h4 & -> & W4 & O4 & _). cbn [mbind outcome_bind].
  match goal with |- context [replace_if ?b ?n ?v h4] => destruct (Hif b n v h4 W4) as (h5 & -> & W5 & O5) end. cbn [mbind outcome_bind].
  exists h5. split; [done|]. split; [done|]. intros m Hm. unfold sent_names in Hm. decompose_Forall. by rewrite O5, O4, O3, O2, O1.
Qed.

Lemma proxy_client_any p who path s up :
  header_wf (request_headers s) -> exists c h, proxy_client p who path s up = Ret c /\ cl_headers c = h /\ header_wf h /\
    m_clientCookies c = [] /\ cl_content c = sp_sub (hs_content s) /\ cl_stream c = up /\ cl_requestLine c = setRequestURI path (request_line s) /\
    match who with
    | None => Forall (fun n => option_values n h = []) authHeaders
    | Some (i, u) => Forall (fun e => option_values e.1 h = [e.2] \/ option_values e.1 h = []) (identity_values i u) /\
        (has_room (5 + zlen (ap_extraHeaders p)) (request_headers s) -> Forall (fun e => option_values e.1 h = [e.2]) (identity_values i u))
    end.
Proof.
  intros Hwf. unfold proxy_client, proxy_headers. change (cl_headers (on_line _ _)) with (request_headers s).
  destruct (replace_headers_any (ap_extraHeaders p) (request_headers s) Hwf) as (h1 & -> & W1 & _ & R1 & _). cbn [mbind outcome_bind].
  assert (exists h2, put_identity who h1 = Ret h2 /\ header_wf h2 /\ match who with
    | None => Forall (fun n => option_values n h2 = []) authHeaders
    | Some (i, u) => Forall (fun e => option_values e.1 h2 = [e.2] \/ option_values e.1 h2 = []) (identity_values i u) /\
        (has_room 5 h1 -> Forall (fun e => option_values e.1 h2 = [e.2]) (identity_values i u))
    end) as (h2 & -> & W2 & V2).
  { destruct who as [[i u]|].
    - destruct (replace_headers_any (identity_values i u) h1 W1) as (h2 & E2 & W2 & _ & _ & V2). exists h2. split; [exact E2|]. split; [done|].
      apply V2. by repeat constructor.
    - eexists. split; [reflexivity|]. cbn [foldl authHeaders]. split; [by repeat apply header_remove_wf|].
      repeat constructor; rewrite !values_remove; by known_names. }
  cbn [mbind outcome_bind]. destruct (replace_any (bs "Connection") (bs "close") h2 W2) as (h3 & -> & W3 & O3 & _).
  eexists _, h3. split; [reflexivity|]. do 6 (split; [done|]). destruct who as [[i u]|].
  - destruct V2 as [Va Vr]. assert (Forall (fun e => option_values e.1 h3 = option_values e.1 h2) (identity_values i u)) as Ho by (repeat constructor; by apply O3).
    split; [|intros Hr; specialize (Vr (R1 5 ltac:(lia) ltac:(by rewrite Z.add_comm)))]; rewrite Forall_forall in *; intros e He; rewrite (Ho e He); auto.
  - rewrite Forall_forall in *. intros n Hn. rewrite O3; [by apply V2|]. revert n Hn. apply Forall_forall. by repeat constructor.
Qed.

(** Everything that can be in the header that is sent. *)
Definition proxy_options p who s : list (bytes * bytes) :=
  let i := hs_info s in
  header_options (request_headers s) ++ ap_extraHeaders p ++ match who with Some (i, u) => identity_values i u | None => [] end ++
  [(bs "Connection", bs "close"); (bs "Content-Length", to_string (object_size (m_contentStreamableObject (sp_sub (hs_content s)))));
   (bs "Authentication", bs "Basic " ++ encodeToBase64 (ba_username (basicAuth i) ++ bs ":" ++ ba_password (basicAuth i)) false);
   (bs "User-Agent", userAgent i); (bs "Host", host_text i)].

Lemma proxy_sent_options Q p who path s up c h :
  header_wf (request_headers s) -> Forall Q (proxy_options p who s) ->
  proxy_client p who path s up = Ret c -> request_head c = Ret (Some h) -> header_wf h /\ all_options Q (m_maxOptions (request_headers s)) h.
Proof.
  intros Hwf Hall Ec Eh. set (N := m_maxOptions _). unfold proxy_options in Hall. rewrite !Forall_app, !Forall_cons in Hall.
  destruct Hall as (Hreq & Hx & Hid & Hclose & Hlen & Hba & Hua & Hhost & _). assert (all_options Q N (request_headers s)) as A0 by done.
  unfold proxy_client, proxy_headers in Ec. change (cl_headers (on_line _ _)) with (request_headers s) in Ec.
  apply bind_Ret in Ec as (g & Eg & Ec). injection Ec as <-. apply bind_Ret in Eg as (h1 & E1 & Eg). apply bind_Ret in Eg as (h2 & E2 & E3).
  destruct (replace_headers_options Q N _ _ _ Hwf A0 Hx E1) as [W1 A1]. assert (header_wf h2 /\ all_options Q N h2) as [W2 A2].
  { destruct who as [[i u]|]; [by apply (replace_headers_options Q N _ _ _ W1 A1 Hid)|]. injection E2 as <-. cbn [foldl authHeaders].
    split; [by repeat apply header_remove_wf|by repeat apply remove_options]. }
  destruct (replace_options Q N _ _ _ _ W2 A2 Hclose E3) as [W3 A3]. clear E1 E2 E3. unfold request_head in Eh. cbv zeta in Eh.
  destruct (_ =? SIZE_MAX); [done|]. apply bind_Ret in Eh as (h4 & E4 & Eh). apply bind_Ret in Eh as (h5 & E5 & Eh).
  apply bind_Ret in Eh as (h6 & E6 & Eh). apply bind_Ret in Eh as (h7 & E7 & Eh). apply bind_Ret in Eh as (h8 & E8 & Eh). injection Eh as <-.
  destruct (replace_options Q N _ _ _ _ W3 A3 Hlen E4) as [W4 A4]. injection E5 as <-.
  assert (header_wf (if object_size (m_contentStreamableObject (sp_sub (hs_content s))) =? 0 then header_remove (bs "Content-Length") h4 else h4) /\
    all_options Q N (if object_size (m_contentStreamableObject (sp_sub (hs_content s))) =? 0 then header_remove (bs "Content-Length") h4 else h4)) as [W5 A5].
  { destruct (_ =? 0); [|done]. split; [by apply header_remove_wf|by apply remove_options]. }
  destruct (replace_if_options Q N _ _ _ _ _ W5 A5 Hba E6) as [W6 A6]. destruct (replace_options Q N _ _ _ _ W6 A6 Hua E7) as [W7 A7].
  exact (replace_if_options Q N _ _ _ _ _ W7 A7 Hhost E8).
Qed.

(** An option that is sent on one line, of at most 16384 bytes, and read as it is. *)
Definition line_safe (i : bytes * bytes) : Prop := option_ok i /\ header_fits (option_line i).

#[export] Instance line_safe_dec i : Decision (line_safe i).
Proof. unfold line_safe, header_fits, one_line. apply _. Defined.

Lemma safe_headers_fit N h : header_wf h -> all_options line_safe N h -> N <= 32 -> headers_fit h.
Proof.
  intros Hwf [Hs Hn] HN. constructor; [done| | |].
  - eapply Forall_impl; [exact Hs|]. by intros i [Hi _].
  - pose proof (wf_count h Hwf). lia.
  - rewrite header_lines_options, Forall_map. eapply Forall_impl; [exact Hs|]. by intros i [_ Hi].
Qed.

(** What a reader of the headers learns of who asks. *)
Definition identity_told p who s (received : MIME_Header) : Prop :=
  match who with
  | None => Forall (fun n => header_exist n received = false) authHeaders
  | Some (i, u) =>
      Forall (fun e => getOptionRawStringByName e.1 received = e.2 \/ header_exist e.1 received = false) (identity_values i u) /\
      (has_room (5 + zlen (ap_extraHeaders p)) (request_headers s) ->
       Forall (fun e => getOptionRawStringByName e.1 received = e.2) (identity_values i u))
  end.

Lemma told_values p who s h h' received :
  header_view received = header_view h' -> (forall m, Forall (fun n => iequals m n = false) sent_names -> option_values m h' = option_values m h) ->
  match who with
  | None => Forall (fun n => option_values n h = []) authHeaders
  | Some (i, u) => Forall (fun e => option_values e.1 h = [e.2] \/ option_values e.1 h = []) (identity_values i u) /\
      (has_room (5 + zlen (ap_extraHeaders p)) (request_headers s) -> Forall (fun e => option_values e.1 h = [e.2]) (identity_values i u))
  end -> identity_told p who s received.
Proof.
  intros Hr Hv Hid. assert (forall n v, option_values n h' = [v] -> getOptionRawStringByName n received = v) as Hraw.
  { intros n v E. by rewrite getOptionRaw_view, Hr, <- getOptionRaw_view, (raw_value n v). }
  assert (forall n, option_values n h' = [] -> header_exist n received = false) as Hno.
  { intros n E. rewrite header_exist_view, Hr, <- header_exist_view. by apply values_none. }
  unfold identity_told. destruct who as [[i u]|].
  - destruct Hid as [Ha Hroom]. assert (Forall (fun e => option_values e.1 h' = option_values e.1 h) (identity_values i u)) as Ho.
    { repeat constructor; apply Hv; by repeat constructor. }
    split; [|intros R; specialize (Hroom R)]; rewrite Forall_forall in *; intros e He.
    + destruct (Ha e He) as [E|E]; [left; by apply Hraw; rewrite Ho|right; by apply Hno; rewrite Ho].
    + apply Hraw. rewrite Ho by done. by apply Hroom.
  - assert (Forall (fun n => option_values n h' = option_values n h) authHeaders) as Ho.
    { repeat constructor; apply Hv; by repeat constructor. }
    rewrite Forall_forall in *. intros n Hn. apply Hno. rewrite Ho by done. by apply Hid.
Qed.

(** The path of the proxy is never put in front of a cookie: the cookies of the answer are
    those that were read of the header, of which there are none, and they are not sent. *)
Theorem proxy_cookie_path_ignored now p p' c :
  response_headers now (proxied_response p c) = response_headers now (proxied_response p' c).
Proof. done. Qed.

(** An answer that came in chunks is passed on in chunks, as its header says, and with a
    length besides. *)
Theorem proxied_chunks_have_length now p c :
  has_room 3 (sp_sub (sr_headers c)) -> let size := object_size (m_contentStreamableObject (sp_sub (sr_content c))) in size <> SIZE_MAX ->
  exists h, response_headers now (proxied_response p c) = Ret h /\ option_values (bs "Content-Length") h = [to_string size] /\
    option_values (bs "Transfer-Encoding") h = option_values (bs "Transfer-Encoding") (sp_sub (sr_headers c)).
Proof.
  intros Hroom size Hsize. destruct (framing_headers_values now (proxied_response p c) 0 Hroom ltac:(lia)) as (h & E & _ & Hv).
  exists h. unfold response_headers. rewrite E. split; [done|]. split; rewrite Hv; unfold framing_value; cbv zeta.
  - change (object_size _) with size. replace (size =? SIZE_MAX) with false by lia. by known_names.
  - change (object_size _) with size. replace (size =? SIZE_MAX) with false by lia. by known_names.
Qed.
End Identity.

(** ** On the wire *)
Section Wire.
Context {M : Type} `{Container M} `{!MMapFile M} {S U : Type} `{SinkSpec U} {O : Type} `{Sink O} `{!Source O} {A : Type}.
Context `{!ContentObjects O} `{!HttpObjects O} `{RandomBytes} `{DateFormat} `{Base64BIO} `{SHA1} {J : Type} `{JsonCpp J}.
Context {S' O' A' : Type} `{Sink S'} `{Sink O'} `{!Source O'} `{!ContentObjects O'} `{!HttpObjects O'} `{!HttpHandlers M S' O' A'}.
Variable now : Z.
Implicit Types (s : HttpServer M S O A) (p : APIProxyParameters) (who : Asker (J := J)).

(** The server behind the proxy. *)
#[local] Instance backend : ParserImpl (HttpServer M S' O' A') := http_protocol now.

(** C12. A proxied request says who asks, and only the session does: whatever
    headers the request had and whatever the extra headers of the proxy are, the
    header that is to be sent, with a body of known size, has none of the five
    X-Auth options when there is no session, and with a session each of them has the
    value that the session gives, or is not there at all, which cannot happen as
    long as the header of the request leaves room for them. When the stream has room
    and the body is not sent in chunks, the client writes the line, this header and
    the body, in this order. A server that waits for a request, with a TTL of at
    least 35 and an application that accepts the URI, and gets the line and the
    headers in one write, reads from these bytes the same of the five options,
    provided that the request line can be sent and read and is at most 128 KB, that
    the maximum of the header is 32 or less, and that no option that can be in it,
    be it of the request, of the proxy, of the client or of the session, breaks its
    line or cannot be read back ([line_safe]): each goes on one line of at most
    16384 bytes, without CR LF and without NUL in its value, and its name has no
    colon and blank in it and no blank in front. Nothing is said of a server that
    reads options that break their lines: there [header_injection] applies. *)
Theorem proxy_identity p who path s up :
  header_wf (request_headers s) -> object_size (m_contentStreamableObject (sp_sub (hs_content s))) <> SIZE_MAX ->
  exists c h, proxy_client p who path s up = Ret c /\ request_head c = Ret (Some h) /\ cl_stream c = up /\
    cl_requestLine c = setRequestURI path (request_line s) /\ identity_told p who s h /\
    forall line, requestline_text (cl_requestLine c) = Ret (line ++ CRLF) ->
      let head := line ++ CRLF ++ header_text h in
      (forall body acc,
         is_chunks (m_transmitionMode (sp_sub (hs_content s))) = false -> streams (S := U) (m_contentStreamableObject (sp_sub (hs_content s))) body ->
         succeed (sink_status (m_contentStreamableObject (sp_sub (hs_content s)))) = true ->
         sink_rep up acc -> zlen (head ++ body) <= sink_room up ->
         exists up', cl_initProtocol c = Ret (cl_set_stream up' (cl_set_headers h c), true) /\ sink_rep up' (acc ++ head ++ body)) /\
      (forall vs (P : Parser (HttpServer M S' O' A')),
         m_maxOptions (request_headers s) <= 32 -> Forall line_safe (proxy_options p who s) ->
         waiting (pr_impl P) -> 35 <= m_maxTTL P -> (forall t : HttpServer M S' O' A', onHTTPClientURIReceived t = Ret (t, true)) ->
         sendable (cl_requestLine c) vs -> m_majorVersion (rl_httpVersion (cl_requestLine c)) = 1 -> one_line line -> zlen line + 2 <= 128 * KB_MULT ->
         zlen head < SIZE_MOD ->
         exists t : HttpServer M S' O' A', hs_current t = Some HEADERS /\ identity_told p who s (request_headers t) /\
           same_request (cl_requestLine c) (request_line t) vs /\
           forall t', changeToNextParserFromClientHeaders now t = Ret (t', true) -> pr_write head P = Ret (after_change t' P, Some (zlen head))).
Proof.
  intros Hwf Hsize. destruct (proxy_client_any p who path s up Hwf) as (c & h0 & Ec & <- & W0 & Hck & Hcn & Hst & Hl & Hid).
  destruct (request_head_any c W0 Hck) as (h & Eh & _ & Hv); [by rewrite Hcn|]. exists c, h. do 4 (split; [done|]).
  split; [by apply (told_values p who s (cl_headers c) h)|]. intros line El head. split.
  - intros body acc Hc Hb Hs Hrep Hroom. apply request_written; rewrite ?Hcn, ?Hst; done.
  - intros vs P HN Hsafe Hw HT Huri Hsend Hmaj Hone Hlen Hsz. destruct (proxy_sent_options _ _ _ _ _ _ _ _ Hwf Hsafe Ec Eh) as [W A1].
    destruct (safe_headers_fit _ h W A1 HN) as [_ Hok Hn Hfit].
    destruct (server_reads_head now (cl_requestLine c) vs line h P) as (t & Ht & _ & _ & Hsame & Hview & _ & Hgo); try done.
    exists t. split; [done|]. split; [by apply (told_values p who s (cl_headers c) h)|]. by split.
Qed.
End Wire.

(** With TLS asked for, and no block of its options, the peer is not verified; with a
    block that is empty it is. *)
Theorem tls_block_verifies {T} `{!PropertyTree T} `{!PropertyValues T} (config : T) vars :
  get_bool config (bs "UseTLS") true = true ->
  match get_child_optional config (bs "TLS") with
  | None => proxy_socket (createAPIProxyParams config vars) = TLS_NOVALIDATE
  | Some tls => get_bool tls (bs "CheckTLSPeer") true = true -> proxy_socket (createAPIProxyParams config vars) <> TLS_NOVALIDATE
  end.
Proof.
  intros Ht. unfold proxy_socket, createAPIProxyParams. destruct (get_child_optional config (bs "TLS")); cbn [ap_useTLS ap_checkTLSPeer]; rewrite Ht; [by intros ->|done].
Qed.

(** ** Concrete requests *)
Section Requests.
#[local] Existing Instance no_files.
#[local] Existing Instance zero_random.
#[local] Existing Instance one_date.
#[local] Existing Instance reference_bio.
#[local] Existing Instance string_objects.
#[local] Existing Instance string_sizes.
#[local] Existing Instance some_digest.
#[local] Existing Instance accepting.

(** A request that claims to come from the administrator. *)
Definition forged : HttpServer B_MEM SS SS unit := at_headers [bs "Host: a.org"; bs "x-auth-user: admin"; bs "X-AUTH-Impersonation: true"].
Definition demo_proxy : APIProxyParameters :=
  mkProxyParameters false false false (bs "backend") 8080 [] (bs "/app") [(bs "X-Api-Key", bs "k")] false.

(** What is sent for it, and a server that reads it. *)
Definition forged_head : MIME_Header := Eval vm_compute in
  match proxy_client (J := unit) demo_proxy None (bs "/") forged ss_new with
  | Ret c => match request_head c with Ret (Some h) => h | _ => header_init end
  | _ => header_init
  end.

Lemma forged_safe : Forall line_safe (proxy_options (J := unit) demo_proxy None forged).
Proof. apply (bool_decide_unpack _). vm_compute. exact I. Qed.

Lemma forged_sendable : sendable (setRequestURI (bs "/") (request_line forged)) demo_pairs.
Proof.
  destruct demo_sendable as [Hm Hu _ Hv Hvars Hp Hc Hq]. constructor; try assumption.
  split; [by split|]. split; [discriminate|]. split; [|repeat constructor; discriminate].
  cbn. intros Hin. repeat (apply elem_of_cons in Hin as [?|Hin]; [discriminate|]). by apply not_elem_of_nil in Hin.
Qed.

Lemma proxy_identity_witness :
  getOptionRawStringByName (bs "X-Auth-User") (request_headers forged) = bs "admin" /\
  exists (c : HttpClient B_MEM SS SS) up (t s0 : HttpServer B_MEM SS SS unit), proxy_client (J := unit) demo_proxy None (bs "/") forged ss_new = Ret c /\
    cl_initProtocol c = Ret (cl_set_stream up (cl_set_headers forged_head c), true) /\
    sink_rep up (bs "GET /?name=x%20y&q%26a=1 HTTP/1.1" ++ CRLF ++ header_text forged_head) /\ httpserver_new tt ss_new = Ret s0 /\
    hs_current t = Some HEADERS /\ m_requestURI (request_line t) = bs "/" /\
    header_exist (bs "X-Auth-User") (request_headers t) = false /\ header_exist (bs "X-Auth-Impersonation") (request_headers t) = false.
Proof.
  split; [vm_compute; reflexivity|]. destruct (httpserver_new tt ss_new) as [s0| | |] eqn:E0; [|vm_compute in E0; discriminate..].
  destruct (proxy_identity (J := unit) (S' := SS) (O' := SS) (A' := unit) 1700000000 demo_proxy None (bs "/") forged ss_new)
    as (c & h & Ec & Eh & _ & El & _ & Hwire).
  - constructor; [repeat constructor|repeat constructor|repeat constructor|cbv; lia|discriminate]; apply (bool_decide_unpack _); vm_compute; exact I.
  - discriminate.
  - assert (h = forged_head) as ->.
    { vm_compute in Ec. injection Ec as <-. vm_compute in Eh. injection Eh as <-. reflexivity. }
    destruct (Hwire (bs "GET /?name=x%20y&q%26a=1 HTTP/1.1")) as [Hsent Hread]; [rewrite El; vm_compute; reflexivity|].
    destruct (Hsent [] []) as (up & Ei & Hu); [reflexivity|apply string_streams|reflexivity|by vm_compute|by vm_compute|].
    destruct (Hread demo_pairs (pr_new s0)) as (t & Ht & Hn & (_ & Hi & _) & _); rewrite ?El.
    + discriminate.
    + exact forged_safe.
    + exact (httpserver_new_waits tt ss_new s0 E0).
    + discriminate.
    + reflexivity.
    + exact forged_sendable.
    + reflexivity.
    + by vm_compute.
    + by vm_compute.
    + by vm_compute.
    + rewrite El in Hi. exists c, up, t, s0. split; [exact Ec|]. split; [exact Ei|]. rewrite app_nil_r in Hu. split; [exact Hu|].
      split; [reflexivity|]. split; [exact Ht|]. split; [exact Hi|].
      split; [exact (Forall_inv Hn)|]. exact (Forall_inv (Forall_inv_tail (Forall_inv_tail (Forall_inv_tail Hn)))).
Defined.
End Requests.
