(* ===== verification/WebExamples.v ===== *)
(** * The servers of the API at concrete inputs

    Connections of a RESTful and of a monolithic server over strings, with the
    values of Jwt.v as JSON and the small file system of FilePaths.v; the theorems
    of HtmlEngine.v, WebCore.v, Restful.v and Monolith.v are applied to them. *)

From S2P Require Import Prelude SafeInt Mem Streamable Container ContainerTheory BMem BChunks ChunkBuffer BRef.
From S2P Require Import SubParser Parser CLib HttpContent MimeHeader HeaderTheory Encoders UrlStream HttpVars HttpLines HttpHeaders HttpResponse WebSocket HttpServer HttpExamples FilePaths.
From S2P Require Import Jwt JwtVerify Threads Sessions Endpoints ResourcesFilter Cors WebApi HtmlEngine WebCore Restful Monolith.
From Stdlib Require Import ZArith Lia.
From stdpp Require Import gmap countable.
#[local] Open Scope Z_scope.

#[local] Existing Instance no_files.
#[local] Existing Instance zero_random.
#[local] Existing Instance one_date.
#[local] Existing Instance string_objects.
#[local] Existing Instance string_sizes.
#[local] Existing Instance small_files.
#[local] Existing Instance small_laws.
#[local] Existing Instance tree_json.
#[local] Existing Instance tree_laws.
#[local] Existing Instance checksum_ssl.
#[local] Existing Instance reference_bio.

Abbreviation JT := (gen_tree Z).

(** Texts are printed between quotes, everything else as null. *)
#[local] Instance plain_output : JsonOutput JT := {|
  json_bool (b : bool) := GenNode 5 (if b then [GenLeaf 1] else []);
  json_uint64 := json_int64;
  json_int := json_int64;
  fast_write j := if json_isString j then [34] ++ json_asString j ++ [34; 10] else bs "null" ++ [10];
  styled_write j := if json_isString j then [34] ++ json_asString j ++ [34; 10] else bs "null" ++ [10] |}.

(** Posted variables: every variable is the whole text. *)
#[local] Instance text_objects : WebObjects JT StreamableString := {|
  json_streamer _ j := with_text (fast_write j);
  json_value o := json_string (ss_value o);
  string_streamer := with_text;
  posted_value o _ := Some (ss_value o);
  object_bytes := ss_value |}.

#[local] Instance equal_text : BoostRegex bytes := {| regex_compile t := t; regex_match r t := bool_decide (r = t) |}.
#[local] Instance endless_page : WebFiles := {|
  read_file p := if bool_decide (p = bs "/www/x") then Some (bs "again " ++ include_tag (bs "/x")) else None |}.

(** ** A RESTful server *)
Abbreviation RestWeb := (HttpServer B_MEM StreamableString StreamableString (WebApp JT unit (RestHandler JT))).
Abbreviation RestConfig := (APIServerConfig B_MEM StreamableString StreamableString JT bytes unit (RestHandler JT)).

Definition ask (method uri : bytes) : RequestLine B_MEM := mkRequestLine method uri [] version_new (m_getVars requestline_init).
Definition web {A} (app : A) (method uri : bytes) (lines : list bytes) : HttpServer B_MEM StreamableString StreamableString A :=
  mkHttpServer (sp_set_sub (ask method uri) (hs_requestLine demo_server)) (sp_set_sub (headers_of lines) (hs_headers demo_server))
    (hs_content demo_server) (ri_set_agent (bs "curl/8.0") requestinfo_new) (hs_response demo_server) (hs_ws demo_server)
    (Some HEADERS) true false [] loadDefaultMIMETypes [] [] app.

(** [GET f] asks for the token of the header and the scope read. *)
Definition hello : RESTfulEndpoints JT :=
  (rest_addEndpoint GET (bs "f") (mkFullDefinition (Some (fun _ _ => ok_answer)) (configuration_set 1 {[bs "read"]})) rest_new).1.

Definition rest_app (header cookie : bool) : WebApp JT unit (RestHandler JT) :=
  mkWebApp token_new sessioninfo_new [] [] None (mkWsEndpoints ∅ None) ∅ ∅ (Some plain_jwt) 0
    (mkRestHandler {[1 := (hello, endpoints_options_new)]} (bs "AccessToken") header cookie).

Definition rest_config : RestConfig := config_new.

(** An access token for the scope of the endpoint, good until 100. *)
Definition access_claims : JT :=
  json_set (json_set (json_set example_claims (bs "type") (json_string (bs "access"))) (bs "sub") (json_string (bs "u")))
    (bs "scopes") (json_append json_array (json_string (bs "read"))).
Definition access_token : bytes := sign access_claims plain_jwt.
Definition bearer : list bytes := [bs "Authorization: Bearer " ++ access_token].

(** *** Pages *)
#[local] Instance a_rest_server : ApiServer B_MEM StreamableString StreamableString JT unit (RestHandler JT) :=
  rest_server rest_config 5 (fun _ _ s => Ret s).

Definition asking_rest : RestWeb := web (rest_app false false) (bs "GET") (bs "/api/v1/f") bearer.
Definition page : bytes := bs "Hello <!--<%jVAR/v: userAgent%>-->!".
Definition page_out : bytes := bs "Hello <script>" ++ [10] ++ bs "const v = " ++ [34] ++ bs "curl/8.0" ++ [34] ++ bs ";" ++ [10] ++ bs "</script>!".

Lemma tags_replaced_once_witness : jprocessor rest_config reHTML true page asking_rest = Ret (asking_rest, page_out).
Proof.
  apply (tags_replaced_once rest_config reHTML true page page_out asking_rest asking_rest).
  - refine (rendered_tag rest_config reHTML true page asking_rest (bs "Hello ") (bs "VAR/v") (bs "userAgent") (bs "!")
      (bs "<script>" ++ [10] ++ bs "const v = " ++ [34] ++ bs "curl/8.0" ++ [34] ++ bs ";" ++ [10] ++ bs "</script>")
      asking_rest (bs "!") asking_rest _ _ _).
    + vm_compute. reflexivity.
    + vm_compute. reflexivity.
    + apply rendered_end. reflexivity.
  - vm_compute. discriminate.
Defined.

Definition config_www : RestConfig :=
  mkConfig None None None None [] (Some []) ∅ (bs "callback") true 16 false false false true false [bs "/api"] [] []
    (bs "/") [] ∅ (bs "/") [] [] [] [] (bs "/www") [].

Lemma self_include_never_ends_witness :
  iProcResource_HTMLIEngineInclude config_www 10 reHTML (bs "start " ++ include_tag (bs "/x") ++ bs " end") = NoFuel.
Proof.
  apply (self_include_never_ends config_www 10 (bs "/x") (bs "again ") [] (bs "start ") (bs " end"));
    solve [apply (bool_decide_unpack _); vm_compute; exact I | discriminate | vm_compute; reflexivity].
Defined.

Lemma variable_leaves_script_witness :
  contains (bs "</script/") (replaceByJVar (json_string (bs "x</script/><script>alert(1)")) (bs "v") true).
Proof. refine (variable_leaves_script (bs "v") (bs "x") (bs "><script>alert(1)") true _). vm_compute. reflexivity. Defined.

(** *** Files *)
Definition asking_file : RestWeb := web (rest_app false false) (bs "GET") (bs "/a") [].

Lemma file_request_filtered_witness :
  exists s', handleRegularFileRequest config_www 1 asking_file = Ret (s', S_200_OK) /\
    exists suffix info s1 e, suffix ∈ [bs ".html"; bs "index.html"; []] /\
      resolve_resource config_www suffix asking_file = Ret (s1, info, true) /\
      evaluate_filter config_www (relativePath info) s1 = Ret e /\ fe_accept e = true /\ s' = s1.
Proof.
  assert (exists s', handleRegularFileRequest config_www 1 asking_file = Ret (s', S_200_OK)) as (s' & E)
    by (vm_compute; eexists; reflexivity).
  exists s'. split; [exact E|].
  destruct (file_request_filtered config_www 1 asking_file s' E) as (suffix & info & s1 & e & Hin & Hr & _ & _ & He & Ha & _ & Hs).
  exists suffix, info, s1, e. split; [exact Hin|]. split; [exact Hr|]. split; [exact He|]. split; [exact Ha|exact Hs].
Defined.

(** *** Calls *)
Lemma rest_first_request_witness :
  exists s1, rest_sessionStart rest_config 5 asking_rest = Ret (s1, S_200_OK) /\ rest_isSessionActive s1 = true /\
    exists token j j', token = bearer_token asking_rest /\
      token_accepted rest_config 5 token (jwtToken (hs_app asking_rest)) (jwtToken (hs_app s1)) j j' /\
      current_session s1 = Ret (Some (session_new 5 (jwtToken (hs_app s1)))).
Proof.
  assert (exists s1, rest_sessionStart rest_config 5 asking_rest = Ret (s1, S_200_OK) /\ rest_isSessionActive s1 = true /\
    m_isAuthorizationHeaderJWTVerified (rest_members s1) = true) as (s1 & E & Ha & Hh)
    by (vm_compute; eexists; split; [reflexivity|split; reflexivity]).
  exists s1. split; [exact E|]. split; [exact Ha|].
  destruct (rest_first_request rest_config 5 asking_rest s1 S_200_OK) as (_ & Hs & _).
  - split; reflexivity.
  - reflexivity.
  - exact E.
  - destruct (Hs Ha) as (token & j & j' & _ & _ & _ & Hok & Hc & Ht). rewrite Hh in Ht. exists token, j, j'.
    split; [exact Ht|]. split; [exact Hok|exact Hc].
Defined.

(** At time 200 the token of the header is expired; a cookie was accepted before. *)
Definition asking_again : RestWeb := web (rest_app false true) (bs "GET") (bs "/api/v1/f") bearer.
Definition expired : JWT * Token JT :=
  match verify 200 access_token token_new plain_jwt with Ret (j, t, _) => (j, t) | _ => (plain_jwt, token_new) end.

Lemma rest_refused_token_used_witness :
  exists s1, rest_sessionStart rest_config 200 asking_again = Ret (s1, S_200_OK) /\ rest_isSessionActive s1 = true /\
    rest_rights s1 = Ret (false, {[bs "read"]}).
Proof.
  destruct (rest_refused_token_used rest_config 200 asking_again eq_refl eq_refl) as [_ Hrefused].
  destruct (Hrefused plain_jwt expired.1 expired.2) as (s1 & E & Ha & _ & Hr).
  - vm_compute. discriminate.
  - reflexivity.
  - vm_compute. reflexivity.
  - exists s1. split; [exact E|]. split; [exact Ha|]. rewrite Hr. vm_compute. reflexivity.
Defined.

Lemma api_call_answered_witness :
  exists s', web_onHTTPClientContentReceived rest_config 1 asking_rest = Ret (s', S_200_OK) /\
    ss_value (m_contentStreamableObject (rs_content (hs_response s'))) = [34] ++ bs "ok" ++ [34; 10].
Proof.
  destruct (sessionStart asking_rest) as [[s1 code]| | |] eqn:E1; [|vm_compute in E1; discriminate..].
  destruct (set_log_user s1) as [s2| | |] eqn:E2; [|vm_compute in E1; injection E1 as <- <-; vm_compute in E2; discriminate..].
  assert (code = S_200_OK) as -> by (vm_compute in E1; injection E1 as _ <-; reflexivity).
  rewrite (api_call_answered rest_config 1 (bs "/api") 1 (bs "f") [] [] asking_rest asking_rest s1 s2).
  - vm_compute in E1. injection E1 as <-. vm_compute in E2. injection E2 as <-. vm_compute. eexists. split; reflexivity.
  - discriminate.
  - reflexivity.
  - reflexivity.
  - reflexivity.
  - constructor.
  - reflexivity.
  - reflexivity.
  - reflexivity.
  - reflexivity.
  - exact E1.
  - exact E2.
Defined.

(** ** A monolithic server *)
Abbreviation MonoWeb := (HttpServer B_MEM StreamableString StreamableString (WebApp JT unit (MonolithHandler JT))).
Abbreviation MonoConfig := (APIServerConfig B_MEM StreamableString StreamableString JT bytes unit (MonolithHandler JT)).

Definition sid : bytes := bs "aaaaaaaaaaaa:bbbbbbbbbbbb".
Definition in_session : list bytes := [bs "Cookie: sessionId=" ++ sid; bs "X-HalfSession-ID: aaaaaaaaaaaa"].
Definition client_info : JT :=
  json_set (json_set json_null (bs "userAgent") (json_string (bs "curl/8.0"))) (bs "remoteAddress") (json_string []).
Definition user_session : Session JT := session_new 0 (mkToken access_claims true false).
Definition sessions : WebSessionsManager JT := with_session (bs "u") sid 1 7 client_info manager_new.

Definition mono_app (m : WebSessionsManager JT) (info : SessionInfo) (current : option Z) (id : bytes) : WebApp JT unit (MonolithHandler JT) :=
  mkWebApp token_new info [] [] None (mkWsEndpoints ∅ None) ∅ {[1 := user_session]} (Some plain_jwt) 0
    (mkMonolithHandler ∅ m current 900 id [] false).

Definition mono_config : MonoConfig :=
  mkConfig None None None None [] None {[bs "https://login.org"]} (bs "callback") true 16 false false false true true [bs "/api"] [] []
    (bs "/") [] ∅ (bs "/") [] [] [] [] [] [].

Definition visiting : MonoWeb := web (mono_app sessions sessioninfo_new None []) (bs "GET") (bs "/api/v1/f") in_session.

Lemma mono_session_guarded_witness :
  exists s1, mono_sessionStart mono_config 5 visiting = Ret (s1, S_200_OK) /\
    exists x : Session JT, currentSessionInfo (hs_app s1) = session_info_of x 1 sid /\ m_user x = bs "u".
Proof.
  assert (exists s1, mono_sessionStart mono_config 5 visiting = Ret (s1, S_200_OK) /\ m_currentWebSession (mono_members s1) = Some 7 /\
    currentSessionInfo (hs_app s1) = mkSessionInfo (Some 1) (bs "aaaaaaaaaaaa") sid false /\ wa_auth (hs_app s1) !! 1 = Some user_session)
    as (s1 & E & Hp & Hinfo & Hu) by (vm_compute; eexists; split; [reflexivity|split; [reflexivity|split; reflexivity]]).
  exists s1. split; [exact E|].
  assert (m_sessions (manager visiting) !! [] = None) as Hnil by (vm_compute; reflexivity).
  destruct (mono_session_guarded mono_config 5 visiting s1 7 Hnil E Hp) as (_ & _ & _ & n & w & x & addr & _ & _ & Hx & Hi & _).
  assert (authSession w = 1) as Hw by (rewrite Hinfo in Hi; unfold session_info_of in Hi; injection Hi; intros; symmetry; assumption).
  exists x. rewrite Hw in Hi, Hx. split; [rewrite Hi; vm_compute; reflexivity|]. rewrite Hu in Hx. injection Hx as <-. reflexivity.
Defined.

(** The same connection, later, without a cookie; the manager has no session. *)
Definition old_info : SessionInfo := mkSessionInfo (Some 1) (bs "aaaaaaaaaaaa") sid false.
Definition returning : MonoWeb := web (mono_app manager_new old_info (Some 7) sid) (bs "GET") (bs "/api/v1/f") [].

Lemma mono_session_stays_witness :
  exists s1, mono_sessionStart mono_config 5 returning = Ret (s1, S_200_OK) /\ mono_isSessionActive s1 = true /\
    mono_getSessionScopes s1 = Ret {[bs "read"]}.
Proof.
  destruct (mono_session_stays mono_config 5 returning 1) as (s1 & E & _ & Ha & _ & Hs).
  - reflexivity.
  - reflexivity.
  - reflexivity.
  - reflexivity.
  - exists s1. split; [exact E|]. split; [exact Ha|]. rewrite Hs. vm_compute. reflexivity.
Defined.

(** A connection whose request has the session open. *)
Definition opened : WebSessionsManager JT :=
  match openSession 5 {[1 := user_session]} sid sessions with Ret (m, _) => m | _ => manager_new end.
Definition leaving : MonoWeb := web (mono_app opened old_info (Some 7) sid) (bs "GET") (bs "/api/v1/f") in_session.

Lemma mono_request_ends_session_witness :
  exists s' c, mono_sessionCleanup 5 leaving = Ret s' /\ manager s' = manager_new /\
    mm_find CURRENT_SESSIONID_COOKIENAME (rs_cookies (hs_response s')) = Some c /\ ck_value c = sid /\ ck_maxAge c = Some 900.
Proof.
  apply (mono_request_ends_session 5 leaving user_session 1 7 895 client_info manager_new).
  - reflexivity.
  - discriminate.
  - reflexivity.
  - reflexivity.
  - vm_compute. reflexivity.
  - reflexivity.
  - reflexivity.
  - reflexivity.
  - reflexivity.
  - reflexivity.
  - discriminate.
  - discriminate.
  - vm_compute. reflexivity.
Defined.

(** Posting the token of a login. *)
Definition login_form : Content StreamableString :=
  c_set_type URL (content_init (with_text access_token)).
Definition logging_in : MonoWeb :=
  let s := web (mono_app manager_new sessioninfo_new None []) (bs "POST") (bs "/api/auth/login") [bs "Origin: https://login.org"] in
  hs_set_content (sp_set_sub login_form (hs_content s)) s.

Lemma mono_login_never_answers_witness :
  exists s2 p, handleAuthLoginFunction mono_config 5 logging_in = Ret (s2, S_200_OK) /\
    m_sessions (manager s2) = {[ createRandomString 0 12 ++ bs ":" ++ createRandomString 1 12 := SafeMap.mkMapElement (Some p) 0 ]} /\
    mono_sessionCleanup 5 s2 = Throw (runtime_error "Invalid close on Mutex MAP").
Proof.
  destruct (verifyToken mono_config 5 access_token logging_in) as [[s1 ok]| | |] eqn:Ev; [|vm_compute in Ev; discriminate..].
  assert (ok = true) as -> by (vm_compute in Ev; injection Ev as _ <-; reflexivity).
  assert (m_currentWebSession (mono_members s1) = None /\ hasClaim (bs "impersonator") (jwtToken (hs_app s1)) = Ret false /\
    (exists info, client_json 5 s1 = Ret info) /\ posted_variable (bs "redirectURI") s1 = Ret (Some access_token) /\
    wa_draws (hs_app s1) = 0%nat /\ m_sessions (manager s1) = ∅ /\ m_sessionClientInfo (manager s1) = ∅)
    as (Hc & Hi & (info & Hinfo) & Hr & Hd & Hm & Hl).
  { vm_compute in Ev. injection Ev as <-. vm_compute. repeat split. eexists. reflexivity. }
  destruct (mono_login_never_answers mono_config 5 logging_in s1 (Some access_token) (Some access_token) info) as (s2 & p & E & Hs & Hx).
  - apply (bool_decide_unpack _). vm_compute. exact I.
  - vm_compute. reflexivity.
  - exact Ev.
  - exact Hc.
  - exact Hi.
  - exact Hinfo.
  - exact Hr.
  - rewrite Hm. apply lookup_empty.
  - left. rewrite Hl. apply lookup_empty.
  - exists s2, p. split; [exact E|]. split; [|exact Hx]. rewrite Hs, Hm, Hd. apply insert_empty.
Defined.
