(* ===== verification/VarData.v ===== *)
(** * Abstract variables: the data and the scalar classes

    Memory/a_var.h and the classes that derive from it.  A [Var] is the base
    object (its null flag and its declared type) with the members of the class
    it is an object of; the declared type is a member of its own, which a
    constructor may set to something else.  This file has the classes of one
    number, of texts and of binary data; [VarList.v] the list of texts,
    [VarNet.v] the addresses, [AbstractVars.v] the dates, the dispatch over the
    classes and the map of variables.

    JsonCpp's numbers ([JsonNumbers]) and the floating point conversions of the
    C++ library ([FloatLib]) are parameters.  [new] and [malloc] succeed. *)

From S2P Require Import Prelude SafeInt CLib Encoders Jwt.
From Stdlib Require Import ZArith Lia.
#[local] Open Scope Z_scope.

(** ** Data *)

(** [Var::Type]. *)
Inductive VarType :=
| BOOL | INT8 | INT16 | INT32 | INT64 | UINT8 | UINT16 | UINT32 | UINT64 | DOUBLE | BIN | STRING | VARCHAR | STRINGLIST
| IPV4 | IPV6 | MACADDR | PTR | DATETIME | VOID.

#[export] Instance VarType_eq_dec : EqDecision VarType.
Proof. solve_decision. Defined.

(** Memory from [new] and [malloc]: a byte that was not written is [None]. *)
Definition buffer := list (option Z).

(** [BINARY::ByteArray]; [ba_locked]: the calling thread holds its mutex. *)
Record ByteArray := mkByteArray { ba_ptr : option buffer; ba_dataSize : Z; ba_locked : bool }.

(** The members of [VARCHAR]; the constructors leave [m_fillSize] as it is. *)
Record Varchar := mkVarchar { vc_wasTruncated : bool; vc_value : buffer; vc_varSize : Z; vc_fillSize : option Z }.

(** The members of [IPV4]: the address as [in_addr::s_addr], and the length of the mask. *)
Record Ipv4 := mkIpv4 { ip_value : Z; ip_cidrMask : Z }.

(** The members of an object, by its class. *)
Inductive Object (D : Type) :=
| oVar
| oBOOL (m_value : bool)
| oINT8 (m_value : Z) | oINT16 (m_value : Z) | oINT32 (m_value : Z) | oINT64 (m_value : Z)
| oUINT8 (m_value : Z) | oUINT16 (m_value : Z) | oUINT32 (m_value : Z) | oUINT64 (m_value : Z)
| oDOUBLE (m_value : D)
| oBINARY (m_value : ByteArray)
| oSTRING (m_value : bytes)
| oVARCHAR (m : Varchar)
| oSTRINGLIST (m_value : list bytes)
| oIPV4 (m : Ipv4)
| oIPV6 (m_value : bytes)
| oMACADDR (m_macaddr : bytes)
| oPTR (m_value : Z)
| oDATETIME (m_value : Z).
Arguments oVar {D}. Arguments oBOOL {D}. Arguments oINT8 {D}. Arguments oINT16 {D}. Arguments oINT32 {D}.
Arguments oINT64 {D}. Arguments oUINT8 {D}. Arguments oUINT16 {D}. Arguments oUINT32 {D}. Arguments oUINT64 {D}.
Arguments oDOUBLE {D}. Arguments oBINARY {D}. Arguments oSTRING {D}. Arguments oVARCHAR {D}. Arguments oSTRINGLIST {D}.
Arguments oIPV4 {D}. Arguments oIPV6 {D}. Arguments oMACADDR {D}. Arguments oPTR {D}. Arguments oDATETIME {D}.

Record Var (D : Type) := mkVar { m_isNull : bool; m_varType : VarType; m_object : Object D }.
Arguments mkVar {D} _ _ _. Arguments m_isNull {D} _. Arguments m_varType {D} _. Arguments m_object {D} _.

Class JsonNumbers (D J : Type) := {
  json_bool : bool -> J;
  json_uint64 : Z -> J;
  json_double : D -> J;
  json_isInt : J -> bool;
  json_isUInt : J -> bool;
  json_isUInt64 : J -> bool;
  json_isDouble : J -> bool;
  json_asInt : J -> Z;
  json_asUInt : J -> Z;
  json_asUInt64 : J -> Z;
  json_asDouble : J -> D }.

Class FloatLib (D : Type) := {
  double_zero : D;
  double_to_string : D -> bytes;
  (** [std::stod]: it throws [std::invalid_argument] and [std::out_of_range]. *)
  stod : bytes -> outcome D }.

(** ** The base class *)
Section Base.
Context {D : Type}.

Definition Var_new : Var D := mkVar true VOID oVar.
Definition Var_setVarType (value : VarType) (v : Var D) : Var D := mkVar false value (m_object v).
Definition Var_getVarType (v : Var D) : VarType := m_varType v.
Definition Var_isNull (v : Var D) : bool := m_isNull v.
Definition Var_setIsNull (newIsNull : bool) (v : Var D) : Var D := mkVar newIsNull (m_varType v) (m_object v).

(** A constructor of a derived class: the members, and [setVarType]. *)
Definition construct (t : VarType) (o : Object D) : Var D := Var_setVarType t (mkVar (m_isNull Var_new) (m_varType Var_new) o).
End Base.

(** ** Numbers *)

(** The conversion of an integer to an integral type. *)
Definition convert (T : int_ty) (x : Z) : Z :=
  let m := wrapw (ty_bits T) x in if is_signed T && (m >=? 2 ^ (ty_bits T - 1)) then m - 2 ^ ty_bits T else m.

Definition i8 := {| ty_bits := 8; is_signed := true |}.
Definition i16 := {| ty_bits := 16; is_signed := true |}.
Definition u16 := {| ty_bits := 16; is_signed := false |}.

(** The body of the integers' [fromString]: [result] is what [strtol], [strtoul],
    [strtoll] or [strtoull] make of the text.  The answer is the new value of
    the member and the result. *)
Definition integer_fromString (T : int_ty) (strto : bytes -> Z * option bytes) (value : bytes) : Z * bool :=
  match value with
  | [] => (0, false)
  | _ =>
      let '(result, end_) := strto value in
      match end_ with
      | None => (0, false)
      | Some e =>
          if negb (bool_decide (e = [])) || (result >? limits_max T) || (result <? limits_min T) then (0, false)
          else (convert T result, true)
      end
  end.

(** An object with other members. *)
Definition setObject {D} (o : Object D) (v : Var D) : Var D := mkVar (m_isNull v) (m_varType v) o.

Section Classes.
Context {D J : Type} `{!JsonCpp J} `{!JsonNumbers D J} `{!FloatLib D}.

(** *** Helpers/json.h: the numbers of a JSON value *)
Definition ASINT_D (j : J) (def : Z) : Z := if json_isInt j then json_asInt j else def.
Definition ASINT64_D (j : J) (def : Z) : Z := if json_isInt64 j then json_asInt64 j else def.
Definition ASUINT_D (j : J) (def : Z) : Z := if json_isUInt j then json_asUInt j else def.
Definition ASUINT64_D (j : J) (def : Z) : Z := if json_isUInt64 j then json_asUInt64 j else def.
Definition ASDOUBLE_D (j : J) (def : D) : D := if json_isDouble j then json_asDouble j else def.

(** *** BOOL *)
Definition BOOL_new : Var D := construct BOOL (oBOOL false).
Definition BOOL_of (value : bool) : Var D := construct BOOL (oBOOL value).
Definition BOOL_getValue (m_value : bool) : bool := m_value.
Definition BOOL_setValue (value m_value : bool) : bool * bool := (value, true).
Definition BOOL_assign (value m_value : bool) : bool := (BOOL_setValue value m_value).1.
Definition BOOL_toString (m_value : bool) : bytes := if m_value then bs "true" else bs "false".
Definition BOOL_fromString (value : bytes) (m_value : bool) : bool * bool :=
  (bool_decide (value = bs "true") || bool_decide (value = bs "TRUE") || bool_decide (value = bs "1") ||
   bool_decide (value = bs "t") || bool_decide (value = bs "T"), true).
Definition BOOL_toJSON (null m_value : bool) : J := if null then json_null else json_bool m_value.
Definition BOOL_fromJSON (value : J) (m_value : bool) : bool * bool := (ASBOOL_D value false, true).
Definition BOOL_protectedCopy (m_value : bool) : Var D := setObject (oBOOL (BOOL_assign m_value false)) BOOL_new.

(** *** INT8 *)
Definition INT8_new : Var D := construct INT8 (oINT8 0).
Definition INT8_of (value : Z) : Var D := construct INT64 (oINT8 value).
Definition INT8_getValue (m_value : Z) : Z := m_value.
Definition INT8_setValue (value m_value : Z) : Z * bool := (value, true).
Definition INT8_assign (value m_value : Z) : Z := (INT8_setValue value m_value).1.
Definition INT8_toString (m_value : Z) : bytes := to_string_signed m_value.
Definition INT8_fromString (value : bytes) (m_value : Z) : Z * bool := integer_fromString i8 (strtol_end 10) value.
Definition INT8_toJSON (null : bool) (m_value : Z) : J := if null then json_null else json_int64 m_value.
Definition INT8_fromJSON (value : J) (m_value : Z) : Z * bool := (convert i8 (ASINT_D value 0), true).
Definition INT8_protectedCopy (m_value : Z) : Var D := setObject (oINT8 (INT8_assign m_value 0)) INT8_new.

(** *** INT16 *)
Definition INT16_new : Var D := construct INT16 (oINT16 0).
Definition INT16_of (value : Z) : Var D := construct INT16 (oINT16 value).
Definition INT16_getValue (m_value : Z) : Z := m_value.
Definition INT16_setValue (value m_value : Z) : Z * bool := (value, true).
Definition INT16_assign (value m_value : Z) : Z := (INT16_setValue value m_value).1.
Definition INT16_toString (m_value : Z) : bytes := to_string_signed m_value.
Definition INT16_fromString (value : bytes) (m_value : Z) : Z * bool := integer_fromString i16 (strtol_end 10) value.
Definition INT16_toJSON (null : bool) (m_value : Z) : J := if null then json_null else json_int64 m_value.
Definition INT16_fromJSON (value : J) (m_value : Z) : Z * bool := (convert i16 (ASINT_D value 0), true).
Definition INT16_protectedCopy (m_value : Z) : Var D := setObject (oINT16 (INT16_assign m_value 0)) INT16_new.

(** *** INT32 *)
Definition INT32_new : Var D := construct INT32 (oINT32 0).
Definition INT32_of (value : Z) : Var D := construct INT32 (oINT32 value).
Definition INT32_getValue (m_value : Z) : Z := m_value.
Definition INT32_setValue (value m_value : Z) : Z * bool := (value, true).
Definition INT32_assign (value m_value : Z) : Z := (INT32_setValue value m_value).1.
Definition INT32_toString (m_value : Z) : bytes := to_string_signed m_value.
Definition INT32_fromString (value : bytes) (m_value : Z) : Z * bool := integer_fromString i32 (strtol_end 10) value.
Definition INT32_toJSON (null : bool) (m_value : Z) : J := if null then json_null else json_int64 m_value.
Definition INT32_fromJSON (value : J) (m_value : Z) : Z * bool := (convert i32 (ASINT_D value 0), true).
Definition INT32_protectedCopy (m_value : Z) : Var D := setObject (oINT32 (INT32_assign m_value 0)) INT32_new.

(** *** INT64 *)
Definition INT64_new : Var D := construct INT64 (oINT64 0).
Definition INT64_of (value : Z) : Var D := construct INT64 (oINT64 value).
Definition INT64_getValue (m_value : Z) : Z := m_value.
Definition INT64_setValue (value m_value : Z) : Z * bool := (value, true).
Definition INT64_assign (value m_value : Z) : Z := (INT64_setValue value m_value).1.
Definition INT64_toString (m_value : Z) : bytes := to_string_signed m_value.
Definition INT64_fromString (value : bytes) (m_value : Z) : Z * bool := integer_fromString i64 (strtol_end 10) value.
Definition INT64_toJSON (null : bool) (m_value : Z) : J := if null then json_null else json_int64 m_value.
Definition INT64_fromJSON (value : J) (m_value : Z) : Z * bool := (ASINT64_D value 0, true).
Definition INT64_protectedCopy (m_value : Z) : Var D := setObject (oINT64 (INT64_assign m_value 0)) INT64_new.

(** *** UINT8 *)
Definition UINT8_new : Var D := construct UINT8 (oUINT8 0).
Definition UINT8_of (value : Z) : Var D := construct UINT8 (oUINT8 value).
Definition UINT8_getValue (m_value : Z) : Z := m_value.
Definition UINT8_setValue (value m_value : Z) : Z * bool := (value, true).
Definition UINT8_assign (value m_value : Z) : Z := (UINT8_setValue value m_value).1.
Definition UINT8_toString (m_value : Z) : bytes := to_string m_value.
Definition UINT8_fromString (value : bytes) (m_value : Z) : Z * bool := integer_fromString u8 (strtoul 10) value.
Definition UINT8_toJSON (null : bool) (m_value : Z) : J := if null then json_null else json_int64 m_value.
Definition UINT8_fromJSON (value : J) (m_value : Z) : Z * bool := (convert u8 (ASUINT_D value 0), true).
Definition UINT8_protectedCopy (m_value : Z) : Var D := setObject (oUINT8 (UINT8_assign m_value 0)) UINT8_new.

(** *** UINT16 *)
Definition UINT16_new : Var D := construct UINT16 (oUINT16 0).
Definition UINT16_of (value : Z) : Var D := construct UINT16 (oUINT16 value).
Definition UINT16_getValue (m_value : Z) : Z := m_value.
Definition UINT16_setValue (value m_value : Z) : Z * bool := (value, true).
Definition UINT16_assign (value m_value : Z) : Z := (UINT16_setValue value m_value).1.
Definition UINT16_toString (m_value : Z) : bytes := to_string m_value.
Definition UINT16_fromString (value : bytes) (m_value : Z) : Z * bool := integer_fromString u16 (strtoul 10) value.
Definition UINT16_toJSON (null : bool) (m_value : Z) : J := if null then json_null else json_int64 m_value.
Definition UINT16_fromJSON (value : J) (m_value : Z) : Z * bool := (convert u16 (ASUINT_D value 0), true).
Definition UINT16_protectedCopy (m_value : Z) : Var D := setObject (oUINT16 (UINT16_assign m_value 0)) UINT16_new.

(** *** UINT32 *)
Definition UINT32_new : Var D := construct UINT32 (oUINT32 0).
Definition UINT32_of (value : Z) : Var D := construct UINT32 (oUINT32 value).
Definition UINT32_getValue (m_value : Z) : Z := m_value.
Definition UINT32_setValue (value m_value : Z) : Z * bool := (value, true).
Definition UINT32_assign (value m_value : Z) : Z := (UINT32_setValue value m_value).1.
Definition UINT32_toString (m_value : Z) : bytes := to_string m_value.
Definition UINT32_fromString (value : bytes) (m_value : Z) : Z * bool := integer_fromString u32 (strtoul 10) value.
Definition UINT32_toJSON (null : bool) (m_value : Z) : J := if null then json_null else json_uint64 m_value.
Definition UINT32_fromJSON (value : J) (m_value : Z) : Z * bool := (convert u32 (ASUINT_D value 0), true).
Definition UINT32_protectedCopy (m_value : Z) : Var D := setObject (oUINT32 (UINT32_assign m_value 0)) UINT32_new.

(** *** UINT64 *)
Definition UINT64_new : Var D := construct UINT64 (oUINT64 0).
Definition UINT64_of (value : Z) : Var D := construct UINT64 (oUINT64 value).
Definition UINT64_getValue (m_value : Z) : Z := m_value.
Definition UINT64_getIValueTruncatedOrZero (m_value : Z) : Z := if m_value <=? 9223372036854775807 then m_value else 0.
Definition UINT64_setValue (value m_value : Z) : Z * bool := (value, true).
Definition UINT64_assign (value m_value : Z) : Z := (UINT64_setValue value m_value).1.
Definition UINT64_toString (m_value : Z) : bytes := to_string m_value.
Definition UINT64_fromString (value : bytes) (m_value : Z) : Z * bool := integer_fromString u64 (strtoul 10) value.
Definition UINT64_toJSON (null : bool) (m_value : Z) : J := if null then json_null else json_uint64 m_value.
Definition UINT64_fromJSON (value : J) (m_value : Z) : Z * bool := (ASUINT64_D value 0, true).
Definition UINT64_protectedCopy (m_value : Z) : Var D := setObject (oUINT64 (UINT64_assign m_value 0)) UINT64_new.

(** *** DOUBLE

    The two handlers of [fromString] are for pointers: what [stod] throws, an
    object, is not caught. *)
Definition DOUBLE_new : Var D := construct DOUBLE (oDOUBLE double_zero).
Definition DOUBLE_of (value : D) : Var D := construct DOUBLE (oDOUBLE value).
Definition DOUBLE_getValue (m_value : D) : D := m_value.
Definition DOUBLE_setValue (value m_value : D) : D := value.
Definition DOUBLE_assign (value m_value : D) : D := DOUBLE_setValue value m_value.
Definition DOUBLE_toString (m_value : D) : bytes := double_to_string m_value.
Definition DOUBLE_fromString (value : bytes) (m_value : D) : outcome (D * bool) := d ← stod value; Ret (d, true).
Definition DOUBLE_toJSON (null : bool) (m_value : D) : J := if null then json_null else json_double m_value.
Definition DOUBLE_fromJSON (value : J) (m_value : D) : D * bool := (ASDOUBLE_D value double_zero, true).
Definition DOUBLE_protectedCopy (m_value : D) : Var D := setObject (oDOUBLE (DOUBLE_assign m_value double_zero)) DOUBLE_new.

(** *** PTR: an address, printed with at least eight digits *)
Definition PTR_new : Var D := construct PTR (oPTR 0).
Definition PTR_of (value : Z) : Var D := construct PTR (oPTR value).
Definition PTR_getValue (m_value : Z) : Z := m_value.
Definition PTR_setValue (value m_value : Z) : Z * bool := (value, true).
Definition PTR_assign (value m_value : Z) : Z := (PTR_setValue value m_value).1.
Definition PTR_toString (m_value : Z) : bytes := pad_zeros 8 (print_X m_value).
Definition PTR_fromString (value : bytes) (m_value : Z) : Z * bool :=
  match value with
  | [] => (0, true)
  | _ => (convert u64 (strtol_end 16 value).1, true)
  end.
Definition PTR_toJSON (null : bool) (m_value : Z) : J := if null then json_null else json_string (PTR_toString m_value).
Definition PTR_fromJSON (value : J) (m_value : Z) : Z * bool := PTR_fromString (ASSTRING_D value (bs "00000000")) m_value.
Definition PTR_protectedCopy (m_value : Z) : Var D := setObject (oPTR (PTR_assign m_value 0)) PTR_new.

(** *** STRING *)
Definition STRING_new : Var D := construct STRING (oSTRING []).
Definition STRING_of (value : bytes) : Var D := construct STRING (oSTRING value).
Definition STRING_getValue (m_value : bytes) : bytes := m_value.
Definition STRING_fromString (value m_value : bytes) : bytes * bool := (value, true).
Definition STRING_setValue (value m_value : bytes) : bytes * bool := STRING_fromString value m_value.
(** The overload for a [char *]: [None] is a null pointer. *)
Definition STRING_setValue_c (value : option bytes) (m_value : bytes) : bytes * bool :=
  match value with
  | None => STRING_fromString [] m_value
  | Some value => STRING_fromString (c_str value) m_value
  end.
Definition STRING_toString (m_value : bytes) : bytes := STRING_getValue m_value.
Definition STRING_assign (value m_value : bytes) : bytes := (STRING_setValue value m_value).1.
Definition STRING_toJSON (null : bool) (m_value : bytes) : J := if null then json_null else json_string (STRING_toString m_value).
Definition STRING_fromJSON (value : J) (m_value : bytes) : bytes * bool := STRING_fromString (ASSTRING_D value []) m_value.
Definition STRING_protectedCopy (m_value : bytes) : Var D := setObject (oSTRING (STRING_assign m_value [])) STRING_new.

(** *** Memory *)

(** The characters up to the first zero: [std::string(p)]. *)
Fixpoint buffer_string (b : buffer) : outcome bytes :=
  match b with
  | Some c :: b => if c =? 0 then Ret [] else s ← buffer_string b; Ret (c :: s)
  | _ => Undef
  end.

(** The first [n] bytes. *)
Fixpoint buffer_read (n : nat) (b : buffer) : outcome bytes :=
  match n, b with
  | Datatypes.O, _ => Ret []
  | Datatypes.S n, Some c :: b => s ← buffer_read n b; Ret (c :: s)
  | Datatypes.S _, _ => Undef
  end.

(** [memcpy(b + off, data, size)]. *)
Definition buffer_write (off : Z) (data : bytes) (b : buffer) : outcome buffer :=
  if off + zlen data <=? zlen b then Ret (ztake off b ++ map Some data ++ zdrop (off + zlen data) b) else Undef.

(** [new char[size]], [malloc(size)]. *)
Definition allocate (size : Z) : buffer := replicate (Z.to_nat size) None.

(** *** BINARY *)
Definition BINARY_new : Var D := construct BIN (oBINARY (mkByteArray None 0 false)).

(** [std::unique_lock] and [std::shared_lock]: a thread that owns the mutex must not lock it. *)
Definition with_lock {A} (b : ByteArray) (body : outcome A) : outcome A := if ba_locked b then Undef else body.

(** [getValue] leaves the mutex locked for the caller. *)
Definition BINARY_getValue (b : ByteArray) : outcome ByteArray :=
  with_lock b (Ret (mkByteArray (ba_ptr b) (ba_dataSize b) true)).

(** The bytes of an array: [None] is a null pointer. *)
Definition array_bytes (b : ByteArray) : outcome bytes :=
  match ba_ptr b with
  | Some p => buffer_read (Z.to_nat (ba_dataSize b)) p
  | None => if ba_dataSize b =? 0 then Ret [] else Undef
  end.

Definition BINARY_setValue (value b : ByteArray) : outcome (ByteArray * bool) :=
  with_lock b (
    data ← array_bytes value;
    p ← buffer_write 0 data (allocate (ba_dataSize value));
    Ret (mkByteArray (Some p) (ba_dataSize value) (ba_locked b), true)).

Definition BINARY_toString (b : ByteArray) : outcome bytes := with_lock b (array_bytes b).

Definition BINARY_fromString (value : bytes) (b : ByteArray) : outcome (ByteArray * bool) :=
  with_lock b (
    p ← buffer_write (zlen value) [0] (allocate (wrap (zlen value + 1)));
    p ← buffer_write 0 value p;
    Ret (mkByteArray (Some p) (ba_dataSize b) (ba_locked b), true)).

(** The arguments are a [char *] and a [size_t]: the overload is the one for an
    [std::string] and a [bool], which is whether to use the URL alphabet. *)
Definition BINARY_toJSON `{Base64BIO} (null : bool) (b : ByteArray) : outcome J :=
  with_lock b (
    if null then Ret json_null
    else match ba_ptr b with
         | None => Undef
         | Some p => s ← buffer_string p; Ret (json_string (encodeToBase64 s (negb (ba_dataSize b =? 0))))
         end).

(** [fromString] is called with the mutex locked. *)
Definition BINARY_fromJSON `{Base64BIO} (value : J) (b : ByteArray) : outcome (ByteArray * bool) :=
  with_lock b (BINARY_fromString (decodeFromBase64 (ASSTRING_D value []) false) (mkByteArray (ba_ptr b) (ba_dataSize b) true)).

Definition BINARY_protectedCopy (b : ByteArray) : outcome (Var D) :=
  with_lock b ('(copy, _) ← BINARY_setValue b (mkByteArray None 0 false); Ret (setObject (oBINARY copy) BINARY_new)).

(** The constructors of [ByteArray]; they leave [dataSize] as it is for no bytes. *)
Definition ByteArray_new : ByteArray := mkByteArray None 0 false.
Definition ByteArray_sized (garbage len : Z) : ByteArray :=
  if len =? 0 then mkByteArray None garbage false
  else mkByteArray (Some (map Some (replicate (Z.to_nat (wrap (len + 1))) 0))) len false.

(** *** VARCHAR *)

Definition set_truncated (t : bool) (v : Varchar) : Varchar := mkVarchar t (vc_value v) (vc_varSize v) (vc_fillSize v).
Definition set_value (b : buffer) (v : Varchar) : Varchar := mkVarchar (vc_wasTruncated v) b (vc_varSize v) (vc_fillSize v).

(** The members a constructor sets: memory of [varSize + 1] bytes, the last of them zero. *)
Definition varchar_alloc (varSize : Z) : outcome Varchar :=
  b ← buffer_write varSize [0] (allocate (wrap (varSize + 1)));
  Ret (mkVarchar false b varSize None).

(** The common part of [fromString] and [setValue]: the text has [size] bytes
    that count, of which [m_varSize] are stored. *)
Definition varchar_store (value : bytes) (size : Z) (v : Varchar) : outcome (Varchar * bool) :=
  let v := set_truncated false v in
  let '(szVar, r, v) := if size >? vc_varSize v then (vc_varSize v, false, set_truncated true v) else (size, true, v) in
  if szVar >? 0 then
    b ← buffer_write szVar [0] (vc_value v);
    b ← buffer_write 0 (ztake szVar value) b;
    Ret (set_value b v, r)
  else
    b ← buffer_write 0 [0] (vc_value v);
    Ret (set_value b v, r).

Definition VARCHAR_fromString (value : bytes) (v : Varchar) : outcome (Varchar * bool) :=
  varchar_store value (zlen value) v.

(** [setValue] of a C string, with [strnlen(value, m_varSize + 1)]. *)
Definition VARCHAR_setValue (value : bytes) (v : Varchar) : outcome (Varchar * bool) :=
  varchar_store (c_str value) (Z.min (zlen (c_str value)) (wrap (vc_varSize v + 1))) v.

Definition VARCHAR_toString (v : Varchar) : outcome bytes := buffer_string (vc_value v).
Definition VARCHAR_getValue (v : Varchar) : buffer := vc_value v.
Definition VARCHAR_getVarSize (v : Varchar) : Z := vc_varSize v.
Definition VARCHAR_getWasTruncated (v : Varchar) : bool := vc_wasTruncated v.
Definition VARCHAR_getFillSize (v : Varchar) : option Z := vc_fillSize v.
Definition VARCHAR_assign (value : bytes) (v : Varchar) : outcome Varchar := '(v, _) ← VARCHAR_setValue value v; Ret v.

Definition VARCHAR_new (varSize : Z) : outcome (Var D) := v ← varchar_alloc varSize; Ret (construct VARCHAR (oVARCHAR v)).
Definition VARCHAR_of (varSize : Z) (value : bytes) : outcome (Var D) :=
  v ← varchar_alloc varSize; v ← VARCHAR_assign value v; Ret (construct VARCHAR (oVARCHAR v)).
(** The copy constructor. *)
Definition VARCHAR_copy (var : Varchar) : outcome (Var D) :=
  v ← varchar_alloc (VARCHAR_getVarSize var);
  value ← buffer_string (VARCHAR_getValue var);
  v ← VARCHAR_assign value v;
  Ret (construct VARCHAR (oVARCHAR v)).

Definition VARCHAR_toJSON (null : bool) (v : Varchar) : outcome J :=
  if null then Ret json_null else s ← VARCHAR_toString v; Ret (json_string s).
Definition VARCHAR_fromJSON (value : J) (v : Varchar) : outcome (Varchar * bool) := VARCHAR_fromString (ASSTRING_D value []) v.
Definition VARCHAR_protectedCopy (v : Varchar) : outcome (Var D) :=
  value ← buffer_string (vc_value v); VARCHAR_of (vc_varSize v) value.
End Classes.
