(* ===== verification/VarList.v ===== *)
(** * Abstract variables: the list of texts (Memory/a_stringlist.cpp)

    A list is printed as fields separated by commas; a field with a comma or a
    quote is put in quotes, its quotes doubled.  [fromString] reads fields,
    tries a quoted field first and starts again without quotes when it cannot
    be read.  A position of the code is here the rest of the text from it. *)

From S2P Require Import Prelude CLib Jwt VarData.
From Stdlib Require Import ZArith Lia.
#[local] Open Scope Z_scope.

Section StringList.
Context {D J : Type} `{!JsonCpp J}.

Definition STRINGLIST_new : Var D := construct STRINGLIST (oSTRINGLIST []).
Definition STRINGLIST_of (value : list bytes) : Var D := construct STRINGLIST (oSTRINGLIST value).
Definition STRINGLIST_getValue (m_value : list bytes) : list bytes := m_value.
Definition STRINGLIST_setValue (value m_value : list bytes) : list bytes * bool := (value, true).
Definition STRINGLIST_assign (value m_value : list bytes) : list bytes := (STRINGLIST_setValue value m_value).1.

(** Each quote twice. *)
Fixpoint double_quotes (element : bytes) : bytes :=
  match element with
  | [] => []
  | c :: element => (if c =? 34 then [34; 34] else [c]) ++ double_quotes element
  end.

Definition needsQuotes (element : bytes) : bool := has_value (find_char 44 element) || has_value (find_char 34 element).

Definition field_text (element : bytes) : bytes :=
  if needsQuotes element then [34] ++ double_quotes element ++ [34] else element.

Fixpoint fields_text (isFirst : bool) (values : list bytes) : bytes :=
  match values with
  | [] => []
  | element :: values => (if isFirst then [] else [44]) ++ field_text element ++ fields_text false values
  end.

Definition STRINGLIST_toString (m_value : list bytes) : bytes := fields_text true (STRINGLIST_getValue m_value).

(** The loop inside of quotes: [currentPosition], [startOfCurrentField],
    [inQuotes], [currentFieldValue], [finalValues].  After a field that ends
    with a comma the loop goes on with the next one. *)
Fixpoint quoted_fields (pos start : bytes) (inQuotes : bool) (field : bytes) (final : list bytes)
    : bytes * bytes * bool * bytes * list bytes :=
  match pos with
  | [] => (pos, start, inQuotes, field, final)
  | c :: rest =>
      if c =? 34 then
        match rest with
        | [] => ([], start, false, [], final ++ [field])
        | d :: rest2 =>
            if d =? 44 then quoted_fields rest2 rest2 false [] (final ++ [field])
            else if (d =? 34) && negb (bool_decide (rest2 = [])) then quoted_fields rest2 start inQuotes (field ++ [c]) final
            else (pos, start, inQuotes, bs "IGN", final)
        end
      else quoted_fields rest start inQuotes (field ++ [c]) final
  end.

(** The loop over the fields; [without] is [processWithoutQuotes]. *)
Fixpoint read_fields (fuel : nat) (pos start : bytes) (inQuotes without : bool) (final : list bytes) : outcome (list bytes) :=
  match pos, fuel with
  | [], _ => Ret final
  | _ :: _, Datatypes.O => NoFuel
  | c :: rest, Datatypes.S fuel =>
      if negb inQuotes then
        if negb without && (c =? 34) then read_fields fuel rest pos true without final
        else
          match find_char 44 pos with
          | Some n => read_fields fuel (zdrop (n + 1) pos) start inQuotes false (final ++ [ztake n pos])
          | None => Ret (final ++ [pos])
          end
      else
        let '(pos, start, inQuotes, field, final) := quoted_fields pos start inQuotes [] final in
        if bool_decide (field = []) then read_fields fuel pos start inQuotes without final
        else read_fields fuel start start false true final
  end.

Definition STRINGLIST_fromString (inputStringList : bytes) (m_value : list bytes) : outcome (list bytes * bool) :=
  finalValues ← read_fields (3 * length inputStringList + 3) inputStringList inputStringList false false [];
  Ret (STRINGLIST_setValue finalValues m_value).

Definition STRINGLIST_protectedCopy (m_value : list bytes) : Var D :=
  setObject (oSTRINGLIST (STRINGLIST_assign (STRINGLIST_getValue m_value) [])) STRINGLIST_new.

Definition STRINGLIST_toJSON (null : bool) (m_value : list bytes) : J :=
  if null then json_null else foldl (fun j item => json_append j (json_string item)) json_array m_value.

(** The elements up to the first that is no string. *)
Fixpoint append_strings (items : list J) (m_value : list bytes) : list bytes * bool :=
  match items with
  | [] => (m_value, true)
  | item :: items =>
      if json_isString item then append_strings items (m_value ++ [ASSTRING_D item []]) else (m_value, false)
  end.

Definition STRINGLIST_fromJSON (value : J) (m_value : list bytes) : list bytes * bool :=
  if json_isArray value then append_strings (json_elements value) [] else (m_value, false).
End StringList.

(** ** The loops end *)

Definition fields_measure (pos start : bytes) (inQuotes without : bool) : nat :=
  if inQuotes then 3 * length start + 1 else if without then 3 * length pos else 3 * length pos + 2.

Lemma quoted_fields_shrink pos start inQuotes field final p s q f fs :
  (length pos <= length start)%nat -> quoted_fields pos start inQuotes field final = (p, s, q, f, fs) ->
  (length s <= length start)%nat /\ (f = [] -> p = []).
Proof.
  remember (length pos) as n eqn:Hn. revert pos start inQuotes field final Hn.
  induction (lt_wf n) as [n _ IH]; intros [|c rest] start inQuotes field final -> Hl; cbn [quoted_fields].
  - intros [= <- <- <- <- <-]. by split.
  - destruct (c =? 34); [destruct rest as [|d rest2]; [by intros [= <- <- <- <- <-]|]|].
    + destruct (d =? 44); [|destruct (_ && _)].
      * intros E. cbn in Hl. apply (IH (length rest2)) in E; cbn; [|lia..]. split; [|tauto]. lia.
      * intros E. cbn in Hl. by apply (IH (length rest2)) in E; cbn; [|lia..].
      * by intros [= <- <- <- <- <-].
    + intros E. cbn in Hl. by apply (IH (length rest)) in E; cbn; [|lia..].
Qed.

Lemma read_fields_fuel fuel pos start inQuotes without final :
  (length pos <= length start)%nat \/ inQuotes = false -> (fields_measure pos start inQuotes without < fuel)%nat ->
  exists l, read_fields fuel pos start inQuotes without final = Ret l.
Proof.
  revert pos start inQuotes without final.
  induction fuel as [|fuel IH]; intros [|c rest] start inQuotes without final Hl Hm; cbn [read_fields]; [(lia || by eexists)..|].
  destruct inQuotes; cbn [negb].
  - destruct (quoted_fields _ _ _ _ _) as [[[[p s] q] f] fs] eqn:E. destruct Hl as [Hl|]; [|done].
    apply quoted_fields_shrink in E as [H1 H2]; [|done].
    destruct (bool_decide_reflect (f = [])) as [Hf|Hf].
    + rewrite (H2 Hf). destruct fuel; by eexists.
    + apply IH; [by right|]. cbn [fields_measure] in *. lia.
  - cbn [fields_measure length] in *. destruct (negb without && _) eqn:Eq.
    + apply IH; [left; cbn; lia|]. destruct without; [done|]. cbn [fields_measure length]. lia.
    + destruct (find_char 44 (c :: rest)) as [n|] eqn:Ec; [|by eexists]. apply IH; [by right|].
      apply find_char_bound in Ec. unfold fields_measure, zdrop. rewrite length_drop. unfold zlen in Ec. cbn [length] in *.
      destruct without; lia.
Qed.

(** ** What is read back *)

(** An element that is printed without quotes. *)
Definition plain (element : bytes) : Prop := 44 ∉ element /\ 34 ∉ element.

Lemma plain_text element : plain element -> field_text element = element.
Proof. intros [H1 H2]. unfold field_text, needsQuotes. by rewrite !find_char_none. Qed.

Lemma read_fields_nil fuel start inQuotes without final : read_fields fuel [] start inQuotes without final = Ret final.
Proof. by destruct fuel. Qed.

(** One plain field and its comma. *)
Lemma read_plain_comma fuel e (t : bytes) start without final :
  plain e -> (3 * length (e ++ 44%Z :: t) + 3 <= fuel)%nat ->
  exists fuel', (3 * length t + 3 <= fuel')%nat /\
  read_fields fuel (e ++ 44 :: t) start false without final = read_fields fuel' t start false false (final ++ [e]).
Proof.
  intros [H1 H2] Hf. destruct fuel as [|fuel]; [lia|]. exists fuel. rewrite length_app in Hf. cbn [length] in Hf. split; [lia|].
  assert (Hc : exists c rest, e ++ 44 :: t = c :: rest /\ (c =? 34) = false).
  { destruct e as [|c e]; [by exists 44, t|]. exists c, (e ++ 44 :: t). split; [done|]. apply not_elem_of_cons in H2 as [H2 _]. lia. }
  destruct Hc as (c & rest & E & Hc). rewrite E. cbn [read_fields negb]. rewrite Hc, andb_false_r, <- E, find_char_split by done.
  pose proof (zlen_nonneg e). rewrite zdrop_app_ge by lia. replace (zlen e + 1 - zlen e) with 1 by lia.
  rewrite zdrop_cons, zdrop_le0 by lia. by rewrite ztake_app_ge, Z.sub_diag, ztake_le0, app_nil_r by lia.
Qed.

Lemma fields_text_more values : values <> [] -> fields_text false values = 44 :: fields_text true values.
Proof. by destruct values. Qed.

Lemma fields_text_cons e values :
  values <> [] -> fields_text true (e :: values) = field_text e ++ 44 :: fields_text true values.
Proof. intros Hv. cbn [fields_text app]. by rewrite fields_text_more. Qed.

(** Plain fields with others after them. *)
Lemma read_plain_prefix pre l fuel start without final :
  Forall plain pre -> l <> [] -> (3 * length (fields_text true (pre ++ l)) + 3 <= fuel)%nat ->
  exists fuel' without', (3 * length (fields_text true l) + 3 <= fuel')%nat /\ (without = false -> without' = false) /\
  read_fields fuel (fields_text true (pre ++ l)) start false without final =
  read_fields fuel' (fields_text true l) start false without' (final ++ pre).
Proof.
  intros Hp Hl. revert fuel without final. induction Hp as [|e pre He Hp IH]; intros fuel without final Hf.
  - exists fuel, without. by rewrite app_nil_r.
  - cbn [app] in *. rewrite fields_text_cons in * by by destruct pre. rewrite plain_text in * by done.
    destruct (read_plain_comma fuel e (fields_text true (pre ++ l)) start without final) as (f1 & H1 & ->); [done..|].
    destruct (IH f1 false (final ++ [e]) H1) as (f2 & w & H2 & Hw & ->). exists f2, w. rewrite <- app_assoc.
    by split_and!; [|auto|].
Qed.

(** The last field, plain and not empty. *)
Lemma read_plain_last fuel e start without final :
  plain e -> e <> [] -> (3 <= fuel)%nat -> read_fields fuel e start false without final = Ret (final ++ [e]).
Proof.
  intros [H1 H2] Hne Hf. destruct fuel as [|fuel]; [lia|]. destruct e as [|c e]; [done|]. cbn [read_fields negb].
  assert ((c =? 34) = false) as -> by (apply not_elem_of_cons in H2 as [H2 _]; lia). by rewrite andb_false_r, find_char_none.
Qed.

(** A list that ends with an empty element loses it; no others do. *)
Definition ends_empty (values : list bytes) : Prop := last values = Some [].

Lemma read_plain_all values fuel start without final :
  Forall plain values -> ~ ends_empty values -> (3 * length (fields_text true values) + 3 <= fuel)%nat ->
  read_fields fuel (fields_text true values) start false without final = Ret (final ++ values).
Proof.
  intros Hp Hl Hf. destruct values as [|e0 values0] using rev_ind; [by rewrite read_fields_nil, app_nil_r|]. clear IHvalues0.
  apply Forall_app in Hp as [Hp He]. apply Forall_cons in He as [He _]. unfold ends_empty in Hl. rewrite last_snoc in Hl.
  destruct (read_plain_prefix values0 [e0] fuel start without final) as (f & w & Hf' & _ & ->); [done..|].
  assert (E : fields_text true [e0] = e0) by (cbn [fields_text app]; by rewrite app_nil_r, plain_text).
  rewrite E in *. rewrite read_plain_last; [by rewrite <- app_assoc|done|congruence|lia].
Qed.

(** Doubled quotes are read as the element. *)
Lemma quoted_doubled e t start inQuotes field final :
  t <> [] ->
  quoted_fields (double_quotes e ++ t) start inQuotes field final = quoted_fields t start inQuotes (field ++ e) final.
Proof.
  intros Ht. revert field. induction e as [|c e IH]; intros field; [by rewrite app_nil_r|]. cbn [double_quotes].
  destruct (Z.eqb_spec c 34) as [->|Hc].
  - cbn [app quoted_fields]. change (34 =? 34) with true. change (34 =? 44) with false. cbv iota.
    rewrite bool_decide_false by (intros [_ ?]%app_nil; done). cbn [andb negb]. rewrite IH. by rewrite <- app_assoc.
  - cbn [app quoted_fields]. replace (c =? 34) with false by lia. rewrite IH. by rewrite <- app_assoc.
Qed.

Lemma quoted_no_quote t start inQuotes field final :
  34 ∉ t -> quoted_fields t start inQuotes field final = ([], start, inQuotes, field ++ t, final).
Proof.
  revert field. induction t as [|c t IH]; intros field Hn; cbn [quoted_fields]; [by rewrite app_nil_r|].
  apply not_elem_of_cons in Hn as [H1 H2]. replace (c =? 34) with false by lia. rewrite IH by done. by rewrite <- app_assoc.
Qed.

Lemma plain_no_quote b values : Forall plain values -> 34 ∉ fields_text b values.
Proof.
  intros Hp. revert b. induction Hp as [|e values He Hp IH]; intros b; cbn [fields_text]; [apply not_elem_of_nil|].
  rewrite plain_text by done. destruct He. rewrite !not_elem_of_app. split_and!; [|done|apply IH].
  destruct b; [apply not_elem_of_nil|]. by apply not_elem_of_cons; split; [|apply not_elem_of_nil].
Qed.

(** A quoted field, alone or with plain ones after it. *)
Lemma read_quoted_tail q post fuel start final :
  needsQuotes q = true -> Forall plain post -> ~ ends_empty post ->
  (3 * length (fields_text true (q :: post)) + 3 <= fuel)%nat ->
  read_fields fuel (fields_text true (q :: post)) start false false final = Ret (final ++ q :: post).
Proof.
  intros Hq Hp Hl Hf.
  set (tail := if bool_decide (post = []) then [] else 44 :: fields_text true post).
  assert (Et : fields_text true (q :: post) = 34 :: double_quotes q ++ 34 :: tail).
  { cbn [fields_text]. unfold field_text. rewrite Hq. unfold tail. destruct post as [|e post].
    - cbn [fields_text]. by rewrite !app_nil_r.
    - rewrite fields_text_more by done. rewrite bool_decide_false by done. cbn [app]. by rewrite <- app_assoc. }
  rewrite Et in *. do 2 (destruct fuel as [|fuel]; [cbn [length] in Hf; lia|]).
  cbn [read_fields negb]. change (34 =? 34) with true. cbn [andb negb].
  destruct (double_quotes q ++ 34 :: tail) as [|c rest] eqn:E; [by apply app_nil in E as [_ ?]|]. cbn [read_fields negb].
  rewrite <- E, quoted_doubled, app_nil_l by done. cbn [quoted_fields]. change (34 =? 34) with true. cbv iota.
  unfold tail in *. destruct (bool_decide_reflect (post = [])) as [->|Hne].
  - rewrite bool_decide_true by done. by rewrite read_fields_nil.
  - change (44 =? 44) with true. cbv iota. rewrite quoted_no_quote by by apply plain_no_quote. rewrite app_nil_l.
    rewrite bool_decide_false.
    + rewrite read_plain_all; [by rewrite <- app_assoc|done..|]. rewrite <- E in Hf.
      cbn [length] in Hf. rewrite length_app in Hf. cbn [length] in Hf. lia.
    + destruct post as [|e [|e' post]]; [done| |].
      * cbn [fields_text app]. rewrite app_nil_r, plain_text by by apply Forall_cons in Hp as [? _]. unfold ends_empty in Hl. cbn in Hl. congruence.
      * rewrite fields_text_cons by done. intros [_ ?]%app_nil. done.
Qed.

Lemma plain_needsQuotes e : needsQuotes e = false -> plain e.
Proof.
  unfold needsQuotes. rewrite orb_false_iff. intros [H1 H2].
  assert (Hnone : forall c, has_value (find_char c e) = false -> c ∉ e).
  { intros c. induction e as [|x e IH]; cbn [find_char]; [intros _; apply not_elem_of_nil|]. destruct (Z.eqb_spec x c); [done|].
    intros Hh. apply not_elem_of_cons. split; [done|]. apply IH; [| |by destruct (find_char c e)].
    - revert H1. cbn [find_char]. destruct (x =? 44); [done|]. by destruct (find_char 44 e).
    - revert H2. cbn [find_char]. destruct (x =? 34); [done|]. by destruct (find_char 34 e). }
  by split; apply Hnone.
Qed.

(** The number of elements that are printed in quotes. *)
Definition quoted_count (values : list bytes) : nat := length (filter (fun e => needsQuotes e = true) values).

Lemma quoted_count_plain values : quoted_count values = 0%nat -> Forall plain values.
Proof.
  unfold quoted_count. induction values as [|e values IH]; [by constructor|]. rewrite filter_cons.
  destruct (decide (needsQuotes e = true)) as [|Hn]; [done|]. intros H. constructor; [|by apply IH].
  apply plain_needsQuotes. by destruct (needsQuotes e).
Qed.

Lemma quoted_count_split values :
  (quoted_count values <= 1)%nat ->
  Forall plain values \/ exists pre q post, values = pre ++ q :: post /\ Forall plain pre /\ needsQuotes q = true /\ Forall plain post.
Proof.
  induction values as [|e values IH]; [by left|]. unfold quoted_count. rewrite filter_cons.
  destruct (decide (needsQuotes e = true)) as [Hq|Hn]; cbn [length]; intros H.
  - right. exists [], e, values. split_and!; [done|done|done|]. apply quoted_count_plain. unfold quoted_count. lia.
  - assert (Hp : plain e) by (apply plain_needsQuotes; by destruct (needsQuotes e)).
    destruct IH as [|(pre & q & post & -> & Hpre & Hq & Hpost)]; [unfold quoted_count; lia|left; by constructor|].
    right. exists (e :: pre), q, post. by split_and!; [|constructor|..].
Qed.

Lemma read_fields_text values fuel start :
  (quoted_count values <= 1)%nat -> ~ ends_empty values -> (3 * length (fields_text true values) + 3 <= fuel)%nat ->
  read_fields fuel (fields_text true values) start false false [] = Ret values.
Proof.
  intros [Hp|(pre & q & post & -> & Hpre & Hq & Hpost)]%quoted_count_split Hl Hf; [by apply read_plain_all|].
  destruct (read_plain_prefix pre (q :: post) fuel start false []) as (f & w & Hf' & Hw & ->); [done..|].
  rewrite Hw by done. rewrite app_nil_l. apply read_quoted_tail; [done..| |done].
  intros He. apply Hl. unfold ends_empty in *. rewrite last_app_cons. destruct post as [|e post]; [done|]. by rewrite last_cons_cons.
Qed.

(** What was found is kept. *)
Lemma quoted_fields_final pos start inQuotes field final p s q f fs :
  quoted_fields pos start inQuotes field final = (p, s, q, f, fs) -> exists l, fs = final ++ l.
Proof.
  remember (length pos) as n eqn:Hn. revert pos start inQuotes field final Hn.
  induction (lt_wf n) as [n _ IH]; intros [|c rest] start inQuotes field final ->; cbn [quoted_fields].
  - intros [= <- <- <- <- <-]. exists []. by rewrite app_nil_r.
  - destruct (c =? 34); [destruct rest as [|d rest2]; [intros [= <- <- <- <- <-]; by eexists|]|].
    + destruct (d =? 44); [|destruct (_ && _)].
      * intros E. apply (IH (length rest2)) in E as [l ->]; cbn; [|lia..]. rewrite <- app_assoc. by eexists.
      * intros E. by apply (IH (length rest2)) in E; cbn; [|lia..].
      * intros [= <- <- <- <- <-]. exists []. by rewrite app_nil_r.
    + intros E. by apply (IH (length rest)) in E; cbn; [|lia..].
Qed.

Lemma read_fields_final fuel pos start inQuotes without final r :
  read_fields fuel pos start inQuotes without final = Ret r -> exists l, r = final ++ l.
Proof.
  revert pos start inQuotes without final.
  induction fuel as [|fuel IH]; intros [|c rest] start inQuotes without final; cbn [read_fields]; [|done| |].
  1,2: intros [= <-]; exists []; by rewrite app_nil_r.
  destruct inQuotes; cbn [negb].
  - destruct (quoted_fields _ _ _ _ _) as [[[[p s] q] f] fs] eqn:E. apply quoted_fields_final in E as [l ->].
    destruct (bool_decide _); intros [l' ->]%IH; rewrite <- app_assoc; by eexists.
  - destruct (negb without && _); [apply IH|]. destruct (find_char 44 (c :: rest)) as [n|].
    + intros [l' ->]%IH. rewrite <- app_assoc. by eexists.
    + intros [= <-]. by eexists.
Qed.

(** A list is read back from its text when at most one element has a comma or a
    quote and the last element is not empty; the loops end on every text. *)
Theorem stringlist_roundtrip (values m : list bytes) (text : bytes) :
  (quoted_count values <= 1)%nat -> ~ ends_empty values ->
  STRINGLIST_fromString (STRINGLIST_toString values) m = Ret (values, true) /\
  exists l, STRINGLIST_fromString text m = Ret (l, true).
Proof.
  intros Hq Hl. unfold STRINGLIST_fromString. split.
  - unfold STRINGLIST_toString, STRINGLIST_getValue. by rewrite read_fields_text.
  - destruct (read_fields_fuel (3 * length text + 3) text text false false []) as [l ->]; [by right|cbn; lia|]. by exists l.
Qed.

Lemma stringlist_roundtrip_witness :
  STRINGLIST_toString [bs "red"; [97; 44; 34]; bs "blue"] = bs "red," ++ [34; 97; 44; 34; 34; 34] ++ bs ",blue" /\
  STRINGLIST_fromString (STRINGLIST_toString [bs "red"; [97; 44; 34]; bs "blue"]) [] = Ret ([bs "red"; [97; 44; 34]; bs "blue"], true).
Proof.
  split; [reflexivity|]. apply (stringlist_roundtrip [bs "red"; [97; 44; 34]; bs "blue"] [] []); [vm_compute; lia|by intros [=]].
Defined.

(** Two elements in quotes that follow each other are not read back: after the
    comma the loop is still the one for the inside of quotes, takes the opening
    quote of the second for an error, and reads the second without quotes, so
    that its text starts with a quote. *)
Theorem stringlist_neighbours_lost (q1 q2 : bytes) (c : Z) (m : list bytes) :
  needsQuotes q1 = true -> needsQuotes (c :: q2) = true -> c <> 34 -> c <> 44 ->
  exists x l, STRINGLIST_fromString (STRINGLIST_toString [q1; c :: q2]) m = Ret (q1 :: (34 :: x) :: l, true).
Proof.
  intros H1 H2 Hc1 Hc2. unfold STRINGLIST_fromString, STRINGLIST_toString, STRINGLIST_getValue.
  set (T := 34 :: double_quotes (c :: q2) ++ [34]).
  assert (Et : fields_text true [q1; c :: q2] = 34 :: double_quotes q1 ++ 34 :: 44 :: T).
  { unfold T. cbn [fields_text app]. unfold field_text. rewrite H1, H2, app_nil_r. cbn [app]. by rewrite <- app_assoc. }
  destruct (read_fields_fuel (3 * length (fields_text true [q1; c :: q2]) + 3) (fields_text true [q1; c :: q2])
    (fields_text true [q1; c :: q2]) false false []) as [r Hr]; [by right|cbn [fields_measure]; lia|].
  rewrite Hr. revert Hr. rewrite Et. set (fuel := (3 * _ + 3)%nat). assert (Hf : (3 <= fuel)%nat) by (unfold fuel; lia).
  do 3 (destruct fuel as [|fuel]; [lia|]). cbn [read_fields negb]. change (34 =? 34) with true. cbn [andb negb].
  destruct (double_quotes q1 ++ 34 :: 44 :: T) as [|c' rest] eqn:E; [by apply app_nil in E as [_ ?]|]. cbn [read_fields negb].
  rewrite <- E, quoted_doubled by done. rewrite !app_nil_l. cbn [quoted_fields]. change (34 =? 34) with true. change (44 =? 44) with true.
  cbv iota. rewrite app_nil_l. assert (quoted_fields T T false [] [q1] = (T, T, false, bs "IGN", [q1])) as ->.
  { unfold T. cbn [double_quotes]. replace (c =? 34) with false by lia. cbn [app quoted_fields]. change (34 =? 34) with true. cbv iota.
    replace (c =? 44) with false by lia. by replace (c =? 34) with false by lia. }
  rewrite bool_decide_false by done. unfold T at 1. cbn [read_fields negb andb]. fold T.
  assert (HT : exists y, T = 34 :: y) by by eexists. destruct HT as [y HT]. rewrite HT. cbn [find_char]. change (34 =? 44) with false. cbv iota.
  destruct (find_char 44 y) as [n|] eqn:En; cbn [option_map].
  - apply find_char_bound in En. rewrite ztake_cons by lia. intros [l ->]%read_fields_final. exists (ztake (1 + n - 1) y), l. done.
  - intros [= <-]. by exists y, [].
Qed.

Lemma stringlist_neighbours_lost_witness :
  exists x l, STRINGLIST_fromString (STRINGLIST_toString [bs "a,b"; bs "c,d"]) [] = Ret (bs "a,b" :: (34 :: x) :: l, true).
Proof. apply (stringlist_neighbours_lost (bs "a,b") (bs ",d") 99 []); [reflexivity|reflexivity|lia|lia]. Defined.
