(* ===== verification/VarNet.v ===== *)
(** * Abstract variables: network addresses (Memory/a_ipv4, a_ipv6, a_macaddr)

    An [in_addr] is its member [s_addr], an [uint32_t] that holds the four
    bytes of the address in the order of memory: on a little-endian machine,
    which the model is of, the first byte is the lowest.  [inet_ntop] and
    [inet_pton] are parameters. *)

From S2P Require Import Prelude SafeInt CLib Jwt VarData.
From Stdlib Require Import ZArith Lia.
#[local] Open Scope Z_scope.

Class InetLib := {
  inet_ntop4 : Z -> bytes;
  inet_pton4 : bytes -> option Z;
  inet_ntop6 : bytes -> bytes;
  inet_pton6 : bytes -> option bytes }.

(** [htonl] of a little-endian machine. *)
Definition htonl (x : Z) : Z :=
  Z.land x 255 * 16777216 + Z.land (Z.shiftr x 8) 255 * 65536 + Z.land (Z.shiftr x 16) 255 * 256 + Z.land (Z.shiftr x 24) 255.

Section Net.
Context {D J : Type} `{!JsonCpp J} `{!InetLib}.

(** ** IPV4 *)

(** The loop doubles the result, whatever the base. *)
Definition u64pow (base exponent : Z) : Z :=
  if exponent =? 0 then 1 else Nat.iter (Z.to_nat (exponent - 1)) (fun result => wrap (result * 2)) base.

Definition ipv4_toString (value cidrMask : Z) : bytes :=
  inet_ntop4 value ++ (if cidrMask =? 32 then [] else bs "/" ++ to_string cidrMask).

(** The address and [*ok]; nothing was stored in the address when the text is no address. *)
Definition ipv4_fromString (value : bytes) : Z * bool :=
  match value with
  | [] => (0, true)
  | _ => match inet_pton4 (c_str value) with Some a => (a, true) | None => (0, false) end
  end.

Definition ipv4_fromStringWithNetmask (value : bytes) : Z * Z * bool :=
  match find_char 47 value with
  | None => let '(a, ok) := ipv4_fromString value in (a, 32, ok)
  | Some slash =>
      let detectedNetmask := zdrop (slash + 1) value in
      if negb (zlen detectedNetmask =? 1) && negb (zlen detectedNetmask =? 2) then (0, 0, false)
      else
        let mask := convert u8 (strtoul 10 detectedNetmask).1 in
        if mask >? 32 then (0, 0, false)
        else let '(a, ok) := ipv4_fromString (ztake slash value) in (a, mask, ok)
  end.

(** [_fromCIDRMask]: the mask, and [*ok]. *)
Definition fromCIDRMask (value : Z) : Z * bool :=
  if value <=? 32 then (wrapw 32 (u64pow 2 value - 1), true) else ((ipv4_fromString (bs "0.0.0.0")).1, false).

(** The texts of [_toCIDRMask], in its order. *)
Definition mask_texts : list (bytes * Z) :=
  [(bs "255.255.255.255", 32); (bs "255.255.255.254", 31); (bs "255.255.255.252", 30); (bs "255.255.255.248", 29);
   (bs "255.255.255.240", 28); (bs "255.255.255.224", 27); (bs "255.255.255.192", 26); (bs "255.255.255.128", 25);
   (bs "255.255.255.0", 24); (bs "255.255.254.0", 23); (bs "255.255.252.0", 22); (bs "255.255.248.0", 21);
   (bs "255.255.240.0", 20); (bs "255.255.224.0", 19); (bs "255.255.192.0", 18); (bs "255.255.128.0", 17);
   (bs "255.255.0.0", 16); (bs "255.254.0.0", 15); (bs "255.252.0.0", 14); (bs "255.248.0.0", 13);
   (bs "255.240.0.0", 12); (bs "255.224.0.0", 11); (bs "255.192.0.0", 10); (bs "255.128.0.0", 9);
   (bs "255.0.0.0", 8); (bs "254.0.0.0", 7); (bs "252.0.0.0", 6); (bs "248.0.0.0", 5);
   (bs "240.0.0.0", 4); (bs "224.0.0.0", 3); (bs "192.0.0.0", 2); (bs "128.0.0.0", 1); (bs "0.0.0.0", 0)].

Definition toCIDRMask (value : Z) : Z :=
  match mm_find (ipv4_toString value 32) mask_texts with Some n => n | None => 255 end.

(** [_matchRange] of an address with a mask. *)
Definition match_range (haystack cidr needle : Z) : bool :=
  if cidr >? 32 then false
  else
    let baseNetmask := htonl (wrapw 32 (u64pow 2 cidr - 1)) in
    let cmp01 := Z.land (htonl haystack) baseNetmask in
    let cmp02 := Z.land (htonl needle) baseNetmask in
    cmp01 =? cmp02.

(** [_matchRange] of texts. *)
Definition match_range_text (haystack : bytes) (needle : Z) : bool :=
  let '(a, mask, ok) := ipv4_fromStringWithNetmask haystack in
  if ok then match_range a mask needle else false.
Definition match_range_texts (haystack needle : bytes) : bool :=
  let '(aNeedle, ok) := ipv4_fromString needle in
  if ok then match_range_text haystack aNeedle else false.

Definition IPV4_new : Var D := construct IPV4 (oIPV4 (mkIpv4 0 32)).
Definition IPV4_getValue (m : Ipv4) : Z := ip_value m.
Definition IPV4_getCidrMask (m : Ipv4) : Z := ip_cidrMask m.
Definition IPV4_setValue (value cidrMask : Z) (m : Ipv4) : Ipv4 * bool := (mkIpv4 value cidrMask, true).
Definition IPV4_assign (value : Z) (m : Ipv4) : Ipv4 := (IPV4_setValue value 32 m).1.
Definition IPV4_of (value cidrMask : Z) : Var D := construct IPV4 (oIPV4 (IPV4_setValue value cidrMask (mkIpv4 0 32)).1).
Definition IPV4_of_text (value : bytes) : Var D :=
  let '(a, mask, _) := ipv4_fromStringWithNetmask value in construct IPV4 (oIPV4 (IPV4_setValue a mask (mkIpv4 0 32)).1).

(** The mask is not part of the text. *)
Definition IPV4_toString (m : Ipv4) : bytes := ipv4_toString (IPV4_getValue m) 32.
Definition IPV4_fromString (value : bytes) (m : Ipv4) : Ipv4 * bool :=
  let '(a, mask, r) := ipv4_fromStringWithNetmask value in ((IPV4_setValue a mask m).1, r).
Definition IPV4_matchRange (value : Z) (m : Ipv4) : bool := match_range (IPV4_getValue m) (IPV4_getCidrMask m) value.
Definition IPV4_matchRange_text (value : bytes) (m : Ipv4) : bool := IPV4_matchRange (ipv4_fromString value).1 m.
Definition IPV4_protectedCopy (m : Ipv4) : Var D :=
  setObject (oIPV4 (IPV4_setValue (IPV4_getValue m) (IPV4_getCidrMask m) (mkIpv4 0 32)).1) IPV4_new.
Definition IPV4_toJSON (null : bool) (m : Ipv4) : J := if null then json_null else json_string (IPV4_toString m).
Definition IPV4_fromJSON (value : J) (m : Ipv4) : Ipv4 * bool := IPV4_fromString (ASSTRING_D value (bs "0.0.0.0")) m.

(** ** IPV6: the sixteen bytes of the address *)
Definition ipv6_zero : bytes := replicate 16 0.
Definition ipv6_toString (value : bytes) : bytes := inet_ntop6 value.
Definition ipv6_fromString (value : bytes) : bytes * bool :=
  match value with
  | [] => (ipv6_zero, true)
  | _ => match inet_pton6 (c_str value) with Some a => (a, true) | None => (ipv6_zero, false) end
  end.

Definition IPV6_new : Var D := construct IPV6 (oIPV6 ipv6_zero).
Definition IPV6_getValue (m_value : bytes) : bytes := m_value.
Definition IPV6_setValue (value m_value : bytes) : bytes * bool := (value, true).
Definition IPV6_assign (value m_value : bytes) : bytes := (IPV6_setValue value m_value).1.
Definition IPV6_of (value : bytes) : Var D := construct IPV6 (oIPV6 (IPV6_setValue value ipv6_zero).1).
Definition IPV6_of_text (value : bytes) : Var D :=
  construct IPV6 (oIPV6 (IPV6_setValue (ipv6_fromString value).1 ipv6_zero).1).
Definition IPV6_toString (m_value : bytes) : bytes := ipv6_toString (IPV6_getValue m_value).
Definition IPV6_fromString (value m_value : bytes) : bytes * bool :=
  let '(ipaddr, r) := ipv6_fromString value in ((IPV6_setValue ipaddr m_value).1, r).
Definition IPV6_protectedCopy (m_value : bytes) : Var D := setObject (oIPV6 (IPV6_assign (IPV6_getValue m_value) ipv6_zero)) IPV6_new.
Definition IPV6_toJSON (null : bool) (m_value : bytes) : J := if null then json_null else json_string (IPV6_toString m_value).
Definition IPV6_fromJSON (value : J) (m_value : bytes) : bytes * bool := IPV6_fromString (ASSTRING_D value (bs "0.0.0.0")) m_value.

(** ** MACADDR *)

(** The conversion [%02X] of [sscanf]: the value and the rest of the text.  At
    most two characters after the spaces: a sign, a prefix 0x (which leaves no
    digit) and hexadecimal digits. *)
Definition scan_hex2 (str : bytes) : option (Z * bytes) :=
  let s := skip_space str in
  let window := ztake 2 s in
  let '(neg, t) := read_sign window in
  let prefix := match t with z :: x :: _ => (z =? 48) && (toupper x =? 88) | _ => false end in
  if has_digit 16 t && negb prefix then
    let '(v, rest) := read_digits 16 0 t in
    Some (if neg then wrapw 32 (- v) else v, zdrop (zlen window - zlen rest) s)
  else None.

(** A character of the format. *)
Definition scan_char (c : Z) (str : bytes) : option bytes :=
  match str with x :: str => if x =? c then Some str else None | [] => None end.

(** [sscanf] of six numbers with separators, when it returns 6. *)
Definition scan_mac (sep : Z) (str : bytes) : option (list Z) :=
  '(a, str) ← scan_hex2 str; str ← scan_char sep str;
  '(b, str) ← scan_hex2 str; str ← scan_char sep str;
  '(c, str) ← scan_hex2 str; str ← scan_char sep str;
  '(d, str) ← scan_hex2 str; str ← scan_char sep str;
  '(e, str) ← scan_hex2 str; str ← scan_char sep str;
  '(f, _) ← scan_hex2 str; Some [a; b; c; d; e; f].

Definition mac_zero : bytes := replicate 6 0.

(** [_fromString]: the six bytes of [dst], and the result.  The four formats of
    the code are two, each with [%X] and [%x], which convert alike. *)
Definition mac_fromString (src : bytes) : bytes * bool :=
  let first := match scan_mac 58 (c_str src) with Some v => Some v | None => scan_mac 58 (c_str src) end in
  let second := match scan_mac 45 (c_str src) with Some v => Some v | None => scan_mac 45 (c_str src) end in
  match (match first with Some v => Some v | None => second end) with
  | Some v => (map (fun x => safe_cast_or u8 u32 x 0) v, true)
  | None => (mac_zero, false)
  end.

Definition mac_fromHASH (src : Z) : bytes :=
  [Z.land (Z.shiftr src 56) 255; Z.land (Z.shiftr src 48) 255; Z.land (Z.shiftr src 40) 255;
   Z.land (Z.shiftr src 32) 255; Z.land (Z.shiftr src 24) 255; Z.land (Z.shiftr src 16) 255].

(** The byte [value[i]]. *)
Definition mac_byte (value : bytes) (i : nat) : Z := nth i value 0.

Definition mac_toHash (value : bytes) : Z :=
  let hash := 0 in
  let hash := Z.lor hash (wrap (Z.shiftl (mac_byte value 0) 56)) in
  let hash := Z.lor hash (wrap (Z.shiftl (mac_byte value 1) 48)) in
  let hash := Z.lor hash (wrap (Z.shiftl (mac_byte value 2) 40)) in
  let hash := Z.lor hash (wrap (Z.shiftl (mac_byte value 3) 32)) in
  let hash := Z.lor hash (wrap (Z.shiftl (mac_byte value 4) 24)) in
  let hash := Z.lor hash (wrap (Z.shiftl (mac_byte value 5) 16)) in
  hash.

Definition hex2 (b : Z) : bytes := pad_zeros 2 (print_X b).

Definition mac_toString (value : bytes) : bytes :=
  hex2 (mac_byte value 0) ++ [58] ++ hex2 (mac_byte value 1) ++ [58] ++ hex2 (mac_byte value 2) ++ [58] ++
  hex2 (mac_byte value 3) ++ [58] ++ hex2 (mac_byte value 4) ++ [58] ++ hex2 (mac_byte value 5).

Definition mac_fromStringToHASH (value : bytes) : Z * bool :=
  let '(m, okv) := mac_fromString value in (mac_toHash m, okv).
Definition mac_fromHASHToString (value : Z) : bytes := mac_toString (mac_fromHASH value).

Definition MACADDR_new : Var D := construct MACADDR (oMACADDR mac_zero).
Definition MACADDR_getValue (m_macaddr : bytes) : bytes := m_macaddr.
(** The six bytes at the pointer. *)
Definition MACADDR_setValue (macaddr m_macaddr : bytes) : bytes * bool := (ztake 6 macaddr, true).
Definition MACADDR_assign (value m_macaddr : bytes) : bytes := (MACADDR_setValue value m_macaddr).1.
Definition MACADDR_of (macaddr : bytes) : Var D := construct MACADDR (oMACADDR (MACADDR_setValue macaddr mac_zero).1).
Definition MACADDR_of_text (value : bytes) : Var D := construct MACADDR (oMACADDR (mac_fromString value).1).
Definition MACADDR_of_hash (value : Z) : Var D := construct MACADDR (oMACADDR (mac_fromHASH value)).
Definition MACADDR_toString (m_macaddr : bytes) : bytes := mac_toString (MACADDR_getValue m_macaddr).
Definition MACADDR_fromString (value m_macaddr : bytes) : bytes * bool :=
  let '(m, r) := mac_fromString value in ((MACADDR_setValue m m_macaddr).1, r).
Definition MACADDR_protectedCopy (m_macaddr : bytes) : Var D :=
  setObject (oMACADDR (MACADDR_assign (MACADDR_getValue m_macaddr) mac_zero)) MACADDR_new.
Definition MACADDR_toJSON (null : bool) (m_macaddr : bytes) : J := if null then json_null else json_string (MACADDR_toString m_macaddr).
Definition MACADDR_fromJSON (value : J) (m_macaddr : bytes) : bytes * bool := MACADDR_fromString (ASSTRING_D value (bs "0.0.0.0")) m_macaddr.
End Net.

(** ** Ranges of addresses *)

(** The address with the bytes [a.b.c.d]. *)
Definition address (a b c d : Z) : Z := a + 256 * (b + 256 * (c + 256 * d)).

Lemma land_byte_step a b x y :
  0 <= a < 256 -> 0 <= b < 256 -> Z.land (a + 256 * x) (b + 256 * y) = Z.land a b + 256 * Z.land x y.
Proof.
  intros Ha Hb.
  assert (E : forall u v, 0 <= u < 256 -> u + 256 * v = Z.lor (Z.shiftl v 8) u).
  { intros u v Hu. rewrite lor_shiftl_add by lia. lia. }
  assert (0 <= Z.land a b < 256) as Hab.
  { split; [apply Z.land_nonneg; lia|]. change 256 with (2 ^ 8). pose proof (Z.land_nonneg a b).
    destruct (Z.eq_dec (Z.land a b) 0) as [->|]; [lia|]. apply Z.log2_lt_pow2; [lia|]. eapply Z.le_lt_trans; [apply Z.log2_land; lia|].
    destruct (Z.eq_dec a 0) as [->|]; [rewrite Z.land_0_l in *; lia|]. apply Z.min_lt_iff. left. apply Z.log2_lt_pow2; lia. }
  rewrite !E by lia. apply Z.bits_inj'. intros n Hn. rewrite !Z.land_spec, !Z.lor_spec, Z.land_spec.
  assert (Hhi : forall u, 0 <= u < 256 -> 8 <= n -> Z.testbit u n = false).
  { intros u Hu H8. destruct (Z.eq_dec u 0) as [->|]; [apply Z.bits_0|]. apply Z.bits_above_log2; [lia|].
    apply Z.lt_le_trans with 8; [|lia]. apply Z.log2_lt_pow2; lia. }
  destruct (Z.le_gt_cases 8 n) as [H8|H8].
  - rewrite !Z.shiftl_spec, Z.land_spec by lia. by rewrite !Hhi, !orb_false_r.
  - rewrite !Z.shiftl_spec_low by lia. by rewrite !orb_false_l.
Qed.

Lemma land_address a b c d a' b' c' d' :
  is_byte a -> is_byte b -> is_byte c -> is_byte a' -> is_byte b' -> is_byte c' ->
  Z.land (address a b c d) (address a' b' c' d') = address (Z.land a a') (Z.land b b') (Z.land c c') (Z.land d d').
Proof. unfold is_byte, address. intros. by rewrite !land_byte_step by lia. Qed.

Lemma byte_of_address x y : 0 <= x < 256 -> Z.land (x + 256 * y) 255 = x.
Proof. intros Hx. change 255 with (Z.ones 8). rewrite Z.land_ones by lia. change (2 ^ 8) with 256. rewrite Z.mul_comm, Z.mod_add by lia. by apply Z.mod_small. Qed.

Lemma shift_address x y : 0 <= x < 256 -> Z.shiftr (x + 256 * y) 8 = y.
Proof. intros Hx. rewrite Z.shiftr_div_pow2 by lia. change (2 ^ 8) with 256. rewrite Z.mul_comm, Z.div_add by lia. rewrite Z.div_small by lia. lia. Qed.

Lemma htonl_address a b c d : is_byte a -> is_byte b -> is_byte c -> is_byte d -> htonl (address a b c d) = address d c b a.
Proof.
  unfold is_byte, htonl, address. intros Ha Hb Hc Hd. change 16 with (8 + 8). change 24 with (8 + 8 + 8).
  rewrite <- !Z.shiftr_shiftr by lia. rewrite !shift_address, !byte_of_address by lia.
  replace d with (d + 256 * 0) at 1 by lia. rewrite byte_of_address by lia. lia.
Qed.

Lemma address_inj a b c d a' b' c' d' :
  is_byte a -> is_byte b -> is_byte c -> is_byte a' -> is_byte b' -> is_byte c' ->
  address a b c d = address a' b' c' d' -> a = a' /\ b = b' /\ c = c' /\ d = d'.
Proof. unfold is_byte, address. lia. Qed.

Lemma land_255 x : is_byte x -> Z.land x 255 = x.
Proof. intros Hx. replace x with (x + 256 * 0) at 1 by lia. by apply byte_of_address. Qed.

(** The first [8 * k] bits of an address are its first [k] bytes. *)
Definition network_prefix (k : nat) (ip : list Z) : list Z := take k ip.
Definition address_of (ip : list Z) : Z := address (nth 0 ip 0) (nth 1 ip 0) (nth 2 ip 0) (nth 3 ip 0).

Lemma match_range_bytes k a b c d a' b' c' d' :
  (k <= 4)%nat -> Forall is_byte [a; b; c; d; a'; b'; c'; d'] ->
  match_range (address a b c d) (8 * Z.of_nat k) (address a' b' c' d') =
  bool_decide (network_prefix k [a; b; c; d] = network_prefix k [a'; b'; c'; d']).
Proof.
  intros Hk Hb. repeat (apply Forall_cons in Hb as [? Hb]).
  assert (Hm : exists m1 m2 m3 m4, htonl (wrapw 32 (u64pow 2 (8 * Z.of_nat k) - 1)) = address m4 m3 m2 m1 /\
    map (fun m => bool_decide (m = 255)) [m1; m2; m3; m4] = take 4 (replicate k true ++ replicate 4 false) /\
    Forall (fun m => m = 0 \/ m = 255) [m1; m2; m3; m4]).
  { destruct k as [|[|[|[|[|k]]]]]; [| | | | |lia];
      [exists 0, 0, 0, 0|exists 255, 0, 0, 0|exists 255, 255, 0, 0|exists 255, 255, 255, 0|exists 255, 255, 255, 255];
      (split_and!; [reflexivity|reflexivity|]; repeat first [apply Forall_nil_2 | apply Forall_cons_2]; auto). }
  destruct Hm as (m1 & m2 & m3 & m4 & Em & Et & Hm). repeat (apply Forall_cons in Hm as [? Hm]).
  unfold match_range. replace (8 * Z.of_nat k >? 32) with false by lia. rewrite Em, !htonl_address by done.
  assert (forall m, m = 0 \/ m = 255 -> is_byte m) as Hmb by (unfold is_byte; lia).
  rewrite !land_address by auto. apply eq_true_iff_eq. rewrite Z.eqb_eq, bool_decide_eq_true.
  assert (Hl : forall x m, is_byte x -> m = 0 \/ m = 255 -> is_byte (Z.land x m)).
  { intros x m Hx [->| ->]; [rewrite Z.land_0_r; unfold is_byte; lia|by rewrite land_255]. }
  assert (Hm1 : forall m, m = 0 \/ m = 255 -> bool_decide (m = 255) = true -> m = 255) by (intros m _ E; by apply bool_decide_eq_true in E).
  assert (Hm0 : forall m, m = 0 \/ m = 255 -> bool_decide (m = 255) = false -> m = 0) by (intros m [->| ->]; [done|intros E; by apply bool_decide_eq_false in E]).
  split.
  - intros (E4 & E3 & E2 & E1)%address_inj; [|by auto..].
    destruct k as [|[|[|[|[|k]]]]]; [| | | | |lia]; injection Et as T1 T2 T3 T4; unfold network_prefix; cbn [take]; [done|..];
      repeat match goal with T : bool_decide (?m = 255) = true |- _ => apply Hm1 in T; [subst m|done] end;
      rewrite !land_255 in * by done; congruence.
  - intros E. destruct k as [|[|[|[|[|k]]]]]; [| | | | |lia]; injection Et as T1 T2 T3 T4; unfold network_prefix in E; cbn [take] in E;
      repeat match goal with T : bool_decide (?m = 255) = false |- _ => apply Hm0 in T; [subst m|done] end;
      rewrite ?Z.land_0_r; by simplify_eq.
Qed.

(** A range whose mask is whole bytes contains the addresses that start with
    the same bytes, and no others. *)
Theorem ipv4_match_whole_bytes (k : nat) (base ip : list Z) :
  (k <= 4)%nat -> length base = 4%nat -> length ip = 4%nat -> Forall is_byte (base ++ ip) ->
  match_range (address_of base) (8 * Z.of_nat k) (address_of ip) = bool_decide (network_prefix k base = network_prefix k ip).
Proof.
  intros Hk Hb Hi Hf. destruct base as [|a [|b [|c [|d [|? ?]]]]]; try done. destruct ip as [|a' [|b' [|c' [|d' [|? ?]]]]]; try done.
  by apply match_range_bytes.
Qed.

Lemma ipv4_match_whole_bytes_witness :
  match_range (address_of [192; 168; 7; 0]) 24 (address_of [192; 168; 7; 200]) = true /\
  match_range (address_of [192; 168; 7; 0]) (8 * Z.of_nat 3) (address_of [192; 168; 8; 200]) = bool_decide ([192; 168; 7] = [192; 168; 8]).
Proof.
  split; [reflexivity|]. apply (ipv4_match_whole_bytes 3 [192; 168; 7; 0] [192; 168; 8; 200]); [lia|done|done|].
  apply (bool_decide_unpack _). vm_compute. exact I.
Defined.

(** The addresses that have the first [cidr] bits of the network. *)
Definition in_network (base cidr ip : Z) : bool := Z.shiftr (htonl base) (32 - cidr) =? Z.shiftr (htonl ip) (32 - cidr).

(** For a mask that is not whole bytes the bits of the last byte are taken from
    its wrong end: addresses of the network are refused, and addresses outside
    of it are accepted; the mask that [_fromCIDRMask] makes is none that
    [_toCIDRMask] knows. *)
Theorem ipv4_match_part_of_byte (cidr : Z) :
  0 < cidr < 32 -> cidr mod 8 <> 0 ->
  (exists inside, 0 <= inside < 2 ^ 32 /\ in_network 0 cidr inside = true /\ match_range 0 cidr inside = false) /\
  (exists outside, 0 <= outside < 2 ^ 32 /\ in_network 0 cidr outside = false /\ match_range 0 cidr outside = true).
Proof.
  intros Hc Hm. set (i := 2 ^ (8 * (cidr / 8))). set (o := 128 * 2 ^ (8 * (cidr / 8))).
  pose (test := fun c => (c =? 0) || (c mod 8 =? 0) ||
    (let i := 2 ^ (8 * (c / 8)) in let o := 128 * 2 ^ (8 * (c / 8)) in
     (0 <=? i) && (i <? 2 ^ 32) && (in_network 0 c i) && negb (match_range 0 c i) &&
     (0 <=? o) && (o <? 2 ^ 32) && negb (in_network 0 c o) && match_range 0 c o)).
  assert (Ht : test cidr = true) by (apply (bounded_forall 32 test cidr); [vm_compute; reflexivity|lia]).
  unfold test in Ht. replace (cidr =? 0) with false in Ht by lia. replace (cidr mod 8 =? 0) with false in Ht by lia.
  rewrite !orb_false_l, !andb_true_iff, !negb_true_iff in Ht. fold i o in Ht.
  split; [exists i|exists o]; split_and!; try lia; tauto.
Qed.

Lemma ipv4_match_part_of_byte_witness :
  match_range (address_of [10; 0; 0; 0]) 9 (address_of [10; 1; 0; 0]) = false /\
  match_range (address_of [10; 0; 0; 0]) 9 (address_of [10; 128; 0; 0]) = true /\
  (exists inside, 0 <= inside < 2 ^ 32 /\ in_network 0 9 inside = true /\ match_range 0 9 inside = false) /\
  (exists outside, 0 <= outside < 2 ^ 32 /\ in_network 0 9 outside = false /\ match_range 0 9 outside = true).
Proof. split; [reflexivity|]. split; [reflexivity|]. apply (ipv4_match_part_of_byte 9); [lia|done]. Defined.

(** The documented texts of [inet_ntop], which [inet_pton] reads. *)
Class InetLaws `{!InetLib} : Prop := {
  ntop4_text a b c d : is_byte a -> is_byte b -> is_byte c -> is_byte d ->
    inet_ntop4 (address a b c d) = to_string a ++ bs "." ++ to_string b ++ bs "." ++ to_string c ++ bs "." ++ to_string d;
  pton4_ntop4 a : 0 <= a < 2 ^ 32 -> inet_pton4 (inet_ntop4 a) = Some a;
  pton6_ntop6 a : length a = 16%nat -> Forall is_byte a -> inet_pton6 (inet_ntop6 a) = Some a;
  ntop6_text a : length a = 16%nat -> Forall is_byte a -> inet_ntop6 a <> [] /\ (0 ∉ inet_ntop6 a) }.

Section Texts.
Context `{InetLaws}.

(** The four bytes of an address. *)
Lemma address_split a : 0 <= a < 2 ^ 32 -> exists b0 b1 b2 b3, is_byte b0 /\ is_byte b1 /\ is_byte b2 /\ is_byte b3 /\ a = address b0 b1 b2 b3.
Proof.
  intros Ha. exists (a mod 256), (a / 256 mod 256), (a / 65536 mod 256), (a / 16777216).
  unfold is_byte, address. change (2 ^ 32) with 4294967296 in Ha.
  pose proof (Z.mod_pos_bound a 256). pose proof (Z.mod_pos_bound (a / 256) 256). pose proof (Z.mod_pos_bound (a / 65536) 256).
  pose proof (Z.div_mod a 256). pose proof (Z.div_mod (a / 256) 256). pose proof (Z.div_mod (a / 65536) 256).
  assert (a / 256 / 256 = a / 65536) by (by rewrite Z.div_div by lia).
  assert (a / 65536 / 256 = a / 16777216) by (by rewrite Z.div_div by lia).
  assert (0 <= a / 16777216 < 256) by (split; [apply Z.div_pos; lia|apply Z.div_lt_upper_bound; lia]).
  split_and!; try lia.
Qed.

Lemma decimal_chars n c : 0 <= n -> c ∈ to_string n -> 48 <= c <= 57.
Proof.
  intros Hn Hc. pose proof (print_base_chars 10 n) as Hf. rewrite Forall_forall in Hf.
  destruct (Hf ltac:(lia) Hn c Hc) as (d & -> & Hd). unfold digit_char. replace (d <? 10) with true by lia. lia.
Qed.

Lemma ntop4_chars a c : 0 <= a < 2 ^ 32 -> c ∈ inet_ntop4 a -> c = 46 \/ 48 <= c <= 57.
Proof.
  intros (b0 & b1 & b2 & b3 & ? & ? & ? & ? & ->)%address_split. rewrite ntop4_text by done. unfold is_byte in *.
  change (bs ".") with [46]. rewrite !elem_of_app, !list_elem_of_singleton.
  intros [Hc|[Hc|[Hc|[Hc|[Hc|[Hc|Hc]]]]]]; auto; right; eapply decimal_chars; eauto; lia.
Qed.

Lemma ntop4_clean a : 0 <= a < 2 ^ 32 -> inet_ntop4 a <> [] /\ (47 ∉ inet_ntop4 a) /\ c_str (inet_ntop4 a) = inet_ntop4 a.
Proof.
  intros Ha. split_and!.
  - pose proof (address_split a Ha) as (b0 & b1 & b2 & b3 & ? & ? & ? & ? & ->). rewrite ntop4_text by done.
    intros [_ [? _]%app_nil]%app_nil. done.
  - intros Hc%ntop4_chars; [lia|done].
  - apply c_str_nul_free. intros Hc%ntop4_chars; [lia|done].
Qed.

Lemma ipv4_text_read a : 0 <= a < 2 ^ 32 -> ipv4_fromString (inet_ntop4 a) = (a, true).
Proof.
  intros Ha. destruct (ntop4_clean a Ha) as (Hne & _ & Hc). unfold ipv4_fromString.
  destruct (inet_ntop4 a) as [|c s] eqn:E; [done|]. rewrite Hc, <- E. by rewrite pton4_ntop4.
Qed.

(** An address is read back from its text. *)
Lemma ipv4_text_roundtrip a : 0 <= a < 2 ^ 32 -> ipv4_fromStringWithNetmask (ipv4_toString a 32) = (a, 32, true).
Proof.
  intros Ha. destruct (ntop4_clean a Ha) as (_ & Hs & _). unfold ipv4_toString, ipv4_fromStringWithNetmask. cbn [Z.eqb Pos.eqb].
  by rewrite app_nil_r, find_char_none, ipv4_text_read by done.
Qed.

(** With a mask: the text has it, and it is read. *)
Lemma ipv4_masked_roundtrip a mask : 0 <= a < 2 ^ 32 -> 0 <= mask < 32 -> ipv4_fromStringWithNetmask (ipv4_toString a mask) = (a, mask, true).
Proof.
  intros Ha Hm. destruct (ntop4_clean a Ha) as (_ & Hs & _). unfold ipv4_toString, ipv4_fromStringWithNetmask.
  replace (mask =? 32) with false by lia. change (bs "/" ++ to_string mask) with (47 :: to_string mask). rewrite find_char_split by done.
  pose proof (zlen_nonneg (inet_ntop4 a)). rewrite zdrop_app_ge by lia. replace (zlen (inet_ntop4 a) + 1 - zlen (inet_ntop4 a)) with 1 by lia.
  rewrite zdrop_cons, zdrop_le0 by lia.
  assert (Hl : negb (zlen (to_string mask) =? 1) && negb (zlen (to_string mask) =? 2) = false).
  { apply negb_true_iff. apply (bounded_forall 32 (fun m => negb (negb (zlen (to_string m) =? 1) && negb (zlen (to_string m) =? 2))) mask);
      [vm_compute; reflexivity|lia]. }
  rewrite Hl. unfold to_string. rewrite strtoul_print by (unfold ULONG_MAX, SIZE_MAX, SIZE_MOD; lia). cbn [fst].
  assert (convert u8 mask = mask) as ->.
  { unfold convert, wrapw. cbn [is_signed u8 ty_bits andb]. by rewrite Z.mod_small by lia. }
  replace (mask >? 32) with false by lia. rewrite ztake_app_ge, Z.sub_diag, ztake_le0, app_nil_r by lia.
  by rewrite ipv4_text_read.
Qed.
End Texts.

(** ** Open masks *)

(** A text with a mask of one or two characters that do not start a number is
    accepted as the mask of no bits, which every address matches. *)
Theorem ipv4_word_mask_matches_all `{!InetLib} (net mask : bytes) (a needle : Z) :
  47 ∉ net -> ipv4_fromString net = (a, true) -> zlen mask = 1 \/ zlen mask = 2 -> (strtoul 10 mask).2 = None ->
  match_range_text (net ++ [47] ++ mask) needle = true.
Proof.
  intros Hs Hn Hl Hm. unfold match_range_text, ipv4_fromStringWithNetmask. cbn [app]. rewrite find_char_split by done.
  pose proof (zlen_nonneg net). rewrite zdrop_app_ge by lia. replace (zlen net + 1 - zlen net) with 1 by lia.
  rewrite zdrop_cons, zdrop_le0 by lia.
  assert (negb (zlen mask =? 1) && negb (zlen mask =? 2) = false) as -> by lia.
  assert ((strtoul 10 mask).1 = 0) as ->.
  { revert Hm. unfold strtoul. destruct (read_sign _) as [neg t]. destruct (has_digit _ _); [|done].
    by destruct (read_digits _ _ _). }
  rewrite ztake_app_ge, Z.sub_diag, ztake_le0, app_nil_r, Hn by lia. change (convert u8 0) with 0. cbn [Z.gtb Z.compare].
  unfold match_range. cbn [Z.gtb Z.compare]. change (htonl (wrapw 32 (u64pow 2 0 - 1))) with 0. by rewrite !Z.land_0_r.
Qed.

(** ** Masks as numbers and as addresses *)

(** The bytes of the mask that [_fromCIDRMask] makes. *)
Definition mask_byte (cidr i : Z) : Z := Z.land (Z.shiftr (wrapw 32 (u64pow 2 cidr - 1)) (8 * i)) 255.

Definition mask_text (cidr : Z) : bytes :=
  to_string (mask_byte cidr 0) ++ bs "." ++ to_string (mask_byte cidr 1) ++ bs "." ++ to_string (mask_byte cidr 2) ++ bs "." ++
  to_string (mask_byte cidr 3).

Lemma mask_bytes `{!InetLib} cidr :
  0 <= cidr <= 32 ->
  (fromCIDRMask cidr).1 = address (mask_byte cidr 0) (mask_byte cidr 1) (mask_byte cidr 2) (mask_byte cidr 3) /\
  Forall is_byte [mask_byte cidr 0; mask_byte cidr 1; mask_byte cidr 2; mask_byte cidr 3].
Proof.
  intros Hc. unfold mask_byte, fromCIDRMask. replace (cidr <=? 32) with true by lia. cbn [fst].
  pose (P := fun c => let m := wrapw 32 (u64pow 2 c - 1) in let byte := fun i => Z.land (Z.shiftr m (8 * i)) 255 in
    (m =? address (byte 0) (byte 1) (byte 2) (byte 3)) && forallb (fun b => (0 <=? b) && (b <? 256)) [byte 0; byte 1; byte 2; byte 3]).
  assert (HP : P cidr = true) by (apply (bounded_forall 33 P cidr); [vm_compute; reflexivity|lia]).
  unfold P in HP. apply andb_true_iff in HP as [HP1%Z.eqb_eq HP2]. split; [exact HP1|].
  cbn [forallb] in HP2. rewrite !andb_true_iff in HP2. repeat (apply Forall_cons_2; [unfold is_byte; lia|]). apply Forall_nil_2.
Qed.

(** Only the masks of whole bytes come back: the others are no mask that
    [_toCIDRMask] knows. *)
Lemma cidr_mask_roundtrip `{InetLaws} cidr : 0 <= cidr <= 32 -> toCIDRMask (fromCIDRMask cidr).1 = if cidr mod 8 =? 0 then cidr else 255.
Proof.
  intros Hc. destruct (mask_bytes cidr Hc) as [Em Hb]. repeat (apply Forall_cons in Hb as [? Hb]).
  unfold toCIDRMask, ipv4_toString. rewrite Em, ntop4_text by done. cbn [Z.eqb Pos.eqb]. rewrite app_nil_r. fold (mask_text cidr).
  unfold mask_text, mask_byte. clear -Hc.
  pose (Q := fun c => let m := wrapw 32 (u64pow 2 c - 1) in let byte := fun i => Z.land (Z.shiftr m (8 * i)) 255 in
    match mm_find (to_string (byte 0) ++ bs "." ++ to_string (byte 1) ++ bs "." ++ to_string (byte 2) ++ bs "." ++ to_string (byte 3))
      mask_texts with Some n => n | None => 255 end =? (if c mod 8 =? 0 then c else 255)).
  apply Z.eqb_eq. apply (bounded_forall 33 Q cidr); [vm_compute; reflexivity|lia].
Qed.

(** ** Hardware addresses *)

Lemma hex2_digits b : is_byte b -> hex2 b = [digit_char (b / 16); digit_char (b mod 16)].
Proof.
  intros Hb. apply (bool_decide_unpack _).
  assert (bool_decide (hex2 b = [digit_char (b / 16); digit_char (b mod 16)]) = true) as ->; [|done].
  apply (bounded_forall 256 (fun b => bool_decide (hex2 b = [digit_char (b / 16); digit_char (b mod 16)])) b); [vm_compute; reflexivity|].
  unfold is_byte in Hb. lia.
Qed.

Lemma hex2_clean b : is_byte b -> 0 ∉ hex2 b.
Proof.
  intros Hb. rewrite hex2_digits by done. unfold is_byte in Hb.
  assert (0 <= b / 16 < 16) by (split; [apply Z.div_pos; lia|apply Z.div_lt_upper_bound; lia]).
  assert (0 <= b mod 16 < 16) by (apply Z.mod_pos_bound; lia).
  pose proof (digit_char_range (b / 16)). pose proof (digit_char_range (b mod 16)).
  rewrite !not_elem_of_cons. split_and!; [lia|lia|apply not_elem_of_nil].
Qed.

Lemma scan_hex2_text b t : is_byte b -> scan_hex2 (hex2 b ++ t) = Some (b, t).
Proof.
  intros Hb. rewrite hex2_digits by done. unfold is_byte in Hb.
  assert (0 <= b / 16 < 16) as Hq by (split; [apply Z.div_pos; lia|apply Z.div_lt_upper_bound; lia]).
  assert (0 <= b mod 16 < 16) as Hr by (apply Z.mod_pos_bound; lia).
  pose proof (digit_char_range (b / 16)). set (q := b / 16) in *. set (r := b mod 16) in *. unfold scan_hex2. cbn [app skip_space].
  replace (isspace (digit_char q)) with false by (unfold isspace; lia).
  rewrite ztake_cons, ztake_cons, ztake_le0 by lia. cbn [read_sign].
  replace (digit_char q =? 45) with false by lia. replace (digit_char q =? 43) with false by lia. cbn [has_digit].
  assert ((toupper (digit_char r) =? 88) = false) as ->.
  { unfold toupper, islower, digit_char. destruct (Z.ltb_spec r 10); [replace ((97 <=? 48 + r) && (48 + r <=? 122)) with false by lia; lia|].
    replace ((97 <=? 55 + r) && (55 + r <=? 122)) with false by lia. lia. }
  rewrite digit_value_char by lia. replace (q <? 16) with true by lia. rewrite andb_false_r. cbn [andb negb read_digits].
  rewrite !digit_value_char by lia. replace (q <? 16) with true by lia. replace (r <? 16) with true by lia.
  change (zlen [digit_char q; digit_char r] - zlen []) with 2. rewrite zdrop_cons, zdrop_cons, zdrop_le0 by lia.
  do 2 f_equal. unfold q, r. pose proof (Z.div_mod b 16). lia.
Qed.

(** One number and its separator. *)
Lemma scan_hex2_sep {A} b t (k : Z -> bytes -> option A) :
  is_byte b -> ('(x, str) ← scan_hex2 (hex2 b ++ [58] ++ t); str ← scan_char 58 str; k x str) = k b t.
Proof. intros Hb. by rewrite scan_hex2_text. Qed.

Lemma scan_mac_text a b c d e f :
  Forall is_byte [a; b; c; d; e; f] -> scan_mac 58 (mac_toString [a; b; c; d; e; f]) = Some [a; b; c; d; e; f].
Proof.
  intros Hb. repeat (apply Forall_cons in Hb as [? Hb]). unfold scan_mac, mac_toString, mac_byte. cbn [nth].
  do 5 (rewrite scan_hex2_sep by done). rewrite <- (app_nil_r (hex2 f)). by rewrite scan_hex2_text.
Qed.

Lemma mac_text_clean v : Forall is_byte v -> length v = 6%nat -> c_str (mac_toString v) = mac_toString v.
Proof.
  intros Hb Hl. destruct v as [|a [|b [|c [|d [|e [|f [|? ?]]]]]]]; try done. repeat (apply Forall_cons in Hb as [? Hb]).
  assert (Hz : forall x, is_byte x -> 0 ∉ hex2 x) by apply hex2_clean.
  apply c_str_nul_free. unfold mac_toString, mac_byte. cbn [nth]. rewrite !not_elem_of_app, !not_elem_of_cons.
  split_and!; auto; lia || apply not_elem_of_nil.
Qed.

Lemma mac_text_roundtrip v : Forall is_byte v -> length v = 6%nat -> mac_fromString (mac_toString v) = (v, true).
Proof.
  intros Hb Hl. unfold mac_fromString. rewrite mac_text_clean by done.
  destruct v as [|a [|b [|c [|d [|e [|f [|? ?]]]]]]]; try done. rewrite scan_mac_text by done.
  repeat (apply Forall_cons in Hb as [? Hb]). unfold is_byte in *. f_equal. cbn [map].
  assert (Hs : forall x, 0 <= x < 256 -> safe_cast_or u8 u32 x 0 = x).
  { intros x Hx. unfold safe_cast_or. replace (in_range_17 u8 u32 x) with true; [done|]. unfold in_range_17. cbn.
    change (limits_max u8) with 255. lia. }
  by rewrite !Hs.
Qed.

(** The hash is the address in its upper six bytes. *)
Lemma or_step acc v k : 0 <= v < 256 -> 0 <= k -> Z.lor (Z.shiftl acc (8 + k)) (Z.shiftl v k) = Z.shiftl (acc * 256 + v) k.
Proof.
  intros Hv Hk. rewrite <- Z.shiftl_shiftl, <- Z.shiftl_lor by lia. by rewrite lor_shiftl_add by (change (2 ^ 8) with 256; lia).
Qed.

Lemma mac_hash_value a b c d e f :
  Forall is_byte [a; b; c; d; e; f] ->
  mac_toHash [a; b; c; d; e; f] = Z.shiftl (((((a * 256 + b) * 256 + c) * 256 + d) * 256 + e) * 256 + f) 16.
Proof.
  intros Hb. repeat (apply Forall_cons in Hb as [? Hb]). unfold is_byte in *. unfold mac_toHash, mac_byte. cbn [nth].
  rewrite !wrap_small by (rewrite Z.shiftl_mul_pow2 by lia; unfold SIZE_MOD; lia). rewrite Z.lor_0_l.
  change 56 with (8 + 48). rewrite or_step by lia. change 48 with (8 + 40) at 1. rewrite or_step by lia.
  change 40 with (8 + 32) at 1. rewrite or_step by lia. change 32 with (8 + 24) at 1. rewrite or_step by lia.
  change 24 with (8 + 16) at 1. by rewrite or_step by lia.
Qed.

Lemma mac_hash_shift n b j : 0 <= b < 256 -> 0 <= j -> Z.shiftr (n * 256 + b) (8 + j) = Z.shiftr n j.
Proof.
  intros Hb Hj. rewrite <- Z.shiftr_shiftr by lia. replace (n * 256 + b) with (b + 256 * n) by lia. by rewrite shift_address.
Qed.

Lemma mac_hash_byte n b : 0 <= b < 256 -> Z.land (n * 256 + b) 255 = b.
Proof. intros Hb. replace (n * 256 + b) with (b + 256 * n) by lia. by apply byte_of_address. Qed.

Lemma mac_hash_roundtrip v : Forall is_byte v -> length v = 6%nat -> mac_fromHASH (mac_toHash v) = v.
Proof.
  intros Hb Hl. destruct v as [|a [|b [|c [|d [|e [|f [|? ?]]]]]]]; try done. rewrite mac_hash_value by done.
  repeat (apply Forall_cons in Hb as [? Hb]). unfold is_byte in *. unfold mac_fromHASH.
  rewrite !Z.shiftr_shiftl_r by lia. change (56 - 16) with (8 + (8 + (8 + (8 + (8 + 0))))).
  change (48 - 16) with (8 + (8 + (8 + (8 + 0)))). change (40 - 16) with (8 + (8 + (8 + 0))).
  change (32 - 16) with (8 + (8 + 0)). change (24 - 16) with (8 + 0). change (16 - 16) with 0.
  rewrite !mac_hash_shift, !Z.shiftr_0_r, !mac_hash_byte by lia. f_equal. by apply land_255.
Qed.

(** A hardware address is read back from its text, and from the hash that
    carries it in its upper six bytes; the text of a hash has that hash. *)
Theorem mac_roundtrip (v : bytes) :
  Forall is_byte v -> length v = 6%nat ->
  mac_fromString (mac_toString v) = (v, true) /\ mac_fromHASH (mac_toHash v) = v /\
  mac_fromStringToHASH (mac_fromHASHToString (mac_toHash v)) = (mac_toHash v, true).
Proof.
  intros Hb Hl. split_and!; [by apply mac_text_roundtrip|by apply mac_hash_roundtrip|].
  unfold mac_fromStringToHASH, mac_fromHASHToString. by rewrite mac_hash_roundtrip, mac_text_roundtrip.
Qed.

Lemma mac_roundtrip_witness :
  mac_toString [0; 26; 43; 60; 77; 255] = bs "00:1A:2B:3C:4D:FF" /\
  mac_fromString (mac_toString [0; 26; 43; 60; 77; 255]) = ([0; 26; 43; 60; 77; 255], true).
Proof.
  split; [reflexivity|]. apply (mac_roundtrip [0; 26; 43; 60; 77; 255]); [|reflexivity].
  apply (bool_decide_unpack _). vm_compute. exact I.
Defined.

(** ** An instance of the parameters *)

Definition dotted_byte (a i : Z) : Z := Z.land (Z.shiftr a (8 * i)) 255.
Definition dotted (a : Z) : bytes :=
  to_string (dotted_byte a 0) ++ bs "." ++ to_string (dotted_byte a 1) ++ bs "." ++ to_string (dotted_byte a 2) ++ bs "." ++
  to_string (dotted_byte a 3).

Definition read_octet (s : bytes) : option (Z * bytes) :=
  if has_digit 10 s then let '(v, r) := read_digits 10 0 s in if v <=? 255 then Some (v, r) else None else None.
Definition read_dotted (s : bytes) : option Z :=
  '(a, s) ← read_octet s; s ← scan_char 46 s; '(b, s) ← read_octet s; s ← scan_char 46 s;
  '(c, s) ← read_octet s; s ← scan_char 46 s; '(d, s) ← read_octet s;
  match s with [] => Some (address a b c d) | _ => None end.

Fixpoint read_hex_bytes (n : nat) (s : bytes) : option bytes :=
  match n with
  | Datatypes.O => match s with [] => Some [] | _ => None end
  | Datatypes.S n => '(b, s) ← scan_hex2 s; l ← read_hex_bytes n s; Some (b :: l)
  end.

Definition plain_inet : InetLib := {|
  inet_ntop4 := dotted;
  inet_pton4 := read_dotted;
  inet_ntop6 a := concat (map hex2 a);
  inet_pton6 := read_hex_bytes 16 |}.

Lemma dotted_address a b c d :
  is_byte a -> is_byte b -> is_byte c -> is_byte d ->
  dotted (address a b c d) = to_string a ++ bs "." ++ to_string b ++ bs "." ++ to_string c ++ bs "." ++ to_string d.
Proof.
  unfold is_byte, dotted, dotted_byte, address. intros Ha Hb Hc Hd. change (8 * 0) with 0. change (8 * 1) with 8.
  change (8 * 2) with (8 + 8). change (8 * 3) with (8 + 8 + 8).
  rewrite <- !Z.shiftr_shiftr by lia. rewrite !shift_address, Z.shiftr_0_r, !byte_of_address by lia.
  replace d with (d + 256 * 0) at 1 by lia. by rewrite byte_of_address by lia.
Qed.

Lemma read_octet_text b t : is_byte b -> has_digit 10 t = false -> read_octet (to_string b ++ t) = Some (b, t).
Proof.
  unfold is_byte. intros Hb Ht. unfold read_octet, to_string. destruct (read_print 10 b 0 t) as (k & _ & Hr); [lia..|].
  assert (has_digit 10 (print_base 10 b ++ t) = true) as ->.
  { destruct (print_digits_cons (Z.to_nat (Z.log2 b)) 10 b) as (d & l & E & Hd); [lia..|]. unfold print_base. rewrite E.
    cbn [app has_digit]. rewrite digit_value_char by lia. lia. }
  rewrite Hr. assert (read_digits 10 (0 * 10 ^ k + b) t = (b, t)) as ->.
  { replace (0 * 10 ^ k + b) with b by lia. destruct t as [|c t]; [done|]. cbn [has_digit] in Ht. cbn [read_digits].
    destruct (digit_value c) as [v|]; [|done]. by rewrite Ht. }
  by replace (b <=? 255) with true by lia.
Qed.

Lemma read_octet_dot {A} b t (k : Z -> bytes -> option A) :
  is_byte b -> ('(x, str) ← read_octet (to_string b ++ bs "." ++ t); str ← scan_char 46 str; k x str) = k b t.
Proof. intros Hb. by rewrite read_octet_text. Qed.

Lemma read_dotted_text a : 0 <= a < 2 ^ 32 -> read_dotted (dotted a) = Some a.
Proof.
  intros (b0 & b1 & b2 & b3 & ? & ? & ? & ? & ->)%address_split. rewrite dotted_address by done. unfold read_dotted.
  do 3 (rewrite read_octet_dot by done). rewrite <- (app_nil_r (to_string b3)). by rewrite read_octet_text.
Qed.

Lemma read_hex_text l : Forall is_byte l -> read_hex_bytes (length l) (concat (map hex2 l)) = Some l.
Proof.
  induction 1 as [|b l Hb Hl IH]; [done|]. cbn [length map concat read_hex_bytes]. rewrite scan_hex2_text by done.
  cbn [mbind option_bind]. by rewrite IH.
Qed.

Lemma plain_inet_laws : InetLaws (H := plain_inet).
Proof.
  constructor; cbn [inet_ntop4 inet_pton4 inet_ntop6 inet_pton6 plain_inet].
  - exact dotted_address.
  - exact read_dotted_text.
  - intros a Hl Hb. rewrite <- Hl. by apply read_hex_text.
  - intros a Hl Hb. split.
    + destruct a as [|b a]; [done|]. apply Forall_cons in Hb as [Hb _]. cbn [map concat]. rewrite hex2_digits by done. done.
    + clear Hl. induction Hb as [|b a Hb _ IH]; cbn [map concat]; [apply not_elem_of_nil|]. apply not_elem_of_app.
      split; [by apply hex2_clean|done].
Qed.

#[local] Existing Instance plain_inet.

Lemma ipv4_word_mask_matches_all_witness :
  match_range_texts (bs "10.0.0.1/ab") (bs "203.0.113.9") = true /\
  match_range_text (bs "10.0.0.1" ++ [47] ++ bs "ab") (address_of [203; 0; 113; 9]) = true.
Proof.
  split; [reflexivity|]. apply (ipv4_word_mask_matches_all (bs "10.0.0.1") (bs "ab") (address_of [10; 0; 0; 1]));
    [by apply (bool_decide_unpack _); vm_compute|reflexivity|right; reflexivity|reflexivity].
Defined.

Example masks_of_bytes :
  map (fun c => toCIDRMask (fromCIDRMask c).1) [0; 8; 16; 24; 32; 9; 20; 31] = [0; 8; 16; 24; 32; 255; 255; 255].
Proof. reflexivity. Qed.
