(* ===== verification/AbstractVars.v ===== *)
(** * Abstract variables: dates, the dispatch over the classes, the map

    The virtual functions of [Var] as functions by the class of the object,
    [Var::makeAbstract], [Var::copy] (Memory/a_var.cpp), [DATETIME]
    (a_datetime.cpp) and [VariableMap] (a_map.cpp).  The maps hold pointers:
    variables are in a heap, known by their addresses.  The clock, the time zone
    and the C library's time functions are parameters ([TimeLib]). *)

From S2P Require Import Prelude SafeInt CLib Encoders Jwt VarData VarList VarNet.
From Stdlib Require Import ZArith Lia.
From stdpp Require Import gmap.
#[local] Open Scope Z_scope.

(** The members of [struct tm] the code sets. *)
Record tm := mkTm { tm_year : Z; tm_mon : Z; tm_mday : Z; tm_hour : Z; tm_min : Z; tm_sec : Z }.

Class TimeLib := {
  timezone : Z;
  mktime : tm -> Z;
  (** [strftime] of a time of [gmtime_r]. *)
  strftime : bytes -> Z -> bytes;
  (** The conversion [%f]: the value, cast to [int], and the rest of the text. *)
  scan_float : bytes -> option (Z * bytes) }.

(** ** Reading dates *)

(** The directives of [sscanf] in the formats of dates. *)
Inductive directive := dInt | dFloat | dChar (c : Z) | dSpace.

(** The conversion [%d]. *)
Definition scan_int (str : bytes) : option (Z * bytes) :=
  let '(neg, t) := read_sign (skip_space str) in
  if has_digit 10 t then let '(v, rest) := read_digits 10 0 t in Some (if neg then - v else v, rest) else None.

Section Dates.
Context `{!TimeLib}.

(** The values that are converted before the first directive that fails; an
    [int] that cannot hold its value is undefined behaviour. *)
Fixpoint sscanf (format : list directive) (str : bytes) : outcome (list Z) :=
  match format with
  | [] => Ret []
  | dInt :: format =>
      match scan_int str with
      | None => Ret []
      | Some (v, str) =>
          if (limits_min i32 <=? v) && (v <=? limits_max i32) then l ← sscanf format str; Ret (v :: l) else Undef
      end
  | dFloat :: format =>
      match scan_float str with
      | None => Ret []
      | Some (v, str) => l ← sscanf format str; Ret (v :: l)
      end
  | dChar c :: format =>
      match str with
      | x :: str => if x =? c then sscanf format str else Ret []
      | [] => Ret []
      end
  | dSpace :: format => sscanf format (skip_space str)
  end.

(** "%d-%d-%d %d:%d:%d" and "%d-%d-%dT%d:%d:%f%d:%dZ". *)
Definition space_format : list directive :=
  [dInt; dChar 45; dInt; dChar 45; dInt; dSpace; dInt; dChar 58; dInt; dChar 58; dInt].
Definition iso_format : list directive :=
  [dInt; dChar 45; dInt; dChar 45; dInt; dChar 84; dInt; dChar 58; dInt; dChar 58; dFloat; dInt; dChar 58; dInt; dChar 90].

Definition getPlainLclTimeStr (v : Z) : bytes := strftime (bs "%F %T") (v - timezone).
Definition getISOTimeStr (v : Z) : bytes := strftime (bs "%FT%TZ") v.

(** Members that are not converted are zero; the seconds of the second format
    are in a variable without an initial value.  The zone is read and not used. *)
Definition fromISOTimeStr (v : bytes) : outcome Z :=
  if has_value (find_char 32 v) then
    l ← sscanf space_format (c_str v);
    Ret (mktime (mkTm (nth 0 l 0 - 1900) (nth 1 l 0 - 1) (nth 2 l 0) (nth 3 l 0) (nth 4 l 0) (nth 5 l 0)) - timezone)
  else if has_value (find_char 84 v) then
    l ← sscanf iso_format (c_str v);
    match nth_error l 5 with
    | None => Undef
    | Some s => Ret (mktime (mkTm (nth 0 l 0 - 1900) (nth 1 l 0 - 1) (nth 2 l 0) (nth 3 l 0) (nth 4 l 0) s) - timezone)
    end
  else Ret 0.
End Dates.

Section Vars.
Context {D J : Type} `{!JsonCpp J} `{!JsonNumbers D J} `{!FloatLib D} `{!InetLib} `{!TimeLib} `{!Base64BIO}.

(** ** DATETIME *)
Definition DATETIME_new : Var D := construct DATETIME (oDATETIME 0).
Definition DATETIME_of (value : Z) : Var D := construct DATETIME (oDATETIME value).
Definition DATETIME_getValue (m_value : Z) : Z := m_value.
Definition DATETIME_setValue (value m_value : Z) : Z * bool := (value, true).
Definition DATETIME_assign (value m_value : Z) : Z := (DATETIME_setValue value m_value).1.
Definition isInFuture (now m_value : Z) : bool := DATETIME_getValue m_value >? now.
Definition DATETIME_toStringLcl (m_value : Z) : bytes := getPlainLclTimeStr m_value.
Definition DATETIME_toString (m_value : Z) : bytes := getISOTimeStr m_value.
Definition DATETIME_fromString (value : bytes) (m_value : Z) : outcome (Z * bool) :=
  match value with
  | [] => Ret (0, false)
  | _ => t ← fromISOTimeStr value; Ret (t, true)
  end.
Definition DATETIME_toJSON (null : bool) (m_value : Z) : J := if null then json_null else json_uint64 (wrap m_value).
Definition DATETIME_fromJSON (value : J) (m_value : Z) : Z * bool := (ASINT64_D value 0, true).
Definition DATETIME_protectedCopy (m_value : Z) : Var D := setObject (oDATETIME (DATETIME_assign m_value 0)) DATETIME_new.

(** ** The virtual functions *)
Definition Var_toString (v : Var D) : outcome bytes :=
  match m_object v with
  | oVar => Ret []
  | oBOOL x => Ret (BOOL_toString x)
  | oINT8 x => Ret (INT8_toString x) | oINT16 x => Ret (INT16_toString x)
  | oINT32 x => Ret (INT32_toString x) | oINT64 x => Ret (INT64_toString x)
  | oUINT8 x => Ret (UINT8_toString x) | oUINT16 x => Ret (UINT16_toString x)
  | oUINT32 x => Ret (UINT32_toString x) | oUINT64 x => Ret (UINT64_toString x)
  | oDOUBLE x => Ret (DOUBLE_toString x)
  | oBINARY x => BINARY_toString x
  | oSTRING x => Ret (STRING_toString x)
  | oVARCHAR x => VARCHAR_toString x
  | oSTRINGLIST x => Ret (STRINGLIST_toString x)
  | oIPV4 x => Ret (IPV4_toString x)
  | oIPV6 x => Ret (IPV6_toString x)
  | oMACADDR x => Ret (MACADDR_toString x)
  | oPTR x => Ret (PTR_toString x)
  | oDATETIME x => Ret (DATETIME_toString x)
  end.

(** A method's new members, in the object. *)
Definition updated {A} (o : A -> Object D) (v : Var D) (r : A * bool) : Var D * bool := (setObject (o r.1) v, r.2).

Definition Var_fromString (value : bytes) (v : Var D) : outcome (Var D * bool) :=
  match m_object v with
  | oVar => Ret (v, true)
  | oBOOL x => Ret (updated oBOOL v (BOOL_fromString value x))
  | oINT8 x => Ret (updated oINT8 v (INT8_fromString value x)) | oINT16 x => Ret (updated oINT16 v (INT16_fromString value x))
  | oINT32 x => Ret (updated oINT32 v (INT32_fromString value x)) | oINT64 x => Ret (updated oINT64 v (INT64_fromString value x))
  | oUINT8 x => Ret (updated oUINT8 v (UINT8_fromString value x)) | oUINT16 x => Ret (updated oUINT16 v (UINT16_fromString value x))
  | oUINT32 x => Ret (updated oUINT32 v (UINT32_fromString value x)) | oUINT64 x => Ret (updated oUINT64 v (UINT64_fromString value x))
  | oDOUBLE x => updated oDOUBLE v <$> DOUBLE_fromString value x
  | oBINARY x => updated oBINARY v <$> BINARY_fromString value x
  | oSTRING x => Ret (updated oSTRING v (STRING_fromString value x))
  | oVARCHAR x => updated oVARCHAR v <$> VARCHAR_fromString value x
  | oSTRINGLIST x => updated oSTRINGLIST v <$> STRINGLIST_fromString value x
  | oIPV4 x => Ret (updated oIPV4 v (IPV4_fromString value x))
  | oIPV6 x => Ret (updated oIPV6 v (IPV6_fromString value x))
  | oMACADDR x => Ret (updated oMACADDR v (MACADDR_fromString value x))
  | oPTR x => Ret (updated oPTR v (PTR_fromString value x))
  | oDATETIME x => updated oDATETIME v <$> DATETIME_fromString value x
  end.

Definition Var_toJSON (v : Var D) : outcome J :=
  let null := Var_isNull v in
  match m_object v with
  | oVar => Ret json_null
  | oBOOL x => Ret (BOOL_toJSON null x)
  | oINT8 x => Ret (INT8_toJSON null x) | oINT16 x => Ret (INT16_toJSON null x)
  | oINT32 x => Ret (INT32_toJSON null x) | oINT64 x => Ret (INT64_toJSON null x)
  | oUINT8 x => Ret (UINT8_toJSON null x) | oUINT16 x => Ret (UINT16_toJSON null x)
  | oUINT32 x => Ret (UINT32_toJSON null x) | oUINT64 x => Ret (UINT64_toJSON null x)
  | oDOUBLE x => Ret (DOUBLE_toJSON null x)
  | oBINARY x => BINARY_toJSON null x
  | oSTRING x => Ret (STRING_toJSON null x)
  | oVARCHAR x => VARCHAR_toJSON null x
  | oSTRINGLIST x => Ret (STRINGLIST_toJSON null x)
  | oIPV4 x => Ret (IPV4_toJSON null x)
  | oIPV6 x => Ret (IPV6_toJSON null x)
  | oMACADDR x => Ret (MACADDR_toJSON null x)
  | oPTR x => Ret (PTR_toJSON null x)
  | oDATETIME x => Ret (DATETIME_toJSON null x)
  end.

Definition Var_fromJSON (value : J) (v : Var D) : outcome (Var D * bool) :=
  match m_object v with
  | oVar => Ret (v, true)
  | oBOOL x => Ret (updated oBOOL v (BOOL_fromJSON value x))
  | oINT8 x => Ret (updated oINT8 v (INT8_fromJSON value x)) | oINT16 x => Ret (updated oINT16 v (INT16_fromJSON value x))
  | oINT32 x => Ret (updated oINT32 v (INT32_fromJSON value x)) | oINT64 x => Ret (updated oINT64 v (INT64_fromJSON value x))
  | oUINT8 x => Ret (updated oUINT8 v (UINT8_fromJSON value x)) | oUINT16 x => Ret (updated oUINT16 v (UINT16_fromJSON value x))
  | oUINT32 x => Ret (updated oUINT32 v (UINT32_fromJSON value x)) | oUINT64 x => Ret (updated oUINT64 v (UINT64_fromJSON value x))
  | oDOUBLE x => Ret (updated oDOUBLE v (DOUBLE_fromJSON value x))
  | oBINARY x => updated oBINARY v <$> BINARY_fromJSON value x
  | oSTRING x => Ret (updated oSTRING v (STRING_fromJSON value x))
  | oVARCHAR x => updated oVARCHAR v <$> VARCHAR_fromJSON value x
  | oSTRINGLIST x => Ret (updated oSTRINGLIST v (STRINGLIST_fromJSON value x))
  | oIPV4 x => Ret (updated oIPV4 v (IPV4_fromJSON value x))
  | oIPV6 x => Ret (updated oIPV6 v (IPV6_fromJSON value x))
  | oMACADDR x => Ret (updated oMACADDR v (MACADDR_fromJSON value x))
  | oPTR x => Ret (updated oPTR v (PTR_fromJSON value x))
  | oDATETIME x => Ret (updated oDATETIME v (DATETIME_fromJSON value x))
  end.

Definition protectedCopy (v : Var D) : outcome (Var D) :=
  match m_object v with
  | oVar => Ret Var_new
  | oBOOL x => Ret (BOOL_protectedCopy x)
  | oINT8 x => Ret (INT8_protectedCopy x) | oINT16 x => Ret (INT16_protectedCopy x)
  | oINT32 x => Ret (INT32_protectedCopy x) | oINT64 x => Ret (INT64_protectedCopy x)
  | oUINT8 x => Ret (UINT8_protectedCopy x) | oUINT16 x => Ret (UINT16_protectedCopy x)
  | oUINT32 x => Ret (UINT32_protectedCopy x) | oUINT64 x => Ret (UINT64_protectedCopy x)
  | oDOUBLE x => Ret (DOUBLE_protectedCopy x)
  | oBINARY x => BINARY_protectedCopy x
  | oSTRING x => Ret (STRING_protectedCopy x)
  | oVARCHAR x => VARCHAR_protectedCopy x
  | oSTRINGLIST x => Ret (STRINGLIST_protectedCopy x)
  | oIPV4 x => Ret (IPV4_protectedCopy x)
  | oIPV6 x => Ret (IPV6_protectedCopy x)
  | oMACADDR x => Ret (MACADDR_protectedCopy x)
  | oPTR x => Ret (PTR_protectedCopy x)
  | oDATETIME x => Ret (DATETIME_protectedCopy x)
  end.

(** [Var::copy]: the copy has the declared type of the original; the assignment
    of the type clears the null flag. *)
Definition Var_copy (v : Var D) : outcome (Var D) := var ← protectedCopy v; Ret (Var_setVarType (Var_getVarType v) var).

(** The object of [makeAbstract] before the text: there is no case for [PTR]. *)
Definition make_object (type : VarType) (defValue : bytes) : outcome (option (Var D)) :=
  match type with
  | VOID => Ret (Some Var_new)
  | BOOL => Ret (Some BOOL_new)
  | INT8 => Ret (Some INT8_new) | INT16 => Ret (Some INT16_new) | INT32 => Ret (Some INT32_new) | INT64 => Ret (Some INT64_new)
  | UINT8 => Ret (Some UINT8_new) | UINT16 => Ret (Some UINT16_new) | UINT32 => Ret (Some UINT32_new)
  | UINT64 => Ret (Some UINT64_new)
  | DOUBLE => Ret (Some DOUBLE_new)
  | DATETIME => Ret (Some DATETIME_new)
  | BIN => Ret (Some BINARY_new)
  | STRING => Ret (Some STRING_new)
  | STRINGLIST => Ret (Some STRINGLIST_new)
  | IPV4 => Ret (Some IPV4_new)
  | MACADDR => Ret (Some MACADDR_new)
  | IPV6 => Ret (Some IPV6_new)
  | VARCHAR => Some <$> VARCHAR_new (wrap (zlen defValue + 1024))
  | PTR => Ret None
  end.

Definition makeAbstract (type : VarType) (defValue : bytes) : outcome (option (Var D)) :=
  v ← make_object type defValue;
  match v with
  | None => Ret None
  | Some v => '(v, _) ← Var_fromString defValue v; Ret (Some v)
  end.

(** ** VariableMap

    A pointer is an address of the heap, or null. *)
Record VariableMap := mkVariableMap { m_variables : list (bytes * option Z); m_submaps : list (bytes * option Z) }.

Definition VariableMap_new : VariableMap := mkVariableMap [] [].

Definition removeVariable (variableName : bytes) (m : VariableMap) : VariableMap :=
  let m := if has_value (mm_find variableName (m_variables m))
           then mkVariableMap (mm_erase variableName (m_variables m)) (m_submaps m) else m in
  if has_value (mm_find variableName (m_submaps m))
  then mkVariableMap (m_variables m) (mm_erase variableName (m_submaps m)) else m.

Definition insertOrUpdateSubmap (variableName : bytes) (vars : option Z) (m : VariableMap) : VariableMap :=
  let m := removeVariable variableName m in mkVariableMap (m_variables m) (om_set variableName vars (m_submaps m)).

Definition insertOrUpdateVariable (variableName : bytes) (var : option Z) (m : VariableMap) : VariableMap :=
  let m := removeVariable variableName m in mkVariableMap (om_set variableName var (m_variables m)) (m_submaps m).

Definition getVariable (variableName : bytes) (m : VariableMap) : option Z :=
  match mm_find variableName (m_variables m) with Some p => p | None => None end.
Definition getSubmap (variableName : bytes) (m : VariableMap) : option Z :=
  match mm_find variableName (m_submaps m) with Some p => p | None => None end.

Definition listVariableKeys (m : VariableMap) : list bytes := map fst (m_variables m).
Definition listSubmapKeys (m : VariableMap) : list bytes := map fst (m_submaps m).

(** The heap of variables. *)
Definition VarHeap := gmap Z (Var D).

(** The object of [makeAbstract] is at a [fresh] address. *)
Definition setVariableFromString (variableName : bytes) (varType : VarType) (str : bytes) (fresh : Z) (h : VarHeap) (m : VariableMap)
    : outcome (VarHeap * VariableMap) :=
  v ← makeAbstract varType str;
  Ret (match v with
       | Some v => (<[fresh := v]> h, insertOrUpdateVariable variableName (Some fresh) m)
       | None => (h, insertOrUpdateVariable variableName None m)
       end).

(** A null pointer is dereferenced. *)
Definition getVariableAsString (variableName : bytes) (h : VarHeap) (m : VariableMap) : outcome bytes :=
  match mm_find variableName (m_variables m) with
  | None => Ret []
  | Some None => Undef
  | Some (Some a) => match h !! a with Some v => Var_toString v | None => Undef end
  end.
End Vars.
