(* ===== verification/VarTheory.v ===== *)
(** * Abstract variables: the theorems

    Texts are read back, copies are equal but not null, the buffers of [VARCHAR]
    hold, what [BINARY] loses, and the map of variables as one map. *)

From S2P Require Import Prelude SafeInt CLib Encoders Jwt JwtVerify VarData VarList VarNet AbstractVars.
From Stdlib Require Import ZArith Lia.
From stdpp Require Import gmap.
#[local] Open Scope Z_scope.

(** ** Integers *)

Lemma convert_representable T x : 1 <= ty_bits T -> representable T x -> convert T x = x.
Proof.
  intros HT. unfold representable, limits_min, limits_max, digits, convert, wrapw. destruct (is_signed T); cbn [andb].
  - intros Hx. assert (2 ^ ty_bits T = 2 * 2 ^ (ty_bits T - 1)) as E.
    { rewrite <- Z.pow_succ_r by lia. f_equal. lia. }
    pose proof (Z.pow_pos_nonneg 2 (ty_bits T - 1)). destruct (Z.le_gt_cases 0 x).
    + rewrite Z.mod_small by lia. by replace (x >=? _) with false by lia.
    + rewrite <- (Z.mod_add _ 1), Z.mod_small by lia. replace (_ >=? _) with true by lia. lia.
  - intros Hx. apply Z.mod_small. lia.
Qed.

Lemma convert_range T x : 1 <= ty_bits T -> representable T (convert T x).
Proof.
  intros HT. unfold representable, limits_min, limits_max, digits, convert, wrapw.
  assert (2 ^ ty_bits T = 2 * 2 ^ (ty_bits T - 1)) as E.
  { rewrite <- Z.pow_succ_r by lia. f_equal. lia. }
  pose proof (Z.pow_pos_nonneg 2 (ty_bits T - 1)). pose proof (Z.mod_pos_bound x (2 ^ ty_bits T)).
  destruct (is_signed T); cbn [andb]; [|lia]. destruct (Z.geb_spec (x mod 2 ^ ty_bits T) (2 ^ (ty_bits T - 1))); lia.
Qed.

(** What is accepted is a number of the type, and what is not leaves zero. *)
Lemma integer_fromString_range T strto value :
  1 <= ty_bits T -> representable T (integer_fromString T strto value).1 /\
  ((integer_fromString T strto value).2 = false -> (integer_fromString T strto value).1 = 0).
Proof.
  intros HT. assert (representable T 0) as H0.
  { unfold representable, limits_min, limits_max, digits.
    pose proof (Z.pow_pos_nonneg 2 (ty_bits T - 1)). pose proof (Z.pow_pos_nonneg 2 (ty_bits T)). destruct (is_signed T); lia. }
  unfold integer_fromString. destruct value as [|c value]; [done|]. destruct (strto _) as [n [e|]]; [|done].
  destruct (_ || _); [done|]. split; [by apply convert_range|done].
Qed.

Lemma integer_text T strto text n :
  1 <= ty_bits T -> representable T n -> text <> [] -> strto text = (n, Some []) -> integer_fromString T strto text = (n, true).
Proof.
  intros HT Hn Ht Hs. unfold integer_fromString. destruct text as [|c text]; [done|]. rewrite Hs. cbn [negb bool_decide].
  rewrite bool_decide_true by done. unfold representable in Hn. cbn [negb orb].
  replace (n >? limits_max T) with false by lia. replace (n <? limits_min T) with false by lia. cbn [orb]. by rewrite convert_representable.
Qed.

Lemma to_string_nonempty n : 0 <= n -> to_string n <> [].
Proof. intros. apply print_base_nonempty; lia. Qed.

Lemma signed_text T n :
  1 <= ty_bits T <= 64 -> is_signed T = true -> representable T n ->
  integer_fromString T (strtol_end 10) (to_string_signed n) = (n, true).
Proof.
  intros HT Hs Hn. apply integer_text; [lia|done| |].
  - unfold to_string_signed. destruct (Z.ltb_spec n 0); [done|]. by apply to_string_nonempty.
  - apply strtol_print_signed. unfold representable, limits_min, limits_max, digits in Hn. rewrite Hs in Hn.
    assert (2 ^ (ty_bits T - 1) <= 2 ^ 63) by (apply Z.pow_le_mono_r; lia). unfold LONG_MIN, LONG_MAX. lia.
Qed.

Lemma unsigned_text T n :
  1 <= ty_bits T <= 64 -> is_signed T = false -> representable T n ->
  integer_fromString T (strtoul 10) (to_string n) = (n, true).
Proof.
  intros HT Hs Hn. unfold representable, limits_min, limits_max, digits in Hn. rewrite Hs in Hn.
  apply integer_text; [lia|unfold representable, limits_min, limits_max, digits; by rewrite Hs|apply to_string_nonempty; lia|].
  unfold to_string. apply strtoul_print; [lia|]. assert (2 ^ ty_bits T <= 2 ^ 64) by (apply Z.pow_le_mono_r; lia).
  unfold ULONG_MAX, SIZE_MAX, SIZE_MOD. lia.
Qed.

(** The C functions on any printed number. *)
Lemma strtoul_any n : 0 <= n -> strtoul 10 (to_string n) = (Z.min n ULONG_MAX, Some []).
Proof.
  intros Hn. unfold strtoul, to_string. pose proof (scan_padded 10 0 n) as Hs. rewrite pad_zeros_0 in Hs.
  destruct Hs as (Hne & Hd & Hr); [lia..|]. destruct (scan_digits 10 (print_base 10 n)) as (-> & -> & -> & -> & ->); [done..|].
  rewrite Hr. destruct (Z.gtb_spec n ULONG_MAX); do 2 f_equal; lia.
Qed.

Lemma strtol_any n : 0 <= n -> strtol_end 10 (to_string n) = (Z.min n LONG_MAX, Some []).
Proof.
  intros Hn. unfold strtol_end, to_string. pose proof (scan_padded 10 0 n) as Hs. rewrite pad_zeros_0 in Hs.
  destruct Hs as (Hne & Hd & Hr); [lia..|]. destruct (scan_digits 10 (print_base 10 n)) as (-> & -> & -> & -> & ->); [done..|].
  rewrite Hr. destruct (Z.gtb_spec n LONG_MAX); [do 2 f_equal; lia|]. replace (n <? LONG_MIN) with false by (unfold LONG_MIN, LONG_MAX; lia).
  do 2 f_equal. lia.
Qed.

Lemma integer_refused T strto n r :
  0 <= n -> strto (to_string n) = (r, Some []) -> r > limits_max T -> integer_fromString T strto (to_string n) = (0, false).
Proof.
  intros Hn Hs Hr. unfold integer_fromString. pose proof (to_string_nonempty n Hn). destruct (to_string n) as [|c s]; [done|]. rewrite Hs.
  rewrite bool_decide_true by done. by replace (r >? limits_max T) with true by lia.
Qed.

Lemma integer_accepted T strto n r :
  1 <= ty_bits T -> 0 <= n -> strto (to_string n) = (r, Some []) -> representable T r ->
  integer_fromString T strto (to_string n) = (r, true).
Proof. intros HT Hn Hs Hr. apply integer_text; [done|done|by apply to_string_nonempty|done]. Qed.

(** Numbers that are too large: the classes of up to 32 bits refuse them and
    keep zero; the classes of 64 bits take the largest value and accept. *)
Theorem large_numbers (n m : Z) :
  0 <= n ->
  (n > limits_max i8 -> INT8_fromString (to_string n) m = (0, false)) /\
  (n > limits_max i16 -> INT16_fromString (to_string n) m = (0, false)) /\
  (n > limits_max i32 -> INT32_fromString (to_string n) m = (0, false)) /\
  (n > limits_max u8 -> UINT8_fromString (to_string n) m = (0, false)) /\
  (n > limits_max u16 -> UINT16_fromString (to_string n) m = (0, false)) /\
  (n > limits_max u32 -> UINT32_fromString (to_string n) m = (0, false)) /\
  (n > limits_max i64 -> INT64_fromString (to_string n) m = (limits_max i64, true)) /\
  (n > limits_max u64 -> UINT64_fromString (to_string n) m = (limits_max u64, true)).
Proof.
  intros Hn. pose proof (strtol_any n Hn) as Hl. pose proof (strtoul_any n Hn) as Hu.
  split_and!; intros Hg;
    first [ apply (integer_refused _ _ _ _ Hn Hl) | apply (integer_refused _ _ _ _ Hn Hu)
          | apply (integer_accepted i64); [by vm_compute|done|rewrite Hl; do 2 f_equal|by vm_compute]
          | apply (integer_accepted u64); [by vm_compute|done|rewrite Hu; do 2 f_equal|by vm_compute] ];
    revert Hg; unfold limits_max, digits, LONG_MAX, ULONG_MAX, SIZE_MAX, SIZE_MOD; cbn; lia.
Qed.

Lemma large_numbers_witness :
  INT8_fromString (bs "128") 7 = (0, false) /\ UINT64_fromString (bs "18446744073709551616") 7 = (limits_max u64, true) /\
  UINT64_fromString (to_string (2 ^ 70)) 7 = (limits_max u64, true).
Proof. split; [reflexivity|]. split; [reflexivity|]. apply (large_numbers (2 ^ 70) 7); [by vm_compute|reflexivity]. Defined.

Lemma pointer_text p m : 0 <= p <= LONG_MAX -> PTR_fromString (PTR_toString p) m = (p, true).
Proof.
  intros Hp. unfold PTR_fromString, PTR_toString, print_X. destruct (scan_padded 16 8 p) as (Hne & _); [lia..|].
  pose proof (strtol_padded 16 8 p) as E. destruct (pad_zeros 8 (print_base 16 p)) as [|c s]; [done|].
  rewrite E by lia. cbn [fst]. rewrite convert_representable; [done|cbn; lia|]. unfold representable, limits_min, limits_max. cbn.
  unfold LONG_MAX in Hp. lia.
Qed.

Lemma bool_text b m : BOOL_fromString (BOOL_toString b) m = (b, true).
Proof. by destruct b. Qed.

(** ** Texts of variables *)

Section Roundtrip.
Context {D J : Type} `{!JsonCpp J} `{!JsonNumbers D J} `{!FloatLib D} `{!InetLib} `{!InetLaws} `{!TimeLib} `{!Base64BIO}.

(** The objects whose text is read back as the same members. *)
Definition readable (o : Object D) : Prop :=
  match o with
  | oVar | oBOOL _ | oSTRING _ => True
  | oINT8 n => representable i8 n | oINT16 n => representable i16 n
  | oINT32 n => representable i32 n | oINT64 n => representable i64 n
  | oUINT8 n => representable u8 n | oUINT16 n => representable u16 n
  | oUINT32 n => representable u32 n | oUINT64 n => representable u64 n
  | oSTRINGLIST l => (quoted_count l <= 1)%nat /\ ~ ends_empty l
  | oIPV4 m => 0 <= ip_value m < 2 ^ 32 /\ ip_cidrMask m = 32
  | oIPV6 a => length a = 16%nat /\ Forall is_byte a
  | oMACADDR a => length a = 6%nat /\ Forall is_byte a
  | oPTR p => 0 <= p <= LONG_MAX
  | oDOUBLE _ | oBINARY _ | oVARCHAR _ | oDATETIME _ => False
  end.

(** The declared type that the constructors give to the objects of a class. *)
Definition class_type (o : Object D) : VarType :=
  match o with
  | oVar => VOID | oBOOL _ => BOOL
  | oINT8 _ => INT8 | oINT16 _ => INT16 | oINT32 _ => INT32 | oINT64 _ => INT64
  | oUINT8 _ => UINT8 | oUINT16 _ => UINT16 | oUINT32 _ => UINT32 | oUINT64 _ => UINT64
  | oDOUBLE _ => DOUBLE | oBINARY _ => BIN | oSTRING _ => STRING | oVARCHAR _ => VARCHAR | oSTRINGLIST _ => STRINGLIST
  | oIPV4 _ => IPV4 | oIPV6 _ => IPV6 | oMACADDR _ => MACADDR | oPTR _ => PTR | oDATETIME _ => DATETIME
  end.

Lemma ipv6_text a m : length a = 16%nat -> Forall is_byte a -> IPV6_fromString (IPV6_toString a) m = (a, true).
Proof.
  intros Hl Hb. unfold IPV6_fromString, IPV6_toString, ipv6_toString, ipv6_fromString, IPV6_getValue.
  destruct (ntop6_text a Hl Hb) as [Hne Hz]. destruct (inet_ntop6 a) as [|c s] eqn:E; [done|].
  by rewrite c_str_nul_free, <- E, pton6_ntop6 by (done || rewrite <- E; done).
Qed.

Lemma mac_var_text a m : length a = 6%nat -> Forall is_byte a -> MACADDR_fromString (MACADDR_toString a) m = (a, true).
Proof.
  intros Hl Hb. unfold MACADDR_fromString, MACADDR_toString, MACADDR_getValue. rewrite mac_text_roundtrip by done.
  unfold MACADDR_setValue. cbn [fst]. by rewrite ztake_ge by (unfold zlen; lia).
Qed.

Lemma ipv4_var_text (m m0 : Ipv4) : 0 <= ip_value m < 2 ^ 32 -> ip_cidrMask m = 32 -> IPV4_fromString (IPV4_toString m) m0 = (m, true).
Proof.
  intros Ha Hm. unfold IPV4_fromString, IPV4_toString, IPV4_getValue. rewrite ipv4_text_roundtrip by done.
  destruct m as [a k]. cbn in *. by subst.
Qed.

Lemma var_text (v v0 : Var D) :
  readable (m_object v) -> class_type (m_object v0) = class_type (m_object v) ->
  exists t, Var_toString v = Ret t /\ Var_fromString t v0 = Ret (setObject (m_object v) v0, true).
Proof.
  intros Hr Hc. unfold Var_toString, Var_fromString. destruct v as [n t o], v0 as [n0 t0 o0]. cbn [m_object] in *.
  destruct o, o0; try done; (eexists; split; [reflexivity|]); cbn [readable] in Hr; unfold updated.
  - done.
  - by rewrite bool_text.
  - unfold INT8_fromString. by rewrite signed_text.
  - unfold INT16_fromString. by rewrite signed_text.
  - unfold INT32_fromString. by rewrite signed_text.
  - unfold INT64_fromString. by rewrite signed_text.
  - unfold UINT8_fromString. by rewrite unsigned_text.
  - unfold UINT16_fromString. by rewrite unsigned_text.
  - unfold UINT32_fromString. by rewrite unsigned_text.
  - unfold UINT64_fromString. by rewrite unsigned_text.
  - done.
  - destruct Hr as [Hq He]. unfold STRINGLIST_fromString, STRINGLIST_toString, STRINGLIST_getValue. by rewrite read_fields_text.
  - destruct Hr. by rewrite ipv4_var_text.
  - destruct Hr. by rewrite ipv6_text.
  - destruct Hr. by rewrite mac_var_text.
  - by rewrite pointer_text.
Qed.

(** An object of the class that [makeAbstract] makes. *)
Lemma make_object_class type def v :
  make_object type def = Ret (Some v) -> class_type (m_object v) = type /\ m_varType v = type /\ m_isNull v = bool_decide (type = VOID).
Proof.
  destruct type; cbn [make_object fmap outcome_fmap]; try (intros [= <-]; done).
  unfold VARCHAR_new, varchar_alloc. destruct (buffer_write _ _ _); cbn; [|done..]. by intros [= <-].
Qed.

Lemma make_object_total type def :
  type <> VARCHAR -> exists o, make_object type def = Ret o /\ (type <> PTR -> has_value o = true).
Proof. destruct type; intros Ht; try done; by eexists. Qed.

(** C38. A variable is made again from its text by the type it declares, when that
    is the type of its class and its null flag is the one that the type gives: a
    VOID, BOOL or STRING, an integer of any width, an IPv6 or MAC address, an IPv4
    address without a mask, and a STRINGLIST of which at most one element is written
    in quotes and whose last element is not empty. Nothing is said of other lists
    (see [stringlist_neighbours_lost]) and of the other classes. *)
Theorem var_remade_from_text (v : Var D) :
  readable (m_object v) -> m_varType v = class_type (m_object v) -> m_isNull v = bool_decide (m_varType v = VOID) ->
  m_varType v <> PTR ->
  exists t, Var_toString v = Ret t /\ makeAbstract (m_varType v) t = Ret (Some v).
Proof.
  intros Hr Ht Hn Hp. assert (exists t, Var_toString v = Ret t) as [t Et].
  { destruct (var_text v v Hr eq_refl) as (t & Et & _). by exists t. }
  assert (m_varType v <> VARCHAR) as Hv by (rewrite Ht; destruct (m_object v); done).
  exists t. split; [done|]. unfold makeAbstract. destruct (make_object_total (m_varType v) t Hv) as (o & Eo & Ho).
  destruct o as [v0|]; [|by specialize (Ho Hp)]. rewrite Eo. cbn [mbind outcome_bind].
  destruct (make_object_class _ _ _ Eo) as (HA & HB & HC). destruct (var_text v v0 Hr) as (t' & Et' & Ev); [congruence|].
  rewrite Et in Et'. injection Et' as <-. rewrite Ev. cbn. do 2 f_equal. unfold setObject. rewrite HB, HC, <- Hn. by destruct v.
Qed.
End Roundtrip.

(** ** Buffers of fixed size *)

Lemma zlen_map {A B} (f : A -> B) l : zlen (map f l) = zlen l.
Proof. unfold zlen. by rewrite length_map. Qed.

Lemma zlen_allocate n : 0 <= n -> zlen (allocate n) = n.
Proof. intros Hn. unfold zlen, allocate. rewrite length_replicate. lia. Qed.

Lemma buffer_write_ret off data b :
  0 <= off -> off + zlen data <= zlen b ->
  buffer_write off data b = Ret (ztake off b ++ map Some data ++ zdrop (off + zlen data) b) /\
  zlen (ztake off b ++ map Some data ++ zdrop (off + zlen data) b) = zlen b.
Proof.
  intros Ho Hl. unfold buffer_write. replace (off + zlen data <=? zlen b) with true by lia. split; [done|].
  pose proof (zlen_nonneg data). rewrite !zlen_app, zlen_map, zlen_ztake, zlen_zdrop. lia.
Qed.

(** Reading a text that a zero ends. *)
Lemma buffer_string_text s b : buffer_string (map Some s ++ Some 0 :: b) = Ret (c_str s).
Proof. induction s as [|c s IH]; [done|]. cbn [map app buffer_string c_str]. destruct (c =? 0); [done|]. by rewrite IH. Qed.

Lemma buffer_read_text s b : buffer_read (length s) (map Some s ++ b) = Ret s.
Proof. induction s as [|c s IH]; [done|]. cbn [length map app buffer_read]. by rewrite IH. Qed.

(** The memory of a [VARCHAR] has a byte more than its size. *)
Definition varchar_ok (v : Varchar) : Prop := 0 <= vc_varSize v < SIZE_MAX /\ zlen (vc_value v) = vc_varSize v + 1.

Definition varchar_holds (v : Varchar) (text : bytes) : Prop :=
  exists rest, vc_value v = map Some text ++ Some 0 :: rest.

Lemma varchar_store_spec value size v :
  varchar_ok v -> 0 <= size <= zlen value ->
  exists v', varchar_store value size v = Ret (v', size <=? vc_varSize v) /\ varchar_ok v' /\
  vc_varSize v' = vc_varSize v /\ vc_wasTruncated v' = negb (size <=? vc_varSize v) /\
  varchar_holds v' (ztake (Z.min size (vc_varSize v)) value).
Proof.
  intros [Hs Hb] Hsz. unfold varchar_store.
  set (n := Z.min size (vc_varSize v)).
  assert (E : (if size >? vc_varSize (set_truncated false v)
               then (vc_varSize (set_truncated false v), false, set_truncated true (set_truncated false v))
               else (size, true, set_truncated false v)) =
          (n, size <=? vc_varSize v, set_truncated (negb (size <=? vc_varSize v)) v)).
  { unfold n. cbn [vc_varSize set_truncated]. destruct (Z.gtb_spec size (vc_varSize v)).
    - replace (size <=? vc_varSize v) with false by lia. do 2 f_equal. lia.
    - replace (size <=? vc_varSize v) with true by lia. do 2 f_equal. lia. }
  rewrite E. clear E. set (r := size <=? vc_varSize v). cbv beta iota zeta. cbn [vc_value set_truncated].
  assert (0 <= n <= vc_varSize v) as Hn by lia.
  assert (zlen (ztake n value) = n) as Ht by (rewrite zlen_ztake; lia).
  destruct (Z.gtb_spec n 0) as [Hpos|Hzero].
  - destruct (buffer_write_ret n [0] (vc_value v)) as [E1 L1]; [lia|change (zlen [0]) with 1; lia|]. rewrite E1. cbn [mbind outcome_bind].
    set (b1 := ztake n (vc_value v) ++ map Some [0] ++ zdrop (n + zlen [0]) (vc_value v)) in *.
    destruct (buffer_write_ret 0 (ztake n value) b1) as [E2 L2]; [lia|rewrite Ht; lia|]. rewrite E2. cbn [mbind outcome_bind].
    eexists. split; [reflexivity|]. unfold varchar_ok, varchar_holds, set_value, set_truncated.
    cbn [vc_varSize vc_value vc_wasTruncated]. split_and!; [lia|lia|lia|done|done|].
    rewrite ztake_le0, app_nil_l, Ht, Z.add_0_l by lia. exists (zdrop (n + 1) (vc_value v)). f_equal. unfold b1.
    rewrite zdrop_app_ge by (rewrite zlen_ztake; lia). rewrite zlen_ztake. replace (n - _) with 0 by lia. rewrite zdrop_le0 by lia. done.
  - assert (n = 0) as Hn0 by lia. rewrite Hn0. rewrite ztake_le0 by lia.
    destruct (buffer_write_ret 0 [0] (vc_value v)) as [E1 L1]; [lia|change (zlen [0]) with 1; lia|]. rewrite E1. cbn [mbind outcome_bind].
    eexists. split; [reflexivity|]. unfold varchar_ok, varchar_holds, set_value, set_truncated.
    cbn [vc_varSize vc_value vc_wasTruncated]. split_and!; [lia|lia|lia|done|done|].
    rewrite ztake_le0 by lia. by eexists.
Qed.

(** C40. A [VARCHAR] never writes outside of its memory: the text is cut at its size,
    the result and the flag say so, and the variable then reads as the part
    that was stored. *)
Theorem varchar_bounded (value : bytes) (v : Varchar) :
  varchar_ok v ->
  exists v', VARCHAR_fromString value v = Ret (v', zlen value <=? vc_varSize v) /\ varchar_ok v' /\
  vc_varSize v' = vc_varSize v /\ VARCHAR_getWasTruncated v' = negb (zlen value <=? vc_varSize v) /\
  VARCHAR_toString v' = Ret (c_str (ztake (vc_varSize v) value)).
Proof.
  intros Hv. pose proof (zlen_nonneg value). destruct (varchar_store_spec value (zlen value) v Hv) as (v' & E & Hok & Hsz & Ht & rest & Hr); [lia|].
  exists v'. split_and!; [done|done|done|done|]. unfold VARCHAR_toString. rewrite Hr, buffer_string_text. do 2 f_equal.
  by rewrite ztake_min_len.
Qed.

Lemma varchar_alloc_spec varSize : 0 <= varSize < SIZE_MAX -> exists v, varchar_alloc varSize = Ret v /\ varchar_ok v /\ vc_varSize v = varSize.
Proof.
  intros Hs. unfold varchar_alloc. rewrite wrap_small by (unfold SIZE_MAX in Hs; lia).
  destruct (buffer_write_ret varSize [0] (allocate (varSize + 1))) as [E L]; [lia|rewrite zlen_allocate by lia; change (zlen [0]) with 1; lia|].
  rewrite E. cbn [mbind outcome_bind]. eexists. split; [reflexivity|]. unfold varchar_ok. cbn [vc_varSize vc_value].
  rewrite L, zlen_allocate by lia. by split_and!; try lia.
Qed.

Definition sample_varchar : Varchar := mkVarchar false [None; None; None; None; Some 0] 4 None.

Lemma varchar_bounded_witness :
  match VARCHAR_fromString (bs "longer") sample_varchar with
  | Ret (v, ok) => VARCHAR_toString v = Ret (bs "long") /\ ok = false
  | _ => False
  end /\
  exists v', VARCHAR_fromString (bs "longer") sample_varchar = Ret (v', zlen (bs "longer") <=? vc_varSize sample_varchar) /\ varchar_ok v' /\
  vc_varSize v' = vc_varSize sample_varchar /\ VARCHAR_getWasTruncated v' = negb (zlen (bs "longer") <=? vc_varSize sample_varchar) /\
  VARCHAR_toString v' = Ret (c_str (ztake (vc_varSize sample_varchar) (bs "longer"))).
Proof.
  split; [split; reflexivity|]. apply (varchar_bounded (bs "longer") sample_varchar).
  split; [cbn; unfold SIZE_MAX, SIZE_MOD; lia|reflexivity].
Defined.

(** ** Copies *)
Section Copies.
Context {D J : Type} `{!JsonCpp J} `{!JsonNumbers D J} `{!FloatLib D} `{!InetLib} `{!TimeLib} `{!Base64BIO}.

Lemma c_str_idem s : c_str (c_str s) = c_str s.
Proof. induction s as [|c s IH]; [done|]. cbn [c_str]. destruct (c =? 0) eqn:E; [done|]. cbn [c_str]. by rewrite E, IH. Qed.

Lemma c_str_length s : zlen (c_str s) <= zlen s.
Proof. induction s as [|c s IH]; [done|]. cbn [c_str]. pose proof (zlen_nonneg s). destruct (c =? 0); rewrite ?zlen_cons; [unfold zlen at 1; cbn; lia|lia]. Qed.

Lemma buffer_read_length n b s : buffer_read n b = Ret s -> length s = n.
Proof.
  revert b s. induction n as [|n IH]; intros b s; cbn [buffer_read]; [by intros [= <-]|].
  destruct b as [|[c|] b]; [done| |done]. destruct (buffer_read n b) as [s'| | |] eqn:E; cbn; [|done..]. intros [= <-]. cbn. f_equal. eauto.
Qed.

(** The objects that can be copied: memory that was written and no lock held. *)
Definition copyable (o : Object D) : Prop :=
  match o with
  | oBINARY b => ba_locked b = false /\ 0 <= ba_dataSize b /\ exists data, array_bytes b = Ret data
  | oVARCHAR v => varchar_ok v /\ exists text, varchar_holds v text
  | oMACADDR a => length a = 6%nat
  | _ => True
  end.

Lemma binary_copied b data :
  ba_locked b = false -> 0 <= ba_dataSize b -> array_bytes b = Ret data ->
  exists b', BINARY_setValue b (mkByteArray None 0 false) = Ret (b', true) /\ ba_locked b' = false /\ array_bytes b' = Ret data.
Proof.
  intros Hl Hs Hd. assert (length data = Z.to_nat (ba_dataSize b)) as Hlen.
  { unfold array_bytes in Hd. destruct (ba_ptr b) as [p|]; [by apply buffer_read_length in Hd|].
    destruct (Z.eqb_spec (ba_dataSize b) 0) as [->|]; [|done]. by injection Hd as <-. }
  unfold BINARY_setValue, with_lock. cbn [ba_locked]. rewrite Hd. cbn [mbind outcome_bind].
  destruct (buffer_write_ret 0 data (allocate (ba_dataSize b))) as [E _]; [lia|rewrite zlen_allocate by lia; unfold zlen; lia|].
  rewrite E. cbn [mbind outcome_bind]. eexists. split_and!; [reflexivity|done|]. unfold array_bytes. cbn [ba_ptr ba_dataSize].
  rewrite ztake_le0, app_nil_l by lia. rewrite <- Hlen. by rewrite buffer_read_text.
Qed.

Lemma varchar_copied v text :
  varchar_ok v -> varchar_holds v text ->
  exists v', VARCHAR_of (D := D) (vc_varSize v) (c_str text) = Ret (construct VARCHAR (oVARCHAR v')) /\ VARCHAR_toString v' = Ret (c_str text).
Proof.
  intros [Hs Hl] [rest Hr]. destruct (varchar_alloc_spec (vc_varSize v) Hs) as (w & Ew & Hw & Hsz).
  unfold VARCHAR_of. rewrite Ew. cbn [mbind outcome_bind]. unfold VARCHAR_assign, VARCHAR_setValue.
  assert (zlen (c_str text) <= vc_varSize v) as Hle.
  { pose proof (c_str_length text). rewrite Hr, zlen_app, zlen_map, zlen_cons in Hl. pose proof (zlen_nonneg rest). lia. }
  rewrite c_str_idem, Hsz, wrap_small by (unfold SIZE_MAX in Hs; lia).
  replace (Z.min (zlen (c_str text)) (vc_varSize v + 1)) with (zlen (c_str text)) by lia.
  pose proof (zlen_nonneg (c_str text)).
  destruct (varchar_store_spec (c_str text) (zlen (c_str text)) w Hw) as (v' & E & _ & _ & _ & rest' & Hr'); [lia|]. rewrite E.
  cbn [mbind outcome_bind]. exists v'. split; [done|]. unfold VARCHAR_toString. rewrite Hr', buffer_string_text, Hsz.
  by rewrite ztake_ge, c_str_idem by lia.
Qed.

(** A copy has the declared type and the text of the original.  It is never
    null, even when the original is. *)
Theorem var_copied (v : Var D) :
  copyable (m_object v) ->
  exists v', Var_copy v = Ret v' /\ Var_getVarType v' = Var_getVarType v /\ Var_toString v' = Var_toString v /\ Var_isNull v' = false.
Proof.
  intros Hc. unfold Var_copy, protectedCopy, Var_toString. destruct v as [n t o]. cbn [m_object] in *.
  destruct o; cbn [copyable] in Hc; try (eexists; split; [reflexivity|]; by split_and!).
  - destruct Hc as (Hl & Hs & data & Hd). destruct (binary_copied m_value data Hl Hs Hd) as (b' & E & Hl' & Hd').
    unfold BINARY_protectedCopy, with_lock. rewrite Hl, E. cbn [mbind outcome_bind]. eexists. split; [reflexivity|].
    split_and!; [done| |done]. cbn. unfold BINARY_toString, with_lock. by rewrite Hl, Hl', Hd, Hd'.
  - destruct Hc as (Hok & text & Ht). destruct (varchar_copied m text Hok Ht) as (v' & E & Et).
    unfold VARCHAR_protectedCopy. destruct Ht as [rest Ht]. rewrite Ht, buffer_string_text. cbn [mbind outcome_bind]. rewrite E.
    cbn [mbind outcome_bind]. eexists. split; [reflexivity|]. split_and!; [done| |done]. cbn. rewrite Et. unfold VARCHAR_toString.
    by rewrite Ht, buffer_string_text.
  - eexists. split; [reflexivity|]. split_and!; [done| |done]. cbn. do 2 f_equal.
    unfold MACADDR_assign, MACADDR_setValue, MACADDR_getValue. cbn [fst]. apply ztake_ge. unfold zlen. lia.
Qed.

(** ** BINARY *)

(** Reading returns the bytes, or is undefined; it does not go past the end. *)
Lemma buffer_read_short n b : (length b < n)%nat -> buffer_read n b = Undef.
Proof.
  revert b. induction n as [|n IH]; intros b Hl; [lia|]. destruct b as [|[c|] b]; [done| |done]. cbn [buffer_read].
  rewrite IH; [done|]. cbn in Hl. lia.
Qed.

Lemma binary_text_stored text p n :
  zlen text < SIZE_MAX -> BINARY_fromString text (mkByteArray p n false) = Ret (mkByteArray (Some (map Some text ++ [Some 0])) n false, true).
Proof.
  intros Ht. pose proof (zlen_nonneg text). unfold BINARY_fromString, with_lock. cbn [ba_locked ba_dataSize].
  rewrite wrap_small by (unfold SIZE_MAX in Ht; lia).
  destruct (buffer_write_ret (zlen text) [0] (allocate (zlen text + 1))) as [E1 L1];
    [lia|rewrite zlen_allocate by lia; change (zlen [0]) with 1; lia|]. rewrite E1. cbn [mbind outcome_bind].
  rewrite zlen_allocate in L1 by lia. set (b1 := ztake (zlen text) (allocate (zlen text + 1)) ++ map Some [0] ++ _) in *.
  destruct (buffer_write_ret 0 text b1) as [E2 _]; [lia|lia|]. rewrite E2. cbn [mbind outcome_bind].
  rewrite ztake_le0, app_nil_l, Z.add_0_l by lia. do 5 f_equal. unfold b1.
  rewrite zdrop_app_ge by (rewrite zlen_ztake, zlen_allocate; lia). rewrite zlen_ztake, zlen_allocate by lia.
  replace (zlen text - _) with 0 by lia. rewrite zdrop_le0 by lia.
  by rewrite zdrop_ge by (rewrite zlen_allocate by lia; change (zlen [0]) with 1; lia).
Qed.

(** [fromString] stores the text and leaves the size as it was: of a new
    variable nothing is read back, after a longer array more is read than is
    there; and [fromJSON] locks its mutex twice. *)
Theorem binary_text_lost (text : bytes) (j : J) (b : ByteArray) :
  zlen text < SIZE_MAX -> ba_locked b = false -> zlen text + 1 < ba_dataSize b ->
  (exists v, makeAbstract (D := D) BIN text = Ret (Some v) /\ Var_toString v = Ret []) /\
  (exists b', BINARY_fromString text b = Ret (b', true) /\ BINARY_toString b' = Undef) /\
  BINARY_fromJSON j b = Undef.
Proof.
  intros Ht Hb Ho. split_and!.
  - unfold makeAbstract. cbn [make_object mbind outcome_bind Var_fromString BINARY_new construct Var_setVarType m_object].
    rewrite binary_text_stored by done. by eexists.
  - destruct b as [p n l]. cbn [ba_locked ba_dataSize] in *. subst l. eexists. split; [by apply binary_text_stored|]. unfold BINARY_toString, with_lock, array_bytes. cbn [ba_locked ba_ptr ba_dataSize].
    apply buffer_read_short. rewrite length_app, length_map. cbn. unfold zlen in *. lia.
  - unfold BINARY_fromJSON, BINARY_fromString, with_lock. cbn [ba_locked]. by rewrite Hb.
Qed.
End Copies.

(** ** The map of variables

    One map from names to a variable or a map: what the two maps of the code
    stand for. *)
Inductive entry := eVariable (var : option Z) | eSubmap (vars : option Z).

Definition as_variable (e : entry) : option (option Z) := match e with eVariable p => Some p | eSubmap _ => None end.
Definition as_submap (e : entry) : option (option Z) := match e with eSubmap p => Some p | eVariable _ => None end.

Definition represents (m : VariableMap) (M : gmap bytes entry) : Prop :=
  forall k, mm_find k (m_variables m) = M !! k ≫= as_variable /\ mm_find k (m_submaps m) = M !! k ≫= as_submap.

Section Maps.
Context {V : Type}.
Implicit Types m : list (bytes * V).

(** Erasing what is there, as the code does after a search. *)
Lemma mm_find_erased j k m : mm_find j (if has_value (mm_find k m) then mm_erase k m else m) = if decide (j = k) then None else mm_find j m.
Proof.
  destruct (decide (j = k)) as [->|Hn].
  - destruct (mm_find k m) eqn:E; [apply mm_find_erase|done].
  - destruct (has_value _); [by apply mm_find_erase_ne|done].
Qed.

Lemma mm_find_key k m : k ∈ map fst m <-> mm_find k m <> None.
Proof.
  induction m as [|e m IH]; cbn [map].
  - split; [by intros ?%not_elem_of_nil|done].
  - rewrite mm_find_cons, elem_of_cons, IH. case_bool_decide; [|by split; [intros [->|?]|by right]].
    split; [done|by left].
Qed.
End Maps.

Lemma removeVariable_maps k m :
  m_variables (removeVariable k m) = (if has_value (mm_find k (m_variables m)) then mm_erase k (m_variables m) else m_variables m) /\
  m_submaps (removeVariable k m) = (if has_value (mm_find k (m_submaps m)) then mm_erase k (m_submaps m) else m_submaps m).
Proof.
  unfold removeVariable. destruct m as [vs ss]. cbn [m_variables m_submaps].
  destruct (has_value (mm_find k vs)); cbn [m_variables m_submaps]; by destruct (has_value (mm_find k ss)).
Qed.

Lemma represents_remove k m M : represents m M -> represents (removeVariable k m) (delete k M).
Proof.
  intros Hm j. destruct (removeVariable_maps k m) as [-> ->]. destruct (Hm j) as [H1 H2]. rewrite !mm_find_erased.
  destruct (decide (j = k)) as [->|Hn]; [by rewrite lookup_delete_eq|]. by rewrite lookup_delete_ne.
Qed.

(** C39. [VariableMap] is one map: a name stands for a variable or for a submap,
    never for both; inserting either replaces what the name stood for, and
    nothing else changes. *)
Theorem variablemap_refines (m : VariableMap) (M : gmap bytes entry) (name : bytes) (p : option Z) :
  represents m M ->
  represents (insertOrUpdateVariable name p m) (<[name := eVariable p]> M) /\
  represents (insertOrUpdateSubmap name p m) (<[name := eSubmap p]> M) /\
  represents (removeVariable name m) (delete name M) /\
  getVariable name m = match M !! name with Some (eVariable q) => q | _ => None end /\
  getSubmap name m = match M !! name with Some (eSubmap q) => q | _ => None end /\
  (name ∈ listVariableKeys m <-> exists q, M !! name = Some (eVariable q)) /\
  (name ∈ listSubmapKeys m <-> exists q, M !! name = Some (eSubmap q)).
Proof.
  intros Hm. pose proof (represents_remove name m M Hm) as Hr.
  assert (Hi : forall e j, (<[name := e]> M) !! j = if decide (j = name) then Some e else delete name M !! j).
  { intros e j. destruct (decide (j = name)) as [->|]; [apply lookup_insert_eq|by rewrite lookup_insert_ne, lookup_delete_ne]. }
  split_and!.
  - intros j. rewrite Hi. destruct (Hr j) as [H1 H2]. unfold insertOrUpdateVariable. cbn [m_variables m_submaps].
    destruct (decide (j = name)) as [->|]; [|by rewrite mm_find_om_set_ne].
    rewrite mm_find_om_set, H2, lookup_delete_eq. done.
  - intros j. rewrite Hi. destruct (Hr j) as [H1 H2]. unfold insertOrUpdateSubmap. cbn [m_variables m_submaps].
    destruct (decide (j = name)) as [->|]; [|by rewrite mm_find_om_set_ne].
    rewrite mm_find_om_set, H1, lookup_delete_eq. done.
  - exact Hr.
  - unfold getVariable. rewrite (proj1 (Hm name)). by destruct (M !! name) as [[q|q]|].
  - unfold getSubmap. rewrite (proj2 (Hm name)). by destruct (M !! name) as [[q|q]|].
  - unfold listVariableKeys. rewrite mm_find_key, (proj1 (Hm name)). destruct (M !! name) as [[q|q]|]; cbn; naive_solver.
  - unfold listSubmapKeys. rewrite mm_find_key, (proj2 (Hm name)). destruct (M !! name) as [[q|q]|]; cbn; naive_solver.
Qed.

Lemma represents_new : represents VariableMap_new ∅.
Proof. intros k. by rewrite lookup_empty. Qed.

Lemma variablemap_refines_witness :
  let m := insertOrUpdateVariable (bs "port") (Some 1) VariableMap_new in
  represents (insertOrUpdateSubmap (bs "port") (Some 2) m) (<[bs "port" := eSubmap (Some 2)]> (<[bs "port" := eVariable (Some 1)]> ∅)) /\
  getVariable (bs "port") (insertOrUpdateSubmap (bs "port") (Some 2) m) = None.
Proof.
  split; [|reflexivity].
  apply (variablemap_refines (insertOrUpdateVariable (bs "port") (Some 1) VariableMap_new) (<[bs "port" := eVariable (Some 1)]> ∅) (bs "port") (Some 2)).
  apply (variablemap_refines VariableMap_new ∅ (bs "port") (Some 1)), represents_new.
Defined.

(** ** Instances *)

#[local] Existing Instance plain_inet.
#[local] Existing Instance plain_inet_laws.
#[local] Instance no_float : FloatLib unit := {| double_zero := tt; double_to_string _ := bs "0.000000"; stod _ := Ret tt |}.
#[local] Instance utc : TimeLib := {| timezone := 0; mktime t := tm_sec t; strftime f v := to_string_signed v; scan_float s := None |}.
#[local] Existing Instance reference_bio.

Lemma var_remade_from_text_witness :
  makeAbstract (D := unit) INT16 (bs "-32768") = Ret (Some (mkVar false INT16 (oINT16 (-32768)))) /\
  exists t, Var_toString (D := unit) (mkVar false IPV4 (oIPV4 (mkIpv4 (address_of [10; 1; 2; 3]) 32))) = Ret t /\
  makeAbstract (D := unit) IPV4 t = Ret (Some (mkVar false IPV4 (oIPV4 (mkIpv4 (address_of [10; 1; 2; 3]) 32)))).
Proof.
  split; [reflexivity|]. apply (var_remade_from_text (mkVar false IPV4 (oIPV4 (mkIpv4 (address_of [10; 1; 2; 3]) 32))));
    [|reflexivity|reflexivity|discriminate].
  split; [|reflexivity]. split; [discriminate|reflexivity].
Defined.

Lemma var_copied_witness :
  Var_isNull (Var_setIsNull true (INT32_new (D := unit))) = true /\
  exists v', Var_copy (Var_setIsNull true (INT32_new (D := unit))) = Ret v' /\ Var_getVarType v' = INT32 /\
  Var_toString v' = Ret (bs "0") /\ Var_isNull v' = false.
Proof. split; [reflexivity|]. apply (var_copied (Var_setIsNull true (INT32_new (D := unit)))). exact I. Defined.

#[local] Existing Instance tree_json.

Lemma binary_text_lost_witness :
  let b := mkByteArray (Some (map Some (bs "0123456789"))) 10 false in
  BINARY_toString b = Ret (bs "0123456789") /\
  (exists v, makeAbstract (D := unit) BIN (bs "hi") = Ret (Some v) /\ Var_toString v = Ret []) /\
  (exists b', BINARY_fromString (bs "hi") b = Ret (b', true) /\ BINARY_toString b' = Undef) /\
  BINARY_fromJSON (json_string (bs "aGk=")) b = Undef.
Proof.
  intros b. split; [reflexivity|]. apply (binary_text_lost (bs "hi") (json_string (bs "aGk=")) b); [by vm_compute|reflexivity|by vm_compute].
Defined.

(** A pointer is not made from its text: its variable is a null pointer, which
    [getVariableAsString] dereferences. *)
Example pointer_variable_null :
  match setVariableFromString (D := unit) (bs "p") PTR (bs "000000FF") 1 ∅ VariableMap_new with
  | Ret (h, m) => getVariable (bs "p") m = None /\ getVariableAsString (bs "p") h m = Undef
  | _ => False
  end.
Proof. by vm_compute. Qed.

(** A minus sign is accepted by the unsigned classes, which wrap the value. *)
Example unsigned_minus : UINT64_fromString (bs "-1") 0 = (18446744073709551615, true) /\ UINT8_fromString (bs "-1") 0 = (0, false).
Proof. done. Qed.

(** The constructor of [INT8] with a value declares the type [INT64]. *)
Example int8_type : m_varType (INT8_of (D := unit) 5) = INT64 /\ m_varType (INT8_new (D := unit)) = INT8.
Proof. done. Qed.

(** A date without seconds is read through a variable that was not set. *)
Example date_without_seconds : fromISOTimeStr (bs "2024-01-02T03:04") = Undef.
Proof. done. Qed.
