(* ===== verification/JsonExpr.v ===== *)
(** * Expressions over JSON (Scripts_JSONExprEval)

    A text such as [IS_EQUAL($.role,"admin") && !(IS_NULL($.id))] is compiled:
    texts in quotes become numbered static texts, what is in parentheses becomes
    a numbered expression of its own, and what is left is split at " && " or at
    " || " into calls of operators.  [AtomicExpressionSide], [AtomicExpression]
    and [JSONEval] are the three classes of the code; the vector of the static
    texts is shared by all the objects of an expression and is passed beside
    them.  The paths of JsonCpp ([JsonPath]) and the regular expressions that
    users write ([UserRegex]) are parameters; the fixed patterns of the code are
    functions here. *)

From S2P Require Import Prelude SafeInt CLib Jwt.
From Stdlib Require Import ZArith Lia.
From stdpp Require Import gmap.
#[local] Open Scope Z_scope.

Class JsonPath (J : Type) := {
  (** [Json::Path(path).resolve(root)]. *)
  json_path : bytes -> J -> J;
  json_size : J -> Z;
  json_empty : J -> bool;
  (** [operator[]] with an [int], and [asString]: of some values they throw. *)
  json_at : J -> Z -> outcome J;
  json_text : J -> outcome bytes }.

(** [boost::regex] with the flag [extended], and [icase] or not; an expression
    that is none throws. *)
Class UserRegex (R : Type) := {
  regex_extended : bytes -> bool -> outcome R;
  regex_matches : R -> bytes -> bool }.

Section Expressions.
Context {J R : Type} `{!JsonCpp J} `{!JsonPath J} `{!UserRegex R}.

(** ** AtomicExpressionSide *)

Inductive SideType := NUMERIC | STATIC_STRING | JSONPATH | VOID_SIDE | UNDEFINED_SIDE.

Record Side := mkSide { sd_regexp : option R; sd_staticIndex : Z; sd_expr : bytes; sd_type : SideType }.

Definition Side_new : Side := mkSide None 0 [] UNDEFINED_SIDE.
Definition sd_set_type (t : SideType) (s : Side) : Side := mkSide (sd_regexp s) (sd_staticIndex s) (sd_expr s) t.
Definition getExpressionType (s : Side) : SideType := sd_type s.
Definition getRawExpression (s : Side) : bytes := sd_expr s.
Definition setRawExpression (value : bytes) (s : Side) : Side := mkSide (sd_regexp s) (sd_staticIndex s) (trim value) (sd_type s).
Definition getCompiledRegex (s : Side) : option R := sd_regexp s.
Definition setCompiledRegex (value : option R) (s : Side) : Side := mkSide value (sd_staticIndex s) (sd_expr s) (sd_type s).

(** The number behind [_STATIC_]. *)
Definition static_number (expr : bytes) : Z := (strtoul 10 (zdrop 8 expr)).1.

Definition determineExpressionType (m_staticTexts : list bytes) (s : Side) : Side * bool :=
  let m_expr := sd_expr s in
  match m_expr with
  | [] => (sd_set_type VOID_SIDE s, true)
  | c :: _ =>
      if c =? 36 then (sd_set_type JSONPATH s, true)
      else if forallb isdigit m_expr then (sd_set_type NUMERIC s, true)
      else if starts_with m_expr (bs "_STATIC_") && (zlen m_staticTexts >? static_number m_expr) then
        (mkSide (sd_regexp s) (wrapw 32 (static_number m_expr)) m_expr STATIC_STRING, true)
      else (sd_set_type UNDEFINED_SIDE s, false)
  end.

Definition compileRegexPattern (r : bytes) (ignoreCase : bool) (s : Side) : outcome Side :=
  match sd_regexp s with
  | Some _ => Ret s
  | None => x ← regex_extended (c_str r) ignoreCase; Ret (setCompiledRegex (Some x) s)
  end.

(** The elements of the result of a path, from [i] on. *)
Fixpoint resolve_items (n : nat) (i : Z) (result : J) (res : gset bytes) : outcome (gset bytes) :=
  match n with
  | Datatypes.O => Ret res
  | Datatypes.S n => x ← json_at result i; t ← json_text x; resolve_items n (i + 1) result ({[t]} ∪ res)
  end.

(** A value that is empty and not null is an array or an object without
    elements; a single value has the size zero. *)
Definition resolve_path (m_expr : bytes) (v : J) : outcome (gset bytes) :=
  let result := json_path (zdrop 1 m_expr) v in
  if json_empty result && negb (json_isNull result) then t ← json_text result; Ret {[t]}
  else resolve_items (Z.to_nat (json_size result)) 0 result ∅.

Definition resolveValueSet (m_staticTexts : list bytes) (v : J) (resolveRegex ignoreCase : bool) (s : Side)
    : outcome (Side * gset bytes) :=
  match sd_type s with
  | JSONPATH => res ← resolve_path (sd_expr s) v; Ret (s, res)
  | STATIC_STRING =>
      match m_staticTexts !! Z.to_nat (static_number (sd_expr s)) with
      | None => Undef
      | Some text =>
          if resolveRegex then s ← compileRegexPattern text ignoreCase s; Ret (s, ∅) else Ret (s, {[text]})
      end
  | NUMERIC =>
      if resolveRegex then s ← compileRegexPattern (sd_expr s) ignoreCase s; Ret (s, ∅) else Ret (s, {[sd_expr s]})
  | VOID_SIDE | UNDEFINED_SIDE => Ret (s, ∅)
  end.

(** ** AtomicExpression *)

Inductive Operator := CONTAINS | REGEXMATCH | ISEQUAL | STARTSWITH | ENDSWITH | ISNULL | UNDEFINED_OP.
#[export] Instance Operator_eq_dec : EqDecision Operator.
Proof. solve_decision. Defined.

Record AtomicExpression := mkAtomic {
  ae_expr : bytes;
  ae_left : Side;
  ae_right : Side;
  m_evalOperator : Operator;
  ae_negative : bool;
  m_ignoreCase : bool }.

Definition Atomic_new : AtomicExpression := mkAtomic [] Side_new Side_new UNDEFINED_OP false false.

Definition calcNegative (r : bool) (a : AtomicExpression) : bool := if ae_negative a then negb r else r.

(** *** The patterns

    The end of a line: Boost's [$]; its start is [at_line_start]. *)
Definition at_line_end (rest : bytes) : bool := match rest with [] => true | c :: _ => line_separator c end.

(** A text that is not empty up to a character, and the rest behind it. *)
Definition until_char (c : Z) (s : bytes) : option (bytes * bytes) :=
  match find_char c s with
  | Some n => if n =? 0 then None else Some (ztake n s, zdrop (n + 1) s)
  | None => None
  end.

(** [NAME\(([^,]+),([^\)]+)\)$] at the start of a text, or [NAME\(([^\)]+)\)$] for one argument. *)
Definition match_operator (name : bytes) (unary : bool) (s : bytes) : option (bytes * bytes) :=
  let prefix := name ++ [40] in
  if starts_with s prefix then
    let s := zdrop (zlen prefix) s in
    if unary then
      '(l, rest) ← until_char 41 s; if at_line_end rest then Some (l, []) else None
    else
      '(l, s) ← until_char 44 s; '(r, rest) ← until_char 41 s; if at_line_end rest then Some (l, r) else None
  else None.

(** The search for the pattern, from the left. *)
Fixpoint search_call (name : bytes) (unary : bool) (prev : option Z) (s : bytes) : option (bytes * bytes) :=
  match (if at_line_start prev s then match_operator name unary s else None) with
  | Some r => Some r
  | None => match s with [] => None | c :: s => search_call name unary (Some c) s end
  end.

Definition substractExpressions (m_staticTexts : list bytes) (name : bytes) (op : Operator) (a : AtomicExpression)
    : AtomicExpression * bool :=
  match search_call name (bool_decide (op = ISNULL)) None (ae_expr a) with
  | None => (a, false)
  | Some (l, r) =>
      let lside := setRawExpression l (ae_left a) in
      let rside := setRawExpression (if bool_decide (op = ISNULL) then [] else r) (ae_right a) in
      let '(lside, okl) := determineExpressionType m_staticTexts lside in
      let a := mkAtomic (ae_expr a) lside rside (m_evalOperator a) (ae_negative a) (m_ignoreCase a) in
      if negb okl then (a, false)
      else
        let '(rside, okr) := determineExpressionType m_staticTexts rside in
        let a := mkAtomic (ae_expr a) lside rside (m_evalOperator a) (ae_negative a) (m_ignoreCase a) in
        if negb okr then (a, false)
        else (mkAtomic (ae_expr a) lside rside op (ae_negative a) (m_ignoreCase a), true)
  end.

(** The operators, in the order in which they are tried. *)
Definition operators : list (bytes * Operator) :=
  [(bs "IS_EQUAL", ISEQUAL); (bs "REGEX_MATCH", REGEXMATCH); (bs "CONTAINS", CONTAINS); (bs "STARTS_WITH", STARTSWITH);
   (bs "ENDS_WITH", ENDSWITH); (bs "IS_NULL", ISNULL)].

Fixpoint try_operators (m_staticTexts : list bytes) (ops : list (bytes * Operator)) (a : AtomicExpression) : AtomicExpression * bool :=
  match ops with
  | [] => (a, false)
  | (name, op) :: ops =>
      let '(a, ok) := substractExpressions m_staticTexts name op a in
      if ok : bool then (a, true) else try_operators m_staticTexts ops a
  end.

Definition compile (m_staticTexts : list bytes) (expr : bytes) (a : AtomicExpression) : AtomicExpression * bool :=
  let '(neg, expr) := if starts_with expr [33] then (true, zdrop 1 expr) else (ae_negative a, expr) in
  let '(ignore, expr) := if starts_with expr [105] then (true, zdrop 1 expr) else (m_ignoreCase a, expr) in
  let '(a, ok) := try_operators m_staticTexts operators (mkAtomic expr (ae_left a) (ae_right a) (m_evalOperator a) neg ignore) in
  if ok : bool then (a, true)
  else (mkAtomic (ae_expr a) (ae_left a) (ae_right a) UNDEFINED_OP false (m_ignoreCase a), false).

(** *** Evaluation *)

Definition ends_with (s suffix : bytes) : bool := starts_with (reverse s) (reverse suffix).
Definition iends_with (s suffix : bytes) : bool := ends_with (to_upper_copy s) (to_upper_copy suffix).
Definition contains_str (s needle : bytes) : bool := bool_decide (needle = []) || has_value (find_str needle s).
Definition icontains_str (s needle : bytes) : bool := contains_str (to_upper_copy s) (to_upper_copy needle).

(** Some value of the left side and some value of the right one. *)
Definition any_pair (test : bytes -> bytes -> bool) (lvalues rvalues : gset bytes) : bool :=
  existsb (fun lvalue => existsb (test lvalue) (elements rvalues)) (elements lvalues).

(** The answer of the operator, before the negation. *)
Definition apply_operator (op : Operator) (ignoreCase : bool) (regexp : option R) (lvalues rvalues : gset bytes) : bool :=
  match op with
  | UNDEFINED_OP => false
  | ENDSWITH => any_pair (if ignoreCase then iends_with else ends_with) lvalues rvalues
  | STARTSWITH => any_pair (if ignoreCase then istarts_with else starts_with) lvalues rvalues
  | ISEQUAL =>
      if ignoreCase then any_pair (fun lvalue rvalue => iequals rvalue lvalue) lvalues rvalues
      else existsb (fun rvalue => bool_decide (rvalue ∈ lvalues)) (elements rvalues)
  | ISNULL => bool_decide (lvalues = ∅)
  | CONTAINS => any_pair (if ignoreCase then icontains_str else contains_str) lvalues rvalues
  | REGEXMATCH =>
      existsb (fun lvalue => match regexp with Some x => regex_matches x (c_str lvalue) | None => false end) (elements lvalues)
  end.

Definition atomic_evaluate (m_staticTexts : list bytes) (values : J) (a : AtomicExpression) : outcome (AtomicExpression * bool) :=
  let regex := bool_decide (m_evalOperator a = REGEXMATCH) in
  '(lside, lvalues) ← resolveValueSet m_staticTexts values regex (m_ignoreCase a) (ae_left a);
  '(rside, rvalues) ← resolveValueSet m_staticTexts values regex (m_ignoreCase a) (ae_right a);
  let a := mkAtomic (ae_expr a) lside rside (m_evalOperator a) (ae_negative a) (m_ignoreCase a) in
  Ret (a, calcNegative (apply_operator (m_evalOperator a) (m_ignoreCase a) (getCompiledRegex rside) lvalues rvalues) a).

(** ** JSONEval *)

Inductive EvaluationMode := OR | AND | UNDEFINED_MODE.

(** An atom is an atomic expression, or none and the number of a sub-expression. *)
Inductive JSONEval := mkJSONEval
  (m_expression m_lastError : bytes)
  (m_subExpressions : list JSONEval)
  (m_atomExpressions : list (option AtomicExpression * Z))
  (m_negativeExpression m_isCompiled : bool)
  (m_evaluationMode : EvaluationMode).

Definition je_expression (e : JSONEval) : bytes := let 'mkJSONEval x _ _ _ _ _ _ := e in x.
Definition je_lastError (e : JSONEval) : bytes := let 'mkJSONEval _ x _ _ _ _ _ := e in x.
Definition je_subs (e : JSONEval) : list JSONEval := let 'mkJSONEval _ _ x _ _ _ _ := e in x.
Definition je_atoms (e : JSONEval) : list (option AtomicExpression * Z) := let 'mkJSONEval _ _ _ x _ _ _ := e in x.
Definition je_negative (e : JSONEval) : bool := let 'mkJSONEval _ _ _ _ x _ _ := e in x.
Definition je_compiled (e : JSONEval) : bool := let 'mkJSONEval _ _ _ _ _ x _ := e in x.
Definition je_mode (e : JSONEval) : EvaluationMode := let 'mkJSONEval _ _ _ _ _ _ x := e in x.

Definition JSONEval_new (negative : bool) : JSONEval := mkJSONEval [] [] [] [] negative false UNDEFINED_MODE.
Definition je_set_expression (x : bytes) (e : JSONEval) : JSONEval :=
  mkJSONEval x (je_lastError e) (je_subs e) (je_atoms e) (je_negative e) (je_compiled e) (je_mode e).
Definition je_set_error (x : bytes) (e : JSONEval) : JSONEval :=
  mkJSONEval (je_expression e) x (je_subs e) (je_atoms e) (je_negative e) (je_compiled e) (je_mode e).
Definition je_set_subs (x : list JSONEval) (e : JSONEval) : JSONEval :=
  mkJSONEval (je_expression e) (je_lastError e) x (je_atoms e) (je_negative e) (je_compiled e) (je_mode e).
Definition je_set_atoms (x : list (option AtomicExpression * Z)) (e : JSONEval) : JSONEval :=
  mkJSONEval (je_expression e) (je_lastError e) (je_subs e) x (je_negative e) (je_compiled e) (je_mode e).
Definition je_set_compiled (x : bool) (e : JSONEval) : JSONEval :=
  mkJSONEval (je_expression e) (je_lastError e) (je_subs e) (je_atoms e) (je_negative e) x (je_mode e).
Definition je_set_mode (x : EvaluationMode) (e : JSONEval) : JSONEval :=
  mkJSONEval (je_expression e) (je_lastError e) (je_subs e) (je_atoms e) (je_negative e) (je_compiled e) x.

Definition isCompiled (e : JSONEval) : bool := je_compiled e.
Definition getLastCompilerError (e : JSONEval) : bytes := je_lastError e.
Definition applyNegation (r : bool) (e : JSONEval) : bool := if je_negative e then negb r else r.

(** *** Static texts *)

(** The text between the first two quotes. *)
Definition quoted_text (expr : bytes) : option bytes :=
  match find_char 34 expr with
  | None => None
  | Some i => let rest := zdrop (i + 1) expr in option_map (fun n => ztake n rest) (find_char 34 rest)
  end.

Definition static_name (n : Z) : bytes := bs "_STATIC_" ++ to_string n.

Fixpoint precompile_texts (fuel : nat) (expr : bytes) (m_staticTexts : list bytes) : outcome (bytes * list bytes) :=
  match quoted_text expr, fuel with
  | None, _ => Ret (expr, m_staticTexts)
  | Some _, Datatypes.O => NoFuel
  | Some text, Datatypes.S fuel =>
      let pos := zlen m_staticTexts in
      precompile_texts fuel (replace_all ([34] ++ text ++ [34]) (static_name pos) expr) (m_staticTexts ++ [text])
  end.

(** While there are two spaces, every two are one. *)
Fixpoint compress_spaces (fuel : nat) (expr : bytes) : outcome bytes :=
  match find_str [32; 32] expr, fuel with
  | None, _ => Ret expr
  | Some _, Datatypes.O => NoFuel
  | Some _, Datatypes.S fuel => compress_spaces fuel (replace_all [32; 32] [32] expr)
  end.

(** *** Sub-expressions *)

(** What the scan of [extractSubExpressions] finds: nothing, a parenthesis that
    closes none, or the positions of a pair. *)
Inductive group := NoGroup | Unbalanced | Group (firstByte i : Z).

Fixpoint find_group (s : bytes) (i level firstByte : Z) : group :=
  match s with
  | [] => NoGroup
  | c :: s =>
      if c =? 40 then find_group s (i + 1) (level + 1) (if level =? 0 then i else firstByte)
      else if c =? 41 then
        if level =? 0 then Unbalanced
        else if level - 1 =? 0 then Group firstByte i
        else find_group s (i + 1) (level - 1) firstByte
      else find_group s (i + 1) level firstByte
  end.

Definition subexpr_name (n : Z) : bytes := bs "_SUBEXPR_" ++ to_string n.

(** [boost::replace_first]. *)
Definition replace_first (needle repl s : bytes) : bytes :=
  match find_str needle s with
  | None => s
  | Some n => ztake n s ++ repl ++ zdrop (n + zlen needle) s
  end.

(** What a compilation works on: the text, the sub-expressions and the shared texts. *)
Record Work := mkWork { w_expr : bytes; w_subs : list JSONEval; w_texts : list bytes }.

Section Extract.
(** The constructor of a sub-expression: the text, the shared texts, the negation. *)
Variable sub_new : bytes -> list bytes -> bool -> outcome (JSONEval * list bytes).

Definition extractSubExpressions (start : Z) (w : Work) : outcome (Z * Work) :=
  let expr := w_expr w in
  match find_group (zdrop start expr) start 0 0 with
  | NoGroup => Ret (zlen expr, w)
  | Unbalanced => Ret (zlen expr + 1, w)
  | Group firstByte i =>
      let subexpr := slice (firstByte + 1) (i - firstByte - 1) expr in
      let name := subexpr_name (zlen (w_subs w)) in
      let before := nth (Z.to_nat (firstByte - 1)) expr 0 in
      if (firstByte >? 0) && isalnum before then Ret (i + 1, w)
      else if (firstByte >? 0) && (before =? 33) then
        '(e, texts) ← sub_new subexpr (w_texts w) true;
        Ret (0, mkWork (replace_first ([33; 40] ++ subexpr ++ [41]) name expr) (w_subs w ++ [e]) texts)
      else
        '(e, texts) ← sub_new subexpr (w_texts w) false;
        Ret (0, mkWork (replace_first ([40] ++ subexpr ++ [41]) name expr) (w_subs w ++ [e]) texts)
  end.

(** The loop: [true] when the parentheses are balanced. *)
Fixpoint extract_all (fuel : nat) (sePos : Z) (w : Work) : outcome (Work * bool) :=
  '(sePos, w) ← extractSubExpressions sePos w;
  if sePos =? zlen (w_expr w) then Ret (w, true)
  else if sePos =? zlen (w_expr w) + 1 then Ret (w, false)
  else match fuel with
       | Datatypes.O => NoFuel
       | Datatypes.S fuel => extract_all fuel sePos w
       end.
End Extract.

(** The number of opening parentheses. *)
Definition parens (s : bytes) : nat := length (filter (fun c => c = 40) s).

(** *** The compiler *)

(** [boost::split] at one character. *)
Fixpoint split_char (sep : Z) (tok s : bytes) : list bytes :=
  match s with
  | [] => [tok]
  | c :: s => if c =? sep then tok :: split_char sep [] s else split_char sep (tok ++ [c]) s
  end.

(** The loop over the parts; the error it ends with. *)
Fixpoint compile_atoms (m_staticTexts : list bytes) (parts : list bytes) (e : JSONEval) : JSONEval * bool :=
  match parts with
  | [] => (e, true)
  | atomicExpr :: parts =>
      if starts_with atomicExpr (bs "_SUBEXPR_") then
        let subexpr_pos := (strtoul 10 (zdrop 9 atomicExpr)).1 in
        if subexpr_pos >=? zlen (je_subs e) then (je_set_error (bs "Invalid Sub Expression #") e, false)
        else compile_atoms m_staticTexts parts (je_set_atoms (je_atoms e ++ [(None, subexpr_pos)]) e)
      else
        let '(a, ok) := compile m_staticTexts atomicExpr Atomic_new in
        if negb ok then (je_set_mode UNDEFINED_MODE (je_set_error (bs "Invalid Atomic Expression") e), false)
        else compile_atoms m_staticTexts parts (je_set_atoms (je_atoms e ++ [(Some a, 0)]) e)
  end.

(** Separate AND and OR. *)
Definition compile_parts (m_staticTexts : list bytes) (expr : bytes) (e : JSONEval) : JSONEval * bool :=
  let has_and := has_value (find_str (bs " && ") expr) in
  let has_or := has_value (find_str (bs " || ") expr) in
  if has_and && has_or then
    (je_set_error (bs "Expression with both and/or and no precedence order") (je_set_mode UNDEFINED_MODE e), false)
  else
    let '(e, expr) := if has_and then (je_set_mode AND e, replace_all (bs " && ") [10] expr)
                      else (je_set_mode OR e, replace_all (bs " || ") [10] expr) in
    if has_value (find_char 32 expr) then (je_set_error (bs "Invalid Operator (only and/or is admitted)") e, false)
    else
      let '(e, ok) := compile_atoms m_staticTexts (split_char 10 [] expr) e in
      if ok : bool then (je_set_error [] e, true) else (e, false).

(** [parseExpression]; the fuel is for the nesting of the sub-expressions. *)
Fixpoint parseExpression (fuel : nat) (expr : bytes) (m_staticTexts : list bytes) (e : JSONEval)
    : outcome (JSONEval * list bytes * bool) :=
  let expr := trim expr in
  let e := je_set_expression expr e in
  '(expr, texts) ← precompile_texts (length expr) expr m_staticTexts;
  if has_value (find_char 34 expr) then Ret (je_set_error (bs "bad quoting in text") e, texts, false)
  else if has_value (find_char 10 expr) then Ret (je_set_error (bs "Mutiline expression not supported") e, texts, false)
  else if has_value (find_str (bs "_SUBEXPR_") expr) then Ret (je_set_error (bs "Invalid keyword _SUBEXPR_") e, texts, false)
  else
    expr ← compress_spaces (length expr) expr;
    match fuel with
    | Datatypes.O => NoFuel
    | Datatypes.S fuel =>
        let sub_new subexpr texts negative :=
          '(s, texts, ok) ← parseExpression fuel subexpr texts (JSONEval_new negative);
          Ret (je_set_compiled ok s, texts) in
        let bound := ((parens expr + 1) * (parens expr + 1))%nat in
        '(w, balanced) ← extract_all sub_new bound 0 (mkWork expr (je_subs e) texts);
        let e := je_set_subs (w_subs w) e in
        if negb balanced then Ret (je_set_error (bs "bad parenthesis balancing") e, w_texts w, false)
        else
          let '(e, ok) := compile_parts (w_texts w) (w_expr w) e in
          Ret (e, w_texts w, ok)
    end.

(** The constructor of a whole expression: the object and its static texts. *)
Definition JSONEval_of (expr : bytes) : outcome (JSONEval * list bytes) :=
  '(e, texts, ok) ← parseExpression (parens expr + 1) expr [] (JSONEval_new false);
  Ret (je_set_compiled ok e, texts).

(** *** The evaluation *)

Section Evaluate.
Variable m_staticTexts : list bytes.
Variable values : J.

(** The loop of both modes: it stops at the first answer [stop]. *)
Fixpoint evaluate_atoms (eval_sub : JSONEval -> outcome (JSONEval * bool)) (stop : bool)
    (before atoms : list (option AtomicExpression * Z)) (subs : list JSONEval)
    : outcome (list (option AtomicExpression * Z) * list JSONEval * bool) :=
  match atoms with
  | [] => Ret (before, subs, negb stop)
  | (Some a, n) :: atoms =>
      '(a, r) ← atomic_evaluate m_staticTexts values a;
      if Bool.eqb r stop then Ret (before ++ (Some a, n) :: atoms, subs, stop)
      else evaluate_atoms eval_sub stop (before ++ [(Some a, n)]) atoms subs
  | (None, n) :: atoms =>
      match subs !! Z.to_nat n with
      | None => Undef
      | Some s =>
          '(s, r) ← eval_sub s;
          let subs := <[Z.to_nat n := s]> subs in
          if Bool.eqb r stop then Ret (before ++ (None, n) :: atoms, subs, stop)
          else evaluate_atoms eval_sub stop (before ++ [(None, n)]) atoms subs
      end
  end.

(** [evaluate]; the fuel is for the nesting. *)
Fixpoint evaluate (fuel : nat) (e : JSONEval) : outcome (JSONEval * bool) :=
  match je_mode e, fuel with
  | UNDEFINED_MODE, _ => Ret (e, false)
  | _, Datatypes.O => NoFuel
  | mode, Datatypes.S fuel =>
      let stop := match mode with AND => false | _ => true end in
      '(atoms, subs, r) ← evaluate_atoms (evaluate fuel) stop [] (je_atoms e) (je_subs e);
      let e := je_set_atoms atoms (je_set_subs subs e) in
      Ret (e, applyNegation r e)
  end.
End Evaluate.

(** The nesting of an expression. *)
Fixpoint depth (e : JSONEval) : nat :=
  let 'mkJSONEval _ _ subs _ _ _ _ := e in Datatypes.S (foldr Nat.max 0%nat (map depth subs)).

(** An expression that is compiled from its text and evaluated. *)
Definition run_expression (expr : bytes) (values : J) : outcome bool :=
  '(e, texts) ← JSONEval_of expr;
  '(_, r) ← evaluate texts values (depth e) e;
  Ret r.
End Expressions.
