(* ===== verification/JsonExprTheory.v ===== *)
(** * Expressions over JSON: the theorems

    The grammar of the expressions as a data type, its texts and its meaning;
    the compiled form of a text evaluates to the meaning of what was written. *)

From S2P Require Import Prelude SafeInt CLib Encoders VarNet Jwt JwtVerify JsonExpr.
From Stdlib Require Import ZArith Lia.
From stdpp Require Import gmap.
#[local] Open Scope Z_scope.

(** ** Searching in texts *)

Lemma starts_with_elem s needle x : starts_with s needle = true -> x ∈ needle -> x ∈ s.
Proof. intros Hs%starts_with_split Hx. rewrite Hs. apply elem_of_app. by left. Qed.

Lemma find_str_missing x needle s : x ∈ needle -> x ∉ s -> find_str needle s = None.
Proof.
  intros Hx. induction s as [|c s IH]; intros Hn; cbn [find_str].
  - destruct needle; [by apply not_elem_of_nil in Hx|done].
  - destruct (starts_with _ _) eqn:E; [exfalso; by apply Hn, (starts_with_elem _ _ _ E)|].
    apply not_elem_of_cons in Hn as [_ Hn]. by rewrite IH.
Qed.

Lemma find_str_hit x n a b : x ∉ a -> find_str (x :: n) (a ++ (x :: n) ++ b) = Some (zlen a).
Proof.
  induction a as [|c a IH]; intros Hn.
  - cbn [app find_str]. change (x :: n ++ b) with ((x :: n) ++ b). by rewrite starts_with_app.
  - apply not_elem_of_cons in Hn as [Hc Hn]. cbn [app find_str starts_with]. replace (c =? x) with false by (symmetry; apply Z.eqb_neq; congruence).
    cbn [andb]. change (x :: n ++ b) with ((x :: n) ++ b). rewrite (IH Hn), zlen_cons. done.
Qed.

Lemma starts_with_sep sep a b needle : sep ∉ needle -> starts_with (a ++ sep :: b) needle = true -> starts_with a needle = true.
Proof.
  revert needle. induction a as [|c a IH]; intros [|x needle] Hs; try done; apply not_elem_of_cons in Hs as [H1 H2]; cbn [app starts_with].
  - intros [E%Z.eqb_eq _]%andb_true_iff. congruence.
  - intros [-> ?]%andb_true_iff. by rewrite (IH _ H2).
Qed.

(** A character that is not in the needle separates the search. *)
Lemma find_str_sep sep needle a b :
  sep ∉ needle -> needle <> [] -> find_str needle a = None -> find_str needle b = None -> find_str needle (a ++ sep :: b) = None.
Proof.
  intros Hs Hne. induction a as [|c a IH]; intros Ha Hb.
  - cbn [app find_str]. destruct needle as [|x needle]; [done|]. apply not_elem_of_cons in Hs as [Hs _]. cbn [starts_with].
    replace (sep =? x) with false by lia. cbn [andb]. by rewrite Hb.
  - cbn [app find_str] in *. destruct (starts_with (c :: a ++ sep :: b) needle) eqn:E.
    + rewrite app_comm_cons in E. apply starts_with_sep in E; [|done]. by rewrite E in Ha.
    + destruct (starts_with (c :: a) needle); [done|]. destruct (find_str needle a) eqn:Ea; [done|]. by rewrite IH.
Qed.

(** No two spaces follow each other. *)
Definition single_spaces (s : bytes) : Prop := find_str [32; 32] s = None.

Lemma single_spaces_app a b :
  single_spaces a -> single_spaces b -> last a <> Some 32 \/ head b <> Some 32 -> single_spaces (a ++ b).
Proof.
  unfold single_spaces. induction a as [|c a IH]; intros Ha Hb Hj; [done|]. cbn [app find_str] in *.
  assert (Ha' : find_str [32; 32] a = None) by (destruct (starts_with (c :: a) _); [done|]; by destruct (find_str [32; 32] a)).
  assert (starts_with (c :: a ++ b) [32; 32] = false) as ->.
  { cbn [starts_with]. destruct (Z.eqb_spec c 32) as [->|]; [|done]. destruct a as [|c' a]; cbn [app starts_with andb] in *.
    - destruct b as [|y b]; [done|]. cbn [starts_with]. destruct (Z.eqb_spec y 32) as [->|]; [|done]. by destruct Hj.
    - destruct (c' =? 32); [|done]. by destruct a. }
  rewrite IH; [done..|]. destruct Hj as [Hj|Hj]; [|by right]. destruct a as [|c' a]; [by left|]. left. by rewrite last_cons_cons in Hj.
Qed.

Lemma single_spaces_none s : 32 ∉ s -> single_spaces s.
Proof. apply find_str_missing. by left. Qed.

Lemma compress_single fuel s : single_spaces s -> compress_spaces fuel s = Ret s.
Proof. unfold single_spaces. intros E. destruct fuel; cbn [compress_spaces]; by rewrite E. Qed.

Lemma trim_tight c s d : isspace c = false -> isspace d = false -> last (c :: s) = Some d -> trim (c :: s) = c :: s.
Proof.
  intros Hc Hd Hl. unfold trim. cbn [trim_left]. rewrite Hc. apply last_Some in Hl as [l El]. rewrite El, reverse_snoc. cbn [trim_left].
  by rewrite Hd, <- reverse_snoc, reverse_involutive.
Qed.

(** ** Splitting at a separator *)
Lemma join_cons sep x l : l <> [] -> join_with sep (x :: l) = x ++ sep ++ join_with sep l.
Proof. by destruct l. Qed.

Lemma split_char_plain sep tok s : sep ∉ s -> split_char sep tok s = [tok ++ s].
Proof.
  revert tok. induction s as [|c s IH]; intros tok Hs; cbn [split_char]; [by rewrite app_nil_r|].
  apply not_elem_of_cons in Hs as [H1 H2]. replace (c =? sep) with false by lia. rewrite IH by done. by rewrite <- app_assoc.
Qed.

Lemma split_char_step sep tok s t : sep ∉ s -> split_char sep tok (s ++ sep :: t) = (tok ++ s) :: split_char sep [] t.
Proof.
  revert tok. induction s as [|c s IH]; intros tok Hs; cbn [app split_char]; [by rewrite Z.eqb_refl, app_nil_r|].
  apply not_elem_of_cons in Hs as [H1 H2]. replace (c =? sep) with false by lia. rewrite IH by done. by rewrite <- app_assoc.
Qed.

Lemma split_char_join sep l : l <> [] -> Forall (fun s => sep ∉ s) l -> split_char sep [] (join_with [sep] l) = l.
Proof.
  intros Hne Hl. induction Hl as [|s l Hs Hl IH]; [done|]. destruct l as [|s' l]; [by apply split_char_plain|].
  rewrite join_cons by done. cbn [app]. rewrite split_char_step by done. by rewrite IH.
Qed.

Lemma replace_all_join x n repl l :
  Forall (fun s => x ∉ s) l -> replace_all (x :: n) repl (join_with (x :: n) l) = join_with repl l.
Proof.
  induction 1 as [|s l Hs Hl IH]; [done|]. destruct l as [|s' l].
  - cbn [join_with]. rewrite <- (app_nil_r s) at 1. rewrite replace_all_plain by done. by rewrite replace_all_nil, app_nil_r.
  - rewrite !join_cons by done. rewrite replace_all_plain, replace_all_hit by done. by rewrite IH.
Qed.

Lemma join_elem c sep l : c ∈ join_with sep l -> c ∈ sep \/ exists s, s ∈ l /\ c ∈ s.
Proof.
  induction l as [|s l IH]; [by intros ?%not_elem_of_nil|]. destruct l as [|s' l].
  - cbn. intros Hc. right. exists s. split; [by left|done].
  - rewrite join_cons by done. rewrite !elem_of_app. intros [Hc|[Hc|Hc]]; [right; exists s; split; [by left|done]|by left|].
    destruct (IH Hc) as [?|(t & Ht & ?)]; [by left|]. right. exists t. split; [by right|done].
Qed.

(** ** The scan for parentheses *)

Definition no_paren (s : bytes) : Prop := (40 ∉ s) /\ (41 ∉ s).

Lemma no_paren_app a b : no_paren (a ++ b) <-> no_paren a /\ no_paren b.
Proof. unfold no_paren. rewrite !not_elem_of_app. tauto. Qed.

Lemma no_paren_cons c s : no_paren (c :: s) <-> (c <> 40 /\ c <> 41) /\ no_paren s.
Proof. unfold no_paren. rewrite !not_elem_of_cons. intuition congruence. Qed.

Lemma no_paren_nil : no_paren [].
Proof. split; apply not_elem_of_nil. Qed.

(** The scan passes over the text and is at the same level behind it. *)
Definition closed (s : bytes) : Prop :=
  forall t i level fb, 0 < level -> find_group (s ++ t) i level fb = find_group t (i + zlen s) level fb.

Lemma find_group_plain s t i level fb : no_paren s -> find_group (s ++ t) i level fb = find_group t (i + zlen s) level fb.
Proof.
  revert i. induction s as [|c s IH]; intros i Hs; cbn [app]; [by rewrite Z.add_0_r|].
  apply no_paren_cons in Hs as [[H1 H2] Hs]. cbn [find_group]. replace (c =? 40) with false by lia. replace (c =? 41) with false by lia.
  rewrite IH, zlen_cons by done. f_equal. lia.
Qed.

Lemma closed_plain s : no_paren s -> closed s.
Proof. intros Hs t i level fb _. by apply find_group_plain. Qed.

Lemma closed_app a b : closed a -> closed b -> closed (a ++ b).
Proof. intros Ha Hb t i level fb Hl. rewrite <- app_assoc, Ha, Hb, zlen_app by done. f_equal. lia. Qed.

Lemma closed_group a : closed a -> closed (40 :: a ++ [41]).
Proof.
  intros Ha t i level fb Hl. cbn [app find_group Z.eqb Pos.eqb]. rewrite <- app_assoc, Ha by lia. cbn [app find_group Z.eqb Pos.eqb].
  replace (level + 1 =? 0) with false by lia. replace (level + 1 - 1) with level by lia. replace (level =? 0) with false by lia.
  rewrite zlen_cons, zlen_app. f_equal. change (zlen [41]) with 1. lia.
Qed.

Lemma find_group_at B t C i :
  no_paren B -> closed t -> find_group (B ++ 40 :: t ++ 41 :: C) i 0 0 = Group (i + zlen B) (i + zlen B + 1 + zlen t).
Proof.
  intros HB Ht. rewrite find_group_plain by done. cbn [find_group Z.eqb Pos.eqb]. rewrite Ht by lia. done.
Qed.

Lemma find_group_none s i fb : no_paren s -> find_group s i 0 fb = NoGroup.
Proof. intros Hs. rewrite <- (app_nil_r s), find_group_plain by done. done. Qed.

(** Parentheses that are not nested; [inside] is between two of them. *)
Fixpoint flat (inside : bool) (s : bytes) : bool :=
  match s with
  | [] => negb inside
  | c :: s => if c =? 40 then negb inside && flat true s else if c =? 41 then inside && flat false s else flat inside s
  end.

Lemma flat_app inside a b : flat inside a = true -> flat false b = true -> flat inside (a ++ b) = true.
Proof.
  revert inside. induction a as [|c a IH]; intros inside Ha Hb; cbn [app flat] in *; [by destruct inside|].
  destruct (c =? 40); [|destruct (c =? 41)]; destruct inside; cbn [negb andb] in *; auto.
Qed.

Lemma flat_plain inside s : no_paren s -> flat inside s = negb inside.
Proof.
  induction s as [|c s IH]; intros Hs; [done|]. apply no_paren_cons in Hs as [[H1 H2] Hs]. cbn [flat].
  replace (c =? 40) with false by lia. replace (c =? 41) with false by lia. by apply IH.
Qed.

Lemma flat_group a : no_paren a -> flat false (40 :: a ++ [41]) = true.
Proof.
  intros Ha. cbn [flat Z.eqb Pos.eqb negb andb]. induction a as [|c a IH]; [done|]. apply no_paren_cons in Ha as [[H1 H2] Ha].
  cbn [app flat]. replace (c =? 40) with false by lia. replace (c =? 41) with false by lia. by apply IH.
Qed.

(** What begins with a text without parentheses and an opening one is not found
    inside a pair of parentheses. *)
Lemma flat_mismatch u v r s : no_paren u -> flat true s = true -> starts_with (s ++ r) (u ++ 40 :: v) = false.
Proof.
  revert s. induction u as [|x u IH]; intros s Hu Hs; (destruct s as [|c s]; [done|]); cbn [app starts_with flat] in *.
  - destruct (c =? 40); [done|]. done.
  - apply no_paren_cons in Hu as [[H1 H2] Hu]. destruct (Z.eqb_spec c x) as [->|]; [|done].
    replace (x =? 40) with false in Hs by lia. replace (x =? 41) with false in Hs by lia. cbn [andb]. by apply IH.
Qed.

Lemma flat_no_group inside u v r s :
  no_paren u -> flat inside s = true -> s <> [] -> starts_with (s ++ r) (40 :: u ++ 40 :: v) = false.
Proof.
  intros Hu Hs Hne. destruct s as [|c s]; [done|]. cbn [app starts_with flat] in *. destruct (c =? 40); [|done].
  destruct inside; [done|]. cbn [negb andb] in *. by apply flat_mismatch.
Qed.

Definition bang (neg : bool) : bytes := if neg then [33] else [].

(** A nested group is found first where it stands. *)
Lemma find_nested inside neg a u v b :
  let n := bang neg ++ 40 :: u ++ 40 :: v in
  no_paren u -> flat inside a = true -> find_str n (a ++ n ++ b) = Some (zlen a).
Proof.
  intros n Hu. revert inside. induction a as [|c a IH]; intros inside Ha.
  - cbn [app]. assert (n <> []) by (unfold n; by destruct neg). destruct n as [|x n']; [done|]. cbn [app find_str].
    by rewrite app_comm_cons, starts_with_app.
  - cbn [app find_str]. assert (starts_with (c :: a ++ n ++ b) n = false) as ->.
    { destruct neg.
      - unfold n at 2. cbn [bang app starts_with]. destruct (Z.eqb_spec c 33) as [->|]; [|done]. cbn [andb].
        destruct a as [|c' a]; [done|]. cbn [flat Z.eqb Pos.eqb] in Ha. by apply (flat_no_group inside).
      - apply (flat_no_group inside _ _ _ (c :: a)); done. }
    assert (exists inside', flat inside' a = true) as [inside' Ha'].
    { cbn [flat] in Ha. destruct (c =? 40); [|destruct (c =? 41)]; destruct inside; cbn [negb andb] in Ha; eauto; done. }
    rewrite (IH _ Ha'), zlen_cons. done.
Qed.

(** ** The extraction of the nested groups *)

Definition sep_of (conj : bool) : bytes := if conj then bs " && " else bs " || ".

(** What stands before and after an element of a joined list. *)
Definition lead (sep : bytes) (l : list bytes) : bytes := match l with [] => [] | _ => join_with sep l ++ sep end.
Definition trail (sep : bytes) (l : list bytes) : bytes := match l with [] => [] | _ => sep ++ join_with sep l end.

Lemma lead_cons sep x l : lead sep (x :: l) = x ++ sep ++ lead sep l.
Proof. destruct l as [|y l]; cbn [lead]; [cbn; by rewrite app_nil_r|]. by rewrite join_cons, <- !app_assoc by done. Qed.

Lemma join_middle sep l1 x l2 : join_with sep (l1 ++ x :: l2) = lead sep l1 ++ x ++ trail sep l2.
Proof.
  induction l1 as [|y l1 IH].
  - destruct l2 as [|z l2]; cbn [app lead trail]; [cbn; by rewrite app_nil_r|]. by rewrite join_cons.
  - rewrite lead_cons. cbn [app]. rewrite join_cons, IH by (by destruct l1). by rewrite <- !app_assoc.
Qed.

Lemma lead_app sep l1 l2 : lead sep (l1 ++ l2) = lead sep l1 ++ lead sep l2.
Proof. induction l1 as [|x l1 IH]; [done|]. cbn [app]. rewrite !lead_cons, IH. by rewrite <- !app_assoc. Qed.

Lemma lead_join sep l : l <> [] -> lead sep l = join_with sep l ++ sep.
Proof. by destruct l. Qed.

Lemma join_app_ne sep l1 l2 : l1 <> [] -> join_with sep (l1 ++ l2) = join_with sep l1 ++ trail sep l2.
Proof.
  intros Hne. destruct l2 as [|x l2]; [by rewrite !app_nil_r|]. rewrite join_middle, lead_join by done. cbn [trail].
  destruct l2 as [|y l2]; cbn [trail]; [by rewrite app_nil_r, <- app_assoc|]. by rewrite (join_cons _ x), <- !app_assoc.
Qed.

Lemma nth_before (a b : bytes) d : nth (Z.to_nat (zlen (a ++ [d]) - 1)) ((a ++ [d]) ++ b) 0 = d.
Proof.
  rewrite zlen_app. change (zlen [d]) with 1. replace (zlen a + 1 - 1) with (zlen a) by lia. unfold zlen. rewrite Nat2Z.id, <- app_assoc.
  cbn [app]. by rewrite nth_middle.
Qed.

Section Extraction.
Context {J R : Type} `{!JsonCpp J} `{!JsonPath J} `{!UserRegex R}.
Context (sub_new : bytes -> list bytes -> bool -> outcome (@JSONEval R * list bytes)).
Implicit Types w : @Work R.

Lemma extract_call A B d args C w :
  w_expr w = A ++ (B ++ [d]) ++ 40 :: args ++ 41 :: C -> no_paren (B ++ [d]) -> isalnum d = true -> closed args ->
  extractSubExpressions sub_new (zlen A) w = Ret (zlen (A ++ (B ++ [d]) ++ 40 :: args ++ [41]), w).
Proof.
  intros E HB Hd Ha. unfold extractSubExpressions. rewrite E, zdrop_exact, find_group_at by done. cbv zeta.
  rewrite app_assoc. replace (zlen A + zlen (B ++ [d]) - 1) with (zlen ((A ++ B) ++ [d]) - 1) by (rewrite !zlen_app; lia).
  replace (A ++ B ++ [d]) with ((A ++ B) ++ [d]) by (by rewrite <- app_assoc). rewrite nth_before, Hd.
  replace (_ >? 0) with true by (rewrite zlen_app; change (zlen [d]) with 1; pose proof (zlen_nonneg A); pose proof (zlen_nonneg B); lia).
  cbn [andb]. do 2 f_equal. rewrite !zlen_app, !zlen_cons, !zlen_app. change (zlen [d]) with 1. change (zlen [41]) with 1. lia.
Qed.

Lemma replace_first_at n repl a b : find_str n (a ++ n ++ b) = Some (zlen a) -> replace_first n repl (a ++ n ++ b) = a ++ repl ++ b.
Proof.
  intros E. unfold replace_first. rewrite E, ztake_exact. do 2 f_equal. by rewrite app_assoc, <- zlen_app, zdrop_exact.
Qed.

Lemma extract_nest neg A B u v C e texts w :
  let t := u ++ 40 :: v in
  w_expr w = (A ++ B) ++ (bang neg ++ 40 :: t ++ [41]) ++ C ->
  no_paren B -> flat false (A ++ B) = true -> A ++ B = [] \/ (exists l, A ++ B = l ++ [32]) ->
  no_paren u -> closed t -> sub_new t (w_texts w) neg = Ret (e, texts) ->
  extractSubExpressions sub_new (zlen A) w =
    Ret (0, mkWork ((A ++ B) ++ subexpr_name (zlen (w_subs w)) ++ C) (w_subs w ++ [e]) texts).
Proof.
  intros t E HB Hf Hl Hu Hc Hs. unfold extractSubExpressions. rewrite E.
  assert (HF : find_str (bang neg ++ 40 :: t ++ [41]) ((A ++ B) ++ (bang neg ++ 40 :: t ++ [41]) ++ C) = Some (zlen (A ++ B))).
  { pose proof (find_nested false neg (A ++ B) u (v ++ [41]) C Hu Hf) as HF. unfold t. rewrite <- app_assoc. exact HF. }
  apply replace_first_at with (repl := subexpr_name (zlen (w_subs w))) in HF.
  assert (Hz : zdrop (zlen A) ((A ++ B) ++ (bang neg ++ 40 :: t ++ [41]) ++ C) = (B ++ bang neg) ++ 40 :: t ++ 41 :: C).
  { rewrite <- !app_assoc, zdrop_exact. cbn [app]. by rewrite <- app_assoc. }
  assert (no_paren (bang neg)) by (apply (bool_decide_unpack _); by destruct neg).
  rewrite Hz, find_group_at by (done || by apply no_paren_app). clear Hz. cbv zeta.
  set (expr := (A ++ B) ++ (bang neg ++ 40 :: t ++ [41]) ++ C) in *.
  assert (zlen A + zlen (B ++ bang neg) = zlen ((A ++ B) ++ bang neg)) as -> by (rewrite !zlen_app; lia).
  set (base := zlen ((A ++ B) ++ bang neg)). replace (base + 1 + zlen t - base - 1) with (zlen t) by lia.
  assert (slice (base + 1) (zlen t) expr = t) as ->.
  { replace expr with ((((A ++ B) ++ bang neg) ++ [40]) ++ t ++ 41 :: C) by (unfold expr; rewrite <- !app_assoc; cbn [app]; by rewrite <- app_assoc).
    replace (base + 1) with (zlen (((A ++ B) ++ bang neg) ++ [40])) by (rewrite zlen_app; done). apply slice_exact. }
  subst base.
  assert (Hn : forall l d, (A ++ B) ++ bang neg = l ++ [d] -> nth (Z.to_nat (zlen ((A ++ B) ++ bang neg) - 1)) expr 0 = d /\ 0 < zlen ((A ++ B) ++ bang neg)).
  { intros l d El. replace expr with (((A ++ B) ++ bang neg) ++ 40 :: t ++ 41 :: C) by (unfold expr; rewrite <- !app_assoc; cbn [app]; by rewrite <- app_assoc).
    rewrite El, nth_before, zlen_app. change (zlen [d]) with 1. pose proof (zlen_nonneg l). split; [done|lia]. }
  destruct neg.
  - destruct (Hn (A ++ B) 33 eq_refl) as [-> Hp]. change (isalnum 33) with false. rewrite Hs.
    replace (zlen ((A ++ B) ++ bang true) >? 0) with true by lia. cbn. do 3 f_equal. exact HF.
  - destruct Hl as [Hl|[l Hl]].
    + replace (zlen ((A ++ B) ++ bang false) >? 0) with false by (cbn [bang]; rewrite app_nil_r; by rewrite Hl).
      cbn [andb]. rewrite Hs. cbn. do 3 f_equal. exact HF.
    + destruct (Hn l 32) as [-> Hp]; [cbn [bang]; by rewrite app_nil_r|]. change (isalnum 32) with false. rewrite Hs.
      replace (zlen ((A ++ B) ++ bang false) >? 0) with true by lia. cbn. do 3 f_equal. exact HF.
Qed.

(** The elements of a text while the groups are extracted: a call, the name of a
    sub-expression, and a group with the object that is made of it. *)
Inductive piece := PCall (h args : bytes) | PSub (k : Z) | PNest (neg : bool) (t : bytes) (e : @JSONEval R).

Definition ptext (p : piece) : bytes :=
  match p with PCall h args => h ++ 40 :: args ++ [41] | PSub k => subexpr_name k | PNest neg t _ => bang neg ++ 40 :: t ++ [41] end.

Definition piece_ok (texts : list bytes) (p : piece) : Prop :=
  match p with
  | PCall h args => no_paren h /\ (exists h' d, h = h' ++ [d] /\ isalnum d = true) /\ no_paren args
  | PSub k => 0 <= k
  | PNest neg t e => closed t /\ (exists u v, t = u ++ 40 :: v /\ no_paren u) /\ sub_new t texts neg = Ret (e, texts)
  end.

Definition is_sub (p : piece) : bool := match p with PSub _ => true | _ => false end.
Definition is_nest (p : piece) : bool := match p with PNest _ _ _ => true | _ => false end.

Fixpoint resolve (n : Z) (l : list piece) : list piece :=
  match l with
  | [] => []
  | PNest _ _ _ :: l => PSub n :: resolve (n + 1) l
  | p :: l => p :: resolve n l
  end.

Fixpoint objects (l : list piece) : list JSONEval :=
  match l with [] => [] | PNest _ _ e :: l => e :: objects l | _ :: l => objects l end.
Fixpoint calls (l : list piece) : nat := match l with [] => 0%nat | PCall _ _ :: l => Datatypes.S (calls l) | _ :: l => calls l end.

Lemma resolve_app n l1 l2 : resolve n (l1 ++ l2) = resolve n l1 ++ resolve (n + zlen (objects l1)) l2.
Proof.
  revert n. induction l1 as [|p l1 IH]; intros n; cbn [app resolve objects]; [by rewrite Z.add_0_r|].
  destruct p; cbn [app]; rewrite IH; [done..|]. rewrite zlen_cons. do 2 f_equal. f_equal. lia.
Qed.

Lemma objects_app l1 l2 : objects (l1 ++ l2) = objects l1 ++ objects l2.
Proof. induction l1 as [|p l1 IH]; [done|]. destruct p; cbn [app objects]; by rewrite IH. Qed.

Lemma no_nests n l : Forall (fun p => is_nest p = false) l -> resolve n l = l /\ objects l = [].
Proof. induction 1 as [|p l Hp _ [IH1 IH2]]; [done|]. destruct p; [| |done]; cbn [resolve objects]; by rewrite IH1, IH2. Qed.

Lemma subs_no_nest l : Forall (fun p => is_sub p = true) l -> Forall (fun p => is_nest p = false) l.
Proof. intros Hl. apply (Forall_impl _ _ _ Hl). by intros []. Qed.

Lemma calls_app l1 l2 : calls (l1 ++ l2) = (calls l1 + calls l2)%nat.
Proof. induction l1 as [|p l1 IH]; [done|]. destruct p; cbn [app calls]; by rewrite IH. Qed.

Lemma subs_calls l : Forall (fun p => is_sub p = true) l -> calls l = 0%nat.
Proof. induction 1 as [|p l Hp _ IH]; [done|]. by destruct p. Qed.

Lemma split_subs l :
  Forall (fun p => is_sub p = true) l \/
  (exists pre x l', l = pre ++ x :: l' /\ Forall (fun p => is_sub p = true) pre /\ is_sub x = false).
Proof.
  induction l as [|p l IH]; [by left|]. destruct (is_sub p) eqn:Ep.
  - destruct IH as [IH|(pre & x & l' & -> & H1 & H2)]; [left; by constructor|]. right. exists (p :: pre), x, l'. by repeat constructor.
  - right. exists [], p, l. by repeat constructor.
Qed.

Context (conj : bool).
Abbreviation sep := (sep_of conj).
Abbreviation texts_of l := (map ptext l).

Lemma sep_no_paren : no_paren sep.
Proof. apply (bool_decide_unpack _). by destruct conj. Qed.

Lemma subexpr_name_no_paren k : 0 <= k -> no_paren (subexpr_name k).
Proof.
  intros Hk. unfold subexpr_name. apply no_paren_app. split; [by apply (bool_decide_unpack _)|].
  split; intros Hc; apply decimal_chars in Hc; lia.
Qed.

Lemma lead_subs texts l : Forall (piece_ok texts) l -> Forall (fun p => is_sub p = true) l -> no_paren (lead sep (texts_of l)).
Proof.
  induction 1 as [|p l Hp _ IH]; intros Hs; [apply no_paren_nil|]. apply Forall_cons in Hs as [H1 H2]. cbn [map]. rewrite lead_cons.
  destruct p as [| k |]; [done| |done]. cbn [ptext]. rewrite !no_paren_app. auto using sep_no_paren, subexpr_name_no_paren.
Qed.

Lemma lead_flat texts l : Forall (piece_ok texts) l -> Forall (fun p => is_nest p = false) l -> flat false (lead sep (texts_of l)) = true.
Proof.
  induction 1 as [|p l Hp _ IH]; intros Hs; [done|]. apply Forall_cons in Hs as [H1 H2]. cbn [map]. rewrite lead_cons.
  apply flat_app; [|apply flat_app; [|by apply IH]]; [|by rewrite flat_plain by apply sep_no_paren].
  destruct p as [h args| k |]; [| |done]; cbn [ptext piece_ok] in *.
  - destruct Hp as (Hh & _ & Ha). apply flat_app; [by rewrite flat_plain|]. by apply flat_group.
  - by rewrite flat_plain by (by apply subexpr_name_no_paren).
Qed.

Lemma lead_end l : lead sep l = [] \/ (exists t, lead sep l = t ++ [32]).
Proof.
  destruct l as [|x l]; [by left|]. right. cbn [lead].
  exists (join_with sep (x :: l) ++ (if conj then bs " &&" else bs " ||")). rewrite <- app_assoc. f_equal. by destruct conj.
Qed.

(** The text between the position of the scan and an element behind it. *)
Lemma scanned texts D pre :
  Forall (piece_ok texts) pre -> Forall (fun p => is_sub p = true) pre ->
  exists B, lead sep (texts_of (D ++ pre)) = join_with sep (texts_of D) ++ B /\ no_paren B.
Proof.
  intros H1 H2. rewrite map_app, lead_app. destruct D as [|p D]; [exists (lead sep (texts_of pre)); eauto using lead_subs|].
  exists (sep ++ lead sep (texts_of pre)). rewrite lead_join, app_assoc by done. split; [by rewrite <- app_assoc|].
  apply no_paren_app. eauto using lead_subs, sep_no_paren.
Qed.

Lemma scanned_end texts D l :
  Forall (piece_ok texts) l -> Forall (fun p => is_sub p = true) l ->
  exists B, join_with sep (texts_of (D ++ l)) = join_with sep (texts_of D) ++ B /\ no_paren B.
Proof.
  intros H1 H2. induction l as [|x l IH] using rev_ind; [exists []; rewrite !app_nil_r; eauto using no_paren_nil|].
  apply Forall_app in H1 as [H1 H3], H2 as [H2 H4]. destruct (scanned texts D l H1 H2) as (B & EB & HB).
  exists (B ++ ptext x). rewrite app_assoc, map_app. cbn [map]. rewrite join_middle, EB. cbn [trail]. rewrite app_nil_r, <- app_assoc. split; [done|].
  apply Forall_cons in H3 as [H3 _], H4 as [H4 _]. apply no_paren_app. split; [done|]. destruct x; [done| |done]. by apply subexpr_name_no_paren.
Qed.

Lemma ptext_nonempty p : ptext p <> [].
Proof. destruct p as [h args|k|[] t e]; cbn [ptext bang app]; [by destruct h|done..]. Qed.

(** The scan from behind [D]: at the next call it moves behind it, at the next
    group it starts again with the object made. *)
Lemma extract_step texts D pre x l subs :
  Forall (piece_ok texts) (D ++ pre ++ x :: l) -> Forall (fun p => is_nest p = false) D -> Forall (fun p => is_sub p = true) pre ->
  is_sub x = false ->
  extractSubExpressions sub_new (zlen (join_with sep (texts_of D))) (mkWork (join_with sep (texts_of (D ++ pre ++ x :: l))) subs texts) =
    match x with
    | PNest _ _ e => Ret (0, mkWork (join_with sep (texts_of (D ++ pre ++ PSub (zlen subs) :: l))) (subs ++ [e]) texts)
    | _ => Ret (zlen (join_with sep (texts_of (D ++ pre ++ [x]))), mkWork (join_with sep (texts_of (D ++ pre ++ x :: l))) subs texts)
    end.
Proof.
  intros Hok HD Hpre Hx. apply Forall_app in Hok as [HokD [Hokp [Hokx _]%Forall_cons]%Forall_app].
  destruct (scanned texts D pre Hokp Hpre) as (B & EB & HB).
  assert (Hj : forall y k, join_with sep (texts_of (D ++ pre ++ y :: k)) = (join_with sep (texts_of D) ++ B) ++ ptext y ++ trail sep (texts_of k)).
  { intros y k. rewrite app_assoc, map_app. cbn [map]. by rewrite join_middle, EB. }
  destruct x as [h args| |neg t e]; [|done|]; cbn [piece_ok] in Hokx.
  - destruct Hokx as (Hh & (h' & d & -> & Hd) & Ha).
    rewrite (extract_call (join_with sep (texts_of D)) (B ++ h') d args (trail sep (texts_of l))).
    + rewrite (Hj _ []). cbn [map trail ptext]. by rewrite app_nil_r, <- !app_assoc.
    + cbn [w_expr]. rewrite Hj. cbn [ptext]. rewrite <- !app_assoc. cbn [app]. by rewrite <- !app_assoc.
    + rewrite <- app_assoc. by apply no_paren_app.
    + done.
    + by apply closed_plain.
  - destruct Hokx as (Hc & (u & v & -> & Hu) & Hs).
    rewrite (extract_nest neg (join_with sep (texts_of D)) B u v (trail sep (texts_of l)) e texts); [cbn [w_subs]; by rewrite Hj| |done| | |done..].
    + cbn [w_expr]. rewrite Hj. done.
    + rewrite <- EB. apply (lead_flat texts); [by apply Forall_app|]. apply Forall_app. auto using subs_no_nest.
    + rewrite <- EB. apply lead_end.
Qed.

Lemma extract_pieces texts fuel D l subs :
  Forall (piece_ok texts) (D ++ l) -> Forall (fun p => is_nest p = false) D ->
  (length (objects l) * Datatypes.S (calls (D ++ l)) + calls l <= fuel)%nat ->
  extract_all sub_new fuel (zlen (join_with sep (texts_of D))) (mkWork (join_with sep (texts_of (D ++ l))) subs texts) =
    Ret (mkWork (join_with sep (texts_of (D ++ resolve (zlen subs) l))) (subs ++ objects l) texts, true).
Proof.
  revert D l subs. induction fuel as [|fuel IH]; intros D l subs Hok HD Hf.
  all: destruct (split_subs l) as [Hl|(pre & x & l' & -> & Hpre & Hx)].
  1,3: destruct (no_nests (zlen subs) l (subs_no_nest l Hl)) as [-> ->]; rewrite app_nil_r;
    apply Forall_app in Hok as [_ Hok]; destruct (scanned_end texts D l Hok Hl) as (B & EB & HB);
    unfold extract_all, extractSubExpressions; cbn [w_expr]; rewrite EB, zdrop_exact, find_group_none by done; cbn [mbind outcome_bind]; by rewrite Z.eqb_refl.
  - exfalso. rewrite !calls_app, objects_app, length_app in Hf. destruct x; [|done|]; cbn [calls objects length] in Hf; lia.
  - cbn [extract_all]. rewrite extract_step by done. destruct x as [h args| |neg t e]; [|done|]; cbn [mbind outcome_bind w_expr].
    + set (x := PCall h args) in *. change (pre ++ x :: l') with (pre ++ [x] ++ l') in *. rewrite (app_assoc pre) in *. set (q := pre ++ [x]) in *.
      assert (Hr : Forall (fun p => is_nest p = false) q) by (apply Forall_app; auto using subs_no_nest).
      destruct (no_nests (zlen subs) q Hr) as [Hr1 Hr2]. rewrite resolve_app, objects_app, Hr1, Hr2, Z.add_0_r in *. cbn [app] in *.
      rewrite (app_assoc D) in *. destruct l' as [|y l'].
      * cbn [resolve objects]. by rewrite !app_nil_r, Z.eqb_refl.
      * assert (Hz : zlen (join_with sep (texts_of (D ++ q))) < zlen (join_with sep (texts_of ((D ++ q) ++ y :: l')))).
        { rewrite (map_app _ (D ++ q)), join_app_ne, zlen_app by (unfold q; by destruct D, pre). cbn [map trail].
          assert (0 < zlen sep) by (by destruct conj). rewrite zlen_app. pose proof (zlen_nonneg (join_with sep (ptext y :: map ptext l'))). lia. }
        replace (_ =? _) with false by lia. replace (_ =? _) with false by lia.
        rewrite (app_assoc D q (resolve _ _)). apply IH; [done|by apply Forall_app|].
        assert (1 <= calls q)%nat by (unfold q, x; rewrite calls_app; cbn [calls]; lia). rewrite (calls_app q) in Hf. lia.
    + assert (Hz : 0 < zlen (join_with sep (texts_of (D ++ pre ++ PSub (zlen subs) :: l')))).
      { rewrite app_assoc, map_app. cbn [map]. rewrite join_middle, !zlen_app. cbn [ptext]. unfold subexpr_name. rewrite zlen_app.
        change (zlen (bs "_SUBEXPR_")) with 9. pose proof @zlen_nonneg. repeat match goal with |- context [zlen ?k] => pose proof (zlen_nonneg k); generalize dependent (zlen k); intros end. lia. }
      replace (_ =? _) with false by lia. replace (_ =? _) with false by lia.
      pose proof (no_nests (zlen subs) pre (subs_no_nest pre Hpre)) as [Hp1 Hp2]. pose proof (no_nests (zlen subs + 1) D HD) as [HD1 HD2].
      pose proof (no_nests (zlen subs + 1) pre (subs_no_nest pre Hpre)) as [Hp3 _].
      specialize (IH [] (D ++ pre ++ PSub (zlen subs) :: l') (subs ++ [e])). change (zlen (join_with sep (texts_of []))) with 0 in IH. cbn [app] in IH.
      rewrite IH; clear IH.
      * rewrite zlen_app. change (zlen [e]) with 1. rewrite !resolve_app, !objects_app, HD1, HD2, Hp1, Hp2. cbn [resolve objects app zlen length Z.of_nat].
        rewrite !Z.add_0_r, Hp3. by rewrite <- app_assoc.
      * apply Forall_app in Hok as [Ho1 [Ho2 [_ Ho3]%Forall_cons]%Forall_app]. apply Forall_app; split; [done|]. apply Forall_app; split; [done|].
        constructor; [apply zlen_nonneg|done].
      * done.
      * rewrite !objects_app, !calls_app, !length_app, HD2, Hp2 in *. cbn [calls objects length] in *. rewrite (subs_calls pre Hpre) in *. nia.
Qed.

Lemma parens_app (a b : bytes) : parens (a ++ b) = (parens a + parens b)%nat.
Proof. unfold parens. by rewrite filter_app, length_app. Qed.

Lemma parens_group (a b c : bytes) : (1 + parens b <= parens (a ++ 40%Z :: b ++ c))%nat.
Proof. rewrite parens_app. unfold parens. rewrite filter_cons_True, filter_app by done. cbn [length]. rewrite length_app. lia. Qed.

Lemma pieces_parens l : (calls l + length (objects l) <= parens (join_with sep (texts_of l)))%nat.
Proof.
  assert (forall p, (calls [p] + length (objects [p]) <= parens (ptext p))%nat) as Hp.
  { intros [h args|k|neg t e]; cbn [calls objects length ptext]; [|lia|]; match goal with |- context [40 :: ?a ++ ?b] => etransitivity; [|apply (parens_group _ a b)]; lia end. }
  induction l as [|p l IH]; [cbn; lia|]. specialize (Hp p). change (p :: l) with ([p] ++ l). rewrite calls_app, objects_app, length_app.
  pose proof (join_middle sep [] (ptext p) (texts_of l)) as Ej. cbn [lead app map] in *.
  rewrite Ej, parens_app. destruct l as [|q l]; [cbn [calls objects length map trail] in *; lia|].
  cbn [map trail]. rewrite parens_app. cbn [map] in IH. lia.
Qed.

(** The whole loop, with the bound of the compiler. *)
Lemma extract_whole texts l :
  let expr := join_with sep (texts_of l) in
  Forall (piece_ok texts) l ->
  extract_all sub_new ((parens expr + 1) * (parens expr + 1)) 0 (mkWork expr [] texts) =
    Ret (mkWork (join_with sep (texts_of (resolve 0 l))) (objects l) texts, true).
Proof.
  intros expr Hok. apply (extract_pieces texts _ [] l []); [done..|]. cbn [app]. pose proof (pieces_parens l). fold expr in H. nia.
Qed.
End Extraction.

(** ** The parts of a text *)

(** An element of a list of calls: no space and no other separator. *)
Definition item_ok (s : bytes) : Prop := s <> [] /\ (32 ∉ s) /\ (10 ∉ s) /\ (38 ∉ s) /\ (124 ∉ s).

Definition mode_of (conj : bool) (n : nat) : EvaluationMode := if conj && (2 <=? n)%nat then AND else OR.

Lemma join_no_char c conj l : c ∉ sep_of conj -> Forall (fun s => c ∉ s) l -> c ∉ join_with (sep_of conj) l.
Proof. intros Hc Hl [?|(s & Hs & ?)]%join_elem; [done|]. rewrite Forall_forall in Hl. by apply (Hl s). Qed.

(** Membership in a constant text. *)
Ltac elem_decide := apply (bool_decide_unpack _); vm_compute; exact I.

Section Parts.
Context {J R : Type} `{!JsonCpp J} `{!JsonPath J} `{!UserRegex R}.
Implicit Types e : @JSONEval R.

Lemma compile_parts_join T conj parts e :
  parts <> [] -> Forall item_ok parts ->
  compile_parts T (join_with (sep_of conj) parts) e =
    let '(e, ok) := compile_atoms T parts (je_set_mode (mode_of conj (length parts)) e) in if ok : bool then (je_set_error [] e, true) else (e, false).
Proof.
  intros Hne Hok. unfold compile_parts.
  assert (H32 : Forall (fun s => 32 ∉ s) parts) by (apply (Forall_impl _ _ _ Hok); by intros s (_ & ? & _)).
  assert (H10 : Forall (fun s => 10 ∉ s) parts) by (apply (Forall_impl _ _ _ Hok); by intros s (_ & _ & ? & _)).
  assert (H38 : Forall (fun s => 38 ∉ s) parts) by (apply (Forall_impl _ _ _ Hok); by intros s (_ & _ & _ & ? & _)).
  assert (H124 : Forall (fun s => 124 ∉ s) parts) by (apply (Forall_impl _ _ _ Hok); by intros s (_ & _ & _ & _ & ?)).
  assert (Hsplit : has_value (find_char 32 (join_with [10] parts)) = false /\ split_char 10 [] (join_with [10] parts) = parts).
  { split; [|by apply split_char_join]. rewrite find_char_none; [done|]. intros [Hc|(s & Hs & Hc)]%join_elem.
    - revert Hc. elem_decide.
    - rewrite Forall_forall in H32. by apply (H32 s). }
  destruct Hsplit as [Hf Hs]. destruct parts as [|x [|y parts]]; [done| |].
  - apply Forall_cons in H32 as [H32 _]. cbn [join_with] in *. rewrite !(find_str_missing 32 _ x) by (done || by left). cbn [has_value andb].
    replace (replace_all (bs " || ") [10] x) with x by (rewrite <- (app_nil_r x) at 2; change (bs " || ") with (32 :: bs "|| "); rewrite replace_all_plain, replace_all_nil, app_nil_r by done; done).
    rewrite Hf, Hs. replace (mode_of conj (length [x])) with OR by (by destruct conj). done.
  - assert (Hh : find_str (sep_of conj) (join_with (sep_of conj) (x :: y :: parts)) = Some (zlen x)).
    { rewrite join_cons by done. apply Forall_cons in H32 as [H32 _]. destruct conj; by apply find_str_hit. }
    assert (Ho : forall c n, c ∈ n -> c ∉ sep_of conj -> Forall (fun s => c ∉ s) (x :: y :: parts) ->
      has_value (find_str n (join_with (sep_of conj) (x :: y :: parts))) = false).
    { intros c n H1 H2 H3. by rewrite (find_str_missing c n) by (done || by apply join_no_char). }
    assert (Hr : replace_all (sep_of conj) [10] (join_with (sep_of conj) (x :: y :: parts)) = join_with [10] (x :: y :: parts)).
    { destruct conj; by apply replace_all_join. }
    destruct conj; cbn [sep_of] in *.
    + rewrite (Ho 124 (bs " || ")) by (done || elem_decide). rewrite Hh, Hr. cbn [has_value andb]. by rewrite Hf, Hs.
    + rewrite (Ho 38 (bs " && ")) by (done || elem_decide). cbn [andb]. by rewrite Hr, Hf, Hs.
Qed.
End Parts.
