(* ===== verification/JsonExprMeaning.v ===== *)
(** * Expressions over JSON: what they mean

    The grammar of the expressions as a data type [bexpr], its texts [show], and
    its meaning, which reads the calls from the left to the right and stops as
    soon as the answer is known.  The compiler of [JsonExpr] and the evaluation of
    what it makes give this meaning for every text of the grammar. *)

From S2P Require Import Prelude SafeInt CLib Encoders VarNet VarTheory Jwt JwtVerify JsonExpr JsonExprTheory.
From Stdlib Require Import ZArith Lia.
From stdpp Require Import gmap.
#[local] Open Scope Z_scope.

(** ** The grammar *)

Inductive term := TPath (path : bytes) | TNumber (digits : bytes) | TText (text : bytes).

(** The right argument of [ISNULL] is not written. *)
Record call := mkCall { c_negative : bool; c_ignoreCase : bool; c_operator : Operator; c_left : term; c_right : term }.

(** A call, or a group in parentheses of a conjunction or a disjunction. *)
Inductive bexpr := Call (c : call) | Nest (neg isAnd : bool) (items : list bexpr).

Lemma bexpr_induction (P : bexpr -> Prop) :
  (forall c, P (Call c)) -> (forall neg isAnd items, Forall P items -> P (Nest neg isAnd items)) -> forall e, P e.
Proof.
  intros HC HN. fix IH 1. intros [c|neg isAnd items]; [apply HC|]. apply HN. induction items as [|x items IHl]; constructor; [apply IH|done].
Qed.

Definition operator_name (op : Operator) : bytes :=
  match op with
  | ISEQUAL => bs "IS_EQUAL" | REGEXMATCH => bs "REGEX_MATCH" | CONTAINS => bs "CONTAINS" | STARTSWITH => bs "STARTS_WITH"
  | ENDSWITH => bs "ENDS_WITH" | ISNULL => bs "IS_NULL" | UNDEFINED_OP => []
  end.

(** [f] writes the literals: in quotes, or as numbers of static texts. *)
Definition term_text (f : bytes -> bytes) (t : term) : bytes :=
  match t with TPath p => 36 :: p | TNumber d => d | TText s => f s end.

Definition call_head (c : call) : bytes :=
  bang (c_negative c) ++ (if c_ignoreCase c then [105] else []) ++ operator_name (c_operator c).
Definition call_args (f : bytes -> bytes) (c : call) : bytes :=
  term_text f (c_left c) ++ (if bool_decide (c_operator c = ISNULL) then [] else 44 :: term_text f (c_right c)).

Fixpoint show (f : bytes -> bytes) (e : bexpr) : bytes :=
  match e with
  | Call c => call_head c ++ 40 :: call_args f c ++ [41]
  | Nest neg isAnd items => bang neg ++ 40 :: join_with (sep_of isAnd) (map (show f) items) ++ [41]
  end.
Definition show_items (f : bytes -> bytes) (isAnd : bool) (items : list bexpr) : bytes := join_with (sep_of isAnd) (map (show f) items).

Definition quote (t : bytes) : bytes := 34 :: t ++ [34].

(** *** Well-formed expressions *)

(** What an argument is made of: no space, parenthesis, comma, quote, ampersand or bar. *)
Definition word_char (c : Z) : bool := negb (isspace c) && negb (bool_decide (c ∈ [40; 41; 44; 34; 38; 124])).

Definition term_ok (t : term) : bool :=
  match t with
  | TPath p => forallb word_char p && negb (has_value (find_str (bs "_SUBEXPR_") p))
  | TNumber d => bool_decide (d <> []) && forallb isdigit d
  | TText s => forallb (fun c => negb (bool_decide (c ∈ [34; 41; 44]))) s
  end.

Definition call_ok (c : call) : bool := bool_decide (c_operator c <> UNDEFINED_OP) && term_ok (c_left c) && term_ok (c_right c).

Fixpoint expr_ok (e : bexpr) : bool :=
  match e with Call c => call_ok c | Nest _ _ items => bool_decide (items <> []) && forallb expr_ok items end.

(** ** The meaning *)
Section Meaning.
Context {J R : Type} `{!JsonCpp J} `{!JsonPath J} `{!UserRegex R}.
Variable v : J.

Definition literal (t : term) : bytes := match t with TPath p => p | TNumber d => d | TText s => s end.

(** The values of an argument, and the pattern it is. *)
Definition term_values (t : term) : outcome (gset bytes) :=
  match t with TPath p => resolve_path (36 :: p) v | _ => Ret {[literal t]} end.

Definition term_pattern (ignoreCase : bool) (t : term) : outcome (option R * gset bytes) :=
  match t with
  | TPath p => l ← resolve_path (36 :: p) v; Ret (None, l)
  | _ => x ← regex_extended (c_str (literal t)) ignoreCase; Ret (Some x, ∅)
  end.

Definition call_meaning (c : call) : outcome bool :=
  r ← match c_operator c with
      | REGEXMATCH =>
          '(_, l) ← term_pattern (c_ignoreCase c) (c_left c);
          '(x, _) ← term_pattern (c_ignoreCase c) (c_right c);
          Ret (apply_operator REGEXMATCH (c_ignoreCase c) x l ∅)
      | ISNULL => l ← term_values (c_left c); Ret (bool_decide (l = ∅))
      | op => l ← term_values (c_left c); r ← term_values (c_right c); Ret (apply_operator (R := R) op (c_ignoreCase c) None l r)
      end;
  Ret (xorb (c_negative c) r).

(** A conjunction goes on while the answers are true, a disjunction while they are false. *)
Fixpoint items_meaning (meaning : bexpr -> outcome bool) (isAnd : bool) (l : list bexpr) : outcome bool :=
  match l with
  | [] => Ret isAnd
  | x :: l => r ← meaning x; if Bool.eqb r isAnd then items_meaning meaning isAnd l else Ret r
  end.

Fixpoint meaning (e : bexpr) : outcome bool :=
  match e with
  | Call c => call_meaning c
  | Nest neg isAnd items => r ← items_meaning meaning isAnd items; Ret (xorb neg r)
  end.
End Meaning.

(** ** The static texts *)

Fixpoint index_of (t : bytes) (T : list bytes) : option Z :=
  match T with [] => None | x :: T => if bool_decide (x = t) then Some 0 else option_map (Z.add 1) (index_of t T) end.

Definition written (T : list bytes) (t : bytes) : bytes := match index_of t T with Some n => static_name n | None => quote t end.

Lemma index_of_lookup t T n : index_of t T = Some n -> 0 <= n < zlen T /\ T !! Z.to_nat n = Some t.
Proof.
  revert n. induction T as [|x T IH]; intros n; cbn [index_of]; [done|]. rewrite zlen_cons. pose proof (zlen_nonneg T). case_bool_decide.
  - intros [= <-]. subst x. split; [lia|done].
  - destruct (index_of t T) as [k|]; [|done]. intros [= <-]. destruct (IH k eq_refl) as [Hk Hl]. split; [lia|].
    replace (Z.to_nat (1 + k)) with (Datatypes.S (Z.to_nat k)) by lia. done.
Qed.

Lemma index_of_app t T x : index_of t (T ++ [x]) =
  match index_of t T with Some n => Some n | None => if bool_decide (x = t) then Some (zlen T) else None end.
Proof.
  induction T as [|y T IH]; cbn [app index_of]; [by case_bool_decide|]. destruct (bool_decide (y = t)); [done|]. rewrite IH, zlen_cons.
  destruct (index_of t T); [done|]. by case_bool_decide.
Qed.

Lemma static_name_chars n c : 0 <= n -> c ∈ static_name n -> c ∈ bs "_STATIC_" \/ 48 <= c <= 57.
Proof. intros Hn. unfold static_name. rewrite elem_of_app. intros [?|?%decimal_chars]; [by left|by right|done]. Qed.

(** A text in pieces: text without quotes, and literals, each followed by a piece
    with a comma or a closing parenthesis. *)
Inductive token := Plain (s : bytes) | Lit (t : bytes).

Definition ttext (f : bytes -> bytes) (l : list token) : bytes := concat (map (fun k => match k with Plain s => s | Lit t => f t end) l).

Definition lit_ok (t : bytes) : Prop := (34 ∉ t) /\ (41 ∉ t) /\ (44 ∉ t).

Fixpoint tokens_ok (l : list token) : Prop :=
  match l with
  | [] => True
  | Plain s :: l => (34 ∉ s) /\ tokens_ok l
  | Lit t :: l => lit_ok t /\ match l with Plain s :: _ => 41 ∈ s \/ 44 ∈ s | _ => False end /\ tokens_ok l
  end.

Definition lits (l : list token) : list bytes := flat_map (fun k => match k with Plain _ => [] | Lit t => [t] end) l.

Lemma tokens_ok_app a b : tokens_ok a -> tokens_ok b -> tokens_ok (a ++ b).
Proof.
  intros Ha Hb. induction a as [|[s|t] a IH]; cbn [app tokens_ok] in *; [done|naive_solver|]. destruct Ha as (H1 & H2 & H3).
  split; [done|]. split; [by destruct a|auto].
Qed.

Lemma ttext_app f a b : ttext f (a ++ b) = ttext f a ++ ttext f b.
Proof. unfold ttext. by rewrite map_app, concat_app. Qed.

Lemma lits_app a b : lits (a ++ b) = lits a ++ lits b.
Proof. apply flat_map_app. Qed.

Lemma static_name_no_quote n : 0 <= n -> 34 ∉ static_name n.
Proof. intros Hn [Hc|?]%static_name_chars; [|lia|done]. revert Hc. elem_decide. Qed.

Lemma written_no_quote T t n : index_of t T = Some n -> 34 ∉ written T t.
Proof. intros E. unfold written. rewrite E. apply static_name_no_quote. by apply index_of_lookup in E as [? _]; lia. Qed.

(** A quote ends the needle: another literal, or the text behind one, is not it. *)
Lemma quote_mismatch t x r : 34 ∉ t -> 34 ∉ x -> t <> x -> starts_with (quote t ++ r) (quote x) = false.
Proof.
  intros Ht Hx Hne. unfold quote. cbn [app starts_with]. rewrite Z.eqb_refl. cbn [andb]. rewrite <- app_assoc. revert x Hx Hne.
  induction t as [|c t IH]; intros [|d x] Hx Hne; cbn [app starts_with]; [done| | |].
  - apply not_elem_of_cons in Hx as [Hx _]. by replace (34 =? d) with false by lia.
  - apply not_elem_of_cons in Ht as [Ht _]. by replace (c =? 34) with false by lia.
  - apply not_elem_of_cons in Hx as [_ Hx], Ht as [_ Ht]. destruct (Z.eqb_spec c d) as [->|]; [|done]. cbn [andb].
    apply IH; [done..|congruence].
Qed.

Lemma behind_mismatch s x r c : 34 ∉ s -> c ∈ s -> c ∉ x -> starts_with (34 :: s ++ r) (quote x) = false.
Proof.
  intros Hs Hc Hx. unfold quote. cbn [starts_with]. rewrite Z.eqb_refl. cbn [andb]. revert x Hx.
  induction s as [|d s IH]; intros x Hx; [by apply not_elem_of_nil in Hc|]. apply not_elem_of_cons in Hs as [Hd Hs].
  destruct x as [|y x]; cbn [app starts_with]; [by replace (d =? 34) with false by lia|]. destruct (Z.eqb_spec d y) as [->|]; [|done].
  apply not_elem_of_cons in Hx as [Hy Hx]. cbn [andb]. apply IH; [done| |done]. by apply elem_of_cons in Hc as [->|].
Qed.

Lemma replace_quoted_plain x repl a s : 34 ∉ a -> replace_all (quote x) repl (a ++ s) = a ++ replace_all (quote x) repl s.
Proof. apply replace_all_plain. Qed.

Lemma ttext_cons f k l : ttext f (k :: l) = match k with Plain s => s | Lit t => f t end ++ ttext f l.
Proof. done. Qed.

(** One more literal becomes a number. *)
Lemma replace_literal T x l :
  tokens_ok l -> lit_ok x -> index_of x T = None ->
  replace_all (quote x) (static_name (zlen T)) (ttext (written T) l) = ttext (written (T ++ [x])) l.
Proof.
  intros Hl Hx Hn. induction l as [|[s|t] l IH]; [done| |]; cbn [tokens_ok] in Hl; rewrite !ttext_cons.
  - destruct Hl as [Hs Hl]. by rewrite replace_quoted_plain, <- IH.
  - destruct Hl as (Ht & Hb & Hl). specialize (IH Hl). destruct (index_of t T) as [n|] eqn:E.
    { rewrite replace_quoted_plain, IH by (by apply (written_no_quote _ _ n)). f_equal.
      unfold written. by rewrite index_of_app, E. }
    assert (written T t = quote t) as -> by (unfold written; by rewrite E).
    assert (written (T ++ [x]) t = if bool_decide (x = t) then static_name (zlen T) else quote t) as ->.
    { unfold written. rewrite index_of_app, E. by case_bool_decide. }
    case_bool_decide as Ex; [subst t; by rewrite replace_all_hit, IH|].
    destruct l as [|[s|] l]; [done| |done]. destruct Hl as [Hs Hl]. rewrite !ttext_cons in *.
    destruct Ht as (Ht & _). destruct Hx as (Hx1 & Hx2 & Hx3).
    assert (Hm := quote_mismatch t x (s ++ ttext (written T) l) Ht Hx1 (not_eq_sym Ex)).
    change (quote t) with (34 :: (t ++ [34])) in *. cbn [app] in *. rewrite replace_all_skip by done. f_equal. rewrite <- !app_assoc.
    rewrite replace_quoted_plain by done. f_equal. cbn [app]. rewrite replace_all_skip; [by rewrite IH|].
    destruct Hb; eauto using behind_mismatch.
Qed.

Definition pending (T : list bytes) (l : list token) : list bytes := filter (fun t => index_of t T = None) (lits l).

Lemma pending_less T x l : index_of x T = None -> x ∈ lits l -> (length (pending (T ++ [x]) l) < length (pending T l))%nat.
Proof.
  intros Hn Hx. replace (pending (T ++ [x]) l) with (filter (fun t => t <> x) (pending T l)).
  - apply (length_filter_lt _ _ x); [by apply list_elem_of_filter|tauto].
  - unfold pending. rewrite list_filter_filter. apply list_filter_iff. intros t. rewrite index_of_app.
    destruct (index_of t T); [naive_solver|]. case_bool_decide; naive_solver.
Qed.

Lemma quoted_text_at a x b : 34 ∉ a -> 34 ∉ x -> quoted_text (a ++ quote x ++ b) = Some x.
Proof.
  intros Ha Hx. unfold quoted_text, quote. cbn [app]. rewrite find_char_split by done. cbv zeta.
  replace (zdrop (zlen a + 1) (a ++ 34 :: (x ++ [34]) ++ b)) with (x ++ 34 :: b).
  - rewrite find_char_split by done. cbn [option_map]. by rewrite ztake_exact.
  - rewrite (app_assoc a [34] _ : a ++ 34 :: _ = _). replace (zlen a + 1) with (zlen (a ++ [34])) by (by rewrite zlen_app).
    by rewrite zdrop_exact, <- app_assoc.
Qed.

Lemma first_pending T l : tokens_ok l ->
  ((forall t, t ∈ lits l -> index_of t T <> None) /\ (34 ∉ ttext (written T) l)) \/
  (exists x a b, lit_ok x /\ x ∈ lits l /\ index_of x T = None /\ ttext (written T) l = a ++ quote x ++ b /\ 34 ∉ a).
Proof.
  induction l as [|[s|t] l IH]; intros Hl; cbn [tokens_ok] in Hl; [left; split; [by intros ? ?%elem_of_nil|apply not_elem_of_nil]| |];
    rewrite ttext_cons; cbn [lits flat_map app] in *; fold (lits l) in *.
  - destruct Hl as [Hs Hl]. destruct (IH Hl) as [[H1 H2]|(x & a & b & H1 & H2 & H3 & -> & H5)]; [left; rewrite not_elem_of_app; auto|].
    right. exists x, (s ++ a), b. rewrite not_elem_of_app, <- app_assoc. split_and!; done.
  - destruct Hl as (Ht & _ & Hl). destruct (index_of t T) as [n|] eqn:E.
    + pose proof (written_no_quote T t n E) as Hw. destruct (IH Hl) as [[H1 H2]|(x & a & b & H1 & H2 & H3 & -> & H5)].
      * left. rewrite not_elem_of_app. split; [|done]. intros t' [->|?]%elem_of_cons; [by rewrite E|auto].
      * right. exists x, (written T t ++ a), b. rewrite not_elem_of_app, <- app_assoc, elem_of_cons. split_and!; auto.
    + right. exists t, [], (ttext (written T) l). unfold written at 1. rewrite E, elem_of_cons. split_and!; auto. apply not_elem_of_nil.
Qed.

Lemma quoted_text_none s : 34 ∉ s -> quoted_text s = None.
Proof. intros Hs. unfold quoted_text. by rewrite find_char_none. Qed.

(** Every literal gets a number. *)
Lemma precompile_tokens fuel T l :
  tokens_ok l -> (length (pending T l) <= fuel)%nat ->
  exists T', precompile_texts fuel (ttext (written T) l) T = Ret (ttext (written T') l, T') /\
    (forall t, t ∈ lits l -> index_of t T' <> None) /\ (34 ∉ ttext (written T') l) /\ zlen T' <= zlen T + Z.of_nat (length (pending T l)).
Proof.
  intros Hl. revert T. induction fuel as [|fuel IH]; intros T Hf.
  all: destruct (first_pending T l Hl) as [[H1 H2]|(x & a & b & H1 & H2 & H3 & E & H5)].
  1,3: exists T; cbn [precompile_texts]; rewrite quoted_text_none by done; split_and!; auto; lia.
  all: pose proof (pending_less T x l H3 H2) as Hp.
  { lia. }
  cbn [precompile_texts]. rewrite E, quoted_text_at, <- E by (done || apply H1). cbv zeta.
  change ([34] ++ x ++ [34]) with (quote x). rewrite replace_literal by done. destruct (IH (T ++ [x])) as (T' & -> & ? & ? & Hz); [lia|].
  exists T'. rewrite zlen_app in Hz. change (zlen [x]) with 1 in Hz. split_and!; auto. lia.
Qed.

(** *** The tokens of an expression *)
Definition term_token (t : term) : token := match t with TPath p => Plain (36 :: p) | TNumber d => Plain d | TText s => Lit s end.

Definition call_tokens (c : call) : list token :=
  Plain (call_head c ++ [40]) :: term_token (c_left c) ::
    (if bool_decide (c_operator c = ISNULL) then [] else [Plain [44]; term_token (c_right c)]) ++ [Plain [41]].

Fixpoint join_tokens (sep : bytes) (l : list (list token)) : list token :=
  match l with [] => [] | [w] => w | w :: l => w ++ Plain sep :: join_tokens sep l end.

Fixpoint tokens (e : bexpr) : list token :=
  match e with
  | Call c => call_tokens c
  | Nest neg isAnd items => Plain (bang neg ++ [40]) :: join_tokens (sep_of isAnd) (map tokens items) ++ [Plain [41]]
  end.
Definition item_tokens (isAnd : bool) (items : list bexpr) : list token := join_tokens (sep_of isAnd) (map tokens items).

Lemma join_tokens_text f sep l : ttext f (join_tokens sep l) = join_with sep (map (ttext f) l).
Proof.
  induction l as [|w [|w' l] IH]; [done..|]. change (join_tokens sep (w :: w' :: l)) with (w ++ Plain sep :: join_tokens sep (w' :: l)).
  rewrite ttext_app, ttext_cons, IH. done.
Qed.

Lemma term_token_text f t : match term_token t with Plain s => s | Lit t => f t end = term_text f t.
Proof. by destruct t. Qed.

Lemma show_tokens f e : show f e = ttext f (tokens e).
Proof.
  induction e as [c|neg isAnd items IH] using bexpr_induction; cbn [show tokens].
  - unfold call_tokens, call_args. case_bool_decide; cbn [app]; rewrite !ttext_cons, !term_token_text; change (ttext f []) with (@nil Z);
      rewrite ?app_nil_r, <- !app_assoc; cbn [app]; by rewrite <- ?app_assoc.
  - rewrite ttext_cons, ttext_app, join_tokens_text, map_map, <- app_assoc. cbn [app]. change (ttext f [Plain [41]]) with [41]. do 4 f_equal.
    induction IH as [|x l Hx _ IH]; [done|]. cbn [map]. by rewrite Hx, IH.
Qed.

Lemma show_items_tokens f isAnd items : show_items f isAnd items = ttext f (item_tokens isAnd items).
Proof. unfold show_items, item_tokens. rewrite join_tokens_text, map_map. f_equal. apply map_ext. intros e. apply show_tokens. Qed.

Lemma join_tokens_ok sep l : 34 ∉ sep -> Forall tokens_ok l -> tokens_ok (join_tokens sep l).
Proof. intros Hs. induction 1 as [|w [|w' l] Hw Hl IH]; [done..|]. by apply tokens_ok_app. Qed.

Lemma word_not c x : word_char c = true -> word_char x = false -> c <> x.
Proof. congruence. Qed.

Lemma words_not s x : forallb word_char s = true -> word_char x = false -> x ∉ s.
Proof. intros Hs Hx Hc. rewrite forallb_forall in Hs. apply list_elem_of_In, Hs in Hc. congruence. Qed.

Lemma digit_word d : forallb isdigit d = true -> forallb word_char d = true.
Proof.
  rewrite !forallb_forall. intros Hd c Hc. apply Hd in Hc. unfold isdigit in Hc.
  replace (word_char c) with (word_char (48 + (c - 48))) by (f_equal; lia).
  apply (bounded_forall 10 (fun k => word_char (48 + k))); [done|lia].
Qed.

Lemma term_token_ok t s l : term_ok t = true -> 41 ∈ s \/ 44 ∈ s -> tokens_ok (Plain s :: l) -> tokens_ok (term_token t :: Plain s :: l).
Proof.
  destruct t as [p|d|x]; cbn [term_ok term_token]; intros Ht Hs Hl.
  - split; [|done]. apply andb_true_iff in Ht as [Ht _]. apply not_elem_of_cons. split; [done|]. by eapply words_not.
  - split; [|done]. apply andb_true_iff in Ht as [_ Ht]. eapply words_not; [by apply digit_word|done].
  - split; [|done]. rewrite forallb_forall in Ht. split_and!; intros Hc; apply list_elem_of_In, Ht in Hc; by vm_compute in Hc.
Qed.

Lemma tokens_of_ok e : expr_ok e = true -> tokens_ok (tokens e).
Proof.
  induction e as [c|neg isAnd items IH] using bexpr_induction; cbn [expr_ok tokens].
  - unfold call_ok. intros [[Ho%bool_decide_eq_true Hl]%andb_true_iff Hr]%andb_true_iff. unfold call_tokens. split.
    + unfold call_head. destruct (c_negative c), (c_ignoreCase c), (c_operator c); cbn; elem_decide.
    + case_bool_decide; cbn [app]; (apply term_token_ok; [done| |]); [left; elem_decide|split; [elem_decide|done]|right; elem_decide|].
      split; [elem_decide|]. apply term_token_ok; [done|left; elem_decide|]. split; [elem_decide|done].
  - intros [_ Hi]%andb_true_iff. split; [destruct neg; elem_decide|]. apply tokens_ok_app; [|by split; [elem_decide|]].
    apply join_tokens_ok; [destruct isAnd; elem_decide|]. apply Forall_map. rewrite forallb_forall in Hi. rewrite Forall_forall in IH |- *.
    intros x Hx. apply IH; [done|]. by apply Hi, list_elem_of_In.
Qed.

(** ** The texts with numbers *)

(** All the literals have numbers in [T]. *)
Definition term_known (T : list bytes) (t : term) : bool := match t with TText x => has_value (index_of x T) | _ => true end.
Definition call_known (T : list bytes) (c : call) : bool :=
  term_known T (c_left c) && (bool_decide (c_operator c = ISNULL) || term_known T (c_right c)).
Fixpoint known (T : list bytes) (e : bexpr) : bool :=
  match e with Call c => call_known T c | Nest _ _ items => forallb (known T) items end.

Lemma lits_join sep l : lits (join_tokens sep l) = concat (map lits l).
Proof.
  induction l as [|w [|w' l] IH]; [done|by cbn; rewrite app_nil_r|]. change (join_tokens sep (w :: w' :: l)) with (w ++ Plain sep :: join_tokens sep (w' :: l)).
  rewrite lits_app. cbn [lits flat_map app]. fold (lits (join_tokens sep (w' :: l))). by rewrite IH.
Qed.

Lemma term_lits T t l : (forall x, x ∈ lits (term_token t :: l) -> index_of x T <> None) -> term_known T t = true.
Proof. destruct t as [| |x]; [done..|]. intros Hx. cbn. specialize (Hx x). cbn in Hx. destruct (index_of x T); [done|]. exfalso. apply Hx; [by left|done]. Qed.

Lemma lits_cons k l : lits (k :: l) = match k with Plain _ => [] | Lit t => [t] end ++ lits l.
Proof. done. Qed.

Lemma tokens_known T e : (forall t, t ∈ lits (tokens e) -> index_of t T <> None) -> known T e = true.
Proof.
  induction e as [c|neg isAnd items IH] using bexpr_induction; cbn [known tokens]; intros Ht.
  - unfold call_tokens in Ht. rewrite lits_cons in Ht. unfold call_known. rewrite (term_lits T (c_left c) _ Ht). cbn [andb].
    case_bool_decide; [done|]. cbn [app] in Ht. apply (term_lits T _ [Plain [41]]). intros x Hx. apply Ht. rewrite !lits_cons. apply elem_of_app. right.
    exact Hx.
  - rewrite lits_cons, lits_app, lits_join in Ht. apply forallb_forall. intros x Hx%list_elem_of_In. rewrite Forall_forall in IH. apply IH; [done|].
    intros t Hxt. apply Ht. cbn [app]. apply elem_of_app. left. apply list_elem_of_In, in_concat. exists (lits (tokens x)).
    split; [|by apply list_elem_of_In]. apply in_map, in_map. by apply list_elem_of_In.
Qed.

Section Numbered.
Context (T : list bytes).
Abbreviation f := (written T).

Lemma static_name_words n : 0 <= n -> forallb word_char (static_name n) = true /\ find_str (bs "_SUBEXPR_") (static_name n) = None.
Proof.
  intros Hn. split.
  - unfold static_name. rewrite forallb_app. change (forallb word_char (bs "_STATIC_")) with true. apply digit_word.
    apply forallb_forall. intros c Hc%list_elem_of_In%decimal_chars; [|done]. unfold isdigit. lia.
  - apply (find_str_missing 66); [elem_decide|]. intros [Hc|?]%static_name_chars; [|lia|done]. revert Hc. elem_decide.
Qed.

Lemma term_words t : term_ok t = true -> term_known T t = true ->
  forallb word_char (term_text f t) = true /\ term_text f t <> [] /\ find_str (bs "_SUBEXPR_") (term_text f t) = None.
Proof.
  destruct t as [p|d|x]; cbn [term_ok term_known term_text]; intros Ht Hk.
  - apply andb_true_iff in Ht as [Hw Hs]. split_and!; [done..|]. cbn [find_str starts_with]. change (36 =? 95) with false. cbn [andb].
    by destruct (find_str _ p).
  - apply andb_true_iff in Ht as [Hd%bool_decide_eq_true Hw]. apply digit_word in Hw as Hw'. split_and!; [done..|].
    apply (find_str_missing 95); [elem_decide|]. intros Hc. rewrite forallb_forall in Hw. apply list_elem_of_In, Hw in Hc. done.
  - unfold written. destruct (index_of x T) as [n|] eqn:E; [|done]. apply index_of_lookup in E as [E _].
    destruct (static_name_words n) as [? ?]; [lia|]. split_and!; [done| |done]. done.
Qed.

(** What the compiler needs to know of a text. *)
Record tidy (s : bytes) : Prop := mkTidy {
  td_first : exists c s', s = c :: s' /\ isspace c = false;
  td_last : exists s', s = s' ++ [41];
  td_spaces : single_spaces s;
  td_keyword : find_str (bs "_SUBEXPR_") s = None;
  td_quote : 34 ∉ s;
  td_line : 10 ∉ s;
  td_closed : closed s;
  td_group : exists u v, s = u ++ 40 :: v /\ no_paren u }.

Lemma call_args_words c :
  call_ok c = true -> call_known T c = true ->
  (forall x, word_char x = false -> x <> 44 -> x ∉ call_args f c) /\ find_str (bs "_SUBEXPR_") (call_args f c) = None /\ call_args f c <> [].
Proof.
  unfold call_ok, call_known, call_args. intros [[_ Hl]%andb_true_iff Hr]%andb_true_iff [Hkl Hkr]%andb_true_iff.
  destruct (term_words _ Hl Hkl) as (H1 & H2 & H3). case_bool_decide; cbn [orb] in Hkr.
  - rewrite app_nil_r. split_and!; [|done..]. intros x Hx _. by apply (words_not _ _ H1).
  - destruct (term_words _ Hr Hkr) as (H4 & H5 & H6). split_and!; [|apply find_str_sep; [elem_decide|done..]|by destruct (term_text f (c_left c))].
    intros x Hx H44. rewrite not_elem_of_app, not_elem_of_cons. split_and!; [by apply (words_not _ _ H1)|done|by apply (words_not _ _ H4)].
Qed.

Lemma call_head_parts c x : call_ok c = true -> x ∈ [32; 40; 41; 34; 10; 38; 124] -> x ∉ call_head c.
Proof.
  unfold call_ok. intros [[Ho%bool_decide_eq_true _]%andb_true_iff _]%andb_true_iff Hx.
  assert (Forall (fun x => x ∉ call_head c) [32; 40; 41; 34; 10; 38; 124]) as HF.
  { apply (bool_decide_unpack _). unfold call_head. by destruct (c_negative c), (c_ignoreCase c), (c_operator c). }
  rewrite Forall_forall in HF. by apply HF.
Qed.

Lemma call_head_end c : call_ok c = true -> exists h d, call_head c = h ++ [d] /\ isalnum d = true.
Proof.
  unfold call_ok. intros [[Ho%bool_decide_eq_true _]%andb_true_iff _]%andb_true_iff. unfold call_head. rewrite app_assoc.
  assert (exists h d, operator_name (c_operator c) = h ++ [d] /\ isalnum d = true) as (h & d & -> & Hd).
  { destruct (c_operator c); [| | | | | |done]; match goal with |- exists h d, ?s = _ /\ _ =>
      let l := eval vm_compute in (removelast s) in let d := eval vm_compute in (List.last s 0) in exists l, d; by vm_compute end. }
  eexists _, d. split; [|done]. by rewrite app_assoc.
Qed.

Lemma tidy_call c : call_ok c = true -> call_known T c = true -> tidy (show f (Call c)).
Proof.
  intros Hok Hk. destruct (call_args_words c Hok Hk) as (Ha & Hs & Hne). destruct (call_head_end c Hok) as (h & d & Eh & Hd).
  assert (Hh := fun x => call_head_parts c x Hok). cbn [show].
  assert (Hn : forall x, x ∈ [32; 34; 10; 38; 124] -> x ∉ call_head c ++ 40 :: call_args f c ++ [41]).
  { intros x Hx. rewrite not_elem_of_app, not_elem_of_cons, not_elem_of_app.
    repeat (apply elem_of_cons in Hx as [->|Hx]; [split_and!; [apply Hh; elem_decide|done|by apply Ha|elem_decide]|]).
    by apply not_elem_of_nil in Hx. }
  assert (no_paren (call_head c)) by (split; apply Hh; elem_decide).
  assert (no_paren (call_args f c)) by (split; by apply Ha).
  split.
  - unfold call_head in *. destruct (c_negative c); [by eexists _, _|]. destruct (c_ignoreCase c); [by eexists _, _|].
    destruct (c_operator c); by eexists _, _.
  - exists (call_head c ++ 40 :: call_args f c). by rewrite <- app_assoc.
  - apply single_spaces_none, Hn. elem_decide.
  - apply find_str_sep; [elem_decide|done| |apply find_str_sep; [elem_decide|done..]].
    apply (find_str_missing 66); [elem_decide|].
    intros Hc. revert Hc. unfold call_head. clear -Hok. unfold call_ok in Hok.
    assert (66 ∉ bang (c_negative c) ++ (if c_ignoreCase c then [105] else []) ++ operator_name (c_operator c)); [|done].
    destruct (c_negative c), (c_ignoreCase c), (c_operator c); elem_decide.
  - apply Hn. elem_decide.
  - apply Hn. elem_decide.
  - apply closed_app; [by apply closed_plain|]. apply closed_group. by apply closed_plain.
  - by eexists _, _.
Qed.

Lemma tidy_join isAnd l : l <> [] -> Forall tidy l -> tidy (join_with (sep_of isAnd) l).
Proof.
  intros Hne Hl. induction Hl as [|s l Hs Hl IH]; [done|]. destruct l as [|s' l]; [done|]. specialize (IH ltac:(done)).
  rewrite join_cons by done. destruct Hs as [(c & s1 & E1 & Hc) (s2 & E2) Hsp Hk Hq Hln Hcl (u & w & E3 & Hu)].
  set (t := join_with (sep_of isAnd) (s' :: l)) in *.
  destruct IH as [(c' & t1 & F1 & Hc') (t2 & F2) Htp Htk Htq Htl Htc _]. split.
  - rewrite E1. by eexists _, _.
  - exists (s ++ sep_of isAnd ++ t2). rewrite <- !app_assoc. congruence.
  - apply single_spaces_app; [done| |left; rewrite E2, last_snoc; congruence].
    apply single_spaces_app; [by destruct isAnd|done|right; rewrite F1; cbn; intros [= ->]; done].
  - destruct isAnd; cbn [sep_of]; change (bs " && ") with (32 :: bs "&&" ++ [32]) || change (bs " || ") with (32 :: bs "||" ++ [32]);
      cbn [app]; (apply find_str_sep; [elem_decide|done..|]); rewrite <- app_assoc; apply find_str_sep; done || elem_decide.
  - rewrite !not_elem_of_app. split_and!; [done|destruct isAnd; elem_decide|done].
  - rewrite !not_elem_of_app. split_and!; [done|destruct isAnd; elem_decide|done].
  - apply closed_app; [done|]. apply closed_app; [|done]. apply closed_plain, sep_no_paren.
  - exists u, (w ++ sep_of isAnd ++ t). rewrite E3, <- app_assoc. done.
Qed.

Lemma tidy_group neg s : tidy s -> tidy (bang neg ++ 40 :: s ++ [41]).
Proof.
  intros [(c & s1 & E1 & Hc) (s2 & E2) Hsp Hk Hq Hln Hcl (u & w & E3 & Hu)].
  assert (no_paren (bang neg)) by (apply (bool_decide_unpack _); by destruct neg). split.
  - destruct neg; by eexists _, _.
  - exists (bang neg ++ 40 :: s). by rewrite <- app_assoc.
  - assert (single_spaces (40 :: s ++ [41])).
    { apply (single_spaces_app [40]); [done| |left; done]. apply single_spaces_app; [done..|]. left. rewrite E2, last_snoc. congruence. }
    apply single_spaces_app; [by destruct neg|done|right; done].
  - apply find_str_sep; [elem_decide|done|by destruct neg|]. apply find_str_sep; [elem_decide|done..].
  - rewrite not_elem_of_app, not_elem_of_cons, not_elem_of_app. split_and!; [destruct neg; elem_decide|done|done|elem_decide].
  - rewrite not_elem_of_app, not_elem_of_cons, not_elem_of_app. split_and!; [destruct neg; elem_decide|done|done|elem_decide].
  - apply closed_app; [by apply closed_plain|]. by apply closed_group.
  - by eexists _, _.
Qed.

Lemma tidy_show e : expr_ok e = true -> known T e = true -> tidy (show f e).
Proof.
  induction e as [c|neg isAnd items IH] using bexpr_induction; cbn [expr_ok known].
  - apply tidy_call.
  - intros [Hne%bool_decide_eq_true Hi]%andb_true_iff Hk. cbn [show]. apply tidy_group, tidy_join; [by destruct items|].
    rewrite forallb_forall in Hi, Hk. apply Forall_map. rewrite Forall_forall in IH |- *. intros x Hx. apply IH; [done|apply Hi|apply Hk]; by apply list_elem_of_In.
Qed.
End Numbered.
