(* ===== verification/JsonExprCorrect.v ===== *)
(** * Expressions over JSON: the compiler is correct

    What the compiler makes of a call is an atomic expression that stands for it
    ([rep_atom]), what it makes of a list of calls and groups is an object that
    stands for it ([rep]); the evaluation of such an object, which keeps the
    regular expressions it compiles, is the meaning. *)

From S2P Require Import Prelude SafeInt CLib Encoders VarNet VarTheory Jwt JwtVerify JsonExpr JsonExprTheory JsonExprMeaning.
From Stdlib Require Import ZArith Lia.
From stdpp Require Import gmap.
#[local] Open Scope Z_scope.

(** ** The calls *)

Lemma word_no_space c : word_char c = true -> isspace c = false.
Proof. unfold word_char. intros [Hc _]%andb_true_iff. by destruct (isspace c). Qed.

Lemma trim_words s : forallb word_char s = true -> trim s = s.
Proof.
  intros Hs. destruct s as [|c s]; [done|]. destruct (last (c :: s)) as [d|] eqn:E; [|by apply last_None in E].
  rewrite forallb_forall in Hs. apply (trim_tight c s d); [|apply word_no_space, Hs, list_elem_of_In|done]; [apply word_no_space, Hs; by left|].
  apply last_Some in E as [l ->]. apply elem_of_app. right. by left.
Qed.

Lemma search_tail name unary p s :
  line_separator p = false -> Forall (fun c => line_separator c = false) s -> search_call name unary (Some p) s = None.
Proof.
  intros Hp Hs. revert p Hp. induction Hs as [|c s Hc Hs IH]; intros p Hp; cbn [search_call at_line_start]; rewrite Hp; [done|].
  cbn [andb]. by apply IH.
Qed.

Lemma search_start name unary c s :
  Forall (fun c => line_separator c = false) (c :: s) -> search_call name unary None (c :: s) = match_operator name unary (c :: s).
Proof.
  intros [Hc Hs]%Forall_cons. cbn [search_call at_line_start]. destruct (match_operator name unary (c :: s)); [done|]. by apply search_tail.
Qed.

Lemma until_char_at c s t : c ∉ s -> s <> [] -> until_char c (s ++ c :: t) = Some (s, t).
Proof.
  intros Hc Hne. unfold until_char. rewrite find_char_split by done. assert (zlen s <> 0) by (destruct s; [done|rewrite zlen_cons; pose proof (zlen_nonneg s); lia]).
  replace (zlen s =? 0) with false by lia. rewrite ztake_exact. do 2 f_equal. rewrite (app_assoc s [c] t : s ++ c :: t = _).
  replace (zlen s + 1) with (zlen (s ++ [c])) by (by rewrite zlen_app). apply zdrop_exact.
Qed.

Lemma drop_first (x : Z) s : zdrop 1 ([x] ++ s) = s.
Proof. exact (zdrop_exact [x] s). Qed.

Section Correct.
Context {J R : Type} `{!JsonCpp J} `{!JsonPath J} `{!UserRegex R}.
Context (T : list bytes) (HT : zlen T <= ULONG_MAX).

Lemma static_number_name n : 0 <= n <= ULONG_MAX -> static_number (static_name n) = n.
Proof.
  intros Hn. unfold static_number, static_name. change 8 with (zlen (bs "_STATIC_")). rewrite zdrop_exact, strtoul_any by lia. cbn [fst]. lia.
Qed.

(** *** The sides *)
Definition type_of (t : term) : SideType := match t with TPath _ => JSONPATH | TNumber _ => NUMERIC | TText _ => STATIC_STRING end.

(** A side stands for an argument; of a pattern it may keep the regular expression. *)
Definition rep_side (regex ignoreCase : bool) (t : term) (s : @Side R) : Prop :=
  sd_expr s = term_text (written T) t /\ sd_type s = type_of t /\
  (sd_regexp s = None \/
   exists x, regex = true /\ (forall p, t <> TPath p) /\ sd_regexp s = Some x /\ regex_extended (c_str (literal t)) ignoreCase = Ret x).

Lemma static_found x : term_known T (TText x) = true -> exists n,
  0 <= n < zlen T /\ T !! Z.to_nat n = Some x /\ written T x = static_name n /\ static_number (static_name n) = n.
Proof.
  cbn [term_known]. unfold written. destruct (index_of x T) as [n|] eqn:E; [|done]. intros _. exists n. apply index_of_lookup in E as [H1 H2].
  split_and!; [lia..|done|done|apply static_number_name; lia].
Qed.

Lemma compile_side regex ignoreCase t :
  term_ok t = true -> term_known T t = true ->
  exists s, determineExpressionType T (setRawExpression (term_text (written T) t) Side_new) = (s, true) /\ rep_side regex ignoreCase t s.
Proof.
  intros Ht Hk. destruct (term_words T t Ht Hk) as (Hw & Hne & _). unfold setRawExpression. rewrite trim_words by done.
  unfold determineExpressionType. cbn [sd_expr sd_regexp sd_staticIndex Side_new]. destruct t as [p|d|x]; cbn [term_text] in *.
  - eexists. split; [done|]. split_and!; [done..|by left].
  - cbn [term_ok] in Ht. apply andb_true_iff in Ht as [_ Hd]. destruct d as [|c d]; [done|].
    assert ((c =? 36) = false) as -> by (cbn [forallb] in Hd; apply andb_true_iff in Hd as [Hd _]; unfold isdigit in Hd; lia).
    rewrite Hd. eexists. split; [done|]. split_and!; [done..|by left].
  - destruct (static_found x Hk) as (n & Hn & _ & Ew & En). rewrite Ew, En. replace (zlen T >? n) with true by lia.
    assert (E1 : starts_with (static_name n) (bs "_STATIC_") = true) by apply starts_with_app. rewrite E1.
    eexists (mkSide None (wrapw 32 n) (static_name n) STATIC_STRING). split; [done|]. split_and!; [done..|by left].
Qed.

(** *** The atomic expressions *)
Definition is_regex (op : Operator) : bool := bool_decide (op = REGEXMATCH).

Definition rep_atom (c : call) (a : @AtomicExpression R) : Prop :=
  m_evalOperator a = c_operator c /\ ae_negative a = c_negative c /\ m_ignoreCase a = c_ignoreCase c /\
  rep_side (is_regex (c_operator c)) (c_ignoreCase c) (c_left c) (ae_left a) /\
  (if bool_decide (c_operator c = ISNULL) then sd_type (ae_right a) = VOID_SIDE /\ sd_regexp (ae_right a) = None
   else rep_side (is_regex (c_operator c)) (c_ignoreCase c) (c_right c) (ae_right a)).

Definition name_text (c : call) : bytes := operator_name (c_operator c) ++ 40 :: call_args (written T) c ++ [41].

Lemma other_operator c name op :
  c_operator c <> UNDEFINED_OP -> (name, op) ∈ operators -> op <> c_operator c -> starts_with (name_text c) (name ++ [40]) = false.
Proof.
  intros Hc Hn Ho. unfold name_text. repeat (apply elem_of_cons in Hn as [[= -> ->]|Hn]; [by destruct (c_operator c)|]). by apply not_elem_of_nil in Hn.
Qed.

Lemma name_text_lines c :
  call_ok c = true -> call_known T c = true -> exists x s, name_text c = x :: s /\ Forall (fun c => line_separator c = false) (x :: s).
Proof.
  intros Hok Hk. destruct (call_args_words T c Hok Hk) as (Ha & _ & _).
  assert (Forall (fun c => line_separator c = false) (name_text c)).
  { unfold name_text. apply Forall_app. split; [|apply Forall_cons; split; [done|apply Forall_app; split; [|by repeat constructor]]].
    - unfold call_ok in Hok. by destruct (c_operator c); repeat constructor.
    - apply Forall_forall. intros x Hx. destruct (line_separator x) eqn:E; [|done]. exfalso. revert Hx. unfold line_separator in E. apply Ha.
      + assert (x = 10 \/ x = 12 \/ x = 13) as [->|[->| ->]] by lia; done.
      + intros ->. done. }
  destruct (name_text c) as [|x s] eqn:E; [|eauto]. unfold name_text in E. by destruct (operator_name (c_operator c)).
Qed.

Lemma no_match c name op (a : @AtomicExpression R) :
  call_ok c = true -> call_known T c = true -> (name, op) ∈ operators -> op <> c_operator c -> ae_expr a = name_text c ->
  substractExpressions T name op a = (a, false).
Proof.
  intros Hok Hk Hn Ho Ha. unfold substractExpressions. rewrite Ha. destruct (name_text_lines c Hok Hk) as (x & s & E & Hs).
  assert (starts_with (x :: s) (name ++ [40]) = false) as Ef.
  { rewrite <- E. apply (other_operator c name op); [|done..]. unfold call_ok in Hok. by destruct (c_operator c). }
  rewrite E, search_start by done. unfold match_operator. by rewrite Ef.
Qed.

Lemma the_match c :
  call_ok c = true -> call_known T c = true ->
  search_call (operator_name (c_operator c)) (bool_decide (c_operator c = ISNULL)) None (name_text c) =
    Some (term_text (written T) (c_left c), if bool_decide (c_operator c = ISNULL) then [] else term_text (written T) (c_right c)).
Proof.
  intros Hok Hk. destruct (name_text_lines c Hok Hk) as (x & s & E & Hs). rewrite E, search_start, <- E by done. clear x s E Hs.
  unfold match_operator, name_text. rewrite (app_assoc _ [40] _ : _ ++ 40 :: _ = _), starts_with_app, zdrop_exact.
  unfold call_ok, call_known in *. apply andb_true_iff in Hok as [[_ Hl]%andb_true_iff Hr], Hk as [Hkl Hkr].
  destruct (term_words T _ Hl Hkl) as (Hw & Hne & _). unfold call_args. case_bool_decide; cbn [orb] in *.
  - rewrite app_nil_r. change [41] with (41 :: []). rewrite until_char_at by (done || by eapply words_not). done.
  - destruct (term_words T _ Hr Hkr) as (Hw' & Hne' & _). rewrite <- app_assoc. cbn [app]. rewrite until_char_at by (done || by eapply words_not).
    cbn [mbind option_bind]. change [41] with (41 :: []). rewrite until_char_at by (done || by eapply words_not). done.
Qed.

Definition fresh_atom (c : call) : @AtomicExpression R :=
  mkAtomic (name_text c) Side_new Side_new UNDEFINED_OP (c_negative c) (c_ignoreCase c).

Lemma match_compiles c :
  call_ok c = true -> call_known T c = true ->
  exists a, substractExpressions T (operator_name (c_operator c)) (c_operator c) (fresh_atom c) = (a, true) /\ rep_atom c a.
Proof.
  intros Hok Hk. unfold substractExpressions. cbn [fresh_atom ae_expr]. rewrite the_match by done. cbn [fresh_atom ae_left ae_right m_evalOperator ae_negative m_ignoreCase].
  unfold call_ok, call_known in *. apply andb_true_iff in Hok as [[_ Hl]%andb_true_iff Hr], Hk as [Hkl Hkr].
  destruct (compile_side (is_regex (c_operator c)) (c_ignoreCase c) _ Hl Hkl) as (l & -> & Hl'). cbn [negb].
  unfold rep_atom. case_bool_decide; cbn [orb] in *.
  - eexists. split; [done|]. by split_and!.
  - destruct (compile_side (is_regex (c_operator c)) (c_ignoreCase c) _ Hr Hkr) as (r & -> & Hr'). eexists. split; [done|]. by split_and!.
Qed.

Lemma operators_names : Forall (fun p => p.1 = operator_name p.2) operators.
Proof. by repeat constructor. Qed.

Lemma try_finds c ops :
  call_ok c = true -> call_known T c = true -> Forall (fun p => p ∈ operators) ops -> c_operator c ∈ map snd ops ->
  exists a, try_operators T ops (fresh_atom c) = (a, true) /\ rep_atom c a.
Proof.
  intros Hok Hk Hops Hin. induction Hops as [|[name op] ops Ho Hops IH]; [by apply not_elem_of_nil in Hin|]. cbn [try_operators].
  destruct (decide (op = c_operator c)) as [->|Hne].
  - assert (name = operator_name (c_operator c)) as ->.
    { pose proof operators_names as HN. rewrite Forall_forall in HN. by apply (HN _ Ho). }
    destruct (match_compiles c Hok Hk) as (a & -> & Ha). by exists a.
  - rewrite (no_match c) by done. apply IH. cbn [map] in Hin. by apply elem_of_cons in Hin as [?|?].
Qed.

Lemma compile_call c :
  call_ok c = true -> call_known T c = true -> exists a, compile T (show (written T) (Call c)) Atomic_new = (a, true) /\ rep_atom c a.
Proof.
  intros Hok Hk. assert (Hin : c_operator c ∈ map snd operators).
  { unfold call_ok in Hok. destruct (c_operator c); try done; apply (bool_decide_unpack _); by vm_compute. }
  destruct (try_finds c operators Hok Hk) as (a & Ea & Ha); [by repeat (constructor; [elem_decide|])|done|]. exists a. split; [|done].
  assert (Et : show (written T) (Call c) = bang (c_negative c) ++ (if c_ignoreCase c then [105] else []) ++ name_text c).
  { cbn [show]. unfold call_head, name_text. by rewrite <- !app_assoc. }
  rewrite Et. unfold compile. cbn [Atomic_new ae_negative m_ignoreCase ae_left ae_right m_evalOperator].
  assert (Hn : starts_with (name_text c) [33] = false /\ starts_with (name_text c) [105] = false).
  { unfold name_text, call_ok in *. by destruct (c_operator c). }
  destruct Hn as [H33 H105]. unfold fresh_atom in Ea. destruct (c_negative c).
  - cbn [bang]. rewrite starts_with_app, drop_first. destruct (c_ignoreCase c).
    + rewrite starts_with_app. by rewrite drop_first, Ea.
    + cbn [app]. by rewrite H105, Ea.
  - cbn [bang app]. destruct (c_ignoreCase c).
    + change (starts_with ([105] ++ name_text c) [33]) with false. cbv iota beta. rewrite starts_with_app. by rewrite drop_first, Ea.
    + cbn [app]. by rewrite H33, H105, Ea.
Qed.

(** ** The objects

    The atoms of an object in order; the groups among them are the
    sub-expressions, in order. *)
Fixpoint rep_items (rep : bexpr -> @JSONEval R -> Prop) (n : Z) (items : list bexpr)
    (atoms : list (option AtomicExpression * Z)) (subs : list JSONEval) : Prop :=
  match items, atoms with
  | [], [] => subs = []
  | Call c :: items, (Some a, _) :: atoms => rep_atom c a /\ rep_items rep n items atoms subs
  | (Nest _ _ _ as e) :: items, (None, k) :: atoms =>
      k = n /\ match subs with s :: subs => rep e s /\ rep_items rep (n + 1) items atoms subs | [] => False end
  | _, _ => False
  end.

Fixpoint rep (e : bexpr) (s : @JSONEval R) : Prop :=
  match e with
  | Call _ => False
  | Nest neg isAnd items =>
      je_negative s = neg /\ je_mode s = mode_of isAnd (length items) /\ rep_items rep 0 items (je_atoms s) (je_subs s)
  end.

(** The element of a text that an expression is written as. *)
Definition piece_of (e : bexpr) (p : @piece R) : Prop :=
  match e, p with
  | Call c, PCall h args => h ++ 40 :: args ++ [41] = show (written T) (Call c)
  | Nest neg isAnd items, PNest neg' t o => neg' = neg /\ t = show_items (written T) isAnd items /\ rep e o
  | _, _ => False
  end.

Lemma compile_pieces n items (l : list piece) e :
  Forall2 piece_of items l -> forallb expr_ok items = true -> forallb (known T) items = true ->
  0 <= n -> n + zlen (objects l) <= zlen (je_subs e) -> zlen (je_subs e) <= ULONG_MAX ->
  exists atoms, compile_atoms T (map ptext (resolve n l)) e = (je_set_atoms (je_atoms e ++ atoms) e, true) /\
    rep_items rep n items atoms (objects l).
Proof.
  intros Hp. revert n e. induction Hp as [|x p items l Hp _ IH]; intros n e Hok Hk Hn Hs Hu.
  - exists []. split; [|done]. cbn. rewrite app_nil_r. by destruct e.
  - cbn [forallb] in Hok, Hk. apply andb_true_iff in Hok as [Hx Hok], Hk as [Hkx Hk].
    destruct x as [c|neg isAnd its], p as [h args|k|neg' t o]; try done; cbn [piece_of resolve objects map ptext compile_atoms] in *.
    + rewrite Hp. assert (starts_with (show (written T) (Call c)) (bs "_SUBEXPR_") = false) as ->.
      { cbn [show]. unfold call_head. cbn [expr_ok] in Hx. unfold call_ok in Hx. by destruct (c_negative c), (c_ignoreCase c), (c_operator c). }
      destruct (compile_call c Hx Hkx) as (a & -> & Ha). cbn [negb].
      destruct (IH n (je_set_atoms (je_atoms e ++ [(Some a, 0)]) e)) as (atoms & -> & Hr); [done..|].
      exists ((Some a, 0) :: atoms). split; [|done]. destruct e. cbn. by rewrite <- app_assoc.
    + destruct Hp as (-> & -> & Ho). rewrite zlen_cons in Hs. pose proof (zlen_nonneg (objects l)).
      unfold subexpr_name. rewrite starts_with_app. change 9 with (zlen (bs "_SUBEXPR_")). rewrite zdrop_exact, strtoul_any by lia. cbn [fst].
      replace (Z.min n ULONG_MAX) with n by lia. replace (n >=? zlen (je_subs e)) with false by lia.
      destruct (IH (n + 1) (je_set_atoms (je_atoms e ++ [(None, n)]) e)) as (atoms & -> & Hr); [done..|lia| |destruct e; cbn in *; lia|].
      { destruct e; cbn in *; lia. }
      exists ((None, n) :: atoms). split; [|by split_and!]. destruct e. cbn. by rewrite <- app_assoc.
Qed.

(** ** The compiler *)

Definition new_sub (fuel : nat) (subexpr : bytes) (texts : list bytes) (negative : bool) : outcome (@JSONEval R * list bytes) :=
  '(s, texts, ok) ← parseExpression fuel subexpr texts (JSONEval_new negative);
  Ret (je_set_compiled ok s, texts).

(** With this fuel the groups of the items compile. *)
Definition compiles (fuel : nat) (e : bexpr) : Prop :=
  match e with
  | Call _ => True
  | Nest neg isAnd items =>
      exists s, parseExpression fuel (show_items (written T) isAnd items) T (JSONEval_new neg) = Ret (s, T, true) /\ rep e s
  end.

Lemma rep_compiled e b s : rep e s -> rep e (je_set_compiled b s).
Proof. by destruct e, s. Qed.

Lemma tidy_items isAnd items :
  items <> [] -> forallb expr_ok items = true -> forallb (known T) items = true -> tidy (show_items (written T) isAnd items).
Proof.
  intros Hne Hok Hk. apply tidy_join; [by destruct items|]. apply Forall_map, Forall_forall. intros x Hx. rewrite forallb_forall in Hok, Hk.
  apply tidy_show; [apply Hok|apply Hk]; by apply list_elem_of_In.
Qed.

Lemma piece_exists fuel e :
  expr_ok e = true -> known T e = true -> compiles fuel e -> exists p, piece_of e p /\ piece_ok (new_sub fuel) T p /\ ptext p = show (written T) e.
Proof.
  destruct e as [c|neg isAnd items]; intros Hok Hk Hc.
  - exists (PCall (call_head c) (call_args (written T) c)). split_and!; [done| |done]. destruct (call_args_words T c Hok Hk) as (Ha & _ & _).
    split_and!; [|by apply call_head_end|split; by apply Ha]. split; apply call_head_parts; done || elem_decide.
  - cbn [expr_ok known] in *. apply andb_true_iff in Hok as [Hne%bool_decide_eq_true Hok].
    destruct (tidy_items isAnd items Hne Hok Hk) as [_ _ _ _ _ _ Hcl Hg]. destruct Hc as (s & Hs & Hr).
    exists (PNest neg (show_items (written T) isAnd items) (je_set_compiled true s)). split; [by split_and!; [..|apply rep_compiled]|].
    split; [|done]. split_and!; [done..|]. unfold new_sub. by rewrite Hs.
Qed.

Lemma pieces_exist fuel items :
  forallb expr_ok items = true -> forallb (known T) items = true -> Forall (compiles fuel) items ->
  exists l, Forall2 piece_of items l /\ Forall (piece_ok (new_sub fuel) T) l /\ map ptext l = map (show (written T)) items.
Proof.
  intros Hok Hk Hc. induction Hc as [|x items Hx Hc IH]; [by exists []|]. cbn [forallb] in *. apply andb_true_iff in Hok as [Hok1 Hok], Hk as [Hk1 Hk].
  destruct (piece_exists fuel x Hok1 Hk1 Hx) as (p & H1 & H2 & H3). destruct (IH Hok Hk) as (l & H4 & H5 & H6). exists (p :: l). split_and!; [by constructor..|].
  cbn [map]. by rewrite H3, H6.
Qed.

Lemma item_pieces n items l :
  Forall2 piece_of items l -> forallb expr_ok items = true -> forallb (known T) items = true -> 0 <= n -> Forall item_ok (map ptext (resolve n l)).
Proof.
  intros Hp. revert n. induction Hp as [|x p items l Hp _ IH]; intros n Hok Hk Hn; [constructor|]. cbn [forallb] in *.
  apply andb_true_iff in Hok as [Hok1 Hok], Hk as [Hk1 Hk].
  destruct x as [c|neg isAnd its], p as [h args|k|neg' t o]; try done; cbn [piece_of resolve map ptext] in *; constructor; try (apply IH; done || lia).
  - rewrite Hp. cbn [show]. destruct (call_args_words T c Hok1 Hk1) as (Ha & _ & _). split; [by destruct (call_head c)|].
    rewrite !not_elem_of_app, !not_elem_of_cons, !not_elem_of_app. split_and!; try elem_decide; try (by apply Ha); apply call_head_parts; done || elem_decide.
  - unfold subexpr_name. split; [done|]. rewrite !not_elem_of_app. split_and!; try elem_decide; intros Hc; apply decimal_chars in Hc; lia.
Qed.

Lemma resolve_length n (l : list (@piece R)) : length (resolve n l) = length l.
Proof. revert n. induction l as [|p l IH]; intros n; [done|]. destruct p; cbn [resolve length]; by rewrite IH. Qed.

Lemma objects_length (l : list (@piece R)) : (length (objects l) <= length l)%nat.
Proof. induction l as [|p l IH]; [done|]. destruct p; cbn [objects length]; lia. Qed.

Lemma parse_text fuel expr T0 neg isAnd items :
  trim expr = expr -> precompile_texts (length expr) expr T0 = Ret (show_items (written T) isAnd items, T) ->
  items <> [] -> forallb expr_ok items = true -> forallb (known T) items = true -> zlen items <= ULONG_MAX -> Forall (compiles fuel) items ->
  exists s, parseExpression (Datatypes.S fuel) expr T0 (JSONEval_new neg) = Ret (s, T, true) /\ rep (Nest neg isAnd items) s.
Proof.
  intros Ht Hp Hne Hok Hk Hz Hc. destruct (tidy_items isAnd items Hne Hok Hk) as [_ _ Hsp Hkw Hq Hl _ _].
  destruct (pieces_exist fuel items Hok Hk Hc) as (l & H1 & H2 & H3).
  assert (Hx : show_items (written T) isAnd items = join_with (sep_of isAnd) (map ptext l)) by (by rewrite H3).
  cbn [parseExpression]. rewrite Ht, Hp. cbn [mbind outcome_bind]. rewrite find_char_none by done. rewrite find_char_none by done. rewrite Hkw. cbn [has_value].
  rewrite compress_single by done. cbn [mbind outcome_bind]. fold (new_sub fuel). cbn [je_subs JSONEval_new je_set_expression].
  rewrite Hx, extract_whole by done. cbn [mbind outcome_bind negb w_texts w_expr w_subs].
  assert (Hlen : length (map ptext (resolve 0 l)) = length items) by (by rewrite length_map, resolve_length, (Forall2_length _ _ _ H1)).
  rewrite compile_parts_join, Hlen; [|by destruct items, (map ptext (resolve 0 l))|by apply (item_pieces 0 items)].
  match goal with |- context [compile_atoms T _ ?e] => destruct (compile_pieces 0 items l e) as (atoms & -> & Hr) end; [done..| |].
  - cbn [je_subs je_set_mode je_set_subs]. unfold zlen in *. pose proof (objects_length l) as Ho. rewrite <- (Forall2_length _ _ _ H1) in Ho. cbn. lia.
  - eexists. split; [done|]. by split_and!.
Qed.
Fixpoint nesting (e : bexpr) : nat :=
  match e with Call _ => 0%nat | Nest _ _ items => Datatypes.S (foldr Nat.max 0%nat (map nesting items)) end.

Lemma max_elem {A} (g : A -> nat) l x : x ∈ l -> (g x <= foldr Nat.max 0 (map g l))%nat.
Proof. induction l as [|y l IH]; [by intros ?%not_elem_of_nil|]. cbn. intros [->|Hx]%elem_of_cons; [lia|]. specialize (IH Hx). lia. Qed.

Lemma precompile_none fuel s : 34 ∉ s -> precompile_texts fuel s T = Ret (s, T).
Proof. intros Hs. destruct fuel; cbn [precompile_texts]; by rewrite quoted_text_none. Qed.

Lemma tidy_trim s : tidy s -> trim s = s.
Proof.
  intros [(c & s' & E & Hc) (s2 & E2) _ _ _ _ _ _]. rewrite E in *. apply (trim_tight c s' 41); [done..|]. rewrite E2. apply last_snoc.
Qed.

(** The length of the text bounds the numbers of the items. *)
Definition short (e : bexpr) : Prop := zlen (show quote e) <= ULONG_MAX.

Lemma join_zlen_elem sep x l : x ∈ l -> zlen x <= zlen (join_with sep l).
Proof.
  induction l as [|y l IH]; [by intros ?%not_elem_of_nil|]. destruct l as [|z l]; [by intros ->%list_elem_of_singleton|].
  rewrite join_cons, !zlen_app by done. pose proof (zlen_nonneg sep). pose proof (zlen_nonneg y). pose proof (zlen_nonneg (join_with sep (z :: l))).
  intros [->|Hx]%elem_of_cons; [lia|]. specialize (IH Hx). lia.
Qed.

Lemma join_zlen_count sep l : Forall (fun s => s <> []) l -> zlen l <= zlen (join_with sep l).
Proof.
  induction 1 as [|y l Hy Hl IH]; [done|]. assert (1 <= zlen y) by (destruct y; [done|rewrite zlen_cons; pose proof (zlen_nonneg y); lia]).
  destruct l as [|z l]; [done|]. rewrite join_cons, !zlen_app, (zlen_cons y) by done. pose proof (zlen_nonneg sep). lia.
Qed.

Lemma show_nonempty f e : show f e <> [].
Proof. destruct e; cbn [show]; [by destruct (call_head c)|by destruct neg]. Qed.

Lemma items_short isAnd items :
  zlen (show_items quote isAnd items) <= ULONG_MAX -> zlen items <= ULONG_MAX /\ (forall x, x ∈ items -> short x).
Proof.
  intros Hz. unfold show_items in Hz. split.
  - assert (Hn : Forall (fun s => s <> []) (map (show quote) items)) by (apply Forall_map, Forall_forall; intros; apply show_nonempty).
    pose proof (join_zlen_count (sep_of isAnd) _ Hn) as Hc. unfold zlen in Hc at 1. rewrite length_map in Hc. fold (zlen items) in Hc. lia.
  - intros x Hx. unfold short. pose proof (join_zlen_elem (sep_of isAnd) (show quote x) (map (show quote) items)) as Hj.
    specialize (Hj ltac:(by apply list_elem_of_fmap_2)). lia.
Qed.

Lemma nest_short neg isAnd items : short (Nest neg isAnd items) -> zlen (show_items quote isAnd items) <= ULONG_MAX.
Proof.
  unfold short, show_items. cbn [show]. rewrite zlen_app, zlen_cons, zlen_app. pose proof (zlen_nonneg (bang neg)). change (zlen [41]) with 1. lia.
Qed.

Lemma nested_compile e fuel :
  expr_ok e = true -> known T e = true -> short e -> (nesting e <= fuel)%nat -> compiles fuel e.
Proof.
  revert fuel. induction e as [c|neg isAnd items IH] using bexpr_induction; intros fuel Hok Hk Hs Hf; [done|]. cbn [expr_ok known nesting compiles] in *.
  apply andb_true_iff in Hok as [Hne%bool_decide_eq_true Hok]. destruct fuel as [|fuel]; [lia|].
  pose proof (tidy_items isAnd items Hne Hok Hk) as Ht. destruct (items_short isAnd items (nest_short _ _ _ Hs)) as [Hz Hx].
  apply parse_text; try done; [by apply tidy_trim|apply precompile_none; by apply td_quote|].
  rewrite Forall_forall in IH |- *. intros x Hi. rewrite forallb_forall in Hok, Hk. apply IH; [done|apply Hok|apply Hk|by apply Hx|];
    [by apply list_elem_of_In..|]. pose proof (max_elem nesting items x Hi). lia.
Qed.

(** *** Their evaluation *)
Variable v : J.

Lemma resolve_values t s ignoreCase :
  term_known T t = true -> rep_side false ignoreCase t s -> resolveValueSet T v false ignoreCase s = (l ← term_values v t; Ret (s, l)).
Proof.
  intros Hk (He & Ht & _). unfold resolveValueSet. rewrite He, Ht. destruct t as [p|d|x]; cbn [type_of term_text term_values literal]; [done..|].
  destruct (static_found x Hk) as (n & _ & Hx & -> & ->). by rewrite Hx.
Qed.

Lemma compile_cached text ignoreCase t s :
  (forall p, t <> TPath p) -> text = literal t -> rep_side true ignoreCase t s ->
  exists s', compileRegexPattern text ignoreCase s = (x ← regex_extended (c_str text) ignoreCase; Ret s') /\
    rep_side true ignoreCase t s' /\ (forall x, regex_extended (c_str text) ignoreCase = Ret x -> sd_regexp s' = Some x).
Proof.
  intros Hp -> (He & Ht & Hc). unfold compileRegexPattern. destruct Hc as [Hc|(x & _ & _ & Hc & Hx)].
  - rewrite Hc. destruct (regex_extended _ _) as [x| | |] eqn:E; cbn; [exists (setCompiledRegex (Some x) s)|exists s..]; (split; [done|]);
      (split; [|by intros ? [=]; subst]); split_and!; try done; [right; exists x; by split_and!|by left..].
  - rewrite Hc, Hx. exists s. split; [done|]. split; [|by intros ? [= <-]]. split_and!; try done. right. exists x. by split_and!.
Qed.

Lemma resolve_pattern t s ignoreCase :
  term_known T t = true -> rep_side true ignoreCase t s ->
  exists s', resolveValueSet T v true ignoreCase s = ('(_, l) ← term_pattern v ignoreCase t; Ret (s', l)) /\ rep_side true ignoreCase t s' /\
    (forall x l, term_pattern v ignoreCase t = Ret (x, l) -> sd_regexp s' = x).
Proof.
  intros Hk Hs. assert (Hs' := Hs). destruct Hs' as (He & Ht & Hc). unfold resolveValueSet. rewrite He, Ht.
  destruct t as [p|d|x]; cbn [type_of term_text term_pattern literal].
  - exists s. destruct Hc as [Hc|(? & _ & Hc & _)]; [|by destruct (Hc p)]. destruct (resolve_path _ v); cbn; split_and!; try done; by intros ? ? [= <- _].
  - destruct (compile_cached d ignoreCase (TNumber d) s) as (s' & -> & Hs' & Hx); [done..|]. exists s'. cbn [literal].
    destruct (regex_extended _ _) eqn:E; cbn; split_and!; try done; intros ? ? [= <- _]; by apply Hx.
  - destruct (static_found x Hk) as (n & _ & Hn & -> & ->). rewrite Hn.
    destruct (compile_cached x ignoreCase (TText x) s) as (s' & -> & Hs' & Hx); [done..|]. exists s'. cbn [literal].
    destruct (regex_extended _ _) eqn:E; cbn; split_and!; try done; intros ? ? [= <- _]; by apply Hx.
Qed.

Lemma negation (neg r : bool) : (if neg then negb r else r) = xorb neg r.
Proof. by destruct neg, r. Qed.

(** An atom that does not match a pattern is not changed. *)
Lemma evaluate_plain c a :
  c_operator c <> REGEXMATCH -> call_ok c = true -> call_known T c = true -> rep_atom c a ->
  atomic_evaluate T v a = (r ← call_meaning (R := R) v c; Ret (a, r)).
Proof.
  intros Hop. unfold call_ok, call_known. intros [[Ho _]%andb_true_iff _]%andb_true_iff [Hkl Hkr]%andb_true_iff (E1 & E2 & E3 & Hl & Hr).
  unfold atomic_evaluate, call_meaning, calcNegative. cbn [ae_negative]. destruct a as [x l r op neg ign]. cbn [m_evalOperator ae_negative m_ignoreCase ae_left ae_right ae_expr] in *.
  subst op neg ign. unfold is_regex in *. assert (bool_decide (c_operator c = REGEXMATCH) = false) as Eb by by apply bool_decide_eq_false_2.
  rewrite Eb in *. rewrite (resolve_values (c_left c) l _ Hkl Hl).
  destruct (decide (c_operator c = ISNULL)) as [En|En].
  - rewrite (bool_decide_eq_true_2 _ En) in Hr. destruct Hr as [Hr _]. rewrite En in *. unfold resolveValueSet at 1. rewrite Hr.
    destruct (term_values v (c_left c)); [|done..]. cbn. by rewrite negation.
  - rewrite (bool_decide_eq_false_2 _ En) in *. cbn [orb] in Hkr. rewrite (resolve_values (c_right c) r _ Hkr Hr). destruct (c_operator c); try done;
      (destruct (term_values v (c_left c)); [|done..]; destruct (term_values v (c_right c)); [|done..]; cbn; by rewrite negation).
Qed.

Lemma evaluate_call c a :
  call_ok c = true -> call_known T c = true -> rep_atom c a ->
  exists a', atomic_evaluate T v a = (r ← call_meaning (R := R) v c; Ret (a', r)) /\ rep_atom c a'.
Proof.
  intros Hok Hk Ha. destruct (decide (c_operator c = REGEXMATCH)) as [Ec|Ec]; [|exists a; split; [by apply evaluate_plain|done]].
  revert Hk Ha. unfold call_known, rep_atom. rewrite Ec. intros [Hkl Hkr]%andb_true_iff (E1 & E2 & E3 & Hl & Hr).
  destruct a as [x l r op neg ign]. cbn [m_evalOperator ae_negative m_ignoreCase ae_left ae_right ae_expr] in *. subst op neg ign.
  change (is_regex REGEXMATCH) with true in *. change (bool_decide (REGEXMATCH = ISNULL)) with false in *. cbn [orb] in Hkr.
  destruct (resolve_pattern _ _ _ Hkl Hl) as (l' & El & Hl' & _). destruct (resolve_pattern _ _ _ Hkr Hr) as (r' & Er & Hr' & Hx).
  exists (mkAtomic x l' r' REGEXMATCH (c_negative c) (c_ignoreCase c)). split; [|by split_and!].
  unfold atomic_evaluate, call_meaning, calcNegative. rewrite Ec. cbn [m_evalOperator m_ignoreCase ae_left ae_right]. change (bool_decide (REGEXMATCH = REGEXMATCH)) with true.
  rewrite El, Er. destruct (term_pattern v _ (c_left c)) as [[y ly]| | |]; [|done..]. cbn. destruct (term_pattern v _ (c_right c)) as [[z lz]| | |] eqn:Ez; [|done..].
  cbn. unfold getCompiledRegex. rewrite (Hx _ _ eq_refl). by rewrite negation.
Qed.

(** ** The evaluation of an object *)

Section Atoms.
Context (ev : @JSONEval R -> outcome (@JSONEval R * bool)).

Definition evaluates (e : bexpr) : Prop :=
  forall s, rep e s -> exists s', ev s = (r ← meaning (R := R) v e; Ret (s', r)) /\ rep e s'.

Lemma evaluate_items isAnd items n before done atoms subs :
  Forall (fun x => match x with Call _ => True | _ => evaluates x end) items ->
  forallb expr_ok items = true -> forallb (known T) items = true ->
  rep_items rep n items atoms subs -> zlen done = n ->
  exists atoms' subs',
    evaluate_atoms T v ev (negb isAnd) before atoms (done ++ subs) =
      (r ← items_meaning (meaning (R := R) v) isAnd items; Ret (before ++ atoms', done ++ subs', r)) /\
    rep_items rep n items atoms' subs'.
Proof.
  intros He. revert n before done atoms subs. induction He as [|x items Hx He IH]; intros n before done atoms subs Hok Hk Hr Hd; cbn [forallb] in *.
  - destruct atoms; [|done]. cbn [rep_items] in Hr. subst subs. exists [], []. cbn. rewrite !app_nil_r. by destruct isAnd.
  - apply andb_true_iff in Hok as [Hok1 Hok], Hk as [Hk1 Hk]. destruct x as [c|neg isAnd' its]; destruct atoms as [|[[a|] k] atoms]; try done; cbn [rep_items evaluate_atoms] in *.
    + destruct Hr as [Ha Hr]. destruct (evaluate_call c a Hok1 Hk1 Ha) as (a' & -> & Ha'). cbn [items_meaning meaning].
      destruct (call_meaning v c) as [r| | |]; cbn; try (exists ((Some a, k) :: atoms), subs; by split_and!).
      destruct r, isAnd; cbn; try (exists ((Some a', k) :: atoms), subs; by split_and!).
      all: destruct (IH n (before ++ [(Some a', k)]) done atoms subs Hok Hk Hr Hd) as (atoms' & subs' & E & Hr'); cbn [negb] in E; rewrite E;
        exists ((Some a', k) :: atoms'), subs'; (split; [|by split]); destruct (items_meaning _ _ items); cbn; by rewrite <- ?app_assoc.
    + destruct Hr as [-> Hr]. destruct subs as [|s subs]; [done|]. destruct Hr as [Hs Hr]. subst n.
      assert (El : Z.to_nat (zlen done) = length done) by (unfold zlen; lia). rewrite El, list_lookup_middle by done.
      destruct (Hx s Hs) as (s' & -> & Hs'). cbn [items_meaning]. destruct (meaning v (Nest neg isAnd' its)) as [r| | |]; cbn [mbind outcome_bind];
        try (exists ((None, zlen done) :: atoms), (s :: subs); by split_and!).
      cbv zeta. rewrite insert_app_r_alt, Nat.sub_diag by lia. cbn [insert list_insert].
      destruct r, isAnd; cbn [Bool.eqb negb]; try (exists ((None, zlen done) :: atoms), (s' :: subs); by split_and!).
      all: destruct (IH (zlen done + 1) (before ++ [(None, zlen done)]) (done ++ [s']) atoms subs Hok Hk Hr) as (atoms' & subs' & E & Hr');
        [by rewrite zlen_app|]; cbn [negb] in E; rewrite <- app_assoc in E; cbn [app] in E; rewrite E;
        exists ((None, zlen done) :: atoms'), (s' :: subs'); (split; [|by split_and!]); destruct (items_meaning _ _ items); cbn; by rewrite <- ?app_assoc.
Qed.
End Atoms.

Lemma items_meaning_mode m isAnd items :
  items <> [] -> items_meaning m (isAnd && (2 <=? length items)%nat) items = items_meaning m isAnd items.
Proof.
  destruct items as [|x [|y items]]; [done| |by destruct isAnd]. intros _. destruct isAnd; [|done]. cbn. by destruct (m x) as [[]| | |].
Qed.

Lemma evaluate_rep e fuel s :
  expr_ok e = true -> known T e = true -> rep e s -> (nesting e <= fuel)%nat ->
  exists s', evaluate T v fuel s = (r ← meaning (R := R) v e; Ret (s', r)) /\ rep e s'.
Proof.
  revert fuel s. induction e as [c|neg isAnd items IH] using bexpr_induction; intros fuel s Hok Hk Hs Hf; [done|]. cbn [expr_ok known nesting rep] in *.
  apply andb_true_iff in Hok as [Hne%bool_decide_eq_true Hok]. destruct Hs as (Hneg & Hm & Hr). destruct fuel as [|fuel]; [lia|].
  set (b := isAnd && (2 <=? length items)%nat).
  destruct (evaluate_items (evaluate T v fuel) b items 0 [] [] (je_atoms s) (je_subs s)) as (atoms' & subs' & E & Hr'); [|done..|].
  { rewrite Forall_forall in IH |- *. intros x Hx. rewrite forallb_forall in Hok, Hk. pose proof (max_elem nesting items x Hx).
    destruct x as [|neg' isAnd' its]; [done|]. intros s' Hs'. apply IH; [done|apply Hok|apply Hk|done|lia]; by apply list_elem_of_In. }
  exists (je_set_atoms atoms' (je_set_subs subs' s)). split.
  - cbn [evaluate]. assert (Hb : match je_mode s with AND => false | _ => true end = negb b) by (rewrite Hm; unfold mode_of; fold b; by destruct b).
    assert (Hu : je_mode s <> UNDEFINED_MODE) by (rewrite Hm; unfold mode_of; fold b; by destruct b).
    cbn [app] in E. unfold b in E. rewrite items_meaning_mode in E by done. fold b in E. cbn [meaning].
    destruct (je_mode s) eqn:Ej; [| |done]; rewrite Hb, E; destruct (items_meaning _ isAnd items); try done; cbn; rewrite <- Hneg;
      unfold applyNegation; destruct s; cbn; by rewrite negation.
  - destruct s. by split_and!.
Qed.

Lemma rep_items_depth items n atoms (subs : list (@JSONEval R)) :
  Forall (fun e => forall s, rep e s -> (nesting e <= depth s)%nat) items -> rep_items rep n items atoms subs ->
  (foldr Nat.max 0 (map nesting items) <= foldr Nat.max 0 (map depth subs))%nat.
Proof.
  intros Hi. revert n atoms subs. induction Hi as [|x items Hx _ IH]; intros n atoms subs Hr; [cbn; lia|].
  destruct x as [c|neg isAnd its], atoms as [|[[a|] k] atoms]; try done; cbn [rep_items] in Hr.
  - destruct Hr as [_ Hr]. apply IH in Hr. cbn [map foldr nesting]. lia.
  - destruct Hr as [_ Hr]. destruct subs as [|s subs]; [done|]. destruct Hr as [Hs Hr]. apply IH in Hr. apply Hx in Hs. cbn [map foldr]. lia.
Qed.

Lemma rep_depth e (s : @JSONEval R) : rep e s -> (nesting e <= depth s)%nat.
Proof.
  revert s. induction e as [c|neg isAnd items IH] using bexpr_induction; intros s Hs; [done|]. destruct Hs as (_ & _ & Hr).
  apply (rep_items_depth _ _ _ _ IH) in Hr. destruct s. cbn [nesting depth je_subs] in *. lia.
Qed.
End Correct.

(** ** Whole expressions *)

Lemma show_ends f e : expr_ok e = true -> (exists c s, show f e = c :: s /\ isspace c = false) /\ (exists s, show f e = s ++ [41]).
Proof.
  intros Hok. split; destruct e as [c|neg isAnd items]; cbn [show].
  - unfold call_head. cbn [expr_ok] in Hok. unfold call_ok in Hok.
    destruct (c_operator c); try discriminate Hok; destruct (c_negative c), (c_ignoreCase c); by eexists _, _.
  - destruct neg; by eexists _, _.
  - exists (call_head c ++ 40 :: call_args f c). by rewrite <- app_assoc.
  - exists (bang neg ++ 40 :: join_with (sep_of isAnd) (map (show f) items)). by rewrite <- app_assoc.
Qed.

Lemma show_items_trim f isAnd items :
  items <> [] -> forallb expr_ok items = true -> trim (show_items f isAnd items) = show_items f isAnd items.
Proof.
  intros Hne Hok. unfold show_items. assert (exists s, join_with (sep_of isAnd) (map (show f) items) = s ++ [41]) as [s Es].
  { induction items as [|x items IH]; [done|]. cbn [forallb] in Hok. apply andb_true_iff in Hok as [Hx Hok].
    destruct (show_ends f x Hx) as [_ [s Es]]. destruct items as [|y items]; [by exists s|]. destruct IH as [t Et]; [done..|].
    cbn [map] in *. rewrite join_cons, Et by done. exists (show f x ++ sep_of isAnd ++ t). by rewrite <- !app_assoc. }
  destruct items as [|x items]; [done|]. cbn [forallb] in Hok. apply andb_true_iff in Hok as [Hx _].
  destruct (show_ends f x Hx) as [(c & t & Et & Hc) _]. cbn [map] in *.
  assert (exists t', join_with (sep_of isAnd) (show f x :: map (show f) items) = c :: t') as [t' Et'].
  { destruct items as [|y items]; [by exists t|]. rewrite join_cons, Et by done. eexists. done. }
  rewrite Et' in *. apply (trim_tight c t' 41); [done..|]. rewrite Es. apply last_snoc.
Qed.

Lemma parens_join sep x l : x ∈ l -> (parens x <= parens (join_with sep l))%nat.
Proof.
  induction l as [|y l IH]; [by intros ?%not_elem_of_nil|]. destruct l as [|z l]; [by intros ->%list_elem_of_singleton|].
  rewrite join_cons, !parens_app by done. intros [->|Hx]%elem_of_cons; [lia|]. specialize (IH Hx). lia.
Qed.

Lemma nesting_parens f e : (nesting e <= parens (show f e))%nat.
Proof.
  induction e as [c|neg isAnd items IH] using bexpr_induction; [cbn; lia|]. cbn [nesting show].
  etransitivity; [|apply parens_group]. apply le_n_S. rewrite Forall_forall in IH.
  assert (forall n l, (forall x, x ∈ l -> (nesting x <= n)%nat) -> (foldr Nat.max 0 (map nesting l) <= n)%nat) as Hm.
  { intros n l Hl. induction l as [|x l IHl]; [cbn; lia|]. cbn. pose proof (Hl x ltac:(by left)). assert (forall x, x ∈ l -> (nesting x <= n)%nat) as Hl' by (intros; apply Hl; by right).
    specialize (IHl Hl'). lia. }
  apply Hm. intros x Hx. etransitivity; [by apply IH|]. apply parens_join. by apply list_elem_of_fmap_2.
Qed.

Lemma lits_length l : (length (lits l) <= length (ttext quote l))%nat.
Proof.
  induction l as [|[s|t] l IH]; [done| |]; rewrite lits_cons, ttext_cons, !length_app; [cbn [length]; lia|]. unfold quote at 1. cbn [length]. lia.
Qed.

Section Whole.
Context {J R : Type} `{!JsonCpp J} `{!JsonPath J} `{!UserRegex R}.

(** A text of the grammar is compiled, and what it is compiled to stands for it. *)
Lemma show_compiles isAnd items :
  expr_ok (Nest false isAnd items) = true -> zlen (show_items quote isAnd items) <= ULONG_MAX ->
  exists s T, JSONEval_of (R := R) (show_items quote isAnd items) = Ret (s, T) /\ isCompiled s = true /\
    zlen T <= ULONG_MAX /\ known T (Nest false isAnd items) = true /\ rep T (Nest false isAnd items) s.
Proof.
  intros Hok Hz. pose proof (tokens_of_ok _ Hok) as Htok. cbn [tokens] in Htok. fold (item_tokens isAnd items) in Htok.
  assert (Hit : tokens_ok (item_tokens isAnd items)).
  { cbn [expr_ok] in Hok. apply andb_true_iff in Hok as [_ Hi]. apply join_tokens_ok; [destruct isAnd; elem_decide|]. apply Forall_map, Forall_forall.
    intros x Hx. rewrite forallb_forall in Hi. apply tokens_of_ok, Hi. by apply list_elem_of_In. }
  assert (Hpend : (length (pending [] (item_tokens isAnd items)) <= length (show_items quote isAnd items))%nat).
  { rewrite show_items_tokens. etransitivity; [|apply lits_length]. apply length_filter. }
  destruct (precompile_tokens (length (show_items quote isAnd items)) [] (item_tokens isAnd items) Hit Hpend) as (T & Ep & Hk & _ & HzT).
  change (written []) with quote in Ep. rewrite <- !show_items_tokens in Ep.
  assert (HT : zlen T <= ULONG_MAX) by (unfold zlen in *; cbn [length] in HzT; lia).
  assert (Hkn : known T (Nest false isAnd items) = true).
  { apply tokens_known. intros t. cbn [tokens]. rewrite lits_cons, lits_app. cbn [lits flat_map app]. rewrite app_nil_r. apply Hk. }
  cbn [expr_ok known] in Hok, Hkn. apply andb_true_iff in Hok as [Hne%bool_decide_eq_true Hok].
  destruct (items_short isAnd items Hz) as [Hzi Hsh].
  assert (Hcs : Forall (compiles (R := R) T (parens (show_items quote isAnd items))) items).
  { apply Forall_forall. intros x Hx. rewrite forallb_forall in Hok, Hkn. apply nested_compile; [done|apply Hok; by apply list_elem_of_In|apply Hkn; by apply list_elem_of_In|by apply Hsh|].
    etransitivity; [apply (nesting_parens quote)|]. apply parens_join. by apply list_elem_of_fmap_2. }
  destruct (parse_text T HT (parens (show_items quote isAnd items)) (show_items quote isAnd items) [] false isAnd items) as (s & Es & Hs);
    [by apply show_items_trim|done..|].
  exists (je_set_compiled true s), T. unfold JSONEval_of. rewrite Nat.add_1_r, Es. split_and!; [done|by destruct s|done|done|]. by apply rep_compiled.
Qed.

(** C13.  An expression of calls and groups, printed with its literals in quotes,
    is compiled and evaluated to its meaning: the calls are read from the left to
    the right, a conjunction ends at the first answer that is false and a
    disjunction at the first one that is true, a negated group is the opposite of
    what is inside, at any depth; an exception of a path or of a regular expression
    that is reached is the outcome, one that is not reached is not. *)
Theorem expression_means_what_it_says isAnd items (v : J) :
  expr_ok (Nest false isAnd items) = true -> zlen (show_items quote isAnd items) <= ULONG_MAX ->
  run_expression (R := R) (show_items quote isAnd items) v = meaning (R := R) v (Nest false isAnd items).
Proof.
  intros Hok Hz. destruct (show_compiles isAnd items Hok Hz) as (s & T & Es & _ & HT & Hk & Hs).
  unfold run_expression. rewrite Es. cbn [mbind outcome_bind].
  destruct (evaluate_rep T HT v (Nest false isAnd items) (depth s) s Hok Hk Hs (rep_depth T _ _ Hs)) as (s' & -> & _).
  by destruct (meaning v _).
Qed.
End Whole.
