(* ===== verification/JsonExprTotal.v ===== *)
(** * Expressions over JSON: every text is compiled or refused

    The loops of the compiler end on every text: the static texts use up quotes,
    the compression of spaces characters, the extraction of the groups opening
    parentheses, and a group has fewer of them than the text it is in.  Then what
    becomes of a group that is refused, and the expressions of the examples. *)

From S2P Require Import Prelude SafeInt CLib Encoders VarNet VarTheory Jwt JwtVerify JsonExpr JsonExprTheory JsonExprMeaning JsonExprCorrect.
From Stdlib Require Import ZArith Lia.
From stdpp Require Import gmap.
#[local] Open Scope Z_scope.

(** ** Weights of texts *)
Section Weight.
Context (w : Z -> nat).

Definition weight (s : bytes) : nat := foldr (fun c n => (w c + n)%nat) 0%nat s.

Lemma weight_app a b : weight (a ++ b) = (weight a + weight b)%nat.
Proof. induction a as [|c a IH]; [done|]. cbn. fold (weight (a ++ b)) (weight a). lia. Qed.

Lemma weight_cons c s : weight (c :: s) = (w c + weight s)%nat.
Proof. done. Qed.

Lemma replace_all_weight needle repl s :
  needle <> [] -> (weight repl <= weight needle)%nat -> (weight (replace_all needle repl s) <= weight s)%nat.
Proof.
  intros Hne Hw. unfold replace_all. generalize (length s) as n. intros n. revert s. induction n as [|n IH]; intros s; [done|]. destruct s as [|c s]; [done|].
  cbn [replace_all_from]. destruct (starts_with (c :: s) needle) eqn:E; [|rewrite !weight_cons; specialize (IH s); lia].
  apply starts_with_split in E. rewrite E at 2. rewrite !weight_app. specialize (IH (zdrop (zlen needle) (c :: s))). lia.
Qed.

Lemma replace_all_less needle repl s :
  needle <> [] -> (weight repl < weight needle)%nat -> find_str needle s <> None -> (weight (replace_all needle repl s) < weight s)%nat.
Proof.
  intros Hne Hw. induction s as [|c s IH]; cbn [find_str]; intros Hf.
  - destruct needle; done.
  - destruct (starts_with (c :: s) needle) eqn:E.
    + apply starts_with_split in E. rewrite E, replace_all_hit, !weight_app by done.
      pose proof (replace_all_weight needle repl (zdrop (zlen needle) (c :: s)) Hne) as Hr. lia.
    + rewrite replace_all_skip, !weight_cons by done. assert (find_str needle s <> None) as Hs by (by destruct (find_str needle s)). specialize (IH Hs). lia.
Qed.

Lemma weight_none s : (forall c, c ∈ s -> w c = 0%nat) -> weight s = 0%nat.
Proof. induction s as [|c s IH]; intros Hs; [done|]. rewrite weight_cons, IH, Hs; [done|by left|intros; apply Hs; by right]. Qed.

Lemma weight_reverse s : weight (reverse s) = weight s.
Proof. induction s as [|c s IH]; [done|]. rewrite reverse_cons, weight_app, IH, !weight_cons. change (weight []) with 0%nat. lia. Qed.

Lemma weight_trim s : (weight (trim s) <= weight s)%nat.
Proof.
  assert (forall s, (weight (trim_left s) <= weight s)%nat) as Hl.
  { intros t. induction t as [|c t IH]; [done|]. cbn [trim_left]. destruct (isspace c); [rewrite weight_cons; lia|done]. }
  unfold trim. rewrite weight_reverse. etransitivity; [apply Hl|]. rewrite weight_reverse. apply Hl.
Qed.
End Weight.

Definition quotes : bytes -> nat := weight (fun c => if c =? 34 then 1%nat else 0%nat).
Definition opens : bytes -> nat := weight (fun c => if c =? 40 then 1%nat else 0%nat).

Lemma parens_opens s : parens s = opens s.
Proof.
  induction s as [|c s IH]; [done|]. unfold parens, opens in *. rewrite weight_cons, <- IH, filter_cons.
  destruct (Z.eqb_spec c 40); [by rewrite decide_True|by rewrite decide_False].
Qed.

Lemma opens_app a b : opens (a ++ b) = (opens a + opens b)%nat.
Proof. apply weight_app. Qed.

(** ** What is found *)
Lemma find_char_some c s i : find_char c s = Some i -> exists a b, s = a ++ c :: b /\ zlen a = i /\ c ∉ a.
Proof.
  revert i. induction s as [|x s IH]; intros i; cbn [find_char]; [done|]. destruct (Z.eqb_spec x c) as [->|Hne].
  - intros [= <-]. exists [], s. split_and!; [done..|apply not_elem_of_nil].
  - destruct (find_char c s) as [k|]; [|done]. intros [= <-]. destruct (IH k eq_refl) as (a & b & -> & Hk & Ha). exists (x :: a), b.
    rewrite zlen_cons, not_elem_of_cons. split_and!; [done|lia|congruence|done].
Qed.

Lemma find_str_some needle s i : find_str needle s = Some i -> exists a b, s = a ++ needle ++ b /\ zlen a = i.
Proof.
  revert i. induction s as [|x s IH]; intros i; cbn [find_str]; destruct (starts_with _ needle) eqn:E; try done.
  - intros [= <-]. exists [], []. destruct needle; [done|discriminate E].
  - intros [= <-]. exists [], (zdrop (zlen needle) (x :: s)). by apply starts_with_split in E.
  - destruct (find_str needle s) as [k|]; [|done]. intros [= <-]. destruct (IH k eq_refl) as (a & b & -> & Hk). exists (x :: a), b. rewrite zlen_cons. split; [done|lia].
Qed.

Lemma find_str_there needle a b : find_str needle (a ++ needle ++ b) <> None.
Proof.
  induction a as [|x a IH]; cbn [app].
  - destruct (needle ++ b) as [|c s] eqn:E; cbn [find_str]; [apply app_nil in E as [-> ->]; done|]. by rewrite <- E, starts_with_app.
  - cbn [find_str]. destruct (starts_with _ _); [done|]. by destruct (find_str needle (a ++ needle ++ b)).
Qed.

Lemma quoted_text_some s t : quoted_text s = Some t -> exists a b, s = a ++ quote t ++ b.
Proof.
  unfold quoted_text. destruct (find_char 34 s) as [i|] eqn:E; [|done]. apply find_char_some in E as (a & b & -> & <- & _). cbv zeta.
  assert (zdrop (zlen a + 1) (a ++ 34 :: b) = b) as ->.
  { rewrite (app_assoc a [34] b : a ++ 34 :: b = _). replace (zlen a + 1) with (zlen (a ++ [34])) by (by rewrite zlen_app). apply zdrop_exact. }
  destruct (find_char 34 b) as [k|] eqn:E; [|done]. apply find_char_some in E as (t' & b' & -> & <- & _). cbn [option_map]. rewrite ztake_exact.
  intros [= <-]. exists a, b'. unfold quote. cbn [app]. by rewrite <- app_assoc.
Qed.

(** ** The loops over the whole text *)
Lemma precompile_total fuel s T :
  (quotes s <= fuel)%nat -> exists s' T', precompile_texts fuel s T = Ret (s', T') /\ (opens s' <= opens s)%nat.
Proof.
  revert s T. induction fuel as [|fuel IH]; intros s T Hf; cbn [precompile_texts]; (destruct (quoted_text s) as [t|] eqn:E; [|by exists s, T]).
  all: apply quoted_text_some in E as (a & b & E); pose proof (find_str_there (quote t) a b) as Hf'; rewrite <- E in Hf'.
  all: assert (Hq : quotes (quote t) = Datatypes.S (Datatypes.S (quotes t))) by (unfold quote, quotes; rewrite weight_cons, weight_app; cbn; lia).
  - exfalso. rewrite E in Hf. unfold quotes in *. rewrite !weight_app in Hf. lia.
  - cbv zeta. change ([34] ++ t ++ [34]) with (quote t). pose proof (zlen_nonneg T).
    assert (Hc : forall c, c ∈ static_name (zlen T) -> c <> 34 /\ c <> 40).
    { intros c [Hc|?]%static_name_chars; [|lia..]. split; intros ->; revert Hc; elem_decide. }
    assert (Hs : quotes (static_name (zlen T)) = 0%nat /\ opens (static_name (zlen T)) = 0%nat).
    { split; apply weight_none; intros c Hx; destruct (Hc c Hx); by replace (c =? _) with false by lia. }
    destruct Hs as [Hs1 Hs2]. set (s1 := replace_all (quote t) (static_name (zlen T)) s).
    assert (quotes s1 < quotes s)%nat as H1 by (apply replace_all_less; [done|fold quotes; lia|done]).
    assert (opens s1 <= opens s)%nat as H2 by (apply replace_all_weight; [done|fold opens; lia]).
    destruct (IH s1 (T ++ [t])) as (s' & T' & -> & Ho); [lia|]. exists s', T'. split; [done|lia].
Qed.

Lemma compress_total fuel s : (length s <= fuel)%nat -> exists s', compress_spaces fuel s = Ret s' /\ (opens s' <= opens s)%nat.
Proof.
  assert (forall l, length l = weight (fun _ => 1%nat) l) as Hl by (intros l; induction l as [|c l IH]; [done|]; cbn; by rewrite IH).
  revert s. induction fuel as [|fuel IH]; intros s Hf; cbn [compress_spaces]; (destruct (find_str [32; 32] s) as [n|] eqn:E; [|by exists s]).
  - destruct s; [done|cbn in Hf; lia].
  - set (s1 := replace_all [32; 32] [32] s).
    assert (length s1 < length s)%nat as H1 by (rewrite !Hl; apply replace_all_less; [done|cbn; lia|congruence]).
    assert (opens s1 <= opens s)%nat as H2 by (apply replace_all_weight; [done|cbn; lia]).
    destruct (IH s1) as (s' & -> & Ho); [lia|]. exists s'. split; [done|lia].
Qed.

Lemma quote_count s : (quotes s <= length s)%nat.
Proof. induction s as [|c s IH]; [done|]. unfold quotes in *. rewrite weight_cons. cbn [length]. destruct (c =? 34); lia. Qed.

(** ** The groups *)

(** The pair that is found: nothing else than the text between is kept. *)
Lemma find_group_found s i level fb f j :
  0 <= level -> find_group s i level fb = Group f j ->
  if level =? 0 then exists a t b, s = a ++ 40 :: t ++ 41 :: b /\ f = i + zlen a /\ j = f + 1 + zlen t
  else exists t b, s = t ++ 41 :: b /\ f = fb /\ j = i + zlen t.
Proof.
  revert i level fb. induction s as [|c s IH]; intros i level fb Hl; cbn [find_group]; [done|].
  destruct (Z.eqb_spec c 40) as [->|H40]; [|destruct (Z.eqb_spec c 41) as [->|H41]].
  - intros HG. apply IH in HG; [|lia]. replace (level + 1 =? 0) with false in HG by lia. destruct HG as (t & b & -> & -> & ->).
    destruct (level =? 0); [exists [], t, b; split_and!; [done|rewrite zlen_nil; lia|lia]|]. exists (40 :: t), b. rewrite zlen_cons. split_and!; [done..|lia].
  - destruct (Z.eqb_spec level 0); [done|]. destruct (Z.eqb_spec (level - 1) 0) as [H1|H1].
    + intros [= <- <-]. exists [], s. split_and!; [done..|rewrite zlen_nil; lia].
    + intros HG. apply IH in HG; [|lia]. replace (level - 1 =? 0) with false in HG by lia. destruct HG as (t & b & -> & -> & ->).
      exists (41 :: t), b. rewrite zlen_cons. split_and!; [done..|lia].
  - intros HG. apply IH in HG; [|done]. destruct (level =? 0).
    + destruct HG as (a & t & b & -> & -> & ->). exists (c :: a), t, b. rewrite zlen_cons. split_and!; [done|lia..].
    + destruct HG as (t & b & -> & -> & ->). exists (c :: t), b. rewrite zlen_cons. split_and!; [done..|lia].
Qed.

Lemma opens_name n : 0 <= n -> opens (subexpr_name n) = 0%nat.
Proof.
  intros Hn. apply weight_none. intros c Hc. unfold subexpr_name in Hc. apply elem_of_app in Hc as [Hc|Hc].
  - destruct (Z.eqb_spec c 40) as [->|]; [|done]. exfalso. revert Hc. elem_decide.
  - apply decimal_chars in Hc; [|done]. by replace (c =? 40) with false by lia.
Qed.

Lemma replace_first_opens n needle repl : 0 <= n -> repl = subexpr_name n -> forall a b,
  (opens (replace_first needle repl (a ++ needle ++ b)) + opens needle = opens (a ++ needle ++ b))%nat.
Proof.
  intros Hn -> a b. unfold replace_first. destruct (find_str needle (a ++ needle ++ b)) as [k|] eqn:E; [|by apply find_str_there in E].
  apply find_str_some in E as (a' & b' & -> & <-). rewrite ztake_exact, (app_assoc a' needle b'), <- zlen_app, zdrop_exact, !opens_app, opens_name by done. lia.
Qed.

Section Total.
Context {J R : Type} `{!JsonCpp J} `{!JsonPath J} `{!UserRegex R}.
Context (sub_new : bytes -> list bytes -> bool -> outcome (@JSONEval R * list bytes)) (most : nat).
Hypothesis sub_total : forall t T neg, (opens t < most)%nat -> exists e T', sub_new t T neg = Ret (e, T').
Implicit Types w : @Work R.

(** A step ends the scan, goes behind an opening parenthesis, or takes one out. *)
Lemma extract_step_total start w :
  0 <= start <= zlen (w_expr w) -> (opens (w_expr w) <= most)%nat ->
  exists pos w', extractSubExpressions sub_new start w = Ret (pos, w') /\
    (pos = zlen (w_expr w') \/ pos = zlen (w_expr w') + 1 \/
     (w' = w /\ start <= pos <= zlen (w_expr w) /\ (opens (zdrop pos (w_expr w)) < opens (zdrop start (w_expr w)))%nat) \/
     (pos = 0 /\ (opens (w_expr w') < opens (w_expr w))%nat)).
Proof.
  intros Hs Hm. unfold extractSubExpressions. destruct (find_group _ _ _ _) as [| |f j] eqn:E; [by eexists _, _; split; [done|left]|by eexists _, _; split; [done|right; left]|].
  apply find_group_found in E; [|done]. destruct E as (a & t & b & E & -> & ->). set (expr := w_expr w) in *.
  assert (Ee : expr = (ztake start expr ++ a) ++ 40 :: t ++ 41 :: b) by (rewrite <- app_assoc, <- E; by rewrite ztake_zdrop).
  assert (Hp : zlen (ztake start expr ++ a) = start + zlen a) by (rewrite zlen_app, zlen_ztake; lia).
  set (p := ztake start expr ++ a) in *. rewrite <- Hp.
  assert (slice (zlen p + 1) (zlen p + 1 + zlen t - zlen p - 1) expr = t) as ->.
  { rewrite Ee, (app_assoc p [40] _ : p ++ 40 :: _ = _). replace (zlen p + 1) with (zlen (p ++ [40])) by (by rewrite zlen_app).
    replace (zlen (p ++ [40]) + zlen t - zlen p - 1) with (zlen t) by (rewrite zlen_app; change (zlen [40]) with 1; lia). apply slice_exact. }
  assert (Ho : forall q, opens (q ++ 40 :: t ++ 41 :: b) = (opens q + Datatypes.S (opens t + opens b))%nat).
  { intros q. rewrite opens_app. unfold opens at 2. rewrite weight_cons. fold opens. rewrite opens_app. unfold opens at 3. rewrite weight_cons. fold opens. cbn. lia. }
  assert (Hot : (opens t < most)%nat) by (rewrite Ee, Ho in Hm; lia).
  set (before := nth _ expr 0). cbv zeta. destruct ((zlen p >? 0) && isalnum before).
  - eexists _, w. split; [done|]. right. right. left. fold expr. split; [done|].
    assert (Hz : zlen expr = zlen p + 1 + zlen t + 1 + zlen b) by (rewrite Ee, zlen_app, zlen_cons, zlen_app, zlen_cons; lia).
    pose proof (zlen_nonneg t). pose proof (zlen_nonneg a). pose proof (zlen_nonneg b). split; [lia|]. rewrite E, Ho.
    replace (zdrop (zlen p + 1 + zlen t + 1) expr) with b; [lia|]. rewrite Ee.
    replace (p ++ 40 :: t ++ 41 :: b) with ((p ++ 40 :: t ++ [41]) ++ b) by (rewrite <- !app_assoc; cbn [app]; by rewrite <- app_assoc).
    replace (zlen p + 1 + zlen t + 1) with (zlen (p ++ 40 :: t ++ [41])); [by rewrite zdrop_exact|].
    rewrite zlen_app, zlen_cons, zlen_app. change (zlen [41]) with 1. lia.
  - pose proof (zlen_nonneg (w_subs w)) as Hn. destruct ((zlen p >? 0) && (before =? 33)) eqn:Eb.
    + destruct (sub_total t (w_texts w) true Hot) as (e & T' & ->). eexists _, _. split; [done|]. right. right. right. split; [done|]. cbn [w_expr].
      apply andb_true_iff in Eb as [Hp0 H33]. assert (exists q, p = q ++ [33]) as [q Eq].
      { destruct p as [|x q' _] using rev_ind; [done|]. exists q'. unfold before in H33. rewrite Ee, nth_before in H33. f_equal. f_equal. lia. }
      pose proof (replace_first_opens _ ([33; 40] ++ t ++ [41]) _ Hn eq_refl q b) as Hr.
      replace (q ++ ([33; 40] ++ t ++ [41]) ++ b) with expr in Hr by (rewrite Ee, Eq; by rewrite <- ?app_assoc).
      pose proof (opens_app [33; 40] (t ++ [41])) as H1. change (opens [33; 40]) with 1%nat in H1. lia.
    + destruct (sub_total t (w_texts w) false Hot) as (e & T' & ->). eexists _, _. split; [done|]. right. right. right. split; [done|]. cbn [w_expr].
      pose proof (replace_first_opens _ ([40] ++ t ++ [41]) _ Hn eq_refl p b) as Hr.
      replace (p ++ ([40] ++ t ++ [41]) ++ b) with expr in Hr by (rewrite Ee; by rewrite <- ?app_assoc).
      pose proof (opens_app [40] (t ++ [41])) as H1. change (opens [40]) with 1%nat in H1. lia.
Qed.

Lemma extract_total fuel start w :
  0 <= start <= zlen (w_expr w) -> (opens (w_expr w) <= most)%nat ->
  (opens (w_expr w) * (opens (w_expr w) + 1) + opens (zdrop start (w_expr w)) <= fuel)%nat ->
  exists w' balanced, extract_all sub_new fuel start w = Ret (w', balanced).
Proof.
  revert start w. induction fuel as [|fuel IH]; intros start w Hs Hm Hf; cbn [extract_all];
    destruct (extract_step_total start w Hs Hm) as (pos & w' & -> & Hc); cbn [mbind outcome_bind].
  all: destruct (Z.eqb_spec pos (zlen (w_expr w'))); [by eexists _, _|]; destruct (Z.eqb_spec pos (zlen (w_expr w') + 1)); [by eexists _, _|].
  - destruct Hc as [?|[?|[(-> & _ & ?)|[_ ?]]]]; [done|done|lia|nia].
  - destruct Hc as [?|[?|[(-> & Hp & Ho)|[-> Ho]]]]; [done|done| |].
    + apply IH; [lia|done|lia].
    + apply IH; [pose proof (zlen_nonneg (w_expr w')); lia|lia|]. rewrite zdrop_le0 by lia. nia.
Qed.
End Total.

Section Compiler.
Context {J R : Type} `{!JsonCpp J} `{!JsonPath J} `{!UserRegex R}.

Lemma opens_trim s : (opens (trim s) <= opens s)%nat.
Proof. apply weight_trim. Qed.

(** Refused and with an error text, or compiled and without one. *)
Definition reported (e : @JSONEval R) (ok : bool) : Prop := ok = bool_decide (getLastCompilerError e = []).

Lemma reported_error x (e : @JSONEval R) : x <> [] -> reported (je_set_error x e) false.
Proof. intros Hx. unfold reported. destruct e. symmetry. by apply bool_decide_eq_false_2. Qed.

Lemma compile_atoms_reported T parts (e e' : @JSONEval R) : compile_atoms T parts e = (e', false) -> reported e' false.
Proof.
  revert e. induction parts as [|p parts IH]; intros e; cbn [compile_atoms]; [done|]. destruct (starts_with p _).
  - destruct (_ >=? _); [intros [= <-]; by apply reported_error|apply IH].
  - destruct (compile T p Atomic_new) as [a []]; cbn [negb]; [apply IH|]. intros [= <-]. pose proof (reported_error (bs "Invalid Atomic Expression") e ltac:(done)). by destruct e.
Qed.

Lemma compile_parts_reported T expr (e e' : @JSONEval R) ok : compile_parts T expr e = (e', ok) -> reported e' ok.
Proof.
  unfold compile_parts. destruct (_ && _); [intros [= <- <-]; by apply reported_error|]. destruct (if has_value _ then _ else _) as [e1 expr1].
  destruct (has_value _); [intros [= <- <-]; by apply reported_error|]. destruct (compile_atoms T _ e1) as [e2 ok'] eqn:E. destruct ok'; intros [= <- <-].
  - by destruct e2.
  - by apply compile_atoms_reported in E.
Qed.

Lemma parse_total fuel expr T (e : @JSONEval R) :
  (opens expr < fuel)%nat -> exists e' T' ok, parseExpression fuel expr T e = Ret (e', T', ok) /\ reported e' ok.
Proof.
  revert expr T e. induction fuel as [|fuel IH]; intros expr T e Hf; [lia|]. cbn [parseExpression]. pose proof (opens_trim expr).
  destruct (precompile_total (length (trim expr)) (trim expr) T (quote_count _)) as (s1 & T1 & -> & H1). cbn [mbind outcome_bind].
  do 3 (destruct (has_value _); [eexists _, _, _; split; [done|by apply reported_error]|]).
  destruct (compress_total (length s1) s1 (Nat.le_refl _)) as (s2 & -> & H2). cbn [mbind outcome_bind]. fold (new_sub (R := R) fuel).
  set (w := mkWork s2 _ T1). destruct (extract_total (new_sub (R := R) fuel) (opens s2)) with (fuel := ((parens s2 + 1) * (parens s2 + 1))%nat) (start := 0) (w := w)
    as (w' & balanced & ->); try done.
  - intros t T' neg Ht. unfold new_sub. destruct (IH t T' (JSONEval_new neg)) as (e' & T'' & ok & -> & _); [lia|]. by eexists _, _.
  - subst w. cbn [w_expr]. pose proof (zlen_nonneg s2). lia.
  - subst w. cbn [w_expr]. rewrite zdrop_le0, parens_opens by lia. nia.
  - cbn [mbind outcome_bind]. destruct balanced; cbn [negb]; [|eexists _, _, _; split; [done|by apply reported_error]].
    destruct (compile_parts _ _ _) as [e' ok] eqn:E. apply compile_parts_reported in E. by eexists _, _, _.
Qed.

(** C36.  Whatever text an expression is made of, its constructor returns: the
    loops over the quotes, the spaces and the parentheses end, and so do the
    constructors of the sub-expressions; the object is compiled exactly when it
    has no error text. *)
Theorem compiler_total (expr : bytes) :
  exists (e : @JSONEval R) T, JSONEval_of expr = Ret (e, T) /\ isCompiled e = bool_decide (getLastCompilerError e = []).
Proof.
  unfold JSONEval_of. destruct (parse_total (parens expr + 1) expr [] (JSONEval_new false)) as (e & T & ok & -> & Hr); [rewrite parens_opens; lia|].
  eexists _, _. split; [done|]. by destruct e.
Qed.
End Compiler.
