(* ===== verification/JsonExprExamples.v ===== *)
(** * Expressions over JSON: a group that is refused, and examples

    What becomes of a group that the compiler refuses, and expressions with
    concrete documents: JSON values are trees, a path is the name of a member and
    a regular expression matches the text it is. *)

From S2P Require Import Prelude SafeInt CLib Encoders VarNet VarTheory Jwt JwtVerify JsonExpr JsonExprTheory JsonExprMeaning JsonExprCorrect JsonExprTotal.
From Stdlib Require Import ZArith Lia.
From stdpp Require Import gmap.
#[local] Open Scope Z_scope.

(** ** A group that is refused *)

(** Words with spaces between them, which are no expression. *)
Definition plain_words (t : bytes) : bool :=
  forallb (fun c => negb (bool_decide (c ∈ [10; 34; 38; 40; 41; 124]))) t && bool_decide (32 ∈ t) && bool_decide (trim t = t) &&
  negb (has_value (find_str [32; 32] t)) && negb (has_value (find_str (bs "_SUBEXPR_") t)).

Lemma replace_all_none needle repl s : needle <> [] -> find_str needle s = None -> replace_all needle repl s = s.
Proof.
  intros Hne. induction s as [|c s IH]; [done|]. cbn [find_str]. intros E. destruct (starts_with (c :: s) needle) eqn:Es; [done|].
  rewrite replace_all_skip by done. f_equal. apply IH. by destruct (find_str needle s).
Qed.

Section Refused.
Context {J R : Type} `{!JsonCpp J} `{!JsonPath J} `{!UserRegex R}.

Definition refused (neg : bool) (t : bytes) : @JSONEval R :=
  mkJSONEval t (bs "Invalid Operator (only and/or is admitted)") [] [] neg false OR.

Lemma plain_words_spec t : plain_words t = true ->
  (forall c, c ∈ [10; 34; 38; 40; 41; 124] -> c ∉ t) /\ 32 ∈ t /\ trim t = t /\ single_spaces t /\ find_str (bs "_SUBEXPR_") t = None.
Proof.
  unfold plain_words. intros [[[[Ha Hs%bool_decide_eq_true]%andb_true_iff Ht%bool_decide_eq_true]%andb_true_iff Hd]%andb_true_iff Hk]%andb_true_iff.
  split_and!; [|done|done|by unfold single_spaces; destruct (find_str [32; 32] t)|by destruct (find_str (bs "_SUBEXPR_") t)].
  intros c Hc Hin. rewrite forallb_forall in Ha. apply list_elem_of_In, Ha in Hin. by rewrite (bool_decide_eq_true_2 _ Hc) in Hin.
Qed.

Lemma refused_parse fuel neg t T :
  plain_words t = true -> parseExpression (Datatypes.S fuel) t T (JSONEval_new neg) = Ret (refused neg t, T, false).
Proof.
  intros (Hc & Hs & Ht & Hd & Hk)%plain_words_spec. cbn [parseExpression]. rewrite Ht, precompile_none by (apply Hc; elem_decide). cbn [mbind outcome_bind].
  rewrite !find_char_none by (apply Hc; elem_decide). rewrite Hk. cbn [has_value]. rewrite compress_single by done. cbn [mbind outcome_bind].
  fold (new_sub (R := R) fuel). assert (Hp : no_paren t) by (split; apply Hc; elem_decide).
  assert (He : forall n w, w_expr w = t -> extract_all (new_sub (R := R) fuel) n 0 w = Ret (w, true)).
  { intros n w Hw. destruct n; cbn [extract_all]; unfold extractSubExpressions; rewrite Hw, zdrop_le0, find_group_none by done; cbn [mbind outcome_bind]; by rewrite Hw, Z.eqb_refl. }
  rewrite He by done. cbn [mbind outcome_bind negb w_expr w_subs w_texts]. unfold compile_parts.
  rewrite (find_str_missing 38 (bs " && ")) by (elem_decide || (apply Hc; elem_decide)).
  rewrite (find_str_missing 124 (bs " || ")) by (elem_decide || (apply Hc; elem_decide)). cbn [has_value andb]. cbv zeta.
  rewrite replace_all_none by (done || (apply (find_str_missing 124); [elem_decide|apply Hc; elem_decide])).
  destruct (find_char 32 t) as [i|] eqn:E; [done|]. exfalso. revert E. apply list_elem_of_split in Hs as (a & b & ->). clear.
  induction a as [|x a IH]; cbn; [done|]. destruct (x =? 32); [done|]. by destruct (find_char 32 (a ++ 32 :: b)).
Qed.

Definition accepted (t : bytes) : @JSONEval R :=
  mkJSONEval ([33; 40] ++ t ++ [41]) [] [refused true t] [(None, 0)] false true OR.

(** The first step takes the group out, the second one ends the scan. *)
Lemma refused_step t T :
  plain_words t = true ->
  extractSubExpressions (new_sub (R := R) 1) 0 (mkWork ([33; 40] ++ t ++ [41]) [] T) = Ret (0, mkWork (subexpr_name 0) [refused true t] T).
Proof.
  intros Hw. assert (Hw' := Hw). apply plain_words_spec in Hw' as (Hc & _). assert (Hp : no_paren t) by (split; apply Hc; elem_decide).
  unfold extractSubExpressions. cbn [w_expr w_texts w_subs]. rewrite zdrop_le0 by done.
  pose proof (find_group_at [33] t [] 0 ltac:(by apply (bool_decide_unpack _)) (closed_plain t Hp)) as Hg. cbn [app] in Hg |- *. rewrite Hg. clear Hg. cbv zeta.
  change (0 + zlen [33]) with 1. replace (1 + 1 + zlen t - 1 - 1) with (zlen t) by lia.
  assert (slice (1 + 1) (zlen t) (33 :: 40 :: t ++ [41]) = t) as -> by apply (slice_exact [33; 40] t [41]).
  change (nth (Z.to_nat (1 - 1)) (33 :: 40 :: t ++ [41]) 0) with 33. change (1 >? 0) with true. change (isalnum 33) with false. cbn [andb Z.eqb Pos.eqb].
  unfold new_sub at 1. rewrite refused_parse by done. cbn [mbind outcome_bind]. do 2 f_equal. f_equal.
  pose proof (replace_first_at (33 :: 40 :: t ++ [41]) (subexpr_name 0) [] []) as Hr. rewrite !app_nil_r in Hr. cbn [app] in Hr. apply Hr.
  cbn [find_str]. pose proof (starts_with_app (33 :: 40 :: t ++ [41]) []) as Hs. rewrite app_nil_r in Hs. by rewrite Hs.
Qed.

Lemma refused_extract t T n :
  plain_words t = true ->
  extract_all (new_sub (R := R) 1) (Datatypes.S n) 0 (mkWork ([33; 40] ++ t ++ [41]) [] T) = Ret (mkWork (subexpr_name 0) [refused true t] T, true).
Proof. intros Hw. cbn [extract_all]. rewrite refused_step by done. by destruct n. Qed.

Lemma refused_group_compiles t :
  plain_words t = true -> JSONEval_of ([33; 40] ++ t ++ [41]) = Ret (accepted t, []).
Proof.
  intros Hw. assert (Hw' := Hw). apply plain_words_spec in Hw' as (Hc & Hs & Ht & Hd & Hk). assert (Hp : no_paren t) by (split; apply Hc; elem_decide).
  set (expr := [33; 40] ++ t ++ [41]).
  assert (Hn : parens expr = 1%nat).
  { rewrite parens_opens. unfold expr. rewrite !opens_app. assert (opens t = 0%nat) as ->; [|done].
    apply weight_none. intros c Hin. destruct (Z.eqb_spec c 40) as [->|]; [|done]. by destruct Hp. }
  assert (Hq : 34 ∉ expr) by (unfold expr; rewrite !not_elem_of_app; split_and!; [elem_decide|apply Hc; elem_decide|elem_decide]).
  assert (Hl : 10 ∉ expr) by (unfold expr; rewrite !not_elem_of_app; split_and!; [elem_decide|apply Hc; elem_decide|elem_decide]).
  assert (Hss : single_spaces expr).
  { unfold expr. apply single_spaces_app; [done| |left; done]. apply single_spaces_app; [done|done|right; done]. }
  assert (Hkw : find_str (bs "_SUBEXPR_") expr = None).
  { unfold expr. cbn [app]. apply (find_str_sep 40 _ [33]); [elem_decide|done..|]. apply find_str_sep; [elem_decide|done..]. }
  assert (Htr : trim expr = expr).
  { apply (trim_tight 33 (40 :: t ++ [41]) 41); [done..|]. apply (last_snoc 41 ([33; 40] ++ t)). }
  unfold JSONEval_of. rewrite Hn. change (1 + 1)%nat with (Datatypes.S 1). remember 1%nat as k eqn:Ek in |- *. cbn [parseExpression]. rewrite Htr, precompile_none by done. cbn [mbind outcome_bind].
  rewrite !find_char_none by done. rewrite Hkw. cbn [has_value]. rewrite compress_single by done. cbn [mbind outcome_bind]. rewrite Hn.
  fold (new_sub (R := R) k). rewrite Ek. change ((1 + 1) * (1 + 1))%nat with 4%nat. cbn [je_subs JSONEval_new je_set_expression]. unfold expr.
  rewrite refused_extract by done. done.
Qed.

(** C37.  A group that the compiler refuses is taken into the expression all the
    same: of words that are no expression, in parentheses behind an exclamation
    mark, an object is made that says it is compiled, without an error, and it
    answers true for every document. *)
Theorem refused_group_answers (t : bytes) (v : J) :
  plain_words t = true ->
  exists (e : @JSONEval R) T, JSONEval_of ([33; 40] ++ t ++ [41]) = Ret (e, T) /\ isCompiled e = true /\ getLastCompilerError e = [] /\
    run_expression (R := R) ([33; 40] ++ t ++ [41]) v = Ret true.
Proof.
  intros Hw. exists (accepted t), []. unfold run_expression. by rewrite refused_group_compiles.
Qed.
End Refused.

(** ** Examples *)
Module JsonExprExamples.
#[local] Existing Instance tree_json.
#[local] Instance tree_path : JsonPath (gen_tree Z) := {|
  json_path p t := json_get t (zdrop 1 p);
  json_size t := match t with GenNode 4 l => zlen l | GenNode 3 l => zlen l / 2 | _ => 0 end;
  json_empty t := match t with GenNode 4 [] | GenNode 3 [] | GenNode 0 _ => true | _ => false end;
  json_at t i :=
    match t with GenNode 4 l => Ret (default (GenNode 0 []) (l !! Z.to_nat i)) | _ => Throw (logic_error "requires arrayValue") end;
  json_text t :=
    match t with
    | GenNode 0 _ => Ret [] | GenNode 1 l => Ret (leaves l) | GenNode 2 [GenLeaf z] => Ret (to_string_signed z)
    | _ => Throw (logic_error "Type is not convertible to string")
    end |}.
#[local] Instance text_regex : UserRegex bytes := {| regex_extended s _ := Ret s; regex_matches r s := bool_decide (r = s) |}.

Definition roles : gen_tree Z := json_append (json_append json_array (json_string (bs "admin"))) (json_string (bs "ops")).
Definition document : gen_tree Z := json_set (json_set json_null (bs "name") (json_string (bs "ann"))) (bs "roles") roles.

Abbreviation run e := (run_expression (R := bytes) e document).

(** [!(IS_EQUAL($.roles,'admin') && IS_NULL($.x)) || iSTARTS_WITH($.roles,'OP')], with quotes for the apostrophes. *)
Definition sample : list bexpr :=
  [Nest true true [Call (mkCall false false ISEQUAL (TPath (bs ".roles")) (TText (bs "admin"))); Call (mkCall false false ISNULL (TPath (bs ".x")) (TPath []))];
   Call (mkCall false true STARTSWITH (TPath (bs ".roles")) (TText (bs "OP")))].

(** A scalar has no elements, so it is equal to nothing. *)
Example scalar_is_null : run (bs "IS_NULL($.name)") = Ret true.
Proof. vm_compute. reflexivity. Qed.
Example scalar_equals_nothing : run (bs "IS_EQUAL($.name," ++ quote (bs "ann") ++ bs ")") = Ret false.
Proof. vm_compute. reflexivity. Qed.
Example array_contains : run (bs "IS_EQUAL($.roles," ++ quote (bs "admin") ++ bs ")") = Ret true.
Proof. vm_compute. reflexivity. Qed.

(** Without the spaces the second group is not read. *)
Example groups_without_spaces :
  run (bs "(IS_NULL($.x))&&(IS_NULL($.roles))") = Ret true /\ run (bs "(IS_NULL($.x)) && (IS_NULL($.roles))") = Ret false.
Proof. split; vm_compute; reflexivity. Qed.

Lemma refused_group_answers_witness :
  plain_words (bs "nonsense here") = true /\
  (exists (e : @JSONEval bytes) T, JSONEval_of (bs "!(nonsense here)") = Ret (e, T) /\ isCompiled e = true /\ getLastCompilerError e = [] /\
    run (bs "!(nonsense here)") = Ret true).
Proof. split; [vm_compute; reflexivity|]. apply (refused_group_answers (R := bytes) (bs "nonsense here") document). vm_compute. reflexivity. Defined.

Lemma expression_means_what_it_says_witness :
  expr_ok (Nest false false sample) = true /\ run (show_items quote false sample) = Ret true /\
  run (show_items quote false sample) = meaning (R := bytes) document (Nest false false sample).
Proof.
  split_and!; [vm_compute; reflexivity..|].
  apply (expression_means_what_it_says (R := bytes) false sample document); [vm_compute; reflexivity|apply (bool_decide_unpack _); vm_compute; exact I].
Defined.
End JsonExprExamples.
