(* ===== verification/SockStream.v ===== *)
(** * Streams over sockets (Net_Sockets)

    [Socket_Stream] (socket_stream.cpp) with the two classes it inherits for
    integers, blocks and texts with their length (socket_stream_reader,
    socket_stream_writer); the reader of lines with a buffer [BufferedReader]
    (streams_bufferedreader.cpp), the socket in memory [Socket_Stream_Dummy] and
    the mutual authentication [CryptoChallenge] (streams_cryptochallenge.cpp).

    The class [StreamIO] has the virtual functions that a kind of socket supplies:
    a read gives at most what is asked for, a write takes at most what is offered.
    A template over an integral type takes the number of its bytes. *)

From S2P Require Import Prelude SafeInt Streamable Container BMem BChunks CLib Encoders WebSocket.
From Stdlib Require Import ZArith Lia.
#[local] Open Scope Z_scope.

(** The modes of [shutdown]. *)
Inductive ShutdownMode := SHUT_RD | SHUT_WR | SHUT_RDWR.

Class StreamIO (K : Type) := {
  (** [partialRead]: nothing when the result is negative, else the bytes; none at the end. *)
  partialRead : Z -> K -> outcome (K * option bytes);
  (** [partialWrite]: the result, which may be negative. *)
  partialWrite : bytes -> K -> outcome (K * Z);
  shutdownSocket : ShutdownMode -> K -> K }.

(** ** Socket_Stream *)
Record Stream (K : Type) := mkStream { st_io : K; mChunkSize : Z; st_writeStatus : WriteStatus }.
Arguments mkStream {K}. Arguments st_io {K}. Arguments mChunkSize {K}. Arguments st_writeStatus {K}.

Definition SSIZE_MAX : Z := 9223372036854775807.

Section Stream.
Context {K : Type} `{StreamIO K}.
Implicit Types s : Stream K.

Definition Stream_new (k : K) : Stream K := mkStream k 8192 ws_init.
Definition st_set_io (k : K) s : Stream K := mkStream k (mChunkSize s) (st_writeStatus s).
Definition st_set_status (ws : WriteStatus) s : Stream K := mkStream (st_io s) (mChunkSize s) ws.

Definition setChunkSize (chunkSize : Z) s : Stream K :=
  if chunkSize =? 0 then mkStream (st_io s) 8192 (st_writeStatus s) else mkStream (st_io s) chunkSize (st_writeStatus s).
Definition getChunkSize s : Z := mChunkSize s.

Definition writeDeSync s : Stream K := st_set_io (shutdownSocket SHUT_RDWR (st_io s)) s.
Definition readDeSync s : Stream K := st_set_io (shutdownSocket SHUT_RDWR (st_io s)) s.

Definition write_failed s : outcome (Stream K) := ws ← ws_add_ssize (st_writeStatus s) (-1); Ret (st_set_status ws s).

(** The size of a fragment is given as 32 bits. *)
Fixpoint writeFull_loop (fuel : nat) (data : bytes) s : outcome (Stream K * bool) :=
  match data, fuel with
  | [], _ => Ret (s, true)
  | _, Datatypes.O => NoFuel
  | _, Datatypes.S fuel =>
      let chunkSize := Z.min (zlen data) (mChunkSize s) in
      '(k, sentBytes) ← partialWrite (ztake (wrapw 32 chunkSize) data) (st_io s);
      let s := st_set_io k s in
      if sentBytes <=? 0 then
        s ← write_failed (st_set_io (shutdownSocket SHUT_RDWR (st_io s)) s); Ret (s, false)
      else if sentBytes >? zlen data then Undef
      else writeFull_loop fuel (zdrop sentBytes data) s
  end.

Definition writeFull (data : bytes) s : outcome (Stream K * bool) :=
  if zlen data >? SSIZE_MAX then s ← write_failed s; Ret (s, false)
  else writeFull_loop (length data) data s.

(** [writeFull] of a text that ends with a zero. *)
Definition writeFull_text (data : bytes) s : outcome (Stream K * bool) := writeFull (c_str data) s.

(** [readFull]: the result, the number received and the bytes that are at the
    beginning of the buffer.  After an error the number is zero. *)
Fixpoint readFull_loop (fuel : nat) (expected : Z) (data : bytes) s : outcome (Stream K * bool * Z * bytes) :=
  if zlen data <? expected then
    match fuel with
    | Datatypes.O => NoFuel
    | Datatypes.S fuel =>
        let bytesToRead := Z.min (mChunkSize s) (expected - zlen data) in
        '(k, r) ← partialRead (wrapw 32 bytesToRead) (st_io s);
        let s := st_set_io k s in
        match r with
        | None => Ret (s, false, 0, data)
        | Some [] => Ret (s, false, zlen data, data)
        | Some d => if zlen (data ++ d) >? expected then Undef else readFull_loop fuel expected (data ++ d) s
        end
    end
  else Ret (s, true, zlen data, data).

Definition readFull (expected : Z) s : outcome (Stream K * bool * Z * bytes) :=
  if expected =? 0 then Ret (s, true, 0, []) else readFull_loop (Z.to_nat expected) expected [] s.

(** [write]: a write of nothing closes. *)
Definition sock_write (buf : bytes) s : outcome (Stream K * option Z) :=
  if zlen buf =? 0 then Ret (st_set_io (shutdownSocket SHUT_RDWR (st_io s)) s, Some 0)
  else
    '(k, r) ← partialWrite buf (st_io s);
    Ret (st_set_io k s, if r >? 0 then Some r else None).

(** [streamTo]; the fuel is for the reads. *)
Fixpoint sock_streamTo {O : Type} `{Sink O} (fuel : nat) (out : O) s : outcome (Stream K * O * bool) :=
  match fuel with
  | Datatypes.O => NoFuel
  | Datatypes.S fuel =>
      '(k, r) ← partialRead 8192 (st_io s);
      let s := st_set_io k s in
      match r with
      | None => Ret (s, out, false)
      | Some [] => Ret (s, out, true)
      | Some data =>
          '(out, ok) ← writeFullStream data out;
          if negb ok then Ret (s, out, false)
          else if finished (sink_status out) then Ret (s, out, true)
          else sock_streamTo fuel out s
      end
  end.

(** ** Socket_Stream_Writer *)

(** An integer of [k] bytes in network order. *)
Definition write_int (k : nat) (c : Z) s : outcome (Stream K * bool) := writeFull (be_bytes k c) s.
Definition writeU8 := write_int 1.
Definition writeU16 := write_int 2.
Definition writeU32 := write_int 4.
Definition writeU64 := write_int 8.

Definition write_sized (k : nat) (c : Z) s : outcome (Stream K * bool) :=
  match k with
  | 1%nat => writeU8 c s | 2%nat => writeU16 c s | 4%nat => writeU32 c s | 8%nat => writeU64 c s
  | _ => Ret (s, false)
  end.

Definition writeU (k : nat) (c : Z) s : outcome (Stream K * bool) :=
  '(s, r) ← write_sized k c s;
  if r : bool then Ret (s, true) else Ret (writeDeSync s, false).

Definition writeBlockEx (k : nat) (data : bytes) (datalen : Z) s : outcome (Stream K * bool) :=
  '(s, wr) ← write_sized k datalen s;
  if negb wr then Ret (s, false)
  else if datalen =? 0 then Ret (s, true)
  else
    '(s, ok) ← writeFull (ztake datalen data) s;
    if ok : bool then Ret (s, true) else Ret (writeDeSync s, false).

(** The greatest value of an unsigned type of [k] bytes. *)
Definition type_max (k : nat) : Z := 2 ^ (8 * Z.of_nat k) - 1.

(** The length is converted to the type. *)
Definition writeStringEx_max (k : nat) (str : bytes) (maxSize : Z) s : outcome (Stream K * bool) :=
  if zlen str >? maxSize then Ret (writeDeSync s, false)
  else writeBlockEx k str (wrapw (8 * Z.of_nat k) (zlen str)) s.
Definition writeStringEx (k : nat) (str : bytes) s : outcome (Stream K * bool) := writeStringEx_max k str (type_max k - 1) s.

(** ** Socket_Stream_Reader *)

(** What was not received is zero. *)
Definition read_int (k : nat) s : outcome (Stream K * Z * bool) :=
  '(s, ok, r, data) ← readFull (Z.of_nat k) s;
  Ret (s, be_value (data ++ replicate (k - length data) 0), ok && (r =? Z.of_nat k)).
Definition readU8 := read_int 1.
Definition readU16 := read_int 2.
Definition readU32 := read_int 4.
Definition readU64 := read_int 8.

Definition read_sized (k : nat) s : outcome (Stream K * Z * bool) :=
  match k with
  | 1%nat => readU8 s | 2%nat => readU16 s | 4%nat => readU32 s | 8%nat => readU64 s
  | _ => Throw (runtime_error "Code Error: reading block with invalid lenght variable size.")
  end.

Definition readU (k : nat) s : outcome (Stream K * Z * bool) :=
  '(s, r, ok) ← read_sized k s;
  Ret (if ok : bool then s else readDeSync s, r, ok).

(** The bytes of the block, the length that is left in the argument, and the result. *)
Definition readBlockEx (k : nat) (datalen : Z) (mustReceiveFullDataLen : bool) s : outcome (Stream K * bytes * Z * bool) :=
  if datalen =? 0 then Ret (s, [], datalen, true)
  else
    '(s, len, readOK) ← readU k s;
    if negb readOK then Ret (s, [], datalen, false)
    else if (negb (len =? datalen) && mustReceiveFullDataLen) || (len >? datalen) then Ret (readDeSync s, [], datalen, false)
    else if len =? 0 then Ret (s, [], len, true)
    else
      '(s, ok, r, data) ← readFull len s;
      Ret (s, data, len, ok && (r =? len)).

(** The size of the block that is allocated: the sum of the narrow types is an
    [int], that of the wide ones wraps. *)
Definition block_size (k : nat) (n : Z) : Z := if (k <? 4)%nat then n + 1 else wrapw (8 * Z.of_nat k) (n + 1).

(** The block without the zero behind it, or none, and the length that is left.
    [None] is a null pointer as argument. *)
Definition readBlockWAllocEx (k : nat) (datalen : option Z) s : outcome (Stream K * option bytes * Z) :=
  let limit := default (type_max k - 1) datalen in
  '(s, expectedBytesCount, readOK) ← readU k s;
  if negb readOK then Ret (s, None, 0)
  else if expectedBytesCount >? limit then Ret (readDeSync s, None, 0)
  else if expectedBytesCount =? 0 then Ret (s, Some [], 0)
  else if block_size k expectedBytesCount <? expectedBytesCount then Undef
  else
    '(s, ok, r, data) ← readFull expectedBytesCount s;
    if negb (ok && (r =? expectedBytesCount)) then Ret (readDeSync s, None, 0)
    else Ret (s, Some data, expectedBytesCount).

Definition readStringEx_max (k : nat) (maxLenght : Z) s : outcome (Stream K * bytes * bool) :=
  '(s, data, receivedBytes) ← readBlockWAllocEx k (Some maxLenght) s;
  match data with
  | None => Ret (s, [], false)
  | Some data => if receivedBytes =? 0 then Ret (s, [], true) else Ret (s, ztake receivedBytes data, true)
  end.
Definition readStringEx (k : nat) s : outcome (Stream K * bytes * bool) := readStringEx_max k (type_max k - 1) s.

(** *** Blocks up to a delimiter

    [read64KBlockDelim]: the block is the part behind [start] of what was received.
    The result is the position behind the delimiter, -1 or -2. *)
Fixpoint read64K_loop (fuel : nat) (delim : bytes) (blockNo start pos : Z) (block : bytes) s : outcome (Stream K * bytes * Z) :=
  match fuel with
  | Datatypes.O => Ret (s, block, -1)
  | Datatypes.S fuel =>
      '(s, c, readOK) ← readU8 s;
      let block := block ++ [c] in
      if negb readOK then Ret (s, block, -2)
      else if ((blockNo =? 0) && (pos >=? zlen delim)) || (blockNo >? 0) then
        let comparisson_point := start + (pos - 1) - (zlen delim - 1) in
        if bool_decide (slice comparisson_point (zlen delim) block = delim) then Ret (s, block, pos)
        else read64K_loop fuel delim blockNo start (pos + 1) block s
      else read64K_loop fuel delim blockNo start (pos + 1) block s
  end.
Definition read64KBlockDelim (delim : bytes) (blockNo start : Z) (block : bytes) s : outcome (Stream K * bytes * Z) :=
  read64K_loop (Z.to_nat 65536) delim blockNo start 1 block s.

(** The sizes are 32 bits wide; when the sum wraps the new block is too small. *)
Fixpoint readBlock32_loop (fuel : nat) (datalen : Z) (delim : bytes) (blockNo currentBlockSize : Z) (block : bytes) s
    : outcome (Stream K * option bytes * Z) :=
  match fuel with
  | Datatypes.O => NoFuel
  | Datatypes.S fuel =>
      '(s, block, bytesRecv) ← read64KBlockDelim delim blockNo (currentBlockSize - 65536) block s;
      if bytesRecv =? -2 then Ret (s, None, datalen)
      else if bytesRecv =? -1 then
        if wrapw 32 (currentBlockSize + 65536) >? datalen then Ret (s, None, datalen)
        else if wrapw 32 (currentBlockSize + 65536) <? currentBlockSize then Undef
        else readBlock32_loop fuel datalen delim (blockNo + 1) (currentBlockSize + 65536) block s
      else Ret (s, Some block, currentBlockSize - 65536 + bytesRecv)
  end.

(** One round per block of the limit. *)
Definition readBlock32WAllocAndDelim (datalen : Z) (delim : bytes) s : outcome (Stream K * option bytes * Z) :=
  if datalen <=? 65535 then Ret (s, None, datalen)
  else readBlock32_loop (Z.to_nat (datalen / 65536 + 1)) datalen delim 0 65536 [] s.
End Stream.

(** ** BufferedReader

    The first [m_currentBufferSize] bytes of the buffer, which are all that is
    looked at, and the size of the buffer. *)
Inductive ReadResult := READ_OK | READ_FULL | READ_NOTFOUND | READ_DISCONNECTED | READ_INVALID_ARG.

Record BufferedReader (K : Type) := mkReader { br_buffer : bytes; br_size : Z; br_stream : Stream K }.
Arguments mkReader {K}. Arguments br_buffer {K}. Arguments br_size {K}. Arguments br_stream {K}.

Section Reader.
Context {K : Type} `{StreamIO K}.
Implicit Types r : BufferedReader K.

Definition BufferedReader_new (stream : Stream K) (bufferSize : Z) : BufferedReader K := mkReader [] bufferSize stream.
Definition getBufferSize r : Z := br_size r.
Definition m_currentBufferSize r : Z := zlen (br_buffer r).

Definition refillBuffer r : outcome (BufferedReader K * ReadResult) :=
  if m_currentBufferSize r >=? br_size r then Ret (r, READ_FULL)
  else
    let availableSpace := br_size r - m_currentBufferSize r in
    '(k, d) ← partialRead availableSpace (st_io (br_stream r));
    let r := mkReader (br_buffer r) (br_size r) (st_set_io k (br_stream r)) in
    match d with
    | None | Some [] => Ret (r, READ_DISCONNECTED)
    | Some d => if zlen d >? availableSpace then Undef else Ret (mkReader (br_buffer r ++ d) (br_size r) (br_stream r), READ_OK)
    end.

(** The line that is taken out: with the delimiter replaced by a zero into a block,
    without it into a string. *)
Definition displaceAndCopy (dlen : Z) r : BufferedReader K * bytes :=
  (mkReader (zdrop dlen (br_buffer r)) (br_size r) (br_stream r), ztake (dlen - 1) (br_buffer r) ++ [0]).
Definition displaceAndCopy_string (dlen : Z) r : BufferedReader K * bytes :=
  (mkReader (zdrop dlen (br_buffer r)) (br_size r) (br_stream r), ztake (dlen - 1) (br_buffer r)).

(** A round ends or adds a byte to the buffer. *)
Fixpoint readUntil_loop (displace : Z -> BufferedReader K -> BufferedReader K * bytes) (fuel : nat) (delimiter : byte) r
    : outcome (BufferedReader K * option bytes * ReadResult) :=
  match find_char delimiter (br_buffer r) with
  | Some needle => let '(r, data) := displace (needle + 1) r in Ret (r, Some data, READ_OK)
  | None =>
      match fuel with
      | Datatypes.O => NoFuel
      | Datatypes.S fuel =>
          '(r, result) ← refillBuffer r;
          match result with
          | READ_OK => readUntil_loop displace fuel delimiter r
          | _ => Ret (r, None, result)
          end
      end
  end.

Definition reader_fuel r : nat := Datatypes.S (Z.to_nat (br_size r - m_currentBufferSize r)).
Definition bufferedReadUntil (delimiter : byte) r := readUntil_loop displaceAndCopy (reader_fuel r) delimiter r.
Definition bufferedReadUntil_string (delimiter : byte) r := readUntil_loop displaceAndCopy_string (reader_fuel r) delimiter r.
Definition readLineCR r := bufferedReadUntil_string 13 r.
Definition readLineLF r := bufferedReadUntil_string 10 r.
End Reader.

(** ** Socket_Stream_Dummy: two containers in memory *)
Section Dummy.
Context {M : Type} `{Container M} `{!MMapFile M}.

Record Dummy := mkDummy { peerName : bytes; sender : B_Chunks M; receiver : B_Chunks M; shuttedDownRD : bool; shuttedDownWR : bool }.

Definition Dummy_new : Dummy := mkDummy [] bc_new bc_new false false.
Definition setPeerName (newPeerName : bytes) (d : Dummy) : Dummy :=
  mkDummy newPeerName (sender d) (receiver d) (shuttedDownRD d) (shuttedDownWR d).

Definition dummy_shutdown (mode : ShutdownMode) (d : Dummy) : Dummy :=
  match mode with
  | SHUT_RDWR => mkDummy (peerName d) (sender d) (receiver d) true true
  | SHUT_RD => mkDummy (peerName d) (sender d) (receiver d) true (shuttedDownWR d)
  | SHUT_WR => mkDummy (peerName d) (sender d) (receiver d) (shuttedDownRD d) true
  end.

Definition dummy_set_sender (c : B_Chunks M) (d : Dummy) : Dummy :=
  mkDummy (peerName d) c (receiver d) (shuttedDownRD d) (shuttedDownWR d).

(** The number of bytes is returned whatever the copy returns: without a copy the
    buffer is not written. *)
Definition dummy_partialRead (datalen : Z) (d : Dummy) : outcome (Dummy * option bytes) :=
  let storedDataSize := csize (sender d) in
  if storedDataSize =? 0 then Ret (d, Some [])
  else
    data ← copyOut (Z.min datalen storedDataSize) 0 (sender d);
    match data with
    | None => Undef
    | Some data =>
        if datalen <=? storedDataSize then '(c, _) ← displace datalen (sender d); Ret (dummy_set_sender c d, Some data)
        else Ret (dummy_set_sender (clear (sender d)).1 d, Some data)
    end.

Definition dummy_partialWrite (data : bytes) (d : Dummy) : outcome (Dummy * Z) :=
  '(c, r) ← append data (receiver d);
  Ret (mkDummy (peerName d) (sender d) c (shuttedDownRD d) (shuttedDownWR d), default (-1) r).

#[export] Instance dummy_io : StreamIO Dummy := {|
  partialRead := dummy_partialRead; partialWrite := dummy_partialWrite; shutdownSocket := dummy_shutdown |}.
End Dummy.

(** ** CryptoChallenge *)

(** The digest of OpenSSL, 32 bytes. *)
Class SHA256 := { sha256_digest : bytes -> bytes }.

(** [Crypto::calcSHA256]. *)
Definition calcSHA256 `{SHA256} (password : bytes) : bytes := toHex (sha256_digest password).

Section Challenge.
Context {K : Type} `{StreamIO K} `{SHA256}.
Implicit Types s : Stream K.

(** The two answers: the other side knew the key, and it says that this side did.
    The random text that is drawn is an argument. *)
Definition mutualChallengeResponseSHA256Auth (sharedKey : bytes) (server : bool) (sLocalRandomValue : bytes) s
    : outcome (Stream K * (bool * bool)) :=
  '(s, ok) ← writeStringEx 1 sLocalRandomValue s;
  if negb ok then Ret (s, (false, false))
  else
    '(s, sRemoteRandomValue, readOK) ← readStringEx 1 s;
    if negb readOK then Ret (s, (false, false))
    else if negb (zlen sRemoteRandomValue =? 64) then Ret (s, (false, false))
    else
      '(s, ok) ← (if negb server then writeStringEx 1 (calcSHA256 (sharedKey ++ sRemoteRandomValue ++ sLocalRandomValue)) s else Ret (s, true));
      if negb ok then Ret (s, (false, false))
      else
        '(s, sRemoteChallenge, readOK) ← readStringEx 1 s;
        if negb readOK then Ret (s, (false, false))
        else
          let bRemoteChallengeOK := bool_decide (sRemoteChallenge = calcSHA256 (sharedKey ++ sLocalRandomValue ++ sRemoteRandomValue)) in
          '(s, ok) ←
            (if server then
               writeStringEx 1 (calcSHA256 ((if bRemoteChallengeOK then sharedKey else []) ++ sRemoteRandomValue ++ sLocalRandomValue)) s
             else Ret (s, true));
          if negb ok then Ret (s, (false, false))
          else
            '(s, _) ← writeU 1 (if bRemoteChallengeOK then 1 else 0) s;
            '(s, v, _) ← readU 1 s;
            Ret (s, (bRemoteChallengeOK, v =? 1)).
End Challenge.
