(* ===== verification/SockTheory.v ===== *)
(** * Streams over sockets: the theorems

    [StreamLaws] is what a kind of socket promises as long as nothing fails: a read
    takes a beginning of what comes in, at least one byte unless that is the end; a
    write gives a beginning of what is written, at least one byte.  Against this
    promise the sizes of the fragments do not matter: integers, blocks and texts
    arrive as they were sent, and lines as they end.  [Wire] is a socket that reads
    and writes in fragments of given sizes, [Socket_Stream_Dummy] one in memory. *)

From S2P Require Import Prelude SafeInt Streamable Container ContainerTheory BMem BChunks ChunkBuffer CLib Encoders WebSocket SockStream.
From Stdlib Require Import ZArith Lia.
#[local] Open Scope Z_scope.

Class StreamLaws (K : Type) `{StreamIO K} := {
  ready : K -> Prop;
  incoming : K -> bytes;
  outgoing : K -> bytes;
  room : K -> Z;
  partialRead_law n k :
    ready k -> 0 < n < 4294967296 ->
    exists k' d, partialRead n k = Ret (k', Some d) /\ ready k' /\ incoming k = d ++ incoming k' /\ zlen d <= n /\
      (d = [] -> incoming k = []) /\ outgoing k' = outgoing k /\ room k <= room k';
  partialWrite_law data k :
    ready k -> data <> [] -> zlen data <= room k ->
    exists k' r, partialWrite data k = Ret (k', r) /\ 0 < r <= zlen data /\ ready k' /\ incoming k' = incoming k /\
      outgoing k' = outgoing k ++ ztake r data /\ room k - r <= room k' }.

(** ** Integers in network order *)
Lemma be_bytes_zlen k v : zlen (be_bytes k v) = Z.of_nat k.
Proof. revert v. induction k as [|k IH]; intros v; [done|]. cbn [be_bytes]. rewrite zlen_app, IH. change (zlen [v mod 256]) with 1. lia. Qed.

Lemma be_value_snoc l x : be_value (l ++ [x]) = be_value l * 256 + x.
Proof. unfold be_value. by rewrite fold_left_app. Qed.

Lemma be_value_bytes k v : 0 <= v < 2 ^ (8 * Z.of_nat k) -> be_value (be_bytes k v) = v.
Proof.
  revert v. induction k as [|k IH]; intros v Hv; cbn [be_bytes]; [cbn in *; lia|]. rewrite be_value_snoc, IH; [pose proof (Z.div_mod v 256); lia|].
  replace (8 * Z.of_nat (Datatypes.S k)) with (8 + 8 * Z.of_nat k) in Hv by lia. rewrite Z.pow_add_r in Hv by lia. change (2 ^ 8) with 256 in Hv.
  split; [apply Z.div_pos; lia|]. apply Z.div_lt_upper_bound; lia.
Qed.

(** The widths there are functions for. *)
Definition width (k : nat) : Prop := k = 1%nat \/ k = 2%nat \/ k = 4%nat \/ k = 8%nat.

Section Laws.
Context {K : Type} `{StreamLaws K}.
Implicit Types s : Stream K.

(** A stream with what will come in, what has gone out and the room that is left. *)
Record at_ s (inc out : bytes) (rm : Z) : Prop := mkAt {
  at_ready : ready (st_io s);
  at_chunk : 0 < mChunkSize s < 4294967296;
  at_in : incoming (st_io s) = inc;
  at_out : outgoing (st_io s) = out;
  at_room : rm <= room (st_io s) }.

Lemma at_weaken s inc out rm rm' : rm' <= rm -> at_ s inc out rm -> at_ s inc out rm'.
Proof. intros Hr []. split; try done. lia. Qed.

(** *** Reading and writing in fragments *)
Lemma readFull_step fuel n data a b s out rm :
  at_ s (a ++ b) out rm -> zlen data + zlen a = n -> (length a <= fuel)%nat ->
  exists s', readFull_loop fuel n data s = Ret (s', true, n, data ++ a) /\ at_ s' b out rm /\ mChunkSize s' = mChunkSize s.
Proof.
  revert data a s. induction fuel as [|fuel IH]; intros data a s Hs Hn Hf.
  - destruct a; [|cbn in Hf; lia]. cbn [readFull_loop]. change (zlen (@nil Z)) with 0 in Hn. replace (zlen data <? n) with false by lia.
    exists s. rewrite app_nil_r. replace (zlen data) with n by lia. done.
  - cbn [readFull_loop]. destruct (Z.ltb_spec (zlen data) n) as [Hlt|Hge].
    + pose proof Hs as [Hr Hc Hi Ho Hm]. rewrite wrapw_small by (change (2 ^ 32) with 4294967296; lia).
      destruct (partialRead_law (Z.min (mChunkSize s) (n - zlen data)) (st_io s) Hr) as (k' & d & -> & Hr' & Hi' & Hd & He & Ho' & Hm'); [lia|].
      cbn [mbind outcome_bind]. assert (d <> []) as Hne.
      { intros ->. specialize (He eq_refl). rewrite Hi in He. apply app_nil in He as [-> _]. change (zlen (@nil Z)) with 0 in Hn. lia. }
      rewrite Hi in Hi'. assert (exists a', a = d ++ a') as [a' ->].
      { exists (zdrop (zlen d) a). pose proof (f_equal (ztake (zlen d)) Hi') as E. rewrite ztake_app_le, ztake_exact in E by lia.
        rewrite <- E at 1. by rewrite ztake_zdrop. }
      rewrite <- app_assoc in Hi'. apply app_inv_head in Hi'. destruct d as [|x d]; [done|]. rewrite zlen_app in *.
      replace (zlen data + zlen (x :: d) >? n) with false by (pose proof (zlen_nonneg a'); lia).
      destruct (IH (data ++ x :: d) a' (st_set_io k' s)) as (s' & -> & Hs' & Hch); [by split; cbn; first [done|congruence|lia]|rewrite zlen_app; lia|rewrite length_app in Hf; cbn in Hf; lia|].
      exists s'. rewrite <- app_assoc. done.
    + assert (zlen a = 0) as Ha by (pose proof (zlen_nonneg a); lia). apply zlen_zero_nil in Ha as ->. change (zlen (@nil Z)) with 0 in Hn. exists s. rewrite app_nil_r. by replace (zlen data) with n by lia.
Qed.

Lemma readFull_all a b s out rm :
  at_ s (a ++ b) out rm -> exists s', readFull (zlen a) s = Ret (s', true, zlen a, a) /\ at_ s' b out rm /\ mChunkSize s' = mChunkSize s.
Proof.
  intros Hs. unfold readFull. destruct (Z.eqb_spec (zlen a) 0) as [E|E]; [apply zlen_zero_nil in E as ->; by exists s|].
  destruct (readFull_step (Z.to_nat (zlen a)) (zlen a) [] a b s out rm) as (s' & -> & ?); [done|done|unfold zlen; lia|]. by exists s'.
Qed.

(** What comes in is too short. *)
Lemma readFull_short_step fuel n data a s out rm :
  at_ s a out rm -> zlen data + zlen a < n -> (length a < fuel)%nat ->
  exists s', readFull_loop fuel n data s = Ret (s', false, zlen (data ++ a), data ++ a) /\ at_ s' [] out rm.
Proof.
  revert data a s. induction fuel as [|fuel IH]; intros data a s Hs Hn Hf; [lia|]. cbn [readFull_loop]. pose proof (zlen_nonneg a).
  replace (zlen data <? n) with true by lia. pose proof Hs as [Hr Hc Hi Ho Hm]. rewrite wrapw_small by (change (2 ^ 32) with 4294967296; lia).
  destruct (partialRead_law (Z.min (mChunkSize s) (n - zlen data)) (st_io s) Hr) as (k' & d & -> & Hr' & Hi' & Hd & He & Ho' & Hm'); [lia|].
  cbn [mbind outcome_bind]. rewrite Hi in *. destruct d as [|x d].
  - rewrite (He eq_refl) in *. exists (st_set_io k' s). rewrite app_nil_r. split; [done|]. split; cbn; first [done|congruence|lia].
  - rewrite Hi' in *. pose proof (zlen_app (x :: d) (incoming k')) as Hz. pose proof (zlen_nonneg (incoming k')).
    replace (zlen (data ++ x :: d) >? n) with false by (rewrite zlen_app; lia).
    destruct (IH (data ++ x :: d) (incoming k') (st_set_io k' s)) as (s' & -> & Hs'); [by split; cbn; first [done|congruence|lia]|rewrite zlen_app; lia| |].
    { rewrite length_app in Hf. cbn in Hf. lia. }
    exists s'. by rewrite <- !app_assoc.
Qed.

Lemma readFull_short n a s out rm :
  at_ s a out rm -> zlen a < n -> exists s', readFull n s = Ret (s', false, zlen a, a) /\ at_ s' [] out rm.
Proof.
  intros Hs Hn. unfold readFull. pose proof (zlen_nonneg a). replace (n =? 0) with false by lia.
  apply (readFull_short_step _ n [] a s out rm Hs); [done|]. unfold zlen in *. lia.
Qed.

Lemma writeFull_step fuel data s inc out rm :
  at_ s inc out rm -> zlen data <= rm -> (length data <= fuel)%nat ->
  exists s', writeFull_loop fuel data s = Ret (s', true) /\ at_ s' inc (out ++ data) (rm - zlen data) /\ mChunkSize s' = mChunkSize s.
Proof.
  revert data s out rm. induction fuel as [|fuel IH]; intros data s out rm Hs Hn Hf; (destruct data as [|x data]; [exists s; cbn [writeFull_loop]; rewrite app_nil_r, Z.sub_0_r; done|]); [cbn in Hf; lia|].
  cbn [writeFull_loop]. pose proof Hs as [Hr Hc Hi Ho Hm]. set (d := x :: data) in *. assert (Hd : 0 < zlen d) by (unfold d; rewrite zlen_cons; pose proof (zlen_nonneg data); lia).
  rewrite wrapw_small by (change (2 ^ 32) with 4294967296; lia). set (n := Z.min (zlen d) (mChunkSize s)).
  assert (Hz : zlen (ztake n d) = n) by (rewrite zlen_ztake; lia).
  destruct (partialWrite_law (ztake n d) (st_io s) Hr) as (k' & r & -> & Hr0 & Hr' & Hi' & Ho' & Hm'); [intros E; rewrite E in Hz; change (zlen (@nil Z)) with 0 in Hz; lia|lia|].
  cbn [mbind outcome_bind]. replace (r <=? 0) with false by lia. replace (r >? zlen d) with false by lia.
  assert (Ht : ztake r (ztake n d) = ztake r d) by (rewrite ztake_ztake; f_equal; lia). rewrite Ht in Ho'.
  destruct (IH (zdrop r d) (st_set_io k' s) (out ++ ztake r d) (rm - r)) as (s' & -> & Hs' & Hch).
  - split; cbn; try done; [congruence|congruence|lia].
  - rewrite zlen_zdrop. lia.
  - unfold zdrop. rewrite length_drop. unfold d in *. cbn [length] in *. lia.
  - exists s'. split; [done|]. split; [|done]. rewrite <- app_assoc, ztake_zdrop in Hs'. rewrite zlen_zdrop in Hs'.
    eapply at_weaken; [|done]. lia.
Qed.

Lemma writeFull_all data s inc out rm :
  at_ s inc out rm -> zlen data <= rm -> zlen data <= SSIZE_MAX ->
  exists s', writeFull data s = Ret (s', true) /\ at_ s' inc (out ++ data) (rm - zlen data) /\ mChunkSize s' = mChunkSize s.
Proof. intros Hs Hn Hm. unfold writeFull. replace (zlen data >? SSIZE_MAX) with false by lia. by apply writeFull_step. Qed.

(** *** Integers *)
Lemma width_cases k s c :
  width k -> write_sized k c s = write_int k c s /\ read_sized k s = read_int k s.
Proof. by intros [->|[->|[->| ->]]]. Qed.

Lemma width_small k : width k -> 1 <= Z.of_nat k <= 8.
Proof. intros [->|[->|[->| ->]]]; lia. Qed.

Lemma read_int_all k v b s out rm :
  width k -> 0 <= v < 2 ^ (8 * Z.of_nat k) -> at_ s (be_bytes k v ++ b) out rm ->
  exists s', readU k s = Ret (s', v, true) /\ at_ s' b out rm.
Proof.
  intros Hk Hv Hs. destruct (readFull_all _ _ _ _ _ Hs) as (s' & Er & Hs' & _). rewrite be_bytes_zlen in Er.
  exists s'. split; [|done]. unfold readU. rewrite (proj2 (width_cases k s 0 Hk)). unfold read_int. rewrite Er. cbn [mbind outcome_bind].
  assert (length (be_bytes k v) = k) as -> by (pose proof (be_bytes_zlen k v) as Hz; unfold zlen in Hz; lia).
  rewrite Nat.sub_diag, app_nil_r, be_value_bytes, Z.eqb_refl by done. done.
Qed.

Lemma read_int_short k a s out rm :
  width k -> zlen a < Z.of_nat k -> at_ s a out rm ->
  exists s' v, readU k s = Ret (readDeSync s', v, false).
Proof.
  intros Hk Ha Hs. destruct (readFull_short (Z.of_nat k) _ _ _ _ Hs Ha) as (s' & Er & _).
  unfold readU. rewrite (proj2 (width_cases k s 0 Hk)). unfold read_int. rewrite Er. by eexists _, _.
Qed.

Lemma write_int_all k v s inc out rm :
  width k -> Z.of_nat k <= rm -> at_ s inc out rm ->
  exists s', write_sized k v s = Ret (s', true) /\ at_ s' inc (out ++ be_bytes k v) (rm - Z.of_nat k).
Proof.
  intros Hk Hr Hs. rewrite (proj1 (width_cases k s v Hk)). unfold write_int. pose proof (width_small k Hk). unfold SSIZE_MAX.
  destruct (writeFull_all (be_bytes k v) s inc out rm Hs) as (s' & -> & Hs' & _); rewrite ?be_bytes_zlen in *; [lia|unfold SSIZE_MAX; lia|]. by exists s'.
Qed.

Lemma writeU_all k v s inc out rm :
  width k -> Z.of_nat k <= rm -> at_ s inc out rm ->
  exists s', writeU k v s = Ret (s', true) /\ at_ s' inc (out ++ be_bytes k v) (rm - Z.of_nat k).
Proof. intros Hk Hr Hs. destruct (write_int_all k v s inc out rm Hk Hr Hs) as (s' & E & ?). unfold writeU. rewrite E. by exists s'. Qed.

(** *** Texts with their length *)
Definition frame (k : nat) (str : bytes) : bytes := be_bytes k (zlen str) ++ str.
Definition fits (k : nat) (str : bytes) : Prop := zlen str <= type_max k - 1 /\ zlen str <= SSIZE_MAX.

Lemma fits_range k str : width k -> fits k str -> 0 <= zlen str < 2 ^ (8 * Z.of_nat k).
Proof. intros _ [Hf _]. unfold type_max in Hf. pose proof (zlen_nonneg str). lia. Qed.

Lemma frame_zlen k str : zlen (frame k str) = Z.of_nat k + zlen str.
Proof. unfold frame. by rewrite zlen_app, be_bytes_zlen. Qed.

Lemma writeString_all k str s inc out rm :
  width k -> fits k str -> zlen (frame k str) <= rm -> at_ s inc out rm ->
  exists s', writeStringEx k str s = Ret (s', true) /\ at_ s' inc (out ++ frame k str) (rm - zlen (frame k str)).
Proof.
  intros Hk Hf Hr Hs. pose proof (fits_range k str Hk Hf) as Hz. destruct Hf as [Hf1 Hf2]. rewrite frame_zlen in *.
  unfold writeStringEx, writeStringEx_max, writeBlockEx. replace (zlen str >? type_max k - 1) with false by lia. rewrite wrapw_small by done.
  destruct (write_int_all k (zlen str) s inc out rm Hk) as (s1 & -> & Hs1); [lia|done|]. cbn [mbind outcome_bind negb]. unfold frame.
  destruct (Z.eqb_spec (zlen str) 0) as [E|E].
  - exists s1. rewrite E. apply zlen_zero_nil in E as ->. rewrite app_nil_r. split; [done|]. eapply at_weaken; [|done]. lia.
  - rewrite ztake_ge by lia. destruct (writeFull_all str s1 inc _ _ Hs1) as (s2 & -> & Hs2 & _); [lia|done|]. exists s2. split; [done|].
    rewrite <- app_assoc in Hs2. eapply at_weaken; [|done]. lia.
Qed.

Lemma block_size_ok k n : width k -> 0 < n <= type_max k - 1 -> (block_size k n <? n) = false.
Proof.
  intros Hk Hn. unfold block_size, type_max in *. destruct (k <? 4)%nat; [lia|]. rewrite wrapw_small by lia. lia.
Qed.

Lemma readString_all k str b s out rm :
  width k -> fits k str -> at_ s (frame k str ++ b) out rm ->
  exists s', readStringEx k s = Ret (s', str, true) /\ at_ s' b out rm.
Proof.
  intros Hk Hf Hs. pose proof (fits_range k str Hk Hf) as Hz. destruct Hf as [Hf1 Hf2]. unfold frame in Hs. rewrite <- app_assoc in Hs.
  destruct (read_int_all k _ _ _ _ _ Hk Hz Hs) as (s1 & E1 & Hs1). unfold readStringEx, readStringEx_max, readBlockWAllocEx. rewrite E1. cbn [mbind outcome_bind negb default id].
  replace (zlen str >? type_max k - 1) with false by lia. destruct (Z.eqb_spec (zlen str) 0) as [E|E].
  - apply zlen_zero_nil in E as ->. exists s1. done.
  - rewrite block_size_ok by (done || lia). destruct (readFull_all _ _ _ _ _ Hs1) as (s2 & -> & Hs2 & _). cbn [mbind outcome_bind]. rewrite Z.eqb_refl. cbn [andb negb].
    cbn [mbind outcome_bind]. replace (zlen str =? 0) with false by lia. exists s2. by rewrite ztake_ge by lia.
Qed.

(** What is cut is not delivered, and the socket is shut. *)
Lemma readString_cut k str a b s out rm :
  width k -> fits k str -> frame k str = a ++ b -> b <> [] -> at_ s a out rm ->
  exists s', readStringEx k s = Ret (readDeSync s', [], false).
Proof.
  intros Hk Hf Ef Hb Hs. pose proof (fits_range k str Hk Hf) as Hz. assert (Hbz : 0 < zlen b) by (destruct b; [done|rewrite zlen_cons; pose proof (zlen_nonneg b); lia]).
  unfold readStringEx, readStringEx_max, readBlockWAllocEx. destruct (Z.lt_ge_cases (zlen a) (Z.of_nat k)) as [Ha|Ha].
  - destruct (read_int_short k a s out rm Hk Ha Hs) as (s' & v & ->). by exists s'.
  - assert (exists a', a = be_bytes k (zlen str) ++ a' /\ str = a' ++ b) as (a' & -> & Estr).
    { exists (zdrop (Z.of_nat k) a). pose proof (be_bytes_zlen k (zlen str)) as Hl. unfold frame in Ef.
      assert (ztake (Z.of_nat k) a = be_bytes k (zlen str)) as Et.
      { pose proof (f_equal (ztake (Z.of_nat k)) Ef) as E. rewrite <- Hl in E at 1. rewrite ztake_exact, ztake_app_le in E by done. done. }
      rewrite <- Et, ztake_zdrop. split; [done|]. apply (app_inv_head (be_bytes k (zlen str))). rewrite Ef, app_assoc. f_equal. rewrite <- Et. by rewrite ztake_zdrop. }
    destruct (read_int_all k _ _ _ _ _ Hk Hz Hs) as (s1 & -> & Hs1). cbn [mbind outcome_bind negb default id]. destruct Hf as [Hf1 _].
    assert (zlen str = zlen a' + zlen b) as Hsz by (rewrite Estr; apply zlen_app). pose proof (zlen_nonneg a').
    replace (zlen str >? type_max k - 1) with false by lia. replace (zlen str =? 0) with false by lia. rewrite block_size_ok by (done || lia).
    destruct (readFull_short (zlen str) a' s1 out rm Hs1) as (s2 & -> & _); [lia|]. by exists s2.
Qed.

(** *** Sequences of texts *)
Fixpoint send_all (k : nat) (l : list bytes) s : outcome (Stream K * bool) :=
  match l with
  | [] => Ret (s, true)
  | str :: l => '(s, ok) ← writeStringEx k str s; if ok : bool then send_all k l s else Ret (s, false)
  end.

Fixpoint receive_all (k : nat) (n : nat) s : outcome (Stream K * list bytes) :=
  match n with
  | Datatypes.O => Ret (s, [])
  | Datatypes.S n =>
      '(s, str, ok) ← readStringEx k s;
      if ok : bool then '(s, l) ← receive_all k n s; Ret (s, str :: l) else Ret (s, [])
  end.

Definition frames (k : nat) (l : list bytes) : bytes := concat (map (frame k) l).

Lemma send_all_spec k l s inc out rm :
  width k -> Forall (fits k) l -> zlen (frames k l) <= rm -> at_ s inc out rm ->
  exists s', send_all k l s = Ret (s', true) /\ at_ s' inc (out ++ frames k l) (rm - zlen (frames k l)).
Proof.
  intros Hk Hl. revert s out rm. induction Hl as [|str l Hs Hl IH]; intros s out rm Hr Ha; cbn [send_all frames map concat] in *.
  - exists s. rewrite app_nil_r. split; [done|]. eapply at_weaken; [|done]. change (zlen (@nil Z)) with 0. lia.
  - fold (frames k l) in *. rewrite zlen_app in *. pose proof (zlen_nonneg (frames k l)).
    destruct (writeString_all k str s inc out rm Hk Hs) as (s1 & -> & Hs1); [lia|done|].
    cbn [mbind outcome_bind]. destruct (IH s1 (out ++ frame k str) (rm - zlen (frame k str))) as (s2 & -> & Hs2); [lia|done|].
    exists s2. split; [done|]. rewrite <- app_assoc in Hs2.
    eapply at_weaken; [|done]. lia.
Qed.

Lemma receive_all_spec k l s b out rm :
  width k -> Forall (fits k) l -> at_ s (frames k l ++ b) out rm ->
  exists s', receive_all k (length l) s = Ret (s', l) /\ at_ s' b out rm.
Proof.
  intros Hk Hl. revert s. induction Hl as [|str l Hs Hl IH]; intros s Ha; cbn [receive_all length frames map concat] in *; [by exists s|].
  fold (frames k l) in *. rewrite <- app_assoc in Ha. destruct (readString_all k str _ s out rm Hk Hs Ha) as (s1 & -> & Hs1).
  cbn [mbind outcome_bind]. destruct (IH s1 Hs1) as (s2 & -> & Hs2). by exists s2.
Qed.

Lemma frames_cons k str l : frames k (str :: l) = frame k str ++ frames k l.
Proof. done. Qed.

Lemma receive_all_cut k l a b s out rm :
  width k -> Forall (fits k) l -> frames k l = a ++ b -> b <> [] -> at_ s a out rm ->
  exists s' n, receive_all k (length l) s = Ret (readDeSync s', take n l) /\ (n < length l)%nat /\
    zlen (frames k (take n l)) <= zlen a < zlen (frames k (take (Datatypes.S n) l)).
Proof.
  intros Hk Hl. revert s a. induction Hl as [|str l Hs Hl IH]; intros s a Ef Hb Ha.
  { symmetry in Ef. by apply app_nil in Ef as [_ ->]. }
  rewrite frames_cons in Ef. cbn [receive_all length]. pose proof (zlen_nonneg a). destruct (Z.lt_ge_cases (zlen a) (zlen (frame k str))) as [Hlt|Hge].
  - destruct (readString_cut k str a (zdrop (zlen a) (frame k str)) s out rm) as (s' & ->); [done|done| | |done|].
    { pose proof (f_equal (ztake (zlen a)) Ef) as E. rewrite ztake_exact, ztake_app_le in E by lia. rewrite <- E at 1. by rewrite ztake_zdrop. }
    { intros E. pose proof (zlen_zdrop (zlen a) (frame k str)) as Hz. rewrite E in Hz. change (zlen (@nil Z)) with 0 in Hz. lia. }
    exists s', 0%nat. split; [done|]. split; [lia|].
    rewrite firstn_cons, !take_0, frames_cons, zlen_app. change (zlen (frames k [])) with 0. lia.
  - assert (exists a', a = frame k str ++ a') as [a' ->].
    { exists (zdrop (zlen (frame k str)) a). pose proof (f_equal (ztake (zlen (frame k str))) Ef) as E. rewrite ztake_exact, ztake_app_le in E by lia.
      rewrite E at 1. by rewrite ztake_zdrop. }
    rewrite <- app_assoc in Ef. apply app_inv_head in Ef. destruct (readString_all k str a' s out rm Hk Hs Ha) as (s1 & -> & Hs1).
    cbn [mbind outcome_bind]. destruct (IH s1 a' Ef Hb Hs1) as (s2 & n & -> & Hn & Hz). exists s2, (Datatypes.S n).
    cbn [take]. cbn [take] in Hz. rewrite !frames_cons, !zlen_app. split; [done|]. split; [lia|]. split; [lia|].
    destruct l as [|str' l']; [cbn in Hn; lia|]. cbn [take] in *. lia.
Qed.
End Laws.

(** *** Lines *)
Section Lines.
Context {K : Type} `{StreamLaws K}.
Implicit Types r : BufferedReader K.

(** The line that is next in a text, with a buffer of the given size. *)
Definition next_line (size : Z) (d : byte) (text : bytes) : option bytes * ReadResult * bytes :=
  match find_char d (ztake size text) with
  | Some n => (Some (ztake n text), READ_OK, zdrop (n + 1) text)
  | None => (None, if size <=? zlen text then READ_FULL else READ_DISCONNECTED, text)
  end.

(** What is in the buffer and what will come in. *)
Definition pending_text r : bytes := br_buffer r ++ incoming (st_io (br_stream r)).
Definition reader_ok r : Prop := ready (st_io (br_stream r)) /\ zlen (br_buffer r) <= br_size r < 4294967296.

Lemma readUntil_spec fuel d r :
  reader_ok r -> br_size r - zlen (br_buffer r) < Z.of_nat fuel ->
  let '(line, result, rest) := next_line (br_size r) d (pending_text r) in
  exists r', readUntil_loop displaceAndCopy_string fuel d r = Ret (r', line, result) /\ reader_ok r' /\ br_size r' = br_size r /\ pending_text r' = rest.
Proof.
  revert r. induction fuel as [|fuel IH]; intros [buf size s] [Hr Hz] Hf; cbn [br_buffer br_size br_stream] in *; [lia|].
  cbn [readUntil_loop br_buffer]. destruct (find_char d buf) as [n|] eqn:En.
  - pose proof (find_char_bound _ _ _ En) as Hn. unfold next_line, pending_text. cbn [br_buffer br_stream br_size].
    rewrite (find_char_take d _ size n) by (by apply find_char_prefix || lia).
    exists (mkReader (zdrop (n + 1) buf) size s). cbn [displaceAndCopy_string br_buffer]. rewrite ztake_app_le, zdrop_app_le by lia. replace (n + 1 - 1) with n by lia.
    split; [done|]. unfold reader_ok. cbn. rewrite zlen_zdrop. pose proof (zlen_nonneg buf). split_and!; [done|lia|lia|done|done].
  - unfold refillBuffer, m_currentBufferSize. cbn [br_buffer br_size br_stream]. destruct (Z.geb_spec (zlen buf) size) as [Hfull|Hroom].
    + cbn [mbind outcome_bind]. unfold next_line, pending_text. cbn [br_buffer br_stream br_size]. replace size with (zlen buf) by lia.
      rewrite ztake_exact, En. replace (zlen buf <=? _) with true by (rewrite zlen_app; pose proof (zlen_nonneg (incoming (st_io s))); lia).
      exists (mkReader buf (zlen buf) s). split; [done|]. split_and!; try done. split; [done|]. cbn. lia.
    + destruct (partialRead_law (size - zlen buf) (st_io s) Hr) as (k' & x & -> & Hr' & Hi & Hx & He & _); [pose proof (zlen_nonneg buf); lia|].
      cbn [mbind outcome_bind]. destruct x as [|c x].
      * specialize (He eq_refl). rewrite He in Hi. unfold next_line, pending_text. cbn [br_buffer br_stream br_size]. rewrite He, app_nil_r, ztake_ge, En by lia.
        replace (size <=? zlen buf) with false by lia. cbn in Hi.
        exists (mkReader buf size (st_set_io k' s)). cbn [br_buffer br_size br_stream st_set_io st_io]. rewrite <- Hi, app_nil_r. done.
      * replace (zlen (c :: x) >? size - zlen buf) with false by lia.
        specialize (IH (mkReader (buf ++ c :: x) size (st_set_io k' s))). unfold pending_text in IH |- *. cbn [br_buffer br_size br_stream st_set_io st_io] in IH |- *.
        rewrite Hi, app_assoc. apply IH; [|rewrite zlen_app, zlen_cons in *; pose proof (zlen_nonneg x); lia].
        split; cbn; [done|]. rewrite zlen_app. lia.
Qed.

(** C16.  The reader of lines does not depend on the fragments the socket delivers:
    of the text that is in its buffer and will come in it gives the next line when
    the delimiter is within the size of the buffer; else it says that the buffer
    is full or that the connection ended, and loses nothing. *)
Theorem buffered_line d r :
  reader_ok r ->
  let '(line, result, rest) := next_line (br_size r) d (pending_text r) in
  exists r', bufferedReadUntil_string d r = Ret (r', line, result) /\ reader_ok r' /\ br_size r' = br_size r /\ pending_text r' = rest.
Proof. intros Hr. apply readUntil_spec; [done|]. destruct Hr as [_ Hr]. unfold reader_fuel, m_currentBufferSize. lia. Qed.
End Lines.

(** C14.  Texts that are written one after the other with a length of 1, 2, 4 or 8
    bytes are read as they were written, in their order, whatever fragments the two
    sockets take and give and whatever sizes of fragments the two sides ask for.
    When the connection is cut somewhere in between, the texts that had arrived
    whole are read and nothing of the one that was cut: reading it fails and shuts
    the socket. *)
Theorem texts_arrive {K1 K2} `{StreamLaws K1} `{StreamLaws K2} k (l : list bytes) (s1 : Stream K1) inc1 out1 out2 rm1 rm2 :
  width k -> Forall (fits k) l -> at_ s1 inc1 out1 rm1 -> zlen (frames k l) <= rm1 ->
  exists s1' sent, send_all k l s1 = Ret (s1', true) /\ outgoing (st_io s1') = out1 ++ sent /\ incoming (st_io s1') = inc1 /\
    (forall (s2 : Stream K2) rest, at_ s2 (sent ++ rest) out2 rm2 ->
       exists s2', receive_all k (length l) s2 = Ret (s2', l) /\ at_ s2' rest out2 rm2) /\
    (forall (s2 : Stream K2) a b, sent = a ++ b -> b <> [] -> at_ s2 a out2 rm2 ->
       exists s2' n, receive_all k (length l) s2 = Ret (readDeSync s2', take n l) /\ (n < length l)%nat /\
         zlen (frames k (take n l)) <= zlen a < zlen (frames k (take (Datatypes.S n) l))).
Proof.
  intros Hk Hl Hs1 Hr. destruct (send_all_spec k l s1 inc1 out1 rm1 Hk Hl Hr Hs1) as (s1' & E & Hs1'). exists s1', (frames k l). destruct Hs1' as [_ _ Hi Ho _].
  split_and!; [done..| |]; intros s2.
  - intros rest Hs2. by apply receive_all_spec.
  - intros a b Ef Hb Hs2. by apply (receive_all_cut k l a b s2 out2 rm2).
Qed.
