(* ===== verification/SockWires.v ===== *)
(** * Sockets that keep the promise

    [Wire] is a socket that reads and writes in fragments of given sizes.
    [Socket_Stream_Dummy] keeps the promise as long as what it sends lies in one
    chunk; with more chunks a partial read leaves offsets behind that the next one
    does not find.  The theorems on sockets at concrete inputs. *)

From S2P Require Import Prelude SafeInt Mem Streamable Container ContainerTheory BMem BChunks ChunkBuffer CLib Encoders WebSocket SockStream SockTheory.
From Stdlib Require Import ZArith Lia.
#[local] Open Scope Z_scope.

(** ** A socket with fragments *)
Record Wire := mkWire { w_in : bytes; w_out : bytes; w_fragments : list Z }.

(** The size of the next fragment, at least one byte and at most what is wanted. *)
Definition fragment (n : Z) (w : Wire) : Z := match w_fragments w with [] => n | p :: _ => Z.max 1 (Z.min p n) end.

Definition wire_read (n : Z) (w : Wire) : outcome (Wire * option bytes) :=
  let f := fragment n w in Ret (mkWire (zdrop f (w_in w)) (w_out w) (tail (w_fragments w)), Some (ztake f (w_in w))).
Definition wire_write (data : bytes) (w : Wire) : outcome (Wire * Z) :=
  let f := fragment (zlen data) w in Ret (mkWire (w_in w) (w_out w ++ ztake f data) (tail (w_fragments w)), f).

#[export] Instance wire_io : StreamIO Wire := {| partialRead := wire_read; partialWrite := wire_write; shutdownSocket _ w := mkWire [] (w_out w) [] |}.

Lemma fragment_bounds n w : 0 < n -> 0 < fragment n w <= n.
Proof. unfold fragment. destruct (w_fragments w); lia. Qed.

#[export] Program Instance wire_laws : StreamLaws Wire := {| ready _ := True; incoming := w_in; outgoing := w_out; room _ := SIZE_MAX |}.
Next Obligation.
  intros n w _ Hn. pose proof (fragment_bounds n w) as Hf. cbn [partialRead wire_io]. unfold wire_read. eexists _, _. split; [done|]. cbn.
  rewrite ztake_zdrop. split_and!; try done; [rewrite zlen_ztake; lia|].
  intros E. destruct (w_in w) as [|x l]; [done|]. rewrite ztake_cons in E by lia. done.
Qed.
Next Obligation.
  intros data w _ Hne _. assert (0 < zlen data) by (destruct data; [done|rewrite zlen_cons; pose proof (zlen_nonneg data); lia]).
  pose proof (fragment_bounds (zlen data) w). eexists _, _. split; [done|]. split_and!; cbn; [lia|lia|done..|unfold SIZE_MAX, SIZE_MOD; lia].
Qed.

Definition wire (inc : bytes) (fragments : list Z) : Stream Wire := Stream_new (mkWire inc [] fragments).

Lemma wire_at inc fragments : at_ (wire inc fragments) inc [] SIZE_MAX.
Proof. by split. Qed.

(** ** The socket in memory *)
Section Dummy.
Context {M : Type} `{Container M} `{!MMapFile M}.
Implicit Types (c : B_Chunks M) (d : Dummy (M := M)).

Definition one_chunk c : Prop := bc_offsets_ok c /\ (length (m_chunksVector c) <= 1)%nat.

Lemma displace_one_chunk c n :
  one_chunk c -> 0 <= n <= zlen (bc_contents c) ->
  exists c', displace n c = Ret (c', Some n) /\ one_chunk c' /\ bc_contents c' = zdrop n (bc_contents c).
Proof.
  intros [[Hok Hoff] Hl] Hn. unfold displace. cbn [csize displace2 bc_container]. rewrite (bc_size_ok c Hok), Z.min_l by lia.
  destruct Hok as (Hm & Hs & Hb). unfold bc_displace2. rewrite Hm. unfold blockSize, KB_MULT in *.
  destruct (bc_displace_loop_spec (m_chunksVector c) n 0 c) as (c' & -> & Hc & Hm' & Hs' & Hl' & Hcont); try done; unfold bc_contents in *; try lia.
  exists c'. rewrite Z.min_l by lia. split; [done|]. split; [|done]. split; [|lia]. split; [|split; [apply Hcont; lia|unfold zlen, SIZE_MAX, SIZE_MOD; lia]].
  split_and!; [done|done|]. unfold bc_contents, blockSize, KB_MULT. rewrite Hc, zlen_zdrop. lia.
Qed.

Lemma clear_one_chunk c : one_chunk c -> one_chunk (clear c).1 /\ bc_contents (clear c).1 = [].
Proof. intros _. split; [|done]. split; [|cbn; lia]. by split; [split|]. Qed.

Definition dummy_ready d : Prop := one_chunk (sender d) /\ buffer_ready (receiver d).
Definition dummy_room d : Z :=
  let c := receiver d in
  Z.min (SIZE_MOD - blockSize - 1) (Z.min (m_maxSize (bc_base c)) (m_maxChunks c)) - zlen (bc_contents c).

Lemma dummy_read_law n d :
  dummy_ready d -> 0 < n < 4294967296 ->
  exists d' data, dummy_partialRead n d = Ret (d', Some data) /\ dummy_ready d' /\ bc_contents (sender d) = data ++ bc_contents (sender d') /\
    zlen data <= n /\ (data = [] -> bc_contents (sender d) = []) /\ receiver d' = receiver d.
Proof.
  intros [Hs Hr] Hn. pose proof Hs as [Hoff _]. unfold dummy_partialRead. cbn [csize bc_container]. rewrite (bc_size_ok _ (proj1 Hoff)).
  pose proof (zlen_nonneg (bc_contents (sender d))). destruct (Z.eqb_spec (zlen (bc_contents (sender d))) 0) as [E|E].
  - apply zlen_zero_nil in E. exists d, []. rewrite E. split_and!; try done. change (zlen (@nil Z)) with 0. lia.
  - pose proof (proj2 (proj2 (proj1 Hoff))) as Hb. unfold blockSize, KB_MULT in Hb.
    pose proof (copyOut_spec (sender d) (Z.min n (zlen (bc_contents (sender d)))) 0 Hoff) as Hc. change (contents (sender d)) with (bc_contents (sender d)) in Hc.
    rewrite Hc by (unfold SIZE_MAX; lia). cbn [mbind outcome_bind]. unfold slice. rewrite zdrop_le0 by lia.
    destruct (Z.leb_spec n (zlen (bc_contents (sender d)))) as [Hle|Hgt].
    + destruct (displace_one_chunk (sender d) n Hs) as (c' & -> & Hs' & Hc'); [lia|]. cbn [mbind outcome_bind]. rewrite Z.min_l by lia.
      eexists _, _. split; [done|]. cbn [sender receiver dummy_set_sender]. rewrite Hc', ztake_zdrop, zlen_ztake.
      split_and!; try done; [lia|]. intros E'. exfalso. pose proof (zlen_ztake n (bc_contents (sender d))) as Hz. rewrite E' in Hz. change (zlen (@nil Z)) with 0 in Hz. lia.
    + destruct (clear_one_chunk (sender d) Hs) as [Hs' Hc']. rewrite Z.min_r, ztake_ge by lia.
      eexists _, _. split; [done|]. cbn [sender receiver dummy_set_sender]. rewrite Hc', app_nil_r. split_and!; try done. lia.
Qed.

Lemma dummy_write_law data d :
  dummy_ready d -> data <> [] -> zlen data <= dummy_room d ->
  exists d', dummy_partialWrite data d = Ret (d', zlen data) /\ dummy_ready d' /\ sender d' = sender d /\
    bc_contents (receiver d') = bc_contents (receiver d) ++ data /\ dummy_room d' = dummy_room d - zlen data.
Proof.
  intros [Hs Hr] Hne Hroom. unfold dummy_room in *. unfold dummy_partialWrite.
  destruct (append_ready (receiver d) data Hr Hne) as (c' & -> & Hr' & Hc' & E1 & _ & _ & _ & _ & E6 & _); [lia..|]. cbn [mbind outcome_bind default id].
  eexists. split; [done|]. cbn [receiver sender]. rewrite Hc', E1, E6, zlen_app. split_and!; done || lia.
Qed.

(** The socket in memory keeps the promise of a socket. *)
#[export] Program Instance dummy_laws : StreamLaws (Dummy (M := M)) := {|
  ready := dummy_ready; incoming d := bc_contents (sender d); outgoing d := bc_contents (receiver d); room := dummy_room |}.
Next Obligation.
  intros n d Hd Hn. destruct (dummy_read_law n d Hd Hn) as (d' & data & E & Hd' & Hi & Hz & He & Hr). exists d', data. unfold dummy_room. rewrite Hr. by split_and!.
Qed.
Next Obligation.
  intros data d Hd Hne Hroom. destruct (dummy_write_law data d Hd Hne Hroom) as (d' & E & Hd' & Hs & Ho & Hr). exists d', (zlen data).
  assert (0 < zlen data) by (destruct data; [done|rewrite zlen_cons; pose proof (zlen_nonneg data); lia]).
  rewrite Hs, Ho, ztake_ge by lia. split_and!; done || lia.
Qed.
End Dummy.

(** The two messages of a peer, one chunk each. *)
Definition two_chunks : outcome (Dummy (M := B_MEM)) :=
  '(c, _) ← Container.append (H := bc_container (MMapFile0 := no_files)) (bs "abc") bc_new;
  '(c, _) ← Container.append (H := bc_container (MMapFile0 := no_files)) (bs "def") c;
  Ret (dummy_set_sender c (Dummy_new (M := B_MEM))).

(** With two chunks the first partial read is right; after it nothing is copied into
    the buffer of the next one, which says that it read its two bytes. *)
Theorem dummy_two_chunks :
  exists d d', two_chunks = Ret d /\ bc_contents (sender d) = bs "abcdef" /\
    dummy_partialRead (MMapFile0 := no_files) 2 d = Ret (d', Some (bs "ab")) /\ bc_contents (sender d') = bs "cdef" /\
    copyOut (H := bc_container (MMapFile0 := no_files)) 2 0 (sender d') = Ret None /\ dummy_partialRead (MMapFile0 := no_files) 2 d' = Undef.
Proof. eexists _, _. split_and!; [vm_compute; reflexivity..]. Qed.

(** ** At concrete inputs *)
Definition words : list bytes := [bs "to"; []; bs "be"].

Lemma texts_arrive_witness :
  Forall (fits 2) words /\
  exists s1' sent, send_all 2 words (wire [] [1; 1; 2]) = Ret (s1', true) /\ outgoing (st_io s1') = [] ++ sent /\ incoming (st_io s1') = [] /\
    (forall (s2 : Stream Wire) rest, at_ s2 (sent ++ rest) [] SIZE_MAX ->
       exists s2', receive_all 2 (length words) s2 = Ret (s2', words) /\ at_ s2' rest [] SIZE_MAX) /\
    (forall (s2 : Stream Wire) a b, sent = a ++ b -> b <> [] -> at_ s2 a [] SIZE_MAX ->
       exists s2' n, receive_all 2 (length words) s2 = Ret (readDeSync s2', take n words) /\ (n < length words)%nat /\
         zlen (frames 2 (take n words)) <= zlen a < zlen (frames 2 (take (Datatypes.S n) words))).
Proof.
  assert (Forall (fits 2) words) as Hw by (repeat constructor; vm_compute; discriminate). split; [exact Hw|].
  refine (texts_arrive (K1 := Wire) (K2 := Wire) 2 words (wire [] [1; 1; 2]) [] [] [] SIZE_MAX SIZE_MAX _ Hw (wire_at _ _) _);
    [by right; left|vm_compute; discriminate].
Defined.

Example words_received : receive_all 2 3 (wire ([0; 2] ++ bs "to" ++ [0; 0; 0; 2] ++ bs "be") [1; 2]) = Ret (Stream_new (mkWire [] [] []), words).
Proof. vm_compute. reflexivity. Qed.

Definition two_lines : BufferedReader Wire := BufferedReader_new (wire (bs "one" ++ [10] ++ bs "two") [2; 1]) 5.

Lemma buffered_line_witness :
  exists r', readLineLF two_lines = Ret (r', Some (bs "one"), READ_OK) /\ reader_ok r' /\ br_size r' = 5 /\ pending_text r' = bs "two".
Proof. refine (buffered_line 10 two_lines _). split; [exact I|]. vm_compute. split; [discriminate|reflexivity]. Defined.
