(* ===== verification/SockAuth.v ===== *)
(** * The mutual challenge over a socket

    What the two sides of [CryptoChallenge::mutualChallengeResponseSHA256Auth] find
    out about each other, over any socket that keeps its promise ([StreamLaws]):
    [challenge_mutual] for two sides that follow the protocol, and
    [challenge_reflected] for a client that gets back what it sends. *)

From S2P Require Import Prelude SafeInt Streamable Container BMem BChunks CLib Encoders WebSocket SockStream SockTheory SockWires.
From Stdlib Require Import ZArith Lia.
#[local] Open Scope Z_scope.

Section Auth.
Context {K : Type} `{StreamLaws K} `{SHA256}.
Hypothesis digest_size : forall x, zlen (sha256_digest x) = 32.
Implicit Types s : Stream K.

(** The proof that a side knows the key: the random text of the other side first. *)
Definition proof_of (key theirs mine : bytes) : bytes := calcSHA256 (key ++ theirs ++ mine).

(** A side accepts the other one. *)
Definition accepts (key mine theirs given : bytes) : bool := bool_decide (given = proof_of key mine theirs).

(** The key a side proves: the server proves none to a client that it does not accept. *)
Definition shown_key (key : bytes) (server accepted : bool) : bytes := if server && negb accepted then [] else key.

(** All that a side sends. *)
Definition challenge_sent (key : bytes) (server : bool) (mine theirs given : bytes) : bytes :=
  let ok := accepts key mine theirs given in
  frame 1 mine ++ frame 1 (proof_of (shown_key key server ok) theirs mine) ++ [if ok then 1 else 0].

Lemma proof_size key theirs mine : zlen (proof_of key theirs mine) = 64.
Proof using digest_size. unfold proof_of, calcSHA256. by rewrite toHex_length, digest_size. Qed.

Lemma fits_64 str : zlen str = 64 -> fits 1 str.
Proof. intros E. unfold fits. rewrite E. vm_compute. split; discriminate. Qed.

Lemma readU1 b rest s out rm :
  0 <= b < 256 -> at_ s ([b] ++ rest) out rm -> exists s', readU 1 s = Ret (s', b, true) /\ at_ s' rest out rm.
Proof.
  intros Hb Hs. apply (read_int_all 1 b rest s out rm); [by left|done|]. cbn [be_bytes]. rewrite Z.mod_small by done. done.
Qed.

Lemma writeU1 (ok : bool) s inc out rm :
  at_ s inc out rm -> 1 <= rm ->
  exists s', writeU 1 (if ok then 1 else 0) s = Ret (s', true) /\ at_ s' inc (out ++ [if ok then 1 else 0]) (rm - 1).
Proof. intros Hs Hr. destruct (writeU_all 1 (if ok then 1 else 0) s inc out rm) as (s' & E & Hs'); [by left|done|done|]. exists s'. by destruct ok. Qed.

Lemma write_64 str s inc out rm :
  zlen str = 64 -> at_ s inc out rm -> 65 <= rm ->
  exists s', writeStringEx 1 str s = Ret (s', true) /\ at_ s' inc (out ++ frame 1 str) (rm - 65).
Proof.
  intros Hz Hs Hr. assert (E : zlen (frame 1 str) = 65) by by rewrite frame_zlen, Hz.
  rewrite <- E. apply writeString_all; [by left|by apply fits_64|lia|done].
Qed.

Lemma read_text str rest s out rm :
  fits 1 str -> at_ s (frame 1 str ++ rest) out rm ->
  exists s', readStringEx 1 s = Ret (s', str, true) /\ at_ s' rest out rm.
Proof. apply readString_all. by left. Qed.

(** The run of one side, against whatever the other side sends in this form. *)
Lemma challenge_run key server mine theirs given b s out rm :
  zlen mine = 64 -> zlen theirs = 64 -> fits 1 given -> 0 <= b < 256 -> 131 <= rm ->
  at_ s (frame 1 theirs ++ frame 1 given ++ [b]) out rm ->
  exists s', mutualChallengeResponseSHA256Auth key server mine s = Ret (s', (accepts key mine theirs given, b =? 1)) /\
    at_ s' [] (out ++ challenge_sent key server mine theirs given) (rm - 131).
Proof using digest_size.
  intros Hm Ht Hg Hb Hr Hs. unfold mutualChallengeResponseSHA256Auth, challenge_sent. set (ok := accepts key mine theirs given).
  destruct (write_64 mine s _ _ _ Hm Hs) as (s1 & -> & Hs1); [lia|]. cbn [mbind outcome_bind negb].
  destruct (read_text theirs _ s1 _ _ (fits_64 _ Ht) Hs1) as (s2 & -> & Hs2). cbn [mbind outcome_bind negb]. rewrite Ht, Z.eqb_refl. cbn [negb].
  destruct server; cbn [negb mbind outcome_bind].
  - destruct (read_text given _ s2 _ _ Hg Hs2) as (s3 & -> & Hs3). cbn [mbind outcome_bind negb].
    change (bool_decide (given = _)) with ok. change (calcSHA256 _) with (proof_of (if ok then key else []) theirs mine).
    destruct (write_64 _ s3 _ _ _ (proof_size (if ok then key else []) theirs mine) Hs3) as (s4 & -> & Hs4); [lia|]. cbn [mbind outcome_bind negb].
    destruct (writeU1 ok s4 _ _ _ Hs4) as (s5 & -> & Hs5); [lia|]. cbn [mbind outcome_bind].
    destruct (readU1 b [] s5 _ _ Hb Hs5) as (s6 & -> & Hs6). exists s6. split; [done|]. rewrite <- !app_assoc in Hs6.
    replace (shown_key key true ok) with (if ok then key else []) by by destruct ok. eapply at_weaken; [|exact Hs6]. lia.
  - change (calcSHA256 (key ++ theirs ++ mine)) with (proof_of key theirs mine).
    destruct (write_64 _ s2 _ _ _ (proof_size key theirs mine) Hs2) as (s3 & -> & Hs3); [lia|]. cbn [mbind outcome_bind negb].
    destruct (read_text given _ s3 _ _ Hg Hs3) as (s4 & -> & Hs4). cbn [mbind outcome_bind negb].
    change (bool_decide (given = _)) with ok.
    destruct (writeU1 ok s4 _ _ _ Hs4) as (s5 & -> & Hs5); [lia|]. cbn [mbind outcome_bind].
    destruct (readU1 b [] s5 _ _ Hb Hs5) as (s6 & -> & Hs6). exists s6. split; [done|]. rewrite <- !app_assoc in Hs6.
    eapply at_weaken; [|exact Hs6]. lia.
Qed.

Lemma fits_proof key theirs mine : fits 1 (proof_of key theirs mine).
Proof using digest_size. apply fits_64, proof_size. Qed.

(** What a client with the key [kc] and a server with the key [ks] send each other. *)
Definition to_client (kc ks rc rs : bytes) : bytes := challenge_sent ks true rs rc (proof_of kc rs rc).
Definition server_accepts (kc ks rc rs : bytes) : bool := accepts ks rs rc (proof_of kc rs rc).
Definition server_proof (kc ks rc rs : bytes) : bytes := proof_of (shown_key ks true (server_accepts kc ks rc rs)) rc rs.
Definition to_server (kc ks rc rs : bytes) : bytes := challenge_sent kc false rc rs (server_proof kc ks rc rs).
Definition client_accepts (kc ks rc rs : bytes) : bool := accepts kc rc rs (server_proof kc ks rc rs).

Lemma accepts_proof key key' mine theirs : accepts key mine theirs (proof_of key' mine theirs) = bool_decide (proof_of key' mine theirs = proof_of key mine theirs).
Proof. done. Qed.

(** C15.  Two sides of the challenge that are connected with each other, over any
    sockets and in any fragments, come to the same two answers, and what each of
    them sends is what the other one gets.  With one key both are sure of each
    other.  A client whose proof is not that of the key of the server is refused;
    the server then sends nothing that depends on its key, so that it is refused
    too unless the empty key has the same proof as the key of the client. *)
Theorem challenge_mutual kc ks rc rs (c s : Stream K) outc outs rmc rms :
  zlen rc = 64 -> zlen rs = 64 -> 131 <= rmc -> 131 <= rms ->
  at_ c (to_client kc ks rc rs) outc rmc -> at_ s (to_server kc ks rc rs) outs rms ->
  exists c' s',
    mutualChallengeResponseSHA256Auth kc false rc c = Ret (c', (client_accepts kc ks rc rs, server_accepts kc ks rc rs)) /\
    mutualChallengeResponseSHA256Auth ks true rs s = Ret (s', (server_accepts kc ks rc rs, client_accepts kc ks rc rs)) /\
    outgoing (st_io c') = outc ++ to_server kc ks rc rs /\ outgoing (st_io s') = outs ++ to_client kc ks rc rs /\
    (kc = ks -> server_accepts kc ks rc rs = true /\ client_accepts kc ks rc rs = true) /\
    (proof_of kc rs rc <> proof_of ks rs rc ->
       server_accepts kc ks rc rs = false /\
       to_client kc ks rc rs = frame 1 rs ++ frame 1 (proof_of [] rc rs) ++ [0] /\
       (proof_of [] rc rs <> proof_of kc rc rs -> client_accepts kc ks rc rs = false)).
Proof using digest_size.
  intros Hc Hs Hrc Hrs Ac As.
  destruct (challenge_run kc false rc rs (server_proof kc ks rc rs) (if server_accepts kc ks rc rs then 1 else 0) c outc rmc) as (c' & Ec & Ac');
    [done|done|apply fits_proof|by destruct (server_accepts kc ks rc rs)|done|exact Ac|].
  destruct (challenge_run ks true rs rc (proof_of kc rs rc) (if client_accepts kc ks rc rs then 1 else 0) s outs rms) as (s' & Es & As');
    [done|done|apply fits_proof|by destruct (client_accepts kc ks rc rs)|done|exact As|].
  exists c', s'. rewrite Ec, Es. fold (client_accepts kc ks rc rs) (server_accepts kc ks rc rs). destruct Ac' as [_ _ _ Oc _], As' as [_ _ _ Os _].
  split; [by destruct (server_accepts kc ks rc rs)|]. split; [by destruct (client_accepts kc ks rc rs)|]. split; [done|]. split; [done|].
  unfold client_accepts, server_proof. split.
  - intros ->. assert (server_accepts ks ks rc rs = true) as E by by apply bool_decide_eq_true. rewrite E. cbn [shown_key andb negb]. split; [done|by apply bool_decide_eq_true].
  - intros Hne. assert (server_accepts kc ks rc rs = false) as E by by apply bool_decide_eq_false. split; [done|]. split.
    + unfold to_client, challenge_sent. fold (server_accepts kc ks rc rs). by rewrite E.
    + intros Hne'. rewrite E. by apply bool_decide_eq_false.
Qed.

(** The client takes what it has sent itself for the other side: who sends back
    each message of a client is accepted without knowing the key. *)
Theorem challenge_reflected key r s out rm :
  let echo := challenge_sent key false r r (proof_of key r r) in
  zlen r = 64 -> 131 <= rm -> at_ s echo out rm ->
  exists s', mutualChallengeResponseSHA256Auth key false r s = Ret (s', (true, true)) /\ outgoing (st_io s') = out ++ echo.
Proof using digest_size.
  intros echo Hr Hrm Hs. unfold echo in *. assert (accepts key r r (proof_of key r r) = true) as E by by apply bool_decide_eq_true.
  destruct (challenge_run key false r r (proof_of key r r) 1 s out rm) as (s' & Es & Hs'); [done|done|apply fits_proof|done|done| |].
  { unfold challenge_sent in Hs. by rewrite E in Hs. }
  rewrite E in Es. exists s'. split; [done|apply Hs'].
Qed.
End Auth.

(** ** At concrete inputs *)

(** A digest that is enough to tell keys apart: the first 32 bytes. *)
Definition first_32 : SHA256 := {| sha256_digest x := ztake 32 (x ++ replicate 32 0) |}.
#[local] Existing Instance first_32.

Lemma first_32_size x : zlen (sha256_digest x) = 32.
Proof. cbn [sha256_digest first_32]. rewrite zlen_ztake, zlen_app. change (zlen (replicate 32 0)) with 32. pose proof (zlen_nonneg x). lia. Qed.

Definition random_c : bytes := replicate 64 67.
Definition random_s : bytes := replicate 64 83.

Lemma challenge_mutual_witness :
  (exists c' s' : Stream Wire,
    mutualChallengeResponseSHA256Auth (bs "key") false random_c (wire (to_client (bs "key") (bs "key") random_c random_s) [3; 1]) = Ret (c', (true, true)) /\
    mutualChallengeResponseSHA256Auth (bs "key") true random_s (wire (to_server (bs "key") (bs "key") random_c random_s) [5]) = Ret (s', (true, true))) /\
  (exists c' s' : Stream Wire,
    mutualChallengeResponseSHA256Auth (bs "guess") false random_c (wire (to_client (bs "guess") (bs "key") random_c random_s) []) = Ret (c', (false, false)) /\
    mutualChallengeResponseSHA256Auth (bs "key") true random_s (wire (to_server (bs "guess") (bs "key") random_c random_s) [1]) = Ret (s', (false, false))).
Proof.
  assert (H131 : 131 <= SIZE_MAX) by (vm_compute; discriminate). split.
  - destruct (challenge_mutual first_32_size (bs "key") (bs "key") random_c random_s _ _ [] [] SIZE_MAX SIZE_MAX eq_refl eq_refl H131 H131
      (wire_at _ [3; 1]) (wire_at _ [5])) as (c' & s' & Ec & Es & _ & _ & Hk & _).
    destruct (Hk eq_refl) as [-> ->] in Ec, Es. exists c', s'. by split.
  - destruct (challenge_mutual first_32_size (bs "guess") (bs "key") random_c random_s _ _ [] [] SIZE_MAX SIZE_MAX eq_refl eq_refl H131 H131
      (wire_at _ []) (wire_at _ [1])) as (c' & s' & Ec & Es & _ & _ & _ & Hk).
    destruct Hk as (-> & _ & Hc) in Ec, Es; [vm_compute; discriminate|]. rewrite Hc in Ec, Es by (vm_compute; discriminate). exists c', s'. by split.
Defined.

(** A socket that sends back what is written to it. *)
#[local] Instance echo_io : StreamIO bytes := {|
  partialRead n q := Ret (zdrop n q, Some (ztake n q)); partialWrite data q := Ret (q ++ data, zlen data); shutdownSocket _ q := q |}.

(** A client before its own echo. *)
Example challenge_echo : exists s' : Stream bytes, mutualChallengeResponseSHA256Auth (bs "key") false random_c (Stream_new []) = Ret (s', (true, true)).
Proof. eexists. vm_compute. reflexivity. Qed.
